(* ===== verification/_CoqProject ===== *)
-Q . S2P
Prelude.v
BitField.v
IntMath.v
AddrRange.v
Interleave.v
ChunkGen.v
PortProxy.v
AddrRangeMap.v
CxlPacket.v
CxlPrint.v
MemPacket.v
SnoopFilter.v
Clocked.v
PacketQueue.v
XBarLayer.v
XBar.v
HostXBar.v
HostTiming.v
HomeAgent.v
DCOH.v
BridgeConfig.v
Serialize.v
BridgeState.v
BridgePorts.v
Protocol.v
EventQueue.v
EventSim.v
EventLoop.v
CoherentXBar.v
DevXBar.v
AbstractMem.v
SimpleMem.v
Functional.v
NoncoherentXBar.v
DmaPort.v
CxlProcessor.v
PciDevice.v
PciHost.v
Drain.v
Indexing.v
SatCounter.v
Replacement.v
TreePlru.v
CacheBlk.v
Tags.v
FaLru.v
