(* ===== verification/Prelude.v ===== *)
(** Verification of gem5_CXL, the extension of the gem5 simulator with a CXL
    device (the code under [src/gem5/src]).

    * The program

    The extension puts a CXL type-2 device with memory of its own behind a PCIe
    bridge.  Host requests come down through the bridge, whose home agent turns
    them into CXL.mem messages; the device coherence engine answers them and keeps
    a bias table that says for every page of device memory whether the host or
    the device may use it without asking.  The device reaches its own memory and
    the host's through its crossbar and the bridge, with CXL.cache messages and
    coherence checks.  On the host side a coherent crossbar with a snoop filter
    connects caches, memory and the root complex; it keeps a second, fake snoop
    filter of the host lines that the device has fetched, and sends host reads of
    these to the device.  Everything rests on gem5's packets, address ranges,
    clocks, crossbar layers and bit operations, which are modelled as far as this
    code uses them.

    * The files

    - [Prelude]: the outcome monad (a value, or the way a run ends: a failed
      assertion, [panic], [fatal], or undefined behaviour), [safe] (no assertion
      fails, and a result satisfies a predicate), fixed-width integers, tactics,
      lemmas on lists and integers.
    - [BitField] and [IntMath]: [base/bitfield.hh] and [base/intmath.hh].
    - [AddrRange] and [Interleave]: class [AddrRange] of [base/addr_range.hh],
      with the flat addresses of interleaved ranges; [AddrRangeMap]: the decoder
      of [base/addr_range_map.hh] with its cache of recent entries.
    - [ChunkGen] and [PortProxy]: [base/chunk_generator.hh], and the transfers by
      physical address of [mem/port_proxy.cc].
    - [CxlPacket] and [CxlPrint]: the message classes of [mem/cxl], their
      constructors, sizes and printed form.
    - [MemPacket]: the command table, packets and requests of [mem/packet.hh],
      [mem/packet.cc] and [mem/request.hh].
    - [SnoopFilter]: [mem/snoop_filter.hh] and [mem/snoop_filter.cc].
    - [XBarLayer] and [XBar]: the layers of a crossbar, and its address decoding,
      range changes and packet timing, in [mem/xbar.hh] and [mem/xbar.cc].
    - [HostXBar] and [HostTiming]: the atomic and the timing path of the host
      crossbar, [mem/cxl_host_xbar.cc].  The three crossbars are copies of one
      another that differ in how they find a port and record a route; [Routes] of
      [HostTiming] is that difference, and [routed_request] what they share.
    - [CoherentXBar]: gem5's own crossbar, [mem/coherent_xbar.cc], and its
      agreement with the host's away from the centre; [DevXBar]: the crossbar of the
      device, [dev/cxl/TestDev/CXLXBar.cc], with its bias check; [NoncoherentXBar]: the
      crossbar without snoops, [mem/noncoherent_xbar.cc], with its histories.
    - [HomeAgent]: [PciBridge::HomeAgent] in [mem/PciBridge.cc].
    - [DCOH]: the coherence engine and handlers of
      [dev/cxl/TestDev/CXLDevice.cc].
    - [BridgeConfig]: the configuration space of a bridge port ([config_class]).
    - [Serialize]: the text of a checkpoint and its reader, [sim/serialize.hh] and
      [base/inifile.cc]; [BridgeState]: construction, routing, announced ranges and
      checkpoints of the bridge.
    - [Clocked]: [sim/clocked_object.hh]; [PacketQueue]: the packet queues of
      ports, [mem/packet_queue.cc].
    - [BridgePorts]: the timing ports of the bridge, a transition system of
      handlers with queues, events, retries and the routing table.
    - [Protocol]: the atomic path across bridge, device and device crossbar.
    - [EventQueue], [EventSim] and [EventLoop]: [sim/eventq.hh], [sim/eventq.cc] and
      [doSimLoop] of [sim/simulate.cc]: the linked bins of a queue on a heap of
      events; scheduling, service, asynchronous insertions and checkpoints; the loop
      and its histories.
    - [AbstractMem]: the memory with its reservations and back door,
      [mem/abstract_mem.cc], and the data accessors of packets; [SimpleMem]: the
      memory controller, [mem/simple_mem.cc]; [Functional]: accesses that take no time
      and look for their bytes in the packets on their way, across queues, bridge,
      crossbars and memory controller.
    - [DmaPort]: the port of a DMA device, [dev/dma_device.cc]; [CxlProcessor]: the
      port of the processor inside the CXL device, [dev/cxl/TestDev/CXLProcessor.cc].
    - [PciDevice]: configuration space, base address registers and ranges of a PCI device,
      from which the CXL device inherits, [dev/pci/device.cc]; [PciHost]: configuration
      accesses to devices and bridges, [dev/pci/host.cc].
    - [Drain]: the drain manager and its objects, [sim/drain.cc].
    - [Indexing], [SatCounter], [Replacement], [TreePlru], [CacheBlk], [Tags] and
      [FaLru]: the tags of the caches, in [mem/cache/tags], [mem/cache/replacement_policies],
      [mem/cache/cache_blk.hh] and [base/sat_counter.hh]: where a block may be, counters
      that saturate, which block to give up, the state and the locks of a block, and
      the store that puts them together; and the fully associative store, which also
      tracks smaller caches.

    Definitions keep the names of the source.  State is passed explicitly: a
    handler takes the state and the packet and returns both with its result.
    Code outside the modelled components is an argument with a class that states
    what is relied on: [SnoopPort] (the host caches behind the bridge),
    [MemoryPort] (the memory behind the device), [FunctionalMemory] (the memory
    behind a proxy), [AtomicPeers] and [TimingPeers] (the caches above and the
    memory below the host crossbar), [TameAtomic] and [TamePeers] (peers that keep
    the identity and the kind of a request), [QuietSnoops] (snooped caches that keep
    the address and the kind of a packet),
    [Param] and [ParamLaws] (how values of a type are written to a checkpoint and read
    back), [EventHandler] and [SignalServices] (what an event
    does when it is processed, and what the loop calls for a signal), and plain
    functions for the ranges peers announce and for what a peer answers to a send.
    None of these classes has a peer leave the request object alone: a snooped cache notes
    the states of the block there, and the bridge makes a CXL message of it, so a class
    says only what stays.  That is the identity of the object, and either its kind
    ([same_kind]) or whether it is a coherence check or an answer to a snoop
    ([same_object]).
    The tags of a cache are proved against the classes [IndexingPolicy] and
    [ReplacementPolicy], which the policies implement.

    * What is shown

    - Ports: response space is reserved and never exceeded, no assertion fails in
      any interleaving of ordinary traffic, and a stalled request is retried
      ([response_space], [ports_never_assert], [stalled_retried]); ordinary
      traffic is requests that want a response, are neither coherence checks nor snoops
      of the device, and have a request object of their own, with time below 2^62 ticks.
    - Protocol: a host access to device memory is answered and leaves the page in
      host bias; a device access asks the host exactly in host bias, and the page
      changes hands exactly if the host caches hold no copy ([host_access],
      [device_access]).  Both are of atomic mode.
    - Host crossbar: an ordinary request of a cache, atomic or timing, never stops
      the simulation and ends answered, taken or refused without a trace; the
      snoop filter stays right about every copy, and an invalidating request
      leaves no other copy; responses return to where their requests came from;
      over all histories of atomic requests the fake snoop filter holds exactly the
      lines that a CXL message has fetched and no exclusive read of the host has taken
      back without leaving such a message itself ([atomic_keeps_filter], [timing_request], [timing_response],
      [timing_snoop_response], [fake_filter_history]).
    - Crossbars: away from the centre the host crossbar and gem5's answer every
      request and response alike ([host_is_coherent]); the device crossbar does what
      gem5's does for requests it does not check ([device_ordinary]), and turns a
      request of the processor to device memory into a check that comes back and goes
      on as the request ([checked_request], [refused_check], [bias_latency_lost]).  The
      crossbar without snoops sends every response to where its request came from and
      forgets no source that it has refused, over all histories of its ports and layers in
      which no coherence check is refused behind it;
      one that is refused leaves nobody waiting, and sending it again is fatal ([noncoherent_history],
      [check_refusal_fatal], [atomic_forwarded]).
    - Snoop filter and layers: over all histories the filter tracks the requests
      in flight exactly and every copy, and a call stops exactly when a snoop from below
      is for an unknown line while the filter is full, or has one of nine commands for a
      line that is known; a layer meets no
      assertion and tells every waiting source to retry; a packet queue always has
      its event or a retry coming and keeps the order; the decoder answers as a
      search without cache and order would, and follows the announced ranges.
    - Events: the linked bins implement a sequence ordered by time and priority, with
      the latest first among equals; over all histories of a simulation every event is
      in its queue exactly when its flags say so, and time never goes back; the
      destructor ends; what a descheduled and a restored event meet
      ([queue_refines], [event_order], [time_forward], [destroy_terminates],
      [deschedule_found], [restored_events]).
    - Memory: a read finds the last write of each byte; a store conditional succeeds
      exactly when its context has linked the granule and no write has started in it
      since, which is what the comments promise on histories whose writes stay in their
      granule, without swaps and functional writes; the memory controller in time leaves what the accepted
      requests leave one after the other, sends each response once and in order for an
      address, and never stops ([write_then_read], [conditional_by_history],
      [no_door_while_linked], [timing_is_atomic], [memory_never_stuck]).
    - Functional accesses: what a read finds in the packets on their way, that a read
      after a write finds its bytes, and that the central crossbar cannot serve one for
      a line that the device has fetched ([functional_read], [functional_write_read],
      [fetched_functional_panics]).
    - DMA and processor: in timing mode every transfer of a DMA port that is not aborted
      is sent chunk by chunk and completes once, and the port always has something coming
      while it has work; a response inside the send of its request fails an assertion
      ([dma_transfers], [dma_never_stuck], [atomic_transfer]); the processor of the
      device accesses memory in atomic mode, and in timing mode no access ends
      ([processor_access], [processor_never_ends]).
    - PCI: a device answers exactly the ranges that the bytes of its configuration space
      describe, and software finds the size of a memory register and places it through
      the host, with no effect on anything else ([device_decodes_config],
      [pci_enumeration]).
    - Draining: over all histories the manager counts the objects that still drain, and
      reports the end of draining exactly when all have drained, and an operation panics
      exactly when it is refused in the state it comes in; draining ends once
      every object has signalled ([drain_protocol], [drain_completes]).
    - Caches: the tags implement a map from blocks to entries for all policies
      ([tags_are_a_map]); fully associative tags are a stack of blocks, with masks that
      say which smaller caches would hold a block ([falru_is_a_stack]); sets and ways give back the address of a block
      ([skewed_roundtrip], [set_associative_roundtrip]); the ticks of LRU are the order
      of use, the search for a second chance ends, BRRIP ages all candidates alike, and
      the trees of pseudo-LRU fill all leaves in turn and point where they are told
      ([lru_refines], [second_chance_terminates], [brrip_victim], [plru_fills],
      [plru_points]); a counter is an integer cut off at its ends ([counter_saturates]);
      a conditional write to a line succeeds exactly by the history of its locks
      ([conditional_write_by_history]).
    - Coherence engine: the bias table refines a map with host bias by default,
      for single calls and for histories, responses never take a page from the
      host, and the snoop responses follow the states of the block.
    - Home agent: which commands and opcodes are translated into which messages,
      and the agreement of the atomic and timing coherence checks.
    - Configuration: a write changes only the bytes it addresses and never the
      identity registers, what is read back after a write, and the windows the
      registers describe ([config_readback], [writeConfig_frame], [window_spec]).
    - Bridge state: routing by address and by bus, its agreement with the
      announced ranges, the ranges announced downstream; software that programs a window
      makes the bridge route and announce exactly its addresses ([programmed_window]);
      the text of a checkpoint restores the bridge and the ranges of its four ports
      ([checkpoint_roundtrip]).
    - Address ranges, chunks, messages, commands, clocks, bits and integers: the
      set a range describes under every operation, the round trip between
      interleaved and flat addresses, the tiling of a region by chunks and the
      transfers over it, message sizes and names, the consistency of the command
      table, clock edges, and the arithmetic helpers against their mathematical
      meaning.

    * Bounds

    Integers are [Z] with the wrap-around of their width written where the source
    computes them.  Definitions are structural or total, with these exceptions.  The
    loop over the chunks of a region has the size of the region as fuel, enough since
    every chunk has at least one byte ([chunks_tile]).  The loops over the linked
    events of a queue have one more than the number of events ([loop_bound]), enough
    since the events of a chain are distinct; a chain that is longer is a cycle, and
    the loop is undefined.  Transfers of a DMA port and of the processor have their size as
    fuel, for the same reason as the chunks.  The search for a second chance has one more
    round than there are candidates ([second_chance_terminates]), and the walks in a tree
    of pseudo-LRU one more step than it has nodes; the loops along the list of a fully
    associative store one more than it has blocks.  Resuming goes on while objects create others, and is
    given the number of its rounds.  The simulation loop runs until an exit event and is given
    the number of its iterations.
    The host is little-endian.  Trace output ([DPRINTF], [printf]) is left out;
    the accessors that its arguments call are kept where they assert.  The product of
    a size and the [double] bandwidth of a memory, and the numbers it draws for its
    latency, are arguments.

    * Not modelled

    The controllers of the caches ([mem/cache/base.cc], [mem/cache/cache.cc]) with their
    miss queues and prefetchers, where the extension lets CXL packets pass an I/O cache by,
    tags of sectors and of compressed blocks, the SHiP and dueling policies: the crossbars
    are shown for all caches that answer as their classes say, so that nothing here depends
    on them.  The earlier classes [CxlDevice] and [CxlHost] and the capability structures of
    PCI devices are left out.  Ruby is generated in part and is not on the path of
    the CXL device.  Instruction sets, processors, the GPU model and the other devices are
    gem5's own.  Of the DMA devices the read FIFO and back doors, of the simulation kernel
    construction, statistics and threads are left out. *)
From Stdlib Require Import ZArith Lia String.
From stdpp Require Import base numbers list gmap strings.

Open Scope Z_scope.

(** * Outcomes: the error paths of the simulator as values *)

(** Why a call of the simulator does not return: [panic]/[panic_if], [fatal],
    a failed [assert], an out-of-range read the language leaves undefined, or
    the use of a variable or a field that no path has initialised. *)
Inductive failure : Type :=
  | Panic
  | Fatal
  | AssertFail
  | Undefined.

Inductive outcome (A : Type) : Type :=
  | Ok (a : A)
  | Err (e : failure).
Arguments Ok {A} a.
Arguments Err {A} e.

#[export] Instance failure_eq_dec : EqDecision failure.
Proof. solve_decision. Defined.

#[export] Instance outcome_eq_dec {A} `{EqDecision A} : EqDecision (outcome A).
Proof. solve_decision. Defined.

Definition obind {A B} (m : outcome A) (f : A -> outcome B) : outcome B :=
  match m with
  | Ok a => f a
  | Err e => Err e
  end.

Definition assert_ (b : bool) : outcome unit :=
  if b then Ok tt else Err AssertFail.

Definition panic_if (b : bool) : outcome unit :=
  if b then Err Panic else Ok tt.

Definition fatal_if (b : bool) : outcome unit :=
  if b then Err Fatal else Ok tt.

Definition is_ok {A} (m : outcome A) : bool :=
  match m with Ok _ => true | Err _ => false end.

Declare Scope sim_scope.
Delimit Scope sim_scope with sim.
Open Scope sim_scope.

Notation "'let!' x := m 'in' k" := (obind m (fun x => k))
  (at level 10, x pattern, m at level 100, k at level 200) : sim_scope.
Notation "'do!' m 'then' k" := (obind m (fun _ => k))
  (at level 10, m at level 100, k at level 200) : sim_scope.

Lemma obind_Ok {A B} (m : outcome A) (f : A -> outcome B) b :
  obind m f = Ok b -> exists a, m = Ok a /\ f a = Ok b.
Proof. destruct m; simpl; intros; [eauto | discriminate]. Qed.

Lemma obind_assoc {A B C} (m : outcome A) (f : A -> outcome B) (g : B -> outcome C) :
  obind (obind m f) g = obind m (fun a => obind (f a) g).
Proof. by destruct m. Qed.

(** [safe m P]: the computation does not fail an assertion, and what it returns
    satisfies [P]. *)
Definition safe {A} (m : outcome A) (P : A -> Prop) : Prop :=
  match m with
  | Ok a => P a
  | Err e => e <> AssertFail
  end.

Lemma safe_bind {A B} (m : outcome A) (f : A -> outcome B) (Q : A -> Prop) (P : B -> Prop) :
  safe m Q -> (forall a, Q a -> safe (f a) P) -> safe (obind m f) P.
Proof. destruct m; simpl; auto. Qed.

Lemma safe_mono {A} (m : outcome A) (P Q : A -> Prop) :
  safe m P -> (forall a, P a -> Q a) -> safe m Q.
Proof. destruct m; simpl; auto. Qed.

Lemma safe_assert b (P : unit -> Prop) : b = true -> P tt -> safe (assert_ b) P.
Proof. intros ->. auto. Qed.

(** * Machine integers: a [w]-bit unsigned integer is a [Z] in [0, 2^w) *)

Definition wrap (w x : Z) : Z := x mod 2 ^ w.
Abbreviation u8 x := (wrap 8 x).
Abbreviation u16 x := (wrap 16 x).
Abbreviation u32 x := (wrap 32 x).
Abbreviation u64 x := (wrap 64 x).

(** [~x] of a [w]-bit unsigned integer. *)
Definition wnot (w x : Z) : Z := wrap w (Z.lnot x).

Definition in_width (w x : Z) : Prop := 0 <= x < 2 ^ w.

(** A C truth value of an integer. *)
Definition truthy (x : Z) : bool := negb (x =? 0).

Create HintDb width.
Create Rewrite HintDb zbit.

Lemma wrap_range w x : 0 <= w -> in_width w (wrap w x).
Proof. intros. unfold in_width, wrap. apply Z.mod_pos_bound. lia. Qed.

Lemma wrap_small w x : in_width w x -> wrap w x = x.
Proof. intros. apply Z.mod_small. auto. Qed.

Lemma wrap_idem w x : 0 <= w -> wrap w (wrap w x) = wrap w x.
Proof. intros. apply wrap_small, wrap_range; auto. Qed.

Lemma in_width_mono v w x : v <= w -> in_width v x -> in_width w x.
Proof.
  unfold in_width. intros Hvw [? Hx]. split; [lia |].
  apply Z.lt_le_trans with (1 := Hx). apply Z.pow_le_mono_r; lia.
Qed.

Lemma in_width_nonneg w x : in_width w x -> 0 <= x.
Proof. unfold in_width; lia. Qed.

Lemma wrap_testbit w x i : 0 <= w -> 0 <= i ->
  Z.testbit (wrap w x) i = (i <? w) && Z.testbit x i.
Proof.
  intros. unfold wrap. destruct (Z.ltb_spec i w).
  - rewrite Z.mod_pow2_bits_low; auto.
  - rewrite Z.mod_pow2_bits_high; auto.
Qed.

Lemma in_width_testbit w x i : in_width w x -> w <= i -> 0 <= w -> Z.testbit x i = false.
Proof.
  intros Hx Hi Hw. rewrite <- (wrap_small w x Hx).
  rewrite wrap_testbit by lia. destruct (Z.ltb_spec i w); [lia | done].
Qed.

Lemma in_width_of_bits w x : 0 <= w -> 0 <= x ->
  (forall i, w <= i -> Z.testbit x i = false) -> in_width w x.
Proof.
  intros Hw Hx Hb. assert (wrap w x = x) as <-; [| by apply wrap_range].
  apply Z.bits_inj'. intros i Hi. rewrite wrap_testbit by lia.
  destruct (Z.ltb_spec i w); [done |]. symmetry. by apply Hb.
Qed.

Lemma land_in_width_l w x y : 0 <= w -> in_width w x -> in_width w (Z.land x y).
Proof.
  intros Hw Hx. apply in_width_of_bits; auto.
  - apply Z.land_nonneg. left. by eapply in_width_nonneg.
  - intros i Hi. by rewrite Z.land_spec, (in_width_testbit w x i).
Qed.

Lemma land_in_width_r w x y : 0 <= w -> in_width w y -> in_width w (Z.land x y).
Proof. rewrite Z.land_comm. apply land_in_width_l. Qed.

Lemma lor_in_width w x y : 0 <= w -> in_width w x -> in_width w y -> in_width w (Z.lor x y).
Proof.
  intros Hw Hx Hy. apply in_width_of_bits; auto.
  - apply Z.lor_nonneg. split; by eapply in_width_nonneg.
  - intros i Hi. by rewrite Z.lor_spec, (in_width_testbit w x i), (in_width_testbit w y i).
Qed.

Lemma shiftr_in_width w x n : 0 <= w -> 0 <= n -> in_width w x -> in_width w (Z.shiftr x n).
Proof.
  intros Hw Hn Hx. apply in_width_of_bits; auto.
  - apply Z.shiftr_nonneg. by eapply in_width_nonneg.
  - intros i Hi. rewrite Z.shiftr_spec by lia. apply (in_width_testbit w); auto; lia.
Qed.

Lemma wnot_testbit w x i : 0 <= w -> 0 <= i ->
  Z.testbit (wnot w x) i = (i <? w) && negb (Z.testbit x i).
Proof. intros. unfold wnot. rewrite wrap_testbit, Z.lnot_spec by lia. done. Qed.

Lemma ones_testbit n i : 0 <= n -> 0 <= i -> Z.testbit (Z.ones n) i = (i <? n).
Proof.
  intros. destruct (Z.ltb_spec i n).
  - rewrite Z.ones_spec_low; auto.
  - rewrite Z.ones_spec_high; auto.
Qed.

Lemma ones_in_width n w : 0 <= n <= w -> in_width w (Z.ones n).
Proof.
  intros. rewrite Z.ones_equiv. unfold in_width.
  assert (2 ^ n <= 2 ^ w) by (apply Z.pow_le_mono_r; lia). lia.
Qed.

#[export] Hint Resolve wrap_range land_in_width_l lor_in_width shiftr_in_width
  ones_in_width : width.
#[export] Hint Resolve in_width_nonneg : width.
#[export] Hint Extern 1 (0 <= _) => lia : width.

#[export] Hint Rewrite Z.land_spec Z.lor_spec Z.lxor_spec Z.ldiff_spec Z.bits_0 : zbit.
#[export] Hint Rewrite wrap_testbit wnot_testbit ones_testbit Z.lnot_spec
  Z.shiftl_spec Z.shiftr_spec using lia : zbit.

(** Case analysis on every boolean comparison of integers in sight. *)
Ltac zcases :=
  repeat match goal with
  | |- context [?a <? ?b] => destruct (Z.ltb_spec a b)
  | |- context [?a <=? ?b] => destruct (Z.leb_spec a b)
  | |- context [?a =? ?b] => destruct (Z.eqb_spec a b)
  | H : context [?a <? ?b] |- _ => destruct (Z.ltb_spec a b)
  | H : context [?a <=? ?b] |- _ => destruct (Z.leb_spec a b)
  | H : context [?a =? ?b] |- _ => destruct (Z.eqb_spec a b)
  end.

(** Equality of integers bit by bit. *)
Ltac zbitwise :=
  let i := fresh "i" in
  apply Z.bits_inj'; intros i ?; autorewrite with zbit.

Lemma Ok_inj {A} (a b : A) : Ok a = Ok b -> a = b.
Proof. congruence. Qed.

(** Peel one successful step off a monadic computation. *)
Ltac obind_inv :=
  repeat match goal with
  | H : obind _ _ = Ok _ |- _ =>
      let a := fresh "a" in let H1 := fresh "Hm" in
      apply obind_Ok in H; destruct H as (a & H1 & H)
  | H : assert_ ?b = Ok _ |- _ =>
      let E := fresh "Hassert" in
      unfold assert_ in H; destruct b eqn:E; [clear H | discriminate H]
  | H : fatal_if ?b = Ok _ |- _ =>
      let E := fresh "Hguard" in
      unfold fatal_if in H; destruct b eqn:E; [discriminate H | clear H]
  | H : panic_if ?b = Ok _ |- _ =>
      let E := fresh "Hguard" in
      unfold panic_if in H; destruct b eqn:E; [discriminate H | clear H]
  | H : Ok _ = Ok _ |- _ => injection H as H; subst
  end.

(** Inverting a run of binds, with the tuples in between. *)
Ltac run_steps := repeat (obind_inv; match goal with a : (_ * _)%type |- _ => destruct a end); obind_inv.

(** * Lists *)

Lemma filter_none {A} (P : A -> Prop) `{forall x, Decision (P x)} (l : list A) :
  (forall x, x ∈ l -> ~ P x) -> filter P l = [].
Proof.
  induction l as [| x l IH]; [done |]. intros Hl.
  rewrite filter_cons_False by (apply Hl; left). apply IH. intros. apply Hl. by right.
Qed.

Lemma fold_left_inv {A B} (P : A -> Prop) (f : A -> B -> A) l a :
  P a -> (forall a b, In b l -> P a -> P (f a b)) -> P (fold_left f l a).
Proof.
  revert a. induction l as [| b l IH]; simpl; intros a Ha Hf; [done |].
  apply IH; auto.
Qed.
