(* ===== verification/BitField.v ===== *)
(** Bit-field helpers: [src/gem5/src/base/bitfield.hh] and [bitfield.cc].

    The templates are modelled at [T = uint64_t], the instance the memory
    system uses; a value is a [Z] in [0, 2^64).  [assert]s are kept, and a shift
    count outside the width of the type is [Undefined], as in the language. *)
From Stdlib Require Import ZArith Lia.
From stdpp Require Import base numbers list.
From S2P Require Import Prelude.

Open Scope Z_scope.

(** [uint64_t mask(unsigned nbits)]. *)
Definition mask (nbits : Z) : Z :=
  if 64 <=? nbits then 2 ^ 64 - 1 else Z.shiftl 1 nbits - 1.

(** [T bits(T val, unsigned first, unsigned last)]. *)
Definition bits (val first last : Z) : outcome Z :=
  do! assert_ (last <=? first) then
  if 64 <=? last then Err Undefined
  else Ok (Z.land (Z.shiftr val last) (mask (u32 (first - last + 1)))).

(** [T bits(T val, unsigned bit)]. *)
Definition bits1 (val bit : Z) : outcome Z := bits val bit bit.

(** [T mbits(T val, unsigned first, unsigned last)]. *)
Definition mbits (val first last : Z) : Z :=
  Z.land val (Z.land (mask (u32 (first + 1))) (wnot 64 (mask last))).

(** [uint64_t mask(unsigned first, unsigned last)]. *)
Definition mask2 (first last : Z) : Z := mbits (2 ^ 64 - 1) first last.

(** [uint64_t sext(uint64_t val, int N)] and the template [sext<N>]. *)
Definition sext (val N : Z) : outcome Z :=
  let! sign_bit := bits1 val (N - 1) in
  Ok (if truthy sign_bit then Z.lor val (wnot 64 (mask N)) else val).

(** [szext<N>(uint64_t val)]. *)
Definition szext (val N : Z) : outcome Z :=
  let! sign_bit := bits1 val (N - 1) in
  Ok (if truthy sign_bit then Z.lor val (wnot 64 (mask N))
      else Z.land val (mask N)).

(** [T insertBits(T val, unsigned first, unsigned last, B bit_val)]. *)
Definition insertBits (val first last bit_val : Z) : outcome Z :=
  do! assert_ (last <=? first) then
  if 64 <=? last then Err Undefined else
  let bmask := mask2 first last in
  let val := Z.land val (wnot 64 bmask) in
  Ok (Z.lor val (Z.land (u64 (Z.shiftl (u64 bit_val) last)) bmask)).

(** [void replaceBits(T& val, unsigned first, unsigned last, B bit_val)]: the
    new value of the reference. *)
Definition replaceBits (val first last bit_val : Z) : outcome Z :=
  insertBits val first last bit_val.

(** One halving step of the binary searches below:
    [if (c) { pos += n; val >>= n; }]. *)
Definition halve (c : bool) (n : Z) (st : Z * Z) : Z * Z :=
  let (pos, val) := st in
  if c then (pos + n, Z.shiftr val n) else (pos, val).

(** [int findMsbSet(uint64_t val)]. *)
Definition findMsbSet (val : Z) : outcome Z :=
  if negb (truthy val) then Ok 0 else
  let st := (0, val) in
  let! b := bits st.2 63 32 in let st := halve (truthy b) 32 st in
  let! b := bits st.2 31 16 in let st := halve (truthy b) 16 st in
  let! b := bits st.2 15 8 in let st := halve (truthy b) 8 st in
  let! b := bits st.2 7 4 in let st := halve (truthy b) 4 st in
  let! b := bits st.2 3 2 in let st := halve (truthy b) 2 st in
  let! b := bits st.2 1 1 in
  Ok (if truthy b then st.1 + 1 else st.1).

(** [int findLsbSetFallback(uint64_t val)]. *)
Definition findLsbSetFallback (val : Z) : outcome Z :=
  if negb (truthy val) then Ok 64 else
  let st := (0, val) in
  let! b := bits st.2 31 0 in let st := halve (negb (truthy b)) 32 st in
  let! b := bits st.2 15 0 in let st := halve (negb (truthy b)) 16 st in
  let! b := bits st.2 7 0 in let st := halve (negb (truthy b)) 8 st in
  let! b := bits st.2 3 0 in let st := halve (negb (truthy b)) 4 st in
  let! b := bits st.2 1 0 in let st := halve (negb (truthy b)) 2 st in
  let! b := bits st.2 0 0 in
  Ok (if negb (truthy b) then st.1 + 1 else st.1).

(** [int popCount(uint64_t val)] on the platforms with [__builtin_popcountl]:
    the number of ones of the value. *)
Fixpoint popCount_pos (p : positive) : Z :=
  match p with
  | xH => 1
  | xO p => popCount_pos p
  | xI p => 1 + popCount_pos p
  end.
Definition popCount (val : Z) : Z :=
  match val with Zpos p => popCount_pos p | _ => 0 end.

(** [__builtin_ctzll] of a non-zero value: the number of trailing zeros. *)
Fixpoint ctz_pos (p : positive) : Z :=
  match p with xO p => 1 + ctz_pos p | _ => 0 end.
Definition builtin_ctz (val : Z) : Z :=
  match val with Zpos p => ctz_pos p | _ => 0 end.

(** [int findLsbSet(uint64_t val)], with the builtin. *)
Definition findLsbSet (val : Z) : Z := if val =? 0 then 64 else builtin_ctz val.

Definition ctz32 (value : Z) : Z := if truthy value then builtin_ctz value else 32.
Definition ctz64 (value : Z) : Z := if truthy value then builtin_ctz value else 64.

(** [uint64_t alignToPowerOfTwo(uint64_t val)]. *)
Definition alignToPowerOfTwo (val : Z) : Z :=
  let val := u64 (val - 1) in
  let val := Z.lor val (Z.shiftr val 1) in
  let val := Z.lor val (Z.shiftr val 2) in
  let val := Z.lor val (Z.shiftr val 4) in
  let val := Z.lor val (Z.shiftr val 8) in
  let val := Z.lor val (Z.shiftr val 16) in
  let val := Z.lor val (Z.shiftr val 32) in
  u64 (val + 1).

(** * Masks and slices *)

Lemma mask_ones n : 0 <= n -> mask n = Z.ones (Z.min n 64).
Proof.
  intros. unfold mask. rewrite Z.ones_equiv. destruct (Z.leb_spec 64 n).
  - rewrite Z.min_r by lia. reflexivity.
  - rewrite Z.min_l, Z.shiftl_1_l by lia. lia.
Qed.

Lemma mask_testbit n i : 0 <= n -> 0 <= i ->
  Z.testbit (mask n) i = (i <? n) && (i <? 64).
Proof. intros. rewrite mask_ones, ones_testbit by lia. zcases; simpl; lia. Qed.

#[export] Hint Rewrite mask_testbit using lia : zbit.

Lemma mask2_testbit first last i : 0 <= last <= first -> first < 2 ^ 32 - 1 -> 0 <= i ->
  Z.testbit (mask2 first last) i = (last <=? i) && (i <=? first) && (i <? 64).
Proof.
  intros. unfold mask2, mbits. rewrite (wrap_small 32) by (unfold in_width; lia). change (2 ^ 64 - 1) with (Z.ones 64).
  autorewrite with zbit. zcases; simpl; lia.
Qed.

#[export] Hint Rewrite mask2_testbit using lia : zbit.

(** The bits of an insertion. *)
Lemma insertBits_testbit val first last v :
  in_width 64 val -> 0 <= last <= first -> first < 64 ->
  exists v', insertBits val first last v = Ok v' /\ in_width 64 v' /\
    forall i, 0 <= i < 64 -> Z.testbit v' i =
      if (last <=? i) && (i <=? first) then Z.testbit v (i - last) else Z.testbit val i.
Proof.
  intros Hval Hr Hf. unfold insertBits, assert_.
  destruct (Z.leb_spec last first); [cbn [obind] | lia].
  destruct (Z.leb_spec 64 last); [lia |]. eexists; split; [done |]. split.
  - apply lor_in_width; [lia | auto with width | apply land_in_width_l; auto with width].
  - intros i Hi. autorewrite with zbit. zcases; simpl;
      rewrite ?andb_false_r, ?andb_true_r, ?orb_false_r; auto; try lia.
    cbn [orb]. rewrite wrap_testbit by lia. destruct (Z.ltb_spec (i - last) 64); [done | lia].
Qed.

Lemma bits_slice val first last : 0 <= last <= first -> last < 64 -> first < 2 ^ 32 - 1 ->
  bits val first last = Ok (Z.land (Z.shiftr val last) (mask (first - last + 1))).
Proof.
  intros. unfold bits, assert_. destruct (Z.leb_spec last first); [| lia]. simpl.
  destruct (Z.leb_spec 64 last); [lia |]. by rewrite wrap_small by (unfold in_width; lia).
Qed.

(** The slice as quotient and remainder. *)
Lemma bits_divmod val first last : 0 <= last <= first -> first < 64 ->
  bits val first last = Ok (val / 2 ^ last mod 2 ^ (first - last + 1)).
Proof.
  intros. rewrite bits_slice, mask_ones, Z.min_l by lia.
  rewrite Z.land_ones, Z.shiftr_div_pow2 by lia. done.
Qed.

(** [insertBits] followed by [bits] on the same range returns the low bits
    of the inserted value, and every bit outside the range keeps the value it
    had; both calls return for every range inside the 64-bit word. *)
Theorem insertBits_bits val first last bit_val :
  in_width 64 val -> 0 <= last <= first -> first < 64 ->
  exists v', insertBits val first last bit_val = Ok v' /\
    in_width 64 v' /\
    bits v' first last = Ok (bit_val mod 2 ^ (first - last + 1)) /\
    (forall i, 0 <= i -> ~ (last <= i <= first) -> Z.testbit v' i = Z.testbit val i).
Proof.
  intros Hval Hr Hf. unfold insertBits, assert_.
  destruct (Z.leb_spec last first); [simpl | lia].
  destruct (Z.leb_spec 64 last); [lia |]. eexists; split; [done |].
  split; [| split].
  - apply lor_in_width; [lia | auto with width | apply land_in_width_l; auto with width].
  - rewrite bits_slice by lia. f_equal.
    change (_ mod _) with (wrap (first - last + 1) bit_val). zbitwise.
    zcases; simpl; rewrite ?andb_false_r, ?andb_true_r, ?orb_false_r; try lia; auto.
    simpl. f_equal; lia.
  - intros i Hi Hout. autorewrite with zbit.
    destruct (Z.ltb_spec i 64) as [Hi64 | Hi64].
    + zcases; simpl; rewrite ?andb_false_r, ?andb_true_r, ?orb_false_r; try lia; auto.
    + rewrite (in_width_testbit 64 val i) by auto with lia. zcases; simpl; try lia; auto.
Qed.

Lemma insertBits_bits_witness : exists v', insertBits 0xFFFF 7 4 0 = Ok v' /\
    in_width 64 v' /\ bits v' 7 4 = Ok (0 mod 2 ^ (7 - 4 + 1)) /\
    (forall i, 0 <= i -> ~ (4 <= i <= 7) -> Z.testbit v' i = Z.testbit 0xFFFF i).
Proof. apply (insertBits_bits 0xFFFF 7 4 0); unfold in_width; lia. Defined.

(** * Binary searches *)

Lemma truthy_div val n : 0 <= n -> 0 <= val -> truthy (val / 2 ^ n) = (2 ^ n <=? val).
Proof.
  intros Hn Hv. unfold truthy. assert (0 < 2 ^ n) by lia.
  destruct (Z.leb_spec (2 ^ n) val) as [Hle | Hlt].
  - assert (1 <= val / 2 ^ n) by (apply Z.div_le_lower_bound; lia).
    destruct (Z.eqb_spec (val / 2 ^ n) 0); [lia | done].
  - rewrite Z.div_small by lia. done.
Qed.

(** One step of the search for the top bit of a value below [2^(2n)]. *)
Lemma msb_step pos val n m : 0 < n -> m = 2 * n - 1 -> m < 64 -> 0 < val < 2 ^ (2 * n) ->
  exists b, bits val m n = Ok b /\
    let st := halve (truthy b) n (pos, val) in
    st.1 + Z.log2 st.2 = pos + Z.log2 val /\ 0 < st.2 < 2 ^ n.
Proof.
  intros Hn -> Hm [Hv Hlt]. rewrite bits_divmod by lia.
  replace (2 * n - 1 - n + 1) with n by lia. eexists; split; [done |].
  replace (2 * n) with (n + n) in Hlt by lia. rewrite Z.pow_add_r in Hlt by lia.
  rewrite (Z.mod_small (val / 2 ^ n)) by
    (split; [apply Z.div_pos; lia | apply Z.div_lt_upper_bound; lia]).
  rewrite truthy_div by lia. unfold halve.
  destruct (Z.leb_spec (2 ^ n) val); cbn -[Z.pow Z.log2 Z.shiftr]; [| lia].
  rewrite Z.log2_shiftr, Z.shiftr_div_pow2 by lia.
  assert (n <= Z.log2 val) by (apply Z.log2_le_pow2; lia).
  repeat split; [lia | apply Z.div_str_pos; lia | apply Z.div_lt_upper_bound; lia].
Qed.

(** Advance one step of [findMsbSet]. *)
Ltac msb_next n m :=
  match goal with
  | Hv : 0 < ?v < _ |- context [bits ?v m n] =>
      match goal with
      | |- context [halve _ n (?p, v)] =>
          let b := fresh "b" in let E := fresh "E" in let Hs := fresh "Hs" in
          destruct (msb_step p v n m) as (b & E & Hs & ?); [lia | lia | lia | exact Hv |];
          rewrite E; cbn [obind]; clear Hv E;
          destruct (halve (truthy b) n (p, v)) as [? ?]; cbn [fst snd] in *
      end
  end.

(** [findMsbSet] returns the integer logarithm of every 64-bit value (and 0 for
    0, as the code documents). *)
Lemma findMsbSet_log2 val : in_width 64 val -> findMsbSet val = Ok (Z.log2 val).
Proof.
  intros [Hlo Hhi]. unfold findMsbSet, truthy at 1.
  destruct (Z.eqb_spec val 0) as [-> | Hne]; [done |]. cbn [negb fst snd].
  assert (Hv : 0 < val < 2 ^ (2 * 32)) by (simpl Z.mul; lia). clear Hlo Hhi Hne.
  msb_next 32 63. msb_next 16 31. msb_next 8 15. msb_next 4 7. msb_next 2 3.
  rewrite bits_divmod by lia. cbn [obind].
  assert (Hz : exists z, z7 + Z.log2 z = Z.log2 val /\ z8 = z /\ (z = 1 \/ z = 2 \/ z = 3))
    by (exists z8; lia).
  destruct Hz as (u & <- & -> & [-> | [-> | ->]]);
    [change (Z.log2 1) with 0 | change (Z.log2 2) with 1 | change (Z.log2 3) with 1];
    match goal with |- context [truthy ?t] =>
      let v := eval vm_compute in (truthy t) in change (truthy t) with v end;
    f_equal; lia.
Qed.

Lemma ctz_shiftl n v : 0 <= n -> 0 < v -> builtin_ctz (2 ^ n * v) = n + builtin_ctz v.
Proof.
  intros Hn Hv. revert n Hn. apply natlike_ind; [by rewrite Z.pow_0_r, Z.mul_1_l |]. intros n Hn IH.
  rewrite Z.pow_succ_r, <- Z.mul_assoc by lia.
  destruct (2 ^ n * v) as [| p | p] eqn:E; [lia | | lia].
  change (2 * Z.pos p) with (Z.pos (xO p)). cbn [builtin_ctz ctz_pos] in *. lia.
Qed.

(** The builtin returns the position of the lowest set bit. *)
Lemma builtin_ctz_spec v : 0 < v ->
  0 <= builtin_ctz v /\ Z.testbit v (builtin_ctz v) = true /\
  (forall j, 0 <= j < builtin_ctz v -> Z.testbit v j = false).
Proof.
  destruct v as [| p | p]; [lia | intros _ | lia]. cbn [builtin_ctz].
  induction p as [p _ | p (Hn & Ht & Hb) |]; cbn [ctz_pos].
  - repeat split; auto; lia.
  - change (Z.pos p~0) with (2 * Z.pos p). repeat split; [lia | |].
    + rewrite Z.add_comm, Z.add_1_r, Z.double_bits_succ. done.
    + intros j Hj. destruct (Z.eqb_spec j 0) as [-> | Hz]; [apply Z.testbit_even_0 |].
      replace j with (Z.succ (j - 1)) by lia. rewrite Z.double_bits_succ. apply Hb. lia.
  - repeat split; auto; lia.
Qed.

(** One step of the search for the lowest set bit. *)
Lemma lsb_step pos val n m : 0 < n -> m = n - 1 -> m < 64 ->
  0 < val -> val mod 2 ^ (2 * n) <> 0 ->
  exists b, bits val m 0 = Ok b /\
    let st := halve (negb (truthy b)) n (pos, val) in
    st.1 + builtin_ctz st.2 = pos + builtin_ctz val /\ 0 < st.2 /\ st.2 mod 2 ^ n <> 0.
Proof.
  intros Hn -> Hm Hv Hnz. rewrite bits_divmod by lia.
  replace (n - 1 - 0 + 1) with n by lia. eexists; split; [done |].
  rewrite Z.pow_0_r, Z.div_1_r. unfold truthy, halve.
  destruct (Z.eqb_spec (val mod 2 ^ n) 0) as [E | E]; cbn -[Z.pow Z.shiftr Z.modulo]; [| auto].
  assert (Hdiv : val = 2 ^ n * (val / 2 ^ n)) by (apply Z_div_exact_full_2; lia).
  rewrite !Z.shiftr_div_pow2 by lia.
  assert (0 < val / 2 ^ n) by nia.
  repeat split; [| done |].
  - rewrite Hdiv at 2. rewrite ctz_shiftl; lia.
  - intros E2. apply Hnz. replace (2 * n) with (n + n) by lia.
    rewrite Z.pow_add_r, Z.rem_mul_r, E, E2 by lia. lia.
Qed.

(** Advance one step of [findLsbSetFallback]. *)
Ltac lsb_next n m :=
  match goal with
  | Hv : 0 < ?v, Hm : ?v mod _ <> 0 |- context [bits ?v m 0] =>
      match goal with
      | |- context [halve _ n (?p, v)] =>
          let b := fresh "b" in let E := fresh "E" in let Hs := fresh "Hs" in
          destruct (lsb_step p v n m) as (b & E & Hs & ? & ?);
            [lia | lia | lia | exact Hv | exact Hm |];
          rewrite E; cbn [obind]; clear Hv Hm E;
          destruct (halve (negb (truthy b)) n (p, v)) as [? ?]; cbn [fst snd] in *
      end
  end.

Lemma ctz_mod4 v : 0 < v -> v mod 2 ^ 2 <> 0 -> builtin_ctz v = if truthy (v mod 2) then 0 else 1.
Proof.
  intros Hv Hm. destruct (builtin_ctz_spec v Hv) as (H0 & Ht & Hb).
  rewrite <- Z.bit0_mod. set (k := builtin_ctz v) in *.
  destruct (Z.testbit v 0) eqn:E0; cbn.
  - destruct (Z.ltb_spec 0 k); [| lia]. rewrite Hb in E0; [done | lia].
  - assert (k <> 0) by congruence. destruct (Z.ltb_spec 1 k); [| lia].
    exfalso. apply Hm. apply Z.bits_inj'. intros i Hi. rewrite Z.bits_0.
    destruct (Z.ltb_spec i 2); [| apply Z.mod_pow2_bits_high; lia].
    rewrite Z.mod_pow2_bits_low by lia. apply Hb. lia.
Qed.

(** The portable binary search [findLsbSetFallback] and the builtin-based
    [findLsbSet] agree on every 64-bit value, zero included; for a non-zero
    value the common result is the position of the lowest set bit. *)
Theorem findLsbSetFallback_eq val : in_width 64 val ->
  findLsbSetFallback val = Ok (findLsbSet val) /\
  (val <> 0 -> Z.testbit val (findLsbSet val) = true /\
               forall j, 0 <= j < findLsbSet val -> Z.testbit val j = false).
Proof.
  intros [Hlo Hhi]. unfold findLsbSet, findLsbSetFallback, truthy at 1.
  destruct (Z.eqb_spec val 0) as [-> | Hne]; [done |]. cbn [negb fst snd]. split.
  2: { intros _. by apply builtin_ctz_spec; lia. }
  assert (Hv : 0 < val) by lia.
  assert (Hm : val mod 2 ^ (2 * 32) <> 0) by (rewrite Z.mod_small; simpl Z.mul; lia).
  clear Hlo Hhi Hne.
  lsb_next 32 31. lsb_next 16 15. lsb_next 8 7. lsb_next 4 3. lsb_next 2 1.
  rewrite bits_divmod by lia. cbn [obind]. rewrite Z.pow_0_r, Z.div_1_r.
  change (2 ^ (0 - 0 + 1)) with 2. rewrite ctz_mod4 in Hs3 by assumption.
  destruct (truthy (z8 mod 2)); cbn [negb]; f_equal; lia.
Qed.

Lemma findLsbSetFallback_eq_witness :
  findLsbSetFallback 0xA0000000 = Ok (findLsbSet 0xA0000000) /\
  (0xA0000000 <> 0 -> Z.testbit 0xA0000000 (findLsbSet 0xA0000000) = true /\
     forall j, 0 <= j < findLsbSet 0xA0000000 -> Z.testbit 0xA0000000 j = false).
Proof. apply (findLsbSetFallback_eq 0xA0000000). unfold in_width; lia. Defined.

(** * Alignment to a power of two *)

(** A value whose set bits are smeared downwards over [k] positions. *)
Definition smeared (k x y : Z) : Prop :=
  0 <= y /\ forall i, 0 <= i ->
    Z.testbit y i = true <-> exists j, i <= j < i + k /\ Z.testbit x j = true.

Lemma smear_step k x y : 0 < k -> smeared k x y -> smeared (2 * k) x (Z.lor y (Z.shiftr y k)).
Proof.
  intros Hk [Hy Hs]. split.
  { apply Z.lor_nonneg; split; [done | by apply Z.shiftr_nonneg]. }
  intros i Hi. rewrite Z.lor_spec, Z.shiftr_spec, orb_true_iff, !Hs by lia. split.
  - intros [(j & ? & ?) | (j & ? & ?)]; exists j; split; auto; lia.
  - intros (j & ? & ?). destruct (Z.ltb_spec j (i + k)); [left | right]; exists j; split; auto; lia.
Qed.

Lemma smeared_ones k x y : 0 < x -> Z.log2 x < k -> smeared k x y -> y = Z.ones (Z.log2 x + 1).
Proof.
  intros Hx Hk [Hy Hs]. apply Z.bits_inj'. intros i Hi.
  pose proof (Z.log2_nonneg x). rewrite ones_testbit by lia.
  destruct (Z.ltb_spec i (Z.log2 x + 1)).
  - apply Hs; [done |]. exists (Z.log2 x). split; [lia |]. by apply Z.bit_log2.
  - destruct (Z.testbit y i) eqn:E; [| done]. apply Hs in E as (j & ? & Ht); [| done].
    rewrite Z.bits_above_log2 in Ht by lia. done.
Qed.

(** [alignToPowerOfTwo] returns the least power of two that is not below its
    argument, for every argument whose result fits in 64 bits. *)
Lemma alignToPowerOfTwo_spec val :
  0 < val <= 2 ^ 63 -> alignToPowerOfTwo val = 2 ^ Z.log2_up val.
Proof.
  intros Hv. unfold alignToPowerOfTwo.
  rewrite (wrap_small 64 (val - 1)) by (unfold in_width; lia).
  destruct (Z.eqb_spec val 1) as [-> | Hne]; [done |].
  assert (Hx : 0 < val - 1) by lia.
  rewrite Z.log2_up_eqn by lia. change (Z.pred val) with (val - 1). 
  assert (Hl : Z.log2 (val - 1) < 63) by (apply Z.log2_lt_pow2; lia).
  set (x := val - 1) in *.
  assert (S0 : smeared 1 x x).
  { split; [lia |]. intros i Hi. split; [exists i; split; [lia | done] |].
    intros (j & ? & ?). by replace i with j by lia. }
  do 6 (match goal with
        | H : smeared ?k x ?y |- _ => apply smear_step in H; [| lia];
            let k' := eval cbv in (2 * k) in change (2 * k) with k' in H
        end).
  rewrite (smeared_ones 64 x _ Hx ltac:(lia) S0).
  rewrite Z.ones_equiv. pose proof (Z.log2_nonneg x).
  rewrite wrap_small; [f_equal; lia |].
  assert (0 < 2 ^ (Z.log2 x + 1) <= 2 ^ 63) by
    (split; [lia | apply Z.pow_le_mono_r; lia]).
  unfold in_width. lia.
Qed.
