(* ===== verification/IntMath.v ===== *)
(** Integer helpers: [src/gem5/src/base/intmath.hh], at [T = uint64_t]. *)
From Stdlib Require Import ZArith Lia.
From stdpp Require Import base numbers.
From S2P Require Import Prelude BitField.

Open Scope Z_scope.

(** [int floorLog2(T x)] for [T = uint64_t] ([ts = 8]). *)
Definition floorLog2 (x : Z) : outcome Z :=
  do! assert_ (0 <? x) then
  let st := (0, x) in
  let st := halve (truthy (Z.land st.2 0xffffffff00000000)) 32 st in
  let st := halve (truthy (Z.land st.2 0x00000000ffff0000)) 16 st in
  let st := halve (truthy (Z.land st.2 0x000000000000ff00)) 8 st in
  let st := halve (truthy (Z.land st.2 0x00000000000000f0)) 4 st in
  let st := halve (truthy (Z.land st.2 0x000000000000000c)) 2 st in
  Ok (if truthy (Z.land st.2 0x0000000000000002) then st.1 + 1 else st.1).

(** [int ceilLog2(const T& n)]. *)
Definition ceilLog2 (n : Z) : outcome Z :=
  do! assert_ (0 <? n) then
  if n =? 1 then Ok 0 else
  let! r := floorLog2 (n - 1) in
  Ok (r + 1).

(** [bool isPowerOf2(const T& n)]. *)
Definition isPowerOf2 (n : Z) : bool := truthy n && negb (truthy (Z.land n (u64 (n - 1)))).

(** [T divCeil(const T& a, const U& b)]; dividing by zero is undefined. *)
Definition divCeil (a b : Z) : outcome Z :=
  if b =? 0 then Err Undefined else Ok (u64 (u64 (a + b) - 1) / b).

(** [T roundUp(const T& val, const U& align)]. *)
Definition roundUp (val align : Z) : outcome Z :=
  do! assert_ (isPowerOf2 align) then
  let mask := u64 (align - 1) in
  Ok (Z.land (u64 (val + mask)) (wnot 64 mask)).

(** [T roundDown(const T& val, const U& align)]. *)
Definition roundDown (val align : Z) : outcome Z :=
  do! assert_ (isPowerOf2 align) then
  let mask := u64 (align - 1) in
  Ok (Z.land val (wnot 64 mask)).

(** [int log2i(int value)]. *)
Definition log2i (value : Z) : outcome Z :=
  do! assert_ (isPowerOf2 value && (0 <? value)) then
  Ok (ctz32 value).

(** [void mulUnsignedManual(high, low, val_a, val_b)]: the pair (high, low). *)
Definition mulUnsignedManual (val_a val_b : Z) : Z * Z :=
  let low := u64 (val_a * val_b) in
  let A := u32 (Z.shiftr val_a 32) in
  let a := u32 val_a in
  let B := u32 (Z.shiftr val_b 32) in
  let b := u32 val_b in
  let ab := u64 (a * b) in
  let Ab := u64 (A * b) in
  let aB := u64 (a * B) in
  let AB := u64 (A * B) in
  let c1 := u32 (Z.shiftr ab 32) in
  let c2 := u64 (Z.shiftr c1 1 + Z.shiftr Ab 1 + Z.shiftr aB 1) in
  let c2 := u64 (c2 + Z.shiftr (Z.land c1 1 + Z.land Ab 1 + Z.land aB 1) 1) in
  let c2 := Z.shiftr c2 31 in
  (u64 (AB + c2), low).

(** * Powers of two *)

(** The test decides exactly the powers of two of the 64-bit word. *)
Lemma isPowerOf2_spec n : in_width 64 n ->
  isPowerOf2 n = true <-> exists k, 0 <= k < 64 /\ n = 2 ^ k.
Proof.
  intros [Hlo Hhi]. unfold isPowerOf2, truthy. split.
  - destruct (Z.eqb_spec n 0) as [| Hne]; [done |]. simpl.
    rewrite wrap_small by (unfold in_width; lia).
    destruct (Z.eqb_spec (Z.land n (n - 1)) 0) as [E |]; [| done]. intros _.
    assert (Hk : 0 <= Z.log2 n < 64) by
      (split; [apply Z.log2_nonneg | apply Z.log2_lt_pow2; lia]).
    exists (Z.log2 n). split; [done |].
    destruct (Z.log2_spec n) as [Hl Hu]; [lia |].
    destruct (Z.eqb_spec n (2 ^ Z.log2 n)) as [| Hd]; [done |]. exfalso.
    assert (Hb : Z.testbit (Z.land n (n - 1)) (Z.log2 n) = true).
    { rewrite Z.land_spec, Z.bit_log2 by lia. simpl.
      replace (Z.log2 n) with (Z.log2 (n - 1)); [apply Z.bit_log2; lia |].
      apply Z.log2_unique; lia. }
    rewrite E, Z.bits_0 in Hb. done.
  - intros (k & Hk & ->). assert (0 < 2 ^ k) by lia.
    destruct (Z.eqb_spec (2 ^ k) 0); [lia |]. simpl.
    rewrite wrap_small by (unfold in_width; lia).
    replace (Z.land (2 ^ k) (2 ^ k - 1)) with 0; [done |].
    replace (2 ^ k - 1) with (Z.ones k) by (rewrite Z.ones_equiv; lia).
    symmetry. rewrite Z.land_ones by lia. apply Z.mod_same. lia.
Qed.

Lemma land_align_mask val k : in_width 64 val -> 0 <= k < 64 ->
  Z.land val (wnot 64 (2 ^ k - 1)) = 2 ^ k * (val / 2 ^ k).
Proof.
  intros Hv Hk. rewrite Z.mul_comm, <- Z.shiftl_mul_pow2, <- Z.shiftr_div_pow2 by lia.
  replace (2 ^ k - 1) with (Z.ones k) by (rewrite Z.ones_equiv; lia).
  zbitwise. destruct (Z.ltb_spec i k).
  - rewrite (Z.testbit_neg_r _ (i - k)) by lia. simpl. by rewrite !andb_false_r.
  - rewrite Z.shiftr_spec by lia. simpl. replace (i - k + k) with i by lia.
    destruct (Z.ltb_spec i 64); simpl; rewrite ?andb_true_r, ?andb_false_r; [done |].
    by rewrite (in_width_testbit 64 val i) by auto with lia.
Qed.

(** For a power-of-two alignment [roundDown] returns the largest multiple
    of the alignment not above the value, and [roundUp] the smallest multiple
    not below it whenever that multiple is representable. *)
Theorem round_spec val align :
  in_width 64 val -> in_width 64 align -> isPowerOf2 align = true ->
  val + align <= 2 ^ 64 ->
  exists d u, roundDown val align = Ok d /\ roundUp val align = Ok u /\
    (align | d) /\ d <= val < d + align /\
    (align | u) /\ val <= u < val + align.
Proof.
  intros Hv Ha Hp Hfit. unfold roundDown, roundUp, assert_. rewrite Hp. cbn [obind].
  apply isPowerOf2_spec in Hp as (k & Hk & ->); [| done].
  assert (0 < 2 ^ k) by lia. unfold in_width in *.
  rewrite !(wrap_small 64 (2 ^ k - 1)) by (unfold in_width; lia).
  rewrite (wrap_small 64 (val + _)) by (unfold in_width; lia).
  do 2 eexists. do 2 (split; [reflexivity |]).
  rewrite !land_align_mask by (unfold in_width; lia).
  pose proof (Z.div_mod val (2 ^ k)). pose proof (Z.mod_pos_bound val (2 ^ k)).
  pose proof (Z.div_mod (val + (2 ^ k - 1)) (2 ^ k)).
  pose proof (Z.mod_pos_bound (val + (2 ^ k - 1)) (2 ^ k)).
  repeat split; try apply Z.divide_factor_l; lia.
Qed.

Lemma round_spec_witness :
  exists d u, roundDown 0x1234 0x40 = Ok d /\ roundUp 0x1234 0x40 = Ok u /\
    (0x40 | d) /\ d <= 0x1234 < d + 0x40 /\ (0x40 | u) /\ 0x1234 <= u < 0x1234 + 0x40.
Proof. apply (round_spec 0x1234 0x40); unfold in_width; try lia; reflexivity. Defined.

(** * The binary search for the logarithm *)

(** [ux & (mask of the upper half)] is the test [findMsbSet] makes. *)
Lemma upper_half_test val n : 0 < n -> 0 < val < 2 ^ (2 * n) ->
  truthy (Z.land val (Z.shiftl (Z.ones n) n)) = (2 ^ n <=? val).
Proof.
  intros Hn [Hv Hlt]. rewrite <- truthy_div by lia.
  replace (Z.land val (Z.shiftl (Z.ones n) n)) with (Z.shiftl (Z.shiftr val n) n).
  - rewrite Z.shiftl_mul_pow2, Z.shiftr_div_pow2 by lia. unfold truthy.
    destruct (Z.eqb_spec (val / 2 ^ n) 0) as [-> | Hd]; [done |].
    destruct (Z.eqb_spec (val / 2 ^ n * 2 ^ n) 0); [nia | done].
  - zbitwise. destruct (Z.ltb_spec i n).
    + rewrite !(Z.testbit_neg_r _ (i - n)) by lia. by rewrite andb_false_r.
    + rewrite Z.shiftr_spec, ones_testbit by lia. replace (i - n + n) with i by lia.
      destruct (Z.ltb_spec (i - n) n); [by rewrite andb_true_r |].
      rewrite (in_width_testbit (2 * n) val i); [done | split; lia | lia | lia].
Qed.

Lemma log_step pos val n : 0 < n -> 0 < val < 2 ^ (2 * n) ->
  let st := halve (truthy (Z.land val (Z.shiftl (Z.ones n) n))) n (pos, val) in
  st.1 + Z.log2 st.2 = pos + Z.log2 val /\ 0 < st.2 < 2 ^ n.
Proof.
  intros Hn Hv. rewrite upper_half_test by done. unfold halve.
  destruct (Z.leb_spec (2 ^ n) val); cbn -[Z.pow Z.log2 Z.shiftr]; [| lia].
  rewrite Z.log2_shiftr, Z.shiftr_div_pow2 by lia.
  assert (n <= Z.log2 val) by (apply Z.log2_le_pow2; lia).
  replace (2 * n) with (n + n) in Hv by lia. rewrite Z.pow_add_r in Hv by lia.
  repeat split; [lia | apply Z.div_str_pos; lia | apply Z.div_lt_upper_bound; lia].
Qed.

Lemma floorLog2_log2 x : 0 < x -> in_width 64 x -> floorLog2 x = Ok (Z.log2 x).
Proof.
  intros Hx [_ Hhi]. unfold floorLog2, assert_. destruct (Z.ltb_spec 0 x); [| lia].
  cbn [obind fst snd].
  change 0xffffffff00000000 with (Z.shiftl (Z.ones 32) 32).
  change 0x00000000ffff0000 with (Z.shiftl (Z.ones 16) 16).
  change 0x000000000000ff00 with (Z.shiftl (Z.ones 8) 8).
  change 0x00000000000000f0 with (Z.shiftl (Z.ones 4) 4).
  change 0x000000000000000c with (Z.shiftl (Z.ones 2) 2).
  assert (Hv : 0 < x < 2 ^ (2 * 32)) by (simpl Z.mul; lia).
  f_equal.
  destruct (log_step 0 x 32) as [H1 V1]; [lia | done |].
  destruct (halve _ 32 (0, x)) as [p1 v1]. cbn [fst snd] in *.
  destruct (log_step p1 v1 16) as [H2 V2]; [lia | done |].
  destruct (halve _ 16 (p1, v1)) as [p2 v2]. cbn [fst snd] in *.
  destruct (log_step p2 v2 8) as [H3 V3]; [lia | done |].
  destruct (halve _ 8 (p2, v2)) as [p3 v3]. cbn [fst snd] in *.
  destruct (log_step p3 v3 4) as [H4 V4]; [lia | done |].
  destruct (halve _ 4 (p3, v3)) as [p4 v4]. cbn [fst snd] in *.
  destruct (log_step p4 v4 2) as [H5 V5]; [lia | done |].
  destruct (halve _ 2 (p4, v4)) as [p5 v5]. cbn [fst snd] in *.
  destruct (log_step p5 v5 1) as [H6 V6]; [lia | done |].
  change (Z.land v5 2) with (Z.land v5 (Z.shiftl (Z.ones 1) 1)).
  unfold halve in *. destruct (truthy (Z.land v5 _)); cbn [fst snd] in *.
  - replace (Z.shiftr v5 1) with 1 in H6 by lia. change (Z.log2 1) with 0 in H6. lia.
  - replace v5 with 1 in H5 by lia. change (Z.log2 1) with 0 in H5. lia.
Qed.

(** [floorLog2] and [ceilLog2] return the two integer logarithms of every
    positive 64-bit value, and [floorLog2] and [findMsbSet] agree. *)
Theorem log2_spec x : 0 < x -> in_width 64 x ->
  floorLog2 x = Ok (Z.log2 x) /\ ceilLog2 x = Ok (Z.log2_up x) /\
  findMsbSet x = floorLog2 x.
Proof.
  intros Hx Hw. rewrite floorLog2_log2, findMsbSet_log2 by done.
  split; [done | split; [| done]]. unfold ceilLog2, assert_.
  destruct (Z.ltb_spec 0 x); [cbn [obind] | lia].
  destruct (Z.eqb_spec x 1) as [-> | Hne]; [done |].
  rewrite floorLog2_log2; [| lia | unfold in_width in *; lia]. cbn [obind].
  rewrite Z.log2_up_eqn by lia. f_equal.
Qed.

Lemma log2_spec_witness :
  floorLog2 0x2FFF = Ok (Z.log2 0x2FFF) /\ ceilLog2 0x2FFF = Ok (Z.log2_up 0x2FFF) /\
  findMsbSet 0x2FFF = floorLog2 0x2FFF.
Proof. apply (log2_spec 0x2FFF); unfold in_width; lia. Defined.

(** * The 128-bit product *)

Lemma land1_mod x : Z.land x 1 = x mod 2.
Proof. exact (Z.land_ones x 1 ltac:(lia)). Qed.

Lemma shiftr1_div x : Z.shiftr x 1 = x / 2.
Proof. exact (Z.shiftr_div_pow2 x 1 ltac:(lia)). Qed.

(** Halving three summands separately and adding the carry of their low bits. *)
Lemma carry_halves x y z :
  Z.shiftr x 1 + Z.shiftr y 1 + Z.shiftr z 1 +
    Z.shiftr (Z.land x 1 + Z.land y 1 + Z.land z 1) 1 = (x + y + z) / 2.
Proof.
  rewrite !shiftr1_div, !land1_mod.
  rewrite (Z.div_mod x 2) at 3 by lia. rewrite (Z.div_mod y 2) at 3 by lia.
  rewrite (Z.div_mod z 2) at 3 by lia.
  replace (2 * (x / 2) + x mod 2 + (2 * (y / 2) + y mod 2) + (2 * (z / 2) + z mod 2)) with
    (x mod 2 + y mod 2 + z mod 2 + (x / 2 + y / 2 + z / 2) * 2) by lia.
  rewrite Z.div_add by lia. lia.
Qed.

(** A 64-bit value and its two 32-bit halves. *)
Lemma split32 v : in_width 64 v ->
  v = u32 (Z.shiftr v 32) * 2 ^ 32 + u32 v /\
  0 <= u32 (Z.shiftr v 32) < 2 ^ 32 /\ 0 <= u32 v < 2 ^ 32.
Proof.
  intros [Hlo Hhi]. split; [| split; apply wrap_range; lia].
  assert (0 <= v / 2 ^ 32 < 2 ^ 32) by
    (split; [apply Z.div_pos; lia | apply Z.div_lt_upper_bound; lia]).
  rewrite Z.shiftr_div_pow2, (wrap_small 32 (v / _)) by (try done; lia).
  unfold wrap. pose proof (Z.div_mod v (2 ^ 32)). lia.
Qed.

(** The high word of a product from the partial products and their carry. *)
Lemma product_carry A a B b : 0 <= A < 2 ^ 32 -> 0 <= a < 2 ^ 32 ->
  0 <= B < 2 ^ 32 -> 0 <= b < 2 ^ 32 ->
  A * B + (a * b / 2 ^ 32 + A * b + a * B) / 2 ^ 32 =
  (A * 2 ^ 32 + a) * (B * 2 ^ 32 + b) / 2 ^ 64.
Proof.
  intros. change (2 ^ 64) with (2 ^ 32 * 2 ^ 32). rewrite <- Z.div_div by lia.
  replace ((A * 2 ^ 32 + a) * (B * 2 ^ 32 + b)) with
    (a * b + (A * B * 2 ^ 32 + (A * b + a * B)) * 2 ^ 32) by lia.
  rewrite Z.div_add by lia.
  replace (a * b / 2 ^ 32 + (A * B * 2 ^ 32 + (A * b + a * B))) with
    (a * b / 2 ^ 32 + A * b + a * B + A * B * 2 ^ 32) by lia.
  rewrite Z.div_add by lia. lia.
Qed.

(** [mulUnsignedManual] computes the exact 128-bit product of two 64-bit
    values as a (high, low) pair: no carry is lost. *)
Theorem mulUnsignedManual_exact val_a val_b :
  in_width 64 val_a -> in_width 64 val_b ->
  let (high, low) := mulUnsignedManual val_a val_b in
  in_width 64 high /\ in_width 64 low /\ high * 2 ^ 64 + low = val_a * val_b.
Proof.
  intros Ha Hb. unfold mulUnsignedManual.
  destruct (split32 _ Ha) as (Ea & HA & Ha'). destruct (split32 _ Hb) as (Eb & HB & Hb').
  set (A := u32 (Z.shiftr val_a 32)) in *. set (a := u32 val_a) in *.
  set (B := u32 (Z.shiftr val_b 32)) in *. set (b := u32 val_b) in *.
  split; [apply wrap_range; lia | split; [apply wrap_range; lia |]].
  rewrite !(wrap_small 64 (a * b)), !(wrap_small 64 (A * b)), !(wrap_small 64 (a * B)),
    !(wrap_small 64 (A * B)) by (unfold in_width; nia).
  assert (Hc : 0 <= a * b / 2 ^ 32 < 2 ^ 32) by
    (split; [apply Z.div_pos; nia | apply Z.div_lt_upper_bound; nia]).
  rewrite (Z.shiftr_div_pow2 (a * b)), (wrap_small 32 (a * b / _)) by (try done; lia).
  pose proof (carry_halves (a * b / 2 ^ 32) (A * b) (a * B)) as Hch.
  assert (0 <= Z.shiftr (a * b / 2 ^ 32) 1) by (apply Z.shiftr_nonneg; lia).
  assert (0 <= Z.shiftr (A * b) 1) by (apply Z.shiftr_nonneg; nia).
  assert (0 <= Z.shiftr (a * B) 1) by (apply Z.shiftr_nonneg; nia).
  assert (0 <= Z.shiftr (Z.land (a * b / 2 ^ 32) 1 + Z.land (A * b) 1 + Z.land (a * B) 1) 1)
    by (apply Z.shiftr_nonneg; repeat apply Z.add_nonneg_nonneg; apply Z.land_nonneg; lia).
  assert (Hsum : (a * b / 2 ^ 32 + A * b + a * B) / 2 < 2 ^ 64) by
    (apply Z.div_lt_upper_bound; nia).
  rewrite (wrap_small 64 (Z.shiftr _ 1 + _ + _)) by (unfold in_width; lia).
  rewrite Hch, (wrap_small 64 (_ / 2)) by (unfold in_width; lia).
  rewrite Z.shiftr_div_pow2, Z.div_div by lia. change (2 * 2 ^ 31) with (2 ^ 32).
  rewrite product_carry, <- Ea, <- Eb by done.
  unfold in_width in *. rewrite wrap_small.
  - unfold wrap. pose proof (Z.div_mod (val_a * val_b) (2 ^ 64)). lia.
  - split; [apply Z.div_pos; nia | apply Z.div_lt_upper_bound; nia].
Qed.

Lemma mulUnsignedManual_exact_witness :
  let (high, low) := mulUnsignedManual 0xFFFFFFFFFFFFFFFF 0xFFFFFFFFFFFFFFFF in
  in_width 64 high /\ in_width 64 low /\
  high * 2 ^ 64 + low = 0xFFFFFFFFFFFFFFFF * 0xFFFFFFFFFFFFFFFF.
Proof.
  apply (mulUnsignedManual_exact 0xFFFFFFFFFFFFFFFF 0xFFFFFFFFFFFFFFFF);
    unfold in_width; lia.
Defined.
