(* ===== verification/AddrRange.v ===== *)
(** Address ranges: [src/gem5/src/base/addr_range.hh].

    A range is the half-open interval [[_start, _end)], optionally interleaved:
    mask [i] selects the address bits whose parity is bit [i] of the selector,
    which must equal [intlvMatch].  Addresses are 64-bit.  The shift by the number
    of masks is the language's for fewer than 64 masks, the only ranges that the
    constructors build without an undefined shift. *)
From Stdlib Require Import ZArith Lia Sorting.Sorted.
From stdpp Require Import base numbers list.
From S2P Require Import Prelude BitField.

Open Scope Z_scope.

Record AddrRange : Type := mkAddrRange {
  _start : Z;
  _end : Z;
  masks : list Z;
  intlvMatch : Z;
}.

#[export] Instance AddrRange_eq_dec : EqDecision AddrRange.
Proof. solve_decision. Defined.

Definition MaxAddr : Z := 2 ^ 64 - 1.

Definition num_masks (r : AddrRange) : Z := Z.of_nat (length (masks r)).

(** [AddrRange()]. *)
Definition AddrRange_default : AddrRange := mkAddrRange 1 0 [] 0.

(** [AddrRange(Addr, Addr)], also [RangeEx]. *)
Definition RangeEx (start end_ : Z) : AddrRange := mkAddrRange start end_ [] 0.

(** [RangeIn(Addr start, Addr end)]: the bound is inclusive, and wraps. *)
Definition RangeIn (start end_ : Z) : AddrRange := RangeEx start (u64 (end_ + 1)).

(** [RangeSize(Addr start, Addr size)]. *)
Definition RangeSize (start size : Z) : AddrRange := RangeEx start (u64 (start + size)).

(** [AddrRange(_start, _end, _masks, _intlv_match)]. *)
Definition AddrRange_masks (start end_ : Z) (ms : list Z) (match_ : Z) : outcome AddrRange :=
  let n := Z.of_nat (length ms) in
  if bool_decide (ms <> []) then
    if 64 <=? n then Err Undefined
    else if 2 ^ n <=? match_ then Err Fatal
    else Ok (mkAddrRange start end_ ms match_)
  else Ok (mkAddrRange start end_ ms match_).

(** The mask of selector bit [_intlv_bits - i - 1] in the legacy constructor. *)
Definition legacy_mask (intlv_high xor_high i : Z) : outcome Z :=
  let bit1 := u8 (intlv_high - i) in
  let bit2 := u8 (xor_high - i) in
  if 64 <=? bit1 then Err Undefined else
  let mask := Z.shiftl 1 bit1 in
  if truthy xor_high then
    if 64 <=? bit2 then Err Undefined else Ok (Z.lor mask (Z.shiftl 1 bit2))
  else Ok mask.

(** The loop of the legacy constructor; iteration [i] stores
    [masks[_intlv_bits - i - 1]], so later iterations are nearer the head. *)
Fixpoint legacy_masks (intlv_high xor_high : Z) (i : Z) (n : nat) (acc : list Z)
    : outcome (list Z) :=
  match n with
  | O => Ok acc
  | S n =>
      let! m := legacy_mask intlv_high xor_high i in
      legacy_masks intlv_high xor_high (i + 1) n (m :: acc)
  end.

(** The legacy constructor
    [AddrRange(_start, _end, _intlv_high_bit, _xor_high_bit, _intlv_bits, _intlv_match)]. *)
Definition AddrRange_legacy (start end_ intlv_high xor_high intlv_bits match_ : Z)
    : outcome AddrRange :=
  do! (if truthy intlv_bits then
         if 64 <=? intlv_bits then Err Undefined
         else if 2 ^ intlv_bits <=? match_ then Err Fatal else Ok tt
       else Ok tt) then
  do! (if truthy intlv_bits && truthy xor_high then
         if xor_high =? intlv_high then Err Fatal
         else if intlv_high <? xor_high then
           if xor_high - intlv_high <? intlv_bits then Err Fatal else Ok tt
         else
           if intlv_high - xor_high <? intlv_bits then Err Fatal else Ok tt
       else Ok tt) then
  let! ms := legacy_masks intlv_high xor_high 0 (Z.to_nat intlv_bits) [] in
  Ok (mkAddrRange start end_ ms match_).

Definition interleaved (r : AddrRange) : bool := bool_decide (masks r <> []).

Definition valid (r : AddrRange) : bool := _start r <=? _end r.

(** [Addr size() const]. *)
Definition size (r : AddrRange) : Z :=
  Z.shiftr (u64 (_end r - _start r)) (num_masks r).

(** [uint32_t stripes() const]. *)
Definition stripes (r : AddrRange) : outcome Z :=
  if 64 <=? num_masks r then Err Undefined else Ok (u32 (Z.shiftl 1 (num_masks r))).

(** The value of [(int) x] as a 64-bit argument: 32 bits, sign-extended. *)
Definition int_to_u64 (x : Z) : Z :=
  let x := u32 x in if 2 ^ 31 <=? x then u64 (x - 2 ^ 32) else x.

(** [uint64_t granularity() const]: [combined_mask] is deduced to be an [int],
    so every [|=] truncates it to 32 bits. *)
Definition granularity (r : AddrRange) : outcome Z :=
  if interleaved r then
    let combined_mask := fold_left (fun c m => int_to_u64 (Z.lor c m)) (masks r) 0 in
    let lowest_bit := u8 (ctz64 combined_mask) in
    if 64 <=? lowest_bit then Err Undefined else Ok (Z.shiftl 1 lowest_bit)
  else Ok (size r).

(** [bool mergesWith(const AddrRange& r) const]. *)
Definition mergesWith (this r : AddrRange) : bool :=
  (_start r =? _start this) && (_end r =? _end this) && bool_decide (masks r = masks this).

(** The selector that [contains] computes, from mask [i] on. *)
Fixpoint sel_from (i : Z) (ms : list Z) (a : Z) : Z :=
  match ms with
  | [] => 0
  | m :: ms => Z.lor (Z.shiftl (popCount (Z.land a m) mod 2) i) (sel_from (i + 1) ms a)
  end.
Definition sel (r : AddrRange) (a : Z) : Z := sel_from 0 (masks r) a.

(** [bool contains(const Addr& a) const]. *)
Definition contains (r : AddrRange) (a : Z) : bool :=
  if (_start r <=? a) && (a <? _end r) then sel r a =? intlvMatch r else false.

(** [bool intersects(const AddrRange& r) const]. *)
Definition intersects (this r : AddrRange) : outcome bool :=
  if (_end r <=? _start this) || (_end this <=? _start r) then Ok false
  else if negb (interleaved this) && negb (interleaved r) then Ok true
  else if size r =? 1 then Ok (contains this (_start r))
  else if mergesWith this r then Ok (intlvMatch this =? intlvMatch r)
  else Err Panic.

(** [bool isSubset(const AddrRange& r) const]. *)
Definition isSubset (this r : AddrRange) : outcome bool :=
  if interleaved this then Err Panic
  else if interleaved r then
    if contains r (_start this) && contains r (u64 (_end this - 1)) then
      let! g := granularity r in Ok (size this <=? g)
    else Ok false
  else Ok ((_start r <=? _start this) && (_end this <=? _end r)).

(** [bool operator<(const AddrRange& r) const]. *)
Definition range_lt (this r : AddrRange) : bool :=
  if negb (_start this =? _start r) then _start this <? _start r
  else if interleaved this && interleaved r then intlvMatch this <? intlvMatch r
  else interleaved this.

(** [bool operator==(const AddrRange& r) const]. *)
Definition range_eq (this r : AddrRange) : bool :=
  if negb (_start this =? _start r) then false
  else if negb (_end this =? _end r) then false
  else if negb (bool_decide (masks this = masks r)) then false
  else if negb (intlvMatch this =? intlvMatch r) then false
  else true.

(** [AddrRange operator&(const AddrRange& r) const]. *)
Definition range_and (this r : AddrRange) : outcome AddrRange :=
  do! panic_if (interleaved this || interleaved r) then
  let start := Z.max (_start this) (_start r) in
  let end_ := Z.min (_end this) (_end r) in
  if end_ <=? start then Ok (RangeEx 0 0) else Ok (RangeEx start end_).

(** [std::list::sort] with [operator<]: a stable sort. *)
Fixpoint insert_range (x : AddrRange) (l : list AddrRange) : list AddrRange :=
  match l with
  | [] => [x]
  | y :: l' => if range_lt y x then y :: insert_range x l' else x :: l
  end.
Definition sort_ranges (l : list AddrRange) : list AddrRange :=
  fold_right insert_range [] l.

(** The loop of [exclude] over the sorted exclusion list. *)
Fixpoint exclude_loop (this : AddrRange) (next_start : Z) (es : list AddrRange)
    : outcome (list AddrRange) :=
  match es with
  | [] => Ok (if next_start <? _end this then [RangeEx next_start (_end this)] else [])
  | e :: es =>
      do! assert_ (negb (interleaved e)) then
      let! i := intersects this e in
      if negb i then exclude_loop this next_start es
      else if _start e <=? next_start then
        if _end e <? _end this then
          exclude_loop this (if next_start <? _end e then _end e else next_start) es
        else Ok []
      else
        let r := RangeEx next_start (_start e) in
        if _end e <? _end this then
          let! rs := exclude_loop this (_end e) es in Ok (r :: rs)
        else Ok [r]
  end.

(** [AddrRangeList exclude(const AddrRangeList &exclude_ranges) const]. *)
Definition exclude (this : AddrRange) (exclude_ranges : list AddrRange)
    : outcome (list AddrRange) :=
  do! assert_ (negb (interleaved this)) then
  exclude_loop this (_start this) (sort_ranges exclude_ranges).

(** [exclude(const AddrRangeList &base, AddrRangeList to_exclude)]. *)
Fixpoint exclude_list_loop (base to_exclude : list AddrRange) : outcome (list AddrRange) :=
  match base with
  | [] => Ok []
  | range :: base =>
      let! rs := exclude range to_exclude in
      let! rest := exclude_list_loop base to_exclude in
      Ok (rs ++ rest)
  end.
Definition exclude_list (base to_exclude : list AddrRange) : outcome (list AddrRange) :=
  exclude_list_loop base (sort_ranges to_exclude).

(** The checks of the merging constructor over the ranges, with the expected
    [match] (a [uint8_t] that wraps). *)
Fixpoint merge_check (this : AddrRange) (match_ : Z) (rs : list AddrRange) : outcome unit :=
  match rs with
  | [] => Ok tt
  | r :: rs =>
      if negb (mergesWith this r) then Err Fatal
      else if negb (intlvMatch r =? match_) then Err Fatal
      else merge_check this (u8 (match_ + 1)) rs
  end.

(** [AddrRange(Dummy, begin_it, end_it)], the constructor from a collection. *)
Definition AddrRange_merge (rs : list AddrRange) : outcome AddrRange :=
  match rs with
  | [] => Ok AddrRange_default
  | this :: _ =>
      if (1 <? Z.of_nat (length rs)) then
        if 64 <=? num_masks this then Err Undefined
        else if negb (Z.of_nat (length rs) =? 2 ^ num_masks this) then Err Fatal
        else
          do! merge_check this 0 rs then
          Ok (mkAddrRange (_start this) (_end this) [] 0)
      else Ok this
  end.

(** * Membership *)

(** A plain range: not interleaved, as [RangeEx] and its kin build it. *)
Definition plain (r : AddrRange) : Prop := masks r = [] /\ intlvMatch r = 0.

Lemma plain_RangeEx s e : plain (RangeEx s e).
Proof. done. Qed.

Lemma plain_not_interleaved r : plain r -> interleaved r = false.
Proof. intros [Hm _]. unfold interleaved. rewrite Hm. done. Qed.

Lemma contains_plain r a : plain r -> contains r a = true <-> _start r <= a < _end r.
Proof.
  intros [Hm Hi]. unfold contains, sel. rewrite Hm, Hi. simpl.
  destruct (Z.leb_spec (_start r) a), (Z.ltb_spec a (_end r)); simpl; split; intros; (done || lia).
Qed.

Lemma contains_bounds r a : contains r a = true ->
  _start r <= a < _end r /\ sel r a = intlvMatch r.
Proof.
  unfold contains. destruct (Z.leb_spec (_start r) a), (Z.ltb_spec a (_end r)); simpl;
    try done. rewrite Z.eqb_eq. auto.
Qed.

Lemma contains_intro r a : _start r <= a < _end r -> sel r a = intlvMatch r ->
  contains r a = true.
Proof.
  intros [? ?] Hs. unfold contains.
  destruct (Z.leb_spec (_start r) a), (Z.ltb_spec a (_end r)); simpl; lia.
Qed.

#[export] Hint Resolve plain_RangeEx plain_not_interleaved contains_intro : core.

(** * Intersection and subset tests *)

(** Both bounds are 64-bit addresses. *)
Definition range_wf (r : AddrRange) : Prop :=
  in_width 64 (_start r) /\ in_width 64 (_end r).

Lemma size_plain r : range_wf r -> plain r -> _start r <= _end r -> size r = _end r - _start r.
Proof.
  intros [Hs He] [Hm _] Hle. unfold size, num_masks. rewrite Hm. cbn [length Z.of_nat].
  rewrite Z.shiftr_0_r. apply wrap_small. unfold in_width in *. lia.
Qed.

(** When [intersects] answers, its answer is right: [false] means that no
    address lies in both ranges, and for non-empty plain ranges [true] means
    that some address does.  The second range may be interleaved unless its
    flat size is 1. *)
Theorem intersects_sound this r b :
  range_wf r -> (size r = 1 -> plain r) -> intersects this r = Ok b ->
  (b = false -> forall a, ~ (contains this a = true /\ contains r a = true)) /\
  (b = true -> plain this -> plain r -> _start this < _end this -> _start r < _end r ->
     exists a, contains this a = true /\ contains r a = true).
Proof.
  intros Hwf Hsz Hi. unfold intersects in Hi. split.
  - intros -> a [Ht Hr]. pose proof Ht as Ht0.
    apply contains_bounds in Ht as [Ht Hst]. apply contains_bounds in Hr as [Hr Hsr].
    destruct (Z.leb_spec (_end r) (_start this)); [lia |].
    destruct (Z.leb_spec (_end this) (_start r)); [lia |]. cbn [orb] in Hi.
    destruct (_ && _); [done |]. destruct (Z.eqb_spec (size r) 1) as [E |].
    + pose proof (Hsz E) as Hp. rewrite size_plain in E by (auto; lia).
      replace (_start r) with a in Hi by lia. congruence.
    + destruct (mergesWith this r) eqn:Hm; [| done]. injection Hi as Hc.
      unfold mergesWith in Hm. apply andb_true_iff in Hm as [_ Hm].
      apply bool_decide_eq_true in Hm. unfold sel in *. rewrite Hm in Hsr. lia.
  - intros -> Pt Pr Ht Hr. exists (Z.max (_start this) (_start r)).
    rewrite !contains_plain by done.
    destruct (Z.leb_spec (_end r) (_start this)); [done |].
    destruct (Z.leb_spec (_end this) (_start r)); [done |]. lia.
Qed.

Lemma intersects_sound_witness :
  (true = false -> forall a, ~ (contains (RangeEx 0 100) a = true /\ contains (RangeEx 50 150) a = true)) /\
  (true = true -> plain (RangeEx 0 100) -> plain (RangeEx 50 150) -> 0 < 100 -> 50 < 150 ->
     exists a, contains (RangeEx 0 100) a = true /\ contains (RangeEx 50 150) a = true).
Proof.
  apply (intersects_sound (RangeEx 0 100) (RangeEx 50 150) true);
    [split; unfold in_width; simpl; lia | done | reflexivity].
Defined.

(** A flat size of 1 does not make the start address the only candidate: an
    interleaved range of two addresses can hold the other one. *)
Lemma intersects_size1_interleaved :
  let r := mkAddrRange 0 2 [1] 1 in
  intersects (RangeEx 1 2) r = Ok false /\
  contains (RangeEx 1 2) 1 = true /\ contains r 1 = true.
Proof. vm_compute. auto. Qed.

Lemma sel_from_ext ms i a b : (forall m, In m ms -> Z.land a m = Z.land b m) ->
  sel_from i ms a = sel_from i ms b.
Proof.
  revert i. induction ms as [| m ms IH]; intros i H; [done |]. simpl.
  rewrite (H m), IH; auto; [intros; apply H |]; by constructor.
Qed.

Lemma int_to_u64_testbit x i : 0 <= i < 32 -> Z.testbit (int_to_u64 x) i = Z.testbit x i.
Proof.
  intros Hi. unfold int_to_u64. destruct (Z.leb_spec (2 ^ 31) (u32 x)).
  - transitivity (Z.testbit (u32 (u32 x - 2 ^ 32)) i).
    + rewrite !wrap_testbit by lia. destruct (Z.ltb_spec i 64); [| lia].
      destruct (Z.ltb_spec i 32); [done | lia].
    + unfold wrap. rewrite <- (Z.mod_add _ 1) by lia.
      replace (_ - _ + _) with (x mod 2 ^ 32) by lia. rewrite Z.mod_mod by lia.
      apply Z.mod_pow2_bits_low. lia.
  - rewrite wrap_testbit by lia. destruct (Z.ltb_spec i 32); [done | lia].
Qed.

Lemma int_to_u64_low x : int_to_u64 x <> 0 -> exists i, 0 <= i < 32 /\ Z.testbit (int_to_u64 x) i = true.
Proof.
  intros Hnz. assert (Hu : u32 x <> 0) by (intros E; apply Hnz; unfold int_to_u64; by rewrite E).
  assert (H0 : 0 < u32 x) by (pose proof (wrap_range 32 x); unfold in_width in *; lia).
  exists (Z.log2 (u32 x)). assert (Z.log2 (u32 x) < 32).
  { apply Z.log2_lt_pow2; [done |]. apply wrap_range; lia. }
  pose proof (Z.log2_nonneg (u32 x)). split; [lia |]. rewrite int_to_u64_testbit by lia.
  pose proof (Z.bit_log2 _ H0) as Hb. rewrite wrap_testbit in Hb by lia.
  by apply andb_true_iff in Hb as [_ Hb].
Qed.

Lemma combined_mask_bits ms c i : 0 <= i < 32 ->
  Z.testbit (fold_left (fun c m => int_to_u64 (Z.lor c m)) ms c) i =
  Z.testbit c i || existsb (fun m => Z.testbit m i) ms.
Proof.
  intros Hi. revert c. induction ms as [| m ms IH]; intros c; simpl; [by rewrite orb_false_r |].
  rewrite IH, int_to_u64_testbit, Z.lor_spec, orb_assoc by lia. done.
Qed.

Lemma combined_mask_int ms c : ms <> [] -> exists x,
  fold_left (fun c m => int_to_u64 (Z.lor c m)) ms c = int_to_u64 x.
Proof.
  revert c. induction ms as [| m ms IH]; [done |]. intros c _. simpl.
  destruct ms; [simpl; eauto |]. by apply IH.
Qed.

Lemma int_to_u64_nonneg x : 0 <= int_to_u64 x.
Proof.
  unfold int_to_u64. destruct (_ <=? _).
  - apply (in_width_nonneg 64), wrap_range; lia.
  - apply (in_width_nonneg 32), wrap_range; lia.
Qed.

(** No mask has a bit below the granularity. *)
Lemma granularity_masks r g : interleaved r = true -> granularity r = Ok g ->
  exists k, g = 2 ^ k /\ 0 <= k /\
    forall m i, In m (masks r) -> 0 <= i < k -> Z.testbit m i = false.
Proof.
  intros Hi Hg. unfold granularity in Hg. rewrite Hi in Hg.
  unfold interleaved in Hi. apply bool_decide_eq_true in Hi.
  destruct (combined_mask_int (masks r) 0 Hi) as [x Ex]. 
  pose proof (combined_mask_bits (masks r) 0) as Hbits. rewrite Ex in *.
  unfold ctz64, truthy in Hg. destruct (Z.eqb_spec (int_to_u64 x) 0) as [| Hnz]; [done |].
  destruct (builtin_ctz_spec (int_to_u64 x)) as (Hk0 & Hk & Hlow).
  { pose proof (int_to_u64_nonneg x). lia. }
  destruct (int_to_u64_low x Hnz) as (j & Hj & Hjt).
  assert (Hk32 : builtin_ctz (int_to_u64 x) < 32).
  { destruct (Z.ltb_spec (builtin_ctz (int_to_u64 x)) 32); [done |].
    rewrite Hlow in Hjt; [done | lia]. }
  cbn [negb] in Hg. rewrite (wrap_small 8) in Hg by (unfold in_width; lia).
  destruct (Z.leb_spec 64 (builtin_ctz (int_to_u64 x))); [lia |]. injection Hg as <-.
  eexists. rewrite Z.shiftl_1_l. split; [done | split; [done |]].
  intros m i Hm Hir. specialize (Hbits i ltac:(lia)). rewrite Hlow in Hbits by lia.
  symmetry in Hbits. rewrite Z.bits_0 in Hbits. simpl in Hbits.
  destruct (Z.testbit m i) eqn:E; [| done].
  rewrite <- Hbits. symmetry. apply existsb_exists. eauto.
Qed.

Lemma same_granule s e a k : 0 <= k -> s <= a <= e -> e - s < 2 ^ k ->
  a / 2 ^ k = s / 2 ^ k \/ a / 2 ^ k = e / 2 ^ k.
Proof.
  intros Hk Ha Hd. assert (0 < 2 ^ k) by lia.
  assert (s / 2 ^ k <= a / 2 ^ k <= e / 2 ^ k) by (split; apply Z.div_le_mono; lia).
  assert (e / 2 ^ k <= s / 2 ^ k + 1).
  { rewrite <- Z.div_add by lia. apply Z.div_le_mono; lia. }
  lia.
Qed.

(** Addresses of one granule have the same selector. *)
Lemma sel_granule r k a b : 0 <= k ->
  (forall m i, In m (masks r) -> 0 <= i < k -> Z.testbit m i = false) ->
  a / 2 ^ k = b / 2 ^ k -> sel r a = sel r b.
Proof.
  intros Hk Hm Hab. apply sel_from_ext. intros m Hin. zbitwise.
  destruct (Z.ltb_spec i k); [by rewrite (Hm m i), !andb_false_r by auto with lia |]. f_equal.
  replace i with (i - k + k) by lia.
  rewrite <- !Z.shiftr_spec, !Z.shiftr_div_pow2, Hab by lia. done.
Qed.

(** A [true] answer of [isSubset] is sound: every address of this range is
    in the other one, also when the other range is interleaved (where the code
    only tests the two end points and the granularity). *)
Theorem isSubset_sound this r :
  range_wf this -> plain this -> (interleaved r = false -> plain r) ->
  isSubset this r = Ok true ->
  forall a, contains this a = true -> contains r a = true.
Proof.
  intros Hwf Hp Hpr Hs a Ha. rewrite contains_plain in Ha by done. unfold isSubset in Hs.
  rewrite (plain_not_interleaved this Hp) in Hs. destruct (interleaved r) eqn:Hi.
  - destruct (contains r (_start this)) eqn:Cs; [| done].
    destruct (contains r (u64 (_end this - 1))) eqn:Ce; [cbn [andb] in Hs | done].
    obind_inv. rename a0 into g, Hs into Hsz.
    rewrite wrap_small in Ce by (destruct Hwf; unfold in_width in *; lia).
    rewrite size_plain in Hsz by (auto; lia).
    apply contains_bounds in Cs as [Bs Ss]. apply contains_bounds in Ce as [Be Se].
    destruct (granularity_masks r g Hi Hm) as (k & -> & Hk & Hmk).
    apply contains_intro; [lia |].
    destruct (same_granule (_start this) (_end this - 1) a k) as [E | E]; [lia.. | |];
      erewrite sel_granule by eauto; done.
  - injection Hs as Hs. rewrite contains_plain by auto.
    apply andb_true_iff in Hs as [?%Z.leb_le ?%Z.leb_le]. lia.
Qed.

Lemma isSubset_sound_witness :
  contains (RangeEx 0x2000 0x2040) 0x2010 = true /\
  contains (mkAddrRange 0 0x10000 [0x40] 0) 0x2010 = true.
Proof.
  split; [reflexivity |].
  apply (isSubset_sound (RangeEx 0x2000 0x2040) (mkAddrRange 0 0x10000 [0x40] 0));
    [split; unfold in_width; simpl; lia | done | done | vm_compute; reflexivity | reflexivity].
Defined.

(** * Sorting and exclusion *)

Definition start_le (r s : AddrRange) : Prop := _start r <= _start s.

Lemma range_lt_plain r s : plain r -> range_lt r s = true <-> _start r < _start s.
Proof.
  intros Hp. unfold range_lt. rewrite (plain_not_interleaved r Hp). simpl.
  destruct (Z.eqb_spec (_start r) (_start s)); simpl; [split; [done | lia] |].
  apply Z.ltb_lt.
Qed.

Lemma insert_range_in x l y : In y (insert_range x l) <-> y = x \/ In y l.
Proof.
  induction l as [| z l IH]; simpl; [intuition auto |].
  destruct (range_lt z x); simpl; rewrite ?IH; intuition auto.
Qed.

Lemma sort_ranges_in l y : In y (sort_ranges l) <-> In y l.
Proof.
  induction l as [| x l IH]; simpl; [done |]. rewrite insert_range_in, IH. intuition auto.
Qed.

Lemma insert_range_sorted x l : plain x -> Forall plain l ->
  StronglySorted start_le l -> StronglySorted start_le (insert_range x l).
Proof.
  intros Hx Hl Hs. induction Hs as [| y l Hs IH Hy]; simpl; [repeat constructor |].
  inversion Hl as [| ? ? Py Pl]; subst. destruct (range_lt y x) eqn:E.
  - constructor; [auto |]. rewrite List.Forall_forall in Hy |- *. intros z Hz.
    apply insert_range_in in Hz as [-> | Hz]; [| auto].
    apply range_lt_plain in E; unfold start_le; [lia | done].
  - assert (Hxy : start_le x y).
    { unfold start_le. destruct (Z.leb_spec (_start x) (_start y)); [done |].
      assert (range_lt y x = true) by (apply range_lt_plain; auto). congruence. }
    constructor; [by constructor |]. constructor; [done |].
    rewrite List.Forall_forall in Hy |- *. intros z Hz. unfold start_le in *.
    specialize (Hy z Hz). lia.
Qed.

Lemma sort_ranges_plain l : Forall plain l -> Forall plain (sort_ranges l).
Proof. rewrite !List.Forall_forall. intros H x Hx. by apply H, sort_ranges_in. Qed.

Lemma sort_ranges_sorted l : Forall plain l -> StronglySorted start_le (sort_ranges l).
Proof.
  induction 1 as [| x l Hx Hl IH]; simpl; [constructor |].
  apply insert_range_sorted; [done | by apply sort_ranges_plain | done].
Qed.

(** An address is covered by a list of ranges. *)
Definition covered (rs : list AddrRange) (a : Z) : Prop :=
  exists r, In r rs /\ contains r a = true.

(** The ranges of a list are non-empty, plain, start at or above [lo] and do
    not overlap. *)
Fixpoint separated (lo : Z) (rs : list AddrRange) : Prop :=
  match rs with
  | [] => True
  | r :: rs => plain r /\ lo <= _start r /\ _start r < _end r /\ separated (_end r) rs
  end.

Lemma separated_mono lo lo' rs : lo <= lo' -> separated lo' rs -> separated lo rs.
Proof. destruct rs; simpl; [done |]. intros ? (? & ? & ? & ?). split_and!; auto; lia. Qed.

Lemma covered_nil a : covered [] a <-> False.
Proof. unfold covered; firstorder. Qed.

Lemma covered_cons r rs a : covered (r :: rs) a <-> contains r a = true \/ covered rs a.
Proof. unfold covered; simpl; firstorder (subst; auto). Qed.

Lemma covered_app rs rs' a : covered (rs ++ rs') a <-> covered rs a \/ covered rs' a.
Proof. unfold covered. setoid_rewrite in_app_iff. firstorder. Qed.

Lemma intersects_plain this r : plain this -> plain r ->
  intersects this r = Ok (negb ((_end r <=? _start this) || (_end this <=? _start r))).
Proof.
  intros Ht Hr. unfold intersects. rewrite !plain_not_interleaved by done.
  destruct (_ || _); done.
Qed.

(** What the loop computes from [next_start] on. *)
Lemma exclude_loop_spec this es next_start :
  plain this -> Forall plain es -> Forall (fun e => _start e <= _end e) es ->
  StronglySorted start_le es -> _start this <= next_start ->
  exists rs, exclude_loop this next_start es = Ok rs /\ separated next_start rs /\
    forall a, covered rs a <-> next_start <= a < _end this /\ ~ covered es a.
Proof.
  intros Pt Pes Ves Ses. revert next_start.
  induction Ses as [| e es Ses IH Hle]; intros ns Hns; simpl.
  - eexists; split; [done |]. destruct (Z.ltb_spec ns (_end this)).
    + split; [simpl; split_and!; auto; lia |]. intros a.
      rewrite covered_cons, !covered_nil, contains_plain by done. simpl. tauto.
    + split; [done |]. intros a. rewrite covered_nil. lia.
  - inversion Pes as [| ? ? Pe Pes']; inversion Ves as [| ? ? Ve Ves']; subst.
    specialize (IH Pes' Ves').
    assert (Hlater : forall a, covered es a -> _start e <= a).
    { intros a (r & Hr & Hc). rewrite List.Forall_forall in *.
      apply contains_bounds in Hc as [? _]. specialize (Hle r Hr). unfold start_le in Hle. lia. }
    unfold assert_. rewrite (plain_not_interleaved e Pe), intersects_plain by done.
    cbn [negb obind]. setoid_rewrite covered_cons. setoid_rewrite (contains_plain e); [| done].
    destruct (Z.leb_spec (_end e) (_start this)); cbn [orb negb].
    { destruct (IH ns Hns) as (rs & -> & Hs & Hc). exists rs. setoid_rewrite Hc. intuition lia. }
    destruct (Z.leb_spec (_end this) (_start e)); cbn [orb negb].
    { destruct (IH ns Hns) as (rs & -> & Hs & Hc). exists rs. setoid_rewrite Hc. intuition lia. }
    destruct (Z.leb_spec (_start e) ns).
    + destruct (Z.ltb_spec (_end e) (_end this)).
      * destruct (Z.ltb_spec ns (_end e)).
        -- destruct (IH (_end e) ltac:(lia)) as (rs & -> & Hs & Hc). exists rs.
           split; [done |]. split; [by eapply separated_mono with (lo' := _end e); [lia |] |].
           setoid_rewrite Hc. intuition lia.
        -- destruct (IH ns Hns) as (rs & -> & Hs & Hc). exists rs. setoid_rewrite Hc. intuition lia.
      * exists []. setoid_rewrite covered_nil. repeat split; try done; lia.
    + destruct (Z.ltb_spec (_end e) (_end this)).
      * destruct (IH (_end e) ltac:(lia)) as (rs & -> & Hs & Hc). eexists.
        split; [done |]. split; [simpl; split_and!; auto; try lia; eapply separated_mono, Hs; simpl; lia |].
        intros a. rewrite covered_cons, contains_plain, Hc by done. simpl.
        specialize (Hlater a). destruct (Z.ltb_spec a (_start e)), (Z.ltb_spec a (_end e));
          intuition lia.
      * eexists. split; [done |]. split; [simpl; split_and!; auto; lia |].
        intros a. rewrite covered_cons, covered_nil, contains_plain by done. simpl.
        specialize (Hlater a). destruct (Z.ltb_spec a (_start e)), (Z.ltb_spec a (_end e));
          intuition lia.
Qed.

(** [exclude] always answers for non-interleaved ranges, and the ranges it
    returns are non-empty, ascending and non-overlapping, and cover exactly the
    addresses of this range that lie in none of the excluded ranges, which may
    overlap and come in any order. *)
Theorem exclude_exact this es :
  plain this -> Forall plain es -> Forall (fun e => _start e <= _end e) es ->
  exists rs, exclude this es = Ok rs /\ separated (_start this) rs /\
    forall a, covered rs a <-> contains this a = true /\ ~ covered es a.
Proof.
  intros Pt Pes Ves. unfold exclude, assert_. rewrite plain_not_interleaved by done.
  cbn [negb obind].
  destruct (exclude_loop_spec this (sort_ranges es) (_start this)) as (rs & -> & Hs & Hc);
    [done | by apply sort_ranges_plain | | by apply sort_ranges_sorted | lia |].
  { rewrite List.Forall_forall in *. intros x Hx. by apply Ves, sort_ranges_in. }
  exists rs. split_and!; [done | done |]. intros a. rewrite Hc, contains_plain by done.
  unfold covered. setoid_rewrite sort_ranges_in. done.
Qed.

Lemma exclude_exact_witness :
  exists rs, exclude (RangeEx 0 100) [RangeEx 50 60; RangeEx 10 20; RangeEx 15 30] = Ok rs /\
    separated 0 rs /\
    forall a, covered rs a <-> contains (RangeEx 0 100) a = true /\
      ~ covered [RangeEx 50 60; RangeEx 10 20; RangeEx 15 30] a.
Proof.
  apply (exclude_exact (RangeEx 0 100) [RangeEx 50 60; RangeEx 10 20; RangeEx 15 30]);
    repeat constructor; simpl; lia.
Defined.

Lemma exclude_list_loop_covered base es :
  Forall plain base -> Forall plain es -> Forall (fun e => _start e <= _end e) es ->
  exists rs, exclude_list_loop base es = Ok rs /\ Forall plain rs /\
    forall a, covered rs a <-> covered base a /\ ~ covered es a.
Proof.
  intros Pb Pes Ves. induction Pb as [| r base Pr Pb IH]; simpl.
  { exists []. split_and!; [done | constructor |]. intros a. rewrite covered_nil. tauto. }
  unfold exclude, assert_. rewrite plain_not_interleaved by done. cbn [negb obind].
  destruct (exclude_loop_spec r (sort_ranges es) (_start r)) as (rs & -> & Hs & Hc);
    [done | by apply sort_ranges_plain | | by apply sort_ranges_sorted | lia |].
  { rewrite List.Forall_forall in *. intros x Hx. by apply Ves, sort_ranges_in. }
  destruct IH as (rest & -> & Prest & Hrest). cbn [obind]. exists (rs ++ rest).
  split_and!; [done | |].
  - apply Forall_app; split; [| done]. clear Hc. generalize dependent (_start r).
    induction rs as [| x rs IHrs]; constructor; simpl in *; [by destruct Hs |].
    destruct Hs as (_ & _ & _ & Hs). eauto.
  - intros a. rewrite covered_app, Hc, Hrest, covered_cons, contains_plain by done.
    unfold covered at 1. setoid_rewrite sort_ranges_in. fold (covered es a). tauto.
Qed.

(** Subtracting a list of ranges from a list of ranges ([exclude] on lists,
    [operator-] and [operator-=]) covers exactly the addresses of the first
    list that are in no range of the second. *)
Theorem exclude_list_exact base es :
  Forall plain base -> Forall plain es -> Forall (fun e => _start e <= _end e) es ->
  exists rs, exclude_list base es = Ok rs /\
    forall a, covered rs a <-> covered base a /\ ~ covered es a.
Proof.
  intros Pb Pes Ves. unfold exclude_list.
  destruct (exclude_list_loop_covered base (sort_ranges es)) as (rs & Hrs & _ & Hc);
    [done | by apply sort_ranges_plain | |].
  { rewrite List.Forall_forall in *. intros x Hx. by apply Ves, sort_ranges_in. }
  exists rs. split; [done |]. intros a. rewrite Hc. unfold covered.
  setoid_rewrite sort_ranges_in. done.
Qed.

Lemma exclude_list_exact_witness :
  exists rs, exclude_list [RangeEx 0 100; RangeEx 200 300] [RangeEx 250 260; RangeEx 90 210] = Ok rs /\
    forall a, covered rs a <-> covered [RangeEx 0 100; RangeEx 200 300] a /\
      ~ covered [RangeEx 250 260; RangeEx 90 210] a.
Proof.
  apply (exclude_list_exact [RangeEx 0 100; RangeEx 200 300] [RangeEx 250 260; RangeEx 90 210]);
    repeat constructor; simpl; lia.
Defined.

(** [operator&] is intersection. *)
Lemma range_and_contains r s : plain r -> plain s ->
  exists t, range_and r s = Ok t /\
    forall a, contains t a = true <-> contains r a = true /\ contains s a = true.
Proof.
  intros Pr Ps. unfold range_and. rewrite !plain_not_interleaved by done. cbn [orb panic_if obind].
  destruct (Z.leb_spec (Z.min (_end r) (_end s)) (Z.max (_start r) (_start s)));
    eexists; (split; [done |]); intros a; rewrite !contains_plain by done; simpl; lia.
Qed.

(** * Merging interleaved ranges *)

Lemma sel_from_range ms i a : 0 <= i ->
  0 <= sel_from i ms a < 2 ^ (i + Z.of_nat (length ms)).
Proof.
  revert i. induction ms as [| m ms IH]; intros i Hi; simpl length; cbn [sel_from].
  { split; [lia |]. apply Z.pow_pos_nonneg; lia. }
  specialize (IH (i + 1) ltac:(lia)).
  replace (i + 1 + Z.of_nat (length ms)) with (i + Z.of_nat (S (length ms))) in IH by lia.
  change (in_width (i + Z.of_nat (S (length ms)))
    (Z.lor (Z.shiftl (popCount (Z.land a m) mod 2) i) (sel_from (i + 1) ms a))).
  apply lor_in_width; [lia | | exact IH].
  pose proof (Z.mod_pos_bound (popCount (Z.land a m)) 2 ltac:(lia)).
  rewrite Z.shiftl_mul_pow2 by lia. unfold in_width.
  assert (2 ^ i < 2 ^ (i + Z.of_nat (S (length ms)))) by (apply Z.pow_lt_mono_r; lia). nia.
Qed.

(** The checks force every range to differ from the first only in its match
    value, which counts up from the expected one. *)
Lemma merge_check_ok this rs m :
  merge_check this m rs = Ok tt -> 0 <= m -> m + Z.of_nat (length rs) <= 256 ->
  forall k r, rs !! k = Some r ->
    r = mkAddrRange (_start this) (_end this) (masks this) (m + Z.of_nat k).
Proof.
  revert m. induction rs as [| x rs IH]; intros m Hc Hm Hl k r Hk; [done |].
  simpl in Hc, Hl. destruct (mergesWith this x) eqn:Hw; [| done]. simpl in Hc.
  destruct (Z.eqb_spec (intlvMatch x) m) as [E |]; [simpl in Hc | done].
  unfold mergesWith in Hw.
  apply andb_true_iff in Hw as [[?%Z.eqb_eq ?%Z.eqb_eq]%andb_true_iff Hms%bool_decide_eq_true].
  destruct k as [| k]; simpl in Hk.
  - injection Hk as <-. destruct x; simpl in *; subst. f_equal. lia.
  - destruct (length rs) as [| n] eqn:El; [by apply nil_length_inv in El; subst |].
    rewrite wrap_small in Hc by (unfold in_width; lia).
    rewrite (IH (m + 1) Hc ltac:(lia) ltac:(lia) k r Hk). f_equal. lia.
Qed.

(** When the merging constructor accepts a collection of interleaved
    ranges (at most 8 interleaving bits, the width of a match value), the
    merged range contains exactly the addresses that some range of the
    collection contains: together the stripes tile the whole interval. *)
Theorem merge_tiles rs m :
  AddrRange_merge rs = Ok m -> Forall (fun r => num_masks r <= 8) rs ->
  forall a, contains m a = true <-> covered rs a.
Proof.
  intros Hm H8 a. destruct rs as [| this rest]; [injection Hm as <- |].
  { rewrite covered_nil, contains_plain by done. simpl. lia. }
  unfold AddrRange_merge in Hm. destruct (Z.ltb_spec 1 (Z.of_nat (length (this :: rest)))).
  2: { injection Hm as <-. destruct rest; [| simpl in *; lia].
       rewrite covered_cons, covered_nil. tauto. }
  destruct (Z.leb_spec 64 (num_masks this)); [done |].
  destruct (Z.eqb_spec (Z.of_nat (length (this :: rest))) (2 ^ num_masks this)) as [Hn |]; [| done].
  cbn [negb] in Hm. obind_inv. destruct a0. rewrite contains_plain by done. cbn [_start _end].
  assert (Hle : 2 ^ num_masks this <= 2 ^ 8).
  { apply Z.pow_le_mono_r; [lia |]. by inversion H8. }
  assert (Hl : 0 + Z.of_nat (length (this :: rest)) <= 256) by (rewrite Hn; lia).
  pose proof (merge_check_ok this _ 0 Hm0 ltac:(lia) Hl) as Hk. simpl Z.add in Hk.
  split.
  - intros Ha. destruct (sel_from_range (masks this) 0 a ltac:(lia)) as [S0 S1].
    rewrite Z.add_0_l in S1. fold (num_masks this) in S1. fold (sel this a) in S0, S1.
    destruct ((this :: rest) !! Z.to_nat (sel this a)) as [r |] eqn:E.
    + exists r. split; [by eapply list_elem_of_In, list_elem_of_lookup_2 |].
      rewrite (Hk _ _ E) . apply contains_intro; [done |]. cbn [intlvMatch].
      change (sel (mkAddrRange _ _ _ _) a) with (sel this a). lia.
    + apply lookup_ge_None in E. lia.
  - intros (r & Hr & Hc). apply list_elem_of_In, list_elem_of_lookup_1 in Hr as [k E].
    apply contains_bounds in Hc as [Hc _]. rewrite (Hk _ _ E) in Hc. exact Hc.
Qed.

Lemma merge_tiles_witness :
  contains (RangeEx 0 0x1000) 0x123 = true <->
  covered [mkAddrRange 0 0x1000 [0x40] 0; mkAddrRange 0 0x1000 [0x40] 1] 0x123.
Proof.
  apply (merge_tiles [mkAddrRange 0 0x1000 [0x40] 0; mkAddrRange 0 0x1000 [0x40] 1]);
    [reflexivity | repeat constructor; vm_compute; discriminate].
Defined.
