(* ===== verification/Interleave.v ===== *)
(** The flat addresses of interleaved ranges: [removeIntlvBits], [addIntlvBits] and
    [getOffset] of [src/gem5/src/base/addr_range.hh].

    An interleaved range owns the addresses whose selector bits match.  Removing one
    bit per mask, the lowest, numbers these addresses without gaps; adding the
    bits back finds them again. *)
From Stdlib Require Import ZArith Lia.
From stdpp Require Import base numbers list sorting.
From S2P Require Import Prelude BitField AddrRange.

Open Scope Z_scope.

(** [std::sort(masks_lsb, masks_lsb + masks.size())] of the lowest set bits. *)
Definition masks_lsb (r : AddrRange) : list Z := merge_sort Z.le (map ctz64 (masks r)).

(** The loop of [removeIntlvBits]; positions are unsigned. *)
Fixpoint remove_loop (i : Z) (lsbs : list Z) (a : Z) : outcome Z :=
  match lsbs with
  | [] => Ok a
  | intlv_bit :: lsbs =>
      let! a :=
        (if 0 <? intlv_bit then insertBits (Z.shiftr a 1) (u32 (intlv_bit - i - 1)) 0 a
         else Ok (Z.shiftr a 1)) in
      remove_loop (i + 1) lsbs a
  end.

(** [Addr removeIntlvBits(Addr a) const]. *)
Definition removeIntlvBits (r : AddrRange) (a : Z) : outcome Z :=
  if negb (interleaved r) then Ok a else remove_loop 0 (masks_lsb r) a.

(** The first loop of [addIntlvBits]. *)
Fixpoint add_loop (lsbs : list Z) (a : Z) : outcome Z :=
  match lsbs with
  | [] => Ok a
  | intlv_bit :: lsbs =>
      let! a :=
        (if 0 <? intlv_bit then insertBits (u64 (Z.shiftl a 1)) (intlv_bit - 1) 0 a
         else Ok (u64 (Z.shiftl a 1))) in
      add_loop lsbs a
  end.

(** The second loop: [~(1 << lsb)] is an [int], and so is the selector once it is
    shifted. *)
Fixpoint set_loop (match_ : Z) (i : Z) (ms : list Z) (a : Z) : outcome Z :=
  match ms with
  | [] => Ok a
  | m :: ms =>
      let lsb := ctz64 m in
      if (32 <=? i) || (32 <=? lsb) then Err Undefined
      else
        let! intlv_bit := bits1 match_ i in
        let masked := Z.land (Z.land a m) (int_to_u64 (Z.lnot (Z.shiftl 1 lsb))) in
        let! a := insertBits a lsb lsb (Z.lxor intlv_bit (popCount masked)) in
        set_loop match_ (i + 1) ms a
  end.

(** [Addr addIntlvBits(Addr a) const]. *)
Definition addIntlvBits (r : AddrRange) (a : Z) : outcome Z :=
  if negb (interleaved r) then Ok a
  else let! a := add_loop (masks_lsb r) a in set_loop (intlvMatch r) 0 (masks r) a.

(** [Addr getOffset(const Addr& a) const]. *)
Definition getOffset (r : AddrRange) (a : Z) : outcome Z :=
  let in_range := (_start r <=? a) && (a <? _end r) in
  if negb in_range then Ok MaxAddr
  else if interleaved r then
    let! x := removeIntlvBits r a in
    let! y := removeIntlvBits r (_start r) in Ok (u64 (x - y))
  else Ok (u64 (a - _start r)).

(** * Positions *)

(** The place of bit [k] when a bit is inserted at [p]. *)
Definition up (p k : Z) : Z := if k <? p then k else k + 1.

(** The places of bit [k] in the order in which bits are added and removed. *)
Fixpoint up_add (i : Z) (ps : list Z) (k : Z) : Z :=
  match ps with [] => k | p :: ps => up_add i ps (up (p - i) k) end.
Fixpoint up_remove (i : Z) (ps : list Z) (k : Z) : Z :=
  match ps with [] => k | p :: ps => up (p - i) (up_remove (i + 1) ps k) end.

Lemma up_comm p q k : p < q -> up q (up p k) = up p (up (q - 1) k).
Proof. intros. unfold up. zcases; lia. Qed.

Lemma up_add_shift q ps : forall i k, Forall (fun p => q < p - i) ps ->
  up_add i ps (up q k) = up q (up_add (i + 1) ps k).
Proof.
  induction ps as [| p ps IH]; intros i k H; cbn; [done |]. inversion H; subst.
  rewrite up_comm by lia. rewrite IH by done. do 3 f_equal. lia.
Qed.

(** Bits removed from the lowest one are added back from the lowest one. *)
Lemma up_add_remove ps : forall i k, StronglySorted Z.lt ps ->
  up_add i ps k = up_remove i ps k.
Proof.
  induction ps as [| p ps IH]; intros i k H; cbn; [done |]. inversion H as [| ? ? Hs Hf]; subst.
  rewrite up_add_shift; [by rewrite IH |]. eapply Forall_impl; [exact Hf |]. cbn. lia.
Qed.

Lemma up_add_mono ps : forall i k, k <= up_add i ps k.
Proof.
  induction ps as [| p ps IH]; intros i k; cbn; [lia |].
  specialize (IH i (up (p - i) k)). unfold up in *. destruct (k <? p - i); lia.
Qed.

Lemma up_add_below ps k : Forall (fun p => k < p) ps -> up_add 0 ps k = k.
Proof.
  induction 1 as [| p ps Hp _ IH]; cbn; [done |].
  unfold up at 1. destruct (Z.ltb_spec k (p - 0)); [done | lia].
Qed.

(** Every position that is not inserted comes from one. *)
Lemma up_add_surj ps : forall j, StronglySorted Z.lt ps -> Forall (fun p => 0 <= p) ps ->
  0 <= j -> ~ In j ps -> exists k, 0 <= k <= j /\ up_add 0 ps k = j.
Proof.
  induction ps as [| p ps IH]; intros j Hs Hp Hj Hn; cbn; [by exists j; split; [lia |] |].
  inversion Hs as [| ? ? Hs' Hf]; subst. inversion Hp as [| ? ? Hp0 Hp']; subst.
  destruct (IH j Hs' Hp' Hj) as (k & Hk & E); [intros H; apply Hn; by right |].
  assert (k <> p).
  { intros ->. apply Hn. left. rewrite <- E. symmetry. by apply up_add_below. }
  exists (if k <? p then k else k - 1). unfold up. destruct (Z.ltb_spec k p).
  - destruct (Z.ltb_spec k (p - 0)); [split; [lia | done] | lia].
  - destruct (Z.ltb_spec (k - 1) (p - 0)); [lia |]. replace (k - 1 + 1) with k by lia.
    split; [lia | done].
Qed.

(** * The loops over the positions *)

Lemma testbit_high a k : in_width 64 a -> 64 <= k -> Z.testbit a k = false.
Proof. intros. apply (in_width_testbit 64); auto; lia. Qed.

Lemma up_ge p k : k <= up p k.
Proof. unfold up. destruct (k <? p); lia. Qed.

(** One iteration removes one bit, also where the unsigned position wraps. *)
Lemma remove_step p i a : in_width 64 a -> 0 <= i <= p -> p < 64 ->
  exists a', (if 0 <? p then insertBits (Z.shiftr a 1) (u32 (p - i - 1)) 0 a else Ok (Z.shiftr a 1))
    = Ok a' /\ in_width 64 a' /\
    forall k, 0 <= k -> Z.testbit a' k = Z.testbit a (up (p - i) k).
Proof.
  intros Ha Hi Hp.
  assert (Hw : in_width 64 (Z.shiftr a 1)) by (by apply shiftr_in_width).
  assert (Hlast : p = i -> forall k, 0 <= k -> Z.testbit (Z.shiftr a 1) k = Z.testbit a (up (p - i) k)).
  { intros -> k Hk. unfold up. destruct (Z.ltb_spec k (i - i)); [lia |]. by rewrite Z.shiftr_spec. }
  destruct (Z.ltb_spec 0 p); [| exists (Z.shiftr a 1); split_and!; auto; apply Hlast; lia].
  destruct (decide (p = i)) as [E | E].
  - exists (Z.shiftr a 1). split_and!; [| done | by apply Hlast]. rewrite E, Z.sub_diag.
    change (insertBits (Z.shiftr a 1) (u32 (0 - 1)) 0 a)
      with (Ok (Z.lor (Z.land (Z.shiftr a 1) (2 ^ 64 - 1)) (Z.land (u64 (Z.shiftl (u64 a) 0)) 0))).
    f_equal. change (2 ^ 64 - 1) with (Z.ones 64). rewrite Z.land_ones, Z.land_0_r, Z.lor_0_r by lia.
    by apply wrap_small.
  - rewrite wrap_small by (unfold in_width; lia).
    destruct (insertBits_testbit (Z.shiftr a 1) (p - i - 1) 0 a Hw) as (a' & -> & Hw' & Hb); [lia | lia |].
    exists a'. split_and!; [done | done |]. intros k Hk. destruct (Z.leb_spec 64 k) as [H64 | H64].
    { rewrite !testbit_high; auto. pose proof (up_ge (p - i) k). lia. }
    rewrite Hb by lia. rewrite Z.shiftr_spec, Z.sub_0_r by lia. unfold up.
    zcases; cbn; try lia; done.
Qed.

Lemma remove_loop_ok ps : forall i a, in_width 64 a -> StronglySorted Z.lt ps ->
  Forall (fun p => i <= p < 64) ps -> 0 <= i ->
  exists a', remove_loop i ps a = Ok a' /\ in_width 64 a' /\
    forall k, 0 <= k -> Z.testbit a' k = Z.testbit a (up_remove i ps k).
Proof.
  induction ps as [| p ps IH]; intros i a Ha Hs Hf Hi; cbn [remove_loop up_remove].
  { exists a. by split_and!. }
  inversion Hs as [| ? ? Hs' Hlt]; subst. inversion Hf as [| ? ? Hp Hf']; subst.
  destruct (remove_step p i a Ha) as (a1 & -> & Ha1 & Hb1); [lia | lia |]. cbn [obind].
  destruct (IH (i + 1) a1 Ha1 Hs') as (a' & -> & Ha' & Hb'); [| lia |].
  { rewrite !Forall_forall in *. intros x Hx. specialize (Hlt x Hx). specialize (Hf' x Hx). lia. }
  exists a'. split_and!; [done | done |]. intros k Hk. rewrite Hb' by done. apply Hb1.
  clear -Hk. revert k Hk. generalize (i + 1). induction ps as [| q ps IH]; intros j k Hk; cbn; [done |].
  specialize (IH (j + 1) k Hk). pose proof (up_ge (q - j) (up_remove (j + 1) ps k)). lia.
Qed.

Lemma add_step p b : in_width 64 b -> 0 <= p < 64 ->
  exists b', (if 0 <? p then insertBits (u64 (Z.shiftl b 1)) (p - 1) 0 b else Ok (u64 (Z.shiftl b 1)))
    = Ok b' /\ in_width 64 b' /\
    forall k, 0 <= k -> up p k < 64 -> Z.testbit b' (up p k) = Z.testbit b k.
Proof.
  intros Hb Hp. assert (Hw : in_width 64 (u64 (Z.shiftl b 1))) by (by apply wrap_range).
  assert (Hsh : forall j, 0 < j < 64 -> Z.testbit (u64 (Z.shiftl b 1)) j = Z.testbit b (j - 1)).
  { intros j Hj. rewrite wrap_testbit, Z.shiftl_spec by lia. destruct (Z.ltb_spec j 64); [done | lia]. }
  destruct (Z.ltb_spec 0 p).
  - destruct (insertBits_testbit _ (p - 1) 0 b Hw) as (b' & -> & Hw' & Hbit); [lia | lia |].
    exists b'. split_and!; [done | done |]. intros k Hk Hu. unfold up in *.
    destruct (Z.ltb_spec k p).
    + rewrite Hbit by lia. rewrite Z.sub_0_r. zcases; cbn; try lia; done.
    + rewrite Hbit by lia. zcases; cbn; try lia. rewrite Hsh by lia. f_equal. lia.
  - eexists. split_and!; [done | done |]. intros k Hk Hu. unfold up in *.
    destruct (Z.ltb_spec k p); [lia |]. rewrite Hsh by lia. f_equal. lia.
Qed.

Lemma add_loop_ok ps : forall b, in_width 64 b -> Forall (fun p => 0 <= p < 64) ps ->
  exists b', add_loop ps b = Ok b' /\ in_width 64 b' /\
    forall k, 0 <= k -> up_add 0 ps k < 64 -> Z.testbit b' (up_add 0 ps k) = Z.testbit b k.
Proof.
  induction ps as [| p ps IH]; intros b Hb Hf; cbn [add_loop up_add].
  { exists b. by split_and!. }
  inversion Hf as [| ? ? Hp Hf']; subst. destruct (add_step p b Hb Hp) as (b1 & -> & Hb1 & Hbit). cbn [obind].
  destruct (IH b1 Hb1 Hf') as (b' & -> & Hb' & Hbit'). exists b'. split_and!; [done | done |].
  intros k Hk Hu. rewrite Z.sub_0_r in *. pose proof (up_ge p k). pose proof (up_add_mono ps 0 (up p k)).
  rewrite Hbit' by lia. apply Hbit; lia.
Qed.

(** Removing and adding the bits changes nothing outside the positions. *)
Lemma add_remove_agree ps a : in_width 64 a -> StronglySorted Z.lt ps ->
  Forall (fun p => 0 <= p < 64) ps ->
  exists f x, remove_loop 0 ps a = Ok f /\ in_width 64 f /\ add_loop ps f = Ok x /\ in_width 64 x /\
    forall j, 0 <= j < 64 -> ~ In j ps -> Z.testbit x j = Z.testbit a j.
Proof.
  intros Ha Hs Hf. destruct (remove_loop_ok ps 0 a Ha Hs Hf) as (f & Hr & Hw & Hbf); [lia |].
  destruct (add_loop_ok ps f Hw Hf) as (x & Hadd & Hx & Hbx). exists f, x. split_and!; auto.
  intros j Hj Hn. destruct (up_add_surj ps j Hs) as (k & Hk & E); [| lia | done |].
  { eapply Forall_impl; [exact Hf |]. cbn. lia. }
  rewrite <- E. rewrite Hbx by lia. rewrite Hbf by lia. by rewrite up_add_remove.
Qed.

(** * Parities *)

Lemma popCount_double x (b : bool) : 0 <= x -> popCount (2 * x + Z.b2z b) = popCount x + Z.b2z b.
Proof. intros. destruct x as [| p | p]; [by destruct b | | lia]. destruct b.
  - change (2 * Z.pos p + Z.b2z true) with (Z.pos p~1). cbn [popCount popCount_pos Z.b2z]. lia.
  - change (2 * Z.pos p + Z.b2z false) with (Z.pos p~0). cbn [popCount popCount_pos Z.b2z]. lia.
Qed.

(** A bit of the value is a bit of the count. *)
Lemma popCount_clear p : 0 <= p -> forall x, 0 <= x ->
  popCount x = popCount (Z.clearbit x p) + Z.b2z (Z.testbit x p).
Proof.
  intros Hp. pattern p. apply natlike_ind; [| | done]; clear p Hp.
  - intros x Hx. pose proof (Z.div2_odd x) as E. rewrite <- Z.bit0_odd in E.
    assert (0 <= Z.div2 x) by (by apply Z.div2_nonneg).
    assert (Ec : Z.clearbit x 0 = 2 * Z.div2 x + Z.b2z false).
    { apply Z.bits_inj'. intros i Hi. rewrite Z.clearbit_spec', Z.ldiff_spec, Z.pow2_bits_eqb by lia.
      rewrite Z.add_0_r. destruct (Z.eqb_spec 0 i) as [<- |].
      - by rewrite andb_false_r, Z.testbit_even_0.
      - rewrite andb_true_r. replace i with (Z.succ (i - 1)) by lia.
        rewrite Z.double_bits_succ, Z.div2_spec, Z.shiftr_spec by lia. f_equal. }
    rewrite Ec, popCount_double by done. rewrite E at 1. rewrite popCount_double by done. cbn. lia.
  - intros p Hp IH x Hx. assert (Hy : 0 <= Z.div2 x) by (by apply Z.div2_nonneg).
    pose proof (Z.div2_odd x) as E.
    assert (Ec : Z.clearbit x (Z.succ p) = 2 * Z.clearbit (Z.div2 x) p + Z.b2z (Z.odd x)).
    { apply Z.bits_inj'. intros i Hi. destruct (decide (i = 0)) as [-> | Hi0].
      - rewrite Z.add_comm, Z.add_b2z_double_bit0, <- Z.bit0_odd.
        rewrite Z.clearbit_neq by lia. done.
      - replace i with (Z.succ (i - 1)) by lia. rewrite Z.testbit_succ_r by lia.
        destruct (decide (i - 1 = p)) as [<- | Hne].
        + by rewrite !Z.clearbit_eq.
        + rewrite !Z.clearbit_neq by lia. rewrite Z.div2_spec, Z.shiftr_spec by lia. done. }
    assert (0 <= Z.clearbit (Z.div2 x) p).
    { rewrite Z.clearbit_spec'. apply Z.ldiff_nonneg. by left. }
    rewrite Ec, popCount_double by done. rewrite E at 1. rewrite popCount_double by done.
    rewrite (IH (Z.div2 x) Hy). rewrite Z.div2_spec, Z.shiftr_spec by done.
    replace (p + 1) with (Z.succ p) by lia. lia.
Qed.

(** The selector bits of an address. *)
Lemma sel_from_testbit ms : forall i a j, 0 <= i -> 0 <= j -> Z.testbit (sel_from i ms a) j =
  match (if i <=? j then ms !! Z.to_nat (j - i) else None) with
  | Some m => Z.odd (popCount (Z.land a m))
  | None => false
  end.
Proof.
  induction ms as [| m ms IH]; intros i a j Hi Hj; cbn [sel_from].
  { rewrite Z.bits_0. by destruct (i <=? j); rewrite ?lookup_nil. }
  rewrite Z.lor_spec, Z.shiftl_spec, IH by lia. destruct (Z.leb_spec i j).
  - destruct (decide (i = j)) as [<- | Hne].
    + destruct (Z.leb_spec (i + 1) i); [lia |]. rewrite Z.sub_diag, orb_false_r, Zmod_odd.
      change ((m :: ms) !! Z.to_nat 0) with (Some m). by destruct (Z.odd (popCount (Z.land a m))).
    + destruct (Z.leb_spec (i + 1) j); [| lia].
      replace (Z.to_nat (j - i)) with (S (Z.to_nat (j - (i + 1)))) by lia. cbn [lookup list_lookup].
      rewrite (in_width_testbit 1); [done | unfold in_width; apply Z.mod_pos_bound; lia | lia | lia].
  - destruct (Z.leb_spec (i + 1) j); [lia |]. rewrite Z.testbit_neg_r by lia. done.
Qed.

(** * Round trip *)

(** The interleavings the functions support: the lowest bits of the masks are
    different, below bit 31, and not selected by an earlier mask. *)
Record intlv_wf (r : AddrRange) : Prop := {
  iw_count : num_masks r <= 8;
  iw_masks : Forall (fun m => 0 < m < 2 ^ 64 /\ ctz64 m < 31) (masks r);
  iw_distinct : NoDup (map ctz64 (masks r));
  iw_order : StronglySorted (fun m m' => Z.testbit m (ctz64 m') = false) (masks r);
}.

Lemma ctz64_spec m : 0 < m ->
  0 <= ctz64 m /\ Z.testbit m (ctz64 m) = true.
Proof.
  intros Hm. unfold ctz64, truthy. destruct (Z.eqb_spec m 0); [lia |]. cbn.
  pose proof (builtin_ctz_spec m Hm). tauto.
Qed.

(** The mask without its lowest bit, through the [int] complement. *)
Lemma int_complement_testbit p k : 0 <= p < 31 -> 0 <= k ->
  Z.testbit (int_to_u64 (Z.lnot (Z.shiftl 1 p))) k = (k <? 64) && negb (p =? k).
Proof.
  intros Hp Hk. rewrite Z.shiftl_1_l.
  assert (Hpow : 1 <= 2 ^ p <= 2 ^ 30).
  { split; [| apply Z.pow_le_mono_r; lia]. pose proof (Z.pow_pos_nonneg 2 p). lia. }
  assert (E : int_to_u64 (Z.lnot (2 ^ p)) = wnot 64 (2 ^ p)).
  { unfold int_to_u64, wnot.
    assert (Eu : u32 (Z.lnot (2 ^ p)) = 2 ^ 32 - 2 ^ p - 1).
    { unfold wrap, Z.lnot. symmetry. apply (Z.mod_unique _ _ (-1)); lia. }
    rewrite Eu. destruct (Z.leb_spec (2 ^ 31) (2 ^ 32 - 2 ^ p - 1)); [| lia].
    f_equal. unfold Z.lnot. lia. }
  rewrite E, wnot_testbit, Z.pow2_bits_eqb by lia. done.
Qed.

(** What the selector loop sees of a mask, once the earlier bits are right. *)
Lemma masked_clear x a m : 0 < m < 2 ^ 64 -> ctz64 m < 31 -> in_width 64 a ->
  (forall j, 0 <= j < 64 -> j <> ctz64 m -> Z.testbit m j = true -> Z.testbit x j = Z.testbit a j) ->
  Z.land (Z.land x m) (int_to_u64 (Z.lnot (Z.shiftl 1 (ctz64 m))))
  = Z.clearbit (Z.land a m) (ctz64 m).
Proof.
  intros Hm Hl Ha Hag. destruct (ctz64_spec m) as [H0 _]; [lia |].
  apply Z.bits_inj'. intros j Hj. rewrite !Z.land_spec, int_complement_testbit by lia.
  rewrite Z.clearbit_spec', Z.ldiff_spec, Z.land_spec, Z.pow2_bits_eqb by lia.
  destruct (Z.eqb_spec (ctz64 m) j) as [E | E]; [by rewrite !andb_false_r |].
  destruct (Z.ltb_spec j 64); cbn [negb andb]; rewrite ?andb_true_r, ?andb_false_r.
  - destruct (Z.testbit m j) eqn:Em; rewrite ?andb_false_r, ?andb_true_r; [| done]. apply Hag; auto; lia.
  - by rewrite (testbit_high a) by done.
Qed.

Lemma odd_div_pow2 x i : 0 <= i -> Z.odd (x / 2 ^ i) = Z.testbit x i.
Proof. intros. by rewrite <- Z.shiftr_div_pow2, Z.testbit_odd. Qed.

Lemma set_loop_ok match_ a ms : in_width 64 a ->
  Forall (fun m => 0 < m < 2 ^ 64 /\ ctz64 m < 31) ms ->
  StronglySorted (fun m m' => Z.testbit m (ctz64 m') = false) ms ->
  forall i x, 0 <= i -> i + Z.of_nat (length ms) <= 8 -> in_width 64 x ->
  (forall k m, ms !! k = Some m ->
     Z.testbit match_ (i + Z.of_nat k) = Z.odd (popCount (Z.land a m))) ->
  (forall j, 0 <= j < 64 -> ~ In j (map ctz64 ms) -> Z.testbit x j = Z.testbit a j) ->
  set_loop match_ i ms x = Ok a.
Proof.
  intros Ha. induction ms as [| m ms IH]; intros Hms Hord i x Hi Hlen Hx Hsel Hag; cbn [set_loop].
  { f_equal. apply Z.bits_inj'. intros j Hj. destruct (Z.ltb_spec j 64).
    - apply Hag; [lia | intros []].
    - by rewrite !testbit_high. }
  inversion Hms as [| ? ? [Hm Hl] Hms']; subst. inversion Hord as [| ? ? Hord' Hfor]; subst.
  destruct (ctz64_spec m) as [H0 Hbit]; [lia |]. cbn [length] in Hlen.
  destruct (Z.leb_spec 32 i); [lia |]. destruct (Z.leb_spec 32 (ctz64 m)); [lia |]. cbn [orb].
  unfold bits1. rewrite bits_divmod by lia. cbn [obind]. rewrite Z.sub_diag. change (2 ^ (0 + 1)) with 2.
  rewrite (masked_clear x a m); [| lia | lia | done |].
  2: { intros j Hj Hne Hmj. apply Hag; [lia |]. intros [E | Hin]; [congruence |].
       apply in_map_iff in Hin as (m' & E & Hin). rewrite Forall_forall in Hfor.
       specialize (Hfor m'). rewrite E in Hfor. rewrite Hfor in Hmj; [done |]. by apply list_elem_of_In. }
  set (v := Z.lxor _ _).
  destruct (insertBits_testbit x (ctz64 m) (ctz64 m) v Hx) as (x' & -> & Hx' & Hb); [lia | lia |].
  cbn [obind]. apply IH; [done | done | lia | lia | done | |].
  - intros k m' Hk. specialize (Hsel (S k) m' Hk). rewrite <- Hsel. f_equal. lia.
  - intros j Hj Hn. rewrite Hb by lia. destruct (decide (j = ctz64 m)) as [-> | Hne].
    + rewrite Z.leb_refl, Z.sub_diag. cbn [andb]. unfold v. rewrite Z.lxor_spec.
      specialize (Hsel O m eq_refl). rewrite Z.add_0_r in Hsel.
      rewrite popCount_clear with (p := ctz64 m) in Hsel by (rewrite ?Z.land_nonneg; lia).
      rewrite Z.land_spec, Hbit, andb_true_r, Z.odd_add in Hsel.
      rewrite !Z.bit0_odd, Zmod_odd, odd_div_pow2, Hsel by lia.
      by destruct (Z.testbit a (ctz64 m)), (Z.odd (popCount (Z.clearbit (Z.land a m) (ctz64 m)))).
    + destruct ((ctz64 m <=? j) && (j <=? ctz64 m)) eqn:E; [lia |].
      apply Hag; [lia |]. intros [Ej | Hin]; [congruence | by apply Hn].
Qed.

(** The sorted positions are those of the masks. *)
Lemma masks_lsb_perm r : masks_lsb r ≡ₚ map ctz64 (masks r).
Proof. apply merge_sort_Permutation. Qed.

Lemma masks_lsb_in r j : In j (masks_lsb r) <-> In j (map ctz64 (masks r)).
Proof. rewrite <- !list_elem_of_In. by rewrite masks_lsb_perm. Qed.

Lemma sorted_strict l : StronglySorted Z.le l -> NoDup l -> StronglySorted Z.lt l.
Proof.
  induction 1 as [| x l _ IH Hf]; intros Hn; constructor; inversion Hn; subst; [auto |].
  rewrite Forall_forall in *. intros y Hy. specialize (Hf y Hy). assert (x <> y) by (by intros ->). lia.
Qed.

Lemma masks_lsb_sorted r : intlv_wf r -> StronglySorted Z.lt (masks_lsb r).
Proof.
  intros [_ _ Hd _]. apply sorted_strict.
  - apply StronglySorted_merge_sort; [intros ? ? ?; lia | intros ? ?; lia].
  - by rewrite masks_lsb_perm.
Qed.

Lemma masks_lsb_range r : intlv_wf r -> Forall (fun p => 0 <= p < 64) (masks_lsb r).
Proof.
  intros [_ Hm _ _]. rewrite masks_lsb_perm. apply Forall_map. eapply Forall_impl; [exact Hm |].
  intros m [Hm0 Hl]. cbn. destruct (ctz64_spec m); lia.
Qed.

(** What [contains] says of the selector bits. *)
Lemma contains_bits r a k m : contains r a = true -> masks r !! k = Some m ->
  Z.testbit (intlvMatch r) (Z.of_nat k) = Z.odd (popCount (Z.land a m)).
Proof.
  unfold contains. intros H Hk. destruct ((_start r <=? a) && (a <? _end r)); [| done].
  apply Z.eqb_eq in H. rewrite <- H. unfold sel. rewrite sel_from_testbit by lia.
  destruct (Z.leb_spec 0 (Z.of_nat k)); [| lia]. by rewrite Z.sub_0_r, Nat2Z.id, Hk.
Qed.

Lemma roundtrip r a : intlv_wf r -> in_width 64 a -> contains r a = true ->
  exists f, removeIntlvBits r a = Ok f /\ in_width 64 f /\ addIntlvBits r f = Ok a.
Proof.
  intros Hwf Ha Hc. unfold removeIntlvBits, addIntlvBits.
  destruct (interleaved r); cbn [negb]; [| by exists a].
  destruct (add_remove_agree (masks_lsb r) a Ha) as (f & x & Hr & Hf & Hadd & Hx & Hag);
    [by apply masks_lsb_sorted | by apply masks_lsb_range |].
  exists f. split_and!; [done | done |]. rewrite Hadd. cbn [obind].
  destruct Hwf as [Hn Hm _ Ho]. unfold num_masks in Hn.
  apply set_loop_ok; auto; [lia | |].
  - intros k m Hk. rewrite Z.add_0_l. by apply contains_bits.
  - intros j Hj Hnin. apply Hag; [lia |]. by rewrite masks_lsb_in.
Qed.

(** * Order *)

Lemma bits_lt a b j : 0 <= j -> 0 <= a -> 0 <= b ->
  Z.testbit a j = false -> Z.testbit b j = true ->
  (forall k, j < k -> Z.testbit a k = Z.testbit b k) -> a < b.
Proof.
  intros Hj Ha Hb Haj Hbj Hag.
  assert (E : Z.shiftr a (j + 1) = Z.shiftr b (j + 1)).
  { apply Z.bits_inj'. intros k Hk. rewrite !Z.shiftr_spec by lia. apply Hag. lia. }
  assert (Ea : Z.shiftr a j = 2 * Z.shiftr a (j + 1)).
  { rewrite <- Z.shiftr_shiftr, <- Z.div2_spec by lia. rewrite (Z.div2_odd (Z.shiftr a j)) at 1.
    rewrite <- Z.bit0_odd, Z.shiftr_spec, Z.add_0_l, Haj by lia. cbn [Z.b2z]. lia. }
  assert (Eb : Z.shiftr b j = 2 * Z.shiftr b (j + 1) + 1).
  { rewrite <- Z.shiftr_shiftr, <- Z.div2_spec by lia. rewrite (Z.div2_odd (Z.shiftr b j)) at 1.
    rewrite <- Z.bit0_odd, Z.shiftr_spec, Z.add_0_l, Hbj by lia. cbn [Z.b2z]. lia. }
  assert (Hlt : Z.shiftr a j < Z.shiftr b j) by lia. rewrite !Z.shiftr_div_pow2 in Hlt by lia.
  destruct (Z.lt_ge_cases a b) as [| Hge]; [done |].
  assert (b / 2 ^ j <= a / 2 ^ j); [| lia]. apply Z.div_le_mono; [apply Z.pow_pos_nonneg; lia | lia].
Qed.

(** Two different numbers differ last in one bit, which orders them. *)
Lemma lt_bits a b : 0 <= a < b -> exists j, 0 <= j /\
  Z.testbit a j = false /\ Z.testbit b j = true /\
  forall k, j < k -> Z.testbit a k = Z.testbit b k.
Proof.
  intros Hab. set (x := Z.lxor a b).
  assert (Hx : 0 < x).
  { assert (0 <= x) by (apply Z.lxor_nonneg; lia). assert (x <> 0); [| lia].
    intros E. apply Z.lxor_eq in E. lia. }
  assert (Hag : forall k, Z.log2 x < k -> Z.testbit a k = Z.testbit b k).
  { intros k Hk. pose proof (Z.bits_above_log2 x k ltac:(lia) Hk) as H. unfold x in H.
    rewrite Z.lxor_spec in H. by destruct (Z.testbit a k), (Z.testbit b k). }
  pose proof (Z.bit_log2 x Hx) as Hl. pose proof (Z.log2_nonneg x).
  exists (Z.log2 x). unfold x in Hl at 1. rewrite Z.lxor_spec in Hl.
  destruct (Z.testbit a (Z.log2 x)) eqn:Ea, (Z.testbit b (Z.log2 x)) eqn:Eb; try done.
  exfalso. assert (b < a); [| lia]. apply (bits_lt b a (Z.log2 x)); auto; try lia.
  intros k Hk. symmetry. by apply Hag.
Qed.

Lemma up_remove_mono ps : forall i k k', k < k' -> up_remove i ps k < up_remove i ps k'.
Proof.
  induction ps as [| p ps IH]; intros i k k' H; cbn; [done |].
  specialize (IH (i + 1) k k' H). unfold up. zcases; lia.
Qed.

Lemma builtin_ctz_least m j : 0 < m -> 0 <= j < ctz64 m -> Z.testbit m j = false.
Proof.
  intros Hm. unfold ctz64, truthy. destruct (Z.eqb_spec m 0); [lia |]. cbn.
  pose proof (builtin_ctz_spec m Hm) as (? & ? & H). apply H.
Qed.

(** The bit in which two addresses of the range differ last is not a removed one:
    the selectors would differ. *)
Lemma last_difference_kept r a b j : intlv_wf r -> 0 <= a -> 0 <= b ->
  contains r a = true -> contains r b = true -> 0 <= j ->
  Z.testbit a j = false -> Z.testbit b j = true ->
  (forall k, j < k -> Z.testbit a k = Z.testbit b k) ->
  ~ In j (map ctz64 (masks r)).
Proof.
  intros Hwf Ha Hb Hca Hcb Hj Haj Hbj Hag Hin.
  apply in_map_iff in Hin as (m & Ej & Hin). apply list_elem_of_In, list_elem_of_lookup in Hin as [k Hk].
  pose proof (iw_masks r Hwf) as Hm. rewrite Forall_lookup in Hm. destruct (Hm k m Hk) as [Hm0 _].
  destruct (ctz64_spec m) as [_ Hbit]; [lia |].
  pose proof (contains_bits r a k m Hca Hk) as Ea. pose proof (contains_bits r b k m Hcb Hk) as Eb.
  rewrite Ea in Eb. rewrite (popCount_clear j Hj (Z.land a m)), (popCount_clear j Hj (Z.land b m)) in Eb
    by (apply Z.land_nonneg; lia).
  assert (E : Z.clearbit (Z.land a m) j = Z.clearbit (Z.land b m) j).
  { apply Z.bits_inj'. intros i Hi. rewrite !Z.clearbit_spec', !Z.ldiff_spec, !Z.land_spec, Z.pow2_bits_eqb by lia.
    destruct (Z.lt_total i j) as [Hlt | [-> | Hgt]].
    - by rewrite (builtin_ctz_least m i), !andb_false_r by lia.
    - by rewrite Z.eqb_refl, !andb_false_r.
    - by rewrite Hag. }
  rewrite E, !Z.odd_add, !Z.land_spec, Haj, Hbj, <- Ej, Hbit in Eb.
  by destruct (Z.odd (popCount (Z.clearbit (Z.land b m) (ctz64 m)))).
Qed.

Lemma removeIntlvBits_ok r a : intlv_wf r -> in_width 64 a -> exists f,
  removeIntlvBits r a = Ok f /\ in_width 64 f.
Proof.
  intros Hwf Ha. unfold removeIntlvBits. destruct (interleaved r); cbn [negb]; [| by exists a].
  destruct (remove_loop_ok (masks_lsb r) 0 a Ha) as (f & ? & ? & _); [| | lia | by exists f].
  - by apply masks_lsb_sorted.
  - by apply masks_lsb_range.
Qed.

Lemma remove_mono r a b fa fb : intlv_wf r -> in_width 64 a -> in_width 64 b ->
  contains r a = true -> contains r b = true -> a < b ->
  removeIntlvBits r a = Ok fa -> removeIntlvBits r b = Ok fb -> fa < fb.
Proof.
  intros Hwf Ha Hb Hca Hcb Hlt. unfold removeIntlvBits.
  destruct (interleaved r); cbn [negb]; [| intros; simplify_eq; done].
  assert (Hs := masks_lsb_sorted r Hwf). assert (Hr := masks_lsb_range r Hwf).
  destruct (remove_loop_ok (masks_lsb r) 0 a Ha Hs Hr) as (fa' & -> & Hwa & Hba); [lia |].
  destruct (remove_loop_ok (masks_lsb r) 0 b Hb Hs Hr) as (fb' & -> & Hwb & Hbb); [lia |].
  intros; simplify_eq. unfold in_width in *.
  destruct (lt_bits a b) as (j & Hj & Haj & Hbj & Hag); [lia |].
  destruct (up_add_surj (masks_lsb r) j Hs) as (k & Hk & E); [| lia | |].
  { eapply Forall_impl; [exact Hr |]. cbn. lia. }
  { rewrite masks_lsb_in. apply (last_difference_kept r a b); auto; lia. }
  rewrite up_add_remove in E by done.
  apply (bits_lt fa fb k); [lia | lia | lia | | |].
  - by rewrite Hba, E by lia.
  - by rewrite Hbb, E by lia.
  - intros k' Hk'. rewrite Hba, Hbb by lia. apply Hag. rewrite <- E. by apply up_remove_mono.
Qed.

(** Removing the interleaving bits of the addresses of an interleaved range
    and adding them back is the identity, removing them keeps the order of the
    addresses, and so [getOffset] gives different offsets to different addresses of
    the range. *)
Theorem intlv_roundtrip r a : intlv_wf r -> in_width 64 a -> contains r a = true ->
  (exists f, removeIntlvBits r a = Ok f /\ in_width 64 f /\ addIntlvBits r f = Ok a) /\
  (forall b fa fb, in_width 64 b -> contains r b = true -> a < b ->
     removeIntlvBits r a = Ok fa -> removeIntlvBits r b = Ok fb -> fa < fb) /\
  (forall b o, in_width 64 b -> in_width 64 (_start r) -> contains r b = true ->
     getOffset r a = Ok o -> getOffset r b = Ok o -> a = b).
Proof.
  intros Hwf Ha Hc. split_and!; [by apply roundtrip | intros; by eapply (remove_mono r a) |].
  intros b o Hb Hs Hcb. unfold getOffset.
  destruct (contains_bounds r a Hc) as [? ?]. destruct (contains_bounds r b Hcb) as [? ?].
  destruct (Z.leb_spec (_start r) a), (Z.ltb_spec a (_end r)); try lia.
  destruct (Z.leb_spec (_start r) b), (Z.ltb_spec b (_end r)); try lia. cbn [andb negb].
  destruct (roundtrip r a Hwf Ha Hc) as (fa & Hfa & Hwa & Hra).
  destruct (roundtrip r b Hwf Hb Hcb) as (fb & Hfb & Hwb & Hrb).
  destruct (removeIntlvBits_ok r (_start r) Hwf Hs) as (fs & Hfs & Hws).
  rewrite Hfa, Hfb, Hfs. cbn [obind]. unfold wrap, in_width in *.
  destruct (interleaved r); intros; simplify_eq.
  - assert (fb = fa) by (Z.div_mod_to_equations; lia). subst. rewrite Hra in Hrb. by simplify_eq.
  - Z.div_mod_to_equations; lia.
Qed.

(** A range of four stripes over bits 6 and 7, the first one xored with bit 12. *)
Definition intlv_example : AddrRange := mkAddrRange 0 (2 ^ 32) [2 ^ 6 + 2 ^ 12; 2 ^ 7] 2.

Lemma intlv_example_wf : intlv_wf intlv_example.
Proof.
  split; [vm_compute; discriminate | | |].
  - repeat constructor.
  - apply (bool_decide_unpack _). vm_compute. exact I.
  - repeat constructor.
Qed.

Lemma intlv_roundtrip_witness :
  removeIntlvBits intlv_example 4241 = Ok 1041 /\ addIntlvBits intlv_example 1041 = Ok 4305 /\
  exists f, removeIntlvBits intlv_example 4305 = Ok f /\ in_width 64 f /\ addIntlvBits intlv_example f = Ok 4305.
Proof.
  split_and!; [vm_compute; reflexivity | vm_compute; reflexivity |].
  apply (intlv_roundtrip intlv_example 4305 intlv_example_wf); [vm_compute; split; congruence | reflexivity].
Defined.
