(* ===== verification/ChunkGen.v ===== *)
(** Splitting a region into aligned chunks: class [ChunkGenerator] of
    [src/gem5/src/base/chunk_generator.hh].

    The devices and the port proxies walk a region with
    [for (ChunkGenerator gen(addr, size, chunkSize); !gen.done(); gen.next())].
    The generator computes with 64-bit addresses that wrap. *)
From Stdlib Require Import ZArith Lia.
From stdpp Require Import base numbers list.
From S2P Require Import Prelude BitField IntMath.

Open Scope Z_scope.

Record ChunkGenerator : Type := mkChunkGenerator {
  curAddr : Z;
  nextAddr : Z;
  curSize : Z;
  nextSize : Z;
  sizeLeft : Z;
  startAddr : Z;
  chunkSize : Z;
}.

(** [ChunkGenerator(Addr _startAddr, Addr totalSize, Addr _chunkSize)]. *)
Definition new_ChunkGenerator (start total chunk : Z) : outcome ChunkGenerator :=
  do! assert_ ((chunk =? 0) || isPowerOf2 chunk) then
  let! next :=
    (if chunk =? 0 then Ok (u64 (start + total))
     else
       let! next := roundUp start chunk in
       let next := if start =? next then u64 (next + chunk) else next in
       Ok (Z.min next (u64 (start + total)))) in
  let cur := u64 (next - start) in
  let left := u64 (total - cur) in
  Ok (mkChunkGenerator start next cur (Z.min left chunk) left start chunk).

Definition addr (g : ChunkGenerator) : Z := curAddr g.
Definition size (g : ChunkGenerator) : Z := curSize g.
Definition complete (g : ChunkGenerator) : Z := u64 (curAddr g - startAddr g).
Definition done (g : ChunkGenerator) : bool := curSize g =? 0.
Definition last (g : ChunkGenerator) : bool := sizeLeft g =? 0.

(** [void setNext(Addr next)]. *)
Definition setNext (next : Z) (g : ChunkGenerator) : outcome ChunkGenerator :=
  do! assert_ (nextAddr g <=? next) then
  let skipping := Z.min (u64 (next - nextAddr g)) (sizeLeft g) in
  let left := u64 (sizeLeft g - skipping) in
  do! assert_ (truthy (chunkSize g)) then
  let! up := roundUp next (chunkSize g) in
  let ns := u64 (up - next) in
  let ns := if truthy ns then ns else Z.min left (chunkSize g) in
  Ok (mkChunkGenerator (curAddr g) next (u64 (curSize g + skipping)) ns left
        (startAddr g) (chunkSize g)).

(** [bool next()]. *)
Definition next (g : ChunkGenerator) : ChunkGenerator * bool :=
  if last g then
    (mkChunkGenerator (curAddr g) (nextAddr g) 0 (nextSize g) (sizeLeft g) (startAddr g)
       (chunkSize g), false)
  else
    let left := u64 (sizeLeft g - nextSize g) in
    (mkChunkGenerator (nextAddr g) (u64 (nextAddr g + nextSize g)) (nextSize g)
       (Z.min left (chunkSize g)) left (startAddr g) (chunkSize g), true).

(** The loop of the callers: the chunks it visits, and [None] when the fuel does not
    reach the end. *)
Fixpoint chunks (fuel : nat) (g : ChunkGenerator) : option (list (Z * Z)) :=
  if done g then Some []
  else match fuel with
       | O => None
       | S fuel => cons (addr g, size g) <$> chunks fuel (next g).1
       end.

(** * Specification *)

(** Consecutive chunks from [a] to [e], none of them empty. *)
Fixpoint tiles (a e : Z) (l : list (Z * Z)) : Prop :=
  match l with
  | [] => a = e
  | (x, s) :: l => x = a /\ 0 < s /\ tiles (a + s) e l
  end.

(** The chunk lies in one block of [c] bytes; no blocks for [c = 0]. *)
Definition in_block (c : Z) (ch : Z * Z) : Prop :=
  c = 0 \/ ch.1 / c = (ch.1 + ch.2 - 1) / c.

(** A generator on its way to [e]: the current chunk is in one block, the rest
    starts on a block boundary. *)
Record gen_inv (e : Z) (g : ChunkGenerator) : Prop := {
  gi_cur : 0 <= curAddr g /\ 0 <= curSize g /\ nextAddr g = curAddr g + curSize g;
  gi_left : 0 <= sizeLeft g /\ nextAddr g + sizeLeft g = e;
  gi_next : nextSize g = Z.min (sizeLeft g) (chunkSize g);
  gi_block : 0 < curSize g -> in_block (chunkSize g) (curAddr g, curSize g);
  gi_empty : curSize g = 0 -> sizeLeft g = 0;
  gi_align : 0 < sizeLeft g -> 0 < chunkSize g /\ (chunkSize g | nextAddr g);
}.

Lemma aligned_block c a s : (c | a) -> 0 < s <= c -> a / c = (a + s - 1) / c.
Proof.
  intros [k ->] Hs. rewrite Z.div_mul by lia. apply Z.div_unique with (s - 1); lia.
Qed.

Lemma below_boundary_block c a u s : 0 < c -> (c | u) -> a <= u < a + c -> 0 < s -> a + s <= u ->
  a / c = (a + s - 1) / c.
Proof.
  intros Hc [k ->] Hu Hs He. transitivity (k - 1).
  - symmetry. apply Z.div_unique with (a - c * (k - 1)); lia.
  - apply Z.div_unique with (a + s - 1 - c * (k - 1)); lia.
Qed.

Lemma new_inv start total chunk : 0 <= start -> 0 <= total -> start + total < 2 ^ 64 ->
  (chunk = 0 \/ isPowerOf2 chunk = true) -> 0 <= chunk -> start + chunk < 2 ^ 64 ->
  exists g, new_ChunkGenerator start total chunk = Ok g /\ gen_inv (start + total) g /\
    curAddr g = start /\ startAddr g = start /\ chunkSize g = chunk.
Proof.
  intros Hs Ht He Hp Hc Hsc. unfold new_ChunkGenerator.
  rewrite (wrap_small 64 (start + total)) by (unfold in_width; lia).
  destruct (Z.eqb_spec chunk 0) as [-> | Hc0]; cbn [orb assert_ obind].
  { rewrite (wrap_small 64 (start + total - start)) by (unfold in_width; lia).
    rewrite (wrap_small 64 (total - _)) by (unfold in_width; lia).
    eexists. split; [reflexivity |]. split_and!; [| done..].
    split; cbn; unfold in_block; try lia; tauto. }
  destruct Hp as [-> | Hp]; [lia |]. rewrite Hp. cbn [assert_ obind].
  destruct (round_spec start chunk) as (_ & u & _ & -> & _ & _ & Hdiv & Hu); try (unfold in_width; lia); [done |].
  cbn [obind].
  set (nx := if start =? u then u64 (u + chunk) else u).
  assert (Hnx : (chunk | nx) /\ start < nx <= start + chunk).
  { unfold nx. destruct (Z.eqb_spec start u) as [E |]; [| split; [done | lia]].
    rewrite wrap_small by (unfold in_width; lia). split; [| lia].
    apply Z.divide_add_r; [done | apply Z.divide_refl]. }
  clearbody nx. destruct Hnx as [Hd Hn].
  rewrite (wrap_small 64 (Z.min nx (start + total) - start)) by (unfold in_width; lia).
  rewrite (wrap_small 64 (total - _)) by (unfold in_width; lia).
  eexists. split; [reflexivity |]. split_and!; [| done..].
  split; cbn; try lia.
  - intros H. right. cbn. destruct (decide (nx = start + chunk)) as [E | E].
    + apply aligned_block; [| lia]. replace start with (nx - chunk) by lia.
      apply Z.divide_sub_r; [done | apply Z.divide_refl].
    + apply below_boundary_block with nx; auto; lia.
  - intros. replace (Z.min nx (start + total)) with nx by lia. split; [lia | done].
Qed.

Lemma next_inv e g : gen_inv e g -> e < 2 ^ 64 -> last g = false ->
  gen_inv e (next g).1 /\ (next g).2 = true /\ curAddr (next g).1 = curAddr g + curSize g /\
  chunkSize (next g).1 = chunkSize g /\ startAddr (next g).1 = startAddr g /\
  0 < curSize (next g).1.
Proof.
  intros [Hcur Hleft Hnext Hblk Hemp Hal] He Hl. unfold next. rewrite Hl.
  unfold last in Hl. apply Z.eqb_neq in Hl. destruct Hal as [Hc Hd]; [lia |].
  cbn [fst snd curAddr curSize chunkSize startAddr].
  rewrite (wrap_small 64 (sizeLeft g - nextSize g)) by (unfold in_width; lia).
  rewrite (wrap_small 64 (nextAddr g + nextSize g)) by (unfold in_width; lia).
  split_and!; try done; try lia. split; cbn; try lia.
  - intros _. right. cbn. apply aligned_block; [done | lia].
  - intros ?. split; [done |]. replace (nextSize g) with (chunkSize g) by lia.
    apply Z.divide_add_r; [done | apply Z.divide_refl].
Qed.

Lemma next_last g : last g = true -> curSize (next g).1 = 0 /\ (next g).2 = false.
Proof. intros H. unfold next. by rewrite H. Qed.

(** The walk ends, and tiles what is left of the region. *)
Lemma chunks_inv e : e < 2 ^ 64 -> forall fuel g, gen_inv e g ->
  curSize g + sizeLeft g <= Z.of_nat fuel ->
  exists l, chunks fuel g = Some l /\ tiles (curAddr g) e l /\ Forall (in_block (chunkSize g)) l.
Proof.
  intros He. induction fuel as [| fuel IH]; intros g Hg Hf; pose proof Hg as [Hcur Hleft _ Hblk Hemp _].
  { cbn. unfold done. destruct (Z.eqb_spec (curSize g) 0); [| lia].
    exists []. split_and!; [done | cbn; lia | constructor]. }
  cbn [chunks]. unfold done. destruct (Z.eqb_spec (curSize g) 0) as [E | E].
  { exists []. split_and!; [done | cbn; specialize (Hemp E); lia | constructor]. }
  destruct (last g) eqn:Hl.
  - destruct (next_last g Hl) as [E0 _]. apply Z.eqb_eq in Hl.
    exists [(addr g, size g)]. unfold addr, size. split_and!.
    + destruct fuel; cbn [chunks]; unfold done; by rewrite E0.
    + cbn. lia.
    + constructor; [apply Hblk; lia | constructor].
  - destruct (next_inv e g Hg He Hl) as (Hg' & _ & Ea & Ec & _ & Hpos).
    destruct (IH _ Hg') as (l & -> & Ht & Hb).
    { pose proof Hg' as [? ? _ _ _ _]. lia. }
    exists ((addr g, size g) :: l). unfold addr, size. split_and!; [done | |].
    + cbn. rewrite <- Ea. split_and!; [done | lia | done].
    + rewrite Ec in Hb. constructor; [apply Hblk; lia | done].
Qed.

(** The loop over a region that ends below 2^64 (and whose first chunk does)
    terminates within one step per byte, and the chunks it visits are not
    empty, follow each other from the start of the region to its end, and each
    lies in one aligned block of the chunk size. *)
Theorem chunks_tile start total chunk fuel : 0 <= start -> 0 <= total -> start + total < 2 ^ 64 ->
  (chunk = 0 \/ isPowerOf2 chunk = true) -> 0 <= chunk -> start + chunk < 2 ^ 64 ->
  total <= Z.of_nat fuel ->
  exists g l, new_ChunkGenerator start total chunk = Ok g /\ chunks fuel g = Some l /\
    tiles start (start + total) l /\ Forall (in_block chunk) l.
Proof.
  intros Hs Ht He Hp Hc Hsc Hf.
  destruct (new_inv start total chunk) as (g & Hg & Hinv & Ea & _ & Ec); auto.
  destruct (chunks_inv (start + total) He fuel g Hinv) as (l & Hl & Htl & Hb).
  { destruct Hinv as [? ? _ _ _ _]. lia. }
  exists g, l. rewrite Ea in Htl. rewrite Ec in Hb. done.
Qed.

Lemma chunks_tile_witness :
  (new_ChunkGenerator 100 200 64 = Ok (mkChunkGenerator 100 128 28 64 172 100 64)) /\
  exists g l, new_ChunkGenerator 100 200 64 = Ok g /\ chunks 200 g = Some l /\
    tiles 100 300 l /\ Forall (in_block 64) l.
Proof.
  split; [vm_compute; reflexivity |].
  apply (chunks_tile 100 200 64 200); [lia .. | right; reflexivity | lia | lia | lia].
Defined.

Lemma chunks_example :
  match new_ChunkGenerator 100 200 64 with
  | Ok g => chunks 5 g = Some [(100, 28); (128, 64); (192, 64); (256, 44)]
  | Err _ => False
  end.
Proof. vm_compute. reflexivity. Qed.

(** Progress: what [complete] has counted, the current chunk and the rest make
    the region, at every step of the walk. *)
Lemma complete_spec e g : gen_inv e g -> e < 2 ^ 64 -> startAddr g <= curAddr g -> 0 <= startAddr g ->
  startAddr g + complete g + size g + sizeLeft g = e.
Proof.
  intros [Hcur Hleft _ _ _ _] He Hs H0. unfold complete, size.
  rewrite wrap_small by (unfold in_width; lia). lia.
Qed.

(** Growing the current chunk to a block boundary keeps the walk on its way; the
    grown chunk may span blocks. *)
Lemma setNext_aligned e g n : gen_inv e g -> e < 2 ^ 64 -> 0 < chunkSize g ->
  isPowerOf2 (chunkSize g) = true -> nextAddr g <= n -> n + chunkSize g < 2 ^ 64 -> n <= e ->
  (chunkSize g | n) ->
  exists g', setNext n g = Ok g' /\ curAddr g' = curAddr g /\ curSize g' = n - curAddr g /\
    nextAddr g' = n /\ sizeLeft g' = e - n /\ nextSize g' = Z.min (e - n) (chunkSize g).
Proof.
  intros [Hcur Hleft _ _ _ _] He Hc Hp Hn Hn64 Hne Hd. unfold setNext.
  destruct (Z.leb_spec (nextAddr g) n); [| lia]. cbn [assert_ obind].
  unfold truthy at 1. destruct (Z.eqb_spec (chunkSize g) 0); [lia |]. cbn [negb assert_ obind].
  destruct (round_spec n (chunkSize g)) as (_ & u & _ & -> & _ & _ & Hdu & Hu); try (unfold in_width; lia); [done |].
  cbn [obind]. assert (u = n) as ->.
  { assert (Hdd : (chunkSize g | u - n)) by (by apply Z.divide_sub_r).
    destruct Hdd as [k Hk]. assert (k = 0) by nia. lia. }
  rewrite Z.sub_diag. change (truthy (u64 0)) with false. cbn iota.
  rewrite (wrap_small 64 (n - nextAddr g)) by (unfold in_width; lia).
  rewrite (wrap_small 64 (sizeLeft g - _)) by (unfold in_width; lia).
  rewrite (wrap_small 64 (curSize g + _)) by (unfold in_width; lia).
  eexists. split; [reflexivity |]. cbn. repeat split; lia.
Qed.

(** * Boundaries *)

(** In the last block of the address space [roundUp] wraps to 0, and the
    first chunk is longer than the region. *)
Lemma first_chunk_overflow :
  new_ChunkGenerator (2 ^ 64 - 8) 4 64
  = Ok (mkChunkGenerator (2 ^ 64 - 8) 0 8 64 (2 ^ 64 - 4) (2 ^ 64 - 8) 64).
Proof. vm_compute. reflexivity. Qed.

(** [setNext] to an address inside a block does not limit the next chunk to what
    is left: the region 0..40 in blocks of 32, moved to 33, is left with 7 bytes
    and a next chunk of 31, after which the size left wraps. *)
Lemma setNext_unclamped :
  match new_ChunkGenerator 0 40 32 with
  | Ok g => match setNext 33 g with
            | Ok g' => sizeLeft g' = 7 /\ nextSize g' = 31 /\
                       sizeLeft (next g').1 = 2 ^ 64 - 24 /\ curSize (next g').1 = 31
            | Err _ => False
            end
  | Err _ => False
  end.
Proof. vm_compute. auto. Qed.
