(* ===== verification/PortProxy.v ===== *)
(** Functional access to memory through a port: [readBlobPhys], [writeBlobPhys] and
    [memsetBlobPhys] of [src/gem5/src/mem/port_proxy.cc].

    The proxy cuts a region into cache lines and sends one functional packet for
    each.  The memory behind the port is a parameter: [FunctionalMemory] says that
    a packet reads or writes the bytes of its range and nothing else. *)
From Stdlib Require Import ZArith Lia.
From stdpp Require Import base numbers list.
From S2P Require Import Prelude IntMath ChunkGen.

Open Scope Z_scope.

(** The bytes a functional packet reads and writes at an address. *)
Class FunctionalMemory (M : Type) : Type := {
  byte_at : M -> Z -> Z;
  send_read : Z -> Z -> M -> list Z;
  send_write : Z -> list Z -> M -> M;
  send_read_spec : forall a n m, 0 <= n ->
    send_read a n m = map (fun k => byte_at m (a + Z.of_nat k)) (seq 0 (Z.to_nat n));
  send_write_spec : forall a bs m x, byte_at (send_write a bs m) x =
    if (a <=? x) && (x <? a + Z.of_nat (length bs)) then nth (Z.to_nat (x - a)) bs 0 else byte_at m x;
}.

Section proxy.
Context `{FunctionalMemory M}.

(** The loop of [readBlobPhys]: the bytes it stores from [p] on. *)
Fixpoint read_loop (fuel : nat) (g : ChunkGenerator) (m : M) : option (list Z) :=
  if done g then Some []
  else match fuel with
       | O => None
       | S fuel => app (send_read (addr g) (size g) m) <$> read_loop fuel (next g).1 m
       end.

(** [void readBlobPhys(Addr addr, Request::Flags flags, void *p, uint64_t size) const];
    [None] is a loop that does not end within [size] steps. *)
Definition readBlobPhys (cacheLineSize a size : Z) (m : M) : outcome (option (list Z)) :=
  let! g := new_ChunkGenerator a size cacheLineSize in
  Ok (read_loop (Z.to_nat size) g m).

(** The loop of [writeBlobPhys]; [p] is what is left of the buffer. *)
Fixpoint write_loop (fuel : nat) (g : ChunkGenerator) (p : list Z) (m : M) : option M :=
  if done g then Some m
  else match fuel with
       | O => None
       | S fuel =>
           let m := send_write (addr g) (take (Z.to_nat (size g)) p) m in
           write_loop fuel (next g).1 (drop (Z.to_nat (size g)) p) m
       end.

(** [void writeBlobPhys(Addr addr, Request::Flags flags, const void *p, uint64_t size) const]. *)
Definition writeBlobPhys (cacheLineSize a : Z) (p : list Z) (m : M) : outcome (option M) :=
  let! g := new_ChunkGenerator a (Z.of_nat (length p)) cacheLineSize in
  Ok (write_loop (length p) g p m).

(** [void memsetBlobPhys(Addr addr, Request::Flags flags, uint8_t v, uint64_t size) const]. *)
Definition memsetBlobPhys (cacheLineSize a v size : Z) (m : M) : outcome (option M) :=
  writeBlobPhys cacheLineSize a (replicate (Z.to_nat size) v) m.

(** * The region as a whole *)

(** The bytes of a region. *)
Definition region (a : Z) (n : nat) (m : M) : list Z :=
  map (fun k => byte_at m (a + Z.of_nat k)) (seq 0 n).

Lemma length_region a n m : length (region a n m) = n.
Proof. unfold region. by rewrite length_map, length_seq. Qed.

Lemma region_app a n n' m : region a (n + n') m = region a n m ++ region (a + Z.of_nat n) n' m.
Proof.
  unfold region. rewrite seq_app, map_app. f_equal.
  replace (seq (0 + n) n') with (map (Nat.add n) (seq 0 n')) by (etrans; [apply fmap_add_seq | f_equal; lia]).
  rewrite map_map. apply map_ext. intros k. f_equal. lia.
Qed.

(** The loops follow the chunks, whatever they are. *)
Lemma read_loop_chunks m fuel : forall g l, chunks fuel g = Some l ->
  read_loop fuel g m = Some (concat (map (fun ch => send_read ch.1 ch.2 m) l)).
Proof.
  induction fuel as [| fuel IH]; intros g l; cbn [chunks read_loop]; destruct (done g).
  1-3: intros; simplify_eq; done.
  intros E. destruct (chunks fuel (next g).1) as [l' |] eqn:El; [| done]. cbn in E. simplify_eq.
  by rewrite (IH _ _ El).
Qed.

Fixpoint write_chunks (l : list (Z * Z)) (p : list Z) (m : M) : M :=
  match l with
  | [] => m
  | (a, s) :: l => write_chunks l (drop (Z.to_nat s) p) (send_write a (take (Z.to_nat s) p) m)
  end.

Lemma write_loop_chunks fuel : forall g l p m, chunks fuel g = Some l ->
  write_loop fuel g p m = Some (write_chunks l p m).
Proof.
  induction fuel as [| fuel IH]; intros g l p m; cbn [chunks write_loop]; destruct (done g).
  1-3: intros; simplify_eq; done.
  intros E. destruct (chunks fuel (next g).1) as [l' |] eqn:El; [| done]. cbn in E. simplify_eq.
  by rewrite (IH _ _ _ _ El).
Qed.

Lemma tiles_le a e l : tiles a e l -> a <= e.
Proof.
  revert a. induction l as [| [x s] l IH]; intros a; cbn; [lia |]. intros (_ & Hs & Ht). apply IH in Ht. lia.
Qed.

(** Chunks that tile a region read the region. *)
Lemma read_tiles m l : forall a e, tiles a e l ->
  concat (map (fun ch => send_read ch.1 ch.2 m) l) = region a (Z.to_nat (e - a)) m.
Proof.
  induction l as [| [x s] l IH]; intros a e; cbn [tiles map concat fst snd].
  { intros ->. by rewrite Z.sub_diag. }
  intros (-> & Hs & Ht). pose proof (tiles_le _ _ _ Ht). rewrite (IH _ _ Ht), send_read_spec by lia.
  replace (Z.to_nat (e - a)) with (Z.to_nat s + Z.to_nat (e - (a + s)))%nat by lia.
  rewrite region_app. rewrite Z2Nat.id by lia. done.
Qed.

(** Chunks that tile a region write the buffer to it, and nothing else. *)
Lemma write_tiles l : forall a e p m x, tiles a e l -> Z.of_nat (length p) = e - a ->
  byte_at (write_chunks l p m) x =
  if (a <=? x) && (x <? e) then nth (Z.to_nat (x - a)) p 0 else byte_at m x.
Proof.
  induction l as [| [y s] l IH]; intros a e p m x; cbn [tiles write_chunks].
  { intros -> Hp. destruct (Z.leb_spec e x), (Z.ltb_spec x e); cbn; try done. lia. }
  intros (-> & Hs & Ht) Hp. pose proof (tiles_le _ _ _ Ht).
  assert (Hlen : length (take (Z.to_nat s) p) = Z.to_nat s) by (rewrite length_take; lia).
  rewrite (IH _ _ _ _ _ Ht) by (rewrite length_drop; lia). rewrite send_write_spec, Hlen, Z2Nat.id by lia.
  destruct (Z.leb_spec (a + s) x), (Z.ltb_spec x e), (Z.leb_spec a x), (Z.ltb_spec x (a + s)); try lia; cbn; try done.
  - rewrite !nth_lookup, lookup_drop. do 2 f_equal. lia.
  - rewrite !nth_lookup, lookup_take_lt by lia. done.
Qed.

(** What the functions do, on regions that end below 2^64. *)
Definition region_ok (cls a n : Z) : Prop :=
  0 <= a /\ 0 <= n /\ a + n < 2 ^ 64 /\ isPowerOf2 cls = true /\ 0 <= cls /\ a + cls < 2 ^ 64.

Lemma region_chunks cls a n : region_ok cls a n -> exists g l,
  new_ChunkGenerator a n cls = Ok g /\ chunks (Z.to_nat n) g = Some l /\ tiles a (a + n) l.
Proof.
  intros (? & ? & ? & Hp & ? & ?).
  destruct (new_inv a n cls) as (g & Hg & Hinv & Ea & _ & _); auto.
  destruct (chunks_inv (a + n)) with (fuel := Z.to_nat n) (g := g) as (l & Hl & Ht & _); auto.
  { destruct Hinv as [? ? _ _ _ _]. lia. }
  exists g, l. by rewrite Ea in Ht.
Qed.

Lemma readBlobPhys_ok cls a n m : region_ok cls a n ->
  readBlobPhys cls a n m = Ok (Some (region a (Z.to_nat n) m)).
Proof.
  intros Hr. destruct (region_chunks cls a n Hr) as (g & l & Hg & Hl & Ht).
  unfold readBlobPhys. rewrite Hg. cbn [obind]. rewrite (read_loop_chunks _ _ _ _ Hl), (read_tiles _ _ _ _ Ht).
  do 4 f_equal. lia.
Qed.

Lemma writeBlobPhys_ok cls a p m : region_ok cls a (Z.of_nat (length p)) ->
  exists m', writeBlobPhys cls a p m = Ok (Some m') /\
    forall x, byte_at m' x = if (a <=? x) && (x <? a + Z.of_nat (length p))
                             then nth (Z.to_nat (x - a)) p 0 else byte_at m x.
Proof.
  intros Hr. destruct (region_chunks cls a _ Hr) as (g & l & Hg & Hl & Ht). rewrite Nat2Z.id in Hl.
  unfold writeBlobPhys. rewrite Hg. cbn [obind]. rewrite (write_loop_chunks _ _ _ _ _ Hl).
  eexists. split; [reflexivity |]. intros x. apply (write_tiles _ _ _ _ _ _ Ht). lia.
Qed.

(** Over any memory whose functional packets read and write exactly the bytes of
    their range, and for any region that ends below 2^64, a write through the proxy
    returns, changes exactly the region, and a read of the region then returns the
    buffer; the cache lines the transfer is cut into do not show. *)
Theorem blob_roundtrip cls a p m : region_ok cls a (Z.of_nat (length p)) ->
  exists m', writeBlobPhys cls a p m = Ok (Some m') /\
    readBlobPhys cls a (Z.of_nat (length p)) m' = Ok (Some p) /\
    forall x, ~ (a <= x < a + Z.of_nat (length p)) -> byte_at m' x = byte_at m x.
Proof.
  intros Hr. destruct (writeBlobPhys_ok cls a p m Hr) as (m' & Hw & Hb). exists m'. split_and!; [done | |].
  - rewrite readBlobPhys_ok by done. do 2 f_equal. rewrite Nat2Z.id. apply list_eq. intros k.
    unfold region. change (map ?f) with (fmap (M := list) f). rewrite list_lookup_fmap. destruct (decide (k < length p)%nat).
    + rewrite lookup_seq_lt by lia. cbn. rewrite Hb.
      destruct (Z.leb_spec a (a + Z.of_nat k)), (Z.ltb_spec (a + Z.of_nat k) (a + Z.of_nat (length p))); try lia.
      cbn. replace (Z.to_nat (a + Z.of_nat k - a)) with k by lia. rewrite nth_lookup.
      destruct (p !! k) eqn:E; [done |]. apply lookup_ge_None in E. lia.
    + rewrite lookup_seq_ge by lia. cbn. symmetry. apply lookup_ge_None. lia.
  - intros x Hx. rewrite Hb. destruct (Z.leb_spec a x), (Z.ltb_spec x (a + Z.of_nat (length p))); try lia; done.
Qed.
End proxy.

(** A memory as a function. *)
#[export] Instance function_memory : FunctionalMemory (Z -> Z) := {
  byte_at m := m;
  send_read a n m := map (fun k => m (a + Z.of_nat k)) (seq 0 (Z.to_nat n));
  send_write a bs m := fun x =>
    if (a <=? x) && (x <? a + Z.of_nat (length bs)) then nth (Z.to_nat (x - a)) bs 0 else m x;
  send_read_spec := fun _ _ _ _ => eq_refl;
  send_write_spec := fun _ _ _ _ => eq_refl;
}.

Lemma blob_roundtrip_witness :
  exists m', writeBlobPhys 4 6 [1; 2; 3; 4; 5; 6; 7] (fun _ => 0) = Ok (Some m') /\
    readBlobPhys 4 6 7 m' = Ok (Some [1; 2; 3; 4; 5; 6; 7]).
Proof.
  destruct (blob_roundtrip 4 6 [1; 2; 3; 4; 5; 6; 7] (fun _ => 0)) as (m' & H1 & H2 & _).
  - split_and!; try lia; reflexivity.
  - exists m'. split; [exact H1 | exact H2].
Defined.
