(* ===== verification/AddrRangeMap.v ===== *)
(** The address decoder of the crossbars: class [AddrRangeMap] of
    [src/gem5/src/base/addr_range_map.hh].

    A [std::map] from ranges, ordered by [AddrRange::operator<], with a small cache of
    the entries found last.  The tree is the list of its entries in order; an
    iterator is the key of its entry, and the end iterator is [None]. *)
From Stdlib Require Import ZArith Lia.
From stdpp Require Import base numbers list sorting.
From S2P Require Import Prelude AddrRange.

Open Scope Z_scope.

Record AddrRangeMap (V : Type) : Type := mkAddrRangeMap {
  tree : list (AddrRange * V);
  cache : list AddrRange;
}.
Arguments mkAddrRangeMap {V} _ _.
Arguments tree {V} _.
Arguments cache {V} _.

Section map.
Context {V : Type} (max_cache_size : nat).
Implicit Types (m : AddrRangeMap V) (cond : AddrRange -> outcome bool).

Definition map_empty : AddrRangeMap V := mkAddrRangeMap [] [].

(** The entry an iterator points to. *)
Fixpoint deref (k : AddrRange) (t : list (AddrRange * V)) : option (AddrRange * V) :=
  match t with
  | [] => None
  | e :: t => if bool_decide (e.1 = k) then Some e else deref k t
  end.

(** [void addNewEntryToCache(iterator it) const]. *)
Definition addNewEntryToCache (it : AddrRange) (c : list AddrRange) : list AddrRange :=
  match max_cache_size with
  | O => c
  | _ => if (max_cache_size <=? length c)%nat then it :: removelast c else it :: c
  end.

(** The loop over the cache: the first entry that matches, with the cache where it is
    moved to the front; [pre] are the entries before. *)
Fixpoint cache_loop cond (pre c : list AddrRange) : outcome (option (AddrRange * list AddrRange)) :=
  match c with
  | [] => Ok None
  | it :: c =>
      let! b := cond it in
      if b then Ok (Some (it, it :: pre ++ c)) else cache_loop cond (pre ++ [it]) c
  end.

(** [tree.upper_bound(r)]: the entries before the first one above [r], and the rest. *)
Fixpoint upper_bound (r : AddrRange) (t : list (AddrRange * V))
    : list (AddrRange * V) * list (AddrRange * V) :=
  match t with
  | [] => ([], [])
  | e :: t' =>
      if range_lt r e.1 then ([], t)
      else let '(lo, hi) := upper_bound r t' in (e :: lo, hi)
  end.

(** The [do ... while] loop that walks down the tree; the list is the entries below
    the bound, from the highest. *)
Fixpoint walk_down cond (l : list (AddrRange * V)) : outcome (option (AddrRange * V)) :=
  match l with
  | [] => Ok None
  | i :: rest =>
      let! b := cond i.1 in
      if b then Ok (Some i)
      else match rest with
           | [] => Ok None
           | next :: _ => if mergesWith next.1 i.1 then walk_down cond rest else Ok None
           end
  end.

(** [iterator find(const AddrRange &r, std::function<bool(const AddrRange)> cond)]. *)
Definition find (r : AddrRange) cond m : outcome (option (AddrRange * V) * AddrRangeMap V) :=
  let! hit := cache_loop cond [] (cache m) in
  match hit with
  | Some (it, c) =>
      match deref it (tree m) with
      | Some e => Ok (Some e, mkAddrRangeMap (tree m) c)
      | None => Err Undefined
      end
  | None =>
      let '(lo, hi) := upper_bound r (tree m) in
      let! above := match hi with [] => Ok None | e :: _ => let! b := cond e.1 in Ok (if b then Some e else None) end in
      let! res := match above with Some e => Ok (Some e) | None => walk_down cond (rev lo) end in
      match res with
      | Some e => Ok (Some e, mkAddrRangeMap (tree m) (addNewEntryToCache e.1 (cache m)))
      | None => Ok (None, m)
      end
  end.

(** [iterator contains(const AddrRange &r)], [contains(Addr r)] and
    [intersects(const AddrRange &r)]. *)
Definition map_contains (r : AddrRange) m : outcome (option (AddrRange * V) * AddrRangeMap V) :=
  find r (isSubset r) m.
Definition map_contains_addr (a : Z) m : outcome (option (AddrRange * V) * AddrRangeMap V) :=
  map_contains (RangeSize a 1) m.
Definition map_intersects (r : AddrRange) m : outcome (option (AddrRange * V) * AddrRangeMap V) :=
  find r (intersects r) m.

(** [tree.insert(std::make_pair(r, d))]: nothing happens when an equivalent key is
    there. *)
Fixpoint tree_insert (r : AddrRange) (d : V) (t : list (AddrRange * V)) : list (AddrRange * V) :=
  match t with
  | [] => [(r, d)]
  | e :: t' =>
      if range_lt r e.1 then (r, d) :: t
      else if range_lt e.1 r then e :: tree_insert r d t'
      else t
  end.

(** [iterator insert(const AddrRange &r, const V& d)]: whether it returned an entry. *)
Definition insert (r : AddrRange) (d : V) m : outcome (bool * AddrRangeMap V) :=
  let! (hit, m) := map_intersects r m in
  match hit with
  | Some _ => Ok (false, m)
  | None => Ok (true, mkAddrRangeMap (tree_insert r d (tree m)) (cache m))
  end.

(** [void erase(iterator p)], [void erase(iterator p, iterator q)] and [void clear()];
    the second removes only the first of the entries from the cache. *)
Definition tree_erase (k : AddrRange) (t : list (AddrRange * V)) : list (AddrRange * V) :=
  filter (fun e => e.1 <> k) t.
Definition cache_remove (k : AddrRange) (c : list AddrRange) : list AddrRange :=
  filter (fun x => x <> k) c.
Definition erase (p : AddrRange) m : AddrRangeMap V :=
  mkAddrRangeMap (tree_erase p (tree m)) (cache_remove p (cache m)).
Definition erase_range (ks : list AddrRange) m : AddrRangeMap V :=
  match ks with
  | [] => m
  | p :: _ => mkAddrRangeMap (fold_left (fun t k => tree_erase k t) ks (tree m)) (cache_remove p (cache m))
  end.
Definition clear m : AddrRangeMap V := mkAddrRangeMap [] [].

(** * Decoders *)

(** Two entries of a decoder, the lower one first: apart, or stripes of one
    interleaved range. *)
Definition apart (a b : AddrRange) : Prop :=
  _end a <= _start b \/
  (mergesWith a b = true /\ interleaved a = true /\ intlvMatch a < intlvMatch b).

(** Ranges in order and apart, each with an address, and a cache of entries. *)
Record map_wf m : Prop := {
  mw_apart : StronglySorted (fun a b => apart a.1 b.1) (tree m);
  mw_range : Forall (fun e => 0 <= _start e.1 < _end e.1) (tree m);
  mw_cache : Forall (fun k => exists d, (k, d) ∈ tree m) (cache m);
}.

(** The reference: the first entry that matches, without cache and order. *)
Fixpoint search cond (t : list (AddrRange * V)) : option (AddrRange * V) :=
  match t with
  | [] => None
  | e :: t => if bool_decide (cond e.1 = Ok true) then Some e else search cond t
  end.

Definition hits cond (e : AddrRange * V) : Prop := cond e.1 = Ok true.
Definition decided cond (t : list (AddrRange * V)) : Prop := forall e, e ∈ t -> exists b, cond e.1 = Ok b.

Lemma range_lt_start a b : range_lt a b = true -> _start a <= _start b.
Proof. unfold range_lt. zcases; cbn; intros; try lia; done. Qed.

Lemma range_lt_false a b : range_lt a b = false -> _start b <= _start a.
Proof. unfold range_lt. zcases; cbn; intros; try lia; done. Qed.

Lemma mergesWith_spec a b : mergesWith a b = true <->
  _start a = _start b /\ _end a = _end b /\ masks a = masks b.
Proof.
  unfold mergesWith. rewrite !andb_true_iff, !Z.eqb_eq, bool_decide_eq_true. intuition congruence.
Qed.

Lemma merges_interleaved a b : mergesWith a b = true -> interleaved a = interleaved b.
Proof. intros (_ & _ & E)%mergesWith_spec. unfold interleaved. by rewrite E. Qed.

(** The search loops, where the condition is decided on the entries they visit. *)
Lemma cache_loop_ok cond c : forall pre, (forall k, k ∈ c -> exists b, cond k = Ok b) ->
  exists res, cache_loop cond pre c = Ok res /\
    match res with
    | Some (it, c') => it ∈ c /\ cond it = Ok true /\ c' ≡ₚ pre ++ c
    | None => forall k, k ∈ c -> cond k = Ok false
    end.
Proof.
  induction c as [| k c IH]; intros pre Hd; cbn [cache_loop].
  { exists None. split; [done |]. intros k ?%not_elem_of_nil. done. }
  destruct (Hd k) as [b Hb]; [by left |]. rewrite Hb. cbn [obind]. destruct b.
  - eexists. split; [reflexivity |]. cbn. split_and!; [by left | done | apply Permutation_middle].
  - destruct (IH (pre ++ [k])) as (res & -> & Hres); [intros; apply Hd; by right |].
    exists res. split; [done |]. destruct res as [[it c'] |].
    + destruct Hres as (? & ? & Hp). split_and!; [by right | done |]. by rewrite Hp, <- app_assoc.
    + intros k' [-> | Hk']%elem_of_cons; auto.
Qed.

Lemma upper_bound_split r t lo hi : upper_bound r t = (lo, hi) -> t = lo ++ hi /\
  (forall e, e ∈ lo -> range_lt r e.1 = false) /\
  (forall e hi', hi = e :: hi' -> range_lt r e.1 = true).
Proof.
  revert lo hi. induction t as [| e t IH]; intros lo hi; cbn [upper_bound].
  { intros [= <- <-]. split_and!; [done | by intros ? ?%not_elem_of_nil | done]. }
  destruct (range_lt r e.1) eqn:E.
  - intros [= <- <-]. split_and!; [done | by intros ? ?%not_elem_of_nil |]. intros e' hi' [= <- _]. done.
  - destruct (upper_bound r t) as [lo' hi'] eqn:Eu. intros [= <- <-].
    destruct (IH lo' hi' eq_refl) as (-> & Hlo & Hhi). split_and!; [done | | done].
    intros x [-> | Hx]%elem_of_cons; auto.
Qed.

Lemma sorted_rev {A} (R : A -> A -> Prop) l : StronglySorted R l -> StronglySorted (fun a b => R b a) (rev l).
Proof.
  induction 1 as [| x l _ IH Hf]; cbn; [constructor |]. apply StronglySorted_app. split_and!; [| done | repeat constructor].
  intros a b Ha Hb. apply list_elem_of_singleton in Hb as ->. rewrite Forall_forall in Hf. apply Hf.
  by apply list_elem_of_In, in_rev, list_elem_of_In.
Qed.

Lemma elem_of_rev_1 {A} (l : list A) x : x ∈ rev l -> x ∈ l.
Proof. by rewrite !list_elem_of_In, <- in_rev. Qed.
Lemma elem_of_rev_2 {A} (l : list A) x : x ∈ l -> x ∈ rev l.
Proof. by rewrite !list_elem_of_In, <- in_rev. Qed.

(** From the highest entry below the bound, the walk meets an entry that matches
    before it stops. *)
Lemma walk_down_ok r cond l :
  StronglySorted (fun a b => apart b.1 a.1) l -> Forall (fun e => 0 <= _start e.1 < _end e.1) l ->
  decided cond l -> (forall e, e ∈ l -> _start e.1 <= _start r) ->
  (forall e, e ∈ l -> hits cond e -> _start r < _end e.1) ->
  exists res, walk_down cond l = Ok res /\
    match res with
    | Some e => e ∈ l /\ hits cond e
    | None => forall e, e ∈ l -> ~ hits cond e
    end.
Proof.
  induction l as [| i rest IH]; intros Hs Hr Hd Hlo Hhit; cbn [walk_down].
  { exists None. split; [done |]. by intros e ?%not_elem_of_nil. }
  destruct (Hd i) as [b Hb]; [by left |]. rewrite Hb. cbn [obind]. destruct b.
  { exists (Some i). split_and!; [done | by left | done]. }
  inversion Hs as [| ? ? Hs' Hf]; subst. inversion Hr as [| ? ? Hri Hr']; subst.
  assert (Hni : ~ hits cond i) by (unfold hits; congruence).
  destruct IH as (res & Hres & Hspec); [done | done | | | |].
  { intros e He. apply Hd. by right. }
  { intros e He. apply Hlo. by right. }
  { intros e He. apply Hhit. by right. }
  destruct rest as [| n rest].
  { exists None. split; [done |]. by intros e [-> | ?%not_elem_of_nil]%elem_of_cons. }
  destruct (mergesWith n.1 i.1) eqn:Em.
  - exists res. split; [done |]. destruct res as [e |].
    + destruct Hspec. split; [by right | done].
    + intros e [-> | He]%elem_of_cons; auto.
  - exists None. split; [done |]. intros e [-> | He]%elem_of_cons Hh; [done |].
    assert (Hsr : _start r < _end e.1) by (apply Hhit; [by right | done]).
    assert (Hir : _start i.1 <= _start r) by (apply Hlo; by left).
    assert (Hni' : _end n.1 <= _start i.1).
    { rewrite Forall_forall in Hf. destruct (Hf n) as [? | (? & _)]; [by left | done | congruence]. }
    apply elem_of_cons in He as [-> | He]; [lia |].
    inversion Hs' as [| ? ? _ Hfn]; subst. rewrite Forall_forall in Hfn, Hf, Hr'.
    assert (Hrn : 0 <= _start n.1 < _end n.1) by (apply Hr'; by left).
    destruct (Hf e) as [? | (Hme & _)]; [by right | lia |]. apply mergesWith_spec in Hme as (E1 & E2 & _).
    destruct (Hfn e He) as [? | (Hmn & _)]; [lia |]. apply mergesWith_spec in Hmn as (E3 & E4 & _). lia.
Qed.

Lemma deref_in k d t : (k, d) ∈ t -> exists d', deref k t = Some (k, d') /\ (k, d') ∈ t.
Proof.
  induction t as [| e t IH]; [by intros ?%not_elem_of_nil |]. intros Hin. cbn.
  case_bool_decide as E.
  - exists e.2. rewrite <- E. destruct e. split; [done | by left].
  - apply elem_of_cons in Hin as [<- | Hin]; [done |]. destruct (IH Hin) as (d' & ? & ?).
    exists d'. split; [done | by right].
Qed.

Lemma cache_added m e : map_wf m -> e ∈ tree m ->
  Forall (fun k => exists d, (k, d) ∈ tree m) (addNewEntryToCache e.1 (cache m)).
Proof.
  intros [_ _ Hc] He. assert (H : exists d, (e.1, d) ∈ tree m) by (exists e.2; by destruct e).
  unfold addNewEntryToCache. destruct max_cache_size; [done |]. destruct (_ <=? _)%nat; constructor; auto.
  clear He H. induction (cache m) as [| k c IH]; [constructor |]. inversion Hc; subst.
  destruct c as [| k' c]; [constructor |]. cbn. constructor; [done | by apply IH].
Qed.

(** The search finds an entry that matches when there is one; the tree stays. *)
Lemma find_ok r cond m : map_wf m -> decided cond (tree m) ->
  (forall e, e ∈ tree m -> hits cond e -> _start r < _end e.1) ->
  (forall e f, e ∈ tree m -> f ∈ tree m -> range_lt r f.1 = true -> apart f.1 e.1 ->
     hits cond e -> hits cond f) ->
  exists res m', find r cond m = Ok (res, m') /\ tree m' = tree m /\ map_wf m' /\
    match res with
    | Some e => e ∈ tree m /\ hits cond e
    | None => forall e, e ∈ tree m -> ~ hits cond e
    end.
Proof.
  intros Hwf Hd Hend Habove. pose proof Hwf as [Hs Hr Hc]. unfold find.
  destruct (cache_loop_ok cond (cache m) []) as (hit & -> & Hhit).
  { intros k Hk. rewrite Forall_forall in Hc. destruct (Hc k Hk) as [d Hin]. apply (Hd _ Hin). }
  cbn [obind]. destruct hit as [[it c'] |].
  { destruct Hhit as (Hin & Hit & Hp). rewrite Forall_forall in Hc. destruct (Hc it Hin) as [d Hd'].
    destruct (deref_in it d (tree m) Hd') as (d' & -> & Hin').
    eexists _, _. split; [reflexivity |]. cbn. split_and!; auto. split; cbn; auto.
    rewrite Hp. by rewrite Forall_forall. }
  destruct (upper_bound r (tree m)) as [lo hi] eqn:Eu.
  destruct (upper_bound_split r (tree m) lo hi Eu) as (Et & Hlo & Hhi).
  assert (Hin : forall e, e ∈ tree m <-> e ∈ lo \/ e ∈ hi) by (intros; by rewrite Et, elem_of_app).
  pose proof Hs as Hs'. rewrite Et in Hs'. apply StronglySorted_app in Hs' as (_ & Hslo & Hshi).
  destruct (walk_down_ok r cond (rev lo)) as (res & Hw & Hspec).
  { by apply (sorted_rev (fun a b => apart a.1 b.1)). }
  { rewrite Forall_forall in Hr |- *. intros e He%elem_of_rev_1. apply (Hr e), Hin. by left. }
  { intros e He%elem_of_rev_1. apply (Hd e), Hin. by left. }
  { intros e He%elem_of_rev_1. by apply range_lt_false, Hlo. }
  { intros e He%elem_of_rev_1. apply (Hend e), Hin. by left. }
  assert (Hnone : (forall e, e ∈ hi -> ~ hits cond e) -> forall e, res = None -> e ∈ tree m -> ~ hits cond e).
  { intros Hh e -> [He | He]%Hin; [apply Hspec; by apply elem_of_rev_2 | by apply Hh]. }
  assert (Hfound : forall e, e ∈ tree m -> hits cond e -> exists res' m',
    Ok (Some e, mkAddrRangeMap (tree m) (addNewEntryToCache e.1 (cache m))) = Ok (res', m') /\
    tree m' = tree m /\ map_wf m' /\
    match res' with Some e => e ∈ tree m /\ hits cond e | None => forall e, e ∈ tree m -> ~ hits cond e end).
  { intros e He Hh. eexists _, _. split; [reflexivity |]. split; [done |]. split; [| done].
    split; [done | done |]. cbn. by apply cache_added. }
  assert (Hdown : (forall e, e ∈ hi -> ~ hits cond e) -> exists res' m',
    (let! res := walk_down cond (rev lo) in
     match res with
     | Some e => Ok (Some e, mkAddrRangeMap (tree m) (addNewEntryToCache e.1 (cache m)))
     | None => Ok (None, m)
     end) = Ok (res', m') /\ tree m' = tree m /\ map_wf m' /\
    match res' with Some e => e ∈ tree m /\ hits cond e | None => forall e, e ∈ tree m -> ~ hits cond e end).
  { intros Hh. rewrite Hw. cbn [obind]. destruct res as [e |].
    - destruct Hspec as [He%elem_of_rev_1 ?]. apply Hfound; [apply Hin; by left | done].
    - exists None, m. split_and!; auto. }
  destruct hi as [| x hi]; cbn [obind]; [apply Hdown; by intros ? ?%not_elem_of_nil |].
  assert (Hx : x ∈ tree m) by (apply Hin; right; by left).
  destruct (Hd x Hx) as [b Hb]. rewrite Hb. cbn [obind]. destruct b; cbn [obind]; [by apply Hfound |].
  apply Hdown. intros e He Hh. assert (hits cond x); [| unfold hits in *; congruence].
  assert (Hlt : range_lt r x.1 = true) by (by eapply Hhi).
  apply elem_of_cons in He as [-> | He]; [done |]. inversion Hshi as [| ? ? _ Hf]; subst.
  rewrite Forall_forall in Hf. apply (Habove e x); auto. apply Hin. right. by right.
Qed.

(** ** Lookup *)

Lemma subset_hit r e : interleaved r = false -> _start r < _end r -> isSubset r e = Ok true ->
  _start e <= _start r < _end e /\ (interleaved e = true -> sel e (_start r) = intlvMatch e).
Proof.
  unfold isSubset. intros -> Hr. destruct (interleaved e).
  - destruct (contains e (_start r)) eqn:Hc; cbn [andb]; [| intros [=]].
    intros _. apply contains_bounds in Hc as [? ?]. split; [lia | done].
  - zcases; cbn; intros [=]. split; [lia | done].
Qed.

Lemma apart_not_both r a b : interleaved r = false -> _start r < _end r -> apart a b ->
  isSubset r a = Ok true -> isSubset r b = Ok true -> False.
Proof.
  intros Hi Hr Hap Ha Hb. apply subset_hit in Ha as [Ha Ha']; auto. apply subset_hit in Hb as [Hb Hb']; auto.
  destruct Hap as [? | (Hm & Hia & Hlt)]; [lia |]. rewrite (merges_interleaved a b Hm) in *.
  apply mergesWith_spec in Hm as (_ & _ & Em). specialize (Ha' Hia). specialize (Hb' Hia).
  unfold sel in *. rewrite Em in Ha'. lia.
Qed.

Lemma sorted_pairs {A} (R : A -> A -> Prop) l a b : StronglySorted R l -> a ∈ l -> b ∈ l ->
  a = b \/ R a b \/ R b a.
Proof.
  induction 1 as [| x l _ IH Hf]; [by intros ?%not_elem_of_nil |]. rewrite Forall_forall in Hf.
  intros [-> | Ha]%elem_of_cons [-> | Hb]%elem_of_cons; auto.
Qed.

Lemma search_spec cond t : match search cond t with
  | Some e => e ∈ t /\ hits cond e
  | None => forall e, e ∈ t -> ~ hits cond e
  end.
Proof.
  induction t as [| x t IH]; cbn [search]; [by intros ? ?%not_elem_of_nil |]. case_bool_decide as E.
  - split; [by left | done].
  - destruct (search cond t); [by destruct IH; split; [right |] |].
    intros e [-> | He]%elem_of_cons; auto.
Qed.

Lemma map_contains_ok r m : map_wf m -> interleaved r = false -> _start r < _end r ->
  decided (isSubset r) (tree m) ->
  exists m', map_contains r m = Ok (search (isSubset r) (tree m), m') /\
    tree m' = tree m /\ map_wf m'.
Proof.
  intros Hwf Hi Hr Hd. unfold map_contains.
  destruct (find_ok r (isSubset r) m Hwf Hd) as (res & m' & E & Et & Hwf' & Hres).
  - intros e _ Hh. apply subset_hit in Hh; auto. lia.
  - intros e f He Hf Hlt Hap Hh. exfalso. apply subset_hit in Hh as [Hh _]; auto.
    pose proof (mw_range m Hwf) as Hrg. rewrite Forall_forall in Hrg. pose proof (Hrg f Hf).
    unfold range_lt in Hlt. rewrite Hi in Hlt. destruct (Z.eqb_spec (_start r) (_start f.1)); [done |].
    cbn in Hlt. apply Z.ltb_lt in Hlt. destruct Hap as [? | (Hm & _)]; [lia |]. apply mergesWith_spec in Hm. lia.
  - exists m'. split_and!; auto. rewrite E. do 2 f_equal.
    pose proof (search_spec (isSubset r) (tree m)) as Hsp.
    destruct res as [e |], (search _ _) as [e' |]; auto.
    + destruct Hres as [He Hh], Hsp as [He' Hh'].
      destruct (sorted_pairs _ _ e e' (mw_apart m Hwf) He He') as [-> | [Hap | Hap]]; [done | |];
        exfalso; by eapply apart_not_both in Hap.
    + destruct Hres as [He Hh]. exfalso. by apply (Hsp e).
    + destruct Hsp as [He Hh]. exfalso. by apply (Hres e').
Qed.

(** The decoder gives the same answer as a search through all its entries,
    whatever its cache holds and also among the stripes of interleaved ranges,
    as long as its entries are apart (which [insert] keeps); a lookup changes
    nothing but the cache. *)
Theorem contains_is_search r m : map_wf m -> interleaved r = false -> _start r < _end r ->
  decided (isSubset r) (tree m) ->
  exists m', map_contains r m = Ok (search (isSubset r) (tree m), m') /\
    tree m' = tree m /\ map_wf m'.
Proof. apply map_contains_ok. Qed.

(** ** Insertion *)

(** A range that can be compared with an entry: apart from it, or both plain, or
    stripes of one interleaved range. *)
Definition comparable (r e : AddrRange) : Prop :=
  (_end e <= _start r \/ _end r <= _start e) \/
  (interleaved r = false /\ interleaved e = false) \/
  (interleaved r = true /\ mergesWith r e = true /\ size e <> 1).

Lemma intersects_comparable r e : comparable r e -> exists b, intersects r e = Ok b /\
  (b = true -> _start e < _end r /\ _start r < _end e /\
     (interleaved r = true -> mergesWith r e = true /\ intlvMatch r = intlvMatch e)) /\
  (b = false -> (_end e <= _start r \/ _end r <= _start e) \/
     (interleaved r = true /\ mergesWith r e = true /\ intlvMatch r <> intlvMatch e)).
Proof.
  unfold intersects. intros Hc.
  destruct (Z.leb_spec (_end e) (_start r)), (Z.leb_spec (_end r) (_start e)); cbn [orb];
    try (exists false; split_and!; [done | done | lia]).
  destruct Hc as [? | [[Hr He] | (Hr & Hm & Hs)]]; [lia | |].
  - rewrite Hr, He. cbn. exists true. split_and!; [done | intros; split_and!; [lia | lia | done] | done].
  - rewrite <- (merges_interleaved r e Hm), Hr. cbn. destruct (Z.eqb_spec (size e) 1); [done |].
    rewrite Hm. eexists. split; [reflexivity |]. split.
    + intros E%Z.eqb_eq. split_and!; [lia | lia | done].
    + intros E%Z.eqb_neq. right. auto.
Qed.

Lemma map_intersects_ok r m : map_wf m -> _start r < _end r ->
  (forall e, e ∈ tree m -> comparable r e.1) ->
  exists res m', map_intersects r m = Ok (res, m') /\ tree m' = tree m /\ map_wf m' /\
    match res with
    | Some e => e ∈ tree m /\ hits (intersects r) e
    | None => forall e, e ∈ tree m -> ~ hits (intersects r) e
    end.
Proof.
  intros Hwf Hr Hcmp. unfold map_intersects.
  assert (Hat : forall e, e ∈ tree m -> hits (intersects r) e ->
    _start e.1 < _end r /\ _start r < _end e.1 /\
    (interleaved r = true -> mergesWith r e.1 = true /\ intlvMatch r = intlvMatch e.1)).
  { intros e He Hh. destruct (intersects_comparable r e.1 (Hcmp e He)) as (b & E & Ht & _).
    apply Ht. unfold hits in Hh. congruence. }
  apply find_ok; auto.
  - intros e He. destruct (intersects_comparable r e.1 (Hcmp e He)) as (b & E & _). eauto.
  - intros e He Hh. by apply Hat.
  - intros e f He Hf Hlt Hap Hh. destruct (Hat e He Hh) as (H1 & H2 & H3).
    pose proof (mw_range m Hwf) as Hrg. rewrite Forall_forall in Hrg. pose proof (Hrg f Hf). pose proof (Hrg e He).
    pose proof (range_lt_start r f.1 Hlt) as Hst.
    destruct (interleaved r) eqn:Hi.
    + exfalso. destruct (H3 eq_refl) as [Hm Em]. pose proof (merges_interleaved _ _ Hm) as Hie.
      apply mergesWith_spec in Hm as (E1 & E2 & _). destruct Hap as [? | (Hmf & Hif & Hlt')]; [lia |].
      apply mergesWith_spec in Hmf as (E3 & E4 & _). unfold range_lt in Hlt. rewrite Hi, Hif in Hlt.
      destruct (Z.eqb_spec (_start r) (_start f.1)); cbn in Hlt; lia.
    + assert (_start r < _start f.1).
      { unfold range_lt in Hlt. rewrite Hi in Hlt. destruct (Z.eqb_spec (_start r) (_start f.1)); cbn in Hlt; [done | lia]. }
      assert (_start f.1 <= _start e.1) by (destruct Hap as [? | (Hm & _)]; [lia | apply mergesWith_spec in Hm; lia]).
      destruct (intersects_comparable r f.1 (Hcmp f Hf)) as (b & E & _ & Hfalse). destruct b; [done |].
      destruct (Hfalse eq_refl) as [? | (? & _)]; [lia | congruence].
Qed.

Lemma tree_insert_spec r d t : StronglySorted (fun a b => apart a.1 b.1) t ->
  Forall (fun e => 0 <= _start e.1 < _end e.1) t -> 0 <= _start r < _end r ->
  (forall e, e ∈ t -> (_end e.1 <= _start r \/ _end r <= _start e.1) \/
     (interleaved r = true /\ mergesWith r e.1 = true /\ intlvMatch r <> intlvMatch e.1)) ->
  StronglySorted (fun a b => apart a.1 b.1) (tree_insert r d t) /\ tree_insert r d t ≡ₚ (r, d) :: t.
Proof.
  intros Hs. induction Hs as [| e t Hs IH Hf]; intros Hr Hrr Hdis; cbn [tree_insert].
  { split; [repeat constructor | done]. }
  inversion Hr as [| ? ? Hre Hr']; subst.
  assert (Hne : forall x, x ∈ e :: t -> range_lt r x.1 = true -> apart r x.1).
  { intros x Hx Hlt. pose proof (range_lt_start _ _ Hlt). rewrite Forall_forall in Hr. pose proof (Hr x Hx).
    destruct (Hdis x Hx) as [? | (Hi & Hm & Hne)]; [left; lia |]. right.
    pose proof (merges_interleaved _ _ Hm) as Hie. pose proof Hm as (E & _)%mergesWith_spec.
    split_and!; [done | done |]. unfold range_lt in Hlt. rewrite <- Hie, Hi, E, Z.eqb_refl in Hlt. cbn in Hlt. lia. }
  assert (Hnr : forall x, x ∈ e :: t -> range_lt x.1 r = true -> apart x.1 r).
  { intros x Hx Hlt. pose proof (range_lt_start _ _ Hlt). rewrite Forall_forall in Hr. pose proof (Hr x Hx).
    destruct (Hdis x Hx) as [? | (Hi & Hm & Hne')]; [left; lia |]. right.
    pose proof (merges_interleaved _ _ Hm) as Hie. pose proof Hm as (E & E' & E'')%mergesWith_spec.
    split_and!; [by apply mergesWith_spec | congruence |].
    unfold range_lt in Hlt. rewrite <- Hie, Hi, E, Z.eqb_refl in Hlt. cbn in Hlt. lia. }
  destruct (range_lt r e.1) eqn:E1.
  { split; [| done]. constructor; [by constructor |]. constructor; [by apply Hne; [left |] |].
    rewrite Forall_forall in *. intros x Hx. cbn.
    destruct (Hne e ltac:(by left) E1) as [He | (Hm & Hi & Hlt)].
    - left. destruct (Hf x Hx) as [? | (Hmx & _)]; [lia | apply mergesWith_spec in Hmx; lia].
    - pose proof Hm as (Es & Ee & Em)%mergesWith_spec. destruct (Hf x Hx) as [? | (Hmx & _ & Hlt')]; [left; lia |].
      right. pose proof Hmx as (Es' & Ee' & Em')%mergesWith_spec. split_and!; [| done | lia].
      apply mergesWith_spec. split_and!; congruence. }
  destruct (range_lt e.1 r) eqn:E2.
  - destruct IH as [IHs IHp]; [done | done | intros x Hx; apply Hdis; by right |]. split.
    + constructor; [done |]. rewrite IHp. constructor; [| done]. apply Hnr; [by left | done].
    + rewrite IHp. apply Permutation_swap.
  - exfalso. pose proof (range_lt_false _ _ E1). pose proof (range_lt_false _ _ E2).
    destruct (Hdis e) as [? | (Hi & Hm & Hne')]; [by left | lia |].
    pose proof (merges_interleaved _ _ Hm) as Hie. pose proof Hm as (E & _)%mergesWith_spec.
    unfold range_lt in E1, E2. rewrite <- Hie, Hi, E, Z.eqb_refl in E1, E2. cbn in E1, E2. lia.
Qed.

(** Insertion adds the range exactly when it meets no entry, and then lookups
    find it; it never leaves two entries that overlap, so that the decoder stays
    one for which lookup is search. *)
Lemma insert_keeps_apart r d m : map_wf m -> 0 <= _start r < _end r ->
  (forall e, e ∈ tree m -> comparable r e.1) ->
  exists b m', insert r d m = Ok (b, m') /\ map_wf m' /\
    (b = true -> tree m' ≡ₚ (r, d) :: tree m /\
       forall e, e ∈ tree m -> intersects r e.1 = Ok false) /\
    (b = false -> tree m' = tree m /\ exists e, e ∈ tree m /\ intersects r e.1 = Ok true).
Proof.
  intros Hwf Hr Hcmp. unfold insert.
  destruct (map_intersects_ok r m Hwf) as (res & m1 & -> & Et & Hwf1 & Hres); [lia | done |]. cbn [obind].
  destruct res as [e |].
  { exists false, m1. split_and!; [done | done | done |]. intros _. destruct Hres. eauto. }
  assert (Hno : forall e, e ∈ tree m -> intersects r e.1 = Ok false /\
    ((_end e.1 <= _start r \/ _end r <= _start e.1) \/
     (interleaved r = true /\ mergesWith r e.1 = true /\ intlvMatch r <> intlvMatch e.1))).
  { intros e He. destruct (intersects_comparable r e.1 (Hcmp e He)) as (b & E & _ & Hf).
    destruct b; [by destruct (Hres e He) |]. split; [done | by apply Hf]. }
  destruct (tree_insert_spec r d (tree m)) as [Hs Hp]; [apply Hwf | apply Hwf | done | intros e He; by apply Hno |].
  exists true, (mkAddrRangeMap (tree_insert r d (tree m1)) (cache m1)). rewrite Et. split_and!; [done | | | done].
  - split; cbn; [done | |].
    + rewrite Hp. constructor; [done | apply Hwf].
    + eapply Forall_impl; [apply Hwf1 |]. rewrite Et. intros k [d' Hk]. exists d'. rewrite Hp. by right.
  - intros _. split; [done |]. intros e He. by apply Hno.
Qed.

End map.

Section erasure.
Context {V : Type}.
Implicit Type m : AddrRangeMap V.

Lemma sorted_filter {A} (R : A -> A -> Prop) (P : A -> Prop) `{forall x, Decision (P x)} l :
  StronglySorted R l -> StronglySorted R (filter P l).
Proof.
  induction 1 as [| x l _ IH Hf]; [constructor |]. rewrite filter_cons. destruct (decide (P x)); [| done].
  constructor; [done |]. rewrite Forall_forall in *. intros y [_ Hy]%list_elem_of_filter. auto.
Qed.

(** Erasing one entry keeps a decoder; no stale entry stays in the cache. *)
Lemma erase_wf p m : map_wf m -> map_wf (erase p m).
Proof.
  intros [Hs Hr Hc]. split; cbn.
  - by apply sorted_filter.
  - unfold tree_erase. rewrite Forall_forall in *. intros e [_ He]%list_elem_of_filter. auto.
  - unfold cache_remove, tree_erase. rewrite Forall_forall in *. intros k [Hk Hin]%list_elem_of_filter.
    destruct (Hc k Hin) as [d Hd]. exists d. by apply list_elem_of_filter.
Qed.
End erasure.

(** ** Instances *)

(** Memory in two stripes of 64 bytes and a device. *)
Definition ex_stripe (i : Z) : AddrRange := mkAddrRange 0x80000000 0xA0000000 [0x40] i.
Definition ex_device : AddrRange := RangeEx 0x15000000 0x15040000.
Definition ex_map : AddrRangeMap Z :=
  mkAddrRangeMap [(ex_device, 2); (ex_stripe 0, 0); (ex_stripe 1, 1)] [ex_stripe 0].

Lemma ex_map_made :
  (let! (_, m) := insert 3 (ex_stripe 1) 1 map_empty in
   let! (_, m) := insert 3 ex_device 2 m in
   let! (_, m) := insert 3 (ex_stripe 0) 0 m in
   let! (_, m) := map_contains_addr 3 0x80000000 m in Ok m) = Ok ex_map.
Proof. vm_compute. reflexivity. Qed.

Lemma ex_map_wf : map_wf ex_map.
Proof.
  split; cbn.
  - assert (H : forall i, apart ex_device (ex_stripe i)) by (intros i; left; vm_compute; discriminate).
    apply SSorted_cons; [apply SSorted_cons; [apply SSorted_cons; [apply SSorted_nil |] |] |];
      rewrite ?Forall_cons, Forall_nil; cbn [fst]; auto.
    split; [| done]. right. vm_compute. auto.
  - repeat constructor; vm_compute; try discriminate; auto.
  - constructor; [exists 0; right; left | constructor].
Qed.

Lemma contains_is_search_witness :
  exists m', map_contains 3 (RangeSize 0x80000040 64) ex_map = Ok (Some (ex_stripe 1, 1), m') /\ map_wf m'.
Proof.
  destruct (contains_is_search 3 (RangeSize 0x80000040 64) ex_map ex_map_wf) as (m' & H1 & _ & H2);
    [reflexivity | reflexivity | | exists m'; split; [exact H1 | exact H2]].
  intros e He. apply list_elem_of_In in He. destruct He as [<- | [<- | [<- | []]]]; eexists; reflexivity.
Defined.

Lemma insert_keeps_apart_witness :
  exists b m', insert 3 (RangeEx 0x15000000 0x15001000) 7 ex_map = Ok (b, m') /\ map_wf m' /\ b = false.
Proof.
  destruct (insert_keeps_apart 3 (RangeEx 0x15000000 0x15001000) 7 ex_map ex_map_wf) as (b & m' & H1 & H2 & H3 & _).
  - vm_compute. split; [discriminate | reflexivity].
  - intros e He. apply list_elem_of_In in He. destruct He as [<- | [<- | [<- | []]]].
    + right. left. split; reflexivity.
    + left. right. vm_compute. discriminate.
    + left. right. vm_compute. discriminate.
  - exists b, m'. split; [exact H1 |]. split; [exact H2 |]. destruct b; [| reflexivity].
    destruct (H3 eq_refl) as [_ H]. assert (He : (ex_device, 2) ∈ tree ex_map) by left.
    specialize (H (ex_device, 2) He). vm_compute in H. discriminate H.
Defined.

(** Erasing a sequence of entries leaves all but the first in the cache, as
    iterators to entries that are gone; the next lookup uses them. *)
Lemma erase_range_stale :
  let m := erase_range [ex_device; ex_stripe 0] ex_map in
  cache m = [ex_stripe 0] /\ tree m = [(ex_stripe 1, 1)] /\
  map_contains_addr 3 0x80000000 m = Err Undefined.
Proof. vm_compute. auto. Qed.
