(* ===== verification/CxlPacket.v ===== *)
(** CXL.mem and CXL.cache messages: [src/gem5/src/mem/cxl/cxl_packet.hh],
    [cxl_packet.cc], [cxl_cache_packet.hh] and [cxl_cache_packet.cc].

    Each message class of the source is a record of its own fields; the base
    classes [CXL_Req] and [CXL_Cache] add the type tag, the flit mode and the
    response bookkeeping.  The tag is a mutable field of the source, which the
    protocol code overwrites, so an object is a tag together with the message
    it really holds, and a downcast that does not match the message is
    [Undefined].  A member that no constructor initialises is an [option]. *)
From Stdlib Require Import ZArith Lia String Ascii.
From stdpp Require Import base numbers list strings.
From S2P Require Import Prelude.

Open Scope Z_scope.

(** Flit mode of the link. *)
Inductive linkType : Type := B68 | B256 | PBR.

(** * CXL.mem *)

Inductive CXL_Req_Types : Type :=
  | _M2S_Req | _M2S_RwD | _M2S_BIRsp | _S2M_NDR | _S2M_DRS | _S2M_BISnp.

Inductive MetaFiled : Type := Meta0_State | MetaFiled_No_Op.
Inductive MetaValue : Type := Invalied | Any | MetaValue_Shared.

Definition MetaFiled_code (m : MetaFiled) : Z :=
  match m with Meta0_State => 0 | MetaFiled_No_Op => 3 end.
Definition MetaValue_code (m : MetaValue) : Z :=
  match m with Invalied => 0 | Any => 2 | MetaValue_Shared => 3 end.

Inductive M2S_Req_OpCodes : Type :=
  | MemInv | MemRd | MemRdData | MemRdFwd | MemWrFwd
  | RESERVED1 | RESERVED2 | RESERVED3 | MemSpecRd | MemInvNT | MemClnEvct.

Definition M2S_Req_code (o : M2S_Req_OpCodes) : Z :=
  match o with
  | MemInv => 0 | MemRd => 1 | MemRdData => 2 | MemRdFwd => 3 | MemWrFwd => 4
  | RESERVED1 => 5 | RESERVED2 => 6 | RESERVED3 => 7 | MemSpecRd => 8
  | MemInvNT => 9 | MemClnEvct => 10
  end.

Inductive M2S_RwD_OpCodes : Type := MemWr | MemWrPtl | BIConflict.
Definition M2S_RwD_code (o : M2S_RwD_OpCodes) : Z :=
  match o with MemWr => 1 | MemWrPtl => 2 | BIConflict => 4 end.

Inductive M2S_BIRsp_OpCodes : Type :=
  | BIRspI | BIRspS | BIRspE | BIRspIBlk | BIRspSBlk | BIRspEBlk.

Inductive M2S_SnpTypes : Type := SnpTypes_No_Op | SnpData | SnpCur | SnpInv.
Definition M2S_SnpTypes_code (s : M2S_SnpTypes) : Z :=
  match s with SnpTypes_No_Op => 0 | SnpData => 1 | SnpCur => 2 | SnpInv => 3 end.

Inductive M2S_TC : Type := TC_Reserved.

Inductive S2M_BISnp_Opcodes : Type :=
  | BISnpCur | BISnpData | BISnpInv | BISnpCurBlk | BISnpDataBlk | BISnpInvBlk.
Definition S2M_BISnp_code (o : S2M_BISnp_Opcodes) : Z :=
  match o with
  | BISnpCur => 0 | BISnpData => 1 | BISnpInv => 2
  | BISnpCurBlk => 4 | BISnpDataBlk => 5 | BISnpInvBlk => 6
  end.

Inductive S2M_NDR_Opcodes : Type := Cmp | Cmp_S | Cmp_E | BI_ConflictAck.
Definition S2M_NDR_code (o : S2M_NDR_Opcodes) : Z :=
  match o with Cmp => 0 | Cmp_S => 1 | Cmp_E => 2 | BI_ConflictAck => 4 end.

Inductive S2M_DRS_Opcodes : Type := MemData | MemData_NXM.

Inductive S2M_BLK_Encoding : Type :=
  | BLK_Reserved | Valid_Lower_128B | Valid_Upper_128B | Valid_256B.

Inductive DevLoad : Type := LightLoad | OptimalLoad | ModerateOverload | SevereOverload.

Record M2S_Req : Type := mkM2S_Req {
  req_valid : bool;
  req_memOpcode : M2S_Req_OpCodes;
  req_snp_type : M2S_SnpTypes;
  req_meta_filed : MetaFiled;
  req_meta_value : MetaValue;
  req_tag : Z;
  req_address_51_6_5 : Z;
  req_ld_id : Z; req_spid : Z; req_dpid : Z; req_rsvd : Z;
  req_tc : M2S_TC;
}.

Record M2S_RwD : Type := mkM2S_RwD {
  rwd_valid : bool;
  rwd_memOpcode : M2S_RwD_OpCodes;
  rwd_snp_type : M2S_SnpTypes;
  rwd_meta_filed : MetaFiled;
  rwd_meta_value : MetaValue;
  rwd_tag : Z;
  rwd_address_51_6 : Z;
  rwd_poison : bool; rwd_bep : bool;
  rwd_ld_id : Z; rwd_spid : Z; rwd_dpid : Z; rwd_rsvd : Z;
  rwd_tc : M2S_TC;
}.

Record M2S_BIRsp : Type := mkM2S_BIRsp {
  birsp_valid : bool;
  birsp_opcode : M2S_BIRsp_OpCodes;
  birsp_bi_id : Z; birsp_biTag : Z; birsp_lowAddr : Z; birsp_dpid : Z; birsp_rsvd : Z;
}.

Record S2M_BISnp : Type := mkS2M_BISnp {
  bisnp_valid : bool;
  bisnp_opcode : S2M_BISnp_Opcodes;
  bisnp_bi_id : Z; bisnp_biTag : Z;
  bisnp_address_51_6 : Z;
  bisnp_spid : Z; bisnp_dpid : Z; bisnp_rsvd : Z;
}.

Record S2M_NDR : Type := mkS2M_NDR {
  ndr_valid : option bool;
  ndr_opcode : S2M_NDR_Opcodes;
  ndr_metafiled : MetaFiled;
  ndr_metavalue : MetaValue;
  ndr_tag : Z; ndr_ld_id : Z;
  ndr_dev_load : DevLoad;
  ndr_dpid : Z; ndr_rsvd : Z;
}.

Record S2M_DRS : Type := mkS2M_DRS {
  drs_valid : option bool;
  drs_opcode : S2M_DRS_Opcodes;
  drs_metafiled : MetaFiled;
  drs_metavalue : MetaValue;
  drs_tag : Z; drs_poison : bool; drs_ld_id : Z;
  drs_dev_load : DevLoad;
  drs_dpid : Z; drs_rsvd : Z;
}.

(** The class an object of type [CXL_Req] really has. *)
Inductive mem_msg : Type :=
  | MReq (m : M2S_Req) | MRwD (m : M2S_RwD) | MBIRsp (m : M2S_BIRsp)
  | MNDR (m : S2M_NDR) | MDRS (m : S2M_DRS) | MBISnp (m : S2M_BISnp).

Record CXL_Req : Type := mkCXL_Req {
  cxl_req_type : CXL_Req_Types;
  mem_link_type : linkType;
  mem_last_resp : Z;
  mem_body : mem_msg;
}.

(** The [CXL_Req] constructor run by a derived class: flit mode 256B and
    [last_resp = 1] by default. *)
Definition new_CXL_Req (t : CXL_Req_Types) (m : mem_msg) : CXL_Req := mkCXL_Req t B256 1 m.

Definition new_M2S_Req (op : M2S_Req_OpCodes) (snp : M2S_SnpTypes) (mf : MetaFiled)
    (mv : MetaValue) (tag addr ld_id spid dpid rsvd : Z) (tc : M2S_TC) : CXL_Req :=
  new_CXL_Req _M2S_Req (MReq (mkM2S_Req true op snp mf mv (u16 tag) (u64 addr) (u8 ld_id)
    (u16 spid) (u16 dpid) (u16 rsvd) tc)).

Definition new_M2S_RwD (op : M2S_RwD_OpCodes) (snp : M2S_SnpTypes) (mf : MetaFiled)
    (mv : MetaValue) (tag addr : Z) (poison bep : bool) (ld_id spid dpid rsvd : Z)
    (tc : M2S_TC) : CXL_Req :=
  new_CXL_Req _M2S_RwD (MRwD (mkM2S_RwD true op snp mf mv (u16 tag) (u64 addr) poison bep
    (u8 ld_id) (u16 spid) (u16 dpid) (u16 rsvd) tc)).

Definition new_M2S_BIRsp (op : M2S_BIRsp_OpCodes) (bi_id biTag lowAddr dpid rsvd : Z) : CXL_Req :=
  new_CXL_Req _M2S_BIRsp (MBIRsp (mkM2S_BIRsp true op (u16 bi_id) (u16 biTag) (u8 lowAddr)
    (u16 dpid) (u16 rsvd))).

Definition new_S2M_BISnp (op : S2M_BISnp_Opcodes) (bi_id biTag addr spid dpid rsvd : Z) : CXL_Req :=
  new_CXL_Req _S2M_BISnp (MBISnp (mkS2M_BISnp true op (u16 bi_id) (u16 biTag) (u64 addr)
    (u16 spid) (u16 dpid) (u16 rsvd))).

Definition new_S2M_NDR (op : S2M_NDR_Opcodes) (mf : MetaFiled) (mv : MetaValue)
    (tag ld_id : Z) (dl : DevLoad) (dpid rsvd : Z) : CXL_Req :=
  new_CXL_Req _S2M_NDR (MNDR (mkS2M_NDR None op mf mv (u16 tag) (u8 ld_id) dl (u16 dpid) (u16 rsvd))).

Definition new_S2M_DRS (op : S2M_DRS_Opcodes) (mf : MetaFiled) (mv : MetaValue) (tag : Z)
    (poison : bool) (ld_id : Z) (dl : DevLoad) (dpid rsvd : Z) : CXL_Req :=
  new_CXL_Req _S2M_DRS (MDRS (mkS2M_DRS None op mf mv (u16 tag) poison (u8 ld_id) dl
    (u16 dpid) (u16 rsvd))).

(** [getSize_Bits] of each CXL.mem class, a virtual method. *)
Definition M2S_Req_getSize_Bits (l : linkType) : Z :=
  match l with B68 => 87 | B256 => 100 | PBR => 120 end.
Definition M2S_RwD_getSize_Bits (l : linkType) : Z :=
  match l with B68 => 87 | B256 => 104 | PBR => 124 end.
Definition M2S_BIRsp_getSize_Bits (l : linkType) : Z :=
  match l with B68 => -1 | B256 => 40 | PBR => 40 end.
Definition S2M_BISnp_getSize_Bits (l : linkType) : Z :=
  match l with B68 => -1 | B256 => 84 | PBR => 96 end.
Definition S2M_NDR_getSize_Bits (l : linkType) : Z :=
  match l with B68 => 30 | B256 => 40 | PBR => 48 end.
Definition S2M_DRS_getSize_Bits (l : linkType) : Z :=
  match l with B68 => 40 | B256 => 40 | PBR => 48 end.

Definition mem_getSize_Bits (r : CXL_Req) : Z :=
  let l := mem_link_type r in
  match mem_body r with
  | MReq _ => M2S_Req_getSize_Bits l | MRwD _ => M2S_RwD_getSize_Bits l
  | MBIRsp _ => M2S_BIRsp_getSize_Bits l | MNDR _ => S2M_NDR_getSize_Bits l
  | MDRS _ => S2M_DRS_getSize_Bits l | MBISnp _ => S2M_BISnp_getSize_Bits l
  end.

(** [getAddr], a virtual method; the base class returns 0. *)
Definition mem_getAddr (r : CXL_Req) : Z :=
  match mem_body r with
  | MReq m => req_address_51_6_5 m
  | MRwD m => rwd_address_51_6 m
  | MBISnp m => bisnp_address_51_6 m
  | _ => 0
  end.

(** [S2M_BISnp::getValidBlk]: falling off the end of the function is undefined. *)
Definition getValidBlk (m : S2M_BISnp) : outcome S2M_BLK_Encoding :=
  let valid_bits := u8 (Z.land (bisnp_address_51_6 m) (Z.shiftl 3 6)) in
  if valid_bits =? 1 then Ok Valid_Lower_128B
  else if valid_bits =? 2 then Ok Valid_Upper_128B
  else if valid_bits =? 3 then Ok Valid_256B
  else Err Undefined.

(** * CXL.cache *)

Inductive CXL_Cache_Types : Type :=
  | _D2H_Req | _D2H_Resp | _D2H_Data | _H2D_Req | _H2D_Resp | _H2D_Data.

Inductive D2H_Req_OpCodes : Type :=
  | RdCurr | RdOwn | RdShared | RdAny | RdOwnNoData | ItoMWr | WrCur | CLFlush
  | D2H_CleanEvict | DirtyEvict | CleanEvictNoData | WOWrInv | WOWrInvF | WrInv
  | CacheFlushed.

Definition D2H_Req_code (o : D2H_Req_OpCodes) : Z :=
  match o with
  | RdCurr => 1 | RdOwn => 2 | RdShared => 3 | RdAny => 4 | RdOwnNoData => 5
  | ItoMWr => 6 | WrCur => 7 | CLFlush => 8 | D2H_CleanEvict => 9 | DirtyEvict => 10
  | CleanEvictNoData => 11 | WOWrInv => 12 | WOWrInvF => 13 | WrInv => 14
  | CacheFlushed => 16
  end.

Inductive D2H_Resp_OpCodes : Type :=
  | RspIHitI | RspVHitV | RspIHitSE | RspSHitSE | RspSFwdM | RspIFwdM | RspVFwdV.

Definition D2H_Resp_code (o : D2H_Resp_OpCodes) : Z :=
  match o with
  | RspIHitI => 4 | RspVHitV => 6 | RspIHitSE => 5 | RspSHitSE => 1
  | RspSFwdM => 7 | RspIFwdM => 15 | RspVFwdV => 22
  end.

Inductive H2D_Req_Opcodes : Type := H2D_SnpData | H2D_SnpInv | H2D_SnpCur.
Definition H2D_Req_code (o : H2D_Req_Opcodes) : Z :=
  match o with H2D_SnpData => 1 | H2D_SnpInv => 2 | H2D_SnpCur => 3 end.

Inductive H2D_Resp_Opcodes : Type :=
  | WritePull | GO | GO_WritePull | ExtCmp | GO_WritePull_Drop | H2D_Reserved
  | Fast_GO_writePull | GO_ERR_WritePull.
Definition H2D_Resp_code (o : H2D_Resp_Opcodes) : Z :=
  match o with
  | WritePull => 1 | GO => 4 | GO_WritePull => 5 | ExtCmp => 6 | GO_WritePull_Drop => 8
  | H2D_Reserved => 12 | Fast_GO_writePull => 13 | GO_ERR_WritePull => 15
  end.

Inductive RSP_PRE_Encoding : Type :=
  | Host_CacheMiss_LocalCPU | Host_CacheHit | Host_CacheMiss_RemoteCPU | Reser.

Inductive RSP_Data_Encoding : Type :=
  | RSP_Invalid | RSP_Shared | RSP_Exclusive | RSP_Modified | RSP_Error.

Record D2H_Req : Type := mkD2H_Req {
  d2hreq_valid : bool;
  d2hreq_Opcode : D2H_Req_OpCodes;
  d2hreq_cqid : Z; d2hreq_NT : bool; d2hreq_CacheID : Z;
  d2hreq_Address : Z;
  d2hreq_spid : Z; d2hreq_dpid : Z; d2hreq_rsvd : Z;
}.

Record D2H_Resp : Type := mkD2H_Resp {
  d2hresp_valid : bool;
  d2hresp_Opcode : D2H_Resp_OpCodes;
  d2hresp_uqid : Z; d2hresp_dpid : Z; d2hresp_rsvd : Z;
}.

Record D2H_Data : Type := mkD2H_Data {
  d2hdata_valid : bool;
  d2hdata_uqid : Z;
  d2hdata_ChunkValid : bool; d2hdata_Bogus : bool; d2hdata_Poison : bool; d2hdata_bep : bool;
  d2hdata_dpid : Z; d2hdata_rsvd : Z;
}.

Record H2D_Req : Type := mkH2D_Req {
  h2dreq_valid : bool;
  h2dreq_opcode : H2D_Req_Opcodes;
  h2dreq_Address : Z;
  h2dreq_uqid : Z; h2dreq_CacheID : Z;
  h2dreq_spid : Z; h2dreq_dpid : Z; h2dreq_rsvd : Z;
}.

Record H2D_Resp : Type := mkH2D_Resp {
  h2dresp_valid : option bool;
  h2dresp_opcode : H2D_Resp_Opcodes;
  h2dresp_RspData : RSP_Data_Encoding;
  h2dresp_RSP_PRE : RSP_PRE_Encoding;
  h2dresp_cqid : Z; h2dresp_CacheID : Z; h2dresp_dpid : Z; h2dresp_rsvd : Z;
}.

Record H2D_Data : Type := mkH2D_Data {
  h2ddata_valid : option bool;
  h2ddata_cqid : Z;
  h2ddata_ChunkValid : bool; h2ddata_Poison : bool; h2ddata_GO_Err : bool;
  h2ddata_CacheID : Z; h2ddata_dpid : Z; h2ddata_rsvd : Z;
}.

Inductive cache_msg : Type :=
  | CD2HReq (m : D2H_Req) | CD2HResp (m : D2H_Resp) | CD2HData (m : D2H_Data)
  | CH2DReq (m : H2D_Req) | CH2DResp (m : H2D_Resp) | CH2DData (m : H2D_Data).

Record CXL_Cache : Type := mkCXL_Cache {
  cxl_cache_type : CXL_Cache_Types;
  cache_link_type : linkType;
  cache_last_resp : Z;
  cache_last_data : bool;
  cache_body : cache_msg;
}.

(** The [CXL_Cache] constructor run by a derived class. *)
Definition new_CXL_Cache (t : CXL_Cache_Types) (m : cache_msg) : CXL_Cache :=
  mkCXL_Cache t B256 1 true m.

Definition new_D2H_Req (op : D2H_Req_OpCodes) (cqid : Z) (NT : bool)
    (CacheID Address spid dpid rsvd : Z) : CXL_Cache :=
  new_CXL_Cache _D2H_Req (CD2HReq (mkD2H_Req true op (u16 cqid) NT (u8 CacheID) (u64 Address)
    (u16 spid) (u16 dpid) (u16 rsvd))).

Definition new_D2H_Resp (op : D2H_Resp_OpCodes) (uqid dpid rsvd : Z) : CXL_Cache :=
  new_CXL_Cache _D2H_Resp (CD2HResp (mkD2H_Resp true op (u16 uqid) (u16 dpid) (u16 rsvd))).

Definition new_D2H_Data (uqid : Z) (ChunkValid Bogus Poison bep : bool) (dpid rsvd : Z)
    : CXL_Cache :=
  new_CXL_Cache _D2H_Data (CD2HData (mkD2H_Data true (u16 uqid) ChunkValid Bogus Poison bep
    (u16 dpid) (u16 rsvd))).

Definition new_H2D_Req (op : H2D_Req_Opcodes) (Address uqid CacheID spid dpid rsvd : Z)
    : CXL_Cache :=
  new_CXL_Cache _H2D_Req (CH2DReq (mkH2D_Req true op (u64 Address) (u16 uqid) (u8 CacheID)
    (u16 spid) (u16 dpid) (u16 rsvd))).

Definition new_H2D_Resp (op : H2D_Resp_Opcodes) (d : RSP_Data_Encoding) (p : RSP_PRE_Encoding)
    (cqid CacheID dpid rsvd : Z) : CXL_Cache :=
  new_CXL_Cache _H2D_Resp (CH2DResp (mkH2D_Resp None op d p (u16 cqid) (u8 CacheID)
    (u16 dpid) (u16 rsvd))).

Definition new_H2D_Data (cqid : Z) (ChunkValid Poison GO_Err : bool) (CacheID dpid rsvd : Z)
    : CXL_Cache :=
  new_CXL_Cache _H2D_Data (CH2DData (mkH2D_Data None (u16 cqid) ChunkValid Poison GO_Err
    (u8 CacheID) (u16 dpid) (u16 rsvd))).

(** [getSize_Bits] of each CXL.cache class. *)
Definition D2H_Req_getSize_Bits (l : linkType) : Z :=
  match l with B68 => 79 | B256 => 76 | PBR => 96 end.
Definition D2H_Resp_getSize_Bits (l : linkType) : Z :=
  match l with B68 => 20 | B256 => 24 | PBR => 36 end.
Definition D2H_Data_getSize_Bits (l : linkType) : Z :=
  match l with B68 => 17 | B256 => 24 | PBR => 36 end.
Definition H2D_Req_getSize_Bits (l : linkType) : Z :=
  match l with B68 => 64 | B256 => 72 | PBR => 92 end.
Definition H2D_Resp_getSize_Bits (l : linkType) : Z :=
  match l with B68 => 32 | B256 => 40 | PBR => 40 end.
Definition H2D_Data_getSize_Bits (l : linkType) : Z :=
  match l with B68 => 24 | B256 => 28 | PBR => 36 end.

Definition cache_getSize_Bits (c : CXL_Cache) : Z :=
  let l := cache_link_type c in
  match cache_body c with
  | CD2HReq _ => D2H_Req_getSize_Bits l | CD2HResp _ => D2H_Resp_getSize_Bits l
  | CD2HData _ => D2H_Data_getSize_Bits l | CH2DReq _ => H2D_Req_getSize_Bits l
  | CH2DResp _ => H2D_Resp_getSize_Bits l | CH2DData _ => H2D_Data_getSize_Bits l
  end.

(** [getAddr], a virtual method; the base class returns 0. *)
Definition cache_getAddr (c : CXL_Cache) : Z :=
  match cache_body c with
  | CD2HReq m => d2hreq_Address m
  | CH2DReq m => h2dreq_Address m
  | _ => 0
  end.

#[export] Instance linkType_eq_dec : EqDecision linkType.
Proof. solve_decision. Defined.
#[export] Instance CXL_Req_Types_eq_dec : EqDecision CXL_Req_Types.
Proof. solve_decision. Defined.
#[export] Instance MetaFiled_eq_dec : EqDecision MetaFiled.
Proof. solve_decision. Defined.
#[export] Instance MetaValue_eq_dec : EqDecision MetaValue.
Proof. solve_decision. Defined.
#[export] Instance M2S_Req_OpCodes_eq_dec : EqDecision M2S_Req_OpCodes.
Proof. solve_decision. Defined.
#[export] Instance M2S_RwD_OpCodes_eq_dec : EqDecision M2S_RwD_OpCodes.
Proof. solve_decision. Defined.
#[export] Instance M2S_SnpTypes_eq_dec : EqDecision M2S_SnpTypes.
Proof. solve_decision. Defined.
#[export] Instance S2M_NDR_Opcodes_eq_dec : EqDecision S2M_NDR_Opcodes.
Proof. solve_decision. Defined.
#[export] Instance CXL_Cache_Types_eq_dec : EqDecision CXL_Cache_Types.
Proof. solve_decision. Defined.
#[export] Instance D2H_Req_OpCodes_eq_dec : EqDecision D2H_Req_OpCodes.
Proof. solve_decision. Defined.
#[export] Instance D2H_Resp_OpCodes_eq_dec : EqDecision D2H_Resp_OpCodes.
Proof. solve_decision. Defined.
#[export] Instance H2D_Resp_Opcodes_eq_dec : EqDecision H2D_Resp_Opcodes.
Proof. solve_decision. Defined.
