(* ===== verification/CxlPrint.v ===== *)
(** The trace format of the CXL messages and the sizes they report: the name
    tables and [print] methods of [src/gem5/src/mem/cxl/cxl_packet.cc] and
    [cxl_cache_packet.cc].  The rendering of one number ([fmt]'s [{:#X}] and
    [{}]) is a parameter.  Reading past a name table, or a member that was never
    initialised, is [Undefined]. *)
From Stdlib Require Import ZArith Lia String Ascii.
From stdpp Require Import base numbers list strings.
From S2P Require Import Prelude CxlPacket.

Open Scope Z_scope.
Open Scope string_scope.

Definition _str_CXL_Link_Type : list string := ["68B"; "256B"; "PBR"].
Definition _str_MetaFiled : list string := ["Meta0_State"; "UnDef"; "UnDef"; "No_Op"].
Definition _str_MetaValue : list string := ["Invalied"; "UnDef"; "Any"; "Shared"].
Definition _str_M2S_Req_OpCodes : list string :=
  ["MemInv"; "MemRd"; "MemRdData"; "MemRdFwd"; "MemWrFwd";
   "RESERVED1"; "RESERVED2"; "RESERVED3"; "MemSpecRd"; "MemSpecRd";
   "MemInvNT"; "MemClnEvct"].
Definition _str_M2S_RwD_OpCodes : list string :=
  ["UnDef"; "MemWr"; "MemWrPtl"; "UnDef"; "BIConflict"].
Definition _str_M2S_SnpTypes : list string := ["No_Op"; "SnpData"; "SnpCur"; "SnpInv"].
Definition _str_M2S_TC : list string := ["Reserved"].
Definition _str_S2M_BISnp_Opcodes : list string :=
  ["BISnpCur"; "BISnpData"; "BISnpInv"; "UnDef"; "BISnpCurBlk"; "Reserved";
   "BISnpDataBlk"; "BISnpInvBlk"].
Definition _str_S2M_NDR_Opcodes : list string :=
  ["Cmp"; "Cmp-S"; "Cmp-E"; "Reserved"; "BI-ConflictAck"].
Definition _str_S2M_DRS_Opcodes : list string := ["MemData"; "MemData-NXM"].
Definition _str_D2H_Req_OpCodes : list string :=
  ["No_OP"; "RdCurr"; "RdOwn"; "RdShared"; "RdAny"; "RdOwnNoData"; "ItoMWr";
   "WrCur"; "CLFlush"; "CleanEvict"; "DirtyEvict"; "CleanEvictNoData"; "WOWrInv";
   "WOWrInvF"; "WrInv"; "No_OP"; "CacheFlushed"].
Definition _str_D2H_Resp_OpCodes : list string :=
  ["No_OP"; "RspSHitSE"; "No_OP"; "No_OP"; "RspIHitI"; "RspIHitSE"; "RspVHitV"; "RspSFwdM";
   "No_OP"; "No_OP"; "No_OP"; "No_OP"; "No_OP"; "No_OP"; "No_OP"; "RspIFwdM";
   "No_OP"; "No_OP"; "No_OP"; "No_OP"; "No_OP"; "No_OP"; "RspVFwdV"].
Definition _str_H2D_Req_OpCodes : list string := ["No_op"; "SnpData"; "SnpInv"; "SnpCur"].
Definition _str_H2D_Resp_OpCodes : list string :=
  ["No_op"; "WritePull"; "No_op"; "No_op"; "GO"; "GO_WritePull"; "ExtCmp"; "No_op";
   "GO_WritePull_Drop"; "No_op"; "No_op"; "No_op"; "Reserved"; "Fast_GO_WritePull";
   "No_op"; "GO_ERR_WritePull"].
Definition _str_RSP_PRE_Encoding : list string :=
  ["Host_CacheMiss_LocalCPU"; "Host_CacheHit"; "Host_CacheMiss_RemoteCPU"; "Reser"].
Definition _str_RSP_Data_Encoding : list string :=
  ["No_op"; "Shared"; "Exclusive"; "Invalid"; "Error"; "Modified"].

(** [table[i]] of a C array. *)
Definition at_ (table : list string) (i : Z) : outcome string :=
  if (i <? 0)%Z then Err Undefined else
  match nth_error table (Z.to_nat i) with Some s => Ok s | None => Err Undefined end.

Definition link_code (l : linkType) : Z := match l with B68 => 0 | B256 => 1 | PBR => 2 end.
Definition TC_code (t : M2S_TC) : Z := match t with TC_Reserved => 0 end.
Definition DRS_code (o : S2M_DRS_Opcodes) : Z :=
  match o with MemData => 0 | MemData_NXM => 1 end.
Definition DevLoad_code (d : DevLoad) : Z :=
  match d with LightLoad => 0 | OptimalLoad => 1 | ModerateOverload => 2 | SevereOverload => 3 end.
Definition RSP_PRE_code (p : RSP_PRE_Encoding) : Z :=
  match p with
  | Host_CacheMiss_LocalCPU => 0 | Host_CacheHit => 1 | Host_CacheMiss_RemoteCPU => 2 | Reser => 3
  end.
Definition RSP_Data_code (d : RSP_Data_Encoding) : Z :=
  match d with
  | RSP_Invalid => 3 | RSP_Shared => 1 | RSP_Exclusive => 2 | RSP_Modified => 5 | RSP_Error => 4
  end.

Definition is_PBR (l : linkType) : bool := match l with PBR => true | _ => false end.
Definition is_B256 (l : linkType) : bool := match l with B256 => true | _ => false end.
Definition is_B68 (l : linkType) : bool := match l with B68 => true | _ => false end.

(** Carriage return, line feed and tabulation. *)
Definition crlf : string := String (ascii_of_nat 13) (String (ascii_of_nat 10) EmptyString).
Definition tab : string := String (ascii_of_nat 9) EmptyString.

Definition TF (b : bool) : string := if b then "T" else "F".
Definition init_bool (b : option bool) : outcome bool :=
  match b with Some b => Ok b | None => Err Undefined end.

Section Print.
(** [fmt::format("{:#X}", n)] and [fmt::format("{}", n)]. *)
Variables fmtX fmtD : Z -> string.

Definition line (label v : string) : string := label ++ v ++ crlf.
Definition lineX (label : string) (v : Z) : string := line label (fmtX v).
(** A code and its name: [{:#X}\t{}]. *)
Definition lineN (label : string) (v : Z) (name : string) : string :=
  line label (fmtX v ++ tab ++ name).
Definition lineS (label : string) (bits : Z) : string := line label (fmtD bits ++ " Bits").

Definition M2S_Req_print (l : linkType) (m : M2S_Req) : outcome string :=
  let! lt := at_ _str_CXL_Link_Type (link_code l) in
  let! op := at_ _str_M2S_Req_OpCodes (M2S_Req_code (req_memOpcode m)) in
  let! st := at_ _str_M2S_SnpTypes (M2S_SnpTypes_code (req_snp_type m)) in
  let! mf := at_ _str_MetaFiled (MetaFiled_code (req_meta_filed m)) in
  let! mv := at_ _str_MetaValue (MetaValue_code (req_meta_value m)) in
  let! tc := at_ _str_M2S_TC (TC_code (req_tc m)) in
  Ok (line "LinkType         : " lt
   ++ line "Valid            : " (TF (req_valid m))
   ++ lineN "memOpCode        : " (M2S_Req_code (req_memOpcode m)) op
   ++ lineN "snp_type         : " (M2S_SnpTypes_code (req_snp_type m)) st
   ++ lineN "meta_filed       : " (MetaFiled_code (req_meta_filed m)) mf
   ++ lineN "meta_value       : " (MetaValue_code (req_meta_value m)) mv
   ++ lineX "tag              : " (req_tag m)
   ++ lineX "address_51_6_5   : " (req_address_51_6_5 m)
   ++ (if is_PBR l then line "(68/256B only)" "" else lineX "LD-ID            : " (req_ld_id m))
   ++ (if is_PBR l then lineX "Source PBR        : " (req_spid m) else line "(PBR only)" "")
   ++ (if is_PBR l then lineX "Destination PBR   : " (req_dpid m) else line "(PBR only)" "")
   ++ lineX "Reserved         : " (req_rsvd m)
   ++ lineN "Traffic Class    : " (TC_code (req_tc m)) tc
   ++ lineS "Size             : " (M2S_Req_getSize_Bits l)).

Definition M2S_RwD_print (l : linkType) (m : M2S_RwD) : outcome string :=
  let! lt := at_ _str_CXL_Link_Type (link_code l) in
  let! op := at_ _str_M2S_RwD_OpCodes (M2S_RwD_code (rwd_memOpcode m)) in
  let! st := at_ _str_M2S_SnpTypes (M2S_SnpTypes_code (rwd_snp_type m)) in
  let! mf := at_ _str_MetaFiled (MetaFiled_code (rwd_meta_filed m)) in
  let! mv := at_ _str_MetaValue (MetaValue_code (rwd_meta_value m)) in
  let! tc := at_ _str_M2S_TC (TC_code (rwd_tc m)) in
  Ok (line "LinkType         : " lt
   ++ line "Valid            : " (TF (rwd_valid m))
   ++ lineN "memOpCode        : " (M2S_RwD_code (rwd_memOpcode m)) op
   ++ lineN "snp_type         : " (M2S_SnpTypes_code (rwd_snp_type m)) st
   ++ lineN "meta_filed       : " (MetaFiled_code (rwd_meta_filed m)) mf
   ++ lineN "meta_value       : " (MetaValue_code (rwd_meta_value m)) mv
   ++ lineX "tag              : " (rwd_tag m)
   ++ lineX "address_51_6     : " (rwd_address_51_6 m)
   ++ line "Poision          : " (TF (rwd_poison m))
   ++ (if is_B68 l then line "(PBR/256B only)" ""
       else line "Byte-Enables Present  : " (TF (rwd_bep m)))
   ++ (if is_PBR l then line "(68/256B only)" "" else lineX "LD-ID            : " (rwd_ld_id m))
   ++ (if is_PBR l then lineX "Source PBR        : " (rwd_spid m) else line "(PBR only)" "")
   ++ (if is_PBR l then lineX "Destination PBR   : " (rwd_dpid m) else line "(PBR only)" "")
   ++ lineX "Reserved         : " (rwd_rsvd m)
   ++ lineN "Traffic Class    : " (TC_code (rwd_tc m)) tc
   ++ lineS "Size             : " (M2S_RwD_getSize_Bits l)).

Definition M2S_BIRsp_print (l : linkType) (m : M2S_BIRsp) : outcome string :=
  let! lt := at_ _str_CXL_Link_Type (link_code l) in
  Ok (line "LinkType         : " lt
   ++ line "Valid            : " (TF (birsp_valid m))
   ++ (if is_B256 l then lineX "bi_id          : " (birsp_bi_id m) else line "(256B only)" "")
   ++ lineX "biTag            : " (birsp_biTag m)
   ++ lineX "lowAddr          : " (birsp_lowAddr m)
   ++ (if is_PBR l then lineX "Destination PBR   : " (birsp_dpid m) else line "(PBR only)" "")
   ++ lineX "Reserved         : " (birsp_rsvd m)
   ++ lineS "Size             : " (M2S_BIRsp_getSize_Bits l)).

(** The [biTag] line of [S2M_BISnp::print] has two replacement fields and one
    argument: [fmt] throws, whatever the other lines are. *)
Definition S2M_BISnp_print (l : linkType) (m : S2M_BISnp) : outcome string :=
  let! _ := at_ _str_CXL_Link_Type (link_code l) in
  let! _ := at_ _str_S2M_BISnp_Opcodes (S2M_BISnp_code (bisnp_opcode m)) in
  Err Fatal.

Definition S2M_NDR_print (l : linkType) (m : S2M_NDR) : outcome string :=
  let! lt := at_ _str_CXL_Link_Type (link_code l) in
  let! v := init_bool (ndr_valid m) in
  let! op := at_ _str_S2M_NDR_Opcodes (S2M_NDR_code (ndr_opcode m)) in
  let! mf := at_ _str_MetaFiled (MetaFiled_code (ndr_metafiled m)) in
  let! mv := at_ _str_MetaValue (MetaValue_code (ndr_metavalue m)) in
  Ok (line "LinkType         : " lt
   ++ line "Valid            : " (TF v)
   ++ lineN "opCode           : " (S2M_NDR_code (ndr_opcode m)) op
   ++ lineN "meta_filed       : " (MetaFiled_code (ndr_metafiled m)) mf
   ++ lineN "meta_value       : " (MetaValue_code (ndr_metavalue m)) mv
   ++ lineX "tag              : " (ndr_tag m)
   ++ (if is_PBR l then line "(68/256B only)" "" else lineX "LD-ID            : " (ndr_ld_id m))
   ++ lineX "dev load         : " (DevLoad_code (ndr_dev_load m))
   ++ (if is_PBR l then lineX "Destination PBR   : " (ndr_dpid m) else line "(PBR only)" "")
   ++ lineX "Reserved         : " (ndr_rsvd m)
   ++ lineS "Size             : " (S2M_NDR_getSize_Bits l)).

Definition S2M_DRS_print (l : linkType) (m : S2M_DRS) : outcome string :=
  let! lt := at_ _str_CXL_Link_Type (link_code l) in
  let! v := init_bool (drs_valid m) in
  let! op := at_ _str_S2M_DRS_Opcodes (DRS_code (drs_opcode m)) in
  let! mf := at_ _str_MetaFiled (MetaFiled_code (drs_metafiled m)) in
  let! mv := at_ _str_MetaValue (MetaValue_code (drs_metavalue m)) in
  Ok (line "LinkType         : " lt
   ++ line "Valid            : " (TF v)
   ++ lineN "opCode           : " (DRS_code (drs_opcode m)) op
   ++ lineN "meta_filed       : " (MetaFiled_code (drs_metafiled m)) mf
   ++ lineN "meta_value       : " (MetaValue_code (drs_metavalue m)) mv
   ++ lineX "tag              : " (drs_tag m)
   ++ line "Poision          : " (if drs_poison m then "true" else "false")
   ++ (if is_PBR l then line "(68/256B only)" "" else lineX "LD-ID            : " (drs_ld_id m))
   ++ lineX "dev load         : " (DevLoad_code (drs_dev_load m))
   ++ (if is_PBR l then lineX "Destination PBR   : " (drs_dpid m) else line "(PBR only)" "")
   ++ lineX "Reserved         : " (drs_rsvd m)
   ++ lineS "Size             : " (S2M_DRS_getSize_Bits l)).

Definition D2H_Req_print (l : linkType) (m : D2H_Req) : outcome string :=
  let! lt := at_ _str_CXL_Link_Type (link_code l) in
  let! op := at_ _str_D2H_Req_OpCodes (D2H_Req_code (d2hreq_Opcode m)) in
  Ok (line "LinkType         : " lt
   ++ line "Valid            : " (TF (d2hreq_valid m))
   ++ lineN "OpCode           : " (D2H_Req_code (d2hreq_Opcode m)) op
   ++ lineX "cqid             : " (d2hreq_cqid m)
   ++ line "NT               : " (TF (d2hreq_NT m))
   ++ (if is_B256 l then lineX "CacheID          : " (d2hreq_CacheID m) else line "(256B only)" "")
   ++ lineX "Address          : " (d2hreq_Address m)
   ++ (if is_PBR l then lineX "Source PBR       : " (d2hreq_spid m) else line "(PBR only)" "")
   ++ (if is_PBR l then lineX "Destination PBR  : " (d2hreq_dpid m) else line "(PBR only)" "")
   ++ lineX "Reserved         : " (d2hreq_rsvd m)
   ++ lineS "Size             : " (D2H_Req_getSize_Bits l)).

Definition D2H_Resp_print (l : linkType) (m : D2H_Resp) : outcome string :=
  let! lt := at_ _str_CXL_Link_Type (link_code l) in
  let! op := at_ _str_D2H_Resp_OpCodes (D2H_Resp_code (d2hresp_Opcode m)) in
  Ok (line "LinkType         : " lt
   ++ line "Valid            : " (TF (d2hresp_valid m))
   ++ lineN "OpCode           : " (D2H_Resp_code (d2hresp_Opcode m)) op
   ++ lineX "uqid             : " (d2hresp_uqid m)
   ++ (if is_PBR l then lineX "Destination PBR  : " (d2hresp_dpid m) else line "(PBR only)" "")
   ++ lineX "Reserved         : " (d2hresp_rsvd m)
   ++ lineS "Size             : " (D2H_Resp_getSize_Bits l)).

Definition D2H_Data_print (l : linkType) (m : D2H_Data) : outcome string :=
  let! lt := at_ _str_CXL_Link_Type (link_code l) in
  Ok (line "LinkType         : " lt
   ++ line "Valid            : " (TF (d2hdata_valid m))
   ++ lineX "uqid             : " (d2hdata_uqid m)
   ++ (if is_B68 l then line "ChunkValid       : " (TF (d2hdata_ChunkValid m))
       else line "(68B only)" "")
   ++ line "Bogus            : " (TF (d2hdata_Bogus m))
   ++ line "Poison           : " (TF (d2hdata_Poison m))
   ++ (if is_B68 l then line "(256B, PBR only)" ""
       else line "bep              : " (TF (d2hdata_bep m)))
   ++ (if is_PBR l then lineX "Destination PBR   : " (d2hdata_dpid m) else line "(PBR only)" "")
   ++ lineX "Reserved         : " (d2hdata_rsvd m)
   ++ lineS "Size             : " (D2H_Data_getSize_Bits l)).

Definition H2D_Req_print (l : linkType) (m : H2D_Req) : outcome string :=
  let! lt := at_ _str_CXL_Link_Type (link_code l) in
  let! op := at_ _str_H2D_Req_OpCodes (H2D_Req_code (h2dreq_opcode m)) in
  Ok (line "LinkType         : " lt
   ++ line "Valid            : " (TF (h2dreq_valid m))
   ++ lineN "opcode           : " (H2D_Req_code (h2dreq_opcode m)) op
   ++ lineX "Address          : " (h2dreq_Address m)
   ++ lineX "uqid             : " (h2dreq_uqid m)
   ++ (if is_B256 l then lineX "CacheID          : " (h2dreq_CacheID m) else line "(256B only)" "")
   ++ (if is_PBR l then lineX "Source PBR       : " (h2dreq_spid m) else line "(PBR only)" "")
   ++ (if is_PBR l then lineX "Destination PBR  : " (h2dreq_dpid m) else line "(PBR only)" "")
   ++ lineX "Reserved         : " (h2dreq_rsvd m)
   ++ lineS "Size             : " (H2D_Req_getSize_Bits l)).

Definition H2D_Resp_print (l : linkType) (m : H2D_Resp) : outcome string :=
  let! lt := at_ _str_CXL_Link_Type (link_code l) in
  let! v := init_bool (h2dresp_valid m) in
  let! op := at_ _str_H2D_Resp_OpCodes (H2D_Resp_code (h2dresp_opcode m)) in
  let! d := at_ _str_RSP_Data_Encoding (RSP_Data_code (h2dresp_RspData m)) in
  let! p := at_ _str_RSP_PRE_Encoding (RSP_PRE_code (h2dresp_RSP_PRE m)) in
  Ok (line "LinkType         : " lt
   ++ line "Valid            : " (TF v)
   ++ lineN "opcode           : " (H2D_Resp_code (h2dresp_opcode m)) op
   ++ lineN "RspData          : " (RSP_Data_code (h2dresp_RspData m)) d
   ++ lineN "RSP_PRE          : " (RSP_PRE_code (h2dresp_RSP_PRE m)) p
   ++ lineX "cqid             : " (h2dresp_cqid m)
   ++ (if is_B256 l then lineX "CacheID          : " (h2dresp_CacheID m) else line "(256B only)" "")
   ++ (if is_PBR l then lineX "Destination PBR  : " (h2dresp_dpid m) else line "(PBR only)" "")
   ++ lineX "Reserved         : " (h2dresp_rsvd m)
   ++ lineS "Size             : " (H2D_Resp_getSize_Bits l)).

Definition H2D_Data_print (l : linkType) (m : H2D_Data) : outcome string :=
  let! lt := at_ _str_CXL_Link_Type (link_code l) in
  let! v := init_bool (h2ddata_valid m) in
  Ok (line "LinkType         : " lt
   ++ line "Valid            : " (TF v)
   ++ lineX "cqid             : " (h2ddata_cqid m)
   ++ (if is_B68 l then line "ChunkValid       : " (TF (h2ddata_ChunkValid m))
       else line "(68B only)" "")
   ++ line "Poison           : " (TF (h2ddata_Poison m))
   ++ line "GO_Err            : " (TF (h2ddata_GO_Err m))
   ++ (if is_B256 l then lineX "CacheID          : " (h2ddata_CacheID m) else line "(256B only)" "")
   ++ (if is_PBR l then lineX "Destination PBR  : " (h2ddata_dpid m) else line "(PBR only)" "")
   ++ lineX "Reserved         : " (h2ddata_rsvd m)
   ++ lineS "Size             : " (H2D_Data_getSize_Bits l)).

(** The virtual method [print] of the two hierarchies. *)
Definition mem_print (r : CXL_Req) : outcome string :=
  let l := mem_link_type r in
  match mem_body r with
  | MReq m => M2S_Req_print l m | MRwD m => M2S_RwD_print l m
  | MBIRsp m => M2S_BIRsp_print l m | MNDR m => S2M_NDR_print l m
  | MDRS m => S2M_DRS_print l m | MBISnp m => S2M_BISnp_print l m
  end.

Definition cache_print (c : CXL_Cache) : outcome string :=
  let l := cache_link_type c in
  match cache_body c with
  | CD2HReq m => D2H_Req_print l m | CD2HResp m => D2H_Resp_print l m
  | CD2HData m => D2H_Data_print l m | CH2DReq m => H2D_Req_print l m
  | CH2DResp m => H2D_Resp_print l m | CH2DData m => H2D_Data_print l m
  end.

End Print.

(** * What the trace shows *)

Ltac table_ok := let op := fresh in intros op; destruct op; vm_compute; eauto.

Lemma link_name_ok l : exists s, at_ _str_CXL_Link_Type (link_code l) = Ok s.
Proof. revert l; table_ok. Qed.
Lemma MetaFiled_name_ok m : exists s, at_ _str_MetaFiled (MetaFiled_code m) = Ok s.
Proof. revert m; table_ok. Qed.
Lemma MetaValue_name_ok m : exists s, at_ _str_MetaValue (MetaValue_code m) = Ok s.
Proof. revert m; table_ok. Qed.
Lemma SnpTypes_name_ok m : exists s, at_ _str_M2S_SnpTypes (M2S_SnpTypes_code m) = Ok s.
Proof. revert m; table_ok. Qed.
Lemma TC_name_ok m : exists s, at_ _str_M2S_TC (TC_code m) = Ok s.
Proof. revert m; table_ok. Qed.
Lemma M2S_Req_name_ok m : exists s, at_ _str_M2S_Req_OpCodes (M2S_Req_code m) = Ok s.
Proof. revert m; table_ok. Qed.
Lemma M2S_RwD_name_ok m : exists s, at_ _str_M2S_RwD_OpCodes (M2S_RwD_code m) = Ok s.
Proof. revert m; table_ok. Qed.
Lemma NDR_name_ok m : exists s, at_ _str_S2M_NDR_Opcodes (S2M_NDR_code m) = Ok s.
Proof. revert m; table_ok. Qed.
Lemma DRS_name_ok m : exists s, at_ _str_S2M_DRS_Opcodes (DRS_code m) = Ok s.
Proof. revert m; table_ok. Qed.
Lemma BISnp_name_ok m : exists s, at_ _str_S2M_BISnp_Opcodes (S2M_BISnp_code m) = Ok s.
Proof. revert m; table_ok. Qed.
Lemma D2H_Req_name_ok m : exists s, at_ _str_D2H_Req_OpCodes (D2H_Req_code m) = Ok s.
Proof. revert m; table_ok. Qed.
Lemma D2H_Resp_name_ok m : exists s, at_ _str_D2H_Resp_OpCodes (D2H_Resp_code m) = Ok s.
Proof. revert m; table_ok. Qed.
Lemma H2D_Req_name_ok m : exists s, at_ _str_H2D_Req_OpCodes (H2D_Req_code m) = Ok s.
Proof. revert m; table_ok. Qed.
Lemma H2D_Resp_name_ok m : exists s, at_ _str_H2D_Resp_OpCodes (H2D_Resp_code m) = Ok s.
Proof. revert m; table_ok. Qed.
Lemma RSP_PRE_name_ok m : exists s, at_ _str_RSP_PRE_Encoding (RSP_PRE_code m) = Ok s.
Proof. revert m; table_ok. Qed.
Lemma RSP_Data_name_ok m : exists s, at_ _str_RSP_Data_Encoding (RSP_Data_code m) = Ok s.
Proof. revert m; table_ok. Qed.

(** Resolve every table lookup of a [print] body. *)
Ltac names_resolve :=
  repeat match goal with
  | |- context [at_ ?t ?i] =>
      let s := fresh "s" in let E := fresh "E" in
      assert (exists s, at_ t i = Ok s) as [s E] by
        (first [apply link_name_ok | apply MetaFiled_name_ok | apply MetaValue_name_ok
               | apply SnpTypes_name_ok | apply TC_name_ok | apply M2S_Req_name_ok
               | apply M2S_RwD_name_ok | apply NDR_name_ok | apply DRS_name_ok
               | apply BISnp_name_ok | apply D2H_Req_name_ok | apply D2H_Resp_name_ok
               | apply H2D_Req_name_ok | apply H2D_Resp_name_ok | apply RSP_PRE_name_ok
               | apply RSP_Data_name_ok]);
      rewrite E; cbn [obind]; clear E
  | |- context [init_bool ?v] => destruct v; cbn [init_bool obind]
  end.

(** The messages whose every printed member is initialised and whose format
    strings have all their arguments. *)
Definition mem_printable (r : CXL_Req) : bool :=
  match mem_body r with
  | MBISnp _ => false
  | MNDR m => bool_decide (is_Some (ndr_valid m))
  | MDRS m => bool_decide (is_Some (drs_valid m))
  | _ => true
  end.

Definition cache_printable (c : CXL_Cache) : bool :=
  match cache_body c with
  | CH2DResp m => bool_decide (is_Some (h2dresp_valid m))
  | CH2DData m => bool_decide (is_Some (h2ddata_valid m))
  | _ => true
  end.

(** No name-table access of any [print] method is out of range, whatever
    the message and the flit mode: a message prints unless it is an [S2M_BISnp]
    (whose format string lacks an argument) or its [valid] member was never
    initialised, as in every NDR, DRS, H2D response and H2D data message that
    the constructors build. *)
Theorem print_defined fmtX fmtD (r : CXL_Req) (c : CXL_Cache) :
  is_ok (mem_print fmtX fmtD r) = mem_printable r /\
  is_ok (cache_print fmtX fmtD c) = cache_printable c /\
  (forall op mf mv tag ld dl dpid rsvd,
     mem_print fmtX fmtD (new_S2M_NDR op mf mv tag ld dl dpid rsvd) = Err Undefined) /\
  (forall op d p cqid id dpid rsvd,
     cache_print fmtX fmtD (new_H2D_Resp op d p cqid id dpid rsvd) = Err Undefined).
Proof.
  split_and!.
  - unfold mem_print, mem_printable.
    destruct (mem_body r) as [m | m | m | m | m | m]; cbv beta delta
      [M2S_Req_print M2S_RwD_print M2S_BIRsp_print S2M_NDR_print S2M_DRS_print S2M_BISnp_print];
      names_resolve; reflexivity.
  - unfold cache_print, cache_printable.
    destruct (cache_body c) as [m | m | m | m | m | m]; cbv beta delta
      [D2H_Req_print D2H_Resp_print D2H_Data_print H2D_Req_print H2D_Resp_print H2D_Data_print];
      names_resolve; reflexivity.
  - intros. reflexivity.
  - intros. reflexivity.
Qed.

(** The enumerator names of the opcodes, as the declarations spell them. *)
Definition M2S_Req_name (o : M2S_Req_OpCodes) : string :=
  match o with
  | MemInv => "MemInv" | MemRd => "MemRd" | MemRdData => "MemRdData" | MemRdFwd => "MemRdFwd"
  | MemWrFwd => "MemWrFwd" | RESERVED1 => "RESERVED1" | RESERVED2 => "RESERVED2"
  | RESERVED3 => "RESERVED3" | MemSpecRd => "MemSpecRd" | MemInvNT => "MemInvNT"
  | MemClnEvct => "MemClnEvct"
  end.
Definition BISnp_name (o : S2M_BISnp_Opcodes) : string :=
  match o with
  | BISnpCur => "BISnpCur" | BISnpData => "BISnpData" | BISnpInv => "BISnpInv"
  | BISnpCurBlk => "BISnpCurBlk" | BISnpDataBlk => "BISnpDataBlk" | BISnpInvBlk => "BISnpInvBlk"
  end.
Definition D2H_Req_name (o : D2H_Req_OpCodes) : string :=
  match o with
  | RdCurr => "RdCurr" | RdOwn => "RdOwn" | RdShared => "RdShared" | RdAny => "RdAny"
  | RdOwnNoData => "RdOwnNoData" | ItoMWr => "ItoMWr" | WrCur => "WrCur" | CLFlush => "CLFlush"
  | D2H_CleanEvict => "CleanEvict" | DirtyEvict => "DirtyEvict"
  | CleanEvictNoData => "CleanEvictNoData" | WOWrInv => "WOWrInv" | WOWrInvF => "WOWrInvF"
  | WrInv => "WrInv" | CacheFlushed => "CacheFlushed"
  end.
Definition D2H_Resp_name (o : D2H_Resp_OpCodes) : string :=
  match o with
  | RspIHitI => "RspIHitI" | RspVHitV => "RspVHitV" | RspIHitSE => "RspIHitSE"
  | RspSHitSE => "RspSHitSE" | RspSFwdM => "RspSFwdM" | RspIFwdM => "RspIFwdM"
  | RspVFwdV => "RspVFwdV"
  end.

(** The CXL.cache device messages trace every opcode under its own name;
    the CXL.mem request table is right for every opcode except [MemInvNT] and
    [MemClnEvct], and the back-invalidate table except [BISnpDataBlk] and
    [BISnpInvBlk], which appear under the name of another entry. *)
Theorem opcode_names :
  (forall o, at_ _str_D2H_Req_OpCodes (D2H_Req_code o) = Ok (D2H_Req_name o)) /\
  (forall o, at_ _str_D2H_Resp_OpCodes (D2H_Resp_code o) = Ok (D2H_Resp_name o)) /\
  (forall o, at_ _str_M2S_Req_OpCodes (M2S_Req_code o) = Ok (M2S_Req_name o) <->
             ~ (o = MemInvNT \/ o = MemClnEvct)) /\
  (forall o, at_ _str_S2M_BISnp_Opcodes (S2M_BISnp_code o) = Ok (BISnp_name o) <->
             ~ (o = BISnpDataBlk \/ o = BISnpInvBlk)) /\
  at_ _str_M2S_Req_OpCodes (M2S_Req_code MemClnEvct) = Ok (M2S_Req_name MemInvNT).
Proof.
  split_and!; [intros [] .. | reflexivity]; vm_compute; try reflexivity;
    split; (reflexivity || (intros; (discriminate || tauto || intuition discriminate))).
Qed.

(** * Message sizes *)

(** The widths the declarations document for each field, per flit mode (68B,
    256B, PBR), in declaration order; a field that a mode does not carry has
    width 0. *)
Definition doc_fields (t : CXL_Req_Types + CXL_Cache_Types) : list (Z * Z * Z) :=
  match t with
  | inl _M2S_Req => [(1,1,1); (4,4,4); (3,3,3); (2,2,2); (2,2,2); (16,16,16); (1,0,0);
      (46,46,46); (4,4,0); (0,0,12); (0,0,12); (6,20,20); (2,2,2)]
  | inl _M2S_RwD => [(1,1,1); (4,4,4); (3,3,3); (2,2,2); (2,2,2); (16,16,16); (46,46,46);
      (1,1,1); (0,1,1); (4,4,0); (0,0,12); (0,0,12); (6,22,22); (2,2,2)]
  | inl _M2S_BIRsp => [(0,1,1); (0,4,4); (0,12,0); (0,12,12); (0,2,2); (0,0,12); (0,9,9)]
  | inl _S2M_BISnp => [(0,1,1); (0,4,4); (0,12,0); (0,12,12); (0,46,46); (0,0,12); (0,0,12); (0,9,9)]
  | inl _S2M_NDR => [(1,1,1); (3,3,3); (2,2,2); (2,2,2); (16,16,16); (4,4,0); (2,2,2);
      (0,0,12); (0,10,10)]
  | inl _S2M_DRS => [(1,1,1); (3,3,3); (2,2,2); (2,2,2); (16,16,16); (1,1,1); (4,4,0); (2,2,2);
      (0,0,12); (0,10,10)]
  | inr _D2H_Req => [(1,1,1); (5,5,5); (12,12,12); (1,1,1); (0,4,0); (46,46,46); (0,0,12);
      (0,0,12); (14,7,7)]
  | inr _D2H_Resp => [(1,1,1); (5,5,5); (12,12,12); (0,0,12); (2,6,6)]
  | inr _D2H_Data => [(1,1,1); (12,12,12); (1,0,0); (1,1,1); (1,1,1); (0,1,1); (0,0,12); (1,8,8)]
  | inr _H2D_Req => [(1,1,1); (4,4,4); (46,46,46); (12,12,12); (0,4,0); (0,0,12); (0,0,12); (2,6,6)]
  | inr _H2D_Resp => [(1,1,1); (4,4,4); (12,12,12); (2,2,2); (12,12,12); (0,4,0); (0,0,12); (1,5,5)]
  | inr _H2D_Data => [(1,1,1); (12,12,12); (1,0,0); (1,1,1); (1,1,1); (0,4,0); (0,0,12); (8,9,9)]
  end.

Definition doc_size (t : CXL_Req_Types + CXL_Cache_Types) (l : linkType) : Z :=
  fold_left (fun n f => let '(a, b, c) := f in
    (n + match l with B68 => a | B256 => b | PBR => c end)%Z) (doc_fields t) 0%Z.

(** Back-invalidate messages do not exist in 68B flits. *)
Definition carried (t : CXL_Req_Types + CXL_Cache_Types) (l : linkType) : bool :=
  match t, l with
  | inl _M2S_BIRsp, B68 | inl _S2M_BISnp, B68 => false
  | _, _ => true
  end.

Definition getSize_Bits (t : CXL_Req_Types + CXL_Cache_Types) (l : linkType) : Z :=
  match t with
  | inl _M2S_Req => M2S_Req_getSize_Bits l | inl _M2S_RwD => M2S_RwD_getSize_Bits l
  | inl _M2S_BIRsp => M2S_BIRsp_getSize_Bits l | inl _S2M_NDR => S2M_NDR_getSize_Bits l
  | inl _S2M_DRS => S2M_DRS_getSize_Bits l | inl _S2M_BISnp => S2M_BISnp_getSize_Bits l
  | inr _D2H_Req => D2H_Req_getSize_Bits l | inr _D2H_Resp => D2H_Resp_getSize_Bits l
  | inr _D2H_Data => D2H_Data_getSize_Bits l | inr _H2D_Req => H2D_Req_getSize_Bits l
  | inr _H2D_Resp => H2D_Resp_getSize_Bits l | inr _H2D_Data => H2D_Data_getSize_Bits l
  end.

(** The classes and modes whose reported size is not the sum of the documented
    widths: DRS and H2D requests in every mode, H2D responses in PBR mode. *)
Definition size_mismatch (t : CXL_Req_Types + CXL_Cache_Types) (l : linkType) : bool :=
  match t, l with
  | inl _S2M_DRS, _ | inr _H2D_Req, _ | inr _H2D_Resp, PBR => true
  | _, _ => false
  end.

(** The size a message reports is the sum of the documented widths of its
    fields in the current flit mode, for every class and mode outside
    [size_mismatch]; inside it never is; and [-1] is reported exactly for the
    back-invalidate classes in 68B mode. *)
Theorem size_is_field_sum t l :
  (getSize_Bits t l = -1 <-> carried t l = false)%Z /\
  (carried t l = true -> (getSize_Bits t l = doc_size t l <-> size_mismatch t l = false)).
Proof. destruct t as [[] | []], l; vm_compute; intuition discriminate. Qed.

Lemma size_is_field_sum_witness :
  (getSize_Bits (inl _M2S_Req) B256 = -1 <-> carried (inl _M2S_Req) B256 = false)%Z /\
  (carried (inl _M2S_Req) B256 = true ->
     (getSize_Bits (inl _M2S_Req) B256 = doc_size (inl _M2S_Req) B256 <->
      size_mismatch (inl _M2S_Req) B256 = false)).
Proof. apply (size_is_field_sum (inl _M2S_Req) B256). Defined.

(** [getValidBlk] never returns: bits 7:6 are not shifted down before the
    comparison, so no case of the switch matches. *)
Lemma getValidBlk_undefined m : getValidBlk m = Err Undefined.
Proof.
  unfold getValidBlk. change (Z.shiftl 3 6) with 192%Z.
  set (v := wrap 8 _).
  assert (Hv : Z.testbit v 0 = false /\ Z.testbit v 1 = false) by
    (unfold v; split; rewrite wrap_testbit, Z.land_spec by lia; simpl; apply andb_false_r).
  destruct Hv as [H0 H1].
  destruct (Z.eqb_spec v 1) as [-> |]; [done |].
  destruct (Z.eqb_spec v 2) as [-> |]; [done |].
  destruct (Z.eqb_spec v 3) as [-> |]; [done |]. done.
Qed.
