(* ===== verification/MemPacket.v ===== *)
(** Memory commands, packets and requests: [src/gem5/src/mem/packet.hh],
    [packet.cc] and the CXL members of [src/gem5/src/mem/request.hh].

    The command table is the source's array, indexed by the number of the
    command, and a predicate tests a bit of the attribute set of its entry.
    A packet keeps the fields the memory system's protocol code reads and
    writes; its flags are a 32-bit set.  The request a packet points to is part
    of the packet: each handler of the CXL path works on one packet. *)
From Stdlib Require Import ZArith Lia String.
From stdpp Require Import base numbers list gmap strings.
From S2P Require Import Prelude AddrRange CxlPacket.

Open Scope Z_scope.

(** * Commands *)

Inductive Command : Type :=
  | InvalidCmd | ReadReq | ReadResp | ReadRespWithInvalidate | WriteReq | WriteResp
  | WriteCompleteResp | WritebackDirty | WritebackClean | WriteClean | CleanEvict
  | SoftPFReq | SoftPFExReq | HardPFReq | SoftPFResp | HardPFResp | WriteLineReq
  | UpgradeReq | SCUpgradeReq | UpgradeResp | SCUpgradeFailReq | UpgradeFailResp
  | ReadExReq | ReadExResp | ReadCleanReq | ReadSharedReq | LoadLockedReq | StoreCondReq
  | StoreCondFailReq | StoreCondResp | LockedRMWReadReq | LockedRMWReadResp
  | LockedRMWWriteReq | LockedRMWWriteResp | SwapReq | SwapResp | MemFenceReq | MemSyncReq
  | MemSyncResp | MemFenceResp | CleanSharedReq | CleanSharedResp | CleanInvalidReq
  | CleanInvalidResp | InvalidDestError | BadAddressError | ReadError | WriteError
  | FunctionalReadError | FunctionalWriteError | PrintReq | FlushReq | InvalidateReq
  | InvalidateResp | HTMReq | HTMReqResp | HTMAbort | TlbiExtSync.

Inductive Attribute : Type :=
  | IsRead | IsWrite | IsUpgrade | IsInvalidate | IsClean | NeedsWritable | IsRequest
  | IsResponse | NeedsResponse | IsEviction | IsSWPrefetch | IsHWPrefetch | IsLlsc
  | IsLockedRMW | HasData | IsError | IsPrint | IsFlush | FromCache.

Definition Command_index (c : Command) : Z :=
  match c with
  | InvalidCmd => 0 | ReadReq => 1 | ReadResp => 2 | ReadRespWithInvalidate => 3
  | WriteReq => 4 | WriteResp => 5 | WriteCompleteResp => 6 | WritebackDirty => 7
  | WritebackClean => 8 | WriteClean => 9 | CleanEvict => 10 | SoftPFReq => 11
  | SoftPFExReq => 12 | HardPFReq => 13 | SoftPFResp => 14 | HardPFResp => 15
  | WriteLineReq => 16 | UpgradeReq => 17 | SCUpgradeReq => 18 | UpgradeResp => 19
  | SCUpgradeFailReq => 20 | UpgradeFailResp => 21 | ReadExReq => 22 | ReadExResp => 23
  | ReadCleanReq => 24 | ReadSharedReq => 25 | LoadLockedReq => 26 | StoreCondReq => 27
  | StoreCondFailReq => 28 | StoreCondResp => 29 | LockedRMWReadReq => 30
  | LockedRMWReadResp => 31 | LockedRMWWriteReq => 32 | LockedRMWWriteResp => 33
  | SwapReq => 34 | SwapResp => 35 | MemFenceReq => 38 | MemSyncReq => 39
  | MemSyncResp => 40 | MemFenceResp => 41 | CleanSharedReq => 42 | CleanSharedResp => 43
  | CleanInvalidReq => 44 | CleanInvalidResp => 45 | InvalidDestError => 46
  | BadAddressError => 47 | ReadError => 48 | WriteError => 49 | FunctionalReadError => 50
  | FunctionalWriteError => 51 | PrintReq => 52 | FlushReq => 53 | InvalidateReq => 54
  | InvalidateResp => 55 | HTMReq => 56 | HTMReqResp => 57 | HTMAbort => 58
  | TlbiExtSync => 59
  end.

Definition Attribute_index (a : Attribute) : Z :=
  match a with
  | IsRead => 0 | IsWrite => 1 | IsUpgrade => 2 | IsInvalidate => 3 | IsClean => 4
  | NeedsWritable => 5 | IsRequest => 6 | IsResponse => 7 | NeedsResponse => 8
  | IsEviction => 9 | IsSWPrefetch => 10 | IsHWPrefetch => 11 | IsLlsc => 12
  | IsLockedRMW => 13 | HasData => 14 | IsError => 15 | IsPrint => 16 | IsFlush => 17
  | FromCache => 18
  end.

#[export] Instance Command_eq_dec : EqDecision Command.
Proof. solve_decision. Defined.

Definition NUM_MEM_CMDS : Z := 60.

(** [buildAttributes]: the attribute set as a bit set. *)
Definition buildAttributes (attrs : list Attribute) : Z :=
  fold_left (fun ret attr => Z.lor ret (Z.shiftl 1 (Attribute_index attr))) attrs 0.

Record CommandInfo : Type := mkCommandInfo {
  ci_attributes : list Attribute;
  ci_response : Command;
  ci_str : string;
}.

(** The array [MemCmd::commandInfo]. *)
Definition commandInfo : list CommandInfo := [
    mkCommandInfo [] InvalidCmd "InvalidCmd";
    mkCommandInfo [IsRead; IsRequest; NeedsResponse] ReadResp "ReadReq";
    mkCommandInfo [IsRead; IsResponse; HasData] InvalidCmd "ReadResp";
    mkCommandInfo [IsRead; IsResponse; HasData; IsInvalidate] InvalidCmd "ReadRespWithInvalidate";
    mkCommandInfo [IsWrite; NeedsWritable; IsRequest; NeedsResponse; HasData] WriteResp "WriteReq";
    mkCommandInfo [IsWrite; IsResponse] InvalidCmd "WriteResp";
    mkCommandInfo [IsWrite; IsResponse] InvalidCmd "WriteCompleteResp";
    mkCommandInfo [IsWrite; IsRequest; IsEviction; HasData; FromCache] InvalidCmd "WritebackDirty";
    mkCommandInfo [IsWrite; IsRequest; IsEviction; HasData; FromCache] InvalidCmd "WritebackClean";
    mkCommandInfo [IsWrite; IsRequest; HasData; FromCache] InvalidCmd "WriteClean";
    mkCommandInfo [IsRequest; IsEviction; FromCache] InvalidCmd "CleanEvict";
    mkCommandInfo [IsRead; IsRequest; IsSWPrefetch; NeedsResponse] SoftPFResp "SoftPFReq";
    mkCommandInfo [IsRead; NeedsWritable; IsInvalidate; IsRequest; IsSWPrefetch; NeedsResponse] SoftPFResp "SoftPFExReq";
    mkCommandInfo [IsRead; IsRequest; IsHWPrefetch; NeedsResponse; FromCache] HardPFResp "HardPFReq";
    mkCommandInfo [IsRead; IsResponse; IsSWPrefetch; HasData] InvalidCmd "SoftPFResp";
    mkCommandInfo [IsRead; IsResponse; IsHWPrefetch; HasData] InvalidCmd "HardPFResp";
    mkCommandInfo [IsWrite; NeedsWritable; IsRequest; NeedsResponse; HasData] WriteResp "WriteLineReq";
    mkCommandInfo [IsInvalidate; NeedsWritable; IsUpgrade; IsRequest; NeedsResponse; FromCache] UpgradeResp "UpgradeReq";
    mkCommandInfo [IsInvalidate; NeedsWritable; IsUpgrade; IsLlsc; IsRequest; NeedsResponse; FromCache] UpgradeResp "SCUpgradeReq";
    mkCommandInfo [IsUpgrade; IsResponse] InvalidCmd "UpgradeResp";
    mkCommandInfo [IsRead; NeedsWritable; IsInvalidate; IsLlsc; IsRequest; NeedsResponse; FromCache] UpgradeFailResp "SCUpgradeFailReq";
    mkCommandInfo [IsRead; IsResponse; HasData] InvalidCmd "UpgradeFailResp";
    mkCommandInfo [IsRead; NeedsWritable; IsInvalidate; IsRequest; NeedsResponse; FromCache] ReadExResp "ReadExReq";
    mkCommandInfo [IsRead; IsResponse; HasData] InvalidCmd "ReadExResp";
    mkCommandInfo [IsRead; IsRequest; NeedsResponse; FromCache] ReadResp "ReadCleanReq";
    mkCommandInfo [IsRead; IsRequest; NeedsResponse; FromCache] ReadResp "ReadSharedReq";
    mkCommandInfo [IsRead; IsLlsc; IsRequest; NeedsResponse] ReadResp "LoadLockedReq";
    mkCommandInfo [IsWrite; NeedsWritable; IsLlsc; IsRequest; NeedsResponse; HasData] StoreCondResp "StoreCondReq";
    mkCommandInfo [IsWrite; NeedsWritable; IsLlsc; IsRequest; NeedsResponse; HasData] StoreCondResp "StoreCondFailReq";
    mkCommandInfo [IsWrite; IsLlsc; IsResponse] InvalidCmd "StoreCondResp";
    mkCommandInfo [IsRead; IsLockedRMW; NeedsWritable; IsRequest; NeedsResponse] LockedRMWReadResp "LockedRMWReadReq";
    mkCommandInfo [IsRead; IsLockedRMW; NeedsWritable; IsResponse; HasData] InvalidCmd "LockedRMWReadResp";
    mkCommandInfo [IsWrite; IsLockedRMW; NeedsWritable; IsRequest; NeedsResponse; HasData] LockedRMWWriteResp "LockedRMWWriteReq";
    mkCommandInfo [IsWrite; IsLockedRMW; NeedsWritable; IsResponse] InvalidCmd "LockedRMWWriteResp";
    mkCommandInfo [IsRead; IsWrite; NeedsWritable; IsRequest; HasData; NeedsResponse] SwapResp "SwapReq";
    mkCommandInfo [IsRead; IsWrite; IsResponse; HasData] InvalidCmd "SwapResp";
    mkCommandInfo [] InvalidCmd "Deprecated_MessageReq";
    mkCommandInfo [] InvalidCmd "Deprecated_MessageResp";
    mkCommandInfo [IsRequest; NeedsResponse] MemFenceResp "MemFenceReq";
    mkCommandInfo [IsRequest; NeedsResponse] MemSyncResp "MemSyncReq";
    mkCommandInfo [IsResponse] InvalidCmd "MemSyncResp";
    mkCommandInfo [IsResponse] InvalidCmd "MemFenceResp";
    mkCommandInfo [IsRequest; IsClean; NeedsResponse; FromCache] CleanSharedResp "CleanSharedReq";
    mkCommandInfo [IsResponse; IsClean] InvalidCmd "CleanSharedResp";
    mkCommandInfo [IsRequest; IsInvalidate; IsClean; NeedsResponse; FromCache] CleanInvalidResp "CleanInvalidReq";
    mkCommandInfo [IsResponse; IsInvalidate; IsClean] InvalidCmd "CleanInvalidResp";
    mkCommandInfo [IsResponse; IsError] InvalidCmd "InvalidDestError";
    mkCommandInfo [IsResponse; IsError] InvalidCmd "BadAddressError";
    mkCommandInfo [IsRead; IsResponse; IsError] InvalidCmd "ReadError";
    mkCommandInfo [IsWrite; IsResponse; IsError] InvalidCmd "WriteError";
    mkCommandInfo [IsRead; IsResponse; IsError] InvalidCmd "FunctionalReadError";
    mkCommandInfo [IsWrite; IsResponse; IsError] InvalidCmd "FunctionalWriteError";
    mkCommandInfo [IsRequest; IsPrint] InvalidCmd "PrintReq";
    mkCommandInfo [IsRequest; IsFlush; NeedsWritable] InvalidCmd "FlushReq";
    mkCommandInfo [IsInvalidate; IsRequest; NeedsWritable; NeedsResponse; FromCache] InvalidateResp "InvalidateReq";
    mkCommandInfo [IsInvalidate; IsResponse] InvalidCmd "InvalidateResp";
    mkCommandInfo [IsRead; IsRequest; NeedsResponse] HTMReqResp "HTMReq";
    mkCommandInfo [IsRead; IsResponse] InvalidCmd "HTMReqResp";
    mkCommandInfo [IsRead; IsRequest] InvalidCmd "HTMAbort";
    mkCommandInfo [IsRequest] InvalidCmd "TlbiExtSync"
  ].

(** [commandInfo[cmd]]. *)
Definition command_info (c : Command) : CommandInfo :=
  nth (Z.to_nat (Command_index c)) commandInfo (mkCommandInfo [] InvalidCmd "").

(** [bool testCmdAttrib(MemCmd::Attribute attrib) const]. *)
Definition testCmdAttrib (c : Command) (a : Attribute) : bool :=
  Z.testbit (buildAttributes (ci_attributes (command_info c))) (Attribute_index a).

Definition isRead c := testCmdAttrib c IsRead.
Definition isWrite c := testCmdAttrib c IsWrite.
Definition isUpgrade c := testCmdAttrib c IsUpgrade.
Definition isRequest c := testCmdAttrib c IsRequest.
Definition isResponse c := testCmdAttrib c IsResponse.
Definition cmd_needsWritable c := testCmdAttrib c NeedsWritable.
Definition needsResponse c := testCmdAttrib c NeedsResponse.
Definition isInvalidate c := testCmdAttrib c IsInvalidate.
Definition isEviction c := testCmdAttrib c IsEviction.
Definition isClean c := testCmdAttrib c IsClean.
Definition fromCache c := testCmdAttrib c FromCache.
Definition isWriteback c := testCmdAttrib c IsEviction && testCmdAttrib c HasData.
Definition hasData c := testCmdAttrib c HasData.
Definition isLLSC c := testCmdAttrib c IsLlsc.
Definition isLockedRMW c := testCmdAttrib c IsLockedRMW.
Definition isPrefetch c := testCmdAttrib c IsSWPrefetch || testCmdAttrib c IsHWPrefetch.
Definition isError c := testCmdAttrib c IsError.
Definition isPrint c := testCmdAttrib c IsPrint.
Definition isFlush c := testCmdAttrib c IsFlush.

(** [bool isDemand() const]. *)
Definition isDemand (c : Command) : bool :=
  bool_decide (c = ReadReq) || bool_decide (c = WriteReq) || bool_decide (c = WriteLineReq) ||
  bool_decide (c = ReadExReq) || bool_decide (c = ReadCleanReq) || bool_decide (c = ReadSharedReq).

(** [Command responseCommand() const]. *)
Definition responseCommand (c : Command) : Command := ci_response (command_info c).

(** * Requests and packets *)

(** The kind of CXL traffic a request carries. *)
Inductive CXLPacketType : Type :=
  | DefaultPacket | CXLmemPacket | CXLmemDataPacket | CXLcachePacket | CXLcacheDataPacket
  | HostBiasCheck | CXLProcReq | CXLcacheH2DReq | CXLcacheH2DResp.

#[export] Instance CXLPacketType_eq_dec : EqDecision CXLPacketType.
Proof. solve_decision. Defined.

(** The members of [Request] that the CXL path uses, with the identity of the
    object ([RequestPtr] keys a routing table of the bridge) and its [_flags]; of the array
    [pciBridgeSlaveIDs] the assigned entries; [old_state] and [new_state] are
    [char]s. *)
Record Request : Type := mkRequest {
  req_ptr : Z;
  req_flags : Z;
  pciBridgeSlaveIDs : gmap Z Z;
  cxl_packet_type : CXLPacketType;
  cxl_req : option CXL_Req;
  cxl_data_atomic : option CXL_Req;
  cxl_data_atomic2 : option CXL_Cache;
  cxl_cache : option CXL_Cache;
  coherent_check_dest : Z;
  from_cxl_proc : bool;
  old_state : Z;
  new_state : Z;
}.

Definition set_pciBridgeSlaveIDs (v : gmap Z Z) (r : Request) : Request :=
  mkRequest (req_ptr r) (req_flags r) v (cxl_packet_type r) (cxl_req r) (cxl_data_atomic r)
    (cxl_data_atomic2 r) (cxl_cache r) (coherent_check_dest r) (from_cxl_proc r) (old_state r)
    (new_state r).
Definition set_cxl_packet_type (v : CXLPacketType) (r : Request) : Request :=
  mkRequest (req_ptr r) (req_flags r) (pciBridgeSlaveIDs r) v (cxl_req r) (cxl_data_atomic r)
    (cxl_data_atomic2 r) (cxl_cache r) (coherent_check_dest r) (from_cxl_proc r) (old_state r)
    (new_state r).
Definition set_cxl_req (v : option CXL_Req) (r : Request) : Request :=
  mkRequest (req_ptr r) (req_flags r) (pciBridgeSlaveIDs r) (cxl_packet_type r) v (cxl_data_atomic r)
    (cxl_data_atomic2 r) (cxl_cache r) (coherent_check_dest r) (from_cxl_proc r) (old_state r)
    (new_state r).
Definition set_cxl_data_atomic (v : option CXL_Req) (r : Request) : Request :=
  mkRequest (req_ptr r) (req_flags r) (pciBridgeSlaveIDs r) (cxl_packet_type r) (cxl_req r) v
    (cxl_data_atomic2 r) (cxl_cache r) (coherent_check_dest r) (from_cxl_proc r) (old_state r)
    (new_state r).
Definition set_cxl_data_atomic2 (v : option CXL_Cache) (r : Request) : Request :=
  mkRequest (req_ptr r) (req_flags r) (pciBridgeSlaveIDs r) (cxl_packet_type r) (cxl_req r)
    (cxl_data_atomic r) v (cxl_cache r) (coherent_check_dest r) (from_cxl_proc r) (old_state r)
    (new_state r).
Definition set_cxl_cache (v : option CXL_Cache) (r : Request) : Request :=
  mkRequest (req_ptr r) (req_flags r) (pciBridgeSlaveIDs r) (cxl_packet_type r) (cxl_req r)
    (cxl_data_atomic r) (cxl_data_atomic2 r) v (coherent_check_dest r) (from_cxl_proc r)
    (old_state r) (new_state r).
Definition set_coherent_check_dest (v : Z) (r : Request) : Request :=
  mkRequest (req_ptr r) (req_flags r) (pciBridgeSlaveIDs r) (cxl_packet_type r) (cxl_req r)
    (cxl_data_atomic r) (cxl_data_atomic2 r) (cxl_cache r) v (from_cxl_proc r)
    (old_state r) (new_state r).
Definition set_from_cxl_proc (v : bool) (r : Request) : Request :=
  mkRequest (req_ptr r) (req_flags r) (pciBridgeSlaveIDs r) (cxl_packet_type r) (cxl_req r)
    (cxl_data_atomic r) (cxl_data_atomic2 r) (cxl_cache r) (coherent_check_dest r) v
    (old_state r) (new_state r).
Definition set_old_state (v : Z) (r : Request) : Request :=
  mkRequest (req_ptr r) (req_flags r) (pciBridgeSlaveIDs r) (cxl_packet_type r) (cxl_req r)
    (cxl_data_atomic r) (cxl_data_atomic2 r) (cxl_cache r) (coherent_check_dest r)
    (from_cxl_proc r) v (new_state r).
Definition set_new_state (v : Z) (r : Request) : Request :=
  mkRequest (req_ptr r) (req_flags r) (pciBridgeSlaveIDs r) (cxl_packet_type r) (cxl_req r)
    (cxl_data_atomic r) (cxl_data_atomic2 r) (cxl_cache r) (coherent_check_dest r)
    (from_cxl_proc r) (old_state r) v.

(** A fresh request object: default kind, no CXL message, states ['?'] (0x3F). *)
Definition new_Request (ptr : Z) : Request :=
  mkRequest ptr 0 ∅ DefaultPacket None None None None 0 false 0x3F 0x3F.

(** ** What peers do to a request object *)

(** A snooped cache notes the states of its block before and after the snoop
    ([pkt->req->old_state], [pkt->req->new_state] in [mem/cache/cache.cc]). *)
Definition noted (r r' : Request) : Prop := exists o n, r' = set_new_state n (set_old_state o r).

(** The same object, of the same kind. *)
Definition same_kind (r r' : Request) : Prop := req_ptr r' = req_ptr r /\ cxl_packet_type r' = cxl_packet_type r.

(** Kinds that are alike for what remembers a request: the bridge turns requests into
    CXL messages, but none into or from a coherence check or the device's answer to a
    snoop. *)
Definition alike (k k' : CXLPacketType) : Prop :=
  (k' = HostBiasCheck <-> k = HostBiasCheck) /\ (k' = CXLcacheH2DResp <-> k = CXLcacheH2DResp).
Definition same_object (r r' : Request) : Prop :=
  req_ptr r' = req_ptr r /\ alike (cxl_packet_type r) (cxl_packet_type r').

Lemma noted_refl r : noted r r.
Proof. exists (old_state r), (new_state r). by destruct r. Qed.
Lemma noted_same_kind r r' : noted r r' -> same_kind r r'.
Proof. by intros (o & n & ->). Qed.
Lemma same_kind_refl r : same_kind r r.
Proof. done. Qed.
Lemma same_kind_trans r s t : same_kind r s -> same_kind s t -> same_kind r t.
Proof. unfold same_kind. intros [-> ->] [-> ->]. done. Qed.
Lemma same_kind_object r r' : same_kind r r' -> same_object r r'.
Proof. intros [Hp Hk]. split; [done |]. by rewrite Hk. Qed.
Lemma same_object_refl r : same_object r r.
Proof. by split. Qed.
Lemma same_object_trans r s t : same_object r s -> same_object s t -> same_object r t.
Proof. unfold same_object, alike. intros (-> & -> & ->) (-> & H1 & H2). by split_and!. Qed.
#[export] Hint Resolve noted_refl noted_same_kind same_kind_refl same_kind_object same_object_refl : core.

(** A packet; [req_ids] holds [req_bus], [req_dev] and [req_func] for each root
    complex. *)
Record Packet : Type := mkPacket {
  pkt_id : Z;
  cmd : Command;
  flags : Z;
  addr : Z;
  _isSecure : bool;
  psize : Z;
  headerDelay : Z;
  snoopDelay : Z;
  payloadDelay : Z;
  req_ids : list (Z * Z * Z);
  req : Request;
}.

Definition set_cmd (v : Command) (p : Packet) : Packet :=
  mkPacket (pkt_id p) v (flags p) (addr p) (_isSecure p) (psize p) (headerDelay p) (snoopDelay p) (payloadDelay p) (req_ids p) (req p).
Definition set_flags (v : Z) (p : Packet) : Packet :=
  mkPacket (pkt_id p) (cmd p) v (addr p) (_isSecure p) (psize p) (headerDelay p) (snoopDelay p) (payloadDelay p) (req_ids p) (req p).
Definition set_addr (v : Z) (p : Packet) : Packet :=
  mkPacket (pkt_id p) (cmd p) (flags p) v (_isSecure p) (psize p) (headerDelay p) (snoopDelay p) (payloadDelay p) (req_ids p) (req p).
Definition set_req_ids (v : list (Z * Z * Z)) (p : Packet) : Packet :=
  mkPacket (pkt_id p) (cmd p) (flags p) (addr p) (_isSecure p) (psize p) (headerDelay p) (snoopDelay p) (payloadDelay p) v (req p).
Definition set_req (v : Request) (p : Packet) : Packet :=
  mkPacket (pkt_id p) (cmd p) (flags p) (addr p) (_isSecure p) (psize p) (headerDelay p) (snoopDelay p) (payloadDelay p) (req_ids p) v.
Definition set_headerDelay (v : Z) (p : Packet) : Packet :=
  mkPacket (pkt_id p) (cmd p) (flags p) (addr p) (_isSecure p) (psize p) v (snoopDelay p) (payloadDelay p) (req_ids p) (req p).
Definition set_snoopDelay (v : Z) (p : Packet) : Packet :=
  mkPacket (pkt_id p) (cmd p) (flags p) (addr p) (_isSecure p) (psize p) (headerDelay p) v (payloadDelay p) (req_ids p) (req p).
Definition set_payloadDelay (v : Z) (p : Packet) : Packet :=
  mkPacket (pkt_id p) (cmd p) (flags p) (addr p) (_isSecure p) (psize p) (headerDelay p) (snoopDelay p) v (req_ids p) (req p).
(** [pkt->headerDelay = pkt->payloadDelay = 0]. *)
Definition clear_delays (p : Packet) : Packet :=
  mkPacket (pkt_id p) (cmd p) (flags p) (addr p) (_isSecure p) (psize p) 0 (snoopDelay p) 0 (req_ids p) (req p).

Definition RESPONDER_FLAGS : Z := 0x9.
Definition HAS_SHARERS : Z := 0x1.
Definition EXPRESS_SNOOP : Z := 0x2.
Definition RESPONDER_HAD_WRITABLE : Z := 0x4.
Definition CACHE_RESPONDING : Z := 0x8.
Definition WRITE_THROUGH : Z := 0x10.
Definition SATISFIED : Z := 0x20.
Definition VALID_ADDR : Z := 0x100.
Definition VALID_SIZE : Z := 0x200.
Definition BLOCK_CACHED : Z := 0x10000.

(** The operations of [gem5::Flags<uint32_t>]. *)
Definition flag_isSet (m : Z) (p : Packet) : bool := truthy (Z.land (flags p) m).
Definition flag_set (m : Z) (p : Packet) : Packet := set_flags (Z.lor (flags p) m) p.
Definition flag_clear (m : Z) (p : Packet) : Packet := set_flags (Z.land (flags p) (wnot 32 m)) p.

Definition hasSharers (p : Packet) : bool := flag_isSet HAS_SHARERS p.
Definition setHasSharers (p : Packet) : Packet := flag_set HAS_SHARERS p.
Definition cacheResponding (p : Packet) : bool := flag_isSet CACHE_RESPONDING p.
Definition setCacheResponding (p : Packet) : outcome Packet :=
  do! assert_ (isRequest (cmd p)) then
  do! assert_ (negb (cacheResponding p)) then
  Ok (flag_set CACHE_RESPONDING p).
Definition isExpressSnoop (p : Packet) : bool := flag_isSet EXPRESS_SNOOP p.
Definition setExpressSnoop (p : Packet) : Packet := flag_set EXPRESS_SNOOP p.
Definition clearExpressSnoop (p : Packet) : Packet := flag_clear EXPRESS_SNOOP p.
Definition responderHadWritable (p : Packet) : bool := flag_isSet RESPONDER_HAD_WRITABLE p.
Definition setResponderHadWritable (p : Packet) : outcome Packet :=
  do! assert_ (cacheResponding p) then
  do! assert_ (negb (responderHadWritable p)) then
  Ok (flag_set RESPONDER_HAD_WRITABLE p).
Definition isBlockCached (p : Packet) : bool := flag_isSet BLOCK_CACHED p.
Definition setBlockCached (p : Packet) : Packet := flag_set BLOCK_CACHED p.
Definition clearWriteThrough (p : Packet) : Packet := flag_clear WRITE_THROUGH p.
Definition satisfied (p : Packet) : bool := flag_isSet SATISFIED p.

(** [bool isSecure() const] of a packet. *)
Definition isSecure (p : Packet) : outcome bool :=
  do! assert_ (flag_isSet VALID_ADDR p) then Ok (_isSecure p).

(** The request flags the crossbars and the snoop filter test. *)
Definition UNCACHEABLE : Z := 0x400.
Definition INVALIDATE : Z := 0x100000000.
Definition CLEAN : Z := 0x200000000.
Definition req_isSet (m : Z) (r : Request) : bool := truthy (Z.land (req_flags r) m).
Definition DST_POU : Z := 0x1000000000.
Definition DST_POC : Z := 0x2000000000.
Definition isToPOU (r : Request) : bool := req_isSet DST_POU r.
Definition isToPOC (r : Request) : bool := req_isSet DST_POC r.
Definition isUncacheable (r : Request) : bool := req_isSet UNCACHEABLE r.
Definition isCacheMaintenance (r : Request) : bool := req_isSet (Z.lor CLEAN INVALIDATE) r.

(** [bool needsWritable() const] of a packet asserts that it is a request. *)
Definition needsWritable (p : Packet) : outcome bool :=
  do! assert_ (isRequest (cmd p)) then Ok (cmd_needsWritable (cmd p)).

(** [Addr getAddr() const], [unsigned getSize() const], [setAddr]. *)
Definition getAddr (p : Packet) : outcome Z :=
  do! assert_ (flag_isSet VALID_ADDR p) then Ok (addr p).
Definition getSize (p : Packet) : outcome Z :=
  do! assert_ (flag_isSet VALID_SIZE p) then Ok (psize p).
Definition setAddr (a : Z) (p : Packet) : outcome Packet :=
  do! assert_ (flag_isSet VALID_ADDR p) then
  Ok (set_addr a p).

(** [AddrRange getAddrRange() const]. *)
Definition getAddrRange (p : Packet) : outcome AddrRange :=
  let! a := getAddr p in let! s := getSize p in Ok (RangeSize a s).

(** [getOffset] and [getBlockAddr] for an [unsigned] block size. *)
Definition getOffset (blk_size : Z) (p : Packet) : outcome Z :=
  let! a := getAddr p in Ok (Z.land a (u32 (blk_size - 1))).
Definition getBlockAddr (blk_size : Z) (p : Packet) : outcome Z :=
  let! a := getAddr p in Ok (Z.land a (wnot 64 (u32 (blk_size - 1)))).

(** [bool isCleanEviction() const]. *)
Definition isCleanEviction (p : Packet) : bool :=
  bool_decide (cmd p = CleanEvict) || bool_decide (cmd p = WritebackClean).

(** [void makeResponse()]. *)
Definition makeResponse (p : Packet) : outcome Packet :=
  do! assert_ (needsResponse (cmd p)) then
  do! assert_ (isRequest (cmd p)) then
  Ok (flag_clear EXPRESS_SNOOP (set_cmd (responseCommand (cmd p)) p)).

(** [void setBadAddress()] and [void setBadCommand()]. *)
Definition setBadAddress (p : Packet) : outcome Packet :=
  do! assert_ (isResponse (cmd p)) then Ok (set_cmd BadAddressError p).
Definition setBadCommand (p : Packet) : outcome Packet :=
  do! assert_ (isResponse (cmd p)) then
  Ok (set_cmd (if isWrite (cmd p) then WriteError else ReadError) p).

(** [void copyResponderFlags(const PacketPtr pkt)]. *)
Definition copyResponderFlags (p pkt : Packet) : outcome Packet :=
  do! assert_ (isRequest (cmd p)) then
  do! assert_ (negb (cacheResponding pkt) || negb (cacheResponding p)) then
  Ok (flag_set (Z.land (flags pkt) RESPONDER_FLAGS) p).

(** * The command table *)

(** Every enumerator, to decide a property of all commands by evaluation. *)
Definition all_commands : list Command :=
  [InvalidCmd; ReadReq; ReadResp; ReadRespWithInvalidate; WriteReq; WriteResp;
   WriteCompleteResp; WritebackDirty; WritebackClean; WriteClean; CleanEvict;
   SoftPFReq; SoftPFExReq; HardPFReq; SoftPFResp; HardPFResp; WriteLineReq;
   UpgradeReq; SCUpgradeReq; UpgradeResp; SCUpgradeFailReq; UpgradeFailResp;
   ReadExReq; ReadExResp; ReadCleanReq; ReadSharedReq; LoadLockedReq; StoreCondReq;
   StoreCondFailReq; StoreCondResp; LockedRMWReadReq; LockedRMWReadResp;
   LockedRMWWriteReq; LockedRMWWriteResp; SwapReq; SwapResp; MemFenceReq; MemSyncReq;
   MemSyncResp; MemFenceResp; CleanSharedReq; CleanSharedResp; CleanInvalidReq;
   CleanInvalidResp; InvalidDestError; BadAddressError; ReadError; WriteError;
   FunctionalReadError; FunctionalWriteError; PrintReq; FlushReq; InvalidateReq;
   InvalidateResp; HTMReq; HTMReqResp; HTMAbort; TlbiExtSync].

Lemma all_commands_complete c : In c all_commands.
Proof. destruct c; vm_compute; repeat (first [left; reflexivity | right]). Qed.

Lemma forall_commands (P : Command -> bool) :
  forallb P all_commands = true -> forall c, P c = true.
Proof. intros H c. eapply forallb_forall in H; [exact H | apply all_commands_complete]. Qed.

Lemma response_facts c : needsResponse c = true ->
  isRequest c = true /\ isResponse (responseCommand c) = true /\
  needsResponse (responseCommand c) = false /\ isRequest (responseCommand c) = false.
Proof. destruct c; vm_compute; intuition congruence. Qed.

(** The command table is consistent for every command.  No command is both
    a request and a response; a command that needs a response is a request whose
    response command is a plain response that needs no further response; every
    other command has no response command; the response to a read (the
    transactional [HTMReq] apart) is a read response with data, and to a pure
    write a write response without; writes carry data; evictions never wait for
    a response. *)
Theorem command_table_consistent c :
  ~ (isRequest c = true /\ isResponse c = true) /\
  (needsResponse c = true -> isRequest c = true /\ isResponse (responseCommand c) = true /\
     isError (responseCommand c) = false /\ needsResponse (responseCommand c) = false) /\
  (needsResponse c = false -> responseCommand c = InvalidCmd) /\
  (needsResponse c = true -> isRead c = true -> c <> HTMReq ->
     isRead (responseCommand c) = true /\ hasData (responseCommand c) = true) /\
  (needsResponse c = true -> isWrite c = true -> isRead c = false ->
     isWrite (responseCommand c) = true /\ hasData (responseCommand c) = false) /\
  (isWrite c = true -> isRequest c = true -> hasData c = true) /\
  (isEviction c = true -> isRequest c = true /\ needsResponse c = false).
Proof.
  destruct c; vm_compute; intuition congruence.
Qed.

Lemma command_table_consistent_witness :
  isRead (responseCommand ReadSharedReq) = true /\ hasData (responseCommand ReadSharedReq) = true.
Proof.
  destruct (command_table_consistent ReadSharedReq) as (_ & _ & _ & H & _).
  apply H; [reflexivity | reflexivity | discriminate].
Defined.

(** [makeResponse] succeeds exactly on the packets that need a response,
    turns them in place into a response that is no express snoop, keeps the
    address, the size, the request and every other flag, and cannot be applied
    twice. *)
Theorem makeResponse_spec p :
  in_width 32 (flags p) ->
  (needsResponse (cmd p) = false -> makeResponse p = Err AssertFail) /\
  (needsResponse (cmd p) = true ->
   exists p', makeResponse p = Ok p' /\
     cmd p' = responseCommand (cmd p) /\ isResponse (cmd p') = true /\
     isRequest (cmd p') = false /\ isExpressSnoop p' = false /\
     addr p' = addr p /\ psize p' = psize p /\ req p' = req p /\
     (forall i, 0 <= i -> i <> 1 -> Z.testbit (flags p') i = Z.testbit (flags p) i) /\
     makeResponse p' = Err AssertFail).
Proof.
  intros Hf. unfold makeResponse, assert_.
  split; intros E; rewrite E; [done |].
  destruct (response_facts _ E) as (Hr & Hresp & Hnr & Hnreq). rewrite Hr. cbn [obind].
  eexists. split; [done |].
  cbn [cmd addr psize req flag_clear set_flags set_cmd]. rewrite Hnr.
  split_and!; try done.
  - unfold isExpressSnoop, flag_isSet, flag_clear, set_flags. cbn [flags set_cmd].
    replace (Z.land _ _) with 0; [done |]. zbitwise.
    destruct (Z.testbit EXPRESS_SNOOP i); cbn [negb]; by rewrite ?andb_false_r.
  - intros i Hi Hne. unfold flag_clear, set_flags, set_cmd. cbn [flags].
    rewrite Z.land_spec, wnot_testbit by lia.
    destruct (Z.ltb_spec i 32).
    + replace (Z.testbit EXPRESS_SNOOP i) with false; [by rewrite andb_true_r |].
      change EXPRESS_SNOOP with (2 ^ 1). by rewrite Z.pow2_bits_false by lia.
    + rewrite (in_width_testbit 32 (flags p) i) by (auto; lia). done.
Qed.

Lemma makeResponse_spec_witness :
  exists p', makeResponse (mkPacket 0 ReadExReq 0x302 0x80000040 false 64 0 0 0 [] (new_Request 1)) = Ok p' /\
    cmd p' = ReadExResp /\ isExpressSnoop p' = false.
Proof.
  destruct (makeResponse_spec (mkPacket 0 ReadExReq 0x302 0x80000040 false 64 0 0 0 [] (new_Request 1))) as [_ H];
    [unfold in_width; simpl; lia |].
  destruct H as (p' & H1 & H2 & _ & _ & H3 & _); [reflexivity |].
  exists p'. split; [exact H1 | split; [exact H2 | exact H3]].
Defined.
