(* ===== verification/SnoopFilter.v ===== *)
(** The snoop filter: class [SnoopFilter] of [src/gem5/src/mem/snoop_filter.hh] and
    [snoop_filter.cc].

    The filter knows, for each line, which ports of the crossbar have a request in
    flight ([requested]) and which hold the line ([holder]), as bit masks over the
    snooping ports.  The map of lines is a finite map, and an iterator into it is
    the key it points to: it is used only between [lookupRequest] and the
    [finishRequest] that follows. *)
From Stdlib Require Import ZArith Lia.
From stdpp Require Import base numbers list gmap.
From S2P Require Import Prelude BitField MemPacket.

Open Scope Z_scope.

(** * Ports and masks *)

(** What the filter asks of a [ResponsePort]: [getId()] and [isSnooping()]. *)
Record ResponsePort : Type := mkResponsePort {
  getId : Z;
  isSnooping : bool;
}.

#[export] Instance ResponsePort_eq_dec : EqDecision ResponsePort.
Proof. solve_decision. Defined.

Definition InvalidPortID : Z := -1.
Definition SNOOP_MASK_SIZE : Z := 256.

(** [std::bitset<SNOOP_MASK_SIZE>]. *)
Definition mask_any (m : Z) : bool := truthy m.
Definition mask_none (m : Z) : bool := negb (truthy m).
Definition mask_not (m : Z) : Z := wnot SNOOP_MASK_SIZE m.

Record SnoopItem : Type := mkSnoopItem {
  requested : Z;
  holder : Z;
}.

Definition SnoopItem_empty : SnoopItem := mkSnoopItem 0 0.
Definition set_requested (v : Z) (i : SnoopItem) : SnoopItem := mkSnoopItem v (holder i).
Definition set_holder (v : Z) (i : SnoopItem) : SnoopItem := mkSnoopItem (requested i) v.

Record SnoopFilterStats : Type := mkStats {
  totRequests : Z;
  hitSingleRequests : Z;
  hitMultiRequests : Z;
  totSnoops : Z;
  hitSingleSnoops : Z;
  hitMultiSnoops : Z;
}.

(** The filter; [it = None] is the end iterator of [cachedLocations]. *)
Record SnoopFilter : Type := mkSnoopFilter {
  cachedLocations : gmap Z SnoopItem;
  it : option Z;
  retryItem : SnoopItem;
  cpuSidePorts : list ResponsePort;
  localResponsePortIds : list Z;
  linesize : Z;
  lookupLatency : Z;
  maxEntryCount : Z;
  stats : SnoopFilterStats;
}.

Definition set_cachedLocations (v : gmap Z SnoopItem) (f : SnoopFilter) : SnoopFilter :=
  mkSnoopFilter v (it f) (retryItem f) (cpuSidePorts f) (localResponsePortIds f) (linesize f)
    (lookupLatency f) (maxEntryCount f) (stats f).
Definition set_it (v : option Z) (f : SnoopFilter) : SnoopFilter :=
  mkSnoopFilter (cachedLocations f) v (retryItem f) (cpuSidePorts f) (localResponsePortIds f)
    (linesize f) (lookupLatency f) (maxEntryCount f) (stats f).
Definition set_retryItem (v : SnoopItem) (f : SnoopFilter) : SnoopFilter :=
  mkSnoopFilter (cachedLocations f) (it f) v (cpuSidePorts f) (localResponsePortIds f)
    (linesize f) (lookupLatency f) (maxEntryCount f) (stats f).
Definition set_stats (v : SnoopFilterStats) (f : SnoopFilter) : SnoopFilter :=
  mkSnoopFilter (cachedLocations f) (it f) (retryItem f) (cpuSidePorts f) (localResponsePortIds f)
    (linesize f) (lookupLatency f) (maxEntryCount f) v.
Definition set_ports (ps : list ResponsePort) (ids : list Z) (f : SnoopFilter) : SnoopFilter :=
  mkSnoopFilter (cachedLocations f) (it f) (retryItem f) ps ids (linesize f)
    (lookupLatency f) (maxEntryCount f) (stats f).

(** [SnoopFilter(const SnoopFilterParams &p)]; [maxEntryCount] is [unsigned], and a
    line size of zero divides by it. *)
Definition new_SnoopFilter (cacheLineSize lookup_latency max_capacity : Z) : outcome SnoopFilter :=
  if cacheLineSize =? 0 then Err Undefined
  else Ok (mkSnoopFilter ∅ None SnoopItem_empty [] [] cacheLineSize lookup_latency
             (u32 (max_capacity / cacheLineSize)) (mkStats 0 0 0 0 0 0)).

(** The loop of [setCPUSidePorts]. *)
Fixpoint number_ports (ps : list ResponsePort) (id : Z) (tracked : list ResponsePort) (ids : list Z)
    : outcome (Z * list ResponsePort * list Z) :=
  match ps with
  | [] => Ok (id, tracked, ids)
  | p :: ps =>
      if isSnooping p then
        if (0 <=? getId p) && (getId p <? Z.of_nat (length ids)) then
          number_ports ps (id + 1) (tracked ++ [p]) (<[Z.to_nat (getId p) := id]> ids)
        else Err Undefined
      else number_ports ps id tracked ids
  end.

(** [void setCPUSidePorts(const SnoopList& _cpu_side_ports)]. *)
Definition setCPUSidePorts (ps : list ResponsePort) (f : SnoopFilter) : outcome SnoopFilter :=
  let ids := resize (length ps) InvalidPortID (localResponsePortIds f) in
  let! (id, tracked, ids) := number_ports ps 0 (cpuSidePorts f) ids in
  if SNOOP_MASK_SIZE <? id then Err Fatal else Ok (set_ports tracked ids f).

(** [SnoopMask portToMask(const ResponsePort& port) const]: a shift by the number of
    the port, which leaves no bit outside the mask. *)
Definition portToMask (f : SnoopFilter) (port : ResponsePort) : outcome Z :=
  do! assert_ (negb (getId port =? InvalidPortID)) then
  if negb (isSnooping port) then Ok 0
  else if getId port <? 0 then Err Undefined
  else match localResponsePortIds f !! Z.to_nat (getId port) with
       | Some k => Ok (if (0 <=? k) && (k <? SNOOP_MASK_SIZE) then 2 ^ k else 0)
       | None => Err Undefined
       end.

Fixpoint select_ports (f : SnoopFilter) (port_mask : Z) (ps : list ResponsePort)
    : outcome (list ResponsePort) :=
  match ps with
  | [] => Ok []
  | p :: ps =>
      let! m := portToMask f p in
      let! res := select_ports f port_mask ps in
      Ok (if mask_any (Z.land port_mask m) then p :: res else res)
  end.

(** [SnoopList maskToPortList(SnoopMask port_mask) const]. *)
Definition maskToPortList (f : SnoopFilter) (port_mask : Z) : outcome (list ResponsePort) :=
  select_ports f port_mask (cpuSidePorts f).

(** [snoopSelected], [snoopDown] and [snoopAll]. *)
Definition snoopSelected (ps : list ResponsePort) (latency : Z) : list ResponsePort * Z := (ps, latency).
Definition snoopDown (latency : Z) : list ResponsePort * Z := ([], latency).
Definition snoopAll (f : SnoopFilter) (latency : Z) : list ResponsePort * Z := (cpuSidePorts f, latency).

(** * Operations *)

(** The key of the line of a packet: its block address, with the lowest bit set for
    the secure space. *)
Definition line_addr (f : SnoopFilter) (cpkt : Packet) : outcome Z :=
  let! a := getBlockAddr (linesize f) cpkt in
  let! s := isSecure cpkt in
  Ok (if s then Z.lor a 1 else a).

(** [void eraseIfNullEntry(SnoopFilterCache::iterator& sf_it)]. *)
Definition eraseIfNullEntry (k : Z) (f : SnoopFilter) : outcome SnoopFilter :=
  match cachedLocations f !! k with
  | None => Err Undefined
  | Some item =>
      Ok (if mask_none (Z.lor (requested item) (holder item))
          then set_cachedLocations (delete k (cachedLocations f)) f else f)
  end.

Definition count_request (is_hit : bool) (interested : Z) (s : SnoopFilterStats) : SnoopFilterStats :=
  let single := popCount interested =? 1 in
  mkStats (totRequests s + 1)
    (if is_hit && single then hitSingleRequests s + 1 else hitSingleRequests s)
    (if is_hit && negb single then hitMultiRequests s + 1 else hitMultiRequests s)
    (totSnoops s) (hitSingleSnoops s) (hitMultiSnoops s).

Definition count_snoop (interested : Z) (s : SnoopFilterStats) : SnoopFilterStats :=
  let single := popCount interested =? 1 in
  mkStats (totRequests s) (hitSingleRequests s) (hitMultiRequests s) (totSnoops s + 1)
    (if single then hitSingleSnoops s + 1 else hitSingleSnoops s)
    (if single then hitMultiSnoops s else hitMultiSnoops s + 1).

(** What an allocating request does to the entry of its line. *)
Definition request_item (cpkt : Packet) (req_port : Z) (item : SnoopItem) : outcome SnoopItem :=
  if needsResponse (cmd cpkt) then
    if negb (cacheResponding cpkt) then
      do! panic_if (mask_any (Z.land (requested item) req_port)) then
      Ok (set_requested (Z.lor (requested item) req_port) item)
    else
      do! panic_if (mask_none (Z.land (holder item) req_port)) then Ok item
  else
    do! assert_ (isEviction (cmd cpkt)) then
    do! panic_if (mask_none (Z.land (holder item) req_port)) then
    Ok (if negb (isBlockCached cpkt) then set_holder (Z.land (holder item) (mask_not req_port)) item
        else item).

(** [std::pair<SnoopList, Cycles> lookupRequest(const Packet* cpkt, const ResponsePort&
    cpu_side_port)]. *)
Definition lookupRequest (cpkt : Packet) (cpu_side_port : ResponsePort) (f : SnoopFilter)
    : outcome (SnoopFilter * (list ResponsePort * Z)) :=
  let allocate := negb (isUncacheable (req cpkt)) && isSnooping cpu_side_port && fromCache (cmd cpkt) in
  let! line := line_addr f cpkt in
  let! req_port := portToMask f cpu_side_port in
  let is_hit := bool_decide (is_Some (cachedLocations f !! line)) in
  if negb is_hit && negb allocate then Ok (set_it None f, snoopDown (lookupLatency f))
  else
    let sf_item := default SnoopItem_empty (cachedLocations f !! line) in
    let f := set_it (Some line) (set_cachedLocations (<[line := sf_item]> (cachedLocations f)) f) in
    let interested := Z.lor (holder sf_item) (requested sf_item) in
    let f := set_stats (count_request is_hit interested (stats f)) (set_retryItem sf_item f) in
    let! f :=
      (if negb allocate then Ok f
       else let! item := request_item cpkt req_port sf_item in
            Ok (set_cachedLocations (<[line := item]> (cachedLocations f)) f)) in
    let! ports := maskToPortList f (Z.land interested (mask_not req_port)) in
    Ok (f, snoopSelected ports (lookupLatency f)).

(** [void finishRequest(bool will_retry, Addr addr, bool is_secure)]. *)
Definition finishRequest (will_retry : bool) (a : Z) (is_secure : bool) (f : SnoopFilter)
    : outcome SnoopFilter :=
  match it f with
  | None => Ok f
  | Some k =>
      let block := Z.land a (wnot 64 (u64 (linesize f - 1))) in
      do! assert_ (k =? if is_secure then Z.lor block 1 else block) then
      let f := if will_retry
               then set_cachedLocations (<[k := retryItem f]> (cachedLocations f)) f else f in
      eraseIfNullEntry k f
  end.

(** [std::pair<SnoopList, Cycles> lookupSnoop(const Packet* cpkt)]. *)
Definition lookupSnoop (cpkt : Packet) (f : SnoopFilter)
    : outcome (SnoopFilter * (list ResponsePort * Z)) :=
  do! assert_ (isRequest (cmd cpkt)) then
  let! line := line_addr f cpkt in
  let sf_it := cachedLocations f !! line in
  let is_hit := bool_decide (is_Some sf_it) in
  do! panic_if (negb is_hit && (maxEntryCount f <=? Z.of_nat (size (cachedLocations f)))) then
  match sf_it with
  | None => Ok (f, snoopDown (lookupLatency f))
  | Some sf_item =>
      let interested := Z.lor (holder sf_item) (requested sf_item) in
      let f := set_stats (count_snoop interested (stats f)) f in
      let! consistent :=
        (if isWriteback (cmd cpkt) || isUncacheable (req cpkt) then Ok true
         else let! w := needsWritable cpkt in
              Ok (eqb (isInvalidate (cmd cpkt)) w || isCacheMaintenance (req cpkt))) in
      do! assert_ consistent then
      let! f :=
        (if isInvalidate (cmd cpkt) && mask_none (requested sf_item) then
           eraseIfNullEntry line
             (set_cachedLocations (<[line := set_holder 0 sf_item]> (cachedLocations f)) f)
         else Ok f) in
      let! ports := maskToPortList f interested in
      Ok (f, snoopSelected ports (lookupLatency f))
  end.

(** [void updateSnoopResponse(const Packet* cpkt, const ResponsePort& rsp_port, const
    ResponsePort& req_port)]; [operator[]] makes the entry when there is none. *)
Definition updateSnoopResponse (cpkt : Packet) (rsp_port req_port : ResponsePort) (f : SnoopFilter)
    : outcome SnoopFilter :=
  do! assert_ (isResponse (cmd cpkt)) then
  do! assert_ (cacheResponding cpkt) then
  if isUncacheable (req cpkt) || negb (isSnooping req_port) then Ok f
  else
    let! line := line_addr f cpkt in
    let! rsp_mask := portToMask f rsp_port in
    let! req_mask := portToMask f req_port in
    let sf_item := default SnoopItem_empty (cachedLocations f !! line) in
    do! panic_if (mask_none (Z.land (holder sf_item) rsp_mask)) then
    do! panic_if (mask_none (Z.land (requested sf_item) req_mask)) then
    let sf_item := if negb (hasSharers cpkt) then set_holder 0 sf_item else sf_item in
    do! assert_ (negb (isWriteback (cmd cpkt))) then
    let sf_item := set_holder (Z.lor (holder sf_item) req_mask) sf_item in
    let sf_item := set_requested (Z.land (requested sf_item) (mask_not req_mask)) sf_item in
    do! assert_ (mask_any (Z.lor (requested sf_item) (holder sf_item))) then
    Ok (set_cachedLocations (<[line := sf_item]> (cachedLocations f)) f).

(** [void updateSnoopForward(const Packet* cpkt, const ResponsePort& rsp_port, const
    RequestPort& req_port)]; the ports are only printed. *)
Definition updateSnoopForward (cpkt : Packet) (f : SnoopFilter) : outcome SnoopFilter :=
  do! assert_ (isResponse (cmd cpkt)) then
  do! assert_ (cacheResponding cpkt) then
  let! line := line_addr f cpkt in
  match cachedLocations f !! line with
  | None => Ok f
  | Some sf_item =>
      if negb (hasSharers cpkt) then
        eraseIfNullEntry line
          (set_cachedLocations (<[line := set_holder 0 sf_item]> (cachedLocations f)) f)
      else Ok f
  end.

(** [void updateResponse(const Packet* cpkt, const ResponsePort& cpu_side_port)]. *)
Definition updateResponse (cpkt : Packet) (cpu_side_port : ResponsePort) (f : SnoopFilter)
    : outcome SnoopFilter :=
  do! assert_ (isResponse (cmd cpkt)) then
  if isUncacheable (req cpkt) || negb (isSnooping cpu_side_port) then Ok f
  else
    let! line := line_addr f cpkt in
    match cachedLocations f !! line with
    | None => Ok f
    | Some sf_item =>
        let! response_mask := portToMask f cpu_side_port in
        do! panic_if (mask_none (Z.land (requested sf_item) response_mask)) then
        let sf_item := set_requested (Z.land (requested sf_item) (mask_not response_mask)) sf_item in
        if isCacheMaintenance (req cpkt) then
          let sf_item := if isInvalidate (cmd cpkt)
                         then set_holder (Z.land (holder sf_item) (mask_not response_mask)) sf_item
                         else sf_item in
          eraseIfNullEntry line (set_cachedLocations (<[line := sf_item]> (cachedLocations f)) f)
        else
          let sf_item := set_holder (Z.lor (holder sf_item) response_mask) sf_item in
          do! assert_ (mask_any (Z.lor (holder sf_item) (requested sf_item))) then
          Ok (set_cachedLocations (<[line := sf_item]> (cachedLocations f)) f)
    end.

(** The predicates of packets are not computed in proofs. *)
#[local] Arguments isInvalidate : simpl never.
#[local] Arguments isEviction : simpl never.
#[local] Arguments needsResponse : simpl never.
#[local] Arguments isResponse : simpl never.
#[local] Arguments isRequest : simpl never.
#[local] Arguments isWriteback : simpl never.
#[local] Arguments cmd_needsWritable : simpl never.
#[local] Arguments fromCache : simpl never.
#[local] Arguments hasSharers : simpl never.
#[local] Arguments isBlockCached : simpl never.
#[local] Arguments cacheResponding : simpl never.
#[local] Arguments isCacheMaintenance : simpl never.
#[local] Arguments isUncacheable : simpl never.

(** * The numbering of the ports *)

(** The tracked ports are numbered by their place in the list. *)
Record ports_wf (f : SnoopFilter) : Prop := {
  pw_count : Z.of_nat (length (cpuSidePorts f)) <= SNOOP_MASK_SIZE;
  pw_number : forall k p, cpuSidePorts f !! k = Some p ->
    isSnooping p = true /\ 0 <= getId p /\
    localResponsePortIds f !! Z.to_nat (getId p) = Some (Z.of_nat k);
}.

(** The number of a port, and membership of a mask. *)
Definition bit_of (f : SnoopFilter) (p : ResponsePort) : Z :=
  default (-1) (localResponsePortIds f !! Z.to_nat (getId p)).
Definition in_mask (f : SnoopFilter) (m : Z) (p : ResponsePort) : bool := Z.testbit m (bit_of f p).
Definition tracked (f : SnoopFilter) (p : ResponsePort) : Prop := p ∈ cpuSidePorts f.
#[export] Instance tracked_dec f p : Decision (tracked f p).
Proof. unfold tracked. apply _. Defined.

Lemma any_pow2 m k : 0 <= k -> mask_any (Z.land m (2 ^ k)) = Z.testbit m k.
Proof.
  intros Hk. unfold mask_any, truthy. destruct (Z.testbit m k) eqn:E.
  - destruct (Z.eqb_spec (Z.land m (2 ^ k)) 0) as [H |]; [| done].
    apply (f_equal (fun x => Z.testbit x k)) in H.
    rewrite Z.land_spec, E, Z.pow2_bits_true, Z.bits_0 in H by lia. done.
  - replace (Z.land m (2 ^ k)) with 0; [done |]. symmetry. apply Z.bits_inj'. intros i Hi.
    rewrite Z.land_spec, Z.pow2_bits_eqb, Z.bits_0 by lia.
    destruct (Z.eqb_spec k i) as [<- |]; [by rewrite E | apply andb_false_r].
Qed.

Lemma none_pow2 m k : 0 <= k -> mask_none (Z.land m (2 ^ k)) = negb (Z.testbit m k).
Proof. intros. rewrite <- any_pow2 by done. done. Qed.

Lemma tracked_bit f p : ports_wf f -> tracked f p ->
  isSnooping p = true /\ 0 <= getId p /\ 0 <= bit_of f p < Z.of_nat (length (cpuSidePorts f)) /\
  cpuSidePorts f !! Z.to_nat (bit_of f p) = Some p.
Proof.
  intros [Hc Hn] Hp. apply list_elem_of_lookup in Hp as [k Hk].
  destruct (Hn k p Hk) as (Hs & Hi & He). unfold bit_of. rewrite He. cbn.
  apply lookup_lt_Some in Hk as Hlt. rewrite Nat2Z.id. split_and!; auto; lia.
Qed.

Lemma tracked_mask f p : ports_wf f -> tracked f p -> portToMask f p = Ok (2 ^ bit_of f p).
Proof.
  intros Hw Hp. destruct (tracked_bit f p Hw Hp) as (Hs & Hi & Hb & _). destruct Hw as [Hc Hn].
  apply list_elem_of_lookup in Hp as [k Hk]. destruct (Hn k p Hk) as (_ & _ & He).
  unfold portToMask, bit_of in *. rewrite Hs, He in *. cbn in Hb |- *. unfold InvalidPortID in *.
  destruct (Z.eqb_spec (getId p) (-1)); [lia |]. cbn.
  destruct (Z.ltb_spec (getId p) 0); [lia |].
  destruct (Z.leb_spec 0 (Z.of_nat k)), (Z.ltb_spec (Z.of_nat k) SNOOP_MASK_SIZE); try lia. done.
Qed.

Lemma bit_of_inj f p q : ports_wf f -> tracked f p -> tracked f q -> bit_of f p = bit_of f q -> p = q.
Proof.
  intros Hw Hp Hq E. destruct (tracked_bit f p Hw Hp) as (_ & _ & _ & Ep).
  destruct (tracked_bit f q Hw Hq) as (_ & _ & _ & Eq). rewrite E in Ep. congruence.
Qed.

Lemma select_ports_ok f m ps : ports_wf f -> (forall p, p ∈ ps -> tracked f p) ->
  select_ports f m ps = Ok (filter (fun p => in_mask f m p = true) ps).
Proof.
  intros Hw. induction ps as [| p ps IH]; intros Hps; [done |]. cbn [select_ports].
  assert (Hp : tracked f p) by (apply Hps; by left).
  destruct (tracked_bit f p Hw Hp) as (_ & _ & Hb & _).
  rewrite (tracked_mask f p Hw Hp). cbn [obind].
  rewrite IH by (intros q Hq; apply Hps; by right). cbn [obind]. rewrite any_pow2 by lia.
  rewrite filter_cons. unfold in_mask. by destruct (Z.testbit m (bit_of f p)).
Qed.

Lemma select_ports_config f g m ps : localResponsePortIds g = localResponsePortIds f ->
  select_ports g m ps = select_ports f m ps.
Proof.
  intros E. induction ps as [| p ps IH]; [done |]. cbn [select_ports]. rewrite IH.
  unfold portToMask. by rewrite E.
Qed.

(** The list of a mask is the ports whose bits it has. *)
Lemma maskToPortList_ok f m : ports_wf f -> exists ps, maskToPortList f m = Ok ps /\
  forall p, p ∈ ps <-> tracked f p /\ in_mask f m p = true.
Proof.
  intros Hw. unfold maskToPortList. rewrite select_ports_ok by auto.
  eexists. split; [reflexivity |]. intros p. rewrite list_elem_of_filter. unfold tracked. tauto.
Qed.

Lemma in_mask_land f a b p : in_mask f (Z.land a b) p = in_mask f a p && in_mask f b p.
Proof. apply Z.land_spec. Qed.
Lemma in_mask_lor f a b p : in_mask f (Z.lor a b) p = in_mask f a p || in_mask f b p.
Proof. apply Z.lor_spec. Qed.

Lemma in_mask_pow2 f p q : ports_wf f -> tracked f p -> tracked f q ->
  in_mask f (2 ^ bit_of f p) q = bool_decide (p = q).
Proof.
  intros Hw Hp Hq. destruct (tracked_bit f p Hw Hp) as (_ & _ & Hb & _). unfold in_mask.
  rewrite Z.pow2_bits_eqb by lia. case_bool_decide as E.
  - subst. apply Z.eqb_refl.
  - apply Z.eqb_neq. intros H. by apply E, (bit_of_inj f).
Qed.

Lemma in_mask_not f m q : ports_wf f -> tracked f q -> in_mask f (mask_not m) q = negb (in_mask f m q).
Proof.
  intros Hw Hq. destruct (tracked_bit f q Hw Hq) as (_ & _ & Hb & _). pose proof (pw_count f Hw).
  unfold in_mask, mask_not. rewrite wnot_testbit by (unfold SNOOP_MASK_SIZE in *; lia).
  destruct (Z.ltb_spec (bit_of f q) SNOOP_MASK_SIZE); [done | lia].
Qed.

(** ** The ports are numbered at start-up *)

(** The numbers given so far. *)
Record numbered (tr : list ResponsePort) (ids : list Z) : Prop := {
  nb_port : forall k p, tr !! k = Some p ->
    isSnooping p = true /\ 0 <= getId p /\ ids !! Z.to_nat (getId p) = Some (Z.of_nat k);
}.

Lemma number_ports_ok ps : forall tr ids,
  numbered tr ids ->
  Forall (fun p => 0 <= getId p < Z.of_nat (length ids)) ps -> NoDup (map getId (tr ++ ps)) ->
  exists tr' ids', number_ports ps (Z.of_nat (length tr)) tr ids
    = Ok (Z.of_nat (length tr'), tr', ids') /\ numbered tr' ids' /\
    tr' = tr ++ filter (fun p => isSnooping p = true) ps.
Proof.
  induction ps as [| p ps IH]; intros tr ids Hn Hf Hd; cbn [number_ports].
  { exists tr, ids. by rewrite app_nil_r. }
  inversion Hf as [| ? ? Hp Hf']; subst. rewrite filter_cons.
  assert (Hd' : NoDup (map getId (tr ++ ps))).
  { rewrite map_app in Hd |- *. cbn in Hd. apply NoDup_app in Hd as (H1 & H2 & H3).
    apply NoDup_app. inversion H3; subst. split_and!; auto. intros x Hx Hx'. eapply H2; [done |]. by right. }
  destruct (isSnooping p) eqn:Hs; [rewrite decide_True by done | rewrite decide_False by done; by apply IH].
  destruct (Z.leb_spec 0 (getId p)), (Z.ltb_spec (getId p) (Z.of_nat (length ids))); try lia. cbn [andb].
  destruct (IH (tr ++ [p]) (<[Z.to_nat (getId p) := Z.of_nat (length tr)]> ids)) as (tr' & ids' & E & Hn' & Etr).
  - constructor. intros k q Hk. destruct (decide (k = length tr)) as [-> | Hne].
    + rewrite lookup_app_r, Nat.sub_diag in Hk by lia. cbn in Hk. simplify_eq.
      split_and!; auto. apply list_lookup_insert_eq. lia.
    + assert (Hlt : (k < length tr)%nat).
      { apply lookup_lt_Some in Hk. rewrite length_app in Hk. cbn in Hk. lia. }
      rewrite lookup_app_l in Hk by done. destruct (nb_port _ _ Hn k q Hk) as (? & ? & Hq).
      split_and!; auto. rewrite list_lookup_insert_ne; [done |].
      intros E. assert (getId p = getId q) as Eg by lia. rewrite map_app in Hd.
      apply NoDup_app in Hd as (_ & Hdis & _). apply (Hdis (getId q)).
      * apply list_elem_of_fmap. exists q. split; [done |]. by eapply list_elem_of_lookup_2.
      * rewrite <- Eg. by left.
  - eapply Forall_impl; [exact Hf' |]. cbn. intros q. by rewrite length_insert.
  - by rewrite <- app_assoc.
  - exists tr', ids'. rewrite length_app in E. cbn in E.
    replace (Z.of_nat (length tr) + 1) with (Z.of_nat (length tr + 1)) by lia.
    rewrite E. split_and!; auto. by rewrite Etr, <- app_assoc.
Qed.

(** C32: given the ports of the crossbar, numbered from zero, the filter tracks the
    snooping ones, in order, each under its own bit of the mask; and it stops the
    simulation exactly when there are more than the mask has bits. *)
Theorem setCPUSidePorts_numbers f ps :
  cpuSidePorts f = [] -> localResponsePortIds f = [] ->
  Forall (fun p => 0 <= getId p < Z.of_nat (length ps)) ps -> NoDup (map getId ps) ->
  let snooping := filter (fun p => isSnooping p = true) ps in
  (Z.of_nat (length snooping) <= SNOOP_MASK_SIZE ->
   exists f', setCPUSidePorts ps f = Ok f' /\ ports_wf f' /\ cpuSidePorts f' = snooping /\
     (forall p, p ∈ snooping -> portToMask f' p = Ok (2 ^ bit_of f' p)) /\
     (forall p q, p ∈ snooping -> q ∈ snooping -> bit_of f' p = bit_of f' q -> p = q) /\
     cachedLocations f' = cachedLocations f) /\
  (SNOOP_MASK_SIZE < Z.of_nat (length snooping) -> setCPUSidePorts ps f = Err Fatal).
Proof.
  intros Hp Hi Hr Hd snooping. unfold setCPUSidePorts. rewrite Hp, Hi.
  destruct (number_ports_ok ps [] (resize (length ps) InvalidPortID [])) as (tr & ids & E & Hn & Etr).
  - constructor. intros k p H. by rewrite lookup_nil in H.
  - by rewrite length_resize.
  - done.
  - cbn [length app] in E, Etr. subst tr. fold snooping in E, Hn. change (Z.of_nat 0) with 0 in E. rewrite E. cbn [obind].
    destruct (Z.ltb_spec SNOOP_MASK_SIZE (Z.of_nat (length snooping))); (split; [intros Hle | intros Hgt; try lia; done]).
    { lia. }
    assert (Hw : ports_wf (set_ports snooping ids f)).
    { split; [done |]. apply Hn. }
    eexists. split; [reflexivity |]. split_and!; [done | done | | | done].
    + intros p Hin. by apply tracked_mask.
    + intros p q Hin Hin'. by apply bit_of_inj.
Qed.

(** * Entries of the map *)

Definition null (i : SnoopItem) : bool := mask_none (Z.lor (requested i) (holder i)).

(** The entry of a line; a line without one has no requesters and holders. *)
Definition entry (m : gmap Z SnoopItem) (l : Z) : SnoopItem := default SnoopItem_empty (m !! l).

(** Writing an entry and erasing it when it is null. *)
Definition put (l : Z) (i : SnoopItem) (m : gmap Z SnoopItem) : gmap Z SnoopItem :=
  if null i then delete l m else <[l := i]> m.

(** The masks have bits of tracked ports only, and no entry is null. *)
Definition item_wf (f : SnoopFilter) (i : SnoopItem) : Prop :=
  in_width (Z.of_nat (length (cpuSidePorts f))) (requested i) /\
  in_width (Z.of_nat (length (cpuSidePorts f))) (holder i).
Definition entries_wf (f : SnoopFilter) : Prop :=
  forall l i, cachedLocations f !! l = Some i -> item_wf f i /\ null i = false.

Record sf_wf (f : SnoopFilter) : Prop := {
  sw_ports : ports_wf f;
  sw_entries : entries_wf f;
  sw_linesize : 0 < linesize f <= 2 ^ 32;
}.

(** Everything but the entries, the iterator and the statistics. *)
Definition same_config (f f' : SnoopFilter) : Prop :=
  cpuSidePorts f' = cpuSidePorts f /\ localResponsePortIds f' = localResponsePortIds f /\
  linesize f' = linesize f /\ maxEntryCount f' = maxEntryCount f.

Lemma null_empty f i : item_wf f i -> null i = true -> i = SnoopItem_empty.
Proof.
  intros [Hr Hh] Hn. unfold null, mask_none, truthy in Hn. rewrite negb_involutive in Hn.
  apply Z.eqb_eq, Z.lor_eq_0_iff in Hn as [? ?]. destruct i; cbn in *; by subst.
Qed.

Lemma entry_put f l i m l' : item_wf f i ->
  entry (put l i m) l' = if decide (l' = l) then i else entry m l'.
Proof.
  intros Hi. unfold entry, put. destruct (null i) eqn:Hn.
  - destruct (decide (l' = l)) as [-> |]; [| by rewrite lookup_delete_ne].
    rewrite lookup_delete_eq. cbn. symmetry. by eapply null_empty.
  - destruct (decide (l' = l)) as [-> |]; [by rewrite lookup_insert_eq | by rewrite lookup_insert_ne].
Qed.

Lemma empty_wf f : item_wf f SnoopItem_empty.
Proof. split; cbn; unfold in_width; split; try lia; apply Z.pow_pos_nonneg; lia. Qed.

Lemma entry_wf f l : sf_wf f -> item_wf f (entry (cachedLocations f) l).
Proof.
  intros [_ He _]. unfold entry. destruct (cachedLocations f !! l) as [i |] eqn:E; [| apply empty_wf].
  by apply (He l i E).
Qed.

Lemma put_entries f f' l i : sf_wf f -> same_config f f' -> item_wf f i ->
  cachedLocations f' = put l i (cachedLocations f) -> sf_wf f'.
Proof.
  intros [Hp He Hl] (E1 & E2 & E3 & E4) Hi Ec. split.
  - destruct Hp as [Hc Hn]. split; rewrite ?E1, ?E2; auto.
  - intros l' i' Hl'. unfold item_wf. rewrite E1. fold (item_wf f i').
    rewrite Ec in Hl'. unfold put in Hl'. destruct (null i) eqn:Hnull.
    + apply lookup_delete_Some in Hl' as [_ Hl']. by apply (He l').
    + apply lookup_insert_Some in Hl' as [[<- <-] | [_ Hl']]; [done | by apply (He l')].
  - by rewrite E3.
Qed.

(** [eraseIfNullEntry] after a write is [put]. *)
Lemma erase_put l i f :
  eraseIfNullEntry l (set_cachedLocations (<[l := i]> (cachedLocations f)) f)
  = Ok (set_cachedLocations (put l i (cachedLocations f)) f).
Proof.
  unfold eraseIfNullEntry, put, null. cbn [cachedLocations set_cachedLocations].
  rewrite lookup_insert_eq. destruct (mask_none _); [| done].
  f_equal. unfold set_cachedLocations. cbn. f_equal. apply delete_insert_eq.
Qed.

(** Writing back what is there changes nothing. *)
Lemma put_same f l : sf_wf f -> put l (entry (cachedLocations f) l) (cachedLocations f) = cachedLocations f.
Proof.
  intros [_ He _]. unfold put, entry. destruct (cachedLocations f !! l) as [i |] eqn:E; cbn.
  - destruct (He l i E) as [_ ->]. by apply insert_id.
  - change (null SnoopItem_empty) with true. by apply delete_id.
Qed.

Lemma pow2_wf f p : ports_wf f -> tracked f p ->
  in_width (Z.of_nat (length (cpuSidePorts f))) (2 ^ bit_of f p).
Proof.
  intros Hw Hp. destruct (tracked_bit f p Hw Hp) as (_ & _ & Hb & _). unfold in_width.
  split; [lia |]. apply Z.pow_lt_mono_r; lia.
Qed.

(** * What the operations do *)

(** A port a request can come from: a tracked one, or one that does not snoop. *)
Definition source_ok (f : SnoopFilter) (p : ResponsePort) : Prop :=
  tracked f p \/ (isSnooping p = false /\ getId p <> InvalidPortID).
Definition source_mask (f : SnoopFilter) (p : ResponsePort) : Z :=
  if isSnooping p then 2 ^ bit_of f p else 0.

Lemma source_port f p : ports_wf f -> source_ok f p -> portToMask f p = Ok (source_mask f p).
Proof.
  intros Hw [Hp | [Hs Hi]]; unfold source_mask.
  - destruct (tracked_bit f p Hw Hp) as (-> & _). by apply tracked_mask.
  - rewrite Hs. unfold portToMask. rewrite Hs. destruct (Z.eqb_spec (getId p) InvalidPortID); done.
Qed.

Lemma source_in_mask f p q : ports_wf f -> source_ok f p -> tracked f q ->
  in_mask f (source_mask f p) q = bool_decide (p = q).
Proof.
  intros Hw Hp Hq. unfold source_mask. destruct (tracked_bit f q Hw Hq) as (Hs & _).
  destruct Hp as [Hp | [Hns _]].
  - destruct (tracked_bit f p Hw Hp) as (-> & _). by apply in_mask_pow2.
  - rewrite Hns. unfold in_mask. rewrite Z.bits_0. case_bool_decide; congruence.
Qed.

(** Who is to be snooped: the ports, except the source, with the line or a request
    for it. *)
Definition interested (f : SnoopFilter) (l : Z) (q : ResponsePort) : Prop :=
  tracked f q /\
  (in_mask f (holder (entry (cachedLocations f) l)) q = true \/
   in_mask f (requested (entry (cachedLocations f) l)) q = true).

Definition allocates (pkt : Packet) (p : ResponsePort) : bool :=
  negb (isUncacheable (req pkt)) && isSnooping p && fromCache (cmd pkt).

(** The entry after an accepted request. *)
Definition requested_item (f : SnoopFilter) (pkt : Packet) (p : ResponsePort) (i : SnoopItem)
    : outcome SnoopItem :=
  if allocates pkt p then request_item pkt (source_mask f p) i else Ok i.

(** The key that [finishRequest] checks is the one that [lookupRequest] used. *)
Lemma line_key f pkt l : 0 < linesize f <= 2 ^ 32 -> line_addr f pkt = Ok l ->
  (l =? (if _isSecure pkt then Z.lor (Z.land (addr pkt) (wnot 64 (u64 (linesize f - 1)))) 1
         else Z.land (addr pkt) (wnot 64 (u64 (linesize f - 1))))) = true.
Proof.
  intros Hl H. unfold line_addr, getBlockAddr, getAddr, isSecure in H. obind_inv.
  rewrite !wrap_small by (unfold in_width; lia). apply Z.eqb_refl.
Qed.

Lemma config_set_cached f v : same_config f (set_cachedLocations v f).
Proof. done. Qed.

(** The second half of [lookupRequest], and [finishRequest]. *)
Lemma request_tail f f1 pkt p l item : sf_wf f -> source_ok f p -> line_addr f pkt = Ok l ->
  same_config f f1 -> it f1 = Some l -> retryItem f1 = entry (cachedLocations f) l ->
  cachedLocations f1 = <[l := item]> (cachedLocations f) ->
  exists ps,
    maskToPortList f1 (Z.land (Z.lor (holder (entry (cachedLocations f) l))
                                (requested (entry (cachedLocations f) l)))
                         (mask_not (source_mask f p))) = Ok ps /\
    (forall q, q ∈ ps <-> q <> p /\ interested f l q) /\
    forall retry, exists f'', finishRequest retry (addr pkt) (_isSecure pkt) f1 = Ok f'' /\
      same_config f f'' /\
      cachedLocations f'' = put l (if retry then entry (cachedLocations f) l else item) (cachedLocations f).
Proof.
  intros Hwf Hp Hl Hcfg Hit Hre Hc. pose proof (sw_ports f Hwf) as Hw.
  pose proof Hcfg as (E1 & E2 & E3 & E4).
  assert (Hw1 : ports_wf f1) by (destruct Hw; split; rewrite ?E1, ?E2; auto).
  destruct (maskToPortList_ok f1 (Z.land (Z.lor (holder (entry (cachedLocations f) l))
    (requested (entry (cachedLocations f) l))) (mask_not (source_mask f p))) Hw1) as (ps & -> & Hps).
  exists ps. split_and!; [done | |].
  - intros q. rewrite Hps. unfold interested.
    assert (Et : tracked f1 q <-> tracked f q) by (unfold tracked; by rewrite E1). rewrite Et.
    assert (Eb : forall m, in_mask f1 m q = in_mask f m q) by (intros; unfold in_mask, bit_of; by rewrite E2).
    rewrite Eb, in_mask_land, in_mask_lor. destruct (decide (tracked f q)) as [Hq | Hq]; [| tauto].
    rewrite in_mask_not, source_in_mask, andb_true_iff, orb_true_iff, negb_true_iff, bool_decide_eq_false by done.
    split; [intros (_ & H & Hne) | intros (Hne & _ & H)]; split_and!; auto.
  - intros retry. unfold finishRequest. rewrite Hit, E3, (line_key f pkt l (sw_linesize f Hwf) Hl). cbn [assert_ obind].
    destruct retry.
    + rewrite erase_put. eexists. split; [reflexivity |]. split; [done |]. cbn.
      rewrite Hc, Hre. unfold put. destruct (null _); [apply delete_insert_eq | apply insert_insert_eq].
    + replace f1 with (set_cachedLocations (<[l := item]> (cachedLocations f)) f1)
        by (rewrite <- Hc; by destruct f1).
      unfold eraseIfNullEntry, put, null. cbn. rewrite lookup_insert_eq. destruct (mask_none _).
      * eexists. split; [reflexivity |]. split; [done |]. cbn. apply delete_insert_eq.
      * eexists. split; [reflexivity |]. split; [done |]. done.
Qed.

Lemma lookupRequest_ok f pkt p l : sf_wf f -> source_ok f p -> line_addr f pkt = Ok l ->
  match requested_item f pkt p (entry (cachedLocations f) l) with
  | Err e => lookupRequest pkt p f = Err e
  | Ok item => exists f' ps, lookupRequest pkt p f = Ok (f', (ps, lookupLatency f)) /\
      (forall q, q ∈ ps <-> q <> p /\ interested f l q) /\
      forall retry, exists f'', finishRequest retry (addr pkt) (_isSecure pkt) f' = Ok f'' /\
        same_config f f'' /\
        cachedLocations f'' = put l (if retry then entry (cachedLocations f) l else item) (cachedLocations f)
  end.
Proof.
  intros Hwf Hp Hl. pose proof (sw_ports f Hwf) as Hw. unfold lookupRequest, requested_item.
  rewrite Hl, (source_port f p Hw Hp). cbn [obind]. fold (allocates pkt p).
  fold (entry (cachedLocations f) l).
  set (hit := bool_decide (is_Some (cachedLocations f !! l))).
  destruct (negb hit && negb (allocates pkt p)) eqn:Hnone.
  { apply andb_true_iff in Hnone as [Hhit Ha]. apply negb_true_iff in Hhit, Ha. rewrite Ha.
    apply bool_decide_eq_false in Hhit. rewrite <- eq_None_not_Some in Hhit.
    eexists _, _. split; [reflexivity |]. split.
    - intros q. unfold interested, entry. rewrite Hhit. cbn. split; [by intros ?%not_elem_of_nil |].
      unfold in_mask. rewrite !Z.bits_0. by intros (_ & _ & [? | ?]).
    - intros retry. exists (set_it None f). split_and!; [done | done |]. cbn.
      destruct retry; by rewrite put_same. }
  set (f0 := set_stats _ _).
  assert (Hmain : forall item f1, same_config f f1 -> it f1 = Some l ->
    retryItem f1 = entry (cachedLocations f) l -> lookupLatency f1 = lookupLatency f ->
    cachedLocations f1 = <[l := item]> (cachedLocations f) ->
    exists f' ps, (let! ports := maskToPortList f1 (Z.land (Z.lor (holder (entry (cachedLocations f) l))
        (requested (entry (cachedLocations f) l))) (mask_not (source_mask f p))) in
      Ok (f1, snoopSelected ports (lookupLatency f1))) = Ok (f', (ps, lookupLatency f)) /\
      (forall q, q ∈ ps <-> q <> p /\ interested f l q) /\
      forall retry, exists f'', finishRequest retry (addr pkt) (_isSecure pkt) f' = Ok f'' /\
        same_config f f'' /\
        cachedLocations f'' = put l (if retry then entry (cachedLocations f) l else item) (cachedLocations f)).
  { intros item f1 H1 H2 H3 H4 H5.
    destruct (request_tail f f1 pkt p l item) as (ps & -> & Hps & Hfin); auto.
    exists f1, ps. cbn [obind]. unfold snoopSelected. by rewrite H4. }
  destruct (allocates pkt p); cbn [negb].
  - destruct (request_item pkt (source_mask f p) (entry (cachedLocations f) l)) as [item | e]; [| done].
    cbn [obind]. apply Hmain; try done. cbn. apply insert_insert_eq.
  - cbn [obind]. by apply Hmain.
Qed.

(** C31: a lookup that the caller has to retry leaves no trace: after
    [finishRequest] with [will_retry] the filter maps every line to what it did
    before the lookup, whatever the request was. *)
Theorem retry_undoes f pkt p f' res : sf_wf f -> source_ok f p ->
  lookupRequest pkt p f = Ok (f', res) ->
  exists f'', finishRequest true (addr pkt) (_isSecure pkt) f' = Ok f'' /\
    cachedLocations f'' = cachedLocations f /\ sf_wf f''.
Proof.
  intros Hwf Hp H. assert (exists l, line_addr f pkt = Ok l) as [l Hl].
  { unfold lookupRequest in H. apply obind_Ok in H as (l & ? & _). eauto. }
  pose proof (lookupRequest_ok f pkt p l Hwf Hp Hl) as Hlk.
  destruct (requested_item _ _ _ _); [| congruence].
  destruct Hlk as (f1 & ps & E & _ & Hfin). rewrite E in H. simplify_eq.
  destruct (Hfin true) as (f'' & ? & Hcfg & Hc). exists f''. rewrite put_same in Hc by done.
  split_and!; [done | done |]. eapply (put_entries f f'' l (entry (cachedLocations f) l)); auto.
  - by apply entry_wf.
  - by rewrite put_same.
Qed.

(** The filter after a snoop from below. *)
Lemma lookupSnoop_ok f pkt l : sf_wf f -> line_addr f pkt = Ok l -> isRequest (cmd pkt) = true ->
  (cachedLocations f !! l = None -> Z.of_nat (size (cachedLocations f)) < maxEntryCount f) ->
  (is_Some (cachedLocations f !! l) -> isWriteback (cmd pkt) || isUncacheable (req pkt) ||
   eqb (isInvalidate (cmd pkt)) (cmd_needsWritable (cmd pkt)) || isCacheMaintenance (req pkt) = true) ->
  exists f' ps, lookupSnoop pkt f = Ok (f', (ps, lookupLatency f)) /\ same_config f f' /\
    (forall q, q ∈ ps <-> interested f l q) /\
    cachedLocations f' = put l (if isInvalidate (cmd pkt) && mask_none (requested (entry (cachedLocations f) l))
                                then set_holder 0 (entry (cachedLocations f) l)
                                else entry (cachedLocations f) l) (cachedLocations f).
Proof.
  intros Hwf Hl Hr Hcap Hcons. pose proof (sw_ports f Hwf) as Hw. unfold lookupSnoop.
  rewrite Hr, Hl. cbn [assert_ obind].
  pose proof (put_same f l Hwf) as Hsame. unfold interested, entry in *.
  destruct (cachedLocations f !! l) as [i |] eqn:E; cbn [default from_option id] in *.
  2: { rewrite bool_decide_eq_false_2 by (by intros [? ?]). destruct (Z.leb_spec (maxEntryCount f) (Z.of_nat (size (cachedLocations f)))).
       { specialize (Hcap eq_refl). lia. }
       cbn [negb andb panic_if obind]. eexists f, []. split; [done |]. split; [done |]. split.
       - intros q. cbn. unfold in_mask. rewrite Z.bits_0. split; [by intros ?%not_elem_of_nil |]. by intros (_ & [? | ?]).
       - destruct (isInvalidate (cmd pkt)); exact (eq_sym Hsame). }
  rewrite bool_decide_eq_true_2 by eauto. cbn [negb andb panic_if obind].
  assert (Hc : (if isWriteback (cmd pkt) || isUncacheable (req pkt) then Ok true
     else let! w := needsWritable pkt in
          Ok (eqb (isInvalidate (cmd pkt)) w || isCacheMaintenance (req pkt))) = Ok true).
  { unfold needsWritable. rewrite Hr. cbn [assert_ obind]. destruct (isWriteback _ || isUncacheable _); [done |].
    f_equal. apply Hcons. by eexists. }
  rewrite Hc. cbn [assert_ obind]. set (f0 := set_stats _ f).
  destruct (maskToPortList_ok f (Z.lor (holder i) (requested i)) Hw) as (ps & Hps & Hin).
  assert (Hports : forall g, cpuSidePorts g = cpuSidePorts f -> localResponsePortIds g = localResponsePortIds f ->
    maskToPortList g (Z.lor (holder i) (requested i)) = Ok ps).
  { intros g E1 E2. rewrite <- Hps. unfold maskToPortList. rewrite E1. by apply select_ports_config. }
  assert (Htargets : forall q, q ∈ ps <-> tracked f q /\ (in_mask f (holder i) q = true \/ in_mask f (requested i) q = true)).
  { intros q. by rewrite Hin, in_mask_lor, orb_true_iff. }
  destruct (isInvalidate (cmd pkt) && mask_none (requested i)).
  - rewrite erase_put. cbn [obind]. rewrite Hports by done. cbn [obind].
    eexists _, ps. split; [reflexivity |]. split; [done |]. split; [exact Htargets | done].
  - cbn [obind]. rewrite Hports by done. cbn [obind].
    eexists _, ps. split; [reflexivity |]. split; [done |]. split; [exact Htargets |]. by rewrite Hsame.
Qed.

(** A set bit of a mask makes an entry that is not null. *)
Lemma not_null f i p : in_mask f (holder i) p = true \/ in_mask f (requested i) p = true -> null i = false.
Proof.
  unfold null, mask_none, truthy, in_mask. intros H. rewrite negb_involutive. apply Z.eqb_neq.
  intros E. apply Z.lor_eq_0_iff in E as [E1 E2]. rewrite E1, E2, !Z.bits_0 in H. by destruct H.
Qed.

(** The entry after a response. *)
Definition responded_item (f : SnoopFilter) (pkt : Packet) (p : ResponsePort) (i : SnoopItem) : SnoopItem :=
  let keep := mask_not (2 ^ bit_of f p) in
  mkSnoopItem (Z.land (requested i) keep)
    (if isCacheMaintenance (req pkt)
     then if isInvalidate (cmd pkt) then Z.land (holder i) keep else holder i
     else Z.lor (holder i) (2 ^ bit_of f p)).

Lemma updateResponse_ok f pkt p l : sf_wf f -> tracked f p -> line_addr f pkt = Ok l ->
  isResponse (cmd pkt) = true -> isUncacheable (req pkt) = false ->
  in_mask f (requested (entry (cachedLocations f) l)) p = true ->
  exists f', updateResponse pkt p f = Ok f' /\ same_config f f' /\
    cachedLocations f' = put l (responded_item f pkt p (entry (cachedLocations f) l)) (cachedLocations f).
Proof.
  intros Hwf Hp Hl Hr Hu Hreq. pose proof (sw_ports f Hwf) as Hw. unfold updateResponse.
  destruct (tracked_bit f p Hw Hp) as (Hs & _ & Hb & _).
  rewrite Hr, Hu, Hs, Hl. cbn [assert_ obind orb negb]. unfold entry in *.
  destruct (cachedLocations f !! l) as [i |] eqn:E; cbn [default from_option id] in *.
  2: { cbn in Hreq. unfold in_mask in Hreq. by rewrite Z.bits_0 in Hreq. }
  rewrite (tracked_mask f p Hw Hp). cbn [obind]. rewrite none_pow2 by lia.
  fold (in_mask f (requested i) p). rewrite Hreq. cbn [negb panic_if obind]. unfold responded_item.
  destruct (isCacheMaintenance (req pkt)).
  - rewrite erase_put. eexists. split; [reflexivity |]. split; [done |].
    by destruct (isInvalidate (cmd pkt)).
  - assert (Hn : null (mkSnoopItem (Z.land (requested i) (mask_not (2 ^ bit_of f p)))
                         (Z.lor (holder i) (2 ^ bit_of f p))) = false).
    { apply (not_null f _ p). left. cbn. rewrite in_mask_lor, in_mask_pow2, bool_decide_true by done. apply orb_true_r. }
    cbn [set_requested set_holder requested holder]. unfold null in Hn. cbn [requested holder] in Hn.
    rewrite Z.lor_comm. unfold mask_none in Hn. apply negb_false_iff in Hn. unfold mask_any. rewrite Hn.
    cbn [assert_ obind]. eexists. split; [reflexivity |]. split; [done |].
    unfold put, null. cbn [requested holder cachedLocations set_cachedLocations].
    unfold mask_none. by rewrite Hn.
Qed.

(** The entry after a snoop response that answers a request. *)
Definition snoop_responded_item (f : SnoopFilter) (pkt : Packet) (p : ResponsePort) (i : SnoopItem) : SnoopItem :=
  mkSnoopItem (Z.land (requested i) (mask_not (2 ^ bit_of f p)))
    (Z.lor (if hasSharers pkt then holder i else 0) (2 ^ bit_of f p)).

Lemma updateSnoopResponse_ok f pkt rsp p l : sf_wf f -> tracked f rsp -> tracked f p ->
  line_addr f pkt = Ok l -> isResponse (cmd pkt) = true -> cacheResponding pkt = true ->
  isUncacheable (req pkt) = false ->
  in_mask f (holder (entry (cachedLocations f) l)) rsp = true ->
  in_mask f (requested (entry (cachedLocations f) l)) p = true ->
  exists f', updateSnoopResponse pkt rsp p f = Ok f' /\ same_config f f' /\
    cachedLocations f' = put l (snoop_responded_item f pkt p (entry (cachedLocations f) l)) (cachedLocations f).
Proof.
  intros Hwf Hrsp Hp Hl Hr Hcr Hu Hh Hreq. pose proof (sw_ports f Hwf) as Hw. unfold updateSnoopResponse.
  destruct (tracked_bit f p Hw Hp) as (Hs & _ & Hb & _). destruct (tracked_bit f rsp Hw Hrsp) as (_ & _ & Hb' & _).
  rewrite Hr, Hcr, Hu, Hs, Hl, (tracked_mask f p Hw Hp), (tracked_mask f rsp Hw Hrsp). cbn [assert_ obind orb negb].
  fold (entry (cachedLocations f) l). set (i := entry _ _) in *. rewrite !none_pow2 by lia.
  fold (in_mask f (holder i) rsp) (in_mask f (requested i) p). rewrite Hh, Hreq. cbn [negb panic_if obind].
  assert (isWriteback (cmd pkt) = false) as ->.
  { clear -Hr. revert Hr. destruct (cmd pkt); by vm_compute. }
  cbn [negb assert_ obind].
  assert (Hn : null (snoop_responded_item f pkt p i) = false).
  { apply (not_null f _ p). left. cbn. rewrite in_mask_lor, in_mask_pow2, bool_decide_true by done. apply orb_true_r. }
  assert (Hi : forall j, holder j = (if hasSharers pkt then holder i else 0) -> requested j = requested i ->
    set_requested (Z.land (requested (set_holder (Z.lor (holder j) (2 ^ bit_of f p)) j)) (mask_not (2 ^ bit_of f p)))
      (set_holder (Z.lor (holder j) (2 ^ bit_of f p)) j) = snoop_responded_item f pkt p i).
  { intros j E1 E2. unfold snoop_responded_item, set_requested, set_holder. cbn. by rewrite E1, E2. }
  rewrite Hi by (by destruct (hasSharers pkt)).
  unfold null, mask_none in Hn. apply negb_false_iff in Hn. unfold mask_any. rewrite Hn. cbn [assert_ obind].
  eexists. split; [reflexivity |]. split; [done |]. cbn [cachedLocations set_cachedLocations].
  unfold put, null, mask_none. by rewrite Hn.
Qed.

Lemma updateSnoopForward_ok f pkt l : sf_wf f -> line_addr f pkt = Ok l ->
  isResponse (cmd pkt) = true -> cacheResponding pkt = true ->
  exists f', updateSnoopForward pkt f = Ok f' /\ same_config f f' /\
    cachedLocations f' = put l (if hasSharers pkt then entry (cachedLocations f) l
                                else set_holder 0 (entry (cachedLocations f) l)) (cachedLocations f).
Proof.
  intros Hwf Hl Hr Hcr. unfold updateSnoopForward. rewrite Hr, Hcr, Hl. cbn [assert_ obind].
  pose proof (put_same f l Hwf) as Hsame. unfold entry in *.
  destruct (cachedLocations f !! l) as [i |] eqn:E; cbn [default from_option id] in *.
  - destruct (hasSharers pkt); cbn [negb].
    + exists f. by rewrite Hsame.
    + rewrite erase_put. eexists. by split_and!.
  - exists f. split_and!; [done | done |]. destruct (hasSharers pkt); exact (eq_sym Hsame).
Qed.

(** * The filter among its caches *)

(** The filter with what it stands for: the requests in flight and the ports whose
    caches have a line (or owe a response with its data), by line. *)
Record system : Type := mkSystem {
  flt : SnoopFilter;
  pending : Z -> ResponsePort -> Prop;
  present : Z -> ResponsePort -> Prop;
}.

(** The calls a crossbar makes; a request is looked up and finished. *)
Inductive event : Type :=
  | Request (pkt : Packet) (p : ResponsePort) (retry : bool)
  | Evict (pkt : Packet) (p : ResponsePort) (retry : bool)
  | Access (pkt : Packet) (p : ResponsePort) (retry : bool)
  | Response (pkt : Packet) (p : ResponsePort)
  | Snoop (pkt : Packet)
  | SnoopResponse (pkt : Packet) (rsp p : ResponsePort)
  | SnoopForward (pkt : Packet).

Definition event_pkt (ev : event) : Packet :=
  match ev with
  | Request pkt _ _ | Evict pkt _ _ | Access pkt _ _ | Response pkt _ | Snoop pkt
  | SnoopResponse pkt _ _ | SnoopForward pkt => pkt
  end.

Definition run_request (pkt : Packet) (p : ResponsePort) (retry : bool) (f : SnoopFilter)
    : outcome (SnoopFilter * list ResponsePort) :=
  let! (f, (ps, _)) := lookupRequest pkt p f in
  let! f := finishRequest retry (addr pkt) (_isSecure pkt) f in Ok (f, ps).

Definition run (ev : event) (f : SnoopFilter) : outcome (SnoopFilter * list ResponsePort) :=
  match ev with
  | Request pkt p retry | Evict pkt p retry | Access pkt p retry => run_request pkt p retry f
  | Response pkt p => let! f := updateResponse pkt p f in Ok (f, [])
  | Snoop pkt => let! (f, (ps, _)) := lookupSnoop pkt f in Ok (f, ps)
  | SnoopResponse pkt rsp p => let! f := updateSnoopResponse pkt rsp p f in Ok (f, [])
  | SnoopForward pkt => let! f := updateSnoopForward pkt f in Ok (f, [])
  end.

(** What the caches and the memory below keep to. *)
Definition conforms (s : system) (ev : event) (l : Z) : Prop :=
  match ev with
  | Request pkt p _ => tracked (flt s) p /\ allocates pkt p = true /\ needsResponse (cmd pkt) = true /\
      if cacheResponding pkt then present s l p else ~ pending s l p
  | Evict pkt p _ => tracked (flt s) p /\ allocates pkt p = true /\ isEviction (cmd pkt) = true /\
      present s l p
  | Access pkt p _ => source_ok (flt s) p /\ allocates pkt p = false
  | Response pkt p => tracked (flt s) p /\ isResponse (cmd pkt) = true /\
      isUncacheable (req pkt) = false /\ pending s l p
  | Snoop pkt => isRequest (cmd pkt) = true
  | SnoopResponse pkt rsp p => tracked (flt s) rsp /\ tracked (flt s) p /\ isResponse (cmd pkt) = true /\
      cacheResponding pkt = true /\ isUncacheable (req pkt) = false /\ present s l rsp /\ pending s l p
  | SnoopForward pkt => isResponse (cmd pkt) = true /\ cacheResponding pkt = true
  end.

(** The requests that want a line to write to it and do not invalidate it, or the other way
    round, and are no writebacks. *)
Definition uneven (c : Command) : bool :=
  match c with
  | WriteReq | WriteLineReq | StoreCondReq | StoreCondFailReq | LockedRMWReadReq | LockedRMWWriteReq | SwapReq
  | CleanInvalidReq | FlushReq => true
  | _ => false
  end.

Lemma uneven_spec c : isRequest c = true ->
  isWriteback c || eqb (isInvalidate c) (cmd_needsWritable c) = negb (uneven c).
Proof. by destruct c; vm_compute. Qed.

(** Where a call stops the simulation: a snoop of a line that a full filter does not know,
    and an uneven snoop of a cacheable line that it knows. *)
Definition stops (f : SnoopFilter) (ev : event) (l : Z) : option failure :=
  match ev with
  | Snoop pkt =>
      match cachedLocations f !! l with
      | None => if maxEntryCount f <=? Z.of_nat (size (cachedLocations f)) then Some Panic else None
      | Some _ => if uneven (cmd pkt) && negb (isUncacheable (req pkt)) && negb (isCacheMaintenance (req pkt)) then Some AssertFail else None
      end
  | _ => None
  end.

Definition pending_after (s : system) (ev : event) (l l' : Z) (q : ResponsePort) : Prop :=
  match ev with
  | Request pkt p false =>
      pending s l' q \/ (cacheResponding pkt = false /\ l' = l /\ q = p)
  | Response _ p | SnoopResponse _ _ p => pending s l' q /\ ~ (l' = l /\ q = p)
  | _ => pending s l' q
  end.

(** Who can have a line afterwards: a response brings it, and caches lose lines when
    they say so, when an invalidating snoop reaches them, and when a response
    says that nobody shares the line.  Caches may drop lines at any time. *)
Definition allowed (s : system) (ev : event) (l : Z) (ps : list ResponsePort)
    (after : Z -> ResponsePort -> Prop) : Prop :=
  (forall l' q, after l' q -> present s l' q \/
     match ev with
     | Response pkt p => isCacheMaintenance (req pkt) = false /\ l' = l /\ q = p
     | SnoopResponse _ _ p => l' = l /\ q = p
     | _ => False
     end) /\
  match ev with
  | Evict pkt p false => isBlockCached pkt = false -> ~ after l p
  | Response pkt p => isCacheMaintenance (req pkt) = true -> isInvalidate (cmd pkt) = true -> ~ after l p
  | Snoop pkt => isInvalidate (cmd pkt) = true -> forall q, q ∈ ps -> ~ after l q
  | SnoopResponse pkt _ p => hasSharers pkt = false -> forall q, q <> p -> ~ after l q
  | SnoopForward pkt => hasSharers pkt = false -> forall q, ~ after l q
  | _ => True
  end.

Inductive step (s : system) (ev : event) (l : Z) (ps : list ResponsePort) : system -> Prop :=
  | step_intro f' after :
      line_addr (flt s) (event_pkt ev) = Ok l -> conforms s ev l ->
      run ev (flt s) = Ok (f', ps) -> allowed s ev l ps after ->
      step s ev l ps (mkSystem f' (pending_after s ev l) after).

Inductive reachable (f0 : SnoopFilter) : system -> Prop :=
  | reach_init s : flt s = f0 -> (forall l p, ~ pending s l p) -> (forall l p, ~ present s l p) ->
      reachable f0 s
  | reach_step s ev l ps s' : reachable f0 s -> step s ev l ps s' -> reachable f0 s'.

(** The filter knows the requests in flight exactly, and a holder for every copy. *)
Record sys_inv (s : system) : Prop := {
  si_wf : sf_wf (flt s);
  si_pending : forall l p, pending s l p <->
    tracked (flt s) p /\ in_mask (flt s) (requested (entry (cachedLocations (flt s)) l)) p = true;
  si_present : forall l p, present s l p ->
    tracked (flt s) p /\ in_mask (flt s) (holder (entry (cachedLocations (flt s)) l)) p = true;
}.

(** The entry of the line after an event. *)
Definition event_item (f : SnoopFilter) (ev : event) (i : SnoopItem) : SnoopItem :=
  match ev with
  | Request pkt p false =>
      if cacheResponding pkt then i else set_requested (Z.lor (requested i) (2 ^ bit_of f p)) i
  | Evict pkt p false =>
      if isBlockCached pkt then i else set_holder (Z.land (holder i) (mask_not (2 ^ bit_of f p))) i
  | Request _ _ true | Evict _ _ true | Access _ _ _ => i
  | Response pkt p => responded_item f pkt p i
  | Snoop pkt => if isInvalidate (cmd pkt) && mask_none (requested i) then set_holder 0 i else i
  | SnoopResponse pkt _ p => snoop_responded_item f pkt p i
  | SnoopForward pkt => if hasSharers pkt then i else set_holder 0 i
  end.

(** The ports to snoop. *)
Definition event_targets (f : SnoopFilter) (ev : event) (l : Z) (q : ResponsePort) : Prop :=
  match ev with
  | Request _ p _ | Evict _ p _ | Access _ p _ => q <> p /\ interested f l q
  | Snoop _ => interested f l q
  | _ => False
  end.

Lemma eviction_no_response c : isEviction c = true -> needsResponse c = false.
Proof. destruct c; by vm_compute. Qed.

Lemma land_item f i m : item_wf f i ->
  item_wf f (set_holder (Z.land (holder i) m) i) /\ item_wf f (set_holder 0 i).
Proof.
  intros [Hr Hh]. destruct (empty_wf f) as [H0 _].
  split; split; cbn; auto. apply land_in_width_l; auto. lia.
Qed.

Lemma event_item_wf f ev i l : sf_wf f -> item_wf f i -> (exists s, flt s = f /\ conforms s ev l) ->
  item_wf f (event_item f ev i).
Proof.
  intros Hwf Hi (s & <- & Hc). pose proof (sw_ports _ Hwf) as Hw. pose proof Hi as [Hr Hh].
  assert (Hp : forall p m, tracked (flt s) p -> in_width (Z.of_nat (length (cpuSidePorts (flt s)))) m ->
    in_width (Z.of_nat (length (cpuSidePorts (flt s)))) (Z.lor m (2 ^ bit_of (flt s) p))).
  { intros p m Hp Hm. apply lor_in_width; [lia | done | by apply pow2_wf]. }
  destruct ev as [pkt p [] | pkt p [] | pkt p ? | pkt p | pkt | pkt rsp p | pkt]; cbn in *; auto.
  - destruct (cacheResponding pkt); [done |]. split; cbn; [apply Hp; tauto | done].
  - destruct (isBlockCached pkt); [done |]. by apply land_item.
  - split; cbn; [apply land_in_width_l; auto; lia |].
    destruct (isCacheMaintenance _); [destruct (isInvalidate _); [apply land_in_width_l; auto; lia | done] |].
    apply Hp; tauto.
  - destruct (isInvalidate _ && _); [by apply (land_item _ _ 0) | done].
  - split; cbn; [apply land_in_width_l; auto; lia |]. apply Hp; [tauto |].
    destruct (hasSharers _); [done | by destruct (empty_wf (flt s))].
  - destruct (hasSharers _); [done | by apply (land_item _ _ 0)].
Qed.

(** An accepted or retried request. *)
Lemma run_request_ok f pkt p l retry item : sf_wf f -> source_ok f p -> line_addr f pkt = Ok l ->
  requested_item f pkt p (entry (cachedLocations f) l) = Ok item ->
  exists f' ps, run_request pkt p retry f = Ok (f', ps) /\ same_config f f' /\
    (forall q, q ∈ ps <-> q <> p /\ interested f l q) /\
    cachedLocations f' = put l (if retry then entry (cachedLocations f) l else item) (cachedLocations f).
Proof.
  intros Hwf Hp Hl Hr. pose proof (lookupRequest_ok f pkt p l Hwf Hp Hl) as H. rewrite Hr in H.
  destruct H as (f' & ps & E & Hps & Hfin). destruct (Hfin retry) as (f'' & E' & Hcfg & Hc).
  exists f'', ps. unfold run_request. rewrite E. cbn [obind]. rewrite E'. cbn [obind]. by split_and!.
Qed.

Lemma run_stops s ev l e : sys_inv s -> line_addr (flt s) (event_pkt ev) = Ok l -> conforms s ev l ->
  stops (flt s) ev l = Some e -> run ev (flt s) = Err e.
Proof.
  intros [Hwf _ _] Hl Hc. destruct ev; try done. cbn [stops run conforms event_pkt] in *. unfold lookupSnoop. rewrite Hc, Hl. cbn [assert_ obind].
  destruct (cachedLocations (flt s) !! l) as [i |] eqn:E.
  - destruct (uneven (cmd pkt)) eqn:Eu, (isUncacheable (req pkt)) eqn:Ec, (isCacheMaintenance (req pkt)) eqn:Em; try done. intros [= <-].
    rewrite bool_decide_eq_true_2 by eauto. cbn [negb andb panic_if obind]. pose proof (uneven_spec _ Hc) as Hu. rewrite Eu in Hu.
    apply orb_false_elim in Hu as [Hw Hi]. unfold needsWritable. by rewrite Hw, Hc; cbn [orb assert_ obind]; rewrite Hi.
  - destruct (_ <=? _) eqn:El; [| done]. intros [= <-]. by rewrite bool_decide_eq_false_2 by (by intros [? ?]).
Qed.

(** Conforming calls succeed. *)
Lemma run_conforming s ev l : sys_inv s -> line_addr (flt s) (event_pkt ev) = Ok l -> conforms s ev l -> stops (flt s) ev l = None ->
  exists f' ps, run ev (flt s) = Ok (f', ps) /\ same_config (flt s) f' /\
    (forall q, q ∈ ps <-> event_targets (flt s) ev l q) /\
    cachedLocations f' = put l (event_item (flt s) ev (entry (cachedLocations (flt s)) l))
                           (cachedLocations (flt s)).
Proof.
  intros [Hwf Hpe Hpr] Hl Hc Hfail. pose proof (sw_ports _ Hwf) as Hw.
  assert (Hreq : forall p, tracked (flt s) p -> source_mask (flt s) p = 2 ^ bit_of (flt s) p /\ 0 <= bit_of (flt s) p).
  { intros p Hp. destruct (tracked_bit _ p Hw Hp) as (Hs & _ & Hb & _). unfold source_mask. rewrite Hs. split; [done | lia]. }
  destruct ev as [pkt p retry | pkt p retry | pkt p retry | pkt p | pkt | pkt rsp p | pkt];
    cbn [event_pkt conforms run event_targets event_item] in *.
  - destruct Hc as (Hp & Ha & Hn & Hcr). destruct (Hreq p Hp) as [Hm Hb].
    assert (Hit : requested_item (flt s) pkt p (entry (cachedLocations (flt s)) l)
      = Ok (event_item (flt s) (Request pkt p false) (entry (cachedLocations (flt s)) l))).
    { unfold requested_item, request_item. rewrite Ha, Hn, Hm, any_pow2, none_pow2 by done. cbn.
      destruct (cacheResponding pkt); cbn.
      - destruct (Hpr l p Hcr) as [_ H]. unfold in_mask in H. by rewrite H.
      - destruct (Z.testbit _ _) eqn:E; [| done]. exfalso. apply Hcr, Hpe. by split. }
    destruct (run_request_ok (flt s) pkt p l retry _ Hwf (or_introl Hp) Hl Hit) as (f' & ps & ? & ? & ? & E).
    exists f', ps. split_and!; auto.
  - destruct Hc as (Hp & Ha & Hn & Hcr). destruct (Hreq p Hp) as [Hm Hb].
    assert (Hit : requested_item (flt s) pkt p (entry (cachedLocations (flt s)) l)
      = Ok (event_item (flt s) (Evict pkt p false) (entry (cachedLocations (flt s)) l))).
    { unfold requested_item, request_item. rewrite Ha, (eviction_no_response _ Hn), Hn, Hm, none_pow2 by done. cbn.
      destruct (Hpr l p Hcr) as [_ H]. unfold in_mask in H. rewrite H. cbn. by destruct (isBlockCached pkt). }
    destruct (run_request_ok (flt s) pkt p l retry _ Hwf (or_introl Hp) Hl Hit) as (f' & ps & ? & ? & ? & E).
    exists f', ps. split_and!; auto.
  - destruct Hc as [Hp Ha].
    destruct (run_request_ok (flt s) pkt p l retry (entry (cachedLocations (flt s)) l) Hwf Hp Hl) as (f' & ps & ? & ? & ? & E).
    { unfold requested_item. by rewrite Ha. }
    exists f', ps. split_and!; auto. rewrite E. by destruct retry.
  - destruct Hc as (Hp & Hr & Hu & Hpend). apply Hpe in Hpend as [_ Hpend].
    destruct (updateResponse_ok (flt s) pkt p l) as (f' & -> & ? & ?); auto.
    exists f', []. split_and!; auto. intros q. split; [by intros ?%not_elem_of_nil | done].
  - cbn [stops] in Hfail. destruct (lookupSnoop_ok (flt s) pkt l) as (f' & ps & -> & ? & ? & ?); [done | done | done | | | exists f', ps; by split_and!].
    + intros E. rewrite E in Hfail. destruct (Z.leb_spec (maxEntryCount (flt s)) (Z.of_nat (size (cachedLocations (flt s))))); done.
    + intros [i E]. rewrite E in Hfail. pose proof (uneven_spec _ Hc) as Hu.
      destruct (uneven (cmd pkt)), (isUncacheable (req pkt)), (isCacheMaintenance (req pkt)); try done; cbn [negb andb] in *;
        rewrite ?orb_true_r, ?orb_false_r in *; done.
  - destruct Hc as (Hrsp & Hp & Hr & Hcr & Hu & Hpres & Hpend). apply Hpe in Hpend as [_ Hpend].
    apply Hpr in Hpres as [_ Hpres].
    destruct (updateSnoopResponse_ok (flt s) pkt rsp p l) as (f' & -> & ? & ?); auto.
    exists f', []. split_and!; auto. intros q. split; [by intros ?%not_elem_of_nil | done].
  - destruct Hc as [Hr Hcr]. destruct (updateSnoopForward_ok (flt s) pkt l) as (f' & -> & ? & ?); auto.
    exists f', []. split_and!; auto. intros q. split; [by intros ?%not_elem_of_nil | done].
Qed.

(** The bits of a tracked port after an event. *)
Definition event_ports (f : SnoopFilter) (ev : event) : Prop :=
  match ev with
  | Request _ p _ | Evict _ p _ | Response _ p | SnoopResponse _ _ p => tracked f p
  | _ => True
  end.

Lemma conforms_ports s ev l : conforms s ev l -> event_ports (flt s) ev.
Proof. destruct ev; cbn; tauto. Qed.

Create Rewrite HintDb snoop_mask.
#[local] Hint Rewrite in_mask_land in_mask_lor : snoop_mask.
#[local] Hint Rewrite in_mask_not in_mask_pow2 using done : snoop_mask.

Lemma event_requested f ev i q : ports_wf f -> event_ports f ev -> tracked f q ->
  in_mask f (requested (event_item f ev i)) q =
  match ev with
  | Request pkt p false => in_mask f (requested i) q || (negb (cacheResponding pkt) && bool_decide (p = q))
  | Response _ p | SnoopResponse _ _ p => in_mask f (requested i) q && negb (bool_decide (p = q))
  | _ => in_mask f (requested i) q
  end.
Proof.
  intros Hw Hp Hq.
  destruct ev as [pkt p [] | pkt p [] | pkt p ? | pkt p | pkt | pkt rsp p | pkt]; cbn in *; try done.
  - destruct (cacheResponding pkt); cbn; autorewrite with snoop_mask; by rewrite ?orb_false_r.
  - by destruct (isBlockCached pkt).
  - by autorewrite with snoop_mask.
  - by destruct (_ && _).
  - by autorewrite with snoop_mask.
  - by destruct (hasSharers pkt).
Qed.

Lemma event_holder f ev i q : ports_wf f -> event_ports f ev -> tracked f q ->
  in_mask f (holder (event_item f ev i)) q =
  match ev with
  | Evict pkt p false => in_mask f (holder i) q && (isBlockCached pkt || negb (bool_decide (p = q)))
  | Response pkt p =>
      if isCacheMaintenance (req pkt)
      then in_mask f (holder i) q && (negb (isInvalidate (cmd pkt)) || negb (bool_decide (p = q)))
      else in_mask f (holder i) q || bool_decide (p = q)
  | Snoop pkt => in_mask f (holder i) q && negb (isInvalidate (cmd pkt) && mask_none (requested i))
  | SnoopResponse pkt _ p => (hasSharers pkt && in_mask f (holder i) q) || bool_decide (p = q)
  | SnoopForward pkt => hasSharers pkt && in_mask f (holder i) q
  | _ => in_mask f (holder i) q
  end.
Proof.
  intros Hw Hp Hq. assert (H0 : in_mask f 0 q = false) by apply Z.bits_0.
  destruct ev as [pkt p [] | pkt p [] | pkt p ? | pkt p | pkt | pkt rsp p | pkt]; cbn in *; try done.
  - by destruct (cacheResponding pkt).
  - destruct (isBlockCached pkt); cbn; autorewrite with snoop_mask; by rewrite ?andb_true_r.
  - destruct (isCacheMaintenance _); [destruct (isInvalidate _) |]; cbn; autorewrite with snoop_mask;
      by rewrite ?andb_true_r.
  - destruct (_ && _); cbn; by rewrite ?H0, ?andb_false_r, ?andb_true_r.
  - destruct (hasSharers pkt); autorewrite with snoop_mask; by rewrite ?H0.
  - destruct (hasSharers pkt); cbn; by rewrite ?H0.
Qed.

(** The requests in flight after an event are the requested bits. *)
Lemma pending_bits s ev l q i : ports_wf (flt s) -> event_ports (flt s) ev ->
  (pending s l q <-> tracked (flt s) q /\ in_mask (flt s) (requested i) q = true) ->
  pending_after s ev l l q <-> tracked (flt s) q /\ in_mask (flt s) (requested (event_item (flt s) ev i)) q = true.
Proof.
  intros Hw Hp Hpe. destruct (decide (tracked (flt s) q)) as [Hq | Hq].
  - rewrite (event_requested _ _ _ _ Hw Hp Hq). clear Hp.
    destruct ev as [pkt p [] | pkt p [] | pkt p ? | pkt p | pkt | pkt rsp p | pkt]; cbn [pending_after]; try exact Hpe.
    all: rewrite Hpe, ?orb_true_iff, ?andb_true_iff, ?negb_true_iff, ?bool_decide_eq_true, ?bool_decide_eq_false.
    all: split; intros H; destruct_and?; intuition congruence.
  - split; [| tauto]. intros H. exfalso.
    destruct ev as [pkt p [] | pkt p [] | pkt p ? | pkt p | pkt | pkt rsp p | pkt]; cbn in H, Hp; try tauto.
    destruct H as [H | (_ & _ & ->)]; tauto.
Qed.

(** A copy that is still there after an event has a holder bit. *)
Lemma present_bits s ev l ps after q i : ports_wf (flt s) -> event_ports (flt s) ev ->
  (forall q, present s l q -> tracked (flt s) q /\ in_mask (flt s) (holder i) q = true) ->
  (match ev with Snoop _ => forall q, present s l q -> q ∈ ps | _ => True end) ->
  allowed s ev l ps after -> after l q ->
  tracked (flt s) q /\ in_mask (flt s) (holder (event_item (flt s) ev i)) q = true.
Proof.
  intros Hw Hp Hpr Htg [Hgain Hlose] Hq'. specialize (Hgain l q Hq').
  assert (Hq : tracked (flt s) q).
  { destruct Hgain as [H | H]; [by apply Hpr |]. destruct ev; cbn in Hp; destruct_and?; by subst. }
  split; [done |]. rewrite (event_holder _ _ _ _ Hw Hp Hq). clear Hp. specialize (Hpr q).
  assert (Hneq : forall p, ~ after l p -> bool_decide (p = q) = false) by (intros p Hn; case_bool_decide; congruence).
  destruct ev as [pkt p [] | pkt p [] | pkt p ? | pkt p | pkt | pkt rsp p | pkt]; try (apply Hpr; tauto).
  - destruct Hpr as [_ ->]; [tauto |]. destruct (isBlockCached pkt); [done |]. by rewrite Hneq by auto.
  - destruct (isCacheMaintenance (req pkt)).
    + destruct Hpr as [_ ->]; [intuition discriminate |].
      destruct (isInvalidate (cmd pkt)); [| done]. by rewrite Hneq by auto.
    + destruct Hgain as [H | (_ & _ & ->)]; [by destruct (Hpr H) as [_ ->] |].
      rewrite bool_decide_true by done. apply orb_true_r.
  - destruct Hgain as [H | []]. destruct (Hpr H) as [_ ->]. destruct (isInvalidate (cmd pkt)); [| done].
    destruct (Hlose eq_refl q (Htg q H) Hq').
  - destruct (decide (p = q)) as [-> | Hne]; [rewrite bool_decide_true by done; apply orb_true_r |].
    destruct (hasSharers pkt); [| destruct (Hlose eq_refl q); congruence].
    destruct Hpr as [_ ->]; [intuition congruence | done].
  - destruct (hasSharers pkt); [| by destruct (Hlose eq_refl q)]. apply Hpr. tauto.
Qed.

Lemma filter_step_inv s ev l ps s' : sys_inv s -> step s ev l ps s' -> sys_inv s'.
Proof.
  intros Hinv [f' after Hl Hc Hrun Hall]. pose proof Hinv as [Hwf Hpe Hpr]. pose proof (sw_ports _ Hwf) as Hw.
  assert (Hfail : stops (flt s) ev l = None) by (destruct (stops (flt s) ev l) as [e |] eqn:E; [| done]; by rewrite (run_stops s ev l e) in Hrun).
  destruct (run_conforming s ev l Hinv Hl Hc Hfail) as (f1 & ps1 & E & Hcfg & Htg & Hput).
  rewrite Hrun in E. simplify_eq. set (i := entry (cachedLocations (flt s)) l) in *.
  assert (Hi : item_wf (flt s) (event_item (flt s) ev i)).
  { eapply event_item_wf; [done | by apply entry_wf | eauto]. }
  pose proof (conforms_ports s ev l Hc) as Hports. pose proof Hcfg as (E1 & E2 & _).
  assert (Et : forall q, tracked f1 q <-> tracked (flt s) q) by (intros; unfold tracked; by rewrite E1).
  assert (Em : forall m q, in_mask f1 m q = in_mask (flt s) m q) by (intros; unfold in_mask, bit_of; by rewrite E2).
  assert (Ee : forall l', entry (cachedLocations f1) l' =
    if decide (l' = l) then event_item (flt s) ev i else entry (cachedLocations (flt s)) l').
  { intros l'. rewrite Hput. by apply entry_put with (flt s). }
  split; cbn [flt pending present]; [by eapply put_entries | |].
  - intros l' q. rewrite Et, Em, Ee. destruct (decide (l' = l)) as [-> | Hne]; [apply pending_bits; auto; apply Hpe |].
    rewrite <- Hpe. destruct ev as [pkt p [] | pkt p [] | pkt p ? | pkt p | pkt | pkt rsp p | pkt];
      cbn [pending_after]; tauto.
  - intros l' q Hq'. rewrite Et, Em, Ee. destruct (decide (l' = l)) as [-> | Hne].
    + eapply present_bits; eauto. destruct ev; try done. intros q' H. apply Htg. cbn. specialize (Hpr l q' H).
      split; [tauto | left; tauto].
    + apply Hpr. destruct Hall as [Hgain _]. specialize (Hgain l' q Hq'). destruct ev; tauto.
Qed.

Lemma filter_reachable_inv f0 s : sf_wf f0 -> cachedLocations f0 = ∅ -> reachable f0 s -> sys_inv s.
Proof.
  intros Hwf He. induction 1 as [s <- Hpe Hpr | s ev l ps s' _ IH Hstep]; [| by eapply filter_step_inv].
  split; [done | |].
  - intros l p. unfold entry, in_mask. rewrite He, lookup_empty. cbn. rewrite Z.bits_0.
    split; [by intros ?%Hpe | by intros [_ ?]].
  - by intros l p ?%Hpr.
Qed.

(** C30: in every history of calls by caches that keep to the protocol (a port has at
    most one request for a line in flight, evictions and snoop responses come from
    ports that have the line, responses answer requests), the filter records exactly
    the requests in flight and a holder bit for every port that has the line;
    entries are never empty. *)
Theorem filter_inclusive f0 s : sf_wf f0 -> cachedLocations f0 = ∅ -> reachable f0 s ->
  (forall l p, pending s l p <-> tracked (flt s) p /\
     in_mask (flt s) (requested (entry (cachedLocations (flt s)) l)) p = true) /\
  (forall l p, present s l p ->
     in_mask (flt s) (holder (entry (cachedLocations (flt s)) l)) p = true) /\
  (forall l i, cachedLocations (flt s) !! l = Some i -> null i = false).
Proof.
  intros Hwf He Hr. destruct (filter_reachable_inv f0 s Hwf He Hr) as [Hw Hpe Hpr]. split_and!; [done | |].
  - intros l p H. by apply Hpr.
  - intros l i H. by apply (sw_entries _ Hw l i).
Qed.

(** C29: a snoop filter among the caches that use it, over every history of their requests,
    evictions, responses and snoop responses and of snoops from below, from an empty filter
    on, in which caches may also drop copies silently.  Whatever the next call is, it either
    runs, and the ports it returns for snooping include every other port that has the line or
    a request for it in flight, and never the port the request came from; or it is a snoop from below and stops
    the simulation, in exactly two cases: the line is not known and the filter is full (the
    panic on the capacity), or the line is known and the snoop is one of nine commands that
    want to write without invalidating or the other way round (plain writes, swaps,
    conditional stores and the like), cacheable and no cache maintenance (an assertion).
    What is assumed of the caller is said in terms of the caches and never of the filter: a
    port sends one request for a line at a time; evictions, and requests that a cache above
    answers, come from a port that has the line; responses belong to requests in flight; a
    snoop response comes from a port that has the line; snoops are requests and the others
    are responses by their command. *)
Theorem filter_safe f0 s ev l : sf_wf f0 -> cachedLocations f0 = ∅ -> reachable f0 s ->
  line_addr (flt s) (event_pkt ev) = Ok l -> conforms s ev l ->
  match stops (flt s) ev l with
  | Some e => run ev (flt s) = Err e
  | None => exists f' ps, run ev (flt s) = Ok (f', ps) /\
      match ev with
      | Request _ p _ | Evict _ p _ | Access _ p _ =>
          (p ∉ ps) /\ forall q, q <> p -> present s l q \/ pending s l q -> q ∈ ps
      | Snoop _ => forall q, present s l q \/ pending s l q -> q ∈ ps
      | _ => ps = []
      end
  end.
Proof.
  intros Hwf He Hr Hl Hc. pose proof (filter_reachable_inv f0 s Hwf He Hr) as Hinv.
  destruct (stops (flt s) ev l) as [e |] eqn:Hfail; [by eapply run_stops |].
  destruct (run_conforming s ev l Hinv Hl Hc Hfail) as (f' & ps & Hrun & _ & Htg & _). exists f', ps. split; [done |].
  assert (Hint : forall q, present s l q \/ pending s l q -> interested (flt s) l q).
  { destruct Hinv as [_ Hpe Hpr]. intros q [H%Hpr | H%Hpe]; unfold interested; tauto. }
  assert (Hnil : (forall q, ~ q ∈ ps) -> ps = []).
  { intros H. destruct ps as [| q ps]; [done |]. exfalso. apply (H q). by left. }
  destruct ev; cbn [event_targets] in Htg.
  1-3: split; [by intros [? ?]%Htg | intros q Hq H; apply Htg; auto].
  - apply Hnil. intros q ?%Htg. done.
  - intros q H. apply Htg. auto.
  - apply Hnil. intros q ?%Htg. done.
  - apply Hnil. intros q ?%Htg. done.
Qed.

(** ** Instances *)

(** A crossbar with two caches and a port that does not snoop. *)
Definition ex_ports : list ResponsePort :=
  [mkResponsePort 0 true; mkResponsePort 1 false; mkResponsePort 2 true].
Definition ex_filter : SnoopFilter :=
  mkSnoopFilter ∅ None SnoopItem_empty [mkResponsePort 0 true; mkResponsePort 2 true] [0; -1; 1] 64 1 1024
    (mkStats 0 0 0 0 0 0).
Definition ex_read : Packet := mkPacket 0 ReadSharedReq 0x300 0x80001048 false 64 0 0 0 [] (new_Request 1).

Lemma ex_filter_made :
  (let! f := new_SnoopFilter 64 1 65536 in setCPUSidePorts ex_ports f) = Ok ex_filter.
Proof. vm_compute. reflexivity. Qed.

Lemma ex_filter_wf : sf_wf ex_filter.
Proof.
  split.
  - split; [vm_compute; discriminate |].
    intros [| [| k]] p H; cbn in H; simplify_eq; split_and!; done.
  - intros l i H. change (cachedLocations ex_filter) with (∅ : gmap Z SnoopItem) in H. by rewrite lookup_empty in H.
  - done.
Qed.

Lemma setCPUSidePorts_numbers_witness :
  exists f f', new_SnoopFilter 64 1 65536 = Ok f /\ setCPUSidePorts ex_ports f = Ok f' /\ ports_wf f' /\
    cpuSidePorts f' = [mkResponsePort 0 true; mkResponsePort 2 true].
Proof.
  destruct (setCPUSidePorts_numbers (mkSnoopFilter ∅ None SnoopItem_empty [] [] 64 1 1024 (mkStats 0 0 0 0 0 0)) ex_ports)
    as [H _]; [reflexivity | reflexivity | repeat constructor; cbn; lia | |].
  - apply (bool_decide_unpack _). vm_compute. exact I.
  - destruct H as (f' & H1 & H2 & H3 & _); [vm_compute; discriminate |].
    eexists _, f'. split; [reflexivity |]. split; [exact H1 |]. split; [exact H2 | exact H3].
Defined.

Lemma retry_undoes_witness :
  exists f' res f'', lookupRequest ex_read (mkResponsePort 2 true) ex_filter = Ok (f', res) /\
    cachedLocations f' = {[ 0x80001040 := mkSnoopItem 2 0 ]} /\
    finishRequest true (addr ex_read) (_isSecure ex_read) f' = Ok f'' /\ cachedLocations f'' = ∅.
Proof.
  destruct (lookupRequest ex_read (mkResponsePort 2 true) ex_filter) as [[f' res] | e] eqn:E;
    [| vm_compute in E; discriminate].
  destruct (retry_undoes ex_filter ex_read (mkResponsePort 2 true) f' res ex_filter_wf) as (f'' & H1 & H2 & _).
  - left. right. left.
  - exact E.
  - exists f', res, f''. split; [reflexivity |]. split; [| split; [exact H1 | exact H2]].
    vm_compute in E. injection E as <- _. reflexivity.
Defined.

(** The first cache has asked for the line. *)
Definition ex_ev1 : event := Request ex_read (mkResponsePort 0 true) false.
Definition ex_sys0 : system := mkSystem ex_filter (fun _ _ => False) (fun _ _ => False).
Definition ex_filter1 : SnoopFilter :=
  match run ex_ev1 ex_filter with Ok (f, _) => f | Err _ => ex_filter end.
Definition ex_sys1 : system :=
  mkSystem ex_filter1 (pending_after ex_sys0 ex_ev1 0x80001040) (fun _ _ => False).

Lemma ex_reachable : reachable ex_filter ex_sys1.
Proof.
  apply (reach_step ex_filter ex_sys0 ex_ev1 0x80001040 []).
  - apply reach_init; [reflexivity | intros ? ? [] | intros ? ? []].
  - apply step_intro; [reflexivity | | reflexivity |].
    + split_and!; [left | reflexivity | reflexivity | intros []].
    + split; [intros ? ? [] | exact I].
Qed.

Lemma filter_inclusive_witness :
  pending ex_sys1 0x80001040 (mkResponsePort 0 true) /\
  in_mask ex_filter1 (requested (entry (cachedLocations ex_filter1) 0x80001040)) (mkResponsePort 0 true) = true.
Proof.
  assert (Hp : pending ex_sys1 0x80001040 (mkResponsePort 0 true)).
  { right. split; [reflexivity |]. split; reflexivity. }
  split; [exact Hp |].
  destruct (filter_inclusive ex_filter ex_sys1 ex_filter_wf eq_refl ex_reachable) as [H _].
  apply (H 0x80001040 (mkResponsePort 0 true)). exact Hp.
Defined.

Lemma filter_safe_witness :
  exists f' ps, run (Request ex_read (mkResponsePort 2 true) false) ex_filter1 = Ok (f', ps) /\
    mkResponsePort 0 true ∈ ps.
Proof.
  destruct (filter_safe ex_filter ex_sys1 (Request ex_read (mkResponsePort 2 true) false) 0x80001040
              ex_filter_wf eq_refl ex_reachable) as (f' & ps & H1 & _ & H2).
  - reflexivity.
  - split; [right; left |]. split; [reflexivity |]. split; [reflexivity |].
    intros [[] | (_ & _ & H)]. discriminate H.
  - exists f', ps. split; [exact H1 |]. apply H2; [discriminate |]. right. right.
    split; [reflexivity |]. split; reflexivity.
Defined.
