(* ===== verification/Clocked.v ===== *)
(** Clock edges: class [Clocked] of [src/gem5/src/sim/clocked_object.hh].

    The object caches the next clock edge and its cycle number and brings them up
    to date on demand; ticks and cycles are 64-bit. *)
From Stdlib Require Import ZArith Lia.
From stdpp Require Import base numbers.
From S2P Require Import Prelude IntMath.

Open Scope Z_scope.

Record Clocked : Type := mkClocked {
  tick : Z;
  cycle : Z;
  clockPeriod : Z;
}.

(** [void update() const] at the current tick [cur]. *)
Definition update (cur : Z) (c : Clocked) : outcome Clocked :=
  if cur <=? tick c then Ok c
  else
    let c := mkClocked (u64 (tick c + clockPeriod c)) (u64 (cycle c + 1)) (clockPeriod c) in
    if cur <=? tick c then Ok c
    else
      let! elapsedCycles := divCeil (u64 (cur - tick c)) (clockPeriod c) in
      Ok (mkClocked (u64 (tick c + u64 (elapsedCycles * clockPeriod c)))
                    (u64 (cycle c + elapsedCycles)) (clockPeriod c)).

(** [Tick clockEdge(Cycles cycles) const]. *)
Definition clockEdge (cur cycles : Z) (c : Clocked) : outcome (Z * Clocked) :=
  let! c := update cur c in
  Ok (u64 (tick c + u64 (clockPeriod c * cycles)), c).

(** [Cycles curCycle() const]. *)
Definition curCycle (cur : Z) (c : Clocked) : outcome (Z * Clocked) :=
  let! c := update cur c in Ok (cycle c, c).

(** [Tick nextCycle() const]. *)
Definition nextCycle (cur : Z) (c : Clocked) : outcome (Z * Clocked) := clockEdge cur 1 c.

(** [void resetClock() const]. *)
Definition resetClock (cur : Z) (c : Clocked) : outcome Clocked :=
  let! elapsedCycles := divCeil cur (clockPeriod c) in
  Ok (mkClocked (u64 (elapsedCycles * clockPeriod c)) elapsedCycles (clockPeriod c)).

(** [Cycles ticksToCycles(Tick t) const] and [Tick cyclesToTicks(Cycles c) const]. *)
Definition ticksToCycles (t : Z) (c : Clocked) : outcome Z := divCeil t (clockPeriod c).
Definition cyclesToTicks (n : Z) (c : Clocked) : Z := u64 (clockPeriod c * n).

(** [schedule(event, when)] at the tick [cur], for an event that is at most scheduled
    once: not in the past, and not while it is scheduled. *)
Definition schedule (cur : Z) (ev : option Z) (when : Z) : outcome (option Z) :=
  do! assert_ (cur <=? when) then
  do! assert_ (negb (bool_decide (is_Some ev))) then Ok (Some when).

(** * The next edge *)

(** Nothing wraps up to two periods after [cur], nor does the cycle count. *)
Record clock_wf (cur : Z) (c : Clocked) : Prop := {
  cw_cur : 0 <= cur;
  cw_period : 0 < clockPeriod c;
  cw_tick : 0 <= tick c;
  cw_cycle : 0 <= cycle c;
  cw_room : cur + 2 * clockPeriod c < 2 ^ 64;
  cw_ahead : tick c < 2 ^ 64;
  cw_cycles : cycle c + cur < 2 ^ 64 - 1;
}.

Lemma divCeil_small a b : 0 < b -> 0 <= a -> a + b < 2 ^ 64 -> divCeil a b = Ok ((a + b - 1) / b).
Proof.
  intros Hb Ha Hr. unfold divCeil. destruct (Z.eqb_spec b 0); [lia |].
  rewrite (wrap_small 64 (a + b)) by (unfold in_width; lia).
  by rewrite wrap_small by (unfold in_width; lia).
Qed.

Lemma ceil_bounds a b : 0 < b -> 0 < a ->
  let n := (a + b - 1) / b in 0 < n <= a /\ a <= n * b < a + b.
Proof.
  intros Hb Ha n. pose proof (Z.div_mod (a + b - 1) b ltac:(lia)) as E.
  pose proof (Z.mod_pos_bound (a + b - 1) b Hb) as M. fold n in E.
  assert (0 < n) by (apply Z.div_str_pos; lia). split; [| lia].
  split; [done |]. nia.
Qed.

(** The edge found: the least edge of the object's clock that is not before [cur],
    counted in whole periods from the cached one. *)
Lemma update_spec cur c : clock_wf cur c ->
  exists c' n, update cur c = Ok c' /\ 0 <= n /\
    tick c' = tick c + n * clockPeriod c /\ cycle c' = cycle c + n /\
    clockPeriod c' = clockPeriod c /\ cur <= tick c' /\
    (n = 0 \/ tick c' - clockPeriod c < cur).
Proof.
  intros [H0 Hp Ht Hc Hr Ha Hcy]. unfold update.
  destruct (Z.leb_spec cur (tick c)).
  { exists c, 0. split_and!; auto; lia. }
  rewrite (wrap_small 64 (tick c + clockPeriod c)) by (unfold in_width; lia).
  rewrite (wrap_small 64 (cycle c + 1)) by (unfold in_width; lia). cbn [tick cycle clockPeriod].
  destruct (Z.leb_spec cur (tick c + clockPeriod c)).
  { exists (mkClocked (tick c + clockPeriod c) (cycle c + 1) (clockPeriod c)), 1.
    cbn [tick cycle clockPeriod]. split_and!; auto; lia. }
  set (d := cur - (tick c + clockPeriod c)) in *.
  assert (Hd : 0 < d) by (unfold d; lia).
  rewrite (wrap_small 64 d) by (unfold in_width, d in *; lia).
  rewrite divCeil_small by (unfold d in *; lia). cbn [obind].
  destruct (ceil_bounds d (clockPeriod c) Hp Hd) as [N1 N2].
  set (n := (d + clockPeriod c - 1) / clockPeriod c) in *.
  assert (n <= cur) by (unfold d in *; lia).
  rewrite (wrap_small 64 (n * clockPeriod c)) by (unfold in_width, d in *; lia).
  rewrite (wrap_small 64 (tick c + clockPeriod c + n * clockPeriod c)) by (unfold in_width, d in *; lia).
  rewrite (wrap_small 64 (cycle c + 1 + n)) by (unfold in_width; lia).
  eexists _, (1 + n). split; [reflexivity |]. cbn [tick cycle clockPeriod].
  unfold d in *. split_and!; auto; try lia.
Qed.

(** Clock edges.  The edge [clockEdge] finds for [k] cycles ahead is not in the
    past, lies on the object's clock, and when the cached edge was in the past it
    is less than one period plus [k] periods ahead; the cycle count advances by
    the edges passed, and asking again at the same time gives the same edge. *)
Theorem clockEdge_spec cur k c : clock_wf cur c -> 0 <= k ->
  cur + tick c + (k + 2) * clockPeriod c < 2 ^ 64 ->
  exists e c' n, clockEdge cur k c = Ok (e, c') /\
    cur <= e /\ e = tick c + (n + k) * clockPeriod c /\ cycle c' = cycle c + n /\ 0 <= n /\
    (tick c < cur -> e < cur + (k + 1) * clockPeriod c) /\
    clockEdge cur k c' = Ok (e, c').
Proof.
  intros Hwf Hk Hroom. destruct (update_spec cur c Hwf) as (c' & n & Hu & Hn & Et & Ec & Ep & Hle & Hlt).
  destruct Hwf as [H0 Hp Ht Hc Hr Ha Hcy].
  assert (Hkp : 0 <= k * clockPeriod c) by nia.
  assert (Ht' : tick c' < cur + clockPeriod c \/ tick c' = tick c) by (destruct Hlt; subst; lia).
  assert (E : clockEdge cur k c = Ok (tick c' + k * clockPeriod c, c')).
  { unfold clockEdge. rewrite Hu. cbn [obind]. rewrite Ep, (Z.mul_comm (clockPeriod c) k).
    rewrite (wrap_small 64 (k * _)) by (unfold in_width; lia).
    rewrite wrap_small by (unfold in_width; lia). done. }
  exists (tick c' + k * clockPeriod c), c', n. split_and!; auto; try lia.
  unfold clockEdge, update. destruct (Z.leb_spec cur (tick c')); [| lia]. cbn [obind].
  rewrite Ep, (Z.mul_comm (clockPeriod c) k).
  rewrite (wrap_small 64 (k * _)) by (unfold in_width; lia).
  rewrite wrap_small by (unfold in_width; lia). done.
Qed.

Lemma clockEdge_spec_witness :
  exists e c' n, clockEdge 2750 2 (mkClocked 1000 1 1000) = Ok (e, c') /\
    2750 <= e /\ e = 1000 + (n + 2) * 1000 /\ (1000 < 2750 -> e < 2750 + (2 + 1) * 1000).
Proof.
  destruct (clockEdge_spec 2750 2 (mkClocked 1000 1 1000)) as (e & c' & n & H1 & H2 & H3 & _ & _ & H4 & _);
    [constructor; cbn; lia | lia | cbn; lia |].
  exists e, c', n. split; [exact H1 | split; [exact H2 | split; [exact H3 | exact H4]]].
Defined.

(** * A clock that time does not outrun *)

(** Time stays far from the end, and the cached edge is at most one period ahead; this
    stays true as time passes. *)
Record steady (cur : Z) (c : Clocked) : Prop := {
  st_cur : 0 <= cur <= 2 ^ 62;
  st_period : 0 < clockPeriod c <= 2 ^ 60;
  st_cycle : 0 <= cycle c <= tick c;
  st_tick : tick c <= cur + clockPeriod c;
}.

Lemma steady_later cur t c : steady cur c -> cur <= t <= 2 ^ 62 -> steady t c.
Proof. intros [? ? ? ?] ?. split; lia. Qed.

Lemma steady_edge cur c : steady cur c -> exists t c', clockEdge cur 1 c = Ok (t, c') /\ steady cur c' /\ cur <= t <= 2 ^ 63.
Proof.
  intros [H0 Hp Hc Ht]. unfold clockEdge.
  destruct (update_spec cur c) as (c' & k & -> & Hk & Et & Ec & Ep & Hle & Hlt); [constructor; lia |].
  assert (Hkp : k <= k * clockPeriod c) by nia. cbn [obind]. rewrite Ep, Z.mul_1_r.
  rewrite (wrap_small 64 (clockPeriod c)) by (unfold in_width; lia). rewrite wrap_small by (unfold in_width; lia).
  eexists _, c'. split; [reflexivity |]. split; [split; rewrite ?Ep; lia | lia].
Qed.
