(* ===== verification/PacketQueue.v ===== *)
(** The packet queues of ports: class [PacketQueue] of [src/gem5/src/mem/packet_queue.hh]
    and [packet_queue.cc].

    A queue holds packets with the tick at which each is to be sent.  It sends the
    first one from its event, waits for a retry when the peer refuses it, and orders
    packets by tick or, if asked to, never reorders packets for the same address.
    Sending may make the peer enqueue more packets in the same call. *)
From Stdlib Require Import ZArith Lia.
From stdpp Require Import base numbers list sorting.
From S2P Require Import Prelude MemPacket Clocked.

Open Scope Z_scope.

Definition MaxTick : Z := 0xffffffffffffffff.

Record DeferredPacket : Type := mkDeferred {
  dp_tick : Z;
  dp_pkt : Packet;
}.

Record PacketQueue : Type := mkPacketQueue {
  transmitList : list DeferredPacket;
  sendEvent : option Z;
  _disableSanityCheck : bool;
  forceOrder : bool;
  waitingOnRetry : bool;
  draining : bool;
}.

Definition set_list (v : list DeferredPacket) (q : PacketQueue) : PacketQueue :=
  mkPacketQueue v (sendEvent q) (_disableSanityCheck q) (forceOrder q) (waitingOnRetry q) (draining q).
Definition set_event (v : option Z) (q : PacketQueue) : PacketQueue :=
  mkPacketQueue (transmitList q) v (_disableSanityCheck q) (forceOrder q) (waitingOnRetry q) (draining q).
Definition set_waitingOnRetry (v : bool) (q : PacketQueue) : PacketQueue :=
  mkPacketQueue (transmitList q) (sendEvent q) (_disableSanityCheck q) (forceOrder q) v (draining q).
Definition set_draining (v : bool) (q : PacketQueue) : PacketQueue :=
  mkPacketQueue (transmitList q) (sendEvent q) (_disableSanityCheck q) (forceOrder q) (waitingOnRetry q) v.

(** [PacketQueue(...)]. *)
Definition new_PacketQueue (force_order disable_sanity_check : bool) : PacketQueue :=
  mkPacketQueue [] None disable_sanity_check force_order false false.

(** [bool deferredPacketReady() const] and [Tick deferredPacketReadyTime() const]. *)
Definition deferredPacketReady (cur : Z) (q : PacketQueue) : bool :=
  match transmitList q with [] => false | dp :: _ => dp_tick dp <=? cur end.
Definition deferredPacketReadyTime (q : PacketQueue) : Z :=
  match transmitList q with [] => MaxTick | dp :: _ => dp_tick dp end.

(** [bool matchAddr(const PacketPtr pkt) const] and [matchBlockAddr] of a packet. *)
Definition matchAddr (p pkt : Packet) : outcome bool :=
  let! a := getAddr pkt in
  let! s := isSecure pkt in
  let! a' := getAddr p in
  if a' =? a then let! s' := isSecure p in Ok (eqb s' s) else Ok false.
Definition matchBlockAddr (blk_size : Z) (p pkt : Packet) : outcome bool :=
  let! a := getBlockAddr blk_size pkt in
  let! s := isSecure pkt in
  let! a' := getBlockAddr blk_size p in
  if a' =? a then let! s' := isSecure p in Ok (eqb s' s) else Ok false.

(** [bool checkConflict(const PacketPtr pkt, const int blk_size) const]. *)
Fixpoint conflict_loop (blk_size : Z) (pkt : Packet) (l : list DeferredPacket) : outcome bool :=
  match l with
  | [] => Ok false
  | dp :: l => let! b := matchBlockAddr blk_size (dp_pkt dp) pkt in if b then Ok true else conflict_loop blk_size pkt l
  end.
Definition checkConflict (pkt : Packet) (blk_size : Z) (q : PacketQueue) : outcome bool :=
  conflict_loop blk_size pkt (transmitList q).

(** [reschedule(event, when)] of a scheduled event. *)
Definition reschedule (cur : Z) (ev : option Z) (when : Z) : outcome (option Z) :=
  do! assert_ (cur <=? when) then
  do! assert_ (bool_decide (is_Some ev)) then Ok (Some when).

(** [void schedSendEvent(Tick when)], with whether the queue says that it is drained. *)
Definition schedSendEvent (cur when : Z) (q : PacketQueue) : outcome (PacketQueue * bool) :=
  if waitingOnRetry q then
    do! assert_ (negb (bool_decide (is_Some (sendEvent q)))) then Ok (q, false)
  else if negb (when =? MaxTick) then
    let when := Z.max when (u64 (cur + 1)) in
    match sendEvent q with
    | None => let! ev := schedule cur None when in Ok (set_event ev q, false)
    | Some t =>
        if when <? t then let! ev := reschedule cur (Some t) when in Ok (set_event ev q, false)
        else Ok (q, false)
    end
  else if draining q && bool_decide (transmitList q = []) && bool_decide (sendEvent q = None) then
    Ok (set_draining false q, true)
  else Ok (q, false).

(** The search of [schedSendTiming] from the end of the list, on the reversed list;
    with whether the packet has become the first. *)
Fixpoint insert_from_end (force : bool) (when : Z) (pkt : Packet) (r : list DeferredPacket)
    : outcome (list DeferredPacket * bool) :=
  match r with
  | [] => Ok ([mkDeferred when pkt], true)
  | dp :: r =>
      let! m := (if force then matchAddr (dp_pkt dp) pkt else Ok false) in
      if m || (dp_tick dp <=? when) then Ok (mkDeferred when pkt :: dp :: r, false)
      else let! (r, first) := insert_from_end force when pkt r in Ok (dp :: r, first)
  end.

(** [void schedSendTiming(PacketPtr pkt, Tick when)]. *)
Definition schedSendTiming (cur : Z) (pkt : Packet) (when : Z) (q : PacketQueue) : outcome PacketQueue :=
  let! _ := getAddr pkt in
  do! assert_ (cur <=? when) then
  do! assert_ (negb (isExpressSnoop pkt)) then
  do! panic_if (negb (_disableSanityCheck q) && (128 <? Z.of_nat (length (transmitList q)))) then
  let! (r, first) := insert_from_end (forceOrder q) when pkt (rev (transmitList q)) in
  let q := set_list (rev r) q in
  if first then let! (q, _) := schedSendEvent cur when q in Ok q else Ok q.

(** The packets that the peer enqueues while it is sent one. *)
Fixpoint enqueue_all (cur : Z) (ps : list (Packet * Z)) (q : PacketQueue) : outcome PacketQueue :=
  match ps with
  | [] => Ok q
  | (pkt, when) :: ps => let! q := schedSendTiming cur pkt when q in enqueue_all cur ps q
  end.

(** [void sendDeferredPacket()]: [sendTiming] enqueues [ps] and returns [ok]. *)
Definition sendDeferredPacket (cur : Z) (ps : list (Packet * Z)) (ok : bool) (q : PacketQueue)
    : outcome (Packet * PacketQueue * bool) :=
  do! assert_ (negb (waitingOnRetry q)) then
  do! assert_ (deferredPacketReady cur q) then
  match transmitList q with
  | [] => Err Undefined
  | dp :: l =>
      let! q := enqueue_all cur ps (set_list l q) in
      let q := set_waitingOnRetry (negb ok) q in
      if ok then
        let! (q, done) := schedSendEvent cur (deferredPacketReadyTime q) q in Ok (dp_pkt dp, q, done)
      else Ok (dp_pkt dp, set_list (dp :: transmitList q) q, false)
  end.

(** [void processSendEvent()] and [void retry()]. *)
Definition processSendEvent (cur : Z) (ps : list (Packet * Z)) (ok : bool) (q : PacketQueue)
    : outcome (Packet * PacketQueue * bool) :=
  do! assert_ (negb (waitingOnRetry q)) then sendDeferredPacket cur ps ok q.
Definition retry (cur : Z) (ps : list (Packet * Z)) (ok : bool) (q : PacketQueue) : outcome (Packet * PacketQueue * bool) :=
  do! assert_ (waitingOnRetry q) then sendDeferredPacket cur ps ok (set_waitingOnRetry false q).

(** [DrainState drain()]: whether the queue is drained. *)
Definition queue_drain (q : PacketQueue) : bool := bool_decide (transmitList q = []).

(** * Histories *)

(** A queue in time, with what was enqueued and what was sent, oldest first. *)
Record queue_sys : Type := mkQueueSys {
  que : PacketQueue;
  q_now : Z;
  enqueued : list Packet;
  sent : list Packet;
}.

Inductive queue_op : Type :=
  | Enqueue (pkt : Packet) (when : Z)
  | SendEvent (ps : list (Packet * Z)) (ok : bool)
  | PeerRetry (ps : list (Packet * Z)) (ok : bool)
  | Wait (t : Z).

Definition after_send (s : queue_sys) (t : Z) (ps : list (Packet * Z)) (ok : bool) (m : outcome (Packet * PacketQueue * bool))
    : outcome queue_sys :=
  let! (pkt, q, _) := m in
  Ok (mkQueueSys q t (enqueued s ++ map fst ps) (if ok then sent s ++ [pkt] else sent s)).

Definition queue_step (s : queue_sys) (o : queue_op) : outcome queue_sys :=
  match o with
  | Enqueue pkt when =>
      let! q := schedSendTiming (q_now s) pkt when (que s) in Ok (mkQueueSys q (q_now s) (enqueued s ++ [pkt]) (sent s))
  | SendEvent ps ok =>
      match sendEvent (que s) with
      | None => Err Undefined
      | Some t => after_send s t ps ok (processSendEvent t ps ok (set_event None (que s)))
      end
  | PeerRetry ps ok => after_send s (q_now s) ps ok (retry (q_now s) ps ok (que s))
  | Wait t => Ok (mkQueueSys (que s) t (enqueued s) (sent s))
  end.

(** A packet that may be enqueued. *)
Definition packet_ok (cur : Z) (pkt : Packet) (when : Z) : Prop :=
  flag_isSet VALID_ADDR pkt = true /\ isExpressSnoop pkt = false /\ cur <= when < MaxTick.

(** Packets enqueued by a peer in the same call; a peer that refuses enqueues none. *)
Definition nested_ok (cur : Z) (ps : list (Packet * Z)) (ok : bool) (q : PacketQueue) : Prop :=
  (forall p, p ∈ ps -> packet_ok cur p.1 p.2) /\ (ok = false -> ps = []) /\
  (_disableSanityCheck q = true \/ Z.of_nat (length (transmitList q)) + Z.of_nat (length ps) <= 129).

Definition queue_op_ok (s : queue_sys) (o : queue_op) : Prop :=
  match o with
  | Enqueue pkt when => packet_ok (q_now s) pkt when /\
      (_disableSanityCheck (que s) = true \/ Z.of_nat (length (transmitList (que s))) <= 128)
  | SendEvent ps ok => exists t, sendEvent (que s) = Some t /\ t < MaxTick - 1 /\ nested_ok t ps ok (que s)
  | PeerRetry ps ok => waitingOnRetry (que s) = true /\ nested_ok (q_now s) ps ok (que s)
  | Wait t => q_now s <= t < MaxTick - 1 /\ forall e, sendEvent (que s) = Some e -> t <= e
  end.

Inductive queue_reachable (force unchecked : bool) : queue_sys -> Prop :=
  | qr_init t : 0 <= t < MaxTick - 1 -> queue_reachable force unchecked (mkQueueSys (new_PacketQueue force unchecked) t [] [])
  | qr_step s o s' : queue_reachable force unchecked s -> queue_op_ok s o -> queue_step s o = Ok s' ->
      queue_reachable force unchecked s'.

(** * Order *)

(** The packets for an address. *)
Definition for_addr (a : Z) (s : bool) (p : Packet) : bool := (addr p =? a) && eqb (_isSecure p) s.
Definition same_addr (p pkt : Packet) : bool := for_addr (addr pkt) (_isSecure pkt) p.

Lemma matchAddr_ok p pkt : flag_isSet VALID_ADDR p = true -> flag_isSet VALID_ADDR pkt = true ->
  matchAddr p pkt = Ok (same_addr p pkt).
Proof.
  intros Hp Hk. unfold matchAddr, same_addr, for_addr, getAddr, isSecure. rewrite Hp, Hk. cbn.
  by destruct (addr p =? addr pkt).
Qed.

Definition valid_entry (dp : DeferredPacket) : Prop := flag_isSet VALID_ADDR (dp_pkt dp) = true /\ dp_tick dp < MaxTick.

(** A packet placed in the list: it passes packets that are due later and, with forced
    order, are for other addresses. *)
Definition passed (force : bool) (when : Z) (pkt : Packet) (dp : DeferredPacket) : Prop :=
  when < dp_tick dp /\ (force = true -> same_addr (dp_pkt dp) pkt = false).
Record placed (force : bool) (when : Z) (pkt : Packet) (before behind : list DeferredPacket) : Prop := {
  pl_behind : Forall (passed force when pkt) behind;
  pl_before : forall dp, last before = Some dp -> (force = true /\ same_addr (dp_pkt dp) pkt = true) \/ dp_tick dp <= when;
}.

Lemma insert_from_end_ok force when pkt r : flag_isSet VALID_ADDR pkt = true -> Forall valid_entry r ->
  exists r1 r2, r = r1 ++ r2 /\
    insert_from_end force when pkt r = Ok (r1 ++ mkDeferred when pkt :: r2, bool_decide (r2 = [])) /\
    placed force when pkt (rev r2) (rev r1).
Proof.
  intros Hv. induction 1 as [| dp r [Hdp _] _ IH]; cbn [insert_from_end].
  { exists [], []. split; [done |]. split; [done |]. split; [constructor | done]. }
  assert (Em : (if force then matchAddr (dp_pkt dp) pkt else Ok false) = Ok (force && same_addr (dp_pkt dp) pkt)).
  { destruct force; [by apply matchAddr_ok | done]. }
  rewrite Em. cbn [obind]. destruct (force && same_addr (dp_pkt dp) pkt || (dp_tick dp <=? when)) eqn:E.
  - exists [], (dp :: r). split; [done |]. split; [done |]. split; [constructor |]. cbn [rev]. intros d Hd.
    rewrite last_snoc in Hd. simplify_eq. apply orb_true_iff in E as [[? ?]%andb_true_iff | ?%Z.leb_le]; auto.
  - destruct IH as (r1 & r2 & -> & -> & Hb & Hl). cbn [obind]. exists (dp :: r1), r2. split; [done |]. split; [done |].
    apply orb_false_iff in E as [E1 E2%Z.leb_gt]. split; [| done]. cbn [rev]. apply Forall_app. split; [done |].
    constructor; [| constructor]. split; [done |]. intros ->. done.
Qed.

(** What is sent comes first, whether or not the queue waits: the order of the packets
    for an address, with forced order. *)
Lemma placed_fifo a s when pkt before behind : placed true when pkt before behind ->
  filter (fun p => for_addr a s p = true) (map dp_pkt (before ++ mkDeferred when pkt :: behind)) =
  filter (fun p => for_addr a s p = true) (map dp_pkt (before ++ behind)) ++ filter (fun p => for_addr a s p = true) [pkt].
Proof.
  intros [Hb _]. rewrite !map_app, !filter_app. cbn [map dp_pkt]. rewrite <- app_assoc. f_equal.
  rewrite filter_cons, (filter_cons _ pkt []). cbn [filter list_filter]. destruct (decide (for_addr a s pkt = true)) as [Hk | Hk]; [| by rewrite app_nil_r].
  assert (E : filter (fun p => for_addr a s p = true) (map dp_pkt behind) = []).
  { induction Hb as [| dp l [_ Hd] _ IH]; [done |]. cbn [map]. rewrite filter_cons, decide_False; [done |].
    intros H. specialize (Hd eq_refl). unfold same_addr, for_addr in *.
    apply andb_true_iff in H as [H1%Z.eqb_eq H2%eqb_prop], Hk as [H3%Z.eqb_eq H4%eqb_prop].
    rewrite H1, H2, H3, H4, Z.eqb_refl, eqb_reflx in Hd. done. }
  by rewrite E.
Qed.

Definition tick_le (a b : DeferredPacket) : Prop := dp_tick a <= dp_tick b.

Lemma placed_sorted when pkt before behind : placed false when pkt before behind ->
  StronglySorted tick_le (before ++ behind) -> StronglySorted tick_le (before ++ mkDeferred when pkt :: behind).
Proof.
  intros [Hb Hl] Hs. apply StronglySorted_app in Hs as (Hx & H1 & H2). apply StronglySorted_app.
  assert (Hle : forall dp, dp ∈ before -> dp_tick dp <= when).
  { intros dp Hin. destruct (last before) as [d |] eqn:E; [| apply last_None in E; subst; by apply not_elem_of_nil in Hin].
    destruct (Hl d eq_refl) as [[? _] | Hd]; [done |]. apply last_Some in E as [l ->].
    apply elem_of_app in Hin as [Hin | ->%list_elem_of_singleton]; [| done].
    apply StronglySorted_app in H1 as (H1 & _ & _). etrans; [| exact Hd]. apply H1; [done | by left]. }
  split_and!; auto.
  - intros d1 d2 Hd1 [-> | Hd2]%elem_of_cons; [by apply Hle |]. by apply Hx.
  - constructor; [done |]. eapply Forall_impl; [exact Hb |]. intros d [? _]. unfold tick_le. cbn. lia.
Qed.

(** * The event *)

(** The event of a queue at [now]: for its first packet, not before it is due, and not
    later than the next tick once it is. *)
Definition event_for (now : Z) (dp : DeferredPacket) (t : Z) : Prop :=
  now <= t /\ dp_tick dp <= t <= Z.max (dp_tick dp) (now + 1) /\ t < MaxTick.
Definition armed (now : Z) (l : list DeferredPacket) (ev : option Z) : Prop :=
  match l with [] => ev = None | dp :: _ => exists t, ev = Some t /\ event_for now dp t end.
(** In the middle of a send the event may be missing. *)
Definition half_armed (now : Z) (l : list DeferredPacket) (ev : option Z) : Prop :=
  ev = None \/ armed now l ev.
(** A queue that waits has its refused packet first. *)
Definition holding (now : Z) (l : list DeferredPacket) (ev : option Z) : Prop :=
  ev = None /\ exists dp l', l = dp :: l' /\ dp_tick dp <= now.

Definition same_queue (q q' : PacketQueue) : Prop :=
  _disableSanityCheck q' = _disableSanityCheck q /\ forceOrder q' = forceOrder q /\ waitingOnRetry q' = waitingOnRetry q.

(** Scheduling for the first packet. *)
Lemma schedSendEvent_ok now q dp l : 0 <= now < MaxTick - 1 -> transmitList q = dp :: l -> dp_tick dp < MaxTick ->
  waitingOnRetry q = false ->
  (sendEvent q = None \/ exists t, sendEvent q = Some t /\ now <= t < MaxTick /\ dp_tick dp <= t) ->
  exists q' b, schedSendEvent now (dp_tick dp) q = Ok (q', b) /\ same_queue q q' /\ transmitList q' = transmitList q /\
    armed now (transmitList q') (sendEvent q').
Proof.
  intros Hnow Hl Hdp Hw Hev. unfold schedSendEvent. rewrite Hw. destruct (Z.eqb_spec (dp_tick dp) MaxTick); [lia |]. cbn [negb].
  rewrite (wrap_small 64 (now + 1)) by (unfold in_width, MaxTick in *; lia). set (w := Z.max _ _).
  assert (Hw' : event_for now dp w) by (unfold event_for, w; lia).
  destruct Hev as [E | (t & E & Ht & Hle)]; rewrite E.
  - unfold schedule. destruct (Z.leb_spec now w); [| unfold w in *; lia]. cbn.
    eexists _, _. split; [reflexivity |]. split; [done |]. split; [done |]. cbn. rewrite Hl. by exists w.
  - destruct (Z.ltb_spec w t).
    + unfold reschedule. destruct (Z.leb_spec now w); [| unfold w in *; lia]. cbn.
      eexists _, _. split; [reflexivity |]. split; [done |]. split; [done |]. cbn. rewrite Hl. by exists w.
    + eexists _, _. split; [reflexivity |]. split; [done |]. split; [done |]. rewrite Hl, E. exists t. split; [done |].
      unfold event_for, w in *. lia.
Qed.

(** One packet more, in any state of the queue. *)
Lemma schedSendTiming_ok now pkt when q : 0 <= now < MaxTick - 1 -> packet_ok now pkt when -> Forall valid_entry (transmitList q) ->
  (_disableSanityCheck q = true \/ Z.of_nat (length (transmitList q)) <= 128) ->
  (if waitingOnRetry q then holding now (transmitList q) (sendEvent q) else half_armed now (transmitList q) (sendEvent q)) ->
  exists q' before behind, schedSendTiming now pkt when q = Ok q' /\ same_queue q q' /\
    transmitList q = before ++ behind /\ transmitList q' = before ++ mkDeferred when pkt :: behind /\
    placed (forceOrder q) when pkt before behind /\
    (if waitingOnRetry q then holding now (transmitList q') (sendEvent q')
     else half_armed now (transmitList q') (sendEvent q') /\
          (armed now (transmitList q) (sendEvent q) -> armed now (transmitList q') (sendEvent q'))).
Proof.
  intros Hnow (Hv & Hx & Hwhen) Hval Hlen Hst. unfold schedSendTiming, getAddr. rewrite Hv, Hx. cbn [assert_ obind negb].
  destruct (Z.leb_spec now when); [| lia]. cbn [assert_ obind].
  assert (Eg : negb (_disableSanityCheck q) && (128 <? Z.of_nat (length (transmitList q))) = false).
  { destruct Hlen as [-> | ?]; [done |]. destruct (Z.ltb_spec 128 (Z.of_nat (length (transmitList q)))); [lia |]. apply andb_false_r. }
  rewrite Eg. cbn [panic_if obind].
  destruct (insert_from_end_ok (forceOrder q) when pkt (rev (transmitList q)) Hv) as (r1 & r2 & Er & -> & Hpl).
  { rewrite Forall_forall in *. intros dp Hin. apply Hval. by rewrite list_elem_of_In, <- in_rev, <- list_elem_of_In in Hin. }
  cbn [obind]. assert (El : transmitList q = rev r2 ++ rev r1).
  { by rewrite <- (rev_involutive (transmitList q)), Er, rev_app_distr. }
  assert (El' : rev (r1 ++ mkDeferred when pkt :: r2) = rev r2 ++ mkDeferred when pkt :: rev r1).
  { rewrite rev_app_distr. cbn [rev]. by rewrite <- app_assoc. }
  rewrite El'. set (q1 := set_list _ q). case_bool_decide as Hr2.
  - subst r2. cbn [rev app] in *. assert (Hpass : forall dp l', transmitList q = dp :: l' -> when < dp_tick dp).
    { intros dp l' E. rewrite E in El. destruct Hpl as [Hb _]. rewrite <- El in Hb. by inversion Hb as [| ? ? [? _] _]. }
    destruct (waitingOnRetry q) eqn:Hw.
    { destruct Hst as (_ & dp & l' & E & Hd). specialize (Hpass dp l' E). lia. }
    destruct (schedSendEvent_ok now q1 (mkDeferred when pkt) (rev r1)) as (q2 & b & Eq & Hsame & Hl2 & Harm); auto; cbn [dp_tick]; [lia | |].
    { destruct Hst as [? | Ha]; [by left |]. cbn. destruct (transmitList q) as [| dp l'] eqn:E; [by left |].
      destruct Ha as (t & Ht & Hev). right. exists t. specialize (Hpass dp l' eq_refl). unfold event_for in Hev. split; [done | lia]. }
    cbn [dp_tick] in Eq. rewrite Eq. cbn [obind]. exists q2, [], (rev r1). split; [done |]. split; [done |]. split; [done |].
    split; [done |]. split; [done |]. split; [by right | done].
  - exists q1, (rev r2), (rev r1). split; [done |]. split; [done |]. split; [done |]. split; [done |]. split; [done |].
    assert (Hhd : exists dp l0, rev r2 = dp :: l0).
    { destruct (rev r2) as [| dp l0] eqn:E; [| eauto]. exfalso. apply Hr2. rewrite <- (rev_involutive r2), E. done. }
    destruct Hhd as (dp & l0 & E). cbn [transmitList sendEvent q1 set_list]. rewrite El, E in *. cbn [app] in *. unfold half_armed, armed in *.
    destruct (waitingOnRetry q); [| by split]. destruct Hst as (He & dp' & l' & [= <- <-] & Hd). split; [done |]. eauto.
Qed.

(** * Invariant *)

(** Nothing is lost or duplicated; with forced order the packets for an address stay in
    order, and otherwise the list is sorted by tick. *)
Record in_order (force : bool) (enq snt : list Packet) (l : list DeferredPacket) : Prop := {
  io_all : snt ++ map dp_pkt l ≡ₚ enq;
  io_fifo : force = true -> forall a s, filter (fun p => for_addr a s p = true) (snt ++ map dp_pkt l)
                                        = filter (fun p => for_addr a s p = true) enq;
  io_sorted : force = false -> StronglySorted tick_le l;
}.

Lemma in_order_placed force enq snt before behind when pkt : placed force when pkt before behind ->
  in_order force enq snt (before ++ behind) -> in_order force (enq ++ [pkt]) snt (before ++ mkDeferred when pkt :: behind).
Proof.
  intros Hpl [Ha Hf Hs]. split.
  - rewrite <- Ha, <- app_assoc. f_equiv. rewrite !map_app. cbn [map dp_pkt]. rewrite <- app_assoc. f_equiv.
    by rewrite Permutation_app_comm.
  - intros -> a s. rewrite filter_app, (placed_fifo a s when pkt _ _ Hpl), app_assoc, <- filter_app, (Hf eq_refl), <- filter_app. done.
  - intros ->. apply placed_sorted; auto.
Qed.

Lemma valid_placed (before behind : list DeferredPacket) dp : Forall valid_entry (before ++ behind) -> valid_entry dp ->
  Forall valid_entry (before ++ dp :: behind).
Proof. rewrite !Forall_app, Forall_cons. tauto. Qed.

Lemma enqueue_all_ok now ps : forall q, 0 <= now < MaxTick - 1 -> (forall p, p ∈ ps -> packet_ok now p.1 p.2) ->
  Forall valid_entry (transmitList q) -> waitingOnRetry q = false -> half_armed now (transmitList q) (sendEvent q) ->
  (_disableSanityCheck q = true \/ Z.of_nat (length (transmitList q)) + Z.of_nat (length ps) <= 129) ->
  exists q', enqueue_all now ps q = Ok q' /\ same_queue q q' /\ Forall valid_entry (transmitList q') /\
    half_armed now (transmitList q') (sendEvent q') /\
    forall enq snt, in_order (forceOrder q) enq snt (transmitList q) ->
      in_order (forceOrder q) (enq ++ map fst ps) snt (transmitList q').
Proof.
  induction ps as [| [pkt when] ps IH]; intros q Hnow Hps Hval Hw Hst Hlen; cbn [enqueue_all].
  { exists q. split; [done |]. split; [done |]. split; [done |]. split; [done |]. intros enq snt H. by rewrite app_nil_r. }
  pose proof (Hps (pkt, when) ltac:(left)) as Hp. cbn [fst snd] in Hp. cbn [length] in Hlen.
  destruct (schedSendTiming_ok now pkt when q Hnow Hp Hval) as (q1 & before & behind & -> & (Es & Ef & Ew) & El & El' & Hpl & Hst').
  { destruct Hlen; [by left | right; lia]. }
  { by rewrite Hw. }
  rewrite Hw in *. destruct Hst' as [Hst' _]. cbn [obind].
  destruct (IH q1 Hnow) as (q2 & -> & (Es2 & Ef2 & Ew2) & Hval2 & Hst2 & Ho); auto.
  - intros p Hin. apply Hps. by right.
  - rewrite El'. apply valid_placed; [by rewrite <- El |]. split; [apply Hp | apply Hp].
  - rewrite Es. destruct Hlen as [? | Hlen]; [by left | right]. rewrite El' , El in *. rewrite length_app in *. cbn [length] in *. lia.
  - exists q2. split; [done |]. split; [split_and!; congruence |]. split; [done |]. split; [done |]. intros enq snt Hin.
    cbn [map fst]. rewrite cons_middle, app_assoc. rewrite Ef in Ho. apply Ho. rewrite El'. apply in_order_placed; [done |]. by rewrite <- El.
Qed.

(** The state of a queue between steps. *)
Definition queue_state (now : Z) (q : PacketQueue) : Prop :=
  if waitingOnRetry q then holding now (transmitList q) (sendEvent q) else armed now (transmitList q) (sendEvent q).

Lemma sendDeferredPacket_ok now ps ok q dp l : 0 <= now < MaxTick - 1 -> transmitList q = dp :: l -> dp_tick dp <= now ->
  Forall valid_entry (transmitList q) -> waitingOnRetry q = false -> sendEvent q = None -> nested_ok now ps ok q ->
  exists q' b, sendDeferredPacket now ps ok q = Ok (dp_pkt dp, q', b) /\
    _disableSanityCheck q' = _disableSanityCheck q /\ forceOrder q' = forceOrder q /\
    Forall valid_entry (transmitList q') /\ queue_state now q' /\
    forall enq snt, in_order (forceOrder q) enq snt (transmitList q) ->
      in_order (forceOrder q) (enq ++ map fst ps) (if ok then snt ++ [dp_pkt dp] else snt) (transmitList q').
Proof.
  intros Hnow Hl Hdp Hval Hw Hev (Hps & Hno & Hlen). unfold sendDeferredPacket, deferredPacketReady. rewrite Hw, Hl.
  destruct (Z.leb_spec (dp_tick dp) now); [| lia]. cbn [negb assert_ obind]. rewrite Hl in *. inversion Hval as [| ? ? Hd Hval']; subst.
  destruct ok.
  2: { rewrite (Hno eq_refl). cbn [enqueue_all obind negb map]. eexists _, _. split; [reflexivity |]. split_and!; try done.
    - split; [done |]. eauto.
    - intros enq snt H1. by rewrite app_nil_r. }
  assert (Hord : forall enq snt, in_order (forceOrder q) enq snt (dp :: l) -> in_order (forceOrder q) enq (snt ++ [dp_pkt dp]) l).
  { intros enq snt [Ha Hf Hs]. split.
    - by rewrite <- app_assoc.
    - intros E a s. rewrite <- app_assoc. by apply Hf.
    - intros E. specialize (Hs E). by inversion Hs. }
  destruct (enqueue_all_ok now ps (set_list l q) Hnow Hps) as (q1 & -> & (Es & Ef & Ew) & Hval1 & Hst & Ho); auto.
  { by left. }
  { cbn. destruct Hlen as [? | Hlen]; [by left | right]. cbn [length] in Hlen. lia. }
  cbn [obind negb]. assert (Hsched : exists q2 b, schedSendEvent now (deferredPacketReadyTime (set_waitingOnRetry false q1)) (set_waitingOnRetry false q1) = Ok (q2, b) /\
    _disableSanityCheck q2 = _disableSanityCheck q1 /\ forceOrder q2 = forceOrder q1 /\ transmitList q2 = transmitList q1 /\ queue_state now q2).
  { unfold deferredPacketReadyTime. cbn [transmitList set_waitingOnRetry]. destruct (transmitList q1) as [| d l1] eqn:E1.
    - assert (Ee : sendEvent q1 = None) by (by destruct Hst). unfold schedSendEvent. cbn [waitingOnRetry set_waitingOnRetry].
      rewrite Z.eqb_refl. cbn [negb]. destruct (_ && _); eexists _, _; (split; [reflexivity |]); unfold queue_state; cbn; by rewrite E1.
    - inversion Hval1 as [| ? ? [_ Hdm] _]; subst.
      destruct (schedSendEvent_ok now (set_waitingOnRetry false q1) d l1) as (q2 & b & Eq & (? & ? & Hw2) & Hl2 & Harm); auto.
      { destruct Hst as [? | (t & Et & Hte)]; [by left |]. right. exists t. unfold event_for in Hte. split; [done | lia]. }
      exists q2, b. cbn in Hl2. rewrite E1 in Hl2. split_and!; auto. unfold queue_state. cbn in Hw2. by rewrite Hw2. }
  destruct Hsched as (q2 & b & -> & Es2 & Ef2 & Hl2 & Hst2). cbn [obind]. exists q2, b. split; [done |]. rewrite Es2, Ef2, Hl2.
  split_and!; auto.
Qed.

Record queue_inv (force unchecked : bool) (s : queue_sys) : Prop := {
  qv_time : 0 <= q_now s < MaxTick - 1;
  qv_force : forceOrder (que s) = force;
  qv_check : _disableSanityCheck (que s) = unchecked;
  qv_valid : Forall valid_entry (transmitList (que s));
  qv_state : queue_state (q_now s) (que s);
  qv_order : in_order force (enqueued s) (sent s) (transmitList (que s));
}.

Lemma armed_later now t l ev : armed now l ev -> now <= t -> (forall e, ev = Some e -> t <= e) -> armed t l ev.
Proof.
  destruct l as [| dp l]; [done |]. intros (e & -> & He) Hle Hb. exists e. split; [done |]. specialize (Hb e eq_refl).
  unfold event_for in *. lia.
Qed.

Lemma queue_step_ok force unchecked s o : queue_inv force unchecked s -> queue_op_ok s o ->
  exists s', queue_step s o = Ok s' /\ queue_inv force unchecked s'.
Proof.
  intros [Ht Hf Hc Hval Hst Hord] Hok. unfold queue_state in Hst. destruct o as [pkt when | ps ok | ps ok | t]; cbn [queue_step queue_op_ok] in *.
  - destruct Hok as [Hp Hlen].
    destruct (schedSendTiming_ok (q_now s) pkt when (que s) Ht Hp Hval Hlen) as (q' & before & behind & -> & (Es & Ef & Ew) & El & El' & Hpl & Hst').
    { destruct (waitingOnRetry (que s)); [done | by right]. }
    cbn [obind]. eexists. split; [reflexivity |]. split; cbn; auto; try congruence.
    + rewrite El'. apply valid_placed; [by rewrite <- El |]. split; apply Hp.
    + unfold queue_state. rewrite Ew. destruct (waitingOnRetry (que s)); [done |]. by apply Hst'.
    + rewrite El'. apply in_order_placed; [by rewrite <- Hf |]. by rewrite <- El.
  - destruct Hok as (t & Et & Hmax & Hn). rewrite Et in *. destruct (waitingOnRetry (que s)) eqn:Hw; [by destruct Hst |].
    destruct (transmitList (que s)) as [| dp l] eqn:El; [done |]. destruct Hst as (t' & [= <-] & Hev).
    unfold processSendEvent. cbn [waitingOnRetry set_event]. rewrite Hw. cbn [negb assert_ obind].
    assert (Hr : 0 <= t < MaxTick - 1 /\ dp_tick dp <= t) by (unfold event_for in Hev; lia). destruct Hr as [Hr Hd].
    destruct (sendDeferredPacket_ok t ps ok (set_event None (que s)) dp l Hr El Hd) as (q' & b & -> & Es & Ef & Hval' & Hst' & Ho); auto.
    { cbn. by rewrite El. }
    unfold after_send. cbn [obind]. cbn in Es, Ef. eexists. split; [reflexivity |]. split; cbn; auto; try congruence.
    cbn in Ho. rewrite Hf, El in Ho. by apply Ho.
  - destruct Hok as (Hw & Hn). rewrite Hw in Hst. destruct Hst as (Ee & dp & l & El & Hd). unfold retry. rewrite Hw. cbn [assert_ obind].
    destruct (sendDeferredPacket_ok (q_now s) ps ok (set_waitingOnRetry false (que s)) dp l) as (q' & b & -> & Es & Ef & Hval' & Hst' & Ho); auto.
    unfold after_send. cbn [obind]. cbn in Es, Ef. eexists. split; [reflexivity |]. split; cbn; auto; try congruence.
    cbn in Ho. rewrite Hf in Ho. by apply Ho.
  - destruct Hok as [Hle Hb]. eexists. split; [reflexivity |]. split; cbn; auto; [lia |]. unfold queue_state.
    destruct (waitingOnRetry (que s)); [| eapply armed_later; [done | lia | done]].
    destruct Hst as (? & dp & l & ? & ?). split; [done |]. exists dp, l. split; [done | lia].
Qed.

Lemma queue_reachable_inv force unchecked s : queue_reachable force unchecked s -> queue_inv force unchecked s.
Proof.
  induction 1 as [t Ht | s o s' _ IH Hok Hstep].
  - split; cbn; auto; try constructor; try done. intros _. constructor.
  - destruct (queue_step_ok force unchecked s o IH Hok) as (s1 & E & H). rewrite E in Hstep. by simplify_eq.
Qed.


(** A packet queue loses and duplicates nothing; if order is forced, the packets for
    an address are sent in the order in which they were enqueued, and otherwise the
    list is sorted by the ticks at which they are due. *)
Theorem queue_order force unchecked s : queue_reachable force unchecked s ->
  sent s ++ map dp_pkt (transmitList (que s)) ≡ₚ enqueued s /\
  (force = true -> forall a sec,
     filter (fun p => for_addr a sec p = true) (sent s) `prefix_of` filter (fun p => for_addr a sec p = true) (enqueued s)) /\
  (force = false -> StronglySorted tick_le (transmitList (que s))).
Proof.
  intros Hr. destruct (qv_order _ _ _ (queue_reachable_inv _ _ _ Hr)) as [Ha Hf Hs]. split_and!; auto.
  intros E a sec. exists (filter (fun p => for_addr a sec p = true) (map dp_pkt (transmitList (que s)))).
  by rewrite <- (Hf E), filter_app.
Qed.

(** ** Instances *)

Definition ex_pkt (id a : Z) : Packet := mkPacket id ReadResp 0x300 a false 64 0 0 0 [] (new_Request id).

(** Two packets for the same address, the second due earlier, in a queue with forced
    order. *)
Definition ex_two : queue_sys :=
  mkQueueSys (mkPacketQueue [mkDeferred 30 (ex_pkt 1 0x80000000); mkDeferred 20 (ex_pkt 2 0x80000000)] (Some 30) false true false false)
    10 [ex_pkt 1 0x80000000; ex_pkt 2 0x80000000] [].

Lemma ex_two_reachable : queue_reachable true false ex_two.
Proof.
  apply (qr_step true false (mkQueueSys (mkPacketQueue [mkDeferred 30 (ex_pkt 1 0x80000000)] (Some 30) false true false false)
           10 [ex_pkt 1 0x80000000] []) (Enqueue (ex_pkt 2 0x80000000) 20)).
  - apply (qr_step true false (mkQueueSys (new_PacketQueue true false) 10 [] []) (Enqueue (ex_pkt 1 0x80000000) 30)).
    + apply qr_init. unfold MaxTick. lia.
    + split; [split; [reflexivity |]; split; [reflexivity | unfold MaxTick; cbn; lia] | right; cbn; lia].
    + vm_compute. reflexivity.
  - split; [split; [reflexivity |]; split; [reflexivity | unfold MaxTick; cbn; lia] | right; cbn; lia].
  - vm_compute. reflexivity.
Qed.


Lemma queue_order_witness :
  exists s', queue_step ex_two (SendEvent [] true) = Ok s' /\
    filter (fun p => for_addr 0x80000000 false p = true) (sent s') `prefix_of` [ex_pkt 1 0x80000000; ex_pkt 2 0x80000000].
Proof.
  destruct (queue_step ex_two (SendEvent [] true)) as [s' | e] eqn:E; [| vm_compute in E; discriminate E].
  exists s'. split; [reflexivity |].
  assert (Hr : queue_reachable true false s').
  { apply (qr_step true false ex_two (SendEvent [] true)); [exact ex_two_reachable | | exact E].
    exists 30. split; [reflexivity |]. split; [reflexivity |]. split; [intros p Hp; inversion Hp |].
    split; [discriminate | right; cbn; lia]. }
  destruct (queue_order true false s' Hr) as (_ & H & _). specialize (H eq_refl 0x80000000 false).
  vm_compute in E. injection E as <-. exact H.
Defined.

(** A peer that refuses a packet and enqueues another in the same call leaves a queue
    that waits with its event scheduled, and the event then fails an assertion. *)
Lemma refused_with_enqueue :
  exists q b, sendDeferredPacket 30 [(ex_pkt 2 0x80000040, 40)] false
      (mkPacketQueue [mkDeferred 30 (ex_pkt 1 0x80000000)] None false false false false) = Ok (ex_pkt 1 0x80000000, q, b) /\
    waitingOnRetry q = true /\ sendEvent q = Some 40 /\ processSendEvent 40 [] true (set_event None q) = Err AssertFail.
Proof. eexists _, _. split; [vm_compute; reflexivity |]. vm_compute. auto. Qed.
