(* ===== verification/XBarLayer.v ===== *)
(** The layers of a crossbar: [BaseXBar::Layer] of [src/gem5/src/mem/xbar.hh] and
    [xbar.cc].

    A layer arbitrates for one destination port.  It is idle, busy until its release
    event, or in the retry state while it tells a waiting source to try again; it
    queues the sources that found it busy and remembers the one whose packet the
    destination refused.  Sources are identified by number.  What a source does when
    told to retry happens inside the call: it is a list of attempts, each with what
    the destination answers and how long the layer is then busy. *)
From Stdlib Require Import ZArith Lia.
From stdpp Require Import base numbers list.
From S2P Require Import Prelude IntMath Clocked.

Open Scope Z_scope.

Inductive State : Type := IDLE | BUSY | RETRY.

#[export] Instance State_eq_dec : EqDecision State.
Proof. solve_decision. Defined.

Record Layer : Type := mkLayer {
  state : State;
  waitingForLayer : list Z;
  waitingForPeer : option Z;
  releaseEvent : option Z;
  occupancy : Z;
}.

Definition new_Layer : Layer := mkLayer IDLE [] None None 0.

Definition set_state (v : State) (l : Layer) : Layer :=
  mkLayer v (waitingForLayer l) (waitingForPeer l) (releaseEvent l) (occupancy l).
Definition set_waiting (v : list Z) (l : Layer) : Layer :=
  mkLayer (state l) v (waitingForPeer l) (releaseEvent l) (occupancy l).
Definition set_peer (v : option Z) (l : Layer) : Layer :=
  mkLayer (state l) (waitingForLayer l) v (releaseEvent l) (occupancy l).
Definition set_release (v : option Z) (l : Layer) : Layer :=
  mkLayer (state l) (waitingForLayer l) (waitingForPeer l) v (occupancy l).

(** [void occupyLayer(Tick until)] at the tick [cur]. *)
Definition occupyLayer (cur until : Z) (l : Layer) : outcome Layer :=
  do! assert_ (bool_decide (state l = BUSY)) then
  do! assert_ (negb (until =? 0)) then
  let! ev := schedule cur (releaseEvent l) until in
  Ok (mkLayer (state l) (waitingForLayer l) (waitingForPeer l) ev (occupancy l + (until - cur))).

(** [bool tryTiming(SrcType* src_port)]. *)
Definition tryTiming (src : Z) (l : Layer) : outcome (bool * Layer) :=
  if bool_decide (state l = BUSY) || bool_decide (is_Some (waitingForPeer l)) then
    do! assert_ (negb (bool_decide (src ∈ waitingForLayer l))) then
    Ok (false, set_waiting (waitingForLayer l ++ [src]) l)
  else Ok (true, set_state BUSY l).

(** [void succeededTiming(Tick busy_time)]. *)
Definition succeededTiming (cur busy_time : Z) (l : Layer) : outcome Layer :=
  do! assert_ (bool_decide (state l = BUSY)) then occupyLayer cur busy_time l.

(** [void failedTiming(SrcType* src_port, Tick busy_time)]. *)
Definition failedTiming (cur src busy_time : Z) (l : Layer) : outcome Layer :=
  do! assert_ (bool_decide (waitingForPeer l = None)) then
  let l := set_peer (Some src) l in
  do! assert_ (bool_decide (state l = BUSY)) then occupyLayer cur busy_time l.

(** A packet from a source: whether the destination takes it, and the time up to which
    the layer is busy with it. *)
Record attempt : Type := mkAttempt {
  a_src : Z;
  a_taken : bool;
  a_busy : Z;
}.

(** The use that the crossbar makes of a layer for a packet. *)
Definition run_attempt (cur : Z) (a : attempt) (l : Layer) : outcome Layer :=
  let! (b, l) := tryTiming (a_src a) l in
  if negb b then Ok l
  else if a_taken a then succeededTiming cur (a_busy a) l
  else failedTiming cur (a_src a) (a_busy a) l.

Fixpoint run_attempts (cur : Z) (rs : list attempt) (l : Layer) : outcome Layer :=
  match rs with
  | [] => Ok l
  | a :: rs => let! l := run_attempt cur a l in run_attempts cur rs l
  end.

(** [void retryWaiting()]: the source told to retry, which answers with [rs]; [edge] is
    the crossbar's next clock edge. *)
Definition retryWaiting (cur edge : Z) (rs : list attempt) (l : Layer) : outcome (Z * Layer) :=
  do! assert_ (negb (bool_decide (waitingForLayer l = []))) then
  do! assert_ (bool_decide (state l = IDLE)) then
  match waitingForLayer l with
  | [] => Err AssertFail
  | retryingPort :: waiting =>
      let! l := run_attempts cur rs (set_waiting waiting (set_state RETRY l)) in
      if bool_decide (state l = RETRY) then
        let! l := occupyLayer cur edge (set_state BUSY l) in Ok (retryingPort, l)
      else Ok (retryingPort, l)
  end.

(** [void releaseLayer()]: the source told to retry, if any, and whether the drain
    manager is told that the layer is done. *)
Definition releaseLayer (cur edge : Z) (rs : list attempt) (draining : bool) (l : Layer)
    : outcome (option Z * bool * Layer) :=
  do! assert_ (bool_decide (state l = BUSY)) then
  do! assert_ (negb (bool_decide (is_Some (releaseEvent l)))) then
  let l := set_state IDLE l in
  if negb (bool_decide (waitingForLayer l = [])) then
    if bool_decide (waitingForPeer l = None) then
      let! (p, l) := retryWaiting cur edge rs l in Ok (Some p, false, l)
    else Ok (None, false, l)
  else Ok (None, bool_decide (waitingForPeer l = None) && draining, l).

(** [void recvRetry()]. *)
Definition recvRetry (cur edge : Z) (rs : list attempt) (l : Layer) : outcome (option Z * Layer) :=
  match waitingForPeer l with
  | None => Err AssertFail
  | Some src =>
      let l := set_peer None (set_waiting (src :: waitingForLayer l) l) in
      if bool_decide (state l = IDLE) then
        let! (p, l) := retryWaiting cur edge rs l in Ok (Some p, l)
      else
        do! assert_ (bool_decide (state l = BUSY)) then Ok (None, l)
  end.

(** [DrainState drain()]: whether the layer says that it is drained. *)
Definition drain (l : Layer) : bool := bool_decide (state l = IDLE).

(** * Histories *)

(** A layer at a point in time. *)
Record layer_sys : Type := mkLayerSys { lay : Layer; now : Z }.

Inductive layer_op : Type :=
  | Arrive (a : attempt)
  | Release (edge : Z) (rs : list attempt) (draining : bool)
  | PeerRetry (edge : Z) (rs : list attempt)
  | Pass (t : Z).

(** A source that is waiting for a retry does not try; the layer is not made busy up to
    the past or up to tick zero. *)
Definition attempt_ok (cur : Z) (l : Layer) (a : attempt) : Prop :=
  (a_src a ∉ waitingForLayer l) /\ waitingForPeer l <> Some (a_src a) /\ cur <= a_busy a /\ 0 < a_busy a.

Fixpoint attempts_ok (cur : Z) (rs : list attempt) (l : Layer) : Prop :=
  match rs with
  | [] => True
  | a :: rs => attempt_ok cur l a /\ forall l', run_attempt cur a l = Ok l' -> attempts_ok cur rs l'
  end.

(** The state in which a source is told to retry. *)
Definition retrying (l : Layer) : Layer :=
  set_waiting (tail (waitingForLayer l)) (set_state RETRY (set_peer None l)).

Definition op_ok (s : layer_sys) (o : layer_op) : Prop :=
  match o with
  | Arrive a => attempt_ok (now s) (lay s) a
  | Release edge rs _ =>
      exists t, releaseEvent (lay s) = Some t /\ t <= edge /\
        (waitingForPeer (lay s) = None -> attempts_ok t rs (retrying (set_release None (lay s))))
  | PeerRetry edge rs =>
      exists src, waitingForPeer (lay s) = Some src /\ now s <= edge /\
        (state (lay s) = IDLE -> attempts_ok (now s) rs
           (retrying (set_waiting (src :: waitingForLayer (lay s)) (lay s))))
  | Pass t => now s <= t /\ forall e, releaseEvent (lay s) = Some e -> t <= e
  end.

(** A step, with the source that is told to retry. *)
Definition layer_step (s : layer_sys) (o : layer_op) : outcome (option Z * layer_sys) :=
  match o with
  | Arrive a => let! l := run_attempt (now s) a (lay s) in Ok (None, mkLayerSys l (now s))
  | Release edge rs draining =>
      match releaseEvent (lay s) with
      | None => Err Undefined
      | Some t =>
          let! (p, _, l) := releaseLayer t edge rs draining (set_release None (lay s)) in
          Ok (p, mkLayerSys l t)
      end
  | PeerRetry edge rs =>
      let! (p, l) := recvRetry (now s) edge rs (lay s) in Ok (p, mkLayerSys l (now s))
  | Pass t => Ok (None, mkLayerSys (lay s) t)
  end.

Inductive layer_reachable : layer_sys -> Prop :=
  | lr_init t : 0 <= t -> layer_reachable (mkLayerSys new_Layer t)
  | lr_step s o p s' : layer_reachable s -> op_ok s o -> layer_step s o = Ok (p, s') ->
      layer_reachable s'.

(** No source waits twice; a layer is busy exactly while its release is scheduled, and
    an idle layer has waiting sources only if it waits for its destination. *)
Record queues_ok (l : Layer) : Prop := {
  qo_nodup : NoDup (waitingForLayer l);
  qo_peer : forall p, waitingForPeer l = Some p -> p ∉ waitingForLayer l;
}.

Definition busy_ok (cur : Z) (l : Layer) : Prop :=
  state l = BUSY /\ exists t, releaseEvent l = Some t /\ cur <= t /\ 0 < t.

Record layer_inv (s : layer_sys) : Prop := {
  li_queues : queues_ok (lay s);
  li_time : 0 <= now s;
  li_state : busy_ok (now s) (lay s) \/
    (state (lay s) = IDLE /\ releaseEvent (lay s) = None /\
     (waitingForLayer (lay s) <> [] -> waitingForPeer (lay s) <> None) /\
     (waitingForPeer (lay s) <> None -> 0 < now s));
}.

(** * Invariant *)

Lemma occupy_ok cur until l : state l = BUSY -> releaseEvent l = None -> cur <= until -> 0 < until ->
  exists l', occupyLayer cur until l = Ok l' /\ busy_ok cur l' /\
    waitingForLayer l' = waitingForLayer l /\ waitingForPeer l' = waitingForPeer l.
Proof.
  intros Hs He Hc Hu. unfold occupyLayer, schedule. rewrite Hs, He.
  destruct (Z.eqb_spec until 0); [lia |]. destruct (Z.leb_spec cur until); [| lia]. cbn.
  eexists. split; [reflexivity |]. split; [| done]. split; [done |]. exists until. split; [done | lia].
Qed.

Lemma queue_push l src : queues_ok l -> (src ∉ waitingForLayer l) -> waitingForPeer l <> Some src ->
  queues_ok (set_waiting (waitingForLayer l ++ [src]) l).
Proof.
  intros [Hn Hp] Hin Hpeer. split; cbn.
  - apply NoDup_app. split_and!; [done | | apply NoDup_singleton]. by intros x Hx ->%list_elem_of_singleton.
  - intros p E [H | ->%list_elem_of_singleton]%elem_of_app; [by apply (Hp p) | done].
Qed.

(** An attempt at a layer that is busy or free to take it. *)
Lemma run_attempt_ok cur a l : queues_ok l -> attempt_ok cur l a ->
  busy_ok cur l \/ (state l <> BUSY /\ releaseEvent l = None) ->
  exists l' extra, run_attempt cur a l = Ok l' /\ queues_ok l' /\
    waitingForLayer l' = waitingForLayer l ++ extra /\
    (busy_ok cur l' \/ (waitingForPeer l <> None /\ state l <> BUSY /\ state l' = state l /\
                        releaseEvent l' = None /\ waitingForPeer l' = waitingForPeer l)).
Proof.
  intros Hq (Hin & Hpeer & Hc & Hb) Hst. unfold run_attempt, tryTiming.
  assert (Hno : negb (bool_decide (a_src a ∈ waitingForLayer l)) = true) by (by rewrite bool_decide_eq_false_2).
  destruct (bool_decide (state l = BUSY)) eqn:Es.
  { apply bool_decide_eq_true in Es. rewrite Hno. cbn.
    exists (set_waiting (waitingForLayer l ++ [a_src a]) l), [a_src a]. split_and!; [done | by apply queue_push | done |].
    left. destruct Hst as [[_ H] | [? _]]; [by split | done]. }
  apply bool_decide_eq_false in Es. destruct Hst as [[? _] | [_ He]]; [done |]. cbn [orb].
  destruct (waitingForPeer l) as [p |] eqn:Ep.
  { rewrite bool_decide_eq_true_2 by eauto. rewrite Hno. cbn.
    exists (set_waiting (waitingForLayer l ++ [a_src a]) l), [a_src a].
    split_and!; [done | | done |]; [apply queue_push; congruence |]. right. by split_and!. }
  rewrite bool_decide_eq_false_2 by (by intros [? ?]). cbn [obind negb].
  destruct (a_taken a).
  - destruct (occupy_ok cur (a_busy a) (set_state BUSY l)) as (l' & E & Hbusy & Ew & Epr); auto.
    exists l', []. unfold succeededTiming. cbn. rewrite E, app_nil_r. split_and!; [done | | done | by left].
    destruct Hq as [Hn Hp]. split; rewrite ?Ew, ?Epr; auto.
  - destruct (occupy_ok cur (a_busy a) (set_peer (Some (a_src a)) (set_state BUSY l))) as (l' & E & Hbusy & Ew & Epr); auto.
    exists l', []. unfold failedTiming. cbn. rewrite Ep. cbn. cbn in E. rewrite E, app_nil_r. split_and!; [done | | done | by left].
    destruct Hq as [Hn Hp]. split; rewrite ?Ew, ?Epr; cbn; [done |]. by intros p [= <-].
Qed.

(** The attempts of a source that was told to retry. *)
Lemma run_attempts_ok cur rs : forall l, queues_ok l -> attempts_ok cur rs l ->
  busy_ok cur l \/ (state l = RETRY /\ releaseEvent l = None /\ waitingForPeer l = None) ->
  exists l' extra, run_attempts cur rs l = Ok l' /\ queues_ok l' /\
    waitingForLayer l' = waitingForLayer l ++ extra /\
    (busy_ok cur l' \/ (state l' = RETRY /\ releaseEvent l' = None /\ waitingForPeer l' = None)).
Proof.
  induction rs as [| a rs IH]; intros l Hq Hok Hst; cbn [run_attempts].
  { exists l, []. by rewrite app_nil_r. }
  destruct Hok as [Ha Hrs].
  destruct (run_attempt_ok cur a l Hq Ha) as (l1 & ex1 & E & Hq1 & Ew1 & Hb1).
  { destruct Hst as [? | (Es & ? & _)]; [by left | right; split; [congruence | done]]. }
  rewrite E. cbn [obind].
  destruct (IH l1 Hq1 (Hrs l1 E)) as (l' & ex & E' & Hq' & Ew' & Hb').
  { destruct Hb1 as [? | (Hp & Hs & _)]; [by left |]. by destruct Hst as [[? _] | (_ & _ & ?)]. }
  exists l', (ex1 ++ ex). split_and!; auto. by rewrite Ew', Ew1, app_assoc.
Qed.

(** Telling the first of the waiting sources to retry. *)
Lemma retryWaiting_ok cur edge rs l p waiting : queues_ok l -> state l = IDLE -> releaseEvent l = None ->
  waitingForPeer l = None -> waitingForLayer l = p :: waiting -> cur <= edge -> 0 < edge ->
  attempts_ok cur rs (retrying l) ->
  exists l' extra, retryWaiting cur edge rs l = Ok (p, l') /\ queues_ok l' /\ busy_ok cur l' /\
    waitingForLayer l' = waiting ++ extra.
Proof.
  intros [Hn Hp] Hs He Hpeer Hw Hc Hedge Hrs. unfold retryWaiting. rewrite Hw, Hs. cbn [obind assert_ bool_decide negb].
  unfold retrying in Hrs. rewrite Hw in Hrs. cbn [tail] in Hrs.
  replace (set_peer None l) with l in Hrs by (destruct l; cbn in *; by rewrite Hpeer).
  destruct (run_attempts_ok cur rs (set_waiting waiting (set_state RETRY l))) as (l1 & ex & E & Hq1 & Ew & Hb);
    [| done | by right |].
  { rewrite Hw in Hn. inversion Hn; subst. split; cbn; [done | congruence]. }
  change (bool_decide (IDLE = IDLE)) with true. cbn. rewrite E. cbn [obind].
  destruct Hb as [Hb | (Hs1 & He1 & Hp1)].
  - pose proof Hb as [Hs1 _]. rewrite Hs1. cbn. by exists l1, ex.
  - rewrite Hs1. change (bool_decide (RETRY = RETRY)) with true. cbn iota.
    destruct (occupy_ok cur edge (set_state BUSY l1)) as (l2 & -> & Hb2 & Ew2 & Ep2); auto.
    exists l2, ex. split_and!; [done | | done | by rewrite Ew2].
    destruct Hq1 as [Hn1 Hpp]. split; rewrite ?Ew2, ?Ep2; auto.
Qed.

(** What a step promises: whom it tells to retry, and the order of the others. *)
Definition step_post (s : layer_sys) (o : layer_op) (p : option Z) (s' : layer_sys) : Prop :=
  match o with
  | Arrive _ => p = None /\ exists extra, waitingForLayer (lay s') = waitingForLayer (lay s) ++ extra
  | Release _ _ _ =>
      (waitingForPeer (lay s) = None -> forall q waiting, waitingForLayer (lay s) = q :: waiting ->
         p = Some q /\ exists extra, waitingForLayer (lay s') = waiting ++ extra)
  | PeerRetry _ _ =>
      forall q, waitingForPeer (lay s) = Some q ->
        (state (lay s) = IDLE -> p = Some q /\ exists extra, waitingForLayer (lay s') = waitingForLayer (lay s) ++ extra) /\
        (state (lay s) = BUSY -> p = None /\ waitingForLayer (lay s') = q :: waitingForLayer (lay s))
  | Pass _ => p = None /\ lay s' = lay s
  end.

Definition step_good (s : layer_sys) (o : layer_op) : Prop :=
  exists p s', layer_step s o = Ok (p, s') /\ layer_inv s' /\ step_post s o p s'.

Lemma arrive_good s a : layer_inv s -> op_ok s (Arrive a) -> step_good s (Arrive a).
Proof.
  intros [Hq Ht Hst] Hok. pose proof Hq as [Hn Hp]. unfold step_good, step_post. cbn [layer_step op_ok] in *.
  destruct (run_attempt_ok (now s) a (lay s) Hq Hok) as (l' & ex & -> & Hq' & Ew & Hb).
  { destruct Hst as [? | (Hs & He & _)]; [by left | right; split; [congruence | done]]. }
  cbn [obind]. eexists _, _. split; [reflexivity |]. cbn [lay now]. split; [| by eauto].
  split; cbn [lay now]; auto. destruct Hb as [? | (Hpe & Hnb & Hs' & He' & Hp')]; [by left |].
  right. destruct Hst as [[? _] | (Hs & He & Hw & Hpos)]; [congruence |]. split_and!; try congruence.
  intros _. by apply Hpos.
Qed.

Lemma release_good s edge rs draining : layer_inv s -> op_ok s (Release edge rs draining) -> step_good s (Release edge rs draining).
Proof.
  intros [Hq Ht Hst] Hok. pose proof Hq as [Hn Hp]. unfold step_good, step_post. cbn [layer_step op_ok] in *.
  destruct Hok as (t & Hev & Hedge & Hrs). rewrite Hev.
  destruct Hst as [(Hs & t' & Hev' & Hcur & Hpos) | (_ & He & _)]; [| congruence].
  rewrite Hev in Hev'. injection Hev' as <-. unfold releaseLayer. cbn [set_release state releaseEvent]. rewrite Hs.
  cbn [obind assert_ negb bool_decide]. change (bool_decide (BUSY = BUSY)) with true. cbn [obind assert_].
  rewrite bool_decide_eq_false_2 by (by intros [? ?]). cbn [negb obind assert_ waitingForLayer waitingForPeer set_state].
  change (waitingForLayer (set_release None (lay s))) with (waitingForLayer (lay s)).
  change (waitingForPeer (set_release None (lay s))) with (waitingForPeer (lay s)).
  destruct (waitingForLayer (lay s)) as [| q w] eqn:Ew.
  + rewrite bool_decide_eq_true_2 by done. cbn [negb obind]. eexists _, _. split; [reflexivity |].
    split; [| done]. split; cbn; [split; cbn; rewrite ?Ew; auto | lia |]. right. split_and!; [done | done | by rewrite Ew | intros; lia].
  + rewrite (bool_decide_eq_false_2 (q :: w = [])) by done. cbn [negb].
    destruct (waitingForPeer (lay s)) as [pp |] eqn:Ep.
    * rewrite bool_decide_eq_false_2 by done. cbn [obind]. eexists _, _. split; [reflexivity |].
      split; [| done]. split; cbn; [split; cbn; rewrite ?Ew, ?Ep; auto | lia |]. right. rewrite Ep. split_and!; [done | done | done | intros; lia].
    * rewrite bool_decide_eq_true_2 by done.
      destruct (retryWaiting_ok t edge rs (set_state IDLE (set_release None (lay s))) q w) as (l' & ex & -> & Hq' & Hb & Ew');
        auto; try lia.
      { split; cbn; rewrite ?Ew; auto. congruence. }
      cbn [obind]. eexists _, _. split; [reflexivity |]. split; [split; cbn; [done | lia | by left] |].
      intros _ q' w' [= <- <-]. cbn. eauto.
Qed.

Lemma peer_retry_good s edge rs : layer_inv s -> op_ok s (PeerRetry edge rs) -> step_good s (PeerRetry edge rs).
Proof.
  intros [Hq Ht Hst] Hok. pose proof Hq as [Hn Hp]. unfold step_good, step_post. cbn [layer_step op_ok] in *.
  destruct Hok as (src & Hpe & Hedge & Hrs). unfold recvRetry. rewrite Hpe.
  cbn [state set_peer set_waiting]. destruct Hst as [(Hs & t & Hev & Hcur & Hpos) | (Hs & He & Hw & Hpos)]; rewrite Hs.
  + change (bool_decide (BUSY = IDLE)) with false. change (bool_decide (BUSY = BUSY)) with true. cbn [obind assert_].
    eexists _, _. split; [reflexivity |]. split; [| intros q [= <-]; split; [congruence | by cbn]].
    split; cbn; auto; [| left; split; [done | by exists t]].
    split; cbn; [constructor; [by apply Hp | done] | done].
  + change (bool_decide (IDLE = IDLE)) with true. cbn iota.
    destruct (retryWaiting_ok (now s) edge rs (set_peer None (set_waiting (src :: waitingForLayer (lay s)) (lay s)))
                src (waitingForLayer (lay s))) as (l' & ex & -> & Hq' & Hb & Ew'); auto.
    { split; cbn; [constructor; [by apply Hp | done] | done]. }
    { specialize (Hpos ltac:(congruence)). lia. }
    cbn [obind]. eexists _, _. split; [reflexivity |]. split; [split; cbn; auto; by left |].
    intros q [= <-]. cbn. split; [eauto | congruence].
Qed.

Lemma pass_good s t : layer_inv s -> op_ok s (Pass t) -> step_good s (Pass t).
Proof.
  intros [Hq Ht Hst] Hok. pose proof Hq as [Hn Hp]. unfold step_good, step_post. cbn [layer_step op_ok] in *.
  destruct Hok as [Hle Hbound]. eexists _, _. split; [reflexivity |]. split; [| done]. split; cbn; auto; [lia |].
  destruct Hst as [(Hs & e & Hev & Hcur & Hpos) | (Hs & He & Hw & Hpos)].
  + left. split; [done |]. exists e. specialize (Hbound e Hev). split_and!; auto.
  + right. split_and!; auto. intros H. specialize (Hpos H). lia.
Qed.

(** Every allowed step succeeds and keeps the invariant. *)
Lemma layer_step_ok s o : layer_inv s -> op_ok s o -> step_good s o.
Proof.
  destruct o; [apply arrive_good | apply release_good | apply peer_retry_good | apply pass_good].
Qed.

Lemma layer_reachable_inv s : layer_reachable s -> layer_inv s.
Proof.
  induction 1 as [t Ht | s o p s' _ IH Hok Hstep].
  - split; cbn; [split; cbn; [constructor | done] | done |]. right. by split_and!.
  - destruct (layer_step_ok s o IH Hok) as (p1 & s1 & E & Hinv & _). rewrite Hstep in E. by simplify_eq.
Qed.

(** No assertion of a layer fails in any history in which sources that wait for a
    retry do not send, retries answer refusals and packets do not end in the past:
    every further such step returns. *)
Theorem layer_never_asserts s o : layer_reachable s -> op_ok s o ->
  exists p s', layer_step s o = Ok (p, s') /\
    (state (lay s') = BUSY <-> exists t, releaseEvent (lay s') = Some t) /\ state (lay s') <> RETRY /\
    NoDup (waitingForLayer (lay s')).
Proof.
  intros Hr Hok. destruct (layer_step_ok s o (layer_reachable_inv s Hr) Hok) as (p & s' & E & [[Hn _] _ Hst] & _).
  exists p, s'. split; [done |]. destruct Hst as [(Hs & t & Hev & _) | (Hs & He & _)].
  - rewrite Hs. split_and!; [split; eauto | done | done].
  - rewrite Hs, He. split_and!; [| done | done]. split; [done | by intros [? ?]].
Qed.

(** No retry is lost and the retries are in order.  In every such history, while a
    source waits the layer has a release scheduled or waits for its destination;
    a release with the destination free tells the source that has waited longest,
    a retry from the destination tells the source it refused (or puts it first in
    the queue), and the others keep their order ahead of newcomers. *)
Theorem layer_retries s : layer_reachable s ->
  (waitingForLayer (lay s) <> [] ->
     (exists t, releaseEvent (lay s) = Some t /\ now s <= t) \/ waitingForPeer (lay s) <> None) /\
  (forall edge rs draining q waiting, op_ok s (Release edge rs draining) ->
     waitingForPeer (lay s) = None -> waitingForLayer (lay s) = q :: waiting ->
     exists s' extra, layer_step s (Release edge rs draining) = Ok (Some q, s') /\
       waitingForLayer (lay s') = waiting ++ extra) /\
  (forall edge rs q, op_ok s (PeerRetry edge rs) -> waitingForPeer (lay s) = Some q ->
     exists p s' extra, layer_step s (PeerRetry edge rs) = Ok (p, s') /\
       ((p = Some q /\ waitingForLayer (lay s') = waitingForLayer (lay s) ++ extra) \/
        (p = None /\ waitingForLayer (lay s') = q :: waitingForLayer (lay s)))).
Proof.
  intros Hr. pose proof (layer_reachable_inv s Hr) as Hinv. split_and!.
  - intros Hw. destruct Hinv as [_ _ [(_ & t & Hev & Hc & _) | (_ & _ & H & _)]]; [left; eauto | right; auto].
  - intros edge rs draining q waiting Hok Hp Hw.
    destruct (layer_step_ok s _ Hinv Hok) as (p & s' & E & _ & H). destruct (H Hp q waiting Hw) as (-> & ex & Ew).
    by exists s', ex.
  - intros edge rs q Hok Hp. destruct (layer_step_ok s _ Hinv Hok) as (p & s' & E & _ & H).
    destruct (H q Hp) as [Hidle Hbusy]. exists p, s'.
    destruct Hinv as [_ _ [(Hs & _) | (Hs & _)]].
    + exists []. split; [done |]. right. by apply Hbusy.
    + destruct (Hidle Hs) as (-> & ex & Ew). exists ex. split; [done |]. by left.
Qed.

(** ** Instances *)

(** Source 1 is sending until tick 10, and source 2 waits. *)
Definition ex_waiting : layer_sys := mkLayerSys (mkLayer BUSY [2] None (Some 10) 5) 5.

Lemma ex_waiting_reachable : layer_reachable ex_waiting.
Proof.
  apply (lr_step (mkLayerSys (mkLayer BUSY [] None (Some 10) 5) 5) (Arrive (mkAttempt 2 true 30)) None).
  - apply (lr_step (mkLayerSys new_Layer 5) (Arrive (mkAttempt 1 true 10)) None).
    + apply lr_init. lia.
    + split_and!; cbn; [apply not_elem_of_nil | discriminate | lia | lia].
    + vm_compute. reflexivity.
  - split_and!; cbn; [apply not_elem_of_nil | discriminate | lia | lia].
  - vm_compute. reflexivity.
Qed.

Lemma ex_release_ok : op_ok ex_waiting (Release 10 [mkAttempt 2 true 40] false).
Proof.
  exists 10. split_and!; cbn; [reflexivity | lia |]. intros _.
  split; [split_and!; cbn; [apply not_elem_of_nil | discriminate | lia | lia] | intros; exact I].
Qed.

Lemma layer_never_asserts_witness :
  exists p s', layer_step ex_waiting (Release 10 [mkAttempt 2 true 40] false) = Ok (p, s') /\ state (lay s') <> RETRY.
Proof.
  destruct (layer_never_asserts ex_waiting (Release 10 [mkAttempt 2 true 40] false) ex_waiting_reachable ex_release_ok)
    as (p & s' & H1 & _ & H2 & _).
  exists p, s'. split; [exact H1 | exact H2].
Defined.

Lemma layer_retries_witness :
  exists s' extra, layer_step ex_waiting (Release 10 [mkAttempt 2 true 40] false) = Ok (Some 2, s') /\
    waitingForLayer (lay s') = [] ++ extra.
Proof.
  destruct (layer_retries ex_waiting ex_waiting_reachable) as (_ & H & _).
  apply (H 10 [mkAttempt 2 true 40] false 2 []); [exact ex_release_ok | reflexivity | reflexivity].
Defined.

(** A layer whose destination has refused a packet says that it is drained. *)
Lemma drain_ignores_peer :
  drain (mkLayer IDLE [] (Some 1) None 5) = true.
Proof. reflexivity. Qed.
