(* ===== verification/XBar.v ===== *)
(** What the crossbars share: address decoding, range changes and packet timing of
    [BaseXBar] in [src/gem5/src/mem/xbar.hh] and [xbar.cc]. *)
From Stdlib Require Import ZArith Lia.
From stdpp Require Import base numbers list sorting.
From S2P Require Import Prelude IntMath AddrRange AddrRangeMap MemPacket SnoopFilter Clocked.

Open Scope Z_scope.

(** The decoder is [AddrRangeMap<PortID, 3>]. *)
Definition portMap_cache : nat := 3.

Record BaseXBar : Type := mkBaseXBar {
  portMap : AddrRangeMap Z;
  gotAddrRanges : list bool;
  gotAllAddrRanges : bool;
  defaultPortID : Z;
  useDefaultRange : bool;
  defaultRange : AddrRange;
  xbarRanges : list AddrRange;
  width : Z;
}.

Definition set_portMap (v : AddrRangeMap Z) (x : BaseXBar) : BaseXBar :=
  mkBaseXBar v (gotAddrRanges x) (gotAllAddrRanges x) (defaultPortID x) (useDefaultRange x)
    (defaultRange x) (xbarRanges x) (width x).
Definition set_got (v : list bool) (all : bool) (x : BaseXBar) : BaseXBar :=
  mkBaseXBar (portMap x) v all (defaultPortID x) (useDefaultRange x) (defaultRange x) (xbarRanges x) (width x).
Definition set_defaultRange (v : AddrRange) (x : BaseXBar) : BaseXBar :=
  mkBaseXBar (portMap x) (gotAddrRanges x) (gotAllAddrRanges x) (defaultPortID x) (useDefaultRange x)
    v (xbarRanges x) (width x).
Definition set_xbarRanges (v : list AddrRange) (x : BaseXBar) : BaseXBar :=
  mkBaseXBar (portMap x) (gotAddrRanges x) (gotAllAddrRanges x) (defaultPortID x) (useDefaultRange x)
    (defaultRange x) v (width x).

(** [PortID findPort(AddrRange addr_range, PacketPtr pkt)]. *)
Definition findPort_range (r : AddrRange) (x : BaseXBar) : outcome (Z * BaseXBar) :=
  do! assert_ (gotAllAddrRanges x) then
  let! (i, m) := map_contains portMap_cache r (portMap x) in
  let x := set_portMap m x in
  match i with
  | Some e => Ok (e.2, x)
  | None =>
      if useDefaultRange x then
        let! b := isSubset r (defaultRange x) in
        if b then Ok (defaultPortID x, x) else Err Fatal
      else if negb (defaultPortID x =? InvalidPortID) then Ok (defaultPortID x, x)
      else Err Fatal
  end.

(** [PortID findPort(PacketPtr pkt)]. *)
Definition findPort (pkt : Packet) (x : BaseXBar) : outcome (Z * BaseXBar) :=
  let! r := getAddrRange pkt in findPort_range r x.

(** * Range changes *)

(** The loop that erases the entries of a port. *)
Definition erase_port (id : Z) (m : AddrRangeMap Z) : AddrRangeMap Z :=
  fold_left (fun m e => if e.2 =? id then erase e.1 m else m) (tree m) m.

(** The loop that inserts the ranges of a port; a conflict is fatal. *)
Fixpoint insert_ranges (id : Z) (rs : list AddrRange) (m : AddrRangeMap Z) : outcome (AddrRangeMap Z) :=
  match rs with
  | [] => Ok m
  | r :: rs =>
      let! (ok, m) := insert portMap_cache r id m in
      if ok then insert_ranges id rs m else Err Fatal
  end.

(** [AddrRange merged_range(intlv_ranges)], kept unless it is in the default range. *)
Definition add_range (x : BaseXBar) (r : AddrRange) (acc : list AddrRange) : outcome (list AddrRange) :=
  let! b := (if useDefaultRange x then isSubset r (defaultRange x) else Ok false) in
  Ok (if b then acc else acc ++ [r]).
Definition add_merged (x : BaseXBar) (intlv_ranges acc : list AddrRange) : outcome (list AddrRange) :=
  match intlv_ranges with
  | [] => Ok acc
  | _ => let! merged_range := AddrRange_merge intlv_ranges in add_range x merged_range acc
  end.

(** The loop over the decoder that collects the announced ranges. *)
Fixpoint aggregate (x : BaseXBar) (t : list (AddrRange * Z)) (intlv_ranges acc : list AddrRange)
    : outcome (list AddrRange) :=
  match t with
  | [] => add_merged x intlv_ranges acc
  | (r, _) :: t =>
      if interleaved r then
        match list.last intlv_ranges with
        | Some back =>
            if mergesWith back r then aggregate x t (intlv_ranges ++ [r]) acc
            else let! acc := add_merged x intlv_ranges acc in aggregate x t [r] acc
        | None => aggregate x t [r] acc
        end
      else let! acc := add_range x r acc in aggregate x t intlv_ranges acc
  end.

(** The check against partial overlap with the default range. *)
Fixpoint check_default (d : AddrRange) (rs : list AddrRange) : outcome unit :=
  match rs with
  | [] => Ok tt
  | r :: rs =>
      let! i := intersects r d in
      let! s := (if i then isSubset r d else Ok true) in
      if i && negb s then Err Fatal else check_default d rs
  end.

(** [void recvRangeChange(PortID mem_side_port_id)]: [ranges] is what the peer of the port
    announces; the result says whether the crossbar tells its neighbours. *)
Definition recvRangeChange (id : Z) (ranges : list AddrRange) (x : BaseXBar) : outcome (bool * BaseXBar) :=
  if (id <? 0) || (Z.of_nat (length (gotAddrRanges x)) <=? id) then Err Undefined else
  let got := <[Z.to_nat id := true]> (gotAddrRanges x) in
  let x := set_got got (if gotAllAddrRanges x then true else forallb (fun b => b) got) x in
  let! x :=
    (if id =? defaultPortID x then
       if useDefaultRange x then
         match ranges with [r] => Ok (set_defaultRange r x) | _ => Err Fatal end
       else Ok x
     else
       let! m := insert_ranges id ranges (erase_port id (portMap x)) in Ok (set_portMap m x)) in
  if gotAllAddrRanges x then
    let! start :=
      (if useDefaultRange x then
         match (if defaultPortID x <? 0 then None else gotAddrRanges x !! Z.to_nat (defaultPortID x)) with
         | None => Err Undefined
         | Some false => Err Fatal
         | Some true => Ok [defaultRange x]
         end
       else Ok []) in
    let! rs := aggregate x (tree (portMap x)) [] start in
    let! _ := (if useDefaultRange x then check_default (defaultRange x) rs else Ok tt) in
    Ok (true, set_xbarRanges rs x)
  else Ok (false, x).

(** [AddrRangeList getAddrRanges() const]. *)
Definition getAddrRanges (x : BaseXBar) : outcome (list AddrRange) :=
  do! assert_ (gotAllAddrRanges x) then Ok (xbarRanges x).

(** * Packet timing *)

(** [void calcPacketTiming(PacketPtr pkt, Tick header_delay)]: [us] is a microsecond in
    ticks; the delays of a packet are 32-bit. *)
Definition calcPacketTiming (us cur : Z) (clk : Clocked) (header_delay : Z) (x : BaseXBar) (pkt : Packet)
    : outcome (Packet * Clocked) :=
  let! (edge, clk) := clockEdge cur 0 clk in
  let offset := u64 (edge - cur) in
  let pkt := set_headerDelay (u32 (headerDelay pkt + u64 (offset + header_delay))) pkt in
  do! panic_if (us <? headerDelay pkt) then
  if hasData (cmd pkt) then
    let! s := getSize pkt in
    let! beats := (if width x =? 0 then Err Undefined else Ok (u32 (u32 (s + width x) - 1) / width x)) in
    Ok (set_payloadDelay (u32 (Z.max (payloadDelay pkt) (u64 (beats * clockPeriod clk)))) pkt, clk)
  else Ok (pkt, clk).

(** * What a range change does to the decoder *)

Lemma apart_irrefl a : 0 <= _start a < _end a -> ~ apart a a.
Proof. intros Ha [? | (_ & _ & ?)]; lia. Qed.

Lemma keys_unique {V} (m : AddrRangeMap V) e f : map_wf m -> e ∈ tree m -> f ∈ tree m -> e.1 = f.1 -> e = f.
Proof.
  intros [Hs Hr _] He Hf E. rewrite Forall_forall in Hr.
  destruct (sorted_pairs _ _ e f Hs He Hf) as [? | [H | H]]; [done | |];
    rewrite E in H; by apply apart_irrefl in H; [| apply (Hr f)].
Qed.

Lemma erase_loop id l : forall m : AddrRangeMap Z, map_wf m ->
  let m' := fold_left (fun m e => if e.2 =? id then erase e.1 m else m) l m in
  map_wf m' /\ forall e, e ∈ tree m' <-> e ∈ tree m /\ ~ exists f, f ∈ l /\ f.2 = id /\ f.1 = e.1.
Proof.
  induction l as [| g l IH]; intros m Hwf; cbn [fold_left].
  { split; [done |]. intros e. split; [| tauto]. intros He. split; [done |]. by intros (f & ?%not_elem_of_nil & _). }
  destruct (Z.eqb_spec g.2 id) as [E | E].
  - destruct (IH (erase g.1 m) (erase_wf g.1 m Hwf)) as [Hw Hin]. split; [done |]. intros e. rewrite Hin.
    cbn. unfold tree_erase. rewrite list_elem_of_filter. split.
    + intros [[Hk He] Hn]. split; [done |]. intros (f & [-> | Hf]%elem_of_cons & Ef & Ek); [congruence | apply Hn; eauto].
    + intros [He Hn]. split; [split; [| done] |].
      * intros Ek. apply Hn. exists g. split_and!; [by left | done | congruence].
      * intros (f & Hf & Ef & Ek). apply Hn. exists f. split_and!; [by right | done | done].
  - destruct (IH m Hwf) as [Hw Hin]. split; [done |]. intros e. rewrite Hin. split; intros [He Hn]; (split; [done |]).
    + intros (f & [-> | Hf]%elem_of_cons & Ef & Ek); [done | apply Hn; eauto].
    + intros (f & Hf & Ef & Ek). apply Hn. exists f. split_and!; [by right | done | done].
Qed.

Lemma erase_port_spec id (m : AddrRangeMap Z) : map_wf m ->
  map_wf (erase_port id m) /\ forall e, e ∈ tree (erase_port id m) <-> e ∈ tree m /\ e.2 <> id.
Proof.
  intros Hwf. destruct (erase_loop id (tree m) m Hwf) as [Hw Hin]. split; [done |].
  intros e. unfold erase_port. rewrite Hin. split; intros [He Hn]; (split; [done |]).
  - intros E. apply Hn. eauto.
  - intros (f & Hf & Ef & Ek). by rewrite (keys_unique m f e Hwf Hf He Ek) in Ef.
Qed.

(** Ranges a port can announce next to the entries of a decoder. *)
Fixpoint announceable (rs : list AddrRange) (known : AddrRange -> Prop) : Prop :=
  match rs with
  | [] => True
  | r :: rs => 0 <= _start r < _end r /\ (forall e, known e -> comparable r e) /\
      announceable rs (fun e => known e \/ e = r)
  end.

Lemma announceable_mono rs : forall P Q : AddrRange -> Prop, (forall e, Q e -> P e) -> announceable rs P -> announceable rs Q.
Proof.
  induction rs as [| r rs IH]; intros P Q HPQ; cbn; [done |]. intros (Hr & Hc & Hrs). split; [done |]. split; [auto |].
  eapply IH; [| exact Hrs]. cbn. intros e [? | ?]; auto.
Qed.

Lemma insert_ranges_ok id rs : forall m m', map_wf m ->
  announceable rs (fun e => exists d, (e, d) ∈ tree m) -> insert_ranges id rs m = Ok m' ->
  map_wf m' /\ forall r d, (r, d) ∈ tree m' <-> (d = id /\ r ∈ rs) \/ (r, d) ∈ tree m.
Proof.
  induction rs as [| r rs IH]; intros m m' Hwf Han; cbn [insert_ranges].
  { intros [= <-]. split; [done |]. intros r d. split; [by right |]. intros [[_ ?%not_elem_of_nil] | ?]; done. }
  destruct Han as (Hr & Hc & Han).
  destruct (insert_keeps_apart portMap_cache r id m Hwf Hr) as (b & m1 & -> & Hwf1 & Ht & _).
  { intros [e d] He. apply Hc. by exists d. }
  cbn [obind]. destruct b; [| done]. destruct (Ht eq_refl) as [Hp _]. intros E.
  destruct (IH m1 m' Hwf1) as [Hw' Hin]; [| done |].
  - eapply announceable_mono; [| exact Han]. cbn. intros e [d He]. rewrite Hp in He.
    apply elem_of_cons in He as [[= -> ->] | He]; [by right | left; by exists d].
  - split; [done |]. intros r' d'. rewrite Hin, Hp, !elem_of_cons. intuition (simplify_eq; auto).
Qed.

(** What is left of the checks once they pass. *)
Lemma recvRangeChange_map id ranges x told x' : recvRangeChange id ranges x = Ok (told, x') ->
  id <> defaultPortID x -> exists m, insert_ranges id ranges (erase_port id (portMap x)) = Ok m /\
    portMap x' = m /\ told = gotAllAddrRanges x'.
Proof.
  unfold recvRangeChange. destruct (_ || _); [done |]. cbn [defaultPortID set_got portMap]. intros H Hne.
  destruct (Z.eqb_spec id (defaultPortID x)); [done |]. obind_inv. exists a0. split; [done |].
  match type of H with (if ?b then _ else _) = _ => destruct b eqn:Eg end; obind_inv; by split.
Qed.

(** After a port has announced its ranges, the decoder has exactly these ranges for
    the port and the old ones for the others, still apart from each other; so a
    packet whose range lies in one of them is routed to the port that announced it. *)
Theorem range_change_routes id ranges x told x' : map_wf (portMap x) -> id <> defaultPortID x ->
  announceable ranges (fun e => exists d, (e, d) ∈ tree (portMap x) /\ d <> id) ->
  recvRangeChange id ranges x = Ok (told, x') ->
  map_wf (portMap x') /\
  (forall r d, (r, d) ∈ tree (portMap x') <-> (d = id /\ r ∈ ranges) \/ (d <> id /\ (r, d) ∈ tree (portMap x))) /\
  (forall q r d, (r, d) ∈ tree (portMap x') -> told = true -> interleaved q = false -> _start q < _end q ->
     decided (isSubset q) (tree (portMap x')) -> isSubset q r = Ok true ->
     exists x'', findPort_range q x' = Ok (d, x'')).
Proof.
  intros Hwf Hne Han E. destruct (recvRangeChange_map _ _ _ _ _ E Hne) as (m & Hins & <- & ->).
  destruct (erase_port_spec id (portMap x) Hwf) as [Hwe Hine].
  destruct (insert_ranges_ok id ranges (erase_port id (portMap x)) (portMap x') Hwe) as [Hw Hin]; [| done |].
  { eapply announceable_mono; [| exact Han]. cbn. intros e [d [He Hd]%Hine]. by exists d. }
  split_and!; [done | |].
  - intros r d. rewrite Hin, Hine. cbn. tauto.
  - intros q r d Hr Hgot Hi Hq Hdec Hsub. unfold findPort_range. rewrite Hgot. cbn [assert_ obind].
    destruct (map_contains_ok portMap_cache q (portMap x') Hw Hi Hq Hdec) as (m' & -> & _). cbn [obind].
    pose proof (search_spec (isSubset q) (tree (portMap x'))) as Hs.
    destruct (search _ _) as [e |]; [| by destruct (Hs _ Hr)]. destruct Hs as [He Hh]. eexists.
    destruct (sorted_pairs _ _ e (r, d) (mw_apart _ Hw) He Hr) as [-> | [H | H]]; [done | |];
      exfalso; by eapply apart_not_both in H.
Qed.

(** ** Instance *)

Definition ex_xbar : BaseXBar :=
  mkBaseXBar (mkAddrRangeMap [(ex_stripe 0, 0); (ex_stripe 1, 1)] []) [true; true; false] false InvalidPortID false
    AddrRange_default [] 16.

Lemma ex_xbar_wf : map_wf (portMap ex_xbar).
Proof.
  split; cbn; [| | constructor].
  - apply SSorted_cons; [apply SSorted_cons; [apply SSorted_nil |] |]; rewrite ?Forall_cons, Forall_nil; auto.
    split; [| done]. right. vm_compute. auto.
  - repeat constructor; vm_compute; try discriminate; auto.
Qed.

Lemma range_change_routes_witness :
  exists x' x'', recvRangeChange 2 [ex_device] ex_xbar = Ok (true, x') /\
    xbarRanges x' = [ex_device; RangeEx 0x80000000 0xA0000000] /\
    findPort_range (RangeSize 0x15000040 64) x' = Ok (2, x'').
Proof.
  destruct (recvRangeChange 2 [ex_device] ex_xbar) as [[told x'] | e] eqn:E; [| vm_compute in E; discriminate E].
  destruct (range_change_routes 2 [ex_device] ex_xbar told x' ex_xbar_wf) as (_ & Hin & Hf); [discriminate | | exact E |].
  - split; [vm_compute; split; [discriminate | reflexivity] |]. split; [| exact I].
    intros e (d & He & _). apply list_elem_of_In in He. left. right.
    destruct He as [He | [He | []]]; injection He as <- _; vm_compute; discriminate.
  - assert (Hd : (ex_device, 2) ∈ tree (portMap x')).
    { apply Hin. left. split; [reflexivity | left]. }
    vm_compute in E. injection E as <- <-.
    destruct (Hf (RangeSize 0x15000040 64) ex_device 2 Hd) as [x'' H]; [reflexivity | reflexivity | reflexivity | | reflexivity |].
    + intros e He. apply list_elem_of_In in He. destruct He as [<- | [<- | [<- | []]]]; eexists; reflexivity.
    + eexists _, x''. split; [reflexivity |]. split; [reflexivity | exact H].
Defined.
