(* ===== verification/HostXBar.v ===== *)
(** The crossbar on the host side in atomic mode: class [CXLHostXBar] of
    [src/gem5/src/mem/cxl_host_xbar.hh] and [cxl_host_xbar.cc].

    The crossbar snoops the caches above it under the guidance of its snoop filter and
    forwards requests by address.  As the central crossbar it also keeps the
    [fake_snoop_filter], the set of host addresses that the CXL device has fetched:
    a host request for one of these goes to the root complex instead, so that the
    device is snooped.

    What a send changes behind a port is [W]: a send takes it and returns it with the
    packet as the peer leaves it and the latency.  Snoops that come back up while a
    request is below, and the statistics, are left out. *)
From Stdlib Require Import ZArith Lia.
From stdpp Require Import base numbers list sorting gmap.
From S2P Require Import Prelude AddrRange AddrRangeMap MemPacket SnoopFilter Clocked XBarLayer XBar.

Open Scope Z_scope.

Record HostXBar : Type := mkHostXBar {
  base : BaseXBar;
  snoopFilter : option SnoopFilter;
  hx_cpuSidePorts : list ResponsePort;
  snoopPorts : list ResponsePort;
  hx_clockPeriod : Z;
  bypassCaches : bool;
  pointOfCoherency : bool;
  pointOfUnification : bool;
  center_xbar : bool;
  fake_snoop_filter : gset Z;
  outstandingCMO : gmap Z (option Packet);
}.

Definition set_base (v : BaseXBar) (x : HostXBar) : HostXBar :=
  mkHostXBar v (snoopFilter x) (hx_cpuSidePorts x) (snoopPorts x) (hx_clockPeriod x) (bypassCaches x)
    (pointOfCoherency x) (pointOfUnification x) (center_xbar x) (fake_snoop_filter x) (outstandingCMO x).
Definition set_snoopFilter (v : option SnoopFilter) (x : HostXBar) : HostXBar :=
  mkHostXBar (base x) v (hx_cpuSidePorts x) (snoopPorts x) (hx_clockPeriod x) (bypassCaches x)
    (pointOfCoherency x) (pointOfUnification x) (center_xbar x) (fake_snoop_filter x) (outstandingCMO x).
Definition set_fake (v : gset Z) (x : HostXBar) : HostXBar :=
  mkHostXBar (base x) (snoopFilter x) (hx_cpuSidePorts x) (snoopPorts x) (hx_clockPeriod x) (bypassCaches x)
    (pointOfCoherency x) (pointOfUnification x) (center_xbar x) v (outstandingCMO x).
Definition set_outstandingCMO (v : gmap Z (option Packet)) (x : HostXBar) : HostXBar :=
  mkHostXBar (base x) (snoopFilter x) (hx_cpuSidePorts x) (snoopPorts x) (hx_clockPeriod x) (bypassCaches x)
    (pointOfCoherency x) (pointOfUnification x) (center_xbar x) (fake_snoop_filter x) v.

(** [void init()]: the snooping ports, and the ports of the snoop filter. *)
Definition init (x : HostXBar) : outcome HostXBar :=
  let snoopers := snoopPorts x ++ filter (fun p => isSnooping p = true) (hx_cpuSidePorts x) in
  let! sf := match snoopFilter x with
             | None => Ok None
             | Some f => let! f := setCPUSidePorts (hx_cpuSidePorts x) f in Ok (Some f)
             end in
  Ok (mkHostXBar (base x) sf (hx_cpuSidePorts x) snoopers (hx_clockPeriod x) (bypassCaches x)
        (pointOfCoherency x) (pointOfUnification x) (center_xbar x) (fake_snoop_filter x) (outstandingCMO x)).

(** * The fake snoop filter *)

Definition HOST_BASE : Z := 0xa0000000.

(** [void setFakeSF(PacketPtr pkt)]. *)
Definition setFakeSF (pkt : Packet) (x : HostXBar) : outcome HostXBar :=
  let! a := getAddr pkt in
  do! assert_ (HOST_BASE <=? a) then Ok (set_fake ({[ a ]} ∪ fake_snoop_filter x) x).

(** [bool getFakeSF(PacketPtr pkt)]. *)
Definition getFakeSF (pkt : Packet) (x : HostXBar) : outcome bool :=
  let! a := getAddr pkt in
  do! assert_ (HOST_BASE <=? a) then Ok (bool_decide (a ∈ fake_snoop_filter x)).

(** [void eraseFakeSF(PacketPtr pkt)]. *)
Definition eraseFakeSF (pkt : Packet) (x : HostXBar) : outcome HostXBar :=
  let! a := getAddr pkt in
  do! assert_ (HOST_BASE <=? a) then
  do! panic_if (negb (bool_decide (a ∈ fake_snoop_filter x))) then
  Ok (set_fake (fake_snoop_filter x ∖ {[ a ]}) x).

(** The range of the root complex. *)
Definition rootcomplex : AddrRange := RangeSize 0x15000000 0x40000.

Definition base_findPort (pkt : Packet) (x : HostXBar) : outcome (Z * HostXBar) :=
  let! (id, b) := XBar.findPort pkt (base x) in Ok (id, set_base b x).
Definition base_findPort_range (r : AddrRange) (x : HostXBar) : outcome (Z * HostXBar) :=
  let! (id, b) := findPort_range r (base x) in Ok (id, set_base b x).

(** [PortID findPort(PacketPtr pkt)]: it changes the kind of the packet's request and
    the fake snoop filter. *)
Definition findPort (pkt : Packet) (x : HostXBar) : outcome (Z * Packet * HostXBar) :=
  let! here := (if center_xbar x then
                  let! a := getAddr pkt in
                  Ok ((HOST_BASE <=? a) && bool_decide (cxl_packet_type (req pkt) = DefaultPacket))
                else Ok false) in
  if here then
    let! fetched := getFakeSF pkt x in
    if fetched then
      let pkt := set_req (set_cxl_packet_type CXLcacheH2DReq (req pkt)) pkt in
      let! x := (if bool_decide (cmd pkt = ReadSharedReq) then Ok x
                 else if bool_decide (cmd pkt = ReadExReq) then eraseFakeSF pkt x
                 else Err Panic) in
      let! (id, x) := base_findPort_range rootcomplex x in Ok (id, pkt, x)
    else let! (id, x) := base_findPort pkt x in Ok (id, pkt, x)
  else let! (id, x) := base_findPort pkt x in Ok (id, pkt, x).

(** * Which packets are forwarded *)

(** [bool isDestination(const PacketPtr pkt) const]. *)
Definition isDestination (pkt : Packet) (x : HostXBar) : bool :=
  (isToPOC (req pkt) && pointOfCoherency x) || (isToPOU (req pkt) && pointOfUnification x).

(** [bool sinkPacket(const PacketPtr pkt) const]. *)
Definition sinkPacket (pkt : Packet) (x : HostXBar) : outcome bool :=
  if (pointOfCoherency x && cacheResponding pkt) ||
     (pointOfCoherency x && negb (isRead (cmd pkt) || isWrite (cmd pkt)) && negb (needsResponse (cmd pkt))) ||
     (isCleanEviction pkt && isBlockCached pkt) then Ok true
  else if cacheResponding pkt then
    let! w := needsWritable pkt in Ok (negb w || responderHadWritable pkt)
  else Ok false.

(** [bool forwardPacket(const PacketPtr pkt)]. *)
Definition forwardPacket (pkt : Packet) (x : HostXBar) : bool :=
  if isClean (cmd pkt) then negb (isDestination pkt x)
  else isRead (cmd pkt) || isWrite (cmd pkt) || negb (pointOfCoherency x).

(** * Atomic requests *)

Section atomic.
Context {W : Type}.
Variable sendAtomicSnoop : ResponsePort -> Packet -> W -> outcome (Packet * Z * W).
Variable sendAtomic : Z -> Packet -> W -> outcome (Packet * Z * W).

(** Telling the snoop filter of a snooper's response. *)
Definition snoop_answered (pkt : Packet) (p : ResponsePort) (exclude source : Z) (x : HostXBar)
    : outcome HostXBar :=
  match snoopFilter x with
  | None => Ok x
  | Some f =>
      if negb (source =? InvalidPortID) then
        do! assert_ (exclude =? InvalidPortID) then
        let! f := updateSnoopForward pkt f in Ok (set_snoopFilter (Some f) x)
      else if exclude <? 0 then Err Undefined
      else match hx_cpuSidePorts x !! Z.to_nat exclude with
           | None => Err Undefined
           | Some req_port => let! f := updateSnoopResponse pkt p req_port f in Ok (set_snoopFilter (Some f) x)
           end
  end.

(** The loop of [forwardAtomic]; [orig_cmd] is the command of the request. *)
Fixpoint forward_loop (orig_cmd : Command) (exclude source : Z) (dests : list ResponsePort)
    (resp : Command) (latency : Z) (pkt : Packet) (x : HostXBar) (w : W)
    : outcome (Command * Z * Packet * HostXBar * W) :=
  match dests with
  | [] => Ok (resp, latency, pkt, x, w)
  | p :: dests =>
      if negb (exclude =? InvalidPortID) && (getId p =? exclude) then
        forward_loop orig_cmd exclude source dests resp latency pkt x w
      else
        let! (pkt, l, w) := sendAtomicSnoop p pkt w in
        if negb (isResponse (cmd pkt)) then
          forward_loop orig_cmd exclude source dests resp latency pkt x w
        else
          do! assert_ (negb (bool_decide (cmd pkt = orig_cmd))) then
          do! assert_ (cacheResponding pkt) then
          do! assert_ (bool_decide (resp = InvalidCmd)) then
          let resp := cmd pkt in
          let! x := snoop_answered pkt p exclude source x in
          forward_loop orig_cmd exclude source dests resp l (set_cmd orig_cmd pkt) x w
  end.

(** [std::pair<MemCmd, Tick> forwardAtomic(PacketPtr pkt, PortID exclude_cpu_side_port_id,
    PortID source_mem_side_port_id, const std::vector<QueuedResponsePort*>& dests)]. *)
Definition forwardAtomic (pkt : Packet) (exclude source : Z) (dests : list ResponsePort) (x : HostXBar) (w : W)
    : outcome (Command * Z * Packet * HostXBar * W) :=
  do! assert_ (negb (bypassCaches x)) then
  forward_loop (cmd pkt) exclude source dests InvalidCmd 0 pkt x w.

(** The snooping part of [recvAtomicBackdoor]. *)
Definition snoop_above (pkt : Packet) (port_id : Z) (x : HostXBar) (w : W)
    : outcome (Command * Z * Packet * HostXBar * W) :=
  match snoopFilter x with
  | None => forwardAtomic pkt port_id InvalidPortID (snoopPorts x) x w
  | Some f =>
      match (if port_id <? 0 then None else hx_cpuSidePorts x !! Z.to_nat port_id) with
      | None => Err Undefined
      | Some src =>
          let! (f, (ports, lat)) := lookupRequest pkt src f in
          let! a := getAddr pkt in
          let! s := isSecure pkt in
          let! f := finishRequest false a s f in
          let x := set_snoopFilter (Some f) x in
          let lookup_latency := u64 (lat * hx_clockPeriod x) in
          if isEviction (cmd pkt) then
            Ok (InvalidCmd, lookup_latency, if bool_decide (ports = []) then pkt else setBlockCached pkt, x, w)
          else
            let! (resp, l, pkt, x, w) := forwardAtomic pkt port_id InvalidPortID ports x w in
            Ok (resp, u64 (lookup_latency + l), pkt, x, w)
      end
  end.

(** Forwarding to memory: the latency, and the mark of the fake snoop filter. *)
Definition send_below (mem_side_port_id : Z) (is_destination : bool) (pkt : Packet) (x : HostXBar) (w : W)
    : outcome (Z * Packet * HostXBar * W) :=
  if forwardPacket pkt x then
    let pkt := if isWrite (cmd pkt) && is_destination then clearWriteThrough pkt else pkt in
    let! (pkt, latency, w) := sendAtomic mem_side_port_id pkt w in
    let! x :=
      (if center_xbar x && negb (bool_decide (cxl_packet_type (req pkt) = DefaultPacket)) then
         let! a := getAddr pkt in
         if HOST_BASE <=? a then setFakeSF pkt x else Ok x
       else Ok x) in
    Ok (latency, pkt, x, w)
  else
    do! assert_ (needsResponse (cmd pkt)) then
    let! pkt := makeResponse pkt in Ok (0, pkt, x, w).

(** The bookkeeping of cache maintenance operations. *)
Definition finish_maintenance (pkt : Packet) (x : HostXBar) : outcome HostXBar :=
  if isClean (cmd pkt) && isDestination pkt x && satisfied pkt then
    do! assert_ (bool_decide (is_Some (outstandingCMO x !! pkt_id pkt))) then
    Ok (set_outstandingCMO (delete (pkt_id pkt) (outstandingCMO x)) x)
  else if bool_decide (cmd pkt = WriteClean) && isDestination pkt x then
    do! assert_ (negb (bool_decide (is_Some (outstandingCMO x !! pkt_id pkt)))) then
    Ok (set_outstandingCMO (<[pkt_id pkt := None]> (outstandingCMO x)) x)
  else Ok x.

(** Telling the snoop filter of a response from below. *)
Definition filter_response (pkt : Packet) (port_id : Z) (x : HostXBar) : outcome HostXBar :=
  if negb (bypassCaches x) && isResponse (cmd pkt) then
    match snoopFilter x with
    | None => Ok x
    | Some f =>
        match (if port_id <? 0 then None else hx_cpuSidePorts x !! Z.to_nat port_id) with
        | None => Err Undefined
        | Some src => let! f := updateResponse pkt src f in Ok (set_snoopFilter (Some f) x)
        end
    end
  else Ok x.

(** The end of [recvAtomicBackdoor]: the snoop filter hears of the response, and a
    snooper's response is restored. *)
Definition finish_atomic (snoop_response_cmd : Command) (snoop_response_latency cpu_side_port_id response_latency : Z)
    (pkt : Packet) (x : HostXBar) : outcome (Z * Packet * HostXBar) :=
  let! x := filter_response pkt cpu_side_port_id x in
  let! (response_latency, pkt) :=
    (if bool_decide (snoop_response_cmd <> InvalidCmd) then
       do! assert_ (negb (isResponse (cmd pkt))) then
       Ok (snoop_response_latency, set_cmd snoop_response_cmd pkt)
     else Ok (response_latency, pkt)) in
  let! x := finish_maintenance pkt x in
  let! _ := (if isResponse (cmd pkt) && hasData (cmd pkt) then getSize pkt else Ok 0) in
  Ok (response_latency, set_payloadDelay (u32 response_latency) pkt, x).

(** [Tick recvAtomicBackdoor(PacketPtr pkt, PortID cpu_side_port_id, MemBackdoorPtr
    *backdoor)]. *)
Definition recvAtomicBackdoor (pkt : Packet) (cpu_side_port_id : Z) (x : HostXBar) (w : W)
    : outcome (Z * Packet * HostXBar * W) :=
  let! _ := (if hasData (cmd pkt) then getSize pkt else Ok 0) in
  let is_destination := isDestination pkt x in
  let snoop_caches := negb (bypassCaches x) && negb (bool_decide (cmd pkt = WriteClean)) in
  let! (snoop_response_cmd, snoop_response_latency, pkt, x, w) :=
    (if snoop_caches then snoop_above pkt cpu_side_port_id x w else Ok (InvalidCmd, 0, pkt, x, w)) in
  let! sink_packet := sinkPacket pkt x in
  let! (mem_side_port_id, pkt, x) := findPort pkt x in
  let! (response_latency, pkt, x, w) :=
    (if sink_packet then Ok (0, pkt, x, w) else send_below mem_side_port_id is_destination pkt x w) in
  let! (response_latency, pkt, x) :=
    finish_atomic snoop_response_cmd snoop_response_latency cpu_side_port_id response_latency pkt x in
  Ok (response_latency, pkt, x, w).

(** [Tick recvAtomicSnoop(PacketPtr pkt, PortID mem_side_port_id)]. *)
Definition recvAtomicSnoop (pkt : Packet) (mem_side_port_id : Z) (x : HostXBar) (w : W)
    : outcome (Z * Packet * HostXBar * W) :=
  let! _ := (if hasData (cmd pkt) then getSize pkt else Ok 0) in
  let! (resp, latency, pkt, x, w) :=
    match snoopFilter x with
    | None => forwardAtomic pkt InvalidPortID InvalidPortID (snoopPorts x) x w
    | Some f =>
        let! (f, (ports, lat)) := lookupSnoop pkt f in
        let x := set_snoopFilter (Some f) x in
        let! (resp, l, pkt, x, w) := forwardAtomic pkt InvalidPortID mem_side_port_id ports x w in
        Ok (resp, u64 (u64 (lat * hx_clockPeriod x) + l), pkt, x, w)
    end in
  let pkt := if bool_decide (resp <> InvalidCmd) then set_cmd resp pkt else pkt in
  Ok (latency, set_payloadDelay (u32 latency) pkt, x, w).
End atomic.

(** * The fake snoop filter as a record of what the device has fetched *)

(** The decoder finds a port for every request. *)
Definition decodes (b : BaseXBar) (rc : Z) : Prop :=
  gotAllAddrRanges b = true /\ map_wf (portMap b) /\
  decided (isSubset rootcomplex) (tree (portMap b)) /\
  exists r, search (isSubset rootcomplex) (tree (portMap b)) = Some (r, rc).

(** A lookup keeps the decoder. *)
Definition still_decodes (b b' : BaseXBar) (rc : Z) : Prop :=
  decodes b' rc /\ tree (portMap b') = tree (portMap b).

Lemma decodes_rootcomplex b rc : decodes b rc ->
  exists b', findPort_range rootcomplex b = Ok (rc, b') /\ still_decodes b b' rc.
Proof.
  intros (Hg & Hw & Hd & r & Hs). unfold findPort_range. rewrite Hg. cbn [assert_ obind].
  destruct (map_contains_ok portMap_cache rootcomplex (portMap b) Hw) as (m' & -> & Et & Hw');
    [done | done | done |]. rewrite Hs. cbn [obind]. eexists. split; [reflexivity |].
  split; [| done]. split_and!; cbn; rewrite ?Et; eauto.
Qed.

(** Requests of the host that the crossbar tests. *)
Definition host_request (pkt : Packet) : bool :=
  (HOST_BASE <=? addr pkt) && bool_decide (cxl_packet_type (req pkt) = DefaultPacket).

Definition h2d (pkt : Packet) : Packet := set_req (set_cxl_packet_type CXLcacheH2DReq (req pkt)) pkt.

(** [findPort] of the central crossbar on a host request. *)
Lemma findPort_host pkt x rc : center_xbar x = true -> flag_isSet VALID_ADDR pkt = true ->
  host_request pkt = true -> decodes (base x) rc ->
  (addr pkt ∈ fake_snoop_filter x ->
   (cmd pkt = ReadSharedReq -> exists b', findPort pkt x = Ok (rc, h2d pkt, set_base b' x) /\ still_decodes (base x) b' rc) /\
   (cmd pkt = ReadExReq -> exists b', findPort pkt x
      = Ok (rc, h2d pkt, set_base b' (set_fake (fake_snoop_filter x ∖ {[ addr pkt ]}) x)) /\
      still_decodes (base x) b' rc) /\
   (cmd pkt <> ReadSharedReq -> cmd pkt <> ReadExReq -> findPort pkt x = Err Panic)) /\
  (addr pkt ∉ fake_snoop_filter x ->
   findPort pkt x = let! (id, x) := base_findPort pkt x in Ok (id, pkt, x)).
Proof.
  intros Hc Hv Hh Hdec. destruct (decodes_rootcomplex _ _ Hdec) as (b' & Hrc & Hdec').
  unfold findPort, getFakeSF, eraseFakeSF, getAddr. rewrite Hc, Hv. cbn [obind assert_]. unfold host_request in Hh.
  rewrite Hh. apply andb_true_iff in Hh as [Hge _]. rewrite Hge. cbn [obind assert_]. split; intros Hin.
  - rewrite (bool_decide_eq_true_2 _ Hin). cbn [obind]. fold (h2d pkt). change (cmd (h2d pkt)) with (cmd pkt).
    change (flag_isSet VALID_ADDR (h2d pkt)) with (flag_isSet VALID_ADDR pkt). change (addr (h2d pkt)) with (addr pkt).
    split_and!; [intros -> | intros -> | intros H1 H2].
    + rewrite bool_decide_eq_true_2 by done. cbn [obind]. unfold base_findPort_range. rewrite Hrc. cbn [obind]. eauto.
    + rewrite bool_decide_eq_false_2, bool_decide_eq_true_2 by done. rewrite Hv. cbn [obind assert_]. rewrite Hge.
      cbn [obind assert_]. rewrite (bool_decide_eq_true_2 _ Hin). cbn [obind panic_if negb].
      unfold base_findPort_range. cbn [base set_fake]. rewrite Hrc. cbn [obind]. eauto.
    + by rewrite (bool_decide_eq_false_2 _ H1), (bool_decide_eq_false_2 _ H2).
  - by rewrite (bool_decide_eq_false_2 _ Hin).
Qed.

(** Packets that the crossbar does not test. *)
Lemma findPort_other pkt x : flag_isSet VALID_ADDR pkt = true ->
  center_xbar x = false \/ host_request pkt = false ->
  findPort pkt x = let! (id, x) := base_findPort pkt x in Ok (id, pkt, x).
Proof.
  intros Hv Hno. unfold findPort, getAddr. rewrite Hv. destruct (center_xbar x); [| done].
  destruct Hno as [? | Hno]; [done |]. cbn [obind assert_]. unfold host_request in Hno. by rewrite Hno.
Qed.

Lemma flag_set_other k m pkt : Z.land m k = 0 -> flag_isSet k (flag_set m pkt) = flag_isSet k pkt.
Proof. intros H. unfold flag_isSet, flag_set. cbn. by rewrite Z.land_lor_distr_l, H, Z.lor_0_r. Qed.

(** What is relied on of the snooped caches: they keep the address of a packet and the
    kind of its request, and change its command only into a response. *)
Class QuietSnoops {W} (snoop : ResponsePort -> Packet -> W -> outcome (Packet * Z * W)) : Prop :=
  quiet_snoop : forall p pkt w pkt' t w', snoop p pkt w = Ok (pkt', t, w') ->
    addr pkt' = addr pkt /\ flag_isSet VALID_ADDR pkt' = flag_isSet VALID_ADDR pkt /\ same_kind (req pkt) (req pkt') /\
    (cmd pkt' = cmd pkt \/ isResponse (cmd pkt') = true).

(** Two packets that are the same to [findPort], and the crossbars that snoops do not tell
    apart. *)
Definition as_asked (p p' : Packet) : Prop :=
  addr p' = addr p /\ flag_isSet VALID_ADDR p' = flag_isSet VALID_ADDR p /\ cxl_packet_type (req p') = cxl_packet_type (req p) /\ cmd p' = cmd p.
Definition same_fake (x x' : HostXBar) : Prop :=
  center_xbar x' = center_xbar x /\ fake_snoop_filter x' = fake_snoop_filter x /\ base x' = base x.

Lemma same_fake_trans x y z : same_fake x y -> same_fake y z -> same_fake x z.
Proof. unfold same_fake. intuition congruence. Qed.

Lemma snoop_answered_fake pkt p e s x x' : snoop_answered pkt p e s x = Ok x' -> same_fake x x'.
Proof.
  unfold snoop_answered. intros H. destruct (snoopFilter x); [| by obind_inv].
  destruct (negb _); [by obind_inv |]. destruct (e <? 0); [done |]. destruct (_ !! _); by obind_inv.
Qed.

Section fake_requests.
Context {W : Type} (snoop : ResponsePort -> Packet -> W -> outcome (Packet * Z * W)) `{!QuietSnoops snoop}.

Lemma forward_loop_asked oc e s dests : forall resp lat pkt x w resp' lat' pkt' x' w', cmd pkt = oc -> isResponse oc = false ->
  forward_loop snoop oc e s dests resp lat pkt x w = Ok (resp', lat', pkt', x', w') -> as_asked pkt pkt' /\ same_fake x x'.
Proof.
  induction dests as [| q dests IH]; intros resp lat pkt x w resp' lat' pkt' x' w' Hc Hr H; cbn [forward_loop] in H; [by run_steps |].
  destruct (_ && _); [by eapply IH |]. apply obind_Ok in H as ([[p1 t1] w1] & E1 & H). apply quiet_snoop in E1 as (A1 & A2 & [_ A3] & A4).
  destruct (isResponse (cmd p1)) eqn:E; cbn [negb] in H.
  - obind_inv. match goal with E : snoop_answered _ _ _ _ _ = _ |- _ => apply snoop_answered_fake in E; rename E into Hs end.
    apply IH in H as [(B1 & B2 & B3 & B4) Hf]; [| done | done]. split; [| by eapply same_fake_trans].
    unfold as_asked. rewrite B1, B2, B3, B4. cbn. rewrite A1, A3. by split_and!.
  - destruct A4 as [A4 | A4]; [| congruence]. apply IH in H as [(B1 & B2 & B3 & B4) Hf]; [| congruence | done].
    split; [| done]. unfold as_asked. by rewrite B1, B2, B3, B4.
Qed.

Lemma snoop_above_asked pkt id x w resp lat pkt' x' w' : isResponse (cmd pkt) = false ->
  snoop_above snoop pkt id x w = Ok (resp, lat, pkt', x', w') -> as_asked pkt pkt' /\ same_fake x x'.
Proof.
  unfold snoop_above, forwardAtomic. intros Hr H. destruct (snoopFilter x); [| obind_inv; by eapply forward_loop_asked].
  destruct (if id <? 0 then _ else _); [| done]. run_steps. destruct (isEviction _).
  - run_steps. split; [| done]. case_bool_decide; [done |]. split_and!; try done. by apply flag_set_other.
  - run_steps. match goal with E : forward_loop _ _ _ _ _ _ _ _ _ _ = _ |- _ => by apply forward_loop_asked in E as [? [? [? ?]]] end.
Qed.
End fake_requests.

Lemma finish_atomic_fake resp l id t pkt x t' pkt' x' : finish_atomic resp l id t pkt x = Ok (t', pkt', x') -> same_fake x x'.
Proof.
  unfold finish_atomic, filter_response, finish_maintenance. intros H. run_steps.
  assert (H1 : same_fake x a).
  { destruct (_ && _) in Hm; [| by obind_inv]. destruct (snoopFilter x); [| by obind_inv]. destruct (if _ : bool then _ else _) in Hm; [| done]. by obind_inv. }
  eapply same_fake_trans; [exact H1 |].
  repeat match goal with E : (if ?c then _ else _) = Ok _ |- same_fake a ?y => destruct c; obind_inv; try done end.
Qed.

(** A request as it was sent below: the port, the packet, and the packet that came back. *)
Definition shipment : Type := Z * Packet * Packet.

Section traced.
Context {W : Type} (snoop : ResponsePort -> Packet -> W -> outcome (Packet * Z * W)).
Context (send : Z -> Packet -> W -> outcome (Packet * Z * W)).

(** The peers, with what is sent below written down. *)
Definition traced_snoop (p : ResponsePort) (pkt : Packet) (w : W * option shipment) : outcome (Packet * Z * (W * option shipment)) :=
  let! (pkt', t, w1) := snoop p pkt w.1 in Ok (pkt', t, (w1, w.2)).
Definition traced_send (id : Z) (pkt : Packet) (w : W * option shipment) : outcome (Packet * Z * (W * option shipment)) :=
  let! (pkt', t, w1) := send id pkt w.1 in Ok (pkt', t, (w1, Some (id, pkt, pkt'))).
Definition traced_request (pkt : Packet) (port : Z) (x : HostXBar) (w : W) : outcome (Z * Packet * HostXBar * (W * option shipment)) :=
  recvAtomicBackdoor traced_snoop traced_send pkt port x (w, None).

(** A history of atomic requests, the newest first, with what each sent below. *)
Definition trace : Type := list (Packet * option shipment).
Fixpoint run_requests (rs : list (Packet * Z)) (x : HostXBar) (w : W) : outcome (trace * HostXBar * W) :=
  match rs with
  | [] => Ok ([], x, w)
  | (pkt, port) :: rs =>
      let! (tr, x, w) := run_requests rs x w in
      let! (_, _, x, (w, sent)) := traced_request pkt port x w in Ok ((pkt, sent) :: tr, x, w)
  end.
End traced.

(** The addresses that the trace leaves marked: a packet for a host address that came back
    as a CXL message marks its address; otherwise an exclusive read of the host clears
    it. *)
Definition marks (sent : option shipment) (a : Z) : bool :=
  match sent with
  | Some (_, _, back) => (addr back =? a) && (HOST_BASE <=? a) && negb (bool_decide (cxl_packet_type (req back) = DefaultPacket))
  | None => false
  end.
Definition clears (pkt : Packet) (a : Z) : bool := (addr pkt =? a) && host_request pkt && bool_decide (cmd pkt = ReadExReq).
Fixpoint marked (tr : trace) (a : Z) : bool :=
  match tr with
  | [] => false
  | (pkt, sent) :: tr => marks sent a || (negb (clears pkt a) && marked tr a)
  end.

(** Where a request was sent, and as what. *)
Definition sent_right (x : HostXBar) (pkt : Packet) (device : bool) (sent : option shipment) : Prop :=
  match sent with
  | None => True
  | Some (id, out, _) => addr out = addr pkt /\
      if device then (exists b', findPort_range rootcomplex (base x) = Ok (id, b')) /\ cxl_packet_type (req out) = CXLcacheH2DReq
      else cxl_packet_type (req out) = cxl_packet_type (req pkt)
  end.

(** What [findPort] of the central crossbar does to the filter. *)
Lemma findPort_fake pkt x id pkt' x' : center_xbar x = true -> flag_isSet VALID_ADDR pkt = true -> findPort pkt x = Ok (id, pkt', x') ->
  center_xbar x' = true /\ addr pkt' = addr pkt /\
  let device := host_request pkt && bool_decide (addr pkt ∈ fake_snoop_filter x) in
  sent_right x pkt device (Some (id, pkt', pkt')) /\
  (device = true -> cmd pkt = ReadSharedReq \/ cmd pkt = ReadExReq) /\
  forall z, z ∈ fake_snoop_filter x' <-> z ∈ fake_snoop_filter x /\ clears pkt z = false.
Proof.
  intros Hc Hv H. unfold clears. destruct (host_request pkt) eqn:Hh.
  2: { rewrite findPort_other in H by auto. unfold base_findPort in H. run_steps. split_and!; try done. intros z.
       rewrite andb_false_r. cbn. tauto. }
  unfold findPort, getFakeSF, getAddr in H. rewrite Hc, Hv in H. cbn [assert_ obind] in H. pose proof Hh as Hh'. unfold host_request in Hh.
  rewrite Hh in H. apply andb_true_iff in Hh as [Hge _]. rewrite Hge in H. cbn [assert_ obind] in H. cbn [andb].
  case_bool_decide as Hin.
  - change (cmd (set_req _ pkt)) with (cmd pkt) in H. case_bool_decide as H1; [| case_bool_decide as H2; [| done]].
    + unfold base_findPort_range in H. run_steps. cbn [andb]. split_and!; try done; [split_and!; try done; by eexists | by left |].
      intros z. rewrite (bool_decide_eq_false_2 (cmd pkt = ReadExReq)) by (by rewrite H1). rewrite andb_false_r. cbn. tauto.
    + unfold eraseFakeSF, getAddr in H. run_steps. unfold base_findPort_range in *. run_steps. cbn [addr set_req] in *.
      split_and!; try done; [split_and!; try done; by eexists | by right |]. intros z. cbn [fake_snoop_filter set_base set_fake].
      rewrite elem_of_difference, elem_of_singleton, !andb_true_r.
      destruct (Z.eqb_spec (addr pkt) z) as [-> | Hne]; intuition congruence.
  - unfold base_findPort in H. run_steps. cbn [andb]. split_and!; try done. intros z. cbn [fake_snoop_filter set_base].
    split; [| tauto]. intros Ha. split; [done |]. destruct (Z.eqb_spec (addr pkt') z) as [E | Hne]; [by rewrite E in Hin | done].
Qed.

Section fake_history.
Context {W : Type} (snoop : ResponsePort -> Packet -> W -> outcome (Packet * Z * W)) `{!QuietSnoops snoop}.
Context (send : Z -> Packet -> W -> outcome (Packet * Z * W)).

#[local] Instance traced_quiet : QuietSnoops (traced_snoop snoop).
Proof. intros p pkt w pkt' t w' H. unfold traced_snoop in H. run_steps. by eapply quiet_snoop. Qed.

(** Snoops send nothing below. *)
Lemma forward_loop_traced oc e sr dests : forall resp lat pkt x w resp' lat' pkt' x' w' sent,
  forward_loop (traced_snoop snoop) oc e sr dests resp lat pkt x (w, None) = Ok (resp', lat', pkt', x', (w', sent)) -> sent = None.
Proof.
  induction dests as [| q dests IH]; intros resp lat pkt x w resp' lat' pkt' x' w' sent H; cbn [forward_loop] in H; [by run_steps |].
  destruct (_ && _); [by eapply IH |]. apply obind_Ok in H as ([[p1 t1] w1] & E1 & H). unfold traced_snoop in E1. run_steps.
  destruct (negb _); [by eapply IH |]. obind_inv. by eapply IH.
Qed.

Lemma snoop_above_traced pkt id x w resp lat pkt' x' w' sent :
  snoop_above (traced_snoop snoop) pkt id x (w, None) = Ok (resp, lat, pkt', x', (w', sent)) -> sent = None.
Proof.
  unfold snoop_above, forwardAtomic. intros H. destruct (snoopFilter x); [| obind_inv; by eapply forward_loop_traced].
  destruct (if id <? 0 then _ else _); [| done]. run_steps. destruct (isEviction _); [by run_steps |].
  run_steps. by eapply forward_loop_traced.
Qed.

(** The part of the handler that sends the packet [q] below. *)
Lemma send_below_fake id dst q x w lat pkt' x' w' sent : center_xbar x = true ->
  send_below (traced_send send) id dst q x (w, None) = Ok (lat, pkt', x', (w', sent)) ->
  center_xbar x' = true /\ (forall z, z ∈ fake_snoop_filter x' <-> z ∈ fake_snoop_filter x \/ marks sent z = true) /\
  (sent = None \/ exists out back, sent = Some (id, out, back) /\ addr out = addr q /\ req out = req q).
Proof.
  intros Hc H. unfold send_below in H. destruct (forwardPacket q x).
  2: { run_steps. split; [done |]. split; [| by left]. intros z. cbn. intuition congruence. }
  apply obind_Ok in H as ([[back t1] w1] & Hs & H). unfold traced_send in Hs. run_steps.
  set (out := if isWrite (cmd q) && dst then clearWriteThrough q else q) in *.
  assert (Ho : addr out = addr q /\ req out = req q) by (unfold out; by destruct (_ && _)).
  match goal with E : (if center_xbar x && _ then _ else _) = Ok _ |- _ => rename E into Hf end. rewrite Hc in Hf. cbn [andb] in Hf.
  assert (Hm : center_xbar x' = true /\ forall z, z ∈ fake_snoop_filter x' <-> z ∈ fake_snoop_filter x \/ marks (Some (id, out, pkt')) z = true).
  { unfold marks. destruct (bool_decide (cxl_packet_type (req pkt') = DefaultPacket)); cbn [negb] in Hf.
    { obind_inv. split; [done |]. intros z. rewrite andb_false_r. intuition congruence. }
    unfold getAddr in Hf. obind_inv. destruct (HOST_BASE <=? addr pkt') eqn:Eb.
    - unfold setFakeSF, getAddr in Hf. obind_inv. split; [done |]. intros z. cbn [fake_snoop_filter set_fake].
      rewrite elem_of_union, elem_of_singleton, andb_true_r, andb_true_iff, Z.eqb_eq. split; [intros [-> | ?]; auto | intros [? | [<- ?]]; auto].
    - obind_inv. split; [done |]. intros z. rewrite andb_true_r, andb_true_iff, Z.eqb_eq. split; [auto | intros [? | [<- ?]]; [done | congruence]]. }
  destruct Hm as [Hm1 Hm2]. split; [done |]. split; [done |]. right. by exists out, pkt'.
Qed.

Lemma traced_step pkt port x w lat pkt' x' w' sent : center_xbar x = true -> flag_isSet VALID_ADDR pkt = true -> isResponse (cmd pkt) = false ->
  traced_request snoop send pkt port x w = Ok (lat, pkt', x', (w', sent)) ->
  let device := host_request pkt && bool_decide (addr pkt ∈ fake_snoop_filter x) in
  center_xbar x' = true /\ sent_right x pkt device sent /\ (device = true -> cmd pkt = ReadSharedReq \/ cmd pkt = ReadExReq) /\
  forall z, z ∈ fake_snoop_filter x' <-> (z ∈ fake_snoop_filter x /\ clears pkt z = false) \/ marks sent z = true.
Proof.
  intros Hc Hv Hr H. unfold traced_request, recvAtomicBackdoor in H. apply obind_Ok in H as (n & _ & H).
  apply obind_Ok in H as ([[[[resp sl] p1] x1] [w1 s1]] & Hs & H). apply obind_Ok in H as (sink & _ & H).
  assert (H1 : s1 = None /\ as_asked pkt p1 /\ same_fake x x1).
  { destruct (negb (bypassCaches x) && _) in Hs; [| by run_steps].
    split; [| exact (snoop_above_asked (traced_snoop snoop) _ _ _ _ _ _ _ _ _ Hr Hs)]. eapply snoop_above_traced; exact Hs. }
  destruct H1 as (-> & (A1 & A2 & A3 & A4) & (B1 & B2 & B3)).
  apply obind_Ok in H as ([[id p2] x2] & Hf & H). apply findPort_fake in Hf as (F1 & F2 & F3 & F4 & F5); [| congruence | congruence].
  assert (Hhost : host_request p1 = host_request pkt) by (unfold host_request; by rewrite A1, A3).
  assert (Hclear : forall z, clears p1 z = clears pkt z) by (intros z; unfold clears; by rewrite A1, Hhost, A4).
  rewrite Hhost, A1, B2 in F3, F4. rewrite B2 in F5. rewrite A4 in F4.
  apply obind_Ok in H as ([[[rl p3] x3] [w3 s3]] & Hb & H).
  apply obind_Ok in H as ([[rl' p4] x4] & Hfin & H). obind_inv. apply finish_atomic_fake in Hfin as (G1 & G2 & _).
  assert (Hmid : center_xbar x3 = true /\ (forall z, z ∈ fake_snoop_filter x3 <-> z ∈ fake_snoop_filter x2 \/ marks sent z = true) /\
    (sent = None \/ exists out back, sent = Some (id, out, back) /\ addr out = addr p2 /\ req out = req p2)).
  { destruct sink; [run_steps | by eapply send_below_fake]. split; [done |]. split; [| by left]. intros z. cbn. intuition congruence. }
  destruct Hmid as (M1 & M2 & M3). cbn zeta. split; [congruence |]. split.
  - destruct M3 as [-> | (out & back & -> & E1 & E2)]; [done |]. destruct F3 as [E3 E4]. unfold sent_right.
    split; [congruence |]. rewrite E2, <- B3. destruct (host_request pkt && _); [done | congruence].
  - split; [done |]. intros z. rewrite G2, M2, F5, Hclear. done.
Qed.

(** What a history leaves, with the crossbar still at the centre. *)
Lemma run_requests_fake rs x w tr x1 w1 : center_xbar x = true -> fake_snoop_filter x = ∅ ->
  Forall (fun r => flag_isSet VALID_ADDR r.1 = true /\ isResponse (cmd r.1) = false) rs ->
  run_requests snoop send rs x w = Ok (tr, x1, w1) ->
  center_xbar x1 = true /\ forall z, z ∈ fake_snoop_filter x1 <-> marked tr z = true.
Proof.
  intros Hc He Hok. revert tr x1 w1. induction Hok as [| [pkt port] rs [Hv Hr] _ IH]; intros tr x1 w1 H; cbn [run_requests] in H.
  { run_steps. split; [done |]. intros z. rewrite He. cbn. set_solver. }
  apply obind_Ok in H as ([[tr0 x0] w0] & H0 & H). apply obind_Ok in H as ([[[lat p'] x2] [w2 sent]] & H1 & H). obind_inv.
  destruct (IH _ _ _ H0) as [Hc0 Hm0]. destruct (traced_step _ _ _ _ _ _ _ _ _ Hc0 Hv Hr H1) as (Hc1 & _ & _ & Hm1).
  split; [done |]. intros z. rewrite Hm1, Hm0. cbn [marked]. rewrite orb_true_iff, andb_true_iff, negb_true_iff. tauto.
Qed.
End fake_history.

(** C18: the fake snoop filter of the crossbar at the centre, in atomic mode.  Over every
    history of requests that the handler of atomic requests serves, from an empty filter on,
    an address is in the filter exactly if some request for it came back from below as a
    CXL message, as the accesses of the device to host memory do, and the host has not asked
    for it exclusively since by a request that was answered without coming back so.  For the
    next request that is served: a plain request of the host for an address in the filter
    is a shared or an exclusive read (any other command panics), and if it is sent below it
    goes to the port of the root complex, as a snoop of the device; every other request keeps
    its kind.  An exclusive read sent to the device marks its address again when it comes back as a
    CXL message, and clears it when a cache of the host answers and nothing is sent.  Relied
    on of the snooped caches: they keep the address and the kind of the request, where they may note
    block states, and make of its command nothing but a response. *)
Theorem fake_filter_history {W} (snoop : ResponsePort -> Packet -> W -> outcome (Packet * Z * W)) `{!QuietSnoops snoop} send
    rs x w tr x1 w1 pkt port lat pkt' x2 w2 sent :
  center_xbar x = true -> fake_snoop_filter x = ∅ ->
  Forall (fun r => flag_isSet VALID_ADDR r.1 = true /\ isResponse (cmd r.1) = false) ((pkt, port) :: rs) ->
  run_requests snoop send rs x w = Ok (tr, x1, w1) -> traced_request snoop send pkt port x1 w1 = Ok (lat, pkt', x2, (w2, sent)) ->
  (forall z, z ∈ fake_snoop_filter x1 <-> marked tr z = true) /\
  (forall z, z ∈ fake_snoop_filter x2 <-> marked ((pkt, sent) :: tr) z = true) /\
  (host_request pkt && marked tr (addr pkt) = true -> cmd pkt = ReadSharedReq \/ cmd pkt = ReadExReq) /\
  sent_right x1 pkt (host_request pkt && marked tr (addr pkt)) sent.
Proof.
  intros Hc He Hok Hrun Hreq. apply Forall_cons in Hok as [[Hv Hr] Hok].
  destruct (run_requests_fake snoop send rs x w tr x1 w1 Hc He Hok Hrun) as [Hc1 Hm1].
  destruct (traced_step snoop send pkt port x1 w1 _ _ _ _ _ Hc1 Hv Hr Hreq) as (_ & Hs & Hcmd & Hm2).
  assert (E : bool_decide (addr pkt ∈ fake_snoop_filter x1) = marked tr (addr pkt))
    by (apply Bool.eq_iff_eq_true; rewrite bool_decide_eq_true; apply Hm1).
  rewrite E in Hs, Hcmd. split_and!; try done. intros z. rewrite Hm2, Hm1. cbn [marked]. rewrite orb_true_iff, andb_true_iff, negb_true_iff. tauto.
Qed.

(** * Atomic requests and the snoop filter *)

(** What stays of a request while it is snooped and sent below. *)
Record same_request (p p' : Packet) : Prop := {
  sr_addr : addr p' = addr p;
  sr_secure : _isSecure p' = _isSecure p;
  sr_size : psize p' = psize p;
  sr_valid : flag_isSet VALID_ADDR p' = flag_isSet VALID_ADDR p;
  sr_valid_size : flag_isSet VALID_SIZE p' = flag_isSet VALID_SIZE p;
  sr_flags : req_flags (req p') = req_flags (req p);
}.

Lemma same_refl p : same_request p p.
Proof. by split. Qed.
Lemma same_trans p q r : same_request p q -> same_request q r -> same_request p r.
Proof. intros [? ? ? ? ? ?] [? ? ? ? ? ?]. split; congruence. Qed.
Lemma same_set_cmd c p q : same_request p q -> same_request p (set_cmd c q).
Proof. intros [? ? ? ? ? ?]. by split. Qed.

(** The line of a packet in a filter for lines of [ls] bytes. *)
Definition line_of (ls : Z) (pkt : Packet) : Z :=
  let block := Z.land (addr pkt) (wnot 64 (u32 (ls - 1))) in
  if _isSecure pkt then Z.lor block 1 else block.

Lemma line_addr_of f pkt : flag_isSet VALID_ADDR pkt = true -> line_addr f pkt = Ok (line_of (linesize f) pkt).
Proof. intros H. unfold line_addr, getBlockAddr, getAddr, isSecure. by rewrite H. Qed.

Lemma same_line ls p p' : same_request p p' -> line_of ls p' = line_of ls p.
Proof. intros [Ea Es _ _ _ _]. unfold line_of. by rewrite Ea, Es. Qed.

(** What is relied on of the caches above and the memory below, where [present w l q]
    says that the cache at port [q] has line [l].  A snooped cache may write to the
    request object, as the caches note the states of the block there, but keeps its kind
    and flags.  It answers only if it
    has the line and no cache has answered yet; an invalidating snoop takes the line
    from it, and otherwise it answers without sharers only if it gives up the only
    copy.  The memory answers unless a cache has. *)
Class AtomicPeers {W} (ls : Z) (present : W -> Z -> ResponsePort -> Prop)
    (snoop : ResponsePort -> Packet -> W -> outcome (Packet * Z * W))
    (send : Z -> Packet -> W -> outcome (Packet * Z * W)) : Prop := {
  ap_snoop : forall p pkt w, exists pkt' t w', snoop p pkt w = Ok (pkt', t, w') /\
    same_request pkt pkt' /\ same_kind (req pkt) (req pkt') /\ (forall l q, present w' l q -> present w l q) /\
    (isInvalidate (cmd pkt) = true -> ~ present w' (line_of ls pkt) p) /\
    ((cmd pkt' = cmd pkt /\ cacheResponding pkt' = cacheResponding pkt) \/
     (cmd pkt' = responseCommand (cmd pkt) /\ needsResponse (cmd pkt) = true /\
      cacheResponding pkt = false /\ cacheResponding pkt' = true /\ present w (line_of ls pkt) p /\
      (hasSharers pkt' = false ->
       isInvalidate (cmd pkt) = true \/ forall q, ~ present w' (line_of ls pkt) q)));
  ap_send : forall id pkt w, needsResponse (cmd pkt) = true -> exists pkt' t w', send id pkt w = Ok (pkt', t, w') /\
    same_request pkt pkt' /\ (forall l q, present w' l q -> present w l q) /\
    cmd pkt' = (if cacheResponding pkt then cmd pkt else responseCommand (cmd pkt));
}.

(** The commands of an ordinary request. *)
Record plain_request (c : Command) : Prop := {
  pr_needs : needsResponse c = true;
  pr_cache : fromCache c = true;
  pr_clean : isClean c = false;
}.

Lemma plain_request_facts c : plain_request c ->
  isRequest c = true /\ isResponse c = false /\ isEviction c = false /\ c <> WriteClean /\
  c <> CleanEvict /\ c <> WritebackClean /\ c <> InvalidCmd /\
  isResponse (responseCommand c) = true /\ isClean (responseCommand c) = false /\
  responseCommand c <> InvalidCmd /\ responseCommand c <> c /\ responseCommand c <> WriteClean.
Proof. intros [H1 H2 H3]. destruct c; try discriminate H1; try discriminate H2; try discriminate H3; by vm_compute. Qed.

(** Tracked ports have different identifiers. *)
Lemma tracked_id_inj f p q : ports_wf f -> tracked f p -> tracked f q -> getId p = getId q -> p = q.
Proof. intros Hw Hp Hq E. apply (bit_of_inj f); [done | done | done |]. unfold bit_of. by rewrite E. Qed.

Lemma inv_fewer f pend pres pres' : sys_inv (mkSystem f pend pres) ->
  (forall l q, pres' l q -> pres l q) -> sys_inv (mkSystem f pend pres').
Proof. intros [Hw Hpe Hpr] Hsub. split; cbn in *; auto. Qed.

Lemma inv_pending f pend pend' pres : sys_inv (mkSystem f pend pres) ->
  (forall l q, pend' l q <-> pend l q) -> sys_inv (mkSystem f pend' pres).
Proof. intros [Hw Hpe Hpr] H. split; cbn in *; auto. intros l q. by rewrite H, Hpe. Qed.

(** One event that keeps to the protocol. *)
Lemma event_inv s ev l f' ps after : sys_inv s -> line_addr (flt s) (event_pkt ev) = Ok l -> conforms s ev l ->
  run ev (flt s) = Ok (f', ps) -> allowed s ev l ps after -> sys_inv (mkSystem f' (pending_after s ev l) after).
Proof. intros Hi Hl Hc Hr Ha. eapply filter_step_inv; [exact Hi | by apply step_intro]. Qed.

Section filter_requests.
Context {W : Type} (ls : Z) (present : W -> Z -> ResponsePort -> Prop).
Context (snoop : ResponsePort -> Packet -> W -> outcome (Packet * Z * W)).
Context (send : Z -> Packet -> W -> outcome (Packet * Z * W)).
Context `{!AtomicPeers ls present snoop send}.

(** The copies once the requester [p] has the line as well. *)
Definition with_copy (w : W) (l : Z) (p : ResponsePort) : Z -> ResponsePort -> Prop :=
  fun l' q => present w l' q \/ (l' = l /\ q = p).
Definition without (pend : Z -> ResponsePort -> Prop) (l : Z) (p : ResponsePort) : Z -> ResponsePort -> Prop :=
  fun l' q => pend l' q /\ ~ (l' = l /\ q = p).

Section request.
Variables (orig : Packet) (p : ResponsePort) (pend : Z -> ResponsePort -> Prop).
Hypothesis Hplain : plain_request (cmd orig).
Hypothesis Hvalid : flag_isSet VALID_ADDR orig = true.
Hypothesis Hcached : isUncacheable (req orig) = false.
Hypothesis Hid : 0 <= getId p.
#[local] Abbreviation line := (line_of ls orig).

(** Copies that an invalidating snoop has not reached yet do not count. *)
Definition surviving (left : list ResponsePort) (w : W) : Z -> ResponsePort -> Prop :=
  fun l' q => with_copy w line p l' q /\
    ~ (isInvalidate (cmd orig) = true /\ l' = line /\ q <> p /\ q ∈ left).

(** Where the snooping of the request stands with the ports [left] to go. *)
Record snoop_state (left : list ResponsePort) (resp : Command) (pkt : Packet) (f : SnoopFilter) (w : W) : Prop := {
  ss_same : same_request orig pkt;
  ss_req : same_kind (req orig) (req pkt);
  ss_cmd : cmd pkt = cmd orig;
  ss_line : linesize f = ls;
  ss_tracked : tracked f p;
  ss_left : forall q, q ∈ left -> tracked f q;
  ss_reached : isInvalidate (cmd orig) = true -> forall q, present w line q -> q = p \/ q ∈ left;
  ss_inv :
    (resp = InvalidCmd /\ cacheResponding pkt = false /\ pend line p /\ sys_inv (mkSystem f pend (present w))) \/
    (resp = responseCommand (cmd orig) /\ cacheResponding pkt = true /\
     sys_inv (mkSystem f (without pend line p) (surviving left w)));
}.

(** A snooped cache that loses copies, and says nothing. *)
Lemma snoop_quiet q left resp pkt pkt' f w w' : snoop_state (q :: left) resp pkt f w ->
  same_request pkt pkt' -> same_kind (req pkt) (req pkt') -> cmd pkt' = cmd pkt -> cacheResponding pkt' = cacheResponding pkt ->
  (forall l r, present w' l r -> present w l r) ->
  (isInvalidate (cmd orig) = true -> q <> p -> ~ present w' line q) ->
  snoop_state left resp pkt' f w'.
Proof.
  intros [Hs Hr Hc Hl Ht Hleft Hre Hi] Hs' Hr' Hc' Hcr Hless Hlost. split; try congruence; try done.
  - by eapply same_trans.
  - by eapply same_kind_trans.
  - intros r Hin. apply Hleft. by right.
  - intros Hinv r Hpr. destruct (Hre Hinv r (Hless _ _ Hpr)) as [-> | Hin]; [by left |].
    apply elem_of_cons in Hin as [-> | ?]; [| by right].
    destruct (decide (q = p)); [by left |]. by destruct (Hlost Hinv).
  - rewrite Hcr. destruct Hi as [(? & ? & ? & Hi) | (? & ? & Hi)]; [left | right]; split_and!; auto.
    + eapply inv_fewer; [exact Hi | done].
    + eapply inv_fewer; [exact Hi |]. intros l r [Hcopy Hno]. split.
      * destruct Hcopy as [? | ?]; [left; auto | by right].
      * intros (Hinv & -> & Hne & Hin). apply elem_of_cons in Hin as [-> | Hin].
        -- destruct Hcopy as [Hpr | [_ ?]]; [| done]. by apply (Hlost Hinv Hne).
        -- apply Hno. by split_and!.
Qed.

(** A snooped cache that answers. *)
Lemma snoop_answer q left pkt pkt' f w w' : snoop_state (q :: left) InvalidCmd pkt f w ->
  same_request pkt pkt' -> same_kind (req pkt) (req pkt') -> cmd pkt' = responseCommand (cmd pkt) ->
  cacheResponding pkt' = true -> (forall l r, present w' l r -> present w l r) ->
  (isInvalidate (cmd orig) = true -> ~ present w' line q) -> present w line q ->
  (hasSharers pkt' = false -> isInvalidate (cmd orig) = true \/ forall r, ~ present w' line r) ->
  exists f', updateSnoopResponse pkt' q p f = Ok f' /\
    snoop_state left (responseCommand (cmd orig)) (set_cmd (cmd orig) pkt') f' w'.
Proof.
  intros [Hs Hr Hc Hl Ht Hleft Hre Hi] Hs' Hr' Hc' Hcr Hless Hlost Hq Hsh.
  destruct (plain_request_facts _ Hplain) as (_ & _ & _ & _ & _ & _ & _ & Hresp & _ & Hni & _).
  destruct Hi as [(_ & _ & Hpend & Hi) | (E & _)]; [| congruence].
  assert (Hsame : same_request orig pkt') by (by eapply same_trans).
  assert (Hla : line_addr f pkt' = Ok line).
  { rewrite line_addr_of by (rewrite (sr_valid _ _ Hsame); exact Hvalid). by rewrite Hl, (same_line _ _ _ Hsame). }
  assert (Hconf : conforms (mkSystem f pend (present w)) (SnoopResponse pkt' q p) line).
  { cbn. unfold isUncacheable, req_isSet in *. rewrite Hc', Hc, (sr_flags _ _ Hsame). split_and!; auto. by apply (si_present _ Hi line q). }
  destruct (run_conforming _ (SnoopResponse pkt' q p) line Hi Hla Hconf eq_refl) as (f' & ps & Hrun & (E1 & E2 & E3 & _) & _ & _).
  assert (Hstep : sys_inv (mkSystem f' (without pend line p) (surviving left w'))).
  { apply (event_inv _ (SnoopResponse pkt' q p) line f' ps (surviving left w') Hi Hla Hconf Hrun). split.
    - intros l r [[Hpr | [-> ->]] _]; [left; cbn; auto | by right].
    - intros Hnone r Hne [[Hpr | [_ ?]] Hno]; [| done].
      destruct (Hsh Hnone) as [Hinv | Honly]; [| by eapply Honly].
      destruct (Hre Hinv r (Hless _ _ Hpr)) as [-> | Hin]; [done |].
      apply elem_of_cons in Hin as [-> | Hin]; [by apply (Hlost Hinv) |]. apply Hno. by split_and!. }
  cbn [run flt] in *. destruct (updateSnoopResponse pkt' q p f) as [f1 | e]; [| done].
  cbn [obind] in Hrun. simplify_eq. exists f'. split; [done |]. split; cbn [cmd set_cmd req]; try congruence.
  - by apply same_set_cmd.
  - by eapply same_kind_trans.
  - unfold tracked. by rewrite E1.
  - intros r Hin. unfold tracked. rewrite E1. apply Hleft. by right.
  - intros Hinv r Hpr. destruct (Hre Hinv r (Hless _ _ Hpr)) as [-> | Hin]; [by left |].
    apply elem_of_cons in Hin as [-> | ?]; [| by right]. by destruct (Hlost Hinv).
  - right. by split_and!.
Qed.

(** The crossbar with another state of its filter. *)
Definition with_filter (f : SnoopFilter) (x : HostXBar) : HostXBar := set_snoopFilter (Some f) x.

(** The whole of the snooping. *)
Lemma forward_loop_ok x : hx_cpuSidePorts x !! Z.to_nat (getId p) = Some p ->
  forall dests resp lat pkt f w, snoop_state dests resp pkt f w ->
  exists resp' lat' pkt' f' w',
    forward_loop snoop (cmd orig) (getId p) InvalidPortID dests resp lat pkt (with_filter f x) w
      = Ok (resp', lat', pkt', with_filter f' x, w') /\ snoop_state [] resp' pkt' f' w'.
Proof.
  intros Hx. destruct (plain_request_facts _ Hplain) as (_ & Hnr & _ & _ & _ & _ & _ & Hresp & _ & _ & Hne & _).
  induction dests as [| q dests IH]; intros resp lat pkt f w Hst; cbn [forward_loop].
  { exists resp, lat, pkt, f, w. by split. }
  assert (Eid : negb (getId p =? InvalidPortID) = true) by (unfold InvalidPortID; lia).
  rewrite Eid. cbn [andb]. destruct (Z.eqb_spec (getId q) (getId p)) as [E | Hneq].
  { apply IH. eapply snoop_quiet; [exact Hst | apply same_refl | done | done | done | done |].
    intros _ Hqp. exfalso. apply Hqp. apply (tracked_id_inj f); [| | by apply (ss_tracked _ _ _ _ _ Hst) | done].
    - by destruct (ss_inv _ _ _ _ _ Hst) as [(_ & _ & _ & [Hw _ _]) | (_ & _ & [Hw _ _])]; apply Hw.
    - apply (ss_left _ _ _ _ _ Hst). left. }
  destruct (ap_snoop q pkt w) as (pkt' & t & w' & -> & Hs & Hr & Hless & Hlost & Hans). cbn [obind].
  rewrite (ss_cmd _ _ _ _ _ Hst), (same_line _ _ _ (ss_same _ _ _ _ _ Hst)) in *.
  destruct Hans as [[Hc Hcr] | (Hc & _ & Hcr & Hcr' & Hq & Hsh)]; rewrite Hc.
  - rewrite Hnr. apply IH. eapply snoop_quiet; eauto. by rewrite (ss_cmd _ _ _ _ _ Hst).
  - rewrite Hresp, Hcr', (bool_decide_eq_false_2 _ Hne). cbn [negb assert_ obind].
    destruct (ss_inv _ _ _ _ _ Hst) as [(-> & _) | (_ & E & _)]; [| congruence]. cbn [bool_decide decide assert_ obind].
    destruct (snoop_answer q dests pkt pkt' f w w' Hst Hs Hr) as (f' & Hup & Hst'); auto.
    { by rewrite (ss_cmd _ _ _ _ _ Hst). }
    rewrite (bool_decide_eq_true_2 _ (eq_refl InvalidCmd)). cbn [assert_ obind].
    unfold snoop_answered. cbn [snoopFilter with_filter set_snoopFilter hx_cpuSidePorts].
    change (InvalidPortID =? InvalidPortID) with true. cbn [negb]. destruct (Z.ltb_spec (getId p) 0); [lia |].
    rewrite Hx, Hup. cbn [obind]. by apply IH.
Qed.
End request.

(** The fields that routing and sending leave alone. *)
Record keeps (x x' : HostXBar) : Prop := {
  kp_filter : snoopFilter x' = snoopFilter x;
  kp_ports : hx_cpuSidePorts x' = hx_cpuSidePorts x;
  kp_bypass : bypassCaches x' = bypassCaches x;
  kp_poc : pointOfCoherency x' = pointOfCoherency x;
}.

Lemma host_keeps_trans x y z : keeps x y -> keeps y z -> keeps x z.
Proof. intros [? ? ? ?] [? ? ? ?]. split; congruence. Qed.

(** The address decoder has a port for the packet; a request of the host that the
    central crossbar tests is a read. *)
Definition routed (pkt : Packet) (x : HostXBar) : Prop :=
  (exists id b, XBar.findPort pkt (base x) = Ok (id, b)) /\
  (center_xbar x = true -> host_request pkt = true ->
   (cmd pkt = ReadSharedReq \/ cmd pkt = ReadExReq) /\ exists rc, decodes (base x) rc).

Lemma findPort_routed pkt x : flag_isSet VALID_ADDR pkt = true -> routed pkt x ->
  exists id pkt' x', findPort pkt x = Ok (id, pkt', x') /\ (pkt' = pkt \/ pkt' = h2d pkt) /\ keeps x x'.
Proof.
  intros Hv [(id & b & Hp) Hh].
  assert (Hbase : exists id' x', base_findPort pkt x = Ok (id', x') /\ keeps x x').
  { unfold base_findPort. rewrite Hp. cbn [obind]. eexists _, _. split; [reflexivity |]. by split. }
  destruct Hbase as (id' & x' & Hb & Hk).
  destruct (center_xbar x) eqn:Hc; [| rewrite findPort_other, Hb by auto; eauto 10].
  destruct (host_request pkt) eqn:Hr; [| rewrite findPort_other, Hb by auto; eauto 10].
  destruct (Hh eq_refl eq_refl) as [Hcmd [rc Hd]]. destruct (findPort_host pkt x rc Hc Hv Hr Hd) as [Hin Hout].
  destruct (decide (addr pkt ∈ fake_snoop_filter x)) as [Hf | Hf]; [| rewrite Hout, Hb by done; eauto 10].
  destruct (Hin Hf) as (H1 & H2 & _). destruct Hcmd as [E | E]; [destruct (H1 E) as (b' & -> & _) | destruct (H2 E) as (b' & -> & _)].
  all: eexists _, _, _; split; [reflexivity |]; split; [by right |]; by split.
Qed.

Lemma clear_same m pkt : Z.land (wnot 32 m) (Z.lor (Z.lor VALID_ADDR VALID_SIZE) CACHE_RESPONDING)
    = Z.lor (Z.lor VALID_ADDR VALID_SIZE) CACHE_RESPONDING ->
  same_request pkt (flag_clear m pkt) /\ cacheResponding (flag_clear m pkt) = cacheResponding pkt.
Proof.
  intros Hm. assert (Hk : forall k, Z.land (Z.lor (Z.lor VALID_ADDR VALID_SIZE) CACHE_RESPONDING) k = k ->
    flag_isSet k (flag_clear m pkt) = flag_isSet k pkt).
  { intros k Hk. unfold flag_isSet, flag_clear. cbn [flags set_flags]. f_equal. rewrite <- Z.land_assoc. f_equal.
    rewrite <- Hk at 1. by rewrite Z.land_assoc, Hm, Hk. }
  split; [split; try done |]; by apply Hk.
Qed.

(** What is sent below comes back as a response, unless a cache has answered. *)
Lemma send_below_ok id dst pkt x w : needsResponse (cmd pkt) = true -> isRequest (cmd pkt) = true ->
  flag_isSet VALID_ADDR pkt = true -> (cacheResponding pkt = true -> forwardPacket pkt x = true) ->
  exists lat pkt' x' w', send_below send id dst pkt x w = Ok (lat, pkt', x', w') /\
    same_request pkt pkt' /\ keeps x x' /\ (forall l q, present w' l q -> present w l q) /\
    cmd pkt' = (if cacheResponding pkt then cmd pkt else responseCommand (cmd pkt)).
Proof.
  intros Hn Hr Hv Hfw. unfold send_below. destruct (forwardPacket pkt x).
  - set (pkt1 := if isWrite (cmd pkt) && dst then clearWriteThrough pkt else pkt).
    assert (H1 : same_request pkt pkt1 /\ cacheResponding pkt1 = cacheResponding pkt /\ cmd pkt1 = cmd pkt).
    { unfold pkt1. destruct (_ && _); [| split_and!; auto using same_refl].
      destruct (clear_same WRITE_THROUGH pkt) as [? ?]; [reflexivity | by split_and!]. }
    destruct H1 as (Hs1 & Hcr1 & Hc1). rewrite <- Hc1 in Hn.
    destruct (ap_send id pkt1 w Hn) as (pkt2 & t & w' & -> & Hs2 & Hless & Hc2). cbn [obind].
    pose proof (same_trans _ _ _ Hs1 Hs2) as Hs. rewrite Hcr1, Hc1 in Hc2.
    assert (Hset : exists x', (if center_xbar x && negb (bool_decide (cxl_packet_type (req pkt2) = DefaultPacket))
        then let! a := getAddr pkt2 in if HOST_BASE <=? a then setFakeSF pkt2 x else Ok x else Ok x) = Ok x' /\ keeps x x').
    { destruct (center_xbar x && _); [| exists x; split; [done | by split]]. unfold setFakeSF, getAddr. rewrite (sr_valid _ _ Hs), Hv. cbn [obind assert_].
      destruct (HOST_BASE <=? addr pkt2); cbn [obind assert_]; eexists; split; try reflexivity; by split. }
    destruct Hset as (x' & -> & Hk). cbn [obind]. eauto 10.
  - rewrite Hn. cbn [assert_ obind]. unfold makeResponse. rewrite Hn, Hr. cbn [assert_ obind].
    eexists _, _, _, _. split; [reflexivity |]. split_and!; [| by split | done |].
    + apply same_trans with (set_cmd (responseCommand (cmd pkt)) pkt); [apply same_set_cmd, same_refl |].
      by apply clear_same.
    + destruct (cacheResponding pkt); [| done]. discriminate Hfw. done.
Qed.

(** The hypotheses of an ordinary request of a cache at port [p]. *)
Record cache_request (orig : Packet) (p : ResponsePort) (x : HostXBar) (f : SnoopFilter)
    (pend : Z -> ResponsePort -> Prop) : Prop := {
  cr_plain : plain_request (cmd orig);
  cr_valid : flag_isSet VALID_ADDR orig = true;
  cr_size : flag_isSet VALID_SIZE orig = true;
  cr_cached : isUncacheable (req orig) = false;
  cr_maint : isCacheMaintenance (req orig) = false;
  cr_fresh : cacheResponding orig = false;
  cr_id : 0 <= getId p;
  cr_port : hx_cpuSidePorts x !! Z.to_nat (getId p) = Some p;
  cr_filter : snoopFilter x = Some f;
  cr_line : linesize f = ls;
  cr_tracked : tracked f p;
  cr_none : ~ pend (line_of ls orig) p;
  cr_caches : bypassCaches x = false;
  cr_routed : routed orig x;
}.

Section accepted.
Variables (orig : Packet) (p : ResponsePort) (x : HostXBar) (f : SnoopFilter) (pend : Z -> ResponsePort -> Prop).
Hypothesis Hreq : cache_request orig p x f pend.
#[local] Abbreviation line := (line_of ls orig).

(** The requests in flight with this one. *)
Definition in_flight : Z -> ResponsePort -> Prop := fun l q => pend l q \/ (l = line /\ q = p).

Lemma snoop_above_ok w : sys_inv (mkSystem f pend (present w)) ->
  exists resp lat pkt f' w', snoop_above snoop orig (getId p) x w = Ok (resp, lat, pkt, with_filter f' x, w') /\
    snoop_state orig p in_flight [] resp pkt f' w'.
Proof.
  intros Hinv. destruct Hreq as [Hplain Hv Hsz Hu Hm Hcr Hid Hport Hf Hl Ht Hnp Hby Hro].
  destruct (plain_request_facts _ Hplain) as (_ & _ & Hev & _).
  assert (Hla : line_addr f orig = Ok line) by (by rewrite line_addr_of, Hl).
  destruct (tracked_bit f p (sw_ports _ (si_wf _ Hinv)) Ht) as (Hsn & _).
  assert (Hconf : conforms (mkSystem f pend (present w)) (Request orig p false) line).
  { cbn. rewrite Hcr. unfold allocates. rewrite Hu, Hsn, (pr_cache _ Hplain). split_and!; try done. apply Hplain. }
  destruct (run_conforming _ (Request orig p false) line Hinv Hla Hconf eq_refl) as (f' & ps & Hrun & (E1 & _ & E3 & _) & Htg & _).
  assert (Hinv' : sys_inv (mkSystem f' in_flight (present w))).
  { eapply inv_pending; [apply (event_inv _ (Request orig p false) line f' ps (present w) Hinv Hla Hconf Hrun) |].
    - split; [by left | done].
    - intros l q. cbn. rewrite Hcr. unfold in_flight. tauto. }
  cbn [flt run event_targets] in *. unfold run_request in Hrun.
  destruct (lookupRequest orig p f) as [[f1 [ports lat]] | e] eqn:El; [| done]. cbn [obind] in Hrun.
  destruct (finishRequest false (addr orig) (_isSecure orig) f1) as [f2 | e] eqn:Ef; [| done]. cbn [obind] in Hrun.
  simplify_eq. unfold snoop_above. rewrite Hf. destruct (Z.ltb_spec (getId p) 0); [lia |].
  rewrite Hport, El. cbn [obind]. unfold getAddr, isSecure. rewrite Hv. cbn [assert_ obind]. rewrite Ef. cbn [obind].
  rewrite Hev. unfold forwardAtomic. cbn [bypassCaches set_snoopFilter]. rewrite Hby. cbn [negb assert_ obind].
  destruct (forward_loop_ok orig p in_flight Hplain Hv Hu Hid x Hport ps InvalidCmd 0 orig f' w)
    as (resp & t & pkt & f2 & w' & Hloop & Hst).
  - split; try done; try congruence; [unfold tracked; by rewrite E1 | | |].
    + intros q Hq. apply Htg in Hq as [_ [Hq _]]. unfold tracked. by rewrite E1.
    + intros _ q Hq. destruct (decide (q = p)); [by left | right]. apply Htg. split; [done |].
      destruct (si_present _ Hinv _ _ Hq) as [? ?]. split; [done | by left].
    + left. split_and!; auto. right. done.
  - unfold with_filter in Hloop. rewrite Hloop. cbn [obind]. eauto 10.
Qed.

(** Packets are sunk only when a cache has answered; the others are forwarded. *)
Lemma sinkPacket_ok pkt y : cmd pkt = cmd orig -> exists b, sinkPacket pkt y = Ok b /\
  (cacheResponding pkt = false -> b = false) /\
  (b = false -> cacheResponding pkt = true -> forwardPacket pkt y = true).
Proof.
  intros Hc. destruct Hreq as [Hplain _ _ _ _ _ _ _ _ _ _ _ _ _].
  destruct (plain_request_facts _ Hplain) as (Hr & _ & _ & _ & Hce & Hwc & _).
  unfold sinkPacket, isCleanEviction, forwardPacket, needsWritable.
  rewrite Hc, (pr_needs _ Hplain), (pr_clean _ Hplain), Hr, (bool_decide_eq_false_2 _ Hce), (bool_decide_eq_false_2 _ Hwc).
  cbn [negb]. rewrite andb_false_r. cbn [orb andb].
  destruct (pointOfCoherency y), (cacheResponding pkt); cbn [andb orb]; eexists; (split; [reflexivity |]);
    split; try done. intros _ _. by rewrite orb_true_r.
Qed.

(** The filter learns of the response of the memory. *)
Lemma filter_response_ok pkt y f' w : same_request orig pkt -> isResponse (cmd pkt) = true ->
  keeps (with_filter f' x) y -> linesize f' = ls -> tracked f' p -> sys_inv (mkSystem f' in_flight (present w)) ->
  exists f'', filter_response pkt (getId p) y = Ok (with_filter f'' y) /\
    sys_inv (mkSystem f'' pend (with_copy w line p)).
Proof.
  intros Hs Hr [Kf Kp Kb _] Hl Ht Hinv. destruct Hreq as [Hplain Hv Hsz Hu Hm Hcr Hid Hport _ _ _ Hnp Hby _].
  assert (Hfl : forall r, req_flags r = req_flags (req orig) -> isUncacheable r = false /\ isCacheMaintenance r = false).
  { intros r Er. unfold isUncacheable, isCacheMaintenance, req_isSet in *. by rewrite Er. }
  destruct (Hfl (req pkt) (sr_flags _ _ Hs)) as [Hu' Hm'].
  assert (Hla : line_addr f' pkt = Ok line).
  { rewrite line_addr_of by (rewrite (sr_valid _ _ Hs); exact Hv). by rewrite Hl, (same_line _ _ _ Hs). }
  assert (Hconf : conforms (mkSystem f' in_flight (present w)) (Response pkt p) line).
  { cbn. split_and!; auto. by right. }
  destruct (run_conforming _ (Response pkt p) line Hinv Hla Hconf eq_refl) as (f'' & ps & Hrun & _).
  unfold filter_response. rewrite Kb, Kf, Kp. cbn [bypassCaches snoopFilter hx_cpuSidePorts with_filter set_snoopFilter].
  rewrite Hby, Hr. cbn [negb andb]. destruct (Z.ltb_spec (getId p) 0); [lia |]. rewrite Hport.
  pose proof Hrun as Hrun'. cbn [run flt] in Hrun'. destruct (updateResponse pkt p f') as [f1 | e]; [| done].
  cbn [obind] in Hrun' |- *. simplify_eq. exists f''. split; [done |].
  eapply inv_pending; [apply (event_inv _ (Response pkt p) line f'' _ (with_copy w line p) Hinv Hla Hconf Hrun) |].
  - split; [| by rewrite Hm']. intros l q [Hq | [-> ->]]; [by left | right; by rewrite Hm'].
  - intros l q. cbn. unfold in_flight. split; [| tauto]. intros Hq. split; [by left |]. intros [-> ->]. done.
Qed.

Lemma surviving_all f' pend' w : sys_inv (mkSystem f' pend' (surviving orig p [] w)) ->
  sys_inv (mkSystem f' pend' (with_copy w line p)).
Proof. intros H. eapply inv_fewer; [exact H |]. intros l q Hq. split; [done |]. intros (_ & _ & _ & []%not_elem_of_nil). Qed.

(** The end of the request. *)
Lemma finish_ok pkt y : cmd pkt = responseCommand (cmd orig) -> flag_isSet VALID_SIZE pkt = true ->
  finish_maintenance pkt y = Ok y /\ exists n, (if isResponse (cmd pkt) && hasData (cmd pkt) then getSize pkt else Ok 0) = Ok n.
Proof.
  intros Hc Hv. destruct Hreq as [Hplain _ _ _ _ _ _ _ _ _ _ _ _ _].
  destruct (plain_request_facts _ Hplain) as (_ & _ & _ & _ & _ & _ & _ & _ & Hcl & _ & _ & Hwc).
  unfold finish_maintenance, getSize. rewrite Hc, Hcl, (bool_decide_eq_false_2 _ Hwc), Hv. cbn [andb assert_ obind].
  split; [done |]. destruct (_ && _); eauto.
Qed.

(** The packet after the send: answered by a cache or by the memory. *)
Definition answered (resp : Command) (pkt : Packet) (f1 : SnoopFilter) (w : W) : Prop :=
  (resp = InvalidCmd /\ cmd pkt = responseCommand (cmd orig) /\ sys_inv (mkSystem f1 in_flight (present w))) \/
  (resp = responseCommand (cmd orig) /\ cmd pkt = cmd orig /\
   sys_inv (mkSystem f1 (without in_flight line p) (with_copy w line p))).

Lemma finish_atomic_ok resp t rl pkt y f1 w : same_request orig pkt -> keeps (with_filter f1 x) y ->
  linesize f1 = ls -> tracked f1 p -> answered resp pkt f1 w ->
  exists lat pkt' x' f', finish_atomic resp t (getId p) rl pkt y = Ok (lat, pkt', x') /\
    cmd pkt' = responseCommand (cmd orig) /\ same_request orig pkt' /\ snoopFilter x' = Some f' /\
    sys_inv (mkSystem f' pend (with_copy w line p)).
Proof.
  intros Hs Hk Hl Ht Ha. pose proof (plain_request_facts _ (cr_plain _ _ _ _ _ Hreq)) as
    (_ & Hnr & _ & _ & _ & _ & _ & Hrsp & _ & Hni & _).
  assert (Hv : flag_isSet VALID_SIZE pkt = true) by (rewrite (sr_valid_size _ _ Hs); apply (cr_size _ _ _ _ _ Hreq)).
  unfold finish_atomic. destruct Ha as [(-> & Hc & Hi) | (-> & Hc & Hi)].
  - destruct (filter_response_ok pkt y f1 w) as (f' & -> & Hi'); auto; [by rewrite Hc |]. cbn [obind].
    rewrite bool_decide_eq_false_2 by (by intros []). cbn [obind].
    destruct (finish_ok pkt (with_filter f' y) Hc Hv) as [-> [n ->]]. cbn [obind].
    eexists _, _, _, f'. split; [reflexivity |]. split_and!; [done | by destruct Hs | done | done].
  - unfold filter_response. rewrite Hc, Hnr, andb_false_r. cbn [obind]. rewrite (bool_decide_eq_true_2 _ Hni).
    cbn [negb assert_ obind].
    destruct (finish_ok (set_cmd (responseCommand (cmd orig)) pkt) y eq_refl Hv) as [-> [n ->]]. cbn [obind].
    eexists _, _, _, f1. split; [reflexivity |]. split_and!; [done | by destruct Hs | by rewrite (kp_filter _ _ Hk) |].
    eapply inv_pending; [exact Hi |]. intros l q. unfold without, in_flight. pose proof (cr_none _ _ _ _ _ Hreq).
    split; [| tauto]. intros Hp. split; [by left |]. intros [-> ->]. done.
Qed.

(** Routing and sending a request that has been snooped. *)
Lemma route_ok resp pkt f1 w : snoop_state orig p in_flight [] resp pkt f1 w ->
  exists sunk id pkt' x1, sinkPacket pkt (with_filter f1 x) = Ok sunk /\
    findPort pkt (with_filter f1 x) = Ok (id, pkt', x1) /\
    forall dst, exists rl pkt2 x2 w2,
      (if sunk then Ok (0, pkt', x1, w) else send_below send id dst pkt' x1 w) = Ok (rl, pkt2, x2, w2) /\
      same_request orig pkt2 /\ keeps (with_filter f1 x) x2 /\ answered resp pkt2 f1 w2 /\
      (forall l q, present w2 l q -> present w l q).
Proof.
  intros [Hs Hr1 Hc1 Hl1 Ht1 _ Hre Hi]. pose proof Hreq as [Hplain Hv Hsz _ _ _ _ _ _ _ _ _ _ Hro].
  destruct (plain_request_facts _ Hplain) as (Hrq & _).
  destruct (sinkPacket_ok pkt (with_filter f1 x) Hc1) as (sunk & Hsk & Hsk0 & Hfw).
  destruct (findPort_routed pkt (with_filter f1 x)) as (id & pkt' & x1 & Hfp & Hpkt & Hk1); [by rewrite (sr_valid _ _ Hs) | |].
  { unfold routed, host_request, XBar.findPort, getAddrRange, getAddr, getSize in *. cbn [base center_xbar with_filter set_snoopFilter].
    by rewrite (sr_valid _ _ Hs), (sr_valid_size _ _ Hs), (sr_addr _ _ Hs), (sr_size _ _ Hs), Hc1, (proj2 Hr1). }
  exists sunk, id, pkt', x1. split_and!; [done | done |]. intros dst.
  assert (H2 : same_request orig pkt' /\ cmd pkt' = cmd orig /\ cacheResponding pkt' = cacheResponding pkt).
  { destruct Hpkt as [-> | ->]; [by split_and! |]. split_and!; [by destruct Hs | done | done]. }
  destruct H2 as (Hs2 & Hc2 & Hcr2). destruct sunk.
  - destruct Hi as [(_ & Hno & _) | (-> & _ & Hi)]; [discriminate (Hsk0 Hno) |].
    eexists _, _, _, _. split; [reflexivity |]. split_and!; try done. right. split_and!; [done | done |]. by apply surviving_all.
  - destruct (send_below_ok id dst pkt' x1 w) as (rl & pkt2 & x2 & w2 & Hsend & Hs3 & Hk3 & Hless & Hc3).
    + rewrite Hc2. apply Hplain.
    + by rewrite Hc2.
    + by rewrite (sr_valid _ _ Hs2).
    + intros E. rewrite Hcr2 in E. rewrite <- (Hfw eq_refl E). unfold forwardPacket.
      by rewrite Hc2, Hc1, (pr_clean _ Hplain), (kp_poc _ _ Hk1).
    + exists rl, pkt2, x2, w2. split_and!; [done | by eapply same_trans | by eapply host_keeps_trans | | done].
      rewrite Hcr2, Hc2 in Hc3. destruct Hi as [(-> & Hno & _ & Hi) | (-> & Hyes & Hi)].
      * rewrite Hno in Hc3. left. split_and!; [done | done |]. by eapply inv_fewer.
      * rewrite Hyes in Hc3. right. split_and!; [done | done |]. eapply inv_fewer; [by apply surviving_all |].
        intros l q [H | H]; [left; auto | by right].
Qed.

(** The request comes back answered, with the filter right about every copy. *)
Lemma recvAtomic_ok w : sys_inv (mkSystem f pend (present w)) ->
  exists lat pkt x' w' f', recvAtomicBackdoor snoop send orig (getId p) x w = Ok (lat, pkt, x', w') /\
    cmd pkt = responseCommand (cmd orig) /\ same_request orig pkt /\ snoopFilter x' = Some f' /\
    sys_inv (mkSystem f' pend (with_copy w' line p)) /\
    (isInvalidate (cmd orig) = true -> forall q, present w' line q -> q = p).
Proof.
  intros Hinv. destruct (snoop_above_ok w Hinv) as (resp & t & pkt1 & f1 & w1 & Hsn & Hst).
  destruct (route_ok resp pkt1 f1 w1 Hst) as (sunk & id & pkt2 & x1 & Hsk & Hfp & Hsend).
  destruct (Hsend (isDestination orig x)) as (rl & pkt3 & x2 & w2 & Hs & Hs3 & Hk & Ha & Hless).
  destruct (finish_atomic_ok resp t rl pkt3 x2 f1 w2) as (lat & pkt4 & x3 & f' & Hfin & Hc & Hs4 & Hf & Hi);
    [done | done | apply Hst | apply Hst | done |].
  exists lat, pkt4, x3, w2, f'. split_and!; try done.
  - destruct (plain_request_facts _ (cr_plain _ _ _ _ _ Hreq)) as (_ & _ & _ & Hwc & _).
    unfold recvAtomicBackdoor, getSize.
    rewrite (cr_size _ _ _ _ _ Hreq), (cr_caches _ _ _ _ _ Hreq), (bool_decide_eq_false_2 _ Hwc). cbn [negb andb assert_ obind].
    destruct (hasData _); cbn [obind]; rewrite Hsn; cbn [obind]; rewrite Hsk; cbn [obind]; rewrite Hfp; cbn [obind];
      rewrite Hs; cbn [obind]; by rewrite Hfin.
  - intros Hinvd q Hq. destruct (ss_reached _ _ _ _ _ _ _ _ Hst Hinvd q (Hless _ _ Hq)) as [? | []%not_elem_of_nil]. done.
Qed.
End accepted.
End filter_requests.

(** C16: a crossbar with a snoop filter answers every ordinary atomic request of a
    cache, whether another cache or the memory below provides the answer, and no
    assertion, panic or undefined access is met on the way; afterwards the filter
    again has exactly the requests in flight and a holder bit for every copy, that
    of the requester included; and after an invalidating request no other cache has
    the line.  Ordinary is a cacheable request of a cache with address and size that needs
    a response, cleans nothing, is no maintenance, has no answer and no other request of
    its cache for the line in flight, and is routed; the crossbar does not bypass caches.
    A snooped cache may write to the request object, where it notes the states of the
    block, but keeps its kind; it answers only if it has the line and nobody has answered,
    loses the line to an invalidating snoop, and denies sharers only if it gives up the
    only copy.  The memory answers what no cache has answered. *)
Theorem atomic_keeps_filter {W} ls (present : W -> Z -> ResponsePort -> Prop) snoop send
    `{!AtomicPeers ls present snoop send} orig p x f pend w :
  cache_request ls orig p x f pend -> sys_inv (mkSystem f pend (present w)) ->
  exists lat pkt x' w' f', recvAtomicBackdoor snoop send orig (getId p) x w = Ok (lat, pkt, x', w') /\
    cmd pkt = responseCommand (cmd orig) /\ snoopFilter x' = Some f' /\
    sys_inv (mkSystem f' pend (with_copy present w' (line_of ls orig) p)) /\
    (isInvalidate (cmd orig) = true -> forall q, present w' (line_of ls orig) q -> q = p).
Proof.
  intros Hreq Hinv. destruct (recvAtomic_ok ls present snoop send orig p x f pend Hreq w Hinv)
    as (lat & pkt & x' & w' & f' & H1 & H2 & _ & H3 & H4 & H5). by exists lat, pkt, x', w', f'.
Qed.

(** ** Instances *)

(** The root complex at port 0 and the memory of the host at port 1. *)
Definition ex_host_base : BaseXBar :=
  mkBaseXBar (mkAddrRangeMap [(rootcomplex, 0); (RangeSize 0x80000000 0x80000000, 1)] []) [true; true] true
    InvalidPortID false AddrRange_default [] 16.
Definition ex_host : HostXBar :=
  mkHostXBar ex_host_base (Some ex_filter) ex_ports [] 500 false false false true ∅ ∅.

(** A read of the host, and a read that comes from the device. *)
Definition ex_host_read (c : Command) : Packet := mkPacket 7 c 0x300 0xa0000040 false 64 0 0 0 [] (new_Request 1).
Definition ex_fetch : Packet :=
  mkPacket 8 ReadSharedReq 0x300 0xa0000040 false 64 0 0 0 [] (set_cxl_packet_type CXLcachePacket (new_Request 2)).

Lemma ex_host_decodes : decodes ex_host_base 0.
Proof.
  split; [reflexivity |]. split; [| split].
  - split; cbn; [| | constructor].
    + apply SSorted_cons; [apply SSorted_cons; [apply SSorted_nil |] |]; rewrite ?Forall_cons, Forall_nil; auto.
      split; [| done]. left. by vm_compute.
    + repeat constructor; vm_compute; try discriminate; auto.
  - intros e He. apply list_elem_of_In in He. destruct He as [<- | [<- | []]]; eexists; reflexivity.
  - by eexists.
Qed.

(** What the decoder finds does not depend on its cache. *)
Lemma decoder_finds pkt q t r id b : getAddrRange pkt = Ok q -> interleaved q = false -> _start q < _end q ->
  decided (isSubset q) t -> search (isSubset q) t = Some (r, id) ->
  tree (portMap b) = t -> map_wf (portMap b) -> gotAllAddrRanges b = true ->
  exists b', XBar.findPort pkt b = Ok (id, b') /\ map_wf (portMap b') /\ tree (portMap b') = t /\ gotAllAddrRanges b' = true.
Proof.
  intros Hq Hi Hlt Hd Hs <- Hw Hg. unfold XBar.findPort, findPort_range. rewrite Hq, Hg. cbn [assert_ obind].
  destruct (map_contains_ok portMap_cache q (portMap b) Hw Hi Hlt Hd) as (m' & -> & Et & Hw').
  rewrite Hs. cbn [obind]. eexists. split; [reflexivity |]. by split_and!.
Qed.

Lemma ex_host_finds c b : tree (portMap b) = tree (portMap ex_host_base) -> map_wf (portMap b) ->
  gotAllAddrRanges b = true -> exists b', XBar.findPort (ex_host_read c) b = Ok (1, b') /\
    map_wf (portMap b') /\ tree (portMap b') = tree (portMap ex_host_base) /\ gotAllAddrRanges b' = true.
Proof.
  intros Ht Hw Hg. eapply (decoder_finds _ (RangeSize 0xa0000040 64)); try reflexivity; [| exact Ht | exact Hw | exact Hg].
  intros e He. apply list_elem_of_In in He. destruct He as [<- | [<- | []]]; eexists; reflexivity.
Qed.

(** Caches as the set of the lines they have, by port. *)
Definition ex_caches : Type := gset (Z * Z).
Definition ex_present (w : ex_caches) (l : Z) (q : ResponsePort) : Prop := (l, getId q) ∈ w.
Definition ex_drop (pkt : Packet) (p : ResponsePort) (w : ex_caches) : ex_caches :=
  if isInvalidate (cmd pkt) then w ∖ {[ (line_of 64 pkt, getId p) ]} else w.
Definition ex_note (pkt : Packet) : Packet :=
  set_req (set_new_state (if isInvalidate (cmd pkt) then 0 else 3) (set_old_state 7 (req pkt))) pkt.
Definition ex_snoop (p : ResponsePort) (pkt : Packet) (w : ex_caches) : outcome (Packet * Z * ex_caches) :=
  if bool_decide ((line_of 64 pkt, getId p) ∈ w) && needsResponse (cmd pkt) && negb (cacheResponding pkt) then
    Ok (set_cmd (responseCommand (cmd pkt))
          (flag_set (if isInvalidate (cmd pkt) then CACHE_RESPONDING else Z.lor CACHE_RESPONDING HAS_SHARERS) (ex_note pkt)),
        1000, ex_drop pkt p w)
  else Ok (pkt, 500, ex_drop pkt p w).
Definition ex_send (id : Z) (pkt : Packet) (w : ex_caches) : outcome (Packet * Z * ex_caches) :=
  Ok (if cacheResponding pkt then pkt else set_cmd (responseCommand (cmd pkt)) pkt, 30000, w).

Lemma flag_set_this k m pkt : Z.land m k = k -> truthy k = true -> flag_isSet k (flag_set m pkt) = true.
Proof.
  intros H Hk. unfold flag_isSet, flag_set, truthy in *. cbn. rewrite Z.land_lor_distr_l, H.
  apply negb_true_iff, Z.eqb_neq. intros [_ E]%Z.lor_eq_0_iff. by rewrite E in Hk.
Qed.

Lemma ex_drop_less pkt p w l q : ex_present (ex_drop pkt p w) l q -> ex_present w l q.
Proof. unfold ex_present, ex_drop. destruct (isInvalidate _); [| done]. by intros [? _]%elem_of_difference. Qed.
Lemma ex_drop_lost pkt p w : isInvalidate (cmd pkt) = true -> ~ ex_present (ex_drop pkt p w) (line_of 64 pkt) p.
Proof. intros E. unfold ex_present, ex_drop. rewrite E. intros [_ Hno]%elem_of_difference. by apply Hno, elem_of_singleton. Qed.

#[export] Instance ex_peers : AtomicPeers 64 ex_present ex_snoop ex_send.
Proof.
  split.
  - intros p pkt w. unfold ex_snoop.
    pose proof (ex_drop_less pkt p w) as Hless. pose proof (ex_drop_lost pkt p w) as Hlost.
    case_bool_decide as Hin; [| cbn [andb]; eexists _, _, _; split; [reflexivity |]; split_and!; auto using same_refl].
    destruct (needsResponse (cmd pkt)) eqn:Hn; [| eexists _, _, _; split; [reflexivity |]; split_and!; auto using same_refl].
    destruct (cacheResponding pkt) eqn:Hcr; [eexists _, _, _; split; [reflexivity |]; split_and!; auto using same_refl |].
    cbn [andb negb]. eexists _, _, _. split; [reflexivity |]. split_and!; try done.
    + apply same_set_cmd, (same_trans _ (ex_note pkt)); [by split |].
      split; try done; apply flag_set_other; by destruct (isInvalidate _).
    + right. split_and!; try done.
      * unfold cacheResponding, set_cmd, flag_isSet in *. cbn [flags].
        apply (flag_set_this CACHE_RESPONDING _ (ex_note pkt)); [by destruct (isInvalidate _) | done].
      * destruct (isInvalidate (cmd pkt)); [by left |]. intros E. exfalso.
        assert (E' : hasSharers (flag_set (Z.lor CACHE_RESPONDING HAS_SHARERS) (ex_note pkt)) = true) by (by apply flag_set_this).
        unfold hasSharers, flag_isSet, set_cmd in E, E'. cbn [flags] in E. congruence.
  - intros id pkt w Hn. unfold ex_send. eexists _, _, _. split; [reflexivity |].
    destruct (cacheResponding pkt); split_and!; auto using same_refl, same_set_cmd.
Qed.

(** The second cache asks exclusively for a line of the device; no cache has it. *)
Lemma atomic_keeps_filter_witness :
  exists lat pkt x' w' f',
    recvAtomicBackdoor ex_snoop ex_send (ex_host_read ReadExReq) 2 ex_host (∅ : ex_caches) = Ok (lat, pkt, x', w') /\
    cmd pkt = ReadExResp /\ snoopFilter x' = Some f' /\
    sys_inv (mkSystem f' (fun _ _ => False) (with_copy ex_present w' 0xa0000040 (mkResponsePort 2 true))).
Proof.
  destruct (atomic_keeps_filter 64 ex_present ex_snoop ex_send (ex_host_read ReadExReq) (mkResponsePort 2 true) ex_host
              ex_filter (fun _ _ => False) ∅) as (lat & pkt & x' & w' & f' & H1 & H2 & H3 & H4 & _).
  - constructor; try done; try reflexivity.
    + right. left.
    + intros [].
    + destruct (ex_host_finds ReadExReq ex_host_base eq_refl) as (b' & H & _); [apply ex_host_decodes | reflexivity |]. split; [by exists 1, b' |].
      intros _ _. split; [by right |]. exists 0. exact ex_host_decodes.
  - split; [exact ex_filter_wf | |].
    + intros l q. split; [intros [] |]. intros [_ H]. unfold entry in H. cbn [flt cachedLocations ex_filter] in H.
      rewrite lookup_empty in H. unfold in_mask in H. cbn [default from_option requested SnoopItem_empty] in H.
      by rewrite Z.bits_0 in H.
    + intros l q H. change ((l, getId q) ∈ (∅ : ex_caches)) in H. by apply not_elem_of_empty in H.
  - exists lat, pkt, x', w', f'. split; [exact H1 |]. split; [exact H2 |]. split; [exact H3 | exact H4].
Defined.

#[export] Instance atomic_peers_quiet {W} ls (present : W -> Z -> ResponsePort -> Prop) snoop send :
  AtomicPeers ls present snoop send -> QuietSnoops snoop.
Proof.
  intros Hp p pkt w pkt' t w' E. destruct (ap_snoop p pkt w) as (q & l & v & E' & Hs & Hr & _ & _ & Hc). rewrite E in E'.
  injection E' as <- _ <-. split; [apply Hs |]. split; [apply Hs |]. split; [done |].
  destruct Hc as [[-> _] | (-> & Hn & _)]; [by left | right]. by apply response_facts.
Qed.

(** The device fetches a line of the host, and the host reads it shared and then
    exclusively, with caches that have nothing: both reads go to the root complex at port 0
    as snoops of the device. *)
Definition ex_history : list (Packet * Z) := [(ex_host_read ReadSharedReq, 2); (ex_fetch, 1)].
Lemma fake_filter_history_witness :
  exists tr x1 w1 lat pkt' x2 w2 out back,
    run_requests ex_snoop ex_send ex_history ex_host (∅ : ex_caches) = Ok (tr, x1, w1) /\
    traced_request ex_snoop ex_send (ex_host_read ReadExReq) 2 x1 w1 = Ok (lat, pkt', x2, (w2, Some (0, out, back))) /\
    marked tr 0xa0000040 = true /\ 0xa0000040 ∈ fake_snoop_filter x1 /\ cxl_packet_type (req out) = CXLcacheH2DReq.
Proof.
  destruct (run_requests ex_snoop ex_send ex_history ex_host (∅ : ex_caches)) as [[[tr x1] w1] |] eqn:E; [| vm_compute in E; discriminate E].
  destruct (traced_request ex_snoop ex_send (ex_host_read ReadExReq) 2 x1 w1) as [[[[lat pkt'] x2] [w2 sent]] |] eqn:E1;
    [| vm_compute in E; injection E as <- <- <-; vm_compute in E1; discriminate E1].
  destruct (fake_filter_history ex_snoop ex_send ex_history ex_host (∅ : ex_caches) tr x1 w1 (ex_host_read ReadExReq) 2 lat pkt' x2 w2 sent)
    as (H1 & _ & _ & H4); [reflexivity | reflexivity | repeat constructor | exact E | exact E1 |].
  assert (Hm : marked tr 0xa0000040 = true) by (vm_compute in E; injection E as <- _ _; reflexivity).
  assert (Hd : host_request (ex_host_read ReadExReq) && marked tr (addr (ex_host_read ReadExReq)) = true) by (cbn [addr ex_host_read]; by rewrite Hm).
  rewrite Hd in H4. destruct sent as [[[id out] back] |].
  - assert (id = 0) as -> by (vm_compute in E; injection E as <- <- <-; vm_compute in E1; injection E1; congruence).
    exists tr, x1, w1, lat, pkt', x2, w2, out, back. split; [reflexivity |]. split; [exact E1 |]. split; [exact Hm |]. split; [by apply H1 |].
    destruct H4 as (_ & _ & H4). exact H4.
  - exfalso. vm_compute in E. injection E as <- <- <-. vm_compute in E1. discriminate E1.
Defined.

(** In these cases the fake snoop filter and the device go out of step. *)
Definition ex_fetched (poc : bool) (f : SnoopFilter) : HostXBar :=
  mkHostXBar ex_host_base (Some f) ex_ports [] 500 false poc false true {[ 0xa0000040 ]} ∅.
Definition ex_filter_held : SnoopFilter :=
  mkSnoopFilter {[ 0xa0000040 := mkSnoopItem 0 1 ]} None SnoopItem_empty [mkResponsePort 0 true; mkResponsePort 2 true]
    [0; -1; 1] 64 1 1024 (mkStats 0 0 0 0 0 0).

(** An exclusive read that a cache answers is not sent below, so the device is not
    snooped, but its entry is erased all the same. *)
Lemma sunk_read_forgets :
  exists lat pkt x' w', recvAtomicBackdoor ex_snoop (fun _ _ _ => Err Panic) (ex_host_read ReadExReq) 2
      (ex_fetched true ex_filter_held) ({[ (0xa0000040, 0) ]} : ex_caches) = Ok (lat, pkt, x', w') /\
    fake_snoop_filter x' = ∅.
Proof. eexists _, _, _, _. split; [vm_compute; reflexivity | vm_compute; reflexivity]. Qed.

(** An exclusive read that goes to the root complex erases the entry, and the mark
    after the send puts it back. *)
Lemma exclusive_read_remarks :
  exists lat pkt x' w', recvAtomicBackdoor ex_snoop ex_send (ex_host_read ReadExReq) 2
      (ex_fetched false ex_filter) (∅ : ex_caches) = Ok (lat, pkt, x', w') /\
    fake_snoop_filter x' = {[ 0xa0000040 ]}.
Proof. eexists _, _, _, _. split; [vm_compute; reflexivity | vm_compute; reflexivity]. Qed.
