(* ===== verification/HostTiming.v ===== *)
(** The crossbar on the host side in timing mode: the timing handlers of [CXLHostXBar]
    in [src/gem5/src/mem/cxl_host_xbar.cc].

    A request is tested against the layer of its destination, snoops the caches above
    and is forwarded or answered; its source is remembered in [routeTo] under the
    identity of the request object, and the response, from below or from a snooped
    cache, returns there.  Packets are values: a packet that two parts of the system
    share is passed on as the last of them left it.  What the ports' peers do is
    [W], with the sends as parameters; what is scheduled on the queues of the ports
    is a list. *)
From Stdlib Require Import ZArith Lia.
From stdpp Require Import base numbers list gmap.
From S2P Require Import Prelude AddrRange AddrRangeMap MemPacket SnoopFilter Clocked XBarLayer XBar HostXBar.

Open Scope Z_scope.

(** The parameters of the crossbar; [us] is a microsecond in ticks. *)
Record TimingParams : Type := mkTimingParams {
  frontendLatency : Z;
  forwardLatency : Z;
  responseLatency : Z;
  headerLatency : Z;
  snoopResponseLatency : Z;
  maxOutstandingSnoopCheck : Z;
  maxRoutingTableSizeCheck : Z;
  us : Z;
}.

(** A response scheduled on the queue of a CPU-side port. *)
Record scheduled : Type := mkScheduled {
  sc_port : Z;
  sc_pkt : Packet;
  sc_when : Z;
}.

Record HostTiming : Type := mkHostTiming {
  host : HostXBar;
  clk : Clocked;
  params : TimingParams;
  reqLayers : list Layer;
  respLayers : list Layer;
  snoopLayers : list Layer;
  routeTo : gmap Z Z;
  outstandingSnoop : gset Z;
  queued : list scheduled;
}.

Definition set_host (v : HostXBar) (x : HostTiming) : HostTiming :=
  mkHostTiming v (clk x) (params x) (reqLayers x) (respLayers x) (snoopLayers x) (routeTo x) (outstandingSnoop x) (queued x).
Definition set_clk (v : Clocked) (x : HostTiming) : HostTiming :=
  mkHostTiming (host x) v (params x) (reqLayers x) (respLayers x) (snoopLayers x) (routeTo x) (outstandingSnoop x) (queued x).
Definition set_reqLayers (v : list Layer) (x : HostTiming) : HostTiming :=
  mkHostTiming (host x) (clk x) (params x) v (respLayers x) (snoopLayers x) (routeTo x) (outstandingSnoop x) (queued x).
Definition set_respLayers (v : list Layer) (x : HostTiming) : HostTiming :=
  mkHostTiming (host x) (clk x) (params x) (reqLayers x) v (snoopLayers x) (routeTo x) (outstandingSnoop x) (queued x).
Definition set_snoopLayers (v : list Layer) (x : HostTiming) : HostTiming :=
  mkHostTiming (host x) (clk x) (params x) (reqLayers x) (respLayers x) v (routeTo x) (outstandingSnoop x) (queued x).
Definition set_routeTo (v : gmap Z Z) (x : HostTiming) : HostTiming :=
  mkHostTiming (host x) (clk x) (params x) (reqLayers x) (respLayers x) (snoopLayers x) v (outstandingSnoop x) (queued x).
Definition set_outstandingSnoop (v : gset Z) (x : HostTiming) : HostTiming :=
  mkHostTiming (host x) (clk x) (params x) (reqLayers x) (respLayers x) (snoopLayers x) (routeTo x) v (queued x).
Definition set_queued (v : list scheduled) (x : HostTiming) : HostTiming :=
  mkHostTiming (host x) (clk x) (params x) (reqLayers x) (respLayers x) (snoopLayers x) (routeTo x) (outstandingSnoop x) v.

(** An element of a vector; an index outside it is undefined. *)
Definition nth_layer (i : Z) (ls : list Layer) : outcome Layer :=
  if i <? 0 then Err Undefined else match ls !! Z.to_nat i with Some l => Ok l | None => Err Undefined end.

(** An operation on one of the layers. *)
Definition on_layer {A} (i : Z) (f : Layer -> outcome (A * Layer)) (ls : list Layer) : outcome (A * list Layer) :=
  let! l := nth_layer i ls in let! (a, l) := f l in Ok (a, <[Z.to_nat i := l]> ls).
Definition on_reqLayer {A} (i : Z) (f : Layer -> outcome (A * Layer)) (x : HostTiming) : outcome (A * HostTiming) :=
  let! (a, ls) := on_layer i f (reqLayers x) in Ok (a, set_reqLayers ls x).
Definition on_respLayer {A} (i : Z) (f : Layer -> outcome (A * Layer)) (x : HostTiming) : outcome (A * HostTiming) :=
  let! (a, ls) := on_layer i f (respLayers x) in Ok (a, set_respLayers ls x).
Definition on_snoopLayer {A} (i : Z) (f : Layer -> outcome (A * Layer)) (x : HostTiming) : outcome (A * HostTiming) :=
  let! (a, ls) := on_layer i f (snoopLayers x) in Ok (a, set_snoopLayers ls x).
Definition unit_op (f : Layer -> outcome Layer) (l : Layer) : outcome (unit * Layer) := let! l := f l in Ok (tt, l).

(** A CPU-side port as the source of a response layer: the port that mirrors it. *)
Definition snoop_source (x : HostTiming) (cpu_side_port_id : Z) : Z :=
  Z.of_nat (length (reqLayers x)) + cpu_side_port_id.

(** [clockEdge(cycles)] of the crossbar. *)
Definition edge (cur cycles : Z) (x : HostTiming) : outcome (Z * HostTiming) :=
  let! (t, c) := clockEdge cur cycles (clk x) in Ok (t, set_clk c x).

(** [calcPacketTiming], and the time at which the layer is released. *)
Definition packet_timing (cur xbar_delay : Z) (pkt : Packet) (x : HostTiming) : outcome (Z * Packet * HostTiming) :=
  let! (pkt, c) := calcPacketTiming (us (params x)) cur (clk x) xbar_delay (base (host x)) pkt in
  let x := set_clk c x in
  let! (t, x) := edge cur (headerLatency (params x)) x in
  Ok (u64 (t + payloadDelay pkt), pkt, x).

(** Changes of the snoop filter. *)
Definition on_filter (f : SnoopFilter -> outcome SnoopFilter) (x : HostTiming) : outcome HostTiming :=
  match snoopFilter (host x) with
  | None => Ok x
  | Some sf => let! sf := f sf in Ok (set_host (set_snoopFilter (Some sf) (host x)) x)
  end.
Definition cpu_port (i : Z) (x : HostTiming) : outcome ResponsePort :=
  if i <? 0 then Err Undefined
  else match hx_cpuSidePorts (host x) !! Z.to_nat i with Some p => Ok p | None => Err Undefined end.

(** [cpuSidePorts[id]->schedTimingResp(pkt, when)]. *)
Definition schedTimingResp (id : Z) (pkt : Packet) (when : Z) (x : HostTiming) : HostTiming :=
  set_queued (queued x ++ [mkScheduled id pkt when]) x.

Definition req_key (pkt : Packet) : Z := req_ptr (req pkt).

(** Remembering the source of a request; the packet of a coherence check that goes on is
    not remembered, nor is the device's answer to a snoop in the central crossbar. *)
Definition insert_route (cpu_side_port_id : Z) (sink_packet : bool) (pkt : Packet) (x : HostTiming) : outcome HostTiming :=
  let kind := cxl_packet_type (req pkt) in
  let added := set_routeTo (<[req_key pkt := cpu_side_port_id]> (routeTo x)) x in
  if negb (bool_decide (kind = CXLcacheH2DResp)) then
    do! assert_ (bool_decide (routeTo x !! req_key pkt = None)) then
    let! _ := getAddr pkt in
    Ok (if bool_decide (kind = HostBiasCheck) && negb sink_packet
        then set_routeTo (delete (req_key pkt) (routeTo added)) added else added)
  else if negb (center_xbar (host x)) then
    do! assert_ (bool_decide (routeTo x !! req_key pkt = None)) then Ok added
  else Ok x.

Definition check_routes (x : HostTiming) : outcome HostTiming :=
  do! panic_if (maxRoutingTableSizeCheck (params x) <? Z.of_nat (stdpp.base.size (routeTo x))) then Ok x.

Definition erase_route (pkt : Packet) (x : HostTiming) : HostTiming := set_routeTo (delete (req_key pkt) (routeTo x)) x.

(** The steps on the routing table in which the crossbars of the system differ: the
    route of a request that is taken, of a cache maintenance request that waits for
    its write, and the end of the latter. *)
Record Routes : Type := mkRoutes {
  remember : Z -> bool -> Packet -> HostTiming -> outcome HostTiming;
  remember_clean : Z -> bool -> Packet -> HostTiming -> outcome HostTiming;
  forget : Packet -> Packet -> HostTiming -> outcome HostTiming;
}.

Definition host_routes : Routes := mkRoutes
  (fun cpu_side_port_id sink_packet pkt x =>
     let! x := insert_route cpu_side_port_id sink_packet pkt x in check_routes x)
  (fun cpu_side_port_id sink_packet pkt x =>
     do! assert_ (bool_decide (routeTo x !! req_key pkt = None)) then
     let! x := insert_route cpu_side_port_id sink_packet pkt x in check_routes x)
  (fun pkt rsp_pkt x => let! _ := getAddr pkt in Ok (erase_route rsp_pkt x)).

(** A request that will have a snoop response. *)
Definition insert_snoop (pkt : Packet) (x : HostTiming) : outcome HostTiming :=
  do! assert_ (negb (bool_decide (req_key pkt ∈ outstandingSnoop x))) then
  let x := set_outstandingSnoop ({[ req_key pkt ]} ∪ outstandingSnoop x) x in
  do! panic_if (maxOutstandingSnoopCheck (params x) <? Z.of_nat (stdpp.base.size (outstandingSnoop x))) then Ok x.

Section timing.
Context {W : Type}.
Variable sendTimingSnoopReq : ResponsePort -> Packet -> W -> outcome (Packet * W).
Variable sendTimingReq : Z -> Packet -> W -> outcome (bool * Packet * W).
Variable tryTimingBelow : Z -> Packet -> W -> outcome (bool * W).
Variable sendTimingSnoopResp : Z -> Packet -> W -> outcome (bool * W).

(** The loop of [forwardTiming]. *)
Fixpoint snoop_loop (exclude : Z) (dests : list ResponsePort) (pkt : Packet) (w : W) : outcome (Packet * W) :=
  match dests with
  | [] => Ok (pkt, w)
  | p :: dests =>
      if (exclude =? InvalidPortID) || negb (getId p =? exclude) then
        let! (pkt, w) := sendTimingSnoopReq p pkt w in snoop_loop exclude dests pkt w
      else snoop_loop exclude dests pkt w
  end.

(** [void forwardTiming(PacketPtr pkt, PortID exclude_cpu_side_port_id, const
    std::vector<QueuedResponsePort*>& dests)]. *)
Definition forwardTiming (exclude : Z) (dests : list ResponsePort) (pkt : Packet) (x : HostTiming) (w : W)
    : outcome (Packet * W) :=
  do! assert_ (negb (bypassCaches (host x))) then snoop_loop exclude dests pkt w.

(** The lookup latency of the snoop filter, and the delay of the snoops. *)
Definition charge_lookup (lat : Z) (x : HostTiming) (pkt : Packet) : Packet :=
  set_headerDelay (u32 (headerDelay pkt + u64 (lat * clockPeriod (clk x)))) pkt.
Definition charge_snoops (pkt : Packet) : Packet :=
  set_snoopDelay 0 (set_headerDelay (u32 (headerDelay pkt + snoopDelay pkt)) pkt).

(** The snooping part of [recvTimingReq]; the first result says whether to go on. *)
Definition snoop_request (cur cpu_side_port_id mem_side_port_id : Z) (is_destination : bool) (pkt : Packet)
    (x : HostTiming) (w : W) : outcome (bool * Packet * HostTiming * W) :=
  do! assert_ (snoopDelay pkt =? 0) then
  let! (free, w) := (if isClean (cmd pkt) && negb is_destination then tryTimingBelow mem_side_port_id pkt w else Ok (true, w)) in
  if negb free then
    let! (t, x) := edge cur 1 x in
    let! (_, x) := on_reqLayer mem_side_port_id (unit_op (failedTiming cur cpu_side_port_id t)) x in
    Ok (false, pkt, x, w)
  else
    let! (pkt, x, w) :=
      match snoopFilter (host x) with
      | Some f =>
          let! src := cpu_port cpu_side_port_id x in
          let! (f, (ports, lat)) := lookupRequest pkt src f in
          let x := set_host (set_snoopFilter (Some f) (host x)) x in
          let pkt := charge_lookup lat x pkt in
          if isEviction (cmd pkt) then Ok (if bool_decide (ports = []) then pkt else setBlockCached pkt, x, w)
          else let! (pkt, w) := forwardTiming cpu_side_port_id ports pkt x w in Ok (pkt, x, w)
      | None => let! (pkt, w) := forwardTiming cpu_side_port_id (snoopPorts (host x)) pkt x w in Ok (pkt, x, w)
      end in
    Ok (true, charge_snoops pkt, x, w).

(** Forwarding the request: whether it was taken, and whether the crossbar answers. *)
Definition forward_request (mem_side_port_id : Z) (is_destination expect_snoop_resp : bool) (pkt : Packet)
    (x : HostTiming) (w : W) : outcome (bool * bool * Packet * W) :=
  if forwardPacket pkt (host x) then
    let pkt := if cacheResponding pkt then setExpressSnoop pkt else pkt in
    let pkt := if isWrite (cmd pkt) && is_destination then clearWriteThrough pkt else pkt in
    let! (success, pkt, w) := sendTimingReq mem_side_port_id pkt w in Ok (success, false, pkt, w)
  else
    do! assert_ (needsResponse (cmd pkt)) then
    do! assert_ (negb expect_snoop_resp) then Ok (true, true, pkt, w).

(** After a failed send. *)
Definition refused_request (cur cpu_side_port_id mem_side_port_id old_header_delay : Z) (is_express_snoop : bool)
    (pkt : Packet) (x : HostTiming) : outcome (Packet * HostTiming) :=
  do! assert_ (negb is_express_snoop) then
  let! (t, x) := edge cur 1 x in
  let! (_, x) := on_reqLayer mem_side_port_id (unit_op (failedTiming cur cpu_side_port_id t)) x in
  Ok (set_headerDelay old_header_delay pkt, x).

(** After a successful one. *)
Definition accepted_request (R : Routes) (cur cpu_side_port_id mem_side_port_id packetFinishTime : Z)
    (is_express_snoop sink_packet expect_response expect_snoop_resp : bool) (pkt : Packet) (x : HostTiming)
    : outcome HostTiming :=
  if is_express_snoop then Ok x
  else
    let! x := (if expect_snoop_resp then insert_snoop pkt x else Ok x) in
    let! x := (if expect_response || expect_snoop_resp then
                 remember R cpu_side_port_id sink_packet pkt x
               else Ok x) in
    let! (_, x) := on_reqLayer mem_side_port_id (unit_op (succeededTiming cur packetFinishTime)) x in Ok x.

(** Cache maintenance at its destination: whether the crossbar answers, with which
    packet and to which port. *)
Definition maintenance (R : Routes) (cpu_side_port_id : Z) (respond_directly sink_packet : bool) (pkt : Packet) (x : HostTiming)
    : outcome (bool * Packet * Z * HostTiming) :=
  let cmo := outstandingCMO (host x) in
  match cmo !! pkt_id pkt with
  | Some deferred =>
      let! (rsp_pkt, rsp_port_id, x) :=
        (if isWrite (cmd pkt) then
           match deferred with
           | None => Err AssertFail
           | Some rsp_pkt =>
               match routeTo x !! req_key rsp_pkt with
               | None => Err AssertFail
               | Some id =>
                   do! assert_ (negb (id =? InvalidPortID)) then
                   do! assert_ ((0 <=? id) && (id <? Z.of_nat (length (respLayers x)))) then
                   let! x := forget R pkt rsp_pkt x in Ok (rsp_pkt, id, x)
               end
           end
         else Ok (pkt, cpu_side_port_id, x)) in
      Ok (true, rsp_pkt, rsp_port_id, set_host (set_outstandingCMO (delete (pkt_id pkt) cmo) (host x)) x)
  | None =>
      let deferred_rsp := if isWrite (cmd pkt) then None else Some pkt in
      let x := set_host (set_outstandingCMO (<[pkt_id pkt := deferred_rsp]> cmo) (host x)) x in
      let! x := (if isWrite (cmd pkt) then Ok x
                 else remember_clean R cpu_side_port_id sink_packet pkt x) in
      Ok (false, pkt, cpu_side_port_id, x)
  end.

(** Answering a request in the crossbar. *)
Definition respond_request (cur header_delay rsp_port_id : Z) (rsp_pkt : Packet) (success : bool) (x : HostTiming)
    : outcome (Packet * HostTiming) :=
  do! assert_ (needsResponse (cmd rsp_pkt)) then
  do! assert_ success then
  let! rsp_pkt := makeResponse rsp_pkt in
  let! x := (if bypassCaches (host x) then Ok x
             else on_filter (fun f => let! p := cpu_port rsp_port_id x in updateResponse rsp_pkt p f) x) in
  let! (t, x) := edge cur 0 x in
  let rsp_pkt := set_headerDelay 0 rsp_pkt in
  Ok (rsp_pkt, schedTimingResp rsp_port_id rsp_pkt (u64 (t + header_delay)) x).

(** What follows once the request is sent, sunk or to be answered here. *)
Definition finish_request (R : Routes) (cur cpu_side_port_id mem_side_port_id packetFinishTime old_header_delay : Z)
    (is_express_snoop snoop_caches is_destination sink_packet success respond_directly expect_response
     expect_snoop_resp : bool) (a : Z) (pkt : Packet) (x : HostTiming) : outcome (Packet * HostTiming) :=
  let! x := (if snoop_caches then
               on_filter (fun f => let! s := isSecure pkt in finishRequest (negb success) a s f) x else Ok x) in
  let! (pkt, x) :=
    (if negb success then
       refused_request cur cpu_side_port_id mem_side_port_id old_header_delay is_express_snoop pkt x
     else
       let! x := accepted_request R cur cpu_side_port_id mem_side_port_id packetFinishTime is_express_snoop sink_packet
                   expect_response expect_snoop_resp pkt x in Ok (pkt, x)) in
  let! (respond_directly, rsp_pkt, rsp_port_id, x) :=
    (if success && ((isClean (cmd pkt) && satisfied pkt) || bool_decide (cmd pkt = WriteClean)) && is_destination then
       maintenance R cpu_side_port_id respond_directly sink_packet pkt x
     else Ok (respond_directly, pkt, cpu_side_port_id, x)) in
  if respond_directly then
    let! (rsp_pkt, x) := respond_request cur (headerDelay pkt) rsp_port_id rsp_pkt success x in
    Ok (if isWrite (cmd pkt) then pkt else rsp_pkt, x)
  else Ok (pkt, x).

(** A request whose port is found: the test of its layer, its timing, the snoops unless
    [skip] leaves them out, the send and what follows. *)
Definition routed_request (R : Routes) (skip : Packet -> bool) (cur cpu_side_port_id mem_side_port_id : Z)
    (is_express_snoop cache_responding : bool) (pkt : Packet) (x : HostTiming) (w : W)
    : outcome (bool * Packet * HostTiming * W) :=
  let! (free, x) := (if is_express_snoop then Ok (true, x)
                     else on_reqLayer mem_side_port_id (tryTiming cpu_side_port_id) x) in
  if negb free then Ok (false, pkt, x, w)
  else
    let! _ := (if hasData (cmd pkt) then getSize pkt else Ok 0) in
    let old_header_delay := headerDelay pkt in
    let xbar_delay := u64 (u64 (frontendLatency (params x) + forwardLatency (params x)) * clockPeriod (clk x)) in
    let! (packetFinishTime, pkt, x) := packet_timing cur xbar_delay pkt x in
    let is_destination := isDestination pkt (host x) in
    let snoop_caches := negb (bypassCaches (host x)) && negb (bool_decide (cmd pkt = WriteClean)) in
    let! (go, pkt, x, w) :=
      (if negb (skip pkt) && snoop_caches
       then snoop_request cur cpu_side_port_id mem_side_port_id is_destination pkt x w
       else Ok (true, pkt, x, w)) in
    if negb go then Ok (false, pkt, x, w)
    else
      let expect_snoop_resp := negb cache_responding && cacheResponding pkt in
      let expect_response := needsResponse (cmd pkt) && negb (cacheResponding pkt) in
      let! sink_packet := sinkPacket pkt (host x) in
      let! a := getAddr pkt in
      let! (success, respond_directly, pkt, w) :=
        (if sink_packet then Ok (true, false, pkt, w)
         else forward_request mem_side_port_id is_destination expect_snoop_resp pkt x w) in
      let! (pkt, x) := finish_request R cur cpu_side_port_id mem_side_port_id packetFinishTime old_header_delay
        is_express_snoop snoop_caches is_destination sink_packet success respond_directly
        (expect_response && negb respond_directly) expect_snoop_resp a pkt x in
      Ok (success, pkt, x, w).

(** [bool recvTimingReq(PacketPtr pkt, PortID cpu_side_port_id)]: the device's answers to
    snoops are not snooped. *)
Definition recvTimingReq (cur : Z) (pkt : Packet) (cpu_side_port_id : Z) (x : HostTiming) (w : W)
    : outcome (bool * Packet * HostTiming * W) :=
  let is_express_snoop := isExpressSnoop pkt in
  let cache_responding := cacheResponding pkt in
  do! assert_ (eqb is_express_snoop cache_responding) then
  let! (mem_side_port_id, pkt, h) := findPort pkt (host x) in
  let x := set_host h x in
  let! _ := getAddr pkt in
  routed_request host_routes (fun pkt => bool_decide (cxl_packet_type (req pkt) = CXLcacheH2DResp))
    cur cpu_side_port_id mem_side_port_id is_express_snoop cache_responding pkt x w.

(** The route of a packet; a missing entry and an invalid port fail an assertion. *)
Definition find_route (pkt : Packet) (x : HostTiming) : outcome Z :=
  match routeTo x !! req_key pkt with
  | None => Err AssertFail
  | Some id => do! assert_ (negb (id =? InvalidPortID)) then Ok id
  end.

(** The index of a layer, compared as an unsigned number. *)
Definition in_layers (id : Z) (ls : list Layer) : outcome unit :=
  do! assert_ ((0 <=? id) && (id <? Z.of_nat (length ls))) then Ok tt.

(** Marking what the device fetches, unless the response is its answer to a snoop. *)
Definition mark_fetched (pkt : Packet) (x : HostTiming) : outcome HostTiming :=
  let kind := cxl_packet_type (req pkt) in
  if center_xbar (host x) && negb (bool_decide (kind = DefaultPacket)) then
    let! a := getAddr pkt in
    if (HOST_BASE <=? a) && negb (bool_decide (kind = CXLcacheH2DResp)) then
      let! h := setFakeSF pkt (host x) in Ok (set_host h x)
    else Ok x
  else Ok x.

(** Sending a response through the port it is for. *)
Definition deliver (cur cpu_side_port_id : Z) (pkt : Packet) (x : HostTiming) : Packet * HostTiming :=
  let latency := headerDelay pkt in
  let pkt := set_headerDelay 0 pkt in (pkt, schedTimingResp cpu_side_port_id pkt (u64 (cur + latency)) x).

(** [bool recvTimingResp(PacketPtr pkt, PortID mem_side_port_id)]. *)
Definition recvTimingResp (cur : Z) (pkt : Packet) (mem_side_port_id : Z) (x : HostTiming)
    : outcome (bool * Packet * HostTiming) :=
  let! _ := getAddr pkt in
  let! cpu_side_port_id := find_route pkt x in
  let! _ := in_layers cpu_side_port_id (respLayers x) in
  let! (free, x) := on_respLayer cpu_side_port_id (tryTiming mem_side_port_id) x in
  if negb free then Ok (false, pkt, x)
  else
    let! _ := (if hasData (cmd pkt) then getSize pkt else Ok 0) in
    let! (packetFinishTime, pkt, x) :=
      packet_timing cur (u64 (responseLatency (params x) * clockPeriod (clk x))) pkt x in
    let! x := (if bypassCaches (host x) then Ok x
               else on_filter (fun f => let! p := cpu_port cpu_side_port_id x in updateResponse pkt p f) x) in
    let! x := mark_fetched pkt x in
    let (pkt, x) := deliver cur cpu_side_port_id pkt x in
    let! _ := getAddr pkt in
    let! (_, x) := on_respLayer cpu_side_port_id (unit_op (succeededTiming cur packetFinishTime)) (erase_route pkt x) in
    Ok (true, pkt, x).

(** [void recvTimingSnoopReq(PacketPtr pkt, PortID mem_side_port_id)]; the assertion at
    the end calls [findPort], with its effects. *)
Definition recvTimingSnoopReq (cur : Z) (pkt : Packet) (mem_side_port_id : Z) (x : HostTiming) (w : W)
    : outcome (Packet * HostTiming * W) :=
  let! _ := getAddr pkt in
  let! _ := (if hasData (cmd pkt) then getSize pkt else Ok 0) in
  do! assert_ (isExpressSnoop pkt) then
  let! (pkt, c) := calcPacketTiming (us (params x)) cur (clk x) (u64 (forwardLatency (params x) * clockPeriod (clk x)))
                     (base (host x)) pkt in
  let x := set_clk c x in
  let cache_responding := cacheResponding pkt in
  do! assert_ (snoopDelay pkt =? 0) then
  let! (pkt, x, w) :=
    match snoopFilter (host x) with
    | Some f =>
        let! (f, (ports, lat)) := lookupSnoop pkt f in
        let x := set_host (set_snoopFilter (Some f) (host x)) x in
        let! (pkt, w) := forwardTiming InvalidPortID ports (charge_lookup lat x pkt) x w in Ok (pkt, x, w)
    | None => let! (pkt, w) := forwardTiming InvalidPortID (snoopPorts (host x)) pkt x w in Ok (pkt, x, w)
    end in
  let pkt := charge_snoops pkt in
  let! x := (if negb cache_responding && cacheResponding pkt then
               do! assert_ (bool_decide (routeTo x !! req_key pkt = None)) then
               let! _ := getAddr pkt in
               Ok (set_routeTo (<[req_key pkt := mem_side_port_id]> (routeTo x)) x)
             else Ok x) in
  let! (id, pkt, h) := findPort pkt (host x) in
  do! assert_ (id =? mem_side_port_id) then Ok (pkt, set_host h x, w).

(** [bool recvTimingSnoopResp(PacketPtr pkt, PortID cpu_side_port_id)]. *)
Definition recvTimingSnoopResp (cur : Z) (pkt : Packet) (cpu_side_port_id : Z) (x : HostTiming) (w : W)
    : outcome (bool * Packet * HostTiming * W) :=
  let! _ := getAddr pkt in
  let! dest_port_id := find_route pkt x in
  let forwardAsSnoop := negb (bool_decide (req_key pkt ∈ outstandingSnoop x)) in
  let! (free, x) :=
    (if forwardAsSnoop then
       let! _ := in_layers dest_port_id (snoopLayers x) in
       on_snoopLayer dest_port_id (tryTiming cpu_side_port_id) x
     else
       let! _ := in_layers dest_port_id (respLayers x) in
       on_respLayer dest_port_id (tryTiming (snoop_source x cpu_side_port_id)) x) in
  if negb free then Ok (false, pkt, x, w)
  else
    let! _ := (if hasData (cmd pkt) then getSize pkt else Ok 0) in
    do! assert_ (negb (isExpressSnoop pkt)) then
    let latency := if forwardAsSnoop then snoopResponseLatency (params x) else responseLatency (params x) in
    let! (packetFinishTime, pkt, x) := packet_timing cur (u64 (latency * clockPeriod (clk x))) pkt x in
    let! (pkt, x, w) :=
      (if forwardAsSnoop then
         let! x := on_filter (updateSnoopForward pkt) x in
         let! (success, w) := sendTimingSnoopResp dest_port_id pkt w in
         do! assert_ success then
         let! (_, x) := on_snoopLayer dest_port_id (unit_op (succeededTiming cur packetFinishTime)) x in
         Ok (pkt, x, w)
       else
         let x := set_outstandingSnoop (outstandingSnoop x ∖ {[ req_key pkt ]}) x in
         do! assert_ (negb (cpu_side_port_id =? dest_port_id)) then
         let! x := on_filter (fun f => let! rsp := cpu_port cpu_side_port_id x in
                                       let! p := cpu_port dest_port_id x in updateSnoopResponse pkt rsp p f) x in
         let (pkt, x) := deliver cur dest_port_id pkt x in
         let! (_, x) := on_respLayer dest_port_id (unit_op (succeededTiming cur packetFinishTime)) x in
         Ok (pkt, x, w)) in
    let! _ := getAddr pkt in
    Ok (true, pkt, erase_route pkt x, w).

(** What a source does when it is told to retry, which may call the crossbar again. *)
Variable sendRetryReq : Z -> HostTiming -> W -> outcome (HostTiming * W).

(** [retryWaiting()] of a request layer. *)
Definition retryWaiting_req (cur mem_side_port_id : Z) (x : HostTiming) (w : W) : outcome (HostTiming * W) :=
  let! l := nth_layer mem_side_port_id (reqLayers x) in
  match waitingForLayer l with
  | [] => Err AssertFail
  | retryingPort :: waiting =>
      do! assert_ (bool_decide (state l = IDLE)) then
      let x := set_reqLayers (<[Z.to_nat mem_side_port_id := set_waiting waiting (set_state RETRY l)]> (reqLayers x)) x in
      let! (x, w) := sendRetryReq retryingPort x w in
      let! l := nth_layer mem_side_port_id (reqLayers x) in
      if bool_decide (state l = RETRY) then
        let! (t, x) := edge cur 0 x in
        let! (_, x) := on_reqLayer mem_side_port_id (fun l => unit_op (occupyLayer cur t) (set_state BUSY l)) x in
        Ok (x, w)
      else Ok (x, w)
  end.

(** [void recvReqRetry(PortID mem_side_port_id)], with [recvRetry()] of the layer. *)
Definition recvReqRetry (cur mem_side_port_id : Z) (x : HostTiming) (w : W) : outcome (HostTiming * W) :=
  let! l := nth_layer mem_side_port_id (reqLayers x) in
  match waitingForPeer l with
  | None => Err AssertFail
  | Some src =>
      let l := set_peer None (set_waiting (src :: waitingForLayer l) l) in
      let x := set_reqLayers (<[Z.to_nat mem_side_port_id := l]> (reqLayers x)) x in
      if bool_decide (state l = IDLE) then retryWaiting_req cur mem_side_port_id x w
      else do! assert_ (bool_decide (state l = BUSY)) then Ok (x, w)
  end.
End timing.

(** * Clock, packets and layers *)

(** The clock of the crossbar at the tick [cur]: its cached edge is at most one period
    ahead, and nothing wraps. *)
Record clock_at (cur : Z) (c : Clocked) : Prop := {
  ca_cur : 0 < cur < 2 ^ 61;
  ca_period : 0 < clockPeriod c <= 2 ^ 60;
  ca_tick : 0 <= tick c < cur + clockPeriod c;
  ca_cycle : 0 <= cycle c;
  ca_room : cur <= tick c \/ cycle c + cur < 2 ^ 62;
}.

Lemma update_at cur c : clock_at cur c ->
  exists c', update cur c = Ok c' /\ clock_at cur c' /\ cur <= tick c' /\ clockPeriod c' = clockPeriod c.
Proof.
  intros [Hcur Hp Ht Hc Hr]. destruct (Z.leb_spec cur (tick c)) as [Hle | Hlt].
  { exists c. unfold update. rewrite (proj2 (Z.leb_le _ _) Hle). split_and!; auto. by split. }
  destruct (update_spec cur c) as (c' & n & Hu & Hn & Et & Ec & Ep & Hle & Hlast).
  { split; lia. }
  exists c'. split_and!; auto. split; rewrite ?Ep; auto; lia.
Qed.

Lemma clockEdge_at cur k c : clock_at cur c -> 0 <= k -> k * clockPeriod c <= 2 ^ 61 ->
  exists t c', clockEdge cur k c = Ok (t, c') /\ clock_at cur c' /\ clockPeriod c' = clockPeriod c /\
    cur + k * clockPeriod c <= t < cur + (k + 1) * clockPeriod c.
Proof.
  intros Hc Hk Hkp. destruct (update_at cur c Hc) as (c' & Hu & Hc' & Hle & Ep). unfold clockEdge. rewrite Hu. cbn [obind].
  destruct Hc' as [Hcur Hp Ht Hcy Hr]. rewrite Ep in *. assert (0 <= k * clockPeriod c) by nia.
  rewrite (Z.mul_comm (clockPeriod c) k), (wrap_small 64 (k * _)) by (unfold in_width; lia).
  rewrite wrap_small by (unfold in_width; lia). eexists _, c'. split; [reflexivity |].
  split; [split; rewrite ?Ep; auto |]. split; [done | lia].
Qed.

(** Everything of a packet but its delays. *)
Record same_packet (p p' : Packet) : Prop := {
  sp_id : pkt_id p' = pkt_id p;
  sp_cmd : cmd p' = cmd p;
  sp_flags : flags p' = flags p;
  sp_addr : addr p' = addr p;
  sp_secure : _isSecure p' = _isSecure p;
  sp_size : psize p' = psize p;
  sp_req : req p' = req p;
}.

Lemma same_packet_request p p' : same_packet p p' -> same_request p p'.
Proof. intros [? ? Hf ? ? ? Hr]. split; unfold flag_isSet; congruence. Qed.

Lemma same_packet_flag p p' m : same_packet p p' -> flag_isSet m p' = flag_isSet m p.
Proof. intros H. unfold flag_isSet. by rewrite (sp_flags _ _ H). Qed.

(** The crossbar can take a packet at [cur] with the delay [d] on its path. *)
Record timely (cur d : Z) (pkt : Packet) (x : HostTiming) : Prop := {
  tm_clock : clock_at cur (clk x);
  tm_header : 0 <= headerLatency (params x) /\ headerLatency (params x) * clockPeriod (clk x) <= 2 ^ 61;
  tm_width : 0 < width (base (host x));
  tm_us : us (params x) < 2 ^ 32;
  tm_delay : 0 <= headerDelay pkt /\ 0 <= d /\ headerDelay pkt + clockPeriod (clk x) + d <= us (params x);
  tm_payload : in_width 32 (payloadDelay pkt);
  tm_size : flag_isSet VALID_SIZE pkt = true;
}.

(** The delays of a packet that the crossbar can take, next to a clock that is brought
    up to date. *)
Lemma calcPacketTiming_ok us cur c d b pkt : clock_at cur c -> 0 < width b -> us < 2 ^ 32 ->
  0 <= headerDelay pkt -> 0 <= d -> headerDelay pkt + clockPeriod c + d <= us -> in_width 32 (payloadDelay pkt) ->
  flag_isSet VALID_SIZE pkt = true ->
  exists pkt' c', calcPacketTiming us cur c d b pkt = Ok (pkt', c') /\ update cur c = Ok c' /\ same_packet pkt pkt' /\
    snoopDelay pkt' = snoopDelay pkt /\ in_width 32 (payloadDelay pkt') /\ headerDelay pkt <= headerDelay pkt'.
Proof.
  intros Hc Hw Hus Hd0 Hd1 Hd Hp Hs. unfold calcPacketTiming.
  destruct (clockEdge_at cur 0 c Hc) as (e & c1 & He0 & Hc1 & Ep1 & He); [lia | destruct Hc; lia |].
  assert (Hu : update cur c = Ok c1) by (unfold clockEdge in He0; obind_inv; done).
  rewrite He0. cbn [obind]. destruct Hc as [Hcur Hpe _ _ _].
  rewrite (wrap_small 64 (e - cur)) by (unfold in_width; lia).
  rewrite (wrap_small 64 (e - cur + d)) by (unfold in_width; lia).
  rewrite (wrap_small 32 (headerDelay pkt + _)) by (unfold in_width; lia). cbn [headerDelay set_headerDelay].
  destruct (Z.ltb_spec us (headerDelay pkt + (e - cur + d))); [lia |]. cbn [panic_if obind].
  change (cmd (set_headerDelay ?v ?p)) with (cmd p).
  destruct (hasData (cmd pkt)); cbn [obind].
  - unfold getSize. change (flag_isSet VALID_SIZE (set_headerDelay ?v ?p)) with (flag_isSet VALID_SIZE p).
    rewrite Hs. cbn [assert_ obind]. destruct (Z.eqb_spec (width b) 0); [lia |]. cbn [obind].
    eexists _, c1. split_and!; [reflexivity | done | by split | done | apply wrap_range; lia | cbn; lia].
  - eexists _, c1. split_and!; [reflexivity | done | by split | done | done | cbn; lia].
Qed.

Lemma packet_timing_ok cur d pkt x : timely cur d pkt x ->
  exists t pkt' c', packet_timing cur d pkt x = Ok (t, pkt', set_clk c' x) /\ same_packet pkt pkt' /\
    snoopDelay pkt' = snoopDelay pkt /\ cur <= t /\ clock_at cur c' /\ clockPeriod c' = clockPeriod (clk x).
Proof.
  intros [Hc [Hh Hhp] Hw Hus (Hd0 & Hd1 & Hd) Hp Hs]. unfold packet_timing.
  destruct (calcPacketTiming_ok (us (params x)) cur (clk x) d (base (host x)) pkt) as (p1 & c1 & -> & Hu & Hsame & Hsd & Hp1 & _); auto.
  destruct (update_at cur (clk x) Hc) as (c1' & Hu' & Hc1 & _ & Ep1). rewrite Hu in Hu'. injection Hu' as <-.
  unfold edge. cbn [obind clk set_clk params]. rewrite <- Ep1 in Hhp.
  destruct (clockEdge_at cur (headerLatency (params x)) c1 Hc1 Hh Hhp) as (t & c2 & -> & Hc2 & Ep2 & Ht). cbn [obind].
  eexists _, p1, c2. split; [reflexivity |]. destruct Hc as [Hcur Hpe _ _ _]. unfold in_width in Hp1. rewrite Ep1 in *.
  rewrite wrap_small by (unfold in_width; nia). split_and!; auto; nia.
Qed.

(** A layer that a source may try at [cur]. *)
Definition layer_open (cur src : Z) (l : Layer) : Prop :=
  queues_ok l /\ (src ∉ waitingForLayer l) /\ waitingForPeer l <> Some src /\
  (busy_ok cur l \/ (state l <> BUSY /\ releaseEvent l = None)).

(** A layer that takes the packet of a source: the rest of the attempt. *)
Definition layer_taken (cur src : Z) (l : Layer) : Prop :=
  forall ok busy, cur <= busy -> 0 < busy ->
    exists l', run_attempt cur (mkAttempt src ok busy) l = Ok l' /\
      (if ok then succeededTiming cur busy (set_state BUSY l) else failedTiming cur src busy (set_state BUSY l)) = Ok l'.

Lemma tryTiming_ok cur src l : layer_open cur src l ->
  (exists l', tryTiming src l = Ok (false, l') /\ forall ok busy, run_attempt cur (mkAttempt src ok busy) l = Ok l') \/
  (tryTiming src l = Ok (true, set_state BUSY l) /\ layer_taken cur src l).
Proof.
  intros (Hq & Hin & Hpe & Hst). unfold layer_taken, run_attempt. cbn [a_src a_taken a_busy]. unfold tryTiming.
  rewrite (bool_decide_eq_false_2 _ Hin). cbn [negb assert_ obind].
  destruct (bool_decide (state l = BUSY)) eqn:Es; cbn [orb]; [left; by eexists |].
  apply bool_decide_eq_false in Es. destruct Hst as [[? _] | [_ He]]; [done |].
  destruct (waitingForPeer l) as [q |] eqn:Ep; [left; rewrite bool_decide_eq_true_2 by eauto; by eexists |].
  right. rewrite bool_decide_eq_false_2 by (by intros []). cbn [obind negb]. split; [done |].
  intros ok busy Hb Hpos. destruct ok.
  - destruct (occupy_ok cur busy (set_state BUSY l)) as (l' & E & _); auto. exists l'. unfold succeededTiming. cbn. by rewrite E.
  - destruct (occupy_ok cur busy (set_peer (Some src) (set_state BUSY l))) as (l' & E & _); auto.
    exists l'. unfold failedTiming. cbn. rewrite Ep. cbn. by cbn in E; rewrite E.
Qed.

(** * Requests *)

Lemma findPort_range_width r b id b' : findPort_range r b = Ok (id, b') -> width b' = width b.
Proof.
  unfold findPort_range. intros H. obind_inv. destruct a0 as [m i]. cbn in *.
  destruct m; [by obind_inv |]. destruct (useDefaultRange _); [| destruct (negb _)]; obind_inv; try done.
  destruct a0; by obind_inv.
Qed.

Lemma base_findPort_width pkt h id h' : base_findPort pkt h = Ok (id, h') -> width (base h') = width (base h).
Proof.
  unfold base_findPort, XBar.findPort. intros H. obind_inv. destruct a as [i b]. obind_inv. by eapply findPort_range_width.
Qed.

Lemma findPort_width pkt h id pkt' h' : findPort pkt h = Ok (id, pkt', h') -> width (base h') = width (base h).
Proof.
  assert (Hb : forall q, (let! (id, x) := base_findPort q h in Ok (id, q, x)) = Ok (id, pkt', h') -> width (base h') = width (base h)).
  { intros q H. obind_inv. destruct a as [i y]. obind_inv. by eapply base_findPort_width. }
  unfold findPort. intros H. obind_inv. destruct a; [| by eapply Hb]. obind_inv. destruct a; [| by eapply Hb].
  obind_inv. destruct a0 as [i y]. obind_inv. unfold base_findPort_range in Hm2. obind_inv. destruct a0 as [i b].
  obind_inv. cbn [base set_base]. rewrite (findPort_range_width _ _ _ _ Hm3).
  case_bool_decide; [by obind_inv |]. case_bool_decide; [| done]. unfold eraseFakeSF in Hm1. by obind_inv.
Qed.

(** What is relied on of the caches above and of what is below.  A snooped cache may
    commit to answering if it has the line and no cache has committed; an
    invalidating snoop takes the line from every other cache.  It may write to the
    request object, where the caches note the states of the block, but keeps its kind.
    Below, a request that is taken may come back as its response already, an express
    snoop is never refused, and the request object may be made a CXL message of
    another kind, as the bridge does, but no coherence check and no answer to a
    snoop. *)
Class TimingPeers {W} (ls : Z) (present : W -> Z -> ResponsePort -> Prop)
    (snoop : ResponsePort -> Packet -> W -> outcome (Packet * W))
    (send : Z -> Packet -> W -> outcome (bool * Packet * W)) : Prop := {
  tp_snoop : forall p pkt w, exists pkt' w', snoop p pkt w = Ok (pkt', w') /\
    same_request pkt pkt' /\ same_kind (req pkt) (req pkt') /\ cmd pkt' = cmd pkt /\
    (forall l q, present w' l q -> present w l q) /\
    ((cacheResponding pkt' = cacheResponding pkt /\
      (isInvalidate (cmd pkt) = true -> ~ present w' (line_of ls pkt) p)) \/
     (cacheResponding pkt = false /\ cacheResponding pkt' = true /\ present w' (line_of ls pkt) p));
  tp_send : forall id pkt w, exists ok pkt' w', send id pkt w = Ok (ok, pkt', w') /\
    same_request pkt pkt' /\ same_object (req pkt) (req pkt') /\ (forall l q, present w' l q -> present w l q) /\
    cacheResponding pkt' = cacheResponding pkt /\
    (isExpressSnoop pkt = true -> ok = true) /\
    (cmd pkt' = cmd pkt \/ (ok = true /\ cmd pkt' = responseCommand (cmd pkt)));
}.

Section requests.
Context {W : Type} (ls : Z) (present : W -> Z -> ResponsePort -> Prop).
Context (snoop : ResponsePort -> Packet -> W -> outcome (Packet * W)).
Context (send : Z -> Packet -> W -> outcome (bool * Packet * W)).
Context (tryBelow : Z -> Packet -> W -> outcome (bool * W)).
Context `{!TimingPeers ls present snoop send}.

(** The line after the snoops of a request of [p]: with an invalidating request nobody
    but [p] and the cache that owes the data has it. *)
Definition owned (orig : Packet) (p : ResponsePort) (owner : option ResponsePort) (left : list ResponsePort) (w : W) : Prop :=
  isInvalidate (cmd orig) = true ->
  forall q, present w (line_of ls orig) q -> q = p \/ owner = Some q \/ q ∈ left.

Lemma snoop_loop_ok orig p : 0 <= getId p -> forall dests pkt w owner,
  (forall q, q ∈ dests -> getId q = getId p -> q = p) ->
  same_request orig pkt -> same_kind (req orig) (req pkt) -> cmd pkt = cmd orig ->
  owned orig p owner dests w -> (owner <> None -> cacheResponding pkt = true) ->
  exists pkt' w' owner', snoop_loop snoop (getId p) dests pkt w = Ok (pkt', w') /\
    same_request orig pkt' /\ same_kind (req orig) (req pkt') /\ cmd pkt' = cmd orig /\
    (forall l q, present w' l q -> present w l q) /\
    owned orig p owner' [] w' /\ (owner' <> None -> cacheResponding pkt' = true).
Proof.
  intros Hid. induction dests as [| q dests IH]; intros pkt w owner Hinj Hs Hr Hc Hown Ho; cbn [snoop_loop].
  { exists pkt, w, owner. by split_and!. }
  assert (Hinj' : forall q, q ∈ dests -> getId q = getId p -> q = p) by (intros; apply Hinj; [by right | done]).
  assert (Eid : (getId p =? InvalidPortID) = false) by (unfold InvalidPortID; lia). rewrite Eid. cbn [orb].
  destruct (Z.eqb_spec (getId q) (getId p)) as [E | Hne]; cbn [negb].
  { apply IH with owner; auto. intros Hi r Hpr. destruct (Hown Hi r Hpr) as [? | [? | Hin]]; auto.
    apply elem_of_cons in Hin as [-> |]; auto. left. apply Hinj; [left | done]. }
  destruct (tp_snoop q pkt w) as (pkt' & w' & -> & Hs' & Hr' & Hc' & Hless & Hans). cbn [obind].
  rewrite Hc, (same_line _ _ _ Hs) in Hans.
  assert (Hs2 : same_request orig pkt') by (by eapply same_trans).
  assert (Hstep : exists owner', owned orig p owner' dests w' /\ (owner' <> None -> cacheResponding pkt' = true)).
  { destruct Hans as [[Hcr Hlost] | (Hcr & Hcr' & _)].
    - exists owner. split; [| by rewrite Hcr]. intros Hi r Hpr.
      destruct (Hown Hi r (Hless _ _ Hpr)) as [? | [? | Hin]]; auto.
      apply elem_of_cons in Hin as [-> |]; auto. by destruct (Hlost Hi).
    - exists (Some q). split; [| done]. intros Hi r Hpr.
      destruct (Hown Hi r (Hless _ _ Hpr)) as [? | [-> | Hin]]; auto.
      + assert (cacheResponding pkt = true) by (by apply Ho). congruence.
      + apply elem_of_cons in Hin as [-> |]; auto. }
  destruct Hstep as (owner' & Hown' & Ho').
  destruct (IH pkt' w' owner') as (pkt2 & w2 & own2 & H1 & H2 & H3 & H4 & H5 & H6 & H7); eauto using same_kind_trans; try congruence.
  exists pkt2, w2, own2. split_and!; auto.
Qed.

(** The request may be tried: the layer of the port it goes to exists and is open, and
    its request object is not in use. *)
Record timing_ready (cur : Z) (orig : Packet) (p : ResponsePort) (x : HostTiming) : Prop := {
  tr_express : isExpressSnoop orig = false;
  tr_kind : cxl_packet_type (req orig) <> CXLcacheH2DResp /\ cxl_packet_type (req orig) <> HostBiasCheck;
  tr_snoop : snoopDelay orig = 0;
  tr_time : timely cur (u64 (u64 (frontendLatency (params x) + forwardLatency (params x)) * clockPeriod (clk x))) orig x;
  tr_layer : forall id pkt' h', findPort orig (host x) = Ok (id, pkt', h') ->
    0 <= id /\ exists l, reqLayers x !! Z.to_nat id = Some l /\ layer_open cur (getId p) l;
  tr_route : routeTo x !! req_key orig = None /\ (req_key orig ∉ outstandingSnoop x);
  tr_room : Z.of_nat (stdpp.base.size (routeTo x)) < maxRoutingTableSizeCheck (params x) /\
    Z.of_nat (stdpp.base.size (outstandingSnoop x)) < maxOutstandingSnoopCheck (params x);
}.

(** What of this does not concern the routing table. *)
Record passable (cur : Z) (orig : Packet) (x : HostTiming) : Prop := {
  pa_express : isExpressSnoop orig = false;
  pa_snoop : snoopDelay orig = 0;
  pa_time : timely cur (u64 (u64 (frontendLatency (params x) + forwardLatency (params x)) * clockPeriod (clk x))) orig x;
  pa_key : req_key orig ∉ outstandingSnoop x;
  pa_room : Z.of_nat (stdpp.base.size (outstandingSnoop x)) < maxOutstandingSnoopCheck (params x);
}.

Lemma ready_passable cur orig p x : timing_ready cur orig p x -> passable cur orig x.
Proof. by intros [? _ ? ? _ [_ ?] [_ ?]]. Qed.

(** A request of [p] of one of the kinds [kinds] that is taken in [x] leaves the routes [r]. *)
Definition remembers (R : Routes) (kinds : CXLPacketType -> Prop) (orig : Packet) (p : ResponsePort) (x : HostTiming)
    (r : gmap Z Z) : Prop :=
  forall y pkt sink, same_request orig pkt -> req_key pkt = req_key orig -> kinds (cxl_packet_type (req pkt)) ->
    routeTo y = routeTo x -> params y = params x -> remember R (getId p) sink pkt y = Ok (set_routeTo r y).

(** The kinds the host crossbar remembers. *)
Definition ordinary (k : CXLPacketType) : Prop := k <> CXLcacheH2DResp /\ k <> HostBiasCheck.

Lemma ordinary_alike k k' : alike k k' -> ordinary k -> ordinary k'.
Proof. intros [H1 H2] [H3 H4]. split; intros E; [apply H3, H2, E | apply H4, H1, E]. Qed.

Lemma host_remembers orig p x : flag_isSet VALID_ADDR orig = true -> routeTo x !! req_key orig = None ->
  Z.of_nat (stdpp.base.size (routeTo x)) < maxRoutingTableSizeCheck (params x) ->
  remembers host_routes ordinary orig p x (<[req_key orig := getId p]> (routeTo x)).
Proof.
  intros Hv Hr Hmr y pkt sink Hs Hk [Hk1 Hk2] Ez Ep. cbn [remember host_routes]. unfold insert_route.
  rewrite (bool_decide_eq_false_2 _ Hk1), (bool_decide_eq_false_2 _ Hk2). cbn [negb andb].
  unfold getAddr. rewrite Hk, Ez, Hr, (sr_valid _ _ Hs), Hv. cbn [bool_decide decide assert_ obind].
  rewrite bool_decide_eq_true_2 by done. cbn [assert_ obind]. unfold check_routes. cbn [routeTo set_routeTo params].
  rewrite (map_size_insert_None _ _ _ Hr), Ep.
  by destruct (Z.ltb_spec (maxRoutingTableSizeCheck (params x)) (Z.of_nat (S (stdpp.base.size (routeTo x))))); [lia |].
Qed.

Section request.
Variables (cur : Z) (orig : Packet) (p : ResponsePort) (f : SnoopFilter) (pend : Z -> ResponsePort -> Prop).
Variables (R : Routes) (kinds : CXLPacketType -> Prop) (r : gmap Z Z).
Hypothesis Hkinds : forall k k', alike k k' -> kinds k -> kinds k'.
#[local] Abbreviation line := (line_of ls orig).
#[local] Abbreviation flying := (in_flight ls orig p pend).

(** The crossbar after [findPort], the test of the layer and the timing; and the filter
    looked up, with what finishing the request does to it. *)
Record looked_up (f1 : SnoopFilter) (w' : W) : Prop := {
  lu_taken : exists f', finishRequest false (addr orig) (_isSecure orig) f1 = Ok f' /\ linesize f' = ls /\ tracked f' p /\
    forall w'', (forall l q, present w'' l q -> present w' l q) -> sys_inv (mkSystem f' flying (present w''));
  lu_refused : exists f', finishRequest true (addr orig) (_isSecure orig) f1 = Ok f' /\
    cachedLocations f' = cachedLocations f /\
    forall w'', (forall l q, present w'' l q -> present w' l q) -> sys_inv (mkSystem f' pend (present w''));
}.

(** Looking up and snooping. *)
Lemma lookup_ok h pkt w : cache_request ls orig p h f pend -> sys_inv (mkSystem f pend (present w)) ->
  same_request orig pkt -> cmd pkt = cmd orig -> cacheResponding pkt = false ->
  exists f1 ps lat, lookupRequest pkt p f = Ok (f1, (ps, lat)) /\
    (forall w', (forall l q, present w' l q -> present w l q) -> looked_up f1 w') /\
    (forall q, q ∈ ps -> tracked f q) /\ (forall q, present w line q -> q = p \/ q ∈ ps).
Proof.
  intros Hreq Hinv Hs Hc Hcr. destruct Hreq as [Hplain Hv _ Hu _ _ _ _ _ Hl Ht Hnp _ _].
  assert (Hla : line_addr f pkt = Ok line).
  { rewrite line_addr_of by (by rewrite (sr_valid _ _ Hs)). by rewrite Hl, (same_line _ _ _ Hs). }
  destruct (tracked_bit f p (sw_ports _ (si_wf _ Hinv)) Ht) as (Hsn & _).
  assert (Hconf : forall retry, conforms (mkSystem f pend (present w)) (Request pkt p retry) line).
  { intros retry. cbn. rewrite Hcr, Hc. unfold allocates, isUncacheable, req_isSet in *. rewrite (sr_flags _ _ Hs), Hu, Hsn, Hc.
    rewrite (pr_cache _ Hplain). split_and!; try done. apply Hplain. }
  destruct (run_conforming _ (Request pkt p false) line Hinv Hla (Hconf false) eq_refl) as (f' & ps & Hrun & (E1 & _ & E3 & _) & Htg & _).
  destruct (run_conforming _ (Request pkt p true) line Hinv Hla (Hconf true) eq_refl) as (f'' & ps2 & Hrun' & _ & _ & Hput).
  pose proof Hrun as Hr1. pose proof Hrun' as Hr2. cbn [run run_request flt] in Hr1, Hr2. unfold run_request in Hr1, Hr2.
  destruct (lookupRequest pkt p f) as [[f1 [ports lat]] | e]; [| done]. cbn [obind] in Hr1, Hr2.
  rewrite (sr_addr _ _ Hs), (sr_secure _ _ Hs) in Hr1, Hr2.
  destruct (finishRequest false _ _ f1) as [g |] eqn:Ef; [| done]. destruct (finishRequest true _ _ f1) as [g' |] eqn:Ef'; [| done].
  cbn [obind] in Hr1, Hr2. simplify_eq. exists f1, ps, lat. split; [done |]. split_and!.
  - intros w' Hless. split.
    + exists f'. split; [done |]. split; [cbn in E3; congruence |]. split; [unfold tracked; by rewrite E1 |].
      intros w'' Hless'. eapply inv_fewer; [| exact (fun l q H => Hless l q (Hless' l q H))].
      eapply inv_pending; [apply (event_inv _ (Request pkt p false) line f' ps (present w) Hinv Hla (Hconf false) Hrun) |].
      * split; [by left | done].
      * intros l q. cbn. rewrite Hcr. unfold in_flight. tauto.
    + exists f''. split; [done |]. cbn [event_item flt] in Hput. rewrite put_same in Hput by apply Hinv. split; [done |].
      intros w'' Hless'. eapply inv_fewer; [| exact (fun l q H => Hless l q (Hless' l q H))].
      eapply inv_pending; [apply (event_inv _ (Request pkt p true) line f'' ps (present w) Hinv Hla (Hconf true) Hrun') |].
      * split; [by left | done].
      * done.
  - intros q [_ [Hq _]]%Htg. done.
  - intros q Hq. destruct (decide (q = p)); [by left | right]. apply Htg. split; [done |].
    destruct (si_present _ Hinv _ _ Hq) as [? ?]. split; [done | by left].
Qed.

(** What the request has become once the caches are snooped. *)
Record snooped (pkt pkt' : Packet) (f1 : SnoopFilter) (w w' : W) (owner : option ResponsePort) : Prop := {
  sn_same : same_request orig pkt';
  sn_req : same_kind (req pkt) (req pkt');
  sn_cmd : cmd pkt' = cmd orig;
  sn_less : forall l q, present w' l q -> present w l q;
  sn_filter : looked_up f1 w';
  sn_owned : owned orig p owner [] w';
  sn_owner : owner <> None -> cacheResponding pkt' = true;
}.

Lemma snoop_request_ok x h pkt mem dst w : cache_request ls orig p h f pend -> keeps h (host x) ->
  sys_inv (mkSystem f pend (present w)) -> same_request orig pkt -> cmd pkt = cmd orig ->
  cacheResponding pkt = false -> snoopDelay pkt = 0 ->
  exists pkt' f1 w' owner, snoop_request snoop tryBelow cur (getId p) mem dst pkt x w
      = Ok (true, pkt', set_host (set_snoopFilter (Some f1) (host x)) x, w') /\ snooped pkt pkt' f1 w w' owner.
Proof.
  intros Hreq [Kf Kp Kb _] Hinv Hs Hc Hcr Hsd. pose proof Hreq as [Hplain _ _ _ _ _ Hid Hport Hf _ Ht _ Hby _].
  destruct (plain_request_facts _ Hplain) as (_ & _ & Hev & _).
  destruct (lookup_ok h pkt w Hreq Hinv Hs Hc Hcr) as (f1 & ps & lat & Hlk & Hlu & Hps & Hpres).
  unfold snoop_request. rewrite Hsd, Hc, (pr_clean _ Hplain). cbn [Z.eqb assert_ obind andb negb].
  rewrite Kf, Hf. unfold cpu_port. rewrite Kp, Hport. destruct (Z.ltb_spec (getId p) 0); [lia |]. cbn [obind].
  rewrite Hlk. cbn [obind]. change (cmd (charge_lookup ?a ?b ?c)) with (cmd c). rewrite Hc, Hev.
  unfold forwardTiming. cbn [host set_host bypassCaches set_snoopFilter]. rewrite Kb, Hby. cbn [negb assert_ obind].
  set (pkt1 := charge_lookup lat _ pkt). assert (Hs1 : same_request orig pkt1) by (by destruct Hs).
  destruct (snoop_loop_ok pkt1 p Hid ps pkt1 w None) as (pkt2 & w2 & own & -> & H2 & H3 & H4 & H5 & H6 & H7).
  - intros q Hq E. apply (tracked_id_inj f); auto. apply Hinv.
  - apply same_refl.
  - done.
  - done.
  - intros _ q Hq. rewrite (same_line _ _ _ Hs1) in Hq. destruct (Hpres q Hq); auto.
  - done.
  - cbn [obind]. eexists _, f1, w2, own. split; [reflexivity |]. split; auto.
    + eapply same_trans; [exact Hs1 |]. by destruct H2.
    + by rewrite <- Hc.
    + intros Hi q Hq. rewrite <- (same_line _ _ _ Hs1) in Hq. apply H6; [| done]. change (cmd pkt1) with (cmd pkt). by rewrite Hc.
Qed.

(** Operations on a layer that is there. *)
Lemma on_reqLayer_ok id g l l' x : 0 <= id -> reqLayers x !! Z.to_nat id = Some l -> g l = Ok l' ->
  on_reqLayer id (unit_op g) x = Ok (tt, set_reqLayers (<[Z.to_nat id := l']> (reqLayers x)) x).
Proof.
  intros Hid Hl Hg. unfold on_reqLayer, on_layer, nth_layer, unit_op. destruct (Z.ltb_spec id 0); [lia |].
  rewrite Hl. cbn [obind]. by rewrite Hg.
Qed.

Lemma edge_ok k x : clock_at cur (clk x) -> 0 <= k -> k * clockPeriod (clk x) <= 2 ^ 61 ->
  exists t c', edge cur k x = Ok (t, set_clk c' x) /\ cur <= t.
Proof.
  intros Hc Hk Hkp. destruct (clockEdge_at cur k (clk x) Hc Hk Hkp) as (t & c' & E & Hc' & _ & Ht).
  unfold edge. rewrite E. cbn [obind]. exists t, c'. split; [done |]. destruct Hc. nia.
Qed.

(** How the request ends. *)
Inductive request_result (x : HostTiming) (ok : bool) (pkt : Packet) (x' : HostTiming) (w' : W) (f' : SnoopFilter) : Prop :=
  | rr_refused : ok = false -> cachedLocations f' = cachedLocations f -> routeTo x' = routeTo x ->
      outstandingSnoop x' = outstandingSnoop x -> queued x' = queued x -> headerDelay pkt = headerDelay orig ->
      sys_inv (mkSystem f' pend (present w')) -> request_result x ok pkt x' w' f'
  | rr_taken owner : ok = true -> routeTo x' = r ->
      outstandingSnoop x' = (if cacheResponding pkt then {[ req_key orig ]} ∪ outstandingSnoop x else outstandingSnoop x) ->
      queued x' = queued x -> sys_inv (mkSystem f' flying (present w')) ->
      owned orig p owner [] w' -> (owner <> None -> cacheResponding pkt = true) -> request_result x ok pkt x' w' f'
  | rr_answered when : ok = true -> routeTo x' = routeTo x -> outstandingSnoop x' = outstandingSnoop x ->
      queued x' = queued x ++ [mkScheduled (getId p) pkt when] -> cmd pkt = responseCommand (cmd orig) ->
      sys_inv (mkSystem f' pend (with_copy present w' line p)) -> owned orig p None [] w' ->
      request_result x ok pkt x' w' f'.

(** The crossbar [y] once the request is snooped, on its way through layer [mem]. *)
Record midway (x y : HostTiming) (mem : Z) (l : Layer) (f1 : SnoopFilter) : Prop := {
  mw_clock : clock_at cur (clk y);
  mw_mem : 0 <= mem;
  mw_layer : reqLayers x !! Z.to_nat mem = Some l;
  mw_layers : reqLayers y = <[Z.to_nat mem := set_state BUSY l]> (reqLayers x);
  mw_filter : snoopFilter (host y) = Some f1;
  mw_keeps : bypassCaches (host y) = bypassCaches (host x) /\ hx_cpuSidePorts (host y) = hx_cpuSidePorts (host x);
  mw_routes : routeTo y = routeTo x;
  mw_snoops : outstandingSnoop y = outstandingSnoop x;
  mw_queued : queued y = queued x;
  mw_params : params y = params x;
  mw_taken : layer_taken cur (getId p) l;
}.

(** The layer after the request. *)
Definition layer_after (x x' : HostTiming) (mem : Z) (l : Layer) (ok : bool) : Prop :=
  exists busy l', run_attempt cur (mkAttempt (getId p) ok busy) l = Ok l' /\
    reqLayers x !! Z.to_nat mem = Some l /\ reqLayers x' = <[Z.to_nat mem := l']> (reqLayers x).

Lemma midway_lookup x y mem l f1 : midway x y mem l f1 -> reqLayers y !! Z.to_nat mem = Some (set_state BUSY l).
Proof.
  intros H. rewrite (mw_layers _ _ _ _ _ H). apply list_lookup_insert_eq.
  eapply lookup_lt_Some. apply (mw_layer _ _ _ _ _ H).
Qed.

Lemma finish_filter y pkt f1 f' retry : snoopFilter (host y) = Some f1 -> same_request orig pkt ->
  flag_isSet VALID_ADDR orig = true -> finishRequest retry (addr orig) (_isSecure orig) f1 = Ok f' ->
  on_filter (fun f => let! s := isSecure pkt in finishRequest retry (addr orig) s f) y
    = Ok (set_host (set_snoopFilter (Some f') (host y)) y).
Proof.
  intros Hf Hs Hv E. unfold on_filter, isSecure. rewrite Hf, (sr_valid _ _ Hs), Hv. cbn [assert_ obind].
  by rewrite (sr_secure _ _ Hs), E.
Qed.

(** The layer step at the end. *)
Lemma midway_layer x y y' mem l f1 (ok : bool) busy : midway x y mem l f1 -> reqLayers y' = reqLayers y -> cur <= busy ->
  exists l', on_reqLayer mem (unit_op (if ok then succeededTiming cur busy else failedTiming cur (getId p) busy)) y'
      = Ok (tt, set_reqLayers (<[Z.to_nat mem := l']> (reqLayers y')) y') /\
    layer_after x (set_reqLayers (<[Z.to_nat mem := l']> (reqLayers y')) y') mem l ok.
Proof.
  intros Hm E He. destruct (mw_taken _ _ _ _ _ Hm ok busy He) as (l' & Hrun & Hl'); [destruct (mw_clock _ _ _ _ _ Hm); lia |].
  exists l'. split.
  - eapply on_reqLayer_ok; [apply Hm | rewrite E; exact (midway_lookup _ _ _ _ _ Hm) | by destruct ok].
  - exists busy, l'. split_and!; [done | apply Hm |]. cbn. rewrite E, (mw_layers _ _ _ _ _ Hm). apply list_insert_insert_eq.
Qed.

Lemma finish_refused x y mem l f1 t dst sink er es pkt w w' : midway x y mem l f1 -> looked_up f1 w ->
  (forall l q, present w' l q -> present w l q) -> same_request orig pkt -> flag_isSet VALID_ADDR orig = true ->
  exists pkt' x' f', finish_request R cur (getId p) mem t (headerDelay orig) false true dst sink false false er es (addr orig) pkt y
      = Ok (pkt', x') /\ snoopFilter (host x') = Some f' /\ layer_after x x' mem l false /\ request_result x false pkt' x' w' f'.
Proof.
  intros Hm [_ (f' & Hfin & Hcl & Hinv)] Hless Hs Hv. unfold finish_request. cbn [negb andb].
  rewrite (finish_filter y pkt f1 f' true); [| exact (mw_filter _ _ _ _ _ Hm) | done | done | done]. cbn [obind]. unfold refused_request. cbn [negb assert_ obind].
  set (y1 := set_host _ y). destruct (edge_ok 1 y1) as (e & c' & -> & He); [apply Hm | lia | destruct (mw_clock _ _ _ _ _ Hm); cbn; lia |].
  cbn [obind]. destruct (midway_layer x y (set_clk c' y1) mem l f1 false e Hm eq_refl He) as (l' & -> & Hla). cbn [obind].
  eexists _, _, f'. split; [reflexivity |]. split; [done |]. split; [done |]. apply rr_refused; auto; cbn; apply Hm.
Qed.

(** The request is remembered. *)
Lemma remember_ok x pkt y (es sink : bool) : remembers R kinds orig p x r -> same_request orig pkt ->
  req_key pkt = req_key orig -> kinds (cxl_packet_type (req pkt)) -> passable cur orig x ->
  routeTo y = routeTo x -> outstandingSnoop y = outstandingSnoop x -> params y = params x ->
  (let! x := (if es then insert_snoop pkt y else Ok y) in remember R (getId p) sink pkt x)
  = Ok (set_routeTo r (if es then set_outstandingSnoop ({[ req_key orig ]} ∪ outstandingSnoop x) y else y)).
Proof.
  intros Hrem Hs Hk Hkind [_ _ _ Hsn Hms] Er Es Ep. destruct es; cbn [obind]; [| by apply Hrem].
  unfold insert_snoop. rewrite Hk, Es, (bool_decide_eq_false_2 _ Hsn). cbn [negb assert_ obind].
  cbn [params set_outstandingSnoop outstandingSnoop]. rewrite size_union, size_singleton, Ep by set_solver.
  destruct (Z.ltb_spec (maxOutstandingSnoopCheck (params x)) (Z.of_nat (1 + stdpp.base.size (outstandingSnoop x)))); [lia |].
  cbn [panic_if obind]. by apply Hrem.
Qed.

(** A packet that is an ordinary request or its response is no cache maintenance. *)
Lemma no_maintenance pkt (dst : bool) : plain_request (cmd orig) ->
  cmd pkt = cmd orig \/ cmd pkt = responseCommand (cmd orig) ->
  true && ((isClean (cmd pkt) && satisfied pkt) || bool_decide (cmd pkt = WriteClean)) && dst = false.
Proof.
  intros Hplain Hc. destruct (plain_request_facts _ Hplain) as (_ & _ & _ & Hwc & _ & _ & _ & _ & Hcl & _ & _ & Hwc').
  destruct Hc as [-> | ->]; rewrite ?(pr_clean _ Hplain), ?Hcl; rewrite bool_decide_eq_false_2 by done; done.
Qed.

Lemma finish_taken x y mem l f1 t dst sink er pkt w w' owner : midway x y mem l f1 -> looked_up f1 w ->
  plain_request (cmd orig) -> passable cur orig x -> remembers R kinds orig p x r -> flag_isSet VALID_ADDR orig = true ->
  (forall l q, present w' l q -> present w l q) -> same_request orig pkt -> req_key pkt = req_key orig ->
  kinds (cxl_packet_type (req pkt)) ->
  cmd pkt = cmd orig \/ cmd pkt = responseCommand (cmd orig) ->
  cur <= t -> er || cacheResponding pkt = true -> owned orig p owner [] w' -> (owner <> None -> cacheResponding pkt = true) ->
  exists pkt' x' f', finish_request R cur (getId p) mem t (headerDelay orig) false true dst sink true false er (cacheResponding pkt)
      (addr orig) pkt y = Ok (pkt', x') /\ snoopFilter (host x') = Some f' /\ layer_after x x' mem l true /\
    request_result x true pkt' x' w' f'.
Proof.
  intros Hm [(f' & Hfin & Hl & Ht & Hinv) _] Hplain Hready Hrem Hv Hless Hs Hk Hkind Hc Htime Her Hown Ho.
  unfold finish_request. cbn [negb]. rewrite (finish_filter y pkt f1 f' false); [| exact (mw_filter _ _ _ _ _ Hm) | done | done | done].
  cbn [obind]. set (y1 := set_host _ y).
  assert (Hacc : forall es : bool, er || es = true ->
    accepted_request R cur (getId p) mem t false sink er es pkt y1 =
    let! x := (let! x := (if es then insert_snoop pkt y1 else Ok y1) in remember R (getId p) sink pkt x) in
    let! (_, x) := on_reqLayer mem (unit_op (succeededTiming cur t)) x in Ok x).
  { intros es E. unfold accepted_request. rewrite E. by rewrite obind_assoc. }
  rewrite (Hacc _ Her), (remember_ok x); auto; try apply Hm.
  cbn [obind]. set (y2 := set_routeTo _ _).
  assert (E2 : reqLayers y2 = reqLayers y) by (unfold y2; by destruct (cacheResponding pkt)).
  destruct (midway_layer x y y2 mem l f1 true t Hm E2 Htime) as (l' & -> & Hla). cbn [obind].
  rewrite (no_maintenance pkt dst Hplain Hc). cbn [obind]. eexists _, _, f'. split; [reflexivity |].
  split; [unfold y2; by destruct (cacheResponding pkt) |]. split; [done |].
  apply rr_taken with owner; auto.
  - unfold y2, y1. cbn. destruct (cacheResponding pkt); cbn; by rewrite ?(mw_snoops _ _ _ _ _ Hm).
  - unfold y2, y1. cbn. destruct (cacheResponding pkt); cbn; by rewrite (mw_queued _ _ _ _ _ Hm).
Qed.

(** The filter learns of a response. *)
Lemma response_ok h f' pkt w : cache_request ls orig p h f pend -> same_request orig pkt -> isResponse (cmd pkt) = true ->
  linesize f' = ls -> tracked f' p -> sys_inv (mkSystem f' flying (present w)) ->
  exists f'', updateResponse pkt p f' = Ok f'' /\ sys_inv (mkSystem f'' pend (with_copy present w line p)).
Proof.
  intros Hreq Hs Hr Hl Ht Hinv. pose proof Hreq as [_ _ _ _ _ _ Hid Hport _ _ _ _ Hby _].
  destruct (filter_response_ok ls present orig p h f pend Hreq pkt (set_snoopFilter (Some f') h) f' w Hs Hr) as (f'' & E & Hi);
    [by split | done | done | done |].
  unfold filter_response in E. cbn [bypassCaches snoopFilter hx_cpuSidePorts set_snoopFilter] in E.
  rewrite Hby, Hr in E. cbn [negb andb] in E. destruct (Z.ltb_spec (getId p) 0); [lia |]. rewrite Hport in E.
  destruct (updateResponse pkt p f') as [g | e]; [| done]. cbn [obind] in E. exists g. split; [done |].
  unfold with_filter, set_snoopFilter in E. injection E as E. by subst.
Qed.

Lemma finish_answered x y mem l f1 t dst sink pkt w : cache_request ls orig p (host x) f pend -> midway x y mem l f1 -> looked_up f1 w ->
  same_request orig pkt -> cmd pkt = cmd orig -> isWrite (cmd orig) = false -> cur <= t -> owned orig p None [] w ->
  exists pkt' x' f', finish_request R cur (getId p) mem t (headerDelay orig) false true dst sink true true false false
      (addr orig) pkt y = Ok (pkt', x') /\ snoopFilter (host x') = Some f' /\ layer_after x x' mem l true /\
    request_result x true pkt' x' w f'.
Proof.
  intros Hreq Hm [(f' & Hfin & Hl & Ht & Hinv) _] Hs Hc Hnw Htime Hown. pose proof Hreq as [Hplain Hv _ _ _ _ Hid Hport _ _ _ _ Hby _].
  destruct (plain_request_facts _ Hplain) as (Hrq & _ & _ & _ & _ & _ & _ & Hrsp & _).
  unfold finish_request. cbn [negb]. rewrite (finish_filter y pkt f1 f' false); [| exact (mw_filter _ _ _ _ _ Hm) | done | done | done].
  cbn [obind]. set (y1 := set_host _ y). unfold accepted_request. cbn [orb obind].
  destruct (midway_layer x y y1 mem l f1 true t Hm eq_refl Htime) as (l' & -> & Hla). cbn [obind].
  rewrite (no_maintenance pkt dst Hplain (or_introl Hc)). cbn [obind]. unfold respond_request, makeResponse.
  rewrite Hc, (pr_needs _ Hplain), Hrq. cbn [assert_ obind]. set (y2 := set_reqLayers _ y1).
  assert (Eb : bypassCaches (host y2) = false) by (unfold y2, y1; cbn; destruct (mw_keeps _ _ _ _ _ Hm) as [-> _]; done).
  rewrite Eb. set (rsp := flag_clear _ _).
  assert (Hs2 : same_request orig rsp).
  { eapply same_trans; [apply same_set_cmd; exact Hs |]. by apply clear_same. }
  destruct (response_ok (host x) f' rsp w Hreq Hs2) as (f'' & Hup & Hi); auto.
  unfold on_filter. cbn [y2 y1 host set_host set_reqLayers snoopFilter set_snoopFilter]. unfold cpu_port. cbn [y2 y1 host set_host set_reqLayers hx_cpuSidePorts set_snoopFilter].
  destruct (mw_keeps _ _ _ _ _ Hm) as [_ ->]. rewrite Hport. destruct (Z.ltb_spec (getId p) 0); [lia |]. cbn [obind]. rewrite Hup. cbn [obind].
  set (y3 := set_host _ _).
  destruct (edge_ok 0 y3) as (e & c' & -> & He); [apply Hm | lia | destruct (mw_clock _ _ _ _ _ Hm); cbn; lia |]. cbn [obind].
  rewrite Hnw.
  eexists _, _, f''. split; [reflexivity |]. split; [done |]. split; [done |].
  eapply rr_answered; auto; cbn; rewrite ?(mw_routes _ _ _ _ _ Hm), ?(mw_snoops _ _ _ _ _ Hm), ?(mw_queued _ _ _ _ _ Hm); done.
Qed.

(** Forwarding a request that has been snooped, or answering it. *)
Lemma forward_ok y mem dst pkt f1 w0 w owner : plain_request (cmd orig) -> snooped pkt pkt f1 w0 w owner ->
  (cacheResponding pkt = true -> forwardPacket pkt (host y) = true) ->
  exists ok rd pkt' w', forward_request send mem dst (cacheResponding pkt) pkt y w = Ok (ok, rd, pkt', w') /\
    same_request orig pkt' /\ same_object (req pkt) (req pkt') /\ cacheResponding pkt' = cacheResponding pkt /\
    (forall l q, present w' l q -> present w l q) /\
    (cacheResponding pkt = true -> ok = true /\ rd = false) /\
    ((ok = true /\ rd = true /\ cmd pkt' = cmd orig /\ isWrite (cmd orig) = false /\ w' = w) \/
     (rd = false /\ (cmd pkt' = cmd orig \/ (ok = true /\ cmd pkt' = responseCommand (cmd orig))))).
Proof.
  intros Hplain [Hs Hr Hc Hless Hlu Hown Ho] Hfw. unfold forward_request. destruct (forwardPacket pkt (host y)) eqn:Ef.
  - set (p1 := if cacheResponding pkt then setExpressSnoop pkt else pkt).
    set (p2 := if isWrite (cmd p1) && dst then clearWriteThrough p1 else p1).
    assert (H1 : same_request pkt p1 /\ cacheResponding p1 = cacheResponding pkt /\ cmd p1 = cmd pkt /\ req p1 = req pkt /\
      (cacheResponding pkt = true -> isExpressSnoop p1 = true)).
    { unfold p1. destruct (cacheResponding pkt) eqn:E; [| by split_and!]. split_and!; try done.
      - split; try done; apply flag_set_other; done.
      - rewrite <- E. by apply flag_set_other.
      - intros _. by apply flag_set_this. }
    destruct H1 as (Hs1 & Hcr1 & Hc1 & Hr1 & Hx1).
    assert (H2 : same_request p1 p2 /\ cacheResponding p2 = cacheResponding p1 /\ cmd p2 = cmd p1 /\ req p2 = req p1 /\
      isExpressSnoop p2 = isExpressSnoop p1).
    { unfold p2. destruct (isWrite (cmd p1) && dst); [| split_and!; auto using same_refl].
      destruct (clear_same WRITE_THROUGH p1) as [? ?]; [reflexivity |]. split_and!; auto.
      unfold isExpressSnoop, clearWriteThrough, flag_isSet, flag_clear. cbn [flags set_flags]. by rewrite <- Z.land_assoc. }
    destruct H2 as (Hs2 & Hcr2 & Hc2 & Hr2 & Hx2).
    destruct (tp_send mem p2 w) as (ok & p3 & w' & -> & Hs3 & Hr3 & Hless3 & Hcr3 & Hx & Hc3). cbn [obind].
    assert (Hc23 : cmd p2 = cmd orig) by congruence. rewrite Hc23 in Hc3.
    exists ok, false, p3, w'. split; [done |]. split_and!; try congruence; auto.
    + eapply same_trans; [exact Hs |]. eapply same_trans; [exact Hs1 |]. by eapply same_trans.
    + intros E. split; [apply Hx; rewrite Hx2; auto | done].
  - destruct (cacheResponding pkt) eqn:E; [discriminate (Hfw eq_refl) |].
    rewrite Hc, (pr_needs _ Hplain). cbn [negb assert_ obind]. exists true, true, pkt, w. split_and!; try done.
    left. split_and!; try done. unfold forwardPacket in Ef. rewrite Hc, (pr_clean _ Hplain) in Ef.
    by apply orb_false_iff in Ef as [[_ ?]%orb_false_iff _].
Qed.

(** The part after the snoops. *)
Lemma after_snoops x y mem l f1 t dst pkt w0 w owner : cache_request ls orig p (host x) f pend ->
  passable cur orig x -> remembers R kinds orig p x r -> midway x y mem l f1 -> snooped pkt pkt f1 w0 w owner -> cur <= t ->
  req_key pkt = req_key orig -> kinds (cxl_packet_type (req pkt)) ->
  exists ok pkt' x' w' f',
    (let! sink_packet := sinkPacket pkt (host y) in
     let! a := getAddr pkt in
     let! (success, respond_directly, pkt', w) :=
       (if sink_packet then Ok (true, false, pkt, w) else forward_request send mem dst (cacheResponding pkt) pkt y w) in
     let! (pkt', x) := finish_request R cur (getId p) mem t (headerDelay orig) false true dst sink_packet success respond_directly
       (needsResponse (cmd pkt) && negb (cacheResponding pkt) && negb respond_directly) (cacheResponding pkt) a pkt' y in
     Ok (success, pkt', x, w)) = Ok (ok, pkt', x', w') /\
    snoopFilter (host x') = Some f' /\ layer_after x x' mem l ok /\ request_result x ok pkt' x' w' f'.
Proof.
  intros Hreq Hready Hrem Hm Hsn Htime Hk Hkind. pose proof Hreq as [Hplain Hv _ _ _ _ _ _ _ _ _ _ _ _].
  pose proof Hsn as [Hs Hr Hc Hless Hlu Hown Ho].
  destruct (sinkPacket_ok ls orig p (host x) f pend Hreq pkt (host y) Hc) as (sunk & -> & Hsk & Hfw). cbn [obind].
  unfold getAddr. rewrite (sr_valid _ _ Hs), Hv, (sr_addr _ _ Hs), Hc, (pr_needs _ Hplain). cbn [assert_ obind andb].
  assert (Her : forall c, negb c && negb false || c = true) by (by intros []).
  destruct sunk; cbn [obind].
  - destruct (finish_taken x y mem l f1 t dst true (negb (cacheResponding pkt) && negb false) pkt w w owner) as (pkt' & x' & f' & -> & H1 & H2 & H3); auto.
    cbn [obind]. by exists true, pkt', x', w, f'.
  - destruct (forward_ok y mem dst pkt f1 w0 w owner Hplain Hsn (Hfw eq_refl)) as (ok & rd & pkt2 & w2 & -> & Hs2 & Hr2 & Hcr2 & Hless2 & Hex & Hcase).
    cbn [obind]. destruct Hcase as [(-> & -> & Hc2 & Hnw & ->) | (-> & Hc2)].
    + destruct (cacheResponding pkt) eqn:Ecr; [by destruct (Hex eq_refl) |]. cbn [negb andb].
      destruct (finish_answered x y mem l f1 t dst false pkt2 w) as (pkt' & x' & f' & -> & H1 & H2 & H3); auto.
      { destruct owner; [| done]. by discriminate Ho. }
      cbn [obind]. by exists true, pkt', x', w, f'.
    + destruct ok.
      * rewrite <- Hcr2. destruct (finish_taken x y mem l f1 t dst false (negb (cacheResponding pkt2) && negb false) pkt2 w w2 owner)
          as (pkt' & x' & f' & -> & H1 & H2 & H3); auto; try (rewrite ?Hcr2; done).
        { unfold req_key in *. by rewrite (proj1 Hr2). }
        { by eapply Hkinds; [apply Hr2 |]. }
        { tauto. }
        { intros Hi q Hq. by apply Hown, Hless2. }
        cbn [obind]. by exists true, pkt', x', w2, f'.
      * destruct (finish_refused x y mem l f1 t dst false (negb (cacheResponding pkt) && negb false) (cacheResponding pkt) pkt2 w w2)
          as (pkt' & x' & f' & -> & H1 & H2 & H3); auto.
        cbn [obind]. by exists false, pkt', x', w2, f'.
Qed.

(** A request that [find] leads to port [mem]. *)
Lemma routed_request_ok x w skip mem pkt1 h1 l : cache_request ls orig p (host x) f pend -> passable cur orig x ->
  remembers R kinds orig p x r -> sys_inv (mkSystem f pend (present w)) ->
  keeps (host x) h1 -> width (base h1) = width (base (host x)) ->
  same_request orig pkt1 -> cmd pkt1 = cmd orig -> cacheResponding pkt1 = false -> snoopDelay pkt1 = 0 ->
  headerDelay pkt1 = headerDelay orig -> payloadDelay pkt1 = payloadDelay orig -> req_key pkt1 = req_key orig ->
  kinds (cxl_packet_type (req pkt1)) -> (forall q, req q = req pkt1 -> skip q = false) ->
  0 <= mem -> reqLayers x !! Z.to_nat mem = Some l -> layer_open cur (getId p) l ->
  exists ok pkt x' w' f',
    routed_request snoop send tryBelow R skip cur (getId p) mem false false pkt1 (set_host h1 x) w = Ok (ok, pkt, x', w') /\
    snoopFilter (host x') = Some f' /\ layer_after x x' mem l ok /\ request_result x ok pkt x' w' f'.
Proof.
  intros Hreq Hpass Hrem Hinv Hkeep Hw Hs1 Hc1 Hcr1 Hsd1 Hhd1 Hpd1 Hkey1 Hkind Hskip Hmem Hl Hopen.
  pose proof Hreq as [Hplain Hv Hsz _ _ Hcr Hid _ Hf _ _ _ Hby Hro]. pose proof Hpass as [Hex Hsd Htm _ _].
  destruct (plain_request_facts _ Hplain) as (_ & _ & _ & Hwc & _). unfold routed_request.
  unfold on_reqLayer at 1, on_layer, nth_layer. cbn [reqLayers set_host]. destruct (Z.ltb_spec mem 0); [lia |]. rewrite Hl. cbn [obind].
  destruct (tryTiming_ok cur (getId p) l Hopen) as [(l' & -> & Hrun) | (-> & Htaken)]; cbn [obind negb].
  - eexists false, pkt1, _, w, f. split; [reflexivity |]. cbn. rewrite (kp_filter _ _ Hkeep).
    split_and!; [done | exists 0, l'; by split_and! | by apply rr_refused].
  - set (y0 := set_reqLayers _ _).
    assert (Htm1 : timely cur (u64 (u64 (frontendLatency (params y0) + forwardLatency (params y0)) * clockPeriod (clk y0))) pkt1 y0).
    { destruct Htm as [? ? Hwd ? ? ? ?]. split; try done; cbn; rewrite ?Hw, ?Hhd1, ?Hpd1, ?(sr_valid_size _ _ Hs1); auto. }
    assert (Egs : exists n, (if hasData (cmd pkt1) then getSize pkt1 else Ok 0) = Ok n).
    { unfold getSize. rewrite (sr_valid_size _ _ Hs1), Hsz. cbn [assert_ obind]. by destruct (hasData (cmd pkt1)); eexists. }
    destruct Egs as [n ->]. cbn [obind].
    destruct (packet_timing_ok _ _ _ _ Htm1) as (t & pkt2 & c' & -> & Hsp & Hsd2 & Ht & Hc' & _). cbn [obind].
    assert (Hs2 : same_request orig pkt2) by (eapply same_trans; [exact Hs1 | by apply same_packet_request]).
    rewrite (Hskip pkt2 (sp_req _ _ Hsp)), (sp_cmd _ _ Hsp), Hc1, (bool_decide_eq_false_2 _ Hwc).
    cbn [host set_clk y0 set_reqLayers set_host]. rewrite (kp_bypass _ _ Hkeep), Hby. cbn [negb andb].
    destruct (snoop_request_ok (set_clk c' y0) (host x) pkt2 mem (isDestination pkt2 h1) w Hreq Hkeep Hinv Hs2)
      as (pkt3 & f1 & w3 & owner & -> & Hsn).
    { by rewrite (sp_cmd _ _ Hsp), Hc1. }
    { unfold cacheResponding. by rewrite (same_packet_flag _ _ _ Hsp). }
    { by rewrite Hsd2. }
    cbn [obind negb andb]. set (y1 := set_host _ _).
    assert (Hm : midway x y1 mem l f1).
    { split; try done. cbn. by rewrite (kp_bypass _ _ Hkeep), (kp_ports _ _ Hkeep). }
    assert (Hsn3 : snooped pkt3 pkt3 f1 w w3 owner) by (destruct Hsn; by split).
    destruct (after_snoops x y1 mem l f1 t (isDestination pkt2 h1) pkt3 w w3 owner Hreq Hpass Hrem Hm Hsn3 Ht)
      as (ok & pkt4 & x' & w' & f' & E & Hf' & Hla & Hres).
    { unfold req_key in *. by rewrite (proj1 (sn_req _ _ _ _ _ _ Hsn)), (sp_req _ _ Hsp). }
    { by rewrite (proj2 (sn_req _ _ _ _ _ _ Hsn)), (sp_req _ _ Hsp). }
    exists ok, pkt4, x', w', f'. split; [| done]. rewrite Hhd1. exact E.
Qed.
End request.

Lemma recvTimingReq_ok cur orig p f pend x w : cache_request ls orig p (host x) f pend -> timing_ready cur orig p x ->
  sys_inv (mkSystem f pend (present w)) ->
  exists ok pkt x' w' f' mem l, recvTimingReq snoop send tryBelow cur orig (getId p) x w = Ok (ok, pkt, x', w') /\
    snoopFilter (host x') = Some f' /\ layer_after cur p x x' mem l ok /\
    request_result orig p f pend (<[req_key orig := getId p]> (routeTo x)) x ok pkt x' w' f'.
Proof.
  intros Hreq Hready Hinv. pose proof Hreq as [_ Hv _ _ _ Hcr _ _ _ _ _ _ _ Hro].
  pose proof Hready as [Hex [Hk1 Hk2] Hsd _ Hlay [Hr _] [Hmr _]].
  destruct (findPort_routed orig (host x) Hv Hro) as (mem & pkt1 & h1 & Hfp & Hpkt & Hkeep).
  destruct (Hlay _ _ _ Hfp) as (Hmem & l & Hl & Hopen).
  assert (H2 : same_request orig pkt1 /\ cmd pkt1 = cmd orig /\ cacheResponding pkt1 = false /\ snoopDelay pkt1 = 0 /\
    headerDelay pkt1 = headerDelay orig /\ payloadDelay pkt1 = payloadDelay orig /\ req_key pkt1 = req_key orig /\
    ordinary (cxl_packet_type (req pkt1))).
  { destruct Hpkt as [-> | ->]; [by split_and!; auto using same_refl |]. by split_and!; auto; split. }
  destruct H2 as (Hs1 & Hc1 & Hcr1 & Hsd1 & Hhd1 & Hpd1 & Hkey1 & Hkind).
  unfold recvTimingReq. rewrite Hex, Hcr. cbn [eqb assert_ obind]. rewrite Hfp. cbn [obind].
  unfold getAddr at 1. rewrite (sr_valid _ _ Hs1), Hv. cbn [assert_ obind].
  destruct (routed_request_ok cur orig p f pend host_routes ordinary (<[req_key orig := getId p]> (routeTo x)) ordinary_alike x w
              (fun pkt => bool_decide (cxl_packet_type (req pkt) = CXLcacheH2DResp)) mem pkt1 h1 l)
    as (ok & pkt & x' & w' & f' & H); eauto using ready_passable, host_remembers.
  - by apply findPort_width with orig mem pkt1.
  - intros q ->. apply bool_decide_eq_false_2, Hkind.
  - by exists ok, pkt, x', w', f', mem, l.
Qed.
End requests.

(** * Responses *)

Lemma line_addr_same f p p' : same_packet p p' -> line_addr f p' = line_addr f p.
Proof.
  intros H. unfold line_addr, getBlockAddr, getAddr, isSecure.
  by rewrite (same_packet_flag _ _ _ H), (sp_addr _ _ H), (sp_secure _ _ H).
Qed.

Lemma updateResponse_same p p' q f : same_packet p p' -> updateResponse p' q f = updateResponse p q f.
Proof. intros H. unfold updateResponse. by rewrite (line_addr_same _ _ _ H), (sp_cmd _ _ H), (sp_req _ _ H). Qed.

Lemma updateSnoopResponse_same p p' r q f : same_packet p p' -> updateSnoopResponse p' r q f = updateSnoopResponse p r q f.
Proof.
  intros H. unfold updateSnoopResponse, cacheResponding, hasSharers.
  by rewrite (line_addr_same _ _ _ H), (sp_cmd _ _ H), (sp_req _ _ H), !(same_packet_flag _ _ _ H).
Qed.

Section responses.
Variables (cur : Z) (pkt : Packet) (p : ResponsePort) (x : HostTiming) (f : SnoopFilter).
Variables (pend pres : Z -> ResponsePort -> Prop).

(** A packet that has a route to port [p], whose response layer source [src] may try. *)
Record routed_back (d src : Z) (l : Layer) : Prop := {
  rb_valid : flag_isSet VALID_ADDR pkt = true;
  rb_time : timely cur d pkt x;
  rb_route : routeTo x !! req_key pkt = Some (getId p);
  rb_id : 0 <= getId p;
  rb_port : hx_cpuSidePorts (host x) !! Z.to_nat (getId p) = Some p;
  rb_layer : respLayers x !! Z.to_nat (getId p) = Some l;
  rb_open : layer_open cur src l;
  rb_filter : snoopFilter (host x) = Some f;
  rb_caches : bypassCaches (host x) = false;
}.

(** The response layer after the packet. *)
Definition resp_layer_after (src : Z) (l : Layer) (ok : bool) (x' : HostTiming) : Prop :=
  exists busy l', run_attempt cur (mkAttempt src ok busy) l = Ok l' /\
    respLayers x' = <[Z.to_nat (getId p) := l']> (respLayers x).

Definition refused_response (pkt' : Packet) (x' : HostTiming) : Prop :=
  pkt' = pkt /\ snoopFilter (host x') = Some f /\ routeTo x' = routeTo x /\ outstandingSnoop x' = outstandingSnoop x /\
  queued x' = queued x.

(** The packet goes to [p], once; the filter is told by the event [ev]. *)
Definition delivered (ev : event) (line : Z) (pkt' : Packet) (x' : HostTiming) : Prop :=
  same_packet pkt pkt' /\ headerDelay pkt' = 0 /\ routeTo x' = delete (req_key pkt) (routeTo x) /\
  (exists when, queued x' = queued x ++ [mkScheduled (getId p) pkt' when]) /\
  exists f', snoopFilter (host x') = Some f' /\ forall after, allowed (mkSystem f pend pres) ev line [] after ->
    sys_inv (mkSystem f' (pending_after (mkSystem f pend pres) ev line) after).

Lemma route_found d src l : routed_back d src l -> find_route pkt x = Ok (getId p) /\ in_layers (getId p) (respLayers x) = Ok tt /\
  cpu_port (getId p) x = Ok p.
Proof.
  intros [_ _ Hr Hid Hp Hl _ _ _]. unfold find_route, in_layers, cpu_port. rewrite Hr, Hp.
  apply lookup_lt_Some in Hl. unfold InvalidPortID. destruct (Z.eqb_spec (getId p) (-1)); [lia |].
  destruct (Z.leb_spec 0 (getId p)), (Z.ltb_spec (getId p) (Z.of_nat (length (respLayers x)))), (Z.ltb_spec (getId p) 0); try lia. done.
Qed.

Lemma respLayer_try d src l : routed_back d src l ->
  (exists l', on_respLayer (getId p) (tryTiming src) x
      = Ok (false, set_respLayers (<[Z.to_nat (getId p) := l']> (respLayers x)) x) /\
     forall ok busy, run_attempt cur (mkAttempt src ok busy) l = Ok l') \/
  (on_respLayer (getId p) (tryTiming src) x
     = Ok (true, set_respLayers (<[Z.to_nat (getId p) := set_state BUSY l]> (respLayers x)) x) /\ layer_taken cur src l).
Proof.
  intros [_ _ _ Hid _ Hl Hopen _ _]. unfold on_respLayer, on_layer, nth_layer. destruct (Z.ltb_spec (getId p) 0); [lia |].
  rewrite Hl. cbn [obind]. destruct (tryTiming_ok cur src l Hopen) as [(l' & -> & Hrun) | (-> & Ht)]; cbn [obind]; eauto.
Qed.

Lemma respLayer_done d src l t y : routed_back d src l -> layer_taken cur src l -> cur <= t -> 0 < cur ->
  respLayers y = <[Z.to_nat (getId p) := set_state BUSY l]> (respLayers x) ->
  exists l', on_respLayer (getId p) (unit_op (succeededTiming cur t)) y
      = Ok (tt, set_respLayers (<[Z.to_nat (getId p) := l']> (respLayers y)) y) /\
    resp_layer_after src l true (set_respLayers (<[Z.to_nat (getId p) := l']> (respLayers y)) y).
Proof.
  intros [_ _ _ Hid _ Hl _ _ _] Ht Hle Hpos E. destruct (Ht true t Hle) as (l' & Hrun & Hl'); [lia |]. exists l'. split.
  - unfold on_respLayer, on_layer, nth_layer, unit_op. destruct (Z.ltb_spec (getId p) 0); [lia |].
    rewrite E, list_lookup_insert_eq by (by eapply lookup_lt_Some). cbn [obind]. by rewrite Hl'.
  - exists t, l'. split; [done |]. cbn. rewrite E. apply list_insert_insert_eq.
Qed.

(** Marking a fetched line changes the fake snoop filter only. *)
Definition marked (pkt' : Packet) : gset Z :=
  let kind := cxl_packet_type (req pkt') in
  if center_xbar (host x) && negb (bool_decide (kind = DefaultPacket)) && ((HOST_BASE <=? addr pkt') && negb (bool_decide (kind = CXLcacheH2DResp)))
  then {[ addr pkt' ]} ∪ fake_snoop_filter (host x) else fake_snoop_filter (host x).

Lemma mark_fetched_ok pkt' y : flag_isSet VALID_ADDR pkt' = true -> center_xbar (host y) = center_xbar (host x) ->
  fake_snoop_filter (host y) = fake_snoop_filter (host x) ->
  mark_fetched pkt' y = Ok (set_host (set_fake (marked pkt') (host y)) y).
Proof.
  intros Hv Ec Ef. unfold mark_fetched, marked, setFakeSF, getAddr. rewrite Ec, Hv.
  assert (Hy : forall g, g = fake_snoop_filter (host x) -> Ok y = Ok (set_host (set_fake g (host y)) y)).
  { intros g ->. rewrite <- Ef. by destruct y as [[] ? ? ? ? ? ? ? ?]. }
  destruct (center_xbar (host x) && _); cbn [andb]; [| by apply Hy]. cbn [assert_ obind].
  destruct (HOST_BASE <=? addr pkt'); cbn [andb]; [| by apply Hy].
  destruct (negb _); [| by apply Hy]. cbn [assert_ obind]. by rewrite Ef.
Qed.

(** The event of a response is one the filter can take. *)
Lemma event_taken ev line : sys_inv (mkSystem f pend pres) -> line_addr f (event_pkt ev) = Ok line ->
  conforms (mkSystem f pend pres) ev line -> match ev with Response _ _ | SnoopResponse _ _ _ => True | _ => False end ->
  exists f', run ev f = Ok (f', []) /\ forall after, allowed (mkSystem f pend pres) ev line [] after ->
    sys_inv (mkSystem f' (pending_after (mkSystem f pend pres) ev line) after).
Proof.
  intros Hinv Hl Hc Hev. destruct (run_conforming _ ev line Hinv Hl Hc ltac:(by destruct ev)) as (f' & ps & Hrun & _).
  assert (ps = []) as ->.
  { cbn [flt] in Hrun. destruct ev; try done; cbn [run] in Hrun; obind_inv; done. }
  exists f'. split; [done |]. intros after Ha. by apply (event_inv _ ev line f' [] after Hinv Hl Hc Hrun).
Qed.

Lemma recvTimingResp_ok mem l line : routed_back (u64 (responseLatency (params x) * clockPeriod (clk x))) mem l ->
  sys_inv (mkSystem f pend pres) -> line_addr f pkt = Ok line -> conforms (mkSystem f pend pres) (Response pkt p) line ->
  exists ok pkt' x', recvTimingResp cur pkt mem x = Ok (ok, pkt', x') /\ resp_layer_after mem l ok x' /\
    if ok then delivered (Response pkt p) line pkt' x' /\ outstandingSnoop x' = outstandingSnoop x /\
               fake_snoop_filter (host x') = marked pkt
    else refused_response pkt' x'.
Proof.
  intros Hrb Hinv Hl Hconf. destruct (route_found _ _ _ Hrb) as (Hfr & Hil & Hcp). pose proof Hrb as [Hv Htm _ _ Hport _ _ Hf Hby].
  unfold recvTimingResp. unfold getAddr at 1. rewrite Hv, Hfr. cbn [assert_ obind]. rewrite Hil. cbn [obind].
  destruct (respLayer_try _ _ _ Hrb) as [(l' & -> & Hrun) | (-> & Htaken)]; cbn [obind negb].
  { eexists false, pkt, _. split; [reflexivity |]. split; [| by split_and!]. exists 0, l'. by split. }
  set (y := set_respLayers _ x).
  assert (Egs : exists n, (if hasData (cmd pkt) then getSize pkt else Ok 0) = Ok n).
  { unfold getSize. rewrite (tm_size _ _ _ _ Htm). cbn [assert_ obind]. by destruct (hasData (cmd pkt)); eexists. }
  destruct Egs as [n ->]. cbn [obind].
  destruct (packet_timing_ok cur (u64 (responseLatency (params y) * clockPeriod (clk y))) pkt y) as (t & pkt' & c' & -> & Hsp & _ & Ht & _).
  { by destruct Htm. }
  cbn [obind]. set (y1 := set_clk c' y). change (bypassCaches (host y1)) with (bypassCaches (host x)). rewrite Hby.
  destruct (event_taken (Response pkt p) line Hinv Hl Hconf I) as (f' & Hrunf & Hafter). cbn [run] in Hrunf.
  destruct (updateResponse pkt p f) as [g | e] eqn:Eg; [| done]. cbn [obind] in Hrunf. injection Hrunf as ->.
  unfold on_filter. change (snoopFilter (host y1)) with (snoopFilter (host x)). change (cpu_port (getId p) y1) with (cpu_port (getId p) x).
  rewrite Hf, Hcp. cbn [obind]. rewrite (updateResponse_same _ _ _ _ Hsp), Eg. cbn [obind].
  assert (Hv' : flag_isSet VALID_ADDR pkt' = true) by (by rewrite (same_packet_flag _ _ _ Hsp)).
  rewrite mark_fetched_ok by done. cbn [obind]. unfold deliver, getAddr.
  change (flag_isSet VALID_ADDR (set_headerDelay 0 pkt')) with (flag_isSet VALID_ADDR pkt'). rewrite Hv'. cbn [assert_ obind].
  set (y2 := erase_route _ _).
  destruct (respLayer_done _ mem l t y2 Hrb Htaken Ht) as (l' & -> & Hla); [destruct (tm_clock _ _ _ _ Htm); lia | done |]. cbn [obind].
  eexists true, _, _. split; [reflexivity |]. split; [done |]. unfold delivered. split_and!; [destruct Hsp; by split | done | | | | done |].
  - cbn. unfold req_key. cbn. by rewrite (sp_req _ _ Hsp).
  - by eexists.
  - by exists f'.
  - cbn. unfold marked. by rewrite (sp_req _ _ Hsp), (sp_addr _ _ Hsp).
Qed.

Section own_snoops.
Context {W : Type} (sendSnoopResp : Z -> Packet -> W -> outcome (bool * W)).

Lemma recvTimingSnoopResp_ok rsp l line w : routed_back (u64 (responseLatency (params x) * clockPeriod (clk x))) (snoop_source x (getId rsp)) l ->
  sys_inv (mkSystem f pend pres) -> line_addr f pkt = Ok line -> conforms (mkSystem f pend pres) (SnoopResponse pkt rsp p) line ->
  req_key pkt ∈ outstandingSnoop x -> isExpressSnoop pkt = false -> getId rsp <> getId p ->
  0 <= getId rsp -> hx_cpuSidePorts (host x) !! Z.to_nat (getId rsp) = Some rsp ->
  exists ok pkt' x', recvTimingSnoopResp sendSnoopResp cur pkt (getId rsp) x w = Ok (ok, pkt', x', w) /\
    resp_layer_after (snoop_source x (getId rsp)) l ok x' /\
    if ok then delivered (SnoopResponse pkt rsp p) line pkt' x' /\
               outstandingSnoop x' = outstandingSnoop x ∖ {[ req_key pkt ]} /\
               fake_snoop_filter (host x') = fake_snoop_filter (host x)
    else refused_response pkt' x'.
Proof.
  intros Hrb Hinv Hl Hconf Hos Hex Hne Hrid Hrport. destruct (route_found _ _ _ Hrb) as (Hfr & Hil & Hcp).
  pose proof Hrb as [Hv Htm _ _ Hport _ _ Hf Hby].
  unfold recvTimingSnoopResp. unfold getAddr at 1. rewrite Hv, Hfr. cbn [assert_ obind]. rewrite (bool_decide_eq_true_2 _ Hos).
  cbn [negb]. rewrite Hil. cbn [obind].
  destruct (respLayer_try _ _ _ Hrb) as [(l' & -> & Hrun) | (-> & Htaken)]; cbn [obind negb].
  { eexists false, pkt, _. split; [reflexivity |]. split; [| by split_and!]. exists 0, l'. by split. }
  set (y := set_respLayers _ x).
  assert (Egs : exists n, (if hasData (cmd pkt) then getSize pkt else Ok 0) = Ok n).
  { unfold getSize. rewrite (tm_size _ _ _ _ Htm). cbn [assert_ obind]. by destruct (hasData (cmd pkt)); eexists. }
  destruct Egs as [n ->]. cbn [obind]. rewrite Hex. cbn [negb assert_ obind].
  destruct (packet_timing_ok cur (u64 (responseLatency (params y) * clockPeriod (clk y))) pkt y) as (t & pkt' & c' & -> & Hsp & _ & Ht & _).
  { by destruct Htm. }
  cbn [obind]. destruct (Z.eqb_spec (getId rsp) (getId p)); [done |]. cbn [negb assert_ obind].
  assert (Ek : req_key pkt' = req_key pkt) by (unfold req_key; by rewrite (sp_req _ _ Hsp)). rewrite Ek.
  set (y1 := set_outstandingSnoop _ _).
  destruct (event_taken (SnoopResponse pkt rsp p) line Hinv Hl Hconf I) as (f' & Hrunf & Hafter). cbn [run] in Hrunf.
  destruct (updateSnoopResponse pkt rsp p f) as [g | e] eqn:Eg; [| done]. cbn [obind] in Hrunf. injection Hrunf as ->.
  unfold on_filter. change (snoopFilter (host y1)) with (snoopFilter (host x)). change (cpu_port ?i y1) with (cpu_port i x).
  rewrite Hf, Hcp. unfold cpu_port at 1. rewrite Hrport. destruct (Z.ltb_spec (getId rsp) 0); [lia |]. cbn [obind].
  rewrite (updateSnoopResponse_same _ _ _ _ _ Hsp), Eg. cbn [obind]. unfold deliver.
  set (y2 := schedTimingResp _ _ _ _).
  destruct (respLayer_done _ _ l t y2 Hrb Htaken Ht) as (l' & -> & Hla); [destruct (tm_clock _ _ _ _ Htm); lia | done |]. cbn [obind].
  unfold getAddr. change (flag_isSet VALID_ADDR (set_headerDelay 0 pkt')) with (flag_isSet VALID_ADDR pkt').
  rewrite (same_packet_flag _ _ _ Hsp), Hv. cbn [assert_ obind].
  eexists true, _, _. split; [reflexivity |]. split; [done |]. unfold delivered. split_and!; [destruct Hsp; by split | done | | | | done | done].
  - cbn. unfold req_key in *. cbn. by rewrite Ek.
  - by eexists.
  - by exists f'.
Qed.
End own_snoops.
End responses.


(** A timing response from below never stops the simulation: it waits for the layer,
    with nothing else changed, or it is scheduled once for the port that its
    request came from; then the route is gone, the filter has one request less in
    flight and a copy more, and in the central crossbar a line fetched by the
    device is marked. *)
Theorem timing_response cur pkt p x f pend pres mem l line :
  routed_back cur pkt p x f (u64 (responseLatency (params x) * clockPeriod (clk x))) mem l ->
  sys_inv (mkSystem f pend pres) -> line_addr f pkt = Ok line -> conforms (mkSystem f pend pres) (Response pkt p) line ->
  exists ok pkt' x', recvTimingResp cur pkt mem x = Ok (ok, pkt', x') /\ resp_layer_after cur p x mem l ok x' /\
    if ok then delivered pkt p x f pend pres (Response pkt p) line pkt' x' /\
               outstandingSnoop x' = outstandingSnoop x /\ fake_snoop_filter (host x') = marked x pkt
    else refused_response pkt x f pkt' x'.
Proof. intros. by apply recvTimingResp_ok. Qed.

(** The response of a snooped cache to a request that this crossbar has sent on is
    turned into the response of the request: it goes to the port the request came
    from, the crossbar no longer waits for it, and the filter moves the line as the
    response says. *)
Theorem timing_snoop_response {W} (sendSnoopResp : Z -> Packet -> W -> outcome (bool * W))
    cur pkt p x f pend pres rsp l line w :
  routed_back cur pkt p x f (u64 (responseLatency (params x) * clockPeriod (clk x))) (snoop_source x (getId rsp)) l ->
  sys_inv (mkSystem f pend pres) -> line_addr f pkt = Ok line -> conforms (mkSystem f pend pres) (SnoopResponse pkt rsp p) line ->
  req_key pkt ∈ outstandingSnoop x -> isExpressSnoop pkt = false -> getId rsp <> getId p ->
  0 <= getId rsp -> hx_cpuSidePorts (host x) !! Z.to_nat (getId rsp) = Some rsp ->
  exists ok pkt' x', recvTimingSnoopResp sendSnoopResp cur pkt (getId rsp) x w = Ok (ok, pkt', x', w) /\
    resp_layer_after cur p x (snoop_source x (getId rsp)) l ok x' /\
    if ok then delivered pkt p x f pend pres (SnoopResponse pkt rsp p) line pkt' x' /\
               outstandingSnoop x' = outstandingSnoop x ∖ {[ req_key pkt ]} /\
               fake_snoop_filter (host x') = fake_snoop_filter (host x)
    else refused_response pkt x f pkt' x'.
Proof. intros. by apply recvTimingSnoopResp_ok. Qed.

(** ** Instances *)

(** Caches that commit to answering when they have the line, and note its state in the
    request; below, every request is taken, and a plain one becomes a CXL message. *)
Definition ex_snoopT (p : ResponsePort) (pkt : Packet) (w : ex_caches) : outcome (Packet * ex_caches) :=
  if bool_decide ((line_of 64 pkt, getId p) ∈ w) && negb (cacheResponding pkt)
  then Ok (flag_set CACHE_RESPONDING (ex_note pkt), w) else Ok (pkt, ex_drop pkt p w).
Definition ex_message (pkt : Packet) : Packet :=
  if bool_decide (cxl_packet_type (req pkt) = DefaultPacket)
  then set_req (set_cxl_packet_type CXLmemPacket (req pkt)) pkt else pkt.
Definition ex_sendT (id : Z) (pkt : Packet) (w : ex_caches) : outcome (bool * Packet * ex_caches) := Ok (true, ex_message pkt, w).
Definition ex_tryT (id : Z) (pkt : Packet) (w : ex_caches) : outcome (bool * ex_caches) := Ok (true, w).

#[export] Instance ex_timing_peers : TimingPeers 64 ex_present ex_snoopT ex_sendT.
Proof.
  split.
  - intros p pkt w. unfold ex_snoopT. case_bool_decide as Hin; [destruct (cacheResponding pkt) eqn:Hcr |]; cbn [andb negb];
      eexists _, _; (split; [reflexivity |]); (split; [| split; [by split | split; [done |]]]); auto using same_refl.
    + split; [intros l q; apply ex_drop_less |]. left. split; [done |]. intros E. by apply ex_drop_lost.
    + apply (same_trans _ (ex_note pkt)); [by split |]. split; try done; by apply flag_set_other.
    + split; [done |]. right. split_and!; [done | by apply flag_set_this | done].
    + split; [intros l q; apply ex_drop_less |]. left. split; [done |]. intros E. by apply ex_drop_lost.
  - intros id pkt w. eexists true, _, w. split; [reflexivity |]. unfold ex_message. case_bool_decide as E.
    + split_and!; auto; [by split | split; [done |]]. cbn. by rewrite E.
    + split_and!; auto using same_refl.
Qed.

Definition ex_params : TimingParams := mkTimingParams 1 1 1 1 1 8 8 1000000.
Definition ex_timing (h : HostXBar) (rs : list Layer) : HostTiming :=
  mkHostTiming h (mkClocked 2000 4 500) ex_params rs [new_Layer; new_Layer; new_Layer] [new_Layer; new_Layer] ∅ ∅ [].

Definition ex_p2 : ResponsePort := mkResponsePort 2 true.
Definition ex_p0 : ResponsePort := mkResponsePort 0 true.

Lemma ex_clock_at : clock_at 2000 (mkClocked 2000 4 500).
Proof. split; cbn; lia. Qed.

Lemma new_layer_open cur src : layer_open cur src new_Layer.
Proof. split_and!; [split; cbn; [constructor | done] | apply not_elem_of_nil | done | right; by split]. Qed.

Lemma no_copies_inv f : sf_wf f -> cachedLocations f = ∅ ->
  sys_inv (mkSystem f (fun _ _ => False) (ex_present ∅)).
Proof.
  intros Hw He. split; cbn [flt pending SnoopFilter.present]; [done | |].
  - intros l q. unfold entry, in_mask. rewrite He, lookup_empty. cbn. rewrite Z.bits_0. split; [done | by intros []].
  - intros l q H. change ((l, getId q) ∈ (∅ : ex_caches)) in H. by apply not_elem_of_empty in H.
Qed.

Lemma ex_host_request : cache_request 64 (ex_host_read ReadExReq) ex_p2 ex_host ex_filter (fun _ _ => False).
Proof.
  constructor; try done; try reflexivity.
  - right. left.
  - intros [].
  - destruct (ex_host_finds ReadExReq ex_host_base eq_refl) as (b' & H & _); [apply ex_host_decodes | reflexivity |].
    split; [by exists 1, b' |]. intros _ _. split; [by right |]. exists 0. exact ex_host_decodes.
Qed.


(** The crossbar with the request of the second cache in flight. *)
Definition ex_asked : SnoopFilter :=
  mkSnoopFilter {[ 0xa0000040 := mkSnoopItem 2 1 ]} None SnoopItem_empty [ex_p0; ex_p2] [0; -1; 1] 64 1 1024
    (mkStats 0 0 0 0 0 0).
Definition ex_waiting_for (snooped : bool) : HostTiming :=
  mkHostTiming (set_snoopFilter (Some ex_asked) ex_host) (mkClocked 2000 4 500) ex_params [new_Layer; new_Layer]
    [new_Layer; new_Layer; new_Layer] [new_Layer; new_Layer] {[ 1 := 2 ]} (if snooped then {[ 1 ]} else ∅) [].
Definition ex_pend (l : Z) (q : ResponsePort) : Prop := l = 0xa0000040 /\ q = ex_p2.
Definition ex_pres (l : Z) (q : ResponsePort) : Prop := l = 0xa0000040 /\ q = ex_p0.

Lemma ex_asked_inv : sys_inv (mkSystem ex_asked ex_pend ex_pres).
Proof.
  assert (Ht : forall q, tracked ex_asked q -> q = ex_p0 \/ q = ex_p2).
  { intros q H. unfold tracked in H. cbn in H. rewrite !elem_of_cons, elem_of_nil in H. tauto. }
  split; cbn [flt pending SnoopFilter.present].
  - split; [by destruct (sw_ports _ ex_filter_wf) as [H1 H2]; split | | done]. intros l i H. cbn in H. apply lookup_singleton_Some in H as [_ <-].
    repeat split; vm_compute; try discriminate.
  - intros l q. unfold ex_pend, entry. cbn [cachedLocations ex_asked]. destruct (decide (l = 0xa0000040)) as [-> | Hne].
    + rewrite lookup_singleton_eq. split; [intros [_ ->]; split; [right; left | reflexivity] |].
      intros [Hq H]. split; [done |]. destruct (Ht q Hq) as [-> | ->]; [discriminate H | done].
    + rewrite lookup_singleton_ne by done. split; [by intros [? _] |]. intros [_ H]. unfold in_mask in H. cbn in H.
      by rewrite Z.bits_0 in H.
  - intros l q [-> ->]. split; [left | reflexivity].
Qed.

Lemma ex_routed_back (snooped : bool) c d src : d <= 10000 -> 0 <= d -> flag_isSet VALID_ADDR c = true ->
  flag_isSet VALID_SIZE c = true -> headerDelay c = 0 -> payloadDelay c = 0 -> req_key c = 1 ->
  routed_back 2000 c ex_p2 (ex_waiting_for snooped) ex_asked d src new_Layer.
Proof.
  intros Hd1 Hd2 Hv Hs Hh Hp Hk. split; try done.
  - split; try done; try exact ex_clock_at; rewrite ?Hh, ?Hp; cbn; unfold in_width; lia.
  - rewrite Hk. reflexivity.
  - apply new_layer_open.
Qed.

(** The memory answers. *)
Definition ex_response : Packet := set_cmd ReadExResp (ex_host_read ReadExReq).

Lemma timing_response_witness :
  exists ok pkt' x', recvTimingResp 2000 ex_response 1 (ex_waiting_for false) = Ok (ok, pkt', x') /\
    resp_layer_after 2000 ex_p2 (ex_waiting_for false) 1 new_Layer ok x' /\ ok = true /\
    map sc_port (queued x') = [2].
Proof.
  destruct (timing_response 2000 ex_response ex_p2 (ex_waiting_for false) ex_asked ex_pend ex_pres 1 new_Layer 0xa0000040)
    as (ok & pkt' & x' & H1 & H2 & H3).
  - apply ex_routed_back; try reflexivity; vm_compute; discriminate.
  - exact ex_asked_inv.
  - reflexivity.
  - split; [right; left |]. split; [reflexivity |]. split; [reflexivity |]. split; reflexivity.
  - exists ok, pkt', x'. split; [exact H1 |]. split; [exact H2 |].
    assert (E : ok = true) by (vm_compute in H1; injection H1 as <- _ _; reflexivity). split; [exact E |].
    rewrite E in H3. destruct H3 as [(_ & _ & _ & (when & ->) & _) _]. reflexivity.
Defined.

(** The first cache answers. *)
Definition ex_snoop_answer : Packet := flag_set CACHE_RESPONDING ex_response.

Lemma timing_snoop_response_witness :
  exists ok pkt' x', recvTimingSnoopResp (fun _ _ (w : unit) => Ok (true, w)) 2000 ex_snoop_answer 0 (ex_waiting_for true) tt
      = Ok (ok, pkt', x', tt) /\ ok = true /\ map sc_port (queued x') = [2].
Proof.
  destruct (timing_snoop_response (fun _ _ (w : unit) => Ok (true, w)) 2000 ex_snoop_answer ex_p2 (ex_waiting_for true) ex_asked
              ex_pend ex_pres ex_p0 new_Layer 0xa0000040 tt) as (ok & pkt' & x' & H1 & H2 & H3).
  - apply ex_routed_back; try reflexivity; vm_compute; discriminate.
  - exact ex_asked_inv.
  - reflexivity.
  - split; [left |]. split; [right; left |]. repeat (split; [reflexivity |]). split; [split; reflexivity | split; reflexivity].
  - reflexivity.
  - reflexivity.
  - discriminate.
  - discriminate.
  - reflexivity.
  - exists ok, pkt', x'. split; [exact H1 |].
    assert (E : ok = true) by (vm_compute in H1; injection H1 as <- _ _; reflexivity). split; [exact E |].
    rewrite E in H3. destruct H3 as [(_ & _ & _ & (when & ->) & _) _]. reflexivity.
Defined.

(** A host read of a line that the device has, while the layer of the root complex is
    busy: it is refused, but the entry is gone and the request has become a snoop of
    the device; the retry of the same packet is routed to the memory. *)
Lemma busy_retry_misrouted :
  exists pkt x', recvTimingReq ex_snoopT ex_sendT ex_tryT 2000 (ex_host_read ReadExReq) 2
      (ex_timing (ex_fetched false ex_filter) [mkLayer BUSY [] None (Some 3000) 0; new_Layer]) (∅ : ex_caches)
      = Ok (false, pkt, x', ∅) /\
    fake_snoop_filter (host x') = ∅ /\ exists h', findPort pkt (host x') = Ok (1, pkt, h').
Proof. eexists _, _. split; [vm_compute; reflexivity |]. split; [reflexivity |]. eexists. vm_compute. reflexivity. Qed.

(** The answer of the device to a snoop is not looked up in the filter, but the request
    is finished there all the same: against the entry of the last request. *)
Lemma h2d_response_finished :
  recvTimingReq ex_snoopT ex_sendT ex_tryT 2000
    (mkPacket 9 WriteReq 0x300 0x80002040 false 64 0 0 0 [] (set_cxl_packet_type CXLcacheH2DResp (new_Request 3))) 2
    (ex_timing (set_snoopFilter (Some (set_it (Some 0x80001040) ex_filter)) ex_host) [new_Layer; new_Layer]) (∅ : ex_caches)
  = Err AssertFail.
Proof. vm_compute. reflexivity. Qed.
