(* ===== verification/HomeAgent.v ===== *)
(** The home agent of the host bridge: class [PciBridge::HomeAgent] and
    [PciBridge::forwardAtomic] of [src/gem5/src/mem/PciBridge.cc].

    The agent turns host memory commands into CXL.mem requests, answers the
    CXL.cache requests of the device, and checks coherence for the accesses of
    the device to memory in host bias.  A handler takes the packet and returns
    it changed, together with the handler's result; the port behind which the
    host caches are snooped is a parameter.  Trace output is left out. *)
From Stdlib Require Import ZArith Lia.
From stdpp Require Import base numbers list.
From S2P Require Import Prelude AddrRange CxlPacket MemPacket.

Open Scope Z_scope.

(** Rewrite the request of a packet. *)
Definition upd_req (f : Request -> Request) (p : Packet) : Packet := set_req (f (req p)) p.

(** [pkt->req->cxl_req] and [pkt->req->cxl_cache] dereferenced. *)
Definition get_cxl_req (p : Packet) : outcome CXL_Req :=
  match cxl_req (req p) with Some r => Ok r | None => Err Undefined end.
Definition get_cxl_cache (p : Packet) : outcome CXL_Cache :=
  match cxl_cache (req p) with Some c => Ok c | None => Err Undefined end.
Definition get_data_atomic2 (p : Packet) : outcome CXL_Cache :=
  match cxl_data_atomic2 (req p) with Some c => Ok c | None => Err Undefined end.

(** The C-style downcasts of the message pointers to a derived class. *)
Definition as_D2H_Req (c : CXL_Cache) : outcome D2H_Req :=
  match cache_body c with CD2HReq m => Ok m | _ => Err Undefined end.
Definition as_H2D_Resp (c : CXL_Cache) : outcome H2D_Resp :=
  match cache_body c with CH2DResp m => Ok m | _ => Err Undefined end.
Definition as_M2S_Req (r : CXL_Req) : outcome M2S_Req :=
  match mem_body r with MReq m => Ok m | _ => Err Undefined end.
Definition as_M2S_RwD (r : CXL_Req) : outcome M2S_RwD :=
  match mem_body r with MRwD m => Ok m | _ => Err Undefined end.
Definition as_S2M_NDR (r : CXL_Req) : outcome S2M_NDR :=
  match mem_body r with MNDR m => Ok m | _ => Err Undefined end.

(** Assignments through the message pointers. *)
Definition set_mem_type (t : CXL_Req_Types) (r : CXL_Req) : CXL_Req :=
  mkCXL_Req t (mem_link_type r) (mem_last_resp r) (mem_body r).
Definition set_mem_last_resp (n : Z) (r : CXL_Req) : CXL_Req :=
  mkCXL_Req (cxl_req_type r) (mem_link_type r) n (mem_body r).
Definition set_cache_type (t : CXL_Cache_Types) (c : CXL_Cache) : CXL_Cache :=
  mkCXL_Cache t (cache_link_type c) (cache_last_resp c) (cache_last_data c) (cache_body c).
Definition set_cache_last_resp (n : Z) (c : CXL_Cache) : CXL_Cache :=
  mkCXL_Cache (cxl_cache_type c) (cache_link_type c) n (cache_last_data c) (cache_body c).
Definition set_cache_last_data (b : bool) (c : CXL_Cache) : CXL_Cache :=
  mkCXL_Cache (cxl_cache_type c) (cache_link_type c) (cache_last_resp c) b (cache_body c).

(** [bool PciBridge::HomeAgent::makeCXLPacket(PacketPtr pkt)], with its test-case
    switches. *)
Definition makeCXLPacket (pkt : Packet) : outcome (bool * Packet) :=
  let ExclusiveRead := true in
  let SharedRead := true in
  let NonCacheAbleReadFlushed := false in
  let NonCacheAbleRead := false in
  let PassCacheReadFlushed := false in
  let PassCacheRead := false in
  let PassCacheReadNoSnoop := false in
  let ExclusiveWrite := true in
  let SharedWrite := false in
  let NoOwner_wantWB := false in
  let wantUpdataMem := false in
  let snp_type := SnpTypes_No_Op in
  let meta_value := Any in
  let meta_filed := MetaFiled_No_Op in
  let send_req (s : M2S_SnpTypes) (f : MetaFiled) (v : MetaValue) :=
    let! a := getAddr pkt in
    let m2s_req := new_M2S_Req MemRd s f v 0 a 0 0 0 0 TC_Reserved in
    Ok (true, upd_req (fun r => set_cxl_req (Some (set_mem_type _M2S_Req m2s_req))
                                  (set_cxl_packet_type CXLmemPacket r)) pkt) in
  match cmd pkt with
  | InvalidateReq => Ok (false, pkt)
  | ReadExReq =>
      let '(f, v, s) := if ExclusiveRead then (Meta0_State, Any, SnpInv)
                        else (meta_filed, meta_value, snp_type) in
      send_req s f v
  | ReadSharedReq =>
      let '(f, v, s) := if SharedRead then (Meta0_State, MetaValue_Shared, SnpData)
                        else (meta_filed, meta_value, snp_type) in
      send_req s f v
  | ReadReq =>
      let '(f, v, s) :=
        if NonCacheAbleReadFlushed then (Meta0_State, Invalied, SnpInv)
        else if NonCacheAbleRead then (Meta0_State, Invalied, SnpCur)
        else if PassCacheReadFlushed then (MetaFiled_No_Op, meta_value, SnpInv)
        else if PassCacheRead then (MetaFiled_No_Op, meta_value, SnpCur)
        else if PassCacheReadNoSnoop then (MetaFiled_No_Op, meta_value, SnpTypes_No_Op)
        else (meta_filed, meta_value, snp_type) in
      send_req s f v
  | WriteReq =>
      let meta_filed := Meta0_State in
      let '(v, s) :=
        if ExclusiveWrite then (Any, SnpTypes_No_Op)
        else if SharedWrite then (MetaValue_Shared, SnpTypes_No_Op)
        else if NoOwner_wantWB then (Invalied, SnpInv)
        else if wantUpdataMem then (Invalied, SnpTypes_No_Op)
        else (meta_value, snp_type) in
      let! a := getAddr pkt in
      let m2s_rwd := new_M2S_RwD MemWr s meta_filed v 0 a false false 0 0 0 0 TC_Reserved in
      Ok (true, upd_req (fun r => set_cxl_req (Some (set_mem_type _M2S_RwD m2s_rwd))
                                    (set_cxl_packet_type CXLmemPacket r)) pkt)
  | _ => Ok (false, pkt)
  end.

(** The H2D response of one branch of [makeCXLResp]: [GO], [WritePull], ... with
    [last_resp = 1], installed as the packet's CXL.cache message. *)
Definition respond (op : H2D_Resp_Opcodes) (d : RSP_Data_Encoding) (r : Request) : Request :=
  let h2d_resp := set_cache_last_resp 1 (new_H2D_Resp op d Host_CacheHit 0 0 0 0) in
  set_cxl_cache (Some h2d_resp) (set_cxl_packet_type CXLcachePacket r).

(** The H2D data message of one branch of [makeCXLResp]. *)
Definition respond_data (r : Request) : Request :=
  let h2d_data := set_cache_last_resp 1 (new_H2D_Data 0 false false false 0 0 0) in
  set_cxl_data_atomic2 (Some h2d_data) (set_cxl_packet_type CXLcacheDataPacket r).

(** The read branches of [makeCXLResp], [RdCurr] to [RdOwnNoData]. *)
Definition makeCXLResp_read (op : D2H_Req_OpCodes) (rsp_data : RSP_Data_Encoding)
    (r : Request) : option Request :=
  match op with
  | RdCurr => Some (set_cxl_cache None (respond_data r))
  | RdOwn => Some (respond_data (respond GO RSP_Exclusive r))
  | RdShared => Some (respond_data (respond GO rsp_data r))
  | RdAny => Some (respond_data (respond GO rsp_data r))
  | RdOwnNoData => Some (respond GO RSP_Exclusive r)
  | _ => None
  end.

(** The remaining branches of [makeCXLResp], [ItoMWr] to [CacheFlushed]. *)
Definition makeCXLResp_write (op : D2H_Req_OpCodes) (r : Request) : Request :=
  match op with
  | ItoMWr => respond GO_WritePull RSP_Modified r
  | WrCur => respond GO_WritePull RSP_Modified r
  | CLFlush => respond GO RSP_Invalid r
  | D2H_CleanEvict => respond GO_WritePull RSP_Invalid r
  | DirtyEvict => respond GO_WritePull RSP_Invalid r
  | CleanEvictNoData => r
  | WOWrInv => respond Fast_GO_writePull RSP_Invalid r
  | WOWrInvF => respond Fast_GO_writePull RSP_Invalid r
  | WrInv => respond WritePull RSP_Invalid r
  | CacheFlushed => respond GO RSP_Invalid r
  | _ => r
  end.

(** [bool PciBridge::HomeAgent::makeCXLResp(PacketPtr pkt)]. *)
Definition makeCXLResp (pkt : Packet) : outcome (bool * Packet) :=
  let! c := get_cxl_cache pkt in
  let rsp_data := if hasSharers pkt then RSP_Shared else RSP_Exclusive in
  match cxl_cache_type c with
  | _D2H_Req =>
      let! m := as_D2H_Req c in
      let op := d2hreq_Opcode m in
      Ok (true, upd_req (fun r => match makeCXLResp_read op rsp_data r with
                                  | Some r' => r'
                                  | None => makeCXLResp_write op r
                                  end) pkt)
  | _ => Err Panic
  end.

(** The request that [checkCoherence] and [checkCoherenceTiming] build from the
    opcode of the device, with the metadata value of its branch. *)
Definition coherence_fwd (op : D2H_Req_OpCodes) (a : Z) : outcome CXL_Req :=
  let mk o v := Ok (new_M2S_Req o SnpTypes_No_Op Meta0_State v 0 a 0 0 0 0 TC_Reserved) in
  match op with
  | RdCurr => mk MemRdFwd Any
  | RdShared => mk MemRdFwd MetaValue_Shared
  | RdAny => mk MemRdFwd MetaValue_Shared
  | RdOwn | RdOwnNoData => mk MemRdFwd Invalied
  | WOWrInv | WOWrInvF => mk MemWrFwd Invalied
  | _ => Err Panic
  end.

(** [m2s_req->meta_value = v]. *)
Definition set_req_meta_value (v : MetaValue) (r : CXL_Req) : CXL_Req :=
  match mem_body r with
  | MReq m => mkCXL_Req (cxl_req_type r) (mem_link_type r) (mem_last_resp r)
      (MReq (mkM2S_Req (req_valid m) (req_memOpcode m) (req_snp_type m) (req_meta_filed m) v
        (req_tag m) (req_address_51_6_5 m) (req_ld_id m) (req_spid m) (req_dpid m)
        (req_rsvd m) (req_tc m)))
  | _ => r
  end.

(** [void PciBridge::HomeAgent::checkCoherenceTiming(PacketPtr pkt)]. *)
Definition checkCoherenceTiming (pkt : Packet) : outcome Packet :=
  let! c := get_cxl_cache pkt in
  match cxl_cache_type c with
  | _D2H_Req =>
      let! m := as_D2H_Req c in
      let! a := getAddr pkt in
      let! m2s_req := coherence_fwd (d2hreq_Opcode m) a in
      let m2s_req := if hasSharers pkt then set_req_meta_value MetaValue_Shared m2s_req
                     else set_req_meta_value Invalied m2s_req in
      Ok (upd_req (fun r => set_cxl_req (Some m2s_req)
            (set_cxl_packet_type HostBiasCheck (set_cxl_cache None r))) pkt)
  | _ => Err Panic
  end.

(** [bool PciBridge::HomeAgent::makeCXLData(PacketPtr pkt)]. *)
Definition makeCXLData (pkt : Packet) : outcome (bool * Packet) :=
  let! d := get_data_atomic2 pkt in
  if negb (cache_last_data d) then
    Ok (true, upd_req (fun r => set_cxl_cache None (set_cxl_data_atomic2 None r)) pkt)
  else
    Ok (true, upd_req (fun r => set_cxl_data_atomic2 None (respond ExtCmp RSP_Invalid r)) pkt).

(** [bool PciBridge::HomeAgent::makeCXLSnpReq(PacketPtr snoop_pkt)]: for any
    other command the opcode is passed on uninitialised. *)
Definition makeCXLSnpReq (snoop_pkt : Packet) : outcome (bool * Packet) :=
  let! opcode :=
    match cmd snoop_pkt with
    | ReadSharedReq => Ok H2D_SnpData
    | ReadExReq => Ok H2D_SnpInv
    | _ => Err Undefined
    end in
  let! a := getAddr snoop_pkt in
  let h2d_req := new_H2D_Req opcode a 0 0 0 0 0 in
  Ok (true, upd_req (fun r => set_cxl_cache (Some h2d_req)
                                (set_cxl_packet_type CXLcacheH2DReq r)) snoop_pkt).

(** [void PciBridge::HomeAgent::reciveCXL(PacketPtr pkt)]. *)
Definition reciveCXL (pkt : Packet) : outcome Packet :=
  match cxl_cache (req pkt) with
  | Some c =>
      if 0xA0000000 <=? cache_getAddr c then
        let! (checkCXLPkt, pkt) := makeCXLResp pkt in
        do! panic_if (negb checkCXLPkt) then Ok pkt
      else Ok pkt
  | None =>
      match cxl_data_atomic2 (req pkt) with
      | Some _ =>
          let! (checkCXLPkt, pkt) := makeCXLData pkt in
          do! panic_if (negb checkCXLPkt) then Ok pkt
      | None => Ok pkt
      end
  end.

(** [bool PciBridge::HomeAgent::sinkPacket(const PacketPtr pkt) const]; the
    disjuncts are evaluated from left to right. *)
Definition sinkPacket (pkt : Packet) : outcome bool :=
  if cacheResponding pkt then Ok true
  else if negb (isRead (cmd pkt) || isWrite (cmd pkt)) && negb (needsResponse (cmd pkt)) then Ok true
  else if isCleanEviction pkt && isBlockCached pkt then Ok true
  else if cacheResponding pkt then
    let! w := needsWritable pkt in
    if negb w then Ok true else Ok (responderHadWritable pkt)
  else Ok false.

Section Snoop.
(** [slavePort.sendAtomicSnoop(pkt)]: the caches of the host, behind the port;
    the packet as they leave it and the latency. *)
Variable sendAtomicSnoop : Packet -> outcome (Packet * Z).

(** [PciBridge::forwardAtomic]: the saved response command, the latency, and the
    packet. *)
Definition forwardAtomic (pkt : Packet) : outcome (Command * Z * Packet) :=
  let orig_cmd := cmd pkt in
  let! _ := getAddr pkt in
  let! (pkt, latency) := sendAtomicSnoop pkt in
  if isResponse (cmd pkt) then
    do! assert_ (negb (bool_decide (cmd pkt = orig_cmd))) then
    do! assert_ (cacheResponding pkt) then
    Ok (cmd pkt, latency, set_cmd orig_cmd pkt)
  else Ok (InvalidCmd, 0, pkt).

(** [Tick PciBridge::HomeAgent::checkCoherence(PacketPtr pkt)]. *)
Definition checkCoherence (pkt : Packet) : outcome (Z * Packet) :=
  let! c := get_cxl_cache pkt in
  match cxl_cache_type c with
  | _D2H_Req =>
      let! (snoop_response_cmd, snoop_response_latency, pkt) := forwardAtomic pkt in
      let pkt := if bool_decide (snoop_response_cmd <> InvalidCmd)
                 then set_cmd snoop_response_cmd pkt else pkt in
      let! c := get_cxl_cache pkt in
      let! m := as_D2H_Req c in
      let! a := getAddr pkt in
      let! m2s_req := coherence_fwd (d2hreq_Opcode m) a in
      let m2s_req := if hasSharers pkt then set_req_meta_value MetaValue_Shared m2s_req
                     else set_req_meta_value Invalied m2s_req in
      Ok (snoop_response_latency,
          upd_req (fun r => set_cxl_req (Some m2s_req)
            (set_cxl_packet_type HostBiasCheck (set_cxl_cache None r))) pkt)
  | _ => Err Panic
  end.
End Snoop.

(** * Host requests *)

(** The commands the home agent translates. *)
Definition cxl_mem_cmd (c : Command) : bool :=
  match c with ReadReq | ReadExReq | ReadSharedReq | WriteReq => true | _ => false end.

(** The CXL.mem message a host command is carried by: the class, the metadata
    value and the snoop type. *)
Definition host_message (c : Command) (a : Z) : CXL_Req :=
  match c with
  | ReadExReq => new_M2S_Req MemRd SnpInv Meta0_State Any 0 a 0 0 0 0 TC_Reserved
  | ReadSharedReq => new_M2S_Req MemRd SnpData Meta0_State MetaValue_Shared 0 a 0 0 0 0 TC_Reserved
  | WriteReq => new_M2S_RwD MemWr SnpTypes_No_Op Meta0_State Any 0 a false false 0 0 0 0 TC_Reserved
  | _ => new_M2S_Req MemRd SnpTypes_No_Op MetaFiled_No_Op Any 0 a 0 0 0 0 TC_Reserved
  end.

Lemma makeCXLPacket_eq pkt : flag_isSet VALID_ADDR pkt = true ->
  makeCXLPacket pkt =
    if cxl_mem_cmd (cmd pkt) then
      Ok (true, upd_req (fun r => set_cxl_req (Some (host_message (cmd pkt) (addr pkt)))
                                    (set_cxl_packet_type CXLmemPacket r)) pkt)
    else Ok (false, pkt).
Proof.
  intros Hv. unfold makeCXLPacket, getAddr, assert_. rewrite Hv.
  destruct (cmd pkt); reflexivity.
Qed.

(** The home agent translates exactly the plain, exclusive and shared reads
    and the plain write, and refuses every other command without touching the
    packet.  The message it attaches names the packet's own address, its tag
    agrees with its class, it is a data-carrying class exactly for a write, and
    nothing of the packet but the CXL message and its kind changes. *)
Theorem makeCXLPacket_spec pkt :
  flag_isSet VALID_ADDR pkt = true -> in_width 64 (addr pkt) ->
  exists b pkt', makeCXLPacket pkt = Ok (b, pkt') /\
    b = cxl_mem_cmd (cmd pkt) /\
    (b = false -> pkt' = pkt) /\
    cmd pkt' = cmd pkt /\ addr pkt' = addr pkt /\ flags pkt' = flags pkt /\
    cxl_cache (req pkt') = cxl_cache (req pkt) /\
    (b = true -> cxl_packet_type (req pkt') = CXLmemPacket /\
       exists r, cxl_req (req pkt') = Some r /\ mem_getAddr r = addr pkt /\ mem_last_resp r = 1 /\
         (if isWrite (cmd pkt)
          then cxl_req_type r = _M2S_RwD /\ is_ok (as_M2S_RwD r) = true
          else cxl_req_type r = _M2S_Req /\ is_ok (as_M2S_Req r) = true)).
Proof.
  intros Hv Ha. rewrite makeCXLPacket_eq by done.
  destruct (cxl_mem_cmd (cmd pkt)) eqn:E; do 2 eexists; (split; [done |]); split_and!; try done.
  intros _. split; [done |]. eexists. split; [done |].
  destruct (cmd pkt); try done; cbn [host_message];
    (split; [cbn; by apply wrap_small |]); split; done.
Qed.

Lemma makeCXLPacket_spec_witness :
  exists b pkt', makeCXLPacket (mkPacket 0 ReadExReq 0x300 0x80000040 false 64 0 0 0 [] (new_Request 1)) = Ok (b, pkt') /\
    b = true /\ cmd pkt' = ReadExReq.
Proof.
  destruct (makeCXLPacket_spec (mkPacket 0 ReadExReq 0x300 0x80000040 false 64 0 0 0 [] (new_Request 1)))
    as (b & p & H1 & H2 & _ & H3 & _); [reflexivity | unfold in_width; simpl; lia |].
  exists b, p. split; [exact H1 | split; [exact H2 | exact H3]].
Defined.

(** * Answers to the device *)

(** The device requests that are answered with data, and those for which the
    host pulls data from the device. *)
Definition reads_data (op : D2H_Req_OpCodes) : bool :=
  match op with RdCurr | RdOwn | RdShared | RdAny => true | _ => false end.
Definition pulls_data (op : D2H_Req_OpCodes) : bool :=
  match op with
  | ItoMWr | WrCur | D2H_CleanEvict | DirtyEvict | WOWrInv | WOWrInvF | WrInv => true
  | _ => false
  end.

(** Opcodes of responses that ask the device for data. *)
Definition is_writepull (o : H2D_Resp_Opcodes) : bool :=
  match o with
  | WritePull | GO_WritePull | Fast_GO_writePull | GO_WritePull_Drop => true | _ => false
  end.

(** The host answers every CXL.cache request of the device.  Data is sent
    exactly for the four data reads; a response message (none for [RdCurr], and
    the request itself stays for [CleanEvictNoData]) is the last one and asks
    for data exactly for the seven writing opcodes; exclusive ownership is
    granted only on an ownership request or when no other sharer exists; the
    packet's command, address and flags stay. *)
Theorem makeCXLResp_spec pkt c m :
  cxl_cache (req pkt) = Some c -> cxl_cache_type c = _D2H_Req -> cache_body c = CD2HReq m ->
  cxl_data_atomic2 (req pkt) = None ->
  let op := d2hreq_Opcode m in
  exists pkt', makeCXLResp pkt = Ok (true, pkt') /\
    cmd pkt' = cmd pkt /\ addr pkt' = addr pkt /\ flags pkt' = flags pkt /\
    (is_Some (cxl_data_atomic2 (req pkt')) <-> reads_data op = true) /\
    (cxl_packet_type (req pkt') = CXLcacheDataPacket <-> reads_data op = true \/
       op = CleanEvictNoData /\ cxl_packet_type (req pkt) = CXLcacheDataPacket) /\
    match cxl_cache (req pkt') with
    | None => op = RdCurr
    | Some c' => if decide (op = CleanEvictNoData) then c' = c else
        cxl_cache_type c' = _H2D_Resp /\ cache_last_resp c' = 1 /\
        exists h, cache_body c' = CH2DResp h /\
          is_writepull (h2dresp_opcode h) = pulls_data op /\
          (h2dresp_RspData h = RSP_Exclusive ->
             op = RdOwn \/ op = RdOwnNoData \/ hasSharers pkt = false)
    end.
Proof.
  intros Hc Ht Hb Hd op. unfold makeCXLResp, get_cxl_cache. rewrite Hc. cbn [obind].
  rewrite Ht. unfold as_D2H_Req. rewrite Hb. cbn [obind]. fold op.
  eexists. split; [done |]. split_and!; try done.
  - cbn [upd_req set_req req]. destruct op; cbn; rewrite ?Hd;
      (split; intros H; [first [done | by destruct H] | first [discriminate H | by eexists]]).
  - cbn [upd_req set_req req]. destruct op; cbn; intuition congruence.
  - cbn [upd_req set_req req]. destruct op eqn:Eop; cbn;
      (first [ done
             | (split; [done |]; split; [done |]; eexists; split; [done |]; split; [done |]; cbn;
                destruct (hasSharers pkt); intuition congruence)
             | (rewrite Hc; done) ]).
Qed.

Lemma makeCXLResp_spec_witness :
  exists pkt', makeCXLResp (mkPacket 0 ReadSharedReq 0x301 0xA0000040 false 64 0 0 0 []
      (set_cxl_cache (Some (new_D2H_Req RdShared 1 false 0 0xA0000040 0 0 0)) (new_Request 1)))
    = Ok (true, pkt') /\ is_Some (cxl_data_atomic2 (req pkt')).
Proof.
  destruct (makeCXLResp_spec (mkPacket 0 ReadSharedReq 0x301 0xA0000040 false 64 0 0 0 []
      (set_cxl_cache (Some (new_D2H_Req RdShared 1 false 0 0xA0000040 0 0 0)) (new_Request 1)))
    (new_D2H_Req RdShared 1 false 0 0xA0000040 0 0 0)
    (mkD2H_Req true RdShared 1 false 0 0xA0000040 0 0 0)) as (p & H1 & _ & _ & _ & H2 & _);
    [reflexivity | reflexivity | reflexivity | reflexivity |].
  exists p. split; [exact H1 | apply H2; reflexivity].
Defined.

(** * Coherence checks *)

(** The opcodes the coherence check accepts. *)
Definition checked_op (op : D2H_Req_OpCodes) : bool :=
  match op with
  | RdCurr | RdShared | RdAny | RdOwn | RdOwnNoData | WOWrInv | WOWrInvF => true
  | _ => false
  end.

(** The forwarded request that a check answers with. *)
Definition fwd_answer (op : D2H_Req_OpCodes) (shared : bool) (a : Z) : CXL_Req :=
  new_M2S_Req (match op with WOWrInv | WOWrInvF => MemWrFwd | _ => MemRdFwd end)
    SnpTypes_No_Op Meta0_State (if shared then MetaValue_Shared else Invalied)
    0 a 0 0 0 0 TC_Reserved.

Definition check_result (op : D2H_Req_OpCodes) (pkt : Packet) : Packet :=
  upd_req (fun r => set_cxl_req (Some (fwd_answer op (hasSharers pkt) (addr pkt)))
    (set_cxl_packet_type HostBiasCheck (set_cxl_cache None r))) pkt.

Lemma coherence_fwd_meta op a (b : bool) :
  (let! m := coherence_fwd op a in
   Ok (if b then set_req_meta_value MetaValue_Shared m else set_req_meta_value Invalied m)) =
  if checked_op op then Ok (fwd_answer op b a) else Err Panic.
Proof. destruct op, b; reflexivity. Qed.

Lemma checkCoherenceTiming_eq pkt c m :
  cxl_cache (req pkt) = Some c -> cxl_cache_type c = _D2H_Req -> cache_body c = CD2HReq m ->
  flag_isSet VALID_ADDR pkt = true ->
  checkCoherenceTiming pkt =
    if checked_op (d2hreq_Opcode m) then Ok (check_result (d2hreq_Opcode m) pkt) else Err Panic.
Proof.
  intros Hc Ht Hb Hv. unfold checkCoherenceTiming, get_cxl_cache, getAddr, assert_, as_D2H_Req.
  rewrite Hc. cbn [obind]. rewrite Ht, Hb, Hv. cbn [obind].
  pose proof (coherence_fwd_meta (d2hreq_Opcode m) (addr pkt) (hasSharers pkt)) as E.
  destruct (checked_op (d2hreq_Opcode m)), (coherence_fwd (d2hreq_Opcode m) (addr pkt));
    cbn [obind] in *; try done.
  - injection E as ->. done.
  - injection E as ->. done.
Qed.

(** The host caches seen through the snoop port: the snoop answers, and may turn
    the packet into a response (then with the cache-responding flag) and set
    flags, but leaves the address and its validity alone, and of the request it writes
    only the states of the block. *)
Class SnoopPort (snoop : Packet -> outcome (Packet * Z)) : Prop := {
  snoop_answers : forall p, exists p' t, snoop p = Ok (p', t) /\
    addr p' = addr p /\ noted (req p) (req p') /\
    flag_isSet VALID_ADDR p' = flag_isSet VALID_ADDR p /\
    (cmd p' = cmd p \/
     isResponse (cmd p') = true /\ isResponse (cmd p) = false /\ cacheResponding p' = true);
}.

Section Coherence.
Context (snoop : Packet -> outcome (Packet * Z)) `{!SnoopPort snoop}.

(** [forwardAtomic] restores the command and reports the response command. *)
Lemma forwardAtomic_ok pkt : flag_isSet VALID_ADDR pkt = true -> isResponse (cmd pkt) = false ->
  exists p' t c t', snoop pkt = Ok (p', t) /\
    forwardAtomic snoop pkt = Ok (c, t', set_cmd (cmd pkt) p') /\
    (c = InvalidCmd /\ t' = 0 \/ c = cmd p' /\ isResponse c = true /\ t' = t).
Proof.
  intros Hv Hr. destruct (snoop_answers pkt) as (p' & t & Hs & Ha & Hq & Hva & Hcmd).
  exists p', t. unfold forwardAtomic, getAddr, assert_. rewrite Hv, Hs. cbn [obind].
  destruct Hcmd as [Hc | (Hc1 & Hc2 & Hc3)].
  - rewrite Hc, Hr. exists InvalidCmd, 0. split_and!; auto. do 2 f_equal.
    destruct p'; simpl in *; subst; done.
  - rewrite Hc1, Hc3. rewrite bool_decide_eq_false_2 by congruence. cbn [negb obind].
    exists (cmd p'), t. split_and!; auto.
Qed.

(** The check answers on the snooped packet, but for its command. *)
Lemma checkCoherence_ok pkt c m :
  cxl_cache (req pkt) = Some c -> cxl_cache_type c = _D2H_Req -> cache_body c = CD2HReq m ->
  flag_isSet VALID_ADDR pkt = true -> isResponse (cmd pkt) = false ->
  exists p' t cq t', snoop pkt = Ok (p', t) /\ cxl_cache (req p') = cxl_cache (req pkt) /\ addr p' = addr pkt /\
    flag_isSet VALID_ADDR p' = true /\ (t' = 0 \/ t' = t) /\
    checkCoherence snoop pkt =
      if checked_op (d2hreq_Opcode m)
      then Ok (t', check_result (d2hreq_Opcode m) (set_cmd cq p')) else Err Panic.
Proof.
  intros Hc Ht Hb Hv Hr.
  destruct (snoop_answers pkt) as (p' & t & Hs & Ha & Hq & Hva & _).
  destruct (forwardAtomic_ok pkt Hv Hr) as (p2 & t2 & cc & t' & Hs2 & Hf & Hcase).
  rewrite Hs in Hs2. injection Hs2 as <- <-.
  exists p', t, (if bool_decide (cc <> InvalidCmd) then cc else cmd pkt), t'.
  assert (Hcc : cxl_cache (req p') = cxl_cache (req pkt)) by (by destruct Hq as (o & n & ->)).
  split_and!; try done; [congruence | intuition congruence |].
  unfold checkCoherence, get_cxl_cache at 1. rewrite Hc. cbn [obind]. rewrite Ht, Hf. cbn [obind].
  replace (if bool_decide (cc <> InvalidCmd) then set_cmd cc (set_cmd (cmd pkt) p')
           else set_cmd (cmd pkt) p')
    with (set_cmd (if bool_decide (cc <> InvalidCmd) then cc else cmd pkt) p')
    by (by destruct (bool_decide _)).
  set (q := set_cmd _ p'). change (req p') with (req q) in Hcc.
  unfold get_cxl_cache, getAddr, assert_, as_D2H_Req. rewrite Hcc, Hc. cbn [obind].
  change (flag_isSet VALID_ADDR q) with (flag_isSet VALID_ADDR p'). rewrite Hb, Hva, Hv. cbn [obind].
  pose proof (coherence_fwd_meta (d2hreq_Opcode m) (addr q) (hasSharers q)) as E.
  destruct (checked_op (d2hreq_Opcode m)), (coherence_fwd (d2hreq_Opcode m) (addr q));
    cbn [obind] in *; try done; injection E as ->; done.
Qed.

(** C15: a coherence check of a device access to memory in host bias, for a packet with an
    address that is no response, answers with a forwarded request for the packet's own
    address exactly for the seven accepted opcodes and panics for the others.  Whatever the
    opcode asked for, the metadata value of the answer says [Shared] when the snooped host
    caches report sharers and [Invalied] when they do not; the atomic check gives the
    answer of the timing check on the snooped packet.  The snooped caches may write the
    states of the block to the request object, as they do on a hit, set flags and turn the
    packet into a response; they keep the address. *)
Theorem checkCoherence_spec pkt c m :
  cxl_cache (req pkt) = Some c -> cxl_cache_type c = _D2H_Req -> cache_body c = CD2HReq m ->
  flag_isSet VALID_ADDR pkt = true -> isResponse (cmd pkt) = false ->
  exists p' t, snoop pkt = Ok (p', t) /\
    if checked_op (d2hreq_Opcode m) then
      exists lat res, checkCoherence snoop pkt = Ok (lat, res) /\ (lat = 0 \/ lat = t) /\
        checkCoherenceTiming p' = Ok (set_cmd (cmd p') res) /\
        cxl_packet_type (req res) = HostBiasCheck /\ cxl_cache (req res) = None /\
        cxl_req (req res) = Some (fwd_answer (d2hreq_Opcode m) (hasSharers p') (addr pkt))
    else checkCoherence snoop pkt = Err Panic.
Proof.
  intros Hc Ht Hb Hv Hr.
  destruct (checkCoherence_ok pkt c m Hc Ht Hb Hv Hr) as (p' & t & cq & t' & Hs & Hq & Ha & Hvp & Hlat & ->).
  exists p', t. split; [done |]. destruct (checked_op (d2hreq_Opcode m)) eqn:Ho; [| done].
  do 2 eexists. split; [done |]. split_and!; try done.
  - rewrite (checkCoherenceTiming_eq p' c m), Ho; [done | congruence | done | done | done].
  - unfold check_result. cbn. by rewrite Ha.
Qed.

End Coherence.

(** Host caches that hold no copy: the snoop returns the packet as it is. *)
Definition quiet_snoop (p : Packet) : outcome (Packet * Z) := Ok (p, 0).

#[export] Instance quiet_SnoopPort : SnoopPort quiet_snoop.
Proof. constructor. intros p. exists p, 0. split_and!; auto. Qed.

(** Host caches of which one shares the line, and notes that it was exclusive. *)
Definition sharing_snoop (p : Packet) : outcome (Packet * Z) :=
  Ok (setHasSharers (upd_req (fun r => set_new_state 1 (set_old_state 5 r)) p), 7).

#[export] Instance sharing_SnoopPort : SnoopPort sharing_snoop.
Proof.
  constructor. intros p. eexists _, 7. split; [reflexivity |]. split_and!; [done | by exists 5, 1 | | by left].
  unfold flag_isSet, setHasSharers, flag_set, set_flags. cbn [flags]. f_equal.
  zbitwise. destruct (Z.testbit VALID_ADDR i) eqn:E; [| by rewrite !andb_false_r].
  rewrite !andb_true_r. destruct (Z.testbit HAS_SHARERS i) eqn:E1; [| by rewrite orb_false_r].
  exfalso. change VALID_ADDR with (2 ^ 8) in E. change HAS_SHARERS with (2 ^ 0) in E1.
  rewrite Z.pow2_bits_eqb in E, E1 by lia. zcases; lia || done.
Qed.

Definition probe : Packet := mkPacket 0 ReadExReq 0x300 0x80001040 false 64 0 0 0 []
  (set_cxl_cache (Some (new_D2H_Req RdOwn 1 false 0 0x80001040 0 0 0))
     (set_cxl_packet_type HostBiasCheck (new_Request 1))).

Lemma checkCoherence_spec_witness :
  exists p' t, sharing_snoop probe = Ok (p', t) /\
    exists lat res, checkCoherence sharing_snoop probe = Ok (lat, res) /\
      cxl_req (req res) = Some (fwd_answer RdOwn (hasSharers p') (addr probe)).
Proof.
  destruct (checkCoherence_spec sharing_snoop probe (new_D2H_Req RdOwn 1 false 0 0x80001040 0 0 0)
    (mkD2H_Req true RdOwn 1 false 0 0x80001040 0 0 0)) as (p' & t & H1 & lat & res & H2 & _ & _ & _ & _ & H3);
    [reflexivity | reflexivity | reflexivity | reflexivity | reflexivity |].
  exists p', t. split; [exact H1 |]. exists lat, res. split; [exact H2 | exact H3].
Defined.
