(* ===== verification/DCOH.v ===== *)
(** The device coherence engine and the handlers of the CXL device:
    [src/gem5/src/dev/cxl/TestDev/CXLDevice.cc] and [CXLDevice.hh].

    The engine's state is the bias table (page number to bias bit, true for host
    bias) and the pending-data registers.  A handler takes the state and the
    packet and returns both changed, with its result; an error path returns
    no state, as the simulation ends there.  The two memory-side ports of the
    device are parameters of the handlers that use them. *)
From Stdlib Require Import ZArith Lia.
From stdpp Require Import base numbers list gmap.
From S2P Require Import Prelude AddrRange CxlPacket MemPacket HomeAgent.

Open Scope Z_scope.

(** * State *)

Record DCOH : Type := mkDCOH {
  need_data : bool;
  data_dest_addr : Z;
  Bias_Table : gmap Z bool;
}.

Definition set_Bias_Table (t : gmap Z bool) (d : DCOH) : DCOH :=
  mkDCOH (need_data d) (data_dest_addr d) t.

(** [CXLDevice::DCOH::DCOH]; [data_dest_addr] is set before it is read. *)
Definition new_DCOH : DCOH := mkDCOH false 0 ∅.

(** [bool is_device_mem(Addr addr)]. *)
Definition is_device_mem (a : Z) : bool := (0x80000000 <=? a) && (a <? 0xA0000000).

(** [void CXLDevice::DCOH::set_bias_mode(Addr addr, bool bias_bit)]. *)
Definition set_bias_mode (a : Z) (bias_bit : bool) (d : DCOH) : outcome DCOH :=
  do! assert_ ((0x80000000 <=? a) && (a <? 0xa0000000)) then
  let page_num := Z.shiftr a 12 in
  if bool_decide (Bias_Table d !! page_num = Some bias_bit) then Ok d
  else Ok (set_Bias_Table (<[page_num := bias_bit]> (Bias_Table d)) d).

(** [bool CXLDevice::DCOH::is_host_bias_mode(Addr addr)]: a page without an entry
    is entered in host bias. *)
Definition is_host_bias_mode (a : Z) (d : DCOH) : outcome (bool * DCOH) :=
  do! assert_ ((0x80000000 <=? a) && (a <? 0xa0000000)) then
  let page_num := Z.shiftr a 12 in
  match Bias_Table d !! page_num with
  | Some bias_state => Ok (bias_state, d)
  | None => let! d := set_bias_mode a true d in Ok (true, d)
  end.

(** [Tick ExternalPort_cxl::recvBiasAtomic(addr, originAddr, int* bias_mode,
    bool get_set)]: the latency, the value behind [bias_mode], and the state. *)
Definition recvBiasAtomic (originAddr bias_mode : Z) (get_set : bool) (d : DCOH)
    : outcome (Z * Z * DCOH) :=
  if negb get_set then
    let! (host, d) := is_host_bias_mode originAddr d in
    Ok (1000, if host then 1 else 2, d)
  else if bias_mode =? 1 then
    let! d := set_bias_mode originAddr true d in Ok (1000, bias_mode, d)
  else if bias_mode =? 2 then
    let! d := set_bias_mode originAddr false d in Ok (1000, bias_mode, d)
  else Err Panic.

(** * Requests of the device *)

(** [void CXLDevice::DCOH::makeCXLrequest(PacketPtr pkt)], also
    [CXLDevice::makeRequest]; with its test-case switches. *)
Definition makeCXLrequest (pkt : Packet) : outcome Packet :=
  let ReadCur := false in
  let ReadShared := true in
  let ReadAny := true in
  let ReadOwn := true in
  let CLFlush_ := true in
  let ReadOwnNoData := false in
  let! req_opcode :=
    match cmd pkt with
    | ReadExReq => if ReadOwn then Ok RdOwn else Err Undefined
    | ReadSharedReq => if ReadShared then Ok RdShared else Err Undefined
    | FlushReq => if CLFlush_ then Ok CLFlush else Err Undefined
    | _ =>
        if ReadCur then Ok RdCurr
        else if ReadAny then Ok RdAny
        else if ReadOwnNoData then Ok RdOwnNoData
        else Err Fatal
    end in
  let! a := getAddr pkt in
  let d2h_req := new_D2H_Req req_opcode 1 false 0 a 0 0 0 in
  Ok (upd_req (fun r =>
        let r := if bool_decide (cxl_packet_type r <> HostBiasCheck)
                 then set_cxl_packet_type CXLcachePacket r else r in
        set_cxl_cache (Some d2h_req) r) pkt).

(** [void CXLDevice::DCOH::makeCXLData(PacketPtr pkt, bool lastpkt)], also
    [CXLDevice::makeDataPkt]. *)
Definition dcoh_makeCXLData (pkt : Packet) (lastpkt : bool) : Packet :=
  let d2h_data := new_D2H_Data 0 false false false false 0 0 in
  let d2h_data := set_cache_last_data (if negb lastpkt then false else true) d2h_data in
  upd_req (fun r => set_cxl_data_atomic2 (Some d2h_data)
                      (set_cxl_packet_type CXLcacheDataPacket r)) pkt.

(** [void CXLDevice::ReservedData(PacketPtr pkt)]. *)
Definition ReservedData (pkt : Packet) (d : DCOH) : outcome DCOH :=
  let! c := get_cxl_cache pkt in
  let! m := as_H2D_Resp c in
  let writepull :=
    match h2dresp_opcode m with
    | Fast_GO_writePull => true
    | GO_WritePull => true
    | GO_WritePull_Drop => true
    | WritePull => true
    | _ => false
    end in
  if writepull then
    let! a := getAddr pkt in Ok (mkDCOH true a (Bias_Table d))
  else Ok d.

(** * Responses to the host *)

(** [new S2M_NDR(op, mf, mv, 0, 0, LightLoad, 0, 0)]. *)
Definition ndr (op : S2M_NDR_Opcodes) (mf : MetaFiled) (mv : MetaValue) : CXL_Req :=
  new_S2M_NDR op mf mv 0 0 LightLoad 0 0.

(** The [MemInv]/[MemInvNT] branch of [makeCXLresponse]: the response and the
    bias update. *)
Definition resp_MemInv (a : Z) (mf : MetaFiled) (mv : MetaValue) (snp : M2S_SnpTypes) (d : DCOH)
    : outcome (CXL_Req * DCOH) :=
  let! (s2m_ndr, d) :=
    match mf with
    | MetaFiled_No_Op =>
        match snp with
        | SnpInv => Ok (ndr Cmp MetaFiled_No_Op Invalied, d)
        | _ => Err Panic
        end
    | Meta0_State =>
        match snp with
        | SnpInv =>
            match mv with
            | Invalied => Ok (ndr Cmp MetaFiled_No_Op Invalied, d)
            | Any => let! d := set_bias_mode a true d in Ok (ndr Cmp_E MetaFiled_No_Op Any, d)
            | _ => Err Panic
            end
        | SnpData =>
            match mv with
            | MetaValue_Shared =>
                let! d := set_bias_mode a true d in Ok (ndr Cmp_S MetaFiled_No_Op Any, d)
            | _ => Err Panic
            end
        | _ => Err Panic
        end
    end in
  Ok (set_mem_last_resp 1 s2m_ndr, d).

(** The [MemRd] branch of [makeCXLresponse]. *)
Definition resp_MemRd (a : Z) (mf : MetaFiled) (mv : MetaValue) (snp : M2S_SnpTypes) (d : DCOH)
    : outcome (CXL_Req * DCOH) :=
  let! (s2m_ndr, d) :=
    match mf with
    | Meta0_State =>
        match mv with
        | Any =>
            match snp with
            | SnpInv => let! d := set_bias_mode a true d in Ok (ndr Cmp_E MetaFiled_No_Op Any, d)
            | _ => Err Panic
            end
        | MetaValue_Shared =>
            match snp with
            | SnpData => let! d := set_bias_mode a true d in Ok (ndr Cmp_S MetaFiled_No_Op Any, d)
            | _ => Err Panic
            end
        | Invalied =>
            match snp with
            | SnpInv => Ok (ndr Cmp MetaFiled_No_Op Any, d)
            | SnpCur => Ok (ndr Cmp MetaFiled_No_Op Any, d)
            | _ => Err Panic
            end
        end
    | MetaFiled_No_Op =>
        match snp with
        | SnpInv => Ok (ndr Cmp MetaFiled_No_Op Any, d)
        | SnpCur => Ok (ndr Cmp MetaFiled_No_Op Any, d)
        | SnpTypes_No_Op => Ok (ndr Cmp MetaFiled_No_Op Any, d)
        | _ => Err Panic
        end
    end in
  Ok (set_mem_last_resp 0 s2m_ndr, d).

(** The [MemClnEvct] branch of [makeCXLresponse]. *)
Definition resp_MemClnEvct (mf : MetaFiled) (mv : MetaValue) (snp : M2S_SnpTypes) (d : DCOH)
    : outcome (CXL_Req * DCOH) :=
  do! panic_if (bool_decide (mf = MetaFiled_No_Op)) then
  match snp with
  | SnpTypes_No_Op =>
      match mv with
      | Any => Ok (set_mem_last_resp 1 (ndr Cmp MetaFiled_No_Op Invalied), d)
      | _ => Err Panic
      end
  | _ => Err Panic
  end.

(** The [MemRdData] branch of [makeCXLresponse]. *)
Definition resp_MemRdData (a : Z) (snp : M2S_SnpTypes) (d : DCOH) : outcome (CXL_Req * DCOH) :=
  match snp with
  | SnpData =>
      let! d := set_bias_mode a true d in
      Ok (set_mem_last_resp 0 (ndr Cmp_E Meta0_State Invalied), d)
  | _ => Err Panic
  end.

(** The [MemWr]/[MemWrPtl] branch of [makeCXLresponse].  Its outer test compares
    the snoop type with [MetaFiled::Meta0_State], both 0. *)
Definition resp_MemWr (a : Z) (mv : MetaValue) (snp : M2S_SnpTypes) (d : DCOH)
    : outcome (CXL_Req * DCOH) :=
  if M2S_SnpTypes_code snp =? MetaFiled_code Meta0_State then
    let! (s2m_ndr, d) :=
      match mv with
      | Any =>
          match snp with
          | SnpTypes_No_Op =>
              let! d := set_bias_mode a true d in Ok (ndr Cmp MetaFiled_No_Op Invalied, d)
          | _ => Err Panic
          end
      | MetaValue_Shared =>
          match snp with
          | SnpTypes_No_Op =>
              let! d := set_bias_mode a true d in Ok (ndr Cmp MetaFiled_No_Op Invalied, d)
          | _ => Err Panic
          end
      | Invalied =>
          match snp with
          | SnpInv => Ok (ndr Cmp MetaFiled_No_Op Invalied, d)
          | SnpTypes_No_Op => Ok (ndr Cmp MetaFiled_No_Op Invalied, d)
          | _ => Err Panic
          end
      end in
    Ok (set_mem_last_resp 1 s2m_ndr, d)
  else Err Panic.

(** Install a response: [cxl_packet_type = CXLmemPacket], the message with the tag
    [_S2M_NDR]. *)
Definition install_ndr (r : CXL_Req) (pkt : Packet) : Packet :=
  upd_req (fun q => set_cxl_req (Some (set_mem_type _S2M_NDR r))
                      (set_cxl_packet_type CXLmemPacket q)) pkt.

(** [void CXLDevice::DCOH::makeCXLresponse(PacketPtr pkt)].  The opcodes without a
    branch of their own leave the request message in place and only change its
    tag; [BIConflict] and the other message classes are left alone. *)
Definition makeCXLresponse (pkt : Packet) (d : DCOH) : outcome (Packet * DCOH) :=
  let! r := get_cxl_req pkt in
  match cxl_req_type r with
  | _M2S_Req =>
      let! m := as_M2S_Req r in
      let mf := req_meta_filed m in
      let mv := req_meta_value m in
      let snp := req_snp_type m in
      match req_memOpcode m with
      | MemRdFwd | MemWrFwd => Ok (pkt, d)
      | MemInv | MemInvNT =>
          let! a := getAddr pkt in
          let! (s, d) := resp_MemInv a mf mv snp d in Ok (install_ndr s pkt, d)
      | MemRd =>
          let! a := getAddr pkt in
          let! (s, d) := resp_MemRd a mf mv snp d in Ok (install_ndr s pkt, d)
      | MemClnEvct =>
          let! (s, d) := resp_MemClnEvct mf mv snp d in Ok (install_ndr s pkt, d)
      | MemRdData =>
          let! a := getAddr pkt in
          let! (s, d) := resp_MemRdData a snp d in Ok (install_ndr s pkt, d)
      | RESERVED1 | RESERVED2 | RESERVED3 | MemSpecRd =>
          Ok (upd_req (set_cxl_req (Some (set_mem_type _S2M_NDR r))) pkt, d)
      end
  | _M2S_RwD =>
      let! m := as_M2S_RwD r in
      match rwd_memOpcode m with
      | MemWr | MemWrPtl =>
          let! a := getAddr pkt in
          let! (s, d) := resp_MemWr a (rwd_meta_value m) (rwd_snp_type m) d in
          Ok (install_ndr s pkt, d)
      | BIConflict => Ok (pkt, d)
      end
  | _ => Ok (pkt, d)
  end.

(** [void CXLDevice::DCOH::makeMemDataAtomic(PacketPtr pkt)]. *)
Definition makeMemDataAtomic (pkt : Packet) : outcome Packet :=
  let! r := get_cxl_req pkt in
  let! m := as_S2M_NDR r in
  let s2m_drs := new_S2M_DRS MemData (ndr_metafiled m) (ndr_metavalue m) 0 false 0 LightLoad 0 0 in
  let r := set_mem_last_resp 1 (set_mem_type _S2M_DRS r) in
  Ok (upd_req (fun q => set_cxl_req (Some r)
        (set_cxl_data_atomic (Some (set_mem_last_resp 1 s2m_drs))
          (set_cxl_packet_type CXLmemDataPacket q))) pkt).

(** [void CXLDevice::DCOH::makeSnoopResp(PacketPtr pkt)]: the coherence states are
    the three bits writable, dirty, valid of the snooped block. *)
Definition makeSnoopResp (pkt : Packet) : outcome Packet :=
  let old := old_state (req pkt) in
  let new := new_state (req pkt) in
  let! op :=
    if old =? 0 then Ok RspIHitI
    else if ((new =? 1) || (new =? 3)) && (old =? 7) then Ok RspSFwdM
    else if (new =? 0) && (old =? 7) then Ok RspIFwdM
    else if (new =? 0) && ((old =? 1) || (old =? 3) || (old =? 5)) then Ok RspIHitSE
    else if (new =? 1) && ((old =? 1) || (old =? 3) || (old =? 5)) then Ok RspSHitSE
    else if old =? new then
      let! sink := sinkPacket pkt in
      if negb sink then Ok RspVHitV else Ok RspVFwdV
    else Err Panic in
  Ok (upd_req (fun q => set_cxl_cache (Some (set_cache_type _D2H_Resp (new_D2H_Resp op 0 0 0))) q) pkt).

(** * Handlers of the device *)

(** The memory mode of the system ([sys->isAtomicMode()], [sys->isTimingMode()]). *)
Inductive mem_mode : Type := atomic | timing | atomic_noncaching.
Definition isAtomicMode (m : mem_mode) : bool :=
  match m with atomic | atomic_noncaching => true | timing => false end.
Definition isTimingMode (m : mem_mode) : bool :=
  match m with timing => true | _ => false end.

(** The bias update that a forwarded coherence answer (MemRdFwd/MemWrFwd)
    carries, as in [hostSend] and [recvTimingResp]. *)
Definition apply_fwd (pkt : Packet) (d : DCOH) : outcome DCOH :=
  let! r := get_cxl_req pkt in
  let! m := as_M2S_Req r in
  match req_memOpcode m with
  | MemRdFwd | MemWrFwd =>
      match req_meta_filed m with
      | Meta0_State =>
          let! a := getAddr pkt in
          match req_meta_value m with
          | Any => set_bias_mode a true d
          | MetaValue_Shared => set_bias_mode a true d
          | Invalied => set_bias_mode a false d
          end
      | _ => Ok d
      end
  | _ => Ok d
  end.

(** Where a response goes: back to the host through the PIO port, or to the
    internal crossbar through [ex_port]. *)
Inductive resp_dest : Type := ToHost | ToCXLXBar.

(** [bool CXLDevice::recvTimingResp(PacketPtr pkt)]: the packet as it is scheduled
    and its destination. *)
Definition dev_recvTimingResp (pkt : Packet) (d : DCOH) : outcome (resp_dest * Packet * DCOH) :=
  let! pkt_addr := getAddr pkt in
  let! (pkt, d) :=
    if bool_decide (cxl_packet_type (req pkt) <> HostBiasCheck) && is_device_mem pkt_addr then
      let! (pkt, d) := makeCXLresponse pkt d in
      let! r := get_cxl_req pkt in
      if mem_last_resp r =? 0 then
        let! pkt := makeMemDataAtomic pkt in
        do! assert_ (bool_decide (is_Some (cxl_data_atomic (req pkt)))) then Ok (pkt, d)
      else Ok (pkt, d)
    else Ok (pkt, d) in
  let! d := if bool_decide (cxl_packet_type (req pkt) = HostBiasCheck)
            then apply_fwd pkt d else Ok d in
  match cxl_packet_type (req pkt) with
  | CXLmemPacket | CXLmemDataPacket => Ok (ToHost, pkt, d)
  | CXLcachePacket | CXLcacheDataPacket => Ok (ToCXLXBar, pkt, d)
  | HostBiasCheck => Ok (ToCXLXBar, pkt, d)
  | CXLcacheH2DResp => let! pkt := makeSnoopResp pkt in Ok (ToHost, pkt, d)
  | _ => Err Panic
  end.

Section Ports.
(** The memory mode, and the ports: [in_port] leads to the internal crossbar,
    [dmaPort] to the host.  An atomic send returns the packet as the peer
    leaves it and the latency; a timing send, whether the peer accepts it. *)
Variable mode : mem_mode.
Variables in_sendAtomic dma_sendAtomic : Packet -> outcome (Packet * Z).
Variables in_sendTimingReq dma_sendTimingReq : Packet -> bool.

(** [Tick InternalPort::memAction(PacketPtr pkt)]. *)
Definition memAction (pkt : Packet) : outcome (Packet * Z) :=
  if isAtomicMode mode then in_sendAtomic pkt else Err Panic.

(** [bool InternalPort::memActionTiming(PacketPtr pkt, Tick latency)]: the answer
    of the peer and the packet sent. *)
Definition memActionTiming (pkt : Packet) : outcome (bool * Packet) :=
  if isTimingMode mode then
    let pkt := if bool_decide (cxl_packet_type (req pkt) <> HostBiasCheck)
               then upd_req (set_cxl_packet_type CXLcacheH2DResp) pkt else pkt in
    Ok (in_sendTimingReq pkt, pkt)
  else Err Panic.

(** [Tick CXLDevice::ReadData(PacketPtr pkt)]. *)
Definition ReadData (pkt : Packet) : outcome (Packet * Z) :=
  let! a := getAddr pkt in
  if is_device_mem a then memAction pkt
  else if bool_decide (cxl_packet_type (req pkt) = CXLcacheH2DReq) then memAction pkt
  else let! pkt := makeResponse pkt in Ok (pkt, 5780).

(** [Tick CXLDevice::WriteData(PacketPtr pkt)]. *)
Definition WriteData (pkt : Packet) : outcome (Packet * Z) :=
  let! a := getAddr pkt in
  if is_device_mem a then memAction pkt else Err Panic.

(** [bool CXLDevice::ReadDataTiming] and [WriteDataTiming]: the two bodies are the
    same. *)
Definition ReadDataTiming (pkt : Packet) : outcome (bool * Packet) :=
  let! a := getAddr pkt in
  if is_device_mem a then memActionTiming pkt
  else if bool_decide (cxl_packet_type (req pkt) = CXLcacheH2DReq) then memActionTiming pkt
  else Err Panic.
Definition WriteDataTiming (pkt : Packet) : outcome (bool * Packet) :=
  let! a := getAddr pkt in
  if is_device_mem a then memActionTiming pkt
  else if bool_decide (cxl_packet_type (req pkt) = CXLcacheH2DReq) then memActionTiming pkt
  else Err Panic.

(** [Tick CXLDevice::DCOH::recvReq(PacketPtr pkt)]. *)
Definition recvReq (pkt : Packet) (d : DCOH) : outcome (Z * Packet * DCOH) :=
  if bool_decide (cxl_packet_type (req pkt) = CXLcacheH2DReq) then
    let! (pkt, delay) := if isRead (cmd pkt) then ReadData pkt else WriteData pkt in
    let! pkt := makeSnoopResp pkt in
    Ok (delay, pkt, d)
  else
    do! assert_ (bool_decide (is_Some (cxl_req (req pkt)))) then
    let! (pkt, d) := makeCXLresponse pkt d in
    let! (pkt, delay) := if isRead (cmd pkt) then ReadData pkt else WriteData pkt in
    let! r := get_cxl_req pkt in
    if mem_last_resp r =? 0 then
      let! pkt := makeMemDataAtomic pkt in
      do! assert_ (bool_decide (is_Some (cxl_data_atomic (req pkt)))) then
      Ok (delay, pkt, d)
    else Ok (delay, pkt, d).

(** [void CXLDevice::hostSend(PacketPtr pkt)], the body of
    [ExternalPort_cxl::recvAtomic]. *)
Definition hostSend (pkt : Packet) (d : DCOH) : outcome (Packet * DCOH) :=
  let! pkt := if bool_decide (cxl_packet_type (req pkt) <> CXLcacheH2DReq)
              then makeCXLrequest pkt else Ok pkt in
  let! (pkt, _) := dma_sendAtomic pkt in
  if bool_decide (cxl_packet_type (req pkt) = HostBiasCheck)
  then let! d := apply_fwd pkt d in Ok (pkt, d)
  else Ok (pkt, d).

(** [bool CXLDevice::hostSendTiming(PacketPtr pkt)], the body of
    [ExternalPort_cxl::recvTimingReq]. *)
Definition hostSendTiming (pkt : Packet) : outcome (bool * Packet) :=
  let! pkt := if bool_decide (cxl_packet_type (req pkt) = CXLcacheH2DResp)
              then makeSnoopResp pkt else makeCXLrequest pkt in
  Ok (dma_sendTimingReq pkt, pkt).

(** [bool CXLDevice::DCOH::recvTimingReq(PacketPtr pkt)]: for an address below the
    device memory no path returns a value. *)
Definition dcoh_recvTimingReq (pkt : Packet) : outcome (bool * Packet) :=
  let! pkt_addr := getAddr pkt in
  if bool_decide (cxl_packet_type (req pkt) = CXLcacheH2DReq) then
    if isRead (cmd pkt) then ReadDataTiming pkt else WriteDataTiming pkt
  else if (0xa0000000 <=? pkt_addr) || bool_decide (cxl_packet_type (req pkt) = HostBiasCheck) then
    let! pkt := makeCXLrequest pkt in
    Ok (dma_sendTimingReq pkt, pkt)
  else if (0x80000000 <=? pkt_addr) && (pkt_addr <? 0xa0000000) then
    do! assert_ (bool_decide (is_Some (cxl_req (req pkt)))) then
    if isRead (cmd pkt) then ReadDataTiming pkt else WriteDataTiming pkt
  else Err Undefined.

(** [bool CXLDevice::DCOH::recvCoherentCheckReq(PacketPtr pkt)]. *)
Definition recvCoherentCheckReq (pkt : Packet) : outcome (bool * Packet) :=
  if isRead (cmd pkt) then ReadDataTiming pkt else WriteDataTiming pkt.

(** [Tick CXLDevice::callDCOH(PacketPtr pkt)], the body of [read] and [write]: in
    timing mode the latency is the acceptance flag of the send. *)
Definition callDCOH (pkt : Packet) (d : DCOH) : outcome (Z * Packet * DCOH) :=
  if isTimingMode mode then
    let! (b, pkt) :=
      if bool_decide (cxl_packet_type (req pkt) = HostBiasCheck)
      then recvCoherentCheckReq pkt else dcoh_recvTimingReq pkt in
    Ok (if b : bool then 1 else 0, pkt, d)
  else if isAtomicMode mode then recvReq pkt d
  else Err Undefined.
End Ports.

(** [AddrRangeList CXLDevice::getAddrRanges() const]. *)
Definition dev_getAddrRanges (pioSize : Z) : outcome (list AddrRange) :=
  do! assert_ (negb (pioSize =? 0)) then
  Ok [RangeSize 0x15000000 0x40000; RangeSize 0x80000000 0x20000000].

(** [AddrRangeList ExternalPort_cxl::getAddrRanges() const]. *)
Definition ex_getAddrRanges (pioSize : Z) : outcome (list AddrRange) :=
  let! ranges := dev_getAddrRanges pioSize in
  Ok (removelast ranges ++ [RangeSize 0xA0000000 0x20000000]).

(** * The bias table *)

(** Abstract specification: the bias of a page of device memory is host bias
    unless it has been given to the device. *)
Definition bias_of (d : DCOH) (a : Z) : bool :=
  default true (Bias_Table d !! Z.shiftr a 12).

Lemma is_device_mem_spec a : is_device_mem a = true <-> 0x80000000 <= a < 0xA0000000.
Proof. unfold is_device_mem. rewrite andb_true_iff, Z.leb_le, Z.ltb_lt. done. Qed.

(** Setting the bias of one page succeeds on device memory, changes the bias of
    exactly that page, and touches nothing else. *)
Lemma set_bias_mode_ok a b d : is_device_mem a = true ->
  exists d', set_bias_mode a b d = Ok d' /\
    need_data d' = need_data d /\ data_dest_addr d' = data_dest_addr d /\
    Bias_Table d' = <[Z.shiftr a 12 := b]> (Bias_Table d).
Proof.
  intros Ha. unfold set_bias_mode, assert_. unfold is_device_mem in Ha. rewrite Ha.
  cbn [obind]. case_bool_decide as E.
  - exists d. split_and!; auto. symmetry. by apply insert_id.
  - eexists. split_and!; done.
Qed.

Lemma set_bias_mode_err a b d : is_device_mem a = false -> set_bias_mode a b d = Err AssertFail.
Proof. intros Ha. unfold set_bias_mode, is_device_mem in *. rewrite Ha. done. Qed.

Lemma bias_of_insert d d' a b x :
  Bias_Table d' = <[Z.shiftr a 12 := b]> (Bias_Table d) ->
  bias_of d' x = if Z.shiftr x 12 =? Z.shiftr a 12 then b else bias_of d x.
Proof.
  intros E. unfold bias_of. rewrite E. destruct (Z.eqb_spec (Z.shiftr x 12) (Z.shiftr a 12)) as [-> | Hne].
  - by rewrite lookup_insert_eq.
  - by rewrite lookup_insert_ne by congruence.
Qed.

(** Reading the bias answers the abstract bias and keeps it on every page. *)
Lemma is_host_bias_mode_ok a d : is_device_mem a = true ->
  exists d', is_host_bias_mode a d = Ok (bias_of d a, d') /\
    (forall x, bias_of d' x = bias_of d x) /\
    need_data d' = need_data d /\ data_dest_addr d' = data_dest_addr d.
Proof.
  intros Ha. pose proof Ha as Ha'. unfold is_host_bias_mode, assert_. unfold is_device_mem in Ha.
  rewrite Ha. cbn [obind]. unfold bias_of at 1.
  destruct (Bias_Table d !! Z.shiftr a 12) as [bs |] eqn:E; [by exists d |].
  destruct (set_bias_mode_ok a true d Ha') as (d2 & -> & Hn & Hd & Ht).
  exists d2. split_and!; auto. intros x. rewrite (bias_of_insert d d2 a true x Ht).
  destruct (Z.eqb_spec (Z.shiftr x 12) (Z.shiftr a 12)) as [Ex |]; [| done].
  unfold bias_of. by rewrite Ex, E.
Qed.

(** The bias table implements an abstract map from pages to a bias that is
    host bias by default.  On device memory, setting the bias changes exactly
    the page of the address, reading it returns the abstract bias and changes
    no page's bias, and a page set to either bias reads back the same; outside
    device memory both operations stop at their assertion. *)
Theorem bias_table_refines d a b :
  (is_device_mem a = false ->
     set_bias_mode a b d = Err AssertFail /\ is_host_bias_mode a d = Err AssertFail) /\
  (is_device_mem a = true ->
     (exists d', set_bias_mode a b d = Ok d' /\
        (forall x, bias_of d' x = if Z.shiftr x 12 =? Z.shiftr a 12 then b else bias_of d x)) /\
     (exists d', is_host_bias_mode a d = Ok (bias_of d a, d') /\
        (forall x, bias_of d' x = bias_of d x) /\
        need_data d' = need_data d /\ data_dest_addr d' = data_dest_addr d)).
Proof.
  split; intros Ha.
  - split; [by apply set_bias_mode_err |].
    unfold is_host_bias_mode, is_device_mem in *. rewrite Ha. done.
  - destruct (set_bias_mode_ok a b d Ha) as (d' & Hs & _ & _ & Ht). split.
    + exists d'. split; [done |]. intros x. by apply bias_of_insert.
    + by apply is_host_bias_mode_ok.
Qed.

Lemma bias_table_refines_witness :
  exists d', set_bias_mode 0x80001040 false new_DCOH = Ok d' /\
    (forall x, bias_of d' x = if Z.shiftr x 12 =? Z.shiftr 0x80001040 12 then false
                              else bias_of new_DCOH x).
Proof. apply (bias_table_refines new_DCOH 0x80001040 false). reflexivity. Defined.

(** * Histories of the bias port *)

(** A call of [recvBiasAtomic] made by the internal crossbar. *)
Inductive bias_call : Type :=
  | BiasGet (a : Z)
  | BiasSet (a : Z) (mode : Z).

(** Run a sequence of calls, collecting the answers of the reads. *)
Fixpoint run_bias (cs : list bias_call) (d : DCOH) : outcome (list Z * DCOH) :=
  match cs with
  | [] => Ok ([], d)
  | BiasGet a :: cs =>
      let! (_, m, d) := recvBiasAtomic a 0 false d in
      let! (ms, d) := run_bias cs d in Ok (m :: ms, d)
  | BiasSet a mode :: cs =>
      let! (_, _, d) := recvBiasAtomic a mode true d in run_bias cs d
  end.

Definition call_addr (c : bias_call) : Z := match c with BiasGet a => a | BiasSet a _ => a end.

(** A call the device accepts: on its own memory, with mode 1 (host) or 2 (device). *)
Definition call_ok (c : bias_call) : bool :=
  is_device_mem (call_addr c) &&
  match c with BiasGet _ => true | BiasSet _ m => (m =? 1) || (m =? 2) end.

(** The answers of a reference machine whose only state is the mode last set for
    each page, host bias (1) for a page never set. *)
Fixpoint ref_bias (cs : list bias_call) (last : Z -> Z) : list Z :=
  match cs with
  | [] => []
  | BiasGet a :: cs => last (Z.shiftr a 12) :: ref_bias cs last
  | BiasSet a m :: cs =>
      ref_bias cs (fun pg => if pg =? Z.shiftr a 12 then m else last pg)
  end.

Lemma run_bias_ref cs d last :
  Forall (fun c => call_ok c = true) cs ->
  (forall x, last (Z.shiftr x 12) = if bias_of d x then 1 else 2) ->
  exists d', run_bias cs d = Ok (ref_bias cs last, d').
Proof.
  intros Hok. revert d last. induction Hok as [| c cs Hc Hok IH]; intros d last Hl; [by eexists |].
  unfold call_ok in Hc. apply andb_true_iff in Hc as [Ha Hm].
  destruct c as [a | a m]; simpl in Ha; cbn [run_bias ref_bias].
  - unfold recvBiasAtomic. cbn [negb].
    destruct (is_host_bias_mode_ok a d Ha) as (d1 & E1 & E2 & _).
    rewrite E1. cbn [obind].
    destruct (IH d1 last) as (d' & ->); [intros x; by rewrite E2 |].
    exists d'. cbn [obind]. rewrite (Hl a). done.
  - unfold recvBiasAtomic. cbn [negb].
    assert (Hset : forall b, m = (if b : bool then 1 else 2) ->
      exists d', (let! (_, _, d0) := (let! d0 := set_bias_mode a b d in Ok (1000, m, d0)) in run_bias cs d0) =
        Ok (ref_bias cs (fun pg => if pg =? Z.shiftr a 12 then m else last pg), d')).
    { intros b Hb. destruct (set_bias_mode_ok a b d Ha) as (d1 & -> & _ & _ & Ht). cbn [obind].
      apply IH. intros x. rewrite (bias_of_insert d d1 a b x Ht). rewrite (Hl x).
      destruct (Z.shiftr x 12 =? Z.shiftr a 12); [done |]. done. }
    apply orb_true_iff in Hm as [->%Z.eqb_eq | ->%Z.eqb_eq].
    + by apply (Hset true).
    + by apply (Hset false).
Qed.

(** C6: any sequence of bias reads and writes that the internal crossbar makes
    on device memory runs without stopping, and every read is answered with the
    mode last written to the page of its address, host bias if none was: the
    table refines the reference machine on every history. *)
Theorem bias_history cs :
  Forall (fun c => call_ok c = true) cs ->
  exists d', run_bias cs new_DCOH = Ok (ref_bias cs (fun _ => 1), d').
Proof. intros Hok. by apply run_bias_ref. Qed.

Lemma bias_history_witness :
  exists d', run_bias [BiasGet 0x80001040; BiasSet 0x80001800 2; BiasGet 0x80001040; BiasGet 0x80002000] new_DCOH
    = Ok (ref_bias [BiasGet 0x80001040; BiasSet 0x80001800 2; BiasGet 0x80001040; BiasGet 0x80002000]
            (fun _ => 1), d').
Proof.
  apply (bias_history [BiasGet 0x80001040; BiasSet 0x80001800 2; BiasGet 0x80001040; BiasGet 0x80002000]).
  repeat constructor.
Defined.

(** * Responses to the host *)

(** No response branch touches the pending-data registers, and each leaves the
    bias table alone or puts the page of the address in host bias. *)
Definition bias_step (a : Z) (d d' : DCOH) : Prop :=
  need_data d' = need_data d /\ data_dest_addr d' = data_dest_addr d /\
  (d' = d \/ Bias_Table d' = <[Z.shiftr a 12 := true]> (Bias_Table d)).

Lemma bias_step_refl a d : bias_step a d d.
Proof. repeat split; auto. Qed.

Lemma set_host_bias_step a d d' : set_bias_mode a true d = Ok d' -> bias_step a d d'.
Proof.
  intros H. destruct (is_device_mem a) eqn:Ha.
  - destruct (set_bias_mode_ok a true d Ha) as (d2 & E & Hn & Hd & Ht).
    rewrite E in H. injection H as <-. repeat split; auto.
  - rewrite set_bias_mode_err in H by done. done.
Qed.

#[export] Hint Resolve bias_step_refl set_host_bias_step : core.

(** Invert one successful branch of the response code. *)
Ltac resp_inv :=
  repeat match goal with
  | H : context [match ?x with _ => _ end] |- _ =>
      (is_var x; destruct x) || (let E := fresh "E" in destruct x eqn:E)
  | _ => obind_inv || discriminate || (progress simplify_eq/=)
  end.

Lemma resp_MemInv_step a mf mv snp d r d' : resp_MemInv a mf mv snp d = Ok (r, d') ->
  bias_step a d d' /\ mem_last_resp r = 1 /\ is_ok (as_S2M_NDR r) = true.
Proof. unfold resp_MemInv. intros H. obind_inv. resp_inv; split_and!; eauto. Qed.

Lemma resp_MemRd_step a mf mv snp d r d' : resp_MemRd a mf mv snp d = Ok (r, d') ->
  bias_step a d d' /\ mem_last_resp r = 0 /\ is_ok (as_S2M_NDR r) = true.
Proof. unfold resp_MemRd. intros H. obind_inv. resp_inv; split_and!; eauto. Qed.

Lemma resp_MemClnEvct_step a mf mv snp d r d' : resp_MemClnEvct mf mv snp d = Ok (r, d') ->
  bias_step a d d' /\ mem_last_resp r = 1 /\ is_ok (as_S2M_NDR r) = true.
Proof. unfold resp_MemClnEvct. intros H. obind_inv. resp_inv; split_and!; eauto. Qed.

Lemma resp_MemRdData_step a snp d r d' : resp_MemRdData a snp d = Ok (r, d') ->
  bias_step a d d' /\ mem_last_resp r = 0 /\ is_ok (as_S2M_NDR r) = true.
Proof. unfold resp_MemRdData. intros H. resp_inv; split_and!; eauto. Qed.

Lemma resp_MemWr_step a mv snp d r d' : resp_MemWr a mv snp d = Ok (r, d') ->
  bias_step a d d' /\ mem_last_resp r = 1 /\ is_ok (as_S2M_NDR r) = true.
Proof. unfold resp_MemWr. intros H. resp_inv; split_and!; eauto. Qed.

(** What one call of [makeCXLresponse] may do. *)
Lemma makeCXLresponse_step pkt d pkt' d' : makeCXLresponse pkt d = Ok (pkt', d') ->
  bias_step (addr pkt) d d' /\ cmd pkt' = cmd pkt /\ addr pkt' = addr pkt /\
  flags pkt' = flags pkt /\ cxl_cache (req pkt') = cxl_cache (req pkt) /\
  cxl_data_atomic (req pkt') = cxl_data_atomic (req pkt).
Proof.
  unfold makeCXLresponse, getAddr. intros H. obind_inv.
  destruct (cxl_req_type a); try (simplify_eq; split_and!; by auto); obind_inv.
  - destruct (req_memOpcode a0); obind_inv; simplify_eq;
      try (split_and!; by auto);
      repeat match goal with p : CXL_Req * DCOH |- _ => destruct p end; obind_inv; simplify_eq;
      (split; [| split_and!; done]).
    + by eapply resp_MemInv_step.
    + by eapply resp_MemRd_step.
    + by eapply resp_MemRdData_step.
    + by eapply resp_MemInv_step.
    + by eapply resp_MemClnEvct_step.
  - destruct (rwd_memOpcode a0); obind_inv; simplify_eq;
      try (split_and!; by auto);
      repeat match goal with p : CXL_Req * DCOH |- _ => destruct p end; obind_inv; simplify_eq;
      (split; [| split_and!; done]); by eapply resp_MemWr_step.
Qed.

Lemma bias_step_host a d d' x : bias_step a d d' ->
  (bias_of d x = true -> bias_of d' x = true) /\
  (Z.shiftr x 12 <> Z.shiftr a 12 -> bias_of d' x = bias_of d x).
Proof.
  intros (_ & _ & [-> | Ht]); [done |]. rewrite (bias_of_insert d d' a true x Ht).
  destruct (Z.eqb_spec (Z.shiftr x 12) (Z.shiftr a 12)); split; intros; congruence.
Qed.

(** Answering a host request never takes a page away from the host: every
    page in host bias stays so, the bias of the other pages does not change at
    all, and the packet's command, address and flags stay. *)
Theorem response_keeps_host_bias pkt d pkt' d' x :
  makeCXLresponse pkt d = Ok (pkt', d') ->
  (bias_of d x = true -> bias_of d' x = true) /\
  (Z.shiftr x 12 <> Z.shiftr (addr pkt) 12 -> bias_of d' x = bias_of d x) /\
  cmd pkt' = cmd pkt /\ addr pkt' = addr pkt /\ flags pkt' = flags pkt /\
  need_data d' = need_data d.
Proof.
  intros H. destruct (makeCXLresponse_step _ _ _ _ H) as (Hs & Hc & Ha & Hf & _).
  destruct (bias_step_host _ _ _ x Hs) as [H1 H2]. destruct Hs as [Hn _]. split_and!; auto.
Qed.

Definition host_read_pkt : Packet := mkPacket 0 ReadSharedReq 0x300 0x80001040 false 64 0 0 0 []
  (set_cxl_req (Some (host_message ReadSharedReq 0x80001040))
     (set_cxl_packet_type CXLmemPacket (new_Request 1))).

Lemma response_keeps_host_bias_witness :
  exists pkt' d', makeCXLresponse host_read_pkt new_DCOH = Ok (pkt', d') /\
    (bias_of new_DCOH 0x90000000 = true -> bias_of d' 0x90000000 = true).
Proof.
  eexists _, _. split; [reflexivity |].
  eapply (response_keeps_host_bias host_read_pkt new_DCOH). reflexivity.
Defined.

(** The write branch tests the snoop type where the metadata field is meant.
    Every write whose snoop type is not [No_Op] panics, whatever its metadata:
    the documented write-back with [SnpInv] and an invalid metadata value is
    unreachable; and with snoop type [No_Op] every write to device memory is
    completed whatever its metadata field says. *)
Theorem MemWr_snoop_test pkt d r m :
  cxl_req (req pkt) = Some r -> cxl_req_type r = _M2S_RwD -> mem_body r = MRwD m ->
  (rwd_memOpcode m = MemWr \/ rwd_memOpcode m = MemWrPtl) ->
  flag_isSet VALID_ADDR pkt = true -> is_device_mem (addr pkt) = true ->
  (rwd_snp_type m <> SnpTypes_No_Op -> makeCXLresponse pkt d = Err Panic) /\
  (rwd_snp_type m = SnpTypes_No_Op ->
     exists d', makeCXLresponse pkt d =
       Ok (install_ndr (ndr Cmp MetaFiled_No_Op Invalied) pkt, d') /\
       bias_of d' (addr pkt) = if bool_decide (rwd_meta_value m = Invalied)
                               then bias_of d (addr pkt) else true).
Proof.
  intros Hr Ht Hb Hop Hv Ha. unfold makeCXLresponse, get_cxl_req, getAddr, assert_, as_M2S_RwD.
  rewrite Hr. cbn [obind]. rewrite Ht, Hb. cbn [obind].
  assert (Hgo : forall T (f g : T), match rwd_memOpcode m with MemWr | MemWrPtl => f | BIConflict => g end = f)
    by (intros; destruct Hop as [-> | ->]; done).
  rewrite Hgo, Hv. cbn [obind]. split.
  - intros Hs. unfold resp_MemWr. destruct (rwd_snp_type m); done.
  - intros ->. unfold resp_MemWr. cbn [M2S_SnpTypes_code MetaFiled_code Z.eqb].
    destruct (set_bias_mode_ok (addr pkt) true d Ha) as (d' & E & _ & _ & Htab).
    destruct (rwd_meta_value m); cbn [obind]; rewrite ?E; cbn [obind]; eexists;
      (split; [done |]); try done; by rewrite (bias_of_insert _ _ _ _ _ Htab), Z.eqb_refl.
Qed.

Definition writeback_pkt : Packet := mkPacket 0 WriteReq 0x300 0x80001040 false 64 0 0 0 []
  (set_cxl_req (Some (new_M2S_RwD MemWr SnpInv Meta0_State Invalied 0 0x80001040 false false
     0 0 0 0 TC_Reserved)) (set_cxl_packet_type CXLmemPacket (new_Request 1))).

Lemma MemWr_snoop_test_witness : makeCXLresponse writeback_pkt new_DCOH = Err Panic.
Proof.
  apply (MemWr_snoop_test writeback_pkt new_DCOH
    (new_M2S_RwD MemWr SnpInv Meta0_State Invalied 0 0x80001040 false false 0 0 0 0 TC_Reserved)
    (mkM2S_RwD true MemWr SnpInv Meta0_State Invalied 0 0x80001040 false false 0 0 0 0 TC_Reserved));
    try reflexivity; [left; reflexivity | discriminate].
Defined.

(** * Snoop responses *)

(** [unsigned CacheBlk::print_state()]: writable, dirty and valid, from the
    coherence bits and the validity of a block
    ([src/gem5/src/mem/cache/cache_blk.hh]). *)
Definition WritableBit : Z := 0x02.
Definition DirtyBit : Z := 0x08.
Definition blk_isSet (coherence : Z) (isValid : bool) (bits : Z) : bool :=
  isValid && truthy (Z.land coherence bits).
Definition print_state (coherence : Z) (isValid : bool) : Z :=
  Z.lor (Z.lor (Z.shiftl (if blk_isSet coherence isValid WritableBit then 1 else 0) 2)
               (Z.shiftl (if blk_isSet coherence isValid DirtyBit then 1 else 0) 1))
        (if isValid then 1 else 0).

(** The states a valid or invalid block can be in, and their code. *)
Inductive blk_state : Type := StI | StS | StO | StE | StM.
Definition state_code (s : blk_state) : Z :=
  match s with StI => 0 | StS => 1 | StO => 3 | StE => 5 | StM => 7 end.

#[export] Instance blk_state_eq_dec : EqDecision blk_state.
Proof. solve_decision. Defined.

(** Every block reports the code of a state, the invalid one exactly when it is
    not valid. *)
Lemma print_state_code coherence v : exists s,
  (s = StI <-> v = false) /\ print_state coherence v = state_code s.
Proof.
  unfold print_state, blk_isSet.
  destruct v; cbn [andb]; [| by exists StI].
  destruct (truthy (Z.land coherence WritableBit)), (truthy (Z.land coherence DirtyBit));
    [exists StM | exists StE | exists StO | exists StS]; done.
Qed.

(** The transitions a snoop makes on a block that it does not upgrade. *)
Definition snoop_move (s s' : blk_state) : bool :=
  bool_decide (s = StI) || bool_decide (s' = StI) || bool_decide (s' = StS) ||
  bool_decide (s' = s) || (bool_decide (s = StM) && bool_decide (s' = StO)).

Lemma sinkPacket_total pkt : exists b, sinkPacket pkt = Ok b.
Proof.
  unfold sinkPacket. destruct (cacheResponding pkt); [by eexists |].
  destruct (_ && _); [by eexists |]. destruct (_ && _); by eexists.
Qed.

(** The device answers a snoop exactly when the block's state was not
    upgraded by it.  The answer replaces the request message; it reports
    forwarded dirty data exactly when a modified block was demoted, a final
    invalid state exactly when the block is invalid afterwards or was before,
    and nothing else of the packet changes.  The states are those a cache block
    reports through [print_state]. *)
Theorem makeSnoopResp_spec pkt s s' :
  old_state (req pkt) = state_code s -> new_state (req pkt) = state_code s' ->
  (snoop_move s s' = false -> makeSnoopResp pkt = Err Panic) /\
  (snoop_move s s' = true -> exists op,
     makeSnoopResp pkt =
       Ok (upd_req (set_cxl_cache (Some (new_D2H_Resp op 0 0 0))) pkt) /\
     ((op = RspSFwdM \/ op = RspIFwdM) <-> s = StM /\ s' <> StM) /\
     ((op = RspIHitI \/ op = RspIHitSE \/ op = RspIFwdM) <-> s = StI \/ s' = StI)).
Proof.
  intros Ho Hn. destruct (sinkPacket_total pkt) as [b Hb].
  unfold makeSnoopResp. rewrite Ho, Hn, Hb.
  split; destruct s, s'; try done; intros _; cbn;
    try (eexists; split; [reflexivity |]; intuition congruence).
  all: destruct b; cbn; eexists; (split; [reflexivity |]); intuition congruence.
Qed.

Lemma makeSnoopResp_spec_witness :
  exists op, makeSnoopResp (mkPacket 0 ReadExReq 0x300 0xA0000040 false 64 0 0 0 []
      (set_old_state 7 (set_new_state 0 (new_Request 1)))) =
    Ok (upd_req (set_cxl_cache (Some (new_D2H_Resp op 0 0 0)))
      (mkPacket 0 ReadExReq 0x300 0xA0000040 false 64 0 0 0 []
        (set_old_state 7 (set_new_state 0 (new_Request 1))))) /\
    ((op = RspSFwdM \/ op = RspIFwdM) <-> StM = StM /\ StI <> StM).
Proof.
  destruct (makeSnoopResp_spec (mkPacket 0 ReadExReq 0x300 0xA0000040 false 64 0 0 0 []
      (set_old_state 7 (set_new_state 0 (new_Request 1)))) StM StI) as [_ H];
    [reflexivity | reflexivity |].
  destruct H as (op & H1 & H2 & _); [reflexivity |]. exists op. split; [exact H1 | exact H2].
Defined.
