(* ===== verification/BridgeConfig.v ===== *)
(** The configuration space of a bridge port: class [config_class] of
    [src/gem5/src/mem/PciBridge.hh] and [PciBridge.cc].

    A header is a union of a byte array and named registers, so it is kept as
    its bytes and a register is a place in them; loads and stores are those of
    a little-endian host, for which [htole] and [letoh] do nothing.  A
    configuration access takes the packet and the value of its data. *)
From Stdlib Require Import ZArith Lia.
From stdpp Require Import base numbers list.
From S2P Require Import Prelude MemPacket.

Open Scope Z_scope.

(** * Bytes *)

Fixpoint le_bytes (n : nat) (v : Z) : list Z :=
  match n with
  | O => []
  | S n => u8 v :: le_bytes n (Z.shiftr v 8)
  end.

Fixpoint le_val (l : list Z) : Z :=
  match l with
  | [] => 0
  | b :: l => b + 256 * le_val l
  end.

(** The array read and assigned as an [uintN_t] at an offset. *)
Definition load (n off : nat) (d : list Z) : Z := le_val (take n (drop off d)).
Definition store (n off : nat) (v : Z) (d : list Z) : list Z :=
  take off d ++ le_bytes n v ++ drop (off + n) d.

(** * Registers *)

(** The place of a register: its offset and its number of bytes. *)
Definition reg : Type := nat * nat.
Definition get (r : reg) (d : list Z) : Z := load r.2 r.1 d.
Definition put (r : reg) (v : Z) (d : list Z) : list Z := store r.2 r.1 v d.

Definition VendorId : reg := (0, 2)%nat.
Definition DeviceId : reg := (2, 2)%nat.
Definition Command_ : reg := (4, 2)%nat.
Definition Status : reg := (6, 2)%nat.
Definition Revision : reg := (8, 1)%nat.
Definition ProgIF : reg := (9, 1)%nat.
Definition SubClassCode : reg := (10, 1)%nat.
Definition ClassCode : reg := (11, 1)%nat.
Definition CacheLineSize : reg := (12, 1)%nat.
Definition LatencyTimer : reg := (13, 1)%nat.
Definition HeaderType : reg := (14, 1)%nat.
Definition BIST : reg := (15, 1)%nat.
Definition Bar0 : reg := (16, 4)%nat.
Definition Bar1 : reg := (20, 4)%nat.
Definition PrimaryBusNumber : reg := (24, 1)%nat.
Definition SecondaryBusNumber : reg := (25, 1)%nat.
Definition SubordinateBusNumber : reg := (26, 1)%nat.
Definition SecondaryLatencyTimer : reg := (27, 1)%nat.
Definition IOBase : reg := (28, 1)%nat.
Definition IOLimit : reg := (29, 1)%nat.
Definition SecondaryStatus : reg := (30, 2)%nat.
Definition MemoryBase : reg := (32, 2)%nat.
Definition MemoryLimit : reg := (34, 2)%nat.
Definition PrefetchableMemoryBase : reg := (36, 2)%nat.
Definition PrefetchableMemoryLimit : reg := (38, 2)%nat.
Definition PrefetchableMemoryBaseUpper : reg := (40, 4)%nat.
Definition PrefetchableMemoryLimitUpper : reg := (44, 4)%nat.
Definition IOBaseUpper : reg := (48, 2)%nat.
Definition IOLimitUpper : reg := (50, 2)%nat.
Definition CapabilityPointer : reg := (52, 1)%nat.
Definition reserved : reg := (53, 3)%nat.
Definition ExpansionROMBaseAddress : reg := (56, 4)%nat.
Definition InterruptLine : reg := (60, 1)%nat.
Definition InterruptPin : reg := (61, 1)%nat.
Definition BridgeControl : reg := (62, 2)%nat.

Definition PXCAPCapId : reg := (0, 1)%nat.
Definition PXCAPNextCapability : reg := (1, 1)%nat.
Definition PXCAPCapabilities : reg := (2, 2)%nat.
Definition PXCAPDevCapabilities : reg := (4, 4)%nat.
Definition PXCAPDevStatus : reg := (8, 2)%nat.
Definition PXCAPDevCtrl : reg := (10, 2)%nat.
Definition PXCAPLinkCap : reg := (12, 4)%nat.
Definition PXCAPLinkCtrl : reg := (16, 2)%nat.
Definition PXCAPLinkStatus : reg := (18, 2)%nat.
Definition PXCAPSlotCapabilities : reg := (20, 4)%nat.
Definition PXCAPSlotControl : reg := (24, 2)%nat.
Definition PXCAPSlotStatus : reg := (26, 2)%nat.
Definition PXCAPRootControl : reg := (28, 4)%nat.
Definition PXCAPRootStatus : reg := (32, 4)%nat.

Record config_class : Type := mkConfig {
  storage1 : list Z;
  storage2 : list Z;
  barsize0 : Z;
  barsize1 : Z;
  barflags0 : Z;
  barflags1 : Z;
  configDelay : Z;
  PXCAPBaseOffset : Z;
  is_switch : Z;
  id : Z;
  is_valid : Z;
  valid_io_base : bool;
  valid_io_limit : bool;
  valid_prefetchable_memory_base : bool;
  valid_prefetchable_memory_limit : bool;
  valid_memory_base : bool;
  valid_memory_limit : bool;
}.

Definition set_storage1 (s : list Z) (c : config_class) : config_class :=
  mkConfig s (storage2 c) (barsize0 c) (barsize1 c) (barflags0 c) (barflags1 c) (configDelay c)
    (PXCAPBaseOffset c) (is_switch c) (id c) (is_valid c) (valid_io_base c) (valid_io_limit c)
    (valid_prefetchable_memory_base c) (valid_prefetchable_memory_limit c)
    (valid_memory_base c) (valid_memory_limit c).
Definition set_storage2 (s : list Z) (c : config_class) : config_class :=
  mkConfig (storage1 c) s (barsize0 c) (barsize1 c) (barflags0 c) (barflags1 c) (configDelay c)
    (PXCAPBaseOffset c) (is_switch c) (id c) (is_valid c) (valid_io_base c) (valid_io_limit c)
    (valid_prefetchable_memory_base c) (valid_prefetchable_memory_limit c)
    (valid_memory_base c) (valid_memory_limit c).
Definition set_barflags (f0 f1 : Z) (c : config_class) : config_class :=
  mkConfig (storage1 c) (storage2 c) (barsize0 c) (barsize1 c) f0 f1 (configDelay c)
    (PXCAPBaseOffset c) (is_switch c) (id c) (is_valid c) (valid_io_base c) (valid_io_limit c)
    (valid_prefetchable_memory_base c) (valid_prefetchable_memory_limit c)
    (valid_memory_base c) (valid_memory_limit c).
Definition set_is_valid (v : Z) (c : config_class) : config_class :=
  mkConfig (storage1 c) (storage2 c) (barsize0 c) (barsize1 c) (barflags0 c) (barflags1 c)
    (configDelay c) (PXCAPBaseOffset c) (is_switch c) (id c) v (valid_io_base c)
    (valid_io_limit c) (valid_prefetchable_memory_base c) (valid_prefetchable_memory_limit c)
    (valid_memory_base c) (valid_memory_limit c).
Definition set_valid_io (b l : bool) (c : config_class) : config_class :=
  mkConfig (storage1 c) (storage2 c) (barsize0 c) (barsize1 c) (barflags0 c) (barflags1 c)
    (configDelay c) (PXCAPBaseOffset c) (is_switch c) (id c) (is_valid c) b l
    (valid_prefetchable_memory_base c) (valid_prefetchable_memory_limit c)
    (valid_memory_base c) (valid_memory_limit c).
Definition set_valid_prefetchable (b l : bool) (c : config_class) : config_class :=
  mkConfig (storage1 c) (storage2 c) (barsize0 c) (barsize1 c) (barflags0 c) (barflags1 c)
    (configDelay c) (PXCAPBaseOffset c) (is_switch c) (id c) (is_valid c) (valid_io_base c)
    (valid_io_limit c) b l (valid_memory_base c) (valid_memory_limit c).
Definition set_valid_memory (b l : bool) (c : config_class) : config_class :=
  mkConfig (storage1 c) (storage2 c) (barsize0 c) (barsize1 c) (barflags0 c) (barflags1 c)
    (configDelay c) (PXCAPBaseOffset c) (is_switch c) (id c) (is_valid c) (valid_io_base c)
    (valid_io_limit c) (valid_prefetchable_memory_base c) (valid_prefetchable_memory_limit c) b l.

Definition get1 (r : reg) (c : config_class) : Z := get r (storage1 c).
Definition put1 (r : reg) (v : Z) (c : config_class) : config_class :=
  set_storage1 (put r v (storage1 c)) c.

(** * Constants of [PciBridge.hh] and [dev/pci/pcireg.h] *)

Definition PCIE_CONFIG_SIZE : Z := 0xFFF.
Definition PCIE_HEADER_SIZE : Z := 64.
Definition PXCAPSIZE : Z := 36.
Definition SLOT_REG_BASE : Z := 20.
Definition SLOT_REG_LIMIT : Z := 27.
Definition IO_MASK : Z := 0x1.
Definition MEM_MASK : Z := 0xF.
Definition IO_BASE_MASK : Z := 0x0F.
Definition IO_LIMIT_MASK : Z := 0x0F.
Definition PREFETCH_MEM_BASE_MASK : Z := 0x000.
Definition PREFETCH_MEM_LIMIT_MASK : Z := 0x000F.
Definition MMIO_BASE_MASK : Z := 0x000F.
Definition MMIO_LIMIT_MASK : Z := 0x000F.
Definition IO_BASE_SHIFT : Z := 4096.
Definition PREFETCH_BASE_SHIFT : Z := 1048576.
Definition ADDR_MAX : Z := 0xFFFFFFFFFFFFFFFF.

Definition PCI_VENDOR_ID : Z := 0x00.
Definition PCI_DEVICE_ID : Z := 0x02.
Definition PCI_COMMAND : Z := 0x04.
Definition PCI_STATUS : Z := 0x06.
Definition PCI_REVISION_ID : Z := 0x08.
Definition PCI_CLASS_CODE : Z := 0x09.
Definition PCI_SUB_CLASS_CODE : Z := 0x0A.
Definition PCI_BASE_CLASS_CODE : Z := 0x0B.
Definition PCI_CACHE_LINE_SIZE : Z := 0x0C.
Definition PCI_LATENCY_TIMER : Z := 0x0D.
Definition PCI_HEADER_TYPE : Z := 0x0E.
Definition PCI_BIST : Z := 0x0F.
Definition PCI1_BASE_ADDR0 : Z := 0x10.
Definition PCI1_BASE_ADDR1 : Z := 0x14.
Definition PCI1_PRI_BUS_NUM : Z := 0x18.
Definition PCI1_SEC_BUS_NUM : Z := 0x19.
Definition PCI1_SUB_BUS_NUM : Z := 0x1A.
Definition PCI1_SEC_LAT_TIMER : Z := 0x1B.
Definition PCI1_IO_BASE : Z := 0x1C.
Definition PCI1_IO_LIMIT : Z := 0x1D.
Definition PCI1_SECONDARY_STATUS : Z := 0x1E.
Definition PCI1_MEM_BASE : Z := 0x20.
Definition PCI1_MEM_LIMIT : Z := 0x22.
Definition PCI1_PRF_MEM_BASE : Z := 0x24.
Definition PCI1_PRF_MEM_LIMIT : Z := 0x26.
Definition PCI1_PRF_BASE_UPPER : Z := 0x28.
Definition PCI1_PRF_LIMIT_UPPER : Z := 0x2C.
Definition PCI1_IO_BASE_UPPER : Z := 0x30.
Definition PCI1_IO_LIMIT_UPPER : Z := 0x32.
Definition PCI1_RESERVED : Z := 0x34.
Definition PCI1_ROM_BASE_ADDR : Z := 0x38.
Definition PCI1_INTR_LINE : Z := 0x3C.
Definition PCI1_INTR_PIN : Z := 0x3D.
Definition PCI1_BRIDGE_CTRL : Z := 0x3E.

(** * Windows *)

(** [Addr config_class::getBar0()] and [getBar1()]. *)
Definition getBar0 (c : config_class) : Z :=
  Z.land (get1 Bar0 c) (wnot 32 (u32 (barsize0 c - 1))).
Definition getBar1 (c : config_class) : Z :=
  Z.land (get1 Bar1 c) (wnot 32 (u32 (barsize1 c - 1))).

(** [Addr config_class::getIOBase()]. *)
Definition getIOBase (c : config_class) : Z :=
  let stored_base := get1 IOBase c in
  let stored_base_upper := get1 IOBaseUpper c in
  let base_val := u32 (Z.shiftl stored_base_upper 16) in
  let stored_base := Z.shiftr stored_base 4 in
  u32 (base_val + stored_base * IO_BASE_SHIFT).

(** [Addr config_class::getIOLimit()]. *)
Definition getIOLimit (c : config_class) : Z :=
  let stored_limit := get1 IOLimit c in
  let stored_limit_upper := get1 IOLimitUpper c in
  let limit_val := u32 (Z.shiftl stored_limit_upper 16) in
  let stored_limit := Z.shiftr stored_limit 4 in
  let limit_val := u32 (limit_val + stored_limit * IO_BASE_SHIFT) in
  Z.lor limit_val 0xFFF.

(** [Addr config_class::getMemoryBase()] and [getMemoryLimit()]. *)
Definition getMemoryBase (c : config_class) : Z :=
  u32 (Z.shiftl (Z.shiftr (get1 MemoryBase c) 4) 20).
Definition getMemoryLimit (c : config_class) : Z :=
  Z.lor (u32 (Z.shiftl (Z.shiftr (get1 MemoryLimit c) 4) 20)) 0xFFFFF.

(** [stored * PREFETCH_BASE_SHIFT]: a product of [int]s, undefined when it does
    not fit. *)
Definition prefetch_product (stored : Z) : outcome Z :=
  let p := stored * PREFETCH_BASE_SHIFT in
  if p <? 2 ^ 31 then Ok p else Err Undefined.

(** [Addr config_class::getPrefetchableMemoryBase()]. *)
Definition getPrefetchableMemoryBase (c : config_class) : outcome Z :=
  let stored_base := get1 PrefetchableMemoryBase c in
  let stored_base_upper := get1 PrefetchableMemoryBaseUpper c in
  let base_val := u64 (Z.shiftl stored_base_upper 32) in
  let! p := prefetch_product (Z.shiftr stored_base 4) in
  Ok (u64 (base_val + p)).

(** [Addr config_class::getPrefetchableMemoryLimit()]: the upper half of the limit
    goes through a 16-bit variable. *)
Definition getPrefetchableMemoryLimit (c : config_class) : outcome Z :=
  let stored_limit := get1 PrefetchableMemoryLimit c in
  let stored_limit_upper := u16 (get1 PrefetchableMemoryLimitUpper c) in
  let limit_val := u64 (Z.shiftl stored_limit_upper 32) in
  let! p := prefetch_product (Z.shiftr stored_limit 4) in
  Ok (Z.lor (u64 (limit_val + p)) 0xFFFFF).

(** * Accesses *)

(** [bool config_class::isWritable(int offset)]. *)
Definition isWritable (offset : Z) : bool :=
  negb ((offset =? PCI_VENDOR_ID) || (offset =? PCI_DEVICE_ID) || (offset =? PCI_REVISION_ID)
        || (offset =? PCI_CLASS_CODE) || (offset =? PCI_SUB_CLASS_CODE)
        || (offset =? PCI_BASE_CLASS_CODE) || (offset =? PCI_CACHE_LINE_SIZE)
        || (offset =? PCI_LATENCY_TIMER) || (offset =? PCI_HEADER_TYPE)
        || (offset =? PCI1_SEC_LAT_TIMER) || (offset =? PCI1_RESERVED)
        || (offset =? PCI1_INTR_PIN)).

(** A read of a whole array at an offset; past the end it is undefined. *)
Definition read_at (offset size : Z) (d : list Z) : outcome Z :=
  if offset + size <=? Z.of_nat (length d) then Ok (load (Z.to_nat size) (Z.to_nat offset) d)
  else Err Undefined.

Definition access_size (n : Z) : bool := (n =? 1) || (n =? 2) || (n =? 4).

(** [Tick config_class::readConfig(PacketPtr pkt)]: the response, the value its
    data is set to, and the delay. *)
Definition readConfig (pkt : Packet) (c : config_class) : outcome (Packet * Z * Z) :=
  let! a := getAddr pkt in
  let offset := Z.land a PCIE_CONFIG_SIZE in
  let! n := getSize pkt in
  let! v :=
    (if offset <? PCIE_HEADER_SIZE then
       if access_size n then read_at offset n (storage1 c) else Err Panic
     else if (PXCAPBaseOffset c <=? offset) && (offset <? PXCAPBaseOffset c + PXCAPSIZE) then
       if access_size n then read_at (offset - PXCAPBaseOffset c) n (storage2 c) else Err Panic
     else if access_size n then Ok 0 else Err Panic) in
  let! r := makeResponse pkt in
  Ok (r, v, configDelay c).

(** [(val & ~MASK) | (temp & MASK)]. *)
Definition masked (mask val temp : Z) : Z := Z.lor (Z.land val (Z.lnot mask)) (Z.land temp mask).

(** The one-byte registers of [writeConfig]; the flag says that a range changed. *)
Definition write8 (offset val : Z) (c : config_class) : config_class * bool :=
  if offset =? PCI1_PRI_BUS_NUM then (put1 PrimaryBusNumber val c, false)
  else if offset =? PCI1_SEC_BUS_NUM then (set_is_valid 1 (put1 SecondaryBusNumber val c), false)
  else if offset =? PCI1_SUB_BUS_NUM then (put1 SubordinateBusNumber val c, false)
  else if offset =? PCI1_IO_BASE then
    (set_valid_io true (valid_io_limit c)
       (put1 IOBase (masked IO_BASE_MASK val (get1 IOBase c)) c), true)
  else if offset =? PCI1_IO_LIMIT then
    (set_valid_io (valid_io_base c) true
       (put1 IOLimit (masked IO_LIMIT_MASK val (get1 IOLimit c)) c), true)
  else if offset =? PCI1_INTR_LINE then (put1 InterruptLine val c, false)
  else if offset =? PCI_BIST then (put1 BIST val c, false)
  else (c, false).

(** The two-byte registers of [writeConfig]; [Command], [Status] and
    [SecondaryStatus] take one byte of the data. *)
Definition write16 (offset val : Z) (c : config_class) : config_class * bool :=
  if offset =? PCI_COMMAND then (put1 Command_ (Z.lor (u8 val) 0x0400) c, false)
  else if offset =? PCI_STATUS then (put1 Status (u8 val) c, false)
  else if offset =? PCI1_SECONDARY_STATUS then (put1 SecondaryStatus (u8 val) c, false)
  else if offset =? PCI1_MEM_BASE then
    (set_valid_memory true (valid_memory_limit c)
       (put1 MemoryBase (masked MMIO_BASE_MASK val (get1 MemoryBase c)) c), true)
  else if offset =? PCI1_MEM_LIMIT then
    (set_valid_memory (valid_memory_base c) true
       (put1 MemoryLimit (masked MMIO_LIMIT_MASK val (get1 MemoryLimit c)) c), true)
  else if offset =? PCI1_PRF_MEM_BASE then
    (set_valid_prefetchable true (valid_prefetchable_memory_limit c)
       (put1 PrefetchableMemoryBase
          (masked PREFETCH_MEM_BASE_MASK val (get1 PrefetchableMemoryBase c)) c), true)
  else if offset =? PCI1_PRF_MEM_LIMIT then
    (set_valid_prefetchable (valid_prefetchable_memory_base c) true
       (put1 PrefetchableMemoryLimit
          (Z.lor (Z.land val (Z.lnot PREFETCH_MEM_LIMIT_MASK))
                 (Z.land (get1 PrefetchableMemoryLimit c) PREFETCH_MEM_BASE_MASK)) c), true)
  else if offset =? PCI1_IO_BASE_UPPER then (set_valid_io true (valid_io_limit c) c, true)
  else if offset =? PCI1_IO_LIMIT_UPPER then (set_valid_io (valid_io_base c) true c, true)
  else if offset =? PCI1_BRIDGE_CTRL then (put1 BridgeControl val c, false)
  else if offset =? PCI1_IO_BASE then
    let c := set_valid_io true true c in
    let t := Z.land val 0x00FF in
    let c := put1 IOBase (masked IO_BASE_MASK t (get1 IOBase c)) c in
    let t := u8 (Z.shiftr val 8) in
    (put1 IOLimit (masked IO_LIMIT_MASK t (get1 IOLimit c)) c, true)
  else (c, false).

(** The value a base address register takes when [val] is written and [size] is
    its size; [sizing_io] is what an I/O register shows when it is sized. *)
Definition bar_write (size val old sizing_io : Z) : Z :=
  if val =? 0xFFFFFFFF then
    if truthy (Z.land old 1) then Z.lor sizing_io (Z.land old IO_MASK)
    else Z.lor (wnot 32 (u32 (size - 1))) (Z.land old MEM_MASK)
  else
    if truthy (Z.land old 1) then Z.lor (Z.land val (wnot 32 (u32 (size - 1)))) (Z.land old IO_MASK)
    else Z.lor (Z.land val (wnot 32 (u32 (size - 1)))) (Z.land old MEM_MASK).

(** The four-byte registers of [writeConfig]. *)
Definition write32 (offset val : Z) (c : config_class) : config_class * bool :=
  if offset =? PCI1_ROM_BASE_ADDR then (put1 ExpansionROMBaseAddress 0 c, false)
  else if offset =? PCI1_PRF_BASE_UPPER then
    (put1 PrefetchableMemoryBaseUpper val
       (set_valid_prefetchable true (valid_prefetchable_memory_limit c) c), true)
  else if offset =? PCI1_PRF_LIMIT_UPPER then
    (put1 PrefetchableMemoryLimitUpper val
       (set_valid_prefetchable (valid_prefetchable_memory_base c) true c), true)
  else if offset =? PCI1_BASE_ADDR0 then
    let sizing_io := u32 (wnot 32 (barsize0 c) - 1) in
    let v := bar_write (barsize0 c) val (get1 Bar0 c) sizing_io in
    if val =? 0xFFFFFFFF then (put1 Bar0 v c, false)
    else (put1 Bar0 v (set_barflags 1 (barflags1 c) c), true)
  else if offset =? PCI1_BASE_ADDR1 then
    let sizing_io := wnot 32 (u32 (barsize1 c - 1)) in
    let v := bar_write (barsize1 c) val (get1 Bar1 c) sizing_io in
    if val =? 0xFFFFFFFF then (put1 Bar1 v c, false)
    else (put1 Bar1 v (set_barflags (barflags0 c) 1 c), true)
  else if offset =? PCI1_MEM_BASE then
    let base_val := u16 (Z.land val 0xFFFF) in
    let limit_val := u16 (Z.shiftr val 16) in
    let cur_base_val := Z.lor (Z.land base_val (Z.lnot MMIO_BASE_MASK))
                              (Z.land (get1 MemoryBase c) MMIO_LIMIT_MASK) in
    let cur_limit_val := masked MMIO_LIMIT_MASK limit_val (get1 MemoryLimit c) in
    (put1 MemoryLimit cur_limit_val (put1 MemoryBase cur_base_val (set_valid_memory true true c)),
     true)
  else if offset =? PCI1_IO_BASE_UPPER then (set_valid_io true true c, true)
  else if offset =? PCI1_PRF_MEM_BASE then
    let base_val := u16 (Z.land val 0xFFFF) in
    let limit_val := u16 (Z.shiftr val 16) in
    let cur_base_val := masked PREFETCH_MEM_BASE_MASK base_val (get1 PrefetchableMemoryBase c) in
    let cur_limit_val := Z.lor (Z.land limit_val (Z.lnot PREFETCH_MEM_LIMIT_MASK))
                               (Z.land (get1 PrefetchableMemoryLimit c) PREFETCH_MEM_BASE_MASK) in
    (put1 PrefetchableMemoryLimit cur_limit_val
       (put1 PrefetchableMemoryBase cur_base_val (set_valid_prefetchable true true c)), true)
  else if offset =? PCI_COMMAND then
    (put1 Status (u16 (Z.shiftr val 16)) (put1 Command_ (u16 (Z.land val 0xFFFF)) c), false)
  else if offset =? PCI1_PRI_BUS_NUM then
    (set_is_valid 1 (set_storage1 (store 4 24 val (storage1 c)) c), false)
  else (c, false).

(** A write to the capability structure, behind the test of [writeConfig] for the
    slot registers. *)
Definition write_pxcap (offset size val : Z) (c : config_class) : outcome config_class :=
  if (offset <? SLOT_REG_BASE) && (SLOT_REG_LIMIT <? offset) then
    if access_size size then
      if offset + size <=? PXCAPSIZE
      then Ok (set_storage2 (store (Z.to_nat size) (Z.to_nat offset) val (storage2 c)) c)
      else Err Undefined
    else Err Panic
  else Ok c.

(** The slave ports of the bridge. *)
Inductive SlavePortID : Type := slavePort | slavePort_DMA1 | slavePort_DMA2 | slavePort_DMA3.
#[export] Instance SlavePortID_eq_dec : EqDecision SlavePortID.
Proof. solve_decision. Defined.

(** The ports that announce a range change at the end of [writeConfig]. *)
Definition range_changes (c : config_class) : list SlavePortID :=
  (if (id c =? 0) || (is_switch c =? 0) then [slavePort] else [])
  ++ (if id c =? 1 then [slavePort_DMA1] else [])
  ++ (if id c =? 2 then [slavePort_DMA2] else [])
  ++ (if id c =? 3 then [slavePort_DMA3] else []).

(** [Tick config_class::writeConfig(PacketPtr pkt)], with [val] the value of the
    packet's data: the response, the delay, the new state and the announcements. *)
Definition writeConfig (pkt : Packet) (val : Z) (c : config_class) :
    outcome (Packet * Z * config_class * list SlavePortID) :=
  let! a := getAddr pkt in
  let offset := Z.land a PCIE_CONFIG_SIZE in
  let! n := getSize pkt in
  if (offset <? PCIE_HEADER_SIZE) && negb (isWritable offset) then
    let! r := makeResponse pkt in
    Ok (r, configDelay c, c, [])
  else
    let! (c', flag) :=
      (if offset <? PCIE_HEADER_SIZE then
         if n =? 1 then Ok (write8 offset val c)
         else if n =? 2 then Ok (write16 offset val c)
         else if n =? 4 then Ok (write32 offset val c)
         else Err Panic
       else if (PXCAPBaseOffset c <=? offset) && (offset <? PXCAPBaseOffset c + PXCAPSIZE) then
         let! c' := write_pxcap (offset - PXCAPBaseOffset c) n val c in Ok (c', false)
       else Err Panic) in
    let! r := makeResponse pkt in
    Ok (r, configDelay c', c', if flag then range_changes c' else []).

(** * Bytes: lemmas *)

Definition bytes_ok (d : list Z) : Prop := Forall (in_width 8) d.

Lemma le_bytes_length n v : length (le_bytes n v) = n.
Proof. revert v. induction n; intros; cbn; auto. Qed.

Lemma le_bytes_ok n v : bytes_ok (le_bytes n v).
Proof. revert v. induction n as [| n IH]; intros; constructor; [auto with width | apply IH]. Qed.

Lemma le_val_bytes n v : le_val (le_bytes n v) = wrap (8 * Z.of_nat n) v.
Proof.
  revert v. induction n as [| n IH]; intros v; cbn [le_bytes le_val].
  - unfold wrap. symmetry. apply Z.mod_1_r.
  - rewrite IH. unfold wrap. rewrite Z.shiftr_div_pow2 by lia.
    replace (8 * Z.of_nat (S n)) with (8 + 8 * Z.of_nat n) by lia.
    rewrite Z.pow_add_r by lia. change (2 ^ 8) with 256.
    rewrite Z.rem_mul_r by lia. lia.
Qed.

Lemma le_val_range l : bytes_ok l -> in_width (8 * Z.of_nat (length l)) (le_val l).
Proof.
  unfold bytes_ok, in_width. induction 1 as [| b l Hb _ IH]; cbn [length le_val]; [lia |].
  change (2 ^ 8) with 256 in Hb.
  replace (8 * Z.of_nat (S (length l))) with (8 + 8 * Z.of_nat (length l)) by lia.
  rewrite Z.pow_add_r by lia. change (2 ^ 8) with 256. lia.
Qed.

Lemma le_val_app l k : le_val (l ++ k) = le_val l + 2 ^ (8 * Z.of_nat (length l)) * le_val k.
Proof.
  induction l as [| b l IH]; cbn [app length le_val]; [lia |].
  rewrite IH. replace (8 * Z.of_nat (S (length l))) with (8 + 8 * Z.of_nat (length l)) by lia.
  rewrite Z.pow_add_r by lia. change (2 ^ 8) with 256. lia.
Qed.

Lemma store_length n off v d : (off + n <= length d)%nat -> length (store n off v d) = length d.
Proof.
  intros. unfold store. rewrite !length_app, length_take, length_drop, le_bytes_length. lia.
Qed.

Lemma store_ok n off v d : bytes_ok d -> bytes_ok (store n off v d).
Proof.
  intros H. unfold store, bytes_ok. apply Forall_app. split; [by apply Forall_take |].
  apply Forall_app. split; [apply le_bytes_ok | by apply Forall_drop].
Qed.

Lemma store_lookup_other n off v d i : (off + n <= length d)%nat ->
  (i < off \/ off + n <= i)%nat -> store n off v d !! i = d !! i.
Proof.
  intros Hl Hi. unfold store. destruct Hi as [Hi | Hi].
  - rewrite lookup_app_l by (rewrite length_take; lia). apply lookup_take_lt; lia.
  - rewrite lookup_app_r by (rewrite length_take; lia). rewrite length_take.
    rewrite lookup_app_r by (rewrite le_bytes_length; lia). rewrite le_bytes_length.
    rewrite lookup_drop. f_equal. lia.
Qed.

Lemma load_ext n off d d' : (forall i, off <= i < off + n -> d !! i = d' !! i)%nat ->
  load n off d = load n off d'.
Proof.
  intros H. unfold load. f_equal. apply list_eq. intros i.
  destruct (decide (i < n)%nat).
  - rewrite !lookup_take_lt, !lookup_drop by done. apply H. lia.
  - rewrite !lookup_take_ge by lia. done.
Qed.

Lemma load_store_same n off v d : (off + n <= length d)%nat ->
  load n off (store n off v d) = wrap (8 * Z.of_nat n) v.
Proof.
  intros H. unfold load, store.
  rewrite drop_app_length' by (rewrite length_take; lia).
  rewrite take_app_length' by (by rewrite le_bytes_length). apply le_val_bytes.
Qed.

Lemma load_store_other n off n' off' v d : (off' + n' <= length d)%nat ->
  (off + n <= off' \/ off' + n' <= off)%nat -> load n off (store n' off' v d) = load n off d.
Proof. intros Hl Hd. apply load_ext. intros i Hi. apply store_lookup_other; lia. Qed.

Lemma load_range n off d : bytes_ok d -> (off + n <= length d)%nat ->
  in_width (8 * Z.of_nat n) (load n off d).
Proof.
  intros Hd Hl. unfold load.
  replace (Z.of_nat n) with (Z.of_nat (length (take n (drop off d)))) by
    (rewrite length_take, length_drop; lia).
  apply le_val_range. by apply Forall_take, Forall_drop.
Qed.

Lemma load_split n m off d : (off + n + m <= length d)%nat ->
  load (n + m) off d = load n off d + 2 ^ (8 * Z.of_nat n) * load m (off + n) d.
Proof.
  intros H. unfold load. rewrite <- take_take_drop, drop_drop, le_val_app.
  rewrite length_take, length_drop. repeat f_equal; lia.
Qed.

(** * Well-formed configurations *)

Record config_wf (c : config_class) : Prop := {
  wf_len1 : length (storage1 c) = 64%nat;
  wf_len2 : length (storage2 c) = 36%nat;
  wf_bytes1 : bytes_ok (storage1 c);
  wf_bytes2 : bytes_ok (storage2 c);
  wf_base : in_width 8 (PXCAPBaseOffset c);
}.

Lemma get1_range r c : config_wf c -> (r.1 + r.2 <= 64)%nat ->
  in_width (8 * Z.of_nat r.2) (get1 r c).
Proof. intros [] H. apply load_range; [done | lia]. Qed.

(** What every write leaves alone: the capability structure, the parameters, and
    the header bytes outside of a set. *)
Record keeps (P : nat -> bool) (c c' : config_class) : Prop := {
  k_wf : config_wf c -> config_wf c';
  k_storage2 : storage2 c' = storage2 c;
  k_param : (barsize0 c', barsize1 c', configDelay c', PXCAPBaseOffset c', is_switch c', id c')
            = (barsize0 c, barsize1 c, configDelay c, PXCAPBaseOffset c, is_switch c, id c);
  k_bytes : config_wf c -> forall i, P i = false -> storage1 c' !! i = storage1 c !! i;
}.

Lemma keeps_refl P c : keeps P c c.
Proof. by constructor. Qed.

Lemma keeps_trans P c c' c'' : keeps P c c' -> keeps P c' c'' -> keeps P c c''.
Proof.
  intros [W1 S1 P1 B1] [W2 S2 P2 B2]. constructor; [auto | congruence | congruence |].
  intros Hw i Hi. rewrite B2 by auto. auto.
Qed.

Lemma keeps_store (P : nat -> bool) n off v c :
  (off + n <=? 64)%nat && forallb P (seq off n) = true ->
  keeps P c (set_storage1 (store n off v (storage1 c)) c).
Proof.
  intros [H1 H2]%andb_prop. apply Nat.leb_le in H1. rewrite forallb_forall in H2.
  constructor; cbn; try done.
  - intros []. constructor; cbn; auto using store_ok. rewrite store_length; lia.
  - intros [] i Hi. apply store_lookup_other; [lia |].
    destruct (decide (off <= i < off + n)%nat) as [Hin |]; [| lia].
    rewrite (H2 i) in Hi; [done |]. apply in_seq. lia.
Qed.

Lemma keeps_flags P c c' : storage1 c' = storage1 c -> storage2 c' = storage2 c ->
  (barsize0 c', barsize1 c', configDelay c', PXCAPBaseOffset c', is_switch c', id c')
  = (barsize0 c, barsize1 c, configDelay c, PXCAPBaseOffset c, is_switch c, id c) ->
  keeps P c c'.
Proof.
  intros E1 E2 E3. constructor; [| done | done | intros; by rewrite E1].
  intros []. simplify_eq. constructor; congruence.
Qed.

(** Decide a [keeps] goal for a chain of assignments. *)
Ltac keep :=
  cbn [fst];
  repeat match goal with
  | |- keeps _ ?c ?c => apply keeps_refl
  | |- keeps _ _ (put1 ?r ?v ?c) =>
      eapply keeps_trans; [| unfold put1, put; apply keeps_store; vm_compute; reflexivity]
  | |- keeps _ _ (set_storage1 (store _ _ _ (storage1 ?c)) ?c) =>
      eapply keeps_trans; [| apply keeps_store; vm_compute; reflexivity]
  | |- keeps _ _ (_ _ ?c) => eapply keeps_trans; [| by apply (keeps_flags _ c)]
  | |- keeps _ _ (_ _ _ ?c) => eapply keeps_trans; [| by apply (keeps_flags _ c)]
  end.

Ltac offset_cases o :=
  repeat match goal with
  | |- context [if o =? ?k then _ else _] =>
      let E := fresh "E" in destruct (Z.eqb_spec o k) as [E |]; [rewrite ?E |]
  end.

(** The bytes of an access, and the bytes of the header that some write changes. *)
Definition span (offset n : Z) (i : nat) : bool :=
  (offset <=? Z.of_nat i) && (Z.of_nat i <? offset + n).
Definition programmable (i : nat) : bool :=
  ((4 <=? i) && (i <? 8) || (15 <=? i) && (i <? 52) || (56 <=? i) && (i <? 61)
   || (62 <=? i) && (i <? 64))%nat.

Lemma write8_keeps offset val c :
  keeps (fun i => span offset 1 i && programmable i) c (write8 offset val c).1.
Proof. unfold write8. offset_cases offset; keep. Qed.

Lemma write16_keeps offset val c :
  keeps (fun i => span offset 2 i && programmable i) c (write16 offset val c).1.
Proof. unfold write16. offset_cases offset; keep. Qed.

Lemma write32_keeps offset val c :
  keeps (fun i => span offset 4 i && programmable i) c (write32 offset val c).1.
Proof.
  unfold write32. offset_cases offset; cbv zeta; try destruct (val =? 0xFFFFFFFF); keep.
Qed.

(** The configuration offset of a packet. *)
Definition config_offset (pkt : Packet) : Z := Z.land (addr pkt) PCIE_CONFIG_SIZE.

Lemma config_offset_range pkt : 0 <= config_offset pkt.
Proof. apply Z.land_nonneg. right. unfold PCIE_CONFIG_SIZE. lia. Qed.

(** The state change of a write, without the packet. *)
Definition write_step (offset n val : Z) (c : config_class) : config_class :=
  if (offset <? PCIE_HEADER_SIZE) && isWritable offset then
    if n =? 1 then (write8 offset val c).1
    else if n =? 2 then (write16 offset val c).1
    else (write32 offset val c).1
  else c.

Lemma write_pxcap_ignored offset n val c : write_pxcap offset n val c = Ok c.
Proof.
  unfold write_pxcap, SLOT_REG_BASE, SLOT_REG_LIMIT.
  destruct (Z.ltb_spec offset 20), (Z.ltb_spec 27 offset); done || lia.
Qed.

(** A write that returns has the step's effect. *)
Lemma writeConfig_step pkt val c r t c' chg :
  writeConfig pkt val c = Ok (r, t, c', chg) ->
  makeResponse pkt = Ok r /\ t = configDelay c' /\
  c' = write_step (config_offset pkt) (psize pkt) val c /\
  (c' = c \/ psize pkt = 1 \/ psize pkt = 2 \/ psize pkt = 4) /\
  (isWritable (config_offset pkt) = false -> chg = []) /\
  (config_offset pkt < 64 \/
   PXCAPBaseOffset c <= config_offset pkt < PXCAPBaseOffset c + 36).
Proof.
  unfold writeConfig, getAddr, getSize, write_step, config_offset. intros H. obind_inv.
  set (o := Z.land _ _) in *. unfold PCIE_HEADER_SIZE, PXCAPSIZE in *.
  destruct (Z.ltb_spec o 64) as [Ho | Ho]; cbn [andb] in *.
  - destruct (isWritable o); cbn [negb andb] in *.
    + destruct (Z.eqb_spec (psize pkt) 1), (Z.eqb_spec (psize pkt) 2), (Z.eqb_spec (psize pkt) 4);
        try discriminate H; cbn [obind] in H;
        repeat match type of H with context [let (_, _) := ?w in _] => destruct w eqn:? end;
        obind_inv; cbn [fst]; split_and!; auto; done.
    + obind_inv. split_and!; auto.
  - destruct (Z.leb_spec (PXCAPBaseOffset c) o), (Z.ltb_spec o (PXCAPBaseOffset c + 36));
      cbn [andb] in H; try discriminate H.
    rewrite write_pxcap_ignored in H. cbn [obind] in H. obind_inv. split_and!; auto.
Qed.

Lemma write_step_keeps offset n val c : (n = 1 \/ n = 2 \/ n = 4) ->
  keeps (fun i => span offset n i && programmable i) c (write_step offset n val c).
Proof.
  unfold write_step. intros Hn. destruct (_ && _); [| apply keeps_refl].
  destruct Hn as [-> | [-> | ->]]; cbn [Z.eqb Pos.eqb];
    [apply write8_keeps | apply write16_keeps | apply write32_keeps].
Qed.

Lemma writeConfig_keeps pkt val c r t c' chg :
  writeConfig pkt val c = Ok (r, t, c', chg) ->
  keeps (fun i => span (config_offset pkt) (psize pkt) i && programmable i) c c'.
Proof.
  intros H. destruct (writeConfig_step _ _ _ _ _ _ _ H) as (_ & _ & -> & Hn & _).
  destruct Hn as [-> | Hn]; [apply keeps_refl | by apply write_step_keeps].
Qed.

(** A history of configuration writes. *)
Fixpoint run_writes (ws : list (Packet * Z)) (c : config_class) : outcome config_class :=
  match ws with
  | [] => Ok c
  | (pkt, val) :: ws =>
      let! (_, _, c, _) := writeConfig pkt val c in run_writes ws c
  end.

(** A configuration write that returns answers the packet, changes no byte of
    the header outside of the accessed span and no byte of the capability
    structure, keeps the configuration well formed, ignores the read-only
    offsets, and announces nothing when nothing changed. *)
Theorem writeConfig_frame pkt val c r t c' chg :
  config_wf c -> writeConfig pkt val c = Ok (r, t, c', chg) ->
  makeResponse pkt = Ok r /\ t = configDelay c /\ config_wf c' /\
  storage2 c' = storage2 c /\
  (forall i, span (config_offset pkt) (psize pkt) i = false -> storage1 c' !! i = storage1 c !! i) /\
  (isWritable (config_offset pkt) = false -> c' = c /\ chg = []).
Proof.
  intros Hwf H. pose proof (writeConfig_keeps _ _ _ _ _ _ _ H) as [Kwf Ks2 Kp Kb].
  destruct (writeConfig_step _ _ _ _ _ _ _ H) as (Hr & -> & Hc & _ & Hu & _).
  split_and!; auto; [congruence | |].
  - intros i Hi. apply Kb; [done |]. by rewrite Hi.
  - intros Hw. split; [| auto]. unfold write_step in Hc. by rewrite Hw, andb_false_r in Hc.
Qed.

(** The registers that identify the bridge. *)
Definition identity_regs : list reg :=
  [VendorId; DeviceId; Revision; ProgIF; SubClassCode; ClassCode; CacheLineSize; LatencyTimer;
   HeaderType; CapabilityPointer; reserved; InterruptPin].

Lemma identity_regs_fixed r i : In r identity_regs -> (r.1 <= i < r.1 + r.2)%nat ->
  programmable i = false.
Proof.
  intros Hr Hi.
  assert (H : forallb (fun r => forallb (fun i => negb (programmable i)) (seq r.1 r.2))
                identity_regs = true) by reflexivity.
  rewrite forallb_forall in H. specialize (H r Hr). rewrite forallb_forall in H.
  apply negb_true_iff, H, in_seq. lia.
Qed.

(** Whatever sequence of configuration accesses software performs, the
    identity of the bridge stays: vendor, device, revision, class, header type,
    capability pointer, interrupt pin and the whole capability structure keep
    their bytes, and the configuration stays well formed. *)
Theorem identity_preserved ws c c' :
  config_wf c -> run_writes ws c = Ok c' ->
  config_wf c' /\ storage2 c' = storage2 c /\
  (forall r, In r identity_regs -> get1 r c' = get1 r c) /\
  (forall i, programmable i = false -> storage1 c' !! i = storage1 c !! i).
Proof.
  intros Hwf H. assert (K : keeps programmable c c').
  { clear Hwf. revert c H. induction ws as [| [pkt val] ws IH]; cbn; intros c H.
    - obind_inv. apply keeps_refl.
    - destruct (writeConfig pkt val c) as [[[[r t] c1] chg] |] eqn:E; cbn in H; [| discriminate].
      apply (keeps_trans _ _ c1); [| auto].
      destruct (writeConfig_keeps _ _ _ _ _ _ _ E) as [K1 K2 K3 K4]. constructor; auto.
      intros Hw i Hi. apply K4; [done |]. by rewrite Hi, andb_false_r. }
  destruct K as [Kwf Ks2 Kp Kb]. split_and!; auto.
  intros r Hr. apply load_ext. intros i Hi. apply Kb; [done |].
  by apply (identity_regs_fixed r).
Qed.

(** * The register map *)

(** Two integers side by side. *)
Definition join (k a b : Z) : Z := a + 2 ^ k * b.

Lemma join_testbit k a b i : 0 <= k -> in_width k a -> 0 <= i ->
  Z.testbit (join k a b) i = if i <? k then Z.testbit a i else Z.testbit b (i - k).
Proof.
  intros Hk [Ha1 Ha2] Hi. unfold join. destruct (Z.ltb_spec i k).
  - rewrite <- (Z.mod_pow2_bits_low _ k) by lia.
    rewrite Z.mul_comm, Z_mod_plus_full, Z.mod_small by lia. done.
  - replace i with ((i - k) + k) at 1 by lia.
    rewrite <- Z.div_pow2_bits by lia. f_equal.
    rewrite Z.mul_comm, Z.div_add, Z.div_small by lia. done.
Qed.

Lemma join_split k v : 0 <= k -> join k (wrap k v) (Z.shiftr v k) = v.
Proof.
  intros. unfold join, wrap. rewrite Z.shiftr_div_pow2 by lia.
  pose proof (Z.div_mod v (2 ^ k)). lia.
Qed.

Lemma join_land k a b c d : 0 <= k -> in_width k a -> in_width k c ->
  Z.land (join k a b) (join k c d) = join k (Z.land a c) (Z.land b d).
Proof.
  intros. zbitwise. rewrite !join_testbit by auto with width.
  rewrite !Z.land_spec. by destruct (i <? k).
Qed.

Lemma join_lor k a b c d : 0 <= k -> in_width k a -> in_width k c ->
  Z.lor (join k a b) (join k c d) = join k (Z.lor a c) (Z.lor b d).
Proof.
  intros. zbitwise. rewrite !join_testbit by auto with width.
  rewrite !Z.lor_spec. by destruct (i <? k).
Qed.

Lemma masked_wrap w m m' val old : 0 <= w -> in_width w val -> in_width w old ->
  wrap w (Z.lor (Z.land val (Z.lnot m)) (Z.land old m'))
  = Z.lor (Z.land val (Z.ldiff (Z.ones w) m)) (Z.land old m').
Proof.
  intros Hw Hv Ho. zbitwise. destruct (Z.ltb_spec i w); cbn [andb]; [done |].
  by rewrite (in_width_testbit w val), (in_width_testbit w old) by lia || done.
Qed.

(** What a write of [val] over [old] leaves: the bits of [val] in [W], the bits of
    [old] in [K] and the bits [F]. *)
Definition blend (m : Z * Z * Z) (val old : Z) : Z :=
  let '(W, K, F) := m in Z.lor (Z.lor (Z.land val W) (Z.land old K)) F.

(** The register map of the header for each access size: the bits software
    writes, the bits that stay and the bits that read as one. *)
Definition reg_map1 (offset : Z) : Z * Z * Z :=
  if (offset =? 0x18) || (offset =? 0x19) || (offset =? 0x1A) || (offset =? 0x3C)
     || (offset =? 0x0F) then (0xFF, 0, 0)
  else if (offset =? 0x1C) || (offset =? 0x1D) then (0xF0, 0x0F, 0)
  else (0, 0xFF, 0).
Definition reg_map2 (offset : Z) : Z * Z * Z :=
  if offset =? 0x04 then (0x00FF, 0, 0x0400)
  else if (offset =? 0x06) || (offset =? 0x1E) then (0x00FF, 0, 0)
  else if (offset =? 0x20) || (offset =? 0x22) then (0xFFF0, 0x000F, 0)
  else if (offset =? 0x24) || (offset =? 0x3E) then (0xFFFF, 0, 0)
  else if offset =? 0x26 then (0xFFF0, 0, 0)
  else if offset =? 0x1C then (0xF0F0, 0x0F0F, 0)
  else (0, 0xFFFF, 0).
Definition reg_map4 (c : config_class) (offset val : Z) : Z * Z * Z :=
  if offset =? 0x38 then (0, 0, 0)
  else if (offset =? 0x28) || (offset =? 0x2C) || (offset =? 0x04) || (offset =? 0x18)
  then (0xFFFFFFFF, 0, 0)
  else if offset =? 0x20 then (0xFFF0FFF0, 0x000F000F, 0)
  else if offset =? 0x24 then (0xFFF0FFFF, 0, 0)
  else if offset =? 0x10 then
    if truthy (Z.land (get1 Bar0 c) 1) then
      if val =? 0xFFFFFFFF then (0, 1, u32 (wnot 32 (barsize0 c) - 1))
      else (wnot 32 (u32 (barsize0 c - 1)), 1, 0)
    else (wnot 32 (u32 (barsize0 c - 1)), 0xF, 0)
  else if offset =? 0x14 then
    (wnot 32 (u32 (barsize1 c - 1)), if truthy (Z.land (get1 Bar1 c) 1) then 1 else 0xF, 0)
  else (0, 0xFFFFFFFF, 0).
Definition reg_map (c : config_class) (offset n val : Z) : Z * Z * Z :=
  if negb (isWritable offset) then (0, Z.ones (8 * n), 0)
  else if n =? 1 then reg_map1 offset else if n =? 2 then reg_map2 offset
  else reg_map4 c offset val.

Lemma blend_none w val old : 0 <= w -> in_width w old -> blend (0, Z.ones w, 0) val old = old.
Proof.
  intros Hw Ho. unfold blend. rewrite Z.land_0_r, Z.lor_0_l, Z.lor_0_r.
  rewrite Z.land_ones by done. by apply wrap_small.
Qed.

Lemma blend_all w val old : 0 <= w -> in_width w val -> blend (Z.ones w, 0, 0) val old = val.
Proof.
  intros Hw Ho. unfold blend. rewrite Z.land_0_r, !Z.lor_0_r.
  rewrite Z.land_ones by done. by apply wrap_small.
Qed.

Lemma load_hit n off v c : config_wf c -> (off + n <=? 64)%nat = true ->
  load n off (store n off v (storage1 c)) = wrap (8 * Z.of_nat n) v.
Proof. intros [] H%Nat.leb_le. apply load_store_same. lia. Qed.

(** Read back the register just assigned; the goal's register is a constant. *)
Ltac reg_hit :=
  match goal with H : config_wf ?c |- _ => etransitivity; [by apply (load_hit _ _ _ c) |] end;
  cbn [Z.of_nat Z.mul Pos.of_succ_nat Pos.mul].

(** Drop the branches of a table that the offset is known to miss. *)
Ltac miss_all offset :=
  repeat match goal with
  | H : offset <> ?k |- _ =>
      let k' := eval vm_compute in k in
      let E := fresh "E" in
      assert (E : (offset =? k') = false) by (by apply Z.eqb_neq); rewrite ?E; clear E H
  end; cbn [orb].

Lemma load_old n offset c : config_wf c -> 0 <= offset -> offset + Z.of_nat n <= 64 ->
  in_width (8 * Z.of_nat n) (load n (Z.to_nat offset) (storage1 c)).
Proof. intros Hwf Hp Ho. apply load_range; [apply Hwf | rewrite (wf_len1 _ Hwf); lia]. Qed.

Lemma reg_map1_ok offset val c : config_wf c -> in_width 8 val -> 0 <= offset -> offset + 1 <= 64 ->
  load 1 (Z.to_nat offset) (storage1 (write8 offset val c).1)
  = blend (reg_map1 offset) val (load 1 (Z.to_nat offset) (storage1 c)).
Proof.
  intros Hwf Hv Hp Ho. pose proof (load_old 1 offset c Hwf Hp Ho) as Hold.
  unfold write8. offset_cases offset; cbn [fst]; try subst offset.
  all: try (reg_hit; rewrite wrap_small by done; symmetry; by apply (blend_all 8)).
  1,2: reg_hit; unfold masked; rewrite masked_wrap by done; symmetry; apply Z.lor_0_r.
  unfold reg_map1. miss_all offset. symmetry. by apply (blend_none 8).
Qed.

Lemma load_pair n m off a b c : config_wf c -> (off + (n + m) <=? 64)%nat = true ->
  load (n + m) off (store m (off + n) b (store n off a (storage1 c)))
  = join (8 * Z.of_nat n) (wrap (8 * Z.of_nat n) a) (wrap (8 * Z.of_nat m) b).
Proof.
  intros [Hl _ _ _ _] H%Nat.leb_le.
  assert (L1 : length (store n off a (storage1 c)) = 64%nat) by (rewrite store_length; lia).
  assert (L2 : length (store m (off + n) b (store n off a (storage1 c))) = 64%nat) by
    (rewrite store_length; lia).
  rewrite load_split by lia. rewrite load_store_other, load_store_same by lia.
  by rewrite load_store_same by lia.
Qed.

(** The blend of two registers side by side is the blend of each. *)
Lemma blend_join k W1 W2 K1 K2 val a b : 0 <= k ->
  in_width k W1 -> in_width k K1 -> in_width k a ->
  blend (join k W1 W2, join k K1 K2, 0) val (join k a b)
  = join k (Z.lor (Z.land (wrap k val) W1) (Z.land a K1))
           (Z.lor (Z.land (Z.shiftr val k) W2) (Z.land b K2)).
Proof.
  intros Hk HW HK Ha. unfold blend. rewrite Z.lor_0_r.
  rewrite <- (join_split k val) at 1 by done.
  rewrite !join_land by auto with width. by rewrite join_lor by auto with width.
Qed.

Lemma pair_blend n m off a b c val W1 W2 K1 K2 : config_wf c -> (off + (n + m) <=? 64)%nat = true ->
  in_width (8 * Z.of_nat n) W1 -> in_width (8 * Z.of_nat n) K1 ->
  wrap (8 * Z.of_nat n) a
  = Z.lor (Z.land (wrap (8 * Z.of_nat n) val) W1) (Z.land (load n off (storage1 c)) K1) ->
  wrap (8 * Z.of_nat m) b
  = Z.lor (Z.land (Z.shiftr val (8 * Z.of_nat n)) W2)
          (Z.land (load m (off + n) (storage1 c)) K2) ->
  load (n + m) off (store m (off + n) b (store n off a (storage1 c)))
  = blend (join (8 * Z.of_nat n) W1 W2, join (8 * Z.of_nat n) K1 K2, 0) val
          (load (n + m) off (storage1 c)).
Proof.
  intros Hwf Hl HW HK Ha Hb. rewrite load_pair by done.
  pose proof (wf_len1 _ Hwf) as Hlen. pose proof (proj1 (Nat.leb_le _ _) Hl).
  rewrite (load_split n m off (storage1 c)) by lia.
  change (load n off (storage1 c) + _) with
    (join (8 * Z.of_nat n) (load n off (storage1 c)) (load m (off + n) (storage1 c))).
  rewrite blend_join; [by rewrite Ha, Hb | lia | done | done |].
  apply load_range; [apply Hwf | lia].
Qed.

Lemma wrap_ones w v : 0 <= w -> Z.land v (Z.ones w) = wrap w v.
Proof. intros. by rewrite Z.land_ones. Qed.

Lemma shiftr_width w k v : 0 <= k -> 0 <= w -> in_width (k + w) v -> in_width w (Z.shiftr v k).
Proof.
  intros Hk Hw [H1 H2]. unfold in_width. rewrite Z.shiftr_div_pow2 by lia.
  rewrite Z.pow_add_r in H2 by lia. split; [apply Z.div_pos; lia |].
  apply Z.div_lt_upper_bound; lia.
Qed.

Lemma reg_map2_ok offset val c : config_wf c -> in_width 16 val -> 0 <= offset -> offset + 2 <= 64 ->
  load 2 (Z.to_nat offset) (storage1 (write16 offset val c).1)
  = blend (reg_map2 offset) val (load 2 (Z.to_nat offset) (storage1 c)).
Proof.
  intros Hwf Hv Hp Ho. pose proof (load_old 2 offset c Hwf Hp Ho) as Hold.
  unfold write16. offset_cases offset; cbn [fst]; try subst offset.
  all: try (reg_hit; rewrite wrap_small by done; symmetry; by apply (blend_all 16)).
  all: try (reg_hit; unfold masked; rewrite masked_wrap by done; symmetry; apply Z.lor_0_r).
  all: try (symmetry; by apply (blend_none 16)).
  1,2,3: reg_hit; unfold blend; cbn -[Z.land Z.lor wrap]; change 255 with (Z.ones 8);
    rewrite (wrap_ones 8), Z.land_0_r, ?Z.lor_0_r by lia; apply wrap_small.
  - apply lor_in_width; [lia | | by compute].
    apply (in_width_mono 8); [lia | auto with width].
  - apply (in_width_mono 8); [lia | auto with width].
  - apply (in_width_mono 8); [lia | auto with width].
  - change (reg_map2 PCI1_IO_BASE) with (join 8 0xF0 0xF0, join 8 0x0F 0x0F, 0).
    apply (pair_blend 1 1 28 _ _ c); [done | done | done | done | |];
      change (8 * Z.of_nat 1) with 8; unfold masked.
    + change 0x00FF with (Z.ones 8). rewrite wrap_ones by lia.
      by rewrite masked_wrap by (first [lia | apply wrap_range; lia | by apply (load_old 1 28 c)]).
    + unfold get1, get, put1, put. cbn [fst snd IOLimit storage1 set_storage1 IOBase].
      rewrite load_store_other by (cbn [storage1 set_valid_io]; rewrite ?(wf_len1 _ Hwf); lia).
      rewrite (wrap_small 8 (Z.shiftr val 8)) by (by apply (shiftr_width 8 8)).
      by rewrite masked_wrap by (first [lia | by apply (shiftr_width 8 8) | by apply (load_old 1 29 c)]).
  - unfold reg_map2. miss_all offset. symmetry. by apply (blend_none 16).
Qed.

Lemma bar_write_ok size val old : in_width 32 val -> in_width 32 old -> 
  bar_write size val old (wnot 32 (u32 (size - 1)))
  = blend (wnot 32 (u32 (size - 1)), if truthy (Z.land old 1) then 1 else 0xF, 0) val old /\
  (truthy (Z.land old 1) = false \/ val <> 0xFFFFFFFF -> forall s,
   bar_write size val old s = bar_write size val old (wnot 32 (u32 (size - 1)))) /\
  (forall s, in_width 32 s -> in_width 32 (bar_write size val old s)).
Proof.
  intros Hv Ho. unfold bar_write, blend. rewrite Z.lor_0_r.
  assert (Hm : in_width 32 (wnot 32 (u32 (size - 1)))) by (apply wrap_range; lia).
  assert (Ha : Z.land 0xFFFFFFFF (wnot 32 (u32 (size - 1))) = wnot 32 (u32 (size - 1))).
  { change 0xFFFFFFFF with (Z.ones 32). rewrite Z.land_comm, wrap_ones by lia. by apply wrap_small. }
  destruct (Z.eqb_spec val 0xFFFFFFFF) as [-> |]; destruct (truthy (Z.land old 1));
    split_and!; rewrite ?Ha; try done; intros; intuition (done || auto with width).
Qed.

Lemma reg_map4_ok offset val c : config_wf c -> in_width 32 val -> 0 <= offset -> offset + 4 <= 64 ->
  load 4 (Z.to_nat offset) (storage1 (write32 offset val c).1)
  = blend (reg_map4 c offset val) val (load 4 (Z.to_nat offset) (storage1 c)).
Proof.
  intros Hwf Hv Hp Ho. pose proof (load_old 4 offset c Hwf Hp Ho) as Hold.
  unfold write32. offset_cases offset; cbn [fst]; try subst offset.
  all: try (reg_hit; rewrite wrap_small by done; symmetry; by apply (blend_all 32)).
  all: try (symmetry; by apply (blend_none 32)).
  - reg_hit. cbn. by rewrite Z.land_0_r, Z.land_0_r.
  - destruct (bar_write_ok (barsize0 c) val (get1 Bar0 c) Hv Hold) as (B1 & B2 & B3).
    set (s := u32 (wnot 32 (barsize0 c) - 1)).
    assert (Hs : in_width 32 s) by (apply wrap_range; lia).
    transitivity (wrap 32 (bar_write (barsize0 c) val (get1 Bar0 c) s)).
    { destruct (val =? _); by apply (load_hit 4 16 _ c). }
    rewrite wrap_small by auto. unfold reg_map4. cbn [Z.eqb Pos.eqb orb PCI1_BASE_ADDR0].
    destruct (truthy (Z.land (get1 Bar0 c) 1)) eqn:Et; [destruct (Z.eqb_spec val 0xFFFFFFFF) as [-> |] |].
    + unfold bar_write. rewrite Et. unfold blend. by rewrite Z.land_0_r, Z.lor_0_l, Z.lor_comm.
    + rewrite B2, B1 by auto. done.
    + rewrite B2, B1 by auto. done.
  - destruct (bar_write_ok (barsize1 c) val (get1 Bar1 c) Hv Hold) as (B1 & _ & B3).
    transitivity (wrap 32 (bar_write (barsize1 c) val (get1 Bar1 c) (wnot 32 (u32 (barsize1 c - 1))))).
    { destruct (val =? _); by apply (load_hit 4 20 _ c). }
    rewrite wrap_small by (apply B3, wrap_range; lia). apply B1.
  - change (reg_map4 c PCI1_MEM_BASE val) with (join 16 0xFFF0 0xFFF0, join 16 0xF 0xF, 0).
    apply (pair_blend 2 2 32 _ _ c); [done | done | done | done | |];
      change (8 * Z.of_nat 2) with 16; unfold masked.
    + change 0xFFFF with (Z.ones 16). rewrite wrap_ones, wrap_idem by lia.
      by rewrite masked_wrap by (first [lia | apply wrap_range; lia | by apply (load_old 2 32 c)]).
    + rewrite (wrap_small 16 (Z.shiftr val 16)) by (by apply (shiftr_width 16 16)).
      by rewrite masked_wrap by (first [lia | by apply (shiftr_width 16 16) | by apply (load_old 2 34 c)]).
  - change (reg_map4 c PCI1_PRF_MEM_BASE val) with (join 16 0xFFFF 0xFFF0, join 16 0 0, 0).
    apply (pair_blend 2 2 36 _ _ c); [done | done | done | done | |];
      change (8 * Z.of_nat 2) with 16; unfold masked.
    + change 0xFFFF with (Z.ones 16). rewrite wrap_ones, wrap_idem by lia.
      by rewrite masked_wrap by (first [lia | apply wrap_range; lia | by apply (load_old 2 36 c)]).
    + rewrite (wrap_small 16 (Z.shiftr val 16)) by (by apply (shiftr_width 16 16)).
      by rewrite masked_wrap by (first [lia | by apply (shiftr_width 16 16) | by apply (load_old 2 38 c)]).
  - change (reg_map4 c PCI_COMMAND val) with (join 16 0xFFFF 0xFFFF, join 16 0 0, 0).
    apply (pair_blend 2 2 4 _ _ c); [done | done | done | done | |];
      change (8 * Z.of_nat 2) with 16; rewrite Z.land_0_r, Z.lor_0_r;
      change 0xFFFF with (Z.ones 16); rewrite ?wrap_ones, ?wrap_idem by lia; done.
  - unfold reg_map4. miss_all offset. symmetry. by apply (blend_none 32).
Qed.

(** A packet a configuration access can be made with. *)
Definition config_pkt (pkt : Packet) : Prop :=
  flag_isSet VALID_ADDR pkt = true /\ flag_isSet VALID_SIZE pkt = true /\
  needsResponse (cmd pkt) = true /\ (psize pkt = 1 \/ psize pkt = 2 \/ psize pkt = 4).

Lemma config_pkt_response pkt : config_pkt pkt -> exists r, makeResponse pkt = Ok r.
Proof.
  intros (_ & _ & H & _). unfold makeResponse, assert_. rewrite H.
  destruct (response_facts _ H) as (-> & _). cbn. eauto.
Qed.

Lemma readConfig_header pkt c : config_wf c -> config_pkt pkt ->
  config_offset pkt + psize pkt <= 64 ->
  exists r, readConfig pkt c
    = Ok (r, load (Z.to_nat (psize pkt)) (Z.to_nat (config_offset pkt)) (storage1 c), configDelay c).
Proof.
  intros Hwf Hp Ho. destruct (config_pkt_response pkt Hp) as [r Hr]. exists r.
  destruct Hp as (H1 & H2 & _ & Hn). pose proof (config_offset_range pkt) as Hz.
  unfold readConfig, getAddr, getSize, assert_. rewrite H1, H2. cbn [obind].
  change (Z.land (addr pkt) PCIE_CONFIG_SIZE) with (config_offset pkt). unfold PCIE_HEADER_SIZE.
  rewrite (proj2 (Z.ltb_lt _ _)) by lia.
  replace (access_size (psize pkt)) with true by (unfold access_size; destruct Hn as [-> | [-> | ->]]; done).
  unfold read_at. rewrite (wf_len1 _ Hwf), (proj2 (Z.leb_le _ _)) by lia. cbn [obind].
  by rewrite Hr.
Qed.

Lemma write_step_blend offset n val c : config_wf c -> (n = 1 \/ n = 2 \/ n = 4) ->
  in_width (8 * n) val -> 0 <= offset -> offset + n <= 64 ->
  load (Z.to_nat n) (Z.to_nat offset) (storage1 (write_step offset n val c))
  = blend (reg_map c offset n val) val (load (Z.to_nat n) (Z.to_nat offset) (storage1 c)).
Proof.
  intros Hwf Hn Hv Hp Ho. unfold write_step, reg_map, PCIE_HEADER_SIZE.
  rewrite (proj2 (Z.ltb_lt _ _)) by lia. cbn [andb].
  destruct (isWritable offset); cbn [negb].
  - destruct Hn as [-> | [-> | ->]]; cbn [Z.eqb Pos.eqb];
      [by apply reg_map1_ok | by apply reg_map2_ok | by apply reg_map4_ok].
  - symmetry. apply blend_none; [lia |].
    replace (8 * n) with (8 * Z.of_nat (Z.to_nat n)) by lia. apply load_old; [done | lia | lia].
Qed.

(** Reading a header location back after a write of the same size gives the
    written bits, the kept bits and the forced bits of the register map, for every
    offset and every access size. *)
Theorem config_readback pkt rd val c r t c' chg :
  config_wf c -> config_pkt rd -> in_width (8 * psize pkt) val ->
  config_offset rd = config_offset pkt -> psize rd = psize pkt ->
  config_offset pkt + psize pkt <= 64 ->
  writeConfig pkt val c = Ok (r, t, c', chg) ->
  exists p old p', readConfig rd c = Ok (p, old, configDelay c) /\
    readConfig rd c'
    = Ok (p', blend (reg_map c (config_offset pkt) (psize pkt) val) val old, configDelay c).
Proof.
  intros Hwf Hrd Hv Eo En Ho H.
  pose proof (writeConfig_keeps _ _ _ _ _ _ _ H) as [Kwf _ Kp _].
  destruct (writeConfig_step _ _ _ _ _ _ _ H) as (_ & _ & Hc & _).
  destruct (readConfig_header rd c Hwf Hrd) as [p Hp]; [lia |].
  destruct (readConfig_header rd c' (Kwf Hwf) Hrd) as [p' Hp']; [lia |].
  exists p, (load (Z.to_nat (psize rd)) (Z.to_nat (config_offset rd)) (storage1 c)), p'.
  assert (Ed : configDelay c' = configDelay c) by congruence.
  split; [done |]. rewrite Hp', Ed. do 3 f_equal. subst c'.
  rewrite Eo, En. pose proof (config_offset_range pkt).
  apply write_step_blend; auto. rewrite <- En. apply Hrd.
Qed.

(** * Windows: lemmas *)

Lemma lor_low k a b : 0 <= k -> in_width k b -> Z.lor (a * 2 ^ k) b = a * 2 ^ k + b.
Proof.
  intros Hk Hb. rewrite Z.add_comm, (Z.mul_comm a). fold (join k b a).
  apply Z.bits_inj'. intros i Hi.
  rewrite join_testbit, Z.lor_spec, Z.mul_comm, Z.mul_pow2_bits by done.
  destruct (Z.ltb_spec i k).
  - rewrite (Z.testbit_neg_r a) by lia. done.
  - rewrite (in_width_testbit k b) by (done || lia). apply orb_false_r.
Qed.

Lemma shiftr4_range w x : 4 <= w -> in_width w x -> 0 <= Z.shiftr x 4 < 2 ^ (w - 4).
Proof. intros Hw Hx. apply (shiftr_width (w - 4) 4); [lia | lia |]. by replace (4 + (w - 4)) with w by lia. Qed.

Lemma mem_window x : in_width 16 x ->
  u32 (Z.shiftl (Z.shiftr x 4) 20) = Z.shiftr x 4 * 2 ^ 20 /\
  Z.lor (u32 (Z.shiftl (Z.shiftr x 4) 20)) 0xFFFFF = Z.shiftr x 4 * 2 ^ 20 + (2 ^ 20 - 1) /\
  in_width 32 (Z.lor (u32 (Z.shiftl (Z.shiftr x 4) 20)) 0xFFFFF).
Proof.
  intros Hx. pose proof (shiftr4_range 16 x ltac:(lia) Hx) as Hs.
  rewrite Z.shiftl_mul_pow2 by lia. rewrite wrap_small by (unfold in_width; lia).
  rewrite lor_low by (unfold in_width; lia). unfold in_width. lia.
Qed.

Lemma io_window u x : in_width 16 u -> in_width 8 x ->
  let v := u32 (u32 (Z.shiftl u 16) + Z.shiftr x 4 * IO_BASE_SHIFT) in
  v = u * 2 ^ 16 + Z.shiftr x 4 * 2 ^ 12 /\
  Z.lor v 0xFFF = u * 2 ^ 16 + Z.shiftr x 4 * 2 ^ 12 + (2 ^ 12 - 1) /\ in_width 32 (Z.lor v 0xFFF).
Proof.
  intros Hu Hx v. pose proof (shiftr4_range 8 x ltac:(lia) Hx) as Hs. unfold in_width in Hu.
  assert (Hv : v = u * 2 ^ 16 + Z.shiftr x 4 * 2 ^ 12).
  { unfold v, IO_BASE_SHIFT. rewrite Z.shiftl_mul_pow2 by lia.
    rewrite (wrap_small 32 (u * _)) by (unfold in_width; lia).
    apply wrap_small. unfold in_width. lia. }
  split; [done |]. rewrite Hv.
  replace (u * 2 ^ 16 + Z.shiftr x 4 * 2 ^ 12) with ((u * 2 ^ 4 + Z.shiftr x 4) * 2 ^ 12) by lia.
  rewrite lor_low by (unfold in_width; lia). unfold in_width. lia.
Qed.

Lemma prefetch_product_ok x : in_width 16 x ->
  prefetch_product (Z.shiftr x 4)
  = if x <? 0x8000 then Ok (Z.shiftr x 4 * 2 ^ 20) else Err Undefined.
Proof.
  intros [H1 H2]. unfold prefetch_product, PREFETCH_BASE_SHIFT.
  rewrite Z.shiftr_div_pow2 by lia. change (2 ^ 4) with 16. change (2 ^ 20) with 1048576.
  pose proof (Z.div_mod x 16 ltac:(lia)). pose proof (Z.mod_pos_bound x 16 ltac:(lia)).
  destruct (Z.ltb_spec x 0x8000), (Z.ltb_spec (x / 16 * 1048576) (2 ^ 31)); done || lia.
Qed.

Lemma prefetch_base u x : in_width 32 u -> in_width 16 x ->
  (let! p := prefetch_product (Z.shiftr x 4) in Ok (u64 (u64 (Z.shiftl u 32) + p)))
  = if x <? 0x8000 then Ok (u * 2 ^ 32 + Z.shiftr x 4 * 2 ^ 20) else Err Undefined.
Proof.
  intros Hu Hx. rewrite prefetch_product_ok by done.
  pose proof (shiftr4_range 16 x ltac:(lia) Hx) as Hs. unfold in_width in Hu.
  destruct (x <? 0x8000); [| done]. cbn [obind]. f_equal. rewrite Z.shiftl_mul_pow2 by lia.
  rewrite (wrap_small 64 (u * _)) by (unfold in_width; lia).
  apply wrap_small. unfold in_width. lia.
Qed.

Lemma prefetch_limit u x : in_width 32 u -> in_width 16 x ->
  (let! p := prefetch_product (Z.shiftr x 4) in
   Ok (Z.lor (u64 (u64 (Z.shiftl (u16 u) 32) + p)) 0xFFFFF))
  = if x <? 0x8000 then Ok (u16 u * 2 ^ 32 + Z.shiftr x 4 * 2 ^ 20 + (2 ^ 20 - 1))
    else Err Undefined.
Proof.
  intros _ Hx. assert (Hu : in_width 16 (u16 u)) by (apply wrap_range; lia).
  pose proof (prefetch_base (u16 u) x ltac:(by apply (in_width_mono 16)) Hx) as E.
  destruct (prefetch_product _); cbn [obind] in *; destruct (x <? 0x8000); try discriminate E; [| done].
  injection E as ->. f_equal.
  replace (u16 u * 2 ^ 32 + Z.shiftr x 4 * 2 ^ 20) with
    ((u16 u * 2 ^ 12 + Z.shiftr x 4) * 2 ^ 20) by lia.
  rewrite lor_low by (unfold in_width; lia). done.
Qed.

(** What the window registers decode to.  Memory windows start on a megabyte
    and end on the last byte of one, I/O windows on 4 KB, and never leave their
    32 bits.  The prefetchable window is defined exactly while the low register
    is below 0x8000, beyond which the product overflows an [int]; its base takes
    all 32 upper bits, its limit only 16 of them. *)
Theorem window_spec c : config_wf c ->
  getMemoryBase c = Z.shiftr (get1 MemoryBase c) 4 * 2 ^ 20 /\
  getMemoryLimit c = Z.shiftr (get1 MemoryLimit c) 4 * 2 ^ 20 + (2 ^ 20 - 1) /\
  getIOBase c = get1 IOBaseUpper c * 2 ^ 16 + Z.shiftr (get1 IOBase c) 4 * 2 ^ 12 /\
  getIOLimit c = get1 IOLimitUpper c * 2 ^ 16 + Z.shiftr (get1 IOLimit c) 4 * 2 ^ 12 + (2 ^ 12 - 1) /\
  in_width 32 (getMemoryLimit c) /\ in_width 32 (getIOLimit c) /\
  getPrefetchableMemoryBase c =
    (if get1 PrefetchableMemoryBase c <? 0x8000
     then Ok (get1 PrefetchableMemoryBaseUpper c * 2 ^ 32
              + Z.shiftr (get1 PrefetchableMemoryBase c) 4 * 2 ^ 20)
     else Err Undefined) /\
  getPrefetchableMemoryLimit c =
    (if get1 PrefetchableMemoryLimit c <? 0x8000
     then Ok (u16 (get1 PrefetchableMemoryLimitUpper c) * 2 ^ 32
              + Z.shiftr (get1 PrefetchableMemoryLimit c) 4 * 2 ^ 20 + (2 ^ 20 - 1))
     else Err Undefined).
Proof.
  intros Hwf.
  pose proof (get1_range MemoryBase c Hwf ltac:(cbn; lia)) as R1.
  pose proof (get1_range MemoryLimit c Hwf ltac:(cbn; lia)) as R2.
  pose proof (get1_range IOBase c Hwf ltac:(cbn; lia)) as R3.
  pose proof (get1_range IOLimit c Hwf ltac:(cbn; lia)) as R4.
  pose proof (get1_range IOBaseUpper c Hwf ltac:(cbn; lia)) as R5.
  pose proof (get1_range IOLimitUpper c Hwf ltac:(cbn; lia)) as R6.
  destruct (mem_window _ R1) as [M1 _], (mem_window _ R2) as [_ [M2 M3]].
  destruct (io_window _ _ R5 R3) as [I1 _], (io_window _ _ R6 R4) as [_ [I2 I3]].
  split_and!; auto.
  - apply prefetch_base; apply get1_range; cbn; auto; lia.
  - apply prefetch_limit; apply get1_range; cbn; auto; lia.
Qed.

Lemma masked_shift v old : in_width 16 v ->
  Z.shiftr (wrap 16 (Z.lor (Z.land v (Z.lnot 0xF)) (Z.land old 0xF))) 4 = Z.shiftr v 4.
Proof.
  intros Hv. zbitwise. change 15 with (Z.ones 4). rewrite ones_testbit by lia.
  destruct (Z.ltb_spec (i + 4) 4); [lia |]. cbn [negb].
  rewrite andb_true_r, andb_false_r, orb_false_r.
  destruct (Z.ltb_spec (i + 4) 16); [done |]. by rewrite (in_width_testbit 16 v) by (done || lia).
Qed.

Lemma write_mem_window val c : config_wf c ->
  Z.shiftr (get1 MemoryBase (write32 PCI1_MEM_BASE val c).1) 4 = Z.shiftr (u16 (Z.land val 0xFFFF)) 4 /\
  Z.shiftr (get1 MemoryLimit (write32 PCI1_MEM_BASE val c).1) 4 = Z.shiftr (u16 (Z.shiftr val 16)) 4.
Proof.
  intros Hwf. pose proof (wf_len1 _ Hwf) as Hlen.
  assert (HL : forall v, length (store 2 32 v (storage1 c)) = 64%nat) by
    (intros; rewrite store_length; lia).
  split; [rewrite <- (masked_shift (u16 (Z.land val 0xFFFF)) (get1 MemoryBase c))
         | rewrite <- (masked_shift (u16 (Z.shiftr val 16)) (get1 MemoryLimit c))];
    try (apply wrap_range; lia); f_equal.
  - etransitivity; [apply (load_store_other 2 32 2 34 _ (store 2 32 _ (storage1 c)));
                    [rewrite HL; lia | lia] |].
    apply (load_hit 2 32 _ c Hwf eq_refl).
  - etransitivity; [apply (load_store_same 2 34 _ (store 2 32 _ (storage1 c))); rewrite HL; lia |].
    done.
Qed.

Lemma write32_other val c g : config_wf c -> (g.1 + g.2 <= 32 \/ 36 <= g.1)%nat ->
  get1 g (write32 PCI1_MEM_BASE val c).1 = get1 g c.
Proof.
  intros Hwf Hg. destruct (write32_keeps PCI1_MEM_BASE val c) as [_ _ _ Kb].
  apply load_ext. intros i Hi. apply Kb; [done |]. unfold span, PCI1_MEM_BASE.
  destruct (Z.leb_spec 32 (Z.of_nat i)), (Z.ltb_spec (Z.of_nat i) (32 + 4)); done || lia.
Qed.

Lemma window_halves b l : in_width 12 b -> in_width 12 l ->
  let val := l * 2 ^ 20 + b * 2 ^ 4 in
  Z.shiftr (u16 (Z.land val 0xFFFF)) 4 = b /\ Z.shiftr (u16 (Z.shiftr val 16)) 4 = l.
Proof.
  intros Hb Hl val. unfold in_width in Hb, Hl.
  assert (E : val = b * 2 ^ 4 + (l * 2 ^ 4) * 2 ^ 16) by (unfold val; lia).
  rewrite !Z.shiftr_div_pow2 by lia. split.
  - change 0xFFFF with (Z.ones 16). rewrite wrap_ones, wrap_idem by lia. unfold wrap.
    rewrite E, Z_mod_plus_full, (Z.mod_small (b * 2 ^ 4)) by lia. by rewrite Z.div_mul by lia.
  - rewrite E, Z.div_add, (Z.div_small (b * 2 ^ 4)) by lia. rewrite Z.add_0_l.
    rewrite wrap_small by (unfold in_width; lia). by rewrite Z.div_mul by lia.
Qed.

(** One dword write programs the memory window.  Writing base and limit
    megabytes [b] and [l] makes the port decode exactly the megabytes from [b] to
    [l], marks both registers valid, announces the change to the ports whose
    ranges depend on it, and leaves the I/O and prefetchable windows alone. *)
Theorem program_memory_window pkt b l c :
  config_wf c -> config_pkt pkt -> config_offset pkt = PCI1_MEM_BASE -> psize pkt = 4 ->
  in_width 12 b -> in_width 12 l ->
  exists r c', writeConfig pkt (l * 2 ^ 20 + b * 2 ^ 4) c
               = Ok (r, configDelay c, c', range_changes c) /\
    getMemoryBase c' = b * 2 ^ 20 /\ getMemoryLimit c' = l * 2 ^ 20 + (2 ^ 20 - 1) /\
    valid_memory_base c' = true /\ valid_memory_limit c' = true /\
    getIOBase c' = getIOBase c /\ getIOLimit c' = getIOLimit c /\
    getPrefetchableMemoryBase c' = getPrefetchableMemoryBase c /\
    getPrefetchableMemoryLimit c' = getPrefetchableMemoryLimit c.
Proof.
  intros Hwf Hp Eo En Hb Hl. destruct (config_pkt_response pkt Hp) as [r Hr].
  set (val := l * 2 ^ 20 + b * 2 ^ 4).
  destruct (window_halves b l Hb Hl) as [Eb El]. fold val in Eb, El.
  destruct (write_mem_window val c Hwf) as [Wb Wl]. unfold in_width in Hb, Hl.
  exists r, (write32 PCI1_MEM_BASE val c).1. split_and!.
  - destruct Hp as (H1 & H2 & _). unfold writeConfig, getAddr, getSize, assert_.
    rewrite H1, H2. cbn [obind]. change (Z.land (addr pkt) PCIE_CONFIG_SIZE) with (config_offset pkt).
    rewrite Eo, En. cbn [obind]. rewrite Hr. done.
  - unfold getMemoryBase. rewrite Wb, Eb, Z.shiftl_mul_pow2 by lia.
    apply wrap_small. unfold in_width. lia.
  - unfold getMemoryLimit. rewrite Wl, El, Z.shiftl_mul_pow2 by lia.
    rewrite wrap_small by (unfold in_width; lia). apply lor_low; unfold in_width; lia.
  - done.
  - done.
  - unfold getIOBase. by rewrite !write32_other by (done || (cbn; lia)).
  - unfold getIOLimit. by rewrite !write32_other by (done || (cbn; lia)).
  - unfold getPrefetchableMemoryBase. by rewrite !write32_other by (done || (cbn; lia)).
  - unfold getPrefetchableMemoryLimit. by rewrite !write32_other by (done || (cbn; lia)).
Qed.

(** * A concrete port *)

(** The first root port as configured by default, before software programs it. *)
Definition sample_config : config_class :=
  mkConfig
    ([0x86; 0x80; 0x90; 0x9c; 0x07; 0x04; 0x10; 0x00; 0; 0; 0x04; 0x06; 0; 0; 0x01; 0]
     ++ replicate 12 0 ++ [0x01; 0x01; 0; 0] ++ replicate 16 0
     ++ [0x00; 0x2f; 0x00; 0x2f; 0xD0; 0; 0; 0; 0; 0; 0; 0; 0x20; 0x01; 0; 0])
    ([0x10; 0; 0x41; 0; 0x41; 0x02; 0; 0; 0; 0; 0x20; 0x10; 0x11; 0x90; 0; 0x01; 0x08; 0; 0x11; 0]
     ++ replicate 16 0)
    0 0 0 0 20000 0xD0 0 1 0 false false false false false false.

Lemma sample_config_wf : config_wf sample_config.
Proof.
  constructor; try reflexivity; cbn;
    repeat (apply List.Forall_cons; [unfold in_width; lia |]); try apply List.Forall_nil.
  unfold in_width. lia.
Qed.

Definition config_write (offset n : Z) : Packet :=
  mkPacket 0 WriteReq 0x300 (0x30020000 + offset) false n 0 0 0 [] (new_Request 1).
Definition config_read (offset n : Z) : Packet :=
  mkPacket 0 ReadReq 0x300 (0x30020000 + offset) false n 0 0 0 [] (new_Request 2).

Lemma writeConfig_frame_witness :
  exists r t c' chg, writeConfig (config_write 0x20 4) 0x81008000 sample_config = Ok (r, t, c', chg) /\
    storage1 c' !! 36%nat = Some 0 /\ storage2 c' = storage2 sample_config.
Proof.
  destruct (writeConfig (config_write 0x20 4) 0x81008000 sample_config) as [[[[r t] c'] chg] | e] eqn:E;
    [| vm_compute in E; discriminate E].
  exists r, t, c', chg. split; [reflexivity |].
  destruct (writeConfig_frame _ _ _ _ _ _ _ sample_config_wf E) as (_ & _ & _ & H2 & H1 & _).
  split; [rewrite H1; reflexivity | exact H2].
Defined.

Lemma identity_preserved_witness :
  exists c', run_writes [(config_write 0x20 4, 0x81008000); (config_write 0x00 2, 0xdead);
                         (config_write 0x18 4, 0x00020100)] sample_config = Ok c' /\
    get1 VendorId c' = 0x8086.
Proof.
  destruct (run_writes [(config_write 0x20 4, 0x81008000); (config_write 0x00 2, 0xdead);
                        (config_write 0x18 4, 0x00020100)] sample_config) as [c' | e] eqn:E;
    [| vm_compute in E; discriminate E].
  exists c'. split; [reflexivity |].
  destruct (identity_preserved _ _ _ sample_config_wf E) as (_ & _ & H & _).
  rewrite (H VendorId); [reflexivity | left; reflexivity].
Defined.

Lemma config_readback_witness :
  exists p old p' c', readConfig (config_read 0x1C 2) sample_config = Ok (p, old, 20000) /\
    readConfig (config_read 0x1C 2) c'
    = Ok (p', blend (0xF0F0, 0x0F0F, 0) 0x3020 old, 20000).
Proof.
  destruct (writeConfig (config_write 0x1C 2) 0x3020 sample_config) as [[[[r t] c'] chg] | e] eqn:E;
    [| vm_compute in E; discriminate E].
  destruct (config_readback (config_write 0x1C 2) (config_read 0x1C 2) 0x3020 sample_config r t c' chg)
    as (p & old & p' & H1 & H2);
    [exact sample_config_wf
    | split; [reflexivity | split; [reflexivity | split; [reflexivity | right; left; reflexivity]]]
    | split; [discriminate | reflexivity] | reflexivity | reflexivity | discriminate | exact E |].
  exists p, old, p', c'. split; [exact H1 | exact H2].
Defined.

Lemma window_spec_witness :
  getIOBase sample_config = 0x2f00 * 2 ^ 16 + 0 /\
  getPrefetchableMemoryBase sample_config = Ok 0.
Proof.
  destruct (window_spec sample_config sample_config_wf) as (_ & _ & H & _ & _ & _ & H' & _).
  split; [rewrite H; reflexivity | rewrite H'; reflexivity].
Defined.

Lemma program_memory_window_witness :
  exists r c', writeConfig (config_write 0x20 4) (0x81F * 2 ^ 20 + 0x800 * 2 ^ 4) sample_config
               = Ok (r, 20000, c', [slavePort; slavePort_DMA1]) /\
    getMemoryBase c' = 0x800 * 2 ^ 20 /\ getMemoryLimit c' = 0x81F * 2 ^ 20 + (2 ^ 20 - 1).
Proof.
  destruct (program_memory_window (config_write 0x20 4) 0x800 0x81F sample_config sample_config_wf)
    as (r & c' & H1 & H2 & H3 & _);
    [split; [reflexivity | split; [reflexivity | split; [reflexivity | right; right; reflexivity]]]
    | reflexivity | reflexivity | split; [discriminate | reflexivity]
    | split; [discriminate | reflexivity] |].
  exists r, c'. split; [exact H1 | split; [exact H2 | exact H3]].
Defined.
