(* ===== verification/Serialize.v ===== *)
(** Checkpoints as text: [src/gem5/src/sim/serialize.hh] and [serialize_handlers.hh], the
    helpers of [base/str.hh] and [base/str.cc], and the reader [IniFile] of
    [base/inifile.cc].

    A checkpoint is a file of lines: a header for each section, and a line
    [name=value] for each parameter, an array as its elements with a space between them.
    How a value is shown and parsed depends on its type (class [Param], the templates
    [ShowParam] and [ParseParam]); here the types [uint8_t] and [bool], which the bridge
    saves.  The theorems are about [parse (show v)], the words of a line, and the sections
    read back from the lines that were written. *)
From Stdlib Require Import ZArith Lia Ascii String.
From stdpp Require Import base numbers list strings.
From S2P Require Import Prelude.

Open Scope Z_scope.

(** * Text *)

Definition text : Type := list ascii.
Definition str (s : string) : text := list_ascii_of_string s.
Definition code (c : ascii) : Z := Z.of_N (N_of_ascii c).
Definition char_of (n : Z) : ascii := ascii_of_N (Z.to_N n).
Definition space : ascii := char_of 32.
Definition isspace (c : ascii) : bool := (code c =? 32) || ((9 <=? code c) && (code c <=? 13)).

(** [eat_lead_white], [eat_end_white] and [eat_white]: a text of spaces only is kept. *)
Fixpoint skip_spaces (s : text) : text :=
  match s with [] => [] | c :: t => if bool_decide (c = space) then skip_spaces t else s end.
Definition eat_lead_white (s : text) : text := match skip_spaces s with [] => s | t => t end.
Definition eat_end_white (s : text) : text := reverse (eat_lead_white (reverse s)).
Definition eat_white (s : text) : text := eat_end_white (eat_lead_white s).

Definition to_lower (s : text) : text :=
  map (fun c => if (65 <=? code c) && (code c <=? 90) then char_of (code c + 32) else c) s.

(** [tokenize(vector, s, token)], which skips empty tokens; [cur] is the token under way,
    backwards. *)
Fixpoint tokenize_from (token : ascii) (cur s : text) : list text :=
  match s with
  | [] => match cur with [] => [] | _ => [reverse cur] end
  | c :: s =>
      if bool_decide (c = token) then
        match cur with [] => tokenize_from token [] s | _ => reverse cur :: tokenize_from token [] s end
      else tokenize_from token (c :: cur) s
  end.
Definition tokenize (s : text) (token : ascii) : list text := tokenize_from token [] s.

(** * Numbers *)

(** [os << (unsigned int)value]: at most ten digits. *)
Definition digit (n : Z) : ascii := char_of (48 + n).
Fixpoint show_digits (fuel : nat) (n : Z) (acc : text) : text :=
  match fuel with
  | O => acc
  | S fuel => let acc := digit (n mod 10) :: acc in if n <? 10 then acc else show_digits fuel (n / 10) acc
  end.
Definition show_unsigned (n : Z) : text := show_digits 10 n [].

(** [std::stoull(value, nullptr, 0)]: white space, a sign, the base from the prefix, and as
    many digits as there are; [None] for the exceptions. *)
Definition digit_value (c : ascii) : option Z :=
  let n := code c in
  if (48 <=? n) && (n <=? 57) then Some (n - 48)
  else if (97 <=? n) && (n <=? 122) then Some (n - 87)
  else if (65 <=? n) && (n <=? 90) then Some (n - 55)
  else None.
Definition is_digit (base : Z) (c : ascii) : bool := match digit_value c with Some d => d <? base | None => false end.
Fixpoint read_digits (base acc : Z) (s : text) : Z :=
  match s with
  | c :: s =>
      match digit_value c with
      | Some d => if d <? base then read_digits base (acc * base + d) s else acc
      | None => acc
      end
  | [] => acc
  end.
Fixpoint skip_white (s : text) : text := match s with c :: t => if isspace c then skip_white t else s | [] => [] end.
Definition read_sign (s : text) : bool * text :=
  match s with
  | c :: t => if code c =? 45 then (true, t) else if code c =? 43 then (false, t) else (false, s)
  | [] => (false, s)
  end.
Definition read_base (s : text) : Z * text :=
  match s with
  | c :: t =>
      if code c =? 48 then
        match t with
        | x :: h :: _ => if ((code x =? 120) || (code x =? 88)) && is_digit 16 h then (16, drop 2 s) else (8, s)
        | _ => (8, s)
        end
      else (10, s)
  | [] => (10, s)
  end.
Definition stoull (s : text) : option Z :=
  let (negative, s) := read_sign (skip_white s) in
  let (base, s) := read_base s in
  match s with
  | [] => None
  | c :: _ =>
      if is_digit base c then
        let n := read_digits base 0 s in
        if 2 ^ 64 <=? n then None else Some (if negative then u64 (- n) else n)
      else None
  end.

(** [to_number] for an unsigned type of [w] bits, and [to_bool]. *)
Definition to_number (w : Z) (value : text) : option Z :=
  if bool_decide (char_of 101 ∈ value) then None
  else match stoull value with Some r => if r <? 2 ^ w then Some r else None | None => None end.
Definition to_bool (value : text) : option bool :=
  let s := to_lower value in
  if bool_decide (s = str "true") then Some true else if bool_decide (s = str "false") then Some false else None.

(** * Parameters *)

(** [ShowParam] and [ParseParam]. *)
Class Param (A : Type) : Type := { show : A -> text; parse : text -> option A }.

(** [uint8_t], whose values are numbers below 2^8, and [bool]. *)
#[export] Instance param_uint8 : Param Z := { show := show_unsigned; parse := to_number 8 }.
#[export] Instance param_bool : Param bool := { show := fun b => if b : bool then str "true" else str "false"; parse := to_bool }.

(** The lines of a checkpoint that is written. *)
Definition CheckpointOut : Type := list text.
Definition equals : ascii := char_of 61.
Definition line (name : string) (value : text) : text := str name ++ equals :: value.

Section out.
Context {A : Type} `{!Param A}.

(** [paramOut] and [arrayParamOut]. *)
Definition paramOut (name : string) (v : A) (cp : CheckpointOut) : CheckpointOut := cp ++ [line name (show v)].
Fixpoint show_rest (vs : list A) : text := match vs with [] => [] | v :: vs => space :: show v ++ show_rest vs end.
Definition show_array (vs : list A) : text := match vs with [] => [] | v :: vs => show v ++ show_rest vs end.
Definition arrayParamOut (name : string) (vs : list A) (cp : CheckpointOut) : CheckpointOut := cp ++ [line name (show_array vs)].
End out.

(** [Serializable::ScopedCheckpointSection]: an empty line and the header of a section. *)
Definition section_header (path : text) (cp : CheckpointOut) : CheckpointOut := cp ++ [[]; char_of 91 :: path ++ [char_of 93]].

(** * Reading *)

(** [IniFile]: its sections with their entries, and the section of the line being read. *)
Definition Section_ : Type := list (text * text).
Record IniFile : Type := mkIniFile { table : list (text * Section_); section : option text }.

Section tables.
Context {V : Type}.
Fixpoint find_entry (name : text) (t : list (text * V)) : option V :=
  match t with [] => None | (n, v) :: t => if bool_decide (n = name) then Some v else find_entry name t end.
Fixpoint put_entry (name : text) (v : V) (t : list (text * V)) : list (text * V) :=
  match t with
  | [] => [(name, v)]
  | (n, u) :: t => if bool_decide (n = name) then (n, v) :: t else (n, u) :: put_entry name v t
  end.
End tables.

(** [addEntry], with [appendValue]. *)
Definition addEntry (name value : text) (append : bool) (s : Section_) : Section_ :=
  match find_entry name s with
  | Some old => put_entry name (if append then old ++ space :: value else value) s
  | None => put_entry name value s
  end.

Fixpoint split_at (c : ascii) (s : text) : option (text * text) :=
  match s with
  | [] => None
  | d :: s => if bool_decide (d = c) then Some ([], s) else match split_at c s with Some (a, b) => Some (d :: a, b) | None => None end
  end.

(** [bool Section::add(const std::string &assignment)]: a line that starts with the sign
    reads in front of the text. *)
Definition section_add (assignment : text) (s : Section_) : outcome (bool * Section_) :=
  match split_at equals assignment with
  | None => Ok (false, s)
  | Some ([], _) => Err Undefined
  | Some (before, value) =>
      let append := bool_decide (last before = Some (char_of 43)) in
      let name := if append then removelast before else before in
      Ok (true, addEntry (eat_white name) (eat_white value) append s)
  end.

(** One line of [load]: whether to go on. *)
Definition load_line (l : text) (f : IniFile) : outcome (bool * IniFile) :=
  let l := skip_white l in
  match l with
  | [] => Ok (true, f)
  | _ =>
      let l := eat_end_white l in
      if bool_decide (head l = Some (char_of 91)) && bool_decide (last l = Some (char_of 93)) then
        let name := eat_white (removelast (tail l)) in
        Ok (true, mkIniFile (match find_entry name (table f) with Some _ => table f | None => put_entry name [] (table f) end) (Some name))
      else
        match section f with
        | None => Ok (true, f)
        | Some name =>
            let! (ok, s) := section_add l (default [] (find_entry name (table f))) in
            Ok (ok, mkIniFile (put_entry name s (table f)) (Some name))
        end
  end.

(** [bool load(std::istream &f)]. *)
Fixpoint load (ls : list text) (f : IniFile) : outcome (bool * IniFile) :=
  match ls with
  | [] => Ok (true, f)
  | l :: ls => let! (ok, f) := load_line l f in if (ok : bool) then load ls f else Ok (false, f)
  end.

(** [CheckpointIn(const std::string &cpt_dir)]: a file that cannot be read is fatal. *)
Definition CheckpointIn : Type := IniFile.
Definition open_checkpoint (ls : list text) : outcome CheckpointIn :=
  let! (ok, f) := load ls (mkIniFile [] None) in if (ok : bool) then Ok f else Err Fatal.

(** [bool find(section, entry, value)]. *)
Definition find_param (cp : CheckpointIn) (path name : text) : option text :=
  match find_entry path (table cp) with Some s => find_entry name s | None => None end.

Section in_.
Context {A : Type} `{!Param A}.

(** [paramIn] and [arrayParamIn] in the section [path]: a missing name, a text that cannot
    be parsed and a wrong number of elements are fatal. *)
Definition paramIn (cp : CheckpointIn) (path : text) (name : string) : outcome A :=
  match find_param cp path (str name) with
  | Some value => match parse value with Some v => Ok v | None => Err Fatal end
  | None => Err Fatal
  end.
Fixpoint parse_all (tokens : list text) : outcome (list A) :=
  match tokens with
  | [] => Ok []
  | t :: tokens => match parse t with Some v => let! vs := parse_all tokens in Ok (v :: vs) | None => Err Fatal end
  end.
Definition arrayParamIn (cp : CheckpointIn) (path : text) (name : string) (size : nat) : outcome (list A) :=
  match find_param cp path (str name) with
  | Some value =>
      let tokens := tokenize value space in
      if bool_decide (length tokens = size) then parse_all tokens else Err Fatal
  | None => Err Fatal
  end.
End in_.

(** * What is written is read *)

(** A text without spaces, and one without spaces at its ends. *)
Definition word (s : text) : Prop := s <> [] /\ Forall (fun c => c <> space) s.
Definition trimmed (s : text) : Prop := head s <> Some space /\ last s <> Some space.

(** What a type promises of its values [ok]: they are read back from what is shown, and
    shown as one word. *)
Class ParamLaws (A : Type) `{!Param A} (ok : A -> Prop) : Prop := {
  parse_show : forall v, ok v -> parse (show v) = Some v;
  show_word : forall v, ok v -> word (show v);
}.

Definition shows_uint8 (n : Z) : bool :=
  bool_decide (to_number 8 (show_unsigned n) = Some n) && bool_decide (show_unsigned n <> []) && forallb (fun c => negb (bool_decide (c = space))) (show_unsigned n).

Lemma shows_all_uint8 : forallb shows_uint8 (map Z.of_nat (seq 0 256)) = true.
Proof. vm_compute. reflexivity. Qed.

#[export] Instance uint8_laws : ParamLaws Z (in_width 8).
Proof.
  assert (H : forall n, in_width 8 n -> shows_uint8 n = true).
  { intros n Hn. unfold in_width in Hn. pose proof shows_all_uint8 as H. rewrite forallb_forall in H. apply H, in_map_iff.
    exists (Z.to_nat n). split; [lia |]. apply in_seq. lia. }
  split; intros n Hn; specialize (H n Hn); unfold shows_uint8 in H; apply andb_true_iff in H as [[H1 H2]%andb_true_iff H3].
  - by apply bool_decide_eq_true in H1.
  - apply bool_decide_eq_true in H2. split; [done |]. apply Forall_forall. intros c Hc. rewrite forallb_forall in H3.
    specialize (H3 c (proj1 (list_elem_of_In _ _) Hc)). by apply negb_true_iff, bool_decide_eq_false in H3.
Qed.

#[export] Instance bool_laws : ParamLaws bool (fun _ => True).
Proof. split; intros [] _; try reflexivity; (split; [discriminate | repeat constructor; discriminate]). Qed.

(** The words of a line. *)
Lemma tokenize_word w : forall cur s, Forall (fun c => c <> space) w -> tokenize_from space cur (w ++ s) = tokenize_from space (reverse w ++ cur) s.
Proof.
  induction w as [| c w IH]; intros cur s H; [done |]. apply Forall_cons in H as [Hc H]. cbn [app tokenize_from].
  rewrite (bool_decide_eq_false_2 (c = space)) by done. rewrite IH by done. by rewrite reverse_cons, <- app_assoc.
Qed.

Lemma skip_trimmed s : head s <> Some space -> eat_lead_white s = s.
Proof.
  destruct s as [| c s]; [done |]. intros H. unfold eat_lead_white. cbn. rewrite bool_decide_eq_false_2; [done |]. intros ->. by apply H.
Qed.

Lemma end_trimmed s : last s <> Some space -> eat_end_white s = s.
Proof. intros H. unfold eat_end_white. rewrite skip_trimmed by (by rewrite head_reverse). apply reverse_involutive. Qed.

Lemma eat_trimmed s : trimmed s -> eat_white s = s.
Proof. intros [H1 H2]. unfold eat_white. by rewrite skip_trimmed, end_trimmed. Qed.

Lemma word_trimmed s : word s -> trimmed s.
Proof.
  intros [_ H]. rewrite Forall_forall in H. split; intros E.
  - apply head_Some_elem_of in E. by apply (H space).
  - apply last_Some_elem_of in E. by apply (H space).
Qed.

Lemma reverse_nil (s : text) : reverse s = [] -> s = [].
Proof. intros E. rewrite <- (reverse_involutive s), E. done. Qed.

Section arrays.
Context {A : Type} `{!Param A} (ok : A -> Prop) `{!ParamLaws A ok}.

Lemma tokenize_rest vs : forall cur, cur <> [] -> Forall ok vs -> tokenize_from space cur (show_rest vs) = reverse cur :: map show vs.
Proof.
  induction vs as [| v vs IH]; intros cur Hc H; cbn [show_rest tokenize_from]; [by destruct cur |]. apply Forall_cons in H as [Hv H].
  rewrite (bool_decide_eq_true_2 (space = space)) by done. destruct cur as [| c cur]; [done |]. destruct (show_word v Hv) as [Hne Hw].
  rewrite tokenize_word by done. rewrite app_nil_r, IH; [by rewrite reverse_involutive | | done]. intros E. by apply Hne, reverse_nil.
Qed.

Lemma tokenize_array vs : Forall ok vs -> tokenize (show_array vs) space = map show vs.
Proof.
  intros H. destruct vs as [| v vs]; [done |]. apply Forall_cons in H as [Hv H]. destruct (show_word v Hv) as [Hne Hw].
  unfold tokenize. cbn [show_array map]. rewrite tokenize_word by done. rewrite app_nil_r, tokenize_rest; [by rewrite reverse_involutive | | done].
  intros E. by apply Hne, reverse_nil.
Qed.

Lemma parse_all_show vs : Forall ok vs -> parse_all (map show vs) = Ok vs.
Proof.
  induction vs as [| v vs IH]; intros H; [done |]. apply Forall_cons in H as [Hv H]. cbn. by rewrite parse_show, IH.
Qed.

Lemma last_rest vs : forall s, last s <> Some space -> s <> [] -> Forall ok vs -> last (s ++ show_rest vs) <> Some space.
Proof.
  induction vs as [| v vs IH]; intros s Hs Hne H; cbn [show_rest]; [by rewrite app_nil_r |]. apply Forall_cons in H as [Hv H].
  destruct (show_word v Hv) as [Hn Hw]. change (space :: show v ++ show_rest vs) with ((space :: show v) ++ show_rest vs). rewrite app_assoc. apply IH; [| by destruct s | done].
  rewrite last_app, last_cons. destruct (last (show v)) eqn:E; [| by apply last_None in E]. intros [= ->]. apply last_Some_elem_of in E.
  rewrite Forall_forall in Hw. by apply (Hw space).
Qed.

Lemma array_trimmed vs : Forall ok vs -> trimmed (show_array vs).
Proof.
  destruct vs as [| v vs]; intros H; [done |]. apply Forall_cons in H as [Hv H]. cbn [show_array].
  destruct (word_trimmed _ (show_word v Hv)) as [H1 H2]. destruct (show_word v Hv) as [Hne _]. split; [by destruct (show v) | by apply last_rest].
Qed.
End arrays.

(** * Sections *)

(** The names that a line keeps apart from its value. *)
Definition name_ok (name : string) : bool :=
  let s := str name in
  negb (bool_decide (equals ∈ s)) &&
  match head s with Some c => negb (isspace c) && negb (bool_decide (c = char_of 91)) | None => false end &&
  match last s with Some c => negb (bool_decide (c = char_of 43)) && negb (bool_decide (c = space)) | None => false end.

Lemma split_line c s v : c ∉ s -> split_at c (s ++ c :: v) = Some (s, v).
Proof.
  induction s as [| d s IH]; intros H; cbn; [by rewrite bool_decide_eq_true_2 |]. apply not_elem_of_cons in H as [Hd H].
  rewrite bool_decide_eq_false_2 by (by intros ->). by rewrite IH.
Qed.

Lemma put_new {V} name (v : V) t : find_entry name t = None -> put_entry name v t = t ++ [(name, v)].
Proof. induction t as [| [n u] t IH]; cbn; [done |]. case_bool_decide; [done |]. intros E. by rewrite IH. Qed.

(** A line that was written, read in its section. *)
Lemma load_written name v path s : name_ok name = true -> trimmed v -> find_entry (str name) s = None ->
  load_line (line name v) (mkIniFile [(path, s)] (Some path)) = Ok (true, mkIniFile [(path, s ++ [(str name, v)])] (Some path)).
Proof.
  unfold name_ok. intros [[H1 H2]%andb_true_iff H3]%andb_true_iff Hv Hf. apply negb_true_iff, bool_decide_eq_false in H1.
  destruct (str name) as [| c n] eqn:En; [done |]. cbn [head] in H2. apply andb_true_iff in H2 as [H2 H2'].
  apply negb_true_iff in H2. apply negb_true_iff, bool_decide_eq_false in H2'.
  destruct (last (c :: n)) as [z |] eqn:El; [| done]. apply andb_true_iff in H3 as [H3 H3'].
  apply negb_true_iff, bool_decide_eq_false in H3. apply negb_true_iff, bool_decide_eq_false in H3'.
  unfold load_line, line. rewrite En. cbn [app skip_white]. rewrite H2. rewrite end_trimmed.
  2: { change (c :: n ++ equals :: v) with ((c :: n) ++ equals :: v). rewrite last_app, last_cons. destruct Hv as [_ Hv]. by destruct (last v). }
  cbn [head]. rewrite (bool_decide_eq_false_2 (Some c = _)) by congruence. cbn [andb section table find_entry].
  rewrite (bool_decide_eq_true_2 (path = path)) by done. cbn [default from_option id]. unfold section_add.
  change (c :: n ++ equals :: v) with ((c :: n) ++ equals :: v). rewrite split_line by exact H1. rewrite El, bool_decide_eq_false_2 by congruence. cbn [obind].
  assert (Ht : trimmed (c :: n)) by (split; [cbn; intros [= ->]; by vm_compute in H2 | rewrite El; congruence]).
  rewrite (eat_trimmed (c :: n) Ht), (eat_trimmed v Hv). unfold addEntry. rewrite Hf, (put_new (c :: n) v s Hf). cbn [put_entry].
  by rewrite (bool_decide_eq_true_2 (path = path)).
Qed.

Definition line_of (p : string * text) : text := line p.1 p.2.
Definition entry_of (p : string * text) : text * text := (str p.1, p.2).

Lemma str_inj a b : str a = str b -> a = b.
Proof. intros E. rewrite <- (string_of_list_ascii_of_string a), <- (string_of_list_ascii_of_string b). by f_equal. Qed.

Lemma find_entry_app {V} name (t t' : list (text * V)) : find_entry name (t ++ t') = match find_entry name t with Some v => Some v | None => find_entry name t' end.
Proof. induction t as [| [n v] t IH]; cbn; [done |]. by case_bool_decide. Qed.

Lemma load_lines path ps : forall s, Forall (fun p => name_ok p.1 = true /\ trimmed p.2) ps -> NoDup ps.*1 ->
  (forall p, p ∈ ps -> find_entry (str p.1) s = None) ->
  load (map line_of ps) (mkIniFile [(path, s)] (Some path)) = Ok (true, mkIniFile [(path, s ++ map entry_of ps)] (Some path)).
Proof.
  induction ps as [| [n v] ps IH]; intros s Hok Hnd Hs; cbn [map load]; [by rewrite app_nil_r |].
  apply Forall_cons in Hok as [[Hn Hv] Hok]. cbn in Hnd. apply NoDup_cons in Hnd as [Hi Hnd]. unfold line_of at 1. cbn [fst snd] in *.
  rewrite load_written; [| done | done | apply (Hs (n, v)); left]. cbn [obind]. rewrite IH; [by rewrite <- app_assoc | done | done |].
  intros [m u] Hm. rewrite find_entry_app, (Hs (m, u)) by (by right). cbn. rewrite bool_decide_eq_false_2; [done |].
  intros E%str_inj. apply Hi. rewrite E. apply list_elem_of_fmap. by exists (m, u).
Qed.

(** What was written in a section is found in it. *)
Lemma open_written path ps : trimmed path -> Forall (fun p => name_ok p.1 = true /\ trimmed p.2) ps -> NoDup ps.*1 ->
  exists cp, open_checkpoint (section_header path [] ++ map line_of ps) = Ok cp /\
    forall name, find_param cp path (str name) = find_entry (str name) (map entry_of ps).
Proof.
  intros Hp Hok Hnd. unfold open_checkpoint, section_header. cbn [app load]. change (load_line [] _) with (Ok (true, mkIniFile [] None)). cbn [obind].
  assert (Eh : load_line (char_of 91 :: path ++ [char_of 93]) (mkIniFile [] None) = Ok (true, mkIniFile [(path, [])] (Some path))).
  { unfold load_line. change (skip_white (char_of 91 :: path ++ [char_of 93])) with ((char_of 91 :: path) ++ [char_of 93]).
    rewrite end_trimmed by (by rewrite last_snoc). rewrite last_snoc. cbn [app head tail]. rewrite !bool_decide_eq_true_2 by done. cbn [andb].
    by rewrite removelast_last, (eat_trimmed path Hp). }
  rewrite Eh. cbn [obind].
  rewrite (load_lines path ps []) by done. cbn [obind app]. eexists. split; [reflexivity |]. intros name. unfold find_param. cbn [table find_entry].
  by rewrite bool_decide_eq_true_2.
Qed.
