(* ===== verification/BridgeState.v ===== *)
(** The bridge: construction, routing, address ranges and checkpoints of class
    [PciBridge], [src/gem5/src/mem/PciBridge.cc].

    The bridge holds four configurations, one for each downstream root port and
    one for the upstream port of a switch, and decides with them where a request
    goes, where a response goes and which addresses its ports serve.  The address
    ranges of the peers behind the master ports are a parameter. *)
From Stdlib Require Import ZArith Lia String.
From stdpp Require Import base numbers list gmap strings.
From S2P Require Import Prelude AddrRange MemPacket BridgeConfig Serialize.

Open Scope Z_scope.

(** * State *)

Record PciBridge : Type := mkPciBridge {
  storage_ptr1 : config_class;
  storage_ptr2 : config_class;
  storage_ptr3 : config_class;
  storage_ptr4 : config_class;
  br_is_switch : Z;
}.

Inductive MasterPortID : Type := masterPort1 | masterPort2 | masterPort3 | masterPort_DMA.
#[export] Instance MasterPortID_eq_dec : EqDecision MasterPortID.
Proof. solve_decision. Defined.

(** The parameters of the bridge that reach its configurations. *)
Record PciBridgeParams : Type := mkParams {
  p_is_switch : Z; p_VendorId : Z; p_Command : Z; p_Status : Z; p_ClassCode : Z;
  p_SubClassCode : Z; p_ProgIF : Z; p_Revision : Z; p_BIST : Z; p_HeaderType : Z;
  p_LatencyTimer : Z; p_CacheLineSize : Z; p_Bar0 : Z; p_Bar1 : Z;
  p_SecondaryLatencyTimer : Z; p_MemoryLimit : Z; p_MemoryBase : Z;
  p_PrefetchableMemoryLimit : Z; p_PrefetchableMemoryBase : Z;
  p_PrefetchableMemoryLimitUpper : Z; p_PrefetchableMemoryBaseUpper : Z;
  p_IOLimit : Z; p_IOBase : Z; p_IOLimitUpper : Z; p_IOBaseUpper : Z;
  p_CapabilityPointer : Z; p_ExpansionROMBaseAddress : Z; p_InterruptPin : Z;
  p_InterruptLine : Z; p_BridgeControl : Z; p_SecondaryStatus : Z;
  p_PrimaryBusNumber : Z; p_SecondaryBusNumber : Z; p_SubordinateBusNumber : Z;
  p_PXCAPNextCapability : Z; p_PXCAPCapId : Z; p_PXCAPDevCapabilities : Z;
  p_PXCAPDevCtrl : Z; p_PXCAPDevStatus : Z; p_PXCAPLinkCap : Z; p_PXCAPLinkCtrl : Z;
  p_PXCAPLinkStatus : Z; p_PXCAPRootStatus : Z; p_PXCAPRootControl : Z;
  p_config_latency : Z; p_BAR0Size : Z; p_BAR1Size : Z; p_PXCAPBaseOffset : Z;
  p_PXCAPCapabilities : Z; p_PXCAPCapabilities_downstream : Z;
  p_PXCAPCapabilities_upstream : Z;
  p_DeviceId1 : Z; p_DeviceId2 : Z; p_DeviceId3 : Z; p_DeviceId_upstream : Z;
}.

(** * Construction *)

(** [void PciBridge::initialize_ports(storage_ptr, p)]. *)
Definition initialize_ports (c : config_class) (p : PciBridgeParams) : config_class :=
  let s1 := storage1 c in
  let s1 := put VendorId (p_VendorId p) s1 in
  let s1 := put Command_ (p_Command p) s1 in
  let s1 := put Status (p_Status p) s1 in
  let s1 := put ClassCode (p_ClassCode p) s1 in
  let s1 := put SubClassCode (p_SubClassCode p) s1 in
  let s1 := put ProgIF (p_ProgIF p) s1 in
  let s1 := put Revision (p_Revision p) s1 in
  let s1 := put BIST (p_BIST p) s1 in
  let s1 := put HeaderType (p_HeaderType p) s1 in
  let s1 := put LatencyTimer (p_LatencyTimer p) s1 in
  let s1 := put CacheLineSize (p_CacheLineSize p) s1 in
  let s1 := put Bar0 (p_Bar0 p) s1 in
  let s1 := put Bar1 (p_Bar1 p) s1 in
  let s1 := put SecondaryLatencyTimer (p_SecondaryLatencyTimer p) s1 in
  let s1 := put MemoryLimit (p_MemoryLimit p) s1 in
  let s1 := put MemoryBase (p_MemoryBase p) s1 in
  let s1 := put PrefetchableMemoryLimit (p_PrefetchableMemoryLimit p) s1 in
  let s1 := put PrefetchableMemoryBase (p_PrefetchableMemoryBase p) s1 in
  let s1 := put PrefetchableMemoryLimitUpper (p_PrefetchableMemoryLimitUpper p) s1 in
  let s1 := put PrefetchableMemoryBaseUpper (p_PrefetchableMemoryBaseUpper p) s1 in
  let s1 := put IOLimit (p_IOLimit p) s1 in
  let s1 := put IOBase (p_IOBase p) s1 in
  let s1 := put IOLimitUpper (p_IOLimitUpper p) s1 in
  let s1 := put IOBaseUpper (p_IOBaseUpper p) s1 in
  let s1 := put CapabilityPointer (p_CapabilityPointer p) s1 in
  let s1 := put ExpansionROMBaseAddress (p_ExpansionROMBaseAddress p) s1 in
  let s1 := put InterruptPin (p_InterruptPin p) s1 in
  let s1 := put InterruptLine (p_InterruptLine p) s1 in
  let s1 := put BridgeControl (p_BridgeControl p) s1 in
  let s1 := put SecondaryStatus (p_SecondaryStatus p) s1 in
  let s1 := put PrimaryBusNumber (p_PrimaryBusNumber p) s1 in
  let s1 := put SecondaryBusNumber (p_SecondaryBusNumber p) s1 in
  let s1 := put SubordinateBusNumber (p_SubordinateBusNumber p) s1 in
  let s1 := put reserved 0 s1 in
  let s2 := storage2 c in
  let s2 := put PXCAPNextCapability (p_PXCAPNextCapability p) s2 in
  let s2 := put PXCAPCapId (p_PXCAPCapId p) s2 in
  let s2 := put PXCAPDevCapabilities (p_PXCAPDevCapabilities p) s2 in
  let s2 := put PXCAPDevCtrl (p_PXCAPDevCtrl p) s2 in
  let s2 := put PXCAPDevStatus (p_PXCAPDevStatus p) s2 in
  let s2 := put PXCAPLinkCap (p_PXCAPLinkCap p) s2 in
  let s2 := put PXCAPLinkCtrl (p_PXCAPLinkCtrl p) s2 in
  let s2 := put PXCAPLinkStatus (p_PXCAPLinkStatus p) s2 in
  let s2 := put PXCAPRootStatus (p_PXCAPRootStatus p) s2 in
  let s2 := put PXCAPRootControl (p_PXCAPRootControl p) s2 in
  let s2 := put PXCAPSlotCapabilities 0 s2 in
  let s2 := put PXCAPSlotControl 0 s2 in
  let s2 := put PXCAPSlotStatus 0 s2 in
  mkConfig s1 s2 (p_BAR0Size p) (p_BAR1Size p) 0 0 (p_config_latency p) (p_PXCAPBaseOffset p)
    (p_is_switch p) (id c) 0 false false false false false false.

(** One configuration of the constructor: the memory as the allocator left it,
    the device number, the parameters, the capabilities and the port number. *)
Definition new_config (raw : config_class) (p : PciBridgeParams) (dev caps port : Z) : config_class :=
  let c := set_storage1 (put DeviceId dev (storage1 raw)) raw in
  let c := initialize_ports c p in
  let c := set_storage2 (put PXCAPCapabilities caps (storage2 c)) c in
  mkConfig (storage1 c) (storage2 c) (barsize0 c) (barsize1 c) (barflags0 c) (barflags1 c)
    (configDelay c) (PXCAPBaseOffset c) (is_switch c) port (is_valid c) (valid_io_base c)
    (valid_io_limit c) (valid_prefetchable_memory_base c) (valid_prefetchable_memory_limit c)
    (valid_memory_base c) (valid_memory_limit c).

(** [PciBridge::PciBridge(const PciBridgeParams& p)].  The choice of capabilities
    reads the member [is_switch] before it is set; [stale] is its value then. *)
Definition new_PciBridge (raw1 raw2 raw3 raw4 : config_class) (stale : Z) (p : PciBridgeParams) :
    PciBridge :=
  let capabilities := if truthy stale then p_PXCAPCapabilities_downstream p
                      else p_PXCAPCapabilities p in
  mkPciBridge
    (new_config raw1 p (p_DeviceId1 p) capabilities 1)
    (new_config raw2 p (p_DeviceId2 p) capabilities 2)
    (new_config raw3 p (p_DeviceId3 p) capabilities 3)
    (new_config raw4 p (p_DeviceId_upstream p) (p_PXCAPCapabilities_upstream p) 0)
    (p_is_switch p).

(** * Routing *)

(** One window test of [getMasterPort]. *)
Definition in_window (base limit a : Z) : bool :=
  (base <=? a) && (a <=? limit) && negb (base =? 0) && negb (limit =? 0).

(** The test of the prefetchable window; the limit is decoded only when the
    address is not below the base. *)
Definition in_prefetch_window (c : config_class) (a : Z) : outcome bool :=
  let! base := getPrefetchableMemoryBase c in
  if base <=? a then
    let! limit := getPrefetchableMemoryLimit c in Ok (in_window base limit a)
  else Ok false.

(** The three window tests of one port, in order. *)
Definition port_window (c : config_class) (a : Z) : outcome bool :=
  if in_window (getMemoryBase c) (getMemoryLimit c) a then Ok true
  else
    let! pf := in_prefetch_window c a in
    if pf then Ok true else Ok (in_window (getIOBase c) (getIOLimit c) a).

Section Routing.
(** The address ranges the peer of a master port announces. *)
Variable peer : MasterPortID -> list AddrRange.

Definition peer_contains (m : MasterPortID) (a : Z) : bool :=
  existsb (fun r => contains r a) (peer m).

(** [PciBridgeMasterPort* PciBridge::getMasterPort(Addr address)]. *)
Definition getMasterPort (b : PciBridge) (a : Z) : outcome MasterPortID :=
  let! w1 := port_window (storage_ptr1 b) a in
  if w1 then Ok masterPort1 else
  let! w2 := port_window (storage_ptr2 b) a in
  if w2 then Ok masterPort2 else
  let! w3 := port_window (storage_ptr3 b) a in
  if w3 then Ok masterPort3 else
  if peer_contains masterPort1 a then Ok masterPort1
  else if peer_contains masterPort2 a then Ok masterPort2
  else if peer_contains masterPort3 a then Ok masterPort3
  else Ok masterPort_DMA.
End Routing.

(** The test of one port in [getSlavePort]. *)
Definition on_bus (c : config_class) (bus_num : Z) : bool :=
  (get1 SecondaryBusNumber c <=? bus_num) && (bus_num <=? get1 SubordinateBusNumber c)
  && (is_valid c =? 1).

(** [PciBridgeSlavePort* PciBridge::getSlavePort(int bus_num)]. *)
Definition getSlavePort (b : PciBridge) (bus_num : Z) : SlavePortID :=
  if on_bus (storage_ptr1 b) bus_num then slavePort_DMA1
  else if on_bus (storage_ptr2 b) bus_num then slavePort_DMA2
  else if on_bus (storage_ptr3 b) bus_num then slavePort_DMA3
  else slavePort.

(** * Address ranges *)

(** [void PciBridgeSlavePort::fill_ranges(ranges, storage_ptr) const]. *)
Definition fill_ranges (ranges : list AddrRange) (c : config_class) : outcome (list AddrRange) :=
  let! pbase := getPrefetchableMemoryBase c in
  let! plimit := getPrefetchableMemoryLimit c in
  Ok (ranges
    ++ (if negb (barsize0 c =? 0) && negb (getBar0 c =? 0) then [RangeSize (getBar0 c) (barsize0 c)] else [])
    ++ (if negb (barsize1 c =? 0) && negb (getBar1 c =? 0) then [RangeSize (getBar1 c) (barsize1 c)] else [])
    ++ (if valid_memory_base c && valid_memory_limit c && (getMemoryBase c <? getMemoryLimit c)
           && negb (getMemoryBase c =? 0)
        then [RangeIn (getMemoryBase c) (getMemoryLimit c)] else [])
    ++ (if valid_prefetchable_memory_base c && valid_prefetchable_memory_limit c
           && (pbase <? plimit) && negb (pbase =? 0)
        then [RangeIn pbase plimit] else [])
    ++ (if valid_io_base c && valid_io_limit c && (getIOBase c <? getIOLimit c)
           && negb (getIOBase c =? 0)
        then [RangeIn (getIOBase c) (getIOLimit c)] else [])).

(** The loop of [getAddrRanges] for a downstream port, with [last_val]. *)
Fixpoint downstream_loop (last_val : Z) (ranges : list AddrRange) : list AddrRange :=
  match ranges with
  | [] => if last_val =? 0 then [] else [RangeIn last_val ADDR_MAX]
  | r :: rs =>
      (if last_val <? _start r then [RangeIn last_val (u64 (_start r - 1))] else [])
      ++ downstream_loop (u64 (_end r + 1)) rs
  end.

(** The ranges of the configurations behind a slave port, sorted. *)
Definition port_ranges (b : PciBridge) (port : SlavePortID) : outcome (list AddrRange) :=
  let! ranges :=
    (match port with
     | slavePort =>
         if br_is_switch b =? 0 then
           let! r := fill_ranges [] (storage_ptr1 b) in
           let! r := fill_ranges r (storage_ptr2 b) in
           fill_ranges r (storage_ptr3 b)
         else if br_is_switch b =? 1 then fill_ranges [] (storage_ptr4 b)
         else Ok []
     | slavePort_DMA1 => fill_ranges [] (storage_ptr1 b)
     | slavePort_DMA2 => fill_ranges [] (storage_ptr2 b)
     | slavePort_DMA3 => fill_ranges [] (storage_ptr3 b)
     end) in
  Ok (sort_ranges ranges).

(** [AddrRangeList PciBridgeSlavePort::getAddrRanges() const]; only the port with
    the number 0 is upstream. *)
Definition getAddrRanges (b : PciBridge) (port : SlavePortID) : outcome (list AddrRange) :=
  let! ranges := port_ranges b port in
  if bool_decide (port = slavePort) then Ok ranges else Ok (downstream_loop 0 ranges).

(** * Checkpoints *)

Open Scope string_scope.

Definition serialize_arrays (ptr : string) (c : config_class) (cp : CheckpointOut) : CheckpointOut :=
  arrayParamOut (ptr ++ "->storage2.data") (storage2 c)
    (arrayParamOut (ptr ++ "->storage1.data") (storage1 c) cp).

Definition serialize_scalars (ptr : string) (c : config_class) (cp : CheckpointOut) : CheckpointOut :=
  let cp := paramOut (ptr ++ "->is_valid") (is_valid c) cp in
  let cp := paramOut (ptr ++ "->valid_io_base") (valid_io_base c) cp in
  let cp := paramOut (ptr ++ "->valid_io_limit") (valid_io_limit c) cp in
  let cp := paramOut (ptr ++ "->valid_memory_base") (valid_memory_base c) cp in
  let cp := paramOut (ptr ++ "->valid_memory_limit") (valid_memory_limit c) cp in
  let cp := paramOut (ptr ++ "->valid_prefetchable_memory_base")
              (valid_prefetchable_memory_base c) cp in
  paramOut (ptr ++ "->valid_prefetchable_memory_limit")
    (valid_prefetchable_memory_limit c) cp.

(** [void PciBridge::serialize(CheckpointOut &cp) const]. *)
Definition serialize (b : PciBridge) (cp : CheckpointOut) : CheckpointOut :=
  let cp := serialize_arrays "storage_ptr4" (storage_ptr4 b) cp in
  let cp := serialize_arrays "storage_ptr1" (storage_ptr1 b) cp in
  let cp := serialize_arrays "storage_ptr2" (storage_ptr2 b) cp in
  let cp := serialize_arrays "storage_ptr3" (storage_ptr3 b) cp in
  let cp := serialize_scalars "storage_ptr4" (storage_ptr4 b) cp in
  let cp := serialize_scalars "storage_ptr3" (storage_ptr3 b) cp in
  let cp := serialize_scalars "storage_ptr2" (storage_ptr2 b) cp in
  serialize_scalars "storage_ptr1" (storage_ptr1 b) cp.

(** What [unserialize] assigns in one configuration. *)
Definition unserialize_port (cp : CheckpointIn) (path : text) (ptr : string) (c : config_class) :
    outcome config_class :=
  let! s1 := arrayParamIn cp path (ptr ++ "->storage1.data") 64 in
  let! s2 := arrayParamIn cp path (ptr ++ "->storage2.data") 36 in
  let! v := paramIn cp path (ptr ++ "->is_valid") in
  let! iob := paramIn cp path (ptr ++ "->valid_io_base") in
  let! iol := paramIn cp path (ptr ++ "->valid_io_limit") in
  let! mb := paramIn cp path (ptr ++ "->valid_memory_base") in
  let! ml := paramIn cp path (ptr ++ "->valid_memory_limit") in
  let! pb := paramIn cp path (ptr ++ "->valid_prefetchable_memory_base") in
  let! pl := paramIn cp path (ptr ++ "->valid_prefetchable_memory_limit") in
  Ok (mkConfig s1 s2 (barsize0 c) (barsize1 c) (barflags0 c) (barflags1 c) (configDelay c)
        (PXCAPBaseOffset c) (is_switch c) (id c) v iob iol pb
        pl mb ml).

(** [void PciBridge::unserialize(CheckpointIn &cp)] in the section [path] of the bridge,
    with the ports that announce a range change. *)
Definition unserialize (cp : CheckpointIn) (path : text) (b : PciBridge) : outcome (PciBridge * list SlavePortID) :=
  let! c4 := unserialize_port cp path "storage_ptr4" (storage_ptr4 b) in
  let! c1 := unserialize_port cp path "storage_ptr1" (storage_ptr1 b) in
  let! c2 := unserialize_port cp path "storage_ptr2" (storage_ptr2 b) in
  let! c3 := unserialize_port cp path "storage_ptr3" (storage_ptr3 b) in
  Ok (mkPciBridge c1 c2 c3 c4 (br_is_switch b),
      [slavePort; slavePort_DMA1; slavePort_DMA2; slavePort_DMA3]).

Close Scope string_scope.

(** * Construction: lemmas *)

(** A sequence of register assignments. *)
Definition puts (l : list (reg * Z)) (d : list Z) : list Z :=
  fold_left (fun d rv => put rv.1 rv.2 d) l d.

Definition reg_apart (r r' : reg) : bool := ((r.1 + r.2 <=? r'.1) || (r'.1 + r'.2 <=? r.1))%nat.
Fixpoint regs_apart (l : list reg) : bool :=
  match l with [] => true | r :: l => forallb (reg_apart r) l && regs_apart l end.
Definition regs_fit (size : nat) (l : list reg) : bool :=
  forallb (fun r => (r.1 + r.2 <=? size)%nat) l.
Definition regs_cover (size : nat) (l : list reg) : bool :=
  forallb (fun i => existsb (fun r => (r.1 <=? i) && (i <? r.1 + r.2))%nat l) (seq 0 size).

Lemma puts_length size l d : regs_fit size l.*1 = true -> length d = size ->
  length (puts l d) = size.
Proof.
  revert d. induction l as [| [r v] l IH]; intros d Hf Hd; cbn in *; [done |].
  apply andb_prop in Hf as [Hr%Nat.leb_le Hf]. apply IH; [done |].
  unfold put. rewrite store_length; lia.
Qed.

Lemma puts_ok l d : bytes_ok d -> bytes_ok (puts l d).
Proof. revert d. induction l as [| [r v] l IH]; intros d H; cbn; auto. by apply IH, store_ok. Qed.

Lemma puts_other size l d r : regs_fit size l.*1 = true -> length d = size ->
  forallb (reg_apart r) l.*1 = true -> get r (puts l d) = get r d.
Proof.
  revert d. induction l as [| [r' v] l IH]; intros d Hf Hd Ha; cbn in *; [done |].
  apply andb_prop in Hf as [Hr%Nat.leb_le Hf]. apply andb_prop in Ha as [Hr' Ha].
  assert (L : length (put r' v d) = size) by (unfold put; rewrite store_length; lia).
  rewrite IH by done. apply load_store_other; [lia |].
  apply orb_prop in Hr' as [H%Nat.leb_le | H%Nat.leb_le]; lia.
Qed.

(** Assignments to registers that do not overlap all stick. *)
Lemma puts_get size l d r v : regs_fit size l.*1 = true -> regs_apart l.*1 = true ->
  length d = size -> In (r, v) l -> get r (puts l d) = wrap (8 * Z.of_nat r.2) v.
Proof.
  revert d. induction l as [| [r' v'] l IH]; intros d Hf Ha Hd Hin; cbn in *; [done |].
  apply andb_prop in Hf as [Hr%Nat.leb_le Hf]. apply andb_prop in Ha as [Hr' Ha].
  assert (L : length (put r' v' d) = size) by (unfold put; rewrite store_length; lia).
  destruct Hin as [[= -> ->] | Hin]; [| by apply IH].
  rewrite (puts_other size) by done. apply load_store_same. lia.
Qed.

Lemma puts_agree size l d d' i : regs_fit size l.*1 = true -> length d = size -> length d' = size ->
  d !! i = d' !! i \/ existsb (fun r => (r.1 <=? i) && (i <? r.1 + r.2))%nat l.*1 = true ->
  puts l d !! i = puts l d' !! i.
Proof.
  revert d d'. induction l as [| [r v] l IH]; intros d d' Hf Hd Hd' H; cbn in *;
    [destruct H; done |].
  apply andb_prop in Hf as [Hr%Nat.leb_le Hf]. unfold put.
  apply IH; [done | rewrite store_length; lia | rewrite store_length; lia |].
  destruct (decide (r.1 <= i < r.1 + r.2)%nat) as [Hin | Hout].
  - left. unfold store.
    rewrite !(lookup_app_r (take _ _)) by (rewrite length_take; lia). rewrite !length_take.
    rewrite !lookup_app_l by (rewrite le_bytes_length; lia). do 2 f_equal. lia.
  - destruct H as [H | H].
    + left. by rewrite !store_lookup_other by lia.
    + apply orb_prop in H as [H | H]; [| by right].
      apply andb_prop in H as [H1%Nat.leb_le H2%Nat.ltb_lt]. lia.
Qed.

(** Assignments to registers that fill an array leave nothing of what was there. *)
Lemma puts_determined size l d d' : regs_fit size l.*1 = true -> regs_cover size l.*1 = true ->
  length d = size -> length d' = size -> puts l d = puts l d'.
Proof.
  intros Hf Hc Hd Hd'. apply list_eq. intros i.
  apply (puts_agree size); [done | done | done |].
  destruct (decide (i < size)%nat) as [Hi | Hi].
  - right. unfold regs_cover in Hc. rewrite forallb_forall in Hc. apply Hc, in_seq. lia.
  - left. rewrite !lookup_ge_None_2 by lia. done.
Qed.

(** The assignments of the constructor, in its order. *)
Definition init1 (p : PciBridgeParams) (dev : Z) : list (reg * Z) :=
  [(DeviceId, dev); (VendorId, p_VendorId p); (Command_, p_Command p); (Status, p_Status p);
   (ClassCode, p_ClassCode p); (SubClassCode, p_SubClassCode p); (ProgIF, p_ProgIF p);
   (Revision, p_Revision p); (BIST, p_BIST p); (HeaderType, p_HeaderType p);
   (LatencyTimer, p_LatencyTimer p); (CacheLineSize, p_CacheLineSize p); (Bar0, p_Bar0 p);
   (Bar1, p_Bar1 p); (SecondaryLatencyTimer, p_SecondaryLatencyTimer p);
   (MemoryLimit, p_MemoryLimit p); (MemoryBase, p_MemoryBase p);
   (PrefetchableMemoryLimit, p_PrefetchableMemoryLimit p);
   (PrefetchableMemoryBase, p_PrefetchableMemoryBase p);
   (PrefetchableMemoryLimitUpper, p_PrefetchableMemoryLimitUpper p);
   (PrefetchableMemoryBaseUpper, p_PrefetchableMemoryBaseUpper p);
   (IOLimit, p_IOLimit p); (IOBase, p_IOBase p); (IOLimitUpper, p_IOLimitUpper p);
   (IOBaseUpper, p_IOBaseUpper p); (CapabilityPointer, p_CapabilityPointer p);
   (ExpansionROMBaseAddress, p_ExpansionROMBaseAddress p); (InterruptPin, p_InterruptPin p);
   (InterruptLine, p_InterruptLine p); (BridgeControl, p_BridgeControl p);
   (SecondaryStatus, p_SecondaryStatus p); (PrimaryBusNumber, p_PrimaryBusNumber p);
   (SecondaryBusNumber, p_SecondaryBusNumber p);
   (SubordinateBusNumber, p_SubordinateBusNumber p); (reserved, 0)].
Definition init2 (p : PciBridgeParams) (caps : Z) : list (reg * Z) :=
  [(PXCAPNextCapability, p_PXCAPNextCapability p); (PXCAPCapId, p_PXCAPCapId p);
   (PXCAPDevCapabilities, p_PXCAPDevCapabilities p); (PXCAPDevCtrl, p_PXCAPDevCtrl p);
   (PXCAPDevStatus, p_PXCAPDevStatus p); (PXCAPLinkCap, p_PXCAPLinkCap p);
   (PXCAPLinkCtrl, p_PXCAPLinkCtrl p); (PXCAPLinkStatus, p_PXCAPLinkStatus p);
   (PXCAPRootStatus, p_PXCAPRootStatus p); (PXCAPRootControl, p_PXCAPRootControl p);
   (PXCAPSlotCapabilities, 0); (PXCAPSlotControl, 0); (PXCAPSlotStatus, 0);
   (PXCAPCapabilities, caps)].

Lemma new_config_eq raw p dev caps port :
  new_config raw p dev caps port =
  mkConfig (puts (init1 p dev) (storage1 raw)) (puts (init2 p caps) (storage2 raw))
    (p_BAR0Size p) (p_BAR1Size p) 0 0 (p_config_latency p) (p_PXCAPBaseOffset p) (p_is_switch p)
    port 0 false false false false false false.
Proof.
  cbv beta iota zeta delta [new_config initialize_ports storage1 storage2 set_storage1
    set_storage2 barsize0 barsize1 barflags0 barflags1 configDelay PXCAPBaseOffset is_switch
    is_valid valid_io_base valid_io_limit valid_prefetchable_memory_base
    valid_prefetchable_memory_limit valid_memory_base valid_memory_limit
    puts fold_left init1 init2 fst snd]. reflexivity.
Qed.

(** Memory for a configuration, as the allocator returns it. *)
Definition raw_ok (raw : config_class) : Prop :=
  length (storage1 raw) = 64%nat /\ length (storage2 raw) = 36%nat /\
  bytes_ok (storage1 raw) /\ bytes_ok (storage2 raw).

(** The constructor leaves no byte of a configuration undefined.  Whatever
    the allocated memory held, the configuration comes out the same; it is well
    formed, every register reads as its parameter cut to its width, and no
    window is valid yet. *)
Theorem new_config_spec raw p dev caps port :
  raw_ok raw -> in_width 8 (p_PXCAPBaseOffset p) ->
  let c := new_config raw p dev caps port in
  config_wf c /\
  (forall raw', raw_ok raw' -> new_config raw' p dev caps port = c) /\
  (forall r v, In (r, v) (init1 p dev) -> get r (storage1 c) = wrap (8 * Z.of_nat r.2) v) /\
  (forall r v, In (r, v) (init2 p caps) -> get r (storage2 c) = wrap (8 * Z.of_nat r.2) v) /\
  is_valid c = 0 /\ fill_ranges [] c = let! b := getPrefetchableMemoryBase c in
    let! l := getPrefetchableMemoryLimit c in
    Ok ((if negb (barsize0 c =? 0) && negb (getBar0 c =? 0)
         then [RangeSize (getBar0 c) (barsize0 c)] else [])
        ++ (if negb (barsize1 c =? 0) && negb (getBar1 c =? 0)
            then [RangeSize (getBar1 c) (barsize1 c)] else [])).
Proof.
  intros (L1 & L2 & B1 & B2) Hb c. unfold c. rewrite new_config_eq. split_and!.
  - constructor; cbn [storage1 storage2 PXCAPBaseOffset]; auto using puts_ok; by apply puts_length.
  - intros raw' (L1' & L2' & _ & _). rewrite new_config_eq. f_equal.
    + by apply (puts_determined 64).
    + by apply (puts_determined 36).
  - intros r v H. by apply (puts_get 64 (init1 p dev)).
  - intros r v H. by apply (puts_get 36 (init2 p caps)).
  - done.
  - unfold fill_ranges. cbn [valid_memory_base valid_prefetchable_memory_base valid_io_base andb].
    by rewrite !app_nil_r.
Qed.

(** * Routing *)

(** The prefetchable window of a port decodes. *)
Definition prefetch_ok (c : config_class) : Prop :=
  get1 PrefetchableMemoryBase c < 0x8000 /\ get1 PrefetchableMemoryLimit c < 0x8000.

Definition prefetch_base_of (c : config_class) : Z :=
  get1 PrefetchableMemoryBaseUpper c * 2 ^ 32 + Z.shiftr (get1 PrefetchableMemoryBase c) 4 * 2 ^ 20.
Definition prefetch_limit_of (c : config_class) : Z :=
  u16 (get1 PrefetchableMemoryLimitUpper c) * 2 ^ 32
  + Z.shiftr (get1 PrefetchableMemoryLimit c) 4 * 2 ^ 20 + (2 ^ 20 - 1).

Definition window (base limit a : Z) : Prop := base <> 0 /\ base <= a <= limit.

(** The addresses a port decodes. *)
Definition decodes (c : config_class) (a : Z) : Prop :=
  window (getMemoryBase c) (getMemoryLimit c) a \/
  window (prefetch_base_of c) (prefetch_limit_of c) a \/
  window (getIOBase c) (getIOLimit c) a.

Record port_ok (c : config_class) : Prop := { po_wf : config_wf c; po_prefetch : prefetch_ok c }.

Lemma prefetch_decoded c : port_ok c ->
  getPrefetchableMemoryBase c = Ok (prefetch_base_of c) /\
  getPrefetchableMemoryLimit c = Ok (prefetch_limit_of c) /\
  0 <= prefetch_base_of c /\ 0 < prefetch_limit_of c < 2 ^ 64 - 1.
Proof.
  intros [Hwf [H1 H2]].
  pose proof (get1_range PrefetchableMemoryBaseUpper c Hwf ltac:(cbn; lia)) as R1.
  pose proof (get1_range PrefetchableMemoryBase c Hwf ltac:(cbn; lia)) as R2.
  pose proof (get1_range PrefetchableMemoryLimitUpper c Hwf ltac:(cbn; lia)) as R3.
  pose proof (get1_range PrefetchableMemoryLimit c Hwf ltac:(cbn; lia)) as R4.
  assert (R5 : in_width 16 (u16 (get1 PrefetchableMemoryLimitUpper c))) by (apply wrap_range; lia).
  pose proof (shiftr4_range 16 _ ltac:(lia) R2). pose proof (shiftr4_range 16 _ ltac:(lia) R4).
  pose proof (in_width_nonneg _ _ R1). unfold in_width in R5.
  split_and!; unfold prefetch_base_of, prefetch_limit_of; try lia.
  - unfold getPrefetchableMemoryBase. rewrite prefetch_base by done.
    by rewrite (proj2 (Z.ltb_lt _ _)) by lia.
  - unfold getPrefetchableMemoryLimit. rewrite prefetch_limit by done.
    by rewrite (proj2 (Z.ltb_lt _ _)) by lia.
Qed.

Lemma window_limits c : config_wf c ->
  0 <= getMemoryBase c /\ 0 < getMemoryLimit c < 2 ^ 32 /\
  0 <= getIOBase c /\ 0 < getIOLimit c < 2 ^ 32.
Proof.
  intros Hwf.
  pose proof (get1_range MemoryLimit c Hwf ltac:(cbn; lia)) as R2.
  pose proof (get1_range IOLimit c Hwf ltac:(cbn; lia)) as R4.
  pose proof (get1_range IOLimitUpper c Hwf ltac:(cbn; lia)) as R6.
  destruct (mem_window _ R2) as (_ & M2 & M3), (io_window _ _ R6 R4) as (_ & I2 & I3).
  pose proof (shiftr4_range 16 _ ltac:(lia) R2). pose proof (shiftr4_range 8 _ ltac:(lia) R4).
  pose proof (in_width_nonneg _ _ R6). split_and!.
  - apply (in_width_nonneg 32), wrap_range. lia.
  - unfold getMemoryLimit. lia.
  - apply M3.
  - apply (in_width_nonneg 32), wrap_range. lia.
  - unfold getIOLimit. lia.
  - apply I3.
Qed.

Lemma in_window_spec base limit a : 0 < limit -> in_window base limit a = true <-> window base limit a.
Proof.
  intros H. unfold in_window, window. rewrite !andb_true_iff, !negb_true_iff, !Z.eqb_neq, !Z.leb_le.
  lia.
Qed.

Lemma port_window_spec c a : port_ok c -> exists w, port_window c a = Ok w /\ (w = true <-> decodes c a).
Proof.
  intros Hp. destruct (prefetch_decoded c Hp) as (P1 & P2 & _ & P3).
  destruct (window_limits c (po_wf _ Hp)) as (_ & M & _ & I).
  unfold port_window, in_prefetch_window. rewrite P1. cbn [obind].
  pose proof (in_window_spec (getMemoryBase c) (getMemoryLimit c) a ltac:(lia)) as W1.
  pose proof (in_window_spec (prefetch_base_of c) (prefetch_limit_of c) a ltac:(lia)) as W2.
  pose proof (in_window_spec (getIOBase c) (getIOLimit c) a ltac:(lia)) as W3.
  unfold decodes. destruct (in_window (getMemoryBase c) _ a); [eexists; split; [done |]; intuition |].
  destruct (Z.leb_spec (prefetch_base_of c) a).
  - rewrite P2. cbn [obind]. destruct (in_window (prefetch_base_of c) _ a);
      (eexists; split; [done |]; intuition congruence).
  - assert (~ window (prefetch_base_of c) (prefetch_limit_of c) a) by (unfold window; lia).
    eexists. split; [done |]. intuition congruence.
Qed.

(** The configuration behind a downstream port. *)
Definition port_config (b : PciBridge) (m : MasterPortID) : config_class :=
  match m with
  | masterPort1 => storage_ptr1 b | masterPort2 => storage_ptr2 b
  | masterPort3 => storage_ptr3 b | masterPort_DMA => storage_ptr4 b
  end.

Definition bridge_ok (b : PciBridge) : Prop :=
  port_ok (storage_ptr1 b) /\ port_ok (storage_ptr2 b) /\ port_ok (storage_ptr3 b).

Definition down (m : MasterPortID) : Prop := m <> masterPort_DMA.

(** What a route promises. *)
Record routed (peer : MasterPortID -> list AddrRange) (b : PciBridge) (a : Z) (m : MasterPortID) :
    Prop := {
  up_iff : m = masterPort_DMA <->
    forall n, down n -> ~ decodes (port_config b n) a /\ peer_contains peer n a = false;
  down_why : down m -> decodes (port_config b m) a \/
    (peer_contains peer m a = true /\ forall n, down n -> ~ decodes (port_config b n) a);
  alone : forall n, down n -> decodes (port_config b n) a ->
    (forall n', down n' -> decodes (port_config b n') a -> n' = n) -> m = n;
}.

Lemma routed_window peer b a m : down m -> decodes (port_config b m) a -> routed peer b a m.
Proof.
  intros Hm Hd. constructor; auto.
  split; [by intros -> |]. intros H. by destruct (H m Hm).
Qed.

Lemma routed_peer peer b a m : down m -> (forall n, down n -> ~ decodes (port_config b n) a) ->
  peer_contains peer m a = true -> routed peer b a m.
Proof.
  intros Hm Hn Hp. constructor; auto.
  - split; [by intros -> |]. intros H. destruct (H m Hm). congruence.
  - intros n Hd Hdec. by destruct (Hn n Hd).
Qed.

Lemma route_exists peer b a : bridge_ok b ->
  exists m, getMasterPort peer b a = Ok m /\ routed peer b a m.
Proof.
  intros (H1 & H2 & H3). unfold getMasterPort.
  destruct (port_window_spec _ a H1) as (w1 & -> & D1), (port_window_spec _ a H2) as (w2 & -> & D2),
    (port_window_spec _ a H3) as (w3 & -> & D3). cbn [obind].
  destruct w1; [exists masterPort1; split; [done |]; apply routed_window; [done | by apply D1] |].
  destruct w2; [exists masterPort2; split; [done |]; apply routed_window; [done | by apply D2] |].
  destruct w3; [exists masterPort3; split; [done |]; apply routed_window; [done | by apply D3] |].
  assert (Hn : forall n, down n -> ~ decodes (port_config b n) a).
  { intros [] Hd; [rewrite <- D1 | rewrite <- D2 | rewrite <- D3 |]; done. }
  destruct (peer_contains peer masterPort1 a) eqn:P1;
    [exists masterPort1; split; [done |]; by apply routed_peer |].
  destruct (peer_contains peer masterPort2 a) eqn:P2;
    [exists masterPort2; split; [done |]; by apply routed_peer |].
  destruct (peer_contains peer masterPort3 a) eqn:P3;
    [exists masterPort3; split; [done |]; by apply routed_peer |].
  exists masterPort_DMA. split; [done |]. constructor.
  - split; [| done]. intros _ n Hd. split; [auto |]. by destruct n.
  - done.
  - intros n Hd Hdec. by destruct (Hn n Hd).
Qed.

(** Routing of requests.  While the prefetchable windows decode, a route is
    found; a request goes upstream exactly when no port decodes its address and
    no peer announces it; a downstream port is chosen because it decodes the
    address, or because no port does and its peer announces it; and a port that
    is alone in decoding an address gets the request. *)
Theorem getMasterPort_spec peer b a : bridge_ok b ->
  exists m, getMasterPort peer b a = Ok m /\
    (m = masterPort_DMA <->
       forall n, down n -> ~ decodes (port_config b n) a /\ peer_contains peer n a = false) /\
    (down m -> decodes (port_config b m) a \/
       (peer_contains peer m a = true /\ forall n, down n -> ~ decodes (port_config b n) a)) /\
    (forall n, down n -> decodes (port_config b n) a ->
       (forall n', down n' -> decodes (port_config b n') a -> n' = n) -> m = n).
Proof.
  intros Hb. destruct (route_exists peer b a Hb) as (m & Hm & []). exists m. auto.
Qed.

(** * Ranges *)

Lemma RangeIn_contains s e a : e < 2 ^ 64 - 1 -> 0 <= e ->
  contains (RangeIn s e) a = true <-> s <= a <= e.
Proof.
  intros He H0. rewrite contains_plain by done. unfold RangeIn, RangeEx. cbn [_start _end].
  rewrite wrap_small by (unfold in_width; lia). lia.
Qed.

(** What the windows of a port add to a list of ranges lies in its windows. *)
Lemma fill_ranges_sound rs c : port_ok c -> barsize0 c = 0 -> barsize1 c = 0 ->
  exists rs', fill_ranges rs c = Ok rs' /\
    (Forall plain rs -> Forall plain rs') /\
    (forall a, covered rs' a -> covered rs a \/ decodes c a).
Proof.
  intros Hp B0 B1. destruct (prefetch_decoded c Hp) as (P1 & P2 & P3 & P4).
  destruct (window_limits c (po_wf _ Hp)) as (M1 & M2 & I1 & I2).
  unfold fill_ranges. rewrite P1, P2, B0, B1. cbn [obind Z.eqb negb andb app].
  assert (W : forall (f : bool) base limit, 0 <= base -> 0 < limit < 2 ^ 64 - 1 ->
     Forall plain (if f && (base <? limit) && negb (base =? 0) then [RangeIn base limit] else []) /\
     forall a, covered (if f && (base <? limit) && negb (base =? 0) then [RangeIn base limit] else []) a ->
     window base limit a).
  { intros f base limit Hb Hl. destruct f, (base <? limit), (Z.eqb_spec base 0); cbn [andb negb];
      (split; [repeat constructor |]); intros a; rewrite ?covered_cons, ?covered_nil; try done.
    intros [H | []]. apply RangeIn_contains in H; [| lia | lia]. done. }
  destruct (W (valid_memory_base c && valid_memory_limit c) _ (getMemoryLimit c) M1 ltac:(lia)) as [Wp Wc].
  destruct (W (valid_prefetchable_memory_base c && valid_prefetchable_memory_limit c) _
    (prefetch_limit_of c) P3 ltac:(lia))
    as [Pp Pc].
  destruct (W (valid_io_base c && valid_io_limit c) _ (getIOLimit c) I1 ltac:(lia)) as [Ip Ic].
  eexists. split; [done |]. split.
  - intros. repeat apply Forall_app_2; auto.
  - intros a. rewrite !covered_app. unfold decodes. intros [? | [? | [? | ?]]]; auto.
Qed.

(** Without base address registers, as the bridge is configured. *)
Definition no_bars (b : PciBridge) : Prop :=
  forall m, barsize0 (port_config b m) = 0 /\ barsize1 (port_config b m) = 0.

(** The ranges a root complex announces upstream and its routing agree.  Every
    address of the announced ranges is decoded by one of the downstream ports, so
    that an accepted request is never sent back out of the upstream master. *)
Theorem announced_routed peer b a : bridge_ok b -> no_bars b -> br_is_switch b = 0 ->
  exists rs, getAddrRanges b slavePort = Ok rs /\
    (covered rs a -> exists m, down m /\ decodes (port_config b m) a /\
       exists m', getMasterPort peer b a = Ok m' /\ down m' /\ decodes (port_config b m') a).
Proof.
  intros Hb Hn Hs. assert (Hb' := Hb). destruct Hb' as (H1 & H2 & H3).
  unfold getAddrRanges, port_ranges. rewrite Hs. cbn [Z.eqb].
  destruct (fill_ranges_sound [] _ H1) as (r1 & -> & _ & C1); [apply (Hn masterPort1).. |].
  cbn [obind].
  destruct (fill_ranges_sound r1 _ H2) as (r2 & -> & _ & C2); [apply (Hn masterPort2).. |].
  cbn [obind].
  destruct (fill_ranges_sound r2 _ H3) as (r3 & -> & _ & C3); [apply (Hn masterPort3).. |].
  cbn [obind]. rewrite bool_decide_eq_true_2 by done. eexists. split; [done |]. intros Hc.
  assert (Hd : exists m, down m /\ decodes (port_config b m) a).
  { assert (Hc' : covered r3 a).
    { destruct Hc as (r & Hr & Ha). exists r. split; [by apply sort_ranges_in | done]. }
    apply C3 in Hc' as [Hc' | ?]; [| by exists masterPort3].
    apply C2 in Hc' as [Hc' | ?]; [| by exists masterPort2].
    apply C1 in Hc' as [Hc' | ?]; [by apply covered_nil in Hc' | by exists masterPort1]. }
  destruct Hd as (m & Hm & Hd). exists m. split_and!; [done | done |].
  destruct (route_exists peer b a Hb) as (m' & -> & R). exists m'. split; [done |].
  assert (Hm' : down m').
  { intros E. destruct (proj1 (up_iff _ _ _ _ R) E m Hm). done. }
  split; [done |]. destruct (down_why _ _ _ _ R Hm') as [| [_ Hno]]; [done |].
  by destruct (Hno m Hm).
Qed.

(** What a port adds to a list of ranges has its memory window, once that is valid. *)
Lemma fill_ranges_has rs c : port_ok c -> exists rs', fill_ranges rs c = Ok rs' /\ (forall a, covered rs a -> covered rs' a) /\
  (valid_memory_base c = true -> valid_memory_limit c = true -> getMemoryBase c < getMemoryLimit c ->
   forall a, window (getMemoryBase c) (getMemoryLimit c) a -> covered rs' a).
Proof.
  intros Hp. destruct (prefetch_decoded c Hp) as (P1 & P2 & _). destruct (window_limits c (po_wf _ Hp)) as (_ & M2 & _).
  unfold fill_ranges. rewrite P1, P2. cbn [obind]. eexists. split; [reflexivity |]. split.
  - intros a Ha. rewrite covered_app. by left.
  - intros -> -> Hlt a [Hb Ha]. rewrite !covered_app. right; right; right; left. cbn [andb]. rewrite (proj2 (Z.ltb_lt _ _) Hlt), (proj2 (Z.eqb_neq _ 0) Hb).
    cbn [andb negb]. rewrite covered_cons. left. by apply RangeIn_contains; [lia | lia |].
Qed.

Lemma sort_covered rs a : covered (sort_ranges rs) a <-> covered rs a.
Proof. unfold covered. by setoid_rewrite sort_ranges_in. Qed.

(** The bridge whose port [m] has the configuration [c]. *)
Definition with_config (m : MasterPortID) (c : config_class) (b : PciBridge) : PciBridge :=
  mkPciBridge (if decide (m = masterPort1) then c else storage_ptr1 b) (if decide (m = masterPort2) then c else storage_ptr2 b)
    (if decide (m = masterPort3) then c else storage_ptr3 b) (if decide (m = masterPort_DMA) then c else storage_ptr4 b) (br_is_switch b).

Lemma with_config_ok m c b : down m -> port_ok c -> bridge_ok b -> bridge_ok (with_config m c b) /\ port_config (with_config m c b) m = c /\
  forall n, n <> m -> port_config (with_config m c b) n = port_config b n.
Proof. intros Hd Hc (H1 & H2 & H3). destruct m; (split; [by split_and! | split; [done | by intros []]]). Qed.

Lemma announced_window b m a : bridge_ok b -> br_is_switch b = 0 -> down m ->
  valid_memory_base (port_config b m) = true -> valid_memory_limit (port_config b m) = true ->
  getMemoryBase (port_config b m) < getMemoryLimit (port_config b m) -> window (getMemoryBase (port_config b m)) (getMemoryLimit (port_config b m)) a ->
  exists rs, getAddrRanges b slavePort = Ok rs /\ covered rs a.
Proof.
  intros (H1 & H2 & H3) Hs Hd V1 V2 Hlt Hw. unfold getAddrRanges, port_ranges. rewrite Hs. cbn [Z.eqb].
  destruct (fill_ranges_has [] _ H1) as (r1 & -> & _ & W1). cbn [obind]. destruct (fill_ranges_has r1 _ H2) as (r2 & -> & C2 & W2). cbn [obind].
  destruct (fill_ranges_has r2 _ H3) as (r3 & -> & C3 & W3). cbn [obind]. rewrite bool_decide_eq_true_2 by done. eexists. split; [reflexivity |].
  apply sort_covered. destruct m; cbn [port_config] in *; [by apply C3, C2, W1 | by apply C3, W2 | by apply W3 | done].
Qed.

Lemma write_keeps_prefetch pkt val c r t c' chg : config_wf c -> writeConfig pkt val c = Ok (r, t, c', chg) ->
  config_offset pkt = PCI1_MEM_BASE -> psize pkt = 4 -> prefetch_ok c -> prefetch_ok c'.
Proof.
  intros Hwf E Eo En [H1 H2]. destruct (writeConfig_frame _ _ _ _ _ _ _ Hwf E) as (_ & _ & _ & _ & Hb & _).
  assert (Hsame : forall g, (36 <= g.1)%nat -> get1 g c' = get1 g c).
  { intros g Hg. apply load_ext. intros i Hi. apply Hb. rewrite Eo, En. unfold span, PCI1_MEM_BASE.
    destruct (Z.leb_spec 32 (Z.of_nat i)), (Z.ltb_spec (Z.of_nat i) (32 + 4)); done || lia. }
  split; rewrite Hsame; done || (cbn; lia).
Qed.

(** C33: software programs the memory window of a downstream port.  A single write of four
    bytes to the memory base and limit of the port, for the megabytes from [b] > 0 to
    [l] >= [b] below 4 GB, is answered and announced to the ports whose ranges depend on it;
    from then on the memory window of the port is exactly these megabytes.  A request for
    an address in it goes to a downstream port that decodes it, to this one unless another
    port's windows overlap, and never back upstream; a root complex (not a switch) offers
    the address upstream.  The other registers stay: vendor and device, class, header type
    and the whole capability structure have their bytes, and the I/O and prefetchable
    windows of the port are as before.  Assumed are well-formed
    configurations whose prefetchable windows decode without overflow. *)
Theorem programmed_window peer pkt b l m br :
  bridge_ok br -> down m -> config_pkt pkt -> config_offset pkt = PCI1_MEM_BASE -> psize pkt = 4 -> 0 < b -> b <= l -> l < 2 ^ 12 ->
  exists r c', writeConfig pkt (l * 2 ^ 20 + b * 2 ^ 4) (port_config br m) = Ok (r, configDelay (port_config br m), c', range_changes (port_config br m)) /\
    (forall a, window (getMemoryBase c') (getMemoryLimit c') a <-> b * 2 ^ 20 <= a < (l + 1) * 2 ^ 20) /\
    (forall a, b * 2 ^ 20 <= a < (l + 1) * 2 ^ 20 ->
       (exists n, getMasterPort peer (with_config m c' br) a = Ok n /\ down n /\ decodes (port_config (with_config m c' br) n) a /\
          ((forall n, down n -> n <> m -> ~ decodes (port_config br n) a) -> n = m)) /\
       (br_is_switch br = 0 -> exists rs, getAddrRanges (with_config m c' br) slavePort = Ok rs /\ covered rs a)) /\
    storage2 c' = storage2 (port_config br m) /\ (forall g, In g identity_regs -> get1 g c' = get1 g (port_config br m)) /\
    getIOBase c' = getIOBase (port_config br m) /\ getIOLimit c' = getIOLimit (port_config br m) /\
    getPrefetchableMemoryBase c' = getPrefetchableMemoryBase (port_config br m) /\
    getPrefetchableMemoryLimit c' = getPrefetchableMemoryLimit (port_config br m).
Proof.
  intros Hbr Hd Hp Eo En Hb Hbl Hl. assert (Hc : port_ok (port_config br m)) by (destruct Hbr as (? & ? & ?); by destruct m). pose proof (po_wf _ Hc) as Hwf.
  destruct (program_memory_window pkt b l _ Hwf Hp Eo En) as (r & c' & E & B & L & V1 & V2 & R1 & R2 & R3 & R4); [unfold in_width; lia | unfold in_width; lia |].
  assert (Hc' : port_ok c').
  { destruct (writeConfig_frame _ _ _ _ _ _ _ Hwf E) as (_ & _ & Hwf' & _). split; [done |]. exact (write_keeps_prefetch _ _ _ _ _ _ _ Hwf E Eo En (po_prefetch _ Hc)). }
  destruct (with_config_ok m c' br Hd Hc' Hbr) as (Hok & Hm & Hn).
  assert (Hw : forall a, window (getMemoryBase c') (getMemoryLimit c') a <-> b * 2 ^ 20 <= a < (l + 1) * 2 ^ 20) by (intros a; unfold window; rewrite B, L; lia).
  destruct (identity_preserved [(pkt, l * 2 ^ 20 + b * 2 ^ 4)] (port_config br m) c' Hwf) as (_ & Hs2 & Hid & _); [cbn [run_writes]; by rewrite E |].
  exists r, c'. split; [done |]. split; [done |]. split; [| by split_and!]. intros a Ha.
  assert (Hdec : decodes (port_config (with_config m c' br) m) a) by (rewrite Hm; left; by apply Hw). split.
  - destruct (route_exists peer _ a Hok) as (n & Hg & [U1 U2 U3]). exists n. split; [done |].
    assert (Hdn : down n) by (intros ->; destruct (proj1 U1 eq_refl m Hd); done). split; [done |]. split.
    + destruct (U2 Hdn) as [| [_ Hno]]; [done |]. by destruct (Hno m Hd).
    + intros Hothers. apply (U3 m Hd Hdec). intros n' Hd' Hdec'. destruct (decide (n' = m)) as [-> | Hne]; [done |].
      rewrite Hn in Hdec' by done. by destruct (Hothers n' Hd' Hne).
  - intros Hs. apply (announced_window _ m); rewrite ?Hm; try done; [rewrite B, L; lia | by apply Hw].
Qed.

Lemma separated_low lo rs r : separated lo rs -> In r rs -> lo <= _start r.
Proof.
  revert lo. induction rs as [| r' rs IH]; cbn; [done |].
  intros lo (_ & H1 & H2 & H3) [<- | Hr]; [done |]. specialize (IH _ H3 Hr). lia.
Qed.

Lemma downstream_loop_spec rs last a :
  0 <= last -> separated (last - 1) rs -> Forall (fun r => _end r < 2 ^ 64 - 1 /\ 0 <= _start r) rs ->
  covered (downstream_loop last rs) a <->
  last <= a /\ (exists r, In r rs /\ a < _start r) /\
  (forall r, In r rs -> ~ (_start r <= a <= _end r)).
Proof.
  revert last. induction rs as [| r rs IH]; intros last Hl Hs Hf; cbn [downstream_loop].
  - assert (Hno : ~ covered (if last =? 0 then [] else [RangeIn last ADDR_MAX]) a).
    { destruct (Z.eqb_spec last 0); rewrite ?covered_cons, covered_nil; [tauto |].
      intros [H | []]. apply contains_bounds in H as [H _].
      change (_end (RangeIn last ADDR_MAX)) with 0 in H. cbn [RangeIn RangeEx _start] in H. lia. }
    split; [done |]. intros (_ & (r & [] & _) & _).
  - cbn in Hs. destruct Hs as (Hp & Hst & Hlt & Hs). inversion Hf as [| ? ? [He H0] Hf']; subst.
    rewrite covered_app, (wrap_small 64 (_end r + 1)) by (unfold in_width; lia).
    rewrite IH; [| lia | by replace (_end r + 1 - 1) with (_end r) by lia | done].
    assert (Hlow : forall r', In r' rs -> _end r <= _start r') by
      (intros r' Hr'; by apply (separated_low (_end r) rs)).
    assert (G : covered (if last <? _start r then [RangeIn last (u64 (_start r - 1))] else []) a
                <-> last <= a < _start r).
    { destruct (Z.ltb_spec last (_start r)); rewrite ?covered_cons, covered_nil; [| lia].
      rewrite wrap_small by (unfold in_width; lia). rewrite RangeIn_contains by lia. intuition lia. }
    rewrite G. split.
    + intros [Ha | (Ha & (r' & Hr' & Ha') & Hno)].
      * split; [lia |]. split; [exists r; split; [by left | lia] |].
        intros r' [<- | Hr']; [lia |]. specialize (Hlow r' Hr'). lia.
      * split; [lia |]. split; [exists r'; split; [by right | done] |].
        intros r'' [<- | Hr'']; [lia | by apply Hno].
    + intros (Ha & (r' & Hr' & Ha') & Hno). pose proof (Hno r (or_introl eq_refl)) as Hnr.
      destruct (Z.lt_ge_cases a (_start r)); [by left |]. right.
      split; [lia |]. split; [| intros; apply Hno; by right].
      destruct Hr' as [<- | Hr']; [lia | by exists r'].
Qed.

(** The addresses a downstream slave port accepts from a device.  With the
    windows of its port in order and apart, an address is accepted exactly when it
    lies below the start of some window and neither in a window nor on the byte
    just after one; in particular nothing above the last window is accepted, as
    the last range ends at the wrapped address 0. *)
Theorem downstream_ranges b port ws a :
  port <> slavePort -> port_ranges b port = Ok ws -> separated 0 ws ->
  Forall (fun r => _end r < 2 ^ 64 - 1) ws -> 0 <= a ->
  exists rs, getAddrRanges b port = Ok rs /\
    (covered rs a <-> (exists r, In r ws /\ a < _start r) /\
                      (forall r, In r ws -> ~ (_start r <= a <= _end r))).
Proof.
  intros Hp Hw Hs Hf Ha. unfold getAddrRanges. rewrite Hw. cbn [obind].
  rewrite bool_decide_eq_false_2 by done. eexists. split; [done |].
  rewrite downstream_loop_spec; [intuition lia | lia | by apply (separated_mono _ 0) |].
  rewrite List.Forall_forall in *. intros r Hr. split; [by apply Hf |].
  by apply (separated_low 0 ws).
Qed.

(** Routing of responses.  A response goes out of the downstream slave port
    whose bus range holds the requester's bus, the first of them, and upstream
    exactly when no programmed port holds it. *)
Theorem getSlavePort_spec b bus :
  (getSlavePort b bus = slavePort <->
     on_bus (storage_ptr1 b) bus = false /\ on_bus (storage_ptr2 b) bus = false /\
     on_bus (storage_ptr3 b) bus = false) /\
  match getSlavePort b bus with
  | slavePort => True
  | slavePort_DMA1 => on_bus (storage_ptr1 b) bus = true
  | slavePort_DMA2 => on_bus (storage_ptr2 b) bus = true /\ on_bus (storage_ptr1 b) bus = false
  | slavePort_DMA3 => on_bus (storage_ptr3 b) bus = true /\ on_bus (storage_ptr1 b) bus = false /\
                      on_bus (storage_ptr2 b) bus = false
  end.
Proof.
  unfold getSlavePort. destruct (on_bus (storage_ptr1 b) bus), (on_bus (storage_ptr2 b) bus),
    (on_bus (storage_ptr3 b) bus); intuition discriminate.
Qed.

(** * Checkpoints *)

(** The state a configuration [c'] of a new simulation has after the state of [c]
    was restored into it. *)
Definition restored (c c' : config_class) : config_class :=
  mkConfig (storage1 c) (storage2 c) (barsize0 c') (barsize1 c') (barflags0 c') (barflags1 c')
    (configDelay c') (PXCAPBaseOffset c') (is_switch c') (id c') (is_valid c) (valid_io_base c)
    (valid_io_limit c) (valid_prefetchable_memory_base c) (valid_prefetchable_memory_limit c)
    (valid_memory_base c) (valid_memory_limit c).

(** What a configuration saves: bytes in two arrays of fixed sizes. *)
Record saved (c : config_class) : Prop := {
  sv_len1 : length (storage1 c) = 64%nat;
  sv_len2 : length (storage2 c) = 36%nat;
  sv_bytes1 : bytes_ok (storage1 c);
  sv_bytes2 : bytes_ok (storage2 c);
  sv_valid : in_width 8 (is_valid c);
}.

Open Scope string_scope.

(** The names and texts of the arrays and of the scalars of a configuration. *)
Definition saved_arrays (ptr : string) (c : config_class) : list (string * text) :=
  [(ptr ++ "->storage1.data", show_array (storage1 c)); (ptr ++ "->storage2.data", show_array (storage2 c))].
Definition saved_scalars (ptr : string) (c : config_class) : list (string * text) :=
  [(ptr ++ "->is_valid", show (is_valid c)); (ptr ++ "->valid_io_base", show (valid_io_base c));
   (ptr ++ "->valid_io_limit", show (valid_io_limit c)); (ptr ++ "->valid_memory_base", show (valid_memory_base c));
   (ptr ++ "->valid_memory_limit", show (valid_memory_limit c));
   (ptr ++ "->valid_prefetchable_memory_base", show (valid_prefetchable_memory_base c));
   (ptr ++ "->valid_prefetchable_memory_limit", show (valid_prefetchable_memory_limit c))].
Definition saved_params (b : PciBridge) : list (string * text) :=
  (saved_arrays "storage_ptr4" (storage_ptr4 b) ++ saved_arrays "storage_ptr1" (storage_ptr1 b) ++
   saved_arrays "storage_ptr2" (storage_ptr2 b) ++ saved_arrays "storage_ptr3" (storage_ptr3 b) ++
   saved_scalars "storage_ptr4" (storage_ptr4 b) ++ saved_scalars "storage_ptr3" (storage_ptr3 b) ++
   saved_scalars "storage_ptr2" (storage_ptr2 b) ++ saved_scalars "storage_ptr1" (storage_ptr1 b))%list.

Lemma serialize_lines b cp : serialize b cp = (cp ++ map line_of (saved_params b))%list.
Proof.
  unfold serialize, serialize_arrays, serialize_scalars, arrayParamOut, paramOut. by rewrite <- !(app_assoc (A := text)).
Qed.

Lemma names_ok b : Forall (fun p => name_ok p.1 = true) (saved_params b).
Proof. repeat constructor. Qed.
Lemma names_apart b : NoDup (saved_params b).*1.
Proof. apply (bool_decide_unpack _). vm_compute. exact I. Qed.

Lemma texts_trimmed ptr c : saved c -> Forall (fun p => trimmed p.2) (saved_arrays ptr c) /\ Forall (fun p => trimmed p.2) (saved_scalars ptr c).
Proof.
  intros [_ _ H1 H2 H3]. split; repeat constructor; cbn [snd];
    first [by apply (array_trimmed (in_width 8)) | by apply word_trimmed, (show_word (ok := in_width 8)) | by apply word_trimmed, (show_word (ok := fun _ => True))].
Qed.

(** The names of a port's parameters find its values in the whole checkpoint. *)
Lemma unserialize_port_ok cp path ptr c c' : saved c ->
  (forall p, p ∈ (saved_arrays ptr c ++ saved_scalars ptr c)%list -> find_param cp path (str p.1) = Some p.2) ->
  unserialize_port cp path ptr c' = Ok (restored c c').
Proof.
  intros [L1 L2 H1 H2 H3] Hf. unfold saved_arrays, saved_scalars in Hf. cbn [app] in Hf.
  repeat match type of Hf with forall p, p ∈ ?x :: ?l -> _ => let E := fresh "E" in
    pose proof (Hf x ltac:(left)) as E; cbn [fst snd] in E; assert (Hf' : forall p, p ∈ l -> find_param cp path (str p.1) = Some p.2)
      by (intros p Hp; apply Hf; by right); clear Hf; rename Hf' into Hf end.
  unfold unserialize_port, arrayParamIn, paramIn. rewrite E, E0, E1, E2, E3, E4, E5, E6, E7.
  rewrite !(tokenize_array (in_width 8)), !length_map, !bool_decide_eq_true_2, !(parse_all_show (in_width 8)) by done. cbn [obind].
  rewrite (parse_show (ok := in_width 8)), !(parse_show (ok := fun _ : bool => True)) by done. done.
Qed.

Close Scope string_scope.

(** The ranges of a configuration that was restored. *)
Lemma restored_ranges r c c' : barsize0 c' = barsize0 c -> barsize1 c' = barsize1 c -> fill_ranges r (restored c c') = fill_ranges r c.
Proof. intros E0 E1. unfold fill_ranges, getBar0, getBar1. cbn [restored barsize0 barsize1]. by rewrite E0, E1. Qed.

Definition same_bars (c c' : config_class) : Prop := barsize0 c' = barsize0 c /\ barsize1 c' = barsize1 c.

(** C40: checkpoints restore the bridge.  The text that a bridge writes into its section,
    numbers in decimal and flags as words, is read by a bridge of a new simulation: the
    lines are found again under their names, the words of an array are as many as its
    elements and parse to them, and both arrays, the bus state and the six window flags of
    each of the four configurations are those of the saved bridge.  What the parameters
    give, and the flags of the base address registers, stays that of the new bridge.  All
    four slave ports announce their ranges; when the new bridge is a switch exactly if the
    saved one was, and the sizes of its base address registers are the same in each
    configuration, the ranges that each of the four ports computes are those of the saved
    bridge.  Assumed are arrays of bytes of their declared sizes and a section name without
    spaces at its ends. *)
Theorem checkpoint_roundtrip b b' path :
  saved (storage_ptr1 b) -> saved (storage_ptr2 b) -> saved (storage_ptr3 b) -> saved (storage_ptr4 b) -> trimmed path ->
  exists cp b'', open_checkpoint (serialize b (section_header path [])) = Ok cp /\
    unserialize cp path b' = Ok (b'', [slavePort; slavePort_DMA1; slavePort_DMA2; slavePort_DMA3]) /\
    b'' = mkPciBridge (restored (storage_ptr1 b) (storage_ptr1 b')) (restored (storage_ptr2 b) (storage_ptr2 b'))
            (restored (storage_ptr3 b) (storage_ptr3 b')) (restored (storage_ptr4 b) (storage_ptr4 b')) (br_is_switch b') /\
    (br_is_switch b' = br_is_switch b -> same_bars (storage_ptr1 b) (storage_ptr1 b') -> same_bars (storage_ptr2 b) (storage_ptr2 b') ->
     same_bars (storage_ptr3 b) (storage_ptr3 b') -> same_bars (storage_ptr4 b) (storage_ptr4 b') ->
     forall port, getAddrRanges b'' port = getAddrRanges b port).
Proof.
  intros H1 H2 H3 H4 Hp. rewrite serialize_lines.
  destruct (open_written path (saved_params b) Hp) as (cp & E & Hf); [| apply names_apart |].
  { apply Forall_and. split; [apply names_ok |]. unfold saved_params. rewrite !Forall_app.
    split_and!; by apply texts_trimmed. }
  exists cp. eexists. split; [exact E |]. split; [| split; [reflexivity |]].
  - unfold unserialize.
    rewrite (unserialize_port_ok cp path "storage_ptr4" (storage_ptr4 b)), (unserialize_port_ok cp path "storage_ptr1" (storage_ptr1 b)),
      (unserialize_port_ok cp path "storage_ptr2" (storage_ptr2 b)), (unserialize_port_ok cp path "storage_ptr3" (storage_ptr3 b)); [reflexivity | ..]; try done;
      intros p Hin; rewrite Hf; unfold saved_arrays, saved_scalars in Hin; cbn [app] in Hin;
      repeat (apply elem_of_cons in Hin as [-> | Hin]; [reflexivity |]); by apply not_elem_of_nil in Hin.
  - intros Es [A1 A2] [B1 B2] [C1 C2] [D1 D2] port. unfold getAddrRanges, port_ranges. cbn [br_is_switch storage_ptr1 storage_ptr2 storage_ptr3 storage_ptr4].
    rewrite Es, !restored_ranges by done. destruct port; try done. destruct (br_is_switch b =? 0); [| done].
    destruct (fill_ranges [] (storage_ptr1 b)); [| done]. cbn [obind]. rewrite restored_ranges by done.
    destruct (fill_ranges _ (storage_ptr2 b)); [| done]. cbn [obind]. by rewrite restored_ranges.
Qed.

(** * A concrete bridge *)

(** The parameters of the root complex. *)
Definition root_complex : PciBridgeParams :=
  mkParams 0 0x8086 0x0407 0x0010 0x06 0x04 0 0 0 1 0 0 0 0 0 0 0 0 0 0 0 0x01 0x01 0x2f00 0x2f00
    0xD0 0 0x01 0x20 0 0 0 0 0 0 0x10 0x241 0x1020 0 0x01009011 0x0008 0x0011 0 0 20000 0 0 0xD0
    0x41 0x61 0x51 0x9c90 0x9c92 0x9c94 0x8232.

Definition with_memory (base limit : Z) : config_class :=
  set_valid_memory true true (put1 MemoryLimit limit (put1 MemoryBase base sample_config)).

(** A bridge with a memory window of 32 MB behind each of its first two ports. *)
Definition sample_bridge : PciBridge :=
  mkPciBridge (with_memory 0x8000 0x81F0) (with_memory 0xA000 0xA1F0) sample_config sample_config 0.

Lemma with_memory_ok base limit : port_ok (with_memory base limit).
Proof.
  constructor.
  - refine (k_wf (fun _ => true) sample_config _ _ sample_config_wf). unfold with_memory. keep.
  - unfold prefetch_ok, with_memory. cbn [get1 put1 set_valid_memory set_storage1 storage1].
    unfold get1, put1, get, put. cbn [set_valid_memory set_storage1 storage1 fst snd].
    pose proof (wf_len1 _ sample_config_wf) as L.
    assert (L' : length (store 2 32 base (storage1 sample_config)) = 64%nat) by
      (rewrite store_length; lia).
    change (PrefetchableMemoryBase.2) with 2%nat. change (PrefetchableMemoryBase.1) with 36%nat.
    change (PrefetchableMemoryLimit.2) with 2%nat. change (PrefetchableMemoryLimit.1) with 38%nat.
    change (MemoryBase.2) with 2%nat. change (MemoryBase.1) with 32%nat.
    change (MemoryLimit.2) with 2%nat. change (MemoryLimit.1) with 34%nat.
    rewrite !(load_store_other 2 36), !(load_store_other 2 38) by lia. split; reflexivity.
Qed.

Lemma sample_config_ok : port_ok sample_config.
Proof. constructor; [exact sample_config_wf | split; reflexivity]. Qed.

Lemma sample_bridge_ok : bridge_ok sample_bridge.
Proof. split; [apply with_memory_ok | split; [apply with_memory_ok | apply sample_config_ok]]. Qed.

Definition no_peers (m : MasterPortID) : list AddrRange := [].

Lemma new_config_spec_witness :
  let c := new_config sample_config root_complex 0x9c90 0x41 1 in
  config_wf c /\ get VendorId (storage1 c) = 0x8086 /\ get DeviceId (storage1 c) = 0x9c90.
Proof.
  destruct (new_config_spec sample_config root_complex 0x9c90 0x41 1) as (H1 & _ & H2 & _);
    [destruct sample_config_wf; split; [assumption | split; [assumption | split; assumption]]
    | split; [discriminate | reflexivity] |].
  split; [exact H1 |]. split.
  - rewrite (H2 VendorId 0x8086); [reflexivity | right; left; reflexivity].
  - rewrite (H2 DeviceId 0x9c90); [reflexivity | left; reflexivity].
Defined.

Lemma getMasterPort_spec_witness :
  exists m, getMasterPort no_peers sample_bridge 0xA0100000 = Ok m /\
    (down m -> decodes (port_config sample_bridge m) 0xA0100000 \/
       (peer_contains no_peers m 0xA0100000 = true /\
        forall n, down n -> ~ decodes (port_config sample_bridge n) 0xA0100000)).
Proof.
  destruct (getMasterPort_spec no_peers sample_bridge 0xA0100000 sample_bridge_ok)
    as (m & H1 & _ & H2 & _).
  exists m. split; [exact H1 | exact H2].
Defined.

Lemma announced_routed_witness :
  exists m, down m /\ decodes (port_config sample_bridge m) 0x80001040.
Proof.
  destruct (announced_routed no_peers sample_bridge 0x80001040 sample_bridge_ok)
    as (rs & H1 & H2); [intros []; split; reflexivity | reflexivity |].
  vm_compute in H1. injection H1 as <-.
  destruct H2 as (m & Hm & Hd & _); [| exists m; split; [exact Hm | exact Hd]].
  eexists. split; [left; reflexivity | reflexivity].
Defined.

Lemma downstream_ranges_witness :
  exists rs, getAddrRanges sample_bridge slavePort_DMA1 = Ok rs /\
    covered rs 0x1000 /\ ~ covered rs 0x90000000.
Proof.
  destruct (downstream_ranges sample_bridge slavePort_DMA1 [RangeIn 0x80000000 0x81FFFFFF] 0x1000)
    as (rs & H1 & H2);
    [discriminate | reflexivity | split; [done | split; [discriminate | split; [reflexivity | exact I]]]
    | constructor; [reflexivity | constructor] | discriminate |].
  destruct (downstream_ranges sample_bridge slavePort_DMA1 [RangeIn 0x80000000 0x81FFFFFF] 0x90000000)
    as (rs' & H1' & H2');
    [discriminate | reflexivity | split; [done | split; [discriminate | split; [reflexivity | exact I]]]
    | constructor; [reflexivity | constructor] | discriminate |].
  exists rs. split; [exact H1 |]. rewrite H1 in H1'. injection H1' as <-. split.
  - apply H2. split; [eexists; split; [left; reflexivity | reflexivity] |].
    intros r [<- | []] [H _]. vm_compute in H. apply H. reflexivity.
  - intros H. apply H2' in H. destruct H as [(r & [<- | []] & Hlt) _]. discriminate Hlt.
Defined.

Lemma saved_wf c : config_wf c -> in_width 8 (is_valid c) -> saved c.
Proof. by intros []. Qed.

(** The section of the sample bridge, and its first scalar as it is written. *)
Lemma checkpoint_roundtrip_witness :
  exists cp b'', open_checkpoint (serialize sample_bridge (section_header (str "system.bridge") [])) = Ok cp /\
    unserialize cp (str "system.bridge") sample_bridge = Ok (b'', [slavePort; slavePort_DMA1; slavePort_DMA2; slavePort_DMA3]) /\
    getMemoryBase (storage_ptr2 b'') = 0xA0000000 /\ getAddrRanges b'' slavePort = getAddrRanges sample_bridge slavePort /\
    str "storage_ptr1->valid_memory_base=true" ∈ serialize sample_bridge [].
Proof.
  destruct (checkpoint_roundtrip sample_bridge sample_bridge (str "system.bridge")) as (cp & b'' & E1 & E2 & E3 & E4);
    [apply saved_wf; [apply with_memory_ok | by vm_compute] | apply saved_wf; [apply with_memory_ok | by vm_compute]
    | apply saved_wf; [apply sample_config_wf | by vm_compute] | apply saved_wf; [apply sample_config_wf | by vm_compute] | split; vm_compute; discriminate |].
  exists cp, b''. split; [exact E1 |]. split; [exact E2 |]. split; [rewrite E3; vm_compute; reflexivity |]. split; [apply (E4 eq_refl (conj eq_refl eq_refl) (conj eq_refl eq_refl) (conj eq_refl eq_refl) (conj eq_refl eq_refl)) |].
  apply list_elem_of_lookup. exists 32%nat. vm_compute. reflexivity.
Defined.

(** The second port of the sample bridge, which decodes the megabytes from 0xA00 on, is given
    those from 0xB00 to 0xB0F. *)
Lemma programmed_window_witness :
  exists c', getMasterPort no_peers (with_config masterPort2 c' sample_bridge) 0xB0312340 = Ok masterPort2 /\
    exists rs, getAddrRanges (with_config masterPort2 c' sample_bridge) slavePort = Ok rs /\ covered rs 0xB0312340.
Proof.
  destruct (programmed_window no_peers (config_write 0x20 4) 0xB00 0xB0F masterPort2 sample_bridge sample_bridge_ok) as (r & c' & E & _ & H & _);
    [discriminate | split; [reflexivity | split; [reflexivity | split; [reflexivity | right; right; reflexivity]]] | reflexivity | reflexivity | lia | lia | lia |].
  exists c'. destruct (H 0xB0312340) as [(n & Hg & _ & _ & Hn) Hs]; [lia |]. split; [| by apply Hs].
  rewrite Hg, Hn; [reflexivity |]. intros [] Hd Hne; try done; unfold decodes, window; vm_compute; intuition congruence.
Defined.
