(* ===== verification/BridgePorts.v ===== *)
(** The timing ports of the bridge: classes [PciBridgeSlavePort] and
    [PciBridgeMasterPort] of [src/gem5/src/mem/PciBridge.cc].

    A slave port reserves a response slot and hands the request to a master port,
    which queues it and sends it when its event fires; the response comes back
    through the master port, finds its slave port in the routing table and leaves
    through that port's queue.  A handler takes the state of all ports and
    returns the new state with its result.  What a peer answers to a send is an
    argument, and so are the ranges the peers of the master ports announce.  The
    retries a handler sends are reported: a peer answers a retry with requests at
    its own port, calls of their own that touch nothing the handler still uses. *)
From Stdlib Require Import ZArith Lia.
From stdpp Require Import base numbers list gmap.
From S2P Require Import Prelude IntMath AddrRange CxlPacket MemPacket HomeAgent.
From S2P Require Import BridgeConfig BridgeState Clocked.

Open Scope Z_scope.

(** * State *)

(** A queue holds packets with their ticks ([DeferredPacket]); [event] is the tick
    the port's [sendEvent] is scheduled at. *)
Record slave_port : Type := mkSlave {
  s_transmitList : list (Packet * Z);
  outstandingResponses : Z;
  retryReq : bool;
  s_event : option Z;
}.

Record master_port : Type := mkMaster {
  m_transmitList : list (Packet * Z);
  m_event : option Z;
  totalCount : Z;
}.

Record ports : Type := mkPorts {
  bridge : PciBridge;
  slaves : SlavePortID -> slave_port;
  masters : MasterPortID -> master_port;
  routeTo : gmap Z Z;
  curTick : Z;
  clock : Clocked;
}.

(** The parameters of the bridge the ports use. *)
Record port_params : Type := mkPortParams {
  respQueueLimit : Z;
  reqQueueLimit : Z;
  delay : Z;
  rcid : Z;
  bridge_id : Z;
  pci_bus4 : Z;
  is_transmit : Z;
}.

Definition slaveID (s : SlavePortID) : Z :=
  match s with slavePort => 0 | slavePort_DMA1 => 1 | slavePort_DMA2 => 2 | slavePort_DMA3 => 3 end.

Definition set_slave (s : SlavePortID) (p : slave_port) (st : ports) : ports :=
  mkPorts (bridge st) (fun s' => if decide (s' = s) then p else slaves st s') (masters st)
    (routeTo st) (curTick st) (clock st).
Definition set_master (m : MasterPortID) (p : master_port) (st : ports) : ports :=
  mkPorts (bridge st) (slaves st) (fun m' => if decide (m' = m) then p else masters st m')
    (routeTo st) (curTick st) (clock st).
Definition set_routeTo (r : gmap Z Z) (st : ports) : ports :=
  mkPorts (bridge st) (slaves st) (masters st) r (curTick st) (clock st).
Definition set_clock (c : Clocked) (st : ports) : ports :=
  mkPorts (bridge st) (slaves st) (masters st) (routeTo st) (curTick st) c.

(** [bridge.clockEdge(cycles)]. *)
Definition edge (cycles : Z) (st : ports) : outcome (Z * ports) :=
  let! (t, c) := clockEdge (curTick st) cycles (clock st) in Ok (t, set_clock c st).

Section Ports.
Context (prm : port_params) (peer : MasterPortID -> list AddrRange).

(** [bool respQueueFull() const] and [bool reqQueueFull() const]. *)
Definition respQueueFull (p : slave_port) : bool := outstandingResponses p =? respQueueLimit prm.
Definition reqQueueFull (p : master_port) : bool :=
  Z.of_nat (length (m_transmitList p)) =? reqQueueLimit prm.

(** [void PciBridgeMasterPort::schedTimingReq(PacketPtr pkt, Tick when)]. *)
Definition schedTimingReq (cur : Z) (pkt : Packet) (when : Z) (p : master_port) : outcome master_port :=
  let! ev := (if bool_decide (m_transmitList p = []) then schedule cur (m_event p) when
              else Ok (m_event p)) in
  do! assert_ (negb (Z.of_nat (length (m_transmitList p)) =? reqQueueLimit prm)) then
  Ok (mkMaster (m_transmitList p ++ [(pkt, when)]) ev (totalCount p)).

(** [void PciBridgeSlavePort::schedTimingResp(PacketPtr pkt, Tick when)]. *)
Definition schedTimingResp (cur : Z) (pkt : Packet) (when : Z) (p : slave_port) : outcome slave_port :=
  let! ev := (if bool_decide (s_transmitList p = []) then schedule cur (s_event p) when
              else Ok (s_event p)) in
  Ok (mkSlave (s_transmitList p ++ [(pkt, when)]) (outstandingResponses p) (retryReq p) ev).

(** [pkt->req->pciBridgeSlaveIDs[bridge.bridge_id] = slaveID]; the array has eight
    entries. *)
Definition set_slave_id (s : SlavePortID) (pkt : Packet) : outcome Packet :=
  if (0 <=? bridge_id prm) && (bridge_id prm <? 8) then
    Ok (upd_req (fun r => set_pciBridgeSlaveIDs
                   (<[bridge_id prm := slaveID s]> (pciBridgeSlaveIDs r)) r) pkt)
  else Err Undefined.

Definition get_slave_id (pkt : Packet) : outcome Z :=
  match pciBridgeSlaveIDs (req pkt) !! bridge_id prm with Some v => Ok v | None => Err Undefined end.

(** [pkt->req_bus[rcid]]; the arrays have two entries. *)
Definition get_req_bus (pkt : Packet) : outcome Z :=
  match req_ids pkt !! Z.to_nat (rcid prm) with
  | Some (bus, _, _) => Ok bus
  | None => Err Undefined
  end.

(** The bus of the requester a slave port stands for. *)
Definition requester_bus (s : SlavePortID) (b : PciBridge) : Z :=
  match s with
  | slavePort => pci_bus4 prm
  | slavePort_DMA1 => get1 SecondaryBusNumber (storage_ptr1 b)
  | slavePort_DMA2 => get1 SecondaryBusNumber (storage_ptr2 b)
  | slavePort_DMA3 => get1 SecondaryBusNumber (storage_ptr3 b)
  end.

(** The assignment of the requester id in [recvTimingReq]. *)
Definition assign_requester (s : SlavePortID) (b : PciBridge) (pkt : Packet) : outcome Packet :=
  let! bus := get_req_bus pkt in
  if bus =? -1 then
    Ok (set_req_ids (<[Z.to_nat (rcid prm) := (requester_bus s b, 0, 0)]> (req_ids pkt)) pkt)
  else Ok pkt.

(** The translation of a host request, which must succeed. *)
Definition host_cxl (pkt : Packet) : outcome Packet :=
  let! (checkCXLPkt, pkt) := makeCXLPacket pkt in
  do! panic_if (negb checkCXLPkt) then Ok pkt.

(** The CXL part of [recvTimingReq] by address: the packet and the master port. *)
Definition dispatch_addr (s : SlavePortID) (b : PciBridge) (pkt : Packet) (m : MasterPortID) :
    outcome (Packet * MasterPortID) :=
  let! a := getAddr pkt in
  if (0x15000000 <=? a) && (a <? 0x15040000) then
    if slaveID s =? 0 then let! pkt := host_cxl pkt in Ok (pkt, m) else Ok (pkt, m)
  else if (0x80000000 <=? a) && (a <? 0xA0000000) then
    if (slaveID s =? 0) && negb (bool_decide (cxl_packet_type (req pkt) = HostBiasCheck))
    then let! pkt := host_cxl pkt in Ok (pkt, m) else Ok (pkt, m)
  else if 0xA0000000 <=? a then
    if slaveID s =? 0 then
      if bool_decide (cxl_packet_type (req pkt) = CXLcacheH2DReq) then
        let! (_, pkt) := makeCXLSnpReq pkt in
        let! m := getMasterPort peer b 0x15000000 in Ok (pkt, m)
      else Err Panic
    else Ok (pkt, m)
  else Ok (pkt, m).

(** The coherence checks of [recvTimingReq]. *)
Definition dispatch_check (s : SlavePortID) (b : PciBridge) (pkt : Packet) (m : MasterPortID) :
    outcome (Packet * MasterPortID) :=
  if bool_decide (cxl_packet_type (req pkt) = HostBiasCheck) then
    if negb (slaveID s =? 0) then
      let! c := get_cxl_cache pkt in
      if (0x80000000 <=? cache_getAddr c) && (cache_getAddr c <? 0xA0000000) then
        let! m := getMasterPort peer b 0xA0000000 in Ok (pkt, m)
      else Err Panic
    else let! pkt := checkCoherenceTiming pkt in Ok (pkt, m)
  else Ok (pkt, m).

(** The queueing part of [recvTimingReq]: whether the request was taken. *)
Definition enqueue (s : SlavePortID) (m : MasterPortID) (pkt : Packet) (st : ports) :
    outcome (bool * Packet * ports) :=
  let sp := slaves st s in
  let stall := set_slave s (mkSlave (s_transmitList sp) (outstandingResponses sp) true (s_event sp)) st in
  if reqQueueFull (masters st m) then Ok (false, pkt, stall)
  else if needsResponse (cmd pkt) && respQueueFull sp then Ok (false, pkt, stall)
  else
    let! st :=
      (if needsResponse (cmd pkt) then
         do! assert_ (negb (outstandingResponses sp =? respQueueLimit prm)) then
         Ok (set_slave s (mkSlave (s_transmitList sp) (outstandingResponses sp + 1) (retryReq sp)
                            (s_event sp)) st)
       else Ok st) in
    let receive_delay := u32 (headerDelay pkt + payloadDelay pkt) in
    let pkt := clear_delays pkt in
    let! (t, st) := edge (delay prm) st in
    let! mp := schedTimingReq (curTick st) pkt (u64 (t + receive_delay)) (masters st m) in
    Ok (true, pkt, set_master m mp st).

(** [bool PciBridgeSlavePort::recvTimingReq(PacketPtr pkt)]: whether the request was
    accepted, the packet as the sender sees it afterwards, and the state. *)
Definition recvTimingReq (s : SlavePortID) (pkt : Packet) (st : ports) :
    outcome (bool * Packet * ports) :=
  let! a := getAddr pkt in
  let! pkt := set_slave_id s pkt in
  let! m := getMasterPort peer (bridge st) a in
  let! pkt := assign_requester s (bridge st) pkt in
  do! panic_if (cacheResponding pkt) then
  if retryReq (slaves st s) then Ok (false, pkt, st)
  else
    let! (pkt, m) := dispatch_addr s (bridge st) pkt m in
    let! (pkt, m) := dispatch_check s (bridge st) pkt m in
    enqueue s m pkt st.

(** [void PciBridgeSlavePort::retryStalledReq()]: the port's state and whether it
    sent a retry. *)
Definition retryStalledReq (p : slave_port) : slave_port * bool :=
  if retryReq p then
    (mkSlave (s_transmitList p) (outstandingResponses p) false (s_event p), true)
  else (p, false).

Definition all_slaves : list SlavePortID := [slavePort; slavePort_DMA1; slavePort_DMA2; slavePort_DMA3].

(** The retries at the end of a successful send of a master port. *)
Definition retry_all (st : ports) : list SlavePortID * ports :=
  (filter (fun s => retryReq (slaves st s) = true) all_slaves,
   mkPorts (bridge st) (fun s => (retryStalledReq (slaves st s)).1) (masters st) (routeTo st)
     (curTick st) (clock st)).

(** The kinds of packets that the routing table leaves out. *)
Definition unrouted_req (t : CXLPacketType) : bool :=
  match t with HostBiasCheck | CXLcacheH2DReq | CXLcacheH2DResp => true | _ => false end.
Definition unrouted_resp (t : CXLPacketType) : bool :=
  match t with HostBiasCheck | CXLcacheH2DResp => true | _ => false end.

(** The event of a queue after its head was sent. *)
Definition schedule_next (q : list (Packet * Z)) (ev : option Z) (st : ports) :
    outcome (option Z * ports) :=
  match q with
  | [] => Ok (ev, st)
  | (_, t) :: _ =>
      let! (e, st) := edge 0 st in
      let! ev := schedule (curTick st) ev (Z.max t e) in Ok (ev, st)
  end.

(** [void PciBridgeMasterPort::trySendTiming()], also the body of [recvReqRetry]:
    [accepted] is the answer of [sendTimingReq] and [pkt] the head of the queue as
    the peer left it.  The retries sent, and the state. *)
Definition m_trySendTiming (m : MasterPortID) (accepted : bool) (pkt : Packet) (st : ports) :
    outcome (list SlavePortID * ports) :=
  match m_transmitList (masters st m) with
  | [] => Err AssertFail
  | (_, t) :: rest =>
      do! assert_ (t <=? curTick st) then
      let mp := masters st m in
      if accepted then
        do! assert_ (negb (bool_decide (is_Some (routeTo st !! req_ptr (req pkt))))) then
        let! st :=
          (if unrouted_req (cxl_packet_type (req pkt)) then Ok st
           else let! _ := getAddr pkt in
                let! id := get_slave_id pkt in
                Ok (set_routeTo (<[req_ptr (req pkt) := id]> (routeTo st)) st)) in
        let! (ev, st) := schedule_next rest (m_event mp) st in
        Ok (retry_all (set_master m (mkMaster rest ev (totalCount mp)) st))
      else Ok ([], set_master m (mkMaster ((pkt, t) :: rest) (m_event mp) (totalCount mp)) st)
  end.

(** [void PciBridgeSlavePort::trySendTiming()], also the body of [recvRespRetry],
    with the answer of [sendTimingResp]. *)
Definition s_trySendTiming (s : SlavePortID) (accepted : bool) (pkt : Packet) (st : ports) :
    outcome (list SlavePortID * ports) :=
  match s_transmitList (slaves st s) with
  | [] => Err AssertFail
  | (_, t) :: rest =>
      do! assert_ (t <=? curTick st) then
      let sp := slaves st s in
      if accepted then
        do! assert_ (negb (outstandingResponses sp =? 0)) then
        let! (ev, st) := schedule_next rest (s_event sp) st in
        let sp := mkSlave rest (outstandingResponses sp - 1) (retryReq sp) ev in
        let (sp, retried) := retryStalledReq sp in
        Ok (if retried then [s] else [], set_slave s sp st)
      else
        Ok ([], set_slave s (mkSlave ((pkt, t) :: rest) (outstandingResponses sp) (retryReq sp)
                               (s_event sp)) st)
  end.

(** The slave port of a number of the routing table; another number keeps the
    port chosen by the bus. *)
Definition slave_of (id : Z) (by_bus : SlavePortID) : SlavePortID :=
  if id =? 0 then slavePort else if id =? 1 then slavePort_DMA1
  else if id =? 2 then slavePort_DMA2 else if id =? 3 then slavePort_DMA3 else by_bus.

(** [bool PciBridgeMasterPort::recvTimingResp(PacketPtr pkt)]; it always accepts. *)
Definition recvTimingResp (m : MasterPortID) (pkt : Packet) (st : ports) : outcome (Packet * ports) :=
  let! _ := getAddr pkt in
  let! bus := get_req_bus pkt in
  let by_bus := getSlavePort (bridge st) bus in
  let slaveIter := routeTo st !! req_ptr (req pkt) in
  let! (s, st) :=
    (if unrouted_resp (cxl_packet_type (req pkt)) then Ok (by_bus, st)
     else
       match slaveIter with
       | None => Err Undefined
       | Some id =>
           let s := slave_of id by_bus in
           if (slaveID s =? 1) && (br_is_switch (bridge st) =? 0) && isResponse (cmd pkt)
              && hasData (cmd pkt) && (is_transmit prm =? 1)
           then
             let! n := getSize pkt in
             let mp := masters st m in
             Ok (s, set_master m (mkMaster (m_transmitList mp) (m_event mp)
                                    (u64 (totalCount mp + n))) st)
           else Ok (s, st)
       end) in
  let! (s, pkt) :=
    (if bool_decide (cxl_packet_type (req pkt) = HostBiasCheck) then
       let! pkt := checkCoherenceTiming pkt in Ok (slavePort_DMA2, pkt)
     else Ok (s, pkt)) in
  let! (s, pkt) :=
    (if bool_decide (cxl_packet_type (req pkt) = CXLcacheH2DResp) then Ok (slavePort, pkt)
     else if bool_decide (cxl_packet_type (req pkt) <> DefaultPacket) then
       let! pkt := reciveCXL pkt in Ok (s, pkt)
     else Ok (s, pkt)) in
  let receive_delay := u32 (headerDelay pkt + payloadDelay pkt) in
  let pkt := clear_delays pkt in
  let! (t, st) := edge (delay prm) st in
  let! sp := schedTimingResp (curTick st) pkt (u64 (t + receive_delay)) (slaves st s) in
  let st := set_slave s sp st in
  if unrouted_resp (cxl_packet_type (req pkt)) then Ok (pkt, st)
  else
    let! _ := getAddr pkt in
    match slaveIter with
    | None => Err Undefined
    | Some _ => Ok (pkt, set_routeTo (delete (req_ptr (req pkt)) (routeTo st)) st)
    end.

End Ports.

(** * Steps *)

Definition all_masters : list MasterPortID := [masterPort1; masterPort2; masterPort3; masterPort_DMA].

(** The requests in the queues of the master ports. *)
Definition queued (st : ports) : list Packet :=
  concat (map (fun m => (m_transmitList (masters st m)).*1) all_masters).

(** An event leaves the schedule before it runs. *)
Definition m_fired (m : MasterPortID) (st : ports) : ports :=
  set_master m (mkMaster (m_transmitList (masters st m)) None (totalCount (masters st m))) st.
Definition s_fired (s : SlavePortID) (st : ports) : ports :=
  let sp := slaves st s in
  set_slave s (mkSlave (s_transmitList sp) (outstandingResponses sp) (retryReq sp) None) st.

Section Protocol.
Context (prm : port_params) (peer : MasterPortID -> list AddrRange).

(** A request of the ordinary kind: it wants a response and is routed back by the
    table, and its request object is in no other transaction of this bridge. *)
Definition fresh_req (pkt : Packet) (st : ports) : Prop :=
  needsResponse (cmd pkt) = true /\ flag_isSet VALID_ADDR pkt = true /\
  unrouted_req (cxl_packet_type (req pkt)) = false /\
  routeTo st !! req_ptr (req pkt) = None /\
  Forall (fun q => req_ptr (req q) <> req_ptr (req pkt)) (queued st).

(** What a peer may do to a packet it is offered. *)
Definition peer_left (p p' : Packet) : Prop :=
  req_ptr (req p') = req_ptr (req p) /\ flag_isSet VALID_ADDR p' = true /\
  unrouted_req (cxl_packet_type (req p')) = false /\
  get_slave_id prm p' = get_slave_id prm p.

(** A response to a request that was sent. *)
Definition due_resp (pkt : Packet) (st : ports) : Prop :=
  is_Some (routeTo st !! req_ptr (req pkt)) /\
  flag_isSet VALID_ADDR pkt = true /\ flag_isSet VALID_SIZE pkt = true /\
  unrouted_resp (cxl_packet_type (req pkt)) = false.

Definition result {A} (m : outcome (A * ports)) : outcome ports := let! (_, st) := m in Ok st.

(** The steps of the ports under ordinary traffic: a request arrives, a response
    arrives, a send event runs or a peer asks for a retry after a refusal, and
    time passes.  A step leads to the outcome of the handler. *)
Inductive step (st : ports) : outcome ports -> Prop :=
  | step_req s pkt :
      fresh_req pkt st -> step st (result (recvTimingReq prm peer s pkt st))
  | step_resp m pkt :
      due_resp pkt st -> step st (result (recvTimingResp prm m pkt st))
  | step_m_event m t p rest accepted pkt :
      m_event (masters st m) = Some t -> t <= curTick st ->
      m_transmitList (masters st m) = p :: rest -> peer_left p.1 pkt ->
      step st (result (m_trySendTiming prm m accepted pkt (m_fired m st)))
  | step_m_retry m p rest accepted pkt :
      m_event (masters st m) = None ->
      m_transmitList (masters st m) = p :: rest -> peer_left p.1 pkt ->
      step st (result (m_trySendTiming prm m accepted pkt st))
  | step_s_event s t p rest accepted pkt :
      s_event (slaves st s) = Some t -> t <= curTick st ->
      s_transmitList (slaves st s) = p :: rest ->
      step st (result (s_trySendTiming s accepted pkt (s_fired s st)))
  | step_s_retry s p rest accepted pkt :
      s_event (slaves st s) = None -> s_transmitList (slaves st s) = p :: rest ->
      step st (result (s_trySendTiming s accepted pkt st))
  | step_time t :
      curTick st <= t <= 2 ^ 62 ->
      step st (Ok (mkPorts (bridge st) (slaves st) (masters st) (routeTo st) t (clock st))).

Inductive reachable (init : ports) : ports -> Prop :=
  | reach_init : reachable init init
  | reach_step st st' : reachable init st -> step st (Ok st') -> reachable init st'.

(** * The invariant *)

(** A queue and its event: an empty queue has none, and the tick of the head has
    come when the event runs or when the port waits for a retry. *)
Definition queue_ok (cur : Z) (q : list (Packet * Z)) (ev : option Z) : Prop :=
  match q with
  | [] => ev = None
  | (_, t) :: _ => match ev with Some e => t <= e | None => t <= cur end
  end.

(** The requests of a slave port that wait in a master queue, and those sent and
    not answered. *)
Definition waiting (s : SlavePortID) (st : ports) : nat :=
  length (filter (fun p => get_slave_id prm p = Ok (slaveID s)) (queued st)).
Definition in_flight (s : SlavePortID) (st : ports) : nat :=
  base.size (filter (fun kv => kv.2 = slaveID s) (routeTo st)).

Definition routable (p : Packet) : Prop :=
  (exists s, get_slave_id prm p = Ok (slaveID s)) /\
  unrouted_req (cxl_packet_type (req p)) = false /\ flag_isSet VALID_ADDR p = true.

(** Time stays below 2^62 ticks and the clock runs with it: its cached
    edge is at most one period ahead, and counts at least one tick per cycle. *)
Record clock_ok (cur : Z) (c : Clocked) : Prop := {
  co_cur : 0 <= cur <= 2 ^ 62;
  co_period : 0 < clockPeriod c <= 2 ^ 60;
  co_cycle : 0 <= cycle c <= tick c;
  co_tick : tick c <= cur + clockPeriod c;
  co_delay : 0 <= delay prm * clockPeriod c <= 2 ^ 61;
}.

Record inv (st : ports) : Prop := {
  i_clock : clock_ok (curTick st) (clock st);
  i_mqueue : forall m, queue_ok (curTick st) (m_transmitList (masters st m)) (m_event (masters st m));
  i_squeue : forall s, queue_ok (curTick st) (s_transmitList (slaves st s)) (s_event (slaves st s));
  i_mlimit : forall m, Z.of_nat (length (m_transmitList (masters st m))) <= reqQueueLimit prm;
  i_slots : forall s, outstandingResponses (slaves st s)
              = Z.of_nat (waiting s st + in_flight s st + length (s_transmitList (slaves st s)));
  i_slimit : forall s, outstandingResponses (slaves st s) <= respQueueLimit prm;
  i_queued : Forall routable (queued st);
  i_unique : NoDup (map (fun p => req_ptr (req p)) (queued st));
  i_apart : Forall (fun p => routeTo st !! req_ptr (req p) = None) (queued st);
  i_routes : forall k v, routeTo st !! k = Some v -> exists s, v = slaveID s;
  i_retry : forall s, retryReq (slaves st s) = true ->
              queued st <> [] \/ outstandingResponses (slaves st s) <> 0;
}.

(** * Lemmas *)

Lemma slaveID_inj s s' : slaveID s = slaveID s' -> s = s'.
Proof. by destruct s, s'. Qed.

Lemma slave_of_ID s s' : slave_of (slaveID s) s' = s.
Proof. by destruct s. Qed.

(** The queued requests, up to order, are those of one port and those of the
    others. *)
Lemma queued_split m st : exists others,
  queued st ≡ₚ (m_transmitList (masters st m)).*1 ++ others /\
  forall mp, queued (set_master m mp st) ≡ₚ (m_transmitList mp).*1 ++ others.
Proof.
  pose (q m := (m_transmitList (masters st m)).*1).
  exists (match m with
          | masterPort1 => q masterPort2 ++ q masterPort3 ++ q masterPort_DMA
          | masterPort2 => q masterPort1 ++ q masterPort3 ++ q masterPort_DMA
          | masterPort3 => q masterPort1 ++ q masterPort2 ++ q masterPort_DMA
          | masterPort_DMA => q masterPort1 ++ q masterPort2 ++ q masterPort3
          end).
  unfold q, queued, all_masters.
  destruct m; (split; [| intros mp]); cbn -[fmap]; rewrite ?app_nil_r; solve_Permutation.
Qed.

Lemma waiting_perm s st l : queued st ≡ₚ l ->
  waiting s st = length (filter (fun p => get_slave_id prm p = Ok (slaveID s)) l).
Proof. intros H. unfold waiting. by rewrite H. Qed.

Lemma in_flight_insert s k v st : routeTo st !! k = None ->
  base.size (filter (fun kv => kv.2 = slaveID s) (<[k := v]> (routeTo st)))
  = ((if decide (v = slaveID s) then 1 else 0) + in_flight s st)%nat.
Proof.
  intros Hk. unfold in_flight. destruct (decide (v = slaveID s)) as [E | E].
  - rewrite map_filter_insert_True by done. rewrite map_size_insert_None; [done |].
    apply map_lookup_filter_None. by left.
  - rewrite map_filter_insert_False by done. by rewrite delete_id.
Qed.

Lemma in_flight_delete s k v st : routeTo st !! k = Some v ->
  in_flight s st = ((if decide (v = slaveID s) then 1 else 0)
    + base.size (filter (fun kv => kv.2 = slaveID s) (delete k (routeTo st))))%nat.
Proof.
  intros Hk. unfold in_flight. rewrite <- (insert_delete_id (routeTo st) k v Hk) at 1.
  destruct (decide (v = slaveID s)) as [E | E].
  - rewrite map_filter_insert_True by done. rewrite map_size_insert_None; [done |].
    apply map_lookup_filter_None. left. apply lookup_delete_eq.
  - rewrite map_filter_insert_False by done. by rewrite delete_delete_eq.
Qed.

(** * Handlers never fail their assertions *)

Lemma getMasterPort_safe b a : safe (getMasterPort peer b a) (fun _ => True).
Proof.
  unfold getMasterPort.
  assert (W : forall c, safe (port_window c a) (fun _ => True)).
  { intros c. unfold port_window, in_prefetch_window, getPrefetchableMemoryBase,
      getPrefetchableMemoryLimit, prefetch_product.
    repeat (case_match; cbn; try done). }
  eapply safe_bind; [apply W | intros [] _; [done |]].
  eapply safe_bind; [apply W | intros [] _; [done |]].
  eapply safe_bind; [apply W | intros [] _; [done |]].
  repeat case_match; done.
Qed.

(** The bridge finds edges that are not in the past. *)
Definition edge_post (st : ports) (r : Z * ports) : Prop :=
  exists c, r.2 = set_clock c st /\ clock_ok (curTick st) c /\ curTick st <= r.1 <= 2 ^ 63.

Lemma edge_safe n st : clock_ok (curTick st) (clock st) ->
  0 <= n -> n * clockPeriod (clock st) <= 2 ^ 61 -> safe (edge n st) (edge_post st).
Proof.
  intros [H0 Hp Hc Ht Hd] Hn Hnp. set (c := clock st) in *. unfold edge, clockEdge. fold c.
  destruct (update_spec (curTick st) c) as (c' & k & -> & Hk & Et & Ec & Ep & Hle & Hlt);
    [constructor; lia |].
  assert (Hkp : k <= k * clockPeriod c) by nia. assert (Hnp' : 0 <= n * clockPeriod c) by nia.
  cbn [obind]. rewrite Ep, (Z.mul_comm (clockPeriod c) n).
  rewrite (wrap_small 64 (n * _)) by (unfold in_width; lia).
  rewrite wrap_small by (unfold in_width; nia). cbn [safe]. exists c'. cbn [fst snd].
  split_and!; [done | constructor; rewrite ?Ep; try lia | lia | lia].
Qed.

Lemma edge_delay st : clock_ok (curTick st) (clock st) -> safe (edge (delay prm) st) (edge_post st).
Proof. intros H. apply edge_safe; [done | |]; destruct H; nia. Qed.

(** An event at an edge plus the delays of a packet is not in the past. *)
Lemma schedule_edge cur t a : 0 <= cur <= t -> t <= 2 ^ 63 ->
  schedule cur None (u64 (t + u32 a)) = Ok (Some (u64 (t + u32 a))).
Proof.
  intros Ht Hb. pose proof (wrap_range 32 a ltac:(lia)) as Hr. unfold in_width in Hr.
  rewrite (wrap_small 64) by (unfold in_width; lia). unfold schedule.
  rewrite (proj2 (Z.leb_le _ _)) by lia. done.
Qed.

(** What the transaction bookkeeping sees of a packet. *)
Definition same_tx (p p' : Packet) : Prop :=
  cmd p' = cmd p /\ req_ptr (req p') = req_ptr (req p) /\
  flag_isSet VALID_ADDR p' = flag_isSet VALID_ADDR p /\
  unrouted_req (cxl_packet_type (req p')) = false /\ get_slave_id prm p' = get_slave_id prm p.

Lemma host_cxl_same pkt : flag_isSet VALID_ADDR pkt = true ->
  unrouted_req (cxl_packet_type (req pkt)) = false -> safe (host_cxl pkt) (same_tx pkt).
Proof.
  intros Hv Hu. unfold host_cxl. rewrite makeCXLPacket_eq by done.
  destruct (cxl_mem_cmd (cmd pkt)); cbn; done.
Qed.

Lemma dispatch_same s b pkt m : flag_isSet VALID_ADDR pkt = true ->
  unrouted_req (cxl_packet_type (req pkt)) = false ->
  safe (let! (pkt, m) := dispatch_addr peer s b pkt m in dispatch_check peer s b pkt m)
       (fun r => same_tx pkt r.1).
Proof.
  intros Hv Hu.
  assert (Hc : forall p m, same_tx pkt p -> safe (dispatch_check peer s b p m) (fun r => same_tx pkt r.1)).
  { intros p m' H. unfold dispatch_check. rewrite bool_decide_eq_false_2; [done |].
    intros E. destruct H as (_ & _ & _ & H & _). by rewrite E in H. }
  assert (Hself : same_tx pkt pkt) by done.
  assert (Hh : forall m : MasterPortID, safe (let! pkt' := host_cxl pkt in Ok (pkt', m)) (fun r => same_tx pkt r.1)).
  { intros m'. eapply safe_bind; [by apply host_cxl_same |]. done. }
  apply safe_bind with (Q := fun r => same_tx pkt r.1); [| intros [p m'] H; by apply Hc].
  unfold dispatch_addr, getAddr, assert_. rewrite Hv. cbn [obind].
  destruct (_ && _); [destruct (_ =? _); [apply Hh | done] |].
  destruct (_ && _); [destruct (_ && _); [apply Hh | done] |].
  destruct (_ <=? _); [| done]. destruct (_ =? _); [| done].
  rewrite bool_decide_eq_false_2; [done |]. intros E. by rewrite E in Hu.
Qed.

(** Stalling a request is recorded while something will free a slot. *)
Lemma inv_stall s st : inv st ->
  queued st <> [] \/ outstandingResponses (slaves st s) <> 0 ->
  let sp := slaves st s in
  inv (set_slave s (mkSlave (s_transmitList sp) (outstandingResponses sp) true (s_event sp)) st).
Proof.
  intros [] H sp. constructor; try done; intros s'; cbn; destruct (decide (s' = s)) as [-> |]; cbn.
  all: first [done | apply i_squeue0 | apply i_slots0 | apply i_slimit0 | apply i_retry0].
Qed.

Lemma queued_full m st : 0 < reqQueueLimit prm -> reqQueueFull prm (masters st m) = true -> queued st <> [].
Proof.
  intros Hl Hf E. unfold reqQueueFull in Hf. apply Z.eqb_eq in Hf.
  destruct (queued_split m st) as (o & Ho & _). rewrite E in Ho.
  apply Permutation_nil_l, eq_sym, app_eq_nil in Ho as [Ho _]. apply fmap_nil_inv in Ho.
  rewrite Ho in Hf. cbn in Hf. lia.
Qed.

Lemma routable_admit s pkt st : get_slave_id prm pkt = Ok (slaveID s) -> fresh_req pkt st ->
  routable pkt.
Proof. intros Hs (_ & Hv & Hu & _). split; [eauto |]. done. Qed.

(** Taking a request keeps the invariant. *)
Lemma inv_admit s m pkt when ev tc c st :
  inv st -> clock_ok (curTick st) c -> fresh_req pkt st -> get_slave_id prm pkt = Ok (slaveID s) ->
  let q := m_transmitList (masters st m) in
  let sp := slaves st s in
  Z.of_nat (length q) <> reqQueueLimit prm -> outstandingResponses sp <> respQueueLimit prm ->
  ev = (if decide (q = []) then Some when else m_event (masters st m)) ->
  inv (set_master m (mkMaster (q ++ [(pkt, when)]) ev tc)
    (set_clock c (set_slave s (mkSlave (s_transmitList sp) (outstandingResponses sp + 1)
                                 (retryReq sp) (s_event sp)) st))).
Proof.
  intros Hi Hclk Hf Hs q sp Hq Ho Hev. pose proof (routable_admit s pkt st Hs Hf) as Hr.
  destruct Hf as (_ & _ & _ & Hroute & Hfresh).
  set (st' := set_master _ _ _).
  destruct (queued_split m st) as (o & Eo & En).
  assert (Eq : queued st' ≡ₚ pkt :: queued st).
  { transitivity (((q ++ [(pkt, when)]).*1) ++ o); [apply En |]. rewrite fmap_app, Eo. cbn -[fmap].
    rewrite <- app_assoc. cbn. rewrite Permutation_middle. done. }
  destruct Hi. constructor; [exact Hclk | ..].
  - intros m'. cbn. destruct (decide (m' = m)) as [-> |]; [| apply i_mqueue0]. cbn.
    specialize (i_mqueue0 m). fold q in i_mqueue0. subst ev.
    destruct q as [| [p t] q']; [rewrite decide_True by done | rewrite decide_False by done];
      cbn in *; [lia | done].
  - intros s'. cbn. destruct (decide (s' = s)) as [-> |]; apply i_squeue0.
  - intros m'. cbn. destruct (decide (m' = m)) as [-> |]; [| apply i_mlimit0]. cbn.
    specialize (i_mlimit0 m). fold q in i_mlimit0. rewrite length_app. cbn. lia.
  - intros s'. rewrite (waiting_perm s' st' _ Eq), filter_cons.
    change (in_flight s' st') with (in_flight s' st). cbn [slaves st' set_master set_clock set_slave].
    specialize (i_slots0 s'). fold (waiting s' st) in *.
    destruct (decide (s' = s)) as [-> | Hne]; cbn [outstandingResponses s_transmitList].
    + rewrite decide_True by done. rewrite length_cons. unfold sp in *. rewrite i_slots0.
      change (length (filter _ (queued st))) with (waiting s st). lia.
    + rewrite decide_False; [done |]. rewrite Hs. intros [= E]. by apply slaveID_inj in E.
  - intros s'. cbn. destruct (decide (s' = s)) as [-> |]; [| apply i_slimit0]. cbn.
    specialize (i_slimit0 s). unfold sp in *. lia.
  - rewrite Eq. by constructor.
  - rewrite Eq. cbn. constructor; [| done]. rewrite list_elem_of_In, in_map_iff.
    intros (p & E & Hp). rewrite Forall_forall in Hfresh. apply (Hfresh p); [| done].
    by apply list_elem_of_In.
  - rewrite Eq. by constructor.
  - apply i_routes0.
  - intros s' Hret. left. intros E. rewrite E in Eq. by apply Permutation_nil_cons in Eq.
Qed.


Context (Hreq : 0 < reqQueueLimit prm) (Hresp : 0 < respQueueLimit prm).

Lemma enqueue_inv s m pkt st : inv st -> fresh_req pkt st -> get_slave_id prm pkt = Ok (slaveID s) ->
  safe (enqueue prm s m pkt st) (fun r => inv r.2).
Proof.
  intros Hi Hf Hs. unfold enqueue. destruct (reqQueueFull prm (masters st m)) eqn:Eq.
  { apply inv_stall; [done |]. left. by apply (queued_full m). }
  assert (Hn := proj1 Hf). rewrite Hn. cbn [andb].
  destruct (respQueueFull prm (slaves st s)) eqn:Er; unfold respQueueFull in Er.
  { apply inv_stall; [done |]. right. apply Z.eqb_eq in Er. lia. }
  rewrite Er. cbn [negb assert_ obind].
  eapply safe_bind; [apply edge_delay, Hi |]. intros [t st1] (c & Ec & Hclk & Ht).
  cbn [fst snd curTick set_slave] in Ec, Hclk, Ht. subst st1.
  cbn [masters curTick set_clock set_slave]. unfold schedTimingReq.
  unfold reqQueueFull in Eq. pose proof (i_mqueue _ Hi m) as Hm.
  set (when := u64 (t + u32 (headerDelay pkt + payloadDelay pkt))).
  apply safe_bind with (Q := fun mp => mp = mkMaster (m_transmitList (masters st m) ++
      [(clear_delays pkt, when)])
      (if decide (m_transmitList (masters st m) = []) then Some when else m_event (masters st m))
      (totalCount (masters st m))).
  - pose proof (co_cur _ _ Hclk). case_bool_decide as E.
    + rewrite E in Hm. cbn in Hm. rewrite Hm. unfold when. rewrite schedule_edge by lia.
      rewrite Eq. cbn -[wrap]. by rewrite E, decide_True by done.
    + rewrite Eq. cbn -[wrap]. by rewrite decide_False by done.
  - intros mp ->. cbn [safe snd]. apply (inv_admit s m (clear_delays pkt)); auto.
    + by apply Z.eqb_neq.
    + by apply Z.eqb_neq.
Qed.

Lemma fresh_same p p' st : fresh_req p st -> same_tx p p' -> fresh_req p' st.
Proof.
  intros (H1 & H2 & H3 & H4 & H5) (E1 & E2 & E3 & E4 & _).
  unfold fresh_req. rewrite E1, E2, E3. auto.
Qed.

(** The identifiers a slave port puts on a request. *)
Lemma identify_safe s b pkt st : fresh_req pkt st ->
  safe (let! p := set_slave_id prm s pkt in assign_requester prm s b p)
       (fun p => fresh_req p st /\ get_slave_id prm p = Ok (slaveID s)).
Proof.
  intros Hf. unfold set_slave_id. destruct (_ && _); [| done]. cbn [obind].
  unfold assign_requester, get_req_bus. cbn [req_ids upd_req set_req].
  destruct (req_ids pkt !! _) as [[[bus d] f] |]; [| done]. cbn [obind].
  destruct (bus =? -1); (split; [exact Hf |]); unfold get_slave_id; cbn; by rewrite lookup_insert_eq.
Qed.

Lemma recvTimingReq_inv s pkt st : inv st -> fresh_req pkt st ->
  safe (recvTimingReq prm peer s pkt st) (fun r => inv r.2).
Proof.
  intros Hi Hf. unfold recvTimingReq, getAddr, assert_. rewrite (proj1 (proj2 Hf)). cbn [obind].
  pose proof (identify_safe s (bridge st) pkt st Hf) as Hid.
  destruct (set_slave_id prm s pkt) as [p1 |]; [| done]. cbn [obind] in *.
  eapply safe_bind; [apply getMasterPort_safe |]. intros m _.
  eapply safe_bind; [exact Hid |]. intros p2 [Hf2 Hs2].
  unfold panic_if. destruct (cacheResponding p2); [done |]. cbn [obind].
  destruct (retryReq (slaves st s)); [done |].
  destruct Hf2 as (N1 & N2 & N3 & N4). pose proof (dispatch_same s (bridge st) p2 m N2 N3) as Hd.
  destruct (dispatch_addr peer s (bridge st) p2 m) as [[p3 m3] |]; [| done]. cbn [obind] in *.
  eapply safe_bind; [exact Hd |]. intros [p4 m4] H4. cbn in H4.
  assert (Hf4 : fresh_req p4 st) by (by apply (fresh_same p2)).
  apply enqueue_inv; [done | done |]. destruct H4 as (_ & _ & _ & _ & ->). done.
Qed.

(** * Sending *)

Lemma set_clock_id st : set_clock (clock st) st = st.
Proof. by destruct st. Qed.

Lemma schedule_next_safe q st : clock_ok (curTick st) (clock st) ->
  safe (schedule_next q None st)
    (fun r => (exists c, r.2 = set_clock c st /\ clock_ok (curTick st) c) /\
              forall cur, queue_ok cur q r.1).
Proof.
  intros Hclk. unfold schedule_next. destruct q as [| [p t] q].
  { cbn. split; [exists (clock st); by rewrite set_clock_id | done]. }
  eapply safe_bind; [apply edge_safe; [done | lia | lia] |].
  intros [e st1] (c & Ec & Hclk' & Ht). cbn [fst snd] in Ec, Ht. subst st1.
  unfold schedule. cbn [curTick set_clock]. rewrite (proj2 (Z.leb_le _ _)) by lia.
  cbn. split; [by exists c | lia].
Qed.

(** The queued requests around the head of one port's queue. *)
Lemma queued_head m p t rest st : m_transmitList (masters st m) = (p, t) :: rest ->
  exists others, queued st ≡ₚ p :: others /\
    (forall ev tc, queued (set_master m (mkMaster rest ev tc) st) ≡ₚ others) /\
    (forall p' ev tc, queued (set_master m (mkMaster ((p', t) :: rest) ev tc) st) ≡ₚ p' :: others).
Proof.
  intros E. destruct (queued_split m st) as (o & Eo & En). rewrite E in Eo.
  exists (rest.*1 ++ o). split_and!; [exact Eo | intros; apply (En (mkMaster rest ev tc)) |].
  intros. apply (En (mkMaster ((p', t) :: rest) ev tc)).
Qed.

(** A request leaves its queue and enters the routing table. *)
Lemma inv_sent m p pkt t rest ev tc c s st :
  inv st -> clock_ok (curTick st) c -> m_transmitList (masters st m) = (p, t) :: rest ->
  peer_left p pkt -> get_slave_id prm pkt = Ok (slaveID s) -> (forall cur, queue_ok cur rest ev) ->
  inv (retry_all (set_master m (mkMaster rest ev tc)
         (set_clock c (set_routeTo (<[req_ptr (req pkt) := slaveID s]> (routeTo st)) st)))).2.
Proof.
  intros Hi Hclk Eq (Hptr & _ & _ & Hid) Hs Hev. set (st' := (retry_all _).2).
  destruct (queued_head m p t rest st Eq) as (o & Eo & En & _).
  assert (En' : queued st' ≡ₚ o) by apply (En ev tc).
  assert (Hnew : routeTo st !! req_ptr (req pkt) = None).
  { pose proof (i_apart _ Hi) as H. rewrite Eo in H. inversion H; subst. congruence. }
  pose proof (i_unique _ Hi) as Hu. rewrite Eo in Hu. cbn in Hu. apply NoDup_cons in Hu as [Hu1 Hu2].
  assert (Hslave : forall s', s_transmitList (slaves st' s') = s_transmitList (slaves st s') /\
            outstandingResponses (slaves st' s') = outstandingResponses (slaves st s')).
  { intros s'. cbn. unfold retryStalledReq. by destruct (retryReq (slaves st s')). }
  destruct Hi. constructor; [exact Hclk | ..].
  - intros m'. cbn. destruct (decide (m' = m)) as [-> |]; [apply Hev | apply i_mqueue0].
  - intros s'. cbn. unfold retryStalledReq. destruct (retryReq (slaves st s')); apply i_squeue0.
  - intros m'. cbn. destruct (decide (m' = m)) as [-> |]; [| apply i_mlimit0]. cbn.
    specialize (i_mlimit0 m). rewrite Eq in i_mlimit0. cbn [length] in i_mlimit0. lia.
  - intros s'. specialize (i_slots0 s'). rewrite (waiting_perm s' st _ Eo), filter_cons in i_slots0.
    rewrite (waiting_perm s' st' _ En'). destruct (Hslave s') as [-> ->].
    unfold in_flight at 1. cbn [routeTo st' retry_all snd set_master set_clock set_routeTo].
    rewrite in_flight_insert by done. rewrite <- Hid, Hs in i_slots0.
    destruct (decide (slaveID s = slaveID s')) as [E | E].
    + rewrite decide_True in i_slots0 by congruence. rewrite length_cons in i_slots0. lia.
    + rewrite decide_False in i_slots0 by congruence. lia.
  - intros s'. cbn. unfold retryStalledReq. destruct (retryReq (slaves st s')); apply i_slimit0.
  - rewrite En'. rewrite Eo in i_queued0. by inversion i_queued0.
  - rewrite En'. done.
  - rewrite En'. rewrite Eo in i_apart0. inversion i_apart0 as [| ? ? _ Ha]; subst.
    rewrite Forall_forall in *. intros q Hq. cbn. rewrite lookup_insert_ne; [by apply Ha |].
    rewrite Hptr. intros E. apply Hu1. rewrite E. apply list_elem_of_In, in_map_iff. exists q.
    split; [done |]. by apply list_elem_of_In.
  - intros k v. cbn. intros [[_ <-] | [_ H]]%lookup_insert_Some; [eauto | by apply (i_routes0 k)].
  - intros s'. cbn. unfold retryStalledReq. destruct (retryReq (slaves st s')) eqn:E; cbn; congruence.
Qed.

(** A refused request stays at the head. *)
Lemma inv_refused m p pkt t rest tc st :
  inv st -> m_transmitList (masters st m) = (p, t) :: rest -> peer_left p pkt ->
  inv (set_master m (mkMaster ((pkt, t) :: rest) (m_event (masters st m)) tc) st).
Proof.
  intros Hi Eq (Hptr & Hv & Hu & Hid). set (st' := set_master _ _ _).
  destruct (queued_head m p t rest st Eq) as (o & Eo & _ & En).
  assert (En' : queued st' ≡ₚ pkt :: o) by apply En.
  destruct Hi. rewrite Eo in i_queued0, i_unique0, i_apart0.
  inversion i_queued0 as [| ? ? [Hs _] Ho]; subst. inversion i_apart0 as [| ? ? Ha1 Ha]; subst.
  constructor; try done.
  - intros m'. cbn. destruct (decide (m' = m)) as [-> |]; [| apply i_mqueue0].
    specialize (i_mqueue0 m). rewrite Eq in i_mqueue0. exact i_mqueue0.
  - intros m'. cbn. destruct (decide (m' = m)) as [-> |]; [| apply i_mlimit0].
    specialize (i_mlimit0 m). rewrite Eq in i_mlimit0. exact i_mlimit0.
  - intros s'. specialize (i_slots0 s'). rewrite (waiting_perm s' st _ Eo), filter_cons in i_slots0.
    rewrite (waiting_perm s' st' _ En'), filter_cons, Hid.
    by destruct (decide (get_slave_id prm p = Ok (slaveID s'))).
  - rewrite En'. constructor; [| done]. split; [| done]. by rewrite Hid.
  - rewrite En'. cbn in *. by rewrite Hptr.
  - rewrite En'. constructor; [| done]. cbn. by rewrite Hptr.
  - intros s' H. left. intros E. rewrite E in En'. by apply Permutation_nil_cons in En'.
Qed.

Lemma m_trySend_inv m accepted p t rest pkt st :
  inv st -> m_event (masters st m) = None -> m_transmitList (masters st m) = (p, t) :: rest ->
  peer_left p pkt -> safe (m_trySendTiming prm m accepted pkt st) (fun r => inv r.2).
Proof.
  intros Hi Hev Eq Hp. unfold m_trySendTiming. rewrite Eq.
  pose proof (i_mqueue _ Hi m) as Hq. rewrite Eq, Hev in Hq. cbn in Hq.
  rewrite (proj2 (Z.leb_le _ _)) by done. cbn [assert_ obind].
  destruct accepted; [| by apply (inv_refused m p)].
  destruct (queued_head m p t rest st Eq) as (o & Eo & _).
  assert (Hq' := i_queued _ Hi). rewrite Eo in Hq'. inversion Hq' as [| ? ? [[s Hs] _] _]; subst.
  assert (Ha := i_apart _ Hi). rewrite Eo in Ha. inversion Ha as [| ? ? Ha1 _]; subst.
  assert (Hp' := Hp). destruct Hp' as (Hptr & Hv & Hu & Hid).
  rewrite Hptr, Ha1. cbn [negb bool_decide]. rewrite bool_decide_eq_false_2 by (by intros []).
  cbn [negb assert_ obind]. rewrite Hu. unfold getAddr, assert_. rewrite Hv. cbn [obind].
  rewrite Hid, Hs. cbn [obind].
  eapply safe_bind; [rewrite Hev; apply schedule_next_safe, Hi |].
  intros [ev st1] [(c & Ec & Hclk) Hok]. cbn in Ec, Hok. subst st1. cbn [safe].
  rewrite <- Hptr. apply (inv_sent m p pkt t); auto. congruence.
Qed.


(** * Responses *)

(** A response leaves the routing table and enters the queue of its slave port. *)
Lemma inv_answered s k pkt when ev c st :
  inv st -> clock_ok (curTick st) c -> routeTo st !! k = Some (slaveID s) ->
  let sp := slaves st s in
  ev = (if decide (s_transmitList sp = []) then Some when else s_event sp) ->
  inv (set_routeTo (delete k (routeTo st))
    (set_slave s (mkSlave (s_transmitList sp ++ [(pkt, when)]) (outstandingResponses sp)
                    (retryReq sp) ev) (set_clock c st))).
Proof.
  intros Hi Hclk Hk sp Hev. destruct Hi. constructor; try done.
  - intros s'. cbn. destruct (decide (s' = s)) as [-> |]; [| apply i_squeue0]. cbn.
    specialize (i_squeue0 s). fold sp in i_squeue0. subst ev.
    destruct (s_transmitList sp) as [| [p t] q];
      [rewrite decide_True by done | rewrite decide_False by done]; cbn in *; [lia | done].
  - intros s'. specialize (i_slots0 s'). rewrite (in_flight_delete s' _ _ _ Hk) in i_slots0.
    set (st' := set_routeTo _ _). change (waiting s' st') with (waiting s' st).
    unfold in_flight. cbn [routeTo st' set_routeTo slaves set_slave set_clock].
    destruct (decide (s' = s)) as [-> | Hne]; cbn [outstandingResponses s_transmitList].
    + rewrite decide_True in i_slots0 by done. rewrite length_app. unfold sp. cbn [length]. lia.
    + rewrite decide_False in i_slots0; [lia |]. intros E. by apply slaveID_inj in E.
  - intros s'. cbn. destruct (decide (s' = s)) as [-> |]; apply i_slimit0.
  - rewrite Forall_forall in *. intros p Hp. apply lookup_delete_None. right. by apply i_apart0.
  - intros k' v'. cbn. intros [_ H]%lookup_delete_Some. by apply (i_routes0 k').
  - intros s'. cbn. destruct (decide (s' = s)) as [-> |]; apply i_retry0.
Qed.

(** The translation of a response keeps the transaction. *)
Lemma reciveCXL_keeps pkt : unrouted_resp (cxl_packet_type (req pkt)) = false ->
  safe (reciveCXL pkt) (fun p => req_ptr (req p) = req_ptr (req pkt) /\
    unrouted_resp (cxl_packet_type (req p)) = false /\
    flag_isSet VALID_ADDR p = flag_isSet VALID_ADDR pkt).
Proof.
  intros Hu. unfold reciveCXL. destruct (cxl_cache (req pkt)) as [c |] eqn:Ec.
  - destruct (_ <=? _); [| done]. unfold makeCXLResp, get_cxl_cache. rewrite Ec. cbn [obind].
    destruct (cxl_cache_type c); cbn; try done. unfold as_D2H_Req.
    destruct (cache_body c) as [m | | | | |]; cbn; try done.
    destruct (d2hreq_Opcode m); cbn; done.
  - destruct (cxl_data_atomic2 (req pkt)) eqn:Ed; [| done].
    unfold makeCXLData, get_data_atomic2. rewrite Ed. cbn [obind].
    destruct (negb _); cbn; done.
Qed.

(** The event and the count of a master port may change while the queue is kept. *)
Lemma inv_event m ev n st : inv st -> queue_ok (curTick st) (m_transmitList (masters st m)) ev ->
  inv (set_master m (mkMaster (m_transmitList (masters st m)) ev n) st).
Proof.
  intros Hi Hev. set (st' := set_master _ _ _). destruct (queued_split m st) as (o & Eo & En).
  assert (Eq : queued st' ≡ₚ queued st).
  { rewrite Eo. apply (En (mkMaster (m_transmitList (masters st m)) ev n)). }
  destruct Hi. constructor; try done; rewrite ?Eq; try done.
  - intros m'. cbn. destruct (decide (m' = m)) as [-> |]; [done | apply i_mqueue0].
  - intros m'. cbn. destruct (decide (m' = m)) as [-> |]; apply i_mlimit0.
  - intros s'. rewrite (waiting_perm s' st' _ Eq). apply i_slots0.
  - intros s' H. destruct (i_retry0 s' H) as [H' | H']; [left | by right].
    intros E. apply H'. rewrite E in Eq. by apply Permutation_nil_l in Eq.
Qed.

Lemma recvTimingResp_inv m pkt st : inv st -> due_resp pkt st ->
  safe (recvTimingResp prm m pkt st) (fun r => inv r.2).
Proof.
  intros Hi ([id Hid] & Hv & Hz & Hu). unfold recvTimingResp, getAddr, assert_.
  rewrite Hv. cbn [obind]. unfold get_req_bus at 1.
  destruct (req_ids pkt !! _) as [[[bus ?] ?] |]; [| done]. cbn [obind]. rewrite Hu, Hid.
  destruct (i_routes _ Hi _ _ Hid) as [s ->]. rewrite slave_of_ID.
  (* the count of transmitted bytes *)
  apply safe_bind with (Q := fun r => r.1 = s /\ inv r.2 /\ routeTo r.2 = routeTo st).
  { destruct (_ && _); [| done]. unfold getSize, assert_. rewrite Hz. cbn.
    split_and!; [done | apply inv_event; [done | apply Hi] | done]. }
  intros [s1 st1] (E1 & Hi1 & Hr1). cbn [fst snd] in *. subst s1.
  assert (Hhb : bool_decide (cxl_packet_type (req pkt) = HostBiasCheck) = false) by
    (apply bool_decide_eq_false; intros E; by rewrite E in Hu).
  assert (Hh2 : bool_decide (cxl_packet_type (req pkt) = CXLcacheH2DResp) = false) by
    (apply bool_decide_eq_false; intros E; by rewrite E in Hu).
  rewrite Hhb. cbn [obind]. rewrite Hh2.
  apply safe_bind with (Q := fun r => r.1 = s /\ req_ptr (req r.2) = req_ptr (req pkt) /\
      unrouted_resp (cxl_packet_type (req r.2)) = false /\ flag_isSet VALID_ADDR r.2 = true).
  { destruct (bool_decide (_ <> DefaultPacket)); [| done]. eapply safe_bind; [by apply reciveCXL_keeps |].
    intros p (E1 & E2 & E3). cbn. split_and!; congruence. }
  intros [s2 p] (E2 & Hptr & Hup & Hvp). cbn [fst snd] in *. subst s2.
  eapply safe_bind; [apply edge_delay, Hi1 |]. intros [t st2] (c & Ec & Hclk & Ht).
  cbn [fst snd] in Ec, Ht. subst st2. unfold schedTimingResp. cbn [slaves curTick set_clock].
  set (when := u64 (t + u32 (headerDelay p + payloadDelay p))).
  pose proof (i_squeue _ Hi1 s) as Hq.
  apply safe_bind with (Q := fun sp => sp = mkSlave (s_transmitList (slaves st1 s) ++
      [(clear_delays p, when)])
      (outstandingResponses (slaves st1 s)) (retryReq (slaves st1 s))
      (if decide (s_transmitList (slaves st1 s) = []) then Some when else s_event (slaves st1 s))).
  { destruct (decide (s_transmitList (slaves st1 s) = [])) as [E | E];
      [rewrite bool_decide_eq_true_2 by done | rewrite bool_decide_eq_false_2 by done].
    - rewrite E in Hq. cbn in Hq. pose proof (co_cur _ _ Hclk). rewrite Hq. unfold when.
      rewrite schedule_edge by lia. cbn -[wrap]. by rewrite E.
    - done. }
  intros sp ->. change (req (clear_delays p)) with (req p). rewrite Hup.
  change (flag_isSet VALID_ADDR (clear_delays p)) with (flag_isSet VALID_ADDR p). rewrite Hvp.
  cbn [obind safe snd routeTo set_slave set_clock]. rewrite Hptr.
  apply inv_answered; [done | done | by rewrite Hr1 | done].
Qed.

Lemma s_trySend_inv s accepted p t rest pkt st :
  inv st -> s_event (slaves st s) = None -> s_transmitList (slaves st s) = (p, t) :: rest ->
  safe (s_trySendTiming s accepted pkt st) (fun r => inv r.2).
Proof.
  intros Hi Hev Eq. unfold s_trySendTiming. rewrite Eq.
  pose proof (i_squeue _ Hi s) as Hq. rewrite Eq, Hev in Hq. cbn in Hq.
  rewrite (proj2 (Z.leb_le _ _)) by done. cbn [assert_ obind].
  pose proof (i_slots _ Hi s) as Hslots. rewrite Eq in Hslots. cbn [length] in Hslots.
  destruct accepted.
  - destruct (Z.eqb_spec (outstandingResponses (slaves st s)) 0); [lia |]. cbn [negb assert_ obind].
    rewrite Hev. eapply safe_bind; [apply schedule_next_safe, Hi |].
    intros [ev st1] [(c & Ec & Hclk) Hok]. cbn in Ec, Hok. subst st1.
    assert (Hgoal : inv (set_slave s (mkSlave rest (outstandingResponses (slaves st s) - 1) false ev)
                           (set_clock c st))).
    { destruct Hi. constructor; try done; intros s'; cbn [slaves set_slave set_clock];
        destruct (decide (s' = s)) as [-> |]; cbn [s_transmitList outstandingResponses retryReq s_event];
        try first [apply Hok | apply i_squeue0 | apply i_slots0 | apply i_slimit0 | apply i_retry0 | done].
      - change (waiting s (set_slave s _ _)) with (waiting s st).
        change (in_flight s (set_slave s _ _)) with (in_flight s st). lia.
      - specialize (i_slimit0 s). lia. }
    unfold retryStalledReq. cbn [retryReq s_transmitList outstandingResponses s_event].
    destruct (retryReq (slaves st s)) eqn:Er; exact Hgoal.
  - cbn [safe snd]. destruct Hi. constructor; try done; intros s'; cbn [slaves set_slave];
      destruct (decide (s' = s)) as [-> |]; cbn [s_transmitList outstandingResponses retryReq s_event];
      try first [apply i_squeue0 | apply i_slots0 | apply i_slimit0 | apply i_retry0 | done].
    by rewrite Hev.
Qed.


(** * Every step *)

Lemma queue_fired cur t p q : t <= cur -> queue_ok cur (p :: q) (Some t) -> queue_ok cur (p :: q) None.
Proof. destruct p. cbn. lia. Qed.

Lemma inv_m_fired m t p rest st : inv st -> m_event (masters st m) = Some t -> t <= curTick st ->
  m_transmitList (masters st m) = p :: rest -> inv (m_fired m st).
Proof.
  intros Hi Ev Ht Eq. apply inv_event; [done |].
  pose proof (i_mqueue _ Hi m) as Hq. rewrite Eq, Ev in Hq. rewrite Eq. by apply (queue_fired _ t).
Qed.

Lemma inv_s_fired s t p rest st : inv st -> s_event (slaves st s) = Some t -> t <= curTick st ->
  s_transmitList (slaves st s) = p :: rest -> inv (s_fired s st).
Proof.
  intros Hi Ev Ht Eq. pose proof (i_squeue _ Hi s) as Hq. rewrite Eq, Ev in Hq.
  destruct Hi. constructor; try done; intros s'; cbn [slaves set_slave s_fired];
    destruct (decide (s' = s)) as [-> |]; cbn [s_transmitList outstandingResponses retryReq s_event];
    try first [apply i_squeue0 | apply i_slots0 | apply i_slimit0 | apply i_retry0 | done].
  rewrite Eq. by apply (queue_fired _ t).
Qed.

Lemma inv_time t st : inv st -> curTick st <= t <= 2 ^ 62 ->
  inv (mkPorts (bridge st) (slaves st) (masters st) (routeTo st) t (clock st)).
Proof.
  intros [] Ht. constructor; try done.
  - destruct i_clock0. constructor; cbn [curTick clock]; lia.
  - intros m. specialize (i_mqueue0 m). cbn [curTick masters].
    destruct (m_transmitList (masters st m)) as [| [p t'] q]; cbn in *; [done |].
    destruct (m_event (masters st m)); lia.
  - intros s. specialize (i_squeue0 s). cbn [curTick slaves].
    destruct (s_transmitList (slaves st s)) as [| [p t'] q]; cbn in *; [done |].
    destruct (s_event (slaves st s)); lia.
Qed.

Lemma result_safe {A} (m : outcome (A * ports)) : safe m (fun r => inv r.2) -> safe (result m) inv.
Proof. destruct m as [[a st] |]; done. Qed.

Lemma step_inv st o : inv st -> step st o -> safe o inv.
Proof.
  intros Hi Hs. destruct Hs.
  - apply result_safe. eapply safe_mono; [by apply recvTimingReq_inv |]. intros [[b p] st']; done.
  - by apply result_safe, recvTimingResp_inv.
  - destruct p as [p t']. apply result_safe. eapply (m_trySend_inv m accepted p t'); try done.
    + by eapply inv_m_fired.
    + cbn. by rewrite decide_True.
    + cbn. by rewrite decide_True.
  - destruct p as [p t']. apply result_safe. by eapply (m_trySend_inv m accepted p t').
  - destruct p as [p t']. apply result_safe. eapply (s_trySend_inv s accepted p t'); try done.
    + by eapply inv_s_fired.
    + cbn. by rewrite decide_True.
    + cbn. by rewrite decide_True.
  - destruct p as [p t']. apply result_safe. by eapply (s_trySend_inv s accepted p t').
  - by apply inv_time.
Qed.

(** The ports after construction. *)
Definition new_ports (b : PciBridge) (cur : Z) (clk : Clocked) : ports :=
  mkPorts b (fun _ => mkSlave [] 0 false None) (fun _ => mkMaster [] None 0) ∅ cur clk.

Lemma new_ports_inv b cur clk : clock_ok cur clk -> inv (new_ports b cur clk).
Proof.
  intros Hclk. constructor; try done; try (intros; cbn; lia).
  constructor.
Qed.

Lemma reachable_inv b cur clk st : clock_ok cur clk -> reachable (new_ports b cur clk) st -> inv st.
Proof.
  intros Hclk. induction 1 as [| st st' _ IH Hs]; [by apply new_ports_inv |]. exact (step_inv st (Ok st') IH Hs).
Qed.

(** Looking at the clock leaves the ports alone. *)
Lemma edge_slaves n st t st' : edge n st = Ok (t, st') -> slaves st' = slaves st.
Proof.
  unfold edge. destruct (clockEdge _ _ _) as [[t0 c] |]; cbn; [| done]. by intros [= _ <-].
Qed.

Lemma schedule_next_slaves q ev st ev' st' :
  schedule_next q ev st = Ok (ev', st') -> slaves st' = slaves st.
Proof.
  unfold schedule_next. destruct q as [| [p t] q]; [by intros [= _ <-] |].
  destruct (edge 0 st) as [[e st1] |] eqn:Ee; cbn [obind]; [| done].
  destruct (schedule _ _); cbn [obind]; [| done]. intros [= _ <-]. by apply edge_slaves in Ee.
Qed.

(** A send that succeeds ends with the retries of all stalled slave ports. *)
Lemma m_sent_retries m pkt st retries st' :
  m_trySendTiming prm m true pkt st = Ok (retries, st') ->
  exists st1, slaves st1 = slaves st /\ (retries, st') = retry_all st1.
Proof.
  unfold m_trySendTiming. destruct (m_transmitList (masters st m)) as [| [p t] rest]; [done |].
  intros H. obind_inv. destruct a2 as [ev st1].
  apply schedule_next_slaves in Hm2.
  eexists; split; [| symmetry; by apply Ok_inj].
  cbn [slaves set_master]. rewrite Hm2.
  destruct (unrouted_req _); obind_inv; done.
Qed.

(** C2: under ordinary traffic no assertion of the timing ports ever fails, in any
    interleaving of requests, responses, send events, refusals and retries: no
    event is scheduled twice or in the past, no send finds an empty queue or an early head, no
    queue exceeds its limit, no response count goes below zero, and no request
    object is entered twice in the routing table. *)
Theorem ports_never_assert b cur clk st o :
  clock_ok cur clk -> reachable (new_ports b cur clk) st -> step st o -> o <> Err AssertFail.
Proof.
  intros Hc Hr Hs. pose proof (step_inv st o (reachable_inv _ _ _ _ Hc Hr) Hs) as H.
  destruct o as [| e]; [done |]. cbn in H. congruence.
Qed.

(** C1: response space is reserved under ordinary traffic: requests that need a response,
    have an address, are no coherence check, no snoop of the device and no answer of the
    device to a snoop, and whose request object is in no other transaction of the bridge;
    responses to requests that were sent, with address and size, that are no coherence
    check and no answer to a snoop; peers that leave the request object, the address, the
    source and these kinds as they are.  In every state reachable with these, refusals
    and retries included, the count of a slave port is the number of its requests that
    wait in a request queue, are sent and not answered, or are answered and wait in its
    response queue; it stays between 0 and the limit, so a response queue never holds more
    responses than the limit, and no request queue exceeds its own.  Nothing is said of
    coherence checks: their answers leave by the port of the device's DMA engine whoever
    asked. *)
Theorem response_space b cur clk st s :
  clock_ok cur clk -> reachable (new_ports b cur clk) st ->
  outstandingResponses (slaves st s)
  = Z.of_nat (waiting s st + in_flight s st + length (s_transmitList (slaves st s))) /\
  0 <= outstandingResponses (slaves st s) <= respQueueLimit prm /\
  Z.of_nat (length (s_transmitList (slaves st s))) <= respQueueLimit prm /\
  (forall m, Z.of_nat (length (m_transmitList (masters st m))) <= reqQueueLimit prm).
Proof.
  intros Hc Hr%reachable_inv; [| done]. pose proof (i_slots _ Hr s). pose proof (i_slimit _ Hr s).
  split_and!; [done | lia | done | lia | apply Hr].
Qed.

Lemma s_sent_retries s pkt st retries st' : retryReq (slaves st s) = true ->
  s_trySendTiming s true pkt st = Ok (retries, st') ->
  retries = [s] /\ retryReq (slaves st' s) = false.
Proof.
  intros Hret. unfold s_trySendTiming.
  destruct (s_transmitList (slaves st s)) as [| [p t] rest]; [done |].
  intros H. obind_inv. destruct a1 as [ev st1].
  unfold retryStalledReq in H. cbn [retryReq] in H. rewrite Hret in H. apply Ok_inj, pair_eq in H.
  destruct H as [<- <-]. split; [done |]. cbn. by rewrite decide_True.
Qed.

(** C3: no stalled request is forgotten.  While a slave port owes its peer a retry,
    the bridge holds a request to send, or a request of that port is in flight, or
    a response of that port waits; and whenever any master port sends a request,
    or that port a response, by its event or on a retry, the port sends the retry
    it owes. *)
Theorem stalled_retried b cur clk st s :
  clock_ok cur clk -> reachable (new_ports b cur clk) st -> retryReq (slaves st s) = true ->
  (queued st <> [] \/ 0 < Z.of_nat (in_flight s st) \/ s_transmitList (slaves st s) <> []) /\
  (forall m st0 pkt retries st', st0 = st \/ st0 = m_fired m st ->
    m_trySendTiming prm m true pkt st0 = Ok (retries, st') ->
    In s retries /\ forall s', retryReq (slaves st' s') = false) /\
  (forall st0 pkt retries st', st0 = st \/ st0 = s_fired s st ->
    s_trySendTiming s true pkt st0 = Ok (retries, st') ->
    In s retries /\ retryReq (slaves st' s) = false).
Proof.
  intros Hc Hr%reachable_inv Hret; [| done]. split_and!.
  - destruct (i_retry _ Hr s Hret) as [H | H]; [by left |]. rewrite (i_slots _ Hr s) in H.
    destruct (queued st) eqn:Eq; [right | by left].
    unfold waiting in H. rewrite Eq in H. cbn in H.
    destruct (s_transmitList (slaves st s)); cbn in H; [left; lia | by right].
  - intros m st0 pkt retries st' Hst0 (st1 & Hsl & E)%m_sent_retries.
    assert (Hsl' : slaves st1 = slaves st) by (by destruct Hst0 as [-> | ->]).
    unfold retry_all in E. apply pair_eq in E as [-> ->]. split.
    + apply list_elem_of_In, list_elem_of_filter. rewrite Hsl'. split; [done |]. apply list_elem_of_In. destruct s; cbn; auto.
    + intros s'. cbn [slaves]. unfold retryStalledReq.
      destruct (retryReq (slaves st1 s')) eqn:E; [done | exact E].
  - intros st0 pkt retries st' Hst0 H. apply s_sent_retries in H as [-> H]; [by split; [left |] |].
    destruct Hst0 as [-> | ->]; [done |]. cbn. by rewrite decide_True.
Qed.

End Protocol.

(** * Witnesses *)

(** A bridge with queues of one entry, and reads of the memory behind it. *)
Definition sample_prm : port_params := mkPortParams 1 1 2 0 0 0 0.
Definition sample_ports : ports := new_ports sample_bridge 0 (mkClocked 0 0 1000).
Lemma sample_clock_ok : clock_ok sample_prm 0 (mkClocked 0 0 1000).
Proof. constructor; cbn; lia. Qed.

Definition read_req (n : Z) : Packet :=
  mkPacket 0 ReadReq 0x300 0x80001040 false 64 0 0 0 [(-1, -1, -1); (-1, -1, -1)] (new_Request n).

Definition state_of {A} (d : ports) (m : outcome (A * ports)) : ports :=
  match m with Ok (_, st) => st | Err _ => d end.

Lemma step_state {A} st (m : outcome (A * ports)) :
  (match m with Ok _ => true | Err _ => false end) = true ->
  step sample_prm no_peers st (result m) -> step sample_prm no_peers st (Ok (state_of st m)).
Proof. by destruct m as [[a st'] |]. Qed.

(** One request is taken, the next one is stalled. *)
Definition one_taken : ports :=
  state_of sample_ports (recvTimingReq sample_prm no_peers slavePort (read_req 1) sample_ports).
Definition one_stalled : ports :=
  state_of one_taken (recvTimingReq sample_prm no_peers slavePort (read_req 2) one_taken).

Lemma one_taken_reachable : reachable sample_prm no_peers sample_ports one_taken.
Proof.
  eapply reach_step; [apply reach_init |]. apply step_state; [vm_compute; reflexivity |].
  apply step_req. split_and!; try reflexivity. constructor.
Qed.

Lemma one_stalled_reachable : reachable sample_prm no_peers sample_ports one_stalled.
Proof.
  eapply reach_step; [apply one_taken_reachable |]. apply step_state; [vm_compute; reflexivity |].
  apply step_req. split_and!; try (vm_compute; reflexivity).
  apply (bool_decide_unpack _). vm_compute. exact I.
Qed.

Lemma ports_never_assert_witness :
  result (recvTimingReq sample_prm no_peers slavePort (read_req 2) one_taken) <> Err AssertFail.
Proof.
  apply (ports_never_assert sample_prm no_peers ltac:(reflexivity) ltac:(reflexivity)
           sample_bridge 0 (mkClocked 0 0 1000) one_taken _ sample_clock_ok one_taken_reachable).
  apply step_req. split_and!; try (vm_compute; reflexivity).
  apply (bool_decide_unpack _). vm_compute. exact I.
Defined.

Lemma response_space_witness :
  outstandingResponses (slaves one_taken slavePort) = 1 /\
  outstandingResponses (slaves one_taken slavePort) <= respQueueLimit sample_prm.
Proof.
  destruct (response_space sample_prm no_peers ltac:(reflexivity) ltac:(reflexivity)
              sample_bridge 0 (mkClocked 0 0 1000) one_taken slavePort sample_clock_ok one_taken_reachable)
    as (_ & [_ H] & _).
  split; [vm_compute; reflexivity | exact H].
Defined.

Lemma stalled_retried_witness :
  retryReq (slaves one_stalled slavePort) = true /\
  (queued one_stalled <> [] \/ 0 < Z.of_nat (in_flight slavePort one_stalled) \/
   s_transmitList (slaves one_stalled slavePort) <> []).
Proof.
  split; [vm_compute; reflexivity |].
  apply (stalled_retried sample_prm no_peers ltac:(reflexivity) ltac:(reflexivity)
           sample_bridge 0 (mkClocked 0 0 1000) one_stalled slavePort sample_clock_ok one_stalled_reachable).
  vm_compute. reflexivity.
Defined.

(** A coherence check of the host that meets a full queue loses its request: the
    retry of the same packet dereferences a null pointer. *)
Definition check_req : Packet :=
  upd_req (fun r => set_cxl_cache (Some (new_D2H_Req RdOwn 1 false 0 0x80001040 0 0 0))
                      (set_cxl_packet_type HostBiasCheck r)) (read_req 3).

Example stalled_check_lost : exists p' st',
  recvTimingReq sample_prm no_peers slavePort check_req one_taken = Ok (false, p', st') /\
  recvTimingReq sample_prm no_peers slavePort p' sample_ports = Err Undefined.
Proof. eexists _, _. split; [reflexivity | vm_compute; reflexivity]. Qed.
