(* ===== verification/Protocol.v ===== *)
(** The atomic path between the host and the CXL device, across its components:
    [recvAtomic] of the bridge's slave ports ([src/gem5/src/mem/PciBridge.cc]), the
    programmed-I/O port of a device ([src/gem5/src/dev/io_device.hh]) and the bias
    check of the device's crossbar ([src/gem5/src/dev/cxl/TestDev/CXLXBar.cc]).

    The state that an atomic access may change behind a port is [W]; a send takes
    it and returns it with the packet as the peer leaves it and the latency. *)
From Stdlib Require Import ZArith Lia.
From stdpp Require Import base numbers list gmap.
From S2P Require Import Prelude AddrRange CxlPacket MemPacket HomeAgent DCOH BridgeConfig.
From S2P Require Import BridgeState BridgePorts.

Open Scope Z_scope.

Lemma getAddr_valid p : flag_isSet VALID_ADDR p = true -> getAddr p = Ok (addr p).
Proof. intros H. unfold getAddr, assert_. by rewrite H. Qed.
Lemma setAddr_valid a p : flag_isSet VALID_ADDR p = true -> setAddr a p = Ok (set_addr a p).
Proof. intros H. unfold setAddr, assert_. by rewrite H. Qed.

(** * The bridge *)

Section Bridge.
Context {W : Type} (prm : port_params) (peer : MasterPortID -> list AddrRange) (b : PciBridge).
Variable sendAtomic : MasterPortID -> Packet -> W -> outcome (Packet * Z * W).
Variable sendAtomicSnoop : Packet -> outcome (Packet * Z).

(** What [recvAtomic] does by address before it forwards the packet: the latency so
    far, [sink_packet], [Need_CXLResp], the packet and the state. *)
Definition atomic_dispatch (s : SlavePortID) (pkt : Packet) (w : W) :
    outcome (Z * bool * bool * Packet * W) :=
  let! a := getAddr pkt in
  if (0x15000000 <=? a) && (a <? 0x15040000) then
    if slaveID s =? 0 then let! pkt := host_cxl pkt in Ok (0, false, false, pkt, w)
    else Ok (0, false, false, pkt, w)
  else if (0x80000000 <=? a) && (a <? 0xA0000000) then
    if slaveID s =? 0 then let! pkt := host_cxl pkt in Ok (0, false, false, pkt, w)
    else Ok (0, false, false, pkt, w)
  else if 0xA0000000 <=? a then
    if slaveID s =? 0 then
      if bool_decide (cxl_packet_type (req pkt) = CXLcacheH2DReq) then
        let! (_, pkt) := makeCXLSnpReq pkt in
        let! m := getMasterPort peer b 0x15000000 in
        let! (pkt, snoop_latency, w) := sendAtomic m pkt w in
        let pkt := upd_req (set_cxl_cache None) pkt in
        let! sink_packet := sinkPacket pkt in
        Ok (snoop_latency, sink_packet, true, pkt, w)
      else Ok (0, false, false, pkt, w)
    else if bool_decide (cxl_packet_type (req pkt) <> CXLcacheH2DReq) then
      let! (snoop_response_cmd, latency, pkt) := forwardAtomic sendAtomicSnoop pkt in
      let! sink_packet := sinkPacket pkt in
      let pkt := if bool_decide (snoop_response_cmd <> InvalidCmd)
                 then set_cmd snoop_response_cmd pkt else pkt in
      Ok (latency, sink_packet, true, pkt, w)
    else Ok (0, false, false, pkt, w)
  else Ok (0, false, false, pkt, w).

(** [Tick PciBridgeSlavePort::recvAtomic(PacketPtr pkt)]. *)
Definition recvAtomic (s : SlavePortID) (pkt : Packet) (w : W) : outcome (Z * Packet * W) :=
  let! _ := getSize pkt in
  let! pkt := assign_requester prm s b pkt in
  let! a := getAddr pkt in
  let! m := getMasterPort peer b a in
  do! panic_if (cacheResponding pkt) then
  let! (coherent_latency, sink_packet, Need_CXLResp, pkt, w) := atomic_dispatch s pkt w in
  let forward :=
    let! (pkt, access_latency, w) :=
      (if Need_CXLResp && sink_packet then Ok (pkt, 0, w) else sendAtomic m pkt w) in
    let! pkt := (if Need_CXLResp then reciveCXL pkt else Ok pkt) in
    Ok (u64 (coherent_latency + access_latency), pkt, w) in
  if bool_decide (cxl_packet_type (req pkt) = HostBiasCheck) then
    let! c := get_cxl_cache pkt in
    if (0x80000000 <=? cache_getAddr c) && (cache_getAddr c <? 0xA0000000) then
      let! (latency, pkt) := checkCoherence sendAtomicSnoop pkt in Ok (latency, pkt, w)
    else forward
  else forward.

End Bridge.

(** * The ports of the device *)

(** [Tick PioPort::recvAtomic(PacketPtr pkt)] of a device whose [read] and [write]
    are [access]. *)
Definition pio_recvAtomic {W} (access : Packet -> W -> outcome (Z * Packet * W))
    (pkt : Packet) (w : W) : outcome (Packet * Z * W) :=
  let receive_delay := u32 (headerDelay pkt + payloadDelay pkt) in
  let pkt := clear_delays pkt in
  let! (delay, pkt, w) := access pkt w in
  do! (if bool_decide (cxl_packet_type (req pkt) <> CXLcacheH2DReq)
       then assert_ (isResponse (cmd pkt) || isError (cmd pkt)) else Ok tt) then
  Ok (pkt, u64 (delay + receive_delay), w).

Section Crossbar.
Context {W : Type}.
(** [findPort(pkt)] and [sendBiasAtomic] of the port it finds, and [sendAtomic] of
    [memSidePorts[0]]. *)
Variable sendBiasAtomic : Z -> Z -> Z -> bool -> W -> outcome (Z * Z * W).
Variable port0_sendAtomic : Packet -> W -> outcome (Packet * Z * W).

(** [Tick CXLXBar::CheckBias(PacketPtr pkt, Addr originAddr, int* bias_mode)]. *)
Definition CheckBias (pkt : Packet) (originAddr bias_mode : Z) (w : W) : outcome (Z * Z * W) :=
  let! destAddr := getAddr pkt in
  let! (latency, bias_mode, w) := sendBiasAtomic destAddr originAddr bias_mode false w in
  Ok (latency, bias_mode, w).

(** The bias check of [CXLXBar::recvAtomicBackdoor], which comes first.  The answer
    to a coherence check is freed; the source leaves the pointer in place, and
    the model leaves no message behind it. *)
Definition bias_check (cpu_side_port_id : Z) (pkt : Packet) (w : W) : outcome (Z * Packet * W) :=
  if cpu_side_port_id =? 1 then
    let! destAddr := getAddr pkt in
    if (0x80000000 <=? destAddr) && (destAddr <? 0xA0000000) then
      let! originAddr := getAddr pkt in
      let! pkt := setAddr 0x15000000 pkt in
      let! (bias_check_latency, check_bias, w) := CheckBias pkt originAddr 0 w in
      let! pkt := setAddr originAddr pkt in
      if check_bias =? 1 then
        let! a := getAddr pkt in
        let pkt := upd_req (fun r => set_cxl_packet_type HostBiasCheck
                                       (set_coherent_check_dest a r)) pkt in
        let! (pkt, _, w) := port0_sendAtomic pkt w in
        Ok (bias_check_latency, upd_req (set_cxl_req None) pkt, w)
      else if check_bias =? 2 then Ok (bias_check_latency, pkt, w)
      else Err Panic
    else Ok (0, pkt, w)
  else Ok (0, pkt, w).
End Crossbar.

(** * Host accesses to device memory *)

(** The completion the device answers a host command with, and whether the command
    takes the page for the host. *)
Definition host_answer (c : Command) : CXL_Req :=
  match c with
  | ReadExReq => ndr Cmp_E MetaFiled_No_Op Any
  | ReadSharedReq => ndr Cmp_S MetaFiled_No_Op Any
  | WriteReq => ndr Cmp MetaFiled_No_Op Invalied
  | _ => ndr Cmp MetaFiled_No_Op Any
  end.
Definition takes_page (c : Command) : bool :=
  match c with ReadExReq | ReadSharedReq | WriteReq => true | _ => false end.

Definition same_page (x a : Z) : bool := Z.shiftr x 12 =? Z.shiftr a 12.

Lemma makeCXLresponse_host p d :
  flag_isSet VALID_ADDR p = true -> cxl_mem_cmd (cmd p) = true -> is_device_mem (addr p) = true ->
  cxl_req (req p) = Some (host_message (cmd p) (addr p)) ->
  exists d', makeCXLresponse p d
    = Ok (install_ndr (set_mem_last_resp (if isWrite (cmd p) then 1 else 0) (host_answer (cmd p))) p, d') /\
    forall x, bias_of d' x = if takes_page (cmd p) && same_page x (addr p) then true else bias_of d x.
Proof.
  intros Hv Hc Ha Hr. unfold makeCXLresponse, get_cxl_req, getAddr, assert_. rewrite Hr, Hv.
  destruct (set_bias_mode_ok (addr p) true d Ha) as (d' & Hs & _ & _ & Ht).
  pose proof (fun x => bias_of_insert d d' (addr p) true x Ht) as Hb. unfold same_page.
  unfold resp_MemRd, resp_MemWr.
  destruct (cmd p); try discriminate Hc; cbn [host_message]; cbn -[set_bias_mode isWrite install_ndr];
    rewrite ?Hs; cbn [obind]; eexists; (split; [reflexivity |]); done.
Qed.

(** The memory behind the device: an atomic access answers with a response that still
    carries the CXL message of the request. *)
Class MemoryPort (send : Packet -> outcome (Packet * Z)) : Prop := {
  memory_answers : forall p, flag_isSet VALID_ADDR p = true -> needsResponse (cmd p) = true ->
    exists p' t, send p = Ok (p', t) /\ isResponse (cmd p') = true /\
      cxl_req (req p') = cxl_req (req p) /\ cxl_packet_type (req p') = cxl_packet_type (req p);
}.

Section Host.
Context (prm : port_params) (peer : MasterPortID -> list AddrRange) (b : PciBridge).
Context (memory : Packet -> outcome (Packet * Z)) `{!MemoryPort memory}.
Context (snoop : Packet -> outcome (Packet * Z)).

(** The CXL device in atomic mode, behind its programmed-I/O port. *)
Definition device_atomic (in_timing dma_timing : Packet -> bool) : Packet -> DCOH -> outcome (Packet * Z * DCOH) :=
  pio_recvAtomic (callDCOH atomic memory in_timing dma_timing).

Context (in_timing dma_timing : Packet -> bool).

(** What the host gets back for its command. *)
Definition completed (c : Command) (p : Packet) : Prop :=
  isResponse (cmd p) = true /\
  exists r n, cxl_req (req p) = Some r /\ mem_last_resp r = 1 /\
    as_S2M_NDR r = Ok n /\ MNDR n = mem_body (host_answer c) /\
    (if isWrite c then cxl_packet_type (req p) = CXLmemPacket /\ cxl_req_type r = _S2M_NDR
     else cxl_packet_type (req p) = CXLmemDataPacket /\ cxl_req_type r = _S2M_DRS /\
          is_Some (cxl_data_atomic (req p))).

(** The data message that follows the completion of a read. *)
Definition with_data (c : Command) (p : Packet) : Packet :=
  upd_req (fun r => set_cxl_req (Some (set_mem_last_resp 1 (set_mem_type _S2M_DRS (host_answer c))))
    (set_cxl_data_atomic (Some (set_mem_last_resp 1
       (new_S2M_DRS MemData MetaFiled_No_Op Any 0 false 0 LightLoad 0 0)))
    (set_cxl_packet_type CXLmemDataPacket r))) p.

Lemma makeMemDataAtomic_read c p n : cxl_mem_cmd c = true -> isWrite c = false ->
  cxl_req (req p) = Some (set_mem_type _S2M_NDR (set_mem_last_resp n (host_answer c))) ->
  makeMemDataAtomic p = Ok (with_data c p).
Proof.
  intros Hc Hw Hr. unfold makeMemDataAtomic, get_cxl_req. rewrite Hr.
  destruct c; try discriminate Hc; try discriminate Hw; reflexivity.
Qed.

Lemma device_atomic_ok p d :
  flag_isSet VALID_ADDR p = true -> cxl_mem_cmd (cmd p) = true -> is_device_mem (addr p) = true ->
  cxl_req (req p) = Some (host_message (cmd p) (addr p)) -> cxl_packet_type (req p) = CXLmemPacket ->
  exists p' t d', device_atomic in_timing dma_timing p d = Ok (p', t, d') /\ completed (cmd p) p' /\
    forall x, bias_of d' x = if takes_page (cmd p) && same_page x (addr p) then true else bias_of d x.
Proof.
  intros Hv Hc Ha Hr Ht. unfold device_atomic, pio_recvAtomic.
  set (q := clear_delays p).
  destruct (makeCXLresponse_host q d Hv Hc Ha Hr) as (d' & Hm & Hb).
  set (q' := install_ndr _ q) in Hm.
  assert (Hn : needsResponse (cmd q') = true) by (cbn; by destruct (cmd p)).
  destruct (memory_answers q' Hv Hn) as (p' & t & Hsend & Hresp & Hreq & Hkind).
  assert (Hrw : (if isRead (cmd q') then ReadData atomic memory q' else WriteData atomic memory q')
                = Ok (p', t)).
  { unfold ReadData, WriteData, getAddr, assert_, memAction.
    change (flag_isSet VALID_ADDR q') with (flag_isSet VALID_ADDR p).
    change (addr q') with (addr p). rewrite Hv. cbn [obind]. rewrite Ha.
    by destruct (isRead _). }
  assert (Hr' : cxl_req (req p') = Some (set_mem_type _S2M_NDR
            (set_mem_last_resp (if isWrite (cmd p) then 1 else 0) (host_answer (cmd p)))))
    by (by rewrite Hreq).
  unfold callDCOH, recvReq. cbn [isTimingMode isAtomicMode].
  change (req q) with (req p). rewrite Ht, Hr.
  rewrite !bool_decide_eq_false_2 by done. rewrite bool_decide_eq_true_2 by eauto.
  cbn [assert_ obind]. rewrite Hm. cbn [obind]. rewrite Hrw. cbn [obind].
  unfold get_cxl_req at 1. rewrite Hr'. cbn [obind mem_last_resp set_mem_type set_mem_last_resp].
  exists (if isWrite (cmd p) then p' else with_data (cmd p) p'). eexists _, d'.
  split; [| split; [| exact Hb]]; unfold completed; destruct (isWrite (cmd p)) eqn:Ew.
  - cbn [Z.eqb obind]. rewrite Hresp. by destruct (bool_decide _).
  - cbn [Z.eqb]. erewrite makeMemDataAtomic_read by done. cbn [obind].
    rewrite bool_decide_eq_true_2 by (by eexists). cbn [assert_ obind].
    change (cmd (with_data (cmd p) p')) with (cmd p'). rewrite Hresp. by destruct (bool_decide _).
  - split; [done |]. rewrite Hr', Hkind. destruct (cmd p); try discriminate; eexists _, _; done.
  - split; [done |]. destruct (cmd p); try discriminate; eexists _, _; cbn; split_and!; eauto.
Qed.

(** The requester id is the only thing the bridge puts on the packet itself. *)
Lemma assign_requester_ok s p : is_Some (req_ids p !! Z.to_nat (rcid prm)) ->
  exists ids, assign_requester prm s b p = Ok (set_req_ids ids p).
Proof.
  intros [[[bus dev] fn] E]. unfold assign_requester, get_req_bus. rewrite E. cbn [obind].
  destruct (bus =? -1); [eauto |]. exists (req_ids p). by destruct p.
Qed.

(** C4: a host access to device memory, end to end, in atomic mode.  When the packet has
    address and size and no cache has answered it, the bridge knows its requester and
    routes its address to the port the device hangs on, and the memory behind the device
    answers every request that needs an answer and leaves the CXL message and the kind of
    the request object alone, a read or write of the host succeeds whatever the bias table
    holds: the home agent's message reaches the device, the host gets back a response with
    the completion its command is due (exclusive, shared, or plain, and the data message
    after it for a read), and the page is in host bias afterwards for every command but the
    plain read, which changes no bias; no other page changes. *)
Theorem host_access sendAtomic pkt d m :
  (forall p w, sendAtomic m p w = device_atomic in_timing dma_timing p w) ->
  getMasterPort peer b (addr pkt) = Ok m ->
  flag_isSet VALID_ADDR pkt = true -> flag_isSet VALID_SIZE pkt = true ->
  cacheResponding pkt = false -> is_Some (req_ids pkt !! Z.to_nat (rcid prm)) ->
  cxl_mem_cmd (cmd pkt) = true -> is_device_mem (addr pkt) = true ->
  exists lat p' d', recvAtomic prm peer b sendAtomic snoop slavePort pkt d = Ok (lat, p', d') /\
    completed (cmd pkt) p' /\
    forall x, bias_of d' x
      = if takes_page (cmd pkt) && same_page x (addr pkt) then true else bias_of d x.
Proof.
  intros Hsend Hm Hv Hz Hcr Hid Hc Ha. unfold recvAtomic, getSize, assert_. rewrite Hz. cbn [obind].
  destruct (assign_requester_ok slavePort pkt Hid) as [ids ->]. cbn [obind]. set (p1 := set_req_ids ids pkt).
  unfold getAddr at 1. unfold assert_. change (flag_isSet VALID_ADDR p1) with (flag_isSet VALID_ADDR pkt).
  rewrite Hv. cbn [obind]. change (addr p1) with (addr pkt). rewrite Hm. cbn [obind].
  change (cacheResponding p1) with (cacheResponding pkt). rewrite Hcr. cbn [panic_if obind].
  set (p2 := upd_req (fun r => set_cxl_req (Some (host_message (cmd p1) (addr p1)))
                                 (set_cxl_packet_type CXLmemPacket r)) p1).
  assert (Hd : atomic_dispatch peer b sendAtomic snoop slavePort p1 d = Ok (0, false, false, p2, d)).
  { unfold atomic_dispatch, getAddr, assert_, host_cxl. rewrite makeCXLPacket_eq by done.
    change (flag_isSet VALID_ADDR p1) with (flag_isSet VALID_ADDR pkt). rewrite Hv. cbn [obind].
    change (addr p1) with (addr pkt). change (cmd p1) with (cmd pkt). rewrite Hc.
    pose proof (proj1 (is_device_mem_spec _) Ha) as Hr. unfold is_device_mem in Ha. rewrite Ha.
    destruct (Z.ltb_spec (addr pkt) 0x15040000); [lia |]. by rewrite andb_false_r. }
  rewrite Hd. cbn [obind]. rewrite bool_decide_eq_false_2 by done. cbn [andb]. rewrite Hsend.
  destruct (device_atomic_ok p2 d) as (p' & t & d' & -> & Hcomp & Hb); try done.
  cbn [obind]. eexists _, _, _. split; [reflexivity |]. done.
Qed.

End Host.

(** * Device accesses to device memory *)

(** [Tick ExternalPort_cxl::recvAtomic(PacketPtr pkt)]. *)
Definition ex_recvAtomic (dma_sendAtomic : Packet -> outcome (Packet * Z)) (pkt : Packet) (d : DCOH) :
    outcome (Packet * Z * DCOH) :=
  let! (pkt, d) := hostSend dma_sendAtomic pkt d in Ok (pkt, 0, d).

Section Device.
Context (prm : port_params) (peer : MasterPortID -> list AddrRange) (b : PciBridge).
Context (snoop : Packet -> outcome (Packet * Z)) `{!SnoopPort snoop}.
Context (s : SlavePortID) (Hs : slaveID s <> 0).
(** The ports above the bridge, which a coherence check does not reach. *)
Context (up : MasterPortID -> Packet -> unit -> outcome (Packet * Z * unit)).

(** The DMA port of the device leads to the slave port [s] of the bridge; the
    crossbar's first port and its bias queries lead to the device. *)
Definition to_bridge (p : Packet) : outcome (Packet * Z) :=
  let! (lat, p, _) := recvAtomic prm peer b up snoop s p tt in Ok (p, lat).
Definition device_bias_check : Packet -> DCOH -> outcome (Z * Packet * DCOH) :=
  bias_check (fun _ origin mode get_set => recvBiasAtomic origin mode get_set)
    (ex_recvAtomic to_bridge) 1.

(** The request the device sends for a command: flushes are never accepted by the
    check. *)
Definition device_opcode (c : Command) : D2H_Req_OpCodes :=
  match c with ReadExReq => RdOwn | ReadSharedReq => RdShared | FlushReq => CLFlush | _ => RdAny end.

Lemma makeCXLrequest_check p : flag_isSet VALID_ADDR p = true ->
  cxl_packet_type (req p) = HostBiasCheck ->
  makeCXLrequest p = Ok (upd_req (set_cxl_cache
    (Some (new_D2H_Req (device_opcode (cmd p)) 1 false 0 (addr p) 0 0 0))) p).
Proof.
  intros Hv Ht. unfold makeCXLrequest, getAddr, assert_. rewrite Hv.
  unfold upd_req. rewrite Ht. by destruct (cmd p).
Qed.

(** The answer of a check decides the bias of its page. *)
Lemma apply_fwd_result op p d : checked_op op = true -> flag_isSet VALID_ADDR p = true ->
  apply_fwd (check_result op p) d = set_bias_mode (addr p) (hasSharers p) d.
Proof.
  intros Ho Hv. unfold apply_fwd, get_cxl_req, getAddr, assert_.
  change (flag_isSet VALID_ADDR (check_result op p)) with (flag_isSet VALID_ADDR p). rewrite Hv.
  cbn [check_result req upd_req set_req cxl_req set_cxl_req obind].
  destruct op; try discriminate Ho; cbn; by destruct (hasSharers p).
Qed.

(** The bridge hands a check from below to the home agent. *)
Lemma to_bridge_check p m :
  flag_isSet VALID_ADDR p = true -> flag_isSet VALID_SIZE p = true -> cacheResponding p = false ->
  is_Some (req_ids p !! Z.to_nat (rcid prm)) -> getMasterPort peer b (addr p) = Ok m ->
  is_device_mem (addr p) = true -> cxl_packet_type (req p) = HostBiasCheck ->
  cxl_cache (req p) = Some (new_D2H_Req (device_opcode (cmd p)) 1 false 0 (addr p) 0 0 0) ->
  exists ids, to_bridge p =
    let! (lat, q) := checkCoherence snoop (set_req_ids ids p) in Ok (q, lat).
Proof.
  intros Hv Hz Hcr Hid Hm Ha Ht Hc. unfold to_bridge, recvAtomic, getSize, assert_. rewrite Hz. cbn [obind].
  destruct (assign_requester_ok prm b s p Hid) as [ids ->]. exists ids. cbn [obind].
  set (p1 := set_req_ids ids p). unfold getAddr at 1. unfold assert_.
  change (flag_isSet VALID_ADDR p1) with (flag_isSet VALID_ADDR p). rewrite Hv. cbn [obind].
  change (addr p1) with (addr p). rewrite Hm. cbn [obind].
  change (cacheResponding p1) with (cacheResponding p). rewrite Hcr. cbn [panic_if obind].
  assert (Hd : atomic_dispatch peer b up snoop s p1 tt = Ok (0, false, false, p1, tt)).
  { unfold atomic_dispatch, getAddr, assert_.
    change (flag_isSet VALID_ADDR p1) with (flag_isSet VALID_ADDR p). rewrite Hv. cbn [obind].
    change (addr p1) with (addr p). rewrite (proj2 (Z.eqb_neq _ _)) by exact Hs.
    pose proof (proj1 (is_device_mem_spec _) Ha). unfold is_device_mem in Ha. rewrite Ha.
    destruct (Z.ltb_spec (addr p) 0x15040000); [lia |]. by rewrite andb_false_r. }
  rewrite Hd. cbn [obind]. change (req p1) with (req p). rewrite Ht, bool_decide_eq_true_2 by done.
  unfold get_cxl_cache. change (req p1) with (req p). rewrite Hc. cbn [obind cache_getAddr cache_body new_D2H_Req new_CXL_Cache d2hreq_Address].
  pose proof (proj1 (is_device_mem_spec _) Ha). unfold is_device_mem in Ha.
  rewrite wrap_small by (unfold in_width; lia). rewrite Ha.
  destruct (checkCoherence snoop p1) as [[lat q] |]; done.
Qed.

(** The check of a page in host bias, from the device's port to the new bias. *)
Lemma ex_check_ok p d m :
  flag_isSet VALID_ADDR p = true -> flag_isSet VALID_SIZE p = true -> cacheResponding p = false ->
  is_Some (req_ids p !! Z.to_nat (rcid prm)) -> getMasterPort peer b (addr p) = Ok m ->
  is_device_mem (addr p) = true -> cxl_packet_type (req p) = HostBiasCheck ->
  isResponse (cmd p) = false -> cmd p <> FlushReq ->
  exists q q' t res d', snoop q = Ok (q', t) /\ addr q = addr p /\ cmd q = cmd p /\
    ex_recvAtomic to_bridge p d = Ok (res, 0, d') /\
    cxl_packet_type (req res) = HostBiasCheck /\ cxl_cache (req res) = None /\
    forall x, bias_of d' x = if same_page x (addr p) then hasSharers q' else bias_of d x.
Proof.
  intros Hv Hz Hcr Hid Hm Ha Ht Hr Hf. unfold ex_recvAtomic, hostSend.
  rewrite bool_decide_eq_true_2 by (rewrite Ht; done). rewrite makeCXLrequest_check by done. cbn [obind].
  set (p1 := upd_req _ p).
  destruct (to_bridge_check p1 m Hv Hz Hcr Hid Hm Ha Ht eq_refl) as [ids ->].
  set (q := set_req_ids ids p1).
  set (op := device_opcode (cmd p)).
  assert (Ho : checked_op op = true) by (unfold op; by destruct (cmd p)).
  edestruct (checkCoherence_ok snoop q) as (q' & t & cq & t' & Hsn & Hq & Haq & Hvq & _ & Hck);
    [reflexivity | reflexivity | reflexivity | exact Hv | exact Hr |].
  cbn [d2hreq_Opcode] in Hck. change (device_opcode (cmd p)) with op in Hck.
  rewrite Ho in Hck. rewrite Hck. cbn [obind].
  change (cxl_packet_type (req (check_result op (set_cmd cq q')))) with HostBiasCheck.
  rewrite bool_decide_eq_true_2 by done. rewrite apply_fwd_result by done.
  change (addr (set_cmd cq q')) with (addr q'). change (hasSharers (set_cmd cq q')) with (hasSharers q').
  rewrite Haq. change (addr q) with (addr p).
  destruct (set_bias_mode_ok (addr p) (hasSharers q') d Ha) as (d' & -> & _ & _ & Htab).
  exists q, q', t. eexists _, d'. cbn [obind]. split_and!; try done.
  intros x. by apply bias_of_insert.
Qed.

(** C5: a device access to device memory, end to end, in atomic mode, for a packet with
    address and size that is no response and no flush and that no cache has answered,
    from a requester the bridge knows, to an address the bridge routes.  The crossbar asks
    for the bias of the page first.  In device bias the access goes on as it is, no host
    cache is asked and no bias changes.  In host bias the device sends a coherence check
    through the bridge, which snoops the host caches for the same address and command;
    afterwards the page is in host bias exactly if the snoop found sharers and in device
    bias otherwise, and no other page changes.  A snooped cache may write the states of the
    block to the request object, set flags and turn the packet into a response, but keeps
    the address. *)
Theorem device_access pkt d m :
  flag_isSet VALID_ADDR pkt = true -> flag_isSet VALID_SIZE pkt = true -> cacheResponding pkt = false ->
  is_Some (req_ids pkt !! Z.to_nat (rcid prm)) -> getMasterPort peer b (addr pkt) = Ok m ->
  is_device_mem (addr pkt) = true -> isResponse (cmd pkt) = false -> cmd pkt <> FlushReq ->
  if bias_of d (addr pkt) then
    exists q q' t res d', snoop q = Ok (q', t) /\ addr q = addr pkt /\ cmd q = cmd pkt /\
      device_bias_check pkt d = Ok (1000, res, d') /\ cxl_cache (req res) = None /\
      forall x, bias_of d' x = if same_page x (addr pkt) then hasSharers q' else bias_of d x
  else
    exists d', device_bias_check pkt d = Ok (1000, pkt, d') /\ forall x, bias_of d' x = bias_of d x.
Proof.
  intros Hv Hz Hcr Hid Hm Ha Hr Hf. unfold device_bias_check, bias_check, CheckBias.
  cbn [Z.eqb Pos.eqb]. rewrite !getAddr_valid by done. cbn [obind].
  pose proof Ha as Ha'. unfold is_device_mem in Ha'. rewrite Ha', setAddr_valid by done. cbn [obind].
  rewrite getAddr_valid by done. cbn [obind]. unfold recvBiasAtomic. cbn [negb].
  destruct (is_host_bias_mode_ok (addr pkt) d Ha) as (d1 & -> & Hb1 & _).
  destruct (bias_of d (addr pkt)) eqn:Eb; cbn [obind]; rewrite setAddr_valid by done;
    cbn [obind Z.eqb Pos.eqb].
  - rewrite getAddr_valid by done. cbn [obind]. set (p1 := upd_req _ _).
    destruct (ex_check_ok p1 d1 m Hv Hz Hcr Hid Hm Ha eq_refl Hr Hf)
      as (q & q' & t & res & d' & Hsn & Haq & Hcq & Hex & _ & Hc & Hb).
    fold p1. rewrite Hex. cbn [obind]. exists q, q', t. eexists _, d'. split_and!; try done.
    intros x. by rewrite Hb, Hb1.
  - exists d1. split; [| done]. cbn. by destruct pkt.
Qed.

End Device.

(** * Witnesses *)

Lemma response_due c : needsResponse c = true ->
  isRequest c = true /\ isResponse (responseCommand c) = true.
Proof. by destruct c. Qed.

(** A memory that turns every request into its response. *)
Definition sample_memory (p : Packet) : outcome (Packet * Z) :=
  let! p := makeResponse p in Ok (p, 30000).

#[export] Instance sample_memory_port : MemoryPort sample_memory.
Proof.
  constructor. intros p _ Hn. destruct (response_due _ Hn) as [Hq Hr].
  unfold sample_memory, makeResponse, assert_. rewrite Hn, Hq. cbn [obind].
  eexists _, _. split; [reflexivity |]. done.
Qed.

Definition refuse (p : Packet) : bool := false.
Definition wired (m : MasterPortID) : Packet -> DCOH -> outcome (Packet * Z * DCOH) :=
  device_atomic sample_memory refuse refuse.
Definition no_uplink (m : MasterPortID) (p : Packet) (w : unit) : outcome (Packet * Z * unit) := Err Panic.

(** Device memory whose page is in device bias, read exclusively by the host. *)
Definition device_biased : DCOH := mkDCOH false 0 {[ 0x80001 := false ]}.

Lemma host_access_witness :
  bias_of device_biased 0x80001040 = false /\
  exists lat p' d',
    recvAtomic sample_prm no_peers sample_bridge wired quiet_snoop slavePort
      (set_cmd ReadExReq (read_req 1)) device_biased = Ok (lat, p', d') /\
    completed ReadExReq p' /\ bias_of d' 0x80001040 = true.
Proof.
  split; [reflexivity |].
  destruct (host_access sample_prm no_peers sample_bridge sample_memory quiet_snoop refuse refuse
              wired (set_cmd ReadExReq (read_req 1)) device_biased masterPort1)
    as (lat & p' & d' & H1 & H2 & H3);
    [reflexivity | vm_compute; reflexivity | reflexivity | reflexivity | reflexivity
    | eexists; reflexivity | reflexivity | reflexivity |].
  exists lat, p', d'. split; [exact H1 |]. split; [exact H2 |].
  rewrite H3. reflexivity.
Defined.

Lemma device_access_witness :
  bias_of new_DCOH 0x80001040 = true /\
  exists q q' t res d', quiet_snoop q = Ok (q', t) /\ addr q = 0x80001040 /\ cmd q = ReadReq /\
    device_bias_check sample_prm no_peers sample_bridge quiet_snoop slavePort_DMA2 no_uplink
      (read_req 1) new_DCOH = Ok (1000, res, d') /\ cxl_cache (req res) = None /\
    forall x, bias_of d' x = if same_page x 0x80001040 then hasSharers q' else bias_of new_DCOH x.
Proof.
  split; [reflexivity |].
  apply (device_access sample_prm no_peers sample_bridge quiet_snoop slavePort_DMA2 ltac:(discriminate)
           no_uplink (read_req 1) new_DCOH masterPort1);
    [reflexivity | reflexivity | reflexivity | eexists; reflexivity | vm_compute; reflexivity
    | reflexivity | reflexivity | discriminate].
Defined.
