(* ===== verification/EventQueue.v ===== *)
(** The linked structure of an event queue, [sim/eventq.hh] and [sim/eventq.cc].

    Events live in a store and point to each other: [nextBin] links the tops of
    the bins, a bin being the events of one time and priority, and [nextInBin]
    links the events of a bin, a stack.  The [nextBin] pointers of events below
    the top of their bin are stale.  [insert], [remove] and [pop_head] are the
    pointer operations; [chain] relates the structure to the list of its bins,
    and the lemmas show that the operations act on that list as insertion in
    order, removal and removal of the first event do.  [EventSim] holds the
    operations of the queues on top of this. *)
From S2P Require Import Prelude.
From Stdlib Require Import ZArith Lia Sorted.
From stdpp Require Import base numbers list gmap.

Open Scope Z_scope.

(** * Flags *)

(** [Flags<unsigned short>] of [base/flags.hh]. *)
Definition isSet (f mask : Z) : bool := truthy (Z.land f mask).
Definition noneSet (f mask : Z) : bool := Z.land f mask =? 0.
Definition set_flags (f mask : Z) : Z := Z.lor f mask.
Definition clear_flags (f mask : Z) : Z := Z.land f (Z.lnot mask).

Definition PublicRead : Z := 0x003f.
Definition PublicWrite : Z := 0x001d.
Definition Squashed : Z := 0x0001.
Definition Scheduled : Z := 0x0002.
Definition Managed : Z := 0x0004.
Definition IsExitEvent : Z := 0x0010.
Definition IsMainQueue : Z := 0x0020.
Definition Initialized : Z := 0x7a40.
Definition InitMask : Z := 0xffc0.

Lemma isSet_bit f i : 0 <= i -> isSet f (2 ^ i) = Z.testbit f i.
Proof.
  intros Hi. unfold isSet, truthy. destruct (Z.testbit f i) eqn:E.
  - apply negb_true_iff, Z.eqb_neq. intros H0.
    assert (Z.testbit (Z.land f (2 ^ i)) i = true) as HT
      by (by rewrite Z.land_spec, E, Z.pow2_bits_true).
    rewrite H0, Z.bits_0 in HT. done.
  - apply negb_false_iff, Z.eqb_eq. apply Z.bits_inj'. intros j Hj.
    rewrite Z.land_spec, Z.bits_0, Z.pow2_bits_eqb by lia.
    destruct (Z.eqb_spec i j) as [<- |]; [by rewrite E | apply andb_false_r].
Qed.

(** The flags that the queue reads and writes are single bits. *)
Lemma isSet_set f i j : 0 <= i -> 0 <= j ->
  isSet (set_flags f (2 ^ i)) (2 ^ j) = (i =? j) || isSet f (2 ^ j).
Proof.
  intros. rewrite !isSet_bit by lia. unfold set_flags.
  rewrite Z.lor_spec, Z.pow2_bits_eqb by lia. apply orb_comm.
Qed.

Lemma isSet_clear f i j : 0 <= i -> 0 <= j ->
  isSet (clear_flags f (2 ^ i)) (2 ^ j) = negb (i =? j) && isSet f (2 ^ j).
Proof.
  intros. rewrite !isSet_bit by lia. unfold clear_flags.
  rewrite Z.land_spec, Z.lnot_spec, Z.pow2_bits_eqb by lia. apply andb_comm.
Qed.

(** * Events *)

(** [queue] is the queue the event was last scheduled on. *)
Record Event := mkEvent {
  nextBin : option nat;
  nextInBin : option nat;
  _when : Z;
  _priority : Z;
  flags : Z;
  queue : option nat;
}.

(** The store of events, by address. *)
#[local] Abbreviation heap := (gmap nat Event).

Definition set_nextBin (p : option nat) (e : Event) : Event :=
  mkEvent p (nextInBin e) (_when e) (_priority e) (flags e) (queue e).
Definition set_nextInBin (p : option nat) (e : Event) : Event :=
  mkEvent (nextBin e) p (_when e) (_priority e) (flags e) (queue e).
Definition setWhen (w : Z) (q : nat) (e : Event) : Event :=
  mkEvent (nextBin e) (nextInBin e) w (_priority e) (flags e) (Some q).
Definition with_flags (f : Z) (e : Event) : Event :=
  mkEvent (nextBin e) (nextInBin e) (_when e) (_priority e) f (queue e).

Definition scheduled (e : Event) : bool := isSet (flags e) Scheduled.
Definition squashed (e : Event) : bool := isSet (flags e) Squashed.
Definition isExitEvent (e : Event) : bool := isSet (flags e) IsExitEvent.
Definition isManaged (e : Event) : bool := isSet (flags e) Managed.
Definition initialized (e : Event) : bool := Z.land (flags e) InitMask =? Initialized.

(** The constructor, [assert] on the flags included. *)
Definition new_Event (p f : Z) : outcome Event :=
  do! assert_ (noneSet f (wnot 16 PublicWrite)) then
  Ok (mkEvent None None 0 p (Z.lor Initialized f) None).

(** The comparison operators. *)
Definition ev_lt (l r : Event) : bool :=
  (_when l <? _when r) || ((_when l =? _when r) && (_priority l <? _priority r)).
Definition ev_le (l r : Event) : bool :=
  (_when l <? _when r) || ((_when l =? _when r) && (_priority l <=? _priority r)).
Definition ev_eq (l r : Event) : bool :=
  (_when l =? _when r) && (_priority l =? _priority r).
Definition ev_ne (l r : Event) : bool :=
  negb (_when l =? _when r) || negb (_priority l =? _priority r).

(** * The pointer operations *)

(** A dereference: undefined outside of the live events. *)
Definition load (h : heap) (p : nat) : outcome Event :=
  match h !! p with Some e => Ok e | None => Err Undefined end.

Definition store (h : heap) (p : nat) (f : Event -> Event) : outcome heap :=
  let! e := load h p in Ok (<[p := f e]> h).

Definition insertBefore (h : heap) (event : nat) (curr : option nat) : outcome (heap * nat) :=
  let! e := load h event in
  match curr with
  | None => Ok (<[event := set_nextInBin None (set_nextBin None e)]> h, event)
  | Some c =>
      let! ec := load h c in
      if ev_lt e ec
      then Ok (<[event := set_nextInBin None (set_nextBin (Some c) e)]> h, event)
      else Ok (<[event := set_nextInBin (Some c) (set_nextBin (nextBin ec) e)]> h, event)
  end.

(** [while (curr && *curr < *event)], from [prev] and [curr].  The fuel bounds the
    steps; a loop that outlives it never ends, which the language leaves
    undefined. *)
Fixpoint find_bin (fuel : nat) (h : heap) (e : Event) (prev : nat) (curr : option nat)
    : outcome (nat * option nat) :=
  match fuel, curr with
  | _, None => Ok (prev, None)
  | O, Some _ => Err Undefined
  | S fuel, Some c =>
      let! ec := load h c in
      if ev_lt ec e then find_bin fuel h e c (nextBin ec) else Ok (prev, Some c)
  end.

(** As many steps as there are events. *)
Definition loop_bound (h : heap) : nat := S (stdpp.base.size h).

Definition insert (h : heap) (head : option nat) (event : nat) : outcome (heap * option nat) :=
  let! e := load h event in
  match head with
  | None => let! (h, p) := insertBefore h event None in Ok (h, Some p)
  | Some hd =>
      let! eh := load h hd in
      if ev_le e eh then let! (h, p) := insertBefore h event (Some hd) in Ok (h, Some p)
      else
        let! (prev, curr) := find_bin (loop_bound h) h e hd (nextBin eh) in
        let! (h, p) := insertBefore h event curr in
        let! h := store h prev (set_nextBin (Some p)) in
        Ok (h, Some hd)
  end.

(** [while (event != next)]: [curr] is the event whose [nextInBin] is [next]. *)
Fixpoint find_in_bin (fuel : nat) (h : heap) (event curr : nat) (next : option nat)
    : outcome (nat * nat) :=
  match next with
  | None => Err Panic
  | Some n =>
      if decide (n = event) then Ok (curr, n)
      else match fuel with
           | O => Err Undefined
           | S fuel => let! en := load h n in find_in_bin fuel h event n (nextInBin en)
           end
  end.

Definition removeItem (h : heap) (event top : nat) : outcome (heap * option nat) :=
  let! et := load h top in
  if decide (event = top) then
    match nextInBin et with
    | None => Ok (h, nextBin et)
    | Some n => let! h := store h n (set_nextBin (nextBin et)) in Ok (h, Some n)
    end
  else
    let! (curr, n) := find_in_bin (loop_bound h) h event top (nextInBin et) in
    let! en := load h n in
    let! h := store h curr (set_nextInBin (nextInBin en)) in
    Ok (h, Some top).

(** [self] is the queue that removes. *)
Definition remove (h : heap) (self : nat) (head : option nat) (event : nat)
    : outcome (heap * option nat) :=
  match head with
  | None => Err Panic
  | Some hd =>
      let! e := load h event in
      do! assert_ (bool_decide (queue e = Some self)) then
      let! eh := load h hd in
      if ev_eq eh e then removeItem h event hd
      else
        let! (prev, curr) := find_bin (loop_bound h) h e hd (nextBin eh) in
        match curr with
        | None => Err Panic
        | Some c =>
            let! ec := load h c in
            if ev_ne ec e then Err Panic
            else
              let! (h, p) := removeItem h event c in
              let! h := store h prev (set_nextBin p) in
              Ok (h, head)
        end
  end.

(** The first half of [serviceOne]: the head leaves the structure. *)
Definition pop_head (h : heap) (hd : nat) : outcome (heap * option nat) :=
  let! e := load h hd in
  let h := <[hd := with_flags (clear_flags (flags e) Scheduled) e]> h in
  match nextInBin e with
  | Some n => let! h := store h n (set_nextBin (nextBin e)) in Ok (h, Some n)
  | None => Ok (h, nextBin e)
  end.

(** The traversal of [dump] and [debugVerify]: the bins from [p] on, and in each
    bin from its top. *)
Fixpoint in_bin_walk (fuel : nat) (h : heap) (p : option nat) : outcome (list nat) :=
  match fuel, p with
  | _, None => Ok []
  | O, Some _ => Err Undefined
  | S fuel, Some x =>
      let! e := load h x in
      let! l := in_bin_walk fuel h (nextInBin e) in Ok (x :: l)
  end.

Fixpoint walk (fuel : nat) (h : heap) (p : option nat) : outcome (list nat) :=
  match fuel, p with
  | _, None => Ok []
  | O, Some _ => Err Undefined
  | S fuel, Some x =>
      let! b := in_bin_walk (loop_bound h) h p in
      let! e := load h x in
      let! l := walk fuel h (nextBin e) in Ok (b ++ l)
  end.

Definition contents (h : heap) (head : option nat) : outcome (list nat) :=
  walk (loop_bound h) h head.

(** The inner loop of [debugVerify], with the events seen and the time and
    priority so far: [None] is its [return false]. *)
Fixpoint verify_bin (fuel : nat) (h : heap) (p : option nat) (st : list nat * Z * Z)
    : outcome (option (list nat * Z * Z)) :=
  match fuel, p with
  | _, None => Ok (Some st)
  | O, Some _ => Err Undefined
  | S fuel, Some x =>
      let! e := load h x in
      let '(seen, time, priority) := st in
      if _when e <? time then Ok None
      else if (_when e =? time) && (_priority e <? priority) then Ok None
      else if bool_decide (x ∈ seen) then Ok None
      else verify_bin fuel h (nextInBin e) (x :: seen, _when e, _priority e)
  end.

Fixpoint verify_bins (fuel : nat) (h : heap) (p : option nat) (st : list nat * Z * Z)
    : outcome bool :=
  match fuel, p with
  | _, None => Ok true
  | O, Some _ => Err Undefined
  | S fuel, Some x =>
      let! r := verify_bin (loop_bound h) h p st in
      match r with
      | None => Ok false
      | Some st => let! e := load h x in verify_bins fuel h (nextBin e) st
      end
  end.

Definition debugVerify (h : heap) (head : option nat) : outcome bool :=
  verify_bins (loop_bound h) h head ([], 0, 0).

(** * The bins the structure stands for *)

#[local] Abbreviation key := (Z * Z)%type.
#[local] Abbreviation bins := (list (key * list nat)).

Definition evkey (e : Event) : key := (_when e, _priority e).

Definition klt (a b : key) : bool := (a.1 <? b.1) || ((a.1 =? b.1) && (a.2 <? b.2)).

Lemma ev_lt_key l r : ev_lt l r = klt (evkey l) (evkey r).
Proof. done. Qed.

Lemma ev_le_key l r : ev_le l r = negb (klt (evkey r) (evkey l)).
Proof. unfold ev_le, klt, evkey; simpl. zcases; simpl; lia. Qed.

Lemma ev_eq_key l r : ev_eq l r = bool_decide (evkey l = evkey r).
Proof.
  unfold ev_eq, evkey. case_bool_decide as H; zcases; simpl; try congruence.
Qed.

Lemma ev_ne_key l r : ev_ne l r = negb (bool_decide (evkey l = evkey r)).
Proof.
  unfold ev_ne, evkey. case_bool_decide as H; zcases; simpl; try congruence.
Qed.

Definition klt_rel (a b : key) : Prop := klt a b = true.

#[export] Instance klt_trans : Transitive klt_rel.
Proof. intros [a a'] [b b'] [c c']. unfold klt_rel, klt; simpl. zcases; simpl; try done; lia. Qed.

#[export] Instance klt_irrefl : Irreflexive klt_rel.
Proof. intros [a a']. unfold complement, klt_rel, klt; simpl. zcases; simpl; try done; lia. Qed.

Lemma klt_refl k : klt k k = false.
Proof. apply not_true_iff_false, (irreflexivity klt_rel). Qed.

Lemma klt_total a b : klt a b = false -> klt b a = false -> a = b.
Proof.
  destruct a, b. unfold klt; simpl. zcases; simpl; intros; try done; f_equal; lia.
Qed.

Lemma klt_asym a b : klt a b = true -> klt b a = false.
Proof. destruct a, b. unfold klt; simpl. zcases; simpl; try done; lia. Qed.

Lemma klt_le_trans a b c : klt a b = true -> klt c b = false -> klt a c = true.
Proof. destruct a, b, c. unfold klt; simpl. zcases; simpl; try done; lia. Qed.

(** The events of a bin below its top, all of key [k]. *)
Fixpoint in_bin (h : heap) (k : key) (p : option nat) (l : list nat) : Prop :=
  match l with
  | [] => p = None
  | x :: l => p = Some x /\ exists e, h !! x = Some e /\ evkey e = k /\ in_bin h k (nextInBin e) l
  end.

(** The bins from the top [p] on. *)
Fixpoint chain (h : heap) (p : option nat) (bs : bins) : Prop :=
  match bs with
  | [] => p = None
  | (k, b) :: bs =>
      exists x e l, b = x :: l /\ p = Some x /\ h !! x = Some e /\ evkey e = k /\
        in_bin h k (nextInBin e) l /\ chain h (nextBin e) bs
  end.

Definition elems (bs : bins) : list nat := concat bs.*2.

Lemma elems_cons k b bs : elems ((k, b) :: bs) = b ++ elems bs.
Proof. done. Qed.

Lemma elem_of_bins x k b bs : x ∈ elems ((k, b) :: bs) <-> x ∈ b \/ x ∈ elems bs.
Proof. rewrite elems_cons. apply elem_of_app. Qed.

(** A queue in order: strictly increasing keys, no event twice. *)
Definition sorted_bins (bs : bins) : Prop :=
  StronglySorted klt_rel bs.*1 /\ NoDup (elems bs).

(** ** What the operations do to the bins *)

Fixpoint bins_insert (k : key) (x : nat) (bs : bins) : bins :=
  match bs with
  | [] => [(k, [x])]
  | (k', b) :: bs' =>
      if klt k' k then (k', b) :: bins_insert k x bs'
      else if klt k k' then (k, [x]) :: bs
      else (k', x :: b) :: bs'
  end.

Definition put_bin (k : key) (b : list nat) (bs : bins) : bins :=
  match b with [] => bs | _ => (k, b) :: bs end.

Definition drop (x : nat) (l : list nat) : list nat := filter (.≠ x) l.

Fixpoint bins_remove (k : key) (x : nat) (bs : bins) : bins :=
  match bs with
  | [] => []
  | (k', b) :: bs =>
      if klt k' k then (k', b) :: bins_remove k x bs else put_bin k' (drop x b) bs
  end.

Definition bins_pop (bs : bins) : bins :=
  match bs with
  | (k, _ :: l) :: bs => put_bin k l bs
  | _ => bs
  end.

Lemma bins_insert_perm k x bs : elems (bins_insert k x bs) ≡ₚ x :: elems bs.
Proof.
  induction bs as [| [k' b] bs IH]; simpl; [done |].
  repeat case_match; rewrite ?elems_cons, ?IH; simpl; try done. by rewrite Permutation_middle.
Qed.

Lemma elem_of_put_bin y k b bs : y ∈ elems (put_bin k b bs) <-> y ∈ b \/ y ∈ elems bs.
Proof.
  unfold put_bin. destruct b; [| apply elem_of_bins].
  split; [auto | by intros [?%elem_of_nil |]].
Qed.

Lemma elem_of_bins_insert y k x bs : y ∈ elems (bins_insert k x bs) <-> y = x \/ y ∈ elems bs.
Proof. rewrite bins_insert_perm. apply elem_of_cons. Qed.

(** ** Frames *)

(** The part of an event that the structure reads. *)
Definition link (h : heap) (x : nat) : option (option nat * option nat * key) :=
  (fun e => (nextBin e, nextInBin e, evkey e)) <$> h !! x.

Lemma link_some h h' x e : link h' x = link h x -> h !! x = Some e ->
  exists e', h' !! x = Some e' /\ nextBin e' = nextBin e /\ nextInBin e' = nextInBin e /\
    evkey e' = evkey e.
Proof.
  unfold link. intros Hl He. rewrite He in Hl. simpl in Hl.
  destruct (h' !! x) as [e' |]; simplify_eq/=. exists e'. unfold evkey. split_and!; congruence.
Qed.

(** A bin does not read [nextBin]. *)
Lemma in_bin_frame h h' k p l :
  in_bin h k p l ->
  (forall x e, x ∈ l -> h !! x = Some e ->
    exists e', h' !! x = Some e' /\ nextInBin e' = nextInBin e /\ evkey e' = evkey e) ->
  in_bin h' k p l.
Proof.
  revert p. induction l as [| x l IH]; simpl; intros p; [done |].
  intros (-> & e & He & Hk & Hb) Hf. split; [done |].
  destruct (Hf x e) as (e' & He' & Hn & Hq); [set_solver | done |].
  exists e'. rewrite Hn, Hq. split_and!; auto. apply IH; [done |]. set_solver.
Qed.

Lemma in_bin_links h h' k p l :
  in_bin h k p l -> (forall x, x ∈ l -> link h' x = link h x) -> in_bin h' k p l.
Proof.
  intros Hb Hf. eapply in_bin_frame; [done |]. intros x e Hx He.
  destruct (link_some h h' x e) as (e' & ? & ? & ? & ?); eauto.
Qed.

Lemma chain_links h h' p bs :
  chain h p bs -> (forall x, x ∈ elems bs -> link h' x = link h x) -> chain h' p bs.
Proof.
  revert p. induction bs as [| [k b] bs IH]; simpl; intros p; [done |].
  intros (x & e & l & -> & -> & He & Hk & Hb & Hc) Hf.
  assert (forall y, y ∈ x :: l -> link h' y = link h y) as Hl
    by (intros y Hy; apply Hf, elem_of_bins; auto).
  destruct (link_some h h' x e) as (e' & He' & En & Ei & Ek); [apply Hl; left | done |].
  exists x, e', l. rewrite Ei, En, Ek. split_and!; auto.
  - eapply in_bin_links; [done |]. intros. apply Hl. by right.
  - apply IH; [done |]. intros. apply Hf, elem_of_bins. auto.
Qed.

Lemma in_bin_elem h k p l x : in_bin h k p l -> x ∈ l ->
  exists e, h !! x = Some e /\ evkey e = k.
Proof.
  revert p. induction l as [| y l IH]; simpl; intros p; [by intros _ ?%elem_of_nil |].
  intros (_ & e & He & Hk & Hb) [-> | Hx]%elem_of_cons; eauto.
Qed.

Lemma chain_elem h p bs x : chain h p bs -> x ∈ elems bs ->
  exists e b, h !! x = Some e /\ (evkey e, b) ∈ bs /\ x ∈ b.
Proof.
  revert p. induction bs as [| [k b] bs IH]; intros p; [by intros _ ?%elem_of_nil |].
  intros (y & e & l & -> & -> & He & Hk & Hb & Hc) [Hx | Hx]%elem_of_bins.
  - assert (exists e', h !! x = Some e' /\ evkey e' = k) as (e' & He' & Hk').
    { apply elem_of_cons in Hx as [-> | Hx]; eauto using in_bin_elem. }
    exists e', (y :: l). rewrite Hk'. split_and!; auto. left.
  - destruct (IH _ Hc Hx) as (e' & b' & ? & ? & ?).
    exists e', b'. split_and!; auto. by right.
Qed.

Lemma chain_dom h p bs x : chain h p bs -> x ∈ elems bs -> is_Some (h !! x).
Proof. intros Hc Hx. destruct (chain_elem _ _ _ _ Hc Hx) as (e & ? & -> & _). eauto. Qed.

(** Distinct events fit in the store: enough fuel for every loop. *)
Lemma chain_length h p bs : chain h p bs -> NoDup (elems bs) ->
  (length (elems bs) <= stdpp.base.size h)%nat.
Proof.
  intros Hc Hn. rewrite <- size_dom, <- (size_list_to_set (C := gset nat)) by done.
  apply subseteq_size. intros x Hx%elem_of_list_to_set.
  apply elem_of_dom. by eapply chain_dom.
Qed.

Lemma bins_length h p bs : chain h p bs -> (length bs <= length (elems bs))%nat.
Proof.
  revert p. induction bs as [| [k b] bs IH]; simpl; intros p; [lia |].
  intros (x & e & l & -> & _ & _ & _ & _ & Hc).
  rewrite elems_cons, length_app. specialize (IH _ Hc). simpl. lia.
Qed.

(** What the pointer operations leave alone: everything but the links. *)
Definition erase (e : Event) : Event := set_nextInBin None (set_nextBin None e).

Definition same_data (h h' : heap) : Prop := forall x, erase <$> h' !! x = erase <$> h !! x.

#[export] Instance same_data_equiv : Equivalence same_data.
Proof.
  split; unfold same_data; [done | by intros h h' H x; rewrite H |].
  intros h1 h2 h3 H H' x. by rewrite H', H.
Qed.

Lemma same_data_insert h x e e' :
  h !! x = Some e -> erase e' = erase e -> same_data h (<[x := e']> h).
Proof.
  intros Hx He y. destruct (decide (y = x)) as [-> |].
  - rewrite lookup_insert_eq, Hx. simpl. by rewrite He.
  - by rewrite lookup_insert_ne.
Qed.

Lemma same_data_some h h' x e' : same_data h h' -> h' !! x = Some e' ->
  exists e, h !! x = Some e /\ erase e' = erase e.
Proof.
  intros Hs Hx. specialize (Hs x). rewrite Hx in Hs. destruct (h !! x) as [e |]; simpl in Hs; [| done].
  exists e. split; [done | congruence].
Qed.

(** The links of events other than [x] after a write to [x]. *)
Lemma link_insert_ne h x e y : y ≠ x -> link (<[x := e]> h) y = link h y.
Proof. intros. unfold link. by rewrite lookup_insert_ne. Qed.

Lemma load_some h x e : h !! x = Some e -> load h x = Ok e.
Proof. unfold load. by intros ->. Qed.

Lemma store_some h x e f : h !! x = Some e -> store h x f = Ok (<[x := f e]> h).
Proof. unfold store. intros H. by rewrite (load_some _ _ _ H). Qed.

Lemma chain_insert_ne h p bs x e : chain h p bs -> x ∉ elems bs -> chain (<[x := e]> h) p bs.
Proof.
  intros Hc Hx. eapply chain_links; [done |]. intros y Hy.
  apply link_insert_ne. by intros ->.
Qed.

Lemma in_bin_insert_ne h k p l x e : in_bin h k p l -> x ∉ l -> in_bin (<[x := e]> h) k p l.
Proof.
  intros Hc Hx. eapply in_bin_links; [done |]. intros y Hy.
  apply link_insert_ne. by intros ->.
Qed.

(** ** Insertion before a bin *)

Lemma insertBefore_spec h c bs x e :
  chain h c bs -> h !! x = Some e -> x ∉ elems bs ->
  (forall k b bs', bs = (k, b) :: bs' -> klt k (evkey e) = false) ->
  exists e', insertBefore h x c = Ok (<[x := e']> h, x) /\ erase e' = erase e /\
    chain (<[x := e']> h) (Some x) (bins_insert (evkey e) x bs).
Proof.
  intros Hc He Hx Hk. unfold insertBefore. rewrite (load_some _ _ _ He).
  destruct bs as [| [k b] bs].
  { simpl in Hc. subst c. eexists. split_and!; [done | done |].
    exists x. eexists _, []. rewrite lookup_insert_eq. split_and!; done. }
  assert (klt k (evkey e) = false) as Hk' by eauto.
  pose proof Hc as Hc'.
  destruct Hc as (y & ey & l & -> & -> & Hy & Hky & Hb & Hc).
  rewrite elem_of_bins in Hx. cbn [obind]. rewrite (load_some _ _ _ Hy). cbn [obind].
  rewrite ev_lt_key, Hky. simpl bins_insert. rewrite Hk'.
  assert (y ≠ x) as Hne by (intros ->; apply Hx; left; left).
  destruct (klt (evkey e) k) eqn:Hlt; (eexists; split_and!; [done | done |]).
  - exists x. eexists _, []. rewrite lookup_insert_eq. split_and!; try done.
    apply chain_insert_ne; [done |]. by rewrite elem_of_bins.
  - exists x. eexists _, (y :: l). rewrite lookup_insert_eq. split_and!; try done.
    + by rewrite (klt_total k (evkey e)).
    + simpl. split; [done |]. exists ey. rewrite lookup_insert_ne by done.
      split_and!; [done | done |]. apply in_bin_insert_ne; [done |].
      intros H. apply Hx. left. by right.
    + apply chain_insert_ne; [done |]. auto.
Qed.

(** ** The walk along the bins *)

Lemma elems_app bs1 bs2 : elems (bs1 ++ bs2) = elems bs1 ++ elems bs2.
Proof. unfold elems. by rewrite fmap_app, concat_app. Qed.

(** The chain after a change behind the top [q]: the bins up to [q] stay. *)
Lemma chain_splice h h' p pre k q l post eq c post' :
  chain h p (pre ++ (k, q :: l) :: post) -> h !! q = Some eq ->
  h' !! q = Some (set_nextBin c eq) ->
  (forall y, y ∈ elems pre \/ y ∈ l -> link h' y = link h y) ->
  chain h' c post' -> chain h' p (pre ++ (k, q :: l) :: post').
Proof.
  revert p. induction pre as [| [k1 b1] pre IH]; simpl; intros p.
  - intros (? & e & ? & [= <- <-] & -> & He & Hk & Hb & _) Hq Hq' Hf Hc'.
    assert (e = eq) as -> by congruence.
    exists q, (set_nextBin c eq), l. split_and!; auto.
    eapply in_bin_links; eauto.
  - intros (x & e & l1 & -> & -> & He & Hk & Hb & Hc) Hq Hq' Hf Hc'.
    assert (forall y, y ∈ x :: l1 -> link h' y = link h y) as Hl
      by (intros; apply Hf; left; apply elem_of_bins; auto).
    destruct (link_some h h' x e) as (e' & He' & En & Ei & Ek); [apply Hl; left | done |].
    exists x, e', l1. rewrite En, Ei, Ek. split_and!; auto.
    + eapply in_bin_links; [done |]. intros. apply Hl. by right.
    + apply IH; auto. intros y Hy. apply Hf. rewrite elem_of_bins. tauto.
Qed.

Definition before (e : Event) (kb : key * list nat) : Prop := klt kb.1 (evkey e) = true.

(** [find_bin] stops behind the last bin before [e]. *)
Lemma find_bin_spec h e fuel p ep kp l bs :
  chain h (Some p) ((kp, p :: l) :: bs) -> h !! p = Some ep -> klt kp (evkey e) = true ->
  (length bs <= fuel)%nat ->
  exists pre kq q lq post eq,
    (kp, p :: l) :: bs = pre ++ (kq, q :: lq) :: post /\
    find_bin fuel h e p (nextBin ep) = Ok (q, nextBin eq) /\
    h !! q = Some eq /\ chain h (nextBin eq) post /\
    Forall (before e) pre /\ klt kq (evkey e) = true /\
    (forall k b post', post = (k, b) :: post' -> klt k (evkey e) = false).
Proof.
  revert fuel p ep kp l. induction bs as [| [k b] bs IH]; intros fuel p ep kp l Hc Hp Hkp Hfuel.
  all: pose proof Hc as (? & ep' & ? & [= <- <-] & _ & Hp' & _ & Hb & Hcs).
  all: assert (ep' = ep) as -> by congruence.
  { exists [], kp, p, l, [], ep. rewrite Hcs. destruct fuel; split_and!; done. }
  pose proof Hcs as (c & ec & lc & -> & Hn & Hec & Hkc & Hbc & Hcc).
  destruct fuel as [| fuel]; simpl in Hfuel; [lia |].
  rewrite Hn. cbn [find_bin]. rewrite (load_some _ _ _ Hec). cbn [obind].
  rewrite ev_lt_key, Hkc. destruct (klt k (evkey e)) eqn:Hlt.
  - destruct (IH fuel c ec k lc) as (pre & kq & q & lq & post & eq & -> & Hf & Hq & Hpost & Hpre & Hkq & Hst);
      [by rewrite <- Hn | done | done | lia |].
    exists ((kp, p :: l) :: pre), kq, q, lq, post, eq. split_and!; try done. by constructor.
  - exists [], kp, p, l, ((k, c :: lc) :: bs), ep. rewrite Hn.
    split_and!; try done; [by rewrite <- Hn | by intros ??? [= <- <- <-]].
Qed.

(** [find_bin] stops in any chain. *)
Lemma find_bin_total h e fuel prev p bs :
  chain h p bs -> (length bs <= fuel)%nat ->
  exists q curr pre post, find_bin fuel h e prev p = Ok (q, curr) /\ bs = pre ++ post /\
    chain h curr post.
Proof.
  revert fuel prev p. induction bs as [| [k b] bs IH]; intros fuel prev p Hc Hfuel.
  - exists prev, None, [], []. simpl in Hc. subst p. by destruct fuel.
  - pose proof Hc as (c & ec & lc & -> & -> & Hec & _ & _ & Hcc).
    destruct fuel as [| fuel]; simpl in Hfuel; [lia |].
    cbn [find_bin]. rewrite (load_some _ _ _ Hec). cbn [obind]. destruct (ev_lt ec e).
    + destruct (IH fuel c (nextBin ec)) as (q & curr & pre & post & Hf & -> & Hp); [done | lia |].
      by exists q, curr, ((k, c :: lc) :: pre), post.
    + by exists prev, (Some c), [], ((k, c :: lc) :: bs).
Qed.

Lemma bins_insert_before e x pre post : Forall (before e) pre ->
  bins_insert (evkey e) x (pre ++ post) = pre ++ bins_insert (evkey e) x post.
Proof. induction 1 as [| [k b] pre Hk Hpre IH]; simpl; [done |]. by rewrite Hk, IH. Qed.

Lemma bins_remove_before e x pre post : Forall (before e) pre ->
  bins_remove (evkey e) x (pre ++ post) = pre ++ bins_remove (evkey e) x post.
Proof. induction 1 as [| [k b] pre Hk Hpre IH]; simpl; [done |]. by rewrite Hk, IH. Qed.

(** The fuel of the loops is enough. *)
Lemma loop_bound_bins h p bs : chain h p bs -> NoDup (elems bs) ->
  (length bs <= loop_bound h)%nat /\ (length (elems bs) <= loop_bound h)%nat.
Proof.
  intros Hc Hnd. pose proof (chain_length _ _ _ Hc Hnd). pose proof (bins_length _ _ _ Hc).
  unfold loop_bound. lia.
Qed.

(** ** Insertion *)

(** The result of an operation on the queue [bs]: the new bins [bs'], with no
    change outside of [touched] and to nothing but links. *)
Definition relinked (h h' : heap) (touched : list nat) : Prop :=
  same_data h h' /\ forall y, y ∉ touched -> h' !! y = h !! y.

Lemma relinked_write h x e e' touched : h !! x = Some e -> erase e' = erase e -> x ∈ touched ->
  relinked h (<[x := e']> h) touched.
Proof.
  intros He Hee Hx. split; [by eapply same_data_insert |].
  intros y Hy. rewrite lookup_insert_ne; [done |]. by intros ->.
Qed.

Lemma relinked_trans h1 h2 h3 touched :
  relinked h1 h2 touched -> relinked h2 h3 touched -> relinked h1 h3 touched.
Proof.
  intros [H1 H2] [H3 H4]. split; [by transitivity h2 |]. intros y Hy. by rewrite H4, H2.
Qed.

Lemma relinked_mono h h' t t' : relinked h h' t -> t ⊆ t' -> relinked h h' t'.
Proof. intros [Hs Hf] Ht. split; [done |]. intros y Hy. apply Hf. auto. Qed.

(** [insert] puts an event that is not in the queue into its place. *)
Lemma insert_spec h hd bs x e :
  chain h hd bs -> NoDup (elems bs) -> h !! x = Some e -> x ∉ elems bs ->
  exists h' hd', insert h hd x = Ok (h', hd') /\
    chain h' hd' (bins_insert (evkey e) x bs) /\ relinked h h' (x :: elems bs).
Proof.
  intros Hc Hnd He Hx. unfold insert. rewrite (load_some _ _ _ He). cbn [obind].
  assert ((forall k b bs', bs = (k, b) :: bs' -> klt k (evkey e) = false) ->
    exists h' hd', (let! (h, p) := insertBefore h x hd in Ok (h, Some p)) = Ok (h', hd') /\
      chain h' hd' (bins_insert (evkey e) x bs) /\ relinked h h' (x :: elems bs)) as Hhead.
  { intros Hk. destruct (insertBefore_spec h hd bs x e) as (e' & -> & Hee & Hch); auto.
    eexists _, _. split_and!; [done | done |]. eapply relinked_write; [done | done | left]. }
  destruct bs as [| [k b] bs].
  { simpl in Hc. subst hd. by apply Hhead. }
  pose proof Hc as (p & ep & l & -> & -> & Hp & Hk & Hb & Hcs).
  rewrite (load_some _ _ _ Hp). cbn [obind]. rewrite ev_le_key, Hk.
  destruct (klt k (evkey e)) eqn:Hlt; simpl negb; cbn match;
    [clear Hhead | by apply Hhead; intros ??? [= <- <- <-]].
  destruct (find_bin_spec h e (loop_bound h) p ep k l bs)
    as (pre & kq & q & lq & post & eq & Heq & -> & Hq & Hpost & Hpre & Hkq & Hst); auto.
  { pose proof (loop_bound_bins _ _ _ Hc Hnd). simpl in *. lia. }
  rewrite Heq in *. rewrite elems_app, elems_cons in Hnd, Hx. cbn [obind].
  assert (x ∉ elems post /\ q ≠ x) as [Hxp Hne] by set_solver.
  assert (q ∉ elems pre /\ q ∉ lq /\ q ∉ elems post) as (Hqpre & Hql & Hqp).
  { rewrite NoDup_app in Hnd. destruct Hnd as (_ & Hd & Hn). simpl in Hn.
    apply NoDup_cons in Hn as [Hn _]. rewrite elem_of_app in Hn. split; [| tauto].
    intros Hin. apply (Hd _ Hin). left. }
  destruct (insertBefore_spec h (nextBin eq) post x e) as (e' & -> & Hee & Hch); auto.
  cbn [obind]. rewrite (store_some _ q eq) by (by rewrite lookup_insert_ne). cbn [obind].
  eexists _, _. split; [done |]. split.
  - rewrite bins_insert_before by done. simpl. rewrite Hkq.
    eapply chain_splice; [done | done | by rewrite lookup_insert_eq | |].
    + intros y Hy. rewrite !link_insert_ne; [done | |]; intros ->; [set_solver | tauto].
    + apply chain_insert_ne; [done |]. rewrite elem_of_bins_insert. tauto.
  - rewrite elems_app, elems_cons. apply relinked_trans with (<[x := e']> h).
    + eapply relinked_write; [done | done | left].
    + eapply relinked_write; [by rewrite lookup_insert_ne | done |]. set_solver.
Qed.

(** ** Removal *)

Lemma drop_absent x l : x ∉ l -> drop x l = l.
Proof.
  unfold drop. induction l as [| y l IH]; [done |]. intros Hx.
  rewrite filter_cons_True by set_solver. f_equal. apply IH. set_solver.
Qed.

Lemma drop_cons_ne x y l : y ≠ x -> drop x (y :: l) = y :: drop x l.
Proof. intros. unfold drop. by rewrite filter_cons_True. Qed.

Lemma drop_cons_eq x l : x ∉ l -> drop x (x :: l) = l.
Proof. intros. unfold drop. rewrite filter_cons_False by auto. by apply drop_absent. Qed.

Lemma elem_of_drop x y l : y ∈ drop x l <-> y ≠ x /\ y ∈ l.
Proof. unfold drop. by rewrite list_elem_of_filter. Qed.

(** The search below [c] finds [x], and [c] leads to the rest of the bin once the
    event before [x] skips it. *)
Lemma find_in_bin_spec h k x fuel c ec l :
  in_bin h k (nextInBin ec) l -> x ∈ l -> NoDup (c :: l) -> h !! c = Some ec ->
  (length l <= fuel)%nat ->
  exists curr en ecurr,
    find_in_bin fuel h x c (nextInBin ec) = Ok (curr, x) /\
    h !! x = Some en /\ h !! curr = Some ecurr /\ curr ∈ c :: l /\
    let h' := <[curr := set_nextInBin (nextInBin en) ecurr]> h in
    exists ec', h' !! c = Some ec' /\ nextBin ec' = nextBin ec /\ evkey ec' = evkey ec /\
      in_bin h' k (nextInBin ec') (drop x l).
Proof.
  revert fuel c ec. induction l as [| y l IH]; intros fuel c ec; [by intros _ ?%elem_of_nil |].
  intros (Hy & ey & Hey & Hky & Hb) Hx [Hc Hnd]%NoDup_cons Hec Hfuel. rewrite Hy.
  apply NoDup_cons in Hnd as Hnd'. destruct Hnd' as [Hyl _].
  destruct (decide (y = x)) as [-> | Hne].
  - exists c, ey, ec. split_and!; [by destruct fuel; simpl; rewrite decide_True | done | done | left |].
    eexists. rewrite lookup_insert_eq. split_and!; [done | done | done |]. simpl.
    rewrite drop_cons_eq by done. apply in_bin_insert_ne; [done |]. set_solver.
  - destruct fuel as [| fuel]; simpl in Hfuel; [lia |].
    cbn [find_in_bin]. rewrite decide_False, (load_some _ _ _ Hey) by done. cbn [obind].
    destruct (IH fuel y ey) as (curr & en & ecurr & Hf & Hen & Hcu & Hin & ey' & Hey' & Hn' & Hk' & Hb');
      auto; [by apply elem_of_cons in Hx as [-> |] | lia |].
    exists curr, en, ecurr. split_and!; auto; [by right |].
    assert (c ≠ curr) as Hcc by (intros ->; done).
    exists ec. rewrite lookup_insert_ne by done. split_and!; auto.
    rewrite drop_cons_ne by done. rewrite Hy. split; [done |].
    exists ey'. split_and!; auto. by rewrite Hk'.
Qed.

Lemma find_in_bin_absent h k x fuel c p l :
  in_bin h k p l -> x ∉ l -> (length l <= fuel)%nat -> find_in_bin fuel h x c p = Err Panic.
Proof.
  revert fuel c p. induction l as [| y l IH]; intros fuel c p.
  - intros ->. by destruct fuel.
  - intros (-> & ey & Hey & Hky & Hb) Hx Hfuel.
    destruct fuel as [| fuel]; simpl in Hfuel; [lia |].
    cbn [find_in_bin]. rewrite decide_False, (load_some _ _ _ Hey) by set_solver.
    cbn [obind]. apply IH; [done | set_solver | lia].
Qed.

Lemma loop_bound_bin h p k t l bs :
  chain h p ((k, t :: l) :: bs) -> NoDup (elems ((k, t :: l) :: bs)) ->
  (length l <= loop_bound h)%nat.
Proof.
  intros Hc Hnd. destruct (loop_bound_bins _ _ _ Hc Hnd) as [_ Hl].
  rewrite elems_cons, length_app in Hl. simpl in Hl. lia.
Qed.

Lemma removeItem_spec h k t l bs x :
  chain h (Some t) ((k, t :: l) :: bs) -> NoDup (elems ((k, t :: l) :: bs)) -> x ∈ t :: l ->
  exists h' p, removeItem h x t = Ok (h', p) /\
    chain h' p (put_bin k (drop x (t :: l)) bs) /\ relinked h h' (t :: l).
Proof.
  intros Hc Hnd Hx. pose proof (loop_bound_bin _ _ _ _ _ _ Hc Hnd) as Hfuel.
  destruct Hc as (? & et & ? & [= <- <-] & _ & Ht & Hk & Hb & Hc).
  rewrite elems_cons in Hnd. apply NoDup_app in Hnd as (Hl & Hd & _).
  apply NoDup_cons in Hl as Hl'. destruct Hl' as [Htl Hll].
  unfold removeItem. rewrite (load_some _ _ _ Ht). cbn [obind].
  destruct (decide (x = t)) as [-> | Hne].
  - rewrite drop_cons_eq by done. destruct l as [| n l]; simpl in Hb.
    + rewrite Hb. eexists _, _. split_and!; [done | done |]. split; [done | done].
    + destruct Hb as (-> & en & Hen & Hkn & Hb). rewrite (store_some _ _ _ _ Hen). cbn [obind].
      eexists _, _. split_and!; [done | | eapply relinked_write; [done | done | right; left]].
      apply NoDup_cons in Hll as [Hnl _].
      exists n. eexists _, l. rewrite lookup_insert_eq. split_and!; try done.
      * by apply in_bin_insert_ne.
      * apply chain_insert_ne; [done |]. apply Hd. right. left.
  - apply elem_of_cons in Hx as [-> | Hx]; [done |].
    destruct (find_in_bin_spec h k x (loop_bound h) t et l)
      as (curr & en & ecurr & -> & Hen & Hcu & Hin & et' & Ht' & Hn' & Hk' & Hb'); auto.
    cbn [obind]. rewrite (load_some _ _ _ Hen). cbn [obind].
    rewrite (store_some _ _ _ _ Hcu). cbn [obind].
    eexists _, _. split_and!; [done | | eapply relinked_write; done].
    rewrite drop_cons_ne by auto. exists t, et', (drop x l).
    split_and!; auto; [by rewrite Hk' |]. rewrite Hn'. apply chain_insert_ne; auto.
Qed.

Lemma removeItem_absent h k t l bs x :
  chain h (Some t) ((k, t :: l) :: bs) -> NoDup (elems ((k, t :: l) :: bs)) -> x ∉ t :: l ->
  removeItem h x t = Err Panic.
Proof.
  intros Hc Hnd Hx. pose proof (loop_bound_bin _ _ _ _ _ _ Hc Hnd) as Hfuel.
  destruct Hc as (? & et & ? & [= <- <-] & _ & Ht & Hk & Hb & Hc).
  unfold removeItem. rewrite (load_some _ _ _ Ht). cbn [obind].
  rewrite decide_False by set_solver.
  by rewrite (find_in_bin_absent h k x (loop_bound h) t _ l) by set_solver.
Qed.

Lemma sorted_keys_head (k : key) (b : list nat) k0 b0 bs :
  StronglySorted klt_rel ((k0, b0) :: bs).*1 -> (k, b) ∈ (k0, b0) :: bs -> klt k0 k = false ->
  k0 = k /\ b0 = b.
Proof.
  simpl. intros Hs%StronglySorted_inv Hin Hk. destruct Hs as [_ Hf].
  apply elem_of_cons in Hin as [[= -> ->] | Hin]; [done |].
  rewrite List.Forall_forall in Hf. exfalso.
  assert (klt_rel k0 k) as Hlt; [| unfold klt_rel in Hlt; congruence].
  apply Hf. apply list_elem_of_In. apply list_elem_of_fmap. by exists (k, b).
Qed.

Lemma sorted_app_r (bs1 bs2 : bins) :
  StronglySorted klt_rel (bs1 ++ bs2).*1 -> StronglySorted klt_rel bs2.*1.
Proof.
  induction bs1 as [| kb bs1 IH]; simpl; [done |]. intros [? _]%StronglySorted_inv. auto.
Qed.

Lemma before_not_in e (b : list nat) pre : Forall (before e) pre -> (evkey e, b) ∉ pre.
Proof.
  intros Hf Hin. rewrite Forall_forall in Hf. specialize (Hf _ Hin).
  unfold before in Hf. simpl in Hf. by apply (irreflexivity klt_rel (evkey e)).
Qed.

(** Events of one key are in one bin. *)
Lemma bin_of_key h p bs k b x e :
  chain h p bs -> (k, b) ∈ bs -> x ∈ b -> h !! x = Some e -> evkey e = k.
Proof.
  revert p. induction bs as [| [k' b'] bs IH]; intros p; [by intros _ ?%elem_of_nil |].
  intros (y & ey & l & -> & _ & Hy & Hk & Hb & Hc) [[= -> ->] | Hin]%elem_of_cons Hx He; [| eauto].
  apply elem_of_cons in Hx as [-> | Hx]; [congruence |].
  destruct (in_bin_elem _ _ _ _ _ Hb Hx) as (e' & ? & ?). congruence.
Qed.

Section Remove.
  Context (h : heap) (hd : option nat) (bs : bins) (x : nat) (e : Event).
  Hypothesis Hc : chain h hd bs.
  Hypothesis Hs : sorted_bins bs.

(** The bin of the key of [x], when it is not the first: [find_bin] stops at it. *)
Lemma locate_bin p k l bs' ep b :
  bs = (k, p :: l) :: bs' -> h !! p = Some ep -> k ≠ evkey e -> (evkey e, b) ∈ bs ->
  exists pre kq q lq c lc post eq ec,
    bs = pre ++ (kq, q :: lq) :: (evkey e, c :: lc) :: post /\ b = c :: lc /\
    find_bin (loop_bound h) h e p (nextBin ep) = Ok (q, Some c) /\
    h !! q = Some eq /\ h !! c = Some ec /\ evkey ec = evkey e /\
    Forall (before e) pre /\ klt kq (evkey e) = true /\
    chain h (Some c) ((evkey e, c :: lc) :: post).
Proof using Hc Hs.
  intros Hbs Hp Hne Hin. destruct Hs as [Hsort Hnd].
  pose proof (loop_bound_bins _ _ _ Hc Hnd) as [Hfuel _].
  pose proof Hc as Hc'. rewrite Hbs in Hc', Hsort, Hin, Hfuel. pose proof Hc' as (? & ? & ? & [= <- <-] & -> & _).
  assert (klt k (evkey e) = true) as Hlt.
  { destruct (klt k (evkey e)) eqn:E; [done |].
    by destruct (sorted_keys_head (evkey e) b k (p :: l) bs') as [-> _]. }
  destruct (find_bin_spec h e (loop_bound h) p ep k l bs')
    as (pre & kq & q & lq & post & eq & Heqb & Hf & Hqe & Hpost & Hpre & Hkq & Hst); auto.
  { simpl in Hfuel. lia. }
  rewrite Heqb in Hin, Hsort. rewrite Hbs, Heqb. assert ((evkey e, b) ∈ post) as Hinp.
  { apply elem_of_app in Hin as [Hin | Hin]; [by apply before_not_in in Hin |].
    apply elem_of_cons in Hin as [[= <- ->] | Hin]; [| done].
    by rewrite klt_refl in Hkq. }
  destruct post as [| [k1 b1] post]; [by apply elem_of_nil in Hinp |].
  apply sorted_app_r in Hsort as Hsp. simpl in Hsp. apply StronglySorted_inv in Hsp as [Hsp _].
  destruct (sorted_keys_head (evkey e) b k1 b1 post) as [-> ->]; [done | done | by eapply Hst |].
  pose proof Hpost as (c & ec & lc & -> & Hn & Hec & Hkc & _).
  rewrite Hn in Hf, Hpost. by exists pre, kq, q, lq, c, lc, post, eq, ec.
Qed.

(** Taking [x] out of a bin behind the top [q]. *)
Lemma unlink_behind pre kq q lq c lc post eq :
  bs = pre ++ (kq, q :: lq) :: (evkey e, c :: lc) :: post ->
  h !! q = Some eq -> Forall (before e) pre -> klt kq (evkey e) = true ->
  chain h (Some c) ((evkey e, c :: lc) :: post) -> x ∈ c :: lc ->
  exists h1 p1 h', removeItem h x c = Ok (h1, p1) /\ store h1 q (set_nextBin p1) = Ok h' /\
    chain h' hd (bins_remove (evkey e) x bs) /\ relinked h h' (elems bs).
Proof using Hc Hs.
  intros Hbs Hqe Hpre Hkq Hcc Hx. destruct Hs as [_ Hnd]. pose proof Hc as Hc'. rewrite Hbs in *.
  rewrite elems_app, !elems_cons in Hnd. apply NoDup_app in Hnd as (_ & Hdpre & Hnd).
  apply NoDup_app in Hnd as (Hnq & Hdq & Hnd). apply NoDup_cons in Hnq as [Hql _].
  destruct (removeItem_spec h (evkey e) c lc post x) as (h1 & p1 & Hrm & Hch & Hsd & Hfr); auto.
  assert (forall y, y ∈ elems pre \/ y ∈ q :: lq -> h1 !! y = h !! y) as Hold.
  { intros y Hy. apply Hfr. intros Hyc. destruct Hy as [Hy | Hy].
    - apply (Hdpre y Hy). rewrite !elem_of_app. auto.
    - apply (Hdq y Hy). rewrite elem_of_app. auto. }
  assert (h1 !! q = Some eq) as Hq1 by (rewrite Hold; [done | right; left]).
  exists h1, p1. eexists. split; [done |]. split; [by apply store_some |]. split.
  - rewrite bins_remove_before by done. simpl bins_remove. rewrite Hkq, klt_refl.
    eapply chain_splice; [done | done | by rewrite lookup_insert_eq | |].
    + intros y Hy. rewrite link_insert_ne.
      { unfold link. rewrite Hold; [done |]. rewrite elem_of_cons. tauto. }
      intros ->. destruct Hy as [Hy | Hy]; [| done]. apply (Hdpre q Hy). left.
    + apply chain_insert_ne; [done |]. intros Hin'. apply (Hdq q); [left |].
      apply elem_of_app. apply elem_of_put_bin in Hin' as [Hin' |]; [left | by right].
      by apply elem_of_drop in Hin' as [_ ?].
  - apply relinked_trans with h1.
    + eapply relinked_mono; [by split |]. rewrite elems_app, !elems_cons.
      intros y Hy. rewrite !elem_of_app. auto.
    + eapply relinked_write; [done | done |]. rewrite elems_app, elems_cons, !elem_of_app.
      right. left. left.
Qed.

End Remove.

(** [remove] takes an event of the queue out of its bin. *)
Lemma remove_spec h self hd bs x e :
  chain h hd bs -> sorted_bins bs -> h !! x = Some e -> queue e = Some self -> x ∈ elems bs ->
  exists h' hd', remove h self hd x = Ok (h', hd') /\
    chain h' hd' (bins_remove (evkey e) x bs) /\ relinked h h' (elems bs).
Proof.
  intros Hc Hs He Hq Hx. destruct (chain_elem _ _ _ _ Hc Hx) as (e0 & b & He0 & Hin & Hxb).
  assert (e0 = e) as -> by congruence.
  destruct bs as [| [k b0] bs'] eqn:Ebs; [by apply elem_of_nil in Hx |]. rewrite <- Ebs in Hc, Hs, Hin |- *.
  pose proof Hc as Hc'. rewrite Ebs in Hc'. destruct Hc' as (p & ep & l & -> & Ehd & Hp & Hk & _).
  unfold remove. rewrite Ehd, (load_some _ _ _ He). cbn [obind].
  rewrite bool_decide_true, (load_some _ _ _ Hp) by done.
  cbn [obind assert_]. rewrite ev_eq_key, Hk. case_bool_decide as Heq.
  - destruct Hs as [Hsort Hnd]. rewrite Ebs, Ehd in Hc. rewrite Ebs in Hsort, Hnd, Hin |- *.
    destruct (sorted_keys_head (evkey e) b k (p :: l) bs') as [_ Hbb]; auto.
    { rewrite Heq. apply klt_refl. }
    destruct (removeItem_spec h k p l bs' x) as (h' & p' & -> & Hch & Hr); auto; [by rewrite Hbb |].
    exists h', p'. simpl bins_remove. rewrite <- Heq, klt_refl.
    split_and!; auto. eapply relinked_mono; [done |]. intros y Hy. apply elem_of_bins. auto.
  - destruct (locate_bin h hd bs e Hc Hs p k l bs' ep b)
      as (pre & kq & q & lq & c & lc & post & eq & ec & Hbs & -> & -> & Hqe & Hec & Hkc & Hpre & Hkq & Hcc); auto.
    cbn [obind]. rewrite (load_some _ _ _ Hec). cbn [obind].
    rewrite ev_ne_key, Hkc, bool_decide_true by done. simpl negb. cbn match.
    destruct (unlink_behind h hd bs x e Hc Hs pre kq q lq c lc post eq) as (h1 & p1 & h' & -> & Hst & Hch & Hr); auto.
    cbn [obind]. rewrite Hst. cbn [obind]. rewrite Ehd in Hch. eauto 6.
Qed.

(** [remove] of an event that is not in the queue stops the simulation. *)
Lemma remove_absent h self hd bs x e :
  chain h hd bs -> sorted_bins bs -> h !! x = Some e -> queue e = Some self -> x ∉ elems bs ->
  remove h self hd x = Err Panic.
Proof.
  intros Hc Hs He Hq Hx. destruct Hs as [_ Hnd].
  destruct bs as [| [k b0] bs'] eqn:Ebs; [simpl in Hc; by rewrite Hc |].
  pose proof Hc as (p & ep & l & -> & Ehd & Hp & Hk & Hb & Hcs). rewrite Ehd in Hc.
  unfold remove. rewrite Ehd, (load_some _ _ _ He). cbn [obind].
  rewrite bool_decide_true, (load_some _ _ _ Hp) by done.
  cbn [obind assert_]. rewrite ev_eq_key, Hk. case_bool_decide as Heq.
  { apply (removeItem_absent h k p l bs'); auto. rewrite elem_of_bins in Hx. tauto. }
  pose proof (loop_bound_bins _ _ _ Hc Hnd) as [Hfuel _].
  destruct (find_bin_total h e (loop_bound h) p (nextBin ep) bs') as (q & curr & pre & post & -> & -> & Hpost);
    [done | simpl in Hfuel; lia |].
  cbn [obind]. destruct post as [| [k1 b1] post]; [simpl in Hpost; by rewrite Hpost |].
  pose proof Hpost as (c & ec & lc & -> & -> & Hec & Hkc & _).
  rewrite (load_some _ _ _ Hec). cbn [obind]. destruct (ev_ne ec e); [done |].
  rewrite elems_cons, elems_app in Hnd, Hx. apply NoDup_app in Hnd as (_ & _ & Hnd).
  apply NoDup_app in Hnd as (_ & _ & Hnd).
  rewrite (removeItem_absent h k1 c lc post); auto.
  rewrite !elem_of_app, elem_of_bins in Hx. tauto.
Qed.

(** ** Removal of the head *)

Lemma pop_head_spec h hd bs :
  chain h (Some hd) bs -> NoDup (elems bs) ->
  exists e h' p, h !! hd = Some e /\ pop_head h hd = Ok (h', p) /\
    chain h' p (bins_pop bs) /\ elems bs = hd :: elems (bins_pop bs) /\
    relinked (<[hd := with_flags (clear_flags (flags e) Scheduled) e]> h) h' (elems bs).
Proof.
  destruct bs as [| [k b] bs]; [done |].
  intros (? & e & l & -> & [= <-] & Ht & Hk & Hb & Hc) Hnd.
  rewrite elems_cons in Hnd. apply NoDup_app in Hnd as (Hl & Hd & _).
  apply NoDup_cons in Hl as [Htl Hll]. assert (hd ∉ elems bs) by (apply Hd; left).
  set (h0 := <[hd := with_flags (clear_flags (flags e) Scheduled) e]> h).
  exists e. unfold pop_head. rewrite (load_some _ _ _ Ht). cbn [obind]. fold h0.
  simpl bins_pop. destruct l as [| n l]; simpl in Hb; simpl put_bin.
  - rewrite Hb. exists h0, (nextBin e). split_and!; try done. by apply chain_insert_ne.
  - destruct Hb as (-> & en & Hen & Hkn & Hb). apply NoDup_cons in Hll as [Hnl _].
    assert (h0 !! n = Some en) as Hn0 by (unfold h0; rewrite lookup_insert_ne; set_solver).
    rewrite (store_some _ _ _ _ Hn0). cbn [obind].
    eexists _, _. split_and!; try done.
    + exists n. eexists _, l. rewrite lookup_insert_eq. split_and!; try done.
      * apply in_bin_insert_ne; [| done]. apply in_bin_insert_ne; [done |]. set_solver.
      * apply chain_insert_ne; [by apply chain_insert_ne |]. apply Hd. right. left.
    + eapply relinked_write; [done | done |]. right. left.
Qed.

(** ** The operations keep the order *)

Lemma bins_insert_keys k x bs : Forall (fun k' => k' = k \/ k' ∈ bs.*1) (bins_insert k x bs).*1.
Proof.
  apply Forall_forall. intros k'. induction bs as [| [k0 b] bs IH]; simpl.
  - intros ->%list_elem_of_singleton. auto.
  - repeat case_match; simpl; rewrite !elem_of_cons; naive_solver.
Qed.

Lemma bins_insert_sorted k x bs :
  sorted_bins bs -> x ∉ elems bs -> sorted_bins (bins_insert k x bs).
Proof.
  intros [Hs Hn] Hx. split; [| rewrite bins_insert_perm; by constructor].
  clear Hn Hx. induction bs as [| [k0 b] bs IH]; simpl; [repeat constructor |].
  simpl in Hs. apply StronglySorted_inv in Hs as Hs'. destruct Hs' as [Hs' Hf].
  destruct (klt k0 k) eqn:E1; [| destruct (klt k k0) eqn:E2]; simpl.
  - constructor; [auto |]. apply List.Forall_forall. intros k' Hk'%list_elem_of_In.
    pose proof (bins_insert_keys k x bs) as Hk. rewrite Forall_forall in Hk.
    destruct (Hk _ Hk') as [-> | Hin]; [done |].
    rewrite List.Forall_forall in Hf. apply Hf. by apply list_elem_of_In.
  - constructor; [done |]. constructor; [done |].
    eapply List.Forall_impl; [| done]. intros k'. by transitivity k0.
  - done.
Qed.

Lemma bins_remove_sublist k x bs : (bins_remove k x bs).*1 `sublist_of` bs.*1.
Proof.
  induction bs as [| [k0 b] bs IH]; simpl; [done |]. case_match; simpl; [by constructor |].
  unfold put_bin. case_match; simpl; [by apply sublist_cons | done].
Qed.

Lemma StronglySorted_sublist (l l' : list key) :
  l `sublist_of` l' -> StronglySorted klt_rel l' -> StronglySorted klt_rel l.
Proof.
  induction 1 as [| k l l' Hsub IH | k l l' Hsub IH]; [done | |];
    intros [Hs Hf]%StronglySorted_inv; [| auto].
  constructor; [auto |]. rewrite List.Forall_forall in *. intros k' Hk'%list_elem_of_In.
  apply Hf, list_elem_of_In. by eapply elem_of_sublist.
Qed.

(** In a sorted queue the removal of an event by its key removes the event. *)
Lemma bins_remove_elems h p bs x e :
  chain h p bs -> sorted_bins bs -> h !! x = Some e -> x ∈ elems bs ->
  elems (bins_remove (evkey e) x bs) = drop x (elems bs).
Proof.
  intros Hc [Hs Hn] He. revert p Hc. induction bs as [| [k b] bs IH]; intros p Hc Hx; [done |].
  destruct (chain_elem _ _ _ _ Hc Hx) as (e' & b' & He' & Hin & Hxb').
  assert (e' = e) as -> by congruence.
  rewrite elems_cons in Hn. apply NoDup_app in Hn as (Hb & Hd & Hn).
  simpl in Hs. apply StronglySorted_inv in Hs as Hs'. destruct Hs' as [Hs' _].
  rewrite elems_cons. unfold drop. rewrite filter_app. fold (drop x b) (drop x (elems bs)).
  simpl bins_remove. destruct (klt k (evkey e)) eqn:Hk.
  - assert (x ∉ b) as Hxb.
    { intros Hxb. rewrite (bin_of_key _ _ _ k b x e Hc) in Hk; auto; [| left].
      by rewrite klt_refl in Hk. }
    rewrite elems_cons, drop_absent by done. f_equal.
    destruct Hc as (? & ? & ? & _ & _ & _ & _ & _ & Hc).
    eapply IH; [done | done | done |]. apply elem_of_bins in Hx as [|]; done.
  - destruct (sorted_keys_head (evkey e) b' k b bs) as [-> ->]; auto.
    rewrite (drop_absent x (elems bs)) by auto.
    unfold put_bin. by destruct (drop x b').
Qed.

Lemma bins_remove_sorted h p bs x e :
  chain h p bs -> sorted_bins bs -> h !! x = Some e -> x ∈ elems bs ->
  sorted_bins (bins_remove (evkey e) x bs).
Proof.
  intros Hc Hs He Hx. split.
  - eapply StronglySorted_sublist; [apply bins_remove_sublist | apply Hs].
  - erewrite bins_remove_elems by done. unfold drop. apply NoDup_filter, Hs.
Qed.

Lemma bins_pop_sorted bs : sorted_bins bs -> sorted_bins (bins_pop bs).
Proof.
  destruct bs as [| [k [| x l]] bs]; [done | done |]. intros [Hs Hn]. simpl in Hs.
  apply StronglySorted_inv in Hs as Hs'. destruct Hs' as [Hs' _].
  rewrite elems_cons in Hn. apply NoDup_cons in Hn as [_ Hn].
  simpl. unfold put_bin. by destruct l.
Qed.

(** ** The order of the events *)

(** The time and priority of an event of the store. *)
Definition rank (h : heap) (x : nat) : key := from_option evkey (0, 0) (h !! x).

Lemma bin_rank h p k b bs y : chain h p ((k, b) :: bs) -> y ∈ b -> rank h y = k.
Proof.
  intros Hc Hy. destruct (chain_dom h p ((k, b) :: bs) y Hc) as [e He].
  { apply elem_of_bins. auto. }
  unfold rank. rewrite He. simpl. by eapply bin_of_key; [done | left | done | done].
Qed.

Lemma filter_all {A} (P : A -> Prop) `{forall x, Decision (P x)} (l : list A) :
  (forall x, x ∈ l -> P x) -> filter P l = l.
Proof.
  induction l as [| x l IH]; [done |]. intros Hl.
  rewrite filter_cons_True by (apply Hl; left). f_equal. apply IH. intros. apply Hl. by right.
Qed.

(** Insertion in the sequence of events: behind the events of smaller time and
    priority and before all others, those of the same time and priority too. *)
Definition place (h : heap) (k : key) (x : nat) (l : list nat) : list nat :=
  filter (fun y => klt (rank h y) k = true) l ++
  x :: filter (fun y => klt (rank h y) k = false) l.

Lemma later_ranks h p k b bs y : chain h p ((k, b) :: bs) -> sorted_bins ((k, b) :: bs) ->
  y ∈ elems bs -> klt k (rank h y) = true.
Proof.
  intros Hc [Hs _] Hy. simpl in Hs. apply StronglySorted_inv in Hs as [_ Hf].
  destruct Hc as (? & ? & ? & _ & _ & _ & _ & _ & Hc).
  destruct (chain_elem _ _ _ _ Hc Hy) as (e & b' & He & Hin & _).
  unfold rank. rewrite He. simpl. rewrite List.Forall_forall in Hf. apply Hf.
  apply list_elem_of_In, list_elem_of_fmap. by exists (evkey e, b').
Qed.

Lemma bins_insert_elems h p k x bs : chain h p bs -> sorted_bins bs ->
  elems (bins_insert k x bs) = place h k x (elems bs).
Proof.
  revert p. induction bs as [| [k0 b] bs IH]; intros p Hc Hs; [done |].
  assert (forall y, y ∈ b -> rank h y = k0) as Hb by (intros; by eapply bin_rank).
  assert (forall y, y ∈ elems bs -> klt k0 (rank h y) = true) as Hlater
    by (intros; by eapply later_ranks).
  unfold place. rewrite elems_cons, !filter_app. simpl bins_insert.
  destruct (klt k0 k) eqn:Hk.
  - rewrite elems_cons, (filter_all _ b), (filter_none _ b)
      by (intros y Hy; rewrite (Hb y Hy); congruence).
    rewrite <- app_assoc. f_equal. simpl.
    destruct Hc as (? & ? & ? & _ & _ & _ & _ & _ & Hc). destruct Hs as [Hs Hn].
    eapply IH; [done |]. split; [by apply StronglySorted_inv in Hs as [? _] |].
    rewrite elems_cons in Hn. by apply NoDup_app in Hn as (_ & _ & ?).
  - assert (forall y, y ∈ elems bs -> klt (rank h y) k = false) as Hge.
    { intros y Hy. destruct (klt (rank h y) k) eqn:E; [| done].
      rewrite <- Hk. symmetry. eapply (transitivity (R := klt_rel)); [by apply Hlater | done]. }
    rewrite (filter_none _ b), (filter_none _ (elems bs)), (filter_all _ b), (filter_all _ (elems bs)).
    2-5: intros y Hy; rewrite ?(Hge y), ?(Hb y), ?Hk by done; congruence.
    destruct (klt k k0); by rewrite !elems_cons.
Qed.

Lemma chain_head h p bs : chain h p bs -> p = hd_error (elems bs).
Proof. destruct bs as [| [k b] bs]; [done |]. by intros (x & e & l & -> & -> & _). Qed.

(** ** The traversals *)

Lemma in_bin_walk_spec h k p l fuel : in_bin h k p l -> (length l <= fuel)%nat ->
  in_bin_walk fuel h p = Ok l.
Proof.
  revert p fuel. induction l as [| x l IH]; intros p fuel.
  - intros ->. by destruct fuel.
  - intros (-> & e & He & _ & Hb) Hf. destruct fuel as [| fuel]; simpl in Hf; [lia |].
    simpl. rewrite (load_some _ _ _ He). simpl. rewrite IH; [done | done | lia].
Qed.

Lemma top_in_bin h k x e l : h !! x = Some e -> evkey e = k -> in_bin h k (nextInBin e) l ->
  in_bin h k (Some x) (x :: l).
Proof. intros. split; eauto. Qed.

Lemma contents_spec h p bs : chain h p bs -> NoDup (elems bs) -> contents h p = Ok (elems bs).
Proof.
  intros Hc Hn. destruct (loop_bound_bins _ _ _ Hc Hn) as [Hf1 Hf2]. unfold contents.
  set (fuel := loop_bound h) in Hf1 |- * at 1. clearbody fuel.
  revert p fuel Hc Hf1. clear Hn. induction bs as [| [k b] bs IH]; intros p fuel Hc Hf1.
  - simpl in Hc. subst p. by destruct fuel.
  - destruct Hc as (x & e & l & -> & -> & He & Hk & Hb & Hc).
    rewrite elems_cons, length_app in Hf2.
    destruct fuel as [| fuel]; simpl in Hf1; [lia |]. cbn [walk].
    rewrite (in_bin_walk_spec h k (Some x) (x :: l)); [| by eapply top_in_bin | lia].
    cbn [obind]. rewrite (load_some _ _ _ He). cbn [obind].
    rewrite IH; [done | lia | done | lia].
Qed.

(** The inner loop over a bin whose key is not before the last one seen. *)
Lemma verify_bin_spec h k p l fuel seen t pr :
  in_bin h k p l -> (length l <= fuel)%nat -> l ≠ [] -> NoDup l -> (forall y, y ∈ l -> y ∉ seen) ->
  klt k (t, pr) = false ->
  exists seen', verify_bin fuel h p (seen, t, pr) = Ok (Some (seen', k.1, k.2)) /\
    (forall y, y ∈ seen' <-> y ∈ l \/ y ∈ seen).
Proof.
  revert p fuel seen t pr. induction l as [| x l IH]; intros p fuel seen t pr; [done |].
  intros (-> & e & He & Hk & Hb) Hf _ Hn Hs Hlt. apply NoDup_cons in Hn as [Hx Hn].
  destruct fuel as [| fuel]; simpl in Hf; [lia |]. cbn [verify_bin].
  rewrite (load_some _ _ _ He). cbn [obind].
  rewrite bool_decide_false by (apply Hs; left).
  rewrite <- Hk in Hlt |- *. unfold klt in Hlt. simpl in Hlt. apply orb_false_iff in Hlt as [-> ->].
  destruct l as [| y l].
  - simpl in Hb. rewrite Hb. exists (x :: seen). split; [by destruct fuel |].
    intros z. rewrite !elem_of_cons, elem_of_nil. tauto.
  - destruct (IH (nextInBin e) fuel (x :: seen) (_when e) (_priority e)) as (seen' & Hv & Hin);
      [done | lia | done | done | | |].
    + intros z Hz [-> | Hz']%elem_of_cons; [done |]. apply (Hs z); [by right | done].
    + rewrite <- Hk. apply klt_refl.
    + exists seen'. rewrite Hk. split; [done |]. intros z. rewrite Hin, !elem_of_cons. tauto.
Qed.

(** [debugVerify] accepts a queue in order, except that it compares the first
    event with time and priority 0. *)
Lemma verify_bins_spec h p bs fuel seen t pr :
  chain h p bs -> sorted_bins bs -> (length bs <= fuel)%nat ->
  (length (elems bs) <= loop_bound h)%nat ->
  (forall y, y ∈ elems bs -> y ∉ seen) ->
  (forall k b bs', bs = (k, b) :: bs' -> klt k (t, pr) = false) ->
  verify_bins fuel h p (seen, t, pr) = Ok true.
Proof.
  revert p fuel seen t pr. induction bs as [| [k b] bs IH]; intros p fuel seen t pr Hc Hs Hf Hl Hse Hk.
  { simpl in Hc. subst p. by destruct fuel. }
  destruct fuel as [| fuel]; simpl in Hf; [lia |].
  pose proof Hc as (x & e & l & -> & -> & He & Hke & Hb & Hc').
  destruct Hs as [Hs Hn]. rewrite elems_cons in Hn, Hl. rewrite length_app in Hl.
  apply NoDup_app in Hn as (Hn1 & Hd & Hn2).
  cbn [verify_bins].
  destruct (verify_bin_spec h k (Some x) (x :: l) (loop_bound h) seen t pr) as (seen' & -> & Hin);
    [by eapply top_in_bin | lia | done | done | | by eapply Hk |].
  { intros y Hy. apply Hse, elem_of_bins. auto. }
  cbn [obind]. rewrite (load_some _ _ _ He). cbn [obind].
  simpl in Hs. apply StronglySorted_inv in Hs as [Hs Hf'].
  apply IH; [done | done | lia | lia | |].
  - intros y Hy [Hy' | Hy']%Hin; [by apply (Hd y) |]. apply (Hse y); [| done].
    apply elem_of_bins. auto.
  - intros k1 b1 bs' ->. simpl in Hf'. apply List.Forall_inv in Hf'.
    destruct k. by apply klt_asym.
Qed.

(** Times of events are not negative, so only a first event at time 0 with a
    negative priority is rejected. *)
Lemma debugVerify_spec h p bs :
  chain h p bs -> sorted_bins bs -> (forall k b, (k, b) ∈ bs -> 0 <= k.1) ->
  debugVerify h p = Ok (match bs with (k, _) :: _ => negb (klt k (0, 0)) | [] => true end).
Proof.
  intros Hc Hs Ht. destruct (loop_bound_bins _ _ _ Hc (proj2 Hs)) as [Hf Hl].
  unfold debugVerify. destruct bs as [| [k b] bs].
  { simpl in Hc. by subst p. }
  destruct (klt k (0, 0)) eqn:Hk.
  - assert (0 <= k.1) as Hk0 by (apply (Ht k b); left).
    destruct Hc as (x & e & l & -> & -> & He & Hke & _). unfold loop_bound.
    cbn [verify_bins verify_bin]. unfold loop_bound. cbn [verify_bin].
    rewrite (load_some _ _ _ He). cbn [obind]. rewrite <- Hke in Hk, Hk0.
    unfold klt in Hk. simpl in Hk, Hk0. apply orb_true_iff in Hk as [Hk | ->]; [lia |].
    by destruct (Z.ltb_spec (_when e) 0).
  - rewrite (verify_bins_spec h p ((k, b) :: bs)); auto.
    + intros y _ []%elem_of_nil.
    + by intros ??? [= <- <- <-].
Qed.
