(* ===== verification/EventSim.v ===== *)
(** The event queues of the simulator at work: [schedule], [deschedule],
    [reschedule], [serviceOne], the asynchronous insertions and checkpoints of
    events ([sim/eventq.hh], [sim/eventq.cc]), on the linked structure of
    [EventQueue], with the invariant that every operation keeps and what each does
    to the sequence of events.  [EventLoop] runs them.

    The state is the store of events and the vector of queues.  What an event does
    when it is processed is an argument, limited by [EventHandler] to calls of the
    queues' interface. *)
From S2P Require Import Prelude.
From Stdlib Require Import ZArith Lia Sorted.
From stdpp Require Import base numbers list gmap.
From S2P Require Import EventQueue.

Open Scope Z_scope.

(** * State *)

Record EventQueue := mkQueue {
  head : option nat;
  _curTick : Z;
  async_queue : list nat;
}.

Definition new_EventQueue : EventQueue := mkQueue None 0 [].

(** [mainEventQueue], the queue of the running thread, and the mode. *)
Record Sim := mkSim {
  events : gmap nat Event;
  mainEventQueue : list EventQueue;
  _curEventQueue : option nat;
  inParallelMode : bool;
}.

Definition set_events (h : gmap nat Event) (s : Sim) : Sim :=
  mkSim h (mainEventQueue s) (_curEventQueue s) (inParallelMode s).
Definition set_queues (l : list EventQueue) (s : Sim) : Sim :=
  mkSim (events s) l (_curEventQueue s) (inParallelMode s).
Definition curEventQueue (q : option nat) (s : Sim) : Sim :=
  mkSim (events s) (mainEventQueue s) q (inParallelMode s).

Definition set_head (p : option nat) (Q : EventQueue) : EventQueue :=
  mkQueue p (_curTick Q) (async_queue Q).
Definition setCurTick (t : Z) (Q : EventQueue) : EventQueue :=
  mkQueue (head Q) t (async_queue Q).
Definition set_async (l : list nat) (Q : EventQueue) : EventQueue :=
  mkQueue (head Q) (_curTick Q) l.

(** [getEventQueue]: queues are added up to the index. *)
Definition getEventQueue (index : nat) (s : Sim) : Sim :=
  set_queues (mainEventQueue s ++
    replicate (S index - length (mainEventQueue s)) new_EventQueue) s.

Definition get_queue (s : Sim) (q : nat) : outcome EventQueue :=
  match mainEventQueue s !! q with Some Q => Ok Q | None => Err Undefined end.

Definition set_queue (q : nat) (Q : EventQueue) (s : Sim) : Sim :=
  set_queues (<[q := Q]> (mainEventQueue s)) s.

Definition write_event (x : nat) (f : Event -> Event) (s : Sim) : outcome Sim :=
  let! h := store (events s) x f in Ok (set_events h s).

(** * The operations of a queue *)

Definition q_insert (s : Sim) (q x : nat) : outcome Sim :=
  let! Q := get_queue s q in
  let! (h, p) := insert (events s) (head Q) x in
  Ok (set_queue q (set_head p Q) (set_events h s)).

Definition q_remove (s : Sim) (q x : nat) : outcome Sim :=
  let! Q := get_queue s q in
  let! (h, p) := remove (events s) q (head Q) x in
  Ok (set_queue q (set_head p Q) (set_events h s)).

Definition asyncInsert (s : Sim) (q x : nat) : outcome Sim :=
  let! Q := get_queue s q in
  Ok (set_queue q (set_async (async_queue Q ++ [x]) Q) s).

(** The destructor and the end of an event's life. *)
Definition delete_event (s : Sim) (x : nat) : outcome Sim :=
  let! e := load (events s) x in
  do! assert_ (negb (scheduled e)) then
  Ok (set_events (delete x (events s)) s).

(** [acquire]: the default [acquireImpl] does nothing. *)
Definition acquire (s : Sim) (x : nat) : outcome Sim :=
  let! _ := load (events s) x in Ok s.

Definition releaseImpl (s : Sim) (x : nat) : outcome Sim :=
  let! e := load (events s) x in
  if negb (scheduled e) then delete_event s x else Ok s.

Definition release (s : Sim) (x : nat) : outcome Sim :=
  let! e := load (events s) x in
  if isManaged e then releaseImpl s x else Ok s.

Definition flag_set (mask : Z) (e : Event) : Event := with_flags (set_flags (flags e) mask) e.
Definition flag_clear (mask : Z) (e : Event) : Event := with_flags (clear_flags (flags e) mask) e.

Definition schedule (s : Sim) (q x : nat) (when : Z) (global : bool) : outcome Sim :=
  let! Q := get_queue s q in
  do! assert_ (_curTick Q <=? when) then
  let! e := load (events s) x in
  do! assert_ (negb (scheduled e)) then
  do! assert_ (initialized e) then
  let! s := write_event x (setWhen when q) s in
  let! s := if inParallelMode s && (bool_decide (_curEventQueue s ≠ Some q) || global)
            then asyncInsert s q x else q_insert s q x in
  let! s := write_event x (flag_set Scheduled) s in
  acquire s x.

Definition deschedule (s : Sim) (q x : nat) : outcome Sim :=
  let! e := load (events s) x in
  do! assert_ (scheduled e) then
  do! assert_ (initialized e) then
  do! assert_ (negb (inParallelMode s) || bool_decide (_curEventQueue s = Some q)) then
  let! s := q_remove s q x in
  let! s := write_event x (flag_clear Squashed) s in
  let! s := write_event x (flag_clear Scheduled) s in
  release s x.

Definition reschedule (s : Sim) (q x : nat) (when : Z) (always : bool) : outcome Sim :=
  let! Q := get_queue s q in
  do! assert_ (_curTick Q <=? when) then
  let! e := load (events s) x in
  do! assert_ (always || scheduled e) then
  do! assert_ (initialized e) then
  do! assert_ (negb (inParallelMode s) || bool_decide (_curEventQueue s = Some q)) then
  let! s := if scheduled e then q_remove s q x else acquire s x in
  let! s := write_event x (setWhen when q) s in
  let! s := q_insert s q x in
  let! s := write_event x (flag_clear Squashed) s in
  write_event x (flag_set Scheduled) s.

Definition squash (s : Sim) (x : nat) : outcome Sim := write_event x (flag_set Squashed) s.

(** [handleAsyncInsertions]: the loop over [async_queue]. *)
Fixpoint async_loop (s : Sim) (q : nat) (l : list nat) : outcome Sim :=
  match l with
  | [] => Ok s
  | x :: l =>
      let! s := q_insert s q x in
      let! Q := get_queue s q in
      async_loop (set_queue q (set_async l Q) s) q l
  end.

Definition handleAsyncInsertions (s : Sim) (q : nat) : outcome Sim :=
  do! assert_ (bool_decide (_curEventQueue s = Some q)) then
  let! Q := get_queue s q in
  async_loop s q (async_queue Q).

(** The events of a queue in the order in which [dump] shows them. *)
Definition order (s : Sim) (q : nat) : outcome (list nat) :=
  let! Q := get_queue s q in contents (events s) (head Q).

(** [replaceHead]: the queue goes on with another chain of events. *)
Definition replaceHead (s : Sim) (q : nat) (p : option nat) : outcome (Sim * option nat) :=
  let! Q := get_queue s q in
  Ok (set_queue q (set_head p Q) s, head Q).

(** * Calls of the interface *)

Inductive op : Type :=
  | OpNew (x : nat) (priority flags : Z)
  | OpDelete (x : nat)
  | OpSchedule (q x : nat) (when : Z) (global : bool)
  | OpDeschedule (q x : nat)
  | OpReschedule (q x : nat) (when : Z) (always : bool)
  | OpSquash (x : nat).

(** A new event lives at an address that no event has. *)
Definition apply_op (o : op) (s : Sim) : outcome Sim :=
  match o with
  | OpNew x p f =>
      let! e := new_Event p f in
      match events s !! x with
      | Some _ => Err Undefined
      | None => Ok (set_events (<[x := e]> (events s)) s)
      end
  | OpDelete x => delete_event s x
  | OpSchedule q x w g => schedule s q x w g
  | OpDeschedule q x => deschedule s q x
  | OpReschedule q x w a => reschedule s q x w a
  | OpSquash x => squash s x
  end.

Fixpoint run_ops (l : list op) (s : Sim) : outcome Sim :=
  match l with
  | [] => Ok s
  | o :: l => let! s := apply_op o s in run_ops l s
  end.

(** The action of an event reaches the queues through their interface only. *)
Class EventHandler (process : nat -> Sim -> outcome Sim) : Prop := {
  process_ops : forall x s, exists l, process x s = run_ops l s;
}.

(** * Service *)

Section Service.
  Context (process : nat -> Sim -> outcome Sim).

(** The event to exit with, if it is one. *)
Definition serviceOne (s : Sim) (q : nat) : outcome (Sim * option nat) :=
  let! Q := get_queue s q in
  match head Q with
  | None => Err Undefined
  | Some x =>
      let! (h, p) := pop_head (events s) x in
      let s := set_queue q (set_head p Q) (set_events h s) in
      let! e := load (events s) x in
      if negb (squashed e) then
        let! Q := get_queue s q in
        let s := set_queue q (setCurTick (_when e) Q) s in
        let! s := process x s in
        let! e := load (events s) x in
        if isExitEvent e then
          do! assert_ (negb (isManaged e) || negb (isSet (flags e) IsMainQueue)) then
          Ok (s, Some x)
        else let! s := release s x in Ok (s, None)
      else
        let! s := write_event x (flag_clear Squashed) s in
        let! s := release s x in Ok (s, None)
  end.

(** [serviceEvents(when)], for at most [fuel] events: [None] when there are more. *)
Fixpoint serviceEvents (fuel : nat) (s : Sim) (q : nat) (when : Z) : outcome (option Sim) :=
  let! Q := get_queue s q in
  let stop := Ok (Some (set_queue q (setCurTick when Q) s)) in
  match head Q with
  | None => stop
  | Some x =>
      let! e := load (events s) x in
      if when <? _when e then stop
      else match fuel with
           | O => Ok None
           | S fuel => let! (s, _) := serviceOne s q in serviceEvents fuel s q when
           end
  end.

End Service.

(** [~EventQueue]: every event is descheduled. *)
Fixpoint destroy_queue (fuel : nat) (s : Sim) (q : nat) : outcome Sim :=
  let! Q := get_queue s q in
  match head Q with
  | None => Ok s
  | Some x =>
      match fuel with
      | O => Err Undefined
      | S fuel => let! s := deschedule s q x in destroy_queue fuel s q
      end
  end.

(** * Checkpoints of events *)

(** [_when], [_priority] and [_flags] as written: [short _flags = flags]. *)
Definition to_short (f : Z) : Z := if f <? 2 ^ 15 then f else f - 2 ^ 16.

Definition ev_serialize (e : Event) : Z * Z * Z := (_when e, _priority e, to_short (flags e)).

Definition ev_unserialize (cp : Z * Z * Z) (e : Event) : outcome Event :=
  do! assert_ (negb (scheduled e)) then
  let '(w, p, f) := cp in
  do! assert_ (initialized e) then
  let f := set_flags (u16 f) Initialized in
  let f := if isSet f Scheduled && negb (isSet f Squashed)
           then clear_flags f (Z.lor Squashed Scheduled) else f in
  Ok (mkEvent (nextBin e) (nextInBin e) w p f (queue e)).

Definition checkpointReschedule (s : Sim) (q x : nat) : outcome Sim :=
  let! e := load (events s) x in
  if isSet (flags e) Scheduled then q_insert s q x else Ok s.

(** [UNSERIALIZE_EVENT]. *)
Definition UNSERIALIZE_EVENT (cp : Z * Z * Z) (s : Sim) (q x : nat) : outcome Sim :=
  let! e := load (events s) x in
  let! e := ev_unserialize cp e in
  checkpointReschedule (set_events (<[x := e]> (events s)) s) q x.

(** * The invariant *)

(** The queues [B] stand for: every chain is in order, and an event is scheduled
    exactly if it is in the bins or in the asynchronous list of its queue. *)
Record wf_bins (s : Sim) (B : nat -> list ((Z * Z) * list nat)) : Prop := {
  wf_chain : forall q Q, mainEventQueue s !! q = Some Q ->
    chain (events s) (head Q) (B q) /\ sorted_bins (B q) /\
    NoDup (elems (B q) ++ async_queue Q);
  wf_in : forall q Q x, mainEventQueue s !! q = Some Q -> x ∈ elems (B q) ++ async_queue Q ->
    exists e, events s !! x = Some e /\ scheduled e = true /\ queue e = Some q;
  wf_out : forall x e, events s !! x = Some e -> scheduled e = true ->
    exists q Q, queue e = Some q /\ mainEventQueue s !! q = Some Q /\
      x ∈ elems (B q) ++ async_queue Q;
}.

Definition wf (s : Sim) : Prop := exists B, wf_bins s B.

Definition upd {A} (B : nat -> A) (q : nat) (b : A) : nat -> A :=
  fun q' => if decide (q' = q) then b else B q'.

Lemma upd_eq {A} (B : nat -> A) q b : upd B q b q = b.
Proof. unfold upd. by rewrite decide_True. Qed.

Lemma upd_ne {A} (B : nat -> A) q b q' : q' ≠ q -> upd B q b q' = B q'.
Proof. unfold upd. intros. by rewrite decide_False. Qed.

(** What flags and queue an event has, apart from its links and time. *)
Lemma scheduled_erase e e' : erase e' = erase e -> scheduled e' = scheduled e /\ queue e' = queue e.
Proof. intros H. injection H as H1 H2 H3 H4. unfold scheduled. rewrite H3, H4. auto. Qed.

(** A change to the queue [q] and the event [x]: the bins of [q] become [b]. *)
Lemma wf_update s B q Q Q' h b x :
  wf_bins s B -> mainEventQueue s !! q = Some Q ->
  chain h (head Q') b -> sorted_bins b -> NoDup (elems b ++ async_queue Q') ->
  (forall y, y ≠ x -> erase <$> h !! y = erase <$> events s !! y) ->
  (forall y, y ≠ x -> y ∉ elems (B q) -> h !! y = events s !! y) ->
  (forall y, y ≠ x -> y ∈ elems b ++ async_queue Q' <-> y ∈ elems (B q) ++ async_queue Q) ->
  (forall q' Q'', q' ≠ q -> mainEventQueue s !! q' = Some Q'' -> x ∉ elems (B q') ++ async_queue Q'') ->
  (x ∈ elems b ++ async_queue Q' ->
    exists e, h !! x = Some e /\ scheduled e = true /\ queue e = Some q) ->
  (forall e, h !! x = Some e -> scheduled e = true ->
    queue e = Some q /\ x ∈ elems b ++ async_queue Q') ->
  wf_bins (set_queue q Q' (set_events h s)) (upd B q b).
Proof.
  intros Hw HQ Hc Hs Hn Her Hfr Hmem Hoth Hin Hout.
  assert (q < length (mainEventQueue s))%nat as Hlen by (by eapply lookup_lt_Some).
  split; simpl.
  - intros q1 Q1 H1. destruct (decide (q1 = q)) as [-> | Hne].
    + rewrite list_lookup_insert_eq in H1 by done. injection H1 as <-. by rewrite upd_eq.
    + rewrite list_lookup_insert_ne in H1 by done. rewrite upd_ne by done.
      destruct (wf_chain _ _ Hw _ _ H1) as (Hc1 & Hs1 & Hn1). split_and!; auto.
      eapply chain_links; [done |]. intros y Hy.
      assert (y ≠ x) as Hyx.
      { intros ->. apply (Hoth q1 Q1 Hne H1), elem_of_app. auto. }
      unfold link. rewrite Hfr; [done | done |]. intros Hyq.
      destruct (wf_in _ _ Hw q1 Q1 y H1) as (e1 & He1 & _ & Hq1); [apply elem_of_app; auto |].
      destruct (wf_in _ _ Hw q Q y HQ) as (e2 & He2 & _ & Hq2); [apply elem_of_app; auto |].
      congruence.
  - intros q1 Q1 y H1 Hy. destruct (decide (y = x)) as [-> | Hyx].
    + destruct (decide (q1 = q)) as [-> | Hne].
      * rewrite list_lookup_insert_eq in H1 by done. injection H1 as <-. rewrite upd_eq in Hy. auto.
      * rewrite list_lookup_insert_ne in H1 by done. rewrite upd_ne in Hy by done.
        exfalso. by apply (Hoth q1 Q1 Hne H1).
    + assert (exists e, events s !! y = Some e /\ scheduled e = true /\ queue e = Some q1)
        as (e & He & Hse & Hqe).
      { destruct (decide (q1 = q)) as [-> | Hne].
        - rewrite list_lookup_insert_eq in H1 by done. injection H1 as <-. rewrite upd_eq in Hy.
          apply (wf_in _ _ Hw _ _ _ HQ). by apply Hmem.
        - rewrite list_lookup_insert_ne in H1 by done. rewrite upd_ne in Hy by done.
          by apply (wf_in _ _ Hw _ _ _ H1). }
      specialize (Her y Hyx). rewrite He in Her. destruct (h !! y) as [e' |]; [| done].
      apply (inj Some) in Her. destruct (scheduled_erase e e') as [? ?]; [done |].
      exists e'. split_and!; congruence.
  - intros y e He Hse. destruct (decide (y = x)) as [-> | Hyx].
    + destruct (Hout e He Hse) as [Hqe Hin']. exists q, Q'.
      rewrite list_lookup_insert_eq, upd_eq by done. auto.
    + specialize (Her y Hyx). rewrite He in Her. destruct (events s !! y) as [e' |] eqn:He'; [| done].
      apply (inj Some) in Her. destruct (scheduled_erase e' e) as [Hs1 Hq1]; [done |].
      destruct (wf_out _ _ Hw y e' He') as (q1 & Q1 & Hq & HQ1 & Hy); [congruence |].
      destruct (decide (q1 = q)) as [-> | Hne].
      * exists q, Q'. rewrite list_lookup_insert_eq, upd_eq by done.
        split_and!; [congruence | done |]. apply Hmem; [done |]. congruence.
      * exists q1, Q1. rewrite list_lookup_insert_ne, upd_ne by done. split_and!; auto; congruence.
Qed.

(** ** Flags *)

Lemma flags_cases f : 
  isSet (set_flags f Scheduled) Scheduled = true /\
  isSet (set_flags f Scheduled) Squashed = isSet f Squashed /\
  isSet (set_flags f Squashed) Scheduled = isSet f Scheduled /\
  isSet (clear_flags f Scheduled) Scheduled = false /\
  isSet (clear_flags f Scheduled) Squashed = isSet f Squashed /\
  isSet (clear_flags f Squashed) Scheduled = isSet f Scheduled /\
  isSet (clear_flags f Squashed) Managed = isSet f Managed /\
  isSet (clear_flags f Scheduled) Managed = isSet f Managed.
Proof.
  change Scheduled with (2 ^ 1). change Squashed with (2 ^ 0). change Managed with (2 ^ 2).
  by rewrite !isSet_set, !isSet_clear by lia.
Qed.

Lemma scheduled_set e : scheduled (flag_set Scheduled e) = true.
Proof. apply (flags_cases (flags e)). Qed.
Lemma scheduled_set_squashed e : scheduled (flag_set Squashed e) = scheduled e.
Proof. apply (flags_cases (flags e)). Qed.
Lemma scheduled_clear e : scheduled (flag_clear Scheduled e) = false.
Proof. apply (flags_cases (flags e)). Qed.
Lemma scheduled_clear_squashed e : scheduled (flag_clear Squashed e) = scheduled e.
Proof. apply (flags_cases (flags e)). Qed.

(** ** Members of queues *)

Lemma unscheduled_absent s B x e q Q :
  wf_bins s B -> events s !! x = Some e -> scheduled e = false ->
  mainEventQueue s !! q = Some Q -> x ∉ elems (B q) ++ async_queue Q.
Proof.
  intros Hw He Hs HQ Hin. destruct (wf_in _ _ Hw _ _ _ HQ Hin) as (e' & ? & ? & _). congruence.
Qed.

Lemma unknown_absent s B x q Q :
  wf_bins s B -> events s !! x = None ->
  mainEventQueue s !! q = Some Q -> x ∉ elems (B q) ++ async_queue Q.
Proof. intros Hw He HQ Hin. destruct (wf_in _ _ Hw _ _ _ HQ Hin) as (e' & ? & _). congruence. Qed.

Lemma other_queue_absent s B x q Q q' Q' :
  wf_bins s B -> mainEventQueue s !! q = Some Q -> x ∈ elems (B q) ++ async_queue Q ->
  q' ≠ q -> mainEventQueue s !! q' = Some Q' -> x ∉ elems (B q') ++ async_queue Q'.
Proof.
  intros Hw HQ Hin Hne HQ' Hin'.
  destruct (wf_in _ _ Hw _ _ _ HQ Hin) as (e & ? & _ & ?).
  destruct (wf_in _ _ Hw _ _ _ HQ' Hin') as (e' & ? & _ & ?). congruence.
Qed.

Lemma link_same h x e e' y : h !! x = Some e ->
  nextBin e' = nextBin e -> nextInBin e' = nextInBin e -> evkey e' = evkey e ->
  link (<[x := e']> h) y = link h y.
Proof.
  intros He H1 H2 H3. destruct (decide (y = x)) as [-> |]; [| by apply link_insert_ne].
  unfold link. rewrite lookup_insert_eq, He. simpl. by rewrite H1, H2, H3.
Qed.

Lemma chain_write h x e e' p bs : chain h p bs -> h !! x = Some e ->
  nextBin e' = nextBin e -> nextInBin e' = nextInBin e -> evkey e' = evkey e ->
  chain (<[x := e']> h) p bs.
Proof. intros Hc ? ? ? ?. eapply chain_links; [done |]. intros. by eapply link_same. Qed.

(** ** Insertion and removal of an event *)

(** An event [e1] that no queue holds goes into the bins of [q]; it may differ from
    what the store had at [x]. *)
Lemma insert_fresh s B q Q x e1 h1 f :
  wf_bins s B -> mainEventQueue s !! q = Some Q ->
  (forall q' Q', mainEventQueue s !! q' = Some Q' -> x ∉ elems (B q') ++ async_queue Q') ->
  (forall y, y ≠ x -> h1 !! y = events s !! y) -> h1 !! x = Some e1 ->
  queue e1 = Some q -> isSet f Scheduled = true ->
  exists h2 p e2, insert h1 (head Q) x = Ok (h2, p) /\ h2 !! x = Some e2 /\ erase e2 = erase e1 /\
    (forall y, y ≠ x -> erase <$> h2 !! y = erase <$> events s !! y) /\
    wf_bins (set_queue q (set_head p Q) (set_events (<[x := with_flags f e2]> h2) s))
      (upd B q (bins_insert (evkey e1) x (B q))).
Proof.
  intros Hw HQ Habs Hh1 Hx1 Hq1 Hf. destruct (wf_chain _ _ Hw _ _ HQ) as (Hc & Hs & Hn).
  pose proof (Habs q Q HQ) as Hx. rewrite elem_of_app in Hx.
  assert (chain h1 (head Q) (B q)) as Hc1.
  { eapply chain_links; [done |]. intros y Hy. unfold link. rewrite Hh1; [done |]. intros ->. tauto. }
  destruct (insert_spec h1 (head Q) (B q) x e1) as (h2 & p & Hi & Hc2 & Hsd & Hfr);
    [done | apply Hs | done | tauto |].
  destruct (same_data_some h2 h1 x e1) as (e2 & He2 & Her2); [by symmetry | done |].
  assert (forall y, y ≠ x -> erase <$> h2 !! y = erase <$> events s !! y) as Hother
    by (intros y Hy; rewrite Hsd, Hh1; done).
  exists h2, p, e2. split_and!; auto.
  apply wf_update with Q x; auto; simpl.
  - by eapply chain_write.
  - apply bins_insert_sorted; tauto.
  - rewrite bins_insert_perm. simpl. constructor; [rewrite elem_of_app; tauto | done].
  - intros y Hy. rewrite lookup_insert_ne by done. auto.
  - intros y Hy Hyb. rewrite lookup_insert_ne by done. rewrite Hfr, Hh1; [done | done |].
    rewrite elem_of_cons. tauto.
  - intros y Hy. rewrite !elem_of_app, elem_of_bins_insert. tauto.
  - rewrite lookup_insert_eq. intros _. eexists. split_and!; [done | done |].
    simpl. by destruct (scheduled_erase e1 e2) as [_ ->].
  - rewrite lookup_insert_eq. intros e [= <-] _. simpl.
    destruct (scheduled_erase e1 e2) as [_ ->]; [done |]. split; [done |].
    rewrite elem_of_app, elem_of_bins_insert. auto.
Qed.

(** An event of the bins of [q] leaves them; [e'] is what it is afterwards, if it
    is still alive. *)
Lemma remove_member s B q Q x e :
  wf_bins s B -> mainEventQueue s !! q = Some Q -> events s !! x = Some e -> x ∈ elems (B q) ->
  exists h1 p e1, remove (events s) q (head Q) x = Ok (h1, p) /\ h1 !! x = Some e1 /\
    erase e1 = erase e /\ same_data (events s) h1 /\
    forall (me : option Event),
      (forall e', me = Some e' -> scheduled e' = false) ->
      wf_bins (set_queue q (set_head p Q) (set_events (partial_alter (fun _ => me) x h1) s))
        (upd B q (bins_remove (evkey e) x (B q))).
Proof.
  intros Hw HQ He Hx. destruct (wf_chain _ _ Hw _ _ HQ) as (Hc & Hs & Hn).
  destruct (wf_in _ _ Hw q Q x HQ) as (e0 & He0 & Hse & Hqe); [apply elem_of_app; auto |].
  assert (e0 = e) as -> by congruence.
  destruct (remove_spec (events s) q (head Q) (B q) x e) as (h1 & p & Hr & Hc1 & Hsd & Hfr); auto.
  destruct (same_data_some h1 (events s) x e) as (e1 & He1 & Her1); [by symmetry | done |].
  exists h1, p, e1. split_and!; auto. intros me Hme.
  pose proof (bins_remove_elems _ _ _ _ _ Hc Hs He Hx) as Hel.
  assert (x ∉ elems (bins_remove (evkey e) x (B q))) as Hgone
    by (rewrite Hel, elem_of_drop; tauto).
  apply NoDup_app in Hn as Hn'. destruct Hn' as (Hn1 & Hd & Hn2).
  apply wf_update with Q x; auto; simpl.
  - eapply chain_links; [done |]. intros y Hy. unfold link.
    rewrite lookup_partial_alter_ne; [done |]. by intros ->.
  - by eapply bins_remove_sorted.
  - rewrite Hel. apply NoDup_app. split_and!; [by apply NoDup_filter | | done].
    intros y [_ Hy]%elem_of_drop. auto.
  - intros y Hy. rewrite lookup_partial_alter_ne by done. apply Hsd.
  - intros y Hy Hyb. rewrite lookup_partial_alter_ne by done. by apply Hfr.
  - intros y Hy. rewrite Hel, !elem_of_app, elem_of_drop. tauto.
  - intros q' Q' Hne HQ'. apply (other_queue_absent s B x q Q q' Q'); auto. apply elem_of_app. auto.
  - rewrite elem_of_app. intros [? | Ha]; [done |]. by apply Hd in Hx.
  - rewrite lookup_partial_alter_eq. intros e' -> Hs'. rewrite (Hme e') in Hs'; done.
Qed.

Lemma init_set_flag e mask : Z.land mask InitMask = 0 ->
  initialized (flag_set mask e) = initialized e.
Proof.
  intros Hm. unfold initialized, flag_set, set_flags. simpl.
  by rewrite Z.land_lor_distr_l, Hm, Z.lor_0_r.
Qed.

Lemma init_clear_flag e mask : Z.land mask InitMask = 0 ->
  initialized (flag_clear mask e) = initialized e.
Proof.
  intros Hm. unfold initialized, flag_clear, clear_flags. simpl. f_equal.
  rewrite <- Z.land_assoc, (Z.land_comm (Z.lnot mask)), Z.land_assoc.
  rewrite <- Z.ldiff_land. apply Z.bits_inj'. intros i Hi.
  assert (Z.testbit (Z.land mask InitMask) i = false) as Hb by (by rewrite Hm, Z.bits_0).
  rewrite Z.land_spec in Hb. rewrite Z.ldiff_spec, Z.land_spec.
  destruct (Z.testbit (flags e) i), (Z.testbit InitMask i), (Z.testbit mask i); done.
Qed.

Lemma initialized_erase e e' : erase e' = erase e -> initialized e' = initialized e.
Proof. intros H. injection H as _ _ H _. unfold initialized. by rewrite H. Qed.

(** ** The operations *)

Lemma get_queue_some s q Q : mainEventQueue s !! q = Some Q -> get_queue s q = Ok Q.
Proof. unfold get_queue. by intros ->. Qed.

Lemma write_event_some s x e f : events s !! x = Some e ->
  write_event x f s = Ok (set_events (<[x := f e]> (events s)) s).
Proof. intros He. unfold write_event. by rewrite (store_some _ _ _ _ He). Qed.

Lemma order_spec s B q Q : wf_bins s B -> mainEventQueue s !! q = Some Q ->
  order s q = Ok (elems (B q)).
Proof.
  intros Hw HQ. unfold order. rewrite (get_queue_some _ _ _ HQ). simpl.
  destruct (wf_chain _ _ Hw _ _ HQ) as (Hc & [_ Hn] & _). by apply contents_spec.
Qed.

(** The clocks and asynchronous lists of the queues. *)
Definition ticks (s : Sim) : list (Z * list nat) :=
  (fun Q => (_curTick Q, async_queue Q)) <$> mainEventQueue s.

(** An operation on [x] leaves the other events, the clocks and the mode. *)
Definition only (s s' : Sim) (x : nat) : Prop :=
  (forall y, y ≠ x -> erase <$> events s' !! y = erase <$> events s !! y) /\
  ticks s' = ticks s /\ inParallelMode s' = inParallelMode s /\
  _curEventQueue s' = _curEventQueue s.

Lemma ticks_head s q Q p h : mainEventQueue s !! q = Some Q ->
  ticks (set_queue q (set_head p Q) (set_events h s)) = ticks s.
Proof.
  intros HQ. unfold ticks. simpl. rewrite list_fmap_insert. simpl.
  apply list_insert_id. by rewrite list_lookup_fmap, HQ.
Qed.

Lemma ticks_lookup s s' q Q' : ticks s' = ticks s -> mainEventQueue s' !! q = Some Q' ->
  exists Q, mainEventQueue s !! q = Some Q /\ _curTick Q = _curTick Q' /\
    async_queue Q = async_queue Q'.
Proof.
  intros Ht HQ. assert (ticks s' !! q = ticks s !! q) as Hl by (by rewrite Ht).
  unfold ticks in Hl. rewrite !list_lookup_fmap, HQ in Hl. simpl in Hl.
  destruct (mainEventQueue s !! q) as [Q |]; [| done]. simpl in Hl. injection Hl as H1 H2. eauto.
Qed.

Lemma queue_bound s q Q : mainEventQueue s !! q = Some Q ->
  forall (Q' : EventQueue) h, mainEventQueue (set_queue q Q' (set_events h s)) !! q = Some Q'.
Proof.
  intros HQ Q' h. simpl. rewrite list_lookup_insert_eq; [done |]. by eapply lookup_lt_Some.
Qed.

Lemma schedule_ok s B q Q x e when global :
  wf_bins s B -> mainEventQueue s !! q = Some Q -> events s !! x = Some e ->
  scheduled e = false -> initialized e = true -> _curTick Q <= when ->
  inParallelMode s && (bool_decide (_curEventQueue s ≠ Some q) || global) = false ->
  exists s' e', schedule s q x when global = Ok s' /\
    wf_bins s' (upd B q (bins_insert (when, _priority e) x (B q))) /\ only s s' x /\
    events s' !! x = Some e' /\ scheduled e' = true /\ queue e' = Some q /\
    _when e' = when /\ _priority e' = _priority e /\ initialized e' = true.
Proof.
  intros Hw HQ He Hse Hie Hw' Hser. unfold schedule.
  rewrite (get_queue_some _ _ _ HQ), (load_some _ _ _ He). cbn [obind].
  replace (_curTick Q <=? when) with true by lia. rewrite Hse, Hie. cbn [negb assert_ obind].
  rewrite (write_event_some _ _ _ _ He). cbn [obind]. simpl inParallelMode. simpl _curEventQueue.
  rewrite Hser. set (h1 := <[x := setWhen when q e]> (events s)).
  destruct (insert_fresh s B q Q x (setWhen when q e) h1 (set_flags (flags e) Scheduled))
    as (h2 & p & e2 & Hi & He2 & Her & Hoth & Hwf); auto.
  { intros. by eapply unscheduled_absent. }
  { intros. unfold h1. by rewrite lookup_insert_ne. }
  { unfold h1. by rewrite lookup_insert_eq. }
  { apply (flags_cases (flags e)). }
  injection Her as Hew Hep Hef Heq. simpl in Hew, Hep, Hef, Heq.
  unfold q_insert, get_queue. simpl. rewrite HQ. cbn [obind]. rewrite Hi. cbn [obind].
  erewrite write_event_some by done. cbn [obind]. unfold acquire, load. simpl.
  rewrite lookup_insert_eq. cbn [obind].
  assert (flag_set Scheduled e2 = with_flags (set_flags (flags e) Scheduled) e2) as Hfe
    by (unfold flag_set; by rewrite Hef).
  rewrite Hfe. eexists _, _. split; [done |]. split; [done |]. split.
  - split_and!; try done; [| exact (ticks_head s q Q p h2 HQ)].
    intros y Hy. simpl. rewrite lookup_insert_ne by done. auto.
  - simpl. rewrite lookup_insert_eq. rewrite <- Hfe. split_and!; try done; [apply scheduled_set |].
    rewrite init_set_flag by done. rewrite <- Hie. unfold initialized. by rewrite Hef.
Qed.

(** On the asynchronous path the event waits behind the others. *)
Lemma schedule_async s B q Q x e when global :
  wf_bins s B -> mainEventQueue s !! q = Some Q -> events s !! x = Some e ->
  scheduled e = false -> initialized e = true -> _curTick Q <= when ->
  inParallelMode s && (bool_decide (_curEventQueue s ≠ Some q) || global) = true ->
  exists s', schedule s q x when global = Ok s' /\ wf_bins s' (upd B q (B q)) /\
    mainEventQueue s' = <[q := set_async (async_queue Q ++ [x]) Q]> (mainEventQueue s) /\
    (forall y, y ≠ x -> events s' !! y = events s !! y) /\
    (forall e', events s' !! x = Some e' -> initialized e' = true).
Proof.
  intros Hw HQ He Hse Hie Hw' Hpar. unfold schedule.
  rewrite (get_queue_some _ _ _ HQ), (load_some _ _ _ He). cbn [obind].
  replace (_curTick Q <=? when) with true by lia. rewrite Hse, Hie. cbn [negb assert_ obind].
  rewrite (write_event_some _ _ _ _ He). cbn [obind]. simpl inParallelMode. simpl _curEventQueue.
  rewrite Hpar. unfold asyncInsert, get_queue. simpl. rewrite HQ. cbn [obind].
  erewrite write_event_some by (simpl; apply lookup_insert_eq). cbn [obind].
  unfold acquire, load. simpl. rewrite lookup_insert_eq. cbn [obind]. rewrite insert_insert_eq.
  eexists. split; [done |]. split; [| split_and!; [done | |]].
  2: { intros y Hy. simpl. by rewrite lookup_insert_ne. }
  2: { simpl. intros e'. rewrite lookup_insert_eq. intros [= <-]. by rewrite init_set_flag. }
  destruct (wf_chain _ _ Hw _ _ HQ) as (Hc & Hs & Hn).
  assert (forall q' Q', mainEventQueue s !! q' = Some Q' -> x ∉ elems (B q') ++ async_queue Q') as Habs
    by (intros; by eapply unscheduled_absent).
  pose proof (Habs q Q HQ) as Hx. rewrite elem_of_app in Hx.
  match goal with |- wf_bins (set_events ?h (set_queue q ?Q' _)) _ =>
    change (wf_bins (set_queue q Q' (set_events h s)) (upd B q (B q))) end.
  apply wf_update with Q x; auto; simpl.
  - apply chain_insert_ne; tauto.
  - rewrite app_assoc. apply NoDup_app. split_and!; [done | | apply NoDup_singleton].
    intros y Hy ->%list_elem_of_singleton. rewrite elem_of_app in Hy. tauto.
  - intros y Hy. by rewrite lookup_insert_ne.
  - intros y Hy _. by rewrite lookup_insert_ne.
  - intros y Hy. rewrite !elem_of_app, list_elem_of_singleton. tauto.
  - rewrite lookup_insert_eq. intros _. eexists. split_and!; [done | apply scheduled_set | done].
  - rewrite lookup_insert_eq. intros e' [= <-] _. split; [done |].
    rewrite !elem_of_app, list_elem_of_singleton. auto.
Qed.

(** Unscheduled events, and the flags that no queue reads, do not matter to the
    queues: [me] replaces [x]. *)
Lemma wf_event s B x (me : option Event) :
  wf_bins s B ->
  (forall e e', events s !! x = Some e -> me = Some e' -> scheduled e' = scheduled e /\
     (scheduled e = true -> queue e' = queue e /\ nextBin e' = nextBin e /\
        nextInBin e' = nextInBin e /\ evkey e' = evkey e)) ->
  (forall e, events s !! x = Some e -> me = None -> scheduled e = false) ->
  (forall e', events s !! x = None -> me = Some e' -> scheduled e' = false) ->
  wf_bins (set_events (partial_alter (fun _ => me) x (events s)) s) B.
Proof.
  intros Hw Hkeep Hdel Hnew.
  assert (forall q Q, mainEventQueue s !! q = Some Q -> x ∈ elems (B q) ++ async_queue Q ->
    exists e e', events s !! x = Some e /\ me = Some e' /\ scheduled e = true /\ scheduled e' = true /\
      queue e = Some q /\ queue e' = Some q /\ nextBin e' = nextBin e /\
        nextInBin e' = nextInBin e /\ evkey e' = evkey e) as Hmem.
  { intros q Q HQ Hin. destruct (wf_in _ _ Hw _ _ _ HQ Hin) as (e & He & Hs & Hq).
    destruct me as [e' |]; [| by rewrite (Hdel e) in Hs].
    destruct (Hkeep e e') as [H1 H2]; auto. destruct H2 as (? & ? & ? & ?); auto.
    exists e, e'. split_and!; congruence. }
  split; simpl.
  - intros q Q HQ. destruct (wf_chain _ _ Hw _ _ HQ) as (Hc & Hs & Hn). split_and!; auto.
    eapply chain_links; [done |]. intros y Hy. unfold link.
    destruct (decide (y = x)) as [-> | Hne]; [| by rewrite lookup_partial_alter_ne].
    rewrite lookup_partial_alter_eq.
    destruct (Hmem q Q HQ) as (e & e' & -> & -> & _ & _ & _ & _ & H1 & H2 & H3);
      [apply elem_of_app; auto |]. simpl. by rewrite H1, H2, H3.
  - intros q Q y HQ Hy. destruct (decide (y = x)) as [-> | Hne].
    + rewrite lookup_partial_alter_eq.
      destruct (Hmem q Q HQ Hy) as (e & e' & ? & ? & ? & ? & ? & ? & _). eauto.
    + rewrite lookup_partial_alter_ne by done. by apply (wf_in _ _ Hw q Q).
  - intros y e' He' Hs'. destruct (decide (y = x)) as [-> | Hne].
    + rewrite lookup_partial_alter_eq in He'. destruct (events s !! x) as [e |] eqn:He.
      * destruct (Hkeep e e') as [H1 H2]; auto. destruct H2 as (H2 & _); [congruence |].
        rewrite H2. apply (wf_out _ _ Hw x e He). congruence.
      * by rewrite (Hnew e') in Hs'.
    + rewrite lookup_partial_alter_ne in He' by done. by apply (wf_out _ _ Hw y e').
Qed.

(** [release] of an event that is not scheduled: the end of a managed one. *)
Lemma release_unscheduled s x e : events s !! x = Some e -> scheduled e = false ->
  release s x = Ok (set_events
    (partial_alter (fun _ => if isManaged e then None else Some e) x (events s)) s).
Proof.
  intros He Hs. unfold release, releaseImpl, delete_event. rewrite (load_some _ _ _ He). cbn [obind].
  destruct (isManaged e) eqn:Hm; [rewrite Hs; reflexivity |].
  f_equal. change (s = set_events (<[x := e]> (events s)) s).
  rewrite insert_id by done. by destruct s.
Qed.

Lemma release_scheduled s x e : events s !! x = Some e -> scheduled e = true ->
  release s x = Ok s.
Proof.
  intros He Hs. unfold release, releaseImpl. rewrite (load_some _ _ _ He). cbn [obind].
  rewrite Hs. by destruct (isManaged e).
Qed.

Definition mode_ok (s : Sim) (q : nat) : bool :=
  negb (inParallelMode s) || bool_decide (_curEventQueue s = Some q).

Lemma deschedule_ok s B q Q x e :
  wf_bins s B -> mainEventQueue s !! q = Some Q -> events s !! x = Some e ->
  x ∈ elems (B q) -> initialized e = true -> mode_ok s q = true ->
  exists s', deschedule s q x = Ok s' /\
    wf_bins s' (upd B q (bins_remove (evkey e) x (B q))) /\ only s s' x /\
    (forall e', events s' !! x = Some e' -> scheduled e' = false /\ initialized e' = true).
Proof.
  intros Hw HQ He Hx Hi Hm. unfold deschedule. fold (mode_ok s q).
  destruct (wf_in _ _ Hw q Q x HQ) as (e0 & He0 & Hse & Hqe); [apply elem_of_app; auto |].
  assert (e0 = e) as -> by congruence.
  rewrite (load_some _ _ _ He), Hm. cbn [obind]. rewrite Hse, Hi. cbn [assert_ obind].
  destruct (remove_member s B q Q x e) as (h1 & p & e1 & Hr & He1 & Her & Hsd & Hwf); auto.
  unfold q_remove. rewrite (get_queue_some _ _ _ HQ). cbn [obind]. rewrite Hr. cbn [obind].
  erewrite write_event_some by done. cbn [obind].
  erewrite write_event_some by (simpl; apply lookup_insert_eq). cbn [obind].
  erewrite release_unscheduled; [| simpl; apply lookup_insert_eq | apply scheduled_clear].
  simpl events. set (e3 := flag_clear Scheduled (flag_clear Squashed e1)).
  set (me := if isManaged e3 then None else Some e3).
  assert (forall e', me = Some e' -> scheduled e' = false /\ initialized e' = true) as Hme.
  { unfold me. intros e'. destruct (isManaged e3); [done |]. intros [= <-].
    split; [apply scheduled_clear |]. unfold e3.
    rewrite !init_clear_flag, <- Hi by done. by apply initialized_erase. }
  rewrite insert_insert_eq, partial_alter_insert_eq.
  eexists. split; [done |]. split; [apply (Hwf me); intros e' H; by apply Hme |]. split.
  - split_and!; try done; [| exact (ticks_head s q Q p h1 HQ)].
    intros y Hy. simpl. rewrite lookup_partial_alter_ne by done. apply Hsd.
  - simpl. intros e'. rewrite lookup_partial_alter_eq. apply Hme.
Qed.

(** The place an event has before a reschedule. *)
Definition bins_without (e : Event) (x : nat) (b : list ((Z * Z) * list nat)) :=
  if scheduled e then bins_remove (evkey e) x b else b.

Lemma wf_ext s B B' : wf_bins s B -> (forall q, B q = B' q) -> wf_bins s B'.
Proof. intros [H1 H2 H3] He. split; intros *; rewrite <- ?He; eauto. intros. 
  destruct (H3 x e) as (q & Q & ? & ? & ?); auto. exists q, Q. by rewrite <- He. Qed.

Lemma same_queue s q Q : mainEventQueue s !! q = Some Q -> set_queue q (set_head (head Q) Q) s = s.
Proof.
  intros HQ. unfold set_queue, set_queues. rewrite list_insert_id by (by destruct Q). by destruct s.
Qed.

(** The first half of [reschedule]: the queue is without the event, which counts
    as not scheduled there. *)
Lemma reschedule_first s B q Q x e :
  wf_bins s B -> mainEventQueue s !! q = Some Q -> events s !! x = Some e ->
  (scheduled e = true -> x ∈ elems (B q)) ->
  exists h1 p e1,
    (if scheduled e then q_remove s q x else acquire s x) =
      Ok (set_queue q (set_head p Q) (set_events h1 s)) /\ h1 !! x = Some e1 /\
    erase e1 = erase e /\ same_data (events s) h1 /\
    wf_bins (set_queue q (set_head p Q) (set_events (<[x := flag_clear Scheduled e1]> h1) s))
      (upd B q (bins_without e x (B q))).
Proof.
  intros Hw HQ He Hx. unfold bins_without. destruct (scheduled e) eqn:Hse.
  - destruct (remove_member s B q Q x e) as (h1 & p & e1 & Hr & He1 & Her & Hsd & Hwf); auto.
    exists h1, p, e1. unfold q_remove. rewrite (get_queue_some _ _ _ HQ). cbn [obind].
    rewrite Hr. split_and!; auto.
    apply (Hwf (Some (flag_clear Scheduled e1))). intros e' [= <-]. apply scheduled_clear.
  - exists (events s), (head Q), e. unfold acquire. rewrite (load_some _ _ _ He). cbn [obind].
    split_and!; auto; [| done |].
    + f_equal. symmetry. etransitivity; [| by apply (same_queue s q Q)]. by destruct s.
    + rewrite same_queue by done. eapply wf_ext; [apply (wf_event s B x (Some (flag_clear Scheduled e))) |].
      * done.
      * intros e0 e' He0 [= <-]. rewrite He in He0. injection He0 as <-.
        rewrite scheduled_clear, Hse. done.
      * done.
      * congruence.
      * intros q'. unfold upd. by case_decide as Hq; [rewrite Hq |].
Qed.

Lemma reschedule_ok s B q Q x e when always :
  wf_bins s B -> mainEventQueue s !! q = Some Q -> events s !! x = Some e ->
  (scheduled e = true -> x ∈ elems (B q)) -> always || scheduled e = true ->
  initialized e = true -> mode_ok s q = true -> _curTick Q <= when ->
  exists s' e' B', reschedule s q x when always = Ok s' /\ wf_bins s' B' /\
    B' q = bins_insert (when, _priority e) x (bins_without e x (B q)) /\
    (forall q', q' ≠ q -> B' q' = B q') /\ only s s' x /\
    events s' !! x = Some e' /\ scheduled e' = true /\ queue e' = Some q /\
    _when e' = when /\ _priority e' = _priority e /\ initialized e' = true.
Proof.
  intros Hw HQ He Hx Ha Hi Hm Hwhen. unfold reschedule. fold (mode_ok s q).
  rewrite (get_queue_some _ _ _ HQ), (load_some _ _ _ He). cbn [obind].
  replace (_curTick Q <=? when) with true by lia. rewrite Ha, Hi, Hm. cbn [assert_ obind].
  destruct (reschedule_first s B q Q x e) as (h1 & p & e1 & -> & He1 & Her & Hsd & Hwf); auto.
  cbn [obind]. rewrite (write_event_some _ x e1) by done. cbn [obind].
  set (s1 := set_queue q (set_head p Q) (set_events (<[x := flag_clear Scheduled e1]> h1) s)) in Hwf.
  set (h2 := <[x := setWhen when q e1]> h1).
  assert (mainEventQueue s1 !! q = Some (set_head p Q)) as HQ1 by (by apply (queue_bound s q Q)).
  destruct (insert_fresh s1 _ q (set_head p Q) x (setWhen when q e1) h2
    (set_flags (clear_flags (flags e1) Squashed) Scheduled) Hwf HQ1)
    as (h3 & p' & e3 & Hin & He3 & Her3 & Hoth & Hwf').
  { intros. eapply unscheduled_absent; [done | by apply lookup_insert_eq | apply scheduled_clear | done]. }
  { intros. unfold h2, s1. simpl. by rewrite !lookup_insert_ne. }
  { apply lookup_insert_eq. } { done. } { apply (flags_cases (clear_flags (flags e1) Squashed)). }
  injection Her as Hew Hep Hef Heq. injection Her3 as Hew3 Hep3 Hef3 Heq3.
  simpl in Hew, Hep, Hef, Heq, Hew3, Hep3, Hef3, Heq3.
  unfold q_insert. rewrite (get_queue_some _ q (set_head p Q)) by done. cbn [obind].
  simpl events. fold h2. simpl head in Hin |- *. rewrite Hin. cbn [obind].
  erewrite write_event_some by done. cbn [obind].
  erewrite write_event_some by (simpl; apply lookup_insert_eq).
  simpl events. rewrite insert_insert_eq.
  assert (flag_set Scheduled (flag_clear Squashed e3) =
    with_flags (set_flags (clear_flags (flags e1) Squashed) Scheduled) e3) as Hfe.
  { unfold flag_set, flag_clear, with_flags. simpl. by rewrite Hef3. }
  rewrite upd_eq in Hwf'. eexists _, _, _. split; [done |]. split; [by rewrite Hfe |].
  split_and!.
  - rewrite upd_eq. unfold evkey. simpl. by rewrite Hep.
  - intros q' Hq'. by rewrite !upd_ne.
  - split_and!; try done.
    + intros y Hy. simpl. rewrite lookup_insert_ne by done. rewrite Hoth by done.
      unfold s1. simpl. rewrite lookup_insert_ne by done. apply Hsd.
    + transitivity (ticks s1); [exact (ticks_head s1 q _ p' h3 HQ1) | exact (ticks_head s q Q p h1 HQ)].
  - simpl. apply lookup_insert_eq.
  - apply scheduled_set.
  - done.
  - done.
  - simpl. congruence.
  - rewrite init_set_flag, init_clear_flag by done. rewrite <- Hi. unfold initialized. congruence.
Qed.

(** ** What every operation keeps *)

(** The serial mode: no queue has asynchronous insertions. *)
Definition serial (s : Sim) : Prop :=
  inParallelMode s = false /\
  forall q Q, mainEventQueue s !! q = Some Q -> async_queue Q = [].

(** No event is scheduled in the past of its queue. *)
Definition timely (s : Sim) : Prop :=
  forall x e q Q, events s !! x = Some e -> scheduled e = true -> queue e = Some q ->
    mainEventQueue s !! q = Some Q -> 0 <= _curTick Q <= _when e.

Definition all_init (s : Sim) : Prop :=
  forall x e, events s !! x = Some e -> initialized e = true.

Record inv (s : Sim) : Prop := {
  inv_wf : wf s;
  inv_init : all_init s;
}.

Record serial_inv (s : Sim) : Prop := {
  sinv_serial : serial s;
  sinv_timely : timely s;
  sinv_clock : forall q Q, mainEventQueue s !! q = Some Q -> 0 <= _curTick Q;
}.

(** The frame of an operation on [x] carries the invariants over, given [x]. *)
Lemma only_init s s' x : only s s' x -> all_init s ->
  (forall e, events s' !! x = Some e -> initialized e = true) -> all_init s'.
Proof.
  intros (Hf & _) Hi Hx y e He. destruct (decide (y = x)) as [-> | Hne]; [auto |].
  specialize (Hf y Hne). rewrite He in Hf. destruct (events s !! y) as [e' |] eqn:He'; [| done].
  apply (inj Some) in Hf. rewrite (initialized_erase e' e Hf). by apply (Hi y).
Qed.

Lemma only_serial s s' x : only s s' x -> serial_inv s ->
  (forall e q Q, events s' !! x = Some e -> scheduled e = true -> queue e = Some q ->
    mainEventQueue s !! q = Some Q -> _curTick Q <= _when e) -> serial_inv s'.
Proof.
  intros (Hf & Ht & Hp & _) [[Hpar Has] Htm Hck] Hx. split.
  - split; [congruence |]. intros q Q' HQ'.
    destruct (ticks_lookup s s' q Q' Ht HQ') as (Q & HQ & _ & <-). by apply (Has q).
  - intros y e q Q' He Hse Hq HQ'.
    destruct (ticks_lookup s s' q Q' Ht HQ') as (Q & HQ & Hc & _). rewrite <- Hc.
    destruct (decide (y = x)) as [-> | Hne]; [split; [by eapply Hck | by eapply Hx] |].
    specialize (Hf y Hne). rewrite He in Hf. destruct (events s !! y) as [e' |] eqn:He'; [| done].
    apply (inj Some) in Hf. destruct (scheduled_erase e' e Hf) as [Hs1 Hq1].
    assert (_when e = _when e') as -> by (by injection Hf).
    apply (Htm y e' q Q); congruence.
  - intros q Q' HQ'. destruct (ticks_lookup s s' q Q' Ht HQ') as (Q & HQ & <- & _). by apply (Hck q).
Qed.

(** What one call of the interface may do. *)
Definition keeps (s s' : Sim) : Prop :=
  inv s' /\ (serial_inv s -> serial_inv s' /\ ticks s' = ticks s /\ _curEventQueue s' = _curEventQueue s).

Lemma sim_keeps_trans s1 s2 s3 : keeps s1 s2 -> keeps s2 s3 -> keeps s1 s3.
Proof.
  intros [H1 H2] [H3 H4]. split; [done |]. intros Hs. destruct (H2 Hs) as (Hs2 & Ht2 & Hc2).
  destruct (H4 Hs2) as (Hs3 & Ht3 & Hc3). split_and!; [done | congruence | congruence].
Qed.

Lemma keeps_only s s' x :
  wf s' -> only s s' x -> all_init s ->
  (forall e, events s' !! x = Some e -> initialized e = true) ->
  (forall e q Q, serial_inv s -> events s' !! x = Some e -> scheduled e = true -> queue e = Some q ->
    mainEventQueue s !! q = Some Q -> _curTick Q <= _when e) -> keeps s s'.
Proof.
  intros Hw Ho Hi Hxi Hxt. split; [split; [done | by eapply only_init] |].
  intros Hs. split_and!; [eapply only_serial; eauto | apply Ho | apply Ho].
Qed.

Lemma new_Event_flags p f e : new_Event p f = Ok e ->
  scheduled e = false /\ initialized e = true.
Proof.
  unfold new_Event. intros H. obind_inv. unfold noneSet in Hassert. apply Z.eqb_eq in Hassert.
  assert (forall m, Z.land (wnot 16 PublicWrite) m = m -> Z.land f m = 0) as Hm.
  { intros m Hm. by rewrite <- Hm, Z.land_assoc, Hassert. }
  unfold scheduled, initialized, isSet, truthy. simpl flags.
  rewrite !Z.land_lor_distr_l, (Hm Scheduled), (Hm InitMask) by done. done.
Qed.

Lemma keeps_event s x (me : option Event) :
  inv s ->
  (forall e e', events s !! x = Some e -> me = Some e' -> erase (flag_set Squashed e') = erase (flag_set Squashed e) /\
     nextBin e' = nextBin e /\ nextInBin e' = nextInBin e /\ initialized e' = true) ->
  (forall e, events s !! x = Some e -> me = None -> scheduled e = false) ->
  (forall e', events s !! x = None -> me = Some e' -> scheduled e' = false /\ initialized e' = true) ->
  keeps s (set_events (partial_alter (fun _ => me) x (events s)) s).
Proof.
  intros [[B Hw] Hi] Hkeep Hdel Hnew.
  assert (forall e e', events s !! x = Some e -> me = Some e' ->
    scheduled e' = scheduled e /\ queue e' = queue e /\ evkey e' = evkey e /\ _when e' = _when e) as Hk.
  { intros e e' He He'. destruct (Hkeep e e' He He') as (Her & _).
    destruct (scheduled_erase _ _ Her) as [Hs Hq]. rewrite !scheduled_set_squashed in Hs.
    injection Her as H1 H2 _ H3. split_and!; auto. unfold evkey. congruence. }
  apply keeps_only with x.
  - exists B. apply wf_event; auto.
    + intros e e' He He'. destruct (Hk e e' He He') as (? & ? & ? & ?).
      destruct (Hkeep e e' He He') as (_ & ? & ? & _). auto.
    + intros e' He He'. by apply (Hnew e').
  - split_and!; try done. intros y Hy. simpl. by rewrite lookup_partial_alter_ne.
  - done.
  - simpl. intros e'. rewrite lookup_partial_alter_eq. intros ->.
    destruct (events s !! x) as [e |] eqn:He; [by apply (Hkeep e) | by apply Hnew].
  - simpl. intros e' q Q [_ Htm _]. rewrite lookup_partial_alter_eq. intros -> Hs' Hq HQ.
    destruct (events s !! x) as [e |] eqn:He.
    + destruct (Hk e e') as (H1 & H2 & _ & ->); auto. apply (Htm x e q Q); congruence.
    + destruct (Hnew e') as [? _]; congruence.
Qed.

(** A removal that returns has found the event. *)
Lemma remove_inv s B q Q x e r :
  wf_bins s B -> mainEventQueue s !! q = Some Q -> events s !! x = Some e ->
  remove (events s) q (head Q) x = Ok r -> x ∈ elems (B q).
Proof.
  intros Hw HQ He Hr. destruct (wf_chain _ _ Hw _ _ HQ) as (Hc & Hs & _).
  destruct (decide (x ∈ elems (B q))) as [| Hx]; [done |]. exfalso.
  destruct (decide (queue e = Some q)) as [Hq | Hq].
  - by rewrite (remove_absent (events s) q (head Q) (B q) x e) in Hr.
  - unfold remove in Hr. destruct (head Q); [| done].
    rewrite (load_some _ _ _ He) in Hr. cbn [obind] in Hr. by rewrite bool_decide_false in Hr.
Qed.

Lemma get_queue_Ok s q Q : get_queue s q = Ok Q -> mainEventQueue s !! q = Some Q.
Proof. unfold get_queue. destruct (mainEventQueue s !! q); congruence. Qed.

Lemma load_Ok h x e : load h x = Ok e -> h !! x = Some e.
Proof. unfold load. destruct (h !! x); congruence. Qed.

(** The guards that a call has passed. *)
Ltac guards :=
  obind_inv;
  repeat match goal with
  | H : negb _ = true |- _ => apply negb_true_iff in H
  | H : (_ <=? _) = true |- _ => apply Z.leb_le in H
  | H : load _ _ = Ok _ |- _ => apply load_Ok in H
  | H : get_queue _ _ = Ok _ |- _ => apply get_queue_Ok in H
  end.

Lemma schedule_keeps s q x when g s' : inv s -> schedule s q x when g = Ok s' -> keeps s s'.
Proof.
  intros [[B Hw] Hi] H. pose proof H as H0. unfold schedule in H0.
  apply obind_Ok in H0 as (Q & HQ & H0). apply obind_Ok in H0 as (? & Ha & H0).
  apply obind_Ok in H0 as (e & He & H0). guards.
  destruct (inParallelMode s && (bool_decide (_curEventQueue s ≠ Some q) || g)) eqn:Hpar.
  - destruct (schedule_async s B q Q x e when g) as (s1 & Hs & Hwf & _ & Hf & Hx); auto.
    rewrite Hs in H. injection H as <-. split.
    + split; [by eexists |]. intros y e' He'. destruct (decide (y = x)) as [-> |]; [by apply Hx |].
      rewrite Hf in He' by done. by apply (Hi y).
    + intros [[Hp _] _ _]. by rewrite Hp in Hpar.
  - destruct (schedule_ok s B q Q x e when g) as (s1 & e' & Hs & Hwf & Ho & He' & Hse & Hq & Hwh & _ & Hin); auto.
    rewrite Hs in H. injection H as <-. apply keeps_only with x; auto; [by eexists | congruence |].
    intros e2 q2 Q2 _ He2 _ Hq2 HQ2. assert (e2 = e') as -> by congruence.
    assert (q2 = q) as -> by congruence. assert (Q2 = Q) as -> by congruence. lia.
Qed.

Lemma deschedule_keeps s q x s' : inv s -> deschedule s q x = Ok s' -> keeps s s'.
Proof.
  intros [[B Hw] Hi] H. pose proof H as H0. unfold deschedule in H0. fold (mode_ok s q) in H0.
  apply obind_Ok in H0 as (e & He & H0). do 3 apply obind_Ok in H0 as (? & ? & H0).
  apply obind_Ok in H0 as (s1 & Hrm & _). unfold q_remove in Hrm.
  apply obind_Ok in Hrm as (Q & HQ & Hrm). apply obind_Ok in Hrm as (r & Hrm & _). guards.
  assert (x ∈ elems (B q)) as Hx by (by eapply remove_inv).
  destruct (deschedule_ok s B q Q x e) as (s2 & Hs & Hwf & Ho & Hoff); auto.
  rewrite Hs in H. injection H as <-. apply keeps_only with x; auto; [by eexists | |].
  - intros e' He'. by apply Hoff.
  - intros e' q' Q' _ He' Hs'. destruct (Hoff e' He'). congruence.
Qed.

Lemma reschedule_keeps s q x when always s' :
  inv s -> reschedule s q x when always = Ok s' -> keeps s s'.
Proof.
  intros [[B Hw] Hi] H. pose proof H as H0. unfold reschedule in H0. fold (mode_ok s q) in H0.
  apply obind_Ok in H0 as (Q & HQ & H0). apply obind_Ok in H0 as (? & ? & H0).
  apply obind_Ok in H0 as (e & He & H0). do 3 apply obind_Ok in H0 as (? & ? & H0).
  apply obind_Ok in H0 as (s1 & Hrm & _). guards.
  assert (scheduled e = true -> x ∈ elems (B q)) as Hx.
  { intros Hse. rewrite Hse in Hrm. unfold q_remove in Hrm. rewrite (get_queue_some _ _ _ HQ) in Hrm.
    cbn [obind] in Hrm. apply obind_Ok in Hrm as (r & Hrm & _). by eapply remove_inv. }
  destruct (reschedule_ok s B q Q x e when always)
    as (s2 & e' & B' & Hs & Hwf & _ & _ & Ho & He' & Hse & Hq & Hwh & _ & Hin); auto.
  rewrite Hs in H. injection H as <-. apply keeps_only with x; auto; [by eexists | congruence |].
  intros e2 q2 Q2 _ He2 _ Hq2 HQ2. assert (e2 = e') as -> by congruence.
  assert (q2 = q) as -> by congruence. assert (Q2 = Q) as -> by congruence. lia.
Qed.

Lemma apply_op_keeps o s s' : inv s -> apply_op o s = Ok s' -> keeps s s'.
Proof.
  intros Hinv. destruct o as [x p f | x | q x w g | q x | q x w a | x]; simpl; intros H.
  - apply obind_Ok in H as (e & He & H). destruct (events s !! x) eqn:Hx; [done |]. injection H as <-.
    apply new_Event_flags in He. apply (keeps_event s x (Some e)); auto; [congruence | congruence |].
    by intros e' _ [= <-].
  - unfold delete_event in H. apply obind_Ok in H as (e & He & H). guards.
    apply (keeps_event s x None); auto; [done | congruence |]. done.
  - by eapply schedule_keeps.
  - by eapply deschedule_keeps.
  - by eapply reschedule_keeps.
  - unfold squash in H. apply obind_Ok in H as (h & Hst & H). unfold store in Hst.
    apply obind_Ok in Hst as (e & He & Hst). guards.
    apply (keeps_event s x (Some (flag_set Squashed e))); auto; [| congruence | congruence].
    intros e0 e' He0 [= <-]. assert (e0 = e) as -> by congruence. split_and!; try done.
    + unfold flag_set, set_flags, erase. simpl. by rewrite <- Z.lor_assoc.
    + rewrite init_set_flag by done. destruct Hinv as [_ Hi]. by apply (Hi x).
Qed.

Lemma run_ops_keeps l s s' : inv s -> run_ops l s = Ok s' -> keeps s s'.
Proof.
  revert s. induction l as [| o l IH]; simpl; intros s Hinv H.
  - injection H as <-. split; [done |]. auto.
  - apply obind_Ok in H as (s1 & H1 & H2). pose proof (apply_op_keeps o s s1 Hinv H1) as Hk.
    eapply sim_keeps_trans; [done |]. apply IH; [apply Hk | done].
Qed.

(** ** Service *)

Lemma pop_ok s B q Q x :
  wf_bins s B -> mainEventQueue s !! q = Some Q -> head Q = Some x ->
  exists h p e e1, pop_head (events s) x = Ok (h, p) /\ events s !! x = Some e /\
    h !! x = Some e1 /\ erase e1 = erase (flag_clear Scheduled e) /\
    elems (B q) = x :: elems (bins_pop (B q)) /\
    (forall y, y ≠ x -> erase <$> h !! y = erase <$> events s !! y) /\
    wf_bins (set_queue q (set_head p Q) (set_events h s)) (upd B q (bins_pop (B q))).
Proof.
  intros Hw HQ Hx. destruct (wf_chain _ _ Hw _ _ HQ) as (Hc & Hs & Hn). rewrite Hx in Hc.
  destruct (pop_head_spec (events s) x (B q)) as (e & h & p & He & Hp & Hch & Hel & Hsd & Hfr);
    [done | apply Hs |].
  destruct (same_data_some h (<[x := flag_clear Scheduled e]> (events s)) x (flag_clear Scheduled e))
    as (e1 & He1 & Her); [by symmetry | apply lookup_insert_eq |].
  assert (forall y, y ≠ x -> erase <$> h !! y = erase <$> events s !! y) as Hoth.
  { intros y Hy. rewrite Hsd. by rewrite lookup_insert_ne. }
  exists h, p, e, e1. split_and!; auto.
  rewrite Hel in Hn. simpl in Hn. apply NoDup_cons in Hn as [Hxn Hn].
  assert (scheduled e1 = false) as Hoff.
  { destruct (scheduled_erase _ _ Her) as [Hs1 _]. rewrite <- Hs1. apply scheduled_clear. }
  apply wf_update with Q x; auto; simpl.
  - by apply bins_pop_sorted.
  - intros y Hy Hyb. rewrite Hfr by done. by rewrite lookup_insert_ne.
  - intros y Hy. rewrite Hel. simpl. rewrite elem_of_cons. tauto.
  - intros q' Q' Hne HQ'. apply (other_queue_absent s B x q Q q' Q'); auto. rewrite Hel. left.
  - intros Hin. done.
  - rewrite He1. intros e' [= <-] He'. congruence.
Qed.

(** A queue that only moves its clock. *)
Lemma wf_clock s B q Q t : wf_bins s B -> mainEventQueue s !! q = Some Q ->
  wf_bins (set_queue q (setCurTick t Q) s) B.
Proof.
  intros [H1 H2 H3] HQ. assert (q < length (mainEventQueue s))%nat by (by eapply lookup_lt_Some).
  assert (forall q' Q', mainEventQueue (set_queue q (setCurTick t Q) s) !! q' = Some Q' ->
    exists Q0, mainEventQueue s !! q' = Some Q0 /\ head Q' = head Q0 /\ async_queue Q' = async_queue Q0) as Hq.
  { simpl. intros q' Q'. destruct (decide (q' = q)) as [-> |].
    - rewrite list_lookup_insert_eq by done. intros [= <-]. eauto.
    - rewrite list_lookup_insert_ne by done. eauto. }
  split.
  - intros q' Q' (Q0 & HQ0 & -> & ->)%Hq. by apply H1.
  - intros q' Q' x (Q0 & HQ0 & _ & ->)%Hq. by apply H2.
  - intros x e He Hse. destruct (H3 x e He Hse) as (q' & Q' & Hqe & HQ' & Hx). exists q'.
    destruct (decide (q' = q)) as [-> |].
    + exists (setCurTick t Q). simpl. rewrite list_lookup_insert_eq by done.
      assert (Q' = Q) as -> by congruence. auto.
    + exists Q'. simpl. rewrite list_lookup_insert_ne by done. auto.
Qed.

Lemma release_keeps s x s' : inv s -> release s x = Ok s' -> keeps s s'.
Proof.
  intros Hinv H. pose proof H as H0. unfold release in H0.
  apply obind_Ok in H0 as (e & He & _). apply load_Ok in He.
  destruct (scheduled e) eqn:Hse.
  - rewrite (release_scheduled s x e) in H by done. injection H as <-. split; auto.
  - rewrite (release_unscheduled s x e) in H by done. injection H as <-.
    apply keeps_event; auto; [| congruence | congruence].
    intros e0 e' He0. destruct (isManaged e); [done |]. intros [= <-].
    assert (e0 = e) as -> by congruence. split_and!; try done. destruct Hinv as [_ Hi]. by apply (Hi x).
Qed.

(** The first event of a queue has no event before it. *)
Lemma head_first h p bs x l : chain h p bs -> sorted_bins bs -> elems bs = x :: l ->
  forall y, y ∈ l -> klt (rank h y) (rank h x) = false.
Proof.
  destruct bs as [| [k b] bs]; [done |]. intros Hc Hs Hel y Hy.
  pose proof Hc as (x' & e & l' & -> & _). rewrite elems_cons in Hel. injection Hel as -> Hl.
  rewrite (bin_rank h p k (x :: l') bs x Hc) by left. subst l. apply elem_of_app in Hy as [Hy | Hy].
  - rewrite (bin_rank h p k (x :: l') bs y Hc) by (by right). apply klt_refl.
  - apply klt_asym. by eapply later_ranks.
Qed.

Lemma klt_when k k' : klt k k' = false -> k'.1 <= k.1.
Proof. destruct k, k'. unfold klt; simpl. zcases; simpl; intros; try done; lia. Qed.

(** The head of the queue leaves it; what stays is not before it. *)
Lemma pop_keeps s q Q x :
  inv s -> mainEventQueue s !! q = Some Q -> head Q = Some x ->
  exists h p e e1, pop_head (events s) x = Ok (h, p) /\ events s !! x = Some e /\
    h !! x = Some e1 /\ erase e1 = erase (flag_clear Scheduled e) /\
    scheduled e = true /\ queue e = Some q /\
    let s1 := set_queue q (set_head p Q) (set_events h s) in
    keeps s s1 /\
    (serial_inv s -> forall y ey, events s1 !! y = Some ey -> scheduled ey = true -> queue ey = Some q ->
       _when e <= _when ey).
Proof.
  intros [[B Hw] Hi] HQ Hx.
  destruct (pop_ok s B q Q x) as (h & p & e & e1 & Hp & He & He1 & Her & Hel & Hoth & Hwf); auto.
  destruct (wf_in _ _ Hw q Q x HQ) as (e0 & He0 & Hse & Hqe); [rewrite Hel; left |].
  assert (e0 = e) as -> by congruence.
  exists h, p, e, e1. split_and!; auto. intros s1.
  assert (scheduled e1 = false) as Hoff.
  { destruct (scheduled_erase _ _ Her) as [-> _]. apply scheduled_clear. }
  split.
  - apply keeps_only with x; auto.
    + by eexists.
    + split_and!; try done. by apply ticks_head.
    + simpl. rewrite He1. intros e' [= <-]. rewrite (initialized_erase _ _ Her).
      rewrite init_clear_flag by done. by apply (Hi x).
    + simpl. rewrite He1. intros e' q' Q' _ [= <-]. congruence.
  - intros [[_ Has] _ _] y ey Hy Hsy Hqy.
    destruct (wf_out _ _ Hwf y ey Hy Hsy) as (q' & Q' & Hq' & HQ' & Hin).
    assert (q' = q) as -> by congruence. rewrite upd_eq in Hin.
    rewrite (queue_bound s q Q HQ) in HQ'. injection HQ' as <-. simpl in Hin.
    rewrite (Has q Q HQ), app_nil_r in Hin.
    destruct (wf_chain _ _ Hw _ _ HQ) as (Hc & Hs & _).
    pose proof (head_first _ _ _ _ _ Hc Hs Hel y Hin) as Hk%klt_when. unfold rank in Hk.
    rewrite He in Hk. destruct (decide (y = x)) as [-> | Hne].
    { simpl in Hy. congruence. }
    specialize (Hoth y Hne). simpl in Hy. rewrite Hy in Hoth.
    destruct (events s !! y) as [ey' |]; [| done]. apply (inj Some) in Hoth.
    simpl in Hk. injection Hoth as -> _ _ _. done.
Qed.

Lemma ticks_clock s q Q t : mainEventQueue s !! q = Some Q ->
  ticks (set_queue q (setCurTick t Q) s) = <[q := (t, async_queue Q)]> (ticks s).
Proof. intros HQ. unfold ticks. simpl. by rewrite list_fmap_insert. Qed.

(** Moving the clock of a queue up to a time that none of its events is before. *)
Lemma clock_keeps s q Q t :
  inv s -> mainEventQueue s !! q = Some Q ->
  let s' := set_queue q (setCurTick t Q) s in
  inv s' /\ (serial_inv s -> 0 <= t ->
    (forall y e, events s !! y = Some e -> scheduled e = true -> queue e = Some q -> t <= _when e) ->
    serial_inv s').
Proof.
  intros [[B Hw] Hi] HQ s'. split.
  - split; [exists B; by apply wf_clock | done].
  - intros [[Hp Has] Htm Hck] Ht Hall.
    assert (q < length (mainEventQueue s))%nat by (by eapply lookup_lt_Some). split.
    + split; [done |]. simpl. intros q' Q'. destruct (decide (q' = q)) as [-> |].
      * rewrite list_lookup_insert_eq by done. intros [= <-]. exact (Has q Q HQ).
      * rewrite list_lookup_insert_ne by done. by apply Has.
    + intros x e q' Q' He Hs Hqe. simpl. destruct (decide (q' = q)) as [-> |].
      * rewrite list_lookup_insert_eq by done. intros [= <-]. simpl. split; [done | exact (Hall x e He Hs Hqe)].
      * rewrite list_lookup_insert_ne by done. by apply (Htm x).
    + simpl. intros q' Q'. destruct (decide (q' = q)) as [-> |].
      * rewrite list_lookup_insert_eq by done. by intros [= <-].
      * rewrite list_lookup_insert_ne by done. by apply Hck.
Qed.

Lemma sim_keeps_refl s : inv s -> keeps s s.
Proof. intros. split; auto. Qed.

Lemma clear_squashed_keeps s x s' :
  inv s -> write_event x (flag_clear Squashed) s = Ok s' -> keeps s s'.
Proof.
  intros Hinv H. unfold write_event, store in H. apply obind_Ok in H as (h & Hst & H).
  apply obind_Ok in Hst as (e & He & Hst). guards.
  apply (keeps_event s x (Some (flag_clear Squashed e))); auto; [| congruence | congruence].
  intros e0 e' He0 [= <-]. assert (e0 = e) as -> by congruence. split_and!; try done.
  - assert (Z.lor (clear_flags (flags e) Squashed) Squashed = Z.lor (flags e) Squashed) as Hf.
    2: { unfold flag_set, flag_clear, set_flags, erase, with_flags. simpl. by rewrite Hf. }
    unfold clear_flags. apply Z.bits_inj'. intros i Hi. rewrite !Z.lor_spec, Z.land_spec, Z.lnot_spec by lia.
    by destruct (Z.testbit (flags e) i), (Z.testbit Squashed i).
  - rewrite init_clear_flag by done. destruct Hinv as [_ Hi]. by apply (Hi x).
Qed.

(** The second half of [serviceOne], from the state [s1] without the event. *)
Lemma service_action process `{!EventHandler process} s1 q Q1 x t s' r :
  inv s1 -> mainEventQueue s1 !! q = Some Q1 ->
  (let! s := process x (set_queue q (setCurTick t Q1) s1) in
   let! e := load (events s) x in
   if isExitEvent e then
     do! assert_ (negb (isManaged e) || negb (isSet (flags e) IsMainQueue)) then Ok (s, Some x)
   else let! s := release s x in Ok (s, None)) = Ok (s', r) ->
  keeps (set_queue q (setCurTick t Q1) s1) s'.
Proof.
  intros Hinv HQ1 H. destruct (clock_keeps s1 q Q1 t Hinv HQ1) as [Hi2 _].
  apply obind_Ok in H as (s3 & Hpr & H). destruct (process_ops x (set_queue q (setCurTick t Q1) s1)) as [l Hl].
  rewrite Hl in Hpr. pose proof (run_ops_keeps _ _ _ Hi2 Hpr) as Hk.
  apply obind_Ok in H as (e & He & H). destruct (isExitEvent e).
  - apply obind_Ok in H as (? & _ & H). by injection H as <- <-.
  - apply obind_Ok in H as (s4 & Hrel & H). injection H as <- <-.
    eapply sim_keeps_trans; [done |]. eapply release_keeps; [apply Hk | done].
Qed.

(** [serviceOne] serves the first event: its time is not before the clock, which
    moves to it unless the event is squashed. *)
Lemma serviceOne_effect process `{!EventHandler process} s q s' r :
  inv s -> serviceOne process s q = Ok (s', r) ->
  inv s' /\ exists Q x e, mainEventQueue s !! q = Some Q /\ head Q = Some x /\
    events s !! x = Some e /\ scheduled e = true /\ queue e = Some q /\
    (serial_inv s -> serial_inv s' /\ _curTick Q <= _when e /\
      ticks s' = <[q := (if squashed e then _curTick Q else _when e, [])]> (ticks s) /\
      _curEventQueue s' = _curEventQueue s).
Proof.
  intros Hinv H. unfold serviceOne in H. apply obind_Ok in H as (Q & HQ%get_queue_Ok & H).
  destruct (head Q) as [x |] eqn:Hx; [| done].
  destruct (pop_keeps s q Q x) as (h & p & e & e1 & Hp & He & He1 & Her & Hse & Hqe & Hk & Hmin); auto.
  rewrite Hp in H. cbn [obind] in H.
  set (s1 := set_queue q (set_head p Q) (set_events h s)) in *.
  assert (events s1 !! x = Some e1) as Hs1 by done.
  rewrite (load_some _ _ _ Hs1) in H. cbn [obind] in H.
  assert (squashed e1 = squashed e /\ _when e1 = _when e) as [Hsq Hwh].
  { injection Her as Hw _ Hf _. split; [| done]. unfold squashed. rewrite Hf.
    apply (flags_cases (flags e)). }
  assert (mainEventQueue s1 !! q = Some (set_head p Q)) as HQ1 by (by apply (queue_bound s q Q)).
  assert (serial_inv s -> _curTick Q <= _when e /\ 0 <= _curTick Q /\ async_queue Q = []) as Htime.
  { intros [[_ Ha] Htm Hck]. split_and!; [exact (proj2 (Htm x e q Q He Hse Hqe HQ)) | by eapply Hck | by eapply Ha]. }
  rewrite Hsq in H. destruct (squashed e) eqn:Esq; cbn [negb] in H.
  - apply obind_Ok in H as (s2 & Hw2 & H). apply obind_Ok in H as (s3 & Hrel & H). injection H as <- <-.
    pose proof (clear_squashed_keeps s1 x s2 (proj1 Hk) Hw2) as Hk2.
    pose proof (release_keeps s2 x s3 (proj1 Hk2) Hrel) as Hk3.
    pose proof (sim_keeps_trans _ _ _ Hk (sim_keeps_trans _ _ _ Hk2 Hk3)) as Hall.
    split; [apply Hall |]. exists Q, x, e. split_and!; auto. intros Hs.
    destruct (proj2 Hall Hs) as (Hs3 & Ht3 & Hc3). destruct (Htime Hs) as (? & ? & Ha).
    split_and!; [done | done | | done].
    rewrite Ht3. symmetry. apply list_insert_id. unfold ticks.
    rewrite list_lookup_fmap, HQ. simpl. by rewrite Ha, Esq.
  - rewrite (get_queue_some _ _ _ HQ1) in H. cbn [obind] in H.
    pose proof (service_action process s1 q (set_head p Q) x (_when e1) s' r (proj1 Hk) HQ1 H) as Ha.
    split; [apply Ha |]. exists Q, x, e. split_and!; auto. intros Hs.
    destruct (Htime Hs) as (Ht1 & Ht2 & Hempty). destruct (proj2 Hk Hs) as (Hss1 & Ht & Hcur).
    destruct (clock_keeps s1 q (set_head p Q) (_when e1) (proj1 Hk) HQ1) as [_ Hck].
    destruct (proj2 Ha) as (Hs' & Ht' & Hcur').
    { apply Hck; [done | lia |]. intros y ey. rewrite Hwh. apply (Hmin Hs). }
    split_and!; [done | done | | by rewrite Hcur']. rewrite Ht', (ticks_clock s1 q (set_head p Q)), Ht, Hwh by done.
    simpl. by rewrite Hempty, Esq.
Qed.

(** ** Asynchronous insertions *)

Lemma async_step s B q Q x l :
  wf_bins s B -> mainEventQueue s !! q = Some Q -> async_queue Q = x :: l ->
  exists e h p, events s !! x = Some e /\ insert (events s) (head Q) x = Ok (h, p) /\
    same_data (events s) h /\
    wf_bins (set_queue q (set_async l (set_head p Q)) (set_events h s))
      (upd B q (bins_insert (evkey e) x (B q))).
Proof.
  intros Hw HQ Ha. destruct (wf_chain _ _ Hw _ _ HQ) as (Hc & Hs & Hn). rewrite Ha in Hn.
  destruct (wf_in _ _ Hw q Q x HQ) as (e & He & Hse & Hqe).
  { rewrite Ha, elem_of_app. right. left. }
  apply NoDup_app in Hn as (Hn1 & Hd & Hn2). apply NoDup_cons in Hn2 as [Hxl Hl].
  assert (x ∉ elems (B q)) as Hx by (intros Hin; apply (Hd x Hin); left).
  destruct (insert_spec (events s) (head Q) (B q) x e) as (h & p & Hi & Hch & Hsd & Hfr); auto.
  destruct (same_data_some h (events s) x e) as (e1 & He1 & Her); [by symmetry | done |].
  destruct (scheduled_erase _ _ Her) as [Hs1 Hq1].
  exists e, h, p. split_and!; auto.
  assert (forall y, y ∈ elems (bins_insert (evkey e) x (B q)) ++ l <->
    y ∈ elems (B q) ++ async_queue Q) as Hmem.
  { intros y. rewrite Ha, !elem_of_app, elem_of_bins_insert, elem_of_cons. tauto. }
  apply wf_update with Q x; auto; simpl.
  - by apply bins_insert_sorted.
  - rewrite bins_insert_perm. simpl. constructor; [rewrite elem_of_app; tauto |].
    apply NoDup_app. split_and!; [done | | done]. intros y Hy Hyl. apply (Hd y Hy). by right.
  - intros y Hy Hyb. apply Hfr. rewrite elem_of_cons. tauto.
  - intros q' Q' Hne HQ'. apply (other_queue_absent s B x q Q q' Q'); auto.
    rewrite Ha, elem_of_app. right. left.
  - intros _. exists e1. split_and!; congruence.
  - intros e' He' Hs'. assert (e' = e1) as -> by congruence. split; [congruence |].
    apply Hmem. rewrite Ha, elem_of_app. right. left.
Qed.

Lemma rank_same h h' x : same_data h h' -> rank h' x = rank h x.
Proof.
  intros Hs. specialize (Hs x). unfold rank. destruct (h' !! x), (h !! x); simpl in *; try done.
  apply (inj Some) in Hs. injection Hs as H1 H2 _ _. unfold evkey. congruence.
Qed.

Lemma place_same h h' k x l : same_data h h' -> place h' k x l = place h k x l.
Proof.
  intros Hs. unfold place. f_equal; [| f_equal]; apply list_filter_iff; intros y;
    by rewrite (rank_same h h' y Hs).
Qed.

(** All waiting events are inserted, one after the other. *)
Lemma async_loop_ok q l s B Q :
  wf_bins s B -> mainEventQueue s !! q = Some Q -> async_queue Q = l ->
  exists s' B' Q', async_loop s q l = Ok s' /\ wf_bins s' B' /\
    mainEventQueue s' !! q = Some Q' /\ async_queue Q' = [] /\ _curTick Q' = _curTick Q /\
    same_data (events s) (events s') /\
    elems (B' q) = fold_left (fun m x => place (events s) (rank (events s) x) x m) l (elems (B q)).
Proof.
  revert s B Q. induction l as [| x l IH]; intros s B Q Hw HQ Ha; simpl.
  - exists s, B, Q. done.
  - destruct (async_step s B q Q x l) as (e & h & p & He & Hi & Hsd & Hwf); auto.
    unfold q_insert at 1. rewrite (get_queue_some _ _ _ HQ). cbn [obind]. rewrite Hi. cbn [obind].
    rewrite (get_queue_some _ q (set_head p Q)) by (by apply (queue_bound s q Q)). cbn [obind].
    match goal with |- context [async_loop ?st q l] =>
      assert (st = set_queue q (set_async l (set_head p Q)) (set_events h s)) as ->
    end.
    { unfold set_queue, set_queues. simpl. by rewrite list_insert_insert_eq. }
    destruct (IH _ _ (set_async l (set_head p Q)) Hwf) as (s' & B' & Q' & Hl & Hw' & HQ' & Ha' & Ht & Hsd' & Hel);
      [by apply (queue_bound s q Q) | done |].
    exists s', B', Q'. split_and!; auto; [by transitivity h |].
    rewrite Hel, upd_eq. simpl events.
    destruct (wf_chain _ _ Hw _ _ HQ) as (Hc & Hs & _).
    rewrite (bins_insert_elems (events s) (head Q)) by done.
    replace (evkey e) with (rank (events s) x) by (unfold rank; by rewrite He).
    clear -Hsd. generalize (place (events s) (rank (events s) x) x (elems (B q))).
    induction l as [| y l IH]; simpl; intros m; [done |].
    rewrite (rank_same _ _ _ Hsd), (place_same _ _ _ _ _ Hsd). apply IH.
Qed.

Lemma same_data_init s s' : all_init s -> same_data (events s) (events s') -> all_init s'.
Proof.
  intros Hi Hs x e He. destruct (same_data_some _ _ _ _ Hs He) as (e0 & He0 & Her).
  rewrite (initialized_erase e0 e Her). by apply (Hi x).
Qed.

Lemma getEventQueue_lookup index s q Q :
  mainEventQueue (getEventQueue index s) !! q = Some Q ->
  mainEventQueue s !! q = Some Q \/ mainEventQueue s !! q = None /\ Q = new_EventQueue.
Proof.
  simpl. destruct (mainEventQueue s !! q) as [Q0 |] eqn:E.
  - rewrite (lookup_app_l_Some _ _ _ _ E). auto.
  - rewrite lookup_app_r by (by apply lookup_ge_None). intros H.
    apply list_elem_of_lookup_2, elem_of_replicate_inv in H. auto.
Qed.

Lemma getEventQueue_inv index s : inv s -> inv (getEventQueue index s).
Proof.
  intros [[B Hw] Hi]. split; [| done].
  pose proof (getEventQueue_lookup index s) as Hq.
  exists (fun q => match mainEventQueue s !! q with Some _ => B q | None => [] end). split.
  - intros q Q [HQ | [HQ ->]]%Hq; rewrite HQ; [by apply (wf_chain _ _ Hw) |].
    split_and!; [done | split; constructor | constructor].
  - intros q Q x [HQ | [HQ ->]]%Hq; rewrite HQ; [by apply (wf_in _ _ Hw) | by intros ?%elem_of_nil].
  - intros x e He Hse. destruct (wf_out _ _ Hw x e He Hse) as (q & Q & Hqe & HQ & Hx).
    exists q, Q. rewrite HQ. split_and!; auto. simpl. by apply lookup_app_l_Some.
Qed.

(** ** The order of a queue *)

(** An event never stands before one of smaller time and priority. *)
Definition ordered (h : gmap nat Event) (l : list nat) : Prop :=
  StronglySorted (fun x y => klt (rank h y) (rank h x) = false) l.

Lemma bins_ordered h p bs : chain h p bs -> sorted_bins bs -> ordered h (elems bs).
Proof.
  unfold ordered. revert p. induction bs as [| [k b] bs IH]; intros p Hc Hs; [constructor |].
  assert (forall y, y ∈ b -> rank h y = k) as Hb by (intros; by eapply bin_rank).
  assert (forall y, y ∈ elems bs -> klt k (rank h y) = true) as Hl by (intros; by eapply later_ranks).
  assert (StronglySorted (fun x y => klt (rank h y) (rank h x) = false) (elems bs)) as Hrest.
  { destruct Hc as (? & ? & ? & _ & _ & _ & _ & _ & Hc). apply (IH _ Hc). destruct Hs as [Hs Hn].
    rewrite elems_cons in Hn. split; [by apply StronglySorted_inv in Hs as [? _] | by apply NoDup_app in Hn as (_ & _ & ?)]. }
  rewrite elems_cons. clear IH Hc Hs. induction b as [| x b IHb]; simpl; [done |].
  constructor; [apply IHb; intros; apply Hb; by right |].
  rewrite List.Forall_forall. intros y Hy%list_elem_of_In. rewrite (Hb x) by left.
  apply elem_of_app in Hy as [Hy | Hy]; [rewrite (Hb y) by (by right); apply klt_refl | apply klt_asym; auto].
Qed.

Lemma queue_order_ok s q Q : inv s -> mainEventQueue s !! q = Some Q ->
  exists l, order s q = Ok l /\ NoDup l /\ ordered (events s) l /\
    forall x, x ∈ l <-> exists e, events s !! x = Some e /\ scheduled e = true /\ queue e = Some q /\
      x ∉ async_queue Q.
Proof.
  intros [[B Hw] _] HQ. destruct (wf_chain _ _ Hw _ _ HQ) as (Hc & Hs & Hn).
  exists (elems (B q)). split_and!; [by eapply order_spec | apply Hs | by eapply bins_ordered |].
  intros x. split.
  - intros Hx. destruct (wf_in _ _ Hw q Q x HQ) as (e & ? & ? & ?); [apply elem_of_app; auto |].
    exists e. split_and!; auto. intros Ha. apply NoDup_app in Hn as (_ & Hd & _). by apply (Hd x).
  - intros (e & He & Hse & Hqe & Ha). destruct (wf_out _ _ Hw x e He Hse) as (q' & Q' & Hq' & HQ' & Hx).
    assert (q' = q) as -> by congruence. assert (Q' = Q) as -> by congruence.
    apply elem_of_app in Hx as [|]; done.
Qed.

(** ** The sequence of events as the abstract queue *)

(** The operations on the sequence of the queue [q]; the other queues keep theirs. *)
Definition moves (s s' : Sim) (q : nat) (f : list nat -> list nat) : Prop :=
  (exists l, order s q = Ok l /\ order s' q = Ok (f l)) /\
  forall q', q' ≠ q -> order s' q' = order s q'.

Lemma moves_bins s s' q Q Q' B B' f x :
  wf_bins s B -> wf_bins s' B' -> mainEventQueue s !! q = Some Q -> mainEventQueue s' !! q = Some Q' ->
  only s s' x -> elems (B' q) = f (elems (B q)) -> (forall q', q' ≠ q -> B' q' = B q') ->
  moves s s' q f.
Proof.
  intros Hw Hw' HQ HQ' Ho Hf Hoth. split.
  - exists (elems (B q)). rewrite <- Hf. split; by eapply order_spec.
  - intros q' Hne. destruct (mainEventQueue s' !! q') as [Q1' |] eqn:E1.
    + destruct (ticks_lookup s s' q' Q1') as (Q1 & HQ1 & _); [apply Ho | done |].
      rewrite (order_spec s B q' Q1), (order_spec s' B' q' Q1'), Hoth by done. done.
    + unfold order, get_queue. rewrite E1.
      destruct (mainEventQueue s !! q') as [Q1 |] eqn:E2; [| done].
      destruct (ticks_lookup s' s q' Q1) as (? & ? & _); [symmetry; apply Ho | done |]. congruence.
Qed.

Lemma only_queue s s' x q Q : only s s' x -> mainEventQueue s !! q = Some Q ->
  exists Q', mainEventQueue s' !! q = Some Q'.
Proof.
  intros (_ & Ht & _) HQ. destruct (ticks_lookup s' s q Q) as (Q' & ? & _); eauto.
Qed.

Section Local.
  Context (s : Sim) (q x : nat) (Q : EventQueue) (e : Event).
  Hypothesis Hinv : inv s.
  Hypothesis HQ : mainEventQueue s !! q = Some Q.
  Hypothesis He : events s !! x = Some e.

Lemma schedule_moves when global :
  scheduled e = false -> _curTick Q <= when ->
  inParallelMode s && (bool_decide (_curEventQueue s ≠ Some q) || global) = false ->
  exists s', schedule s q x when global = Ok s' /\
    moves s s' q (place (events s) (when, _priority e) x).
Proof using Hinv HQ He.
  intros Hse Hw' Hloc. destruct Hinv as [[B Hw] Hi].
  destruct (schedule_ok s B q Q x e when global) as (s' & e' & Hs & Hwf & Ho & _); auto; [by apply (Hi x) |].
  exists s'. split; [done |]. destruct (only_queue _ _ _ _ _ Ho HQ) as [Q' HQ'].
  destruct (wf_chain _ _ Hw _ _ HQ) as (Hc & Hsb & _).
  eapply moves_bins with (B := B); [done | exact Hwf | done | done | done | |].
  - rewrite upd_eq. by eapply bins_insert_elems.
  - intros. by rewrite upd_ne.
Qed.

Lemma deschedule_moves :
  scheduled e = true -> queue e = Some q -> x ∉ async_queue Q -> mode_ok s q = true ->
  exists s', deschedule s q x = Ok s' /\ moves s s' q (drop x) /\ only s s' x /\
    (forall e', events s' !! x = Some e' -> scheduled e' = false).
Proof using Hinv HQ He.
  intros Hse Hqe Hx Hm. destruct Hinv as [[B Hw] Hi].
  destruct (wf_out _ _ Hw x e He Hse) as (q' & Q' & Hq' & HQ' & Hin).
  assert (q' = q) as -> by congruence. assert (Q' = Q) as -> by congruence.
  apply elem_of_app in Hin as [Hin |]; [| done].
  destruct (deschedule_ok s B q Q x e) as (s' & Hs & Hwf & Ho & Hoff); auto; [by apply (Hi x) |].
  exists s'. split; [done |]. split; [| split; [done | intros e' He'; by apply Hoff]].
  destruct (only_queue _ _ _ _ _ Ho HQ) as [Q' HQ'2].
  destruct (wf_chain _ _ Hw _ _ HQ) as (Hc & Hsb & _).
  eapply moves_bins with (B := B); [done | exact Hwf | done | done | done | |].
  - rewrite upd_eq. by eapply bins_remove_elems.
  - intros. by rewrite upd_ne.
Qed.

(** An event that waits in the asynchronous list is not found. *)
Lemma deschedule_async :
  scheduled e = true -> queue e = Some q -> x ∈ async_queue Q -> mode_ok s q = true ->
  deschedule s q x = Err Panic.
Proof using Hinv HQ He.
  intros Hse Hqe Hx Hm. destruct Hinv as [[B Hw] Hi].
  destruct (wf_chain _ _ Hw _ _ HQ) as (Hc & Hsb & Hn). apply NoDup_app in Hn as (_ & Hd & _).
  assert (x ∉ elems (B q)) as Hxb by (intros Hin; by apply (Hd x)).
  unfold deschedule. fold (mode_ok s q). rewrite (load_some _ _ _ He), Hm. cbn [obind].
  rewrite Hse, (Hi x e He). cbn [assert_ obind].
  unfold q_remove. rewrite (get_queue_some _ _ _ HQ). cbn [obind].
  by rewrite (remove_absent _ _ _ _ _ _ Hc Hsb He Hqe Hxb).
Qed.

Lemma reschedule_moves when always :
  (scheduled e = true -> queue e = Some q /\ x ∉ async_queue Q) -> always || scheduled e = true ->
  mode_ok s q = true -> _curTick Q <= when ->
  exists s', reschedule s q x when always = Ok s' /\
    moves s s' q (fun l => place (events s) (when, _priority e) x (drop x l)).
Proof using Hinv HQ He.
  intros Hse Ha Hm Hwhen. destruct Hinv as [[B Hw] Hi].
  destruct (wf_chain _ _ Hw _ _ HQ) as (Hc & Hsb & Hn).
  assert (scheduled e = true -> x ∈ elems (B q)) as Hx.
  { intros Hs. destruct (Hse Hs) as [Hqe Hna].
    destruct (wf_out _ _ Hw x e He Hs) as (q' & Q' & Hq' & HQ' & Hin).
    assert (q' = q) as -> by congruence. assert (Q' = Q) as -> by congruence.
    by apply elem_of_app in Hin as [Hin |]. }
  destruct (reschedule_ok s B q Q x e when always) as (s' & e' & B' & Hs & Hwf & Hb & Hoth & Ho & _); auto;
    [by apply (Hi x) |].
  exists s'. split; [done |]. destruct (only_queue _ _ _ _ _ Ho HQ) as [Q' HQ'].
  eapply moves_bins with (B := B); [done | exact Hwf | done | done | done | | done].
  rewrite Hb. unfold bins_without. destruct (scheduled e) eqn:Es.
  - destruct (remove_spec (events s) q (head Q) (B q) x e) as (h' & p' & _ & Hc' & Hsd & _); auto.
    { by apply Hse. }
    rewrite (bins_insert_elems h' p'); [| done |].
    + rewrite (place_same _ _ _ _ _ Hsd). f_equal. eapply bins_remove_elems; eauto.
    + eapply bins_remove_sorted; eauto.
  - rewrite (bins_insert_elems (events s) (head Q)) by done. f_equal. symmetry. apply drop_absent.
    intros Hin. apply (unscheduled_absent s B x e q Q); auto. apply elem_of_app. auto.
Qed.

End Local.
