(* ===== verification/EventLoop.v ===== *)
(** The simulation loop of [sim/simulate.cc] and the histories of the event
    queues: what holds in every state that calls and services reach, in parallel
    mode and in serial mode. *)
From S2P Require Import Prelude.
From Stdlib Require Import ZArith Lia Sorted.
From stdpp Require Import base numbers list gmap.
From S2P Require Import EventQueue.
From S2P Require Import EventSim.

Open Scope Z_scope.

(** * The simulation loop *)

(** What the signal handlers have asked for ([sim/async.hh]). *)
Record Async := mkAsync {
  async_event : bool;
  async_statdump : bool;
  async_statreset : bool;
  async_io : bool;
  async_exit : bool;
  async_exception : bool;
}.

(** How the loop stands after some iterations: still running, or returned with
    the exit event ([None] for an exception). *)
Inductive sim_result : Type :=
  | Running (a : Async) (s : Sim)
  | Returned (a : Async) (s : Sim) (exit_event : option nat).

Section Loop.
  Context (process : nat -> Sim -> outcome Sim).
  (** The services that the loop calls for the signals. *)
  Context (schedStatEvent : bool -> bool -> Sim -> outcome Sim).
  Context (pollQueue_service exitSimLoop : Sim -> outcome Sim).

(** The branch for [async_event] on the main queue: [true] when it returns. *)
Definition handle_async (a : Async) (s : Sim) : outcome (Async * Sim * bool) :=
  let! s := if async_statdump a || async_statreset a
            then schedStatEvent (async_statdump a) (async_statreset a) s else Ok s in
  let! s := if async_io a then pollQueue_service s else Ok s in
  let! s := if async_exit a then exitSimLoop s else Ok s in
  Ok (mkAsync false false false false false false, s, async_exception a).

(** One iteration of the loop: [Some] is its [return]. *)
Definition sim_iteration (a : Async) (s : Sim) (q : nat) : outcome (Async * Sim * option (option nat)) :=
  let! Q := get_queue s q in
  do! assert_ (bool_decide (head Q ≠ None)) then
  match _curEventQueue s, head Q with
  | Some c, Some x =>
      let! C := get_queue s c in
      let! e := load (events s) x in
      do! assert_ (_curTick C <=? _when e) then
      let! (a, s, stop) := if bool_decide (q = 0%nat) && async_event a
                           then handle_async a s else Ok (a, s, false) in
      if stop then Ok (a, s, Some None)
      else
        let! (s, exit_event) := serviceOne process s q in
        Ok (a, s, match exit_event with Some x => Some (Some x) | None => None end)
  | _, _ => Err Undefined
  end.

(** [sig n] is what the signal handlers write when [n] iterations are left after this one. *)
Fixpoint sim_loop (fuel : nat) (sig : nat -> Async -> Async) (a : Async) (s : Sim) (q : nat)
    : outcome sim_result :=
  match fuel with
  | O => Ok (Running a s)
  | S fuel =>
      let! (a, s, r) := sim_iteration (sig fuel a) s q in
      match r with
      | Some ev => Ok (Returned a s ev)
      | None => sim_loop fuel sig a s q
      end
  end.

Definition doSimLoop (fuel : nat) (sig : nat -> Async -> Async) (a : Async) (s : Sim) (q : nat)
    : outcome sim_result :=
  let s := curEventQueue (Some q) s in
  let! s := handleAsyncInsertions s q in
  sim_loop fuel sig a (getEventQueue 0 s) q.

End Loop.

(** * Histories *)

Definition set_mode (b : bool) (s : Sim) : Sim :=
  mkSim (events s) (mainEventQueue s) (_curEventQueue s) b.

(** The simulator before anything is built. *)
Definition init_sim : Sim := mkSim ∅ [] None false.

Section Histories.
  Context (process : nat -> Sim -> outcome Sim) `{!EventHandler process}.

(** The calls and services that return, in any order, the creation of queues, and
    the changes of the running thread and of the mode. *)
Inductive step : Sim -> Sim -> Prop :=
  | step_op o s s' : apply_op o s = Ok s' -> step s s'
  | step_serve q s s' r : serviceOne process s q = Ok (s', r) -> step s s'
  | step_async q s s' : handleAsyncInsertions s q = Ok s' -> step s s'
  | step_queue index s : step s (getEventQueue index s)
  | step_thread q s : step s (curEventQueue q s)
  | step_mode b s : step s (set_mode b s).

Lemma sim_step_inv s s' : inv s -> step s s' -> inv s'.
Proof using All.
  intros Hinv Hst. destruct Hst as [o s s' H | q s s' r H | q s s' H | index s | q s | b s].
  - by eapply apply_op_keeps.
  - by eapply serviceOne_effect.
  - unfold handleAsyncInsertions in H. apply obind_Ok in H as (? & _ & H).
    apply obind_Ok in H as (Q & HQ%get_queue_Ok & H). destruct Hinv as [[B Hw] Hi].
    destruct (async_loop_ok q (async_queue Q) s B Q) as (s1 & B' & Q' & Hl & Hw' & _ & _ & _ & Hsd & _); auto.
    assert (s1 = s') as -> by congruence. split; [by eexists | by eapply same_data_init].
  - by apply getEventQueue_inv.
  - destruct Hinv as [[B [H1 H2 H3]] Hi]. split; [exists B; split; [exact H1 | exact H2 | exact H3] | exact Hi].
  - destruct Hinv as [[B [H1 H2 H3]] Hi]. split; [exists B; split; [exact H1 | exact H2 | exact H3] | exact Hi].
Qed.

Lemma init_inv : inv init_sim.
Proof using Type.
  split; [exists (fun _ => []); split; simpl |].
  - intros q Q H. by rewrite lookup_nil in H.
  - intros q Q x H. by rewrite lookup_nil in H.
  - intros x e H. by rewrite lookup_empty in H.
  - intros x e H. simpl in H. by rewrite lookup_empty in H.
Qed.

Definition reachable (s : Sim) : Prop := rtc step init_sim s.

Lemma sim_reachable_inv s : reachable s -> inv s.
Proof using All.
  intros H. unfold reachable in H. pose proof init_inv as Hi. revert Hi.
  induction H as [s | s1 s2 s3 Hst _ IH]; [done |]. intros Hi. apply IH. by eapply sim_step_inv.
Qed.

End Histories.

(** ** Serial histories *)

Section Serial.
  Context (process : nat -> Sim -> outcome Sim) `{!EventHandler process}.

(** The histories of a simulator with one thread. *)
Inductive serial_step : Sim -> Sim -> Prop :=
  | sstep_op o s s' : apply_op o s = Ok s' -> serial_step s s'
  | sstep_serve q s s' r : serviceOne process s q = Ok (s', r) -> serial_step s s'
  | sstep_queue index s : serial_step s (getEventQueue index s)
  | sstep_thread q s : serial_step s (curEventQueue q s).

Definition serial_reachable (s : Sim) : Prop := rtc serial_step init_sim s.

Lemma getEventQueue_serial index s : inv s -> serial_inv s -> serial_inv (getEventQueue index s).
Proof using Type.
  intros [[B Hw] _] [[Hp Ha] Htm Hck].
  pose proof (getEventQueue_lookup index s) as Hq.
  split.
  - split; [done |]. intros q Q [HQ | [_ ->]]%Hq; [by apply (Ha q) | done].
  - intros x e q Q He Hse Hqe [HQ | [HQ ->]]%Hq; [by apply (Htm x e q) |].
    destruct (wf_out _ _ Hw x e He Hse) as (q' & Q' & ? & ? & _). congruence.
  - intros q Q [HQ | [_ ->]]%Hq; [by apply (Hck q) | simpl; lia].
Qed.

Lemma serial_step_inv s s' : inv s -> serial_inv s -> serial_step s s' -> inv s' /\ serial_inv s'.
Proof using All.
  intros Hinv Hs Hst. destruct Hst as [o s s' H | q s s' r H | index s | q s].
  - destruct (apply_op_keeps o s s' Hinv H) as [Hi Hk]. split; [done | by apply Hk].
  - destruct (serviceOne_effect process s q s' r Hinv H) as (Hi & Q & x & e & _ & _ & _ & _ & _ & Hk).
    split; [done | by apply Hk].
  - split; [by apply getEventQueue_inv | by apply getEventQueue_serial].
  - split; [eapply (sim_step_inv process); [done | apply step_thread] |].
    destruct Hs as [H1 H2 H3]. split; [exact H1 | exact H2 | exact H3].
Qed.

Lemma serial_reachable_inv s : serial_reachable s -> inv s /\ serial_inv s.
Proof using All.
  intros H. unfold serial_reachable in H.
  assert (serial_inv init_sim) as Hs.
  { split.
    - split; [done |]. intros q Q HQ. simpl in HQ. by rewrite lookup_nil in HQ.
    - intros x e q Q He. simpl in He. by rewrite lookup_empty in He.
    - intros q Q HQ. simpl in HQ. by rewrite lookup_nil in HQ. }
  pose proof init_inv as Hi. revert Hi Hs.
  induction H as [s | s1 s2 s3 Hst _ IH]; [done |]. intros Hi Hs.
  destruct (serial_step_inv s1 s2 Hi Hs Hst). auto.
Qed.

End Serial.

(** ** The loop *)

(** The services for signals reach the queues through their interface too. *)
Class SignalServices (schedStatEvent : bool -> bool -> Sim -> outcome Sim)
    (pollQueue_service exitSimLoop : Sim -> outcome Sim) : Prop := {
  stat_ops : forall d r s, exists l, schedStatEvent d r s = run_ops l s;
  poll_ops : forall s, exists l, pollQueue_service s = run_ops l s;
  exit_ops : forall s, exists l, exitSimLoop s = run_ops l s;
}.

Section LoopProofs.
  Context (process : nat -> Sim -> outcome Sim) `{!EventHandler process}.
  Context (schedStatEvent : bool -> bool -> Sim -> outcome Sim).
  Context (pollQueue_service exitSimLoop : Sim -> outcome Sim).
  Context `{!SignalServices schedStatEvent pollQueue_service exitSimLoop}.

(** A service that may be skipped. *)
Lemma service_keeps (b : bool) (f : Sim -> outcome Sim) s s' :
  (exists l, f s = run_ops l s) -> inv s -> (if b then f s else Ok s) = Ok s' -> keeps s s'.
Proof using Type.
  intros [l Hl] Hinv H. destruct b; [| injection H as <-; by apply sim_keeps_refl].
  rewrite Hl in H. by eapply run_ops_keeps.
Qed.

Lemma handle_async_keeps a s a' s' stop :
  inv s -> handle_async schedStatEvent pollQueue_service exitSimLoop a s = Ok (a', s', stop) -> keeps s s'.
Proof using All.
  intros Hinv H. unfold handle_async in H. apply obind_Ok in H as (s1 & H1 & H).
  apply obind_Ok in H as (s2 & H2 & H). apply obind_Ok in H as (s3 & H3 & H). injection H as _ <- _.
  apply (service_keeps _ _ s s1) in H1; [| apply stat_ops | done].
  apply (service_keeps _ _ s1 s2) in H2; [| apply poll_ops | apply H1].
  apply (service_keeps _ _ s2 s3) in H3; [| apply exit_ops | apply H2].
  eapply sim_keeps_trans; [done |]. by eapply sim_keeps_trans.
Qed.

(** What holds of the state of the thread of the queue [q] at every turn. *)
Definition running (s : Sim) (q : nat) (t : Z) : Prop :=
  inv s /\ serial_inv s /\ _curEventQueue s = Some q /\
  exists Q, mainEventQueue s !! q = Some Q /\ t <= _curTick Q.

Lemma keeps_running s s' q t : running s q t -> keeps s s' -> running s' q t.
Proof using Type.
  intros (Hi & Hs & Hc & Q & HQ & Ht) [Hi' Hk]. destruct (Hk Hs) as (Hs' & Htk & Hc').
  split_and!; auto; [congruence |].
  destruct (ticks_lookup s' s q Q) as (Q' & HQ' & Hq & _); [done | done |].
  exists Q'. split; [done | lia].
Qed.

Lemma service_running s q t s' r : running s q t -> serviceOne process s q = Ok (s', r) -> running s' q t.
Proof using All.
  intros (Hi & Hs & Hc & Q & HQ & Ht) H.
  destruct (serviceOne_effect process s q s' r Hi H) as (Hi' & Q0 & x & e & HQ0 & _ & He & _ & _ & Hk).
  assert (Q0 = Q) as -> by congruence. destruct (Hk Hs) as (Hs' & Hw & Htk & Hc').
  split_and!; auto; [congruence |].
  assert (q < length (ticks s))%nat as Hlen.
  { unfold ticks. rewrite length_fmap. by eapply lookup_lt_Some. }
  assert (ticks s' !! q = Some (if squashed e then _curTick Q else _when e, [])) as Hq.
  { rewrite Htk. by apply list_lookup_insert_eq. }
  unfold ticks in Hq. rewrite list_lookup_fmap in Hq.
  destruct (mainEventQueue s' !! q) as [Q' |]; [| done]. simpl in Hq. injection Hq as Hq _.
  exists Q'. split; [done |]. rewrite Hq. destruct (squashed e); lia.
Qed.

Lemma iteration_running a s q t a' s' r : running s q t ->
  sim_iteration process schedStatEvent pollQueue_service exitSimLoop a s q = Ok (a', s', r) ->
  running s' q t.
Proof using All.
  intros Hr H. unfold sim_iteration in H. apply obind_Ok in H as (Q & _ & H).
  apply obind_Ok in H as (_ & _ & H). destruct (_curEventQueue s); [| done].
  destruct (head Q); [| done]. do 3 apply obind_Ok in H as (? & _ & H).
  apply obind_Ok in H as ([[a1 s1] stop] & H1 & H).
  assert (running s1 q t) as Hr1.
  { destruct (bool_decide (q = 0%nat) && async_event a); [| by injection H1 as <- <- <-].
    eapply keeps_running; [done |]. eapply handle_async_keeps; [apply Hr | done]. }
  destruct stop; [by injection H as <- <- <- |].
  apply obind_Ok in H as ([s2 ev] & H2 & H). injection H as <- <- <-. by eapply service_running.
Qed.

Lemma loop_running fuel sig a s q t : running s q t ->
  match sim_loop process schedStatEvent pollQueue_service exitSimLoop fuel sig a s q with
  | Ok (Running _ s') | Ok (Returned _ s' _) => running s' q t
  | Err _ => True
  end.
Proof using All.
  revert a s. induction fuel as [| fuel IH]; intros a s Hr; [done |]. cbn [sim_loop].
  destruct (sim_iteration process schedStatEvent pollQueue_service exitSimLoop (sig fuel a) s q)
    as [[[a1 s1] r] |] eqn:E; [| done].
  cbn [obind]. pose proof (iteration_running _ _ _ _ _ _ _ Hr E). destruct r; [done | by apply IH].
Qed.

(** The assertions of an iteration: with an event in the queue they hold. *)
Lemma iteration_asserts a s q Q x :
  inv s -> serial_inv s -> _curEventQueue s = Some q -> mainEventQueue s !! q = Some Q ->
  head Q = Some x ->
  sim_iteration process schedStatEvent pollQueue_service exitSimLoop a s q =
    let! (a, s, stop) := if bool_decide (q = 0%nat) && async_event a
      then handle_async schedStatEvent pollQueue_service exitSimLoop a s else Ok (a, s, false) in
    if stop then Ok (a, s, Some None)
    else let! (s, exit_event) := serviceOne process s q in
         Ok (a, s, match exit_event with Some x => Some (Some x) | None => None end).
Proof using Type.
  intros [[B Hw] Hi] [_ Htm _] Hc HQ Hx. unfold sim_iteration.
  rewrite (get_queue_some _ _ _ HQ). cbn [obind]. rewrite bool_decide_true by congruence.
  cbn [assert_ obind]. rewrite Hc, Hx. rewrite (get_queue_some _ _ _ HQ). cbn [obind].
  destruct (wf_chain _ _ Hw _ _ HQ) as (Hch & Hs & _).
  assert (x ∈ elems (B q)) as Hin.
  { pose proof (chain_head _ _ _ Hch) as Hh. rewrite Hx in Hh. destruct (elems (B q)); [done |].
    injection Hh as ->. left. }
  destruct (wf_in _ _ Hw q Q x HQ) as (e & He & Hse & Hqe); [apply elem_of_app; auto |].
  rewrite (load_some _ _ _ He). cbn [obind].
  replace (_curTick Q <=? _when e) with true; [done |].
  destruct (Htm x e q Q He Hse Hqe HQ). lia.
Qed.

End LoopProofs.

(** ** The end of a queue *)

Lemma order_head s q Q l : inv s -> mainEventQueue s !! q = Some Q -> order s q = Ok l ->
  head Q = hd_error l.
Proof.
  intros [[B Hw] _] HQ Ho. rewrite (order_spec s B q Q Hw HQ) in Ho. injection Ho as <-.
  destruct (wf_chain _ _ Hw _ _ HQ) as (Hc & _). by eapply chain_head.
Qed.

Lemma only_mode s s' x q : only s s' x -> mode_ok s' q = mode_ok s q.
Proof. intros (_ & _ & H1 & H2). unfold mode_ok. by rewrite H1, H2. Qed.

Lemma only_unscheduled s s' x y : only s s' x ->
  (forall e, events s' !! x = Some e -> scheduled e = false) ->
  (forall e, events s !! y = Some e -> scheduled e = false) ->
  forall e, events s' !! y = Some e -> scheduled e = false.
Proof.
  intros (Hf & _) Hx Hy e He. destruct (decide (y = x)) as [-> | Hne]; [by apply Hx |].
  specialize (Hf y Hne). rewrite He in Hf. destruct (events s !! y) as [e' |] eqn:E; [| done].
  apply (inj Some) in Hf. destruct (scheduled_erase _ _ Hf) as [-> _]. by apply Hy.
Qed.

(** [~EventQueue] ends after as many turns as there are events. *)
Lemma destroy_ok s q Q l :
  inv s -> mainEventQueue s !! q = Some Q -> order s q = Ok l -> mode_ok s q = true ->
  exists s', destroy_queue (length l) s q = Ok s' /\ inv s' /\ order s' q = Ok [] /\
    (forall q', q' ≠ q -> order s' q' = order s q') /\
    (forall x e, x ∈ l -> events s' !! x = Some e -> scheduled e = false) /\
    (forall x, (forall e, events s !! x = Some e -> scheduled e = false) ->
       forall e, events s' !! x = Some e -> scheduled e = false).
Proof.
  revert s Q. induction l as [| x l IH]; intros s Q Hinv HQ Ho Hm.
  - exists s. simpl. rewrite (get_queue_some _ _ _ HQ). cbn [obind].
    rewrite (order_head s q Q []) by done. split_and!; try done. by intros x e ?%elem_of_nil.
  - destruct (queue_order_ok s q Q Hinv HQ) as (l' & Hl' & Hnd & _ & Hmem).
    assert (l' = x :: l) as -> by congruence. apply NoDup_cons in Hnd as [Hxl _].
    destruct (proj1 (Hmem x)) as (e & He & Hse & Hqe & Hna); [left |].
    destruct (deschedule_moves s q x Q e Hinv HQ He Hse Hqe Hna Hm) as (s1 & Hd & [Hmv Hoth] & Hon & Hoff).
    cbn [length destroy_queue]. rewrite (get_queue_some _ _ _ HQ). cbn [obind].
    rewrite (order_head s q Q (x :: l)) by done. cbn [hd_error]. rewrite Hd. cbn [obind].
    destruct (only_queue _ _ _ _ _ Hon HQ) as [Q1 HQ1].
    destruct Hmv as (l0 & Hl0 & Hl1). assert (l0 = x :: l) as -> by congruence.
    rewrite drop_cons_eq in Hl1 by done.
    destruct (IH s1 Q1) as (s' & Hs' & Hi' & Ho' & Hoth' & Hall & Hst); auto.
    { by eapply deschedule_keeps. } { by rewrite (only_mode _ _ _ _ Hon). }
    exists s'. split_and!; auto.
    + intros q' Hne. by rewrite Hoth', Hoth.
    + intros y e' [-> | Hy]%elem_of_cons He'; [| by eapply Hall]. by eapply Hst.
    + intros y Hy. apply Hst. by eapply only_unscheduled.
Qed.

(** The clock of the loop before the first iteration. *)
Lemma doSimLoop_start s q Q :
  inv s -> serial_inv s -> mainEventQueue s !! q = Some Q ->
  let s0 := curEventQueue (Some q) s in
  handleAsyncInsertions s0 q = Ok s0 /\ running (getEventQueue 0 s0) q (_curTick Q).
Proof.
  intros Hinv Hs HQ s0.
  assert (inv s0 /\ serial_inv s0) as [Hi0 Hs0].
  { destruct Hinv as [[B [H1 H2 H3]] Hi]. destruct Hs as [H4 H5 H6].
    split; [split; [exists B; split; [exact H1 | exact H2 | exact H3] | exact Hi] |].
    split; [exact H4 | exact H5 | exact H6]. }
  split.
  - unfold handleAsyncInsertions. rewrite bool_decide_true by done. cbn [assert_ obind].
    rewrite (get_queue_some _ q Q) by done. cbn [obind].
    destruct Hs as [[_ Ha] _ _]. by rewrite (Ha q Q HQ).
  - split_and!; [by apply getEventQueue_inv | by apply getEventQueue_serial | done |].
    exists Q. split; [| lia]. simpl. by apply lookup_app_l_Some.
Qed.

(** ** Checkpoints of events *)

Lemma isSet_restore f b : (b = 0 \/ b = 1) ->
  isSet (set_flags f Initialized) (2 ^ b) = isSet f (2 ^ b) /\
  isSet (clear_flags (set_flags f Initialized) (Z.lor Squashed Scheduled)) (2 ^ b) = false.
Proof.
  intros Hb. rewrite !isSet_bit by lia. unfold set_flags, clear_flags.
  rewrite Z.land_spec, !Z.lor_spec, Z.lnot_spec by lia.
  destruct Hb as [-> | ->]; cbn; rewrite ?orb_false_r, ?andb_false_r; done.
Qed.

(** The event that [unserialize] makes of the checkpoint of [e]. *)
Lemma unserialize_ok e e0 : 0 <= flags e < 2 ^ 15 -> scheduled e0 = false -> initialized e0 = true ->
  exists e', ev_unserialize (ev_serialize e) e0 = Ok e' /\
    _when e' = _when e /\ _priority e' = _priority e /\ queue e' = queue e0 /\
    scheduled e' = (scheduled e && squashed e) /\
    (scheduled e = true -> squashed e = true -> squashed e' = true).
Proof.
  intros Hf Hs Hi. unfold ev_unserialize, ev_serialize. rewrite Hs, Hi. cbn [negb assert_ obind].
  replace (to_short (flags e)) with (flags e) by (unfold to_short; zcases; lia).
  rewrite wrap_small by (unfold in_width; lia).
  destruct (isSet_restore (flags e) 0) as [Hq1 Hq2]; [auto |].
  destruct (isSet_restore (flags e) 1) as [Hs1 Hs2]; [auto |].
  change (2 ^ 0) with Squashed in *. change (2 ^ 1) with Scheduled in *. rewrite Hq1, Hs1.
  eexists. split; [done |]. simpl. split_and!; try done; unfold scheduled, squashed; simpl.
  - destruct (isSet (flags e) Scheduled) eqn:E1, (isSet (flags e) Squashed) eqn:E2; simpl;
      rewrite ?Hs2, ?Hs1, ?E1; done.
  - intros H1 H2. rewrite H1, H2. simpl. congruence.
Qed.

Lemma unserialize_moves s q x Q e0 e :
  inv s -> mainEventQueue s !! q = Some Q -> events s !! x = Some e0 -> scheduled e0 = false ->
  0 <= flags e < 2 ^ 15 ->
  exists s' e', UNSERIALIZE_EVENT (ev_serialize e) s q x = Ok s' /\ events s' !! x = Some e' /\
    _when e' = _when e /\ _priority e' = _priority e /\ queue e' = queue e0 /\
    scheduled e' = (scheduled e && squashed e) /\
    exists l, order s q = Ok l /\
      order s' q = Ok (if scheduled e && squashed e
                       then place (events s) (_when e, _priority e) x l else l).
Proof.
  intros [[B Hw] Hi] HQ He0 Hs0 Hf.
  destruct (unserialize_ok e e0) as (e1 & Hun & Hw1 & Hp1 & Hq1 & Hs1 & _); [done | done | by apply (Hi x) |].
  destruct (wf_chain _ _ Hw _ _ HQ) as (Hc & Hs & _).
  assert (x ∉ elems (B q)) as Hx.
  { intros Hin. apply (unscheduled_absent s B x e0 q Q); auto. apply elem_of_app. auto. }
  unfold UNSERIALIZE_EVENT, checkpointReschedule. rewrite (load_some _ _ _ He0). cbn [obind].
  rewrite Hun. cbn [obind]. set (h1 := <[x := e1]> (events s)). simpl events.
  assert (h1 !! x = Some e1) as H1 by apply lookup_insert_eq. rewrite (load_some _ _ _ H1). cbn [obind].
  assert (chain h1 (head Q) (B q)) as Hc1 by (by apply chain_insert_ne).
  change (isSet (flags e1) Scheduled) with (scheduled e1). rewrite Hs1.
  rewrite (order_spec s B q Q Hw HQ). destruct (scheduled e && squashed e) eqn:E.
  - destruct (insert_spec h1 (head Q) (B q) x e1) as (h2 & p & Hins & Hc2 & Hsd & _);
      [done | apply Hs | done | done |].
    unfold q_insert. rewrite (get_queue_some _ q Q) by done. cbn [obind].
    simpl events. rewrite Hins. cbn [obind].
    destruct (same_data_some h2 h1 x e1) as (e2 & He2 & Her); [by symmetry | done |].
    destruct (scheduled_erase _ _ Her) as [Hs2 Hq2]. injection Her as Hw2 Hp2 _ _.
    eexists _, e2. split; [done |]. split_and!; [done | congruence | congruence | congruence | congruence |].
    eexists. split; [done |]. unfold order. rewrite (get_queue_some _ q (set_head p Q))
      by exact (queue_bound s q Q HQ (set_head p Q) h2). cbn [obind]. simpl. rewrite (contents_spec h2 p (bins_insert (evkey e1) x (B q))); [| done |].
    2: { rewrite bins_insert_perm. constructor; [done | apply Hs]. }
    f_equal. rewrite (bins_insert_elems (events s) (head Q)) by done.
    unfold evkey. by rewrite Hw1, Hp1.
  - eexists _, e1. split; [done |]. split_and!; [done | done | done | done | done |].
    eexists. split; [done |]. unfold order. rewrite (get_queue_some _ q Q) by done. cbn [obind]. simpl.
    apply contents_spec; [done | apply Hs].
Qed.

(** * The theorems *)

(** C13: in every state that a history of calls, services, asynchronous insertions,
    thread and mode changes reaches, with any actions of events, the traversal of a
    queue ends and meets exactly the events scheduled on that queue that do not wait
    in its asynchronous list, each once, and none stands before an event of smaller
    time, or of the same time and smaller priority. *)
Theorem event_order process `{!EventHandler process} s q Q :
  reachable process s -> mainEventQueue s !! q = Some Q ->
  exists l, order s q = Ok l /\ NoDup l /\ ordered (events s) l /\
    forall x, x ∈ l <-> exists e, events s !! x = Some e /\ scheduled e = true /\ queue e = Some q /\
      x ∉ async_queue Q.
Proof. intros Hr HQ. apply queue_order_ok; [by eapply sim_reachable_inv | done]. Qed.

(** C12: the linked bins of a queue implement a sequence.  On the thread of the
    queue, [schedule] puts an event behind those of smaller time and priority and
    before all others, so that events of one time and priority are served last in,
    first out; [deschedule] takes the event out; [reschedule] takes it out, if it
    is scheduled, and puts it in its new place.  All three return, and other queues
    keep their sequences. *)
Theorem queue_refines process `{!EventHandler process} s q x Q e when flag :
  reachable process s -> mainEventQueue s !! q = Some Q -> events s !! x = Some e ->
  (scheduled e = false -> _curTick Q <= when ->
   inParallelMode s && (bool_decide (_curEventQueue s ≠ Some q) || flag) = false ->
   exists s', schedule s q x when flag = Ok s' /\
     moves s s' q (place (events s) (when, _priority e) x)) /\
  (scheduled e = true -> queue e = Some q -> x ∉ async_queue Q -> mode_ok s q = true ->
   exists s', deschedule s q x = Ok s' /\ moves s s' q (drop x)) /\
  ((scheduled e = true -> queue e = Some q /\ x ∉ async_queue Q) -> flag || scheduled e = true ->
   mode_ok s q = true -> _curTick Q <= when ->
   exists s', reschedule s q x when flag = Ok s' /\
     moves s s' q (fun l => place (events s) (when, _priority e) x (drop x l))).
Proof.
  intros Hr HQ He. pose proof (sim_reachable_inv process s Hr) as Hi. split_and!.
  - intros. by eapply schedule_moves.
  - intros. destruct (deschedule_moves s q x Q e) as (s' & ? & ? & _); eauto.
  - intros. by eapply reschedule_moves.
Qed.

(** C14: with one thread, the simulation loop never finds an event in the past, and
    its clock never goes back: in a state that a serial history reaches, the
    assertions of an iteration hold once the queue has an event, and every state in
    which the loop stands or returns after any number of iterations, with any
    actions and signals, has the clock of the queue at or after where it started,
    with every scheduled event at or after the clock. *)
Theorem time_forward process `{!EventHandler process} stat poll exit
    `{!SignalServices stat poll exit} fuel sig a s q Q :
  serial_reachable process s -> mainEventQueue s !! q = Some Q ->
  (forall x, head Q = Some x -> _curEventQueue s = Some q ->
    sim_iteration process stat poll exit a s q =
      let! (a, s, stop) := if bool_decide (q = 0%nat) && async_event a
        then handle_async stat poll exit a s else Ok (a, s, false) in
      if stop then Ok (a, s, Some None)
      else let! (s, exit_event) := serviceOne process s q in
           Ok (a, s, match exit_event with Some x => Some (Some x) | None => None end)) /\
  match doSimLoop process stat poll exit fuel sig a s q with
  | Ok (Running _ s') | Ok (Returned _ s' _) =>
      (exists Q', mainEventQueue s' !! q = Some Q' /\ _curTick Q <= _curTick Q') /\ timely s'
  | Err _ => True
  end.
Proof.
  intros Hr HQ. destruct (serial_reachable_inv process s Hr) as [Hi Hs]. split.
  - intros x Hx Hc. by eapply iteration_asserts.
  - destruct (doSimLoop_start s q Q Hi Hs HQ) as [Ha Hrun]. unfold doSimLoop. rewrite Ha. cbn [obind].
    pose proof (loop_running process stat poll exit fuel sig a _ q _ Hrun) as Hl.
    destruct (sim_loop _ _ _ _ fuel sig a _ q) as [[a' s' | a' s' ev] |]; [| | done];
      destruct Hl as (_ & [_ Ht _] & _ & ?); done.
Qed.

(** [deschedule] of a scheduled event on its own queue and thread succeeds
    exactly if the event is in the bins; one that still waits in the asynchronous
    list stops the simulation with [event not found]. *)
Theorem deschedule_found process `{!EventHandler process} s q x Q e :
  reachable process s -> mainEventQueue s !! q = Some Q -> events s !! x = Some e ->
  scheduled e = true -> queue e = Some q -> mode_ok s q = true ->
  (x ∉ async_queue Q -> exists s', deschedule s q x = Ok s' /\
     forall e', events s' !! x = Some e' -> scheduled e' = false) /\
  (x ∈ async_queue Q -> deschedule s q x = Err Panic).
Proof.
  intros Hr HQ He Hse Hqe Hm. pose proof (sim_reachable_inv process s Hr) as Hi. split.
  - intros Hx. destruct (deschedule_moves s q x Q e) as (s' & ? & _ & _ & ?); eauto.
  - intros Hx. by eapply deschedule_async.
Qed.

(** The destructor of a queue ends: after one turn per event the queue is
    empty, no event of it is scheduled, and other queues keep their sequences. *)
Theorem destroy_terminates process `{!EventHandler process} s q Q l :
  reachable process s -> mainEventQueue s !! q = Some Q -> order s q = Ok l -> mode_ok s q = true ->
  exists s', destroy_queue (length l) s q = Ok s' /\ order s' q = Ok [] /\
    (forall q', q' ≠ q -> order s' q' = order s q') /\
    (forall x e, x ∈ l -> events s' !! x = Some e -> scheduled e = false).
Proof.
  intros Hr HQ Ho Hm. pose proof (sim_reachable_inv process s Hr) as Hi.
  destruct (destroy_ok s q Q l) as (s' & ? & _ & ? & ? & ? & _); eauto.
Qed.

(** Restoring an event from a checkpoint with [UNSERIALIZE_EVENT] gives it its
    time and priority, but an event that was scheduled when the checkpoint was taken
    is not scheduled again: [unserialize] has cleared the flag that
    [checkpointReschedule] tests.  The only events that are inserted again are those
    that were scheduled and squashed, and they are not told their queue. *)
Theorem restored_events process `{!EventHandler process} s q x Q e0 e :
  reachable process s -> mainEventQueue s !! q = Some Q ->
  events s !! x = Some e0 -> scheduled e0 = false -> 0 <= flags e < 2 ^ 15 ->
  exists s' e', UNSERIALIZE_EVENT (ev_serialize e) s q x = Ok s' /\ events s' !! x = Some e' /\
    _when e' = _when e /\ _priority e' = _priority e /\ queue e' = queue e0 /\
    scheduled e' = (scheduled e && squashed e) /\
    exists l, order s q = Ok l /\
      order s' q = Ok (if scheduled e && squashed e
                       then place (events s) (_when e, _priority e) x l else l).
Proof. intros Hr. intros. apply unserialize_moves with Q; auto. by eapply sim_reachable_inv. Qed.

(** * Examples *)

(** Events of which the first, when it is processed, schedules another. *)
Definition ex_actions (x : nat) : list op :=
  if decide (x = 1%nat) then [OpSchedule 0 5 30 false] else [].
Definition ex_process (x : nat) (s : Sim) : outcome Sim := run_ops (ex_actions x) s.

#[export] Instance ex_handler : EventHandler ex_process.
Proof. split. intros x s. by exists (ex_actions x). Qed.

#[export] Instance ex_services : SignalServices (fun _ _ => Ok) Ok Ok.
Proof. split; intros; by exists []. Qed.

Lemma run_ops_steps process l s s' : run_ops l s = Ok s' ->
  rtc (step process) s s' /\ rtc (serial_step process) s s'.
Proof.
  revert s. induction l as [| o l IH]; simpl; intros s H; [injection H as <-; split; apply rtc_refl |].
  apply obind_Ok in H as (s1 & H1 & H2). destruct (IH _ H2).
  split; (eapply rtc_l; [| done]); [by eapply step_op | by eapply sstep_op].
Qed.

(** Two queues and events of several times and priorities. *)
Definition ex_ops : list op :=
  [OpNew 1 0 0; OpNew 2 0 0; OpNew 3 (-1) 0; OpNew 4 0 Managed; OpNew 5 0 0; OpNew 6 0 0; OpNew 7 0 0;
   OpSchedule 0 1 10 false; OpSchedule 0 2 10 false; OpSchedule 0 3 10 false;
   OpSchedule 0 4 5 false; OpSchedule 1 6 7 false].

Definition ex_sim : Sim :=
  match run_ops ex_ops (curEventQueue (Some 0%nat) (getEventQueue 1 init_sim)) with
  | Ok s => s
  | Err _ => init_sim
  end.

Lemma ex_sim_reachable process : reachable process ex_sim /\ serial_reachable process ex_sim.
Proof.
  destruct (run_ops_steps process ex_ops (curEventQueue (Some 0%nat) (getEventQueue 1 init_sim)) ex_sim)
    as [H1 H2]; [vm_compute; reflexivity |].
  split.
  - eapply rtc_l; [apply (step_queue process 1) |]. eapply rtc_l; [apply step_thread | exact H1].
  - eapply rtc_l; [apply (sstep_queue process 1) |]. eapply rtc_l; [apply sstep_thread | exact H2].
Qed.

(** Earlier first, smaller priority first, and the last one scheduled first. *)
Example ex_order : order ex_sim 0 = Ok [4; 3; 2; 1]%nat /\ order ex_sim 1 = Ok [6%nat].
Proof. vm_compute. done. Qed.

(** A parallel phase: the event 7 waits in the asynchronous list of queue 1. *)
Definition ex_async : Sim :=
  match schedule (set_mode true ex_sim) 1 7 20 false with Ok s => s | Err _ => ex_sim end.

Lemma ex_async_reachable process : reachable process (curEventQueue (Some 1%nat) ex_async).
Proof.
  unfold reachable. etransitivity; [apply (proj1 (ex_sim_reachable process)) |].
  eapply rtc_l; [apply (step_mode process true) |].
  eapply rtc_l; [apply (step_op process (OpSchedule 1 7 20 false)) with (s' := ex_async) |].
  { vm_compute. reflexivity. }
  eapply rtc_l; [apply (step_thread process (Some 1%nat)) | apply rtc_refl].
Qed.

Definition ex_queue (s : Sim) (q : nat) : EventQueue :=
  match mainEventQueue s !! q with Some Q => Q | None => new_EventQueue end.
Definition ex_event (s : Sim) (x : nat) : Event :=
  match events s !! x with Some e => e | None => mkEvent None None 0 0 0 None end.

Lemma event_order_witness :
  exists l, order ex_sim 0 = Ok l /\ NoDup l /\ ordered (events ex_sim) l.
Proof.
  destruct (event_order ex_process ex_sim 0 (ex_queue ex_sim 0)) as (l & H1 & H2 & H3 & _);
    [apply ex_sim_reachable | reflexivity |]. exists l. auto.
Defined.

Lemma queue_refines_witness :
  exists s', schedule ex_sim 0 5 10 false = Ok s' /\
    moves ex_sim s' 0 (place (events ex_sim) (10, 0) 5).
Proof.
  apply (queue_refines ex_process ex_sim 0 5 (ex_queue ex_sim 0) (ex_event ex_sim 5) 10 false);
    [apply ex_sim_reachable | reflexivity | reflexivity | reflexivity | vm_compute; congruence | reflexivity].
Defined.

Lemma time_forward_witness :
  match doSimLoop ex_process (fun _ _ => Ok) Ok Ok 5 (fun _ a => a) (mkAsync false false false false false false)
          ex_sim 0 with
  | Ok (Running _ s') | Ok (Returned _ s' _) =>
      (exists Q', mainEventQueue s' !! 0%nat = Some Q' /\ 0 <= _curTick Q') /\ timely s'
  | Err _ => True
  end.
Proof.
  apply (time_forward ex_process (fun _ _ => Ok) Ok Ok 5 (fun _ a => a)
    (mkAsync false false false false false false) ex_sim 0 (ex_queue ex_sim 0));
    [apply ex_sim_reachable | reflexivity].
Defined.

Lemma deschedule_found_witness :
  deschedule (curEventQueue (Some 1%nat) ex_async) 1 7 = Err Panic.
Proof.
  apply (deschedule_found ex_process (curEventQueue (Some 1%nat) ex_async) 1 7
    (ex_queue ex_async 1) (ex_event ex_async 7));
    [apply ex_async_reachable | reflexivity | reflexivity | reflexivity | reflexivity | reflexivity |].
  vm_compute. left.
Defined.

Lemma destroy_terminates_witness :
  exists s', destroy_queue 4 ex_sim 0 = Ok s' /\ order s' 0 = Ok [].
Proof.
  destruct (destroy_terminates ex_process ex_sim 0 (ex_queue ex_sim 0) [4; 3; 2; 1]%nat)
    as (s' & H1 & H2 & _); [apply ex_sim_reachable | reflexivity | vm_compute; reflexivity | reflexivity |].
  exists s'. auto.
Defined.

Lemma restored_events_witness :
  exists s' e', UNSERIALIZE_EVENT (ev_serialize (ex_event ex_sim 1)) ex_sim 0 5 = Ok s' /\
    events s' !! 5%nat = Some e' /\ scheduled e' = false.
Proof.
  destruct (restored_events ex_process ex_sim 0 5 (ex_queue ex_sim 0) (ex_event ex_sim 5) (ex_event ex_sim 1))
    as (s' & e' & H1 & H2 & _ & _ & _ & H3 & _);
    [apply ex_sim_reachable | reflexivity | reflexivity | reflexivity | vm_compute; split; congruence |].
  exists s', e'. rewrite H3. auto.
Defined.

(** A run of five turns: the events at 5 and 10 have been served, and the one that
    the event 1 scheduled at 30; the managed event is gone. *)
Example ex_run :
  match doSimLoop ex_process (fun _ _ => Ok) Ok Ok 5 (fun _ a => a) (mkAsync false false false false false false)
          ex_sim 0 with
  | Ok (Running _ s') => _curTick (ex_queue s' 0) = 30 /\ order s' 0 = Ok [] /\ events s' !! 4%nat = None
  | _ => False
  end.
Proof. vm_compute. done. Qed.

(** [debugVerify] takes a first event at time 0 with a negative priority for an
    inversion, and accepts every other queue in order. *)
Example ex_verify :
  let s := match run_ops [OpNew 1 (-1) 0; OpSchedule 0 1 0 false] (getEventQueue 0 init_sim) with
           | Ok s => s | Err _ => init_sim end in
  debugVerify (events s) (head (ex_queue s 0)) = Ok false /\
  debugVerify (events ex_sim) (head (ex_queue ex_sim 0)) = Ok true.
Proof. vm_compute. done. Qed.
