(* ===== verification/CoherentXBar.v ===== *)
(** The coherent crossbar of gem5: class [CoherentXBar] of
    [src/gem5/src/mem/coherent_xbar.hh] and [coherent_xbar.cc].

    The host crossbar is a copy of it with the steps of the CXL extension added, and
    the device crossbar is derived from it, so that the steps they share are those of
    [HostXBar] and [HostTiming]; the fields for the fake snoop filter are not used
    here.  The theorem says what the copy changed for ordinary traffic: off the
    centre of the system, nothing. *)
From Stdlib Require Import ZArith Lia.
From stdpp Require Import base numbers list gmap.
From S2P Require Import Prelude AddrRange AddrRangeMap MemPacket SnoopFilter Clocked XBarLayer XBar HostXBar HostTiming.

Open Scope Z_scope.

(** The steps on the routing table: a request is remembered whatever its kind. *)
Definition add_route (cpu_side_port_id : Z) (sink_packet : bool) (pkt : Packet) (x : HostTiming) : outcome HostTiming :=
  do! assert_ (bool_decide (routeTo x !! req_key pkt = None)) then
  check_routes (set_routeTo (<[req_key pkt := cpu_side_port_id]> (routeTo x)) x).

Definition coherent_routes : Routes :=
  mkRoutes add_route add_route (fun _ rsp_pkt x => Ok (erase_route rsp_pkt x)).

(** * Timing requests and responses *)

Section timing.
Context {W : Type}.
Variable sendTimingSnoopReq : ResponsePort -> Packet -> W -> outcome (Packet * W).
Variable sendTimingReq : Z -> Packet -> W -> outcome (bool * Packet * W).
Variable tryTimingBelow : Z -> Packet -> W -> outcome (bool * W).
Variable sendTimingSnoopResp : Z -> Packet -> W -> outcome (bool * W).

(** A timing request, with the steps on the routing table as an argument. *)
Definition coherent_request (R : Routes) (cur : Z) (pkt : Packet) (cpu_side_port_id : Z) (x : HostTiming) (w : W)
    : outcome (bool * Packet * HostTiming * W) :=
  let is_express_snoop := isExpressSnoop pkt in
  let cache_responding := cacheResponding pkt in
  do! assert_ (eqb is_express_snoop cache_responding) then
  let! (mem_side_port_id, h) := base_findPort pkt (host x) in
  routed_request sendTimingSnoopReq sendTimingReq tryTimingBelow R (fun _ => false)
    cur cpu_side_port_id mem_side_port_id is_express_snoop cache_responding pkt (set_host h x) w.

(** [bool CoherentXBar::recvTimingReq(PacketPtr pkt, PortID cpu_side_port_id)]. *)
Definition recvTimingReq : Z -> Packet -> Z -> HostTiming -> W -> outcome (bool * Packet * HostTiming * W) :=
  coherent_request coherent_routes.

(** [bool CoherentXBar::recvTimingResp(PacketPtr pkt, PortID mem_side_port_id)]. *)
Definition recvTimingResp (cur : Z) (pkt : Packet) (mem_side_port_id : Z) (x : HostTiming)
    : outcome (bool * Packet * HostTiming) :=
  let! cpu_side_port_id := find_route pkt x in
  let! _ := in_layers cpu_side_port_id (respLayers x) in
  let! (free, x) := on_respLayer cpu_side_port_id (tryTiming mem_side_port_id) x in
  if negb free then Ok (false, pkt, x)
  else
    let! _ := (if hasData (cmd pkt) then getSize pkt else Ok 0) in
    let! (packetFinishTime, pkt, x) :=
      packet_timing cur (u64 (responseLatency (params x) * clockPeriod (clk x))) pkt x in
    let! x := (if bypassCaches (host x) then Ok x
               else on_filter (fun f => let! p := cpu_port cpu_side_port_id x in updateResponse pkt p f) x) in
    let (pkt, x) := deliver cur cpu_side_port_id pkt x in
    let! (_, x) := on_respLayer cpu_side_port_id (unit_op (succeededTiming cur packetFinishTime)) (erase_route pkt x) in
    Ok (true, pkt, x).

(** [void CoherentXBar::recvTimingSnoopReq(PacketPtr pkt, PortID mem_side_port_id)]. *)
Definition recvTimingSnoopReq (cur : Z) (pkt : Packet) (mem_side_port_id : Z) (x : HostTiming) (w : W)
    : outcome (Packet * HostTiming * W) :=
  let! _ := (if hasData (cmd pkt) then getSize pkt else Ok 0) in
  do! assert_ (isExpressSnoop pkt) then
  let! (pkt, c) := calcPacketTiming (us (params x)) cur (clk x) (u64 (forwardLatency (params x) * clockPeriod (clk x)))
                     (base (host x)) pkt in
  let x := set_clk c x in
  let cache_responding := cacheResponding pkt in
  do! assert_ (snoopDelay pkt =? 0) then
  let! (pkt, x, w) :=
    match snoopFilter (host x) with
    | Some f =>
        let! (f, (ports, lat)) := lookupSnoop pkt f in
        let x := set_host (set_snoopFilter (Some f) (host x)) x in
        let! (pkt, w) := forwardTiming sendTimingSnoopReq InvalidPortID ports (charge_lookup lat x pkt) x w in Ok (pkt, x, w)
    | None => let! (pkt, w) := forwardTiming sendTimingSnoopReq InvalidPortID (snoopPorts (host x)) pkt x w in Ok (pkt, x, w)
    end in
  let pkt := charge_snoops pkt in
  let! x := (if negb cache_responding && cacheResponding pkt then
               do! assert_ (bool_decide (routeTo x !! req_key pkt = None)) then
               Ok (set_routeTo (<[req_key pkt := mem_side_port_id]> (routeTo x)) x)
             else Ok x) in
  let! (id, h) := base_findPort pkt (host x) in
  do! assert_ (id =? mem_side_port_id) then Ok (pkt, set_host h x, w).

(** [bool CoherentXBar::recvTimingSnoopResp(PacketPtr pkt, PortID cpu_side_port_id)]. *)
Definition recvTimingSnoopResp (cur : Z) (pkt : Packet) (cpu_side_port_id : Z) (x : HostTiming) (w : W)
    : outcome (bool * Packet * HostTiming * W) :=
  let! dest_port_id := find_route pkt x in
  let forwardAsSnoop := negb (bool_decide (req_key pkt ∈ outstandingSnoop x)) in
  let! (free, x) :=
    (if forwardAsSnoop then
       let! _ := in_layers dest_port_id (snoopLayers x) in
       on_snoopLayer dest_port_id (tryTiming cpu_side_port_id) x
     else
       let! _ := in_layers dest_port_id (respLayers x) in
       on_respLayer dest_port_id (tryTiming (snoop_source x cpu_side_port_id)) x) in
  if negb free then Ok (false, pkt, x, w)
  else
    let! _ := (if hasData (cmd pkt) then getSize pkt else Ok 0) in
    do! assert_ (negb (isExpressSnoop pkt)) then
    let latency := if forwardAsSnoop then snoopResponseLatency (params x) else responseLatency (params x) in
    let! (packetFinishTime, pkt, x) := packet_timing cur (u64 (latency * clockPeriod (clk x))) pkt x in
    let! (pkt, x, w) :=
      (if forwardAsSnoop then
         let! x := on_filter (updateSnoopForward pkt) x in
         let! (success, w) := sendTimingSnoopResp dest_port_id pkt w in
         do! assert_ success then
         let! (_, x) := on_snoopLayer dest_port_id (unit_op (succeededTiming cur packetFinishTime)) x in
         Ok (pkt, x, w)
       else
         let x := set_outstandingSnoop (outstandingSnoop x ∖ {[ req_key pkt ]}) x in
         do! assert_ (negb (cpu_side_port_id =? dest_port_id)) then
         let! x := on_filter (fun f => let! rsp := cpu_port cpu_side_port_id x in
                                       let! p := cpu_port dest_port_id x in updateSnoopResponse pkt rsp p f) x in
         let (pkt, x) := deliver cur dest_port_id pkt x in
         let! (_, x) := on_respLayer dest_port_id (unit_op (succeededTiming cur packetFinishTime)) x in
         Ok (pkt, x, w)) in
    Ok (true, pkt, erase_route pkt x, w).
End timing.

(** * Atomic requests *)

Section atomic.
Context {W : Type}.
Variable sendAtomicSnoop : ResponsePort -> Packet -> W -> outcome (Packet * Z * W).
Variable sendAtomic : Z -> Packet -> W -> outcome (Packet * Z * W).

(** Forwarding to memory, or turning the request around with the latency it has so far. *)
Definition coherent_send_below (response_latency mem_side_port_id : Z) (is_destination : bool) (pkt : Packet) (x : HostXBar) (w : W)
    : outcome (Z * Packet * W) :=
  if forwardPacket pkt x then
    let pkt := if isWrite (cmd pkt) && is_destination then clearWriteThrough pkt else pkt in
    let! (pkt, latency, w) := sendAtomic mem_side_port_id pkt w in Ok (latency, pkt, w)
  else
    do! assert_ (needsResponse (cmd pkt)) then
    let! pkt := makeResponse pkt in Ok (response_latency, pkt, w).

(** What follows the snoops of an atomic request. *)
Definition atomic_send (response_latency snoop_response_latency cpu_side_port_id : Z) (snoop_response_cmd : Command)
    (is_destination : bool) (pkt : Packet) (x : HostXBar) (w : W) : outcome (Z * Packet * HostXBar * W) :=
  let! sink_packet := sinkPacket pkt x in
  let! (mem_side_port_id, x) := base_findPort pkt x in
  let! (response_latency, pkt, w) :=
    (if sink_packet then Ok (response_latency, pkt, w)
     else coherent_send_below response_latency mem_side_port_id is_destination pkt x w) in
  let! (response_latency, pkt, x) :=
    finish_atomic snoop_response_cmd snoop_response_latency cpu_side_port_id response_latency pkt x in
  Ok (response_latency, pkt, x, w).

(** [Tick CoherentXBar::recvAtomicBackdoor(PacketPtr pkt, PortID cpu_side_port_id,
    MemBackdoorPtr *backdoor)]. *)
Definition recvAtomicBackdoor (pkt : Packet) (cpu_side_port_id : Z) (x : HostXBar) (w : W)
    : outcome (Z * Packet * HostXBar * W) :=
  let! _ := (if hasData (cmd pkt) then getSize pkt else Ok 0) in
  let is_destination := isDestination pkt x in
  let snoop_caches := negb (bypassCaches x) && negb (bool_decide (cmd pkt = WriteClean)) in
  let! (snoop_response_cmd, snoop_response_latency, pkt, x, w) :=
    (if snoop_caches then snoop_above sendAtomicSnoop pkt cpu_side_port_id x w else Ok (InvalidCmd, 0, pkt, x, w)) in
  atomic_send 0 snoop_response_latency cpu_side_port_id snoop_response_cmd is_destination pkt x w.
End atomic.

(** * The host crossbar off the centre *)

(** Two runs that agree on what the first step can return. *)
Lemma bind_ext {A B} (m : outcome A) (f g : A -> outcome B) : (forall a, m = Ok a -> f a = g a) -> obind m f = obind m g.
Proof. destruct m; cbn; auto. Qed.

(** What is relied on of peers: they leave the validity of the address of a packet alone,
    and write to its request object only what is [alike] for the routes. *)
Definition tame (pkt pkt' : Packet) : Prop :=
  same_object (req pkt) (req pkt') /\ flag_isSet VALID_ADDR pkt' = flag_isSet VALID_ADDR pkt.

Class TamePeers {W} (snoop : ResponsePort -> Packet -> W -> outcome (Packet * W))
    (send : Z -> Packet -> W -> outcome (bool * Packet * W)) : Prop := {
  tame_snoop : forall p pkt w pkt' w', snoop p pkt w = Ok (pkt', w') -> tame pkt pkt';
  tame_send : forall id pkt w ok pkt' w', send id pkt w = Ok (ok, pkt', w') -> tame pkt pkt';
}.

#[export] Instance timing_peers_tame {W} ls (present : W -> Z -> ResponsePort -> Prop) snoop send :
  TimingPeers ls present snoop send -> TamePeers snoop send.
Proof.
  intros Hp. split.
  - intros p pkt w pkt' w' E. destruct (tp_snoop p pkt w) as (q & v & E' & Hs & Hr & _). rewrite E in E'.
    injection E' as <- <-. split; [auto | apply (sr_valid _ _ Hs)].
  - intros id pkt w ok pkt' w' E. destruct (tp_send id pkt w) as (k & q & v & E' & Hs & Hr & _). rewrite E in E'.
    injection E' as _ <- <-. split; [done | apply (sr_valid _ _ Hs)].
Qed.

Lemma tame_refl pkt : tame pkt pkt.
Proof. done. Qed.

Lemma tame_trans p q r : tame p q -> tame q r -> tame p r.
Proof. intros [H1 E1] [H2 E2]. split; [by eapply same_object_trans | congruence]. Qed.
#[local] Hint Resolve tame_refl : core.

Lemma tame_key p q : tame p q -> req_key q = req_key p.
Proof. intros [E _]. exact (proj1 E). Qed.

Lemma calcPacketTiming_tame u cur c d b pkt pkt' c' : calcPacketTiming u cur c d b pkt = Ok (pkt', c') -> tame pkt pkt'.
Proof.
  unfold calcPacketTiming. intros H. obind_inv. destruct a as [e c1]. obind_inv.
  match type of H with (if ?h then _ else _) = _ => destruct h end; by obind_inv.
Qed.

Lemma packet_timing_tame cur d pkt x t pkt' x' : packet_timing cur d pkt x = Ok (t, pkt', x') ->
  tame pkt pkt' /\ host x' = host x.
Proof.
  unfold packet_timing. intros H. obind_inv. destruct a as [p1 c1]. obind_inv. destruct a as [t1 x1]. obind_inv.
  unfold edge in Hm0. obind_inv. destruct a. obind_inv. split; [by eapply calcPacketTiming_tame | done].
Qed.

Section tame_peers.
Context {W : Type} (snoop : ResponsePort -> Packet -> W -> outcome (Packet * W)).
Context (send : Z -> Packet -> W -> outcome (bool * Packet * W)) `{!TamePeers snoop send}.
Context (tryBelow : Z -> Packet -> W -> outcome (bool * W)).

Lemma snoop_loop_tame exclude dests : forall pkt w pkt' w', snoop_loop snoop exclude dests pkt w = Ok (pkt', w') -> tame pkt pkt'.
Proof.
  induction dests as [| q dests IH]; intros pkt w pkt' w' H; cbn [snoop_loop] in H; [by obind_inv |].
  destruct (_ || _); [| by eapply IH]. obind_inv. destruct a as [p1 w1].
  eapply tame_trans; [by eapply tame_snoop | by eapply IH].
Qed.

Lemma forwardTiming_tame exclude dests pkt x w pkt' w' : forwardTiming snoop exclude dests pkt x w = Ok (pkt', w') -> tame pkt pkt'.
Proof. unfold forwardTiming. intros H. obind_inv. by eapply snoop_loop_tame. Qed.

Lemma snoop_request_tame cur id mem dst pkt x w go pkt' x' w' :
  snoop_request snoop tryBelow cur id mem dst pkt x w = Ok (go, pkt', x', w') -> tame pkt pkt'.
Proof.
  unfold snoop_request. intros H. obind_inv. destruct a0 as [[] w1]; cbn [negb] in H.
  - obind_inv. destruct a0 as [[p1 x1] w2]. obind_inv.
    change (tame pkt p1). destruct (snoopFilter (host x)).
    + run_steps. destruct (isEviction _).
      * run_steps. case_bool_decide; split; try done. etrans; [by apply flag_set_other | done].
      * run_steps. match goal with E : forwardTiming _ _ _ _ _ _ = _ |- _ => apply forwardTiming_tame in E; exact E end.
    + run_steps. by eapply forwardTiming_tame.
  - by run_steps.
Qed.

Lemma forward_request_tame mem dst ex pkt x w ok rd pkt' w' :
  forward_request send mem dst ex pkt x w = Ok (ok, rd, pkt', w') -> tame pkt pkt'.
Proof.
  unfold forward_request. intros H. destruct (forwardPacket pkt (host x)); [| by obind_inv].
  obind_inv. destruct a as [[k q] w1]. obind_inv. eapply tame_trans; [| by eapply tame_send].
  assert (H1 : tame pkt (if cacheResponding pkt then setExpressSnoop pkt else pkt)).
  { destruct (cacheResponding pkt); [| done]. split; [done | by apply flag_set_other]. }
  eapply tame_trans; [exact H1 |]. destruct (_ && dst); [| done].
  split; [done |]. apply sr_valid. by apply clear_same.
Qed.

(** Crossbars that do the same with the routes of a packet. *)
Definition agree (R R' : Routes) (pkt : Packet) : Prop :=
  forall id sink x, remember R id sink pkt x = remember R' id sink pkt x /\
    remember_clean R id sink pkt x = remember_clean R' id sink pkt x /\ forall rsp, forget R pkt rsp x = forget R' pkt rsp x.

Lemma finish_request_agree R R' cur id mem t hd ex sc dst sink ok rd er es a pkt x : agree R R' pkt ->
  finish_request R cur id mem t hd ex sc dst sink ok rd er es a pkt x
  = finish_request R' cur id mem t hd ex sc dst sink ok rd er es a pkt x.
Proof.
  intros H. unfold finish_request. apply bind_ext. intros x1 _.
  assert (E1 : forall y, accepted_request R cur id mem t ex sink er es pkt y = accepted_request R' cur id mem t ex sink er es pkt y).
  { intros y. unfold accepted_request. destruct ex; [done |]. apply bind_ext. intros y1 _.
    by rewrite (proj1 (H id sink y1)). }
  assert (E2 : forall y, maintenance R id rd sink pkt y = maintenance R' id rd sink pkt y).
  { intros y. unfold maintenance. destruct (outstandingCMO (host y) !! pkt_id pkt) as [d |].
    - destruct (isWrite (cmd pkt)); [| done]. destruct d as [q |]; [| done]. destruct (routeTo y !! req_key q) as [i |]; [| done].
      do 2 f_equal. by rewrite (proj2 (proj2 (H i sink y))).
    - destruct (isWrite (cmd pkt)); [done |]. by rewrite (proj1 (proj2 (H id sink _))). }
  rewrite E1. apply bind_ext. intros [pkt1 x2] Ex.
  assert (pkt1 = pkt \/ ok = false) as [-> | ->] by (destruct ok; cbn [negb] in Ex; [left; obind_inv; done | by right]); [by rewrite E2 | done].
Qed.

(** Two crossbars that agree on every packet of some kinds treat a request of these
    kinds alike. *)
Lemma routed_request_agree (R R' : Routes) (skip skip' : Packet -> bool) (kinds : CXLPacketType -> Prop) cur id mem ex cr pkt x w :
  (forall k k', alike k k' -> kinds k -> kinds k') ->
  (forall q, kinds (cxl_packet_type (req q)) -> flag_isSet VALID_ADDR q = true -> agree R R' q /\ skip q = skip' q) ->
  kinds (cxl_packet_type (req pkt)) -> flag_isSet VALID_ADDR pkt = true ->
  routed_request snoop send tryBelow R skip cur id mem ex cr pkt x w
  = routed_request snoop send tryBelow R' skip' cur id mem ex cr pkt x w.
Proof.
  intros Hkinds Ha Hk Hv. assert (Hq : forall q, tame pkt q -> agree R R' q /\ skip q = skip' q).
  { intros q [Er Ev]. apply Ha; [by eapply Hkinds; [apply Er |] | congruence]. }
  unfold routed_request. apply bind_ext. intros [free x1] _. destruct free; [cbn [negb] | done].
  apply bind_ext. intros n _. apply bind_ext. intros [[t p1] x2] Ht. apply packet_timing_tame in Ht as [Ht _].
  rewrite (proj2 (Hq p1 Ht)). apply bind_ext. intros [[[go p2] x3] w1] Hs.
  assert (H2 : tame pkt p2).
  { eapply tame_trans; [exact Ht |]. destruct (_ && _); [by eapply snoop_request_tame | by obind_inv]. }
  destruct go; [cbn [negb] | done]. apply bind_ext. intros sink _. apply bind_ext. intros a _.
  apply bind_ext. intros [[[ok rd] p3] w2] Hf. rewrite (finish_request_agree R R'); [done |].
  apply Hq. eapply tame_trans; [exact H2 |]. destruct sink; [by obind_inv | by eapply forward_request_tame].
Qed.
End tame_peers.

Lemma agree_ordinary q : ordinary (cxl_packet_type (req q)) -> flag_isSet VALID_ADDR q = true ->
  agree host_routes coherent_routes q.
Proof.
  intros [H1 H2] Hv id sink x.
  assert (Ha : (let! y := insert_route id sink q x in check_routes y) = add_route id sink q x).
  { unfold insert_route, add_route, getAddr. rewrite (bool_decide_eq_false_2 _ H1), (bool_decide_eq_false_2 _ H2), Hv. cbn [negb andb].
    by destruct (assert_ _). }
  cbn [remember remember_clean forget host_routes coherent_routes]. split; [exact Ha |]. split; [| unfold getAddr; by rewrite Hv].
  rewrite Ha. unfold add_route. by case_bool_decide.
Qed.

(** Off the centre the host crossbar only looks up the address. *)
Lemma findPort_off_centre pkt x : flag_isSet VALID_ADDR pkt = true -> center_xbar x = false ->
  findPort pkt x = let! (id, x) := base_findPort pkt x in Ok (id, pkt, x).
Proof. intros. apply findPort_other; auto. Qed.

Lemma on_filter_center g x x' : on_filter g x = Ok x' -> center_xbar (host x') = center_xbar (host x).
Proof. unfold on_filter. intros H. destruct (snoopFilter (host x)); by obind_inv. Qed.

Lemma mark_fetched_off pkt x : center_xbar (host x) = false -> mark_fetched pkt x = Ok x.
Proof. intros Hc. unfold mark_fetched. by rewrite Hc. Qed.

Lemma on_respLayer_host {A} i (g : Layer -> outcome (A * Layer)) x a x' : on_respLayer i g x = Ok (a, x') -> host x' = host x.
Proof. unfold on_respLayer. intros H. by run_steps. Qed.

Lemma timing_resp_same cur pkt mem x : flag_isSet VALID_ADDR pkt = true -> center_xbar (host x) = false ->
  HostTiming.recvTimingResp cur pkt mem x = recvTimingResp cur pkt mem x.
Proof.
  intros Hv Hc. unfold HostTiming.recvTimingResp, recvTimingResp. unfold getAddr at 1. rewrite Hv. cbn [assert_ obind].
  apply bind_ext. intros id _. apply bind_ext. intros u _. apply bind_ext. intros [free x1] Hl.
  destruct free; [cbn [negb] | done]. apply bind_ext. intros n _. apply bind_ext. intros [[t p1] x2] Ht.
  apply packet_timing_tame in Ht as [[_ Ev] Eh]. apply on_respLayer_host in Hl. apply bind_ext. intros x3 H3.
  assert (Hc3 : center_xbar (host x3) = false).
  { rewrite <- Hc, <- Hl, <- Eh. destruct (bypassCaches (host x2)); [by obind_inv | by eapply on_filter_center]. }
  rewrite (mark_fetched_off _ _ Hc3). cbn [obind]. unfold deliver, getAddr.
  change (flag_isSet VALID_ADDR (set_headerDelay 0 p1)) with (flag_isSet VALID_ADDR p1). by rewrite Ev, Hv.
Qed.

Lemma timing_snoop_resp_same {W} (send : Z -> Packet -> W -> outcome (bool * W)) cur pkt id x w :
  flag_isSet VALID_ADDR pkt = true -> HostTiming.recvTimingSnoopResp send cur pkt id x w = recvTimingSnoopResp send cur pkt id x w.
Proof.
  intros Hv. unfold HostTiming.recvTimingSnoopResp, recvTimingSnoopResp. unfold getAddr at 1. rewrite Hv. cbn [assert_ obind].
  apply bind_ext. intros dest _. apply bind_ext. intros [free x1] _.
  destruct free; [cbn [negb] | done]. apply bind_ext. intros n _. apply bind_ext. intros u _.
  apply bind_ext. intros [[t p1] x2] Ht. apply packet_timing_tame in Ht as [[_ Ev] _].
  apply bind_ext. intros [[p2 x3] w1] H2. unfold getAddr.
  assert (E : flag_isSet VALID_ADDR p2 = true); [| by rewrite E].
  rewrite <- Hv, <- Ev. destruct (negb _); [by run_steps |]. unfold deliver in H2. by run_steps.
Qed.

Lemma timing_snoop_req_same {W} (snoop : ResponsePort -> Packet -> W -> outcome (Packet * W))
    (send : Z -> Packet -> W -> outcome (bool * Packet * W)) `{!TamePeers snoop send} cur pkt mem x w :
  flag_isSet VALID_ADDR pkt = true -> center_xbar (host x) = false ->
  HostTiming.recvTimingSnoopReq snoop cur pkt mem x w = recvTimingSnoopReq snoop cur pkt mem x w.
Proof.
  intros Hv Hc. unfold HostTiming.recvTimingSnoopReq, recvTimingSnoopReq. unfold getAddr at 1. rewrite Hv. cbn [assert_ obind].
  apply bind_ext. intros n _. apply bind_ext. intros u _. apply bind_ext. intros [p1 c1] Ht. apply calcPacketTiming_tame in Ht.
  apply bind_ext. intros u' _. apply bind_ext. intros [[p2 x2] w2] H2.
  assert (H3 : tame pkt p2 /\ center_xbar (host x2) = false).
  { destruct (snoopFilter _).
    - run_steps. split; [| done]. eapply tame_trans; [exact Ht |].
      match goal with E : forwardTiming _ _ _ _ _ _ = _ |- _ => apply (forwardTiming_tame snoop send) in E; exact E end.
    - run_steps. split; [| done]. eapply tame_trans; [exact Ht |].
      match goal with E : forwardTiming _ _ _ _ _ _ = _ |- _ => apply (forwardTiming_tame snoop send) in E; exact E end. }
  destruct H3 as [[_ Ev] Hc2].
  assert (Hv2 : flag_isSet VALID_ADDR (charge_snoops p2) = true) by (change (flag_isSet VALID_ADDR p2 = true); congruence).
  unfold getAddr. rewrite Hv2. destruct (_ && _); [cbn [assert_ obind]; case_bool_decide |]; cbn [assert_ obind]; try done;
    rewrite findPort_off_centre by done; by destruct (base_findPort _ _) as [[] |].
Qed.

(** The snooped caches of the atomic path, which keep the kind of a request. *)
Definition tame_kind (pkt pkt' : Packet) : Prop :=
  same_kind (req pkt) (req pkt') /\ flag_isSet VALID_ADDR pkt' = flag_isSet VALID_ADDR pkt.

Lemma tame_kind_trans p q r : tame_kind p q -> tame_kind q r -> tame_kind p r.
Proof. intros [H1 E1] [H2 E2]. split; [by eapply same_kind_trans | congruence]. Qed.

Class TameAtomic {W} (snoop : ResponsePort -> Packet -> W -> outcome (Packet * Z * W)) : Prop :=
  tame_atomic : forall p pkt w pkt' t w', snoop p pkt w = Ok (pkt', t, w') -> tame_kind pkt pkt'.

#[export] Instance atomic_peers_tame {W} ls (present : W -> Z -> ResponsePort -> Prop) snoop send :
  AtomicPeers ls present snoop send -> TameAtomic snoop.
Proof.
  intros Hp p pkt w pkt' t w' E. destruct (ap_snoop p pkt w) as (q & l & v & E' & Hs & Hr & _). rewrite E in E'.
  injection E' as <- _ <-. split; [done | apply (sr_valid _ _ Hs)].
Qed.

Lemma snoop_answered_center pkt p e s x x' : snoop_answered pkt p e s x = Ok x' -> center_xbar x' = center_xbar x.
Proof.
  unfold snoop_answered. intros H. destruct (snoopFilter x); [| by obind_inv].
  destruct (negb _); [by obind_inv |]. destruct (e <? 0); [done |]. destruct (_ !! _); by obind_inv.
Qed.

Section atomic_same.
Context {W : Type} (snoop : ResponsePort -> Packet -> W -> outcome (Packet * Z * W)) `{!TameAtomic snoop}.

Lemma forward_loop_tame oc e s dests : forall resp lat pkt x w resp' lat' pkt' x' w',
  forward_loop snoop oc e s dests resp lat pkt x w = Ok (resp', lat', pkt', x', w') ->
  tame_kind pkt pkt' /\ center_xbar x' = center_xbar x.
Proof.
  induction dests as [| q dests IH]; intros resp lat pkt x w resp' lat' pkt' x' w' H; cbn [forward_loop] in H; [by run_steps |].
  destruct (_ && _); [by eapply IH |]. apply obind_Ok in H as ([[p1 t1] w1] & E1 & H). apply tame_atomic in E1.
  destruct (negb _).
  - apply IH in H as [Ht Hc]. split; [by eapply tame_kind_trans | done].
  - obind_inv. apply IH in H as [Ht Hc].
    match goal with E : snoop_answered _ _ _ _ _ = _ |- _ => apply snoop_answered_center in E; rewrite E in Hc end.
    split; [| done]. eapply tame_kind_trans; [exact E1 | exact Ht].
Qed.

Lemma snoop_above_tame pkt id x w resp lat pkt' x' w' : snoop_above snoop pkt id x w = Ok (resp, lat, pkt', x', w') ->
  tame_kind pkt pkt' /\ center_xbar x' = center_xbar x.
Proof.
  unfold snoop_above, forwardAtomic. intros H. destruct (snoopFilter x); [| obind_inv; by eapply forward_loop_tame].
  destruct (if id <? 0 then _ else _); [| done]. run_steps. destruct (isEviction _).
  - run_steps. split; [| done]. case_bool_decide; [done |]. split; [done | by apply flag_set_other].
  - run_steps. match goal with E : forward_loop _ _ _ _ _ _ _ _ _ _ = _ |- _ => by apply forward_loop_tame in E end.
Qed.

Lemma atomic_same send pkt id x w : flag_isSet VALID_ADDR pkt = true -> center_xbar x = false ->
  HostXBar.recvAtomicBackdoor snoop send pkt id x w = recvAtomicBackdoor snoop send pkt id x w.
Proof.
  intros Hv Hc. unfold HostXBar.recvAtomicBackdoor, recvAtomicBackdoor. apply bind_ext. intros n _.
  apply bind_ext. intros [[[[resp lat] p1] x1] w1] H1.
  assert (H2 : tame_kind pkt p1 /\ center_xbar x1 = center_xbar x).
  { destruct (_ && _); [by eapply snoop_above_tame | by run_steps]. }
  destruct H2 as [[_ Ev] Ec]. unfold atomic_send. apply bind_ext. intros sink _. rewrite findPort_off_centre by congruence. rewrite obind_assoc.
  apply bind_ext. intros [mem x2] Hb. cbn [obind]. unfold base_findPort in Hb. run_steps.
  destruct sink; cbn [obind]; [done |]. unfold send_below, coherent_send_below.
  destruct (forwardPacket _ _).
  - rewrite !obind_assoc. apply bind_ext. intros [[p2 l2] w2] _. cbn [set_base center_xbar]. rewrite Ec, Hc. done.
  - rewrite !obind_assoc. apply bind_ext. intros u _. apply bind_ext. intros q _. done.
Qed.
End atomic_same.

(** A timing request that any of the crossbars takes in the same way, whatever its
    kind: the steps on the routes decide what is remembered. *)
Lemma coherent_request_ok {W} ls (present : W -> Z -> ResponsePort -> Prop) snoop send tryBelow
    `{!TimingPeers ls present snoop send} R kinds r cur orig p f pend x w : (forall k k', alike k k' -> kinds k -> kinds k') ->
  cache_request ls orig p (host x) f pend -> passable cur orig x -> kinds (cxl_packet_type (req orig)) ->
  remembers R kinds orig p x r ->
  (forall id h', base_findPort orig (host x) = Ok (id, h') ->
    0 <= id /\ exists l, reqLayers x !! Z.to_nat id = Some l /\ layer_open cur (getId p) l) ->
  sys_inv (mkSystem f pend (present w)) ->
  exists ok pkt x' w' f' mem l, coherent_request snoop send tryBelow R cur orig (getId p) x w = Ok (ok, pkt, x', w') /\
    snoopFilter (host x') = Some f' /\ layer_after cur p x x' mem l ok /\
    request_result ls present orig p f pend r x ok pkt x' w' f'.
Proof.
  intros Hkinds Hreq Hpass Hkind Hrem Hlay Hinv. pose proof Hreq as [_ Hv _ _ _ Hcr _ _ _ _ _ _ _ [(id & b & Hb) _]].
  pose proof Hpass as [Hex Hsd _ _ _]. unfold coherent_request. rewrite Hex, Hcr. cbn [eqb assert_ obind].
  assert (Hfp : base_findPort orig (host x) = Ok (id, set_base b (host x))) by (unfold base_findPort; by rewrite Hb).
  destruct (Hlay _ _ Hfp) as (Hid & l & Hl & Ho). rewrite Hfp. cbn [obind].
  destruct (routed_request_ok ls present snoop send tryBelow cur orig p f pend R kinds r Hkinds x w (fun _ => false) id orig
              (set_base b (host x)) l) as (ok & pkt & x' & w' & f' & H); auto using same_refl.
  - by split.
  - exact (base_findPort_width _ _ _ _ Hfp).
  - by exists ok, pkt, x', w', f', id, l.
Qed.

(** C10: off the centre of the system the host crossbar is gem5's coherent crossbar for
    ordinary traffic: for every packet with an address that is neither a coherence
    check nor the device's answer to a snoop, the timing handlers of requests, responses,
    snoops and snoop responses and the atomic handler of the two do the same, failures
    included.  Snooped caches may write to the request object, and what a request is sent
    to may make another CXL message of it; they keep its identity, make no coherence check
    and no answer to a snoop of it or of such another kind, and leave the address valid;
    an atomic snoop keeps the kind. *)
Theorem host_is_coherent {W V} (snoop : ResponsePort -> Packet -> W -> outcome (Packet * W)) send tryBelow
    `{!TamePeers snoop send} (sendSnoopResp : Z -> Packet -> W -> outcome (bool * W))
    (snoopA : ResponsePort -> Packet -> V -> outcome (Packet * Z * V)) sendA `{!TameAtomic snoopA} cur pkt port x (w : W) (v : V) :
  flag_isSet VALID_ADDR pkt = true -> ordinary (cxl_packet_type (req pkt)) -> center_xbar (host x) = false ->
  HostTiming.recvTimingReq snoop send tryBelow cur pkt port x w = recvTimingReq snoop send tryBelow cur pkt port x w /\
  HostTiming.recvTimingResp cur pkt port x = recvTimingResp cur pkt port x /\
  HostTiming.recvTimingSnoopReq snoop cur pkt port x w = recvTimingSnoopReq snoop cur pkt port x w /\
  HostTiming.recvTimingSnoopResp sendSnoopResp cur pkt port x w = recvTimingSnoopResp sendSnoopResp cur pkt port x w /\
  HostXBar.recvAtomicBackdoor snoopA sendA pkt port (host x) v = recvAtomicBackdoor snoopA sendA pkt port (host x) v.
Proof.
  intros Hv Hk Hc. split_and!.
  - unfold HostTiming.recvTimingReq, recvTimingReq, coherent_request. apply bind_ext. intros u _.
    rewrite findPort_off_centre, obind_assoc by done. apply bind_ext. intros [id h] _. cbn [obind].
    unfold getAddr. rewrite Hv. cbn [assert_ obind].
    apply (routed_request_agree snoop send tryBelow) with ordinary; [exact ordinary_alike | | done | done]. intros q Hq Hvq. split; [by apply agree_ordinary |].
    by apply bool_decide_eq_false_2, Hq.
  - by apply timing_resp_same.
  - by apply (timing_snoop_req_same snoop send).
  - by apply timing_snoop_resp_same.
  - by apply atomic_same.
Qed.

(** A read in a crossbar above the centre. *)
Definition ex_off_centre : HostTiming :=
  ex_timing (mkHostXBar ex_host_base (Some ex_filter) ex_ports [] 500 false false false false ∅ ∅) [new_Layer; new_Layer].

Lemma host_is_coherent_witness :
  let pkt := ex_host_read ReadSharedReq in
  HostTiming.recvTimingReq ex_snoopT ex_sendT ex_tryT 2000 pkt 2 ex_off_centre (∅ : ex_caches)
    = recvTimingReq ex_snoopT ex_sendT ex_tryT 2000 pkt 2 ex_off_centre (∅ : ex_caches) /\
  HostXBar.recvAtomicBackdoor ex_snoop ex_send pkt 2 (host ex_off_centre) (∅ : ex_caches)
    = recvAtomicBackdoor ex_snoop ex_send pkt 2 (host ex_off_centre) (∅ : ex_caches).
Proof.
  destruct (host_is_coherent ex_snoopT ex_sendT ex_tryT (fun _ _ (w : ex_caches) => Ok (true, w)) ex_snoop ex_send
              2000 (ex_host_read ReadSharedReq) 2 ex_off_centre (∅ : ex_caches) (∅ : ex_caches)) as (H1 & _ & _ & _ & H2);
    [reflexivity | by split | reflexivity |]. split; [exact H1 | exact H2].
Defined.

(** The crossbars differ on the other kinds: the coherent crossbar remembers a check
    that is sent on, the host crossbar does not. *)
Example check_not_remembered :
  let pkt := set_req (set_cxl_packet_type HostBiasCheck (new_Request 1)) (ex_host_read ReadSharedReq) in
  (exists p x w, HostTiming.recvTimingReq ex_snoopT ex_sendT ex_tryT 2000 pkt 2 ex_off_centre (∅ : ex_caches) = Ok (true, p, x, w) /\
     routeTo x = ∅) /\
  (exists p x w, recvTimingReq ex_snoopT ex_sendT ex_tryT 2000 pkt 2 ex_off_centre (∅ : ex_caches) = Ok (true, p, x, w) /\
     routeTo x = {[ 1 := 2 ]}).
Proof. split; eexists _, _, _; (split; [vm_compute; reflexivity | reflexivity]). Qed.
