(* ===== verification/DevXBar.v ===== *)
(** The crossbar of the device: class [CXLXBar] of
    [src/gem5/src/dev/cxl/TestDev/CXLXBar.hh] and [CXLXBar.cc].

    It is a coherent crossbar that asks for the bias of a page before it lets the
    device's processor, at CPU-side port 1, access device memory.  In host bias the
    request itself is sent to the host for a coherence check, with its source
    remembered; it comes back through another port and is then handled as if the
    processor had sent it.

    [recvTimingReq], [recvAtomicBackdoor] and the port handlers are the device's own.
    [recvTimingResp] and [recvTimingSnoopResp] are declared in both classes without
    [virtual], and the ports call those of the base class, of [CoherentXBar]. *)
From Stdlib Require Import ZArith Lia.
From stdpp Require Import base numbers list gmap.
From S2P Require Import Prelude AddrRange AddrRangeMap MemPacket SnoopFilter Clocked XBarLayer XBar HostXBar HostTiming CoherentXBar.

Open Scope Z_scope.

Definition is_kind (k : CXLPacketType) (pkt : Packet) : bool := bool_decide (cxl_packet_type (req pkt) = k).

(** * Timing requests *)

(** Remembering the source of a request that is taken. *)
Definition device_remember (cpu_side_port_id : Z) (sink_packet : bool) (pkt : Packet) (x : HostTiming) : outcome HostTiming :=
  let insert :=
    do! assert_ (bool_decide (routeTo x !! req_key pkt = None)) then
    let! _ := getAddr pkt in
    check_routes (set_routeTo (<[req_key pkt := cpu_side_port_id]> (routeTo x)) x) in
  if negb (is_kind HostBiasCheck pkt) && negb (is_kind CXLcacheH2DResp pkt) then insert
  else if sink_packet && is_kind CXLcacheH2DResp pkt then insert
  else Ok x.

(** Remembering the source of a cache maintenance request that waits for its write. *)
Definition device_remember_clean (cpu_side_port_id : Z) (sink_packet : bool) (pkt : Packet) (x : HostTiming)
    : outcome HostTiming :=
  do! assert_ (bool_decide (routeTo x !! req_key pkt = None)) then
  let insert :=
    let! _ := getAddr pkt in Ok (set_routeTo (<[req_key pkt := cpu_side_port_id]> (routeTo x)) x) in
  let! x := (if negb (is_kind HostBiasCheck pkt) && negb (is_kind CXLcacheH2DResp pkt) then insert
             else if sink_packet && is_kind CXLcacheH2DResp pkt then insert
             else Ok x) in
  check_routes x.

Definition device_routes : Routes :=
  mkRoutes device_remember device_remember_clean (fun pkt rsp_pkt x => let! _ := getAddr pkt in Ok (erase_route rsp_pkt x)).

(** The range of the device's port to the bridge. *)
Definition cxldev : AddrRange := RangeSize 0x15000000 0x40000.
Definition BIAS_PORT : Z := 0x15000000.
Definition device_memory (a : Z) : bool := (0x80000000 <=? a) && (a <? 0xA0000000).

Section bias.
Context {W : Type}.
(** [sendBiasAtomic] of a memory-side port, to the peer behind it. *)
Variable sendBiasAtomic : Z -> Z -> Z -> Z -> bool -> W -> outcome (Z * Z * W).

(** [Tick CheckBias(PacketPtr pkt, Addr originAddr, int* bias_mode)]. *)
Definition CheckBias (pkt : Packet) (originAddr bias_mode : Z) (h : HostXBar) (w : W)
    : outcome (Z * Z * HostXBar * W) :=
  let! (mem_side_port_id, h) := base_findPort pkt h in
  let! destAddr := getAddr pkt in
  let! (latency, bias_mode, w) := sendBiasAtomic mem_side_port_id destAddr originAddr bias_mode false w in
  Ok (latency, bias_mode, h, w).

(** The query of both request paths: the packet has the address of the device's port
    for its time. *)
Definition query_bias (pkt : Packet) (h : HostXBar) (w : W) : outcome (Z * Z * Packet * HostXBar * W) :=
  let! originAddr := getAddr pkt in
  let! pkt := setAddr BIAS_PORT pkt in
  let! (latency, check_bias, h, w) := CheckBias pkt originAddr 0 h w in
  let! pkt := setAddr originAddr pkt in
  Ok (latency, check_bias, pkt, h, w).

(** The request becomes a coherence check. *)
Definition as_check (a : Z) (pkt : Packet) : Packet :=
  set_req (set_cxl_packet_type HostBiasCheck (set_coherent_check_dest a (req pkt))) pkt.
End bias.

Section timing.
Context {W : Type}.
Variable sendTimingSnoopReq : ResponsePort -> Packet -> W -> outcome (Packet * W).
Variable sendTimingReq : Z -> Packet -> W -> outcome (bool * Packet * W).
Variable tryTimingBelow : Z -> Packet -> W -> outcome (bool * W).
Variable sendBiasAtomic : Z -> Z -> Z -> Z -> bool -> W -> outcome (Z * Z * W).

(** [bool CXLXBar::recvTimingReq(PacketPtr pkt, PortID cpu_side_port_id)]. *)
Definition recvTimingReq : Z -> Packet -> Z -> HostTiming -> W -> outcome (bool * Packet * HostTiming * W) :=
  coherent_request sendTimingSnoopReq sendTimingReq tryTimingBelow device_routes.

(** [bool CXLXBarResponsePort::recvTimingReq(PacketPtr pkt)] of port [id]. *)
Definition port_recvTimingReq (cur id : Z) (pkt : Packet) (x : HostTiming) (w : W)
    : outcome (bool * Packet * HostTiming * W) :=
  if negb (id =? 1) then
    if is_kind HostBiasCheck pkt then
      recvTimingReq cur (if cacheResponding pkt then pkt else clearExpressSnoop pkt) 1 x w
    else recvTimingReq cur pkt id x w
  else
    let! destAddr := getAddr pkt in
    if device_memory destAddr then
      let! (_, check_bias, pkt, h, w) := query_bias sendBiasAtomic pkt (host x) w in
      let x := set_host h x in
      if check_bias =? 1 then
        let! a := getAddr pkt in
        let pkt := as_check a pkt in
        do! assert_ (bool_decide (routeTo x !! req_key pkt = None)) then
        let! _ := getAddr pkt in
        let x := set_routeTo (<[req_key pkt := id]> (routeTo x)) x in
        let! (mem_side_port_id, h) := base_findPort_range cxldev (host x) in
        let! (success, pkt, w) := sendTimingReq mem_side_port_id pkt w in
        Ok (success, pkt, set_host h x, w)
      else if check_bias =? 2 then recvTimingReq cur pkt id x w
      else Err Panic
    else recvTimingReq cur pkt id x w.
End timing.

(** * Atomic requests *)

Section atomic.
Context {W : Type}.
Variable sendAtomicSnoop : ResponsePort -> Packet -> W -> outcome (Packet * Z * W).
Variable sendAtomic : Z -> Packet -> W -> outcome (Packet * Z * W).
Variable sendBiasAtomic : Z -> Z -> Z -> Z -> bool -> W -> outcome (Z * Z * W).

(** The loop of [forwardAtomic] for a snoop of the host: no port is left out, and the
    command is not restored between the snoops. *)
Fixpoint h2d_loop (orig_cmd : Command) (dests : list ResponsePort) (resp : Command) (latency : Z) (pkt : Packet) (w : W)
    : outcome (Command * Z * Packet * W) :=
  match dests with
  | [] => Ok (resp, latency, pkt, w)
  | p :: dests =>
      let! (pkt, l, w) := sendAtomicSnoop p pkt w in
      if isResponse (cmd pkt) then
        do! assert_ (negb (bool_decide (cmd pkt = orig_cmd))) then
        do! assert_ (cacheResponding pkt) then
        do! assert_ (bool_decide (resp = InvalidCmd)) then
        h2d_loop orig_cmd dests (cmd pkt) l pkt w
      else h2d_loop orig_cmd dests resp latency pkt w
  end.

(** [std::pair<MemCmd, Tick> CXLXBar::forwardAtomic(PacketPtr pkt, PortID
    exclude_cpu_side_port_id, PortID source_mem_side_port_id, const
    std::vector<QueuedResponsePort*>& dests)]. *)
Definition forwardAtomic (pkt : Packet) (exclude source : Z) (dests : list ResponsePort) (x : HostXBar) (w : W)
    : outcome (Command * Z * Packet * HostXBar * W) :=
  if is_kind CXLcacheH2DReq pkt then
    let! (resp, latency, pkt, w) := h2d_loop (cmd pkt) dests InvalidCmd 0 pkt w in Ok (resp, latency, pkt, x, w)
  else
    do! assert_ (negb (bypassCaches x)) then
    forward_loop sendAtomicSnoop (cmd pkt) exclude source dests InvalidCmd 0 pkt x w.

(** The snooping part of [recvAtomicBackdoor]; the filter is not asked about a snoop of
    the host. *)
Definition snoop_device (pkt : Packet) (port_id : Z) (x : HostXBar) (w : W)
    : outcome (Command * Z * Packet * HostXBar * W) :=
  match snoopFilter x with
  | Some f =>
      if is_kind CXLcacheH2DReq pkt then forwardAtomic pkt port_id InvalidPortID (snoopPorts x) x w
      else
        match (if port_id <? 0 then None else hx_cpuSidePorts x !! Z.to_nat port_id) with
        | None => Err Undefined
        | Some src =>
            let! (f, (ports, lat)) := lookupRequest pkt src f in
            let! a := getAddr pkt in
            let! s := isSecure pkt in
            let! f := finishRequest false a s f in
            let x := set_snoopFilter (Some f) x in
            let lookup_latency := u64 (lat * hx_clockPeriod x) in
            if isEviction (cmd pkt) then
              Ok (InvalidCmd, lookup_latency, if bool_decide (ports = []) then pkt else setBlockCached pkt, x, w)
            else
              let! (resp, l, pkt, x, w) := forwardAtomic pkt port_id InvalidPortID ports x w in
              Ok (resp, u64 (lookup_latency + l), pkt, x, w)
        end
  | None => forwardAtomic pkt port_id InvalidPortID (snoopPorts x) x w
  end.

(** The bias check, which comes first.  The answer to a coherence check is freed; the
    source leaves the pointer in place, and the model leaves no message behind it. *)
Definition atomic_bias_check (cpu_side_port_id : Z) (pkt : Packet) (x : HostXBar) (w : W)
    : outcome (Z * Packet * HostXBar * W) :=
  if cpu_side_port_id =? 1 then
    let! destAddr := getAddr pkt in
    if device_memory destAddr then
      let! (latency, check_bias, pkt, x, w) := query_bias sendBiasAtomic pkt x w in
      if check_bias =? 1 then
        let! a := getAddr pkt in
        let! (pkt, _, w) := sendAtomic 0 (as_check a pkt) w in
        Ok (latency, set_req (set_cxl_req None (req pkt)) pkt, x, w)
      else if check_bias =? 2 then Ok (latency, pkt, x, w)
      else Err Panic
    else Ok (0, pkt, x, w)
  else Ok (0, pkt, x, w).

(** [Tick CXLXBar::recvAtomicBackdoor(PacketPtr pkt, PortID cpu_side_port_id,
    MemBackdoorPtr *backdoor)]. *)
Definition recvAtomicBackdoor (pkt : Packet) (cpu_side_port_id : Z) (x : HostXBar) (w : W)
    : outcome (Z * Packet * HostXBar * W) :=
  let! (bias_check_latency, pkt, x, w) := atomic_bias_check cpu_side_port_id pkt x w in
  let! _ := (if hasData (cmd pkt) then getSize pkt else Ok 0) in
  let is_destination := isDestination pkt x in
  let snoop_caches := negb (bypassCaches x) && negb (bool_decide (cmd pkt = WriteClean)) in
  let! (snoop_response_cmd, snoop_response_latency, pkt, x, w) :=
    (if snoop_caches then snoop_device pkt cpu_side_port_id x w else Ok (InvalidCmd, 0, pkt, x, w)) in
  if snoop_caches && is_kind CXLcacheH2DReq pkt then Ok (snoop_response_latency, pkt, x, w)
  else atomic_send sendAtomic bias_check_latency snoop_response_latency cpu_side_port_id snoop_response_cmd
         is_destination pkt x w.
End atomic.

(** * Ordinary traffic *)

Lemma device_agree q : ordinary (cxl_packet_type (req q)) -> flag_isSet VALID_ADDR q = true ->
  agree device_routes coherent_routes q.
Proof.
  intros [H1 H2] Hv id sink x. cbn [remember remember_clean forget device_routes coherent_routes].
  unfold device_remember, device_remember_clean, add_route, is_kind, getAddr.
  rewrite (bool_decide_eq_false_2 _ H1), (bool_decide_eq_false_2 _ H2), Hv. by repeat split; case_bool_decide.
Qed.

Lemma snoop_device_ordinary {W} (snoop : ResponsePort -> Packet -> W -> outcome (Packet * Z * W)) pkt id x w :
  is_kind CXLcacheH2DReq pkt = false -> snoop_device snoop pkt id x w = snoop_above snoop pkt id x w.
Proof.
  intros Hk. unfold snoop_device, snoop_above. destruct (snoopFilter x) as [f |]; [rewrite Hk |].
  - destruct (if id <? 0 then _ else _); [| done]. apply bind_ext. intros [f1 [ps lat]] _. apply bind_ext. intros a _.
    apply bind_ext. intros s _. apply bind_ext. intros f2 _. destruct (isEviction _); [done |].
    unfold forwardAtomic. by rewrite Hk.
  - unfold forwardAtomic. by rewrite Hk.
Qed.

(** C9: for ordinary traffic the device crossbar is gem5's coherent crossbar.  A request
    with an address that does not come from the device's processor, or is not for device
    memory, and is neither a coherence check nor the device's answer to a snoop, is treated
    by the port as by a coherent crossbar; an atomic request likewise, unless it is the
    host's snoop of the device.  Snooped caches may write to the request object, which
    they do to note the states of the block, and what a request is sent to may make
    another CXL message of it; they keep its identity, make no coherence check and no
    answer to a snoop of it or of such another kind, and leave the address valid; an atomic
    snoop keeps the kind. *)
Theorem device_ordinary {W V} (snoop : ResponsePort -> Packet -> W -> outcome (Packet * W)) send tryBelow bias
    `{!TamePeers snoop send} (snoopA : ResponsePort -> Packet -> V -> outcome (Packet * Z * V)) sendA biasA
    `{!TameAtomic snoopA} cur pkt port x (w : W) (v : V) :
  flag_isSet VALID_ADDR pkt = true -> port <> 1 \/ device_memory (addr pkt) = false ->
  (ordinary (cxl_packet_type (req pkt)) ->
     port_recvTimingReq snoop send tryBelow bias cur port pkt x w
     = CoherentXBar.recvTimingReq snoop send tryBelow cur pkt port x w) /\
  (cxl_packet_type (req pkt) <> CXLcacheH2DReq ->
     recvAtomicBackdoor snoopA sendA biasA pkt port (host x) v
     = CoherentXBar.recvAtomicBackdoor snoopA sendA pkt port (host x) v).
Proof.
  intros Hv Hp. split; intros Hk.
  - assert (E : recvTimingReq snoop send tryBelow cur pkt port x w = CoherentXBar.recvTimingReq snoop send tryBelow cur pkt port x w).
    { unfold recvTimingReq, CoherentXBar.recvTimingReq, coherent_request. apply bind_ext. intros u _.
      apply bind_ext. intros [id h] _. apply (routed_request_agree snoop send tryBelow) with ordinary; [exact ordinary_alike | | done | done].
      intros q Hq Hvq. split; [by apply device_agree | done]. }
    unfold port_recvTimingReq. destruct (Z.eqb_spec port 1) as [-> | Hne]; cbn [negb].
    + destruct Hp as [? | Hd]; [done |]. unfold getAddr. rewrite Hv. cbn [assert_ obind]. by rewrite Hd.
    + unfold is_kind. by rewrite (bool_decide_eq_false_2 _ (proj2 Hk)).
  - assert (E : atomic_bias_check sendA biasA port pkt (host x) v = Ok (0, pkt, host x, v)).
    { unfold atomic_bias_check. destruct (Z.eqb_spec port 1) as [-> | Hne]; [| done].
      destruct Hp as [? | Hd]; [done |]. unfold getAddr. rewrite Hv. cbn [assert_ obind]. by rewrite Hd. }
    unfold recvAtomicBackdoor. rewrite E. cbn [obind]. unfold CoherentXBar.recvAtomicBackdoor.
    apply bind_ext. intros n _. assert (Hkind : is_kind CXLcacheH2DReq pkt = false) by (by apply bool_decide_eq_false_2).
    rewrite (snoop_device_ordinary snoopA _ _ _ _ Hkind). apply bind_ext. intros [[[[resp lat] p1] x1] w1] H1.
    assert (E1 : is_kind CXLcacheH2DReq p1 = false); [| by rewrite E1, andb_false_r].
    unfold is_kind in *. destruct (_ && _); [| by run_steps].
    apply snoop_above_tame in H1 as [[[_ ->] _] _]; done.
Qed.

(** * Coherence checks *)

(** A check that the crossbar handles has its route already. *)
Lemma check_alike k k' : alike k k' -> HostBiasCheck = k -> HostBiasCheck = k'.
Proof. intros [[_ H] _] <-. by rewrite H. Qed.

Lemma check_remembers orig p x : remembers device_routes (eq HostBiasCheck) orig p x (routeTo x).
Proof.
  intros y pkt sink _ _ Hk Er _. cbn [remember device_routes]. unfold device_remember, is_kind. rewrite <- Hk. cbn.
  rewrite andb_false_r. rewrite <- Er. by destruct y.
Qed.

Lemma query_bias_ok {W} (bias : Z -> Z -> Z -> Z -> bool -> W -> outcome (Z * Z * W)) pkt h w m b lat mode w' :
  flag_isSet VALID_ADDR pkt = true -> XBar.findPort (set_addr BIAS_PORT pkt) (base h) = Ok (m, b) ->
  bias m BIAS_PORT (addr pkt) 0 false w = Ok (lat, mode, w') ->
  query_bias bias pkt h w = Ok (lat, mode, pkt, set_base b h, w').
Proof.
  intros Hv Hf Hb. assert (Hv' : flag_isSet VALID_ADDR (set_addr BIAS_PORT pkt) = true) by exact Hv.
  unfold query_bias, getAddr, setAddr, CheckBias, base_findPort. rewrite Hv. cbn [assert_ obind].
  rewrite Hf. cbn [obind]. unfold getAddr. rewrite Hv'. cbn [assert_ obind].
  change (addr (set_addr BIAS_PORT pkt)) with BIAS_PORT. rewrite Hb. cbn [obind].
  by destruct pkt.
Qed.

Lemma as_check_key a pkt : req_key (as_check a pkt) = req_key pkt.
Proof. done. Qed.
Lemma as_check_valid a pkt : flag_isSet VALID_ADDR (as_check a pkt) = flag_isSet VALID_ADDR pkt.
Proof. done. Qed.

(** What the port does with a request of the processor for device memory. *)
Section processor.
Context {W : Type} (ls : Z) (present : W -> Z -> ResponsePort -> Prop).
Context (snoop : ResponsePort -> Packet -> W -> outcome (Packet * W)).
Context (send : Z -> Packet -> W -> outcome (bool * Packet * W)).
Context (tryBelow : Z -> Packet -> W -> outcome (bool * W)).
Context (bias : Z -> Z -> Z -> Z -> bool -> W -> outcome (Z * Z * W)).

(** The page of [pkt] is in the bias [mode], and the decoder leads to the device. *)
Record asked (pkt : Packet) (h : HostXBar) (w : W) (mode : Z) (h' : HostXBar) (w' : W) : Prop := {
  as_valid : flag_isSet VALID_ADDR pkt = true;
  as_memory : device_memory (addr pkt) = true;
  as_query : exists m b lat, XBar.findPort (set_addr BIAS_PORT pkt) (base h) = Ok (m, b) /\ h' = set_base b h /\
    bias m BIAS_PORT (addr pkt) 0 false w = Ok (lat, mode, w');
}.

Lemma asked_query pkt h w mode h' w' : asked pkt h w mode h' w' ->
  exists lat, query_bias bias pkt h w = Ok (lat, mode, pkt, h', w').
Proof. intros [Hv _ (m & b & lat & Hf & -> & Hb)]. exists lat. by eapply query_bias_ok. Qed.

Lemma in_device_bias cur pkt x w h' w' : asked pkt (host x) w 2 h' w' ->
  port_recvTimingReq snoop send tryBelow bias cur 1 pkt x w = recvTimingReq snoop send tryBelow cur pkt 1 (set_host h' x) w'.
Proof.
  intros Ha. destruct (asked_query _ _ _ _ _ _ Ha) as [lat E]. destruct Ha as [Hv Hm _].
  unfold port_recvTimingReq. cbn [Z.eqb Pos.eqb negb]. unfold getAddr. rewrite Hv. cbn [assert_ obind].
  rewrite Hm, E. done.
Qed.

(** The check as it is sent, and the crossbar that waits for it. *)
Definition checking (pkt : Packet) (h : HostXBar) (x : HostTiming) : HostTiming :=
  set_host h (set_routeTo (<[req_key pkt := 1]> (routeTo x)) x).

Lemma in_host_bias cur pkt x w h1 w1 m h2 : asked pkt (host x) w 1 h1 w1 -> routeTo x !! req_key pkt = None ->
  base_findPort_range cxldev h1 = Ok (m, h2) ->
  port_recvTimingReq snoop send tryBelow bias cur 1 pkt x w
  = let! (ok, pkt', w') := send m (as_check (addr pkt) pkt) w1 in Ok (ok, pkt', checking pkt h2 x, w').
Proof.
  intros Ha Hr Hf. destruct (asked_query _ _ _ _ _ _ Ha) as [lat E]. destruct Ha as [Hv Hm _].
  unfold port_recvTimingReq. cbn [Z.eqb Pos.eqb negb]. unfold getAddr. rewrite Hv. cbn [assert_ obind].
  rewrite Hm, E. cbn [obind Z.eqb Pos.eqb routeTo set_host host set_routeTo].
  rewrite Hv. cbn [assert_ obind]. rewrite as_check_key, as_check_valid, Hr, Hv, bool_decide_eq_true_2 by done. cbn [assert_ obind]. rewrite Hf. cbn [obind].
  apply bind_ext. intros [[ok p'] w'] _. done.
Qed.

Lemma already_checking cur pkt x w h1 w1 : asked pkt (host x) w 1 h1 w1 -> is_Some (routeTo x !! req_key pkt) ->
  port_recvTimingReq snoop send tryBelow bias cur 1 pkt x w = Err AssertFail.
Proof.
  intros Ha [i Hr]. destruct (asked_query _ _ _ _ _ _ Ha) as [lat E]. destruct Ha as [Hv Hm _].
  unfold port_recvTimingReq. cbn [Z.eqb Pos.eqb negb]. unfold getAddr. rewrite Hv. cbn [assert_ obind].
  rewrite Hm, E. cbn [obind Z.eqb Pos.eqb routeTo set_host]. rewrite Hv. cbn [assert_ obind]. by rewrite as_check_key, Hr.
Qed.
End processor.


(** C8: a refused coherence check is fatal.  If the port below refuses the check, the
    processor is told to wait, but the route stays recorded and the layer does not
    learn of the refusal: when the port below calls for the retry, with no other
    source waiting for it, an assertion of the layer fails; and so does an assertion
    of the port if the processor sends the request again in host bias. *)
Theorem refused_check {W} snoop (send : Z -> Packet -> W -> outcome (bool * Packet * W)) tryBelow bias
    (retry : Z -> HostTiming -> W -> outcome (HostTiming * W))
    cur pkt x w h1 w1 m h2 pkt' w2 l :
  asked bias pkt (host x) w 1 h1 w1 -> routeTo x !! req_key pkt = None -> base_findPort_range cxldev h1 = Ok (m, h2) ->
  send m (as_check (addr pkt) pkt) w1 = Ok (false, pkt', w2) ->
  0 <= m -> reqLayers x !! Z.to_nat m = Some l -> waitingForPeer l = None ->
  exists x', port_recvTimingReq snoop send tryBelow bias cur 1 pkt x w = Ok (false, pkt', x', w2) /\
    (forall cur' v, recvReqRetry retry cur' m x' v = Err AssertFail) /\
    (forall cur' q v h3 v1, req_key q = req_key pkt -> asked bias q (host x') v 1 h3 v1 ->
       port_recvTimingReq snoop send tryBelow bias cur' 1 q x' v = Err AssertFail).
Proof.
  intros Ha Hr Hf Hs Hm Hl Hw. exists (checking pkt h2 x). split_and!.
  - rewrite (in_host_bias snoop send tryBelow bias cur pkt x w h1 w1 m h2 Ha Hr Hf), Hs. done.
  - intros cur' v. unfold recvReqRetry, nth_layer. destruct (Z.ltb_spec m 0); [lia |].
    cbn [checking reqLayers set_host set_routeTo]. by rewrite Hl; cbn [obind]; rewrite Hw.
  - intros cur' q v h3 v1 Hk Hq. apply already_checking with h3 v1; [done |].
    cbn [checking routeTo set_host set_routeTo]. rewrite Hk, lookup_insert_eq. by eexists.
Qed.

(** * Atomic requests of the processor *)

Section atomic_processor.
Context {W : Type} (ls : Z) (present : W -> Z -> ResponsePort -> Prop).
Context (snoop : ResponsePort -> Packet -> W -> outcome (Packet * Z * W)).
Context (send : Z -> Packet -> W -> outcome (Packet * Z * W)) `{!AtomicPeers ls present snoop send}.

(** The end of an atomic request does not see the latency so far if a cache has
    answered. *)
Lemma finish_atomic_latency resp l id b b' pkt x : resp <> InvalidCmd ->
  finish_atomic resp l id b pkt x = finish_atomic resp l id b' pkt x.
Proof.
  intros Hr. unfold finish_atomic. apply bind_ext. intros y _. by rewrite (bool_decide_eq_true_2 _ Hr).
Qed.

Lemma atomic_send_latency b b' orig p x f pend resp l dst pkt f1 w : cache_request ls orig p x f pend ->
  isRead (cmd orig) || isWrite (cmd orig) = true ->
  snoop_state ls present orig p (in_flight ls orig p pend) [] resp pkt f1 w ->
  atomic_send send b l (getId p) resp dst pkt (with_filter f1 x) w
  = atomic_send send b' l (getId p) resp dst pkt (with_filter f1 x) w.
Proof.
  intros Hreq Hrw [_ _ Hc _ _ _ _ Hi]. destruct (plain_request_facts _ (cr_plain _ _ _ _ _ _ Hreq)) as (_ & _ & _ & _ & _ & _ & _ & _ & _ & Hni & _).
  destruct (sinkPacket_ok ls orig p x f pend Hreq pkt (with_filter f1 x) Hc) as (sunk & Hsk & Hsk0 & _).
  unfold atomic_send. rewrite Hsk. cbn [obind]. apply bind_ext. intros [id x1] _. destruct sunk; cbn [obind].
  - assert (Hresp : resp <> InvalidCmd).
    { destruct Hi as [(_ & Hno & _) | (-> & _)]; [discriminate (Hsk0 Hno) | done]. }
    by rewrite (finish_atomic_latency resp l (getId p) b b' pkt x1 Hresp).
  - unfold coherent_send_below, forwardPacket. rewrite Hc, (pr_clean _ (cr_plain _ _ _ _ _ _ Hreq)), Hrw. done.
Qed.

Lemma in_device_bias_atomic bias pkt x w h' w' : asked bias pkt x w 2 h' w' ->
  exists lat, atomic_bias_check send bias 1 pkt x w = Ok (lat, pkt, h', w').
Proof.
  intros Ha. destruct (asked_query _ _ _ _ _ _ _ Ha) as [lat E]. destruct Ha as [Hv Hm _]. exists lat.
  unfold atomic_bias_check. cbn [Z.eqb Pos.eqb]. unfold getAddr. rewrite Hv. cbn [assert_ obind]. by rewrite Hm, E.
Qed.
End atomic_processor.

(** An atomic read or write of the processor in device bias is that of a coherent
    crossbar, latency included: the time of the bias query is not charged, whether a
    cache answers or the memory does. *)
Theorem bias_latency_lost {W} ls (present : W -> Z -> ResponsePort -> Prop) snoop send bias
    `{!AtomicPeers ls present snoop send} pkt p x w h' w' f pend :
  asked bias pkt x w 2 h' w' -> getId p = 1 -> cache_request ls pkt p h' f pend -> sys_inv (mkSystem f pend (present w')) ->
  isRead (cmd pkt) || isWrite (cmd pkt) = true -> cxl_packet_type (req pkt) <> CXLcacheH2DReq ->
  recvAtomicBackdoor snoop send bias pkt 1 x w = CoherentXBar.recvAtomicBackdoor snoop send pkt 1 h' w'.
Proof.
  intros Ha Hp Hreq Hinv Hrw Hk. destruct (in_device_bias_atomic send bias pkt x w h' w' Ha) as [lat E].
  unfold recvAtomicBackdoor. rewrite E. cbn [obind]. unfold CoherentXBar.recvAtomicBackdoor. apply bind_ext. intros n _.
  assert (Hkind : is_kind CXLcacheH2DReq pkt = false) by (by apply bool_decide_eq_false_2).
  rewrite (snoop_device_ordinary snoop _ _ _ _ Hkind). rewrite (cr_caches _ _ _ _ _ _ Hreq).
  destruct (plain_request_facts _ (cr_plain _ _ _ _ _ _ Hreq)) as (_ & _ & _ & Hwc & _).
  rewrite (bool_decide_eq_false_2 _ Hwc). cbn [negb andb].
  destruct (snoop_above_ok ls present snoop send pkt p h' f pend Hreq w' Hinv) as (resp & l & q & f1 & v & Hs & Hst).
  rewrite Hp in Hs. rewrite Hs. cbn [obind]. unfold is_kind in *. rewrite (proj2 (ss_req _ _ _ _ _ _ _ _ _ _ Hst)), Hkind.
  rewrite <- Hp. by apply (atomic_send_latency ls present send) with pkt f pend.
Qed.

(** The host's snoop of the device with two caches: if the first answers and the second
    leaves the answer alone, the second is taken for another answer. *)
Lemma two_snoopers {W} (snoop : ResponsePort -> Packet -> W -> outcome (Packet * Z * W)) p1 p2 ps pkt x w pkt1 l1 w1 pkt2 l2 w2 e s :
  is_kind CXLcacheH2DReq pkt = true -> snoop p1 pkt w = Ok (pkt1, l1, w1) -> isResponse (cmd pkt1) = true ->
  cmd pkt1 <> cmd pkt -> cmd pkt1 <> InvalidCmd -> cacheResponding pkt1 = true ->
  snoop p2 pkt1 w1 = Ok (pkt2, l2, w2) -> cmd pkt2 = cmd pkt1 -> cacheResponding pkt2 = true ->
  forwardAtomic snoop pkt e s (p1 :: p2 :: ps) x w = Err AssertFail.
Proof.
  intros Hk H1 Hr Hne Hni Hc H2 E2 Hc2. unfold forwardAtomic. rewrite Hk. cbn [h2d_loop]. rewrite H1. cbn [obind].
  rewrite Hr, Hc, (bool_decide_eq_false_2 _ Hne). cbn [negb assert_ obind]. rewrite bool_decide_eq_true_2 by done.
  cbn [assert_ obind]. rewrite H2. cbn [obind]. rewrite E2, Hr, Hc2, (bool_decide_eq_false_2 _ Hne). cbn [negb assert_ obind].
  by rewrite (bool_decide_eq_false_2 _ Hni).
Qed.

(** * Instances *)

(** A device with its processor's cache at port 1, the bridge and the device behind port
    0 and the device memory behind port 1. *)
Definition ex_dev_p0 : ResponsePort := mkResponsePort 0 false.
Definition ex_dev_p1 : ResponsePort := mkResponsePort 1 true.
Definition ex_dev_filter : SnoopFilter :=
  mkSnoopFilter ∅ None SnoopItem_empty [ex_dev_p1] [-1; 0] 64 1 1024 (mkStats 0 0 0 0 0 0).
Definition ex_dev_host : HostXBar :=
  mkHostXBar ex_host_base (Some ex_dev_filter) [ex_dev_p0; ex_dev_p1] [ex_dev_p1] 500 false true true false ∅ ∅.
Definition ex_dev : HostTiming := ex_timing ex_dev_host [new_Layer; new_Layer].
Definition ex_proc_read : Packet := mkPacket 7 ReadExReq 0x300 0x80002040 false 64 0 0 0 [] (new_Request 1).
Definition ex_bias (mode : Z) (port a origin m : Z) (get_set : bool) (w : ex_caches) : outcome (Z * Z * ex_caches) :=
  Ok (1000, mode, w).
Definition ex_dev_base : BaseXBar :=
  match XBar.findPort (set_addr BIAS_PORT ex_proc_read) ex_host_base with Ok (_, b) => b | Err _ => ex_host_base end.
Definition ex_asked_host : HostXBar := set_base ex_dev_base ex_dev_host.

Lemma ex_dev_filter_wf : sf_wf ex_dev_filter.
Proof.
  split.
  - split; [vm_compute; discriminate |]. intros [| k] p H; cbn in H; simplify_eq; split_and!; done.
  - intros l i H. change (cachedLocations ex_dev_filter) with (∅ : gmap Z SnoopItem) in H. by rewrite lookup_empty in H.
  - done.
Qed.

Lemma ex_dev_asked mode : asked (ex_bias mode) ex_proc_read ex_dev_host ∅ mode ex_asked_host ∅.
Proof.
  split; [reflexivity | reflexivity |]. eexists 0, ex_dev_base, 1000. split; [vm_compute; reflexivity |]. by split.
Qed.

(** The check that comes back, an express snoop. *)
Definition ex_checked : Packet := setExpressSnoop (as_check 0x80002040 ex_proc_read).
Definition ex_checking : HostTiming := checking ex_proc_read ex_asked_host ex_dev.

Lemma ex_dev_request q h : cmd q = ReadExReq -> flags q = 0x300 -> addr q = 0x80002040 -> psize q = 64 ->
  req_flags (req q) = 0 -> h = ex_asked_host ->
  cache_request 64 q ex_dev_p1 h ex_dev_filter (fun _ _ => False).
Proof.
  intros Hc Hf Ha Hs Hr ->.
  assert (Hg : flag_isSet VALID_ADDR q = true /\ flag_isSet VALID_SIZE q = true /\ cacheResponding q = false).
  { unfold cacheResponding, flag_isSet. by rewrite Hf. }
  assert (Hu : isUncacheable (req q) = false /\ isCacheMaintenance (req q) = false).
  { unfold isUncacheable, isCacheMaintenance, req_isSet. by rewrite Hr. }
  destruct Hg as (Hg1 & Hg2 & Hg3), Hu as [Hu1 Hu2].
  constructor; try done; try reflexivity.
  - rewrite Hc. by split.
  - left.
  - intros [].
  - split; [| discriminate]. unfold XBar.findPort, getAddrRange, getAddr, getSize. rewrite Hg1, Hg2, Ha, Hs.
    eexists _, _. vm_compute. reflexivity.
Qed.

Lemma device_ordinary_witness :
  port_recvTimingReq ex_snoopT ex_sendT ex_tryT (ex_bias 1) 2000 0 ex_proc_read ex_dev (∅ : ex_caches)
    = CoherentXBar.recvTimingReq ex_snoopT ex_sendT ex_tryT 2000 ex_proc_read 0 ex_dev (∅ : ex_caches) /\
  recvAtomicBackdoor ex_snoop ex_send (ex_bias 1) ex_proc_read 0 (host ex_dev) (∅ : ex_caches)
    = CoherentXBar.recvAtomicBackdoor ex_snoop ex_send ex_proc_read 0 (host ex_dev) (∅ : ex_caches).
Proof.
  destruct (device_ordinary ex_snoopT ex_sendT ex_tryT (ex_bias 1) ex_snoop ex_send (ex_bias 1) 2000 ex_proc_read 0 ex_dev
              (∅ : ex_caches) (∅ : ex_caches)) as [H1 H2]; [reflexivity | left; discriminate |].
  split; [apply H1; by split | apply H2; discriminate].
Defined.


Lemma refused_check_witness :
  let refuse (m : Z) (q : Packet) (w : ex_caches) := Ok (false, q, w) in
  exists x' pkt', port_recvTimingReq ex_snoopT refuse ex_tryT (ex_bias 1) 2000 1 ex_proc_read ex_dev (∅ : ex_caches)
      = Ok (false, pkt', x', ∅) /\
    recvReqRetry (fun _ x w => Ok (x, w)) 3000 0 x' (∅ : ex_caches) = Err AssertFail /\
    port_recvTimingReq ex_snoopT refuse ex_tryT (ex_bias 1) 4000 1 ex_proc_read x' (∅ : ex_caches) = Err AssertFail.
Proof.
  destruct (refused_check ex_snoopT (fun (m : Z) q (w : ex_caches) => Ok (false, q, w)) ex_tryT (ex_bias 1) (fun _ x w => Ok (x, w)) 2000
              ex_proc_read ex_dev ∅ ex_asked_host ∅ 0 ex_asked_host (as_check 0x80002040 ex_proc_read) ∅ new_Layer
              (ex_dev_asked 1) eq_refl ltac:(vm_compute; reflexivity) eq_refl) as (x' & E & H1 & H2);
    [lia | reflexivity | reflexivity |].
  exists x', (as_check 0x80002040 ex_proc_read). split; [exact E |]. split; [apply H1 |].
  assert (Ex : host x' = ex_asked_host) by (vm_compute in E; injection E as <-; vm_compute; reflexivity).
  apply (H2 4000 ex_proc_read ∅ ex_asked_host ∅ eq_refl). rewrite Ex.
  split; [reflexivity | reflexivity |]. eexists 0, ex_dev_base, 1000. split; [vm_compute; reflexivity | by split].
Defined.

Lemma bias_latency_lost_witness :
  recvAtomicBackdoor ex_snoop ex_send (ex_bias 2) ex_proc_read 1 ex_dev_host (∅ : ex_caches)
    = CoherentXBar.recvAtomicBackdoor ex_snoop ex_send ex_proc_read 1 ex_asked_host (∅ : ex_caches).
Proof.
  apply (bias_latency_lost 64 ex_present ex_snoop ex_send (ex_bias 2) ex_proc_read ex_dev_p1 ex_dev_host ∅ ex_asked_host ∅
           ex_dev_filter (fun _ _ => False)).
  - apply ex_dev_asked.
  - reflexivity.
  - apply ex_dev_request; reflexivity.
  - exact (no_copies_inv ex_dev_filter ex_dev_filter_wf eq_refl).
  - reflexivity.
  - discriminate.
Defined.

(** An invalidation in host bias that the crossbar answers itself leaves its route
    behind. *)
Example answered_route_left :
  let inv := set_cmd InvalidateReq ex_checked in
  exists pkt' y', port_recvTimingReq ex_snoopT ex_sendT ex_tryT (ex_bias 1) 2000 0 inv ex_checking (∅ : ex_caches)
      = Ok (true, pkt', y', ∅) /\ map sc_port (queued y') = [1] /\ routeTo y' = {[ 1 := 1 ]}.
Proof. eexists _, _. split; [vm_compute; reflexivity |]. by vm_compute. Qed.
