(* ===== verification/AbstractMem.v ===== *)
(** The memory behind the crossbars: class [AbstractMemory] of
    [src/gem5/src/mem/abstract_mem.hh] and [abstract_mem.cc], with the data accessors of
    [src/gem5/src/mem/packet.hh].

    A memory holds bytes, the reservations of load-locked accesses, and a back door, a
    pointer to its bytes that it may hand out while it holds no reservation.  A packet
    of this file carries its data and what its request says beyond [Request]. *)
From Stdlib Require Import ZArith Lia.
From stdpp Require Import base numbers list gmap.
From S2P Require Import Prelude AddrRange MemPacket.

Open Scope Z_scope.

(** * Bytes *)

Definition byte (m : gmap Z Z) (a : Z) : Z := default 0 (m !! a).

(** [std::memcpy] from and to the memory. *)
Definition load (m : gmap Z Z) (a n : Z) : list Z := map (byte m) (seqZ a n).
Fixpoint store (a : Z) (bs : list Z) (m : gmap Z Z) : gmap Z Z :=
  match bs with
  | [] => m
  | b :: bs => store (a + 1) bs (<[a := b]> m)
  end.

(** The loop of [writeData] over the enabled bytes. *)
Fixpoint store_enabled (a : Z) (bs : list Z) (enable : list bool) (m : gmap Z Z) : gmap Z Z :=
  match bs, enable with
  | b :: bs, e :: enable => store_enabled (a + 1) bs enable (if e then <[a := b]> m else m)
  | _, _ => m
  end.

(** The bytes of a number in memory, least significant first. *)
Fixpoint le_bytes (n : nat) (v : Z) : list Z :=
  match n with
  | O => []
  | S n => v mod 256 :: le_bytes n (v / 256)
  end.

(** * Packets with data *)

(** [data] is [None] when the packet has no buffer; [atomicOp] is the functor of the
    request, on the bytes of the packet's size. *)
Record MemPkt : Type := mkMemPkt {
  pkt : Packet;
  data : option (list Z);
  paddr : option Z;
  ctx : option Z;
  extraData : option Z;
  byteEnable : list bool;
  atomicOp : option (list Z -> list Z);
}.

Definition set_pkt (v : Packet) (p : MemPkt) : MemPkt :=
  mkMemPkt v (data p) (paddr p) (ctx p) (extraData p) (byteEnable p) (atomicOp p).
Definition set_data (v : option (list Z)) (p : MemPkt) : MemPkt :=
  mkMemPkt (pkt p) v (paddr p) (ctx p) (extraData p) (byteEnable p) (atomicOp p).
Definition setExtraData (v : Z) (p : MemPkt) : MemPkt :=
  mkMemPkt (pkt p) (data p) (paddr p) (ctx p) (Some v) (byteEnable p) (atomicOp p).

Definition get {A} (o : option A) : outcome A := match o with Some a => Ok a | None => Err AssertFail end.
Definition getPaddr (p : MemPkt) : outcome Z := get (paddr p).
Definition contextId (p : MemPkt) : outcome Z := get (ctx p).
Definition getExtraData (p : MemPkt) : outcome Z := get (extraData p).

(** Flags of requests. *)
Definition INST_FETCH : Z := 0x100.
Definition MEM_SWAP_COND : Z := 0x00800000.
Definition ATOMIC_RETURN_OP : Z := 0x40000000.
Definition ATOMIC_NO_RETURN_OP : Z := 0x80000000.
Definition isInstFetch (r : Request) : bool := req_isSet INST_FETCH r.
Definition isCondSwap (r : Request) : bool := req_isSet MEM_SWAP_COND r.
Definition isAtomic (r : Request) : bool := req_isSet ATOMIC_RETURN_OP r || req_isSet ATOMIC_NO_RETURN_OP r.

(** [bool isMasked() const] of a request, [bool isMaskedWrite() const] of a packet. *)
Definition isMasked (p : MemPkt) : bool := negb (forallb (fun b => b) (byteEnable p)).
Definition isMaskedWrite (p : MemPkt) : bool := bool_decide (cmd (pkt p) = WriteReq) && isMasked p.

(** [T* getPtr()] and [const T* getConstPtr() const]. *)
Definition getPtr (p : MemPkt) : outcome (list Z) :=
  let! d := get (data p) in do! assert_ (negb (isMaskedWrite p)) then Ok d.
Definition getConstPtr (p : MemPkt) : outcome (list Z) := get (data p).

(** The first [n] bytes of a buffer; reading past its end is undefined. *)
Definition first_bytes (n : Z) (d : list Z) : outcome (list Z) :=
  if Z.of_nat (length d) <? n then Err Undefined else Ok (take (Z.to_nat n) d).

(** [void setData(const uint8_t *p)], from the memory at [a]. *)
Definition setData (m : gmap Z Z) (a : Z) (p : MemPkt) : outcome MemPkt :=
  let! d := getPtr p in
  let! n := getSize (pkt p) in
  let! _ := first_bytes n d in
  Ok (set_data (Some (load m a n ++ drop (Z.to_nat n) d)) p).

(** [void writeData(uint8_t *p) const], to the memory at [a]. *)
Definition writeData (m : gmap Z Z) (a : Z) (p : MemPkt) : outcome (gmap Z Z) :=
  let! n := getSize (pkt p) in
  let! d := getConstPtr p in
  if negb (isMaskedWrite p) then let! bs := first_bytes n d in Ok (store a bs m)
  else
    do! assert_ (Z.of_nat (length (byteEnable p)) =? n) then
    let! bs := first_bytes n d in Ok (store_enabled a bs (byteEnable p) m).

(** * Reservations *)

Definition InvalidContextID : Z := -1.

Record LockedAddr : Type := mkLocked {
  la_addr : Z;
  la_contextId : Z;
}.

(** [static Addr mask(Addr paddr)]. *)
Definition mask (paddr : Z) : Z := Z.land paddr (wnot 64 0xf).

(** [bool matchesContext(const RequestPtr &req) const]. *)
Definition matchesContext (p : MemPkt) (l : LockedAddr) : outcome bool :=
  do! assert_ (negb (la_contextId l =? InvalidContextID)) then
  do! assert_ (bool_decide (is_Some (ctx p))) then
  let! c := contextId p in Ok (c =? la_contextId l).

(** [pmem] is the backing store, by the offset from the start of the range; [door]
    says whether somebody holds the back door. *)
Record AbstractMemory : Type := mkMemory {
  range : AddrRange;
  pmem : option (gmap Z Z);
  writeable : bool;
  lockedAddrList : list LockedAddr;
  door : bool;
}.

Definition set_pmem (v : option (gmap Z Z)) (m : AbstractMemory) : AbstractMemory :=
  mkMemory (range m) v (writeable m) (lockedAddrList m) (door m).
Definition set_locks (v : list LockedAddr) (m : AbstractMemory) : AbstractMemory :=
  mkMemory (range m) (pmem m) (writeable m) v (door m).
Definition set_door (v : bool) (m : AbstractMemory) : AbstractMemory :=
  mkMemory (range m) (pmem m) (writeable m) (lockedAddrList m) v.

(** [void getBackdoor(MemBackdoorPtr &bd_ptr)]: the pointer is null without a store and
    for interleaved memory. *)
Definition getBackdoor (m : AbstractMemory) : AbstractMemory :=
  if bool_decide (lockedAddrList m = []) && bool_decide (is_Some (pmem m)) && negb (interleaved (range m))
  then set_door true m else m.

(** [void setBackingStore(uint8_t* pmem_addr)]. *)
Definition setBackingStore (mem : option (gmap Z Z)) (m : AbstractMemory) : AbstractMemory := set_pmem mem (set_door false m).

(** [void addLockedAddr(LockedAddr addr)]. *)
Definition addLockedAddr (l : LockedAddr) (m : AbstractMemory) : AbstractMemory :=
  set_locks (lockedAddrList m ++ [l]) (set_door false m).

(** The loop of [trackLoadLocked]: the updated list, unless no record is the context's. *)
Fixpoint track_loop (a : Z) (p : MemPkt) (ls : list LockedAddr) : outcome (option (list LockedAddr)) :=
  match ls with
  | [] => Ok None
  | l :: ls =>
      let! b := matchesContext p l in
      if b then Ok (Some (mkLocked a (la_contextId l) :: ls))
      else let! r := track_loop a p ls in Ok (cons l <$> r)
  end.

(** [void trackLoadLocked(PacketPtr pkt)]. *)
Definition trackLoadLocked (p : MemPkt) (m : AbstractMemory) : outcome AbstractMemory :=
  let! pa := getPaddr p in
  let! r := track_loop (mask pa) p (lockedAddrList m) in
  match r with
  | Some ls => Ok (set_locks ls m)
  | None =>
      let! c := contextId p in
      Ok (set_door false (set_locks (mkLocked (mask pa) c :: lockedAddrList m) m))
  end.

(** The search of a store conditional. *)
Fixpoint find_lock (a : Z) (p : MemPkt) (ls : list LockedAddr) : outcome bool :=
  match ls with
  | [] => Ok false
  | l :: ls =>
      if la_addr l =? a then
        let! b := matchesContext p l in if b then Ok true else find_lock a p ls
      else find_lock a p ls
  end.

(** Erasing the records of an address: what is left, and the contexts whose monitor is
    cleared. *)
Fixpoint erase_locks (a requestor : Z) (ls : list LockedAddr) : outcome (list LockedAddr * list Z) :=
  match ls with
  | [] => Ok ([], [])
  | l :: ls =>
      if la_addr l =? a then
        do! assert_ (negb (la_contextId l =? InvalidContextID)) then
        let! (ls, cs) := erase_locks a requestor ls in
        Ok (ls, if la_contextId l =? requestor then cs else la_contextId l :: cs)
      else let! (ls, cs) := erase_locks a requestor ls in Ok (l :: ls, cs)
  end.

(** [bool checkLockedAddrList(PacketPtr pkt)]. *)
Definition checkLockedAddrList (p : MemPkt) (m : AbstractMemory)
    : outcome (bool * MemPkt * AbstractMemory * list Z) :=
  let! pa := getPaddr p in
  let a := mask pa in
  let! (allowStore, p) :=
    (if isLLSC (cmd (pkt p)) then
       let! b := find_lock a p (lockedAddrList m) in Ok (b, setExtraData (if b then 1 else 0) p)
     else Ok (true, p)) in
  if allowStore then
    let! (ls, cs) := erase_locks a (default InvalidContextID (ctx p)) (lockedAddrList m) in
    Ok (true, p, set_locks ls m, cs)
  else Ok (false, p, m, []).

(** [bool writeOK(PacketPtr pkt)]. *)
Definition writeOK (p : MemPkt) (m : AbstractMemory) : outcome (bool * MemPkt * AbstractMemory * list Z) :=
  if negb (writeable m) then Ok (false, p, m, [])
  else match lockedAddrList m with
       | [] =>
           let llsc := isLLSC (cmd (pkt p)) in
           Ok (negb llsc, if llsc then setExtraData 0 p else p, m, [])
       | _ => checkLockedAddrList p m
       end.

(** * Accesses *)

(** [toHostAddr(addr)], as an offset into the store. *)
Definition toHostAddr (a : Z) (m : AbstractMemory) : Z := a - _start (range m).

(** The swap of [access]. *)
Definition swap (p : MemPkt) (h : Z) (m : AbstractMemory) : outcome (MemPkt * AbstractMemory) :=
  if isAtomic (req (pkt p)) then
    match pmem m with
    | None => Ok (p, m)
    | Some mem =>
        let! p := setData mem h p in
        let! op := get (atomicOp p) in
        let! n := getSize (pkt p) in
        Ok (p, set_pmem (Some (store h (op (load mem h n)) mem)) m)
    end
  else
    match pmem m with
    | None => Err Panic
    | Some mem =>
        let! n := getSize (pkt p) in
        let! d := getConstPtr p in
        let! overwrite_val := first_bytes n d in
        let! p := setData mem h p in
        let! overwrite_mem :=
          (if isCondSwap (req (pkt p)) then
             if n =? 8 then let! v := getExtraData p in Ok (bool_decide (le_bytes 8 v = load mem h 8))
             else if n =? 4 then let! v := getExtraData p in Ok (bool_decide (le_bytes 4 (u32 v) = load mem h 4))
             else Err Panic
           else Ok true) in
        let m := if (overwrite_mem : bool) then set_pmem (Some (store h overwrite_val mem)) m else m in
        do! assert_ (negb (isInstFetch (req (pkt p)))) then Ok (p, m)
    end.

(** [void access(PacketPtr pkt)], with the contexts whose monitors it clears. *)
Definition access (p : MemPkt) (m : AbstractMemory) : outcome (MemPkt * AbstractMemory * list Z) :=
  let c := cmd (pkt p) in
  if cacheResponding (pkt p) then Ok (p, m, [])
  else if isCleanEviction (pkt p) then Ok (p, m, [])
  else
    let! r := getAddrRange (pkt p) in
    let! inside := isSubset r (range m) in
    do! assert_ inside then
    let! a := getAddr (pkt p) in
    let h := toHostAddr a m in
    let! (p, m, cleared) :=
      (if bool_decide (c = SwapReq) then let! (p, m) := swap p h m in Ok (p, m, [])
       else if isRead c then
         do! assert_ (negb (isWrite c)) then
         let! m := (if isLLSC c then do! assert_ (negb (fromCache c)) then trackLoadLocked p m else Ok m) in
         let! p := match pmem m with Some mem => setData mem h p | None => Ok p end in
         Ok (p, m, [])
       else if isInvalidate c || isClean c then do! assert_ (negb (isWrite c)) then Ok (p, m, [])
       else if isWrite c then
         let! (ok, p, m, cleared) := writeOK p m in
         if (ok : bool) then
           let! m := match pmem m with
                     | Some mem => let! mem := writeData mem h p in Ok (set_pmem (Some mem) m)
                     | None => Ok m
                     end in
           do! assert_ (negb (isInstFetch (req (pkt p)))) then Ok (p, m, cleared)
         else Ok (p, m, cleared)
       else Err Panic) in
    if needsResponse c then let! q := makeResponse (pkt p) in Ok (set_pkt q p, m, cleared)
    else Ok (p, m, cleared).

(** [void functionalAccess(PacketPtr pkt)]; the print request only prints. *)
Definition functionalAccess (p : MemPkt) (m : AbstractMemory) : outcome (MemPkt * AbstractMemory) :=
  let c := cmd (pkt p) in
  let! r := getAddrRange (pkt p) in
  let! inside := isSubset r (range m) in
  do! assert_ inside then
  let! a := getAddr (pkt p) in
  let h := toHostAddr a m in
  if isRead c then
    let! p := match pmem m with Some mem => setData mem h p | None => Ok p end in
    let! q := makeResponse (pkt p) in Ok (set_pkt q p, m)
  else if isWrite c then
    let! m := match pmem m with
              | Some mem => let! mem := writeData mem h p in Ok (set_pmem (Some mem) m)
              | None => Ok m
              end in
    let! q := makeResponse (pkt p) in Ok (set_pkt q p, m)
  else if isPrint c then Ok (p, m)
  else Err Panic.

(** * Bytes read and written *)

Lemma byte_insert m a b x : byte (<[a := b]> m) x = if x =? a then b else byte m x.
Proof.
  unfold byte. destruct (Z.eqb_spec x a) as [-> | Hne]; [by rewrite lookup_insert_eq | by rewrite lookup_insert_ne].
Qed.

Lemma byte_store bs : forall a m x, byte (store a bs m) x =
  if (a <=? x) && (x <? a + Z.of_nat (length bs)) then nth (Z.to_nat (x - a)) bs 0 else byte m x.
Proof.
  induction bs as [| b bs IH]; intros a m x; cbn [store length].
  { destruct (Z.leb_spec a x), (Z.ltb_spec x (a + Z.of_nat 0)); try done; lia. }
  rewrite IH, byte_insert. destruct (Z.eqb_spec x a) as [-> | Hne].
  - rewrite Z.sub_diag. destruct (Z.leb_spec (a + 1) a), (Z.leb_spec a a), (Z.ltb_spec a (a + Z.of_nat (S (length bs)))); done || lia.
  - replace (Z.to_nat (x - a)) with (Z.to_nat (x - a)) by done.
    destruct (Z.leb_spec (a + 1) x), (Z.leb_spec a x), (Z.ltb_spec x (a + 1 + Z.of_nat (length bs))),
      (Z.ltb_spec x (a + Z.of_nat (S (length bs)))); cbn [andb]; try done; try lia.
    replace (Z.to_nat (x - a)) with (S (Z.to_nat (x - (a + 1)))) by lia. done.
Qed.

Lemma byte_store_enabled bs : forall en a m x, length en = length bs -> byte (store_enabled a bs en m) x =
  if (a <=? x) && (x <? a + Z.of_nat (length bs)) && nth (Z.to_nat (x - a)) en false
  then nth (Z.to_nat (x - a)) bs 0 else byte m x.
Proof.
  induction bs as [| b bs IH]; intros [| e en] a m x Hl; try done; cbn [store_enabled length].
  { destruct (Z.leb_spec a x), (Z.ltb_spec x (a + Z.of_nat 0)); try done; lia. }
  injection Hl as Hl. rewrite IH by done. destruct (Z.eq_dec x a) as [-> | Hne].
  - rewrite Z.sub_diag. destruct (Z.leb_spec (a + 1) a), (Z.leb_spec a a), (Z.ltb_spec a (a + Z.of_nat (S (length bs)))); try lia.
    cbn. destruct e; [by rewrite byte_insert, Z.eqb_refl | done].
  - assert (E : byte (if e then <[a := b]> m else m) x = byte m x).
    { destruct e; [| done]. rewrite byte_insert. by destruct (Z.eqb_spec x a). }
    rewrite E. destruct (Z.leb_spec (a + 1) x), (Z.leb_spec a x), (Z.ltb_spec x (a + 1 + Z.of_nat (length bs))),
      (Z.ltb_spec x (a + Z.of_nat (S (length bs)))); cbn [andb]; try done; try lia.
    replace (Z.to_nat (x - a)) with (S (Z.to_nat (x - (a + 1)))) by lia. done.
Qed.

Lemma nth_load m a n i : 0 <= i < n -> nth (Z.to_nat i) (load m a n) 0 = byte m (a + i).
Proof.
  intros Hi. unfold load. apply nth_lookup_Some. rewrite list_lookup_fmap, lookup_seqZ_lt by lia. cbn. f_equal. f_equal. lia.
Qed.

Lemma length_load m a n : 0 <= n -> Z.of_nat (length (load m a n)) = n.
Proof. intros. unfold load. rewrite length_map, length_seqZ. lia. Qed.

(** * The records as a map from contexts to addresses *)

Definition res (ls : list LockedAddr) : gmap Z Z := list_to_map (map (fun l => (la_contextId l, la_addr l)) ls).

Record locks_wf (ls : list LockedAddr) : Prop := {
  lw_once : NoDup (map la_contextId ls);
  lw_valid : Forall (fun l => la_contextId l <> InvalidContextID) ls;
}.

Lemma locks_wf_cons l ls : locks_wf (l :: ls) <->
  la_contextId l ∉ map la_contextId ls /\ la_contextId l <> InvalidContextID /\ locks_wf ls.
Proof.
  split.
  - intros [H1 H2]. apply NoDup_cons in H1 as [? ?]. apply Forall_cons in H2 as [? ?]. by split_and!.
  - intros (? & ? & [? ?]). split; [by apply NoDup_cons | by apply Forall_cons].
Qed.

Lemma res_none c ls : c ∉ map la_contextId ls -> res ls !! c = None.
Proof.
  intros H. apply not_elem_of_list_to_map_1. by rewrite <- list_fmap_compose.
Qed.

Lemma matchesContext_ok p l c : la_contextId l <> InvalidContextID -> ctx p = Some c ->
  matchesContext p l = Ok (c =? la_contextId l).
Proof.
  intros H Hc. unfold matchesContext, contextId. rewrite Hc. apply Z.eqb_neq in H. rewrite H. done.
Qed.

Section records.
Variables (p : MemPkt) (c a : Z).
Hypothesis Hc : ctx p = Some c.

Lemma track_loop_ok ls : locks_wf ls ->
  (track_loop a p ls = Ok None /\ c ∉ map la_contextId ls) \/
  exists ls', track_loop a p ls = Ok (Some ls') /\ map la_contextId ls' = map la_contextId ls /\ locks_wf ls' /\
    res ls' = <[c := a]> (res ls).
Proof.
  induction ls as [| l ls IH]; intros Hw; cbn [track_loop]; [left; split; [done | apply not_elem_of_nil] |].
  apply locks_wf_cons in Hw as (Hn & Hv & Hw). rewrite (matchesContext_ok p l c Hv Hc). cbn [obind].
  destruct (Z.eqb_spec c (la_contextId l)) as [-> | Hne].
  - right. eexists. split; [reflexivity |]. split_and!; [done | by apply locks_wf_cons |].
    unfold res. cbn. by rewrite insert_insert_eq.
  - destruct (IH Hw) as [[-> Hnin] | (ls' & -> & Hids & Hw' & Hr)]; cbn [obind fmap option_fmap option_map].
    + left. split; [done |]. cbn. by apply not_elem_of_cons.
    + right. eexists. split; [reflexivity |]. split_and!; [cbn; by rewrite Hids | apply locks_wf_cons; by rewrite Hids |].
      unfold res in *. cbn. rewrite Hr. by apply insert_insert_ne.
Qed.

Lemma find_lock_ok ls : locks_wf ls -> find_lock a p ls = Ok (bool_decide (res ls !! c = Some a)).
Proof.
  induction ls as [| l ls IH]; intros Hw; cbn [find_lock]; [done |].
  apply locks_wf_cons in Hw as (Hn & Hv & Hw). rewrite (IH Hw), (matchesContext_ok p l c Hv Hc). cbn [obind].
  unfold res. cbn. destruct (decide (c = la_contextId l)) as [-> | Hne].
  - rewrite Z.eqb_refl, lookup_insert_eq. destruct (Z.eqb_spec (la_addr l) a) as [-> | Ha].
    + by rewrite bool_decide_eq_true_2.
    + fold (res ls). rewrite (res_none _ _ Hn), !bool_decide_eq_false_2; [done | congruence | done].
  - rewrite lookup_insert_ne by done. rewrite (proj2 (Z.eqb_neq _ _) Hne). by destruct (_ =? a).
Qed.
End records.

Lemma erase_locks_ok a r ls : locks_wf ls -> exists ls' cs, erase_locks a r ls = Ok (ls', cs) /\ locks_wf ls' /\
  ls' = filter (fun l => la_addr l ≠ a) ls /\
  (forall c, res ls' !! c = match res ls !! c with Some g => if g =? a then None else Some g | None => None end) /\
  (forall c, c ∈ cs <-> res ls !! c = Some a /\ c <> r).
Proof.
  induction ls as [| l ls IH]; intros Hw; cbn [erase_locks].
  { exists [], []. split_and!; try done. intros c. rewrite elem_of_nil. by split; [| intros [? _]]. }
  apply locks_wf_cons in Hw as (Hn & Hv & Hw). destruct (IH Hw) as (ls' & cs & -> & Hw' & -> & Hr & Hcs). cbn [obind].
  assert (Hn' : la_contextId l ∉ map la_contextId (filter (fun l => la_addr l ≠ a) ls)).
  { intros H. apply Hn. apply list_elem_of_fmap in H as (y & Hy & H). apply list_elem_of_filter in H as [_ H].
    apply list_elem_of_fmap. by exists y. }
  destruct (Z.eqb_spec (la_addr l) a) as [Ea | Ea].
  - rewrite (proj2 (Z.eqb_neq _ _) Hv). cbn [negb assert_ obind]. eexists _, _. split; [reflexivity |].
    rewrite filter_cons_False by (intros H; by apply H). split_and!; [done | done | |].
    + intros c. rewrite Hr. unfold res at 2. cbn. fold (res ls). destruct (decide (c = la_contextId l)) as [-> | Hne].
      * rewrite lookup_insert_eq, (res_none _ _ Hn). by rewrite (proj2 (Z.eqb_eq _ _) Ea).
      * by rewrite lookup_insert_ne.
    + intros c. unfold res at 1. cbn. fold (res ls). destruct (decide (c = la_contextId l)) as [-> | Hne].
      * rewrite lookup_insert_eq, Ea. destruct (Z.eqb_spec (la_contextId l) r) as [E | E].
        -- rewrite Hcs, (res_none _ _ Hn). split; [by intros [? _] | by intros [_ ?]].
        -- rewrite elem_of_cons. split; [done | by left].
      * rewrite lookup_insert_ne by done. destruct (_ =? r); rewrite ?elem_of_cons, Hcs; tauto.
  - cbn [obind]. eexists _, _. split; [reflexivity |]. rewrite filter_cons_True by done.
    split_and!; [by apply locks_wf_cons | done | |].
    + intros c. unfold res. cbn. destruct (decide (c = la_contextId l)) as [-> | Hne].
      * rewrite !lookup_insert_eq. by rewrite (proj2 (Z.eqb_neq _ _) Ea).
      * rewrite !lookup_insert_ne by done. apply Hr.
    + intros c. rewrite Hcs. unfold res at 2. cbn. fold (res ls). destruct (decide (c = la_contextId l)) as [-> | Hne].
      * rewrite lookup_insert_eq, (res_none _ _ Hn). split; [by intros [? _] | intros [? _]; congruence].
      * by rewrite lookup_insert_ne.
Qed.

Lemma trackLoadLocked_ok p m c pa : ctx p = Some c -> c <> InvalidContextID -> paddr p = Some pa -> locks_wf (lockedAddrList m) ->
  exists ls d, trackLoadLocked p m = Ok (set_door d (set_locks ls m)) /\ locks_wf ls /\ ls <> [] /\
    res ls = <[c := mask pa]> (res (lockedAddrList m)) /\ (d = true -> door m = true /\ lockedAddrList m <> []).
Proof.
  intros Hc Hv Hp Hw. unfold trackLoadLocked, getPaddr, contextId. rewrite Hp. cbn [get obind].
  destruct (track_loop_ok p c (mask pa) Hc _ Hw) as [[-> Hn] | (ls & -> & Hids & Hw' & Hr)]; cbn [obind].
  - rewrite Hc. cbn [get obind]. eexists _, false. split; [reflexivity |]. split_and!; [by apply locks_wf_cons | done | done | done].
  - exists ls, (door m). assert (Hne : lockedAddrList m <> []).
    { intros E. rewrite E in Hr. apply (f_equal (.!! c)) in Hr. rewrite lookup_insert_eq in Hr. rewrite E in Hids. by destruct ls. }
    split; [by destruct m |]. split_and!; [done | | done | done]. intros ->. by destruct (lockedAddrList m).
Qed.

(** Whether the context of the packet has a reservation for an address. *)
Definition holds (p : MemPkt) (a : Z) (m : AbstractMemory) : bool :=
  match ctx p with Some c => bool_decide (res (lockedAddrList m) !! c = Some a) | None => false end.

(** Whether a write is done, and what a store conditional notes of it. *)
Definition wins (p : MemPkt) (a : Z) (m : AbstractMemory) : bool := if isLLSC (cmd (pkt p)) then holds p a m else true.
Definition noted (b : bool) (p : MemPkt) : MemPkt := if isLLSC (cmd (pkt p)) then setExtraData (if b then 1 else 0) p else p.

(** What a write does to the reservations. *)
Definition after_write (a : Z) (m m' : AbstractMemory) : Prop :=
  exists ls, m' = set_locks ls m /\ locks_wf ls /\ ls = filter (fun l => la_addr l ≠ a) (lockedAddrList m) /\
    forall c, res ls !! c = match res (lockedAddrList m) !! c with Some g => if g =? a then None else Some g | None => None end.

Lemma set_same_locks m : set_locks (lockedAddrList m) m = m.
Proof. by destruct m. Qed.

Lemma writeOK_ok p m pa : writeable m = true -> paddr p = Some pa -> locks_wf (lockedAddrList m) ->
  (isLLSC (cmd (pkt p)) = true -> is_Some (ctx p)) ->
  exists m' cs, writeOK p m = Ok (wins p (mask pa) m, noted (wins p (mask pa) m) p, m', cs) /\
    (if wins p (mask pa) m then after_write (mask pa) m m' else m' = m) /\
    (forall c, c ∈ cs <-> wins p (mask pa) m = true /\ res (lockedAddrList m) !! c = Some (mask pa) /\ c <> default InvalidContextID (ctx p)).
Proof.
  intros Hwr Hp Hw Hctx. unfold noted. set (won := wins p (mask pa) m). unfold writeOK. rewrite Hwr. cbn [negb].
  assert (Ewon : forall c, ctx p = Some c -> isLLSC (cmd (pkt p)) = true -> won = bool_decide (res (lockedAddrList m) !! c = Some (mask pa))).
  { intros c Hc Hl. unfold won, wins, holds. by rewrite Hl, Hc. }
  destruct (lockedAddrList m) as [| l0 ls0] eqn:El.
  { exists m, []. assert (Hwon : won = negb (isLLSC (cmd (pkt p)))).
    { unfold won, wins, holds. rewrite El. destruct (isLLSC _), (ctx p); try done. }
    split_and!.
    - rewrite Hwon. by destruct (isLLSC _).
    - destruct won; [| done]. exists []. split_and!; [by rewrite <- El, set_same_locks | by split; constructor | by rewrite El | by rewrite El].
    - intros c. rewrite elem_of_nil. split; [done |]. intros (_ & H & _). rewrite ?El in H. cbn in H. by rewrite lookup_empty in H. }
  rewrite <- El in *. clear El. unfold checkLockedAddrList, getPaddr. rewrite Hp. cbn [get obind].
  destruct (erase_locks_ok (mask pa) (default InvalidContextID (ctx p)) _ Hw) as (ls & cs & He & Hw' & Els & Hr & Hcs).
  assert (Haft : after_write (mask pa) m (set_locks ls m)) by (exists ls; by split_and!).
  destruct (isLLSC (cmd (pkt p))) eqn:Hl.
  - destruct (Hctx eq_refl) as [c Hc]. rewrite (find_lock_ok p c (mask pa) Hc _ Hw). cbn [obind]. rewrite <- (Ewon c Hc eq_refl).
    assert (Ec : ctx (setExtraData (if won then 1 else 0) p) = ctx p) by done. rewrite Ec.
    destruct won.
    + rewrite He. cbn [obind]. exists (set_locks ls m), cs. split_and!; [done | done |]. intros c'. rewrite Hcs. tauto.
    + exists m, []. split_and!; [done | done |]. intros c'. rewrite elem_of_nil. split; [done | by intros (? & _)].
  - assert (Ew : won = true) by (unfold won, wins; by rewrite Hl).
    rewrite Ew. cbn [obind]. rewrite He. cbn [obind]. exists (set_locks ls m), cs. split_and!; [done | done |].
    intros c'. rewrite Hcs. tauto.
Qed.

(** * Accesses that a memory can serve *)

Record served (p : MemPkt) (m : AbstractMemory) : Prop := {
  sv_addr : flag_isSet VALID_ADDR (pkt p) = true;
  sv_size : flag_isSet VALID_SIZE (pkt p) = true /\ 0 <= psize (pkt p);
  sv_inside : isSubset (RangeSize (addr (pkt p)) (psize (pkt p))) (range m) = Ok true;
  sv_data : exists d, data p = Some d /\ Z.of_nat (length d) = psize (pkt p);
  sv_mask : byteEnable p = [] \/ Z.of_nat (length (byteEnable p)) = psize (pkt p);
  sv_quiet : cacheResponding (pkt p) = false;
  sv_fetch : isInstFetch (req (pkt p)) = false;
  sv_paddr : is_Some (paddr p);
  sv_ctx : forall c, ctx p = Some c -> c <> InvalidContextID;
  sv_llsc : isLLSC (cmd (pkt p)) = true -> is_Some (ctx p);
}.

(** The commands of memory accesses. *)
Definition reading (c : Command) : bool := isRead c && negb (isWrite c) && negb (isLLSC c && fromCache c).
Definition writing (c : Command) : bool :=
  isWrite c && negb (isRead c) && negb (isInvalidate c) && negb (isClean c) && negb (bool_decide (c = WritebackClean)).

(** Which bytes a write sets. *)
Definition enabled (p : MemPkt) (i : Z) : bool := if isMaskedWrite p then nth (Z.to_nat i) (byteEnable p) false else true.
Definition buffer (p : MemPkt) : list Z := default [] (data p).
Definition offset (p : MemPkt) (m : AbstractMemory) : Z := toHostAddr (addr (pkt p)) m.

(** The store after a write. *)
Definition written (p : MemPkt) (m : AbstractMemory) (mem mem' : gmap Z Z) : Prop := forall x, byte mem' x =
  if (offset p m <=? x) && (x <? offset p m + psize (pkt p)) && enabled p (x - offset p m)
  then nth (Z.to_nat (x - offset p m)) (buffer p) 0 else byte mem x.

Lemma setData_ok p m mem : served p m -> isMaskedWrite p = false ->
  setData mem (offset p m) p = Ok (set_data (Some (load mem (offset p m) (psize (pkt p)))) p).
Proof.
  intros [_ [Hs Hn] _ (d & Hd & Hl) _ _ _ _ _ _] Hm. unfold setData, getPtr, getSize, first_bytes.
  rewrite Hd, Hm, Hs. cbn [get negb assert_ obind]. destruct (Z.ltb_spec (Z.of_nat (length d)) (psize (pkt p))); [lia |].
  cbn [obind]. rewrite drop_ge by lia. by rewrite app_nil_r.
Qed.

Lemma writeData_ok p m mem : served p m ->
  exists mem', writeData mem (offset p m) p = Ok mem' /\ written p m mem mem'.
Proof.
  intros [_ [Hs Hn] _ (d & Hd & Hl) Hbe _ _ _ _ _]. unfold writeData, getSize, getConstPtr, first_bytes, written, enabled, buffer.
  rewrite Hd, Hs. cbn [get assert_ obind default]. destruct (Z.ltb_spec (Z.of_nat (length d)) (psize (pkt p))); [lia |].
  rewrite take_ge by lia. destruct (isMaskedWrite p) eqn:Hm; cbn [negb].
  - assert (Hlen : Z.of_nat (length (byteEnable p)) = psize (pkt p)).
    { destruct Hbe as [E | ?]; [| done]. unfold isMaskedWrite, isMasked in Hm. rewrite E in Hm. by rewrite andb_false_r in Hm. }
    rewrite (proj2 (Z.eqb_eq _ _) Hlen). cbn [assert_ obind]. eexists. split; [reflexivity |].
    intros x. rewrite byte_store_enabled by lia. by rewrite Hl.
  - cbn [obind]. eexists. split; [reflexivity |]. intros x. rewrite byte_store, andb_true_r. by rewrite Hl.
Qed.

Lemma reading_facts c : reading c = true -> c <> SwapReq /\ c <> CleanEvict /\ c <> WritebackClean /\ c <> WriteReq /\
  isRead c = true /\ isWrite c = false /\ isLLSC c && fromCache c = false /\ (needsResponse c = true -> isRequest c = true).
Proof. destruct c; vm_compute; intuition congruence. Qed.

Lemma writing_facts c : writing c = true -> c <> SwapReq /\ c <> CleanEvict /\ c <> WritebackClean /\
  isRead c = false /\ isWrite c = true /\ isInvalidate c || isClean c = false /\ (needsResponse c = true -> isRequest c = true).
Proof. destruct c; vm_compute; intuition congruence. Qed.

(** The packet once the access is done. *)
Definition replied (p : MemPkt) : MemPkt :=
  if needsResponse (cmd (pkt p))
  then set_pkt (flag_clear EXPRESS_SNOOP (set_cmd (responseCommand (cmd (pkt p))) (pkt p))) p else p.

Lemma reply_ok p c m (cs : list Z) : c = cmd (pkt p) -> (needsResponse c = true -> isRequest c = true) ->
  (if needsResponse c then let! q := makeResponse (pkt p) in Ok (set_pkt q p, m, cs) else Ok (p, m, cs)) = Ok (replied p, m : AbstractMemory, cs).
Proof.
  intros -> H. unfold replied, makeResponse. destruct (needsResponse (cmd (pkt p))); [| done]. rewrite H by done. done.
Qed.

Section accesses.
Variables (p : MemPkt) (m : AbstractMemory) (mem : gmap Z Z).
Hypothesis Hs : served p m.
Hypothesis Hmem : pmem m = Some mem.
#[local] Abbreviation c := (cmd (pkt p)).

Lemma access_found : c <> CleanEvict -> c <> WritebackClean ->
  isCleanEviction (pkt p) = false /\ getAddrRange (pkt p) = Ok (RangeSize (addr (pkt p)) (psize (pkt p))) /\
  getAddr (pkt p) = Ok (addr (pkt p)).
Proof.
  intros H1 H2. destruct Hs as [Ha [Hz _] _ _ _ _ _ _ _ _]. unfold isCleanEviction, getAddrRange, getAddr, getSize.
  by rewrite (bool_decide_eq_false_2 _ H1), (bool_decide_eq_false_2 _ H2), Ha, Hz.
Qed.

Lemma access_read : locks_wf (lockedAddrList m) -> reading c = true ->
  exists m', access p m = Ok (replied (set_data (Some (load mem (offset p m) (psize (pkt p)))) p), m', []) /\
    pmem m' = pmem m /\ range m' = range m /\ writeable m' = writeable m /\ locks_wf (lockedAddrList m') /\
    (door m' = true -> door m = true /\ (lockedAddrList m' <> [] -> lockedAddrList m <> [])) /\
    res (lockedAddrList m') = match isLLSC c, ctx p, paddr p with
                              | true, Some k, Some pa => <[k := mask pa]> (res (lockedAddrList m))
                              | _, _, _ => res (lockedAddrList m)
                              end.
Proof.
  intros Hw Hr. destruct (reading_facts _ Hr) as (H1 & H2 & H3 & H4 & H5 & H6 & H7 & H8).
  destruct (access_found H2 H3) as (E1 & E2 & E3). pose proof Hs as [_ _ Hin _ _ Hq _ [pa Hpa] Hcv Hll].
  assert (Hnm : isMaskedWrite p = false) by (unfold isMaskedWrite; by rewrite (bool_decide_eq_false_2 _ H4)).
  unfold access. rewrite Hq, E1, E2. cbn [obind]. rewrite Hin. cbn [assert_ obind]. rewrite E3. cbn [obind].
  rewrite (bool_decide_eq_false_2 _ H1), H5, H6. cbn [negb assert_ obind].
  destruct (isLLSC c) eqn:El.
  - rewrite andb_true_l in H7. rewrite H7. destruct (Hll eq_refl) as [k Hk]. cbn [negb assert_ obind].
    destruct (trackLoadLocked_ok p m k pa Hk (Hcv _ Hk) Hpa Hw) as (ls & d & -> & Hw' & Hne & Hres & Hd). cbn [obind].
    cbn [pmem set_door set_locks]. rewrite Hmem. fold (offset p m). rewrite (setData_ok p m mem Hs Hnm). cbn [obind].
    exists (set_door d (set_locks ls m)). rewrite Hk, Hpa. split; [by rewrite reply_ok |].
    split_and!; try done. intros E. split; [by apply Hd | intros _; by apply Hd].
  - cbn [obind]. rewrite Hmem. fold (offset p m). rewrite (setData_ok p m mem Hs Hnm). cbn [obind]. exists m.
    split_and!; try done. by rewrite reply_ok.
Qed.

Lemma access_write : locks_wf (lockedAddrList m) -> writing c = true -> writeable m = true ->
  exists m' cs pa, paddr p = Some pa /\
    access p m = Ok (replied (noted (wins p (mask pa) m) p), m', cs) /\
    (if wins p (mask pa) m
     then exists mem' m1, after_write (mask pa) m m1 /\ m' = set_pmem (Some mem') m1 /\ written p m mem mem' else m' = m) /\
    (forall k, k ∈ cs <-> wins p (mask pa) m = true /\ res (lockedAddrList m) !! k = Some (mask pa) /\ k <> default InvalidContextID (ctx p)).
Proof.
  intros Hw Hr Hwr. destruct (writing_facts _ Hr) as (H1 & H2 & H3 & H5 & H6 & H7 & H8).
  destruct (access_found H2 H3) as (E1 & E2 & E3). pose proof Hs as [_ _ Hin _ _ Hq Hf [pa Hpa] Hcv Hll].
  destruct (writeOK_ok p m pa Hwr Hpa Hw Hll) as (m1 & cs & Hwo & Hm1 & Hcs).
  set (p1 := noted (wins p (mask pa) m) p) in *.
  assert (Hp1 : pkt p1 = pkt p /\ served p1 m /\ buffer p1 = buffer p /\ (forall i, enabled p1 i = enabled p i)).
  { unfold p1, noted. destruct (isLLSC c); [| done]. split_and!; try done. by destruct Hs. }
  destruct Hp1 as (Ep & Hs1 & Eb & Een).
  unfold access. rewrite Hq, E1, E2. cbn [obind]. rewrite Hin. cbn [assert_ obind]. rewrite E3. cbn [obind].
  rewrite (bool_decide_eq_false_2 _ H1), H5, H7, H6, Hwo. cbn [obind].
  assert (Hrep : forall n : AbstractMemory, (if needsResponse c then let! q := makeResponse (pkt p1) in Ok (set_pkt q p1, n, cs) else Ok (p1, n, cs))
    = Ok (replied p1, n, cs)) by (intros n; by apply reply_ok; [rewrite Ep |]).
  destruct (wins p (mask pa) m) eqn:Ew.
  - pose proof Hm1 as (ls & E & _). rewrite E. cbn [pmem set_locks]. rewrite Hmem, <- E.
    destruct (writeData_ok p1 m mem Hs1) as (mem' & Hwd & Hwritten). unfold offset in Hwd. rewrite Ep in Hwd. rewrite Hwd. cbn [obind].
    assert (Hf1 : isInstFetch (req (pkt p1)) = false) by (by rewrite Ep).
    rewrite Hf1. cbn [negb assert_ obind]. rewrite Hrep.
    exists (set_pmem (Some mem') m1), cs, pa. rewrite Ew. split; [done |]. split; [done |]. split; [| done].
    exists mem', m1. split_and!; [done | done |]. intros x. specialize (Hwritten x). unfold offset in *.
    rewrite Ep, Eb, Een in Hwritten. exact Hwritten.
  - cbn [obind]. rewrite Hrep. exists m1, cs, pa. rewrite Ew. by split_and!.
Qed.
End accesses.

(** * Histories *)

(** What happened to a memory, the newest first: context [c] linked the 16 bytes at [g];
    [n] bytes from [a] on were stored by a write, or by a swap or a functional write. *)
Inductive action : Type :=
  | Linked (c g : Z)
  | Wrote (a n : Z)
  | Slipped (a n : Z).

(** The context [c] has linked [g] since it last linked anything, and no write has
    started in these 16 bytes since. *)
Fixpoint linked (c g : Z) (es : list action) : Prop :=
  match es with
  | [] => False
  | Linked c' g' :: es => if decide (c' = c) then g' = g else linked c g es
  | Wrote a _ :: es => mask a <> g /\ linked c g es
  | Slipped _ _ :: es => linked c g es
  end.

(** The same with every store that touches one of the 16 bytes. *)
Definition touches (a n g : Z) : Prop := a < g + 16 /\ g < a + n.
Fixpoint untouched (c g : Z) (es : list action) : Prop :=
  match es with
  | [] => False
  | Linked c' g' :: es => if decide (c' = c) then g' = g else untouched c g es
  | Wrote a n :: es | Slipped a n :: es => ~ touches a n g /\ untouched c g es
  end.

(** A history of writes that stay in the 16 bytes they start in, without swaps and
    functional writes. *)
Definition tight (e : action) : Prop :=
  match e with Linked _ _ => True | Wrote a n => 0 <= a < 2 ^ 64 /\ 0 < n /\ a mod 16 + n <= 16 | Slipped _ _ => False end.

(** What an access does, by its packet before and after. *)
Definition did (p p' : MemPkt) : list action :=
  let c := cmd (pkt p) in
  match paddr p with
  | None => []
  | Some pa =>
      if reading c then
        match isLLSC c, ctx p with true, Some k => [Linked k (mask pa)] | _, _ => [] end
      else if writing c then
        if isLLSC c && negb (bool_decide (extraData p' = Some 1)) then [] else [Wrote pa (psize (pkt p))]
      else []
  end.

(** What a store does that does not look at the reservations. *)
Definition slipped (p : MemPkt) : list action :=
  if isWrite (cmd (pkt p)) then [Slipped (addr (pkt p)) (psize (pkt p))] else [].

(** A memory that starts without reservations, its accesses, and the back doors it hands
    out. *)
Inductive history : list action -> AbstractMemory -> Prop :=
  | h_start m : lockedAddrList m = [] -> door m = false -> history [] m
  | h_access es m p p' m' cs : history es m -> served p m -> is_Some (pmem m) -> writeable m = true ->
      reading (cmd (pkt p)) || writing (cmd (pkt p)) = true ->
      access p m = Ok (p', m', cs) -> history (did p p' ++ es) m'
  | h_other es m p p' m' cs : history es m -> cmd (pkt p) = SwapReq \/ (isRead (cmd (pkt p)) || isWrite (cmd (pkt p))) = false ->
      access p m = Ok (p', m', cs) -> history (slipped p ++ es) m'
  | h_functional es m p p' m' : history es m -> functionalAccess p m = Ok (p', m') -> history (slipped p ++ es) m'
  | h_door es m : history es m -> history es (getBackdoor m).

Lemma reading_not_writing c : reading c = true -> writing c = false.
Proof. by destruct c. Qed.

Record sound (es : list action) (m : AbstractMemory) : Prop := {
  so_wf : locks_wf (lockedAddrList m);
  so_linked : forall c g, res (lockedAddrList m) !! c = Some g <-> linked c g es;
  so_door : door m = true -> lockedAddrList m = [];
}.

(** Steps that leave the reservations alone. *)
Definition same_locks (m m' : AbstractMemory) : Prop := lockedAddrList m' = lockedAddrList m /\ door m' = door m.

Lemma same_locks_sound es m m' : sound es m -> same_locks m m' -> sound es m'.
Proof. intros [H1 H2 H3] [E1 E2]. split; by rewrite ?E1, ?E2. Qed.

Lemma swap_same p h m p' m' : swap p h m = Ok (p', m') -> same_locks m m'.
Proof.
  unfold swap. intros H. destruct (isAtomic _), (pmem m) as [mem |]; obind_inv; try by split.
  destruct (a3 : bool); by split.
Qed.

Lemma other_same p m p' m' cs : cmd (pkt p) = SwapReq \/ (isRead (cmd (pkt p)) || isWrite (cmd (pkt p))) = false ->
  access p m = Ok (p', m', cs) -> same_locks m m'.
Proof.
  intros Hc H. unfold access in H. destruct (cacheResponding (pkt p)); [obind_inv; by split |].
  destruct (isCleanEviction (pkt p)); [obind_inv; by split |]. obind_inv. destruct a3 as [[q m1] cl].
  assert (Hs : same_locks m m1).
  { case_bool_decide as E.
    - obind_inv. destruct a3. obind_inv. by eapply swap_same.
    - destruct Hc as [? | [Hr Hw]%orb_false_iff]; [done |]. rewrite Hr, Hw in *.
      destruct (_ || _); [| done]. obind_inv. by split. }
  destruct (needsResponse _); by obind_inv.
Qed.

Lemma functional_same p m p' m' : functionalAccess p m = Ok (p', m') -> same_locks m m'.
Proof.
  unfold functionalAccess. intros H. obind_inv. destruct (isRead _); [obind_inv; by split |].
  destruct (isWrite _); [| destruct (isPrint _); by obind_inv].
  obind_inv. destruct (pmem m); by obind_inv.
Qed.

Lemma linked_write c g a n es : linked c g (Wrote a n :: es) <-> linked c g es /\ g <> mask a.
Proof. cbn. split; [intros [? ?] | intros [? ?]]; split; congruence. Qed.

Lemma sound_slipped es m p : sound es m -> sound (slipped p ++ es) m.
Proof. unfold slipped. destruct (isWrite _); [| done]. by intros [? ? ?]. Qed.

Lemma mask_mod a : 0 <= a < 2 ^ 64 -> mask a = a - a mod 16.
Proof.
  intros Ha. transitivity (Z.ldiff a (Z.ones 4)).
  - unfold mask. apply Z.bits_inj'. intros i Hi. rewrite Z.ldiff_spec, Z.land_spec, wnot_testbit by lia.
    destruct (Z.ltb_spec i 64); [done |]. cbn. rewrite andb_false_r.
    rewrite <- (wrap_small 64 a), wrap_testbit by done. destruct (Z.ltb_spec i 64); [lia | done].
  - rewrite Z.ldiff_ones_r, Z.shiftl_mul_pow2, Z.shiftr_div_pow2 by lia. pose proof (Z.div_mod a 16 ltac:(lia)).
    change (2 ^ 4) with 16. lia.
Qed.

(** A write that stays in its 16 bytes touches those it starts in and no others. *)
Lemma touches_own a n g : 0 <= a < 2 ^ 64 -> 0 < n -> a mod 16 + n <= 16 -> g mod 16 = 0 -> touches a n g <-> mask a = g.
Proof.
  intros Ha Hn Hf Hg. rewrite mask_mod by done. unfold touches.
  pose proof (Z.div_mod a 16 ltac:(lia)). pose proof (Z.div_mod g 16 ltac:(lia)). pose proof (Z.mod_pos_bound a 16 ltac:(lia)).
  split; [intros [Hl Hr]; lia | lia].
Qed.

Lemma linked_untouched c g es : g mod 16 = 0 -> Forall tight es -> linked c g es <-> untouched c g es.
Proof.
  intros Hg. induction 1 as [| [c' g' | a n | a n] es He _ IH]; cbn; [done | | | done].
  - by destruct (decide (c' = c)).
  - destruct He as (H1 & H2 & H3). by rewrite IH, <- (touches_own a n g).
Qed.

Lemma mask_aligned a : 0 <= a < 2 ^ 64 -> mask a mod 16 = 0.
Proof.
  intros Ha. rewrite mask_mod, Zminus_mod_idemp_r by done. by rewrite Z.sub_diag.
Qed.

Lemma access_sound es m p p' m' cs : sound es m -> served p m -> is_Some (pmem m) -> writeable m = true ->
  reading (cmd (pkt p)) || writing (cmd (pkt p)) = true -> access p m = Ok (p', m', cs) -> sound (did p p' ++ es) m'.
Proof.
  intros [Hw Hl Hd] Hs [mem Hmem] Hwr Hc Ha. apply orb_true_iff in Hc as [Hc | Hc].
  - destruct (access_read p m mem Hs Hmem Hw Hc) as (m1 & E & _ & _ & _ & Hw1 & Hd1 & Hr1). rewrite E in Ha. simplify_eq.
    assert (Hdoor : door m' = true -> lockedAddrList m' = []).
    { intros Ed. destruct (Hd1 Ed) as [Ed' Hne]. destruct (lockedAddrList m') eqn:El; [done |].
      destruct Hne; [done | by apply Hd]. }
    unfold did. rewrite Hc. destruct (sv_paddr _ _ Hs) as [pa Hpa]. rewrite Hpa in *.
    destruct (isLLSC (cmd (pkt p))), (ctx p) as [k |]; try (split; [done | intros; rewrite Hr1; apply Hl | done]).
    split; [done | | done]. intros c g. rewrite Hr1. cbn. destruct (decide (k = c)) as [-> | Hne].
    + rewrite lookup_insert_eq. split; [by intros [=] | by intros ->].
    + rewrite lookup_insert_ne by done. apply Hl.
  - destruct (access_write p m mem Hs Hmem Hw Hc Hwr) as (m1 & cs1 & pa & Hpa & E & Hm1 & _). rewrite E in Ha. simplify_eq.
    assert (Hnr : reading (cmd (pkt p)) = false) by (destruct (reading _) eqn:Er; [by rewrite (reading_not_writing _ Er) in Hc | done]).
    assert (Hx : isLLSC (cmd (pkt p)) = true ->
      bool_decide (extraData (replied (noted (wins p (mask pa) m) p)) = Some 1) = wins p (mask pa) m).
    { intros El. unfold noted, replied. rewrite El. unfold setExtraData. cbn [pkt]. destruct (needsResponse _), (wins _ _ _); done. }
    unfold did. rewrite Hpa, Hnr, Hc.
    assert (Hw' : isLLSC (cmd (pkt p)) && negb (bool_decide (extraData (replied (noted (wins p (mask pa) m) p)) = Some 1))
      = negb (wins p (mask pa) m)).
    { destruct (isLLSC (cmd (pkt p))) eqn:El; [by rewrite Hx | unfold wins; by rewrite El]. }
    rewrite Hw'. destruct (wins p (mask pa) m); cbn [negb app].
    + destruct Hm1 as (mem' & m2 & (ls & -> & Hw2 & Els & Hr2) & -> & _). split; [done | |].
      * intros c g. cbn [lockedAddrList set_pmem set_locks]. rewrite linked_write, <- Hl, Hr2.
        destruct (res (lockedAddrList m) !! c) as [g' |]; [| by split; [| intros [? _]]].
        destruct (Z.eqb_spec g' (mask pa)) as [-> | Hne]; (split; [intros [=] | intros [[=] ?]]); by subst.
      * cbn. intros Ed. rewrite Els, (Hd Ed). done.
    + rewrite Hm1. by split.
Qed.

Lemma history_sound es m : history es m -> sound es m.
Proof.
  induction 1 as [m El Ed | es m p p' m' cs _ IH | es m p p' m' cs _ IH Hc Ha | es m p p' m' _ IH Ha | es m _ IH].
  - split; rewrite ?El, ?Ed; [by split; constructor | | done]. intros c g. cbn. rewrite lookup_empty. done.
  - by eapply access_sound.
  - apply sound_slipped. by eapply same_locks_sound, other_same.
  - apply sound_slipped. by eapply same_locks_sound, functional_same.
  - destruct IH as [H1 H2 H3]. unfold getBackdoor. case_bool_decide as El; cbn [andb]; [| by split].
    destruct (_ && _); [| by split]. split; [done | done | by intros _].
Qed.

Section conditional.
Variables (es : list action) (m : AbstractMemory) (mem : gmap Z Z) (p : MemPkt).
Hypothesis Hh : history es m.
Hypothesis Hs : served p m.
Hypothesis Hmem : pmem m = Some mem.
Hypothesis Hwr : writeable m = true.

(** C19: load-locked and store-conditional, over any history of accesses, functional
    accesses and back doors of a memory with storage that may be written.  A store
    conditional of a context writes its bytes and notes success exactly when that context
    has linked the 16 bytes of the address since it last linked anything, and no write has
    started in these 16 bytes since, where a store conditional that failed is no write; the
    contexts whose monitors it clears are then the others that had them linked.  Otherwise
    it notes failure and changes nothing.  Either way it is answered.  A write that only
    reaches into the 16 bytes from below, a swap and a functional write end no reservation,
    against the comment that all stores clear matching locks; on a history without any of
    these, in which every write stays in the 16 bytes it starts in, success is exactly what
    that comment promises: no byte of the 16 has been stored to since. *)
Theorem conditional_by_history k pa : writing (cmd (pkt p)) = true -> isLLSC (cmd (pkt p)) = true ->
  ctx p = Some k -> paddr p = Some pa ->
  ((linked k (mask pa) es /\
     exists m' cs mem', access p m = Ok (replied (setExtraData 1 p), m', cs) /\ pmem m' = Some mem' /\
       written p m mem mem' /\ (forall c, c ∈ cs <-> linked c (mask pa) es /\ c <> k) /\
       (forall c g, res (lockedAddrList m') !! c = Some g <-> linked c g es /\ g <> mask pa)) \/
  (~ linked k (mask pa) es /\ access p m = Ok (replied (setExtraData 0 p), m, []))) /\
  (0 <= pa < 2 ^ 64 -> Forall tight es -> linked k (mask pa) es <-> untouched k (mask pa) es).
Proof.
  intros Hc Hl Hk Hp. split; [| intros Hpa Ht; apply linked_untouched; [by apply mask_aligned | done]]. pose proof (history_sound _ _ Hh) as [Hw Hlinked _].
  destruct (access_write p m mem Hs Hmem Hw Hc Hwr) as (m1 & cs & pa' & Hpa & Ha & Hm1 & Hcs).
  rewrite Hp in Hpa. injection Hpa as <-. unfold wins, holds, noted in *. rewrite Hl, Hk in *. cbn [default] in *.
  case_bool_decide as E; [left | right].
  - split; [by apply Hlinked |]. destruct Hm1 as (mem' & m2 & (ls & -> & _ & _ & Hr) & -> & Hwt).
    eexists _, cs, mem'. split; [exact Ha |]. split_and!; [done | done | |].
    + intros c. rewrite Hcs, Hlinked. tauto.
    + intros c g. cbn [lockedAddrList set_pmem set_locks]. rewrite Hr, <- Hlinked.
      destruct (res (lockedAddrList m) !! c) as [g' |]; [| by split; [| intros [? _]]].
      destruct (Z.eqb_spec g' (mask pa)) as [-> | Hne]; (split; [intros [=] | intros [[=] ?]]); by subst.
  - rewrite Hlinked in E. split; [done |]. rewrite Ha, Hm1. f_equal. f_equal.
    apply elem_of_nil_inv. intros c Hin. by apply Hcs in Hin as [? _].
Qed.
End conditional.

(** C20: a memory returns what was written to it: after a write that is not conditional,
    a read of any bytes finds, at each address the write covers and its byte mask
    enables, the byte of the write, and at every other address the byte of before; it
    returns as many bytes as it asks for.  Both are answered when their commands need
    an answer. *)
Theorem write_then_read p q m mem : locks_wf (lockedAddrList m) -> pmem m = Some mem -> writeable m = true ->
  served p m -> served q m -> writing (cmd (pkt p)) = true -> isLLSC (cmd (pkt p)) = false -> reading (cmd (pkt q)) = true ->
  exists m1 cs m2 d, access p m = Ok (replied p, m1, cs) /\ access q m1 = Ok (replied (set_data (Some d) q), m2, []) /\
    Z.of_nat (length d) = psize (pkt q) /\
    forall i, 0 <= i < psize (pkt q) -> let x := addr (pkt q) + i - addr (pkt p) in
      nth (Z.to_nat i) d 0 =
        if (0 <=? x) && (x <? psize (pkt p)) && enabled p x then nth (Z.to_nat x) (buffer p) 0
        else byte mem (toHostAddr (addr (pkt q) + i) m).
Proof.
  intros Hw Hmem Hwr Hp Hq Hcp Hlp Hcq.
  destruct (access_write p m mem Hp Hmem Hw Hcp Hwr) as (m1 & cs & pa & Hpa & Ha & Hm1 & _).
  unfold wins, noted in *. rewrite Hlp in *. destruct Hm1 as (mem' & m' & (ls & -> & Hw1 & _ & _) & -> & Hwt).
  assert (Hq1 : served q (set_pmem (Some mem') (set_locks ls m))) by (by destruct Hq).
  destruct (access_read q _ mem' Hq1 eq_refl Hw1 Hcq) as (m2 & Hr & _).
  eexists _, cs, m2, _. split; [exact Ha |]. split; [exact Hr |].
  destruct (sv_size _ _ Hq) as [_ Hn]. split; [by apply length_load |].
  intros i Hi. set (x := addr (pkt q) + i - addr (pkt p)). rewrite (nth_load mem') by done. rewrite Hwt. unfold offset, toHostAddr. cbn [range set_pmem set_locks].
  replace (addr (pkt q) - _start (range m) + i - (addr (pkt p) - _start (range m))) with x by lia.
  replace (addr (pkt q) - _start (range m) + i) with (addr (pkt q) + i - _start (range m)) by lia.
  destruct (Z.leb_spec 0 x), (Z.ltb_spec x (psize (pkt p))), (Z.leb_spec (addr (pkt p) - _start (range m)) (addr (pkt q) + i - _start (range m))),
    (Z.ltb_spec (addr (pkt q) + i - _start (range m)) (addr (pkt p) - _start (range m) + psize (pkt p))); done || lia.
Qed.

(** Whoever holds the back door of a memory reads and writes it without being seen,
    so while a context has a reservation nobody holds it: after any history of accesses
    and back doors handed out, the back door is out only when the list of reservations
    is empty. *)
Theorem no_door_while_linked es m c g : history es m -> linked c g es -> door m = false /\ getBackdoor m = m.
Proof.
  intros [Hw Hl Hd]%history_sound E. apply Hl in E.
  assert (Hne : lockedAddrList m <> []) by (intros El; rewrite El in E; cbn in E; by rewrite lookup_empty in E).
  split; [destruct (door m); [by rewrite Hd in Hne | done] |].
  unfold getBackdoor. by rewrite bool_decide_eq_false_2.
Qed.

(** * Examples *)

Definition ex_memory : AbstractMemory := mkMemory (RangeSize 0x80000000 0x1000) (Some ∅) true [] false.
Definition ex_access (c : Command) (a : Z) (bs : list Z) (k : Z) : MemPkt :=
  mkMemPkt (mkPacket 1 c 0x300 a false (Z.of_nat (length bs)) 0 0 0 [] (new_Request 1)) (Some bs) (Some a) (Some k) None [] None.

Lemma ex_access_served c a bs k m : isSubset (RangeSize a (Z.of_nat (length bs))) (range m) = Ok true ->
  k <> InvalidContextID -> served (ex_access c a bs k) m.
Proof.
  intros Hi Hk. split; try done; [by split; [| cbn; lia] | by exists bs | by left | by intros ? [= <-]].
Qed.

(** The memory and the packet an access leaves. *)
Definition then_ (o : outcome (MemPkt * AbstractMemory * list Z)) : AbstractMemory :=
  match o with Ok (_, m, _) => m | Err _ => ex_memory end.
Definition answer (o : outcome (MemPkt * AbstractMemory * list Z)) : option Z :=
  match o with Ok (p, _, _) => extraData p | Err _ => None end.

Definition ex_link (k a : Z) : MemPkt := ex_access LoadLockedReq a [0; 0; 0; 0] k.
Definition ex_cond (k a : Z) : MemPkt := ex_access StoreCondReq a [1; 2; 3; 4] k.
Definition ex_linked : AbstractMemory := then_ (access (ex_link 5 0x80000100) ex_memory).

Lemma ex_linked_history : history [Linked 5 0x80000100] ex_linked.
Proof.
  eapply (h_access [] ex_memory (ex_link 5 0x80000100)); [by apply h_start | by apply ex_access_served | by eexists | done | done |].
  vm_compute. reflexivity.
Qed.

(** Context 5 links 16 bytes and its conditional store to another word of them succeeds;
    context 6 has linked nothing. *)
Lemma conditional_by_history_witness :
  (exists m' cs, access (ex_cond 5 0x80000104) ex_linked = Ok (replied (setExtraData 1 (ex_cond 5 0x80000104)), m', cs)) /\
  access (ex_cond 6 0x80000104) ex_linked = Ok (replied (setExtraData 0 (ex_cond 6 0x80000104)), ex_linked, []).
Proof.
  split.
  - destruct (conditional_by_history _ ex_linked ∅ (ex_cond 5 0x80000104) ex_linked_history) with (k := 5) (pa := 0x80000104)
      as [[(_ & m' & cs & _ & H & _) | [H _]] _]; try done; [by apply ex_access_served | by exists m', cs].
  - destruct (conditional_by_history _ ex_linked ∅ (ex_cond 6 0x80000104) ex_linked_history) with (k := 6) (pa := 0x80000104)
      as [[(H & _) | [_ H]] _]; try done. by apply ex_access_served.
Defined.

(** A write of four bytes, the second masked, and a read of the middle of them. *)
Definition ex_masked : MemPkt :=
  mkMemPkt (pkt (ex_access WriteReq 0x80000010 [9; 8; 7; 6] 0)) (Some [9; 8; 7; 6]) (Some 0x80000010) (Some 0) None [true; false; true; true] None.

Lemma write_then_read_witness : exists m1 cs m2 d, access ex_masked ex_memory = Ok (replied ex_masked, m1, cs) /\
  access (ex_access ReadReq 0x80000011 [0; 0; 0; 0] 0) m1 = Ok (replied (set_data (Some d) (ex_access ReadReq 0x80000011 [0; 0; 0; 0] 0)), m2, []) /\
  nth 0 d 0 = 0 /\ nth 1 d 0 = 7 /\ nth 3 d 0 = 0.
Proof.
  destruct (write_then_read ex_masked (ex_access ReadReq 0x80000011 [0; 0; 0; 0] 0) ex_memory ∅) as (m1 & cs & m2 & d & H1 & H2 & _ & H3);
    try done; [by split; constructor | | by apply ex_access_served |].
  - split; try done; [by exists [9; 8; 7; 6] | by right | by intros ? [= <-]].
  - exists m1, cs, m2, d. split_and!; [done | done | | |].
    + apply (H3 0). cbn. lia.
    + apply (H3 1). cbn. lia.
    + apply (H3 3). cbn. lia.
Defined.

Lemma no_door_while_linked_witness : door ex_linked = false /\ getBackdoor ex_linked = ex_linked.
Proof. apply (no_door_while_linked _ _ 5 0x80000100 ex_linked_history). done. Defined.

(** A write of 32 bytes clears the reservations of its first 16 only: the second context's
    conditional store succeeds although its bytes have been overwritten since it linked
    them. *)
Definition ex_wide : MemPkt := ex_access WriteReq 0x800000f0 (repeat 7 32) 6.
Example wide_write_missed : answer (access (ex_cond 5 0x80000100) (then_ (access ex_wide ex_linked))) = Some 1.
Proof. vm_compute. reflexivity. Qed.

(** The same write, aligned to the linked bytes, is seen. *)
Example aligned_write_seen :
  answer (access (ex_cond 5 0x80000100) (then_ (access (ex_access WriteReq 0x80000100 (repeat 7 32) 6) ex_linked))) = Some 0.
Proof. vm_compute. reflexivity. Qed.

(** A swap writes the linked bytes without clearing the reservation, so the conditional
    store that follows succeeds. *)
Definition ex_swap : MemPkt := ex_access SwapReq 0x80000100 [7; 7; 7; 7] 6.
Example swap_missed : answer (access (ex_cond 5 0x80000100) (then_ (access ex_swap ex_linked))) = Some 1 /\
  load (default ∅ (pmem (then_ (access ex_swap ex_linked)))) 0x100 4 = [7; 7; 7; 7].
Proof. vm_compute. split; reflexivity. Qed.
