(* ===== verification/SimpleMem.v ===== *)
(** The memory controller: class [SimpleMemory] of [src/gem5/src/mem/simple_mem.hh] and
    [simple_mem.cc].

    It serves a request when it accepts it, and keeps the response in a queue until the
    latency has passed.  A request makes it busy for the time its bytes take; a request
    that comes while it is busy is refused and its sender told to retry.  A peer that
    is sent a response may send new requests in the same call. *)
From Stdlib Require Import ZArith Lia.
From stdpp Require Import base numbers list gmap.
From S2P Require Import Prelude AddrRange MemPacket Clocked PacketQueue AbstractMem.

Open Scope Z_scope.

(** [DeferredPacket]: a response with the tick at which it is to be sent. *)
Record Deferred : Type := mkDeferredResp {
  dr_tick : Z;
  dr_pkt : MemPkt;
}.

(** [bandwidth n] is the product of a size with the [double] field, as ticks; the events
    are the ticks they are scheduled for; [sm_draining] stands for [drainState()]. *)
Record SimpleMemory : Type := mkSimpleMemory {
  sm_mem : AbstractMemory;
  latency : Z;
  latency_var : Z;
  bandwidth : Z -> Z;
  packetQueue : list Deferred;
  isBusy : bool;
  retryReq : bool;
  retryResp : bool;
  releaseEvent : option Z;
  dequeueEvent : option Z;
  sm_draining : bool;
}.

Definition set_sm_mem (v : AbstractMemory) (s : SimpleMemory) : SimpleMemory :=
  mkSimpleMemory v (latency s) (latency_var s) (bandwidth s) (packetQueue s) (isBusy s) (retryReq s) (retryResp s)
    (releaseEvent s) (dequeueEvent s) (sm_draining s).
Definition set_queue (v : list Deferred) (s : SimpleMemory) : SimpleMemory :=
  mkSimpleMemory (sm_mem s) (latency s) (latency_var s) (bandwidth s) v (isBusy s) (retryReq s) (retryResp s)
    (releaseEvent s) (dequeueEvent s) (sm_draining s).
Definition set_busy (v : bool) (s : SimpleMemory) : SimpleMemory :=
  mkSimpleMemory (sm_mem s) (latency s) (latency_var s) (bandwidth s) (packetQueue s) v (retryReq s) (retryResp s)
    (releaseEvent s) (dequeueEvent s) (sm_draining s).
Definition set_retryReq (v : bool) (s : SimpleMemory) : SimpleMemory :=
  mkSimpleMemory (sm_mem s) (latency s) (latency_var s) (bandwidth s) (packetQueue s) (isBusy s) v (retryResp s)
    (releaseEvent s) (dequeueEvent s) (sm_draining s).
Definition set_retryResp (v : bool) (s : SimpleMemory) : SimpleMemory :=
  mkSimpleMemory (sm_mem s) (latency s) (latency_var s) (bandwidth s) (packetQueue s) (isBusy s) (retryReq s) v
    (releaseEvent s) (dequeueEvent s) (sm_draining s).
Definition set_releaseEvent (v : option Z) (s : SimpleMemory) : SimpleMemory :=
  mkSimpleMemory (sm_mem s) (latency s) (latency_var s) (bandwidth s) (packetQueue s) (isBusy s) (retryReq s) (retryResp s)
    v (dequeueEvent s) (sm_draining s).
Definition set_dequeueEvent (v : option Z) (s : SimpleMemory) : SimpleMemory :=
  mkSimpleMemory (sm_mem s) (latency s) (latency_var s) (bandwidth s) (packetQueue s) (isBusy s) (retryReq s) (retryResp s)
    (releaseEvent s) v (sm_draining s).
Definition set_sm_draining (v : bool) (s : SimpleMemory) : SimpleMemory :=
  mkSimpleMemory (sm_mem s) (latency s) (latency_var s) (bandwidth s) (packetQueue s) (isBusy s) (retryReq s) (retryResp s)
    (releaseEvent s) (dequeueEvent s) v.

(** [SimpleMemory(...)]. *)
Definition new_SimpleMemory (m : AbstractMemory) (lat var : Z) (bw : Z -> Z) : SimpleMemory :=
  mkSimpleMemory m lat var bw [] false false false None None false.

(** [Tick getLatency() const]: [r] is the number drawn from 0 to [latency_var]. *)
Definition getLatency (r : Z) (s : SimpleMemory) : Z := u64 (latency s + if truthy (latency_var s) then r else 0).

(** [Tick recvAtomic(PacketPtr pkt)]. *)
Definition recvAtomic (r : Z) (p : MemPkt) (s : SimpleMemory) : outcome (Z * MemPkt * SimpleMemory * list Z) :=
  do! panic_if (cacheResponding (pkt p)) then
  let! (p, m, cs) := access p (sm_mem s) in
  Ok (getLatency r s, p, set_sm_mem m s, cs).

(** [Tick recvAtomicBackdoor(PacketPtr pkt, MemBackdoorPtr &_backdoor)]. *)
Definition recvAtomicBackdoor (r : Z) (p : MemPkt) (s : SimpleMemory) : outcome (Z * MemPkt * SimpleMemory * list Z) :=
  let! (lat, p, s, cs) := recvAtomic r p s in
  Ok (lat, p, set_sm_mem (getBackdoor (sm_mem s)) s, cs).

(** [void recvMemBackdoorReq(...)]. *)
Definition recvMemBackdoorReq (s : SimpleMemory) : SimpleMemory := set_sm_mem (getBackdoor (sm_mem s)) s.

(** The search of [recvTimingReq] from the end of the queue, on the reversed queue.  It
    never looks at the first packet.  On an empty queue it decrements the end, and finds
    the end again in a circular list. *)
Fixpoint insert_response (when : Z) (p : MemPkt) (r : list Deferred) : outcome (list Deferred) :=
  match r with
  | [] => Ok [mkDeferredResp when p]
  | [d] => Ok [mkDeferredResp when p; d]
  | d :: r =>
      let! later :=
        (if when <? dr_tick d then let! b := matchAddr (pkt (dr_pkt d)) (pkt p) in Ok (negb b) else Ok false) in
      if (later : bool) then let! r := insert_response when p r in Ok (d :: r)
      else Ok (mkDeferredResp when p :: d :: r)
  end.

(** [packetQueue.back().tick]. *)
Definition back_tick (q : list Deferred) : outcome Z :=
  match last q with Some d => Ok (dr_tick d) | None => Err Undefined end.

(** A response enters the queue. *)
Definition queue_response (cur receive_delay r : Z) (p : MemPkt) (s : SimpleMemory) : outcome SimpleMemory :=
  do! assert_ (isResponse (cmd (pkt p))) then
  let when_to_send := u64 (cur + receive_delay + getLatency r s) in
  let! q := insert_response when_to_send p (rev (packetQueue s)) in
  let s := set_queue (rev q) s in
  if negb (retryResp s) && negb (bool_decide (is_Some (dequeueEvent s))) then
    let! t := back_tick (packetQueue s) in
    let! ev := schedule cur (dequeueEvent s) t in Ok (set_dequeueEvent ev s)
  else Ok s.

(** [bool recvTimingReq(PacketPtr pkt)]: [r0] and [r] are the numbers drawn for the
    latency; with the packet after the call and the contexts whose monitors are
    cleared. *)
Definition recvTimingReq (cur r0 r : Z) (p : MemPkt) (s : SimpleMemory)
    : outcome (bool * MemPkt * SimpleMemory * list Z) :=
  let c := cmd (pkt p) in
  do! panic_if (cacheResponding (pkt p)) then
  do! panic_if (negb (isRead c || isWrite c)) then
  if retryReq s then Ok (false, p, s, [])
  else if isBusy s then Ok (false, p, set_retryReq true s, [])
  else
    let receive_delay := u32 (headerDelay (pkt p) + payloadDelay (pkt p)) in
    let p := set_pkt (set_payloadDelay 0 (set_headerDelay 0 (pkt p))) p in
    let! n := getSize (pkt p) in
    let duration := bandwidth s n in
    let! s :=
      (if negb (duration =? 0) then
         let! ev := schedule cur (releaseEvent s) (u64 (cur + duration)) in
         Ok (set_busy true (set_releaseEvent ev s))
       else Ok s) in
    let! (_, p, s, cs) := recvAtomic r0 p s in
    let! s := (if needsResponse c then queue_response cur receive_delay r p s else Ok s) in
    Ok (true, p, s, cs).

(** [void release()], with whether the sender of a refused request is told to retry. *)
Definition release (s : SimpleMemory) : outcome (SimpleMemory * bool) :=
  do! assert_ (isBusy s) then
  let s := set_busy false s in
  if retryReq s then Ok (set_retryReq false s, true) else Ok (s, false).

(** The requests that a peer sends while it is sent a response: each with its two draws,
    and whether it is accepted. *)
Fixpoint receive_all (cur : Z) (ps : list (MemPkt * Z * Z)) (s : SimpleMemory) : outcome (SimpleMemory * list MemPkt) :=
  match ps with
  | [] => Ok (s, [])
  | (p, r0, r) :: ps =>
      let! (ok, _, s, _) := recvTimingReq cur r0 r p s in
      let! (s, acc) := receive_all cur ps s in
      Ok (s, if (ok : bool) then p :: acc else acc)
  end.

(** [reschedule(event, when, true)]. *)
Definition reschedule_always (cur when : Z) : outcome (option Z) := do! assert_ (cur <=? when) then Ok (Some when).

(** [void dequeue()]: [sendTimingResp] sends the requests [ps] and returns [ok]; with the
    packet sent, the requests accepted, and whether the memory says that it is drained. *)
Definition dequeue (cur : Z) (ps : list (MemPkt * Z * Z)) (ok : bool) (s : SimpleMemory)
    : outcome (MemPkt * SimpleMemory * list MemPkt * bool) :=
  match packetQueue s with
  | [] => Err AssertFail
  | deferred_pkt :: _ =>
      let! (s, acc) := receive_all cur ps s in
      let s := set_retryResp (negb ok) s in
      if ok then
        match packetQueue s with
        | [] => Err Undefined
        | _ :: q =>
            let s := set_queue q s in
            match q with
            | d :: _ =>
                let! ev := reschedule_always cur (Z.max (dr_tick d) cur) in
                Ok (dr_pkt deferred_pkt, set_dequeueEvent ev s, acc, false)
            | [] =>
                if sm_draining s then Ok (dr_pkt deferred_pkt, set_sm_draining false s, acc, true)
                else Ok (dr_pkt deferred_pkt, s, acc, false)
            end
        end
      else Ok (dr_pkt deferred_pkt, s, acc, false)
  end.

(** [void recvRespRetry()]. *)
Definition recvRespRetry (cur : Z) (ps : list (MemPkt * Z * Z)) (ok : bool) (s : SimpleMemory)
    : outcome (MemPkt * SimpleMemory * list MemPkt * bool) :=
  do! assert_ (retryResp s) then dequeue cur ps ok s.

(** [DrainState drain()]: whether the memory is drained. *)
Definition sm_drain (s : SimpleMemory) : SimpleMemory * bool :=
  if bool_decide (packetQueue s <> []) then (set_sm_draining true s, false) else (s, true).

(** * Histories *)

(** A memory in time, with the requests it has accepted and the responses it has sent,
    oldest first. *)
Record mem_sys : Type := mkMemSys {
  smem : SimpleMemory;
  now : Z;
  accepted : list MemPkt;
  answered : list MemPkt;
}.

Inductive mem_op : Type :=
  | Request (p : MemPkt) (r0 r : Z)
  | Release
  | Dequeue (ps : list (MemPkt * Z * Z)) (ok : bool)
  | RespRetry (ps : list (MemPkt * Z * Z)) (ok : bool)
  | Drain
  | Wait (t : Z).

Definition after_dequeue (x : mem_sys) (t : Z) (ok : bool) (o : outcome (MemPkt * SimpleMemory * list MemPkt * bool)) : outcome mem_sys :=
  let! (p, s, acc, _) := o in
  Ok (mkMemSys s t (accepted x ++ acc) (if ok then answered x ++ [p] else answered x)).

Definition mem_step (x : mem_sys) (o : mem_op) : outcome mem_sys :=
  let s := smem x in
  match o with
  | Request p r0 r =>
      let! (ok, _, s, _) := recvTimingReq (now x) r0 r p s in
      Ok (mkMemSys s (now x) (if (ok : bool) then accepted x ++ [p] else accepted x) (answered x))
  | Release =>
      match releaseEvent s with
      | None => Err Undefined
      | Some t => let! (s, _) := release (set_releaseEvent None s) in Ok (mkMemSys s t (accepted x) (answered x))
      end
  | Dequeue ps ok =>
      match dequeueEvent s with
      | None => Err Undefined
      | Some t => after_dequeue x t ok (dequeue t ps ok (set_dequeueEvent None s))
      end
  | RespRetry ps ok => after_dequeue x (now x) ok (recvRespRetry (now x) ps ok s)
  | Drain => Ok (mkMemSys (sm_drain s).1 (now x) (accepted x) (answered x))
  | Wait t => Ok (mkMemSys s t (accepted x) (answered x))
  end.

(** * Serving a request *)

(** A memory with a store that may be written. *)
Record mem_ok (m : AbstractMemory) : Prop := {
  mo_store : is_Some (pmem m);
  mo_write : writeable m = true;
  mo_locks : locks_wf (lockedAddrList m);
}.

Definition same_place (p p' : MemPkt) : Prop :=
  addr (pkt p') = addr (pkt p) /\ _isSecure (pkt p') = _isSecure (pkt p) /\ flag_isSet VALID_ADDR (pkt p') = flag_isSet VALID_ADDR (pkt p).

Lemma replied_place p : same_place p (replied p).
Proof.
  unfold replied. destruct (needsResponse _); [| done]. split_and!; [done | done |]. unfold flag_isSet, flag_clear. cbn [pkt set_pkt flags set_flags set_cmd].
  by rewrite <- Z.land_assoc.
Qed.

Lemma response_commands c : reading c || writing c = true -> needsResponse c = true -> isResponse (responseCommand c) = true.
Proof. destruct c; vm_compute; congruence. Qed.

Lemma access_ok p m : mem_ok m -> served p m -> reading (cmd (pkt p)) || writing (cmd (pkt p)) = true ->
  exists p' m' cs, access p m = Ok (p', m', cs) /\ mem_ok m' /\ range m' = range m /\ same_place p p' /\
    (needsResponse (cmd (pkt p)) = true -> isResponse (cmd (pkt p')) = true).
Proof.
  intros [[mem Hmem] Hwr Hw] Hs Hc.
  assert (Hresp : forall q, pkt q = pkt p -> same_place p (replied q) /\
    (needsResponse (cmd (pkt p)) = true -> isResponse (cmd (pkt (replied q))) = true)).
  { intros q Eq. split.
    - destruct (replied_place q) as (? & ? & ?). unfold same_place. by rewrite <- Eq.
    - intros Hn. unfold replied. rewrite Eq, Hn. cbn. by apply response_commands. }
  apply orb_true_iff in Hc as [Hc | Hc].
  - destruct (access_read p m mem Hs Hmem Hw Hc) as (m' & E & Ep & Er & Ewr & Hw' & _).
    eexists _, m', []. split; [exact E |].
    split; [split; [rewrite Ep, Hmem; by eexists | by rewrite Ewr | done] |]. split; [done |]. by apply Hresp.
  - destruct (access_write p m mem Hs Hmem Hw Hc Hwr) as (m' & cs & pa & _ & E & Hm' & _).
    eexists _, m', cs. split; [exact E |].
    assert (En : pkt (noted (wins p (mask pa) m) p) = pkt p) by (unfold noted; by destruct (isLLSC _)).
    destruct (wins p (mask pa) m) eqn:Ew.
    + destruct Hm' as (mem' & m1 & (ls & -> & Hls & _) & -> & _). split; [split; [by eexists | done | done] |]. split; [done |]. by apply Hresp.
    + subst m'. split; [split; [by eexists | done | done] |]. split; [done |]. by apply Hresp.
Qed.

(** A packet as [recvTimingReq] serves it, without its delays. *)
Definition arrived (p : MemPkt) : MemPkt := set_pkt (set_payloadDelay 0 (set_headerDelay 0 (pkt p))) p.

(** Requests served one after the other, without timing: the responses and the memory. *)
Fixpoint serve_all (ps : list MemPkt) (m : AbstractMemory) : outcome (list MemPkt * AbstractMemory) :=
  match ps with
  | [] => Ok ([], m)
  | p :: ps =>
      let! (p', m, _) := access (arrived p) m in
      let! (l, m) := serve_all ps m in
      Ok (if needsResponse (cmd (pkt p)) then p' :: l else l, m)
  end.

Lemma serve_all_snoc p p' m2 cs ps : forall m l m1, serve_all ps m = Ok (l, m1) -> access (arrived p) m1 = Ok (p', m2, cs) ->
  serve_all (ps ++ [p]) m = Ok (l ++ (if needsResponse (cmd (pkt p)) then [p'] else []), m2).
Proof.
  induction ps as [| q ps IH]; intros m l m1 H Ha; cbn [serve_all app] in *.
  - simplify_eq. rewrite Ha. cbn [obind]. by destruct (needsResponse _).
  - destruct (access (arrived q) m) as [[[q' m'] cs'] |]; [| done]. cbn [obind] in *.
    destruct (serve_all ps m') as [[l' m''] |] eqn:E; [| done]. cbn [obind] in H. simplify_eq.
    rewrite (IH m' l' m1 E Ha). cbn [obind]. by destruct (needsResponse (cmd (pkt q))).
Qed.

(** * Entering the queue *)

Definition to (a : Z) (sec : bool) (p : MemPkt) : bool := for_addr a sec (pkt p).

Record entered (p : MemPkt) (before behind : list Deferred) : Prop := {
  en_behind : Forall (fun d => same_addr (pkt (dr_pkt d)) (pkt p) = false) behind;
  en_front : before = [] -> behind = [];
}.

Definition valid_response (d : Deferred) : Prop := flag_isSet VALID_ADDR (pkt (dr_pkt d)) = true.

Lemma insert_response_ok when p r : flag_isSet VALID_ADDR (pkt p) = true -> Forall valid_response r ->
  exists r1 r2, r = r1 ++ r2 /\ insert_response when p r = Ok (r1 ++ mkDeferredResp when p :: r2) /\ entered p (rev r2) (rev r1) /\
    (forall d r1', r1 = d :: r1' -> when < dr_tick d).
Proof.
  intros Hv. induction r as [| d r IH]; intros Hr.
  { exists [], []. split_and!; [done | done | by split; [constructor |] | done]. }
  apply Forall_cons in Hr as [Hd Hr]. destruct r as [| d' r].
  { exists [], [d]. split_and!; [done | done | by split; [constructor |] | done]. }
  change (insert_response when p (d :: d' :: r)) with
    (let! later := (if when <? dr_tick d then let! b := matchAddr (pkt (dr_pkt d)) (pkt p) in Ok (negb b) else Ok false) in
     if (later : bool) then let! r := insert_response when p (d' :: r) in Ok (d :: r) else Ok (mkDeferredResp when p :: d :: d' :: r)).
  destruct (Z.ltb_spec when (dr_tick d)).
  2: { cbn [obind]. exists [], (d :: d' :: r). split_and!; [done | done | | done]. split; [constructor |]. done. }
  rewrite (matchAddr_ok _ _ Hd Hv). cbn [obind]. destruct (same_addr (pkt (dr_pkt d)) (pkt p)) eqn:Es; cbn [negb].
  { exists [], (d :: d' :: r). split_and!; [done | done | | done]. by split; [constructor |]. }
  destruct (IH Hr) as (r1 & r2 & E & -> & [Hb Hf] & _). cbn [obind]. exists (d :: r1), r2.
  split; [by rewrite E |]. split; [done |]. split; [| by intros ? ? [= <- <-]]. split.
  - cbn [rev]. apply Forall_app. split; [done |]. by constructor.
  - intros E2. assert (r2 = []) as -> by (rewrite <- (rev_involutive r2), E2; done). rewrite app_nil_r in E. subst r1.
    specialize (Hf eq_refl). cbn [rev] in Hf. by destruct (rev r).
Qed.

(** What was served has been answered or waits, and the responses to requests of the same
    address keep their order. *)
Record responses_kept (resps ans : list MemPkt) (q : list Deferred) : Prop := {
  rk_all : ans ++ map dr_pkt q ≡ₚ resps;
  rk_order : forall a sec, filter (fun p => to a sec p = true) (ans ++ map dr_pkt q) = filter (fun p => to a sec p = true) resps;
}.

Lemma kept_entered when p before behind resps ans : entered p before behind -> responses_kept resps ans (before ++ behind) ->
  responses_kept (resps ++ [p]) ans (before ++ mkDeferredResp when p :: behind).
Proof.
  intros [Hb _] [Ha Ho]. split.
  - rewrite <- Ha, <- app_assoc, !map_app. f_equiv. cbn [map dr_pkt]. rewrite <- app_assoc. f_equiv. by rewrite Permutation_app_comm.
  - intros a sec. rewrite (filter_app _ resps), <- Ho, !map_app, !filter_app, <- !app_assoc. do 2 f_equal. cbn [map dr_pkt].
    rewrite filter_cons, (filter_cons _ p []). cbn [filter list_filter]. destruct (decide (to a sec p = true)) as [Hp | Hp]; [| by rewrite app_nil_r].
    rewrite filter_none; [done |]. intros x Hx H. apply list_elem_of_fmap in Hx as (d & -> & Hd).
    rewrite Forall_forall in Hb. specialize (Hb d Hd).
    unfold to, same_addr, for_addr in *. apply andb_true_iff in H as [H1%Z.eqb_eq H2%eqb_prop], Hp as [H3%Z.eqb_eq H4%eqb_prop].
    by rewrite H1, H2, H3, H4, Z.eqb_refl, eqb_reflx in Hb.
Qed.

(** * One request *)

(** What never changes. *)
Definition same_params (s s' : SimpleMemory) : Prop :=
  latency s' = latency s /\ latency_var s' = latency_var s /\ bandwidth s' = bandwidth s /\ range (sm_mem s') = range (sm_mem s).

#[local] Instance same_params_equiv : PreOrder same_params.
Proof. split; [by intros ? | intros a b c (? & ? & ? & ?) (? & ? & ? & ?); split_and!; congruence]. Qed.

(** A request at [cur] that the memory can serve, with its draw: the clock does not
    overflow. *)
Record request_ok (cur : Z) (s : SimpleMemory) (p : MemPkt) (r : Z) : Prop := {
  rq_served : served p (sm_mem s);
  rq_command : reading (cmd (pkt p)) || writing (cmd (pkt p)) = true;
  rq_duration : 0 <= bandwidth s (psize (pkt p)) /\ cur + bandwidth s (psize (pkt p)) < 2 ^ 64;
  rq_latency : 0 <= cur /\ 0 <= latency s /\ 0 <= r /\ cur + u32 (headerDelay (pkt p) + payloadDelay (pkt p)) + (latency s + r) < 2 ^ 64;
}.

Lemma served_range p m m' : range m' = range m -> served p m -> served p m'.
Proof. intros E []. split; try done. by rewrite E. Qed.

Lemma request_ok_params cur s s' p r : same_params s s' -> request_ok cur s p r -> request_ok cur s' p r.
Proof.
  intros (E1 & E2 & E3 & E4) [? ? ? ?]. split; rewrite ?E1, ?E3; try done. by eapply served_range.
Qed.

Lemma served_arrived p m : served p m -> served (arrived p) m.
Proof. intros []. by split. Qed.

Definition busy_ok (now : Z) (s : SimpleMemory) : Prop :=
  isBusy s = bool_decide (is_Some (releaseEvent s)) /\ (retryReq s = true -> isBusy s = true) /\
  forall t, releaseEvent s = Some t -> now <= t.

(** The event for the first response: it is sent when it is due, or at once. *)
Definition mem_armed (now : Z) (s : SimpleMemory) : Prop :=
  match packetQueue s with
  | [] => retryResp s = false /\ dequeueEvent s = None
  | d :: _ => if retryResp s then dequeueEvent s = None /\ dr_tick d <= now else dequeueEvent s = Some (Z.max (dr_tick d) now)
  end.

(** In the middle of [dequeue] the event may be missing. *)
Record calm (now : Z) (s : SimpleMemory) : Prop := {
  ca_mem : mem_ok (sm_mem s);
  ca_busy : busy_ok now s;
  ca_valid : Forall valid_response (packetQueue s);
  ca_event : forall t, dequeueEvent s = Some t -> now <= t;
}.

(** The requests [acc] have been served, and [ans] answered. *)
Definition tracks (m0 : AbstractMemory) (acc ans : list MemPkt) (s : SimpleMemory) : Prop :=
  exists resps, serve_all acc m0 = Ok (resps, sm_mem s) /\ responses_kept resps ans (packetQueue s).

(** What a request may do to the rest of the memory. *)
Record received (cur : Z) (s s' : SimpleMemory) : Prop := {
  rc_params : same_params s s';
  rc_calm : calm cur s';
  rc_retry : retryResp s' = retryResp s /\ sm_draining s' = sm_draining s;
  rc_front : forall d q, packetQueue s = d :: q -> exists q', packetQueue s' = d :: q';
  rc_event : retryResp s = true -> dequeueEvent s' = dequeueEvent s;
  rc_armed : mem_armed cur s -> mem_armed cur s';
  rc_grown : (length (packetQueue s) <= length (packetQueue s'))%nat /\
             (length (packetQueue s') = length (packetQueue s) -> dequeueEvent s' = dequeueEvent s);
}.

#[local] Instance received_trans cur : Transitive (received cur).
Proof.
  intros a b c [P1 C1 [R1 D1] F1 E1 A1 [L1 G1]] [P2 C2 [R2 D2] F2 E2 A2 [L2 G2]]. split; [by etrans | done | by rewrite R2, D2 | | | auto |].
  - intros d q Hq. destruct (F1 d q Hq) as [q' Hq']. by eapply F2.
  - intros Hr. rewrite E2 by congruence. by apply E1.
  - split; [lia |]. intros El. rewrite G2, G1 by lia. done.
Qed.

Lemma received_refl cur s : calm cur s -> received cur s s.
Proof. intros H. split; try done. intros d q ->. by eexists. Qed.

(** A step that only touches the request side. *)
Lemma received_frame cur s s' : calm cur s -> same_params s s' -> mem_ok (sm_mem s') -> packetQueue s' = packetQueue s ->
  dequeueEvent s' = dequeueEvent s -> retryResp s' = retryResp s -> sm_draining s' = sm_draining s -> busy_ok cur s' -> received cur s s'.
Proof.
  intros [H1 H2 H3 H4] Hp Hm E2 E3 E4 E5 Hb. split; [done | | done | | done | | by rewrite E2].
  - by split; rewrite ?E2, ?E3.
  - intros d q Hq. rewrite E2, Hq. by eexists.
  - unfold mem_armed. by rewrite E2, E3, E4.
Qed.

Lemma getLatency_bounds r s : 0 <= latency s -> 0 <= r -> latency s + r < 2 ^ 64 -> latency s <= getLatency r s <= latency s + r.
Proof.
  intros H1 H2 H3. unfold getLatency. rewrite wrap_small by (unfold in_width; destruct (truthy _); lia). destruct (truthy _); lia.
Qed.

(** A response enters the queue. *)
Lemma queue_response_ok cur d r p s : calm cur s -> flag_isSet VALID_ADDR (pkt p) = true -> isResponse (cmd (pkt p)) = true ->
  0 <= cur -> 0 <= d -> 0 <= latency s -> 0 <= r -> cur + d + (latency s + r) < 2 ^ 64 ->
  exists s' before behind when, queue_response cur d r p s = Ok s' /\ received cur s s' /\ sm_mem s' = sm_mem s /\
    packetQueue s = before ++ behind /\ packetQueue s' = before ++ mkDeferredResp when p :: behind /\ entered p before behind.
Proof.
  intros Hcalm Hv Hr Hcur Hd Hl Hr0 Hmax. pose proof Hcalm as [Hm Hb Hq He]. unfold queue_response. rewrite Hr. cbn [assert_ obind].
  pose proof (getLatency_bounds r s Hl Hr0 ltac:(lia)) as Hlat. rewrite (wrap_small 64) by (unfold in_width; lia).
  set (when := cur + d + getLatency r s).
  destruct (insert_response_ok when p (rev (packetQueue s)) Hv) as (r1 & r2 & Er & -> & Hent & Hlast); [by apply Forall_rev |].
  cbn [obind]. assert (Eq : packetQueue s = rev r2 ++ rev r1) by (rewrite <- rev_app_distr, <- Er; by rewrite rev_involutive).
  assert (Eq' : rev (r1 ++ mkDeferredResp when p :: r2) = rev r2 ++ mkDeferredResp when p :: rev r1).
  { rewrite rev_app_distr. cbn [rev]. by rewrite <- app_assoc. }
  rewrite Eq'. set (s1 := set_queue _ s). assert (Hq' : Forall valid_response (packetQueue s1)).
  { cbn. rewrite Eq in Hq. apply Forall_app in Hq as [? ?]. apply Forall_app. split; [done |]. by constructor. }
  assert (Hback : exists t, back_tick (packetQueue s1) = Ok t /\ cur <= t).
  { unfold back_tick. cbn [packetQueue s1 set_queue]. destruct r1 as [| d1 r1].
    - cbn [rev]. rewrite last_snoc. exists when. cbn. split; [done | lia].
    - cbn [rev]. rewrite cons_middle, app_assoc, app_assoc, last_snoc. exists (dr_tick d1). split; [done |].
      specialize (Hlast d1 r1 eq_refl). lia. }
  destruct Hback as (t & Ht & Hct).
  assert (Hfront : forall d0 q0, packetQueue s = d0 :: q0 -> exists q', packetQueue s1 = d0 :: q').
  { intros d0 q0 E. rewrite Eq in E. cbn. destruct (rev r2) as [| e b]; [| injection E as -> _; by eexists].
    destruct Hent as [_ Hf]. by rewrite (Hf eq_refl) in E. }
  assert (Hgrown : (length (packetQueue s) <= length (packetQueue s1))%nat /\
    forall ev, length (packetQueue s1) = length (packetQueue s) -> ev = dequeueEvent s).
  { cbn [packetQueue s1 set_queue]. rewrite Eq, !length_app. cbn [length]. split; [lia |]. intros ev. lia. }
  assert (Hgrown' : forall ev, (length (packetQueue s) <= length (packetQueue s1))%nat /\
    (length (packetQueue s1) = length (packetQueue s) -> ev = dequeueEvent s)) by (intros ev; split; [apply Hgrown | apply (proj2 Hgrown)]).
  destruct (negb (retryResp s1) && negb (bool_decide (is_Some (dequeueEvent s1)))) eqn:Eev.
  - rewrite Ht. cbn [obind]. unfold schedule. destruct (Z.leb_spec cur t); [| lia]. apply andb_true_iff in Eev as [Er1%negb_true_iff Ee].
    rewrite Ee. cbn [assert_ obind]. eexists _, (rev r2), (rev r1), when. split; [reflexivity |].
    split; [| split_and!; done]. split; [done | | done | done | | | exact (Hgrown' _)].
    + split; [done | done | done |]. by intros ? [= <-].
    + cbn in Er1. by rewrite Er1.
    + unfold mem_armed. cbn [packetQueue set_dequeueEvent retryResp dequeueEvent s1 set_queue]. cbn in Er1, Ee.
      destruct (packetQueue s) as [| d0 q0] eqn:E; intros Ha.
      * rewrite Er1. destruct (rev r2); [| done]. destruct Hent as [_ Hf]. cbn in Ht. rewrite (Hf eq_refl) in Ht.
        cbn. injection Ht as <-. f_equal. lia.
      * rewrite Er1 in Ha. by rewrite Ha in Ee.
  - exists s1, (rev r2), (rev r1), when. split; [done |]. split; [| split_and!; done]. split; [done | | done | done | done | | exact (Hgrown' _)].
    + by split.
    + unfold mem_armed. intros Ha. destruct (packetQueue s) as [| d0 q0] eqn:E.
      * destruct Ha as [Ha1 Ha2]. cbn in Eev. by rewrite Ha1, Ha2 in Eev.
      * destruct (Hfront d0 q0 eq_refl) as [q' ->]. exact Ha.
Qed.

(** The memory becomes busy for the time its bytes take. *)
Lemma occupied cur p s : calm cur s -> request_ok cur s p 0 -> isBusy s = false ->
  exists s', (if negb (bandwidth s (psize (pkt p)) =? 0) then
       let! ev := schedule cur (releaseEvent s) (u64 (cur + bandwidth s (psize (pkt p)))) in
       Ok (set_busy true (set_releaseEvent ev s)) else Ok s) = Ok s' /\
    received cur s s' /\ sm_mem s' = sm_mem s /\ packetQueue s' = packetQueue s.
Proof.
  intros Hcalm [_ _ [Hd1 Hd2] [Hcur _]] Hbusy. pose proof (ca_busy _ _ Hcalm) as (Hb & Hr & _).
  destruct (Z.eqb_spec (bandwidth s (psize (pkt p))) 0); cbn [negb].
  { exists s. split; [done |]. split; [by apply received_refl | done]. }
  rewrite (wrap_small 64) by (unfold in_width; lia). unfold schedule. rewrite Hbusy in Hb. rewrite <- Hb.
  destruct (Z.leb_spec cur (cur + bandwidth s (psize (pkt p)))); [| lia]. cbn [assert_ obind negb].
  eexists. split; [reflexivity |]. split; [| done]. 
  apply received_frame; try done; [apply Hcalm |]. split; [done |]. split; [done |]. cbn. intros t [= <-]. lia.
Qed.

Lemma memory_recvTimingReq_ok cur r0 r p s : calm cur s -> request_ok cur s p r ->
  exists ok p' s' cs, recvTimingReq cur r0 r p s = Ok (ok, p', s', cs) /\ ok = negb (isBusy s) /\ received cur s s' /\
    forall m0 acc ans, tracks m0 acc ans s -> tracks m0 (acc ++ if ok then [p] else []) ans s'.
Proof.
  intros Hcalm Hreq. pose proof Hreq as [Hs Hc [Hb1 Hb2] (Hcur & Hlat & Hr & Hmax)]. pose proof Hcalm as [Hm (Hbu & Hre & Hrel) Hq He].
  unfold recvTimingReq. rewrite (sv_quiet _ _ Hs). cbn [panic_if obind].
  assert (Erw : negb (isRead (cmd (pkt p)) || isWrite (cmd (pkt p))) = false).
  { apply orb_true_iff in Hc as [Hc | Hc]; [apply reading_facts in Hc | apply writing_facts in Hc].
    - by destruct Hc as (_ & _ & _ & _ & -> & _).
    - destruct Hc as (_ & _ & _ & _ & -> & _). by rewrite orb_true_r. }
  rewrite Erw. cbn [panic_if obind]. destruct (isBusy s) eqn:Ebusy; cbn [negb].
  { assert (Htr : forall m0 acc ans, tracks m0 acc ans s -> tracks m0 (acc ++ []) ans s) by (intros; by rewrite app_nil_r).
    destruct (retryReq s).
    - eexists false, _, s, _. split; [reflexivity |]. split; [done |]. split; [by apply received_refl | done].
    - eexists false, _, (set_retryReq true s), _. split; [reflexivity |]. split; [done |]. split; [| exact Htr].
      apply received_frame; try done. split; [cbn; congruence | done]. }
  destruct (retryReq s) eqn:Eretry; [by specialize (Hre eq_refl) |].
  assert (Hsize : getSize (set_payloadDelay 0 (set_headerDelay 0 (pkt p))) = Ok (psize (pkt p))).
  { unfold getSize. destruct Hs as [_ [Hz _] _ _ _ _ _ _ _ _]. change (flag_isSet VALID_SIZE (set_payloadDelay 0 (set_headerDelay 0 (pkt p)))) with (flag_isSet VALID_SIZE (pkt p)).
    by rewrite Hz. }
  cbn [pkt set_pkt]. rewrite Hsize. cbn [obind].
  destruct (occupied cur p s Hcalm) as (s1 & -> & Hrc & Em & Eq); [split; try done; split_and!; lia | done |]. cbn [obind].
  fold (arrived p). unfold recvAtomic. assert (Hcr : cacheResponding (pkt (arrived p)) = false) by exact (sv_quiet _ _ Hs).
  rewrite Hcr. cbn [panic_if obind]. rewrite Em.
  destruct (access_ok (arrived p) (sm_mem s) Hm (served_arrived _ _ Hs) Hc) as (p1 & m1 & cs & Ha & Hm1 & Erg & (Ea & Esec & Ev) & Hresp).
  rewrite Ha. cbn [obind]. set (s2 := set_sm_mem m1 s1).
  assert (Hrc2 : received cur s s2).
  { etrans; [exact Hrc |]. destruct (rc_calm _ _ _ Hrc) as [? ? ? ?]. apply received_frame; try done.
    split_and!; [done | done | done |]. cbn. by rewrite Em. }
  assert (Htr : forall m0 acc resps, serve_all acc m0 = Ok (resps, sm_mem s) ->
    serve_all (acc ++ [p]) m0 = Ok (resps ++ (if needsResponse (cmd (pkt p)) then [p1] else []), m1)).
  { intros m0 acc resps Hsv. by eapply serve_all_snoc. }
  destruct (needsResponse (cmd (pkt p))) eqn:En.
  - destruct (queue_response_ok cur (u32 (headerDelay (pkt p) + payloadDelay (pkt p))) r p1 s2) as (s3 & before & behind & when & E3 & Hrc3 & Em3 & Eq2 & Eq3 & Hent).
    + apply Hrc2.
    + rewrite Ev. exact (sv_addr _ _ Hs).
    + by apply Hresp.
    + done.
    + apply wrap_range; lia.
    + destruct (rc_params _ _ _ Hrc) as (El & _). cbn. by rewrite El.
    + done.
    + destruct (rc_params _ _ _ Hrc) as (El & _). cbn. by rewrite El.
    + rewrite E3. cbn [obind]. eexists true, _, s3, _. split; [reflexivity |]. split; [done |]. split; [by etrans |].
      intros m0 acc ans (resps & Hsv & Hk). exists (resps ++ [p1]). rewrite Em3. split; [by apply Htr |].
      rewrite Eq3. apply kept_entered; [done |]. rewrite <- Eq2. cbn. by rewrite Eq.
  - cbn [obind]. eexists true, _, s2, _. split; [reflexivity |]. split; [done |]. split; [done |].
    intros m0 acc ans (resps & Hsv & Hk). exists resps. cbn [sm_mem s2 set_sm_mem packetQueue]. rewrite Eq.
    split; [| done]. rewrite (Htr m0 acc _ Hsv). by rewrite app_nil_r.
Qed.

Lemma receive_all_ok cur ps : forall s, calm cur s -> (forall x, x ∈ ps -> request_ok cur s x.1.1 x.2) ->
  exists s' acc', receive_all cur ps s = Ok (s', acc') /\ received cur s s' /\
    forall m0 acc ans, tracks m0 acc ans s -> tracks m0 (acc ++ acc') ans s'.
Proof.
  induction ps as [| [[p r0] r] ps IH]; intros s Hc Hps; cbn [receive_all].
  { exists s, []. split; [done |]. split; [by apply received_refl |]. intros. by rewrite app_nil_r. }
  destruct (memory_recvTimingReq_ok cur r0 r p s Hc (Hps _ ltac:(left))) as (ok & p' & s1 & cs & -> & _ & Hr & Ht). cbn [obind].
  destruct (IH s1 (rc_calm _ _ _ Hr)) as (s2 & acc' & -> & Hr2 & Ht2).
  { intros x Hx. eapply request_ok_params; [apply Hr |]. apply Hps. by right. }
  cbn [obind]. eexists s2, _. split; [reflexivity |]. split; [by etrans |]. intros m0 acc ans Htr.
  specialize (Ht2 _ _ _ (Ht _ _ _ Htr)). destruct ok; [| by rewrite app_nil_r in Ht2]. by rewrite <- app_assoc in Ht2.
Qed.

(** Requests sent in the middle of a response: a peer that refuses a response for the
    first time sends none. *)
Definition nested_requests_ok (cur : Z) (s : SimpleMemory) (ps : list (MemPkt * Z * Z)) (ok : bool) : Prop :=
  (forall x, x ∈ ps -> request_ok cur s x.1.1 x.2) /\ (ok = false -> retryResp s = false -> ps = []).

Lemma tracks_answered m0 acc ans s s' d q : tracks m0 acc ans s -> packetQueue s = d :: q -> sm_mem s' = sm_mem s -> packetQueue s' = q ->
  tracks m0 acc (ans ++ [dr_pkt d]) s'.
Proof.
  intros (resps & Hs & [Ha Ho]) E E1 E2. exists resps. rewrite E1, E2. split; [done |]. rewrite E in *. cbn [map] in *.
  split; [by rewrite <- app_assoc |]. intros a sec. by rewrite <- app_assoc.
Qed.

Lemma dequeue_ok cur ps ok s d q : calm cur s -> packetQueue s = d :: q -> dr_tick d <= cur -> dequeueEvent s = None ->
  nested_requests_ok cur s ps ok ->
  exists s' acc' b, dequeue cur ps ok s = Ok (dr_pkt d, s', acc', b) /\ calm cur s' /\ mem_armed cur s' /\
    forall m0 acc ans, tracks m0 acc ans s -> tracks m0 (acc ++ acc') (if ok then ans ++ [dr_pkt d] else ans) s'.
Proof.
  intros Hc Hq Hd He [Hps Hno]. unfold dequeue. rewrite Hq.
  assert (Hnow : ok = false -> receive_all cur ps s = Ok (s, []) \/ retryResp s = true).
  { intros Eok. destruct (retryResp s); [by right | left]. by rewrite (Hno Eok eq_refl). }
  destruct (receive_all_ok cur ps s Hc Hps) as (s1 & acc' & Er & Hr & Ht). rewrite Er. cbn [obind].
  destruct (rc_front _ _ _ Hr d q Hq) as [q' Hq']. destruct (rc_calm _ _ _ Hr) as [Hm Hb Hv Hev]. rewrite Hq' in Hv.
  apply Forall_cons in Hv as [Hvd Hv]. destruct ok; cbn [negb].
  - cbn [packetQueue set_retryResp]. rewrite Hq'. destruct q' as [| d1 q'].
    + assert (Een : dequeueEvent s1 = None).
      { destruct (rc_grown _ _ _ Hr) as [Hlen Hsame]. rewrite Hq, Hq' in *. rewrite Hsame; [done |]. cbn in *. lia. }
      assert (Hdone : forall b, calm cur (set_sm_draining b (set_queue [] (set_retryResp false s1))) /\
        mem_armed cur (set_sm_draining b (set_queue [] (set_retryResp false s1)))) by (intros b; by split).
      destruct (sm_draining _) eqn:Edr; cbn in Edr; eexists _, acc', _; (split; [reflexivity |]).
      * destruct (Hdone false). split_and!; [done | done |]. intros m0 acc ans Htr. eapply tracks_answered; [by apply Ht | done | done | done].
      * split; [by split |]. split; [by split |]. intros m0 acc ans Htr. eapply tracks_answered; [by apply Ht | done | done | done].
    + unfold reschedule_always. destruct (Z.leb_spec cur (Z.max (dr_tick d1) cur)); [| lia]. cbn [assert_ obind].
      eexists _, acc', _. split; [reflexivity |]. split; [split; try done; cbn; intros t [= <-]; lia |]. split; [done |].
      intros m0 acc ans Htr. eapply tracks_answered; [by apply Ht | done | done | done].
  - eexists _, acc', _. split; [reflexivity |]. assert (Een : dequeueEvent s1 = None).
    { destruct (Hnow eq_refl) as [E | E]; [rewrite Er in E; by simplify_eq | by rewrite (rc_event _ _ _ Hr E)]. }
    split; [split; try done; cbn; rewrite Hq'; by constructor |]. split; [| done]. unfold mem_armed. cbn. by rewrite Hq'.
Qed.

(** * Steps *)

(** When a step may happen: events in the order of their ticks, requests the memory can
    serve, retries when one is due. *)
Definition mem_op_ok (x : mem_sys) (o : mem_op) : Prop :=
  let s := smem x in
  match o with
  | Request p r0 r => request_ok (now x) s p r
  | Release => exists t, releaseEvent s = Some t /\ forall e, dequeueEvent s = Some e -> t <= e
  | Dequeue ps ok => exists t, dequeueEvent s = Some t /\ (forall e, releaseEvent s = Some e -> t <= e) /\ nested_requests_ok t s ps ok
  | RespRetry ps ok => retryResp s = true /\ nested_requests_ok (now x) s ps ok
  | Drain => True
  | Wait t => now x <= t /\ (forall e, releaseEvent s = Some e -> t <= e) /\ forall e, dequeueEvent s = Some e -> t <= e
  end.

(** Histories of a new memory with the contents [m0]. *)
Inductive mem_reachable (m0 : AbstractMemory) : mem_sys -> Prop :=
  | mr_init lat var bw t : mem_ok m0 -> mem_reachable m0 (mkMemSys (new_SimpleMemory m0 lat var bw) t [] [])
  | mr_step x o x' : mem_reachable m0 x -> mem_op_ok x o -> mem_step x o = Ok x' -> mem_reachable m0 x'.

Record mem_inv (m0 : AbstractMemory) (x : mem_sys) : Prop := {
  mi_calm : calm (now x) (smem x);
  mi_armed : mem_armed (now x) (smem x);
  mi_tracks : tracks m0 (accepted x) (answered x) (smem x);
}.

Lemma calm_later now t s : calm now s -> (forall e, releaseEvent s = Some e -> t <= e) -> (forall e, dequeueEvent s = Some e -> t <= e) -> calm t s.
Proof. intros [H1 (H2 & H3 & _) H4 _] Hr He. by split. Qed.

Lemma mem_armed_later now t s : mem_armed now s -> now <= t -> (forall e, dequeueEvent s = Some e -> t <= e) -> mem_armed t s.
Proof.
  unfold mem_armed. destruct (packetQueue s) as [| d q]; [done |]. destruct (retryResp s).
  - intros [? ?] ? _. split; [done | lia].
  - intros E Hle He. specialize (He _ E). rewrite E. f_equal. lia.
Qed.

Lemma release_ok now t s : calm now s -> mem_armed now s -> now <= t -> releaseEvent s = Some t -> (forall e, dequeueEvent s = Some e -> t <= e) ->
  exists s' b, release (set_releaseEvent None s) = Ok (s', b) /\ calm t s' /\ mem_armed t s' /\ b = retryReq s /\
    isBusy s' = false /\ retryReq s' = false /\ forall m0 acc ans, tracks m0 acc ans s -> tracks m0 acc ans s'.
Proof.
  intros [H1 (H2 & H3 & H4) H5 H6] Ha Hle Hr He. apply (mem_armed_later _ t) in Ha; [| done | done].
  unfold release. cbn [isBusy set_releaseEvent]. rewrite H2, Hr. cbn [assert_ obind].
  cbn [retryReq set_busy set_releaseEvent]. destruct (retryReq s) eqn:E; eexists _, _; (split; [reflexivity |]);
    (split; [split; [done | split; [done | split; [cbn; congruence | done]] | done | done] |]); split_and!; done.
Qed.

Lemma mem_step_ok m0 x o : mem_inv m0 x -> mem_op_ok x o -> exists x', mem_step x o = Ok x' /\ mem_inv m0 x'.
Proof.
  intros [Hc Ha Ht] Hok. destruct o as [p r0 r | | ps ok | ps ok | | t]; cbn [mem_step mem_op_ok] in *.
  - destruct (memory_recvTimingReq_ok (now x) r0 r p (smem x) Hc Hok) as (ok & p' & s' & cs & -> & _ & Hr & Htr). cbn [obind].
    eexists. split; [reflexivity |]. split; [apply Hr | by apply (rc_armed _ _ _ Hr) |]. cbn. apply Htr in Ht. destruct ok; [done |].
    by rewrite app_nil_r in Ht.
  - destruct Hok as (t & Er & He). rewrite Er. assert (Hle : now x <= t) by (destruct (ca_busy _ _ Hc) as (_ & _ & H); by apply H).
    destruct (release_ok (now x) t (smem x) Hc Ha Hle Er He) as (s' & b & -> & Hc' & Ha' & _ & _ & _ & Htr). cbn [obind].
    eexists. split; [reflexivity |]. split; [done | done | by apply Htr].
  - destruct Hok as (t & Ed & He & Hn). rewrite Ed. assert (Hle : now x <= t) by (by apply (ca_event _ _ Hc)).
    assert (Hq : exists d q, packetQueue (smem x) = d :: q /\ retryResp (smem x) = false /\ dr_tick d <= t).
    { unfold mem_armed in Ha. destruct (packetQueue (smem x)) as [| d q]; [destruct Ha; congruence |].
      destruct (retryResp (smem x)); [destruct Ha; congruence |]. rewrite Ed in Ha. injection Ha as ->. exists d, q. split; [done |]. split; [done | lia]. }
    destruct Hq as (d & q & Eq & Er & Hd).
    assert (Hc' : calm t (set_dequeueEvent None (smem x))).
    { apply (calm_later _ t) in Hc as [? ? ? ?]; [by split | done |]. intros e E. rewrite Ed in E. injection E as ->. lia. }
    assert (Hn' : nested_requests_ok t (set_dequeueEvent None (smem x)) ps ok).
    { destruct Hn as [H1 H2]. split; [| done]. intros y Hy. eapply request_ok_params; [| by apply H1]. done. }
    destruct (dequeue_ok t ps ok (set_dequeueEvent None (smem x)) d q Hc' Eq Hd eq_refl Hn') as (s' & acc' & b & -> & Hcs & Has & Htr).
    unfold after_dequeue. cbn [obind]. eexists. split; [reflexivity |]. split; [done | done |]. apply Htr in Ht. cbn. by destruct ok.
  - destruct Hok as [Er Hn]. unfold recvRespRetry. rewrite Er. cbn [assert_ obind]. unfold mem_armed in Ha. rewrite Er in Ha.
    destruct (packetQueue (smem x)) as [| d q] eqn:Eq; [by destruct Ha |]. destruct Ha as [He Hd].
    destruct (dequeue_ok (now x) ps ok (smem x) d q Hc Eq Hd He Hn) as (s' & acc' & b & -> & Hcs & Has & Htr).
    unfold after_dequeue. cbn [obind]. eexists. split; [reflexivity |]. split; [done | done |]. apply Htr in Ht. cbn. by destruct ok.
  - eexists. split; [reflexivity |]. unfold sm_drain. case_bool_decide; [| by split]. split; [by destruct Hc | done | done].
  - destruct Hok as (Hle & Hr & He). eexists. split; [reflexivity |]. split; [by eapply calm_later | by eapply mem_armed_later | done].
Qed.

Lemma mem_reachable_inv m0 x : mem_reachable m0 x -> mem_inv m0 x.
Proof.
  induction 1 as [lat var bw t Hm | x o x' _ IH Hok Hstep].
  - split; [split; try done; by split | done |]. exists []. by split; [| split].
  - destruct (mem_step_ok m0 x o IH Hok) as (x1 & E & H). rewrite E in Hstep. by simplify_eq.
Qed.

(** C21: a memory controller that takes its requests in time serves them as if each had
    been served alone: after any history of requests, retries, events, refused responses
    and requests sent in the middle of a response, its bytes and reservations are those
    that the accepted requests leave when they are served one after the other in the
    order of acceptance; the responses it has sent and those that wait are the responses
    of these accesses, none lost or sent twice, and the responses for an address are
    sent in their order. *)
Theorem timing_is_atomic m0 x : mem_reachable m0 x ->
  exists resps, serve_all (accepted x) m0 = Ok (resps, sm_mem (smem x)) /\
    answered x ++ map dr_pkt (packetQueue (smem x)) ≡ₚ resps /\
    forall a sec, filter (fun p => to a sec p = true) (answered x) `prefix_of` filter (fun p => to a sec p = true) resps.
Proof.
  intros [_ _ (resps & Hs & [Ha Ho])]%mem_reachable_inv. exists resps. split; [done |]. split; [done |]. intros a sec.
  rewrite <- Ho, filter_app. by eexists.
Qed.


(** * Examples *)

Definition ex_controller : mem_sys := mkMemSys (new_SimpleMemory ex_memory 30 10 (fun n => n)) 100 [] [].
Definition ex_word (c : Command) (a : Z) : MemPkt := ex_access c a [1; 2; 3; 4] 0.

Lemma ex_memory_ok : mem_ok ex_memory.
Proof. split; [by eexists | done | by split; constructor]. Qed.

Lemma ex_request_ok c a cur r s : isSubset (RangeSize a 4) (range (sm_mem s)) = Ok true -> reading c || writing c = true ->
  0 <= bandwidth s 4 < 1000 -> 0 <= cur < 1000 -> 0 <= r < 1000 -> 0 <= latency s < 1000 -> request_ok cur s (ex_word c a) r.
Proof.
  intros Hi Hc Hb Hcur Hr Hl. split; [by apply ex_access_served | done | cbn [psize pkt ex_word ex_access length]; change (Z.of_nat 4) with 4; lia |].
  change (headerDelay _ + payloadDelay _) with 0. change (u32 0) with 0. lia.
Qed.

(** A write, and a read that the memory refuses since it is busy. *)
Definition after (x : mem_sys) (o : mem_op) : mem_sys := match mem_step x o with Ok x => x | Err _ => x end.
Definition ex_write_op : mem_op := Request (ex_word WriteReq 0x80000010) 0 5.
Definition ex_read_op : mem_op := Request (ex_word ReadReq 0x80000010) 0 0.
Definition ex_written : mem_sys := after ex_controller ex_write_op.
Definition ex_refused : mem_sys := after ex_written ex_read_op.

Lemma ex_written_reachable : mem_reachable ex_memory ex_written.
Proof.
  apply (mr_step ex_memory ex_controller ex_write_op); [apply mr_init, ex_memory_ok | | vm_compute; reflexivity].
  apply ex_request_ok; vm_compute; intuition congruence.
Qed.

Lemma ex_refused_reachable : mem_reachable ex_memory ex_refused.
Proof.
  apply (mr_step ex_memory ex_written ex_read_op); [apply ex_written_reachable | | vm_compute; reflexivity].
  apply ex_request_ok; vm_compute; intuition congruence.
Qed.

Lemma timing_is_atomic_witness : exists resps, accepted ex_refused = [ex_word WriteReq 0x80000010] /\
  serve_all [ex_word WriteReq 0x80000010] ex_memory = Ok (resps, sm_mem (smem ex_refused)) /\
  map dr_pkt (packetQueue (smem ex_refused)) ≡ₚ resps.
Proof.
  destruct (timing_is_atomic ex_memory ex_refused ex_refused_reachable) as (resps & Hs & Ha & _).
  exists resps. split; [vm_compute; reflexivity |]. split; [exact Hs | exact Ha].
Defined.


(** A response that is due before the first one of the queue waits behind it: the search
    stops at the first packet without looking at it. *)
Definition ex_late : SimpleMemory := set_queue [mkDeferredResp 500 (ex_word ReadResp 0x80000010)] (set_dequeueEvent (Some 500) (smem ex_controller)).
Example front_never_passed :
  match recvTimingReq 100 0 0 (ex_word ReadReq 0x80000020) ex_late with
  | Ok (ok, _, s, _) => ok = true /\ map dr_tick (packetQueue s) = [500; 130] /\ dequeueEvent s = Some 500
  | Err _ => False
  end.
Proof. vm_compute. auto. Qed.

(** A peer that refuses a response and sends a request in the same call: the memory sends
    the response again without waiting for the retry, which then fails an assertion. *)
Definition ex_due : SimpleMemory := set_queue [mkDeferredResp 100 (ex_word ReadResp 0x80000010)] (smem ex_controller).
Example refused_with_request :
  match dequeue 100 [(ex_word ReadReq 0x80000020, 0, 0)] false ex_due with
  | Ok (_, s, _, _) => retryResp s = true /\ dequeueEvent s = Some 130 /\
      match dequeue 130 [] true (set_dequeueEvent None s) with
      | Ok (_, s, _, _) => recvRespRetry 140 [] true s = Err AssertFail
      | Err _ => False
      end
  | Err _ => False
  end.
Proof. vm_compute. auto. Qed.
