(* ===== verification/Functional.v ===== *)
(** Functional accesses, which take no time: [Packet::trySatisfyFunctional] of
    [src/gem5/src/mem/packet.cc] and [packet.hh], and the functional handlers of the
    packet queues ([packet_queue.cc]), the simple ports ([tport.cc]), the bridge
    ([PciBridge.cc]), the crossbars ([cxl_host_xbar.cc], [coherent_xbar.cc]) and the
    memory controller ([simple_mem.cc]).

    A functional access looks for its bytes in the packets that are on their way before
    it goes on to the memory.  A read notes which of its bytes it has found; a write
    changes the packets it meets and goes on. *)
From Stdlib Require Import ZArith Lia.
From stdpp Require Import base numbers list gmap.
From S2P Require Import Prelude AddrRange AddrRangeMap MemPacket SnoopFilter XBar HostXBar AbstractMem SimpleMem.

Open Scope Z_scope.

(** A packet with its [bytesValid]. *)
Record FuncPkt : Type := mkFuncPkt {
  fp : MemPkt;
  bytesValid : list bool;
}.

Definition set_fp (v : MemPkt) (p : FuncPkt) : FuncPkt := mkFuncPkt v (bytesValid p).
Definition set_bytesValid (v : list bool) (p : FuncPkt) : FuncPkt := mkFuncPkt (fp p) v.

(** [n] bytes of [src] from [i], copied over [dst] at [j]; out of bounds is undefined. *)
Definition copy {A} (src : list A) (i : Z) (dst : list A) (j n : Z) : outcome (list A) :=
  if (Z.of_nat (length src) <? i + n) || (Z.of_nat (length dst) <? j + n) then Err Undefined
  else Ok (take (Z.to_nat j) dst ++ take (Z.to_nat n) (drop (Z.to_nat i) src) ++ drop (Z.to_nat (j + n)) dst).

(** [bool trySatisfyFunctional(Printable *obj, Addr addr, bool is_secure, int size,
    uint8_t *_data)]: whether the read is complete, the packet, and the value. *)
Definition try_value (val_start size : Z) (is_secure : bool) (_data : option (list Z)) (p : FuncPkt)
    : outcome (bool * FuncPkt * option (list Z)) :=
  let k := pkt (fp p) in
  let! func_start := getAddr k in
  let! n := getSize k in
  let func_end := u64 (func_start + n - 1) in
  let val_end := u64 (val_start + size - 1) in
  if negb (eqb is_secure (_isSecure k)) || (val_end <? func_start) || (func_end <? val_start) then Ok (false, p, _data)
  else if isPrint (cmd k) then do! assert_ (negb (bool_decide (is_Some _data))) then Ok (false, p, _data)
  else
    match _data with
    | None => Ok (false, p, None)
    | Some d =>
        let val_offset := if val_start <? func_start then func_start - val_start else 0 in
        let func_offset := if func_start <? val_start then val_start - func_start else 0 in
        let overlap_size := u64 (u64 (Z.min val_end func_end + 1) - Z.max val_start func_start) in
        if isRead (cmd k) then
          let! buf := getPtr (fp p) in
          let! buf := copy d val_offset buf func_offset overlap_size in
          let valid := match bytesValid p with [] => repeat false (Z.to_nat n) | v => v end in
          let! valid := copy (repeat true (Z.to_nat overlap_size)) 0 valid func_offset overlap_size in
          do! (if Z.of_nat (length valid) <? n then Err Undefined else Ok tt) then
          Ok (forallb (fun b => b) (take (Z.to_nat func_offset) valid) &&
                forallb (fun b => b) (take (Z.to_nat (n - (func_offset + overlap_size))) (drop (Z.to_nat (func_offset + overlap_size)) valid)),
              mkFuncPkt (set_data (Some buf) (fp p)) valid, Some d)
        else if isWrite (cmd k) then
          let! buf := getConstPtr (fp p) in
          let! d := copy buf func_offset d val_offset overlap_size in
          Ok (false, p, Some d)
        else Err Panic
    end.

(** [bool trySatisfyFunctional(PacketPtr other)], with the other packet after it. *)
Definition try_packet (other : MemPkt) (p : FuncPkt) : outcome (bool * FuncPkt * MemPkt) :=
  if isMaskedWrite other then Ok (false, p, other)
  else
    let! a := getAddr (pkt other) in
    let! s := isSecure (pkt other) in
    let! n := getSize (pkt other) in
    let! d := (if hasData (cmd (pkt other)) then let! d := getPtr other in Ok (Some d) else Ok None) in
    let! (found, p, d) := try_value a n s d p in
    Ok (found, p, match d with Some d => set_data (Some d) other | None => other end).

(** The loops over the packets of a queue: [PacketQueue::trySatisfyFunctional], and those
    of the bridge and the memory controller. *)
Fixpoint try_queue (q : list MemPkt) (p : FuncPkt) : outcome (bool * FuncPkt * list MemPkt) :=
  match q with
  | [] => Ok (false, p, [])
  | o :: q =>
      let! (found, p, o) := try_packet o p in
      if (found : bool) then Ok (true, p, o :: q)
      else let! (found, p, q) := try_queue q p in Ok (found, p, o :: q)
  end.

Definition answer_functional (p : FuncPkt) : outcome FuncPkt :=
  let! q := makeResponse (pkt (fp p)) in Ok (set_fp (set_pkt q (fp p)) p).

(** * The memory controller *)

(** [void SimpleMemory::recvFunctional(PacketPtr pkt)]. *)
Definition put_back (q : list MemPkt) (ds : list Deferred) : list Deferred :=
  zip_with (fun k d => mkDeferredResp (dr_tick d) k) q ds.
Definition mem_recvFunctional (p : FuncPkt) (s : SimpleMemory) : outcome (FuncPkt * SimpleMemory) :=
  let! (k, m) := functionalAccess (fp p) (sm_mem s) in
  let! (_, p, q) := try_queue (map dr_pkt (packetQueue s)) (set_fp k p) in
  Ok (p, set_queue (put_back q (packetQueue s)) (set_sm_mem m s)).

Section ports.
Context {W : Type}.

(** * Simple ports *)

(** [void SimpleTimingPort::recvFunctional(PacketPtr pkt)]: the device behind the port is
    [recvAtomic]. *)
Definition port_recvFunctional (recvAtomic : FuncPkt -> W -> outcome (FuncPkt * W)) (p : FuncPkt) (q : list MemPkt) (w : W)
    : outcome (FuncPkt * list MemPkt * W) :=
  let! (found, p, q) := try_queue q p in
  if (found : bool) then Ok (p, q, w) else let! (p, w) := recvAtomic p w in Ok (p, q, w).

(** * The bridge *)

(** [bool PciBridgeMasterPort::trySatisfyFunctional(PacketPtr pkt)], on the packets of
    its list. *)
Definition master_trySatisfy (q : list MemPkt) (p : FuncPkt) : outcome (bool * FuncPkt * list MemPkt) :=
  let! (found, p, q) := try_queue q p in
  if (found : bool) then let! p := answer_functional p in Ok (true, p, q) else Ok (false, p, q).

(** [void PciBridgeSlavePort::recvFunctional(PacketPtr pkt)], with the responses of the
    slave port and the requests of the master port that the address belongs to. *)
Definition bridge_recvFunctional (sendFunctional : FuncPkt -> W -> outcome (FuncPkt * W)) (p : FuncPkt)
    (resps reqs : list MemPkt) (w : W) : outcome (FuncPkt * list MemPkt * list MemPkt * W) :=
  let! (found, p, resps) := try_queue resps p in
  if (found : bool) then let! p := answer_functional p in Ok (p, resps, reqs, w)
  else
    let! (found, p, reqs) := master_trySatisfy reqs p in
    if (found : bool) then Ok (p, resps, reqs, w)
    else let! (p, w) := sendFunctional p w in Ok (p, resps, reqs, w).

(** * The crossbars *)

(** [find] is the [findPort] of the crossbar; the queues are those of the responses of
    the ports above, in the order of the ports. *)
Variable find : Packet -> HostXBar -> outcome (Z * Packet * HostXBar).
Variable sendFunctionalSnoop : ResponsePort -> FuncPkt -> W -> outcome (FuncPkt * W).
Variable sendFunctional : Z -> FuncPkt -> W -> outcome (FuncPkt * W).

(** The loop of [forwardFunctional]. *)
Fixpoint functional_loop (exclude : Z) (ports : list ResponsePort) (p : FuncPkt) (w : W) : outcome (FuncPkt * W) :=
  match ports with
  | [] => Ok (p, w)
  | port :: ports =>
      let! (p, w) :=
        (if (exclude =? InvalidPortID) || negb (getId port =? exclude) then sendFunctionalSnoop port p w else Ok (p, w)) in
      if isResponse (cmd (pkt (fp p))) then Ok (p, w) else functional_loop exclude ports p w
  end.

(** [void forwardFunctional(PacketPtr pkt, PortID exclude_cpu_side_port_id)]. *)
Definition forwardFunctional (p : FuncPkt) (exclude : Z) (x : HostXBar) (w : W) : outcome (FuncPkt * W) :=
  do! assert_ (negb (bypassCaches x)) then functional_loop exclude (snoopPorts x) p w.

(** The search of the queues of the ports above. *)
Fixpoint try_ports (qs : list (list MemPkt)) (p : FuncPkt) : outcome (bool * FuncPkt * list (list MemPkt)) :=
  match qs with
  | [] => Ok (false, p, [])
  | q :: qs =>
      let! (found, p, q) := try_queue q p in
      if (found : bool) then
        let! p := (if needsResponse (cmd (pkt (fp p))) then answer_functional p else Ok p) in Ok (true, p, q :: qs)
      else let! (found, p, qs) := try_ports qs p in Ok (found, p, q :: qs)
  end.

(** [void recvFunctional(PacketPtr pkt, PortID cpu_side_port_id)]. *)
Definition recvFunctional (p : FuncPkt) (cpu_side_port_id : Z) (x : HostXBar) (qs : list (list MemPkt)) (w : W)
    : outcome (FuncPkt * HostXBar * list (list MemPkt) * W) :=
  let! (p, w) := (if negb (bypassCaches x) then forwardFunctional p cpu_side_port_id x w else Ok (p, w)) in
  if negb (isResponse (cmd (pkt (fp p)))) then
    let! (found, p, qs) := try_ports qs p in
    if (found : bool) then Ok (p, x, qs, w)
    else
      let! (dest_id, k, x) := find (pkt (fp p)) x in
      let! (p, w) := sendFunctional dest_id (set_fp (set_pkt k (fp p)) p) w in
      Ok (p, x, qs, w)
  else Ok (p, x, qs, w).

(** [void recvFunctionalSnoop(PacketPtr pkt, PortID mem_side_port_id)]. *)
Definition recvFunctionalSnoop (p : FuncPkt) (x : HostXBar) (qs : list (list MemPkt)) (w : W)
    : outcome (FuncPkt * list (list MemPkt) * W) :=
  let! (found, p, qs) := try_ports qs p in
  if (found : bool) then Ok (p, qs, w)
  else let! (p, w) := forwardFunctional p InvalidPortID x w in Ok (p, qs, w).
End ports.

(** * Copies *)

Lemma copy_ok {A} (src : list A) i dst j n (x : A) : 0 <= i -> 0 <= j -> 0 <= n ->
  i + n <= Z.of_nat (length src) -> j + n <= Z.of_nat (length dst) ->
  exists r, copy src i dst j n = Ok r /\ length r = length dst /\
    forall k, 0 <= k < Z.of_nat (length dst) -> nth (Z.to_nat k) r x =
      if (j <=? k) && (k <? j + n) then nth (Z.to_nat (i + (k - j))) src x else nth (Z.to_nat k) dst x.
Proof.
  intros Hi Hj Hn H1 H2. unfold copy. destruct (Z.ltb_spec (Z.of_nat (length src)) (i + n)); [lia |].
  destruct (Z.ltb_spec (Z.of_nat (length dst)) (j + n)); [lia |]. cbn [orb].
  set (mid := take (Z.to_nat n) (drop (Z.to_nat i) src)).
  assert (Hmid : length mid = Z.to_nat n) by (unfold mid; rewrite length_take, length_drop; lia).
  eexists. split; [reflexivity |].
  assert (Hhd : length (take (Z.to_nat j) dst) = Z.to_nat j) by (rewrite length_take; lia).
  split; [rewrite !length_app, length_drop, Hhd, Hmid; lia |]. intros k Hk.
  destruct (Z.leb_spec j k); cbn [andb].
  - rewrite app_nth2 by lia. rewrite Hhd. destruct (Z.ltb_spec k (j + n)).
    + rewrite app_nth1 by lia. unfold mid. rewrite !nth_lookup, lookup_take_lt by lia. rewrite lookup_drop. f_equal. f_equal. lia.
    + rewrite app_nth2 by lia. rewrite Hmid, !nth_lookup, lookup_drop. f_equal. f_equal. lia.
  - rewrite app_nth1 by lia. rewrite !nth_lookup, lookup_take_lt by lia. done.
Qed.

Lemma forallb_nth l : forallb (fun b => b) l = true <-> forall k, (k < length l)%nat -> nth k l false = true.
Proof.
  split.
  - intros H k Hk. rewrite forallb_forall in H. apply H, nth_In, Hk.
  - intros H. apply forallb_forall. intros b Hb. destruct (In_nth _ _ false Hb) as (k & Hk & <-). by apply H.
Qed.

(** * Packets with bytes *)

Record sized (p : MemPkt) : Prop := {
  sz_addr : flag_isSet VALID_ADDR (pkt p) = true;
  sz_size : flag_isSet VALID_SIZE (pkt p) = true;
  sz_range : 0 <= addr (pkt p) /\ 0 < psize (pkt p) < 2 ^ 32 /\ addr (pkt p) + psize (pkt p) <= 2 ^ 64;
  sz_data : exists d, data p = Some d /\ Z.of_nat (length d) = psize (pkt p);
}.

Definition covers (p : MemPkt) (a : Z) : bool := (addr (pkt p) <=? a) && (a <? addr (pkt p) + psize (pkt p)).
Definition byte_of (p : MemPkt) (a : Z) : Z := nth (Z.to_nat (a - addr (pkt p))) (buffer p) 0.

(** The packets that a functional access looks into. *)
Definition speaks (p o : MemPkt) : bool :=
  negb (isMaskedWrite o) && hasData (cmd (pkt o)) && eqb (_isSecure (pkt o)) (_isSecure (pkt p)).
Definition gives (p o : MemPkt) (a : Z) : option Z := if speaks p o && covers o a then Some (byte_of o a) else None.

(** The byte of the last packet that has one. *)
Fixpoint last_gives (p : MemPkt) (q : list MemPkt) (a : Z) : option Z :=
  match q with
  | [] => None
  | o :: q => match last_gives p q a with Some b => Some b | None => gives p o a end
  end.

Lemma buffer_length p : sized p -> Z.of_nat (length (buffer p)) = psize (pkt p).
Proof. intros [_ _ _ (d & Hd & Hl)]. unfold buffer. by rewrite Hd. Qed.

(** The overlap of two packets, from the start of each. *)
Definition lo (p o : MemPkt) : Z := Z.max (addr (pkt o)) (addr (pkt p)).
Definition hi (p o : MemPkt) : Z := Z.min (addr (pkt o) + psize (pkt o)) (addr (pkt p) + psize (pkt p)).

Lemma no_overlap p o a : hi p o <= lo p o -> covers p a = true -> gives p o a = None.
Proof.
  unfold gives, covers, lo, hi. intros H [H1%Z.leb_le H2%Z.ltb_lt]%andb_true_iff.
  destruct (Z.leb_spec (addr (pkt o)) a), (Z.ltb_spec a (addr (pkt o) + psize (pkt o))); cbn; rewrite ?andb_false_r; try done. lia.
Qed.

Section two.
Variables (p : FuncPkt) (o : MemPkt).
Hypothesis Hp : sized (fp p).
Hypothesis Ho : sized o.
#[local] Abbreviation P := (fp p).

Lemma overlap_test : let vs := addr (pkt o) in let fs := addr (pkt P) in
  (u64 (vs + psize (pkt o) - 1) <? fs) || (u64 (fs + psize (pkt P) - 1) <? vs) = (hi P o <=? lo P o).
Proof.
  destruct Hp as [_ _ (? & ? & ?) _], Ho as [_ _ (? & ? & ?) _]. cbv zeta.
  rewrite !(wrap_small 64) by (unfold in_width; lia). unfold hi, lo.
  destruct (Z.ltb_spec (addr (pkt o) + psize (pkt o) - 1) (addr (pkt P))), (Z.ltb_spec (addr (pkt P) + psize (pkt P) - 1) (addr (pkt o))),
    (Z.leb_spec (Z.min (addr (pkt o) + psize (pkt o)) (addr (pkt P) + psize (pkt P))) (Z.max (addr (pkt o)) (addr (pkt P)))); cbn; lia.
Qed.

Lemma overlap_length : lo P o < hi P o ->
  u64 (u64 (Z.min (u64 (addr (pkt o) + psize (pkt o) - 1)) (u64 (addr (pkt P) + psize (pkt P) - 1)) + 1) -
       Z.max (addr (pkt o)) (addr (pkt P))) = hi P o - lo P o.
Proof.
  intros H. destruct Hp as [_ _ (? & ? & ?) _], Ho as [_ _ (? & ? & ?) _].
  rewrite (wrap_small 64 (addr (pkt o) + psize (pkt o) - 1)), (wrap_small 64 (addr (pkt P) + psize (pkt P) - 1)) by (unfold in_width; lia).
  unfold hi, lo in *. set (e := Z.min _ _ + 1).
  destruct (decide (e = 2 ^ 64)) as [E | E].
  - rewrite E. unfold u64, wrap. rewrite Z.mod_same by lia. rewrite <- (Z.mod_add _ 1) by lia. rewrite Z.mod_small by (unfold e in *; lia). unfold e in *. lia.
  - rewrite (wrap_small 64 e) by (unfold in_width, e in *; lia). rewrite wrap_small by (unfold in_width, e in *; lia). unfold e. lia.
Qed.
End two.

(** * Reads *)

Record searching (p : FuncPkt) : Prop := {
  se_sized : sized (fp p);
  se_read : isRead (cmd (pkt (fp p))) = true;
  se_valid : bytesValid p = [] \/ Z.of_nat (length (bytesValid p)) = psize (pkt (fp p));
}.

Definition valid_at (p : FuncPkt) (i : Z) : bool := nth (Z.to_nat i) (bytesValid p) false.
Definition in_packet (p : FuncPkt) (i : Z) : Prop := 0 <= i < psize (pkt (fp p)).
Definition same_frame (p p' : FuncPkt) : Prop := exists d v, p' = mkFuncPkt (set_data (Some d) (fp p)) v.
Definition incomplete (p : FuncPkt) : Prop := exists i, in_packet p i /\ valid_at p i = false.

(** What a read has found in some packets: [g] is the byte they have for an address. *)
Definition found_in (g : Z -> option Z) (p p' : FuncPkt) : Prop := forall i, in_packet p i ->
  nth (Z.to_nat i) (buffer (fp p')) 0 = default (nth (Z.to_nat i) (buffer (fp p)) 0) (g (addr (pkt (fp p)) + i)) /\
  valid_at p' i = valid_at p i || bool_decide (is_Some (g (addr (pkt (fp p)) + i))).

Lemma reading_command c : isRead c = true -> isPrint c = false /\ c <> WriteReq.
Proof. by destruct c. Qed.

Lemma same_frame_refl p : sized (fp p) -> same_frame p p.
Proof. intros [_ _ _ (d & Hd & _)]. exists d, (bytesValid p). destruct p as [[] ?]; cbn in *. by subst. Qed.

Lemma set_same_data o d : data o = Some d -> set_data (Some d) o = o.
Proof. destruct o; cbn. by intros ->. Qed.

Section read.
Variables (p : FuncPkt) (o : MemPkt).
Hypothesis Hp : searching p.
Hypothesis Ho : sized o.
#[local] Abbreviation P := (fp p).

(** A packet that has no byte of the read, or does not speak of it. *)
Lemma try_packet_skip : speaks P o = false \/ hi P o <= lo P o -> try_packet o p = Ok (false, p, o).
Proof.
  intros Hs. unfold try_packet. destruct (isMaskedWrite o) eqn:Em; [done |].
  pose proof Ho as [Ha Hz _ (d & Hd & _)]. pose proof (se_sized _ Hp) as Hsz. pose proof Hsz as [Hpa Hpz _ _].
  destruct (reading_command _ (se_read _ Hp)) as [Hpr _].
  unfold isSecure, getAddr, getSize, getPtr. rewrite Ha, Hz, Hd, Em. cbn [assert_ obind get negb].
  assert (Ht : forall dd, try_value (addr (pkt o)) (psize (pkt o)) (_isSecure (pkt o)) dd p =
    if negb (eqb (_isSecure (pkt o)) (_isSecure (pkt P))) || (hi P o <=? lo P o) then Ok (false, p, dd)
    else match dd with None => Ok (false, p, None) | Some _ => try_value (addr (pkt o)) (psize (pkt o)) (_isSecure (pkt o)) dd p end).
  { intros dd. unfold try_value, getAddr, getSize. rewrite Hpa, Hpz, Hpr. cbn [assert_ obind].
    rewrite <- orb_assoc, (overlap_test p o Hsz Ho). destruct (negb _ || _); [done |]. by destruct dd. }
  unfold speaks in Hs. rewrite Em in Hs. cbn [negb andb] in Hs. destruct (hasData (cmd (pkt o))); cbn [andb obind] in *.
  - rewrite Ht. assert (E : negb (eqb (_isSecure (pkt o)) (_isSecure (pkt P))) || (hi P o <=? lo P o) = true).
    { destruct Hs as [-> | Hs]; [done |]. apply Z.leb_le in Hs. rewrite Hs. apply orb_true_r. }
    rewrite E. cbn [obind]. by rewrite (set_same_data o d Hd).
  - rewrite Ht. by destruct (negb _ || _).
Qed.

Lemma gives_in i : speaks P o = true -> in_packet p i ->
  gives P o (addr (pkt P) + i) = if (lo P o <=? addr (pkt P) + i) && (addr (pkt P) + i <? hi P o) then Some (byte_of o (addr (pkt P) + i)) else None.
Proof.
  intros Hs Hi. unfold gives. rewrite Hs. unfold covers, lo, hi, in_packet in *. cbn [andb].
  destruct (Z.leb_spec (addr (pkt o)) (addr (pkt P) + i)), (Z.leb_spec (Z.max (addr (pkt o)) (addr (pkt P))) (addr (pkt P) + i)),
    (Z.ltb_spec (addr (pkt P) + i) (addr (pkt o) + psize (pkt o))),
    (Z.ltb_spec (addr (pkt P) + i) (Z.min (addr (pkt o) + psize (pkt o)) (addr (pkt P) + psize (pkt P)))); done || lia.
Qed.

Lemma try_packet_hit : speaks P o = true -> lo P o < hi P o -> exists found p',
  try_packet o p = Ok (found, p', o) /\ same_frame p p' /\ Z.of_nat (length (bytesValid p')) = psize (pkt P) /\
  Z.of_nat (length (buffer (fp p'))) = psize (pkt P) /\ found_in (gives P o) p p' /\
  (found = true <-> forall i, in_packet p i -> valid_at p' i = true).
Proof.
  intros Hsp Hov. pose proof (se_sized _ Hp) as Hsz. pose proof Hsz as [Hpa Hpz (Hr1 & Hr2 & Hr3) (buf & Hbuf & Hlbuf)].
  pose proof Ho as [Ha Hz (Ho1 & Ho2 & Ho3) (d & Hd & Hld)]. destruct (reading_command _ (se_read _ Hp)) as [Hpr Hnw].
  unfold try_packet. pose proof Hsp as Hs. unfold speaks in Hs. apply andb_true_iff in Hs as [[Em%negb_true_iff Hh]%andb_true_iff Hsec].
  rewrite Em. unfold isSecure, getAddr, getSize. rewrite Ha, Hz, Hh. unfold getPtr at 1. rewrite Hd, Em. cbn [assert_ obind get negb].
  unfold try_value, getAddr, getSize. rewrite Hpa, Hpz, Hpr, Hsec. cbn [assert_ obind negb orb].
  rewrite (overlap_test p o Hsz Ho). destruct (Z.leb_spec (hi P o) (lo P o)); [lia |].
  cbv zeta. rewrite (overlap_length p o Hsz Ho Hov), (se_read _ Hp). unfold getPtr, isMaskedWrite. rewrite Hbuf, (bool_decide_eq_false_2 _ Hnw).
  cbn [get obind andb negb assert_].
  set (vo := if addr (pkt o) <? addr (pkt P) then addr (pkt P) - addr (pkt o) else 0).
  set (fo := if addr (pkt P) <? addr (pkt o) then addr (pkt o) - addr (pkt P) else 0).
  assert (Hoff : vo = lo P o - addr (pkt o) /\ fo = lo P o - addr (pkt P)).
  { unfold vo, fo, lo. destruct (Z.ltb_spec (addr (pkt o)) (addr (pkt P))), (Z.ltb_spec (addr (pkt P)) (addr (pkt o))); lia. }
  destruct Hoff as [Evo Efo]. set (ov := hi P o - lo P o) in *.
  assert (Hb : 0 <= vo /\ 0 <= fo /\ 0 <= ov /\ vo + ov <= psize (pkt o) /\ fo + ov <= psize (pkt P)) by (unfold ov, hi, lo in *; lia).
  destruct (copy_ok d vo buf fo ov 0) as (r & -> & Hlr & Hnr); [lia | lia | lia | lia | lia |]. cbn [obind].
  set (valid := match bytesValid p with [] => repeat false (Z.to_nat (psize (pkt P))) | v => v end).
  assert (Hvalid : Z.of_nat (length valid) = psize (pkt P) /\ forall i, in_packet p i -> nth (Z.to_nat i) valid false = valid_at p i).
  { unfold valid, valid_at. destruct (bytesValid p) as [| b v] eqn:Ev.
    - rewrite repeat_length. split; [lia |]. intros i Hi. rewrite nth_repeat. by destruct (Z.to_nat i).
    - destruct (se_valid _ Hp) as [E | E]; rewrite Ev in E; done. }
  destruct Hvalid as [Hlv Hnv].
  destruct (copy_ok (repeat true (Z.to_nat ov)) 0 valid fo ov false) as (v' & -> & Hlv' & Hnv'); [lia | lia | lia | rewrite repeat_length; lia | lia |].
  cbn [obind]. destruct (Z.ltb_spec (Z.of_nat (length v')) (psize (pkt P))); [lia |]. cbn [obind]. rewrite (set_same_data o d Hd).
  eexists _, _. split; [reflexivity |]. split; [by eexists _, _ |]. cbn [bytesValid fp set_data data buffer].
  split; [lia |]. split; [unfold buffer; cbn; lia |]. split.
  - intros i Hi. rewrite (gives_in i Hsp Hi). unfold valid_at. cbn [bytesValid]. unfold buffer. cbn [data set_data fp]. unfold in_packet in Hi.
    cbn [default]. rewrite Hbuf. cbn [default]. rewrite Hnr, Hnv' by lia. rewrite Hnv by done. fold (valid_at p i).
    assert (E : (lo P o <=? addr (pkt P) + i) && (addr (pkt P) + i <? hi P o) = (fo <=? i) && (i <? fo + ov)).
    { destruct (Z.leb_spec (lo P o) (addr (pkt P) + i)), (Z.ltb_spec (addr (pkt P) + i) (hi P o)), (Z.leb_spec fo i), (Z.ltb_spec i (fo + ov));
        cbn; unfold ov in *; try done; lia. }
    rewrite E. destruct ((fo <=? i) && (i <? fo + ov)) eqn:Ein; cbn [default id].
    + apply andb_true_iff in Ein as [?%Z.leb_le ?%Z.ltb_lt]. rewrite bool_decide_eq_true_2, orb_true_r by (by eexists). split.
      * unfold byte_of, buffer. rewrite Hd. cbn [default]. f_equal. lia.
      * by rewrite nth_repeat_lt by lia.
    + rewrite bool_decide_eq_false_2, orb_false_r by (by intros [? ?]). done.
  - rewrite andb_true_iff, !forallb_nth. unfold valid_at. cbn [bytesValid]. split.
    + intros [H1 H2] i Hi. unfold in_packet in Hi. destruct (decide (i < fo)) as [Hlt | Hge].
      * specialize (H1 (Z.to_nat i)). rewrite length_take, nth_lookup, lookup_take_lt, <- nth_lookup in H1 by lia. apply H1. lia.
      * destruct (decide (i < fo + ov)) as [Hlt' | Hge'].
        -- rewrite Hnv' by lia. destruct (Z.leb_spec fo i), (Z.ltb_spec i (fo + ov)); try lia. cbn [andb].
           by rewrite nth_repeat_lt by lia.
        -- specialize (H2 (Z.to_nat (i - (fo + ov)))). rewrite length_take, length_drop, nth_lookup, lookup_take_lt, lookup_drop, <- nth_lookup in H2 by lia.
           replace (Z.to_nat (fo + ov) + Z.to_nat (i - (fo + ov)))%nat with (Z.to_nat i) in H2 by lia. apply H2. lia.
    + intros H1. split; intros k Hk.
      * rewrite length_take in Hk. rewrite nth_lookup, lookup_take_lt, <- nth_lookup by lia.
        replace k with (Z.to_nat (Z.of_nat k)) by lia. apply H1. unfold in_packet. lia.
      * rewrite length_take, length_drop in Hk. rewrite nth_lookup, lookup_take_lt, lookup_drop, <- nth_lookup by lia.
        replace (Z.to_nat (fo + ov) + k)%nat with (Z.to_nat (fo + ov + Z.of_nat k)) by lia. apply H1. unfold in_packet. lia.
Qed.
End read.

Lemma frame_pkt p p' : same_frame p p' -> pkt (fp p') = pkt (fp p).
Proof. by intros (d & v & ->). Qed.

Lemma frame_trans p1 p2 p3 : same_frame p1 p2 -> same_frame p2 p3 -> same_frame p1 p3.
Proof. intros (d & v & ->) (d' & v' & ->). by exists d', v'. Qed.

Lemma gives_frame p p' o a : same_frame p p' -> gives (fp p') o a = gives (fp p) o a.
Proof. intros (d & v & ->). done. Qed.

Lemma last_gives_frame p p' q a : same_frame p p' -> last_gives (fp p') q a = last_gives (fp p) q a.
Proof. intros H. induction q as [| o q IH]; [done |]. cbn. by rewrite IH, (gives_frame p p'). Qed.

Lemma found_in_trans p p1 p2 g1 g2 : same_frame p p1 -> found_in g1 p p1 -> found_in g2 p1 p2 ->
  found_in (fun a => match g2 a with Some b => Some b | None => g1 a end) p p2.
Proof.
  intros Hf H1 H2 i Hi. pose proof (frame_pkt _ _ Hf) as E. destruct (H1 i Hi) as [B1 V1].
  assert (Hi1 : in_packet p1 i) by (unfold in_packet in *; by rewrite E). destruct (H2 i Hi1) as [B2 V2]. rewrite E in B2, V2.
  rewrite B2, V2, B1, V1. destruct (g2 _); cbn; [by rewrite !orb_true_r |]. by rewrite orb_false_r.
Qed.

Lemma try_packet_read p o : searching p -> sized o -> incomplete p ->
  exists found p', try_packet o p = Ok (found, p', o) /\ same_frame p p' /\ searching p' /\ found_in (gives (fp p) o) p p' /\
    if (found : bool) then forall i, in_packet p' i -> valid_at p' i = true else incomplete p'.
Proof.
  intros Hp Ho Hi. pose proof (se_sized _ Hp) as Hsz. destruct (decide (speaks (fp p) o = true /\ lo (fp p) o < hi (fp p) o)) as [[Hs Hov] | Hno].
  - destruct (try_packet_hit p o Hp Ho Hs Hov) as (found & p' & E & Hf & Hlv & Hlb & Hfound & Hall). exists found, p'.
    pose proof (frame_pkt _ _ Hf) as Ep. assert (Hsz' : sized (fp p')).
    { destruct Hsz as [? ? ? _]. destruct Hf as (d & v & ->). split; try done. exists d. split; [done |]. exact Hlb. }
    split_and!; [done | done | | done |].
    + split; [done | rewrite Ep; apply Hp | right; by rewrite Ep].
    + assert (Hin : forall i, in_packet p i <-> in_packet p' i) by (intros i; unfold in_packet; by rewrite Ep). destruct found.
      * intros i Hii. apply Hall; [done | by apply Hin].
      * destruct (decide (Forall (fun i => valid_at p' i = true) (seqZ 0 (psize (pkt (fp p)))))) as [HF | HF].
        -- assert (false = true) as [=]. apply Hall. intros i Hii. rewrite Forall_forall in HF. apply HF, elem_of_seqZ. unfold in_packet in Hii. lia.
        -- apply not_Forall_Exists in HF; [| intros i; destruct (valid_at p' i); [by left | by right]].
           apply Exists_exists in HF as (i & Hin' & Hv). exists i. apply elem_of_seqZ in Hin'. split; [apply Hin; unfold in_packet; lia |].
           by apply not_true_is_false.
  - assert (Hskip : speaks (fp p) o = false \/ hi (fp p) o <= lo (fp p) o).
    { destruct (speaks (fp p) o); [right | by left]. destruct (decide (lo (fp p) o < hi (fp p) o)); [by destruct Hno | lia]. }
    exists false, p. split; [by apply try_packet_skip |]. split; [by apply same_frame_refl |]. split; [done |]. split; [| done].
    intros i Hii. assert (E : gives (fp p) o (addr (pkt (fp p)) + i) = None).
    { destruct Hskip as [E | E]; [unfold gives; by rewrite E |]. apply no_overlap; [done |]. unfold covers, in_packet in *.
      destruct (Z.leb_spec (addr (pkt (fp p))) (addr (pkt (fp p)) + i)), (Z.ltb_spec (addr (pkt (fp p)) + i) (addr (pkt (fp p)) + psize (pkt (fp p)))); done || lia. }
    rewrite E. cbn. by rewrite orb_false_r.
Qed.

Lemma try_queue_read q : forall p, searching p -> Forall sized q -> incomplete p ->
  exists found used rest p', q = used ++ rest /\ try_queue q p = Ok (found, p', q) /\ same_frame p p' /\ searching p' /\
    found_in (last_gives (fp p) used) p p' /\
    if (found : bool) then forall i, in_packet p' i -> valid_at p' i = true else rest = [] /\ incomplete p'.
Proof.
  induction q as [| o q IH]; intros p Hp Hq Hi; cbn [try_queue].
  { exists false, [], [], p. split; [done |]. split; [done |]. split; [by apply same_frame_refl, Hp |]. split; [done |]. split; [| done].
    intros i Hii. cbn. by rewrite orb_false_r. }
  apply Forall_cons in Hq as [Ho Hq]. destruct (try_packet_read p o Hp Ho Hi) as (found & p1 & -> & Hf & Hp1 & Hfound & Hend). cbn [obind].
  destruct found.
  - exists true, [o], q, p1. by split_and!.
  - destruct (IH p1 Hp1 Hq Hend) as (found & used & rest & p2 & -> & -> & Hf2 & Hp2 & Hfound2 & Hend2). cbn [obind].
    exists found, (o :: used), rest, p2. split; [done |]. split; [done |]. split; [by eapply frame_trans |]. split; [done |]. split; [| done].
    intros i Hii. pose proof (found_in_trans p p1 p2 _ _ Hf Hfound Hfound2 i Hii) as [B V]. cbn [last_gives].
    by rewrite (last_gives_frame p p1) in B, V.
Qed.

Lemma fresh_incomplete p : searching p -> bytesValid p = [] -> incomplete p.
Proof.
  intros Hp Hv. exists 0. destruct (se_sized _ Hp) as [_ _ (_ & ? & _) _]. unfold in_packet, valid_at. rewrite Hv. split; [lia | done].
Qed.

(** A functional read that looks through packets on their way, such as those of a
    queue, finds in each byte the one of the last packet it has looked at that carries the
    byte, is no masked write and is of the same security, and changes no packet.  It stops
    exactly when all its bytes have been found: then the access is answered, otherwise all
    packets have been looked at and a byte is missing. *)
Theorem functional_read q p : searching p -> bytesValid p = [] -> Forall sized q ->
  exists found used rest p', q = used ++ rest /\ try_queue q p = Ok (found, p', q) /\ pkt (fp p') = pkt (fp p) /\
    (forall i, in_packet p i ->
       nth (Z.to_nat i) (buffer (fp p')) 0 =
         default (nth (Z.to_nat i) (buffer (fp p)) 0) (last_gives (fp p) used (addr (pkt (fp p)) + i))) /\
    if (found : bool) then forall i, in_packet p i -> is_Some (last_gives (fp p) used (addr (pkt (fp p)) + i))
    else rest = [] /\ exists i, in_packet p i /\ last_gives (fp p) used (addr (pkt (fp p)) + i) = None.
Proof.
  intros Hp Hv Hq. assert (Hnone : forall i, valid_at p i = false) by (intros i; unfold valid_at; rewrite Hv; by destruct (Z.to_nat i)).
  destruct (try_queue_read q p Hp Hq (fresh_incomplete p Hp Hv)) as (found & used & rest & p' & -> & E & Hf & _ & Hfound & Hend).
  exists found, used, rest, p'. pose proof (frame_pkt _ _ Hf) as Ep. split; [done |]. split; [done |]. split; [done |].
  split; [intros i Hii; by apply Hfound |]. destruct found.
  - intros i Hii. destruct (Hfound i Hii) as [_ V]. rewrite Hnone in V. cbn [orb] in V. rewrite Hend in V by (unfold in_packet in *; by rewrite Ep).
    symmetry in V. by apply bool_decide_eq_true in V.
  - destruct Hend as (-> & i & Hii & Hvi). split; [done |]. assert (Hi' : in_packet p i) by (unfold in_packet in *; by rewrite Ep in Hii).
    exists i. split; [done |]. destruct (Hfound i Hi') as [_ V]. rewrite Hvi, Hnone in V. cbn [orb] in V. symmetry in V.
    apply bool_decide_eq_false in V. destruct (last_gives _ _ _); [by destruct V; eexists | done].
Qed.

(** * Writes *)

(** What a write leaves of a packet it meets. *)
Definition overwritten (p o o' : MemPkt) : Prop :=
  pkt o' = pkt o /\ sized o' /\ isMaskedWrite o' = isMaskedWrite o /\
  forall a, covers o a = true -> byte_of o' a = if speaks p o && covers p a then byte_of p a else byte_of o a.

Lemma overwritten_same p o : sized o -> (forall a, covers o a = true -> speaks p o && covers p a = false) -> overwritten p o o.
Proof. intros Ho H. split_and!; try done. intros a Ha. by rewrite H. Qed.

Lemma writing_command c : isWrite c = true -> isRead c = false -> isPrint c = false.
Proof. by destruct c. Qed.

Lemma try_packet_write p o : sized (fp p) -> isWrite (cmd (pkt (fp p))) = true -> isRead (cmd (pkt (fp p))) = false -> sized o ->
  exists o', try_packet o p = Ok (false, p, o') /\ overwritten (fp p) o o'.
Proof.
  intros Hsz Hw Hr Ho. pose proof Hsz as [Hpa Hpz (Hr1 & Hr2 & Hr3) (buf & Hbuf & Hlbuf)].
  pose proof Ho as [Ha Hz (Ho1 & Ho2 & Ho3) (d & Hd & Hld)]. pose proof (writing_command _ Hw Hr) as Hpr.
  unfold try_packet. destruct (isMaskedWrite o) eqn:Em.
  { exists o. split; [done |]. apply overwritten_same; [done |]. intros a _. unfold speaks. by rewrite Em. }
  unfold isSecure, getAddr, getSize. rewrite Ha, Hz. cbn [assert_ obind].
  assert (Hsame : speaks (fp p) o = false \/ hi (fp p) o <= lo (fp p) o -> overwritten (fp p) o o).
  { intros H. apply overwritten_same; [done |]. intros a Hca. destruct H as [-> | H]; [done |].
    destruct (covers (fp p) a) eqn:Hcp; [| apply andb_false_r]. exfalso. unfold covers, lo, hi in *.
    apply andb_true_iff in Hca as [?%Z.leb_le ?%Z.ltb_lt], Hcp as [?%Z.leb_le ?%Z.ltb_lt]. lia. }
  unfold getPtr at 1. rewrite Hd, Em. cbn [get assert_ obind negb].
  unfold try_value, getAddr, getSize. rewrite Hpa, Hpz, Hpr. cbn [assert_ obind].
  rewrite <- orb_assoc, (overlap_test p o Hsz Ho). unfold speaks in *. rewrite Em in *. cbn [negb andb] in *.
  destruct (eqb (_isSecure (pkt o)) (_isSecure (pkt (fp p)))) eqn:Hsec; cbn [negb orb].
  2: { destruct (hasData _); cbn [obind]; exists o; (split; [by rewrite ?(set_same_data o d Hd) |]); apply Hsame; left; by rewrite ?andb_false_r. }
  destruct (Z.leb_spec (hi (fp p) o) (lo (fp p) o)) as [Hno | Hov].
  { destruct (hasData _); cbn [obind]; exists o; (split; [by rewrite ?(set_same_data o d Hd) |]); apply Hsame; by right. }
  destruct (hasData (cmd (pkt o))) eqn:Hh; cbn [obind].
  2: { exists o. split; [done |]. apply Hsame. by left. }
  cbv zeta. rewrite (overlap_length p o Hsz Ho Hov), Hr, Hw. unfold getConstPtr. rewrite Hbuf. cbn [get obind].
  set (vo := if addr (pkt o) <? addr (pkt (fp p)) then addr (pkt (fp p)) - addr (pkt o) else 0).
  set (fo := if addr (pkt (fp p)) <? addr (pkt o) then addr (pkt o) - addr (pkt (fp p)) else 0).
  assert (Hoff : vo = lo (fp p) o - addr (pkt o) /\ fo = lo (fp p) o - addr (pkt (fp p))).
  { unfold vo, fo, lo. destruct (Z.ltb_spec (addr (pkt o)) (addr (pkt (fp p)))), (Z.ltb_spec (addr (pkt (fp p))) (addr (pkt o))); lia. }
  destruct Hoff as [Evo Efo]. set (ov := hi (fp p) o - lo (fp p) o) in *.
  assert (Hb : 0 <= vo /\ 0 <= fo /\ 0 <= ov /\ vo + ov <= psize (pkt o) /\ fo + ov <= psize (pkt (fp p))) by (unfold ov, hi, lo in *; lia).
  destruct (copy_ok buf fo d vo ov 0) as (r & -> & Hlr & Hnr); [lia | lia | lia | lia | lia |]. cbn [obind].
  exists (set_data (Some r) o). split; [done |]. split; [done |]. split; [split; try done; exists r; split; [done | by rewrite Hlr] |].
  split; [done |]. intros a Hca. unfold covers in *. apply andb_true_iff in Hca as [?%Z.leb_le ?%Z.ltb_lt].
  unfold speaks. rewrite Em, Hh, Hsec. cbn [negb andb]. unfold byte_of, buffer. cbn [pkt set_data data default]. rewrite Hd, Hbuf. cbn [default id]. rewrite Hnr by lia.
  assert (E : (vo <=? a - addr (pkt o)) && (a - addr (pkt o) <? vo + ov) = (addr (pkt (fp p)) <=? a) && (a <? addr (pkt (fp p)) + psize (pkt (fp p)))).
  { unfold ov, lo, hi in *. destruct (Z.leb_spec vo (a - addr (pkt o))), (Z.ltb_spec (a - addr (pkt o)) (vo + ov)), (Z.leb_spec (addr (pkt (fp p))) a),
      (Z.ltb_spec a (addr (pkt (fp p)) + psize (pkt (fp p)))); cbn; unfold ov in *; try done; lia. }
  unfold ov in *. rewrite E. destruct ((addr (pkt (fp p)) <=? a) && (a <? addr (pkt (fp p)) + psize (pkt (fp p)))); [f_equal; lia | done].
Qed.

Lemma try_queue_write q p : sized (fp p) -> isWrite (cmd (pkt (fp p))) = true -> isRead (cmd (pkt (fp p))) = false -> Forall sized q ->
  exists q', try_queue q p = Ok (false, p, q') /\ Forall2 (overwritten (fp p)) q q'.
Proof.
  intros Hsz Hw Hr. induction 1 as [| o q Ho _ (q' & IH & Hq)]; cbn [try_queue]; [by exists [] |].
  destruct (try_packet_write p o Hsz Hw Hr Ho) as (o' & -> & Ho'). cbn [obind]. rewrite IH. cbn [obind]. exists (o' :: q').
  split; [done | by constructor].
Qed.

(** After a write every packet that speaks of its bytes has the bytes of the write. *)
Lemma last_gives_overwritten p r a q q' : Forall2 (overwritten p) q q' -> _isSecure (pkt r) = _isSecure (pkt p) ->
  covers p a = true -> forall b, last_gives r q' a = Some b -> b = byte_of p a.
Proof.
  intros Hq Hsec Ha. induction Hq as [| o o' q q' (Ep & _ & Em & Hb) _ IH]; intros b; cbn [last_gives]; [done |].
  destruct (last_gives r q' a) as [b' |]; [by apply IH |]. unfold gives. destruct (speaks r o') eqn:Es; cbn [andb]; [| done].
  destruct (covers o' a) eqn:Ec; [| done]. intros [= <-]. assert (Hco : covers o a = true) by (unfold covers in *; by rewrite Ep in Ec).
  assert (Eso : speaks p o = true) by (unfold speaks in *; by rewrite Ep, Em, Hsec in Es).
  by rewrite (Hb a Hco), Eso, Ha.
Qed.

Lemma map_put_back q ds : length q = length ds -> map dr_pkt (put_back q ds) = q.
Proof.
  revert ds. induction q as [| k q IH]; intros [| d ds] H; try done. cbn. f_equal. apply IH. by injection H.
Qed.

(** The packet of a functional access once the memory has answered it. *)
Definition responded (p : MemPkt) : MemPkt :=
  set_pkt (flag_clear EXPRESS_SNOOP (set_cmd (responseCommand (cmd (pkt p))) (pkt p))) p.

Lemma respond_ok p : needsResponse (cmd (pkt p)) = true -> isRequest (cmd (pkt p)) = true ->
  (let! q := makeResponse (pkt p) in Ok (set_pkt q p)) = Ok (responded p).
Proof. intros H1 H2. unfold makeResponse, responded. by rewrite H1, H2. Qed.

Section stored.
Variables (p : MemPkt) (m : AbstractMemory) (mem : gmap Z Z).
Hypothesis Hs : served p m.
Hypothesis Hm : pmem m = Some mem.

Lemma functional_range : getAddrRange (pkt p) = Ok (RangeSize (addr (pkt p)) (psize (pkt p))) /\
  isSubset (RangeSize (addr (pkt p)) (psize (pkt p))) (range m) = Ok true /\ getAddr (pkt p) = Ok (addr (pkt p)).
Proof. destruct Hs as [Ha [Hz _] Hin _ _ _ _ _ _ _]. unfold getAddrRange, getAddr, getSize. by rewrite Ha, Hz. Qed.

Lemma functional_store : cmd (pkt p) = WriteReq ->
  exists mem', functionalAccess p m = Ok (responded p, set_pmem (Some mem') m) /\ written p m mem mem'.
Proof.
  intros Hc. destruct (writeData_ok p m mem Hs) as (mem' & Hw & Hwr). exists mem'. split; [| done].
  destruct functional_range as (E1 & E2 & E3). unfold functionalAccess. rewrite E1. cbn [obind]. rewrite E2. cbn [assert_ obind].
  rewrite E3. cbn [obind]. assert (H1 : isRead (cmd (pkt p)) = false) by (by rewrite Hc). assert (H2 : isWrite (cmd (pkt p)) = true) by (by rewrite Hc).
  rewrite H1, H2, Hm. fold (offset p m). rewrite Hw. cbn [obind].
  pose proof (respond_ok p ltac:(by rewrite Hc) ltac:(by rewrite Hc)) as Hr. destruct (makeResponse (pkt p)); [| done]. cbn [obind] in *. by injection Hr as ->.
Qed.

Lemma functional_load : cmd (pkt p) = ReadReq ->
  functionalAccess p m = Ok (responded (set_data (Some (load mem (offset p m) (psize (pkt p)))) p), m).
Proof.
  intros Hc. assert (Hmask : isMaskedWrite p = false) by (unfold isMaskedWrite; by rewrite Hc).
  pose proof (setData_ok p m mem Hs Hmask) as Hd.
  destruct functional_range as (E1 & E2 & E3). unfold functionalAccess. rewrite E1. cbn [obind]. rewrite E2. cbn [assert_ obind].
  rewrite E3. cbn [obind]. assert (H1 : isRead (cmd (pkt p)) = true) by (by rewrite Hc).
  rewrite H1, Hm. fold (offset p m). rewrite Hd. cbn [obind pkt set_data].
  set (k := set_data _ p). pose proof (respond_ok k ltac:(unfold k; cbn; by rewrite Hc) ltac:(unfold k; cbn; by rewrite Hc)) as Hr.
  change (pkt p) with (pkt k). destruct (makeResponse (pkt k)); [| done]. cbn [obind] in *. by injection Hr as ->.
Qed.
End stored.

(** * Functional accesses of the memory controller *)

Lemma forall_sized_overwritten p q q' : Forall2 (overwritten p) q q' -> Forall sized q'.
Proof. induction 1 as [| ? ? ? ? (_ & ? & _) _ IH]; by constructor. Qed.

Lemma Forall2_length_eq {A B} (P : A -> B -> Prop) l k : Forall2 P l k -> length k = length l.
Proof. induction 1; cbn; congruence. Qed.

Lemma searching_responded p d : sized p -> isRead (responseCommand (cmd (pkt p))) = true -> Z.of_nat (length d) = psize (pkt p) ->
  searching (mkFuncPkt (responded (set_data (Some d) p)) []).
Proof.
  intros [Ha Hz Hr _] Hc Hd. split; [| done | by left]. split; cbn [fp responded pkt set_pkt set_data].
  - unfold flag_isSet, flag_clear in *. cbn [flags set_flags set_cmd]. by rewrite <- Z.land_assoc.
  - unfold flag_isSet, flag_clear in *. cbn [flags set_flags set_cmd]. by rewrite <- Z.land_assoc.
  - done.
  - by exists d.
Qed.

Section written_back.
Variables (p r : MemPkt) (s : SimpleMemory) (mem : gmap Z Z).
Hypothesis Hmem : pmem (sm_mem s) = Some mem.
Hypothesis Hq : Forall sized (map dr_pkt (packetQueue s)).
Hypothesis Hp : served p (sm_mem s) /\ sized p /\ cmd (pkt p) = WriteReq.
Hypothesis Hr : served r (sm_mem s) /\ sized r /\ cmd (pkt r) = ReadReq.

(** A functional write changes the store and the packets that wait. *)
Lemma functional_write_ok : exists mem' q', written p (sm_mem s) mem mem' /\ Forall2 (overwritten p) (map dr_pkt (packetQueue s)) q' /\
  mem_recvFunctional (mkFuncPkt p []) s =
    Ok (mkFuncPkt (responded p) [], set_queue (put_back q' (packetQueue s)) (set_sm_mem (set_pmem (Some mem') (sm_mem s)) s)).
Proof.
  destruct Hp as (Hsv & Hsz & Hc). destruct (functional_store p (sm_mem s) mem Hsv Hmem Hc) as (mem' & E & Hw).
  assert (Hsz' : sized (responded p)).
  { destruct Hsz as [Ha Hz ? ?]. split; try done; cbn [responded pkt set_pkt]; unfold flag_isSet, flag_clear in *; cbn [flags set_flags set_cmd];
      by rewrite <- Z.land_assoc. }
  destruct (try_queue_write (map dr_pkt (packetQueue s)) (mkFuncPkt (responded p) []) Hsz') as (q' & Eq & Hq').
  { cbn. by rewrite Hc. }
  { cbn. by rewrite Hc. }
  { done. }
  exists mem', q'. split; [done |]. split.
  - eapply Forall2_impl; [exact Hq' |]. intros o o' (? & ? & ? & Hb). by split_and!.
  - unfold mem_recvFunctional. cbn [fp]. rewrite E. cbn [obind]. unfold set_fp. cbn [bytesValid]. rewrite Eq. done.
Qed.

(** Whatever responses wait in its queue, a memory controller that is given a
    functional write and then a functional read of the same security answers the read,
    at every address that the write covers, with the byte of the write. *)
Theorem functional_write_read : isMaskedWrite p = false -> _isSecure (pkt r) = _isSecure (pkt p) ->
  exists p' s1 r' s2, mem_recvFunctional (mkFuncPkt p []) s = Ok (p', s1) /\ mem_recvFunctional (mkFuncPkt r []) s1 = Ok (r', s2) /\
    forall i, 0 <= i < psize (pkt r) -> covers p (addr (pkt r) + i) = true ->
      nth (Z.to_nat i) (buffer (fp r')) 0 = byte_of p (addr (pkt r) + i).
Proof.
  intros Hnm Hsec. destruct functional_write_ok as (mem' & q' & Hw & Hq' & Ew). destruct Hr as (Hsv & Hsz & Hc).
  set (s1 := set_queue _ _) in Ew. pose proof (Forall2_length_eq _ _ _ Hq') as Hlen. rewrite length_map in Hlen.
  assert (Hsv1 : served r (sm_mem s1)) by (by destruct Hsv).
  pose proof (functional_load r (sm_mem s1) mem' Hsv1 eq_refl Hc) as El.
  set (d := load mem' (offset r (sm_mem s1)) (psize (pkt r))) in El. pose proof (sz_range _ Hsz) as (Hr0 & Hr1 & _).
  assert (Hd : Z.of_nat (length d) = psize (pkt r)) by (by apply length_load; lia).
  set (k := mkFuncPkt (responded (set_data (Some d) r)) []).
  assert (Hk : searching k) by (by apply searching_responded; [done | by rewrite Hc |]).
  destruct (try_queue_read q' k Hk (forall_sized_overwritten _ _ _ Hq') (fresh_incomplete k Hk eq_refl))
    as (found & used & rest & k' & Eused & Et & _ & _ & Hbytes & _).
  exists (mkFuncPkt (responded p) []), s1, k'. eexists. split; [exact Ew |]. split.
  { unfold mem_recvFunctional. cbn [fp]. rewrite El. cbn [obind]. unfold set_fp at 1. cbn [bytesValid].
    assert (Eq : map dr_pkt (packetQueue s1) = q') by (by apply map_put_back). rewrite Eq. fold k. rewrite Et. cbn [obind]. reflexivity. }
  intros i Hi Hcov. assert (Ek : addr (pkt (fp k)) = addr (pkt r)) by done. assert (Hik : in_packet k i) by done.
  rewrite (proj1 (Hbytes i Hik)), Ek. destruct (last_gives (fp k) used (addr (pkt r) + i)) as [b |] eqn:Eb; cbn [default id].
  - rewrite Eused in Hq'. apply Forall2_app_inv_r in Hq' as (used0 & rest0 & Hu & _ & _).
    exact (last_gives_overwritten p (fp k) _ used0 used Hu Hsec Hcov b Eb).
  - change (buffer (fp k)) with d. unfold d. rewrite nth_load by done. rewrite Hw. unfold offset, toHostAddr. cbn [range sm_mem s1 set_queue set_sm_mem set_pmem].
    unfold covers in Hcov. apply andb_true_iff in Hcov as [H1%Z.leb_le H2%Z.ltb_lt]. unfold enabled. rewrite Hnm.
    destruct (Z.leb_spec (addr (pkt p) - _start (range (sm_mem s))) (addr (pkt r) - _start (range (sm_mem s)) + i)); [| lia].
    destruct (Z.ltb_spec (addr (pkt r) - _start (range (sm_mem s)) + i) (addr (pkt p) - _start (range (sm_mem s)) + psize (pkt p))); [| lia].
    cbn [andb]. unfold byte_of. f_equal. lia.
Qed.
End written_back.

(** * Functional accesses of the host *)

Section silent.
Context {W : Type}.
Variable sendFunctionalSnoop : ResponsePort -> FuncPkt -> W -> outcome (FuncPkt * W).
Variable sendFunctional : Z -> FuncPkt -> W -> outcome (FuncPkt * W).
Hypothesis silent : forall port p w, exists w', sendFunctionalSnoop port p w = Ok (p, w').

Lemma silent_loop exclude p ports : isResponse (cmd (pkt (fp p))) = false -> forall w, exists w',
  functional_loop sendFunctionalSnoop exclude ports p w = Ok (p, w').
Proof.
  intros Hr. induction ports as [| port ports IH]; intros w; cbn [functional_loop]; [by exists w |].
  destruct (_ || _); cbn [obind].
  - destruct (silent port p w) as (w' & ->). cbn [obind]. rewrite Hr. apply IH.
  - rewrite Hr. apply IH.
Qed.

Lemma try_ports_write p qs : sized (fp p) -> isWrite (cmd (pkt (fp p))) = true -> isRead (cmd (pkt (fp p))) = false ->
  Forall (Forall sized) qs -> exists qs', try_ports qs p = Ok (false, p, qs').
Proof.
  intros Hp Hw Hr. induction 1 as [| q qs Hq _ (qs' & IH)]; cbn [try_ports]; [by exists [] |].
  destruct (try_queue_write q p Hp Hw Hr Hq) as (q' & -> & _). cbn [obind]. rewrite IH. cbn [obind]. by eexists.
Qed.

Lemma try_ports_empty p qs : Forall (fun q => q = []) qs -> try_ports qs p = Ok (false, p, qs).
Proof. induction 1 as [| q qs -> _ IH]; [done |]. cbn. by rewrite IH. Qed.

(** The central crossbar cannot serve a functional access of the host to a line that
    the device has fetched: [findPort] takes it for a coherent read, and since its command
    is neither of the two that it knows, it panics.  This holds for every write, whatever
    waits in the queues, and for reads when nothing waits there. *)
Theorem fetched_functional_panics p port x qs w : center_xbar x = true -> sized (fp p) -> HOST_BASE <= addr (pkt (fp p)) ->
  cxl_packet_type (req (pkt (fp p))) = DefaultPacket -> addr (pkt (fp p)) ∈ fake_snoop_filter x ->
  (cmd (pkt (fp p)) = WriteReq /\ Forall (Forall sized) qs \/ cmd (pkt (fp p)) = ReadReq /\ Forall (fun q => q = []) qs) ->
  recvFunctional findPort sendFunctionalSnoop sendFunctional p port x qs w = Err Panic.
Proof.
  intros Hcen Hp Hge Hk Hin Hcmd. assert (Hresp : isResponse (cmd (pkt (fp p))) = false) by (by destruct Hcmd as [[-> _] | [-> _]]).
  assert (Hfind : findPort (pkt (fp p)) x = Err Panic).
  { unfold findPort, getFakeSF, getAddr. rewrite Hcen, (sz_addr _ Hp). cbn [assert_ obind]. rewrite (bool_decide_eq_true_2 _ Hk), andb_true_r.
    destruct (Z.leb_spec HOST_BASE (addr (pkt (fp p)))); [| lia]. cbn [assert_ obind]. rewrite (bool_decide_eq_true_2 _ Hin). cbn [obind].
    change (cmd (set_req (set_cxl_packet_type CXLcacheH2DReq (req (pkt (fp p)))) (pkt (fp p)))) with (cmd (pkt (fp p))).
    rewrite !bool_decide_eq_false_2; [done | |]; by destruct Hcmd as [[-> _] | [-> _]]. }
  assert (Hq : exists qs', try_ports qs p = Ok (false, p, qs')).
  { destruct Hcmd as [[Ec Hq] | [_ Hq]]; [apply try_ports_write; rewrite ?Ec; done |]. exists qs. by apply try_ports_empty. }
  destruct Hq as (qs' & Hq). unfold recvFunctional, forwardFunctional.
  destruct (bypassCaches x); cbn [negb assert_ obind].
  - rewrite Hresp. cbn [negb]. rewrite Hq. cbn [obind]. by rewrite Hfind.
  - destruct (silent_loop port p (snoopPorts x) Hresp w) as (w' & ->). cbn [obind]. rewrite Hresp. cbn [negb]. rewrite Hq. cbn [obind]. by rewrite Hfind.
Qed.
End silent.

(** * Examples *)

Lemma ex_sized c a bs k : 0 <= a -> bs <> [] -> Z.of_nat (length bs) < 2 ^ 32 -> a + Z.of_nat (length bs) <= 2 ^ 64 -> sized (ex_access c a bs k).
Proof.
  intros Ha Hne Hl Hr. split; [done | done | cbn [psize pkt ex_access addr] | by exists bs]. destruct bs; [done |]. cbn [length] in *. lia.
Qed.

Definition ex_func (c : Command) (a : Z) (bs : list Z) : FuncPkt := mkFuncPkt (ex_access c a bs 0) [].

(** Two packets on their way hold the first two and the last three of four bytes. *)
Definition ex_on_way : list MemPkt := [ex_access WriteReq 0x80000010 [1; 2] 0; ex_access WriteReq 0x80000011 [7; 8; 9] 0].
Lemma functional_read_witness : exists p', try_queue ex_on_way (ex_func ReadReq 0x80000010 [0; 0; 0; 0]) = Ok (true, p', ex_on_way) /\
  buffer (fp p') = [1; 7; 8; 9].
Proof.
  destruct (functional_read ex_on_way (ex_func ReadReq 0x80000010 [0; 0; 0; 0])) as (found & used & rest & p' & _ & E & _).
  - split; [by apply ex_sized | done | by left].
  - done.
  - repeat constructor; by apply ex_sized.
  - exists p'. vm_compute in E. injection E as <- <-. by split.
Defined.

Lemma functional_write_read_witness : exists p' s1 r' s2,
  mem_recvFunctional (ex_func WriteReq 0x80000010 [1; 2; 3; 4]) ex_late = Ok (p', s1) /\
  mem_recvFunctional (ex_func ReadReq 0x80000012 [0; 0; 0; 0]) s1 = Ok (r', s2) /\ nth 0 (buffer (fp r')) 0 = 3 /\ nth 1 (buffer (fp r')) 0 = 4.
Proof.
  destruct (functional_write_read (ex_access WriteReq 0x80000010 [1; 2; 3; 4] 0) (ex_access ReadReq 0x80000012 [0; 0; 0; 0] 0) ex_late ∅)
    as (p' & s1 & r' & s2 & E1 & E2 & H); try done.
  - repeat constructor; by apply ex_sized.
  - split; [by apply ex_access_served |]. split; [by apply ex_sized | done].
  - split; [by apply ex_access_served |]. split; [by apply ex_sized | done].
  - exists p', s1, r', s2. split; [exact E1 |]. split; [exact E2 |]. split.
    + apply (H 0); [cbn; lia | reflexivity].
    + apply (H 1); [cbn; lia | reflexivity].
Defined.

Definition ex_fetched_line : HostXBar := set_fake {[ 0xa0000040 ]} ex_host.
Lemma fetched_functional_panics_witness :
  recvFunctional findPort (fun _ p (w : unit) => Ok (p, w)) (fun _ p w => Ok (p, w)) (ex_func ReadReq 0xa0000040 [0; 0; 0; 0]) 0 ex_fetched_line [[]] tt
    = Err Panic.
Proof.
  apply (fetched_functional_panics (fun _ p (w : unit) => Ok (p, w)) (fun _ p w => Ok (p, w))); try done.
  - intros _ p w. by exists w.
  - by apply ex_sized.
  - right. split; [done |]. by repeat constructor.
Defined.

(** A read has been served and its response waits; a write is served after it.  A
    functional read then finds the old bytes in the response. *)
Definition ex_stale : SimpleMemory :=
  let s0 := new_SimpleMemory ex_memory 30 0 (fun _ => 0) in
  let step p s := match recvTimingReq 100 0 0 p s with Ok (_, _, s, _) => s | Err _ => s end in
  step (ex_word WriteReq 0x80000010) (step (ex_word ReadReq 0x80000010) s0).
Example stale_functional_read :
  load (default ∅ (pmem (sm_mem ex_stale))) 0x10 4 = [1; 2; 3; 4] /\
  match mem_recvFunctional (ex_func ReadReq 0x80000010 [9; 9; 9; 9]) ex_stale with
  | Ok (p, _) => buffer (fp p) = [0; 0; 0; 0]
  | Err _ => False
  end.
Proof. vm_compute. split; reflexivity. Qed.

(** The bytes that a read has found in the queue of the bridge are lost when it goes on
    to the memory for the others. *)
Example partial_hit_lost :
  match bridge_recvFunctional (fun p s => mem_recvFunctional p s) (ex_func ReadReq 0x80000010 [9; 9; 9; 9]) []
          [ex_access WriteReq 0x80000010 [1; 2] 0] (new_SimpleMemory ex_memory 30 0 (fun _ => 0)) with
  | Ok (p, _, _, _) => bytesValid p = [true; true; false; false] /\ buffer (fp p) = [0; 0; 0; 0]
  | Err _ => False
  end.
Proof. vm_compute. split; reflexivity. Qed.

(** A masked functional write changes the masked bytes of a packet on its way too. *)
Example mask_ignored :
  match try_queue [ex_access WriteReq 0x80000010 [1; 2; 3; 4] 0] (mkFuncPkt ex_masked []) with
  | Ok (_, _, [o]) => byteEnable ex_masked = [true; false; true; true] /\ buffer o = [9; 8; 7; 6]
  | _ => False
  end.
Proof. vm_compute. split; reflexivity. Qed.

(** A print request that meets a packet with data fails an assertion. *)
Example print_asserts : try_queue [ex_access WriteReq 0x80000010 [1; 2; 3; 4] 0] (ex_func PrintReq 0x80000010 [0]) = Err AssertFail.
Proof. vm_compute. reflexivity. Qed.
