(* ===== verification/NoncoherentXBar.v ===== *)
(** The crossbar without snoops: class [NoncoherentXBar] of
    [src/gem5/src/mem/noncoherent_xbar.cc] and [noncoherent_xbar.hh].

    A request goes through the layer of its destination, a response through the layer
    of the port its request came from, which [routeTo] remembers under the identity of
    the request object.  The coherence checks of the device pass the layers by.  What is
    scheduled on the queues of the ports above is a list; what the peers of the ports do
    is [W], with the sends as parameters.  The statistics are left out.

    The history of a crossbar is a sequence of calls of its ports and of its release
    events.  A source that is told to retry may call the crossbar again before the
    retry returns, any number of times. *)
From Stdlib Require Import ZArith Lia.
From stdpp Require Import base numbers list gmap sorting.
From S2P Require Import Prelude AddrRange AddrRangeMap MemPacket SnoopFilter Clocked XBarLayer XBar HostXBar HostTiming AbstractMem Functional.

Open Scope Z_scope.

(** The latencies of the crossbar in cycles; [nus] is a microsecond in ticks. *)
Record Latencies : Type := mkLatencies {
  frontend : Z;
  forward : Z;
  response : Z;
  nus : Z;
}.

Record NoncoherentXBar : Type := mkNoncoherentXBar {
  nbase : BaseXBar;
  nclk : Clocked;
  lat : Latencies;
  nreqLayers : list Layer;
  nrespLayers : list Layer;
  nrouteTo : gmap Z Z;
  nqueued : list scheduled;
}.

Definition nset_base (v : BaseXBar) (x : NoncoherentXBar) : NoncoherentXBar :=
  mkNoncoherentXBar v (nclk x) (lat x) (nreqLayers x) (nrespLayers x) (nrouteTo x) (nqueued x).
Definition nset_clk (v : Clocked) (x : NoncoherentXBar) : NoncoherentXBar :=
  mkNoncoherentXBar (nbase x) v (lat x) (nreqLayers x) (nrespLayers x) (nrouteTo x) (nqueued x).
Definition nset_req (v : list Layer) (x : NoncoherentXBar) : NoncoherentXBar :=
  mkNoncoherentXBar (nbase x) (nclk x) (lat x) v (nrespLayers x) (nrouteTo x) (nqueued x).
Definition nset_resp (v : list Layer) (x : NoncoherentXBar) : NoncoherentXBar :=
  mkNoncoherentXBar (nbase x) (nclk x) (lat x) (nreqLayers x) v (nrouteTo x) (nqueued x).
Definition nset_route (v : gmap Z Z) (x : NoncoherentXBar) : NoncoherentXBar :=
  mkNoncoherentXBar (nbase x) (nclk x) (lat x) (nreqLayers x) (nrespLayers x) v (nqueued x).
Definition nset_queued (v : list scheduled) (x : NoncoherentXBar) : NoncoherentXBar :=
  mkNoncoherentXBar (nbase x) (nclk x) (lat x) (nreqLayers x) (nrespLayers x) (nrouteTo x) v.

(** The parameters of the constructor. *)
Record NoncoherentXBarParams : Type := mkNoncoherentXBarParams {
  p_latencies : Latencies;
  p_width : Z;
  p_use_default_range : bool;
  p_mem_side : nat;
  p_default : bool;
  p_cpu_side : nat;
}.

(** [NoncoherentXBar(const NoncoherentXBarParams &p)], with the constructor of [BaseXBar]:
    a layer per port, the default port last. *)
Definition new_BaseXBar (p : NoncoherentXBarParams) : BaseXBar :=
  mkBaseXBar (mkAddrRangeMap [] []) (repeat false (p_mem_side p + (if p_default p then 1 else 0))) false
    (if p_default p then Z.of_nat (p_mem_side p) else InvalidPortID) (p_use_default_range p) AddrRange_default [] (p_width p).
Definition new_NoncoherentXBar (p : NoncoherentXBarParams) (c : Clocked) : NoncoherentXBar :=
  mkNoncoherentXBar (new_BaseXBar p) c (p_latencies p) (repeat new_Layer (p_mem_side p + (if p_default p then 1 else 0)))
    (repeat new_Layer (p_cpu_side p)) ∅ [].

(** An operation on one of the layers. *)
Definition on_req {A} (i : Z) (f : Layer -> outcome (A * Layer)) (x : NoncoherentXBar) : outcome (A * NoncoherentXBar) :=
  let! (a, ls) := on_layer i f (nreqLayers x) in Ok (a, nset_req ls x).
Definition on_resp {A} (i : Z) (f : Layer -> outcome (A * Layer)) (x : NoncoherentXBar) : outcome (A * NoncoherentXBar) :=
  let! (a, ls) := on_layer i f (nrespLayers x) in Ok (a, nset_resp ls x).

(** [clockEdge(cycles)] of the crossbar. *)
Definition nedge (cur cycles : Z) (x : NoncoherentXBar) : outcome (Z * NoncoherentXBar) :=
  let! (t, c) := clockEdge cur cycles (nclk x) in Ok (t, nset_clk c x).

(** [calcPacketTiming(pkt, xbar_delay)] and [packetFinishTime]. *)
Definition ntiming (cur xbar_delay : Z) (pkt : Packet) (x : NoncoherentXBar) : outcome (Z * Packet * NoncoherentXBar) :=
  let! (pkt, c) := calcPacketTiming (nus (lat x)) cur (nclk x) xbar_delay (nbase x) pkt in
  let! (t, x) := nedge cur 1 (nset_clk c x) in
  Ok (u64 (t + payloadDelay pkt), pkt, x).

(** [findPort(pkt)] and [findPort(range)]. *)
Definition nfind (pkt : Packet) (x : NoncoherentXBar) : outcome (Z * NoncoherentXBar) :=
  let! (id, b) := XBar.findPort pkt (nbase x) in Ok (id, nset_base b x).
Definition nfind_range (r : AddrRange) (x : NoncoherentXBar) : outcome (Z * NoncoherentXBar) :=
  let! (id, b) := findPort_range r (nbase x) in Ok (id, nset_base b x).

(** [memSidePorts[id]]; an index outside the vector is undefined. *)
Definition mem_port (id : Z) (x : NoncoherentXBar) : outcome Z :=
  if (id <? 0) || (Z.of_nat (length (nreqLayers x)) <=? id) then Err Undefined else Ok id.

(** [needsResponse() && !cacheResponding()]. *)
Definition expects (pkt : Packet) : bool := needsResponse (cmd pkt) && negb (cacheResponding pkt).

(** Remembering where to route the response to. *)
Definition nremember (cpu_side_port_id : Z) (pkt : Packet) (x : NoncoherentXBar) : outcome NoncoherentXBar :=
  do! assert_ (bool_decide (nrouteTo x !! req_key pkt = None)) then
  Ok (nset_route (<[req_key pkt := cpu_side_port_id]> (nrouteTo x)) x).

(** [AddrRange mainMem = RangeSize((Addr)0xa0000000L, (Addr)0x40000)]. *)
Definition mainMem : AddrRange := RangeSize 0xa0000000 0x40000.

Section handlers.
Context {W : Type}.
Variable sendTimingReq : Z -> Packet -> W -> outcome (bool * Packet * W).

(** The branch of [recvTimingReq] for a coherence check. *)
Definition check_request (pkt : Packet) (cpu_side_port_id : Z) (x : NoncoherentXBar) (w : W)
    : outcome (bool * Packet * NoncoherentXBar * W) :=
  let! x := (if expects pkt then nremember cpu_side_port_id pkt x else Ok x) in
  let! (id, x) := nfind_range mainMem x in
  let! id := mem_port id x in
  let! (success, pkt, w) := sendTimingReq id pkt w in Ok (success, pkt, x, w).

(** The part of [recvTimingReq] behind the test of the layer: the timing of the packet,
    the send, and what follows its success or failure. *)
Definition send_request (cur : Z) (pkt : Packet) (cpu_side_port_id mem_side_port_id : Z) (x : NoncoherentXBar) (w : W)
    : outcome (bool * Packet * NoncoherentXBar * W) :=
  let! _ := (if hasData (cmd pkt) then getSize pkt else Ok 0) in
  let old_header_delay := headerDelay pkt in
  let xbar_delay := u64 (u64 (frontend (lat x) + forward (lat x)) * clockPeriod (nclk x)) in
  let! (packetFinishTime, pkt, x) := ntiming cur xbar_delay pkt x in
  let expect_response := expects pkt in
  let! (success, pkt, w) := sendTimingReq mem_side_port_id pkt w in
  if negb success then
    let! (t, x) := nedge cur 1 x in
    let! (_, x) := on_req mem_side_port_id (unit_op (failedTiming cur cpu_side_port_id t)) x in
    Ok (false, set_headerDelay old_header_delay pkt, x, w)
  else
    let! x := (if expect_response then nremember cpu_side_port_id pkt x else Ok x) in
    let! (_, x) := on_req mem_side_port_id (unit_op (succeededTiming cur packetFinishTime)) x in
    Ok (true, pkt, x, w).

(** [bool recvTimingReq(PacketPtr pkt, PortID cpu_side_port_id)]. *)
Definition recvTimingReq (cur : Z) (pkt : Packet) (cpu_side_port_id : Z) (x : NoncoherentXBar) (w : W)
    : outcome (bool * Packet * NoncoherentXBar * W) :=
  if bool_decide (cxl_packet_type (req pkt) = HostBiasCheck) then check_request pkt cpu_side_port_id x w
  else
    do! assert_ (negb (isExpressSnoop pkt)) then
    let! (mem_side_port_id, x) := nfind pkt x in
    let! (free, x) := on_req mem_side_port_id (tryTiming cpu_side_port_id) x in
    if negb free then Ok (false, pkt, x, w) else send_request cur pkt cpu_side_port_id mem_side_port_id x w.

(** [bool recvTimingResp(PacketPtr pkt, PortID mem_side_port_id)]. *)
Definition recvTimingResp (cur : Z) (pkt : Packet) (mem_side_port_id : Z) (x : NoncoherentXBar)
    : outcome (bool * Packet * NoncoherentXBar) :=
  match nrouteTo x !! req_key pkt with
  | None => Err AssertFail
  | Some cpu_side_port_id =>
      do! assert_ (negb (cpu_side_port_id =? InvalidPortID)) then
      let! _ := in_layers cpu_side_port_id (nrespLayers x) in
      let! (free, x) := on_resp cpu_side_port_id (tryTiming mem_side_port_id) x in
      if negb free then Ok (false, pkt, x)
      else
        let! _ := (if hasData (cmd pkt) then getSize pkt else Ok 0) in
        let! (packetFinishTime, pkt, x) := ntiming cur (u64 (response (lat x) * clockPeriod (nclk x))) pkt x in
        let latency := headerDelay pkt in
        let pkt := set_headerDelay 0 pkt in
        let x := nset_queued (nqueued x ++ [mkScheduled cpu_side_port_id pkt (u64 (cur + latency))]) x in
        let x := nset_route (delete (req_key pkt) (nrouteTo x)) x in
        let! (_, x) := on_resp cpu_side_port_id (unit_op (succeededTiming cur packetFinishTime)) x in
        Ok (true, pkt, x)
  end.

(** [Tick recvAtomicBackdoor(PacketPtr pkt, PortID cpu_side_port_id, MemBackdoorPtr
    *backdoor)]: the send is told whether a backdoor is asked for. *)
Variable sendAtomic : Z -> bool -> Packet -> W -> outcome (Z * Packet * W).

Definition recvAtomicBackdoor (pkt : Packet) (backdoor : bool) (x : NoncoherentXBar) (w : W)
    : outcome (Z * Packet * NoncoherentXBar * W) :=
  let! _ := (if hasData (cmd pkt) then getSize pkt else Ok 0) in
  let! (mem_side_port_id, x) := nfind pkt x in
  let! id := mem_port mem_side_port_id x in
  let! (response_latency, pkt, w) := sendAtomic id backdoor pkt w in
  let! _ := (if isResponse (cmd pkt) && hasData (cmd pkt) then getSize pkt else Ok 0) in
  Ok (response_latency, set_payloadDelay (u32 response_latency) pkt, x, w).

(** [void recvMemBackdoorReq(const MemBackdoorReq &req, MemBackdoorPtr &backdoor)], for the
    range of the request. *)
Variable sendMemBackdoorReq : Z -> AddrRange -> W -> outcome W.

Definition recvMemBackdoorReq (r : AddrRange) (x : NoncoherentXBar) (w : W) : outcome (NoncoherentXBar * W) :=
  let! (dest_id, x) := nfind_range r x in
  let! id := mem_port dest_id x in
  let! w := sendMemBackdoorReq id r w in Ok (x, w).

(** [void recvFunctional(PacketPtr pkt, PortID cpu_side_port_id)]: the queues of the ports
    above are searched first. *)
Variable sendFunctional : Z -> FuncPkt -> W -> outcome (FuncPkt * W).

Definition recvFunctional (p : FuncPkt) (x : NoncoherentXBar) (qs : list (list MemPkt)) (w : W)
    : outcome (FuncPkt * NoncoherentXBar * list (list MemPkt) * W) :=
  let! (found, p, qs) := try_ports qs p in
  if (found : bool) then Ok (p, x, qs, w)
  else
    let! (dest_id, x) := nfind (pkt (fp p)) x in
    let! id := mem_port dest_id x in
    let! (p, w) := sendFunctional id p w in Ok (p, x, qs, w).
End handlers.

(** * Layers that retry *)

(** What a source does when it is told to retry, which may call the crossbar again;
    [get] and [put] are the layers of requests, or those of responses. *)
Section layers.
Context {W : Type}.
Variable get : NoncoherentXBar -> list Layer.
Variable put : list Layer -> NoncoherentXBar -> NoncoherentXBar.
Variable sendRetry : Z -> NoncoherentXBar -> W -> outcome (NoncoherentXBar * W).

(** [void retryWaiting()] of the layer [i]. *)
Definition nretryWaiting (cur i : Z) (x : NoncoherentXBar) (w : W) : outcome (NoncoherentXBar * W) :=
  let! l := nth_layer i (get x) in
  match waitingForLayer l with
  | [] => Err AssertFail
  | retryingPort :: waiting =>
      do! assert_ (bool_decide (state l = IDLE)) then
      let! (x, w) := sendRetry retryingPort (put (<[Z.to_nat i := set_waiting waiting (set_state RETRY l)]> (get x)) x) w in
      let! l := nth_layer i (get x) in
      if bool_decide (state l = RETRY) then
        let! (t, x) := nedge cur 0 x in
        let! l := occupyLayer cur t (set_state BUSY l) in
        Ok (put (<[Z.to_nat i := l]> (get x)) x, w)
      else Ok (x, w)
  end.

(** [void releaseLayer()] of the layer [i]; [signalDrainDone] tells the drain manager. *)
Definition nreleaseLayer (draining : bool) (signalDrainDone : W -> W) (cur i : Z) (x : NoncoherentXBar) (w : W)
    : outcome (NoncoherentXBar * W) :=
  let! l := nth_layer i (get x) in
  do! assert_ (bool_decide (state l = BUSY)) then
  do! assert_ (negb (bool_decide (is_Some (releaseEvent l)))) then
  let x := put (<[Z.to_nat i := set_state IDLE l]> (get x)) x in
  if negb (bool_decide (waitingForLayer l = [])) then
    if bool_decide (waitingForPeer l = None) then nretryWaiting cur i x w else Ok (x, w)
  else Ok (x, if bool_decide (waitingForPeer l = None) && draining then signalDrainDone w else w).

(** [void recvRetry()] of the layer [i]. *)
Definition nrecvRetry (cur i : Z) (x : NoncoherentXBar) (w : W) : outcome (NoncoherentXBar * W) :=
  let! l := nth_layer i (get x) in
  match waitingForPeer l with
  | None => Err AssertFail
  | Some src =>
      let x := put (<[Z.to_nat i := set_peer None (set_waiting (src :: waitingForLayer l) l)]> (get x)) x in
      if bool_decide (state l = IDLE) then nretryWaiting cur i x w
      else do! assert_ (bool_decide (state l = BUSY)) then Ok (x, w)
  end.
End layers.

(** [void recvReqRetry(PortID mem_side_port_id)]. *)
Definition recvReqRetry {W} (sendRetryReq : Z -> NoncoherentXBar -> W -> outcome (NoncoherentXBar * W)) (cur mem_side_port_id : Z)
    (x : NoncoherentXBar) (w : W) : outcome (NoncoherentXBar * W) :=
  nrecvRetry nreqLayers nset_req sendRetryReq cur mem_side_port_id x w.

(** * Histories *)

(** The two sides of a crossbar: requests, and responses. *)
Inductive side : Type := ReqSide | RespSide.

Definition layers (sd : side) (x : NoncoherentXBar) : list Layer :=
  match sd with ReqSide => nreqLayers x | RespSide => nrespLayers x end.
Definition set_layers (sd : side) (ls : list Layer) (x : NoncoherentXBar) : NoncoherentXBar :=
  match sd with ReqSide => nset_req ls x | RespSide => nset_resp ls x end.

(** What a history has seen: the requests that were taken and expect a response, in
    order, with the ports they came from, and the sources that were refused and have
    not been told to retry. *)
Record ledger : Type := mkLedger {
  asked : list (Z * Z);
  owed_req : gset Z;
  owed_resp : gset Z;
}.

Definition owed (sd : side) (w : ledger) : gset Z := match sd with ReqSide => owed_req w | RespSide => owed_resp w end.
Definition set_owed (sd : side) (v : gset Z) (w : ledger) : ledger :=
  match sd with
  | ReqSide => mkLedger (asked w) v (owed_resp w)
  | RespSide => mkLedger (asked w) (owed_req w) v
  end.
Definition owe (sd : side) (src : Z) (w : ledger) : ledger := set_owed sd ({[ src ]} ∪ owed sd w) w.
Definition pay (sd : side) (src : Z) (w : ledger) : ledger := set_owed sd (owed sd w ∖ {[ src ]}) w.
Definition note (k port : Z) (w : ledger) : ledger := mkLedger (asked w ++ [(k, port)]) (owed_req w) (owed_resp w).

(** A call of a port of the crossbar: a request from above, with what its destination
    answers and makes of the packet, or a response from below. *)
Inductive call : Type :=
  | Request (port : Z) (pkt : Packet) (taken : bool) (after : Packet)
  | Response (port : Z) (pkt : Packet).

Definition run_call (cur : Z) (c : call) (x : NoncoherentXBar) (w : ledger) : outcome (NoncoherentXBar * ledger) :=
  match c with
  | Request port pkt taken after =>
      let! (ok, _, x, _) := recvTimingReq (fun _ _ (u : unit) => Ok (taken, after, u)) cur pkt port x tt in
      Ok (x, if (ok : bool) then if expects pkt then note (req_key pkt) port w else w else owe ReqSide port w)
  | Response port pkt =>
      let! (ok, _, x) := recvTimingResp cur pkt port x in
      Ok (x, if (ok : bool) then w else owe RespSide port w)
  end.

Fixpoint run_calls (cur : Z) (cs : list call) (x : NoncoherentXBar) (w : ledger) : outcome (NoncoherentXBar * ledger) :=
  match cs with
  | [] => Ok (x, w)
  | c :: cs => let! (x, w) := run_call cur c x w in run_calls cur cs x w
  end.

(** A source that is told to retry makes the calls [cs]. *)
Definition told (sd : side) (cur : Z) (cs : list call) (src : Z) (x : NoncoherentXBar) (w : ledger)
    : outcome (NoncoherentXBar * ledger) := run_calls cur cs x (pay sd src w).

(** A crossbar at a point in time, with its ledger. *)
Record xsys : Type := mkXSys { xb : NoncoherentXBar; xnow : Z; led : ledger }.

Inductive xevent : Type :=
  | Calls (c : call)
  | Fire (sd : side) (i : Z) (draining : bool) (cs : list call)
  | Again (i : Z) (cs : list call)
  | Later (t : Z).

Definition xstep (s : xsys) (e : xevent) : outcome xsys :=
  match e with
  | Calls c => let! (x, w) := run_call (xnow s) c (xb s) (led s) in Ok (mkXSys x (xnow s) w)
  | Fire sd i draining cs =>
      let! l := nth_layer i (layers sd (xb s)) in
      match releaseEvent l with
      | None => Err Undefined
      | Some t =>
          let x := set_layers sd (<[Z.to_nat i := set_release None l]> (layers sd (xb s))) (xb s) in
          let! (x, w) := nreleaseLayer (layers sd) (set_layers sd) (told sd t cs) draining (fun w => w) t i x (led s) in Ok (mkXSys x t w)
      end
  | Again i cs =>
      let! (x, w) := recvReqRetry (told ReqSide (xnow s) cs) (xnow s) i (xb s) (led s) in Ok (mkXSys x (xnow s) w)
  | Later t => Ok (mkXSys (xb s) t (led s))
  end.

(** ** What is relied on *)

(** The port that the decoder has for a range, searched through all the entries. *)
Definition dest (q : AddrRange) (b : BaseXBar) : option Z :=
  match search (isSubset q) (tree (portMap b)) with
  | Some e => Some e.2
  | None =>
      if useDefaultRange b then if bool_decide (isSubset q (defaultRange b) = Ok true) then Some (defaultPortID b) else None
      else if defaultPortID b =? InvalidPortID then None else Some (defaultPortID b)
  end.
Definition reaches (q : AddrRange) (id : Z) (x : NoncoherentXBar) : Prop :=
  interleaved q = false /\ _start q < _end q /\ decided (isSubset q) (tree (portMap (nbase x))) /\
  dest q (nbase x) = Some id /\ 0 <= id < Z.of_nat (length (nreqLayers x)).

(** A packet that can go through the crossbar with the delay [d]. *)
Definition fits (d : Z) (pkt : Packet) (x : NoncoherentXBar) : Prop :=
  0 <= headerDelay pkt /\ 0 <= d /\ headerDelay pkt + clockPeriod (nclk x) + d <= nus (lat x) /\
  in_width 32 (payloadDelay pkt) /\ flag_isSet VALID_SIZE pkt = true.
Definition req_delay (x : NoncoherentXBar) : Z := u64 (u64 (frontend (lat x) + forward (lat x)) * clockPeriod (nclk x)).
Definition resp_delay (x : NoncoherentXBar) : Z := u64 (response (lat x) * clockPeriod (nclk x)).

(** A source that was refused waits until it is told; a request is not sent again while
    its response is expected; a response answers a request that expects one; and a
    coherence check is not refused, for the code does not survive that (see
    [check_refusal_fatal]). *)
Definition call_ok (c : call) (x : NoncoherentXBar) (w : ledger) : Prop :=
  match c with
  | Request port pkt taken after =>
      0 <= port < Z.of_nat (length (nrespLayers x)) /\ (port ∉ owed_req w) /\ isExpressSnoop pkt = false /\
      (expects pkt = true -> nrouteTo x !! req_key pkt = None) /\ req_key after = req_key pkt /\
      if bool_decide (cxl_packet_type (req pkt) = HostBiasCheck) then taken = true /\ exists id, reaches mainMem id x
      else (exists q id, getAddrRange pkt = Ok q /\ reaches q id x) /\ fits (req_delay x) pkt x
  | Response port pkt =>
      (port ∉ owed_resp w) /\ is_Some (nrouteTo x !! req_key pkt) /\ fits (resp_delay x) pkt x
  end.

Fixpoint calls_ok (cur : Z) (cs : list call) (x : NoncoherentXBar) (w : ledger) : Prop :=
  match cs with
  | [] => True
  | c :: cs => call_ok c x w /\ forall x' w', run_call cur c x w = Ok (x', w') -> calls_ok cur cs x' w'
  end.

(** The crossbar when the first source that waits for the layer [l] is told. *)
Definition tells (sd : side) (cur : Z) (i : Z) (l : Layer) (cs : list call) (x : NoncoherentXBar) (w : ledger) : Prop :=
  match waitingForLayer l with
  | [] => True
  | src :: _ => calls_ok cur cs (set_layers sd (<[Z.to_nat i := retrying l]> (layers sd x)) x) (pay sd src w)
  end.

(** Time passes up to the next release. *)
Definition passes (s : xsys) (t : Z) : Prop :=
  xnow s <= t < 2 ^ 61 /\ forall sd i l e, layers sd (xb s) !! i = Some l -> releaseEvent l = Some e -> t <= e.

Definition xevent_ok (s : xsys) (e : xevent) : Prop :=
  match e with
  | Calls c => call_ok c (xb s) (led s)
  | Fire sd i _ cs => exists l t, 0 <= i /\ layers sd (xb s) !! Z.to_nat i = Some l /\ releaseEvent l = Some t /\ passes s t /\
      (waitingForPeer l = None -> tells sd t i (set_release None l) cs (xb s) (led s))
  | Again i cs => exists l src, 0 <= i /\ nreqLayers (xb s) !! Z.to_nat i = Some l /\ waitingForPeer l = Some src /\
      (state l = IDLE -> tells ReqSide (xnow s) i (set_waiting (src :: waitingForLayer l) l) cs (xb s) (led s))
  | Later t => passes s t
  end.

(** A crossbar that has been built and knows the ranges of its ports. *)
Record fresh (cur : Z) (x : NoncoherentXBar) : Prop := {
  fr_layers : forall sd i l, layers sd x !! i = Some l -> l = new_Layer;
  fr_routes : nrouteTo x = ∅;
  fr_queued : nqueued x = [];
  fr_base : gotAllAddrRanges (nbase x) = true /\ map_wf (portMap (nbase x)) /\ 0 < width (nbase x);
  fr_clock : 0 < cur < 2 ^ 61 /\ 0 < clockPeriod (nclk x) <= 2 ^ 60 /\ 0 <= cycle (nclk x) <= tick (nclk x) /\
    tick (nclk x) < cur + clockPeriod (nclk x);
  fr_us : nus (lat x) < 2 ^ 32;
}.

Inductive xreachable : xsys -> Prop :=
  | xr_init cur x : fresh cur x -> xreachable (mkXSys x cur (mkLedger [] ∅ ∅))
  | xr_step s e s' : xreachable s -> xevent_ok s e -> xstep s e = Ok s' -> xreachable s'.

(** Of the requests of one object, the ports in order; and the ports the responses to
    it went to. *)
Definition asked_by (k : Z) (l : list (Z * Z)) : list Z := map snd (filter (fun e => e.1 = k) l).
Definition answered (k : Z) (q : list scheduled) : list Z :=
  map sc_port (filter (fun s => req_key (sc_pkt s) = k) q).

(** The sources that wait at a layer. *)
Definition waiters (l : Layer) : list Z := waitingForLayer l ++ option_list (waitingForPeer l).

(** * Layers *)

Definition layer_ok (cur : Z) (l : Layer) : Prop :=
  queues_ok l /\
  (busy_ok cur l \/
   (state l = IDLE /\ releaseEvent l = None /\ (waitingForLayer l <> [] -> waitingForPeer l <> None)) \/
   (state l = RETRY /\ releaseEvent l = None /\ waitingForPeer l = None)).

Lemma waiters_elem src l : src ∈ waiters l <-> src ∈ waitingForLayer l \/ waitingForPeer l = Some src.
Proof.
  unfold waiters. rewrite elem_of_app. destruct (waitingForPeer l) as [p |]; cbn [option_list option_rect].
  - rewrite list_elem_of_singleton. naive_solver.
  - rewrite elem_of_nil. naive_solver.
Qed.

Lemma layer_ok_open cur src l : layer_ok cur l -> (src ∉ waiters l) -> layer_open cur src l.
Proof.
  intros [Hq Hst] Hn. rewrite waiters_elem in Hn. split_and!; [done | tauto | tauto |].
  destruct Hst as [? | [(Hs & ? & _) | (Hs & ? & _)]]; [by left | |]; right; by rewrite Hs.
Qed.

(** The two ends of an attempt that the layer takes, and the layer that queues it. *)
Lemma try_layer cur src l : layer_ok cur l -> (src ∉ waiters l) ->
  (exists l', tryTiming src l = Ok (false, l') /\ layer_ok cur l' /\ state l' = state l /\ waitingForPeer l' = waitingForPeer l /\
     forall s, s ∈ waiters l' <-> s ∈ waiters l \/ s = src) \/
  (tryTiming src l = Ok (true, set_state BUSY l) /\ waitingForPeer l = None /\ releaseEvent l = None).
Proof.
  intros Hl Hn. pose proof (layer_ok_open _ _ _ Hl Hn) as (Hq & Hin & Hpe & _). destruct Hl as [_ Hst]. unfold tryTiming.
  rewrite (bool_decide_eq_false_2 _ Hin). cbn [negb assert_ obind].
  assert (Hpush : (state l = BUSY \/ waitingForPeer l <> None) -> let l' := set_waiting (waitingForLayer l ++ [src]) l in
    layer_ok cur l' /\ forall s, s ∈ waiters l' <-> s ∈ waiters l \/ s = src).
  { intros Hb. split.
    - split; [by apply queue_push |]. destruct Hst as [? | [(? & ? & ?) | (Hs & ? & Hp)]]; [by left | |].
      + right. left. cbn. split_and!; auto. intros _. destruct Hb; [congruence | done].
      + rewrite Hs, Hp in Hb. by destruct Hb.
    - intros s. rewrite !waiters_elem. cbn. rewrite elem_of_app, list_elem_of_singleton. tauto. }
  destruct (bool_decide (state l = BUSY)) eqn:Es; cbn [orb].
  { apply bool_decide_eq_true in Es. left. eexists. split; [reflexivity |]. destruct Hpush; [by left | by split_and!]. }
  apply bool_decide_eq_false in Es. destruct (waitingForPeer l) as [q |] eqn:Ep.
  { rewrite bool_decide_eq_true_2 by eauto. left. eexists. split; [reflexivity |]. destruct Hpush; [by right | by split_and!]. }
  rewrite bool_decide_eq_false_2 by (by intros []). right. split_and!; [done | done |].
  destruct Hst as [[? _] | [(_ & ? & _) | (_ & ? & _)]]; done.
Qed.

Lemma layer_taken_ok cur t l : queues_ok l -> waitingForPeer l = None -> releaseEvent l = None -> cur <= t -> 0 < t ->
  exists l', succeededTiming cur t (set_state BUSY l) = Ok l' /\ layer_ok cur l' /\ state l' = BUSY /\ waiters l' = waiters l /\
    waitingForPeer l' = None.
Proof.
  intros [Hn Hp] Hpe Hr Hc Ht. destruct (occupy_ok cur t (set_state BUSY l)) as (l' & E & Hb & Ew & Epr); auto.
  exists l'. unfold succeededTiming. cbn [state set_state]. rewrite bool_decide_eq_true_2 by done. cbn [assert_ obind].
  cbn [waitingForPeer waitingForLayer set_state] in *. split_and!; [done | | by destruct Hb | by unfold waiters; rewrite Ew, Epr | congruence].
  split; [| by left]. split; rewrite ?Ew, ?Epr; auto.
Qed.

Lemma layer_failed_ok cur src t l : queues_ok l -> (src ∉ waiters l) -> waitingForPeer l = None -> releaseEvent l = None ->
  cur <= t -> 0 < t ->
  exists l', failedTiming cur src t (set_state BUSY l) = Ok l' /\ layer_ok cur l' /\ state l' = BUSY /\
    forall s, s ∈ waiters l' <-> s ∈ waiters l \/ s = src.
Proof.
  intros [Hn Hp] Hw Hpe Hr Hc Ht. rewrite waiters_elem in Hw.
  destruct (occupy_ok cur t (set_peer (Some src) (set_state BUSY l))) as (l' & E & Hb & Ew & Epr); auto.
  exists l'. unfold failedTiming. cbn [waitingForPeer set_state]. rewrite Hpe, bool_decide_eq_true_2 by done. cbn [assert_ obind].
  cbn [state set_peer set_state]. rewrite bool_decide_eq_true_2 by done. cbn [assert_ obind].
  cbn [waitingForPeer waitingForLayer set_state set_peer] in *. split_and!; [done | | by destruct Hb |].
  - split; [| by left]. split; rewrite ?Ew, ?Epr; auto. intros p [= <-]. tauto.
  - intros s. rewrite !waiters_elem, Ew, Epr, Hpe. naive_solver.
Qed.

(** ** The layers of a side *)

(** [r] is the layer that is telling a source to retry; only requests wait for the
    destination. *)
Record side_inv (sd : side) (cur : Z) (r : option nat) (ls : list Layer) (ow : gset Z) : Prop := {
  sv_layer : forall i l, ls !! i = Some l -> layer_ok cur l;
  sv_retry : forall i l, ls !! i = Some l -> state l = RETRY -> r = Some i;
  sv_once : forall i j l m src, ls !! i = Some l -> ls !! j = Some m -> src ∈ waiters l -> src ∈ waiters m -> i = j;
  sv_owed : forall src, src ∈ ow <-> exists i l, ls !! i = Some l /\ src ∈ waiters l;
  sv_peer : forall i l, ls !! i = Some l -> sd = RespSide -> waitingForPeer l = None;
  sv_there : forall i, r = Some i -> is_Some (ls !! i);
}.

(** A change of one layer that keeps the books. *)
Lemma side_put sd cur r r' ls ow ow' i l l' : side_inv sd cur r ls ow -> ls !! i = Some l -> layer_ok cur l' ->
  (state l' = RETRY -> r' = Some i) -> (r = r' \/ r = None \/ r = Some i) -> (r' = r \/ r' = None \/ r' = Some i) ->
  (sd = RespSide -> waitingForPeer l' = None) ->
  (forall s, s ∈ waiters l' -> s ∈ waiters l \/ s ∉ ow) -> (forall s, s ∈ ow' <-> (s ∈ ow /\ s ∉ waiters l) \/ s ∈ waiters l') ->
  side_inv sd cur r' (<[i := l']> ls) ow'.
Proof.
  intros [Hl Hr Ho Hw Hp Hth] Hi Hl' Hr' Hrr Hrr' Hp' Hsub How.
  assert (Hc : forall j m, <[i := l']> ls !! j = Some m -> (j = i /\ m = l') \/ (j <> i /\ ls !! j = Some m)).
  { intros j m. destruct (decide (j = i)) as [-> | Hne]; [| rewrite list_lookup_insert_ne by done; auto].
    rewrite list_lookup_insert_eq by (by eapply lookup_lt_Some). intros [= <-]. by left. }
  assert (Hi' : <[i := l']> ls !! i = Some l') by (apply list_lookup_insert_eq; by eapply lookup_lt_Some).
  split.
  - intros j m [[-> ->] | [_ Hm]]%Hc; [done | by apply (Hl j)].
  - intros j m [[-> ->] | [Hne Hm]]%Hc Hs; [auto |]. pose proof (Hr j m Hm Hs) as E. destruct Hrr as [<- | [-> | ->]]; [done | done |]. congruence.
  - intros j k m n src [[-> ->] | [Hj Hm]]%Hc [[-> ->] | [Hk Hn]]%Hc Hsm Hsn; [done | | |].
    + destruct (Hsub _ Hsm) as [H | H]; [by apply (Ho i k l n src) | exfalso; apply H, Hw; eauto].
    + destruct (Hsub _ Hsn) as [H | H]; [by apply (Ho j i m l src) | exfalso; apply H, Hw; eauto].
    + by apply (Ho j k m n src).
  - intros src. rewrite How, Hw. split.
    + intros [[(j & m & Hm & Hs) Hn] | Hs]; [| by exists i, l'].
      destruct (decide (j = i)) as [-> | Hne]; [congruence |]. exists j, m. by rewrite list_lookup_insert_ne.
    + intros (j & m & [[-> ->] | [Hne Hm]]%Hc & Hs); [by right |]. left. split; [by exists j, m |].
      intros Hs'. apply Hne. by apply (Ho j i m l src).
  - intros j m [[-> ->] | [_ Hm]]%Hc; [done | by apply (Hp j)].
  - intros j Ej. destruct (decide (j = i)) as [-> | Hne]; [by eexists |]. rewrite list_lookup_insert_ne by done. apply Hth.
    destruct Hrr' as [<- | [-> | ->]]; [done | done |]. congruence.
Qed.

Lemma side_time sd cur t r ls ow : side_inv sd cur r ls ow ->
  (forall i l e, ls !! i = Some l -> releaseEvent l = Some e -> t <= e) -> side_inv sd t r ls ow.
Proof.
  intros [Hl Hr Ho Hw Hp Hth] Ht. split; auto. intros i l Hi. destruct (Hl i l Hi) as [Hq Hst]. split; [done |].
  destruct Hst as [(Hs & e & He & _ & Hpos) | ?]; [| by right]. left. split; [done |]. exists e. split_and!; [done | by apply (Ht i l) | done].
Qed.

(** * The crossbar *)

Definition base_inv (b : BaseXBar) : Prop := gotAllAddrRanges b = true /\ map_wf (portMap b) /\ 0 < width b.
Definition clk_inv (cur : Z) (c : Clocked) : Prop :=
  0 < cur < 2 ^ 61 /\ 0 < clockPeriod c <= 2 ^ 60 /\ 0 <= cycle c <= tick c /\ tick c < cur + clockPeriod c.

(** [r] has the layers that are telling a source to retry. *)
Record xinv (r : side -> option nat) (cur : Z) (x : NoncoherentXBar) (w : ledger) : Prop := {
  xi_sides : forall sd, side_inv sd cur (r sd) (layers sd x) (owed sd w);
  xi_base : base_inv (nbase x);
  xi_clock : clk_inv cur (nclk x);
  xi_us : nus (lat x) < 2 ^ 32;
  xi_routes : forall k, asked_by k (asked w) = answered k (nqueued x) ++ option_list (nrouteTo x !! k);
  xi_ports : forall k p, nrouteTo x !! k = Some p -> 0 <= p < Z.of_nat (length (nrespLayers x));
}.

Lemma clk_inv_at cur c : clk_inv cur c -> clock_at cur c.
Proof. intros (H1 & H2 & H3 & H4). split; lia. Qed.

Lemma clk_inv_update cur c c' : clk_inv cur c -> update cur c = Ok c' -> clk_inv cur c' /\ clockPeriod c' = clockPeriod c.
Proof.
  intros (H1 & H2 & H3 & H4) Hu. destruct (update_spec cur c) as (c1 & n & Hu' & Hn & Et & Ec & Ep & Hle & Hlast).
  { split; lia. }
  rewrite Hu in Hu'. injection Hu' as <-. split; [| done]. unfold clk_inv. rewrite Ep, Et, Ec in *. nia.
Qed.

Lemma clk_inv_later cur t c : clk_inv cur c -> cur <= t < 2 ^ 61 -> clk_inv t c.
Proof. unfold clk_inv. lia. Qed.

Lemma nedge_ok cur k x : clk_inv cur (nclk x) -> 0 <= k <= 1 ->
  exists t c', nedge cur k x = Ok (t, nset_clk c' x) /\ cur <= t /\ t < 2 ^ 63 /\ clk_inv cur c' /\ clockPeriod c' = clockPeriod (nclk x).
Proof.
  intros Hc Hk. pose proof Hc as (H1 & H2 & _). unfold nedge.
  destruct (clockEdge_at cur k (nclk x) (clk_inv_at _ _ Hc)) as (t & c' & E & _ & _ & Ht); [lia | nia |].
  assert (Hu : update cur (nclk x) = Ok c') by (unfold clockEdge in E; obind_inv; done).
  destruct (clk_inv_update _ _ _ Hc Hu) as [Hc' Ep]. rewrite E. cbn [obind].
  assert (0 <= k * clockPeriod (nclk x) /\ (k + 1) * clockPeriod (nclk x) <= 2 * clockPeriod (nclk x)) by nia.
  exists t, c'. split_and!; auto; lia.
Qed.

Lemma ntiming_ok cur d pkt x : clk_inv cur (nclk x) -> base_inv (nbase x) -> nus (lat x) < 2 ^ 32 -> fits d pkt x ->
  exists t pkt' c', ntiming cur d pkt x = Ok (t, pkt', nset_clk c' x) /\ same_packet pkt pkt' /\ cur <= t /\ clk_inv cur c'.
Proof.
  intros Hc (_ & _ & Hw) Hus (F1 & F2 & F3 & F4 & F5). unfold ntiming.
  destruct (calcPacketTiming_ok (nus (lat x)) cur (nclk x) d (nbase x) pkt (clk_inv_at _ _ Hc)) as (p1 & c1 & -> & Hu & Hsame & _ & Hp1 & _); auto.
  cbn [obind]. destruct (clk_inv_update _ _ _ Hc Hu) as [Hc1 Ep].
  destruct (nedge_ok cur 1 (nset_clk c1 x) Hc1) as (t & c2 & -> & Ht & Ht' & Hc2 & _); [lia |]. cbn [obind].
  eexists _, p1, c2. split; [reflexivity |]. unfold in_width in Hp1. destruct Hc as (Hcur & _).
  rewrite wrap_small by (unfold in_width; lia). split_and!; auto; lia.
Qed.

(** The decoder finds the port of a range; nothing but its cache changes. *)
Lemma find_range_ok q id x : reaches q id x -> base_inv (nbase x) ->
  exists b', findPort_range q (nbase x) = Ok (id, b') /\ base_inv b'.
Proof.
  intros (Hi & Hlt & Hd & Hid & _) (Hg & Hw & Hwd). unfold findPort_range. rewrite Hg. cbn [assert_ obind].
  destruct (map_contains_ok portMap_cache q (portMap (nbase x)) Hw Hi Hlt Hd) as (m' & -> & Et & Hw').
  cbn [obind]. unfold dest in Hid. destruct (search _ _) as [e |].
  - injection Hid as <-. eexists. split; [reflexivity |]. by split_and!.
  - cbn [useDefaultRange set_portMap defaultRange defaultPortID]. destruct (useDefaultRange (nbase x)).
    + case_bool_decide as E; [| done]. rewrite E. injection Hid as <-. cbn [obind]. eexists. split; [reflexivity |]. by split_and!.
    + destruct (defaultPortID (nbase x) =? InvalidPortID); [done |]. injection Hid as <-. cbn [negb].
      eexists. split; [reflexivity |]. by split_and!.
Qed.

(** Changes that keep the invariant. *)
Lemma xinv_frame r cur x w b c : xinv r cur x w -> base_inv b -> clk_inv cur c -> xinv r cur (nset_clk c (nset_base b x)) w.
Proof. intros [Hs Hb Hc Hu Hr Hp] Hb' Hc'. split; auto. Qed.

Lemma xinv_clk r cur x w c : xinv r cur x w -> clk_inv cur c -> xinv r cur (nset_clk c x) w.
Proof. intros [Hs Hb Hc Hu Hr Hp] Hc'. by split. Qed.

Definition at_side (r : side -> option nat) (sd : side) (v : option nat) (sd' : side) : option nat :=
  match sd, sd' with ReqSide, ReqSide | RespSide, RespSide => v | _, _ => r sd' end.

Lemma xinv_put sd r v cur x w i l l' ow' : xinv r cur x w -> layers sd x !! i = Some l -> layer_ok cur l' ->
  (state l' = RETRY -> v = Some i) -> (r sd = v \/ r sd = None \/ r sd = Some i) -> (v = r sd \/ v = None \/ v = Some i) ->
  (sd = RespSide -> waitingForPeer l' = None) ->
  (forall s, s ∈ waiters l' -> s ∈ waiters l \/ s ∉ owed sd w) ->
  (forall s, s ∈ ow' <-> (s ∈ owed sd w /\ s ∉ waiters l) \/ s ∈ waiters l') ->
  xinv (at_side r sd v) cur (set_layers sd (<[i := l']> (layers sd x)) x) (set_owed sd ow' w).
Proof.
  intros [Hs Hb Hc Hu Hr Hp] Hi Hl' H1 H2 H2' H3 H4 H5. pose proof (side_put _ _ _ _ _ _ _ _ _ _ (Hs sd) Hi Hl' H1 H2 H2' H3 H4 H5) as Hside.
  destruct sd; split; auto.
  - intros []; [exact Hside | apply (Hs RespSide)].
  - intros []; [apply (Hs ReqSide) | exact Hside].
  - intros k p Hk. cbn. rewrite length_insert. by apply (Hp k).
Qed.

(** A layer that takes a packet, or that has one more source waiting. *)
Lemma xinv_same sd r cur x w i l l' : xinv r cur x w -> layers sd x !! i = Some l -> layer_ok cur l' ->
  (state l' = RETRY -> state l = RETRY) -> (sd = RespSide -> waitingForPeer l' = None) -> (forall s, s ∈ waiters l' <-> s ∈ waiters l) ->
  xinv r cur (set_layers sd (<[i := l']> (layers sd x)) x) w.
Proof.
  intros Hx Hi Hl' H1 H3 H4. pose proof (xi_sides _ _ _ _ Hx sd) as Hs.
  assert (Hw : forall s, s ∈ waiters l -> s ∈ owed sd w) by (intros s Hs'; apply (sv_owed _ _ _ _ _ Hs); eauto).
  replace w with (set_owed sd (owed sd w) w) by (by destruct sd, w).
  assert (Hx' : xinv (at_side r sd (r sd)) cur (set_layers sd (<[i:=l']> (layers sd x)) x) (set_owed sd (owed sd w) w)).
  { eapply xinv_put; eauto.
    - intros Hr. apply (sv_retry _ _ _ _ _ Hs i l); auto.
    - intros s. rewrite H4. auto.
    - intros s. rewrite H4. destruct (decide (s ∈ waiters l)); naive_solver. }
  destruct Hx' as [Hs' ? ? ? ? ?]. split; auto. intros sd'. specialize (Hs' sd'). by destruct sd, sd'.
Qed.

Lemma xinv_owe sd r cur x w i l l' src : xinv r cur x w -> layers sd x !! i = Some l -> layer_ok cur l' ->
  (state l' = RETRY -> state l = RETRY) -> (sd = RespSide -> waitingForPeer l' = None) -> (src ∉ owed sd w) ->
  (forall s, s ∈ waiters l' <-> s ∈ waiters l \/ s = src) ->
  xinv r cur (set_layers sd (<[i := l']> (layers sd x)) x) (owe sd src w).
Proof.
  intros Hx Hi Hl' H1 H3 Hn H4. pose proof (xi_sides _ _ _ _ Hx sd) as Hs.
  assert (Hw : forall s, s ∈ waiters l -> s ∈ owed sd w) by (intros s Hs'; apply (sv_owed _ _ _ _ _ Hs); eauto).
  assert (Hx' : xinv (at_side r sd (r sd)) cur (set_layers sd (<[i:=l']> (layers sd x)) x) (owe sd src w)).
  { eapply xinv_put; eauto.
    - intros Hr. apply (sv_retry _ _ _ _ _ Hs i l); auto.
    - intros s [? | ->]%H4; auto.
    - intros s. rewrite H4, elem_of_union, elem_of_singleton. destruct (decide (s ∈ waiters l)); naive_solver. }
  destruct Hx' as [Hs' ? ? ? ? ?]. split; auto. intros sd'. specialize (Hs' sd'). by destruct sd, sd'.
Qed.

(** ** Calls *)

Lemma nth_layer_ok i ls l : 0 <= i -> ls !! Z.to_nat i = Some l -> nth_layer i ls = Ok l.
Proof. intros Hi Hl. unfold nth_layer. destruct (Z.ltb_spec i 0); [lia |]. by rewrite Hl. Qed.

Lemma on_layer_ok {A} i (f : Layer -> outcome (A * Layer)) ls l a l' : 0 <= i -> ls !! Z.to_nat i = Some l -> f l = Ok (a, l') ->
  on_layer i f ls = Ok (a, <[Z.to_nat i := l']> ls).
Proof. intros Hi Hl Hf. unfold on_layer. rewrite (nth_layer_ok i ls l Hi Hl). cbn [obind]. by rewrite Hf. Qed.

Lemma layer_at i (ls : list Layer) : 0 <= i < Z.of_nat (length ls) -> exists l, ls !! Z.to_nat i = Some l.
Proof. intros Hi. apply lookup_lt_is_Some. lia. Qed.

Lemma asked_by_snoc k l k' p : asked_by k (l ++ [(k', p)]) = asked_by k l ++ (if decide (k' = k) then [p] else []).
Proof. unfold asked_by. rewrite filter_app, map_app. f_equal. cbn. by destruct (decide (k' = k)). Qed.

Lemma answered_snoc k q s : answered k (q ++ [s]) = answered k q ++ (if decide (req_key (sc_pkt s) = k) then [sc_port s] else []).
Proof. unfold answered. rewrite filter_app, map_app. f_equal. cbn. by destruct (decide (req_key (sc_pkt s) = k)). Qed.

(** A request that expects a response is remembered, and a response forgets it. *)
Lemma xinv_ask r cur x w k port : xinv r cur x w -> nrouteTo x !! k = None -> 0 <= port < Z.of_nat (length (nrespLayers x)) ->
  xinv r cur (nset_route (<[k := port]> (nrouteTo x)) x) (note k port w).
Proof.
  intros [Hs Hb Hc Hu Hr Hp] Hk Hport. split; auto.
  - intros k'. cbn [asked note nqueued nset_route nrouteTo]. rewrite asked_by_snoc, Hr, <- app_assoc. f_equal.
    destruct (decide (k = k')) as [<- | Hne]; [by rewrite Hk, lookup_insert_eq | by rewrite lookup_insert_ne, app_nil_r].
  - intros k' p. cbn [nrouteTo nset_route]. intros [(<- & <-) | (_ & H)]%lookup_insert_Some; [done | by apply (Hp k')].
Qed.

Lemma xinv_answer r cur x w port pkt when : xinv r cur x w -> nrouteTo x !! req_key pkt = Some port ->
  xinv r cur (nset_route (delete (req_key pkt) (nrouteTo x)) (nset_queued (nqueued x ++ [mkScheduled port pkt when]) x)) w.
Proof.
  intros [Hs Hb Hc Hu Hr Hp] Hk. split; auto.
  - intros k. cbn [nqueued nset_route nset_queued nrouteTo]. rewrite answered_snoc, Hr, <- app_assoc. cbn [sc_pkt sc_port]. f_equal.
    destruct (decide (req_key pkt = k)) as [<- | Hne]; [by rewrite Hk, lookup_delete_eq | by rewrite lookup_delete_ne].
  - intros k p. cbn [nrouteTo nset_route]. intros [_ H]%lookup_delete_Some. by apply (Hp k).
Qed.

Lemma size_read d pkt x : fits d pkt x -> (if hasData (cmd pkt) then getSize pkt else Ok 0) = Ok (if hasData (cmd pkt) then psize pkt else 0).
Proof. intros (_ & _ & _ & _ & H). unfold getSize. rewrite H. by destruct (hasData _). Qed.

Lemma same_expects p p' : same_packet p p' -> expects p' = expects p.
Proof. intros H. unfold expects, cacheResponding. by rewrite (sp_cmd _ _ H), (same_packet_flag _ _ _ H). Qed.

Lemma waits_nowhere sd r cur x w i l src : xinv r cur x w -> layers sd x !! i = Some l -> (src ∉ owed sd w) -> src ∉ waiters l.
Proof. intros Hx Hl Hn Hs. apply Hn, (sv_owed _ _ _ _ _ (xi_sides _ _ _ _ Hx sd)). eauto. Qed.

Section calls.
Variables (r : side -> option nat) (cur : Z).

Lemma check_call x w port pkt taken after : xinv r cur x w -> call_ok (Request port pkt taken after) x w ->
  cxl_packet_type (req pkt) = HostBiasCheck -> exists x' w', run_call cur (Request port pkt taken after) x w = Ok (x', w') /\ xinv r cur x' w'.
Proof.
  intros Hx (Hport & _ & _ & Hnew & _ & Hk) E. cbn [run_call]. unfold recvTimingReq, check_request. rewrite bool_decide_eq_true_2 in * by done.
  destruct Hk as (-> & id & Hreach). pose proof Hreach as (_ & _ & _ & _ & Hid).
  set (x1 := if expects pkt then nset_route (<[req_key pkt := port]> (nrouteTo x)) x else x).
  set (w1 := if expects pkt then note (req_key pkt) port w else w).
  assert (E1 : (if expects pkt then nremember port pkt x else Ok x) = Ok x1 /\ xinv r cur x1 w1 /\ nbase x1 = nbase x /\ nreqLayers x1 = nreqLayers x).
  { unfold x1, w1, nremember. destruct (expects pkt); [| done]. rewrite (Hnew eq_refl), bool_decide_eq_true_2 by done.
    split; [done |]. split; [| done]. apply xinv_ask; auto. }
  destruct E1 as (-> & Hx1 & Eb & El). cbn [obind]. unfold nfind_range.
  destruct (find_range_ok mainMem id x Hreach (xi_base _ _ _ _ Hx)) as (b' & Hf & Hb'). rewrite Eb, Hf. cbn [obind].
  unfold mem_port. change (nreqLayers (nset_base b' x1)) with (nreqLayers x1). rewrite El.
  destruct (Z.ltb_spec id 0); [lia |]. destruct (Z.leb_spec (Z.of_nat (length (nreqLayers x))) id); [lia |]. cbn [orb obind].
  eexists _, _. split; [reflexivity |]. apply (xinv_frame r cur x1 w1 b' (nclk x1)); auto. apply (xi_clock _ _ _ _ Hx1).
Qed.

(** What follows the test of the layer [l], which takes the packet of [port]. *)
Lemma send_request_ok x w port id pkt taken after l : xinv r cur x w -> 0 <= port < Z.of_nat (length (nrespLayers x)) ->
  (port ∉ owed_req w) -> (expects pkt = true -> nrouteTo x !! req_key pkt = None) -> req_key after = req_key pkt ->
  fits (req_delay x) pkt x -> 0 <= id -> nreqLayers x !! Z.to_nat id = Some l -> (port ∉ waiters l) ->
  waitingForPeer l = None -> releaseEvent l = None ->
  exists q x', send_request (fun _ _ (u : unit) => Ok (taken, after, u)) cur pkt port id
      (nset_req (<[Z.to_nat id := set_state BUSY l]> (nreqLayers x)) x) tt = Ok (taken, q, x', tt) /\
    xinv r cur x' (if taken then if expects pkt then note (req_key pkt) port w else w else owe ReqSide port w).
Proof.
  intros Hx Hport Hfree Hnew Hafter Hfits Hid Hl Hn Hpe Hrel. unfold send_request. rewrite (size_read _ _ _ Hfits). cbn [obind].
  set (x2 := nset_req _ x).
  destruct (ntiming_ok cur (req_delay x) pkt x2) as (t & pkt' & c' & Htm & Hsame & Htc & Hc');
    [apply (xi_clock _ _ _ _ Hx) | apply (xi_base _ _ _ _ Hx) | apply (xi_us _ _ _ _ Hx) | done |].
  change (u64 (u64 (frontend (lat x2) + forward (lat x2)) * clockPeriod (nclk x2))) with (req_delay x). rewrite Htm. cbn [obind].
  pose proof (proj1 (xi_clock _ _ _ _ Hx)) as Hcur. destruct (sv_layer _ _ _ _ _ (xi_sides _ _ _ _ Hx ReqSide) _ l Hl) as [Hq _].
  assert (Hl2 : nreqLayers x2 !! Z.to_nat id = Some (set_state BUSY l)) by (cbn; apply list_lookup_insert_eq; by eapply lookup_lt_Some).
  unfold on_req. destruct taken; cbn [negb].
  - destruct (layer_taken_ok cur t l Hq Hpe Hrel) as (l' & Es & Hl' & Hb & Hw & Hp'); [lia | lia |].
    pose proof (xinv_clk _ _ _ _ c' Hx Hc') as Hx3.
    set (x4 := if expects pkt then nset_route (<[req_key pkt := port]> (nrouteTo x)) (nset_clk c' x) else nset_clk c' x).
    assert (E4 : (if expects pkt' then nremember port after (nset_clk c' x2) else Ok (nset_clk c' x2)) = Ok (nset_req (nreqLayers x2) x4)).
    { rewrite (same_expects _ _ Hsame). unfold x4, nremember. rewrite Hafter. destruct (expects pkt); [| done].
      change (nrouteTo (nset_clk c' x2)) with (nrouteTo x). by rewrite (Hnew eq_refl), bool_decide_eq_true_2. }
    assert (Hx4 : xinv r cur x4 (if expects pkt then note (req_key pkt) port w else w) /\ nreqLayers x4 = nreqLayers x).
    { unfold x4. destruct (expects pkt) eqn:Ee; [| done]. split; [| done]. by apply (xinv_ask r cur (nset_clk c' x)); auto. }
    destruct Hx4 as [Hx4 El4]. rewrite E4. cbn [obind nreqLayers nset_req]. unfold unit_op.
    rewrite (on_layer_ok id _ _ _ tt l' Hid Hl2); [| by rewrite Es]. cbn [obind]. eexists _, _. split; [reflexivity |].
    cbn [x2 nreqLayers nset_req]. rewrite list_insert_insert_eq, <- El4.
    apply (xinv_same ReqSide r cur x4 _ (Z.to_nat id) l l'); auto; [by cbn; rewrite El4 | congruence | intros s; by rewrite Hw].
  - destruct (nedge_ok cur 1 (nset_clk c' x2) Hc') as (t' & c2 & -> & Ht' & _ & Hc2 & _); [lia |]. cbn [obind].
    destruct (layer_failed_ok cur port t' l Hq Hn Hpe Hrel) as (l' & Es & Hl' & Hb & Hw); [lia | lia |]. unfold unit_op.
    rewrite (on_layer_ok id _ _ _ tt l' Hid Hl2); [| by rewrite Es]. cbn [obind]. eexists _, _. split; [reflexivity |].
    cbn [nreqLayers nset_clk x2 nset_req]. rewrite list_insert_insert_eq.
    apply (xinv_owe ReqSide r cur (nset_clk c2 x) w (Z.to_nat id) l l' port (xinv_clk _ _ _ _ c2 Hx Hc2)); auto; congruence.
Qed.

Lemma request_call x w port pkt taken after : xinv r cur x w -> call_ok (Request port pkt taken after) x w ->
  cxl_packet_type (req pkt) <> HostBiasCheck -> exists x' w', run_call cur (Request port pkt taken after) x w = Ok (x', w') /\ xinv r cur x' w'.
Proof.
  intros Hx (Hport & Hfree & Hes & Hnew & Hafter & Hk) E. cbn [run_call]. unfold recvTimingReq. rewrite bool_decide_eq_false_2 in * by done.
  destruct Hk as [(q & id & Hq & Hreach) Hfits]. pose proof Hreach as (_ & _ & _ & _ & Hid). rewrite Hes. cbn [negb assert_ obind].
  unfold nfind, XBar.findPort. rewrite Hq. cbn [obind].
  destruct (find_range_ok q id x Hreach (xi_base _ _ _ _ Hx)) as (b' & -> & Hb'). cbn [obind].
  pose proof (xinv_frame r cur x w b' (nclk x) Hx Hb' (xi_clock _ _ _ _ Hx)) as Hx1. set (x1 := nset_base b' x) in *.
  change (nset_clk (nclk x) x1) with x1 in Hx1.
  destruct (layer_at id (nreqLayers x1)) as (l & Hl); [done |].
  pose proof (waits_nowhere ReqSide r cur x1 w _ l port Hx1 Hl Hfree) as Hn.
  pose proof (sv_layer _ _ _ _ _ (xi_sides _ _ _ _ Hx1 ReqSide) _ l Hl) as Hlok.
  unfold on_req. destruct (try_layer cur port l Hlok Hn) as [(l' & Ht & Hl' & Es & Ep & Hw) | (Ht & Hpe & Hrel)];
    rewrite (on_layer_ok id _ _ l _ _ (proj1 Hid) Hl Ht); cbn [obind negb].
  - eexists _, _. split; [reflexivity |]. apply (xinv_owe ReqSide r cur x1 w (Z.to_nat id) l l' port); auto; congruence.
  - destruct (send_request_ok x1 w port id pkt taken after l) as (q' & x' & -> & Hx'); auto; [lia |]. cbn [obind]. by eexists _, _.
Qed.

Lemma response_call x w port pkt : xinv r cur x w -> call_ok (Response port pkt) x w ->
  exists x' w', run_call cur (Response port pkt) x w = Ok (x', w') /\ xinv r cur x' w'.
Proof.
  intros Hx (Hfree & [cpu Hcpu] & Hfits). cbn [run_call]. unfold recvTimingResp. rewrite Hcpu.
  pose proof (xi_ports _ _ _ _ Hx _ _ Hcpu) as Hid. assert (E : cpu =? InvalidPortID = false) by (unfold InvalidPortID; lia). rewrite E.
  cbn [negb assert_ obind]. unfold in_layers. assert (E2 : (0 <=? cpu) && (cpu <? Z.of_nat (length (nrespLayers x))) = true) by lia.
  rewrite E2. cbn [assert_ obind]. destruct (layer_at cpu (nrespLayers x) Hid) as (l & Hl).
  pose proof (waits_nowhere RespSide r cur x w _ l port Hx Hl Hfree) as Hn.
  pose proof (sv_layer _ _ _ _ _ (xi_sides _ _ _ _ Hx RespSide) _ l Hl) as Hlok.
  pose proof (sv_peer _ _ _ _ _ (xi_sides _ _ _ _ Hx RespSide) _ l Hl eq_refl) as Hpeer.
  unfold on_resp. destruct (try_layer cur port l Hlok Hn) as [(l' & Ht & Hl' & Es & Ep & Hw) | (Ht & Hpe & Hrel)];
    rewrite (on_layer_ok cpu _ _ l _ _ (proj1 Hid) Hl Ht); cbn [obind negb].
  { eexists _, _. split; [reflexivity |]. apply (xinv_owe RespSide r cur x w (Z.to_nat cpu) l l' port); auto; congruence. }
  rewrite (size_read _ _ _ Hfits). cbn [obind]. set (x2 := nset_resp _ x).
  destruct (ntiming_ok cur (resp_delay x) pkt x2) as (t & pkt' & c' & Htm & Hsame & Htc & Hc'); [apply (xi_clock _ _ _ _ Hx) | apply (xi_base _ _ _ _ Hx) | apply (xi_us _ _ _ _ Hx) | done |].
  change (u64 (response (lat x2) * clockPeriod (nclk x2))) with (resp_delay x). rewrite Htm. cbn [obind].
  pose proof (proj1 (xi_clock _ _ _ _ Hx)) as Hcur.
  destruct (layer_taken_ok cur t l (proj1 Hlok) Hpe Hrel) as (l' & Es & Hl' & Hb & Hw & Hp'); [lia | lia |]. unfold unit_op.
  assert (Ek : req_key (set_headerDelay 0 pkt') = req_key pkt) by (unfold req_key; cbn; by rewrite (sp_req _ _ Hsame)).
  rewrite (on_layer_ok cpu _ _ (set_state BUSY l) tt l' (proj1 Hid)); [| cbn; apply list_lookup_insert_eq; by eapply lookup_lt_Some | by rewrite Es].
  cbn [obind]. eexists _, _. split; [reflexivity |]. cbn [nrespLayers nset_route nset_queued nset_clk x2 nset_resp nrouteTo nqueued].
  rewrite list_insert_insert_eq. rewrite <- Ek in Hcpu.
  pose proof (xinv_clk _ _ _ _ c' Hx Hc') as Hx3.
  apply (xinv_same RespSide r cur _ w (Z.to_nat cpu) l l' (xinv_answer r cur _ w cpu _ (u64 (cur + headerDelay pkt')) Hx3 Hcpu)); auto; try congruence.
  intros s. by rewrite Hw.
Qed.

Lemma call_good c x w : xinv r cur x w -> call_ok c x w -> exists x' w', run_call cur c x w = Ok (x', w') /\ xinv r cur x' w'.
Proof.
  intros Hx Hc. destruct c as [port pkt taken after | port pkt]; [| by apply response_call].
  destruct (decide (cxl_packet_type (req pkt) = HostBiasCheck)); [by apply check_call | by apply request_call].
Qed.

Lemma calls_good cs : forall x w, xinv r cur x w -> calls_ok cur cs x w ->
  exists x' w', run_calls cur cs x w = Ok (x', w') /\ xinv r cur x' w'.
Proof.
  induction cs as [| c cs IH]; intros x w Hx Hok; cbn [run_calls]; [by eexists _, _ |]. destruct Hok as [Hc Hcs].
  destruct (call_good c x w Hx Hc) as (x1 & w1 & E & Hx1). rewrite E. cbn [obind]. apply IH; auto.
Qed.
End calls.

(** ** Retries *)

#[local] Abbreviation rest := (fun _ : side => @None nat).

Lemma xinv_settle sd cur x w i l : xinv (at_side rest sd (Some i)) cur x w -> layers sd x !! i = Some l -> state l <> RETRY ->
  xinv rest cur x w.
Proof.
  intros [Hs Hb Hc Hu Hr Hp] Hi Hn. split; auto. intros sd'. specialize (Hs sd'). destruct sd, sd'; cbn in *; auto;
    (destruct Hs as [Hl Hre Ho Hw Hpe Hth]; split; auto; [| done]; intros j m Hm Em; pose proof (Hre j m Hm Em) as [= <-]; congruence).
Qed.

Lemma set_layers_twice sd ls ls' x : set_layers sd ls (set_layers sd ls' x) = set_layers sd ls x.
Proof. by destruct sd. Qed.
Lemma layers_set sd ls x : layers sd (set_layers sd ls x) = ls.
Proof. by destruct sd. Qed.
Lemma layers_clk sd c x : layers sd (nset_clk c x) = layers sd x.
Proof. by destruct sd. Qed.
Lemma owed_set sd v w : owed sd (set_owed sd v w) = v.
Proof. by destruct sd. Qed.

(** The layer [l] in the place of [l0], which has the same sources waiting, tells the
    first of them. *)
Lemma retry_good sd cur x w i l0 l src waiting cs : xinv rest cur x w -> 0 <= i -> layers sd x !! Z.to_nat i = Some l0 ->
  (forall s, s ∈ waiters l0 <-> s ∈ waiters l) -> queues_ok l -> state l = IDLE -> releaseEvent l = None ->
  waitingForPeer l = None -> waitingForLayer l = src :: waiting ->
  calls_ok cur cs (set_layers sd (<[Z.to_nat i := retrying l]> (layers sd x)) x) (pay sd src w) ->
  exists x' w', nretryWaiting (layers sd) (set_layers sd) (told sd cur cs) cur i
      (set_layers sd (<[Z.to_nat i := l]> (layers sd x)) x) w = Ok (x', w') /\ xinv rest cur x' w'.
Proof.
  intros Hx Hi Hl0 Hw [Hnd Hqp] Hs Hrel Hpe Hwl Hcs. unfold nretryWaiting. rewrite !layers_set.
  rewrite (nth_layer_ok i _ l Hi) by (apply list_lookup_insert_eq; by eapply lookup_lt_Some). cbn [obind].
  rewrite Hwl, Hs, bool_decide_eq_true_2 by done. cbn [assert_ obind]. rewrite list_insert_insert_eq, set_layers_twice.
  assert (El : set_waiting waiting (set_state RETRY l) = retrying l) by (unfold retrying; rewrite Hwl; destruct l; cbn in *; by subst).
  rewrite El. rewrite Hwl in Hnd. inversion Hnd as [| ? ? Hnin Hnd']; subst.
  assert (Hwr : forall s, s ∈ waiters (retrying l) <-> s ∈ waiting).
  { intros s. rewrite waiters_elem. unfold retrying. cbn. rewrite Hwl. cbn. naive_solver. }
  assert (Hwl0 : forall s, s ∈ waiters l0 <-> s = src \/ s ∈ waiting).
  { intros s. rewrite Hw, waiters_elem, Hpe, Hwl, elem_of_cons. naive_solver. }
  assert (Howed : forall s, s ∈ waiters l0 -> s ∈ owed sd w).
  { intros s Hs'. apply (sv_owed _ _ _ _ _ (xi_sides _ _ _ _ Hx sd)). eauto. }
  assert (Hx1 : xinv (at_side rest sd (Some (Z.to_nat i))) cur (set_layers sd (<[Z.to_nat i := retrying l]> (layers sd x)) x) (pay sd src w)).
  { apply (xinv_put sd rest (Some (Z.to_nat i)) cur x w (Z.to_nat i) l0); auto.
    - split; [split; cbn; [by rewrite Hwl | done] |]. by right; right.
    - intros s Hs'%Hwr. left. apply Hwl0. by right.
    - intros s. rewrite Hwr, elem_of_difference, elem_of_singleton. specialize (Howed s). rewrite Hwl0 in *. 
      destruct (decide (s ∈ waiting)); [| naive_solver]. split; [by right |]. intros _. split; [apply Howed; auto |]. by intros ->. }
  unfold told. destruct (calls_good _ cur cs _ _ Hx1 Hcs) as (x2 & w2 & -> & Hx2). cbn [obind].
  pose proof (xi_sides _ _ _ _ Hx2 sd) as Hs2. assert (Hr : at_side rest sd (Some (Z.to_nat i)) sd = Some (Z.to_nat i)) by (by destruct sd).
  destruct (sv_there _ _ _ _ _ Hs2 _ Hr) as [l2 Hl2]. rewrite (nth_layer_ok i _ l2 Hi Hl2). cbn [obind].
  case_bool_decide as Er; [| eexists _, _; split; [reflexivity | by eapply xinv_settle]].
  destruct (sv_layer _ _ _ _ _ Hs2 _ _ Hl2) as [Hq2 Hst2].
  assert (Hrel2 : releaseEvent l2 = None) by (destruct Hst2 as [[? _] | [(? & ? & _) | (_ & ? & _)]]; congruence).
  pose proof (xi_clock _ _ _ _ Hx2) as Hc2. destruct (nedge_ok cur 0 x2 Hc2) as (t & c & -> & Ht & _ & Hc & _); [lia |]. cbn [obind].
  destruct (occupy_ok cur t (set_state BUSY l2)) as (l3 & -> & Hb3 & Ew & Ep); [done | done | done | destruct Hc2; lia |]. cbn [obind].
  eexists _, _. split; [reflexivity |]. rewrite layers_clk.
  pose proof (xinv_clk _ _ _ _ c Hx2 Hc) as Hx3.
  assert (Hx4 : xinv (at_side rest sd (Some (Z.to_nat i))) cur (set_layers sd (<[Z.to_nat i := l3]> (layers sd x2)) (nset_clk c x2)) w2).
  { rewrite <- (layers_clk sd c x2). rewrite <- (layers_clk sd c x2) in Hl2. destruct Hq2 as [Hn2 Hp2], Hb3 as [Es3 Hb3].
    apply (xinv_same sd _ cur (nset_clk c x2) w2 (Z.to_nat i) l2 l3 Hx3 Hl2).
    - split; [split; [by rewrite Ew | rewrite Ew, Ep; exact Hp2] | by left].
    - congruence.
    - intros E. rewrite Ep. rewrite layers_clk in Hl2. exact (sv_peer _ _ _ _ _ Hs2 _ _ Hl2 E).
    - intros s. unfold waiters. by rewrite Ew, Ep. }
  eapply (xinv_settle sd cur _ w2 (Z.to_nat i) l3 Hx4); [| destruct Hb3 as [-> _]; discriminate].
  rewrite layers_set. apply list_lookup_insert_eq. by eapply lookup_lt_Some.
Qed.

(** ** Steps *)

Lemma fire_good s sd i draining cs : xinv rest (xnow s) (xb s) (led s) -> xevent_ok s (Fire sd i draining cs) ->
  exists s', xstep s (Fire sd i draining cs) = Ok s' /\ xinv rest (xnow s') (xb s') (led s').
Proof.
  intros Hx (l & t & Hi & Hl & Hrel & [Ht Hdue] & Htell). cbn [xstep]. rewrite (nth_layer_ok i _ l Hi Hl). cbn [obind]. rewrite Hrel.
  assert (Hxt : xinv rest t (xb s) (led s)).
  { destruct Hx as [Hs Hb Hc Hu Hr Hp]. split; auto; [| by eapply clk_inv_later]. intros sd'. apply (side_time sd' (xnow s)); auto. intros j m e. apply Hdue. }
  pose proof (xi_sides _ _ _ _ Hxt sd) as Hs. destruct (sv_layer _ _ _ _ _ Hs _ _ Hl) as [Hq Hst].
  assert (Hbusy : state l = BUSY) by (destruct Hst as [[? _] | [(_ & ? & _) | (_ & ? & _)]]; congruence).
  unfold nreleaseLayer. rewrite layers_set. set (l1 := set_release None l).
  rewrite (nth_layer_ok i _ l1 Hi) by (apply list_lookup_insert_eq; by eapply lookup_lt_Some). cbn [obind].
  change (state l1) with (state l). rewrite Hbusy, bool_decide_eq_true_2 by done. cbn [assert_ obind releaseEvent l1 set_release].
  rewrite bool_decide_eq_false_2 by (by intros []). cbn [negb assert_ obind].
  rewrite list_insert_insert_eq, set_layers_twice. change (waitingForLayer l1) with (waitingForLayer l).
  change (waitingForPeer l1) with (waitingForPeer l). destruct (waitingForLayer l) as [| src waiting] eqn:Ew.
  - rewrite bool_decide_eq_true_2 by done. cbn [negb obind]. eexists. split; [reflexivity |]. cbn [xnow xb led].
    replace (if bool_decide (waitingForPeer l = None) && draining then led s else led s) with (led s) by (by destruct (_ && _)).
    apply (xinv_same sd rest t (xb s) (led s) (Z.to_nat i) l); auto; try done.
    + split; [by destruct Hq; split |]. right. left. do 2 (split; [done |]). cbn. by rewrite Ew.
    + intros E. cbn. by apply (sv_peer _ _ _ _ _ Hs (Z.to_nat i)).
  - rewrite bool_decide_eq_false_2 by done. cbn [negb]. destruct (waitingForPeer l) as [p |] eqn:Ep.
    + rewrite bool_decide_eq_false_2 by done. cbn [obind]. eexists. split; [reflexivity |]. cbn [xnow xb led].
      apply (xinv_same sd rest t (xb s) (led s) (Z.to_nat i) l); auto; try done.
      * split; [by destruct Hq; split |]. right. left. do 2 (split; [done |]). cbn. by rewrite Ep.
      * intros E. cbn. by apply (sv_peer _ _ _ _ _ Hs (Z.to_nat i)).
    + rewrite bool_decide_eq_true_2 by done.
      destruct (retry_good sd t (xb s) (led s) i l (set_state IDLE l1) src waiting cs) as (x' & w' & -> & Hx'); auto; try done.
      * by destruct Hq; split.
      * specialize (Htell eq_refl). unfold tells in Htell. change (waitingForLayer (set_release None l)) with (waitingForLayer l) in Htell.
        by rewrite Ew in Htell.
      * cbn [obind]. by eexists.
Qed.

Lemma again_good s i cs : xinv rest (xnow s) (xb s) (led s) -> xevent_ok s (Again i cs) ->
  exists s', xstep s (Again i cs) = Ok s' /\ xinv rest (xnow s') (xb s') (led s').
Proof.
  intros Hx (l & src & Hi & Hl & Hpe & Htell). cbn [xstep]. unfold recvReqRetry, nrecvRetry. rewrite (nth_layer_ok i _ l Hi Hl). cbn [obind].
  rewrite Hpe. pose proof (xi_sides _ _ _ _ Hx ReqSide) as Hs. destruct (sv_layer _ _ _ _ _ Hs _ _ Hl) as [[Hnd Hqp] Hst].
  set (l1 := set_peer None (set_waiting (src :: waitingForLayer l) l)).
  assert (Hq1 : queues_ok l1) by (split; cbn; [constructor; [by apply Hqp | done] | done]).
  assert (Hw1 : forall s, s ∈ waiters l <-> s ∈ waiters l1).
  { intros s'. rewrite !waiters_elem. cbn. rewrite elem_of_cons, Hpe. naive_solver. }
  case_bool_decide as Es.
  - assert (Hrel : releaseEvent l = None) by (destruct Hst as [[? _] | [(_ & ? & _) | (_ & ? & _)]]; congruence).
    destruct (retry_good ReqSide (xnow s) (xb s) (led s) i l l1 src (waitingForLayer l) cs) as (x' & w' & E & Hx'); auto; try done.
    + specialize (Htell Es). unfold tells in Htell. cbn [waitingForLayer set_waiting] in Htell.
      replace (retrying l1) with (retrying (set_waiting (src :: waitingForLayer l) l)) by done. exact Htell.
    + cbn [set_layers layers] in E. change (nretryWaiting (layers ReqSide) (set_layers ReqSide)) with (nretryWaiting (W := ledger) nreqLayers nset_req) in E.
      rewrite E. cbn [obind]. by eexists.
  - destruct Hst as [Hb | [(? & _) | (? & _ & ?)]]; [| done | congruence]. pose proof Hb as [Hbs _]. change (state l1) with (state l).
    rewrite Hbs, bool_decide_eq_true_2 by done. cbn [assert_ obind]. eexists. split; [reflexivity |]. cbn [xnow xb led].
    apply (xinv_same ReqSide rest (xnow s) (xb s) (led s) (Z.to_nat i) l l1); auto; [by split; [| left] | done].
Qed.

Lemma xstep_good s e : xinv rest (xnow s) (xb s) (led s) -> xevent_ok s e ->
  exists s', xstep s e = Ok s' /\ xinv rest (xnow s') (xb s') (led s').
Proof.
  intros Hx He. destruct e as [c | sd i draining cs | i cs | t]; [| by apply fire_good | by apply again_good |].
  - cbn [xstep]. destruct (call_good rest (xnow s) c (xb s) (led s) Hx He) as (x' & w' & -> & Hx'). cbn [obind]. by eexists.
  - destruct He as [Ht Hdue]. eexists. split; [reflexivity |]. cbn [xnow xb led].
    destruct Hx as [Hs Hb Hc Hu Hr Hp]. split; auto; [| by eapply clk_inv_later]. intros sd. apply (side_time sd (xnow s)); auto. intros j m e. apply Hdue.
Qed.

Lemma fresh_inv cur x : fresh cur x -> xinv rest cur x (mkLedger [] ∅ ∅).
Proof.
  intros [Hl Hr Hq Hb Hc Hu]. split; auto.
  - intros sd. split; try done.
    + intros i l ->%Hl. split; [split; cbn; [constructor | done] |]. right. by left.
    + intros i l ->%Hl. done.
    + intros i j l m src ->%Hl _ H. unfold waiters in H. cbn in H. by apply not_elem_of_nil in H.
    + intros src. split; [intros H; destruct sd; by apply not_elem_of_empty in H |].
      intros (i & l & ->%Hl & H). unfold waiters in H. cbn in H. by apply not_elem_of_nil in H.
    + intros i l ->%Hl. done.
  - intros k. by rewrite Hq, Hr, lookup_empty.
  - intros k p. by rewrite Hr, lookup_empty.
Qed.

Lemma xreachable_inv s : xreachable s -> xinv rest (xnow s) (xb s) (led s).
Proof.
  induction 1 as [cur x Hf | s e s' _ IH He Hs]; [by apply fresh_inv |].
  destruct (xstep_good s e IH He) as (s'' & E & Hx). rewrite Hs in E. by injection E as <-.
Qed.

(** A coherence check is not asked for a layer: if its destination refuses it, nobody
    waits for the retry, and the route is already taken.  The check cannot be sent
    again, and the retry of the destination fails an assertion unless some other
    request waits for it. *)
Lemma check_refusal_fatal {W} (send : Z -> Packet -> W -> outcome (bool * Packet * W)) cur pkt after port x (w w' : W) id :
  base_inv (nbase x) -> reaches mainMem id x -> cxl_packet_type (req pkt) = HostBiasCheck -> expects pkt = true ->
  nrouteTo x !! req_key pkt = None -> send id pkt w = Ok (false, after, w') ->
  exists x', recvTimingReq send cur pkt port x w = Ok (false, after, x', w') /\
    (forall sd, layers sd x' = layers sd x) /\ nqueued x' = nqueued x /\ nrouteTo x' !! req_key pkt = Some port /\
    (forall send' cur' port' v, recvTimingReq (W := W) send' cur' pkt port' x' v = Err AssertFail) /\
    (forall l retry cur' v, nreqLayers x !! Z.to_nat id = Some l -> waitingForPeer l = None ->
       recvReqRetry (W := W) retry cur' id x' v = Err AssertFail).
Proof.
  intros Hb Hreach Hk He Hnew Hsend. pose proof Hreach as (_ & _ & _ & _ & Hid). unfold recvTimingReq, check_request, nremember.
  rewrite bool_decide_eq_true_2, He, Hnew, bool_decide_eq_true_2 by done. cbn [assert_ obind]. unfold nfind_range.
  destruct (find_range_ok mainMem id x Hreach Hb) as (b' & Hf & _). cbn [nbase nset_route]. rewrite Hf. cbn [obind].
  unfold mem_port. cbn [nreqLayers nset_base nset_route]. destruct (Z.ltb_spec id 0); [lia |].
  destruct (Z.leb_spec (Z.of_nat (length (nreqLayers x))) id); [lia |]. cbn [orb obind]. rewrite Hsend. cbn [obind].
  eexists. split; [reflexivity |]. split_and!; [by intros [] | done | cbn [nrouteTo nset_base nset_route]; by rewrite lookup_insert_eq | |].
  - intros send' cur' port' v. cbn [nrouteTo nset_base nset_route]. by rewrite lookup_insert_eq, bool_decide_eq_false_2.
  - intros l retry cur' v Hl Hpe. unfold recvReqRetry, nrecvRetry. cbn [nreqLayers nset_base nset_route].
    rewrite (nth_layer_ok id _ l) by (done || lia). cbn [obind]. by rewrite Hpe.
Qed.


(** An atomic access goes to the port of its address and comes back with what that port
    made of it and the latency as its delay; the crossbar keeps nothing but the cache
    of its decoder. *)
Theorem atomic_forwarded {W} (send : Z -> bool -> Packet -> W -> outcome (Z * Packet * W)) pkt door x (w : W) q id t pkt' w' :
  base_inv (nbase x) -> getAddrRange pkt = Ok q -> reaches q id x -> send id door pkt w = Ok (t, pkt', w') ->
  (hasData (cmd pkt') = true -> flag_isSet VALID_SIZE pkt' = true) ->
  exists b', recvAtomicBackdoor send pkt door x w = Ok (t, set_payloadDelay (u32 t) pkt', nset_base b' x, w') /\ base_inv b'.
Proof.
  intros Hb Hq Hreach Hs Hd. pose proof Hreach as (_ & _ & _ & _ & Hid). unfold recvAtomicBackdoor.
  assert (Hsz : exists n, (if hasData (cmd pkt) then getSize pkt else Ok 0) = Ok n).
  { destruct (hasData (cmd pkt)); [| by eexists]. unfold getAddrRange in Hq. obind_inv. by eexists. }
  destruct Hsz as [n ->]. cbn [obind]. unfold nfind, XBar.findPort. rewrite Hq. cbn [obind].
  destruct (find_range_ok q id x Hreach Hb) as (b' & -> & Hb'). cbn [obind]. unfold mem_port. cbn [nreqLayers nset_base].
  destruct (Z.ltb_spec id 0); [lia |]. destruct (Z.leb_spec (Z.of_nat (length (nreqLayers x))) id); [lia |]. cbn [orb obind].
  rewrite Hs. cbn [obind]. unfold getSize. exists b'. split; [| done].
  destruct (isResponse (cmd pkt')), (hasData (cmd pkt')) eqn:Ed; cbn [andb]; [rewrite (Hd eq_refl) | ..]; done.
Qed.

(** ** Instance *)

(** Two ports above and two below, which have announced their ranges. *)
Definition ex_nparams : NoncoherentXBarParams := mkNoncoherentXBarParams (mkLatencies 1 2 2 1000000) 16 false 2 false 2.
Definition ex_nranges : outcome (bool * BaseXBar) :=
  let! (_, b) := recvRangeChange 0 [RangeEx 0x80000000 0x90000000] (new_BaseXBar ex_nparams) in
  recvRangeChange 1 [RangeSize 0xa0000000 0x40000000] b.
Definition ex_nx : NoncoherentXBar :=
  nset_base (match ex_nranges with Ok (_, b) => b | Err _ => new_BaseXBar ex_nparams end)
    (new_NoncoherentXBar ex_nparams (mkClocked 0 0 500)).

Definition ex_nread (k a : Z) : Packet := mkPacket k ReadReq 0x300 a false 64 0 0 0 [] (new_Request k).
Definition ex_nresp (k a : Z) : Packet := mkPacket k ReadResp 0x300 a false 64 0 0 0 [] (new_Request k).
Definition ex_ask (port k a : Z) : call := Request port (ex_nread k a) true (ex_nread k a).

Lemma ex_nx_fresh : fresh 2000 ex_nx.
Proof.
  split; try reflexivity.
  - intros [] [| [| i]] l H; vm_compute in H; first [discriminate H | injection H as <-; reflexivity].
  - split; [reflexivity |]. split; [| reflexivity]. split; [| | constructor]; vm_compute portMap; cbn [tree].
    + apply SSorted_cons; [apply SSorted_cons; [apply SSorted_nil |] |]; rewrite ?Forall_cons, Forall_nil; auto.
      split; [| done]. left. by vm_compute.
    + repeat constructor; vm_compute; try discriminate; auto.
  - vm_compute. intuition congruence.
Qed.

(** A history of events, each allowed where it happens. *)
Fixpoint run_x (es : list xevent) (s : xsys) : outcome xsys :=
  match es with [] => Ok s | e :: es => let! s := xstep s e in run_x es s end.
Fixpoint run_ok (es : list xevent) (s : xsys) : Prop :=
  match es with [] => True | e :: es => xevent_ok s e /\ match xstep s e with Ok s' => run_ok es s' | Err _ => False end end.

Lemma run_x_reachable es : forall s s', xreachable s -> run_ok es s -> run_x es s = Ok s' -> xreachable s'.
Proof.
  induction es as [| e es IH]; intros s s' Hr Hok; cbn [run_x run_ok] in *; [by intros [= <-] |]. destruct Hok as [He Hok].
  destruct (xstep s e) as [s1 |] eqn:E; [| done]. cbn [obind]. apply IH; [| done]. by eapply xr_step.
Qed.

Ltac ex_reaches :=
  split; [reflexivity |]; split; [reflexivity |]; split;
    [intros e He; apply list_elem_of_In in He; destruct He as [<- | [<- | []]]; eexists; reflexivity |];
  split; [reflexivity | split; [discriminate | reflexivity]].
Ltac ex_request :=
  split; [split; [discriminate | reflexivity] |]; split; [refine (bool_decide_eq_false_1 _ _); vm_compute; reflexivity |]; split; [reflexivity |];
  split; [intros _; reflexivity |]; split; [reflexivity |]; cbn [bool_decide];
  split; [eexists _, 0; split; [reflexivity |]; ex_reaches |]; vm_compute; intuition congruence.

(** Two ports ask for lines behind the same port: the second finds the layer busy, is
    told when it is released, and asks again; then both are answered, the second one
    first. *)
Definition ex_history : list xevent :=
  [Calls (ex_ask 0 1 0x80000040); Calls (ex_ask 1 2 0x80000080); Fire ReqSide 0 false [ex_ask 1 2 0x80000080];
   Calls (Response 0 (ex_nresp 2 0x80000080))].

Ltac ex_step :=
  lazymatch goal with
  | |- match ?m with _ => _ end => let E := fresh in destruct m as [? |] eqn:E; vm_compute in E; [injection E as <- | discriminate E]
  end.

Lemma ex_history_ok : run_ok ex_history (mkXSys ex_nx 2000 (mkLedger [] ∅ ∅)).
Proof.
  unfold ex_history. cbn [run_ok].
  split; [ex_request |]. ex_step.
  split; [ex_request |]. ex_step.
  split.
  { eexists _, _. split; [discriminate |]. split; [reflexivity |]. split; [reflexivity |]. split.
    - split; [split; [discriminate | reflexivity] |].
      intros [] [| [| i]] l e Hl He; vm_compute in Hl; try discriminate Hl; injection Hl as <-; vm_compute in He; try discriminate He;
        injection He as <-; discriminate.
    - intros _. cbn [tells calls_ok waitingForLayer set_release]. split; [ex_request | done]. }
  ex_step. split; [| ex_step; exact I].
  split; [refine (bool_decide_eq_false_1 _ _); vm_compute; reflexivity |]. split; [eexists; reflexivity |]. vm_compute. intuition congruence.
Qed.


(** A check that is refused once, and then the retry of its destination. *)
Definition ex_check : Packet :=
  mkPacket 5 ReadReq 0x300 0xa0000040 false 64 0 0 0 [] (set_cxl_packet_type HostBiasCheck (new_Request 5)).

Example ex_check_refused :
  exists x', recvTimingReq (fun _ p (_ : unit) => Ok (false, p, tt)) 2000 ex_check 0 ex_nx tt = Ok (false, ex_check, x', tt) /\
    recvTimingReq (fun _ p (_ : unit) => Ok (true, p, tt)) 2500 ex_check 0 x' tt = Err AssertFail /\
    recvReqRetry (fun _ x (_ : unit) => Ok (x, tt)) 2500 1 x' tt = Err AssertFail.
Proof. eexists. split; [vm_compute; reflexivity |]. split; vm_compute; reflexivity. Qed.
