(* ===== verification/DmaPort.v ===== *)
(** The DMA port of a device: class [DmaPort] of [src/gem5/src/dev/dma_device.hh] and
    [dma_device.cc].

    A transfer is split into packets of at most a cache line.  In timing mode the port
    sends one packet per cycle, waits for a retry when it is refused, and counts the
    bytes that come back; in atomic mode it sends everything at once, with CXL messages
    when the device is a CXL device.  When all bytes of a transfer have come back, its
    completion event is scheduled.

    The states of transfers are objects that packets refer to until they are deleted, so
    they live in a store; a reference to a deleted state is undefined behaviour.  The
    backdoors of [sendAtomicBdReq] are left out. *)
From Stdlib Require Import ZArith Lia.
From stdpp Require Import base numbers list gmap.
From S2P Require Import Prelude IntMath ChunkGen CxlPacket MemPacket Clocked HomeAgent DCOH.

Open Scope Z_scope.

(** [DmaReqState]; events are named by numbers, and [is_cxl] is a flag. *)
Record DmaReqState : Type := mkDmaReqState {
  completionEvent : option Z;
  abortEvent : option Z;
  aborted : bool;
  totBytes : Z;
  numBytes : Z;
  ds_delay : Z;
  gen : ChunkGenerator;
  ds_flags : Z;
  ds_cmd : Command;
  is_cxl : bool;
}.

Definition set_aborted (v : bool) (st : DmaReqState) : DmaReqState :=
  mkDmaReqState (completionEvent st) (abortEvent st) v (totBytes st) (numBytes st) (ds_delay st) (gen st) (ds_flags st) (ds_cmd st) (is_cxl st).
Definition set_numBytes (v : Z) (st : DmaReqState) : DmaReqState :=
  mkDmaReqState (completionEvent st) (abortEvent st) (aborted st) (totBytes st) v (ds_delay st) (gen st) (ds_flags st) (ds_cmd st) (is_cxl st).
Definition set_gen (v : ChunkGenerator) (st : DmaReqState) : DmaReqState :=
  mkDmaReqState (completionEvent st) (abortEvent st) (aborted st) (totBytes st) (numBytes st) (ds_delay st) v (ds_flags st) (ds_cmd st) (is_cxl st).

(** [DmaReqState(...)]. *)
Definition new_DmaReqState (c : Command) (a chunk_sz tb fl : Z) (ce : option Z) (delay : Z) (cxl : bool) (ae : option Z)
    : outcome DmaReqState :=
  let! g := new_ChunkGenerator a tb chunk_sz in
  Ok (mkDmaReqState ce ae false tb 0 delay g fl c cxl).

(** A packet with its [senderState] and the place of its data in the buffer of the
    transfer. *)
Record DmaPkt : Type := mkDmaPkt {
  senderState : nat;
  dk_pkt : Packet;
  dk_offset : Z;
}.

(** [raised] are the events scheduled on the device, with their ticks, oldest first;
    [fresh] numbers states and packets. *)
Record DmaPort : Type := mkDmaPort {
  transmitList : list nat;
  states : gmap nat DmaReqState;
  sendEvent : option Z;
  pendingCount : Z;
  inRetry : option DmaPkt;
  retryPending : bool;
  cacheLineSize : Z;
  dma_clock : Clocked;
  dev_is_cxl : bool;
  dma_draining : bool;
  raised : list (Z * Z);
  fresh : nat;
}.

Definition set_transmitList (v : list nat) (d : DmaPort) : DmaPort :=
  mkDmaPort v (states d) (sendEvent d) (pendingCount d) (inRetry d) (retryPending d) (cacheLineSize d) (dma_clock d)
    (dev_is_cxl d) (dma_draining d) (raised d) (fresh d).
Definition set_states (v : gmap nat DmaReqState) (d : DmaPort) : DmaPort :=
  mkDmaPort (transmitList d) v (sendEvent d) (pendingCount d) (inRetry d) (retryPending d) (cacheLineSize d) (dma_clock d)
    (dev_is_cxl d) (dma_draining d) (raised d) (fresh d).
Definition set_sendEvent (v : option Z) (d : DmaPort) : DmaPort :=
  mkDmaPort (transmitList d) (states d) v (pendingCount d) (inRetry d) (retryPending d) (cacheLineSize d) (dma_clock d)
    (dev_is_cxl d) (dma_draining d) (raised d) (fresh d).
Definition set_pendingCount (v : Z) (d : DmaPort) : DmaPort :=
  mkDmaPort (transmitList d) (states d) (sendEvent d) v (inRetry d) (retryPending d) (cacheLineSize d) (dma_clock d)
    (dev_is_cxl d) (dma_draining d) (raised d) (fresh d).
Definition set_retry (v : option DmaPkt) (b : bool) (d : DmaPort) : DmaPort :=
  mkDmaPort (transmitList d) (states d) (sendEvent d) (pendingCount d) v b (cacheLineSize d) (dma_clock d)
    (dev_is_cxl d) (dma_draining d) (raised d) (fresh d).
Definition set_dma_clock (v : Clocked) (d : DmaPort) : DmaPort :=
  mkDmaPort (transmitList d) (states d) (sendEvent d) (pendingCount d) (inRetry d) (retryPending d) (cacheLineSize d) v
    (dev_is_cxl d) (dma_draining d) (raised d) (fresh d).
Definition set_dma_draining (v : bool) (d : DmaPort) : DmaPort :=
  mkDmaPort (transmitList d) (states d) (sendEvent d) (pendingCount d) (inRetry d) (retryPending d) (cacheLineSize d) (dma_clock d)
    (dev_is_cxl d) v (raised d) (fresh d).
Definition set_raised (v : list (Z * Z)) (d : DmaPort) : DmaPort :=
  mkDmaPort (transmitList d) (states d) (sendEvent d) (pendingCount d) (inRetry d) (retryPending d) (cacheLineSize d) (dma_clock d)
    (dev_is_cxl d) (dma_draining d) v (fresh d).
Definition set_fresh (v : nat) (d : DmaPort) : DmaPort :=
  mkDmaPort (transmitList d) (states d) (sendEvent d) (pendingCount d) (inRetry d) (retryPending d) (cacheLineSize d) (dma_clock d)
    (dev_is_cxl d) (dma_draining d) (raised d) v.

(** [DmaPort(...)]. *)
Definition new_DmaPort (line : Z) (clk : Clocked) (cxl : bool) : DmaPort :=
  mkDmaPort [] ∅ None 0 None false line clk cxl false [] 0.

(** Access to a state, and [delete state]. *)
Definition state_of (i : nat) (d : DmaPort) : outcome DmaReqState :=
  match states d !! i with Some st => Ok st | None => Err Undefined end.
Definition put_state (i : nat) (st : DmaReqState) (d : DmaPort) : DmaPort := set_states (<[i := st]> (states d)) d.
Definition delete_state (i : nat) (d : DmaPort) : DmaPort := set_states (delete i (states d)) d.

(** [device->schedule(event, when)], unless there is no event. *)
Definition raise (ev : option Z) (when : Z) (d : DmaPort) : DmaPort :=
  match ev with Some e => set_raised (raised d ++ [(e, when)]) d | None => d end.

(** [signalDrainDone()]. *)
Definition signalDrainDone (d : DmaPort) : DmaPort := set_dma_draining false d.

(** [void handleResp(DmaReqState *state, Addr addr, Addr size, Tick delay)]. *)
Definition handleResp (i : nat) (size delay cur : Z) (d : DmaPort) : outcome DmaPort :=
  do! assert_ (negb (pendingCount d =? 0)) then
  let d := set_pendingCount (u32 (pendingCount d - 1)) d in
  let! st := state_of i d in
  let st := set_numBytes (u64 (numBytes st + size)) st in
  let d := put_state i st d in
  do! assert_ (numBytes st <=? totBytes st) then
  let all_bytes := totBytes st =? numBytes st in
  let d :=
    if aborted st then
      if all_bytes || (pendingCount d =? 0) then delete_state i (raise (abortEvent st) cur d) else d
    else if all_bytes then delete_state i (raise (completionEvent st) (u64 (cur + u64 (delay + ds_delay st))) d)
    else d in
  Ok (if pendingCount d =? 0 then signalDrainDone d else d).

(** [void handleRespPacket(PacketPtr pkt, Tick delay)]: [size] is that of the request. *)
Definition handleRespPacket (i : nat) (pkt : Packet) (size delay cur : Z) (d : DmaPort) : outcome DmaPort :=
  do! assert_ (isResponse (cmd pkt)) then
  let! _ := getAddr pkt in
  handleResp i size delay cur d.

(** [PacketPtr createPacket()]. *)
Definition SECURE : Z := 0x10000000.
Definition createPacket (i : nat) (st : DmaReqState) (d : DmaPort) : DmaPkt * DmaPort :=
  let n := Z.of_nat (fresh d) in
  let r := new_Request n in
  let r := mkRequest (req_ptr r) (ds_flags st) (pciBridgeSlaveIDs r) (cxl_packet_type r) (cxl_req r) (cxl_data_atomic r)
             (cxl_data_atomic2 r) (cxl_cache r) (coherent_check_dest r) (from_cxl_proc r) (old_state r) (new_state r) in
  let pkt := mkPacket n (ds_cmd st) (Z.lor VALID_ADDR VALID_SIZE) (ChunkGen.addr (gen st)) (req_isSet SECURE r) (ChunkGen.size (gen st)) 0 0 0 [] r in
  (mkDmaPkt i pkt (complete (gen st)), set_fresh (S (fresh d)) d).

(** * Timing mode *)

(** [bool recvTimingResp(PacketPtr pkt)]: a response of a CXL kind goes to the device,
    which answers [device_resp]. *)
Definition recvTimingResp (device_resp : Packet -> bool) (cur : Z) (i : nat) (pkt : Packet) (size : Z) (d : DmaPort)
    : outcome (bool * DmaPort) :=
  if bool_decide (cxl_packet_type (req pkt) = DefaultPacket) then
    do! assert_ (isUncacheable (req pkt) || negb (cacheResponding pkt && negb (hasSharers pkt))) then
    let! d := handleRespPacket i pkt size 0 cur d in Ok (true, d)
  else Ok (device_resp pkt, d).

(** What [sendTimingReq] does with a packet: it refuses it, takes it, or takes it and
    delivers the response before it returns. *)
Inductive send_answer : Type := Refused | Taken | Answered (resp : Packet).

Section timing.
Variable device_resp : Packet -> bool.

(** [void trySendTimingReq()], with the packet tried: the count goes up after the send, and
    the state of the transfer is used again when it may be gone. *)
Definition trySendTimingReq (cur : Z) (ans : send_answer) (d : DmaPort) : outcome (DmaPkt * DmaPort) :=
  match transmitList d with
  | [] => Err Undefined
  | i :: rest =>
      let! st := state_of i d in
      let (pkt, d) := match inRetry d with Some p => (p, d) | None => createPacket i st d end in
      let d := set_retry None (retryPending d) d in
      let last := ChunkGen.last (gen st) in
      let! d :=
        (match ans with
         | Refused => Ok (set_retry (Some pkt) true d)
         | Taken => Ok (set_pendingCount (u32 (pendingCount d + 1)) d)
         | Answered resp =>
             let! (_, d) := recvTimingResp device_resp cur i resp (psize (dk_pkt pkt)) d in
             Ok (set_pendingCount (u32 (pendingCount d + 1)) d)
         end) in
      if negb (retryPending d) then
        let! st := state_of i d in
        let d := put_state i (set_gen (next (gen st)).1 st) d in
        let d := if last then set_transmitList rest d else d in
        if bool_decide (transmitList d <> []) then
          let! (t, clk) := clockEdge cur 1 (dma_clock d) in
          let! ev := schedule cur (sendEvent d) t in
          Ok (pkt, set_sendEvent ev (set_dma_clock clk d))
        else Ok (pkt, d)
      else Ok (pkt, d)
  end.

(** [void sendDma()] in timing mode, with the packet if one is tried. *)
Definition sendDma_timing (cur : Z) (ans : send_answer) (d : DmaPort) : outcome (option DmaPkt * DmaPort) :=
  do! assert_ (bool_decide (transmitList d <> [])) then
  if retryPending d || bool_decide (is_Some (sendEvent d)) then Ok (None, d)
  else let! (pkt, d) := trySendTimingReq cur ans d in Ok (Some pkt, d).

(** [void recvReqRetry()]. *)
Definition recvReqRetry (cur : Z) (ans : send_answer) (d : DmaPort) : outcome (option DmaPkt * DmaPort) :=
  let d := set_retry (inRetry d) false d in
  if bool_decide (transmitList d <> []) then let! (pkt, d) := trySendTimingReq cur ans d in Ok (Some pkt, d)
  else Ok (None, d).

(** The transfer that [dmaAction] appends. *)
Definition add_transfer (c : Command) (a size : Z) (ev : option Z) (delay fl : Z) (d : DmaPort) : outcome DmaPort :=
  let! st := new_DmaReqState c a (cacheLineSize d) size fl ev delay (dev_is_cxl d) None in
  let i := fresh d in
  Ok (set_transmitList (transmitList d ++ [i]) (put_state i st (set_fresh (S i) d))).

(** [void dmaAction(...)] in timing mode. *)
Definition dmaAction (c : Command) (a size : Z) (ev : option Z) (delay fl cur : Z) (ans : send_answer) (d : DmaPort)
    : outcome (option DmaPkt * DmaPort) :=
  let! d := add_transfer c a size ev delay fl d in sendDma_timing cur ans d.

End timing.

(** The transfers that have not started, removed by [abortPending]. *)
Fixpoint abort_all (ts : list nat) (cur : Z) (d : DmaPort) : outcome DmaPort :=
  match ts with
  | [] => Ok (set_transmitList [] d)
  | i :: ts => let! st := state_of i d in abort_all ts cur (delete_state i (raise (abortEvent st) cur d))
  end.

(** [void abortPending()]. *)
Definition abortPending (cur : Z) (d : DmaPort) : outcome DmaPort :=
  let d := set_retry None (retryPending d) d in
  let! d :=
    (match transmitList d with
     | i :: rest =>
         if negb (pendingCount d =? 0) then
           let! st := state_of i d in
           if negb (numBytes st =? complete (gen st)) then
             Ok (put_state i (set_aborted true st) (set_transmitList rest d))
           else Ok d
         else Ok d
     | [] => Ok d
     end) in
  let! d := abort_all (transmitList d) cur d in
  let d := set_sendEvent None d in
  Ok (if pendingCount d =? 0 then signalDrainDone d else d).

(** [DrainState drain()]: whether the port is drained. *)
Definition dma_drain (d : DmaPort) : DmaPort * bool :=
  if pendingCount d =? 0 then (d, true) else (set_dma_draining true d, false).

(** * Atomic mode *)

Section atomic.
Context {W : Type}.
Variable sendAtomic : Packet -> W -> outcome (Packet * Z * W).

(** The packet as the device makes it, for its own message or its data. *)
Definition as_cxl (pkt : Packet) (st : DmaReqState) (dc : DCOH) : outcome (Packet * ChunkGenerator) :=
  if is_cxl st then
    if need_data dc then
      let (g, more) := next (gen st) in Ok (dcoh_makeCXLData pkt (negb more), g)
    else let! pkt := makeCXLrequest pkt in Ok (pkt, gen st)
  else Ok (pkt, gen st).

(** [bool sendAtomicReq(DmaReqState *state)], with the packet sent. *)
Definition sendAtomicReq (i : nat) (cur : Z) (d : DmaPort) (dc : DCOH) (w : W)
    : outcome (bool * DmaPkt * DmaPort * DCOH * W) :=
  let! st := state_of i d in
  let (k, d) := createPacket i st d in
  let size := psize (dk_pkt k) in
  let! (pkt, g) := as_cxl (dk_pkt k) st dc in
  let d := set_pendingCount (u32 (pendingCount d + 1)) d in
  let sent := mkDmaPkt i pkt (dk_offset k) in
  let! (pkt, lat, w) := sendAtomic pkt w in
  let (g, more) := next g in
  let d := put_state i (set_gen g st) d in
  let done := negb more in
  let dc := if done && need_data dc then mkDCOH false 0 (Bias_Table dc) else dc in
  let! dc :=
    (if bool_decide (is_Some (cxl_cache (req pkt))) && bool_decide (cxl_data_atomic (req pkt) = None)
          && bool_decide (cxl_data_atomic2 (req pkt) = None)
     then ReservedData pkt dc else Ok dc) in
  let! d := handleRespPacket i pkt size lat cur d in
  Ok (done, sent, d, dc, w).

(** The loop over one transfer: the packets sent; the fuel bounds their number. *)
Fixpoint send_all (fuel : nat) (i : nat) (cur : Z) (d : DmaPort) (dc : DCOH) (w : W)
    : outcome (list DmaPkt * DmaPort * DCOH * W) :=
  match fuel with
  | O => Err Undefined
  | S fuel =>
      let! (done, k, d, dc, w) := sendAtomicReq i cur d dc w in
      if (done : bool) then Ok ([k], d, dc, w)
      else let! (ks, d, dc, w) := send_all fuel i cur d dc w in Ok (k :: ks, d, dc, w)
  end.

(** The loop of [sendDma] in atomic mode over the transfers. *)
Fixpoint send_transfers (ts : list nat) (cur : Z) (d : DmaPort) (dc : DCOH) (w : W)
    : outcome (list DmaPkt * DmaPort * DCOH * W) :=
  match ts with
  | [] => Ok ([], d, dc, w)
  | i :: ts =>
      let d := set_transmitList ts d in
      let! st := state_of i d in
      let! (ks, d, dc, w) :=
        (if done (gen st) then Ok ([], d, dc, w) else send_all (S (Z.to_nat (totBytes st))) i cur d dc w) in
      let! (ks', d, dc, w) := send_transfers ts cur d dc w in Ok (ks ++ ks', d, dc, w)
  end.

(** [void sendDma()] in atomic mode, without bypassing the caches. *)
Definition sendDma_atomic (cur : Z) (d : DmaPort) (dc : DCOH) (w : W) : outcome (list DmaPkt * DmaPort * DCOH * W) :=
  do! assert_ (bool_decide (transmitList d <> [])) then send_transfers (transmitList d) cur d dc w.
End atomic.

(** * Histories in timing mode *)

(** A transfer that was started. *)
Record transfer : Type := mkTransfer {
  t_id : nat;
  t_start : Z;
  t_size : Z;
  t_event : option Z;
}.

(** A port in time, with the transfers started, the chunks asked for, oldest first, and
    the requests in flight. *)
Record dma_sys : Type := mkDmaSys {
  port : DmaPort;
  d_now : Z;
  transfers : list transfer;
  asked : list (nat * (Z * Z));
  flying : list (nat * Z);
}.

Inductive dma_op : Type :=
  | Start (c : Command) (a size : Z) (ev : option Z) (delay fl : Z) (ans : send_answer)
  | SendEvent (ans : send_answer)
  | Retry (ans : send_answer)
  | Respond (k : nat) (resp : Packet)
  | DWait (t : Z).

(** A packet that was taken is in flight, unless its response has arrived. *)
Definition sent (x : dma_sys) (ts : list transfer) (t : Z) (ans : send_answer) (k : option DmaPkt) (d : DmaPort) : dma_sys :=
  match k, ans with
  | Some k, Taken =>
      mkDmaSys d t ts (asked x ++ [(senderState k, (addr (dk_pkt k), psize (dk_pkt k)))]) (flying x ++ [(senderState k, psize (dk_pkt k))])
  | Some k, Answered _ => mkDmaSys d t ts (asked x ++ [(senderState k, (addr (dk_pkt k), psize (dk_pkt k)))]) (flying x)
  | _, _ => mkDmaSys d t ts (asked x) (flying x)
  end.

Definition dma_step (device_resp : Packet -> bool) (x : dma_sys) (o : dma_op) : outcome dma_sys :=
  let d := port x in
  match o with
  | Start c a size ev delay fl ans =>
      let! (k, d) := dmaAction device_resp c a size ev delay fl (d_now x) ans d in
      Ok (sent x (transfers x ++ [mkTransfer (fresh (port x)) a size ev]) (d_now x) ans k d)
  | SendEvent ans =>
      match sendEvent d with
      | None => Err Undefined
      | Some t => let! (k, d) := sendDma_timing device_resp t ans (set_sendEvent None d) in Ok (sent x (transfers x) t ans k d)
      end
  | Retry ans => let! (k, d) := recvReqRetry device_resp (d_now x) ans d in Ok (sent x (transfers x) (d_now x) ans k d)
  | Respond k resp =>
      match flying x !! k with
      | None => Err Undefined
      | Some (i, size) =>
          let! (_, d) := recvTimingResp device_resp (d_now x) i resp size d in
          Ok (mkDmaSys d (d_now x) (transfers x) (asked x) (delete k (flying x)))
      end
  | DWait t => Ok (mkDmaSys d t (transfers x) (asked x) (flying x))
  end.

(** A response of the memory: no cacheable line in the Modified state. *)
Definition plain_response (p : Packet) : Prop :=
  isResponse (cmd p) = true /\ flag_isSet VALID_ADDR p = true /\ cxl_packet_type (req p) = DefaultPacket /\
  isUncacheable (req p) || negb (cacheResponding p && negb (hasSharers p)) = true.

(** Transfers of at least one byte that end below 2^64; a port with room in its count; and
    no response inside the send of its request. *)
Definition later (ans : send_answer) : Prop := match ans with Answered _ => False | _ => True end.
Definition dma_op_ok (x : dma_sys) (o : dma_op) : Prop :=
  let room := Z.of_nat (length (flying x)) + 1 < 2 ^ 32 in
  match o with
  | Start c a size ev delay fl ans =>
      room /\ later ans /\ 0 <= a /\ 0 < size /\ a + size < 2 ^ 64 /\ a + cacheLineSize (port x) < 2 ^ 64
  | SendEvent ans => room /\ later ans /\ exists t, sendEvent (port x) = Some t /\ t <= 2 ^ 62
  | Retry ans => room /\ later ans /\ retryPending (port x) = true
  | Respond k resp => (exists i size, flying x !! k = Some (i, size)) /\ plain_response resp
  | DWait t => d_now x <= t <= 2 ^ 62 /\ forall e, sendEvent (port x) = Some e -> t <= e
  end.

Inductive dma_reachable (dr : Packet -> bool) : dma_sys -> Prop :=
  | dr_init line c cxl t : isPowerOf2 line = true -> 0 < line -> steady t c ->
      dma_reachable dr (mkDmaSys (new_DmaPort line c cxl) t [] [] [])
  | dr_step x o x' : dma_reachable dr x -> dma_op_ok x o -> dma_step dr x o = Ok x' -> dma_reachable dr x'.

(** * The bytes of a transfer *)

Definition asked_of (i : nat) (l : list (nat * (Z * Z))) : list (Z * Z) := map snd (filter (fun x => x.1 = i) l).
Fixpoint flying_of (i : nat) (l : list (nat * Z)) : Z :=
  match l with [] => 0 | (j, s) :: l => (if decide (j = i) then s else 0) + flying_of i l end.

Lemma asked_of_snoc i j c l : asked_of i (l ++ [(j, c)]) = asked_of i l ++ if decide (j = i) then [c] else [].
Proof. unfold asked_of. rewrite filter_app, map_app, filter_cons. cbn. by destruct (decide (j = i)). Qed.

Lemma flying_of_snoc i j s l : flying_of i (l ++ [(j, s)]) = flying_of i l + if decide (j = i) then s else 0.
Proof. induction l as [| [j' s'] l IH]; cbn; [destruct (decide _); lia |]. rewrite IH. lia. Qed.

Lemma flying_of_delete i k j s l : l !! k = Some (j, s) -> flying_of i l = flying_of i (delete k l) + if decide (j = i) then s else 0.
Proof.
  revert k. induction l as [| [j' s'] l IH]; intros [| k] H; try done.
  - injection H as -> ->. change (delete 0%nat ((j, s) :: l)) with l. cbn. lia.
  - change (delete (S k) ((j', s') :: l)) with ((j', s') :: delete k l). cbn. rewrite (IH k H). lia.
Qed.

Lemma flying_of_pos i l : (forall j s, (j, s) ∈ l -> 0 < s) -> 0 <= flying_of i l /\ (flying_of i l = 0 <-> forall s, (i, s) ∉ l).
Proof.
  induction l as [| [j s] l IH]; intros H; cbn.
  - split; [done |]. split; [intros _ s; apply not_elem_of_nil | done].
  - destruct IH as [H1 H2]; [intros j' s' Hin; apply (H j'); by right |]. specialize (H j s ltac:(left)).
    destruct (decide (j = i)) as [-> | Hne]; split; try lia.
    + split; [lia |]. intros Hn. exfalso. apply (Hn s). left.
    + replace (0 + flying_of i l) with (flying_of i l) by lia. rewrite H2. split.
      * intros Hn s' [[= ? ?] | Hin]%elem_of_cons; [done | by apply (Hn s')].
      * intros Hn s' Hin. apply (Hn s'). by right.
Qed.

Lemma tiles_snoc a b s l : tiles a b l -> 0 < s -> tiles a (b + s) (l ++ [(b, s)]).
Proof.
  revert a. induction l as [| [x n] l IH]; intros a H Hs; cbn in *; [subst; by split_and! |].
  destruct H as (-> & Hn & H). split; [done |]. split; [done |]. by apply IH.
Qed.

(** * Invariant *)

(** A transfer: what has been asked for tiles the start of its region, [numBytes] counts
    what has come back, and the state is gone once everything has. *)
Record transfer_ok (d : DmaPort) (ask : list (nat * (Z * Z))) (fly : list (nat * Z)) (t : transfer) (m : Z) : Prop := {
  to_region : 0 <= t_start t /\ 0 < t_size t /\ t_start t + t_size t < 2 ^ 64;
  to_tiles : tiles (t_start t) (t_start t + m) (asked_of (t_id t) ask);
  to_block : Forall (in_block (cacheLineSize d)) (asked_of (t_id t) ask);
  to_state : match states d !! t_id t with
    | None => m = t_size t /\ flying_of (t_id t) fly = 0 /\ t_id t ∉ transmitList d
    | Some st =>
        totBytes st = t_size t /\ completionEvent st = t_event t /\ aborted st = false /\
        0 <= numBytes st < t_size t /\ numBytes st + flying_of (t_id t) fly = m /\
        if decide (t_id t ∈ transmitList d)
        then curAddr (gen st) = t_start t + m /\ gen_inv (t_start t + t_size t) (gen st) /\ 0 < curSize (gen st) /\
             chunkSize (gen st) = cacheLineSize d
        else m = t_size t
    end;
}.

(** The completion events of the transfers that are done. *)
Definition finished (sts : gmap nat DmaReqState) (t : transfer) : option Z :=
  match sts !! t_id t with None => t_event t | Some _ => None end.

Record dma_inv (d : DmaPort) (ts : list transfer) (ask : list (nat * (Z * Z))) (fly : list (nat * Z)) : Prop := {
  di_line : isPowerOf2 (cacheLineSize d) = true /\ 0 < cacheLineSize d;
  di_once : NoDup (transmitList d) /\ NoDup (map t_id ts);
  di_known : (forall i, i ∈ transmitList d -> is_Some (states d !! i)) /\
             (forall i, is_Some (states d !! i) -> i ∈ map t_id ts) /\ (forall i, i ∈ map t_id ts -> (i < fresh d)%nat);
  di_flying : forall i s, (i, s) ∈ fly -> is_Some (states d !! i) /\ 0 < s;
  di_asked : forall i c, (i, c) ∈ ask -> i ∈ map t_id ts;
  di_pending : pendingCount d = Z.of_nat (length fly) /\ Z.of_nat (length fly) < 2 ^ 32;
  di_transfers : forall t, t ∈ ts -> exists m, transfer_ok d ask fly t m;
  di_raised : map fst (raised d) ≡ₚ omap (finished (states d)) ts;
}.

(** A packet that was refused is the chunk that the first transfer has to send. *)
Definition held (d : DmaPort) : Prop :=
  match inRetry d with
  | None => True
  | Some k => exists i rest st, transmitList d = i :: rest /\ states d !! i = Some st /\
      senderState k = i /\ addr (dk_pkt k) = curAddr (gen st) /\ psize (dk_pkt k) = curSize (gen st)
  end.

(** There is something to wait for. *)
Record armed (now : Z) (d : DmaPort) : Prop := {
  ar_clock : steady now (dma_clock d);
  ar_held : held d;
  ar_retry : retryPending d = bool_decide (is_Some (inRetry d));
  ar_event : forall t, sendEvent d = Some t -> now <= t /\ retryPending d = false /\ transmitList d <> [];
  ar_waits : transmitList d <> [] -> retryPending d = true \/ is_Some (sendEvent d);
}.

(** The first transfer and its next chunk. *)
Lemma first_transfer d ts ask fly i rest : dma_inv d ts ask fly -> transmitList d = i :: rest ->
  exists st t m, states d !! i = Some st /\ t ∈ ts /\ t_id t = i /\ transfer_ok d ask fly t m /\
    totBytes st = t_size t /\ completionEvent st = t_event t /\ aborted st = false /\
    0 <= numBytes st < t_size t /\ numBytes st + flying_of i fly = m /\
    curAddr (gen st) = t_start t + m /\ gen_inv (t_start t + t_size t) (gen st) /\ 0 < curSize (gen st) /\ chunkSize (gen st) = cacheLineSize d.
Proof.
  intros [_ _ (Hk1 & Hk2 & _) _ _ _ Ht _] Hl. assert (Hin : i ∈ transmitList d) by (rewrite Hl; left).
  destruct (Hk1 i Hin) as [st Est]. specialize (Hk2 i (mk_is_Some _ _ Est)). apply list_elem_of_fmap in Hk2 as (t & -> & Htin).
  destruct (Ht t Htin) as [m Hm]. pose proof (to_state _ _ _ _ _ Hm) as Hs. rewrite Est, decide_True in Hs by done.
  destruct Hs as (H1 & H2 & H3 & H4 & H5 & H6 & H7 & H8 & H9). exists st, t, m. split_and!; done || lia.
Qed.

(** A chunk is sent: the port after it has counted and moved on. *)
Definition moved_on (i : nat) (st : DmaReqState) (rest : list nat) (d : DmaPort) : DmaPort :=
  let d1 := put_state i (set_gen (next (gen st)).1 st) d in
  if ChunkGen.last (gen st) then set_transmitList rest d1 else d1.

Lemma moved_fields i st rest d : transmitList d = i :: rest ->
  let d' := moved_on i st rest d in
  states d' = <[i := set_gen (next (gen st)).1 st]> (states d) /\ transmitList d' = (if ChunkGen.last (gen st) then rest else i :: rest) /\
  pendingCount d' = pendingCount d /\ cacheLineSize d' = cacheLineSize d /\ fresh d' = fresh d /\ raised d' = raised d /\
  sendEvent d' = sendEvent d /\ inRetry d' = inRetry d /\ retryPending d' = retryPending d /\ dma_clock d' = dma_clock d.
Proof. intros Hl. unfold moved_on. destruct (ChunkGen.last (gen st)); cbn; by rewrite ?Hl. Qed.

Lemma finished_insert sts i st' (ts : list transfer) : is_Some (sts !! i) -> omap (finished (<[i := st']> sts)) ts = omap (finished sts) ts.
Proof.
  intros [st Hi]. induction ts as [| t ts IH]; [done |]. cbn. rewrite IH. unfold finished. destruct (decide (t_id t = i)) as [<- | Hne].
  - by rewrite lookup_insert_eq, Hi.
  - by rewrite lookup_insert_ne by done.
Qed.

Lemma chunk_sent d d' ts ask fly i rest st : dma_inv d ts ask fly -> transmitList d = i :: rest -> states d !! i = Some st ->
  Z.of_nat (length fly) + 1 < 2 ^ 32 -> states d' = states (moved_on i st rest d) -> transmitList d' = transmitList (moved_on i st rest d) ->
  cacheLineSize d' = cacheLineSize d -> (fresh d <= fresh d')%nat -> raised d' = raised d -> pendingCount d' = pendingCount d + 1 ->
  dma_inv d' ts (ask ++ [(i, (curAddr (gen st), curSize (gen st)))]) (fly ++ [(i, curSize (gen st))]).
Proof.
  intros Hinv Hl Est Hroom E1 E2 E3 E4 E5 E6. destruct (first_transfer d ts ask fly i rest Hinv Hl) as (st0 & t & m & Est0 & Htin & Hid & Hm & T1 & T2 & T3 & T4 & T5 & T6 & T7 & T8 & T9).
  rewrite Est in Est0. injection Est0 as <-. destruct (moved_fields i st rest d Hl) as (F1 & F2 & _). rewrite F1 in E1. rewrite F2 in E2. clear F1 F2.
  pose proof Hinv as [Hline [Hn1 Hn2] (Hk1 & Hk2 & Hk3) Hfl Has [Hp1 Hp2] Htr Hra]. rewrite Hl in Hn1. apply NoDup_cons in Hn1 as [Hni Hn1].
  assert (Hsub : forall j, j ∈ transmitList d' -> j ∈ transmitList d) by (intros j; rewrite E2, Hl; destruct (ChunkGen.last _); [by right | done]).
  split.
  - by rewrite E3.
  - rewrite E2. split; [| done]. destruct (ChunkGen.last _); [done |]. by apply NoDup_cons.
  - rewrite E1. split_and!.
    + intros j Hj. apply Hsub, Hk1 in Hj. by apply lookup_insert_is_Some'; right.
    + intros j [<- | Hj]%lookup_insert_is_Some'; [apply list_elem_of_fmap; by exists t | by apply Hk2].
    + intros j Hj. specialize (Hk3 j Hj). lia.
  - intros j s [Hj | [= -> ->]%list_elem_of_singleton]%elem_of_app.
    + destruct (Hfl j s Hj). split; [| done]. rewrite E1. apply lookup_insert_is_Some'. by right.
    + split; [| done]. rewrite E1. apply lookup_insert_is_Some'. by left.
  - intros j c [Hj | [= -> ->]%list_elem_of_singleton]%elem_of_app; [by eapply Has |]. apply list_elem_of_fmap. by exists t.
  - rewrite E6, length_app. cbn [length]. lia.
  - intros t' Ht'. destruct (decide (t_id t' = i)) as [Ei | Ei].
    + assert (t' = t) as ->.
      { apply list_elem_of_lookup in Ht' as [a Ha], Htin as [b Hb]. assert (a = b) as ->; [| congruence].
        apply (NoDup_lookup (map t_id ts) a b i Hn2); [change (map t_id ts) with (t_id <$> ts); rewrite list_lookup_fmap, Ha; cbn; by rewrite Ei
          | change (map t_id ts) with (t_id <$> ts); rewrite list_lookup_fmap, Hb; cbn; by rewrite Hid]. }
      exists (m + curSize (gen st)). destruct Hm as [R1 R2 R3 _]. rewrite Hid in *. split; [done | | |].
      * rewrite Hid, asked_of_snoc, decide_True by done. rewrite Z.add_assoc, T6. by apply tiles_snoc.
      * rewrite Hid, asked_of_snoc, decide_True by done. rewrite E3. apply Forall_app. split; [done |]. constructor; [| done].
        rewrite <- T9. by apply (gi_block _ _ T7).
      * rewrite Hid, E1, lookup_insert_eq, flying_of_snoc, decide_True by done. cbn [totBytes completionEvent aborted numBytes set_gen gen].
        split_and!; try done; try lia. rewrite E2. destruct (ChunkGen.last (gen st)) eqn:Elast.
        -- rewrite decide_False by done. apply Z.eqb_eq in Elast. destruct T7 as [? ? _ _ _ _]. lia.
        -- rewrite decide_True by left. destruct (next_inv _ _ T7 ltac:(lia) Elast) as (N1 & _ & N3 & N4 & _ & N6). rewrite N3, N4, E3.
           split_and!; try done; lia.
    + destruct (Htr t' Ht') as [m' [R1 R2 R3 R4]]. exists m'. split; [done | | |].
      * rewrite asked_of_snoc, decide_False by done. by rewrite app_nil_r.
      * rewrite asked_of_snoc, decide_False by done. by rewrite app_nil_r, E3.
      * rewrite E1, lookup_insert_ne by done. rewrite flying_of_snoc, decide_False by done. rewrite Z.add_0_r, E3.
        assert (Hiff : t_id t' ∈ transmitList d' <-> t_id t' ∈ transmitList d).
        { rewrite E2, Hl. destruct (ChunkGen.last _); [| done]. rewrite elem_of_cons. intuition congruence. }
        destruct (states d !! t_id t') as [st' |]; [| by rewrite Hiff]. by rewrite (decide_ext _ _ _ _ Hiff).
  - rewrite E5, E1, finished_insert; [done | by eexists].
Qed.

Lemma dma_inv_frame d d' ts ask fly : dma_inv d ts ask fly -> states d' = states d -> transmitList d' = transmitList d ->
  cacheLineSize d' = cacheLineSize d -> pendingCount d' = pendingCount d -> raised d' = raised d -> (fresh d <= fresh d')%nat ->
  dma_inv d' ts ask fly.
Proof.
  intros [H1 H2 (H3 & H4 & H5) H6 H7 H8 H9 H10] E1 E2 E3 E4 E5 E6. split; rewrite ?E1, ?E2, ?E3, ?E4, ?E5; try done.
  - split_and!; try done. intros i Hi. specialize (H5 i Hi). lia.
  - intros t Ht. destruct (H9 t Ht) as [m [R1 R2 R3 R4]]. exists m. split; rewrite ?E1, ?E2, ?E3; done.
Qed.

Definition sys_inv (x : dma_sys) : Prop := dma_inv (port x) (transfers x) (asked x) (flying x) /\ armed (d_now x) (port x).

Section sending.
Variables (dr : Packet -> bool) (x : dma_sys) (cur : Z) (ans : send_answer) (d : DmaPort) (ts : list transfer) (i : nat) (rest : list nat).
Hypothesis Hinv : dma_inv d ts (asked x) (flying x).
Hypothesis Hl : transmitList d = i :: rest.
Hypothesis Hclk : steady cur (dma_clock d).
Hypothesis Hheld : held d.
Hypothesis Hidle : retryPending d = false /\ sendEvent d = None.
Hypothesis Hroom : Z.of_nat (length (flying x)) + 1 < 2 ^ 32.
Hypothesis Hans : later ans.

(** The packet that is tried is the next chunk of the first transfer. *)
Lemma packet_ready st : states d !! i = Some st -> exists k d1,
  match inRetry d with Some p => (p, d) | None => createPacket i st d end = (k, d1) /\
  senderState k = i /\ addr (dk_pkt k) = curAddr (gen st) /\ psize (dk_pkt k) = curSize (gen st) /\
  states d1 = states d /\ transmitList d1 = transmitList d /\ cacheLineSize d1 = cacheLineSize d /\ pendingCount d1 = pendingCount d /\
  raised d1 = raised d /\ (fresh d <= fresh d1)%nat /\ sendEvent d1 = None /\ retryPending d1 = false /\ dma_clock d1 = dma_clock d.
Proof.
  intros Est. destruct Hidle as [Hr Hs]. unfold held in Hheld. destruct (inRetry d) as [p |].
  - destruct Hheld as (j & rest' & st' & E1 & E2 & E3 & E4 & E5). rewrite Hl in E1. injection E1 as <- <-. rewrite Est in E2. injection E2 as <-.
    exists p, d. by split_and!.
  - eexists _, _. split; [reflexivity |]. split_and!; try done. cbn. lia.
Qed.

Lemma trySend_ok : exists k d', trySendTimingReq dr cur ans d = Ok (k, d') /\ sys_inv (sent x ts cur ans (Some k) d').
Proof.
  destruct (first_transfer d ts (asked x) (flying x) i rest Hinv Hl) as (st & t & m & Est & _).
  destruct (packet_ready st Est) as (k & d1 & Ek & K1 & K2 & K3 & F1 & F2 & F3 & F4 & F5 & F6 & F7 & F8 & F9).
  unfold trySendTimingReq, state_of. rewrite Hl, Est. cbn [obind]. rewrite Ek.
  pose proof (di_pending _ _ _ _ Hinv) as [Hp1 _]. destruct ans; [| | done]; swap 1 2.
  - cbn [obind]. set (d2 := set_pendingCount _ _). assert (R2 : retryPending d2 = false) by (cbn; exact F8).
    assert (Sd2 : states d2 !! i = Some st) by (cbn; by rewrite F1). rewrite R2, Sd2. cbn [negb obind].
    fold (moved_on i st rest d2). assert (Hl2 : transmitList d2 = i :: rest) by (cbn; by rewrite F2).
    destruct (moved_fields i st rest d2 Hl2) as (M1 & M2 & M3 & M4 & M5 & M6 & M7 & M8 & M9 & M10). set (d3 := moved_on i st rest d2) in *.
    assert (Hsent : forall d', states d' = states d3 -> transmitList d' = transmitList d3 -> cacheLineSize d' = cacheLineSize d3 -> fresh d' = fresh d3 ->
      raised d' = raised d3 -> pendingCount d' = pendingCount d3 ->
      dma_inv d' ts (asked x ++ [(i, (curAddr (gen st), curSize (gen st)))]) (flying x ++ [(i, curSize (gen st))])).
    { intros d' S1 S2 S3 S4 S5 S6. destruct (moved_fields i st rest d Hl) as (N1 & N2 & _).
      apply (chunk_sent d d' ts (asked x) (flying x) i rest st Hinv Hl Est Hroom).
      - rewrite S1, M1, N1. cbn. by rewrite F1.
      - rewrite S2, M2, N2. done.
      - rewrite S3, M4. exact F3.
      - rewrite S4, M5. exact F6.
      - rewrite S5, M6. exact F5.
      - rewrite S6, M3. cbn. rewrite F4, wrap_small by (unfold in_width; lia). done. }
    case_bool_decide as Hne.
    + assert (C2 : dma_clock d2 = dma_clock d) by exact F9. assert (E2 : sendEvent d2 = None) by exact F7. rewrite M10, C2. destruct (steady_edge cur _ Hclk) as (e & c' & -> & Hc' & He). cbn [obind].
      rewrite M7, E2. unfold schedule. destruct (Z.leb_spec cur e); [| lia]. cbn [assert_ obind].
      eexists k, _. split; [reflexivity |]. unfold sys_inv, sent. cbn [port transfers asked flying d_now]. rewrite K1, K2, K3. split; [by apply Hsent |].
      split; cbn; rewrite ?M8, ?M9; try done.
      * unfold held. cbn. by rewrite M8.
      * intros e' [= <-]. split_and!; done || lia.
      * intros _. right. by eexists.
    + eexists k, _. split; [reflexivity |]. unfold sys_inv, sent. cbn [port transfers asked flying d_now]. rewrite K1, K2, K3. split; [by apply Hsent |].
      split; rewrite ?M7, ?M8, ?M9, ?M10; cbn; rewrite ?F7, ?F9; try done. unfold held. by rewrite M8.
  - cbn [obind retryPending set_retry negb]. eexists k, _. split; [reflexivity |]. unfold sys_inv, sent. cbn [port transfers asked flying d_now]. split.
    + by apply (dma_inv_frame d).
    + split; cbn; rewrite ?F7, ?F9; try done.
      * unfold held. cbn. exists i, rest, st. rewrite F1, F2. by split_and!.
      * intros _. by left.
Qed.
End sending.

Lemma sendDma_ok dr x cur ans d ts : later ans -> dma_inv d ts (asked x) (flying x) -> transmitList d <> [] -> steady cur (dma_clock d) -> held d ->
  retryPending d = bool_decide (is_Some (inRetry d)) -> (forall t, sendEvent d = Some t -> cur <= t /\ retryPending d = false) ->
  Z.of_nat (length (flying x)) + 1 < 2 ^ 32 ->
  exists k d', sendDma_timing dr cur ans d = Ok (k, d') /\ sys_inv (sent x ts cur ans k d').
Proof.
  intros Hans Hinv Hne Hclk Hheld Hr Hev Hroom. unfold sendDma_timing. rewrite bool_decide_eq_true_2 by done. cbn [assert_ obind].
  destruct (retryPending d) eqn:Er; cbn [orb].
  { eexists None, d. split; [done |]. split; [done |]. split; cbn; [done | done | by rewrite Er | | intros _; by left].
    intros t Ht. destruct (Hev t Ht) as [? ?]. split; [done | split; [by rewrite ?Er | done]]. }
  destruct (decide (is_Some (sendEvent d))) as [Es | Es]; [rewrite (bool_decide_eq_true_2 _ Es) | rewrite (bool_decide_eq_false_2 _ Es)].
  { eexists None, d. split; [done |]. split; [done |]. split; cbn; [done | done | by rewrite Er | | intros _; by right].
    intros t Ht. destruct (Hev t Ht) as [? ?]. split; [done | split; [by rewrite ?Er | done]]. }
  destruct (transmitList d) as [| i rest] eqn:El; [done |].
  assert (Es' : sendEvent d = None) by (by apply eq_None_not_Some).
  destruct (trySend_ok dr x cur ans d ts i rest) as (k & d' & -> & H); auto. cbn [obind]. by exists (Some k), d'.
Qed.

(** A new transfer joins the others. *)
Lemma add_transfer_ok c a size ev delay fl d ts ask fly : dma_inv d ts ask fly -> 0 <= a -> 0 < size -> a + size < 2 ^ 64 ->
  a + cacheLineSize d < 2 ^ 64 ->
  exists d', add_transfer c a size ev delay fl d = Ok d' /\ dma_inv d' (ts ++ [mkTransfer (fresh d) a size ev]) ask fly /\
    transmitList d' = transmitList d ++ [fresh d] /\ sendEvent d' = sendEvent d /\ inRetry d' = inRetry d /\
    retryPending d' = retryPending d /\ dma_clock d' = dma_clock d /\ (held d -> held d').
Proof.
  intros [[Hpow Hline] [Hn1 Hn2] (Hk1 & Hk2 & Hk3) Hfl Has Hp Htr Hra] Ha Hs He Hc. set (i := fresh d).
  destruct (new_inv a size (cacheLineSize d)) as (g & Eg & Hg & Eg1 & _ & Eg3); [lia | lia | lia | by right | lia | done |].
  unfold add_transfer, new_DmaReqState. rewrite Eg. cbn [obind]. fold i. set (st := mkDmaReqState _ _ _ _ _ _ _ _ _ _).
  assert (Hnew : forall j, j ∈ map t_id ts -> j <> i) by (intros j Hj ->; specialize (Hk3 i Hj); unfold i in Hk3; lia).
  assert (Hno : states d !! i = None).
  { destruct (states d !! i) eqn:E; [| done]. destruct (Hnew i); [| done]. apply Hk2. by eexists. }
  assert (Hask : asked_of i ask = []).
  { unfold asked_of. rewrite filter_none; [done |]. intros [j ch] Hj E. cbn in E. subst j. by destruct (Hnew i (Has _ _ Hj)). }
  assert (Hflying : flying_of i fly = 0).
  { apply flying_of_pos; [intros j s Hj; by destruct (Hfl j s Hj) |]. intros s Hj. destruct (Hfl i s Hj) as [[? E] _]. by rewrite Hno in E. }
  assert (Hnl : i ∉ transmitList d) by (intros Hj; destruct (Hk1 i Hj) as [? E]; by rewrite Hno in E).
  eexists. split; [reflexivity |]. split.
  - split; cbn [cacheLineSize transmitList states fresh pendingCount raised set_transmitList put_state set_states set_fresh].
    + done.
    + rewrite map_app, !NoDup_app. split; (split; [done |]; split; [| apply NoDup_singleton]).
      * by intros j Hj ->%list_elem_of_singleton.
      * intros j Hj Hj2%list_elem_of_singleton. by apply (Hnew j Hj).
    + rewrite map_app. split_and!.
      * intros j [Hj | ->%list_elem_of_singleton]%elem_of_app; apply lookup_insert_is_Some'; [right; by apply Hk1 | by left].
      * intros j [<- | Hj]%lookup_insert_is_Some'; apply elem_of_app; [right; by left | left; by apply Hk2].
      * intros j [Hj | ->%list_elem_of_singleton]%elem_of_app; [specialize (Hk3 j Hj); fold i in Hk3; lia | cbn; lia].
    + intros j s Hj. destruct (Hfl j s Hj). split; [| done]. apply lookup_insert_is_Some'. by right.
    + intros j ch Hj. rewrite map_app. apply elem_of_app. left. by eapply Has.
    + done.
    + intros t [Ht | ->%list_elem_of_singleton]%elem_of_app.
      * destruct (Htr t Ht) as [m [R1 R2 R3 R4]]. exists m. split; try done. cbn [states transmitList].
        assert (Hne : t_id t <> i) by (apply Hnew, list_elem_of_fmap; by exists t). cbn. rewrite lookup_insert_ne by done.
        assert (Hiff : t_id t ∈ transmitList d ++ [i] <-> t_id t ∈ transmitList d) by (rewrite elem_of_app, list_elem_of_singleton; intuition).
        destruct (states d !! t_id t); [| by rewrite Hiff]. by rewrite (decide_ext _ _ _ _ Hiff).
      * exists 0. cbn [t_id t_start t_size t_event]. split; cbn; [done | by rewrite Hask; cbn; lia | by rewrite Hask |].
        rewrite lookup_insert_eq, decide_True by (apply elem_of_app; right; by left). cbn [totBytes completionEvent aborted numBytes gen st].
        rewrite Hflying. split_and!; try done; try lia. pose proof Hg as [[? [? ?]] [? ?] _ _ Hemp _]. destruct (decide (curSize g = 0)) as [E0 | E0]; [specialize (Hemp E0); lia | lia].
    + rewrite omap_app. cbn. unfold finished at 2. cbn. rewrite lookup_insert_eq, app_nil_r. rewrite Hra.
      rewrite (list_omap_ext (finished (<[i := st]> (states d))) (finished (states d)) ts ts); [done |]. apply Forall2_same_length_lookup_2; [done |].
      intros k t t' Et Et'. assert (t' = t) as -> by congruence. unfold finished. rewrite lookup_insert_ne; [done |].
      intros E. destruct (Hnew (t_id t)); [apply list_elem_of_fmap; exists t; split; [done | by eapply list_elem_of_lookup_2] | done].
  - split_and!; try done. unfold held. cbn. destruct (inRetry d) as [k |]; [| done]. intros (j & rest & st' & E1 & E2 & E3).
    exists j, (rest ++ [i]), st'. rewrite E1. split; [done |]. split; [| done]. rewrite lookup_insert_ne; [done |].
    intros <-. by rewrite Hno in E2.
Qed.

(** * Responses *)

Lemma finished_delete sts t ts : NoDup (map t_id ts) -> t ∈ ts -> is_Some (sts !! t_id t) ->
  omap (finished (delete (t_id t) sts)) ts ≡ₚ omap (finished sts) ts ++ option_list (t_event t).
Proof.
  intros Hn Hin [st Hs]. induction ts as [| t' ts IH]; [by apply not_elem_of_nil in Hin |]. cbn [map] in Hn. apply NoDup_cons in Hn as [Hni Hn].
  assert (Hrest : t_id t ∉ map t_id ts -> omap (finished (delete (t_id t) sts)) ts = omap (finished sts) ts).
  { intros Hno. apply list_omap_ext, Forall2_same_length_lookup_2; [done |]. intros k a b Ea Eb. assert (b = a) as -> by congruence.
    unfold finished. rewrite lookup_delete_ne; [done |]. intros E. apply Hno, list_elem_of_fmap. exists a. split; [done | by eapply list_elem_of_lookup_2]. }
  apply elem_of_cons in Hin as [<- | Hin].
  - cbn. rewrite Hrest by done. assert (E1 : finished (delete (t_id t) sts) t = t_event t) by (unfold finished; by rewrite lookup_delete_eq).
    assert (E2 : finished sts t = None) by (unfold finished; by rewrite Hs). rewrite E1, E2.
    destruct (t_event t); cbn; [apply Permutation_cons_append | by rewrite app_nil_r].
  - cbn. assert (Hne : t_id t <> t_id t') by (intros E; apply Hni; rewrite <- E; apply list_elem_of_fmap; by exists t).
    assert (E1 : finished (delete (t_id t) sts) t' = finished sts t') by (unfold finished; by rewrite lookup_delete_ne). rewrite E1.
    destruct (finished sts t'); [by rewrite (IH Hn Hin) | by apply IH].
Qed.

Lemma same_transfer (ts : list transfer) t t' : NoDup (map t_id ts) -> t ∈ ts -> t' ∈ ts -> t_id t' = t_id t -> t' = t.
Proof.
  intros Hn [a Ha]%list_elem_of_lookup [b Hb]%list_elem_of_lookup E.
  assert (b = a) as ->; [| congruence]. apply (NoDup_lookup (t_id <$> ts) b a (t_id t) Hn); rewrite list_lookup_fmap, ?Ha, ?Hb; cbn; congruence.
Qed.

(** What a response leaves alone. *)
Record kept (d d' : DmaPort) : Prop := {
  kp_list : transmitList d' = transmitList d;
  kp_event : sendEvent d' = sendEvent d;
  kp_retry : inRetry d' = inRetry d /\ retryPending d' = retryPending d;
  kp_clock : dma_clock d' = dma_clock d;
  kp_gen : forall i st, i ∈ transmitList d -> states d !! i = Some st -> exists st', states d' !! i = Some st' /\ gen st' = gen st;
}.

Lemma kept_armed now d d' : kept d d' -> armed now d -> armed now d'.
Proof.
  intros [K1 K2 [K3 K4] K5 K6] [A1 A2 A3 A4 A5]. split; rewrite ?K1, ?K2, ?K3, ?K4, ?K5; try done. unfold held in *. rewrite K3.
  destruct (inRetry d) as [k |]; [| done]. destruct A2 as (i & rest & st & E1 & E2 & E3 & E4 & E5).
  destruct (K6 i st) as (st' & Es & Eg); [rewrite E1; left | done |]. exists i, rest, st'. rewrite K1, Eg. by split_and!.
Qed.

Lemma handleResp_ok i size delay cur d ts ask fly k : dma_inv d ts ask fly -> fly !! k = Some (i, size) ->
  exists d' st, handleResp i size delay cur d = Ok d' /\ dma_inv d' ts ask (delete k fly) /\ kept d d' /\ states d !! i = Some st /\
    (if totBytes st =? numBytes st + size
     then states d' !! i = None /\ raised d' = raised d ++ option_list ((fun e => (e, u64 (cur + u64 (delay + ds_delay st)))) <$> completionEvent st)
     else is_Some (states d' !! i) /\ raised d' = raised d).
Proof.
  intros Hinv Hk. pose proof Hinv as [Hline [Hn1 Hn2] (Hk1 & Hk2 & Hk3) Hfl Has [Hp1 Hp2] Htr Hra].
  pose proof (list_elem_of_lookup_2 _ _ _ Hk) as Hkin. destruct (Hfl i size Hkin) as [[st Est] Hsz].
  pose proof (Hk2 i (mk_is_Some _ _ Est)) as Hid. apply list_elem_of_fmap in Hid as (t & Eid & Htin). subst i.
  destruct (Htr t Htin) as [m Hm]. pose proof Hm as [(R0 & R1 & R1') R2 R3 R4]. rewrite Est in R4. destruct R4 as (T1 & T2 & T3 & T4 & T5 & T6).
  pose proof (flying_of_delete (t_id t) k (t_id t) size fly Hk) as Hfd. rewrite decide_True in Hfd by done.
  assert (Hpos' : forall j s, (j, s) ∈ delete k fly -> 0 < s) by (intros j s Hj; apply list_elem_of_delete_inv in Hj; by destruct (Hfl j s Hj)).
  destruct (flying_of_pos (t_id t) _ Hpos') as [Hge Hzero].
  assert (Hm_le : m <= t_size t /\ (t_id t ∈ transmitList d -> m < t_size t)).
  { destruct (decide (t_id t ∈ transmitList d)).
    - destruct T6 as (G1 & [[? [? ?]] [? ?] _ _ _ _] & G3 & _). split; [lia | intros _; lia].
    - split; [lia | done]. }
  destruct Hm_le as [Hm1 Hm2].
  assert (Hlen : length fly = S (length (delete k fly))).
  { rewrite length_delete by (by eexists). apply lookup_lt_Some in Hk. lia. }
  unfold handleResp, state_of. rewrite Hp1. destruct (Z.eqb_spec (Z.of_nat (length fly)) 0); [lia |]. cbn [negb assert_ obind states set_pendingCount].
  rewrite Est. cbn [obind]. rewrite (wrap_small 64 (numBytes st + size)) by (unfold in_width; lia).
  rewrite (wrap_small 32 (Z.of_nat (length fly) - 1)) by (unfold in_width; lia).
  set (st1 := set_numBytes (numBytes st + size) st). set (pc := Z.of_nat (length fly) - 1). cbn [numBytes totBytes aborted st1 set_numBytes].
  destruct (Z.leb_spec (numBytes st + size) (totBytes st)); [| lia]. cbn [assert_ obind]. rewrite T3.
  set (d1 := put_state (t_id t) st1 (set_pendingCount pc d)).
  assert (Hpend : forall d', pendingCount d' = pc -> pendingCount d' = Z.of_nat (length (delete k fly)) /\ Z.of_nat (length (delete k fly)) < 2 ^ 32)
    by (intros d' ->; unfold pc; lia).
  assert (Hother : forall d' t', t' ∈ ts -> t_id t' <> t_id t -> states d' !! t_id t' = states d !! t_id t' -> transmitList d' = transmitList d ->
    cacheLineSize d' = cacheLineSize d -> exists m', transfer_ok d' ask (delete k fly) t' m').
  { intros d' t' Ht' Hne E1 E2 E3. destruct (Htr t' Ht') as [m' [S1 S2 S3 S4]]. exists m'. split; rewrite ?E1, ?E2, ?E3; try done.
    assert (Ef : flying_of (t_id t') (delete k fly) = flying_of (t_id t') fly).
    { rewrite (flying_of_delete (t_id t') k (t_id t) size fly Hk), decide_False by congruence. lia. }
    by rewrite Ef. }
  assert (Hsame : forall t', t' ∈ ts -> t_id t' = t_id t -> t' = t) by (intros t' Ht' E; by apply (same_transfer ts)).
  destruct (Z.eqb_spec (totBytes st) (numBytes st + size)) as [Eall | Eall].
  - set (when := u64 (cur + u64 (delay + ds_delay st1))). set (d2 := delete_state (t_id t) (raise (completionEvent st1) when d1)).
    assert (F : transmitList d2 = transmitList d /\ sendEvent d2 = sendEvent d /\ inRetry d2 = inRetry d /\ retryPending d2 = retryPending d /\
      dma_clock d2 = dma_clock d /\ cacheLineSize d2 = cacheLineSize d /\ fresh d2 = fresh d /\ pendingCount d2 = pc /\
      states d2 = delete (t_id t) (states d) /\ raised d2 = raised d ++ option_list ((fun e => (e, when)) <$> completionEvent st)).
    { unfold d2, raise, st1. cbn. destruct (completionEvent st); cbn; rewrite delete_insert_eq; by rewrite ?app_nil_r. }
    destruct F as (F1 & F2 & F3 & F4 & F5 & F6 & F7 & F8 & F9 & F10).
    assert (Hnl : t_id t ∉ transmitList d) by (intros Hin; specialize (Hm2 Hin); lia).
    assert (Hall : m = t_size t /\ flying_of (t_id t) (delete k fly) = 0) by lia.
    assert (Hfin : forall d3, states d3 = states d2 -> transmitList d3 = transmitList d2 -> cacheLineSize d3 = cacheLineSize d2 -> fresh d3 = fresh d2 ->
      pendingCount d3 = pendingCount d2 -> raised d3 = raised d2 -> dma_inv d3 ts ask (delete k fly)).
    { intros d3 G1 G2 G3 G4 G5 G6. rewrite F9 in G1. rewrite F1 in G2. rewrite F6 in G3. rewrite F7 in G4. rewrite F8 in G5. rewrite F10 in G6.
      split; rewrite ?G1, ?G2, ?G3, ?G4, ?G6; try done.
      - split_and!; [| | done].
        + intros j Hj. rewrite lookup_delete_ne; [by apply Hk1 |]. by intros <-.
        + intros j [s Hj]. apply lookup_delete_Some in Hj as [_ Hj]. apply Hk2. by eexists.
      - intros j s Hj. destruct (Hfl j s (list_elem_of_delete_inv _ _ _ Hj)) as [Hj1 Hj2]. split; [| done]. rewrite lookup_delete_ne; [done |].
        intros <-. destruct Hall as [_ H0]. apply Hzero with s in H0. done.
      - apply Hpend, G5.
      - intros t' Ht'. destruct (decide (t_id t' = t_id t)) as [E | E].
        + rewrite (Hsame t' Ht' E). exists m. split; rewrite ?G1, ?G2, ?G3; try done. rewrite lookup_delete_eq. by destruct Hall.
        + apply Hother; try done. by rewrite G1, lookup_delete_ne.
      - rewrite map_app, Hra, (finished_delete (states d) t ts Hn2 Htin) by (by eexists). rewrite T2. by destruct (t_event t). }
    assert (Hkept : forall d3, states d3 = states d2 -> transmitList d3 = transmitList d2 -> sendEvent d3 = sendEvent d2 -> inRetry d3 = inRetry d2 ->
      retryPending d3 = retryPending d2 -> dma_clock d3 = dma_clock d2 -> kept d d3).
    { intros d3 G1 G2 G3 G4 G5 G6. split; rewrite ?G1, ?G2, ?G3, ?G4, ?G5, ?G6; try done. intros j s Hj Hs. exists s. split; [| done].
      rewrite F9, lookup_delete_ne; [done |]. by intros <-. }
    eexists _, st. split; [reflexivity |]. destruct (pendingCount d2 =? 0); (split; [by apply Hfin | split; [by apply Hkept |]]); (split; [done |]); rewrite (proj2 (Z.eqb_eq _ _) Eall); cbn [states signalDrainDone set_dma_draining raised];
      rewrite F9, F10; (split; [by rewrite lookup_delete_eq | done]).
  - assert (Hfin : forall d3, states d3 = states d1 -> transmitList d3 = transmitList d1 -> cacheLineSize d3 = cacheLineSize d1 -> fresh d3 = fresh d1 ->
      pendingCount d3 = pendingCount d1 -> raised d3 = raised d1 -> dma_inv d3 ts ask (delete k fly)).
    { intros d3 G1 G2 G3 G4 G5 G6. cbn in G1, G2, G3, G4, G5, G6. split; rewrite ?G1, ?G2, ?G3, ?G4, ?G6; try done.
      - split_and!; [| | done].
        + intros j Hj. apply lookup_insert_is_Some'. right. by apply Hk1.
        + intros j [<- | Hj]%lookup_insert_is_Some'; [apply list_elem_of_fmap; by exists t | by apply Hk2].
      - intros j s Hj. destruct (Hfl j s (list_elem_of_delete_inv _ _ _ Hj)) as [Hj1 Hj2]. split; [| done]. apply lookup_insert_is_Some'. by right.
      - apply Hpend, G5.
      - intros t' Ht'. destruct (decide (t_id t' = t_id t)) as [E | E].
        + rewrite (Hsame t' Ht' E). exists m. split; rewrite ?G1, ?G2, ?G3; try done. rewrite lookup_insert_eq. cbn [st1 totBytes completionEvent aborted numBytes set_numBytes gen].
          split_and!; try done; lia.
        + apply Hother; try done. by rewrite G1, lookup_insert_ne.
      - rewrite finished_insert; [done | by eexists]. }
    assert (Hkept : forall d3, states d3 = states d1 -> transmitList d3 = transmitList d1 -> sendEvent d3 = sendEvent d1 -> inRetry d3 = inRetry d1 ->
      retryPending d3 = retryPending d1 -> dma_clock d3 = dma_clock d1 -> kept d d3).
    { intros d3 G1 G2 G3 G4 G5 G6. split; rewrite ?G1, ?G2, ?G3, ?G4, ?G5, ?G6; try done. intros j s Hj Hs. cbn. destruct (decide (t_id t = j)) as [<- | Hne].
      - rewrite lookup_insert_eq. exists st1. split; [done |]. rewrite Est in Hs. by injection Hs as <-.
      - rewrite lookup_insert_ne by done. by exists s. }
    eexists _, st. split; [reflexivity |]. destruct (pendingCount d1 =? 0); (split; [by apply Hfin | split; [by apply Hkept |]]); (split; [done |]); rewrite (proj2 (Z.eqb_neq _ _) Eall); cbn [states signalDrainDone set_dma_draining raised d1 put_state set_states set_pendingCount];
      (split; [by rewrite lookup_insert_eq; eexists | done]).
Qed.

(** * Steps *)

Lemma dma_recvTimingResp_ok dr cur i resp size d ts ask fly k : plain_response resp -> dma_inv d ts ask fly -> fly !! k = Some (i, size) ->
  exists d', recvTimingResp dr cur i resp size d = Ok (true, d') /\ dma_inv d' ts ask (delete k fly) /\ kept d d'.
Proof.
  intros (Hr & Hv & Hk & Hu) Hinv Hf. unfold recvTimingResp, handleRespPacket, getAddr. rewrite (bool_decide_eq_true_2 _ Hk), Hu. cbn [assert_ obind].
  rewrite Hr, Hv. cbn [assert_ obind]. destruct (handleResp_ok i size 0 cur d ts ask fly k Hinv Hf) as (d' & st & -> & Hinv' & Hkept & _).
  by exists d'.
Qed.

Lemma armed_start now d d' : armed now d -> transmitList d' <> [] -> sendEvent d' = sendEvent d -> inRetry d' = inRetry d ->
  retryPending d' = retryPending d -> dma_clock d' = dma_clock d ->
  steady now (dma_clock d') /\ retryPending d' = bool_decide (is_Some (inRetry d')) /\
  forall t, sendEvent d' = Some t -> now <= t /\ retryPending d' = false.
Proof.
  intros [A1 A2 A3 A4 A5] Hne E1 E2 E3 E4. rewrite E1, E2, E3, E4. split; [done |]. split; [done |]. intros t Ht. by destruct (A4 t Ht) as (? & ? & _).
Qed.

Lemma dma_step_ok dr x o : sys_inv x -> dma_op_ok x o -> exists x', dma_step dr x o = Ok x' /\ sys_inv x'.
Proof.
  intros [Hinv Harm] Hok. destruct o as [c a size ev delay fl ans | ans | ans | k resp | t]; cbn [dma_step dma_op_ok] in *.
  - destruct Hok as (Hroom & Hans & Ha & Hs & He & Hc). unfold dmaAction.
    destruct (add_transfer_ok c a size ev delay fl _ _ _ _ Hinv Ha Hs He Hc) as (d' & -> & Hinv' & El & E1 & E2 & E3 & E4 & Hheld). cbn [obind].
    assert (Hne : transmitList d' <> []) by (rewrite El; by destruct (transmitList (port x))).
    destruct (armed_start _ _ _ Harm Hne E1 E2 E3 E4) as (S1 & S2 & S3).
    destruct (sendDma_ok dr x (d_now x) ans d' _ Hans Hinv' Hne S1 (Hheld (ar_held _ _ Harm)) S2 S3 Hroom) as (k & d'' & -> & H). cbn [obind]. by eexists.
  - destruct Hok as (Hroom & Hans & t & Et & Hmax). rewrite Et. destruct (ar_event _ _ Harm t Et) as (Hle & Hr & Hne).
    destruct (sendDma_ok dr x t ans (set_sendEvent None (port x)) (transfers x)) as (k & d' & -> & H); try done.
    + by apply (dma_inv_frame (port x)).
    + apply (steady_later (d_now x)); [apply Harm | lia].
    + apply Harm.
    + apply Harm.
    + cbn [obind]. by eexists.
  - destruct Hok as (Hroom & Hans & Hr). unfold recvReqRetry. cbn [transmitList set_retry].
    assert (Hhead : exists i rest, transmitList (port x) = i :: rest).
    { pose proof (ar_retry _ _ Harm) as Hin. rewrite Hr in Hin. symmetry in Hin. apply bool_decide_eq_true in Hin as [p Hp].
      pose proof (ar_held _ _ Harm) as Hh. unfold held in Hh. rewrite Hp in Hh. destruct Hh as (i & rest & _ & E & _). by exists i, rest. }
    destruct Hhead as (i & rest & El). rewrite bool_decide_eq_true_2 by (by rewrite El).
    set (d1 := set_retry (inRetry (port x)) false (port x)).
    destruct (trySend_ok dr x (d_now x) ans d1 (transfers x) i rest) as (k & d' & E & H); try done.
    + by apply (dma_inv_frame (port x)).
    + apply Harm.
    + exact (ar_held _ _ Harm).
    + split; [done |]. cbn. destruct (sendEvent (port x)) as [t |] eqn:Et; [| done]. destruct (ar_event _ _ Harm t Et) as (_ & ? & _). congruence.
    + rewrite E. cbn [obind]. by eexists.
  - destruct Hok as ((i & size & Ek) & Hresp). rewrite Ek.
    destruct (dma_recvTimingResp_ok dr (d_now x) i resp size (port x) _ _ _ k Hresp Hinv Ek) as (d' & -> & Hinv' & Hkept). cbn [obind].
    eexists. split; [reflexivity |]. split; [done |]. by apply (kept_armed _ (port x)).
  - destruct Hok as (Ht & He). eexists. split; [reflexivity |]. split; [done |]. destruct Harm as [A1 A2 A3 A4 A5]. split; cbn; try done.
    + apply (steady_later (d_now x)); [done | lia].
    + intros e Ee. destruct (A4 e Ee) as (? & ? & ?). split; [by apply He | done].
Qed.

Lemma dma_reachable_inv dr x : dma_reachable dr x -> sys_inv x.
Proof.
  induction 1 as [line c cxl t Hp Hl Hc | x o x' _ IH Hok Hstep].
  - split; cbn.
    + split; cbn; try done; [by split; constructor | | | |].
      * split_and!; [intros i Hi; by apply not_elem_of_nil in Hi | intros i [? Hi]; by rewrite lookup_empty in Hi | intros i Hi; by apply not_elem_of_nil in Hi].
      * intros i s Hi. by apply not_elem_of_nil in Hi.
      * intros i s Hi. by apply not_elem_of_nil in Hi.
      * intros t' Ht. by apply not_elem_of_nil in Ht.
    + by split.
  - destruct (dma_step_ok dr x o IH Hok) as (x1 & E & H). rewrite E in Hstep. by simplify_eq.
Qed.

(** A response inside the first send: the count of the requests in flight goes up only after
    the send, so the assertion on it fails. *)
Lemma immediate_response_fails dr cur resp d ts ask : dma_inv d ts ask [] -> transmitList d <> [] -> plain_response resp ->
  trySendTimingReq dr cur (Answered resp) d = Err AssertFail.
Proof.
  intros Hinv Hne (Hr & Hv & Hk & Hu). unfold trySendTimingReq. destruct (transmitList d) as [| i rest] eqn:El; [done |].
  destruct (di_known _ _ _ _ Hinv) as (Hst & _). destruct (Hst i) as [st Est]; [rewrite El; left |].
  unfold state_of at 1. rewrite Est. cbn [obind]. destruct (di_pending _ _ _ _ Hinv) as [Hp _]. cbn in Hp.
  assert (Hfst : exists k d1, (match inRetry d with Some p => (p, d) | None => createPacket i st d end) = (k, d1) /\ pendingCount d1 = 0)
    by (destruct (inRetry d); [by exists d0, d | by eexists _, _]).
  destruct Hfst as (k & d1 & -> & Hp1).
  unfold recvTimingResp, handleRespPacket, getAddr, handleResp. rewrite (bool_decide_eq_true_2 _ Hk), Hu. cbn [assert_ obind].
  rewrite Hr, Hv. cbn [assert_ obind]. change (pendingCount (set_retry None (retryPending d1) d1)) with (pendingCount d1). by rewrite Hp1.
Qed.


(** C27: in timing mode, over the histories of [dma_never_stuck] (transfers of at least one
    byte, no abort, responses that are not of a CXL kind and come after the send), every
    transfer asks for each byte of its region once, in order, by chunks that do not cross a
    cache line: what it has asked for is the start of the region, what has come back and
    what is in flight make it up, and once nothing is left to send or in flight the transfer
    is done.  The completion events scheduled are those of the transfers that are done, each
    once.  Atomic mode is not covered: there a CXL device that pulls a line skips it. *)
Theorem dma_transfers dr x : dma_reachable dr x ->
  (forall t, t ∈ transfers x -> exists m,
     tiles (t_start t) (t_start t + m) (asked_of (t_id t) (asked x)) /\
     Forall (in_block (cacheLineSize (port x))) (asked_of (t_id t) (asked x)) /\
     match states (port x) !! t_id t with
     | None => m = t_size t /\ flying_of (t_id t) (flying x) = 0
     | Some st => numBytes st < t_size t /\ numBytes st + flying_of (t_id t) (flying x) = m /\
         (t_id t ∈ transmitList (port x) \/ 0 < flying_of (t_id t) (flying x) /\ m = t_size t)
     end) /\
  map fst (raised (port x)) ≡ₚ omap (finished (states (port x))) (transfers x).
Proof.
  intros [Hinv _]%dma_reachable_inv. split; [| apply Hinv]. intros t Ht. destruct (di_transfers _ _ _ _ Hinv t Ht) as [m [R1 R2 R3 R4]].
  exists m. split; [done |]. split; [done |]. destruct (states (port x) !! t_id t) as [st |]; [| by destruct R4 as (? & ? & _)].
  destruct R4 as (_ & _ & _ & H4 & H5 & H6). split; [lia |]. split; [done |].
  destruct (decide (t_id t ∈ transmitList (port x))); [by left | right]. lia.
Qed.

(** * Transfers in atomic mode *)

Section atomic_transfer.
Context {W : Type}.
Variable sendAtomic : Packet -> W -> outcome (Packet * Z * W).

(** A memory that answers every request and sends no message of CXL. *)
Hypothesis answers : forall p w, cxl_cache (req p) = None -> exists p' lat w', sendAtomic p w = Ok (p', lat, w') /\
  isResponse (cmd p') = true /\ flag_isSet VALID_ADDR p' = true /\ cxl_cache (req p') = None.

(** In the middle of a transfer: what was sent has come back. *)
Record midway (i : nat) (start n : Z) (st : DmaReqState) (d : DmaPort) : Prop := {
  mw_state : states d !! i = Some st;
  mw_plain : is_cxl st = false /\ aborted st = false;
  mw_bytes : totBytes st = n /\ numBytes st = curAddr (gen st) - start /\ 0 <= start <= curAddr (gen st);
  mw_gen : gen_inv (start + n) (gen st) /\ 0 < curSize (gen st) /\ start + n < 2 ^ 64;
  mw_pending : pendingCount d = 0;
}.

Definition chunk_of (k : DmaPkt) : Z * Z := (addr (dk_pkt k), psize (dk_pkt k)).

Section one_transfer.
Variables (i : nat) (cur : Z) (dc : DCOH) (start n : Z).
Hypothesis Hdc : need_data dc = false.

(** The completion of a transfer whose last response took [lat]. *)
Definition completion (st : DmaReqState) (lat : Z) : list (Z * Z) :=
  option_list ((fun e => (e, u64 (cur + u64 (lat + ds_delay st)))) <$> completionEvent st).

Lemma atomic_sent st d w : midway i start n st d -> exists k d' w' lat,
  sendAtomicReq sendAtomic i cur d dc w = Ok (ChunkGen.last (gen st), k, d', dc, w') /\ chunk_of k = (curAddr (gen st), curSize (gen st)) /\
  transmitList d' = transmitList d /\ pendingCount d' = 0 /\
  if ChunkGen.last (gen st)
  then states d' = delete i (states d) /\ raised d' = raised d ++ completion st lat
  else raised d' = raised d /\ exists st', states d' = <[i := st']> (states d) /\ midway i start n st' d' /\
       completionEvent st' = completionEvent st /\ ds_delay st' = ds_delay st /\
       curAddr (gen st') = curAddr (gen st) + curSize (gen st) /\ chunkSize (gen st') = chunkSize (gen st).
Proof.
  intros [Hst [Hcxl Hab] (Ht & Hn & Hs) (Hg & Hpos & Hmax) Hp]. pose proof Hg as [(? & ? & Hnext) [? Hend] _ _ _ _].
  unfold sendAtomicReq, state_of. rewrite Hst. cbn [obind createPacket dk_pkt psize dk_offset]. set (pkt0 := mkPacket _ _ _ _ _ _ _ _ _ _ _).
  unfold as_cxl. rewrite Hcxl. cbn [obind].
  destruct (answers pkt0 w eq_refl) as (pkt & lat & w' & -> & Hr & Hv & Hc). cbn [obind].
  assert (Enext : next (gen st) = ((next (gen st)).1, negb (ChunkGen.last (gen st)))) by (unfold next; by destruct (ChunkGen.last _)).
  rewrite Enext. rewrite Hdc, andb_false_r, Hc. cbn [is_Some]. rewrite bool_decide_eq_false_2 by (by intros [? ?]). cbn [andb obind].
  rewrite negb_involutive. unfold handleRespPacket, getAddr, handleResp, state_of. rewrite Hr, Hv. cbn [assert_ obind pendingCount put_state set_states set_pendingCount set_fresh states]. rewrite Hp.
  change (u32 (0 + 1)) with 1. cbn [Z.eqb negb assert_ obind]. change (u32 (1 - 1)) with 0. rewrite lookup_insert_eq. cbn [obind numBytes set_numBytes set_gen totBytes aborted].
  unfold ChunkGen.size. rewrite Hn, Ht, Hab, (wrap_small 64 (curAddr (gen st) - start + curSize (gen st))) by (unfold in_width; lia).
  destruct (Z.leb_spec (curAddr (gen st) - start + curSize (gen st)) n); [| lia]. cbn [assert_ obind].
  destruct (ChunkGen.last (gen st)) eqn:El.
  - apply Z.eqb_eq in El. rewrite (proj2 (Z.eqb_eq n _)) by lia. eexists _, _, w', lat. split; [reflexivity |]. split; [done |].
    cbn. unfold completion, raise. destruct (completionEvent st); cbn; rewrite !delete_insert_eq, ?app_nil_r; split_and!; try done.
  - pose proof El as El'. apply Z.eqb_neq in El'. rewrite (proj2 (Z.eqb_neq n _)) by lia.
    destruct (next_inv _ _ Hg Hmax El) as (N1 & _ & N3 & N4 & _ & N6).
    eexists _, _, w', lat. split; [reflexivity |]. split; [done |]. cbn. split; [done |]. split; [done |]. split; [done |].
    eexists. split; [by rewrite insert_insert_eq |]. split; [| done]. split; cbn; try done.
    + by rewrite !lookup_insert_eq.
    + rewrite N3. split_and!; done || lia.
Qed.

(** The whole of a transfer: its chunks, and its completion. *)
Lemma send_all_ok fuel : forall st d w, midway i start n st d -> start + n - curAddr (gen st) <= Z.of_nat fuel ->
  exists ks d' w' lat, send_all sendAtomic fuel i cur d dc w = Ok (ks, d', dc, w') /\
    tiles (curAddr (gen st)) (start + n) (map chunk_of ks) /\ Forall (in_block (chunkSize (gen st))) (map chunk_of ks) /\
    states d' = delete i (states d) /\ transmitList d' = transmitList d /\ pendingCount d' = 0 /\ raised d' = raised d ++ completion st lat.
Proof.
  induction fuel as [| fuel IH]; intros st d w Hm Hf; pose proof Hm as [_ _ _ (Hg & Hpos & _) _]; pose proof Hg as [(? & ? & Hnext) [? Hend] _ Hblk _ _]; [lia |].
  cbn [send_all]. destruct (atomic_sent st d w Hm) as (k & d1 & w1 & lat & -> & Ek & El1 & Ep1 & Hcase). cbn [obind].
  destruct (ChunkGen.last (gen st)) eqn:El.
  - destruct Hcase as [E1 E2]. apply Z.eqb_eq in El. exists [k], d1, w1, lat. cbn [map]. rewrite Ek. split; [done |].
    split; [cbn; split_and!; done || lia |]. split; [constructor; [by apply Hblk | done] |]. by split_and!.
  - destruct Hcase as (E1 & st' & E2 & Hm' & C1 & C2 & C3 & C4).
    destruct (IH st' d1 w1 Hm' ltac:(lia)) as (ks & d2 & w2 & lat2 & -> & Htl & Hb & S1 & S2 & S3 & S4). cbn [obind].
    exists (k :: ks), d2, w2, lat2. cbn [map]. rewrite Ek. split; [done |]. rewrite C3 in Htl. rewrite C4 in Hb. split; [by cbn |].
    split; [constructor; [by apply Hblk | done] |]. split; [by rewrite S1, E2, delete_insert_eq |]. split; [by rewrite S2 |]. split; [done |].
    rewrite S4, E1. unfold completion. by rewrite C1, C2.
Qed.
End one_transfer.

(** In atomic mode a transfer of at least one byte, whose device is not a CXL device,
    is done at once: the requests tile its region by chunks within cache lines, nothing
    stays pending, its state is gone and its completion event is scheduled once, after
    the latency of its last response and its own delay. *)
Theorem atomic_transfer c a size ev delay fl cur d dc w : dev_is_cxl d = false -> need_data dc = false ->
  transmitList d = [] -> pendingCount d = 0 -> states d !! fresh d = None ->
  isPowerOf2 (cacheLineSize d) = true -> 0 < cacheLineSize d -> 0 <= a -> 0 < size -> a + size < 2 ^ 64 -> a + cacheLineSize d < 2 ^ 64 ->
  exists d1 ks d' w' lat, add_transfer c a size ev delay fl d = Ok d1 /\ sendDma_atomic sendAtomic cur d1 dc w = Ok (ks, d', dc, w') /\
    tiles a (a + size) (map chunk_of ks) /\ Forall (in_block (cacheLineSize d)) (map chunk_of ks) /\
    transmitList d' = [] /\ pendingCount d' = 0 /\ states d' = states d /\
    raised d' = raised d ++ option_list ((fun e => (e, u64 (cur + u64 (lat + delay)))) <$> ev).
Proof.
  intros Hcxl Hdc Hl Hp Hno Hpow Hline Ha Hs He Hc.
  destruct (new_inv a size (cacheLineSize d)) as (g & Eg & Hg & G1 & _ & G3); [lia | lia | lia | by right | lia | done |].
  unfold add_transfer, new_DmaReqState. rewrite Eg. cbn [obind]. set (st := mkDmaReqState _ _ _ _ _ _ _ _ _ _).
  set (d1 := set_transmitList _ _). pose proof Hg as [[? [? ?]] [? ?] _ _ Hemp _].
  assert (Hpos : 0 < curSize g) by (destruct (decide (curSize g = 0)) as [E0 | E0]; [specialize (Hemp E0); lia | lia]).
  set (d2 := set_transmitList [] d1). assert (Hm : midway (fresh d) a size st d2).
  { split; [by apply lookup_insert_eq | by split | | by split_and! | done]. cbn [totBytes numBytes gen st]. rewrite G1. split_and!; done || lia. }
  destruct (send_all_ok (fresh d) cur dc a size Hdc (S (Z.to_nat size)) st d2 w Hm) as (ks & d' & w' & lat & E & Htl & Hb & S1 & S2 & S3 & S4).
  { cbn [gen st]. lia. }
  exists d1, ks, d', w', lat. split; [done |]. split.
  { unfold sendDma_atomic. assert (El : transmitList d1 = [fresh d]) by (cbn; by rewrite Hl). rewrite El, bool_decide_eq_true_2 by done. cbn [assert_ obind send_transfers].
    fold d2. unfold state_of. assert (Es : states d2 !! fresh d = Some st) by apply lookup_insert_eq. rewrite Es. cbn [obind gen st totBytes].
    unfold done. destruct (Z.eqb_spec (curSize g) 0); [lia |]. fold st. rewrite E. cbn [obind]. by rewrite app_nil_r. }
  cbn [gen st] in Htl, Hb. rewrite G1 in Htl. rewrite G3 in Hb. split_and!; try done.
  rewrite S1. cbn. by rewrite delete_insert_id.
Qed.
End atomic_transfer.

(** * Examples *)

(** A transfer of 100 bytes from the middle of a cache line: two packets, the second
    refused, whose responses come back in the other order. *)
Definition ex_clock : Clocked := mkClocked 0 0 10.
Definition ex_dma : dma_sys := mkDmaSys (new_DmaPort 64 ex_clock false) 0 [] [] [].
Definition dma_after (x : dma_sys) (o : dma_op) : dma_sys := match dma_step (fun _ => true) x o with Ok x => x | Err _ => x end.
Definition ex_response : Packet := mkPacket 0 ReadResp (Z.lor VALID_ADDR VALID_SIZE) 0 false 0 0 0 0 [] (new_Request 0).

Definition ex_begin : dma_op := Start ReadReq 0x1020 90 (Some 7) 5 0 Taken.
Definition ex_begun : dma_sys := dma_after ex_dma ex_begin.
Definition ex_blocked : dma_sys := dma_after ex_begun (SendEvent Refused).
Definition ex_sent : dma_sys := dma_after ex_blocked (Retry Taken).
Definition ex_half : dma_sys := dma_after ex_sent (Respond 1 ex_response).
Definition ex_finished : dma_sys := dma_after ex_half (Respond 0 ex_response).

Lemma ex_response_ok x k i s : flying x !! k = Some (i, s) -> dma_op_ok x (Respond k ex_response).
Proof. intros E. split; [by exists i, s | by split_and!]. Qed.

Lemma ex_blocked_reachable : dma_reachable (fun _ => true) ex_blocked.
Proof.
  apply (dr_step _ ex_begun (SendEvent Refused)); [| split; [vm_compute; reflexivity |] | vm_compute; reflexivity].
  - apply (dr_step _ ex_dma ex_begin); [| vm_compute; intuition congruence | vm_compute; reflexivity].
    apply dr_init; [reflexivity | lia |]. split; cbn; lia.
  - split; [exact I |]. exists 10. split; [vm_compute; reflexivity | lia].
Qed.

Lemma ex_finished_reachable : dma_reachable (fun _ => true) ex_finished.
Proof.
  apply (dr_step _ ex_half (Respond 0 ex_response)); [| apply (ex_response_ok _ _ 0 32); vm_compute; reflexivity | vm_compute; reflexivity].
  apply (dr_step _ ex_sent (Respond 1 ex_response)); [| apply (ex_response_ok _ _ 0 58); vm_compute; reflexivity | vm_compute; reflexivity].
  apply (dr_step _ ex_blocked (Retry Taken)); [apply ex_blocked_reachable | split_and!; [vm_compute; reflexivity | exact I | vm_compute; reflexivity] | vm_compute; reflexivity].
Qed.


(** Both packets lie in their cache lines; the event is scheduled once, after the delay of
    the transfer. *)
Lemma dma_transfers_witness :
  asked_of 0 (asked ex_finished) = [(0x1020, 32); (0x1040, 58)] /\ tiles 0x1020 (0x1020 + 90) [(0x1020, 32); (0x1040, 58)] /\
  raised (port ex_finished) = [(7, 15)] /\ states (port ex_finished) = ∅ /\ map fst (raised (port ex_finished)) ≡ₚ [7].
Proof.
  destruct (dma_transfers (fun _ => true) ex_finished ex_finished_reachable) as [H1 H2].
  assert (Hs : states (port ex_finished) = ∅) by (vm_compute; reflexivity).
  destruct (H1 (mkTransfer 0 0x1020 90 (Some 7))) as (m & Ht & _ & Hm); [vm_compute; left |].
  cbn [t_id] in Hm. rewrite Hs, lookup_empty in Hm. destruct Hm as [-> _].
  split; [vm_compute; reflexivity |]. split; [exact Ht |]. split; [vm_compute; reflexivity |]. split; [exact Hs |].
  rewrite Hs in H2. exact H2.
Defined.

(** A memory that answers at once. *)
Definition ex_memory_atomic (p : Packet) (n : nat) : outcome (Packet * Z * nat) :=
  Ok (mkPacket (pkt_id p) ReadResp (Z.lor VALID_ADDR VALID_SIZE) (addr p) false (psize p) 0 0 0 [] (new_Request 0), 30, S n).
Definition ex_atomic_port (cxl : bool) : DmaPort := new_DmaPort 64 ex_clock cxl.

Definition atomic_run (send : Packet -> nat -> outcome (Packet * Z * nat)) (c : Command) (a size : Z) (d : DmaPort)
    : outcome (list DmaPkt * DmaPort * DCOH * nat) :=
  let! d := add_transfer c a size (Some 7) 5 0 d in sendDma_atomic send 100 d new_DCOH 0%nat.

Lemma atomic_transfer_witness : exists ks d' w' lat,
  atomic_run ex_memory_atomic ReadReq 0x1020 90 (ex_atomic_port false) = Ok (ks, d', new_DCOH, w') /\
  map chunk_of ks = [(0x1020, 32); (0x1040, 58)] /\ raised d' = [(7, u64 (100 + u64 (lat + 5)))] /\ states d' = ∅.
Proof.
  destruct (atomic_transfer ex_memory_atomic) with (c := ReadReq) (a := 0x1020) (size := 90) (ev := Some 7) (delay := 5) (fl := 0) (cur := 100)
    (d := ex_atomic_port false) (dc := new_DCOH) (w := 0%nat) as (d1 & ks & d' & w' & lat & E1 & E2 & _ & _ & _ & _ & Hs & Hr);
    [intros p w _; eexists _, 30, (S w); split; [reflexivity | by split_and!] | reflexivity | reflexivity | reflexivity | reflexivity | reflexivity
    | reflexivity | reflexivity | lia | lia | lia | cbn; lia |].
  exists ks, d', w', lat. assert (E : atomic_run ex_memory_atomic ReadReq 0x1020 90 (ex_atomic_port false) = Ok (ks, d', new_DCOH, w')).
  { unfold atomic_run. rewrite E1. exact E2. }
  split; [exact E |]. split; [| split; [exact Hr | exact Hs]]. vm_compute in E. injection E as <- _ _. vm_compute. reflexivity.
Defined.

(** The home agent answers the first request of a write of three lines by asking for the
    data: the port then advances twice for the second packet, skips the third line, and
    the transfer ends without its event; its state is never deleted. *)
Definition ex_home (p : Packet) (n : nat) : outcome (Packet * Z * nat) :=
  let m := new_H2D_Resp GO_WritePull RSP_Invalid Host_CacheHit 0 0 0 0 in
  let r := new_Request 0 in
  let r := if bool_decide (n = 0%nat) then set_cxl_cache (Some m) r else r in
  Ok (mkPacket (pkt_id p) WriteResp (Z.lor VALID_ADDR VALID_SIZE) (addr p) false (psize p) 0 0 0 [] r, 30, S n).
Example pulled_line_skipped :
  match atomic_run ex_home WriteReq 0x1000 192 (ex_atomic_port true) with
  | Ok (ks, d, dc, _) => map chunk_of ks = [(0x1000, 64); (0x1040, 64)] /\ raised d = [] /\ transmitList d = [] /\
      (numBytes <$> states d !! 0%nat) = Some 128 /\ need_data dc = false
  | Err _ => False
  end.
Proof. vm_compute. auto. Qed.

(** A transfer of no bytes: in atomic mode its event is never scheduled and its state is
    never deleted; in timing mode an empty packet is sent and its response completes it. *)
Example empty_transfer :
  match atomic_run ex_memory_atomic ReadReq 0x1000 0 (ex_atomic_port false) with
  | Ok (ks, d, _, _) => ks = [] /\ raised d = [] /\ is_Some (states d !! 0%nat)
  | Err _ => False
  end /\
  raised (port (dma_after (dma_after ex_dma (Start ReadReq 0x1000 0 (Some 7) 5 0 Taken)) (Respond 0 ex_response))) = [(7, 5)].
Proof. vm_compute. split; [split_and!; [done | done | by eexists] | done]. Qed.

(** Two transfers: the port is aborted when the first has its only packet in flight and
    the second, of three lines, its first.  When the packet of the second returns before
    that of the first, nothing is in flight any more, no response can come, and the state
    of the aborted transfer is never deleted. *)
Definition ex_two : dma_sys :=
  dma_after (dma_after ex_dma (Start ReadReq 0x2000 64 (Some 9) 0 0 Taken)) (Start ReadReq 0x1000 192 (Some 7) 0 0 Taken).
Example aborted_state_leaks :
  match (let! d := abortPending 50 (port ex_two) in
         let! d := handleResp 2 64 0 60 d in handleResp 0 64 0 70 d) with
  | Ok d => map fst (flying ex_two) = [0%nat; 2%nat] /\ pendingCount d = 0 /\ raised d = [(9, 70)] /\ transmitList d = [] /\
      (aborted <$> states d !! 2%nat) = Some true
  | Err _ => False
  end.
Proof. vm_compute. split_and!; done. Qed.

(** A response inside the send, with another transfer in flight: the count holds, but the
    response of the only packet of the second transfer deletes its state, which is used
    again afterwards. *)
Definition ex_one : dma_sys := dma_after ex_dma (Start ReadReq 0x2000 64 (Some 9) 0 0 Taken).
Example immediate_last_response :
  dma_step (fun _ => true) ex_one (Start ReadReq 0x1000 64 (Some 7) 0 0 (Answered ex_response)) = Err Undefined /\
  match dma_step (fun _ => true) ex_one (Start ReadReq 0x1000 128 (Some 7) 0 0 (Answered ex_response)) with
  | Ok x => pendingCount (port x) = 1 /\ (numBytes <$> states (port x) !! 2%nat) = Some 64 /\ is_Some (sendEvent (port x))
  | Err _ => False
  end.
Proof. vm_compute. split_and!; [done | done | done | by eexists]. Qed.

(** A port whose first packet is refused has nothing in flight, and reports that it is
    drained. *)
Example drained_with_transfer :
  match dma_step (fun _ => true) ex_dma (Start ReadReq 0x1000 64 (Some 7) 0 0 Refused) with
  | Ok x => transmitList (port x) = [0%nat] /\ retryPending (port x) = true /\ (dma_drain (port x)).2 = true
  | Err _ => False
  end.
Proof. vm_compute. auto. Qed.
