(* ===== verification/CxlProcessor.v ===== *)
(** The processor of the CXL device: [src/gem5/src/dev/cxl/TestDev/CXLProcessor.cc] and
    [CXLProcessor.hh].

    Its port, [CXLProcPort], is a copy of the DMA port: the members of the port and of the
    states of its transfers are those of [DmaPort], without CXL flag and completion event,
    and its packets are marked as the processor's.  In atomic mode it does what the DMA
    port does.  In timing mode its handlers of retries and responses are empty. *)
From Stdlib Require Import ZArith Lia.
From stdpp Require Import base numbers list gmap.
From S2P Require Import Prelude IntMath ChunkGen CxlPacket MemPacket Clocked HomeAgent DCOH DmaPort.

Open Scope Z_scope.

(** [CXLProcPort] has the members of [DmaPort]; [dev_is_cxl] stays false. *)
Definition CXLProcPort : Type := DmaPort.
Definition new_CXLProcPort (line : Z) (clk : Clocked) : CXLProcPort := new_DmaPort line clk false.

(** [CXLProcReqState(...)], with no events and the delay 100 of [execCXLProc]. *)
Definition new_CXLProcReqState (c : Command) (a chunk_sz tb : Z) : outcome DmaReqState :=
  new_DmaReqState c a chunk_sz tb 0 None 100 false None.

(** [PacketPtr createPacket()]. *)
Definition as_processor (p : Packet) : Packet :=
  upd_req (fun r => set_cxl_packet_type CXLProcReq (set_from_cxl_proc true r)) p.
Definition mark (k : DmaPkt) : DmaPkt := mkDmaPkt (senderState k) (as_processor (dk_pkt k)) (dk_offset k).
Definition proc_createPacket (i : nat) (st : DmaReqState) (d : CXLProcPort) : DmaPkt * CXLProcPort :=
  let (k, d) := createPacket i st d in (mark k, d).

(** Only reads and writes are sent. *)
Definition known_cmd (p : Packet) : outcome unit :=
  match cmd p with WriteReq | ReadReq => Ok tt | _ => Err Fatal end.

(** [void handleResp(...)] and [void handleRespPacket(...)]: the code of the DMA port. *)
Definition proc_handleResp (i : nat) (size delay cur : Z) (d : CXLProcPort) : outcome CXLProcPort := handleResp i size delay cur d.
Definition proc_handleRespPacket (i : nat) (pkt : Packet) (size delay cur : Z) (d : CXLProcPort) : outcome CXLProcPort :=
  do! assert_ (isResponse (cmd pkt)) then
  let! _ := getAddr pkt in
  proc_handleResp i size delay cur d.

(** The transfer that [execCXLProc] appends. *)
Definition add_access (c : Command) (a size : Z) (d : CXLProcPort) : outcome CXLProcPort :=
  let! st := new_CXLProcReqState c a (cacheLineSize d) size in
  let i := fresh d in
  Ok (set_transmitList (transmitList d ++ [i]) (put_state i st (set_fresh (S i) d))).

(** [DrainState drain()]. *)
Definition proc_drain (d : CXLProcPort) : CXLProcPort * bool :=
  if pendingCount d =? 0 then (d, true) else (set_dma_draining true d, false).

(** * Atomic mode *)

Section atomic.
Context {W : Type}.
Variable sendAtomic : Packet -> W -> outcome (Packet * Z * W).

(** [bool sendReq(CXLProcReqState *state)], with the packet sent. *)
Definition sendReq (i : nat) (cur : Z) (d : CXLProcPort) (w : W) : outcome (bool * DmaPkt * CXLProcPort * W) :=
  let! st := state_of i d in
  let (k, d) := proc_createPacket i st d in
  let d := set_pendingCount (u32 (pendingCount d + 1)) d in
  let! _ := known_cmd (dk_pkt k) in
  let! (pkt, lat, w) := sendAtomic (dk_pkt k) w in
  let (g, more) := next (gen st) in
  let d := put_state i (set_gen g st) d in
  let! d := proc_handleRespPacket i pkt (psize (dk_pkt k)) lat cur d in
  Ok (negb more, k, d, w).

(** The loop over one access; the fuel bounds the number of packets. *)
Fixpoint send_reqs (fuel : nat) (i : nat) (cur : Z) (d : CXLProcPort) (w : W) : outcome (list DmaPkt * CXLProcPort * W) :=
  match fuel with
  | O => Err Undefined
  | S fuel =>
      let! (done, k, d, w) := sendReq i cur d w in
      if (done : bool) then Ok ([k], d, w)
      else let! (ks, d, w) := send_reqs fuel i cur d w in Ok (k :: ks, d, w)
  end.

(** The loop of [sendPacket] over the accesses. *)
Fixpoint send_accesses (ts : list nat) (cur : Z) (d : CXLProcPort) (w : W) : outcome (list DmaPkt * CXLProcPort * W) :=
  match ts with
  | [] => Ok ([], d, w)
  | i :: ts =>
      let d := set_transmitList ts d in
      let! st := state_of i d in
      let! (ks, d, w) :=
        (if done (gen st) then Ok ([], d, w) else send_reqs (S (Z.to_nat (totBytes st))) i cur d w) in
      let! (ks', d, w) := send_accesses ts cur d w in Ok (ks ++ ks', d, w)
  end.

(** [void sendPacket()] in atomic mode. *)
Definition sendPacket_atomic (cur : Z) (d : CXLProcPort) (w : W) : outcome (list DmaPkt * CXLProcPort * W) :=
  do! assert_ (bool_decide (transmitList d <> [])) then send_accesses (transmitList d) cur d w.

(** [void execCXLProc(...)] in atomic mode, [CXLWrite], [CXLRead] and [CXLProcRUN]. *)
Definition execCXLProc (c : Command) (a size cur : Z) (d : CXLProcPort) (w : W) : outcome (list DmaPkt * CXLProcPort * W) :=
  let! d := add_access c a size d in sendPacket_atomic cur d w.
Definition CXLWrite (a size cur : Z) (d : CXLProcPort) (w : W) := execCXLProc WriteReq a size cur d w.
Definition CXLRead (a size cur : Z) (d : CXLProcPort) (w : W) := execCXLProc ReadReq a size cur d w.
Definition CXLProcRUN (cur : Z) (d : CXLProcPort) (w : W) := CXLWrite 0xA0000000 4 cur d w.
End atomic.

(** * Timing mode *)

(** [void trySendTimingReq()]: [ok] is the answer of [sendTimingReq]; with the packet. *)
Definition proc_trySendTimingReq (cur : Z) (ok : bool) (d : CXLProcPort) : outcome (DmaPkt * CXLProcPort) :=
  match transmitList d with
  | [] => Err Undefined
  | i :: rest =>
      let! st := state_of i d in
      let (pkt, d) := match inRetry d with Some p => (p, d) | None => proc_createPacket i st d end in
      let! _ := known_cmd (dk_pkt pkt) in
      let last := ChunkGen.last (gen st) in
      let d := if ok then set_retry None (retryPending d) (set_pendingCount (u32 (pendingCount d + 1)) d)
               else set_retry (Some pkt) true d in
      if negb (retryPending d) then
        let d := put_state i (set_gen (next (gen st)).1 st) d in
        let d := if last then set_transmitList rest d else d in
        if bool_decide (transmitList d <> []) then
          let! (t, clk) := clockEdge cur 1 (dma_clock d) in
          let! ev := schedule cur (sendEvent d) t in
          Ok (pkt, set_sendEvent ev (set_dma_clock clk d))
        else Ok (pkt, d)
      else Ok (pkt, d)
  end.

(** [void sendPacket()] in timing mode, with the packet if one is tried. *)
Definition sendPacket_timing (cur : Z) (ok : bool) (d : CXLProcPort) : outcome (option DmaPkt * CXLProcPort) :=
  do! assert_ (bool_decide (transmitList d <> [])) then
  if retryPending d || bool_decide (is_Some (sendEvent d)) then Ok (None, d)
  else let! (pkt, d) := proc_trySendTimingReq cur ok d in Ok (Some pkt, d).

(** [void execCXLProc(...)] in timing mode. *)
Definition execCXLProc_timing (c : Command) (a size cur : Z) (ok : bool) (d : CXLProcPort) : outcome (option DmaPkt * CXLProcPort) :=
  let! d := add_access c a size d in sendPacket_timing cur ok d.

(** [void recvReqRetry()] and [bool recvTimingResp(PacketPtr)]. *)
Definition proc_recvReqRetry (d : CXLProcPort) : CXLProcPort := d.
Definition proc_recvTimingResp (pkt : Packet) (d : CXLProcPort) : bool * CXLProcPort := (false, d).

(** * Histories in timing mode *)

(** A port in time, with the accesses started, the packets tried and those taken. *)
Record proc_sys : Type := mkProcSys {
  pport : CXLProcPort;
  p_now : Z;
  accesses : list nat;
  tries : list DmaPkt;
  taken : list DmaPkt;
}.

Inductive proc_op : Type :=
  | Access (c : Command) (a size : Z) (ok : bool)
  | ProcEvent (ok : bool)
  | ProcRetry
  | ProcRespond (resp : Packet)
  | ProcWait (t : Z).

Definition tried (x : proc_sys) (l : list nat) (t : Z) (ok : bool) (k : option DmaPkt) (d : CXLProcPort) : proc_sys :=
  mkProcSys d t l (tries x ++ option_list k) (if ok then taken x ++ option_list k else taken x).

Definition proc_step (x : proc_sys) (o : proc_op) : outcome proc_sys :=
  let d := pport x in
  match o with
  | Access c a size ok =>
      let! (k, d') := execCXLProc_timing c a size (p_now x) ok d in Ok (tried x (fresh d :: accesses x) (p_now x) ok k d')
  | ProcEvent ok =>
      match sendEvent d with
      | None => Err Undefined
      | Some t => let! (k, d) := sendPacket_timing t ok (set_sendEvent None d) in Ok (tried x (accesses x) t ok k d)
      end
  | ProcRetry => Ok (mkProcSys (proc_recvReqRetry d) (p_now x) (accesses x) (tries x) (taken x))
  | ProcRespond resp => Ok (mkProcSys (proc_recvTimingResp resp d).2 (p_now x) (accesses x) (tries x) (taken x))
  | ProcWait t => Ok (mkProcSys d t (accesses x) (tries x) (taken x))
  end.

Fixpoint proc_run (x : proc_sys) (ops : list proc_op) : outcome proc_sys :=
  match ops with [] => Ok x | o :: ops => let! x := proc_step x o in proc_run x ops end.

Definition proc_start (line : Z) (clk : Clocked) (t : Z) : proc_sys := mkProcSys (new_CXLProcPort line clk) t [] [] [].

(** What a call of the port in timing mode does to its books: a packet may be counted. *)
Record booked (d : CXLProcPort) (n : nat) (d' : CXLProcPort) : Prop := {
  bk_raised : raised d' = raised d;
  bk_pending : pendingCount d' = u32 (pendingCount d + Z.of_nat n) \/ n = 0%nat /\ pendingCount d' = pendingCount d;
  bk_states : forall i st, states d !! i = Some st -> exists st', states d' !! i = Some st' /\ (numBytes st = 0 -> numBytes st' = 0);
}.

Definition counted (ok : bool) (k : option DmaPkt) : nat := if ok then length (option_list k) else 0.

Lemma trySend_booked cur ok d k d' : proc_trySendTimingReq cur ok d = Ok (k, d') -> booked d (counted ok (Some k)) d'.
Proof.
  unfold proc_trySendTimingReq. destruct (transmitList d) as [| i rest]; [done |]. unfold state_of. destruct (states d !! i) as [st |] eqn:Est; [| done].
  cbn [obind]. set (p := match inRetry d with Some p => (p, d) | None => proc_createPacket i st d end). destruct p as [pkt d1] eqn:Ep.
  assert (F : states d1 = states d /\ raised d1 = raised d /\ pendingCount d1 = pendingCount d).
  { subst p. destruct (inRetry d); [by injection Ep as _ <- | injection Ep as _ <-; done]. }
  destruct F as (F1 & F2 & F3). destruct (known_cmd (dk_pkt pkt)); [| done]. cbn [obind].
  set (d2 := if ok then _ else _). assert (G : states d2 = states d /\ raised d2 = raised d /\ pendingCount d2 = if ok then u32 (pendingCount d + 1) else pendingCount d).
  { subst d2. destruct ok; cbn; by rewrite ?F1, ?F2, ?F3. }
  destruct G as (G1 & G2 & G3). destruct (negb (retryPending d2)).
  - set (d3 := put_state i _ d2). set (d4 := if ChunkGen.last (gen st) then _ else d3).
    assert (H : states d4 = states d3 /\ raised d4 = raised d2 /\ pendingCount d4 = pendingCount d2) by (subst d4; by destruct (ChunkGen.last (gen st))).
    destruct H as (H1 & H2 & H3). assert (Hb : booked d (counted ok (Some pkt)) d4).
    { split; [by rewrite H2 | rewrite H3, G3; destruct ok; [by left | by right] |]. rewrite H1. cbn. rewrite G1. intros j s Hs.
      destruct (decide (i = j)) as [<- | Hne]; [| rewrite lookup_insert_ne by done; by exists s]. rewrite Est in Hs. injection Hs as <-.
      rewrite lookup_insert_eq. by eexists. }
    case_bool_decide.
    + destruct (clockEdge cur 1 (dma_clock d4)) as [[t clk] |]; [| done]. cbn [obind]. destruct (schedule cur (sendEvent d4) t); [| done]. cbn [obind].
      intros [= <- <-]. destruct Hb as [B1 B2 B3]. by split.
    + by intros [= <- <-].
  - intros [= <- <-]. split; [done | rewrite G3; destruct ok; [by left | by right] | rewrite G1; intros j s Hs; by exists s].
Qed.

Lemma sendPacket_booked cur ok d k d' : sendPacket_timing cur ok d = Ok (k, d') -> booked d (counted ok k) d'.
Proof.
  unfold sendPacket_timing. destruct (bool_decide (transmitList d <> [])); [| done]. cbn [assert_ obind]. destruct (retryPending d || _).
  - intros [= <- <-]. split; [done | right; by destruct ok | intros i s Hs; by exists s].
  - destruct (proc_trySendTimingReq cur ok d) as [[pkt d1] |] eqn:E; [| done]. cbn [obind]. intros [= <- <-]. by apply trySend_booked with cur.
Qed.

(** In timing mode no access comes to its end. *)
Record waiting (x : proc_sys) : Prop := {
  wt_raised : raised (pport x) = [];
  wt_pending : pendingCount (pport x) = u32 (Z.of_nat (length (taken x)));
  wt_states : forall i, i ∈ accesses x -> exists st, states (pport x) !! i = Some st /\ numBytes st = 0;
}.

Lemma booked_waiting x l t ok k d d' : waiting (mkProcSys d t l (tries x) (taken x)) -> booked d (counted ok k) d' -> waiting (tried x l t ok k d').
Proof.
  intros [W1 W2 W3] [B1 B2 B3]. cbn in W1, W2, W3. split; cbn.
  - by rewrite B1.
  - assert (El : length (if ok then taken x ++ option_list k else taken x) = (length (taken x) + counted ok k)%nat).
    { destruct ok; cbn; [by rewrite length_app | lia]. }
    rewrite El, Nat2Z.inj_add. destruct B2 as [-> | [-> ->]]; rewrite W2; [unfold wrap; by rewrite Zplus_mod_idemp_l | by rewrite Z.add_0_r].
  - intros i Hi. destruct (W3 i Hi) as (st & Hs & H0). destruct (B3 i st Hs) as (st' & Hs' & Hn). exists st'. split; [done | by apply Hn].
Qed.

Lemma add_access_waiting x c a size d : waiting x -> add_access c a size (pport x) = Ok d ->
  waiting (mkProcSys d (p_now x) (fresh (pport x) :: accesses x) (tries x) (taken x)).
Proof.
  intros [W1 W2 W3]. unfold add_access, new_CXLProcReqState, new_DmaReqState. destruct (new_ChunkGenerator _ _ _) as [g |]; [| done]. cbn [obind].
  intros [= <-]. split; cbn; [done | done |]. intros i Hi. destruct (decide (fresh (pport x) = i)) as [<- | Hne].
  - rewrite lookup_insert_eq. by eexists.
  - rewrite lookup_insert_ne by done. apply elem_of_cons in Hi as [-> | Hi]; [done | by apply W3].
Qed.

Lemma proc_step_waiting x o x' : waiting x -> proc_step x o = Ok x' -> waiting x'.
Proof.
  intros Hw. destruct o as [c a size ok | ok | | resp | t]; cbn [proc_step].
  - unfold execCXLProc_timing. destruct (add_access c a size (pport x)) as [d |] eqn:Ea; [| done]. cbn [obind].
    destruct (sendPacket_timing (p_now x) ok d) as [[k d'] |] eqn:Es; [| done]. cbn [obind]. intros [= <-].
    apply (booked_waiting x _ _ ok k d); [by apply (add_access_waiting x c a size) | by apply sendPacket_booked with (p_now x)].
  - destruct (sendEvent (pport x)) as [t |]; [| done]. destruct (sendPacket_timing _ _ _) as [[k d'] |] eqn:Es; [| done]. cbn [obind]. intros [= <-].
    apply (booked_waiting x _ _ ok k (set_sendEvent None (pport x))); [by destruct Hw | by apply sendPacket_booked with t].
  - intros [= <-]. by destruct Hw.
  - intros [= <-]. by destruct Hw.
  - intros [= <-]. by destruct Hw.
Qed.

(** A port that waits for a retry tries nothing. *)
Lemma proc_step_refused x o x' : retryPending (pport x) = true -> proc_step x o = Ok x' ->
  tries x' = tries x /\ taken x' = taken x /\ retryPending (pport x') = true /\ inRetry (pport x') = inRetry (pport x).
Proof.
  intros Hr. assert (Hs : forall cur ok d k d', retryPending d = true -> sendPacket_timing cur ok d = Ok (k, d') -> k = None /\ d' = d).
  { intros cur ok d k d' E. unfold sendPacket_timing. destruct (bool_decide _); [| done]. cbn [assert_ obind]. rewrite E. cbn [orb]. by intros [= <- <-]. }
  destruct o as [c a size ok | ok | | resp | t]; cbn [proc_step].
  - unfold execCXLProc_timing. destruct (add_access c a size (pport x)) as [d |] eqn:Ea; [| done]. cbn [obind].
    unfold add_access in Ea. destruct (new_CXLProcReqState _ _ _ _); [| done]. injection Ea as Ea.
    destruct (sendPacket_timing (p_now x) ok d) as [[k d'] |] eqn:Es; [| done]. cbn [obind]. intros [= <-].
    apply Hs in Es as [-> ->]; [| by rewrite <- Ea]. cbn. rewrite <- Ea. destruct ok; by rewrite ?app_nil_r.
  - destruct (sendEvent (pport x)) as [t |]; [| done]. destruct (sendPacket_timing _ _ _) as [[k d'] |] eqn:Es; [| done]. cbn [obind]. intros [= <-].
    apply Hs in Es as [-> ->]; [| done]. cbn. destruct ok; by rewrite ?app_nil_r.
  - by intros [= <-].
  - by intros [= <-].
  - by intros [= <-].
Qed.

Lemma proc_run_app x ops ops' : proc_run x (ops ++ ops') = let! x := proc_run x ops in proc_run x ops'.
Proof. revert x. induction ops as [| o ops IH]; intros x; [done |]. cbn. destruct (proc_step x o); [apply IH | done]. Qed.

Lemma proc_run_waiting x ops x' : waiting x -> proc_run x ops = Ok x' -> waiting x'.
Proof.
  revert x. induction ops as [| o ops IH]; intros x Hw; cbn; [by intros [= <-] |]. destruct (proc_step x o) as [x1 |] eqn:E; [| done].
  apply IH. by apply (proc_step_waiting x o).
Qed.

Lemma proc_run_refused x ops x' : retryPending (pport x) = true -> proc_run x ops = Ok x' ->
  tries x' = tries x /\ taken x' = taken x /\ retryPending (pport x') = true /\ inRetry (pport x') = inRetry (pport x).
Proof.
  revert x. induction ops as [| o ops IH]; intros x Hr; cbn; [by intros [= <-] |]. destruct (proc_step x o) as [x1 |] eqn:E; [| done]. cbn [obind].
  intros Hrun. destruct (proc_step_refused x o x1 Hr E) as (E1 & E2 & E3 & E4). rewrite <- E1, <- E2, <- E4. by apply IH.
Qed.

(** C23: in timing mode the processor of the device never ends an access: over all histories
    of accesses, events, retries and responses that run without a failure no byte is
    counted, no completion or abort event is scheduled and no state is deleted, the
    packets taken stay pending and keep the port from draining; and after a packet is
    refused nothing is sent any more, whatever retries and responses arrive. *)
Theorem processor_never_ends line clk t before x after x' : proc_run (proc_start line clk t) before = Ok x -> proc_run x after = Ok x' ->
  raised (pport x') = [] /\ pendingCount (pport x') = u32 (Z.of_nat (length (taken x'))) /\
  (forall i, i ∈ accesses x' -> exists st, states (pport x') !! i = Some st /\ numBytes st = 0) /\
  ((0 < length (taken x'))%nat -> Z.of_nat (length (taken x')) < 2 ^ 32 -> (proc_drain (pport x')).2 = false) /\
  (retryPending (pport x) = true -> tries x' = tries x /\ inRetry (pport x') = inRetry (pport x)).
Proof.
  intros H1 H2. assert (Hw : waiting (proc_start line clk t)) by (split; [done | done | intros i Hi; by apply not_elem_of_nil in Hi]).
  destruct (proc_run_waiting x after x' (proc_run_waiting _ _ _ Hw H1) H2) as [W1 W2 W3]. split_and!; [done | done | done | |].
  - intros Hn Hmax. unfold proc_drain. rewrite W2, wrap_small by (unfold in_width; lia). by destruct (Z.eqb_spec (Z.of_nat (length (taken x'))) 0); [lia |].
  - intros Hr. by destruct (proc_run_refused x after x' Hr H2) as (? & _ & _ & ?).
Qed.

(** * Accesses in atomic mode *)

Section access.
Context {W : Type}.
Variable sendAtomic : Packet -> W -> outcome (Packet * Z * W).

(** What the memory is to a DMA port of the same shape: it sees marked packets, and its
    answers carry no message for the device. *)
Definition marked (p : Packet) (w : W) : outcome (Packet * Z * W) :=
  let! (p, lat, w) := sendAtomic (as_processor p) w in Ok (upd_req (set_cxl_cache None) p, lat, w).

(** An access of the processor: a plain state with its command. *)
Definition plain_state (c : Command) (st : DmaReqState) : Prop := ds_cmd st = c /\ is_cxl st = false.
Definition plain_at (c : Command) (i : nat) (d : DmaPort) : Prop := forall st, states d !! i = Some st -> plain_state c st.

Lemma handleResp_plain c i j size delay cur d d' : plain_at c j d -> handleResp i size delay cur d = Ok d' -> plain_at c j d'.
Proof.
  intros Hp. unfold handleResp, state_of. destruct (negb _); [| done]. cbn [assert_ obind states set_pendingCount].
  destruct (states d !! i) as [st |] eqn:Est; [| done]. cbn [obind]. set (st1 := set_numBytes _ st). set (d1 := put_state i st1 _).
  destruct (numBytes st1 <=? totBytes st1); [| done]. cbn [assert_ obind]. set (d2 := if aborted st1 then _ else _). intros [= <-].
  assert (H1 : plain_at c j d1).
  { intros s. cbn. destruct (decide (i = j)) as [<- | Hne]; [rewrite lookup_insert_eq; intros [= <-]; by apply (Hp st) | by rewrite lookup_insert_ne; [apply Hp |]]. }
  assert (H2 : plain_at c j d2).
  { assert (Hd : forall ev t, plain_at c j (delete_state i (raise ev t d1))).
    { intros ev t s. unfold delete_state. cbn. replace (states (raise ev t d1)) with (states d1) by (by destruct ev). intros [_ Hs]%lookup_delete_Some. by apply H1. }
    subst d2. destruct (aborted st1), (totBytes st1 =? numBytes st1); cbn [orb]; try apply Hd; [by destruct (pendingCount d1 =? 0) | done]. }
  by destruct (pendingCount d2 =? 0).
Qed.

Lemma sendReq_dma c i cur d dc w done k d' dc' w' : need_data dc = false -> c = ReadReq \/ c = WriteReq -> plain_at c i d ->
  sendAtomicReq marked i cur d dc w = Ok (done, k, d', dc', w') ->
  dc' = dc /\ sendReq sendAtomic i cur d w = Ok (done, mark k, d', w') /\ cmd (dk_pkt k) = c /\ plain_at c i d'.
Proof.
  intros Hdc Hc Hp. unfold sendAtomicReq, sendReq. destruct (state_of i d) as [st |] eqn:Est; [| done]. cbn [obind].
  assert (Hst : plain_state c st) by (apply Hp; unfold state_of in Est; destruct (states d !! i); by simplify_eq). destruct Hst as [Hcmd Hcxl].
  unfold proc_createPacket, createPacket. set (pkt0 := mkPacket _ _ _ _ _ _ _ _ _ _ _). cbn [dk_pkt dk_offset mark psize]. unfold as_cxl. rewrite Hcxl. cbn [obind].
  unfold marked at 1. unfold known_cmd. assert (Hc0 : cmd (as_processor pkt0) = c) by exact Hcmd. rewrite Hc0.
  assert (Hk : match c with WriteReq | ReadReq => Ok tt | _ => Err Fatal end = Ok tt) by (by destruct Hc as [-> | ->]). rewrite Hk. cbn [obind].
  destruct (sendAtomic (as_processor pkt0) w) as [[[pkt lat] w1] |]; [| done]. cbn [obind]. destruct (next (gen st)) as [g more].
  rewrite Hdc, andb_false_r. cbn [upd_req req set_req cxl_cache set_cxl_cache]. rewrite bool_decide_eq_false_2 by (by intros [? ?]). cbn [andb obind].
  unfold proc_handleRespPacket, handleRespPacket, getAddr. change (psize (as_processor pkt0)) with (psize pkt0). cbn [dk_pkt].
  change (flag_isSet VALID_ADDR (upd_req ?f pkt)) with (flag_isSet VALID_ADDR pkt). change (cmd (upd_req ?f pkt)) with (cmd pkt). change (addr (upd_req ?f pkt)) with (addr pkt).
  destruct (isResponse (cmd pkt)); [| done]. cbn [assert_ obind].
  destruct (flag_isSet VALID_ADDR pkt); [| done]. cbn [assert_ obind]. unfold proc_handleResp.
  destruct (handleResp i _ lat cur _) as [d1 |] eqn:Eh; [| done]. cbn [obind]. intros [= <- <- <- <- <-]. split_and!; try done.
  eapply handleResp_plain; [| exact Eh]. intros s. cbn. rewrite lookup_insert_eq. by intros [= <-].
Qed.

Lemma send_reqs_dma c fuel i cur dc : need_data dc = false -> c = ReadReq \/ c = WriteReq -> forall d w ks d' dc' w', plain_at c i d ->
  send_all marked fuel i cur d dc w = Ok (ks, d', dc', w') ->
  dc' = dc /\ send_reqs sendAtomic fuel i cur d w = Ok (map mark ks, d', w') /\ Forall (fun k => cmd (dk_pkt k) = c) ks.
Proof.
  intros Hdc Hc. induction fuel as [| fuel IH]; intros d w ks d' dc' w' Hp; [done |]. cbn [send_all send_reqs].
  destruct (sendAtomicReq marked i cur d dc w) as [[[[[fin k] d1] dc1] w1] |] eqn:E; [| done]. cbn [obind].
  destruct (sendReq_dma c i cur d dc w fin k d1 dc1 w1 Hdc Hc Hp E) as (-> & -> & Hk & Hp1). cbn [obind]. destruct fin.
  - intros [= <- <- <- <-]. split_and!; [done | done | by repeat constructor].
  - destruct (send_all marked fuel i cur d1 dc w1) as [[[[ks1 d2] dc2] w2] |] eqn:E2; [| done]. cbn [obind]. intros [= <- <- <- <-].
    destruct (IH d1 w1 ks1 d2 dc2 w2 Hp1 E2) as (-> & -> & Hks). cbn [obind]. split_and!; [done | done | by constructor].
Qed.

(** A memory that answers every packet of the processor. *)
Definition serves : Prop := forall p w, exists p' lat w', sendAtomic (as_processor p) w = Ok (p', lat, w') /\
  isResponse (cmd p') = true /\ flag_isSet VALID_ADDR p' = true.
Hypothesis Hserves : serves.

Lemma marked_answers p w : cxl_cache (req p) = None -> exists p' lat w', marked p w = Ok (p', lat, w') /\
  isResponse (cmd p') = true /\ flag_isSet VALID_ADDR p' = true /\ cxl_cache (req p') = None.
Proof.
  intros _. destruct (Hserves p w) as (p' & lat & w' & E & Hr & Hv). exists (upd_req (set_cxl_cache None) p'), lat, w'. unfold marked.
  rewrite E. by split_and!.
Qed.
End access.

(** In atomic mode a read or write of the processor is done at once: reads and writes
    marked as the processor's tile its region by chunks within cache lines, nothing stays
    pending and no state is left. *)
Theorem processor_access {W} (sendAtomic : Packet -> W -> outcome (Packet * Z * W)) c a size cur d w : serves sendAtomic ->
  c = ReadReq \/ c = WriteReq -> dev_is_cxl d = false -> transmitList d = [] -> pendingCount d = 0 -> states d !! fresh d = None ->
  isPowerOf2 (cacheLineSize d) = true -> 0 < cacheLineSize d -> 0 <= a -> 0 < size -> a + size < 2 ^ 64 -> a + cacheLineSize d < 2 ^ 64 ->
  exists ks d' w', execCXLProc sendAtomic c a size cur d w = Ok (ks, d', w') /\
    tiles a (a + size) (map chunk_of ks) /\ Forall (in_block (cacheLineSize d)) (map chunk_of ks) /\
    Forall (fun k => cmd (dk_pkt k) = c /\ cxl_packet_type (req (dk_pkt k)) = CXLProcReq /\ from_cxl_proc (req (dk_pkt k)) = true) ks /\
    transmitList d' = [] /\ pendingCount d' = 0 /\ states d' = states d /\ raised d' = raised d.
Proof.
  intros Hs Hc Hcxl Hl Hp Hno Hpow Hline Ha Hn He Hb.
  destruct (atomic_transfer (marked sendAtomic) (marked_answers sendAtomic Hs) c a size None 100 0 cur d new_DCOH w) as (d1 & ks & d' & w' & lat & E1 & E2 & Ht & Hblk & El & Ep & Est & Er);
    try done.
  cbn in Er. rewrite app_nil_r in Er. assert (Eadd : add_access c a size d = Ok d1) by (unfold add_access, new_CXLProcReqState; unfold add_transfer in E1; by rewrite Hcxl in E1).
  exists (map mark ks), d', w'. unfold execCXLProc. rewrite Eadd. cbn [obind].
  assert (Ed1 : transmitList d1 = [fresh d] /\ plain_at c (fresh d) d1).
  { unfold add_transfer, new_DmaReqState in E1. destruct (new_ChunkGenerator a size (cacheLineSize d)); [| done]. injection E1 as <-. cbn.
    split; [by rewrite Hl |]. intros st. cbn. rewrite lookup_insert_eq. by intros [= <-]. }
  destruct Ed1 as [El1 Hpl]. unfold sendDma_atomic in E2. unfold sendPacket_atomic. rewrite El1 in E2 |- *. rewrite bool_decide_eq_true_2 in E2 |- * by done.
  cbn [assert_ obind send_transfers send_accesses] in E2 |- *. change (state_of (fresh d) (set_transmitList [] d1)) with (state_of (fresh d) d1) in E2 |- *.
  destruct (state_of (fresh d) d1) as [st |]; [| done]. cbn [obind] in E2 |- *. destruct (done (gen st)).
  { cbn [obind] in E2 |- *. injection E2 as <- <- <-. by split_and!. }
  destruct (send_all (marked sendAtomic) _ _ _ _ _ _) as [[[[ks1 d2] dc2] w2] |] eqn:Eall; [| done]. cbn [obind] in E2. rewrite app_nil_r in E2. injection E2 as -> -> -> ->.
  destruct (send_reqs_dma sendAtomic c _ (fresh d) cur new_DCOH eq_refl Hc (set_transmitList [] d1) _ _ _ _ _ Hpl Eall) as (_ & -> & Hks). cbn [obind]. rewrite app_nil_r.
  assert (Em : map chunk_of (map mark ks) = map chunk_of ks) by (rewrite map_map; by apply map_ext). rewrite Em. split_and!; try done.
  apply Forall_map. eapply Forall_impl; [exact Hks |]. intros k Hk. by split_and!.
Qed.

(** * Examples *)

Definition ex_proc : CXLProcPort := new_CXLProcPort 64 ex_clock.

Lemma processor_access_witness : exists ks d' w', execCXLProc ex_memory_atomic WriteReq 0x1020 90 100 ex_proc 0%nat = Ok (ks, d', w') /\
  map chunk_of ks = [(0x1020, 32); (0x1040, 58)] /\ states d' = ∅ /\ raised d' = [].
Proof.
  destruct (processor_access ex_memory_atomic WriteReq 0x1020 90 100 ex_proc 0%nat) as (ks & d' & w' & E & _ & _ & _ & _ & _ & Hs & Hr);
    [intros p w; eexists _, 30, (S w); split; [reflexivity | by split_and!] | by right | reflexivity | reflexivity | reflexivity | reflexivity
    | reflexivity | cbn; lia | lia | lia | lia | cbn; lia |].
  exists ks, d', w'. split; [exact E |]. split; [| split; [exact Hs | exact Hr]]. vm_compute in E. injection E as <- _ _. vm_compute. reflexivity.
Defined.

(** The first access is taken and its response refused; the second is refused, its retry is
    ignored, and a third waits behind it. *)
Definition ex_history : list proc_op := [Access ReadReq 0x1000 64 true; ProcRespond ex_response; Access WriteReq 0x2000 64 false].
Definition ex_rest : list proc_op := [ProcRetry; Access ReadReq 0x3000 64 true; ProcWait 1000; ProcRetry].
Definition proc_after (x : proc_sys) (ops : list proc_op) : proc_sys := match proc_run x ops with Ok x => x | Err _ => x end.
Definition ex_refused_proc : proc_sys := proc_after (proc_start 64 ex_clock 0) ex_history.
Definition ex_waiting_proc : proc_sys := proc_after ex_refused_proc ex_rest.

Lemma processor_never_ends_witness :
  map chunk_of (tries ex_refused_proc) = [(0x1000, 64); (0x2000, 64)] /\ tries ex_waiting_proc = tries ex_refused_proc /\
  (proc_drain (pport ex_waiting_proc)).2 = false /\ length (transmitList (pport ex_waiting_proc)) = 2%nat.
Proof.
  destruct (processor_never_ends 64 ex_clock 0 ex_history ex_refused_proc ex_rest ex_waiting_proc) as (_ & _ & _ & H1 & H2);
    [vm_compute; reflexivity | vm_compute; reflexivity |].
  split; [vm_compute; reflexivity |]. split; [apply H2; vm_compute; reflexivity |]. split; [apply H1; vm_compute; [lia | reflexivity] | vm_compute; reflexivity].
Defined.

(** Any other command ends the simulation. *)
Example other_command : proc_run (proc_start 64 ex_clock 0) [Access ReadExReq 0x1000 64 true] = Err Fatal.
Proof. vm_compute. reflexivity. Qed.
