(* ===== verification/PciDevice.v ===== *)
(** PCI devices: configuration space, base address registers and the ranges that a device
    answers, classes [PciDevice] and [PciBar] of [src/gem5/src/dev/pci/device.cc] and
    [device.hh], which the CXL device inherits.

    Configuration space is a union of 4096 bytes and named registers and is kept as its
    bytes; the base address registers are objects of five classes, numbered by their place
    in the device. *)
From Stdlib Require Import ZArith Lia.
From stdpp Require Import base numbers list.
From S2P Require Import Prelude BitField IntMath AddrRange MemPacket BridgeConfig.

Open Scope Z_scope.

(** * Where the host puts the address spaces of PCI *)

Record PciSpaces : Type := mkSpaces { pciPioBase : Z; pciMemBase : Z; pciDmaBase : Z }.

Definition pioAddr (h : PciSpaces) (a : Z) : Z := u64 (pciPioBase h + a).
Definition memAddr (h : PciSpaces) (a : Z) : Z := u64 (pciMemBase h + a).
Definition dmaAddr (h : PciSpaces) (a : Z) : Z := u64 (pciDmaBase h + a).

(** * Base address registers *)

(** The subclasses of [PciBar] with the members of each; the upper half of a wide register
    has the number of the lower half. *)
Inductive bar_class : Type :=
  | PciBarNone
  | PciIoBar
  | PciLegacyIoBar (fixedAddr : Z)
  | PciMemBar (wide : bool) (lower upper : Z)
  | PciMemUpperBar (lower : option nat).

Record PciBar : Type := mkBar { bar_class_of : bar_class; bar_addr : Z; bar_size : Z }.

Definition set_class (c : bar_class) (b : PciBar) : PciBar := mkBar c (bar_addr b) (bar_size b).

Definition isMem (b : PciBar) : bool := match bar_class_of b with PciMemBar _ _ _ => true | _ => false end.
Definition isIo (b : PciBar) : bool := match bar_class_of b with PciIoBar | PciLegacyIoBar _ => true | _ => false end.
Definition bar_range (b : PciBar) : AddrRange := RangeEx (bar_addr b) (u64 (bar_addr b + bar_size b)).

(** The constructors; the size of a register that is not legacy is a power of two. *)
Definition new_PciIoBar (size : Z) : outcome PciBar :=
  do! fatal_if (negb (truthy size) || negb (isPowerOf2 size) || Z.testbit size 0 || Z.testbit size 1) then Ok (mkBar PciIoBar 0 size).
Definition new_PciLegacyIoBar (size addr : Z) : PciBar := mkBar (PciLegacyIoBar addr) 0 size.
Definition new_PciMemBar (size : Z) : outcome PciBar :=
  do! fatal_if (negb (truthy size) || negb (isPowerOf2 size) || Z.testbit size 0 || Z.testbit size 1 || Z.testbit size 2) then Ok (mkBar (PciMemBar false 0 0) 0 size).
Definition new_PciBarNone : PciBar := mkBar PciBarNone 0 0.
Definition new_PciMemUpperBar : PciBar := mkBar (PciMemUpperBar None) 0 0.

(** The union [Bar]: [val & ~(_size - 1)], and a field of it assigned. *)
Definition bar_masked (val size : Z) : Z := u32 (Z.land val (wnot 64 (u64 (size - 1)))).
Definition set_field (bar first last v : Z) : outcome Z := let! x := insertBits bar first last v in Ok (u32 x).
Definition get_field (bar first last : Z) : outcome Z := bits bar first last.

(** [uint32_t write(const PciHost::DeviceInterface &host, uint32_t val)] of a memory register,
    and [void upper(host, val)]. *)
Definition memBar_write (h : PciSpaces) (val : Z) (wide : bool) (upper : Z) (b : PciBar) : outcome (Z * PciBar) :=
  let bar := bar_masked val (bar_size b) in
  let! bar := set_field bar 2 2 (Z.b2z wide) in
  let! bar := set_field bar 1 1 0 in
  let! bar := set_field bar 0 0 0 in
  let! a := get_field bar 31 3 in
  let lower := u32 (Z.shiftl a 3) in
  Ok (bar, mkBar (PciMemBar wide lower upper) (memAddr h (u64 (upper + lower))) (bar_size b)).
Definition memBar_upper (h : PciSpaces) (val : Z) (wide : bool) (lower : Z) (b : PciBar) : PciBar :=
  let upper := u64 (Z.shiftl val 32) in mkBar (PciMemBar wide lower upper) (memAddr h (u64 (upper + lower))) (bar_size b).
Definition ioBar_write (h : PciSpaces) (val : Z) (b : PciBar) : outcome (Z * PciBar) :=
  let bar := bar_masked val (bar_size b) in
  let! bar := set_field bar 1 1 0 in
  let! bar := set_field bar 0 0 1 in
  let! a := get_field bar 31 2 in
  Ok (bar, mkBar PciIoBar (pioAddr h (u32 (Z.shiftl a 2))) (bar_size b)).

(** [bar->write(host, val)] for register [n]: what configuration space is set to. *)
Definition bar_write_at (h : PciSpaces) (n : nat) (val : Z) (bars : list PciBar) : outcome (Z * list PciBar) :=
  match bars !! n with
  | None => Err Undefined
  | Some b =>
      match bar_class_of b with
      | PciBarNone => Ok (0, bars)
      | PciIoBar => let! (r, b) := ioBar_write h val b in Ok (r, <[n := b]> bars)
      | PciLegacyIoBar fixedAddr => Ok (0, <[n := mkBar (PciLegacyIoBar fixedAddr) (pioAddr h fixedAddr) (bar_size b)]> bars)
      | PciMemBar wide _ upper => let! (r, b) := memBar_write h val wide upper b in Ok (r, <[n := b]> bars)
      | PciMemUpperBar None => Err AssertFail
      | PciMemUpperBar (Some k) =>
          match bars !! k with
          | None => Err Undefined
          | Some l =>
              match bar_class_of l with
              | PciMemBar wide lower _ =>
                  let upper := Z.land val (wnot 64 (Z.shiftr (u64 (bar_size l - 1)) 32)) in
                  Ok (u32 upper, <[k := memBar_upper h (u32 upper) wide lower l]> bars)
              | _ => Err Undefined
              end
          end
      end
  end.

(** The constructor of the device connects the halves of wide registers. *)
Definition link_bar (i : nat) (bars : list PciBar) : outcome (list PciBar) :=
  match bars !! i with
  | None => Err Undefined
  | Some b =>
      match bar_class_of b with
      | PciMemUpperBar _ =>
          match i with
          | O => Err Fatal
          | S k =>
              match bars !! k with
              | None => Err Undefined
              | Some l =>
                  match bar_class_of l with
                  | PciMemBar _ lower upper => Ok (<[k := set_class (PciMemBar true lower upper) l]> (<[i := set_class (PciMemUpperBar (Some k)) b]> bars))
                  | _ => Err Fatal
                  end
              end
          end
      | _ => Ok bars
      end
  end.
Fixpoint link_bars (ns : list nat) (bars : list PciBar) : outcome (list PciBar) :=
  match ns with [] => Ok bars | i :: ns => let! bars := link_bar i bars in link_bars ns bars end.

(** * Configuration space *)

Definition PCI0_BASE_ADDR0 : Z := 0x10.
Definition PCI0_ROM_BASE_ADDR : Z := 0x30.
Definition PCI0_INTERRUPT_LINE : Z := 0x3C.
Definition PCI0_INTERRUPT_PIN : Z := 0x3D.
Definition PCI0_MINIMUM_GRANT : Z := 0x3E.
Definition PCI0_MAXIMUM_LATENCY : Z := 0x3F.
Definition PCI_DEVICE_SPECIFIC : Z := 0x40.
Definition PCIE_EXTENDED_CONFIG_SIZE : Z := 0xFFF.

(** The members of the union [PCIConfig] that only a device has. *)
Definition baseAddr (n : nat) : reg := (16 + 4 * n, 4)%nat.
Definition cardbusCIS : reg := (40, 4)%nat.
Definition subsystemVendorID : reg := (44, 2)%nat.
Definition subsystemID : reg := (46, 2)%nat.
Definition expansionROM : reg := (48, 4)%nat.
Definition minimumGrant : reg := (62, 1)%nat.
Definition maximumLatency : reg := (63, 1)%nat.

Record PciBusAddr : Type := mkBusAddr { bus : Z; dev : Z; func : Z; root_port_number : Z }.

Record PciDevice : Type := mkPciDevice {
  _busAddr : PciBusAddr;
  config : list Z;
  BARs : list PciBar;
  pd_configDelay : Z;
  is_invisible : Z;
}.
Definition set_config (v : list Z) (d : PciDevice) : PciDevice := mkPciDevice (_busAddr d) v (BARs d) (pd_configDelay d) (is_invisible d).
Definition set_BARs (v : list PciBar) (d : PciDevice) : PciDevice := mkPciDevice (_busAddr d) (config d) v (pd_configDelay d) (is_invisible d).

(** The parameters of a device that its configuration space is filled with. *)
Record PciDeviceParams : Type := mkPciDeviceParams {
  p_busAddr : PciBusAddr;
  p_VendorID : Z; p_DeviceID : Z; p_Command : Z; p_Status : Z; p_Revision : Z; p_ProgIF : Z; p_SubClassCode : Z; p_ClassCode : Z;
  p_CacheLineSize : Z; p_LatencyTimer : Z; p_HeaderType : Z; p_BIST : Z; p_CardbusCIS : Z; p_SubsystemVendorID : Z; p_SubsystemID : Z;
  p_ExpansionROM : Z; p_CapabilityPtr : Z; p_InterruptLine : Z; p_InterruptPin : Z; p_MinimumGrant : Z; p_MaximumLatency : Z;
  p_BARs : list PciBar;
  p_PXCAPBaseOffset : Z;
  p_pxcap : list Z;
  p_config_latency : Z;
  p_is_invisible : Z;
}.

Definition put_all (rs : list (reg * Z)) (c : list Z) : list Z := fold_left (fun c r => put (fst r) (snd r) c) rs c.
(** The loop [config.baseAddr[idx++] = bar->write(hostInterface, 0)]. *)
Fixpoint write_bars (h : PciSpaces) (ns : list nat) (value : nat -> Z) (c : list Z) (bars : list PciBar) : outcome (list Z * list PciBar) :=
  match ns with
  | [] => Ok (c, bars)
  | n :: ns => let! (r, bars) := bar_write_at h n (value n) bars in write_bars h ns value (put (baseAddr n) r c) bars
  end.

(** [memcpy(config.data + PXCAP_BASE, (&pxcap), sizeof(PXCAP))], where the capability has a place. *)
Definition place_pxcap (base : Z) (pxcap c : list Z) : outcome (list Z) :=
  if truthy base then
    let o := Z.to_nat base in
    if bool_decide (o + length pxcap <= length c)%nat then Ok (take o c ++ pxcap ++ drop (o + length pxcap) c) else Err Undefined
  else Ok c.

(** [PciDevice(const PciDeviceParams &p)] without its registration at the host; what the memory
    of configuration space held before is an argument, and the bytes of the capability of
    PCI Express, where it has a place, are a parameter. *)
Definition init_PciDevice (h : PciSpaces) (garbage : list Z) (p : PciDeviceParams) : outcome PciDevice :=
  do! fatal_if (5 <=? p_InterruptPin p) then
  let! bars := link_bars (seq 0 6) (p_BARs p) in
  let c := put_all [(VendorId, p_VendorID p); (DeviceId, p_DeviceID p); (Command_, p_Command p); (Status, p_Status p); (Revision, p_Revision p); (ProgIF, p_ProgIF p);
    (SubClassCode, p_SubClassCode p); (ClassCode, p_ClassCode p); (CacheLineSize, p_CacheLineSize p); (LatencyTimer, p_LatencyTimer p); (HeaderType, p_HeaderType p); (BIST, p_BIST p)] garbage in
  let! (c, bars) := write_bars h (seq 0 6) (fun _ => 0) c bars in
  let c := put_all [(cardbusCIS, p_CardbusCIS p); (subsystemVendorID, p_SubsystemVendorID p); (subsystemID, p_SubsystemID p); (expansionROM, p_ExpansionROM p);
    (CapabilityPointer, p_CapabilityPtr p); ((53, 7)%nat, 0); (InterruptLine, p_InterruptLine p); (InterruptPin, p_InterruptPin p);
    (minimumGrant, p_MinimumGrant p); (maximumLatency, p_MaximumLatency p)] c in
  let! c := place_pxcap (p_PXCAPBaseOffset p) (p_pxcap p) c in
  Ok (mkPciDevice (p_busAddr p) c bars (p_config_latency p) (p_is_invisible p)).

Definition cfg_size (n : Z) : bool := (n =? 1) || (n =? 2) || (n =? 4) || (n =? 8).

(** [Tick readConfig(PacketPtr pkt)]: the response, the value of its data and the delay. *)
Definition pd_readConfig (pkt : Packet) (d : PciDevice) : outcome (Packet * Z * Z) :=
  if truthy (is_invisible d) then
    let! n := getSize pkt in
    let! r := makeResponse pkt in Ok (r, 2 ^ (8 * n) - 1, 0)
  else
    let! a := getAddr pkt in
    let offset := Z.land a PCIE_EXTENDED_CONFIG_SIZE in
    let! n := getSize pkt in
    let! v := (if cfg_size n then read_at offset n (config d) else Err Panic) in
    let! r := makeResponse pkt in Ok (r, v, pd_configDelay d).

(** The writes to the header by their size. *)
Definition pd_write8 (offset val : Z) (d : PciDevice) : PciDevice :=
  let c := config d in
  set_config
    (if offset =? PCI0_INTERRUPT_LINE then put InterruptLine val c
     else if offset =? PCI_CACHE_LINE_SIZE then put CacheLineSize val c
     else if offset =? PCI_LATENCY_TIMER then put LatencyTimer val c
     else store 1 (Z.to_nat offset) val c) d.
Definition pd_write16 (offset val : Z) (d : PciDevice) : PciDevice * bool :=
  let c := config d in
  if offset =? PCI_COMMAND then (set_config (put Command_ val c) d, true)
  else if offset =? PCI_STATUS then (set_config (put Status val c) d, false)
  else if offset =? PCI_CACHE_LINE_SIZE then (set_config (put CacheLineSize val c) d, false)
  else (set_config (store 2 (Z.to_nat offset) val c) d, false).
Definition is_bar_offset (offset : Z) : bool := existsb (fun n => offset =? PCI0_BASE_ADDR0 + 4 * Z.of_nat n) (seq 0 6).
Definition BAR_NUMBER (offset : Z) : Z := Z.shiftr (offset - PCI0_BASE_ADDR0) 2.
Definition pd_write32 (h : PciSpaces) (offset val : Z) (d : PciDevice) : outcome (PciDevice * bool) :=
  let c := config d in
  if is_bar_offset offset then
    let num := Z.to_nat (BAR_NUMBER offset) in
    let! (r, bars) := bar_write_at h num val (BARs d) in
    Ok (set_BARs bars (set_config (put (baseAddr num) r c) d), true)
  else if offset =? PCI0_ROM_BASE_ADDR then
    Ok (set_config (put expansionROM (if val =? 0xfffffffe then 0xffffffff else val) c) d, false)
  else if offset =? PCI_COMMAND then Ok (set_config (put Command_ val c) d, true)
  else Ok (d, false).

(** [Tick writeConfig(PacketPtr pkt)], with [val] the value of the packet's data: the response,
    the delay, the device and whether it announces other ranges.  Behind the header the code
    assigns through a reference to a parameter that is gone, which is undefined. *)
Definition read_only (header offset : Z) : bool :=
  ((header =? 0) && ((offset =? PCI0_INTERRUPT_PIN) || (offset =? PCI0_MINIMUM_GRANT) || (offset =? PCI0_MAXIMUM_LATENCY) || (offset =? PCI_CLASS_CODE) || (offset =? PCI_REVISION_ID)))
  || ((header =? 1) && ((offset =? PCI_CLASS_CODE) || (offset =? PCI_REVISION_ID))).
Definition pd_writeConfig (h : PciSpaces) (pkt : Packet) (val : Z) (d : PciDevice) : outcome (Packet * Z * PciDevice * bool) :=
  let! a := getAddr pkt in
  let offset := Z.land a PCIE_EXTENDED_CONFIG_SIZE in
  do! panic_if (read_only (get HeaderType (config d)) offset) then
  let! n := getSize pkt in
  let! (d, changed) :=
    (if PCI_DEVICE_SPECIFIC <=? offset then if cfg_size n then Err Undefined else Err Panic
     else if n =? 1 then Ok (pd_write8 offset val d, false)
     else if n =? 2 then Ok (pd_write16 offset val d)
     else if n =? 4 then pd_write32 h offset val d
     else Err Panic) in
  let! r := makeResponse pkt in Ok (r, pd_configDelay d, d, changed).

(** * Ranges *)

(** [AddrRangeList getAddrRanges() const]. *)
Definition ioSpace (command : Z) : bool := Z.testbit command 0.
Definition memorySpace (command : Z) : bool := Z.testbit command 1.
Definition pd_getAddrRanges (d : PciDevice) : list AddrRange :=
  let command := get Command_ (config d) in
  flat_map (fun b => (if ioSpace command && isIo b then [bar_range b] else []) ++ (if memorySpace command && isMem b then [bar_range b] else [])) (BARs d).

(** [bool getBAR(Addr addr, int &num, Addr &offs)]. *)
Fixpoint getBAR_loop (i : nat) (addr : Z) (bars : list PciBar) : option (nat * Z) :=
  match bars with
  | [] => None
  | b :: bars => if contains (bar_range b) addr then Some (i, u64 (addr - bar_addr b)) else getBAR_loop (S i) addr bars
  end.
Definition getBAR (addr : Z) (d : PciDevice) : option (nat * Z) := getBAR_loop 0 addr (BARs d).

(** [uint8_t interruptLine() const] and [Addr pciToDma(Addr pci_addr) const]. *)
Definition interruptLine (d : PciDevice) : Z := get InterruptLine (config d).
Definition pciToDma (h : PciSpaces) (a : Z) : Z := dmaAddr h a.

(** [void unserialize(CheckpointIn &cp)]: the bytes of configuration space and the registers,
    which are written again in turn; what they return is dropped. *)
Fixpoint restore_bars (h : PciSpaces) (ns : list nat) (c : list Z) (bars : list PciBar) : outcome (list PciBar) :=
  match ns with
  | [] => Ok bars
  | n :: ns => let! (_, bars) := bar_write_at h n (get (baseAddr n) c) bars in restore_bars h ns c bars
  end.
Definition restore_config (h : PciSpaces) (data : list Z) (d : PciDevice) : outcome PciDevice :=
  let! bars := restore_bars h (seq 0 6) data (BARs d) in Ok (set_BARs bars (set_config data d)).

(** * Registers: lemmas *)

Lemma set_field_ok bar first last v : in_width 32 bar -> 0 <= last <= first -> first < 32 -> exists r, set_field bar first last v = Ok r /\ in_width 32 r /\
  forall i, 0 <= i < 32 -> Z.testbit r i = if (last <=? i) && (i <=? first) then Z.testbit v (i - last) else Z.testbit bar i.
Proof.
  intros Hb Hr Hf. destruct (insertBits_testbit bar first last v) as (x & E & _ & Hx); [by apply (in_width_mono 32) | done | lia |]. unfold set_field. rewrite E. cbn [obind]. eexists. split; [done |]. split; [auto with width |].
  intros i Hi. rewrite wrap_testbit by lia. destruct (Z.ltb_spec i 32); [cbn [andb] | lia]. apply Hx. lia.
Qed.

(** The address in a register whose lowest [k] bits are flags. *)
Definition bar_base (k r : Z) : Z := Z.shiftl (Z.shiftr r k) k.

Lemma get_field_base bar k : in_width 32 bar -> 0 <= k < 32 -> exists a, get_field bar 31 k = Ok a /\ u32 (Z.shiftl a k) = bar_base k bar.
Proof.
  intros Hb Hk. unfold get_field. rewrite bits_slice by lia. eexists. split; [done |]. unfold bar_base. apply Z.bits_inj'. intros i Hi. rewrite wrap_testbit by lia.
  destruct (Z.ltb_spec i k) as [H | H]; [rewrite !Z.shiftl_spec_low by lia; apply andb_false_r |]. rewrite !Z.shiftl_spec, Z.land_spec, mask_testbit, Z.shiftr_spec by lia. replace (i - k + k) with i by lia.
  destruct (Z.ltb_spec i 32), (Z.ltb_spec (i - k) (31 - k + 1)), (Z.ltb_spec (i - k) 64); cbn [andb]; rewrite ?andb_true_r; try done; try lia. all: by rewrite (in_width_testbit 32 bar i).
Qed.

(** What a write to a memory register leaves in configuration space. *)
Definition mem_value (val size : Z) (wide : bool) (r : Z) : Prop :=
  in_width 32 r /\ forall i, 0 <= i < 32 -> Z.testbit r i = if i <? 3 then (i =? 2) && wide else Z.testbit (bar_masked val size) i.

Lemma memBar_write_ok h val wide upper b : exists r, memBar_write h val wide upper b = Ok (r, mkBar (PciMemBar wide (bar_base 3 r) upper) (memAddr h (u64 (upper + bar_base 3 r))) (bar_size b)) /\ mem_value val (bar_size b) wide r.
Proof.
  assert (in_width 32 (bar_masked val (bar_size b))) as Hm by (unfold bar_masked; auto with width). unfold memBar_write.
  destruct (set_field_ok _ 2 2 (Z.b2z wide) Hm) as (r1 & E1 & Hw1 & H1); [lia | lia |]. rewrite E1. cbn [obind].
  destruct (set_field_ok r1 1 1 0 Hw1) as (r2 & E2 & Hw2 & H2); [lia | lia |]. rewrite E2. cbn [obind].
  destruct (set_field_ok r2 0 0 0 Hw2) as (r & E3 & Hw & H3); [lia | lia |]. rewrite E3. cbn [obind].
  destruct (get_field_base r 3 Hw) as (a & -> & Ha); [lia |]. cbn [obind]. rewrite Ha. exists r. split; [done |]. split; [done |].
  intros i Hi. rewrite H3, H2, H1 by lia. assert (i = 0 \/ i = 1 \/ i = 2 \/ 3 <= i) as [-> | [-> | [-> | Hi3]]] by lia; [done | done | by destruct wide |].
  destruct (Z.leb_spec i 0), (Z.leb_spec i 1), (Z.leb_spec i 2), (Z.ltb_spec i 3); try lia. by rewrite !andb_false_r.
Qed.

(** What a write to a register of the I/O space leaves there. *)
Definition io_value (val size r : Z) : Prop :=
  in_width 32 r /\ forall i, 0 <= i < 32 -> Z.testbit r i = if i <? 2 then i =? 0 else Z.testbit (bar_masked val size) i.

Lemma ioBar_write_ok h val b : exists r, ioBar_write h val b = Ok (r, mkBar PciIoBar (pioAddr h (bar_base 2 r)) (bar_size b)) /\ io_value val (bar_size b) r.
Proof.
  assert (in_width 32 (bar_masked val (bar_size b))) as Hm by (unfold bar_masked; auto with width). unfold ioBar_write.
  destruct (set_field_ok _ 1 1 0 Hm) as (r1 & E1 & Hw1 & H1); [lia | lia |]. rewrite E1. cbn [obind].
  destruct (set_field_ok r1 0 0 1 Hw1) as (r & E2 & Hw & H2); [lia | lia |]. rewrite E2. cbn [obind].
  destruct (get_field_base r 2 Hw) as (a & -> & Ha); [lia |]. cbn [obind]. rewrite Ha. exists r. split; [done |]. split; [done |].
  intros i Hi. rewrite H2, H1 by lia. assert (i = 0 \/ i = 1 \/ 2 <= i) as [-> | [-> | Hi2]] by lia; [done | done |].
  destruct (Z.leb_spec i 0), (Z.leb_spec i 1), (Z.ltb_spec i 2); try lia. by rewrite !andb_false_r.
Qed.

(** * The halves of wide registers *)

Definition upper_at (bars : list PciBar) (n : nat) : bool :=
  match bars !! n with Some b => match bar_class_of b with PciMemUpperBar _ => true | _ => false end | None => false end.
Definition mem_at (bars : list PciBar) (n : nat) : bool := match bars !! n with Some b => isMem b | None => false end.

(** The first [lim] registers have been connected. *)
Definition links (lim : nat) (bars : list PciBar) : Prop := forall n b, bars !! n = Some b ->
  match bar_class_of b with
  | PciMemUpperBar l => if decide (n < lim)%nat then exists k, n = S k /\ l = Some k /\ mem_at bars k = true else l = None
  | PciMemBar wide _ _ => wide = bool_decide (S n < lim)%nat && upper_at bars (S n)
  | _ => True
  end.

(** Registers that differ only in what is written to them. *)
Definition same_shape (b b' : PciBar) : Prop := bar_size b' = bar_size b /\
  match bar_class_of b, bar_class_of b' with
  | PciMemBar w _ _, PciMemBar w' _ _ => w' = w
  | c, c' => c' = c
  end.

Lemma same_shape_refl b : same_shape b b.
Proof. split; [done |]. by destruct (bar_class_of b). Qed.

Lemma shapes_refl bars : Forall2 same_shape bars bars.
Proof. induction bars; constructor; [apply same_shape_refl | done]. Qed.

Lemma shapes_insert bars n b b' : bars !! n = Some b -> same_shape b b' -> Forall2 same_shape bars (<[n := b']> bars).
Proof.
  intros Hb Hs. apply Forall2_same_length_lookup_2; [by rewrite length_insert |]. intros i x y Hx Hy. destruct (decide (i = n)) as [-> | Hne].
  - rewrite Hb in Hx. injection Hx as <-. rewrite list_lookup_insert_eq in Hy by (by apply lookup_lt_Some in Hb). by injection Hy as <-.
  - rewrite list_lookup_insert_ne in Hy by done. rewrite Hx in Hy. injection Hy as <-. apply same_shape_refl.
Qed.

Lemma shape_upper bars bars' n : Forall2 same_shape bars bars' -> upper_at bars' n = upper_at bars n /\ mem_at bars' n = mem_at bars n.
Proof.
  intros H. unfold upper_at, mem_at, isMem. destruct (bars !! n) as [b |] eqn:E.
  - destruct (Forall2_lookup_l _ _ _ _ _ H E) as (b' & -> & _ & Hc). by destruct (bar_class_of b), (bar_class_of b').
  - apply lookup_ge_None in E. rewrite (proj2 (lookup_ge_None bars' n)); [done |]. by rewrite <- (Forall2_length _ _ _ H).
Qed.

Lemma links_shapes lim bars bars' : Forall2 same_shape bars bars' -> links lim bars -> links lim bars'.
Proof.
  intros H Hl n b' Hb'. destruct (Forall2_lookup_r _ _ _ _ _ H Hb') as (b & Hb & _ & Hc). specialize (Hl n b Hb). pose proof (fun k => shape_upper bars bars' k H) as Hs.
  destruct (bar_class_of b), (bar_class_of b'); try done; try (injection Hc as ->).
  - subst. by rewrite (proj1 (Hs (S n))).
  - destruct (decide (n < lim)%nat); [| done]. destruct Hl as (k & E1 & E2 & E3). exists k. by rewrite (proj2 (Hs k)).
Qed.

(** * Configuration space decides what a register decodes *)

Lemma get_put_base i n r c : (40 <= length c)%nat -> (i < 6)%nat -> (n < 6)%nat -> in_width 32 r -> get (baseAddr i) (put (baseAddr n) r c) = if decide (i = n) then r else get (baseAddr i) c.
Proof.
  intros Hc Hi Hn Hr. unfold get, put, baseAddr. cbn [fst snd]. destruct (decide (i = n)) as [-> |]; [rewrite load_store_same by lia; by apply wrap_small | apply load_store_other; lia].
Qed.

(** The address of register [n] by the bytes of configuration space; the upper half of the
    last of [lim] registers is not yet written. *)
Definition upper_word (lim : nat) (c : list Z) (wide : bool) (n : nat) : Z := if wide && bool_decide (S n < lim)%nat then Z.shiftl (get (baseAddr (S n)) c) 32 else 0.
Definition decoded (h : PciSpaces) (lim : nat) (c : list Z) (n : nat) (b : PciBar) : Z :=
  match bar_class_of b with
  | PciBarNone | PciMemUpperBar _ => 0
  | PciIoBar => pioAddr h (bar_base 2 (get (baseAddr n) c))
  | PciLegacyIoBar fixedAddr => pioAddr h fixedAddr
  | PciMemBar wide _ _ => memAddr h (u64 (upper_word lim c wide n + bar_base 3 (get (baseAddr n) c)))
  end.
Definition decodes (h : PciSpaces) (lim : nat) (c : list Z) (bars : list PciBar) : Prop := forall n b, bars !! n = Some b ->
  if decide (n < lim)%nat then
    bar_addr b = decoded h lim c n b /\ match bar_class_of b with PciMemBar wide lower upper => lower = bar_base 3 (get (baseAddr n) c) /\ upper = upper_word lim c wide n | _ => True end
  else bar_addr b = 0 /\ match bar_class_of b with PciMemBar _ lower upper => lower = 0 /\ upper = 0 | _ => True end.

(** Registers other than [n] and its lower half read the same bytes as before. *)
Lemma decodes_other h lim lim' c n r bars i b : (40 <= length c)%nat -> (n < 6)%nat -> length bars = 6%nat -> in_width 32 r -> links 6 bars -> decodes h lim c bars -> bars !! i = Some b ->
  i <> n -> (upper_at bars n = true -> n <> S i) -> (lim' = lim \/ n = lim /\ lim' = S lim) ->
  if decide (i < lim')%nat then
    bar_addr b = decoded h lim' (put (baseAddr n) r c) i b /\ match bar_class_of b with PciMemBar wide lower upper => lower = bar_base 3 (get (baseAddr i) (put (baseAddr n) r c)) /\ upper = upper_word lim' (put (baseAddr n) r c) wide i | _ => True end
  else bar_addr b = 0 /\ match bar_class_of b with PciMemBar _ lower upper => lower = 0 /\ upper = 0 | _ => True end.
Proof.
  intros Hc Hn Hlen Hr Hl Hd Hb Hne Hup Hlim. specialize (Hd i b Hb). pose proof (lookup_lt_Some _ _ _ Hb) as Hi. rewrite Hlen in Hi.
  assert ((i < lim')%nat <-> (i < lim)%nat) as Hii by lia. destruct (decide (i < lim)%nat) as [Hil | Hil]; [rewrite decide_True by (by apply Hii) | rewrite decide_False by (by rewrite Hii); done].
  assert (get (baseAddr i) (put (baseAddr n) r c) = get (baseAddr i) c) as Hg by (rewrite get_put_base by done; by rewrite decide_False by done).
  specialize (Hl i b Hb). unfold decoded in *. destruct (bar_class_of b) as [| | f | wide lower upper | l]; rewrite ?Hg; try done.
  assert (upper_word lim' (put (baseAddr n) r c) wide i = upper_word lim c wide i) as ->; [| done]. unfold upper_word. destruct wide; [| done]. symmetry in Hl. apply andb_true_iff in Hl as [H6 Hu]. apply bool_decide_eq_true in H6.
  assert (n <> S i) as Hni by (intros ->; by apply Hup). cbn [andb]. assert ((S i < lim')%nat <-> (S i < lim)%nat) as Hs by lia. rewrite (bool_decide_ext _ _ Hs). case_bool_decide; [| done].
  rewrite get_put_base by (done || lia). by rewrite decide_False by done.
Qed.

Lemma bar_write_decodes h lim c n val bars : (40 <= length c)%nat -> length bars = 6%nat -> (n < 6)%nat -> (n <= lim <= 6)%nat -> in_width 32 val -> links 6 bars -> decodes h lim c bars ->
  exists r bars', bar_write_at h n val bars = Ok (r, bars') /\ in_width 32 r /\ Forall2 same_shape bars bars' /\ decodes h (Nat.max lim (S n)) (put (baseAddr n) r c) bars'.
Proof.
  intros Hc Hlen Hn Hlim Hv Hl Hd. destruct (lookup_lt_is_Some_2 bars n) as [b Hb]; [lia |]. unfold bar_write_at. rewrite Hb. set (lim' := Nat.max lim (S n)).
  assert (lim' = lim \/ n = lim /\ lim' = S lim) as Hl' by lia. pose proof (Hl n b Hb) as Hln. pose proof (Hd n b Hb) as Hdn. destruct (bar_class_of b) as [| | f | wide lower upper | l] eqn:Ec.
  - exists 0, bars. split; [done |]. split; [done |]. split; [apply shapes_refl |]. intros i x Hx. destruct (decide (i = n)) as [-> |].
    + rewrite Hb in Hx. injection Hx as <-. rewrite decide_True by lia. unfold decoded. rewrite Ec. destruct (decide _); [unfold decoded in Hdn; by rewrite Ec in Hdn | done].
    + apply (decodes_other h lim lim' c n 0 bars i x); try done. intros Hu. unfold upper_at in Hu. by rewrite Hb, Ec in Hu.
  - destruct (ioBar_write_ok h val b) as (r & -> & Hr & _). cbn [obind]. eexists r, _. split; [done |]. split; [done |]. split; [apply (shapes_insert _ _ b); [done |]; split; [done | by rewrite Ec] |].
    intros i x Hx. destruct (decide (i = n)) as [-> |].
    + rewrite list_lookup_insert_eq in Hx by lia. injection Hx as <-. rewrite decide_True by lia. unfold decoded. cbn [bar_class_of bar_addr]. rewrite get_put_base by done. by rewrite decide_True by done.
    + rewrite list_lookup_insert_ne in Hx by done. apply (decodes_other h lim lim' c n r bars i x); try done. intros Hu. unfold upper_at in Hu. by rewrite Hb, Ec in Hu.
  - eexists 0, _. split; [done |]. split; [done |]. split; [apply (shapes_insert _ _ b); [done |]; split; [done | by rewrite Ec] |].
    intros i x Hx. destruct (decide (i = n)) as [-> |].
    + rewrite list_lookup_insert_eq in Hx by lia. injection Hx as <-. rewrite decide_True by lia. done.
    + rewrite list_lookup_insert_ne in Hx by done. apply (decodes_other h lim lim' c n 0 bars i x); try done. intros Hu. unfold upper_at in Hu. by rewrite Hb, Ec in Hu.
  - destruct (memBar_write_ok h val wide upper b) as (r & -> & Hr & _). cbn [obind]. eexists r, _. split; [done |]. split; [done |]. split; [apply (shapes_insert _ _ b); [done |]; split; [done | by rewrite Ec] |].
    intros i x Hx. destruct (decide (i = n)) as [-> |].
    + rewrite list_lookup_insert_eq in Hx by lia. injection Hx as <-. rewrite decide_True by lia. unfold decoded. cbn [bar_class_of bar_addr]. rewrite get_put_base by done. rewrite decide_True by done.
      assert (upper = upper_word lim' (put (baseAddr n) r c) wide n) as <-; [| done]. unfold upper_word in *. destruct (decide (n < lim)%nat) as [Hnl | Hnl].
      * destruct Hdn as (_ & _ & ->). replace lim' with lim by lia. destruct wide; [cbn [andb] | done]. case_bool_decide; [| done]. rewrite get_put_base by (done || lia). by rewrite decide_False by lia.
      * destruct Hdn as (_ & _ & ->). rewrite (bool_decide_eq_false_2 (S n < lim')%nat) by lia. by rewrite andb_false_r.
    + rewrite list_lookup_insert_ne in Hx by done. apply (decodes_other h lim lim' c n r bars i x); try done. intros Hu. unfold upper_at in Hu. by rewrite Hb, Ec in Hu.
  - rewrite decide_True in Hln by done. destruct Hln as (k & -> & -> & Hm). unfold mem_at in Hm. destruct (bars !! k) as [bk |] eqn:Ek; [| done]. unfold isMem in Hm. destruct (bar_class_of bk) as [| | | w lo up |] eqn:Eck; try done.
    set (v := Z.land val _). assert (in_width 32 v) as Hvw by (apply land_in_width_l; [lia | done]). rewrite (wrap_small 32 v Hvw). eexists v, _. split; [done |]. split; [done |].
    split; [apply (shapes_insert _ _ bk); [done |]; split; [done | by rewrite Eck] |].
    pose proof (Hd k bk Ek) as Hdk. rewrite decide_True, Eck in Hdk by lia. destruct Hdk as (_ & Hlo & _). pose proof (Hl k bk Ek) as Hlk. rewrite Eck in Hlk.
    assert (w = true) as -> by (rewrite Hlk; unfold upper_at; rewrite Hb, Ec; by rewrite bool_decide_eq_true_2 by lia).
    intros i x Hx. destruct (decide (i = k)) as [-> |].
    + rewrite list_lookup_insert_eq in Hx by lia. injection Hx as <-. rewrite decide_True by lia. unfold decoded, memBar_upper, upper_word. cbn [bar_class_of bar_addr]. rewrite !get_put_base by (done || lia). destruct (decide (k = S k)); [lia |]. destruct (decide (S k = S k)); [| lia]. rewrite bool_decide_eq_true_2 by lia. cbn [andb].
      rewrite (wrap_small 64 (Z.shiftl v 32)); [by rewrite <- Hlo |]. rewrite Z.shiftl_mul_pow2 by lia. unfold in_width in *. lia.
    + rewrite list_lookup_insert_ne in Hx by done. destruct (decide (i = S k)) as [-> |].
      * rewrite Hb in Hx. injection Hx as <-. rewrite decide_True by lia. unfold decoded. rewrite Ec. destruct (decide _); [unfold decoded in Hdn; by rewrite Ec in Hdn | done].
      * apply (decodes_other h lim lim' c (S k) v bars i x); try done. intros _ [= ->]. done.
Qed.

(** * Construction *)

(** Registers as their constructors make them. *)
Definition fresh_bar (b : PciBar) : Prop := bar_addr b = 0 /\
  match bar_class_of b with PciMemBar wide lower upper => wide = false /\ lower = 0 /\ upper = 0 | PciMemUpperBar l => l = None | _ => True end.
Definition zero_bar (b : PciBar) : Prop := bar_addr b = 0 /\ match bar_class_of b with PciMemBar _ lower upper => lower = 0 /\ upper = 0 | _ => True end.

(** Registers of the same class and size. *)
Definition same_kind (b b' : PciBar) : Prop := bar_size b' = bar_size b /\
  match bar_class_of b, bar_class_of b' with
  | PciMemBar _ _ _, PciMemBar _ _ _ | PciMemUpperBar _, PciMemUpperBar _ => True
  | c, c' => c' = c
  end.

Lemma same_device_refl b : same_kind b b.
Proof. split; [done |]. by destruct (bar_class_of b). Qed.

Lemma same_device_trans b b' b'' : same_kind b b' -> same_kind b' b'' -> same_kind b b''.
Proof. intros [H1 H2] [H3 H4]. split; [congruence |]. destruct (bar_class_of b), (bar_class_of b'), (bar_class_of b''); try done; congruence. Qed.

Lemma shape_kind b b' : same_shape b b' -> same_kind b b'.
Proof. intros [H1 H2]. split; [done |]. by destruct (bar_class_of b), (bar_class_of b'). Qed.

Lemma kinds_refl bars : Forall2 same_kind bars bars.
Proof. induction bars; constructor; [apply same_device_refl | done]. Qed.

Lemma kinds_at bars bars' n : Forall2 same_kind bars bars' -> upper_at bars' n = upper_at bars n /\ mem_at bars' n = mem_at bars n.
Proof.
  intros H. unfold upper_at, mem_at, isMem. destruct (bars !! n) as [b |] eqn:E.
  - destruct (Forall2_lookup_l _ _ _ _ _ H E) as (b' & -> & _ & Hc). by destruct (bar_class_of b), (bar_class_of b').
  - apply lookup_ge_None in E. rewrite (proj2 (lookup_ge_None bars' n)); [done |]. by rewrite <- (Forall2_length _ _ _ H).
Qed.

Lemma kinds_insert bars n b b' : bars !! n = Some b -> same_kind b b' -> Forall2 same_kind bars (<[n := b']> bars).
Proof.
  intros Hb Hs. apply Forall2_same_length_lookup_2; [by rewrite length_insert |]. intros i x y Hx Hy. destruct (decide (i = n)) as [-> | Hne].
  - rewrite Hb in Hx. injection Hx as <-. rewrite list_lookup_insert_eq in Hy by (by apply lookup_lt_Some in Hb). by injection Hy as <-.
  - rewrite list_lookup_insert_ne in Hy by done. rewrite Hx in Hy. injection Hy as <-. apply same_device_refl.
Qed.

Lemma kinds_trans b1 b2 b3 : Forall2 same_kind b1 b2 -> Forall2 same_kind b2 b3 -> Forall2 same_kind b1 b3.
Proof. intros H. revert b3. induction H as [| x y b1 b2 Hxy H IH]; intros b3 H3; inversion H3; subst; constructor; [by apply (same_device_trans x y) | by apply IH]. Qed.

Lemma link_bar_ok lim bars bars' : links lim bars -> Forall zero_bar bars -> link_bar lim bars = Ok bars' -> links (S lim) bars' /\ Forall zero_bar bars' /\ Forall2 same_kind bars bars'.
Proof.
  intros Hl Hz E. unfold link_bar in E. destruct (bars !! lim) as [b |] eqn:Eb; [| done].
  assert (upper_at bars lim = false -> links (S lim) bars) as Hstay.
  { intros Hu n x Hx. specialize (Hl n x Hx). destruct (bar_class_of x) as [| | | w lo up | l] eqn:Ex; try done.
    - rewrite Hl. destruct (decide (S n = lim)) as [<- | Hne]; [by rewrite Hu, !andb_false_r |]. f_equal. apply bool_decide_ext. lia.
    - assert (n <> lim) as Hne by (intros ->; unfold upper_at in Hu; rewrite Hx, Ex in Hu; done). destruct (decide (n < lim)%nat); [by rewrite decide_True by lia | by rewrite decide_False by lia]. }
  destruct (bar_class_of b) as [| | | w lo up | l] eqn:Ec; try (injection E as <-; split; [apply Hstay; unfold upper_at; by rewrite Eb, Ec | by split; [| apply kinds_refl]]).
  destruct lim as [| k]; [done |]. destruct (bars !! k) as [bk |] eqn:Ek; [| done]. destruct (bar_class_of bk) as [| | | w lo up |] eqn:Eck; try done. injection E as <-.
  set (bars1 := <[S k := _]> bars). assert (bars1 !! k = Some bk) as Hk1 by (unfold bars1; by rewrite list_lookup_insert_ne by lia).
  assert (Forall2 same_kind bars bars1) as Hs1 by (apply (kinds_insert _ _ b); [done |]; split; [done | cbn; by rewrite Ec]).
  set (bars2 := <[k := _]> bars1). assert (Forall2 same_kind bars1 bars2) as Hs2 by (apply (kinds_insert _ _ bk); [done |]; split; [done | cbn; by rewrite Eck]).
  pose proof (kinds_trans _ _ _ Hs1 Hs2) as Hs. pose proof (fun i => kinds_at _ _ i Hs) as Hat. pose proof (lookup_lt_Some _ _ _ Eb) as Hlt.
  split; [| split; [| done]].
  - intros n x Hx. destruct (decide (n = k)) as [-> | Hnk].
    + unfold bars2 in Hx. rewrite list_lookup_insert_eq in Hx by (unfold bars1; rewrite length_insert; lia). injection Hx as <-. cbn. rewrite (proj1 (Hat (S k))). unfold upper_at. rewrite Eb, Ec. by rewrite bool_decide_eq_true_2 by lia.
    + unfold bars2 in Hx. rewrite list_lookup_insert_ne in Hx by done. destruct (decide (n = S k)) as [-> | HnS].
      * unfold bars1 in Hx. rewrite list_lookup_insert_eq in Hx by lia. injection Hx as <-. cbn [bar_class_of set_class]. rewrite decide_True by lia. exists k. rewrite (proj2 (Hat k)). unfold mem_at, isMem. by rewrite Ek, Eck.
      * unfold bars1 in Hx. rewrite list_lookup_insert_ne in Hx by done. specialize (Hl n x Hx). destruct (bar_class_of x) as [| | | wx lox upx | lx]; try done.
        -- rewrite Hl, (proj1 (Hat (S n))). f_equal. apply bool_decide_ext. lia.
        -- destruct (decide (n < S k)%nat); [rewrite decide_True by lia; destruct Hl as (j & E1 & E2 & E3); exists j; by rewrite (proj2 (Hat j)) | by rewrite decide_False by lia].
  - rewrite Forall_forall in Hz. pose proof (Hz b (list_elem_of_lookup_2 _ _ _ Eb)) as [Hb0 _]. pose proof (Hz bk (list_elem_of_lookup_2 _ _ _ Ek)) as [Hk0 Hk2]. rewrite Eck in Hk2.
    apply Forall_insert; [apply Forall_insert; [by apply Forall_forall | split; [exact Hb0 | done]] | split; [exact Hk0 | exact Hk2]].
Qed.

Lemma link_bars_ok m : forall lim bars bars', links lim bars -> Forall zero_bar bars -> link_bars (seq lim m) bars = Ok bars' -> links (lim + m) bars' /\ Forall zero_bar bars' /\ Forall2 same_kind bars bars'.
Proof.
  induction m as [| m IH]; intros lim bars bars' Hl Hz E; cbn [seq link_bars] in E.
  - injection E as <-. rewrite Nat.add_0_r. by split; [| split; [| apply kinds_refl]].
  - destruct (link_bar lim bars) as [bars1 |] eqn:E1; [| done]. cbn [obind] in E. destruct (link_bar_ok _ _ _ Hl Hz E1) as (Hl1 & Hz1 & Hk1). destruct (IH _ _ _ Hl1 Hz1 E) as (Hl2 & Hz2 & Hk2).
    rewrite Nat.add_succ_r. split; [done |]. split; [done | by apply (kinds_trans _ bars1)].
Qed.

Lemma fresh_start bars : Forall fresh_bar bars -> links 0 bars /\ Forall zero_bar bars.
Proof.
  intros H. split.
  - intros n b Hb. rewrite Forall_lookup in H. specialize (H n b Hb) as [_ Hc]. destruct (bar_class_of b) as [| | | w lo up | l]; try done. by destruct Hc as (-> & _).
  - apply (Forall_impl _ _ _ H). intros b [Ha Hc]. split; [done |]. destruct (bar_class_of b); try done. by destruct Hc as (_ & -> & ->).
Qed.

Lemma zero_decodes h c bars : Forall zero_bar bars -> decodes h 0 c bars.
Proof. intros H n b Hb. rewrite Forall_lookup in H. by specialize (H n b Hb). Qed.

(** Only the bytes of the registers matter. *)
Lemma decodes_ext h lim c c' bars : (lim <= 6)%nat -> (forall n, (n < 6)%nat -> get (baseAddr n) c' = get (baseAddr n) c) -> decodes h lim c bars -> decodes h lim c' bars.
Proof.
  intros Hlim Hg Hd n b Hb. specialize (Hd n b Hb). destruct (decide (n < lim)%nat) as [Hn |]; [| done].
  assert (forall w, upper_word lim c' w n = upper_word lim c w n) as Hu. { intros w. unfold upper_word. destruct w; [cbn [andb] | done]. case_bool_decide; [| done]. by rewrite Hg by lia. }
  unfold decoded in *. destruct (bar_class_of b); rewrite ?Hu, ?Hg by lia; done.
Qed.

Definition outside_bars (r : reg) : Prop := (fst r + snd r <= 16 \/ 40 <= fst r)%nat.

Lemma put_outside r v c n : outside_bars r -> (fst r + snd r <= length c)%nat -> (n < 6)%nat -> get (baseAddr n) (put r v c) = get (baseAddr n) c.
Proof. intros Ho Hl Hn. unfold get, put, baseAddr. cbn [fst snd]. apply load_store_other; [lia |]. unfold outside_bars in Ho. lia. Qed.

Lemma put_all_outside rs : Forall (fun r => outside_bars (fst r) /\ (fst (fst r) + snd (fst r) <= 64)%nat) rs -> forall c, (64 <= length c)%nat ->
  length (put_all rs c) = length c /\ forall n, (n < 6)%nat -> get (baseAddr n) (put_all rs c) = get (baseAddr n) c.
Proof.
  induction 1 as [| [r v] rs [Ho Hr] _ IH]; intros c Hc; [done |]. cbn [put_all fold_left fst snd] in *. assert (length (put r v c) = length c) as Hl by (apply store_length; lia).
  destruct (IH (put r v c)) as [H1 H2]; [lia |]. split; [unfold put_all in H1; by rewrite H1 |]. intros n Hn. unfold put_all in H2. rewrite H2 by done. apply put_outside; [done | lia | done].
Qed.

Lemma write_bars_ok h m : forall lim c bars value, (lim + m = 6)%nat -> (64 <= length c)%nat -> length bars = 6%nat -> links 6 bars -> (forall n, in_width 32 (value n)) -> decodes h lim c bars ->
  exists c' bars', write_bars h (seq lim m) value c bars = Ok (c', bars') /\ length c' = length c /\ Forall2 same_shape bars bars' /\ decodes h 6 c' bars'.
Proof.
  induction m as [| m IH]; intros lim c bars value Hlm Hc Hlen Hl Hv Hd; cbn [seq write_bars].
  - exists c, bars. replace 6%nat with lim by lia. split; [done |]. split; [done |]. split; [apply shapes_refl | done].
  - destruct (bar_write_decodes h lim c lim (value lim) bars) as (r & bars1 & -> & Hr & Hs1 & Hd1); try done; try lia. cbn [obind]. assert (length (put (baseAddr lim) r c) = length c) as Hlc by (apply store_length; cbn; lia).
    rewrite Nat.max_r in Hd1 by lia. destruct (IH (S lim) (put (baseAddr lim) r c) bars1 value) as (c' & bars' & -> & Hc' & Hs & Hd'); try done; try lia.
    + by rewrite <- (Forall2_length _ _ _ Hs1).
    + by apply (links_shapes _ bars).
    + exists c', bars'. split; [done |]. split; [lia |]. split; [| done]. clear -Hs1 Hs. revert bars' Hs. induction Hs1 as [| x y l l' Hxy H IH]; intros bars' Hs; inversion Hs as [| ? z ? l'' Hyz Hs']; subst; constructor; [| by apply IH].
      destruct Hxy as [A1 A2], Hyz as [B1 B2]. split; [congruence |]. destruct (bar_class_of x), (bar_class_of y), (bar_class_of z); try done; congruence.
Qed.

(** * Histories of configuration writes *)

Record device_ok (h : PciSpaces) (bars0 : list PciBar) (d : PciDevice) : Prop := {
  do_config : length (config d) = 4096%nat;
  do_six : length (BARs d) = 6%nat;
  do_links : links 6 (BARs d);
  do_decodes : decodes h 6 (config d) (BARs d);
  do_kinds : Forall2 same_kind bars0 (BARs d);
}.

Lemma splice_outside o (l c : list Z) n : (40 <= o)%nat -> (o + length l <= length c)%nat -> (n < 6)%nat -> get (baseAddr n) (take o c ++ l ++ drop (o + length l) c) = get (baseAddr n) c.
Proof. intros Ho Hl Hn. unfold get, baseAddr. cbn [fst snd]. apply load_ext. intros i Hi. rewrite lookup_app_l by (rewrite length_take; lia). by rewrite lookup_take_lt by lia. Qed.

Local Ltac outside := repeat (apply Forall_cons; split; [unfold outside_bars; cbn; lia |]); constructor.

Lemma init_ok h garbage p d : length garbage = 4096%nat -> length (p_BARs p) = 6%nat -> Forall fresh_bar (p_BARs p) -> (p_PXCAPBaseOffset p = 0 \/ 64 <= p_PXCAPBaseOffset p) ->
  init_PciDevice h garbage p = Ok d -> device_ok h (p_BARs p) d.
Proof.
  intros Hg Hlen Hf Hpx E. unfold init_PciDevice in E. destruct (fatal_if _); [| done]. cbn [obind] in E. destruct (link_bars _ _) as [bars |] eqn:El; [| done]. cbn [obind] in E.
  destruct (fresh_start _ Hf) as [Hl0 Hz0]. destruct (link_bars_ok 6 0 _ _ Hl0 Hz0 El) as (Hl & Hz & Hk). cbn in Hl.
  match type of E with context [put_all ?l garbage] => set (rs := l) in E end. pose proof (put_all_outside rs ltac:(unfold rs; outside) garbage ltac:(lia)) as [Hc1 _]. clearbody rs.
  destruct (write_bars_ok h 6 0 (put_all rs garbage) bars (fun _ => 0)) as (c & bars' & Ew & Hc & Hs & Hd); try done; try (rewrite Hc1; lia); [by rewrite <- (Forall2_length _ _ _ Hk) | by apply zero_decodes |]. rewrite Ew in E. cbn [obind] in E.
  match type of E with context [put_all ?l c] => set (rs2 := l) in E end. pose proof (put_all_outside rs2 ltac:(unfold rs2; outside) c ltac:(lia)) as [Hc2 Hg2]. clearbody rs2. set (c2 := put_all rs2 c) in *.
  assert (Forall2 same_kind (p_BARs p) bars') as Hk'. { apply (kinds_trans _ bars); [done |]. clear -Hs. induction Hs; constructor; [by apply shape_kind | done]. }
  assert (length bars' = 6%nat) as Hlb by (by rewrite <- (Forall2_length _ _ _ Hk')). assert (decodes h 6 c2 bars') as Hd2 by (by apply (decodes_ext h 6 c)). assert (links 6 bars') as Hl' by (by apply (links_shapes _ bars)).
  unfold place_pxcap in E. destruct (truthy (p_PXCAPBaseOffset p)) eqn:Et.
  - assert (64 <= p_PXCAPBaseOffset p) as Ho. { destruct Hpx as [E0 |]; [| done]. by rewrite E0 in Et. } case_bool_decide as Hfit; [| done]. cbn [obind] in E. injection E as <-.
    split; cbn; try done; [rewrite !length_app, length_take, length_drop; lia |]. apply (decodes_ext h 6 c2); [lia | | done]. intros n Hn. apply splice_outside; lia.
  - cbn [obind] in E. injection E as <-. split; cbn; try done. lia.
Qed.

Lemma config_changed h bars0 d c : device_ok h bars0 d -> length c = length (config d) -> (forall n, (n < 6)%nat -> get (baseAddr n) c = get (baseAddr n) (config d)) -> device_ok h bars0 (set_config c d).
Proof. intros [H1 H2 H3 H4 H5] Hl Hg. split; cbn; try done; [lia |]. by apply (decodes_ext h 6 (config d)). Qed.

Lemma put_ok h bars0 d r v : device_ok h bars0 d -> outside_bars r -> (fst r + snd r <= 64)%nat -> device_ok h bars0 (set_config (put r v (config d)) d).
Proof.
  intros Hd Ho Hr. pose proof (do_config _ _ _ Hd). apply config_changed; [done | apply store_length; lia |]. intros n Hn. apply put_outside; [done | lia | done].
Qed.

Lemma bar_ok h bars0 d n v : device_ok h bars0 d -> (n < 6)%nat -> in_width 32 v ->
  exists r bars, bar_write_at h n v (BARs d) = Ok (r, bars) /\ in_width 32 r /\ Forall2 same_shape (BARs d) bars /\ device_ok h bars0 (set_BARs bars (set_config (put (baseAddr n) r (config d)) d)).
Proof.
  intros [H1 H2 H3 H4 H5] Hn Hv. destruct (bar_write_decodes h 6 (config d) n v (BARs d)) as (r & bars & E & Hr & Hs & Hd); try done; try lia. rewrite Nat.max_l in Hd by lia.
  exists r, bars. split; [done |]. split; [done |]. split; [done |]. split; cbn [config set_config set_BARs BARs]; try done.
  - unfold put. rewrite store_length; [done | cbn; lia].
  - by rewrite <- (Forall2_length _ _ _ Hs).
  - by apply (links_shapes _ (BARs d)).
  - apply (kinds_trans _ (BARs d)); [done |]. clear -Hs. induction Hs; constructor; [by apply shape_kind | done].
Qed.

(** Writes to the header that a driver makes: registers that are not read-only, and base
    address registers as a whole. *)
Definition plain_write (o : Packet * Z) : Prop := exists a n r, getAddr (fst o) = Ok a /\ getSize (fst o) = Ok n /\ makeResponse (fst o) = Ok r /\ in_width (8 * n) (snd o) /\
  let offset := Z.land a PCIE_EXTENDED_CONFIG_SIZE in
  offset < 64 /\ (offset ∉ [0x08; 0x09; 0x3D; 0x3E; 0x3F]) /\ (n = 4 \/ (n = 1 \/ n = 2) /\ (offset + n <= 16 \/ 40 <= offset)).

Fixpoint cfg_run (h : PciSpaces) (os : list (Packet * Z)) (d : PciDevice) : outcome PciDevice :=
  match os with [] => Ok d | (pkt, val) :: os => let! (_, _, d, _) := pd_writeConfig h pkt val d in cfg_run h os d end.

Lemma is_bar_offset_spec offset : is_bar_offset offset = true -> exists n, (n < 6)%nat /\ offset = 16 + 4 * Z.of_nat n /\ Z.to_nat (BAR_NUMBER offset) = n.
Proof.
  intros H. apply existsb_exists in H as (n & Hn & He). apply in_seq in Hn. apply Z.eqb_eq in He. unfold PCI0_BASE_ADDR0 in He. exists n. split; [lia |]. split; [lia |].
  unfold BAR_NUMBER, PCI0_BASE_ADDR0. rewrite He, Z.shiftr_div_pow2 by lia. replace (16 + 4 * Z.of_nat n - 16) with (Z.of_nat n * 4) by lia. change (2 ^ 2) with 4. rewrite Z.div_mul by lia. lia.
Qed.

Lemma write_ok h bars0 d o : device_ok h bars0 d -> plain_write o -> exists r t d' ch, pd_writeConfig h (fst o) (snd o) d = Ok (r, t, d', ch) /\ device_ok h bars0 d'.
Proof.
  intros Hd (a & n & r & Ea & En & Er & Hv & Hoff & Hro & Hn). unfold pd_writeConfig. rewrite Ea. cbn [obind]. set (off := Z.land a PCIE_EXTENDED_CONFIG_SIZE) in *.
  assert (0 <= off) as Hpos by (apply Z.land_nonneg; right; done).
  assert (read_only (get HeaderType (config d)) off = false) as ->.
  { apply not_elem_of_cons in Hro as [N1 Hro]. apply not_elem_of_cons in Hro as [N2 Hro]. apply not_elem_of_cons in Hro as [N3 Hro]. apply not_elem_of_cons in Hro as [N4 Hro]. apply not_elem_of_cons in Hro as [N5 _].
    unfold read_only, PCI0_INTERRUPT_PIN, PCI0_MINIMUM_GRANT, PCI0_MAXIMUM_LATENCY, PCI_CLASS_CODE, PCI_REVISION_ID. apply Z.eqb_neq in N1, N2, N3, N4, N5. rewrite N1, N2, N3, N4, N5. cbn [orb]. by rewrite !andb_false_r. }
  cbn [panic_if obind]. rewrite En. cbn [obind]. unfold PCI_DEVICE_SPECIFIC. destruct (Z.leb_spec 64 off); [lia |].
  assert (forall m v, (m = 1 \/ m = 2)%nat -> (off + Z.of_nat m <= 16 \/ 40 <= off) -> device_ok h bars0 (set_config (store m (Z.to_nat off) v (config d)) d)) as Hst.
  { intros m v Hm Ho. pose proof (do_config _ _ _ Hd) as Hc. apply config_changed; [done | apply store_length; lia |]. intros i Hi. unfold get, baseAddr. cbn [fst snd]. apply load_store_other; lia. }
  destruct Hn as [-> | [[-> | ->] Ho]]; cbn [Z.eqb Pos.eqb].
  - unfold pd_write32. destruct (is_bar_offset off) eqn:Eb.
    + apply is_bar_offset_spec in Eb as (i & Hi & _ & ->). destruct (bar_ok h bars0 d i (snd o) Hd Hi Hv) as (x & bars & -> & _ & _ & Hd'). cbn [obind]. rewrite Er. cbn [obind]. by do 4 eexists.
    + destruct (off =? PCI0_ROM_BASE_ADDR); [| destruct (off =? PCI_COMMAND)]; cbn [obind]; rewrite Er; cbn [obind]; do 4 eexists; (split; [done |]); try (apply put_ok; [done | unfold outside_bars; cbn; lia | cbn; lia]); done.
  - cbn [obind]. rewrite Er. cbn [obind]. do 4 eexists. split; [done |]. unfold pd_write8. destruct (off =? PCI0_INTERRUPT_LINE); [| destruct (off =? PCI_CACHE_LINE_SIZE); [| destruct (off =? PCI_LATENCY_TIMER)]]; [apply put_ok; [done | unfold outside_bars; cbn; lia | cbn; lia] .. | apply Hst; [by left | lia]].
  - cbn [obind]. unfold pd_write16. destruct (off =? PCI_COMMAND); [| destruct (off =? PCI_STATUS); [| destruct (off =? PCI_CACHE_LINE_SIZE)]]; rewrite Er; cbn [obind]; do 4 eexists; (split; [done |]); [apply put_ok; [done | unfold outside_bars; cbn; lia | cbn; lia] .. | apply Hst; [by right | lia]].
Qed.

Lemma cfg_run_ok h bars0 os : Forall plain_write os -> forall d, device_ok h bars0 d -> exists d', cfg_run h os d = Ok d' /\ device_ok h bars0 d'.
Proof.
  induction 1 as [| [pkt val] os Ho _ IH]; intros d Hd; [by exists d |]. cbn [cfg_run]. destruct (write_ok h bars0 d _ Hd Ho) as (r & t & d' & ch & E & Hd'). cbn [fst snd] in E. rewrite E. cbn [obind]. by apply IH.
Qed.

(** * What the bytes of configuration space say *)

(** The address and the range of register [n] of a device with the registers [bars], by the
    bytes [c] alone. *)
Definition spec_addr (h : PciSpaces) (c : list Z) (bars : list PciBar) (n : nat) (b : PciBar) : Z :=
  match bar_class_of b with
  | PciBarNone | PciMemUpperBar _ => 0
  | PciIoBar => pioAddr h (bar_base 2 (get (baseAddr n) c))
  | PciLegacyIoBar fixedAddr => pioAddr h fixedAddr
  | PciMemBar _ _ _ => memAddr h (u64 ((if upper_at bars (S n) then Z.shiftl (get (baseAddr (S n)) c) 32 else 0) + bar_base 3 (get (baseAddr n) c)))
  end.
Definition spec_range (h : PciSpaces) (c : list Z) (bars : list PciBar) (n : nat) (b : PciBar) : AddrRange :=
  RangeEx (spec_addr h c bars n b) (u64 (spec_addr h c bars n b + bar_size b)).
Definition spec_ranges (h : PciSpaces) (c : list Z) (bars : list PciBar) : list AddrRange :=
  let command := get Command_ c in
  concat (imap (fun n b => (if ioSpace command && isIo b then [spec_range h c bars n b] else []) ++ (if memorySpace command && isMem b then [spec_range h c bars n b] else [])) bars).

Lemma bar_spec h bars0 d n b0 b : device_ok h bars0 d -> bars0 !! n = Some b0 -> BARs d !! n = Some b -> bar_range b = spec_range h (config d) bars0 n b0 /\ bar_addr b = spec_addr h (config d) bars0 n b0 /\ isIo b = isIo b0 /\ isMem b = isMem b0.
Proof.
  intros [Hc Hlen Hl Hd Hk] H0 Hb. destruct (Forall2_lookup_lr _ _ _ _ _ _ Hk H0 Hb) as [Hsize Hclass]. pose proof (lookup_lt_Some _ _ _ Hb) as Hn. rewrite Hlen in Hn.
  specialize (Hd n b Hb). rewrite decide_True in Hd by done. destruct Hd as [Ha _]. specialize (Hl n b Hb).
  assert (bar_addr b = spec_addr h (config d) bars0 n b0) as Hsa.
  { rewrite Ha. unfold decoded, spec_addr. destruct (bar_class_of b0), (bar_class_of b) as [| | | w lo up |]; try done; try congruence.
    unfold upper_word. rewrite Hl, (proj1 (kinds_at _ _ (S n) Hk)). destruct (upper_at bars0 (S n)) eqn:Eu; [| by rewrite andb_false_r]. rewrite andb_true_r. rewrite bool_decide_eq_true_2; [done |].
    unfold upper_at in Eu. destruct (bars0 !! S n) eqn:E0; [| done]. apply lookup_lt_Some in E0. by rewrite (Forall2_length _ _ _ Hk), Hlen in E0. }
  unfold bar_range, spec_range, isIo, isMem. rewrite Hsa, Hsize. destruct (bar_class_of b0), (bar_class_of b); try done; try congruence.
Qed.

Lemma ranges_spec h bars0 d : device_ok h bars0 d -> pd_getAddrRanges d = spec_ranges h (config d) bars0.
Proof.
  intros Hd. unfold pd_getAddrRanges, spec_ranges. rewrite flat_map_concat_map. f_equal. apply list_eq. intros n. rewrite list_lookup_fmap, list_lookup_imap. pose proof (Forall2_length _ _ _ (do_kinds _ _ _ Hd)) as Hl.
  destruct (bars0 !! n) as [b0 |] eqn:E0.
  - destruct (lookup_lt_is_Some_2 (BARs d) n) as [b Hb]; [apply lookup_lt_Some in E0; lia |]. rewrite Hb. cbn. destruct (bar_spec h bars0 d n b0 b Hd E0 Hb) as (-> & _ & -> & ->). done.
  - apply lookup_ge_None in E0. by rewrite (proj2 (lookup_ge_None (BARs d) n)) by lia.
Qed.

(** The register that decodes an address is the first whose range has it. *)
Lemma getBAR_loop_spec addr bars : forall i, match getBAR_loop i addr bars with
  | Some (n, offs) => exists b, bars !! (n - i)%nat = Some b /\ (i <= n)%nat /\ contains (bar_range b) addr = true /\ offs = u64 (addr - bar_addr b) /\ forall j b', (j < n - i)%nat -> bars !! j = Some b' -> contains (bar_range b') addr = false
  | None => forall j b', bars !! j = Some b' -> contains (bar_range b') addr = false
  end.
Proof.
  induction bars as [| b bars IH]; intros i; cbn [getBAR_loop]; [intros j b' H; by rewrite lookup_nil in H |]. destruct (contains (bar_range b) addr) eqn:Ec.
  - exists b. rewrite Nat.sub_diag. split; [done |]. split; [done |]. split; [done |]. split; [done | lia].
  - specialize (IH (S i)). destruct (getBAR_loop (S i) addr bars) as [[n offs] |].
    + destruct IH as (b' & Hb' & Hn & Hc & Ho & Hbefore). exists b'. replace (n - i)%nat with (S (n - S i)) by lia. split; [done |]. split; [lia |]. split; [done |]. split; [done |].
      intros [| j] x Hj Hx; [injection Hx as <-; done | apply (Hbefore j); [lia | done]].
    + intros [| j] x Hx; [injection Hx as <-; done | by apply (IH j)].
Qed.

(** C25: a PCI device answers exactly what its configuration space says.  After every history
    of writes to its header that a driver makes (no read-only registers, base address
    registers as a whole), which all succeed, the ranges it announces are those that the
    bytes of its configuration space and the kinds of its base address registers describe:
    none that the command register has switched off, the two halves of a wide register put
    together, the flags cut off; and an address is decoded by the first register whose range
    has it. *)
Theorem device_decodes_config h garbage p d0 os : length garbage = 4096%nat -> length (p_BARs p) = 6%nat -> Forall fresh_bar (p_BARs p) -> (p_PXCAPBaseOffset p = 0 \/ 64 <= p_PXCAPBaseOffset p) ->
  init_PciDevice h garbage p = Ok d0 -> Forall plain_write os ->
  exists d, cfg_run h os d0 = Ok d /\ pd_getAddrRanges d = spec_ranges h (config d) (p_BARs p) /\
    (forall addr, match getBAR addr d with
      | Some (n, offs) => exists b, p_BARs p !! n = Some b /\ contains (spec_range h (config d) (p_BARs p) n b) addr = true /\ offs = u64 (addr - spec_addr h (config d) (p_BARs p) n b) /\
          forall j b', (j < n)%nat -> p_BARs p !! j = Some b' -> contains (spec_range h (config d) (p_BARs p) j b') addr = false
      | None => forall j b', p_BARs p !! j = Some b' -> contains (spec_range h (config d) (p_BARs p) j b') addr = false
      end).
Proof.
  intros Hg Hlen Hf Hpx E0 Hos. pose proof (init_ok h garbage p d0 Hg Hlen Hf Hpx E0) as H0. destruct (cfg_run_ok h _ os Hos d0 H0) as (d & E & Hd). exists d. split; [done |]. split; [by apply ranges_spec |].
  assert (forall j b', p_BARs p !! j = Some b' -> exists b, BARs d !! j = Some b /\ bar_range b = spec_range h (config d) (p_BARs p) j b' /\ bar_addr b = spec_addr h (config d) (p_BARs p) j b') as Hbar.
  { intros j b' Hb'. destruct (Forall2_lookup_l _ _ _ _ _ (do_kinds _ _ _ Hd) Hb') as (b & Hb & _). exists b. split; [done |]. destruct (bar_spec _ _ _ _ _ _ Hd Hb' Hb) as (A & B & _). done. }
  intros addr. unfold getBAR. pose proof (getBAR_loop_spec addr (BARs d) 0) as Hs. destruct (getBAR_loop 0 addr (BARs d)) as [[n offs] |].
  - destruct Hs as (b & Hb & _ & Hc & Ho & Hbefore). rewrite Nat.sub_0_r in *. destruct (Forall2_lookup_r _ _ _ _ _ (do_kinds _ _ _ Hd) Hb) as (b0 & Hb0 & _). destruct (Hbar n b0 Hb0) as (b' & Hb' & Er & Ea). rewrite Hb in Hb'. injection Hb' as <-.
    exists b0. rewrite <- Er, <- Ea. split; [done |]. split; [done |]. split; [done |]. intros j x Hj Hx. destruct (Hbar j x Hx) as (y & Hy & <- & _). by apply (Hbefore j).
  - intros j x Hx. destruct (Hbar j x Hx) as (y & Hy & <- & _). by apply (Hs j).
Qed.

(** * Sizing a memory register *)

Lemma bar_masked_pow val k i : in_width 32 val -> 0 <= k < 64 -> 0 <= i < 32 -> Z.testbit (bar_masked val (2 ^ k)) i = negb (i <? k) && Z.testbit val i.
Proof.
  intros Hv Hk Hi. unfold bar_masked. rewrite (wrap_small 64 (2 ^ k - 1)) by (unfold in_width; pose proof (Z.pow_le_mono_r 2 k 63); lia). replace (2 ^ k - 1) with (Z.ones k) by (rewrite Z.ones_equiv; lia).
  rewrite wrap_testbit, Z.land_spec, wnot_testbit, ones_testbit by lia. destruct (Z.ltb_spec i 32), (Z.ltb_spec i 64), (Z.ltb_spec i k); try lia; cbn; rewrite ?andb_false_r, ?andb_true_r; done.
Qed.

(** What is read back is what was written, cut to a multiple of the size, with the flags. *)
Lemma mem_value_pow val k wide r : in_width 32 val -> 3 <= k < 32 -> mem_value val (2 ^ k) wide r -> r = bar_base k val + (if wide then 4 else 0).
Proof.
  intros Hv Hk [Hr Hb]. assert (bar_base k val + (if wide then 4 else 0) = Z.lor (bar_base k val) (if wide then 4 else 0)) as ->.
  { assert (Z.land (bar_base k val) (if wide then 4 else 0) = 0) as H0; [| by rewrite (Z.add_nocarry_lxor _ _ H0), (Z.lxor_lor _ _ H0)]. destruct wide; [| apply Z.land_0_r]. apply Z.bits_inj'. intros i Hi.
    rewrite Z.land_spec, Z.bits_0. change 4 with (2 ^ 2). rewrite Z.pow2_bits_eqb by lia. destruct (Z.eqb_spec 2 i) as [<- |]; [unfold bar_base; rewrite Z.shiftl_spec_low by lia; done | apply andb_false_r]. }
  apply Z.bits_inj'. intros i Hi. rewrite Z.lor_spec. unfold bar_base. destruct (Z.ltb_spec i 32) as [H32 | H32].
  - rewrite Hb by lia. destruct (Z.ltb_spec i 3) as [H3 | H3].
    + rewrite Z.shiftl_spec_low by lia. cbn [orb]. destruct wide; [change 4 with (2 ^ 2); rewrite Z.pow2_bits_eqb by lia; rewrite andb_true_r; apply Z.eqb_sym | by rewrite Z.bits_0, andb_false_r].
    + assert (Z.testbit (if wide then 4 else 0) i = false) as -> by (destruct wide; [change 4 with (2 ^ 2); apply Z.pow2_bits_false; lia | apply Z.bits_0]). rewrite orb_false_r, bar_masked_pow by (done || lia).
      destruct (Z.ltb_spec i k); [by rewrite Z.shiftl_spec_low by lia |]. rewrite Z.shiftl_spec, Z.shiftr_spec by lia. cbn. f_equal. lia.
  - rewrite (in_width_testbit 32 r i) by (done || lia). assert (Z.testbit (if wide then 4 else 0) i = false) as -> by (destruct wide; [change 4 with (2 ^ 2); apply Z.pow2_bits_false; lia | apply Z.bits_0]).
    rewrite Z.shiftl_spec, Z.shiftr_spec by lia. rewrite (in_width_testbit 32 val) by (done || lia). done.
Qed.

Lemma bar_base_mod k x : 0 <= k -> bar_base k x = x - x mod 2 ^ k.
Proof. intros Hk. unfold bar_base. rewrite Z.shiftl_mul_pow2, Z.shiftr_div_pow2 by lia. pose proof (Z.div_mod x (2 ^ k)). lia. Qed.

(** A register of the memory space after a write, as the bytes and the register see it. *)
Lemma mem_bar_written h bars0 d n b0 k val : device_ok h bars0 d -> bars0 !! n = Some b0 -> isMem b0 = true -> bar_size b0 = 2 ^ k -> 3 <= k < 32 -> in_width 32 val ->
  exists r bars, bar_write_at h n val (BARs d) = Ok (r, bars) /\ r = bar_base k val + (if upper_at bars0 (S n) then 4 else 0) /\ in_width 32 r /\ device_ok h bars0 (set_BARs bars (set_config (put (baseAddr n) r (config d)) d)).
Proof.
  intros Hd H0 Hm Hs Hk Hv. pose proof Hd as [Hc Hlen Hl Hdec Hkk]. destruct (Forall2_lookup_l _ _ _ _ _ Hkk H0) as (b & Hb & Hsize & Hclass). pose proof (lookup_lt_Some _ _ _ Hb) as Hn. rewrite Hlen in Hn.
  destruct (bar_ok h bars0 d n val Hd Hn Hv) as (r & bars & E & Hr & _ & Hd'). exists r, bars. split; [done |]. split; [| done]. unfold bar_write_at in E. rewrite Hb in E. unfold isMem in Hm. specialize (Hl n b Hb).
  destruct (bar_class_of b0) as [| | | w0 lo0 up0 |]; try done. destruct (bar_class_of b) as [| | | w lo up |]; try done. destruct (memBar_write_ok h val w up b) as (r' & E' & Hv'). rewrite E' in E. cbn [obind] in E. injection E as <- _.
  rewrite Hsize, Hs in Hv'. rewrite (mem_value_pow val k w r' Hv Hk Hv'). rewrite Hl, (proj1 (kinds_at _ _ (S n) Hkk)). destruct (upper_at bars0 (S n)) eqn:Eu; [| by rewrite andb_false_r]. rewrite bool_decide_eq_true_2; [done |].
  unfold upper_at in Eu. destruct (bars0 !! S n) eqn:E1; [| done]. apply lookup_lt_Some in E1. by rewrite (Forall2_length _ _ _ Hkk), Hlen in E1.
Qed.

Lemma all_ones_size k (wide : bool) : 4 <= k < 32 -> 2 ^ 32 - Z.land (bar_base k 0xFFFFFFFF + (if wide then 4 else 0)) 0xFFFFFFF0 = 2 ^ k.
Proof.
  intros Hk. rewrite bar_base_mod by lia. assert (2 ^ 32 = 2 ^ k * 2 ^ (32 - k)) as E by (rewrite <- Z.pow_add_r by lia; f_equal; lia). assert (0 < 2 ^ k) by (apply Z.pow_pos_nonneg; lia).
  assert (0xFFFFFFFF mod 2 ^ k = 2 ^ k - 1) as ->. { replace 0xFFFFFFFF with (2 ^ k - 1 + (2 ^ (32 - k) - 1) * 2 ^ k) by lia. rewrite Z.mod_add by lia. apply Z.mod_small. lia. }
  replace (0xFFFFFFFF - (2 ^ k - 1)) with (2 ^ 32 - 2 ^ k) by lia. assert (2 ^ k = 16 * 2 ^ (k - 4)) as Ek by (change 16 with (2 ^ 4); rewrite <- Z.pow_add_r by lia; f_equal; lia).
  set (x := 2 ^ 32 - 2 ^ k + (if wide then 4 else 0)). assert (0 <= x < 2 ^ 32) as Hx by (pose proof (Z.pow_lt_mono_r 2 k 32); unfold x; destruct wide; lia).
  assert (Z.land x 0xFFFFFFF0 = bar_base 4 x) as ->.
  { apply Z.bits_inj'. intros i Hi. rewrite Z.land_spec. unfold bar_base. change 0xFFFFFFF0 with (Z.shiftl (Z.ones 28) 4). destruct (Z.ltb_spec i 4); [rewrite !Z.shiftl_spec_low by lia; apply andb_false_r |].
    rewrite !Z.shiftl_spec, Z.shiftr_spec, ones_testbit by lia. replace (i - 4 + 4) with i by lia. destruct (Z.ltb_spec (i - 4) 28); [by rewrite andb_true_r |]. rewrite (in_width_testbit 32 x i) by (done || lia). done. }
  rewrite bar_base_mod by lia. unfold x. replace (2 ^ 32 - 2 ^ k + (if wide then 4 else 0)) with ((if wide then 4 else 0) + (2 ^ 28 - 2 ^ (k - 4)) * 2 ^ 4) at 2 by lia. rewrite Z.mod_add by lia.
  rewrite Z.mod_small by (destruct wide; lia). lia.
Qed.

(** * Examples *)

Definition ex_spaces : PciSpaces := mkSpaces 0x2F000000 0x40000000 0.
Definition ex_bars : list PciBar :=
  match new_PciMemBar 4096, new_PciIoBar 256, new_PciMemBar 65536 with
  | Ok m, Ok i, Ok w => [m; i; w; new_PciMemUpperBar; new_PciBarNone; new_PciBarNone]
  | _, _, _ => []
  end.
Definition ex_params : PciDeviceParams :=
  mkPciDeviceParams (mkBusAddr 0 4 1 0) 0x8086 0x10D3 0 0 0 0 0 2 0 0 0 0 0 0x8086 0x1075 0 0 0x1f 1 0 0 ex_bars 0 [] 30 0.
Definition ex_device : outcome PciDevice := init_PciDevice ex_spaces (replicate 4096 0xA5) ex_params.
Definition cfg_write_pkt (a n : Z) : Packet := mkPacket 0 WriteReq 0x300 a false n 0 0 0 [] (new_Request 1).
Definition cfg_read_pkt (a n : Z) : Packet := mkPacket 0 ReadReq 0x300 a false n 0 0 0 [] (new_Request 2).

(** The memory registers are sized and placed, the wide one above 4 GB, and switched on. *)
Definition ex_writes : list (Packet * Z) :=
  [(cfg_write_pkt 0x10 4, 0xFFFFFFFF); (cfg_write_pkt 0x10 4, 0x1000); (cfg_write_pkt 0x18 4, 0x50000); (cfg_write_pkt 0x1C 4, 1); (cfg_write_pkt 0x14 4, 0x300); (cfg_write_pkt 0x04 2, 2)].

Example ex_ranges : (let! d := ex_device in let! d := cfg_run ex_spaces ex_writes d in Ok (pd_getAddrRanges d, getBAR 0x40001004 d)) =
  Ok ([RangeEx 0x40001000 0x40002000; RangeEx 0x140050000 0x140060000], Some (0%nat, 4)).
Proof. vm_compute. reflexivity. Qed.

(** The checkpoint of a device puts a new one at the same addresses. *)
Example ex_restored : (let! d0 := ex_device in let! d := cfg_run ex_spaces ex_writes d0 in let! d1 := restore_config ex_spaces (config d) d0 in Ok (bool_decide (pd_getAddrRanges d1 = pd_getAddrRanges d))) = Ok true.
Proof. vm_compute. reflexivity. Qed.

Lemma ex_plain : Forall plain_write ex_writes.
Proof.
  repeat (apply Forall_cons; split; [do 3 eexists; split; [reflexivity |]; split; [reflexivity |]; split; [reflexivity |]; split; [split; [discriminate | reflexivity] |]; split; [reflexivity |];
    split; [apply (bool_decide_unpack _); vm_compute; exact I | first [left; reflexivity | right; split; [right; reflexivity | left; discriminate]]] |]). constructor.
Qed.

Lemma device_decodes_config_witness : exists d0, ex_device = Ok d0 /\ exists d, cfg_run ex_spaces ex_writes d0 = Ok d /\ pd_getAddrRanges d = spec_ranges ex_spaces (config d) ex_bars /\
  (forall addr, match getBAR addr d with
    | Some (n, offs) => exists b, ex_bars !! n = Some b /\ contains (spec_range ex_spaces (config d) ex_bars n b) addr = true /\ offs = u64 (addr - spec_addr ex_spaces (config d) ex_bars n b) /\
        forall j b', (j < n)%nat -> ex_bars !! j = Some b' -> contains (spec_range ex_spaces (config d) ex_bars j b') addr = false
    | None => forall j b', ex_bars !! j = Some b' -> contains (spec_range ex_spaces (config d) ex_bars j b') addr = false
    end).
Proof.
  destruct ex_device as [d0 |] eqn:E; [| vm_compute in E; done]. exists d0. split; [done |]. apply (device_decodes_config ex_spaces (replicate 4096 0xA5) ex_params d0 ex_writes).
  - apply length_replicate.
  - done.
  - repeat constructor.
  - by left.
  - exact E.
  - exact ex_plain.
Defined.

(** A write of one byte changes the bytes of a base address register but not what it decodes. *)
Example ex_byte_write : (let! d := ex_device in let! d := cfg_run ex_spaces (ex_writes ++ [(cfg_write_pkt 0x12 1, 0xC0)]) d in Ok (get (baseAddr 0) (config d), pd_getAddrRanges d)) =
  Ok (0xC01000, [RangeEx 0x40001000 0x40002000; RangeEx 0x140050000 0x140060000]).
Proof. vm_compute. reflexivity. Qed.

(** Behind the header a write goes to an object that is gone. *)
Example ex_capability_write : (let! d := ex_device in let! (_, _, d, _) := pd_writeConfig ex_spaces (cfg_write_pkt 0xE8 2) 0 d in Ok d) = Err Undefined.
Proof. vm_compute. reflexivity. Qed.
