(* ===== verification/PciHost.v ===== *)
(** The PCI host: configuration accesses to devices and bridges, classes [PciHost] and
    [GenericPciHost] of [src/gem5/src/dev/pci/host.cc] and [host.hh], with the devices of
    [PciDevice] and the bridge ports of [BridgeConfig] behind it.

    Devices and bridges are numbered; a host maps positions on the bus to their numbers, and
    the system holds the objects. *)
From Stdlib Require Import ZArith Lia.
From stdpp Require Import base numbers list gmap.
From S2P Require Import Prelude BitField IntMath AddrRange MemPacket BridgeConfig PciDevice.

Open Scope Z_scope.

(** [uint32_t PciBusAddr::sortValue() const], by which positions are compared. *)
Definition sortValue (a : PciBusAddr) : Z := u32 (Z.lor (Z.lor (Z.shiftl (bus a) 16) (Z.shiftl (dev a) 8)) (func a)).

Record PciHost : Type := mkPciHost {
  host_spaces : PciSpaces;
  confBase : Z;
  confSize : Z;
  confDeviceBits : Z;
  devices : gmap Z nat;
  bridges : gmap Z nat;
}.

Inductive PciIntPin : Type := NO_INT | INTA | INTB | INTC | INTD.

(** What a device gets from its host. *)
Record DeviceInterface : Type := mkInterface { di_busAddr : PciBusAddr; di_interruptPin : PciIntPin }.

(** [registerDevice(device, bus_addr, pin)] and [registerBridge(bridge, bus_Addr)]. *)
Definition registerDevice (i : nat) (a : PciBusAddr) (pin : PciIntPin) (h : PciHost) : outcome (DeviceInterface * PciHost) :=
  do! fatal_if (bool_decide (is_Some (devices h !! sortValue a))) then
  Ok (mkInterface a pin, mkPciHost (host_spaces h) (confBase h) (confSize h) (confDeviceBits h) (<[sortValue a := i]> (devices h)) (bridges h)).
Definition registerBridge (i : nat) (a : PciBusAddr) (h : PciHost) : outcome PciHost :=
  do! fatal_if (bool_decide (is_Some (bridges h !! sortValue a))) then
  Ok (mkPciHost (host_spaces h) (confBase h) (confSize h) (confDeviceBits h) (devices h) (<[sortValue a := i]> (bridges h))).
Definition getDevice (a : PciBusAddr) (h : PciHost) : option nat := devices h !! sortValue a.
Definition getBridge (a : PciBusAddr) (h : PciHost) : option nat := bridges h !! sortValue a.

(** [GenericPciHost(const GenericPciHostParams &p)]. *)
Definition new_GenericPciHost (conf_base conf_size conf_device_bits pio_base mem_base dma_base : Z) : PciHost :=
  mkPciHost (mkSpaces pio_base mem_base dma_base) conf_base conf_size conf_device_bits ∅ ∅.

(** [AddrRangeList getAddrRanges() const]. *)
Definition host_getAddrRanges (h : PciHost) : list AddrRange := [RangeSize (confBase h) (confSize h)].

(** [std::pair<PciBusAddr, Addr> decodeAddress(Addr addr)]. *)
Definition decodeAddress (a : Z) (h : PciHost) : outcome (PciBusAddr * Z) :=
  let offset := Z.land a (mask (confDeviceBits h)) in
  if 64 <=? confDeviceBits h then Err Undefined else
  let bus_addr := Z.shiftr a (confDeviceBits h) in
  let! b := bits bus_addr 15 8 in
  let! d := bits bus_addr 7 3 in
  let! f := bits bus_addr 2 0 in
  Ok (mkBusAddr b d f 0, offset).

(** The host and the objects behind it. *)
Record PciSystem : Type := mkSystem { host : PciHost; devs : list PciDevice; ports : list config_class }.
Definition set_host (v : PciHost) (s : PciSystem) : PciSystem := mkSystem v (devs s) (ports s).
Definition set_devs (v : list PciDevice) (s : PciSystem) : PciSystem := mkSystem (host s) v (ports s).
Definition set_ports (v : list config_class) (s : PciSystem) : PciSystem := mkSystem (host s) (devs s) v.

Definition the_device (i : nat) (s : PciSystem) : outcome PciDevice := match devs s !! i with Some d => Ok d | None => Err Undefined end.
Definition the_port (j : nat) (s : PciSystem) : outcome config_class := match ports s !! j with Some c => Ok c | None => Err Undefined end.

(** The constructor of a device, which registers itself first. *)
Definition new_PciDevice (garbage : list Z) (p : PciDeviceParams) (pin : PciIntPin) (s : PciSystem) : outcome (DeviceInterface * PciSystem) :=
  let! (di, h) := registerDevice (length (devs s)) (p_busAddr p) pin (host s) in
  let! d := init_PciDevice (host_spaces h) garbage p in
  Ok (di, mkSystem h (devs s ++ [d]) (ports s)).

(** [Tick read(PacketPtr pkt)]: the response, the value of its data and the delay. *)
Definition host_read (pkt : Packet) (s : PciSystem) : outcome (Packet * Z * Z) :=
  let! a := getAddr pkt in
  let! (dev_addr, _) := decodeAddress (u64 (a - confBase (host s))) (host s) in
  let! n := getSize pkt in
  match getDevice dev_addr (host s) with
  | Some i => let! d := the_device i s in pd_readConfig (clear_delays pkt) d
  | None =>
      match getBridge dev_addr (host s) with
      | Some j => let! c := the_port j s in readConfig (clear_delays pkt) c
      | None => let! r := makeResponse pkt in Ok (r, 2 ^ (8 * n) - 1, 0)
      end
  end.

(** Who announces other ranges. *)
Inductive announcement : Type := FromDevice (i : nat) | FromBridge (j : nat) (p : SlavePortID).

(** [Tick write(PacketPtr pkt)], with [val] the value of the packet's data. *)
Definition host_write (pkt : Packet) (val : Z) (s : PciSystem) : outcome (Packet * Z * PciSystem * list announcement) :=
  let! a := getAddr pkt in
  let! (dev_addr, _) := decodeAddress (u64 (a - confBase (host s))) (host s) in
  let pkt := clear_delays pkt in
  match getBridge dev_addr (host s) with
  | Some j =>
      let! c := the_port j s in
      let! (r, t, c, ann) := writeConfig pkt val c in
      Ok (r, t, set_ports (<[j := c]> (ports s)) s, map (FromBridge j) ann)
  | None =>
      match getDevice dev_addr (host s) with
      | None => Err Panic
      | Some i =>
          let! d := the_device i s in
          let! (r, t, d, ch) := pd_writeConfig (host_spaces (host s)) pkt val d in
          Ok (r, t, set_devs (<[i := d]> (devs s)) s, if ch : bool then [FromDevice i] else [])
      end
  end.

(** [uint32_t mapPciInterrupt(const PciBusAddr &addr, PciIntPin pin) const], the line that
    [postInt] and [clearInt] pass to the platform. *)
Definition mapPciInterrupt (a : PciBusAddr) (s : PciSystem) : outcome Z :=
  match getDevice a (host s) with Some i => let! d := the_device i s in Ok (interruptLine d) | None => Err AssertFail end.
Definition postInt (di : DeviceInterface) (s : PciSystem) : outcome Z := mapPciInterrupt (di_busAddr di) s.

(** * Configuration addresses *)

(** Where the registers of a function are, with 4096 bytes for each function. *)
Definition ecam (a : PciBusAddr) (offset : Z) : Z := (bus a * 256 + dev a * 8 + func a) * 4096 + offset.
Definition on_the_bus (a : PciBusAddr) : Prop := 0 <= bus a < 256 /\ 0 <= dev a < 32 /\ 0 <= func a < 8 /\ root_port_number a = 0.

Lemma decode_ecam h a offset : on_the_bus a -> 0 <= offset < 4096 -> confDeviceBits h = 12 -> decodeAddress (ecam a offset) h = Ok (a, offset).
Proof.
  intros (Hb & Hd & Hf & Hr) Ho H12. unfold decodeAddress. rewrite H12. cbn [Z.leb Z.compare Pos.compare Pos.compare_cont]. rewrite mask_ones, Z.min_l, Z.land_ones, Z.shiftr_div_pow2 by lia. rewrite !bits_divmod by lia. cbn [obind].
  unfold ecam. change (2 ^ 12) with 4096. set (x := bus a * 256 + dev a * 8 + func a). rewrite Z.div_add_l, (Z.div_small offset), Z.add_0_r by lia. rewrite (Z.add_comm (x * 4096) offset), Z.mod_add, (Z.mod_small offset) by lia. subst x. destruct a as [b d f r]. cbn in *. subst r. f_equal. f_equal.
  f_equal; [change (2 ^ 8) with 256 | change (2 ^ 3) with 8 | ].
  - replace (b * 256 + d * 8 + f) with (d * 8 + f + b * 256) by lia. rewrite Z.div_add, Z.div_small, Z.add_0_l by lia. apply Z.mod_small. done.
  - replace (b * 256 + d * 8 + f) with (f + (b * 32 + d) * 8) by lia. rewrite Z.div_add, Z.div_small, Z.add_0_l by lia. change (2 ^ (7 - 3 + 1)) with 32. rewrite (Z.add_comm (b * 32) d), Z.mod_add by lia. by apply Z.mod_small.
  - change (2 ^ 0) with 1. rewrite Z.div_1_r. change (2 ^ (2 - 0 + 1)) with 8. replace (b * 256 + d * 8 + f) with (f + (b * 32 + d) * 8) by lia. rewrite Z.mod_add by lia. by apply Z.mod_small.
Qed.

(** Two functions of the bus have different keys. *)
Lemma sortValue_inj a a' : on_the_bus a -> on_the_bus a' -> sortValue a = sortValue a' -> a = a'.
Proof.
  assert (forall x, on_the_bus x -> sortValue x = bus x * 65536 + dev x * 256 + func x) as Hs.
  { intros [b d f r] (Hb & Hd & Hf & Hr). cbn in *. unfold sortValue. cbn. assert (Z.lor (Z.shiftl b 16) (Z.shiftl d 8) = b * 65536 + d * 256) as ->.
    { rewrite !Z.shiftl_mul_pow2 by lia. change (2 ^ 16) with 65536. change (2 ^ 8) with 256. assert (Z.land (b * 65536) (d * 256) = 0) as H0; [| by rewrite <- (Z.lxor_lor _ _ H0), <- (Z.add_nocarry_lxor _ _ H0)].
      apply Z.bits_inj'. intros i Hi. rewrite Z.land_spec, Z.bits_0. change 65536 with (2 ^ 16). destruct (Z.ltb_spec i 16); [by rewrite Z.mul_pow2_bits_low by lia |].
      rewrite (in_width_testbit 16 (d * 256) i) by (unfold in_width; lia). apply andb_false_r. }
    assert (Z.lor (b * 65536 + d * 256) f = b * 65536 + d * 256 + f) as ->.
    { assert (Z.land (b * 65536 + d * 256) f = 0) as H0; [| by rewrite <- (Z.lxor_lor _ _ H0), <- (Z.add_nocarry_lxor _ _ H0)]. apply Z.bits_inj'. intros i Hi. rewrite Z.land_spec, Z.bits_0.
      replace (b * 65536 + d * 256) with ((b * 256 + d) * 2 ^ 8) by lia. destruct (Z.ltb_spec i 8); [by rewrite Z.mul_pow2_bits_low by lia |]. rewrite (in_width_testbit 8 f i) by (unfold in_width; lia). apply andb_false_r. }
    apply wrap_small. unfold in_width. lia. }
  intros Ha Ha'. rewrite (Hs a Ha), (Hs a' Ha'). destruct Ha as (Hb & Hd & Hf & Hr), Ha' as (Hb' & Hd' & Hf' & Hr'). destruct a, a'. cbn in *. intros E. f_equal; lia.
Qed.

(** * Accesses through the host *)

(** A packet that asks for [n] bytes at [offset] of function [a]. *)
Definition config_access (h : PciHost) (a : PciBusAddr) (offset n : Z) (pkt : Packet) : Prop :=
  getAddr pkt = Ok (confBase h + ecam a offset) /\ getSize pkt = Ok n /\ exists r, makeResponse pkt = Ok r.

(** A host with 4096 bytes for each function, whose window fits. *)
Definition ecam_host (h : PciHost) : Prop := confDeviceBits h = 12 /\ confBase h mod 4096 = 0 /\ 0 <= confBase h /\ confBase h + 2 ^ 28 <= 2 ^ 64.

Lemma access_clear h a offset n pkt : config_access h a offset n pkt -> config_access h a offset n (clear_delays pkt).
Proof.
  intros (Ha & Hn & r & Hr). split; [exact Ha |]. split; [exact Hn |]. unfold makeResponse in *. cbn [cmd clear_delays] in *.
  destruct (needsResponse (cmd pkt)); [| done]. destruct (isRequest (cmd pkt)); [| done]. by eexists.
Qed.

Lemma access_decodes h a offset : ecam_host h -> on_the_bus a -> 0 <= offset < 4096 -> decodeAddress (u64 (confBase h + ecam a offset - confBase h)) h = Ok (a, offset).
Proof.
  intros (H12 & _) Ha Ho. replace (confBase h + ecam a offset - confBase h) with (ecam a offset) by lia. pose proof Ha as (Hb & Hd & Hf & _). rewrite wrap_small by (unfold in_width, ecam; lia). by apply decode_ecam.
Qed.

Lemma access_offset h a offset : ecam_host h -> on_the_bus a -> 0 <= offset < 4096 -> Z.land (confBase h + ecam a offset) PCIE_EXTENDED_CONFIG_SIZE = offset.
Proof.
  intros (_ & Hal & H0 & _) (Hb & Hd & Hf & _) Ho. unfold PCIE_EXTENDED_CONFIG_SIZE. change 0xFFF with (Z.ones 12). rewrite Z.land_ones by lia. change (2 ^ 12) with 4096. unfold ecam.
  pose proof (Z.div_mod (confBase h) 4096 ltac:(lia)) as E. rewrite Hal in E.
  replace (confBase h + ((bus a * 256 + dev a * 8 + func a) * 4096 + offset)) with (offset + (confBase h / 4096 + (bus a * 256 + dev a * 8 + func a)) * 4096) by lia.
  rewrite Z.mod_add by lia. by apply Z.mod_small.
Qed.

Lemma host_write_device s a i d offset n pkt val : ecam_host (host s) -> on_the_bus a -> 0 <= offset < 4096 -> getDevice a (host s) = Some i -> getBridge a (host s) = None -> devs s !! i = Some d ->
  config_access (host s) a offset n pkt ->
  host_write pkt val s = (let! (r, t, d, ch) := pd_writeConfig (host_spaces (host s)) (clear_delays pkt) val d in Ok (r, t, set_devs (<[i := d]> (devs s)) s, if ch : bool then [FromDevice i] else [])).
Proof. intros Hh Ha Ho Hd Hb Hi (Ea & _). unfold host_write. rewrite Ea. cbn [obind]. rewrite access_decodes by done. cbn [obind]. rewrite Hb, Hd. unfold the_device. by rewrite Hi. Qed.

Lemma host_read_device s a i d offset n pkt : ecam_host (host s) -> on_the_bus a -> 0 <= offset < 4096 -> getDevice a (host s) = Some i -> devs s !! i = Some d -> config_access (host s) a offset n pkt ->
  host_read pkt s = pd_readConfig (clear_delays pkt) d.
Proof. intros Hh Ha Ho Hd Hi (Ea & En & _). unfold host_read. rewrite Ea. cbn [obind]. rewrite access_decodes by done. cbn [obind]. rewrite En. cbn [obind]. rewrite Hd. unfold the_device. by rewrite Hi. Qed.

(** Reading and writing a base address register of the memory space. *)
Lemma device_reads_bar h a pkt d n : ecam_host h -> on_the_bus a -> (n < 6)%nat -> config_access h a (16 + 4 * Z.of_nat n) 4 pkt -> length (config d) = 4096%nat -> is_invisible d = 0 ->
  exists r, pd_readConfig pkt d = Ok (r, get (baseAddr n) (config d), pd_configDelay d).
Proof.
  intros Hh Ha Hn (Ea & En & r & Er) Hc Hinv. unfold pd_readConfig. rewrite Hinv, Ea, En. cbn [truthy Z.eqb negb obind]. rewrite access_offset by (done || lia). unfold read_at. rewrite Hc. destruct (Z.leb_spec (16 + 4 * Z.of_nat n + 4) (Z.of_nat 4096)); [| lia].
  change (cfg_size 4) with true. cbn [obind]. rewrite Er. cbn [obind]. exists r. unfold get, baseAddr. cbn [fst snd]. by replace (Z.to_nat (16 + 4 * Z.of_nat n)) with (16 + 4 * n)%nat by lia.
Qed.

Lemma bar_offset n : (n < 6)%nat -> is_bar_offset (16 + 4 * Z.of_nat n) = true /\ Z.to_nat (BAR_NUMBER (16 + 4 * Z.of_nat n)) = n.
Proof.
  intros Hn. split; [apply existsb_exists; exists n; split; [apply in_seq; lia | apply Z.eqb_eq; done] |]. unfold BAR_NUMBER, PCI0_BASE_ADDR0. replace (16 + 4 * Z.of_nat n - 16) with (Z.of_nat n * 2 ^ 2) by lia.
  rewrite Z.shiftr_div_pow2, Z.div_mul by lia. lia.
Qed.

Lemma device_writes_bar h hs a pkt val d bars0 n b k : ecam_host h -> on_the_bus a -> config_access h a (16 + 4 * Z.of_nat n) 4 pkt -> device_ok hs bars0 d -> bars0 !! n = Some b -> isMem b = true -> bar_size b = 2 ^ k -> 3 <= k < 32 -> in_width 32 val ->
  exists r t d', pd_writeConfig hs pkt val d = Ok (r, t, d', true) /\ device_ok hs bars0 d' /\ get (baseAddr n) (config d') = bar_base k val + (if upper_at bars0 (S n) then 4 else 0) /\
    (forall m, (m < 6)%nat -> m <> n -> get (baseAddr m) (config d') = get (baseAddr m) (config d)) /\ get Command_ (config d') = get Command_ (config d) /\ is_invisible d' = is_invisible d /\ pd_configDelay d' = pd_configDelay d.
Proof.
  intros Hh Ha (Ea & En & r & Er) Hd H0 Hm Hs Hk Hv. assert (n < 6)%nat as Hn by (pose proof (do_six _ _ _ Hd) as H6; rewrite <- (Forall2_length _ _ _ (do_kinds _ _ _ Hd)) in H6; apply lookup_lt_Some in H0; lia).
  destruct (mem_bar_written hs bars0 d n b k val Hd H0 Hm Hs Hk Hv) as (x & bars & Eb & Ex & Hx & Hd'). destruct (bar_offset n Hn) as [Hbo Hbn]. pose proof (do_config _ _ _ Hd) as Hc.
  unfold pd_writeConfig. rewrite Ea. cbn [obind]. rewrite access_offset by (done || lia). set (off := 16 + 4 * Z.of_nat n) in *.
  assert (read_only (get HeaderType (config d)) off = false) as ->.
  { unfold read_only, PCI0_INTERRUPT_PIN, PCI0_MINIMUM_GRANT, PCI0_MAXIMUM_LATENCY, PCI_CLASS_CODE, PCI_REVISION_ID. destruct (Z.eqb_spec off 0x3D), (Z.eqb_spec off 0x3E), (Z.eqb_spec off 0x3F), (Z.eqb_spec off 0x09), (Z.eqb_spec off 0x08); lia. }
  cbn [panic_if obind]. rewrite En. cbn [obind]. unfold PCI_DEVICE_SPECIFIC. destruct (Z.leb_spec 64 off); [lia |]. change (4 =? 1) with false. change (4 =? 2) with false. change (4 =? 4) with true. cbn match. unfold pd_write32. rewrite Hbo, Hbn, Eb. cbn [obind]. rewrite Er. cbn [obind].
  do 3 eexists. split; [done |]. split; [exact Hd' |]. cbn [config set_BARs set_config is_invisible pd_configDelay]. split; [| split; [| split; [| by split]]].
  - rewrite get_put_base by (done || lia). by rewrite decide_True by done.
  - intros m Hm6 Hmn. rewrite get_put_base by (done || lia). by rewrite decide_False by done.
  - unfold get, put, baseAddr, Command_. cbn [fst snd]. apply load_store_other; lia.
Qed.

Lemma base_and_flags k base (wide : bool) : 4 <= k -> 0 <= base < 2 ^ 32 -> base mod 2 ^ k = 0 -> bar_base k base = base /\ Z.land (base + (if wide then 4 else 0)) 0xFFFFFFF0 = base /\ bar_base 3 (base + (if wide then 4 else 0)) = base.
Proof.
  intros Hk Hb Hm. rewrite !bar_base_mod by lia. rewrite Hm. assert (exists q, base = 16 * q) as [q ->]. { exists (base / 16). assert (0 < 2 ^ k) as Hp by (apply Z.pow_pos_nonneg; lia). pose proof (Z.div_mod base (2 ^ k) ltac:(lia)) as E. rewrite Hm in E. assert (2 ^ k = 16 * 2 ^ (k - 4)) as Ek by (change 16 with (2 ^ 4); rewrite <- Z.pow_add_r by lia; f_equal; lia).
    assert (base = 2 ^ (k - 4) * (base / 2 ^ k) * 16) as E' by (rewrite E at 1; rewrite Ek at 1; ring). rewrite E' at 2. rewrite Z.div_mul by lia. lia. }
  split; [lia |]. split.
  - change 0xFFFFFFF0 with (Z.ones 32 - Z.ones 4). assert (Z.land (16 * q + (if wide then 4 else 0)) (Z.ones 32 - Z.ones 4) = 16 * q); [| done]. change (Z.ones 32 - Z.ones 4) with (Z.shiftl (Z.ones 28) 4). apply Z.bits_inj'. intros i Hi. rewrite Z.land_spec. replace (16 * q) with (q * 2 ^ 4) by lia.
    destruct (Z.ltb_spec i 4); [rewrite Z.shiftl_spec_low, Z.mul_pow2_bits_low by lia; apply andb_false_r |]. rewrite Z.shiftl_spec, ones_testbit by lia.
    assert (Z.testbit (q * 2 ^ 4 + (if wide then 4 else 0)) i = Z.testbit (q * 2 ^ 4) i) as ->.
    { replace i with (i - 4 + 4) by lia. rewrite <- !Z.shiftr_spec by lia. rewrite !Z.shiftr_div_pow2 by lia. rewrite Z.div_add_l, Z.div_mul by lia. f_equal. destruct wide; [change (4 / 2 ^ 4) with 0 | change (0 / 2 ^ 4) with 0]; lia. }
    destruct (Z.ltb_spec (i - 4) 28); [by rewrite andb_true_r |]. rewrite (in_width_testbit 32 (q * 2 ^ 4) i) by (unfold in_width; lia). done.
  - change (2 ^ 3) with 8. destruct wide; [replace (16 * q + 4) with (4 + (2 * q) * 8) by lia | replace (16 * q + 0) with (0 + (2 * q) * 8) by lia]; rewrite Z.mod_add, Z.mod_small by lia; lia.
Qed.

Lemma device_same_register hs bars0 d d' n b base : device_ok hs bars0 d' -> bars0 !! n = Some b -> isMem b = true -> bar_base 3 (get (baseAddr n) (config d')) = base -> (forall m, (m < 6)%nat -> m <> n -> get (baseAddr m) (config d') = get (baseAddr m) (config d)) ->
  spec_addr hs (config d') bars0 n b = memAddr hs (u64 ((if upper_at bars0 (S n) then Z.shiftl (get (baseAddr (S n)) (config d)) 32 else 0) + base)).
Proof.
  intros Hd H0 Hm <- Hother. unfold spec_addr, isMem in *. destruct (bar_class_of b); try done. destruct (upper_at bars0 (S n)) eqn:Eu; [| done]. rewrite Hother; [done | | lia].
  unfold upper_at in Eu. destruct (bars0 !! S n) eqn:E1; [| done]. apply lookup_lt_Some in E1. by rewrite (Forall2_length _ _ _ (do_kinds _ _ _ Hd)), (do_six _ _ _ Hd) in E1.
Qed.

(** C24: software finds and places a memory register of a device through the host.  For a device
    that has been constructed and configured in any way, behind a host with 4096 bytes of
    configuration space for each function: writing all ones to one of its memory registers
    and reading it back gives the size of its region; writing an address that is a multiple
    of the size and reading it back gives that address; the device is then decoded there,
    with the upper half of a wide register as it was, and announces the range when its
    memory space is on.  Nothing else changes: not the other registers of the device, no
    other device and no bridge. *)
Theorem pci_enumeration s a i d garbage p d0 os n b k wp rp base :
  ecam_host (host s) -> on_the_bus a -> getDevice a (host s) = Some i -> getBridge a (host s) = None -> devs s !! i = Some d ->
  length garbage = 4096%nat -> length (p_BARs p) = 6%nat -> Forall fresh_bar (p_BARs p) -> (p_PXCAPBaseOffset p = 0 \/ 64 <= p_PXCAPBaseOffset p) ->
  init_PciDevice (host_spaces (host s)) garbage p = Ok d0 -> Forall plain_write os -> cfg_run (host_spaces (host s)) os d0 = Ok d -> is_invisible d = 0 ->
  p_BARs p !! n = Some b -> isMem b = true -> bar_size b = 2 ^ k -> 4 <= k < 32 ->
  config_access (host s) a (16 + 4 * Z.of_nat n) 4 wp -> config_access (host s) a (16 + 4 * Z.of_nat n) 4 rp -> in_width 32 base -> base mod bar_size b = 0 ->
  let upper := if upper_at (p_BARs p) (S n) then Z.shiftl (get (baseAddr (S n)) (config d)) 32 else 0 in
  let start := memAddr (host_spaces (host s)) (u64 (upper + base)) in
  exists r1 t1 s1 r2 v1 r3 t3 d2 r4 v2,
    host_write wp 0xFFFFFFFF s = Ok (r1, t1, s1, [FromDevice i]) /\ host_read rp s1 = Ok (r2, v1, pd_configDelay d) /\ 2 ^ 32 - Z.land v1 0xFFFFFFF0 = bar_size b /\
    host_write wp base s1 = Ok (r3, t3, set_devs (<[i := d2]> (devs s)) s, [FromDevice i]) /\ host_read rp (set_devs (<[i := d2]> (devs s)) s) = Ok (r4, v2, pd_configDelay d) /\ Z.land v2 0xFFFFFFF0 = base /\
    (forall m, (m < 6)%nat -> m <> n -> get (baseAddr m) (config d2) = get (baseAddr m) (config d)) /\ spec_addr (host_spaces (host s)) (config d2) (p_BARs p) n b = start /\
    (memorySpace (get Command_ (config d)) = true -> RangeEx start (u64 (start + bar_size b)) ∈ pd_getAddrRanges d2).
Proof.
  intros Hh Ha Hgd Hgb Hi Hg Hlen Hf Hpx E0 Hos Erun Hinv H0 Hm Hs Hk Hw Hr Hbase Hal upper start. set (hs := host_spaces (host s)) in *. pose proof (init_ok hs garbage p d0 Hg Hlen Hf Hpx E0) as Hd0.
  destruct (cfg_run_ok hs _ os Hos d0 Hd0) as (d' & Erun' & Hd). rewrite Erun in Erun'. injection Erun' as <-. assert (n < 6)%nat as Hn by (apply lookup_lt_Some in H0; lia). assert (0 <= 16 + 4 * Z.of_nat n < 4096) as Hoff by lia.
  rewrite (host_write_device s a i d _ 4 wp) by done. destruct (device_writes_bar (host s) hs a (clear_delays wp) 0xFFFFFFFF d (p_BARs p) n b k) as (r1 & t1 & d1 & E1 & Hd1 & Hg1 & Ho1 & Hc1 & Hi1 & Hp1); try done; [by apply access_clear | lia |].
  fold hs. rewrite E1. cbn [obind]. set (s1 := set_devs (<[i := d1]> (devs s)) s). pose proof (lookup_lt_Some _ _ _ Hi) as Hil. assert (devs s1 !! i = Some d1) as Hs1 by (unfold s1; cbn; by rewrite list_lookup_insert_eq).
  destruct (device_reads_bar (host s) a (clear_delays rp) d1 n) as (r2 & E2); try done; [by apply access_clear | apply (do_config _ _ _ Hd1) | congruence |].
  destruct (device_writes_bar (host s) hs a (clear_delays wp) base d1 (p_BARs p) n b k) as (r3 & t3 & d2 & E3 & Hd2 & Hg2 & Ho2 & Hc2 & Hi2 & Hp2); try done; [by apply access_clear | lia |].
  set (s2 := set_devs (<[i := d2]> (devs s)) s). assert (devs s2 !! i = Some d2) as Hs2 by (unfold s2; cbn; by rewrite list_lookup_insert_eq).
  destruct (device_reads_bar (host s) a (clear_delays rp) d2 n) as (r4 & E4); try done; [by apply access_clear | apply (do_config _ _ _ Hd2) | congruence |].
  assert (set_devs (<[i := d2]> (devs s1)) s1 = s2) as Es2 by (unfold s1, s2, set_devs; cbn; by rewrite list_insert_insert_eq).
  exists r1, t1, s1, r2, (get (baseAddr n) (config d1)), r3, t3, d2, r4, (get (baseAddr n) (config d2)). split; [reflexivity |]. split; [rewrite (host_read_device s1 a i d1 _ 4 rp) by done; rewrite E2, Hp1; reflexivity |]. destruct (base_and_flags k base (upper_at (p_BARs p) (S n))) as (B1 & B2 & B3); [lia | done | by rewrite <- Hs |].
  split; [rewrite Hg1, Hs; apply all_ones_size; lia |]. split; [rewrite (host_write_device s1 a i d1 _ 4 wp) by done; change (host_spaces (host s1)) with hs; rewrite E3; cbn [obind]; by rewrite Es2 |].
  split; [fold s2; rewrite (host_read_device s2 a i d2 _ 4 rp) by done; rewrite E4, Hp2, Hp1; reflexivity |]. rewrite Hg2, B1. split; [done |].
  assert (forall m, (m < 6)%nat -> m <> n -> get (baseAddr m) (config d2) = get (baseAddr m) (config d)) as Hother by (intros m Hm6 Hmn; rewrite Ho2, Ho1 by done; done). split; [done |].
  assert (spec_addr hs (config d2) (p_BARs p) n b = start) as Hstart by (apply (device_same_register hs (p_BARs p) d d2 n b base); try done; rewrite Hg2, B1; done). split; [done |].
  intros Hmem. rewrite (ranges_spec hs (p_BARs p) d2 Hd2). unfold spec_ranges. rewrite Hc2, Hc1. apply list_elem_of_In, in_concat. eexists. split; [apply list_elem_of_In, elem_of_lookup_imap; exists n, b; split; [reflexivity | done] | apply list_elem_of_In].
  rewrite Hmem, Hm. cbn [andb]. apply elem_of_app. right. unfold spec_range. rewrite Hstart. left.
Qed.

(** * Examples *)

Definition ex_host : PciHost := new_GenericPciHost 0x30000000 0x10000000 12 0x2F000000 0x40000000 0.
Definition ex_function : PciBusAddr := mkBusAddr 0 4 1 0.
Definition ex_system : outcome PciSystem := let! (_, s) := new_PciDevice (replicate 4096 0xA5) ex_params INTA (mkSystem ex_host [] []) in Ok s.

Definition or_else {A} (x : outcome A) (a : A) : A := match x with Ok v => v | Err _ => a end.
Definition ex_none : PciDevice := mkPciDevice ex_function [] [] 0 0.
Definition ex_new : PciDevice := or_else ex_device ex_none.
Definition ex_configured : PciDevice := or_else (cfg_run ex_spaces ex_writes ex_new) ex_none.
Definition ex_state : PciSystem :=
  mkSystem (snd (or_else (registerDevice 0 ex_function INTA ex_host) (mkInterface ex_function INTA, ex_host))) [ex_configured] [].
Definition ex_register (c : Command) : Packet := mkPacket 0 c 0x300 (0x30000000 + ecam ex_function 0x10) false 4 0 0 0 [] (new_Request 1).

Definition ex_mem : PciBar := mkBar (PciMemBar false 0 0) 0 4096.

Lemma pci_enumeration_witness :
  let hs := host_spaces (host ex_state) in
  let upper := if upper_at (p_BARs ex_params) 1 then Z.shiftl (get (baseAddr 1) (config ex_configured)) 32 else 0 in
  let start := memAddr hs (u64 (upper + 0x7000)) in
  exists r1 t1 s1 r2 v1 r3 t3 d2 r4 v2,
  host_write (ex_register WriteReq) 0xFFFFFFFF ex_state = Ok (r1, t1, s1, [FromDevice 0]) /\ host_read (ex_register ReadReq) s1 = Ok (r2, v1, pd_configDelay ex_configured) /\ 2 ^ 32 - Z.land v1 0xFFFFFFF0 = bar_size ex_mem /\
  host_write (ex_register WriteReq) 0x7000 s1 = Ok (r3, t3, set_devs (<[0%nat := d2]> (devs ex_state)) ex_state, [FromDevice 0]) /\ host_read (ex_register ReadReq) (set_devs (<[0%nat := d2]> (devs ex_state)) ex_state) = Ok (r4, v2, pd_configDelay ex_configured) /\
  Z.land v2 0xFFFFFFF0 = 0x7000 /\ (forall m, (m < 6)%nat -> m <> 0%nat -> get (baseAddr m) (config d2) = get (baseAddr m) (config ex_configured)) /\ spec_addr hs (config d2) (p_BARs ex_params) 0 ex_mem = start /\
  (memorySpace (get Command_ (config ex_configured)) = true -> RangeEx start (u64 (start + bar_size ex_mem)) ∈ pd_getAddrRanges d2).
Proof.
  refine (pci_enumeration ex_state ex_function 0 ex_configured (replicate 4096 0xA5) ex_params ex_new ex_writes 0 ex_mem 12 (ex_register WriteReq) (ex_register ReadReq) 0x7000 _ _ _ _ _ _ _ _ _ _ _ _ _ _ _ _ _ _ _ _ _).
  - split; [vm_compute; reflexivity |]. split; [vm_compute; reflexivity |]. split; vm_compute; discriminate.
  - vm_compute. repeat split; discriminate.
  - vm_compute. reflexivity.
  - vm_compute. reflexivity.
  - reflexivity.
  - apply length_replicate.
  - vm_compute. reflexivity.
  - repeat constructor.
  - by left.
  - vm_compute. reflexivity.
  - exact ex_plain.
  - vm_compute. reflexivity.
  - vm_compute. reflexivity.
  - vm_compute. reflexivity.
  - reflexivity.
  - reflexivity.
  - lia.
  - split; [vm_compute; reflexivity |]. split; [vm_compute; reflexivity |]. eexists. vm_compute. reflexivity.
  - split; [vm_compute; reflexivity |]. split; [vm_compute; reflexivity |]. eexists. vm_compute. reflexivity.
  - split; [discriminate | reflexivity].
  - vm_compute. reflexivity.
Defined.

(** With 256 bytes for each function, the default, the device takes bits of its own position
    for a part of the offset: the identification of function 1 is read behind the header. *)
Example cam_reads_elsewhere :
  let s bits := (let! (_, s) := new_PciDevice (replicate 4096 0xA5) ex_params INTA (mkSystem (new_GenericPciHost 0x30000000 0x10000000 bits 0x2F000000 0x40000000 0) [] []) in Ok s) in
  (let! s := s 12 in let! (_, v, _) := host_read (cfg_read_pkt (0x30000000 + (4 * 8 + 1) * 4096) 2) s in Ok v) = Ok 0x8086 /\
  (let! s := s 8 in let! (_, v, _) := host_read (cfg_read_pkt (0x30000000 + (4 * 8 + 1) * 256) 2) s in Ok v) = Ok 0xA5A5.
Proof. vm_compute. done. Qed.

(** A bridge and a device at the same position are not noticed; reads go to the device and
    writes to the bridge. *)
Definition ex_port : config_class := mkConfig (replicate 64 0) (replicate 36 0) 0 0 0 0 5 0xE0 0 1 0 false false false false false false.
Example bridge_and_device :
  (let! s := ex_system in let! h := registerBridge 0 ex_function (host s) in let s := set_ports [ex_port] (set_host h s) in
   let! (_, _, s, _) := host_write (cfg_write_pkt (0x30000000 + ecam ex_function 0x3C) 1) 0x77 s in
   let! (_, v, _) := host_read (cfg_read_pkt (0x30000000 + ecam ex_function 0x3C) 1) s in Ok (v, map (get InterruptLine) (map storage1 (ports s)))) = Ok (0x1f, [0x77]).
Proof. vm_compute. reflexivity. Qed.

(** Nothing there: a read gives ones, a write panics. *)
Example ex_absent : (let! s := ex_system in let! (_, v, _) := host_read (cfg_read_pkt 0x30000000 4) s in Ok v) = Ok 0xFFFFFFFF /\ (let! s := ex_system in host_write (cfg_write_pkt 0x30000000 4) 0 s) = Err Panic.
Proof. vm_compute. done. Qed.
