(* ===== verification/Drain.v ===== *)
(** Draining: class [DrainManager] of [src/gem5/src/sim/drain.hh] and [drain.cc], and the
    interface [Drainable] of the objects it drains.

    A checkpoint needs every object to have nothing in flight.  The manager asks each
    object to drain, counts those that are not ready, and ends the simulation loop when the
    last of them has signalled; it asks again until all are ready at once.  What an object
    does when it drains is an argument: the objects that signal meanwhile, and its answer;
    what it does when it resumes: the objects it creates. *)
From Stdlib Require Import ZArith Lia.
From stdpp Require Import base numbers list gmap.
From S2P Require Import Prelude.

Open Scope Z_scope.

Inductive DrainState : Type := Running | Draining | Drained | Resuming.

#[export] Instance DrainState_eq_dec : EqDecision DrainState.
Proof. solve_decision. Defined.

(** The manager with the [_drainState] of each object; [exits] counts the calls of
    [exitSimLoop]. *)
Record DrainManager : Type := mkDrainManager {
  _allDrainable : list nat;
  _drainState : gmap nat DrainState;
  _count : Z;
  _state : DrainState;
  exits : nat;
}.

Definition set_count (v : Z) (m : DrainManager) : DrainManager := mkDrainManager (_allDrainable m) (_drainState m) v (_state m) (exits m).
Definition set_state (v : DrainState) (m : DrainManager) : DrainManager := mkDrainManager (_allDrainable m) (_drainState m) (_count m) v (exits m).
Definition set_drainState (i : nat) (v : DrainState) (m : DrainManager) : DrainManager :=
  mkDrainManager (_allDrainable m) (<[i := v]> (_drainState m)) (_count m) (_state m) (exits m).
Definition set_objects (v : list nat) (m : DrainManager) : DrainManager := mkDrainManager v (_drainState m) (_count m) (_state m) (exits m).
Definition exitSimLoop (m : DrainManager) : DrainManager :=
  mkDrainManager (_allDrainable m) (_drainState m) (_count m) (_state m) (S (exits m)).

(** [DrainManager()]. *)
Definition new_DrainManager : DrainManager := mkDrainManager [] ∅ 0 Running 0.

Definition drainState (i : nat) (m : DrainManager) : outcome DrainState :=
  match _drainState m !! i with Some s => Ok s | None => Err Undefined end.

(** [void registerDrainable(Drainable *obj)] and [unregisterDrainable]. *)
Definition registerDrainable (i : nat) (m : DrainManager) : outcome DrainManager :=
  do! assert_ (negb (bool_decide (i ∈ _allDrainable m))) then Ok (set_objects (_allDrainable m ++ [i]) m).
Fixpoint erase_object (i : nat) (l : list nat) : list nat :=
  match l with [] => [] | j :: l => if decide (j = i) then l else j :: erase_object i l end.
Definition unregisterDrainable (i : nat) (m : DrainManager) : outcome DrainManager :=
  do! assert_ (bool_decide (i ∈ _allDrainable m)) then Ok (set_objects (erase_object i (_allDrainable m)) m).

(** [Drainable()] and [~Drainable()]. *)
Definition new_Drainable (i : nat) (m : DrainManager) : outcome DrainManager :=
  registerDrainable i (set_drainState i (_state m) m).
Definition delete_Drainable (i : nat) (m : DrainManager) : outcome DrainManager :=
  let! m := unregisterDrainable i m in
  Ok (mkDrainManager (_allDrainable m) (delete i (_drainState m)) (_count m) (_state m) (exits m)).

(** [void DrainManager::signalDrainDone()]. *)
Definition manager_signalDrainDone (m : DrainManager) : outcome DrainManager :=
  do! assert_ (0 <? _count m) then
  let m := set_count (_count m - 1) m in
  Ok (if _count m =? 0 then exitSimLoop m else m).

(** [void Drainable::signalDrainDone() const]. *)
Definition signalDrainDone (i : nat) (m : DrainManager) : outcome DrainManager :=
  let! s := drainState i m in
  match s with
  | Running | Drained | Resuming => Ok m
  | Draining => manager_signalDrainDone (set_drainState i Drained m)
  end.

Fixpoint signal_all (l : list nat) (m : DrainManager) : outcome DrainManager :=
  match l with [] => Ok m | i :: l => let! m := signalDrainDone i m in signal_all l m end.

(** [bool allInState(DrainState state) const]. *)
Fixpoint all_in_state (s : DrainState) (l : list nat) (m : DrainManager) : outcome bool :=
  match l with
  | [] => Ok true
  | i :: l => let! t := drainState i m in if bool_decide (t <> s) then Ok false else all_in_state s l m
  end.
Definition allInState (s : DrainState) (m : DrainManager) : outcome bool := all_in_state s (_allDrainable m) m.

Section manager.
Context {W : Type}.
Variable drain : nat -> W -> list nat * DrainState * W.
Variable drainResume : nat -> W -> list nat * W.

(** [DrainState Drainable::dmDrain()]. *)
Definition dmDrain (i : nat) (m : DrainManager) (w : W) : outcome (DrainState * DrainManager * W) :=
  let m := set_drainState i Draining m in
  let '(signals, s, w) := drain i w in
  let! m := signal_all signals m in
  let m := set_drainState i s m in
  do! assert_ (bool_decide (s = Draining) || bool_decide (s = Drained)) then Ok (s, m, w).

(** The loop of [tryDrain]. *)
Fixpoint drain_loop (l : list nat) (m : DrainManager) (w : W) : outcome (DrainManager * W) :=
  match l with
  | [] => Ok (m, w)
  | i :: l =>
      let! (status, m, w) := dmDrain i m w in
      drain_loop l (set_count (u32 (_count m + if bool_decide (status = Drained) then 0 else 1)) m) w
  end.

(** [bool tryDrain()]. *)
Definition tryDrain (m : DrainManager) (w : W) : outcome (bool * DrainManager * W) :=
  do! panic_if (bool_decide (_state m = Drained)) then
  do! panic_if (negb (_count m =? 0)) then
  let! (m, w) := drain_loop (_allDrainable m) (set_state Draining m) w in
  Ok (if _count m =? 0 then (true, set_state Drained m, w) else (false, m, w)).

(** [void Drainable::dmDrainResume()]: an object that is created meanwhile joins the
    vector that [resume] is walking through. *)
Definition dmDrainResume (i : nat) (m : DrainManager) (w : W) : outcome (DrainManager * W) :=
  let! s := drainState i m in
  do! panic_if (negb (bool_decide (s = Drained)) && negb (bool_decide (s = Resuming))) then
  let (created, w) := drainResume i w in
  match created with [] => Ok (set_drainState i Running m, w) | _ => Err Undefined end.

(** The inner loop of [resume]. *)
Fixpoint resume_objects (l : list nat) (m : DrainManager) (w : W) : outcome (DrainManager * W) :=
  match l with
  | [] => Ok (m, w)
  | i :: l =>
      let! s := drainState i m in
      let! (m, w) :=
        (if bool_decide (s <> Running) then
           do! assert_ (bool_decide (s = Drained) || bool_decide (s = Resuming)) then dmDrainResume i m w
         else Ok (m, w)) in
      resume_objects l m w
  end.

(** The outer loop of [resume], with fuel. *)
Fixpoint resume_loop (fuel : nat) (m : DrainManager) (w : W) : outcome (DrainManager * W) :=
  match fuel with
  | O => Err Undefined
  | S fuel =>
      let! (m, w) := resume_objects (_allDrainable m) m w in
      let! b := allInState Running m in
      if b then Ok (m, w) else resume_loop fuel m w
  end.

(** [void resume()]. *)
Definition resume (fuel : nat) (m : DrainManager) (w : W) : outcome (DrainManager * W) :=
  do! panic_if (bool_decide (_state m = Running)) then
  do! panic_if (bool_decide (_state m = Resuming)) then
  do! panic_if (negb (_count m =? 0)) then
  let! (m, w) := resume_loop fuel (set_state Resuming m) w in
  Ok (set_state Running m, w).

(** [void preCheckpointRestore()]. *)
Definition preCheckpointRestore (m : DrainManager) : outcome DrainManager :=
  do! panic_if (negb (bool_decide (_state m = Running))) then
  Ok (foldl (fun m i => set_drainState i Drained m) (set_state Drained m) (_allDrainable m)).

(** * Histories *)

Inductive drain_op : Type :=
  | Create (i : nat)
  | Destroy (i : nat)
  | TryDrain
  | Signal (i : nat)
  | Resume
  | Restore.

Definition drain_step (x : DrainManager * W) (o : drain_op) : outcome (DrainManager * W) :=
  let (m, w) := x in
  match o with
  | Create i => let! m := new_Drainable i m in Ok (m, w)
  | Destroy i => let! m := delete_Drainable i m in Ok (m, w)
  | TryDrain => let! (_, m, w) := tryDrain m w in Ok (m, w)
  | Signal i => let! m := signalDrainDone i m in Ok (m, w)
  | Resume => resume 1 m w
  | Restore => let! m := preCheckpointRestore m in Ok (m, w)
  end.

(** Objects that drain without signalling for themselves, and create none on resume. *)
Definition polite (m : DrainManager) : Prop :=
  forall i w, (i ∉ (drain i w).1.1) /\ (forall j, j ∈ (drain i w).1.1 -> j ∈ _allDrainable m) /\
    ((drain i w).1.2 = Draining \/ (drain i w).1.2 = Drained).

(** What is relied on of the objects: nothing is created while the manager drains, and no
    object that drains is destroyed.  When the manager may be called is not restricted. *)
Definition drain_op_ok (m : DrainManager) (o : drain_op) : Prop :=
  match o with
  | Create i => (i ∉ _allDrainable m) /\ _state m <> Draining /\ Z.of_nat (length (_allDrainable m)) + 1 < 2 ^ 32
  | Destroy i => i ∈ _allDrainable m /\ _drainState m !! i <> Some Draining
  | TryDrain => polite m
  | Signal i => i ∈ _allDrainable m
  | Resume => forall i w, (drainResume i w).1 = []
  | Restore => True
  end.

Inductive drain_reachable (w0 : W) : DrainManager * W -> Prop :=
  | dn_init : drain_reachable w0 (new_DrainManager, w0)
  | dn_step x o x' : drain_reachable w0 x -> drain_op_ok x.1 o -> drain_step x o = Ok x' -> drain_reachable w0 x'.
End manager.

(** * Invariant *)

(** How many objects of [l] are draining. *)
Definition draining (l : list nat) (sts : gmap nat DrainState) : nat := length (filter (fun i => sts !! i = Some Draining) l).

(** The calls of the manager that panic: an attempt to drain a drained system, to resume a
    running one, or either while an object drains; and restoring one that does not run. *)
Definition still_draining (m : DrainManager) : bool := negb (draining (_allDrainable m) (_drainState m) =? 0)%nat.
Definition refused (m : DrainManager) (o : drain_op) : bool :=
  match o with
  | TryDrain => bool_decide (_state m = Drained) || still_draining m
  | Resume => bool_decide (_state m = Running) || still_draining m
  | Restore => bool_decide (_state m <> Running)
  | _ => false
  end.

Record drain_inv (m : DrainManager) : Prop := {
  dn_once : NoDup (_allDrainable m);
  dn_known : forall i, i ∈ _allDrainable m -> is_Some (_drainState m !! i);
  dn_count : _count m = Z.of_nat (draining (_allDrainable m) (_drainState m));
  dn_bound : Z.of_nat (length (_allDrainable m)) < 2 ^ 32;
  dn_states : forall i s, i ∈ _allDrainable m -> _drainState m !! i = Some s ->
    match _state m with
    | Running => s = Running
    | Draining => s = Draining \/ s = Drained
    | Drained => s = Drained
    | Resuming => False
    end;
  dn_state : _state m <> Resuming;
}.

Lemma draining_le l sts : (draining l sts <= length l)%nat.
Proof. apply length_filter. Qed.

Lemma draining_cons i l sts : draining (i :: l) sts = ((if decide (sts !! i = Some Draining) then 1 else 0) + draining l sts)%nat.
Proof. unfold draining. rewrite filter_cons. by destruct (decide (sts !! i = Some Draining)). Qed.

Lemma draining_app l l' sts : draining (l ++ l') sts = (draining l sts + draining l' sts)%nat.
Proof. unfold draining. by rewrite filter_app, length_app. Qed.

Lemma draining_other i s l sts : i ∉ l -> draining l (<[i := s]> sts) = draining l sts.
Proof.
  induction l as [| j l IH]; intros Hi; [done |]. apply not_elem_of_cons in Hi as [Hj Hi]. rewrite !draining_cons, IH by done.
  by rewrite lookup_insert_ne.
Qed.

Lemma draining_perm l l' sts : l ≡ₚ l' -> draining l sts = draining l' sts.
Proof. induction 1; rewrite ?draining_cons; lia. Qed.

Lemma erase_perm i l : i ∈ l -> l ≡ₚ i :: erase_object i l.
Proof.
  induction l as [| j l IH]; intros Hi; [by apply not_elem_of_nil in Hi |]. cbn. destruct (decide (j = i)) as [-> | Hne]; [done |].
  apply elem_of_cons in Hi as [-> | Hi]; [done |]. rewrite (IH Hi) at 1. apply Permutation_swap.
Qed.

(** * Signals *)

(** While the manager asks the objects: those of [p] have answered, those of [r] have not;
    an object being asked is in neither. *)
Record asking (m : DrainManager) (p r : list nat) : Prop := {
  as_once : NoDup (p ++ r);
  as_count : _count m = Z.of_nat (draining p (_drainState m));
  as_answered : forall i, i ∈ p -> _drainState m !! i = Some Draining \/ _drainState m !! i = Some Drained;
  as_waiting : forall i, i ∈ r -> exists s, _drainState m !! i = Some s /\ s <> Draining /\ s <> Resuming;
}.

(** What a signal leaves alone. *)
Definition same_objects (m m' : DrainManager) : Prop := _allDrainable m' = _allDrainable m /\ _state m' = _state m.

Lemma manager_signal_ok m : 0 < _count m -> exists m', manager_signalDrainDone m = Ok m' /\ same_objects m m' /\ _drainState m' = _drainState m /\
  _count m' = _count m - 1 /\ exits m' = if _count m =? 1 then S (exits m) else exits m.
Proof.
  intros H. unfold manager_signalDrainDone. destruct (Z.ltb_spec 0 (_count m)); [| lia]. cbn [assert_ obind _count set_count].
  eexists. split; [reflexivity |]. assert (E : (_count m - 1 =? 0) = (_count m =? 1)) by (destruct (Z.eqb_spec (_count m - 1) 0), (Z.eqb_spec (_count m) 1); lia).
  rewrite E. by destruct (_count m =? 1).
Qed.

Lemma signal_ok m p r i : asking m p r -> i ∈ p ++ r -> exists m', signalDrainDone i m = Ok m' /\ same_objects m m' /\ asking m' p r /\
  (forall j, j ∉ p ++ r -> _drainState m' !! j = _drainState m !! j) /\
  (_drainState m !! i = Some Draining -> i ∈ p /\ _drainState m' = <[i := Drained]> (_drainState m) /\
     exits m' = if _count m =? 1 then S (exits m) else exits m) /\
  (_drainState m !! i <> Some Draining -> m' = m).
Proof.
  intros [A1 A2 A3 A4] Hi. assert (Hk : is_Some (_drainState m !! i)).
  { apply elem_of_app in Hi as [Hi | Hi]; [destruct (A3 i Hi) as [-> | ->]; by eexists | destruct (A4 i Hi) as (s & -> & _); by eexists]. }
  destruct Hk as [s Es]. unfold signalDrainDone, drainState. rewrite Es. cbn [obind]. destruct (decide (s = Draining)) as [-> | Hs].
  - assert (Hp : i ∈ p) by (apply elem_of_app in Hi as [Hi | Hi]; [done | destruct (A4 i Hi) as (? & E & ? & _); by rewrite Es in E; injection E as <-]).
    apply NoDup_app in A1 as (N1 & N2 & N3). apply elem_of_Permutation in Hp as Hp'. destruct Hp' as [q Hq].
    assert (Niq : i ∉ q) by (rewrite Hq in N1; by apply NoDup_cons in N1 as [? _]).
    assert (Hd : draining p (_drainState m) = S (draining q (_drainState m))) by (rewrite (draining_perm _ _ _ Hq), draining_cons, decide_True; done).
    destruct (manager_signal_ok (set_drainState i Drained m)) as (m' & -> & [S1 S2] & S3 & S4 & S5); [cbn; lia |]. cbn in S1, S2, S3, S4, S5.
    exists m'. split; [done |]. split; [done |]. split.
    { split.
      - by apply NoDup_app.
      - rewrite S3, S4, A2, Hd, (draining_perm _ _ _ Hq), draining_cons, lookup_insert_eq, draining_other, decide_False by done. lia.
      - intros j Hj. rewrite S3. destruct (decide (i = j)) as [<- | Hne]; [right; apply lookup_insert_eq | rewrite lookup_insert_ne by done; by apply A3].
      - intros j Hj. rewrite S3, lookup_insert_ne; [by apply A4 |]. intros <-. by apply (N2 i Hp). }
    split; [intros j Hj; rewrite S3, lookup_insert_ne; [done | intros <-; by apply Hj] |]. split; [by intros _ | done].
  - exists m. assert (E : match s with Running | Drained | Resuming => Ok m | Draining => manager_signalDrainDone (set_drainState i Drained m) end = Ok m) by (by destruct s).
    rewrite E. split; [done |]. split; [done |]. split; [by split |]. split; [done |]. split; [congruence | done].
Qed.

Lemma signal_all_ok l m p r : asking m p r -> (forall i, i ∈ l -> i ∈ p ++ r) -> exists m', signal_all l m = Ok m' /\ same_objects m m' /\ asking m' p r /\
  (forall j, j ∉ p ++ r -> _drainState m' !! j = _drainState m !! j).
Proof.
  revert m. induction l as [| i l IH]; intros m Ha Hl; [by exists m |]. cbn.
  destruct (signal_ok m p r i Ha) as (m1 & -> & [S1 S2] & Ha1 & Hj1 & _); [apply Hl; left |]. cbn [obind].
  destruct (IH m1 Ha1) as (m2 & -> & [S3 S4] & Ha2 & Hj2); [intros j Hj; apply Hl; by right |].
  exists m2. split; [done |]. split; [by unfold same_objects; rewrite S3, S4 |]. split; [done |]. intros j Hj. by rewrite Hj2, Hj1.
Qed.

(** * Operations *)

Lemma asking_inv m : drain_inv m -> _state m <> Drained -> _count m = 0 -> asking m [] (_allDrainable m).
Proof.
  intros [D1 D2 D3 D4 D5 D6] Hs Hc. split; [done | done | intros i Hi; by apply not_elem_of_nil in Hi |].
  intros i Hi. destruct (D2 i Hi) as [s Es]. exists s. split; [done |]. specialize (D5 i s Hi Es). rewrite D3 in Hc. split.
  - intros ->. assert (Hin : i ∈ filter (fun i => _drainState m !! i = Some Draining) (_allDrainable m)) by (apply list_elem_of_filter; by split).
    unfold draining in Hc. destruct (filter _ _); [by apply not_elem_of_nil in Hin | cbn in Hc; lia].
  - intros ->. destruct (_state m); naive_solver.
Qed.

Lemma inv_asking m : asking m (_allDrainable m) [] -> _state m = Draining -> Z.of_nat (length (_allDrainable m)) < 2 ^ 32 -> drain_inv m.
Proof.
  intros [A1 A2 A3 A4] Hs Hb. rewrite app_nil_r in A1. split; try done.
  - intros i Hi. destruct (A3 i Hi) as [-> | ->]; by eexists.
  - intros i s Hi Es. rewrite Hs. destruct (A3 i Hi) as [E | E]; rewrite E in Es; injection Es as <-; auto.
  - by rewrite Hs.
Qed.

Lemma asking_all m : drain_inv m -> _state m = Draining -> asking m (_allDrainable m) [].
Proof.
  intros [D1 D2 D3 D4 D5 D6] Hs. split; [by rewrite app_nil_r | done | | intros i Hi; by apply not_elem_of_nil in Hi].
  intros i Hi. destruct (D2 i Hi) as [s Es]. specialize (D5 i s Hi Es). rewrite Hs in D5. rewrite Es. destruct D5 as [-> | ->]; auto.
Qed.

Lemma not_draining l sts : (forall i, i ∈ l -> sts !! i <> Some Draining) -> draining l sts = 0%nat.
Proof. intros H. unfold draining. by rewrite filter_none. Qed.

Lemma draining_zero l sts : draining l sts = 0%nat -> forall i, i ∈ l -> sts !! i <> Some Draining.
Proof.
  unfold draining. intros H i Hi E. assert (Hin : i ∈ filter (fun i => sts !! i = Some Draining) l) by (apply list_elem_of_filter; by split).
  destruct (filter _ _); [by apply not_elem_of_nil in Hin | done].
Qed.

Section operations.
Context {W : Type}.
Variable drain : nat -> W -> list nat * DrainState * W.
Variable drainResume : nat -> W -> list nat * W.

(** One object is asked. *)
Lemma dmDrain_ok i p r m w : asking m p (i :: r) -> _allDrainable m = p ++ i :: r -> Z.of_nat (length (p ++ i :: r)) < 2 ^ 32 -> polite drain m ->
  exists s m' w', dmDrain drain i m w = Ok (s, m', w') /\ same_objects m m' /\
    asking (set_count (u32 (_count m' + if bool_decide (s = Drained) then 0 else 1)) m') (p ++ [i]) r.
Proof.
  intros [A1 A2 A3 A4] El Hb Hpol. destruct (Hpol i w) as (Hi & Hsub & Hans). unfold dmDrain. destruct (drain i w) as [[signals s] w'] eqn:Ed. cbn [fst snd] in *.
  pose proof A1 as N. rewrite <- Permutation_middle in N. apply NoDup_cons in N as [Ni N].
  set (m1 := set_drainState i Draining m). assert (Hne : forall j, j ∈ p ++ r -> i <> j) by (by intros j Hj ->).
  assert (Ha1 : asking m1 p r).
  { split; [done | | |]; cbn [m1 set_drainState _drainState _count].
    - rewrite draining_other; [done |]. intros Hp. apply (Hne i); [apply elem_of_app; by left | done].
    - intros j Hj. rewrite lookup_insert_ne; [by apply A3 | apply Hne, elem_of_app; by left].
    - intros j Hj. rewrite lookup_insert_ne; [apply A4; by right | apply Hne, elem_of_app; by right]. }
  destruct (signal_all_ok signals m1 p r Ha1) as (m2 & -> & [S1 S2] & [B1 B2 B3 B4] & S3).
  { intros j Hj. specialize (Hsub j Hj). rewrite El in Hsub. apply elem_of_app in Hsub as [Hj' | [-> | Hj']%elem_of_cons];
      [apply elem_of_app; by left | done | apply elem_of_app; by right]. }
  cbn [obind]. assert (Es : bool_decide (s = Draining) || bool_decide (s = Drained) = true) by (destruct Hans as [-> | ->]; done).
  rewrite Es. cbn [assert_ obind]. eexists s, _, w'. split; [reflexivity |]. split; [done |].
  assert (Hlen : Z.of_nat (draining p (_drainState m2)) + 1 < 2 ^ 32).
  { pose proof (draining_le p (_drainState m2)). rewrite length_app in Hb. cbn in Hb. lia. }
  split; cbn [_count _drainState set_count set_drainState].
  - by rewrite <- app_assoc.
  - rewrite draining_app, draining_cons, lookup_insert_eq, draining_other by (intros Hp; apply (Hne i); [apply elem_of_app; by left | done]).
    rewrite B2, wrap_small by (unfold in_width; destruct (bool_decide (s = Drained)); lia). destruct Hans as [-> | ->].
    + rewrite (decide_True (P := Some Draining = Some Draining)) by done. change (bool_decide (Draining = Drained)) with false. cbn. lia.
    + rewrite (decide_False (P := Some Drained = Some Draining)) by done. change (bool_decide (Drained = Drained)) with true. cbn. lia.
  - intros j [Hj | ->%list_elem_of_singleton]%elem_of_app.
    + rewrite lookup_insert_ne; [by apply B3 | apply Hne, elem_of_app; by left].
    + rewrite lookup_insert_eq. destruct Hans as [-> | ->]; auto.
  - intros j Hj. rewrite lookup_insert_ne; [by apply B4 | apply Hne, elem_of_app; by right].
Qed.

Lemma drain_loop_ok r : forall p m w, asking m p r -> _allDrainable m = p ++ r -> Z.of_nat (length (p ++ r)) < 2 ^ 32 -> polite drain m ->
  exists m' w', drain_loop drain r m w = Ok (m', w') /\ same_objects m m' /\ asking m' (p ++ r) [].
Proof.
  induction r as [| i r IH]; intros p m w Ha El Hb Hpol; [exists m, w; by rewrite app_nil_r |]. cbn [drain_loop].
  destruct (dmDrain_ok i p r m w Ha El Hb Hpol) as (s & m1 & w1 & -> & [S1 S2] & Ha1). cbn [obind].
  assert (E : p ++ i :: r = (p ++ [i]) ++ r) by (by rewrite <- app_assoc). rewrite E in *.
  destruct (IH (p ++ [i]) _ w1 Ha1) as (m2 & w2 & -> & [S3 S4] & Ha2); [cbn; by rewrite S1 | done | |].
  - intros j v. destruct (Hpol j v) as (P1 & P2 & P3). split; [done |]. split; [| done]. intros k Hk. cbn. rewrite S1. by apply P2.
  - exists m2, w2. split; [done |]. split; [| done]. cbn in S3, S4. by split; rewrite ?S3, ?S4.
Qed.

(** What [tryDrain] does. *)
Lemma tryDrain_ok m w : drain_inv m -> _state m <> Drained -> _count m = 0 -> polite drain m -> exists b m' w', tryDrain drain m w = Ok (b, m', w') /\
  drain_inv m' /\ _allDrainable m' = _allDrainable m /\ _state m' = (if b then Drained else Draining) /\
  (if b then forall i, i ∈ _allDrainable m -> _drainState m' !! i = Some Drained else 0 < _count m').
Proof.
  intros Hinv Hs Hc Hpol. pose proof Hinv as [D1 D2 D3 D4 D5 D6]. unfold tryDrain. rewrite (bool_decide_eq_false_2 _ Hs), Hc. cbn [panic_if Z.eqb negb obind].
  pose proof (asking_inv m Hinv Hs Hc) as Ha. set (m0 := set_state Draining m).
  assert (Ha0 : asking m0 [] (_allDrainable m)) by (destruct Ha; by split).
  destruct (drain_loop_ok (_allDrainable m) [] m0 w Ha0) as (m' & w' & E & [S1 S2] & Ha'); [done | done | done |]. cbn in S1, S2, Ha'.
  rewrite E. cbn [obind]. destruct (Z.eqb_spec (_count m') 0) as [E0 | E0].
  - eexists true, _, w'. split; [reflexivity |]. assert (Hall : forall i, i ∈ _allDrainable m -> _drainState m' !! i = Some Drained).
    { intros i Hi. destruct Ha' as [A1 A2 A3 A4]. rewrite E0 in A2. destruct (A3 i Hi) as [Hd |]; [| done]. by destruct (draining_zero _ _ ltac:(symmetry; apply Nat2Z.inj; exact A2) i Hi). }
    split; [| by split_and!]. split; cbn [_allDrainable _drainState _count _state set_state]; rewrite ?S1; try done.
    + intros i Hi. by rewrite (Hall i Hi).
    + by destruct Ha'.
    + intros i s Hi. rewrite (Hall i Hi). by intros [= <-].
  - exists false, m', w'. split; [done |]. split; [apply inv_asking; rewrite ?S1; done |]. split; [done |]. split; [done |].
    destruct Ha' as [_ A2 _ _]. lia.
Qed.

Lemma resume_objects_ok l : forall m w, (forall i w, (drainResume i w).1 = []) -> (forall i, i ∈ l -> _drainState m !! i = Some Drained) -> NoDup l ->
  exists m' w', resume_objects drainResume l m w = Ok (m', w') /\ same_objects m m' /\ _count m' = _count m /\ exits m' = exits m /\
    (forall i, _drainState m' !! i = if decide (i ∈ l) then Some Running else _drainState m !! i).
Proof.
  induction l as [| i l IH]; intros m w Hr Hd Hn; [by exists m, w |]. apply NoDup_cons in Hn as [Hi Hn]. cbn [resume_objects].
  unfold drainState. rewrite (Hd i) by left. cbn [obind]. change (bool_decide (Drained <> Running)) with true. change (bool_decide (Drained = Drained) || _) with true.
  cbn [assert_ obind]. unfold dmDrainResume, drainState. rewrite (Hd i) by left. cbn [obind]. change (negb (bool_decide (Drained = Drained)) && _) with false. cbn [panic_if obind].
  pose proof (Hr i w) as Hc. destruct (drainResume i w) as [created w1]. cbn in Hc. subst created. cbn [obind].
  destruct (IH (set_drainState i Running m) w1 Hr) as (m' & w' & -> & S & S3 & S4 & Hl); [| done |].
  - intros j Hj. cbn. rewrite lookup_insert_ne by (by intros ->). apply Hd. by right.
  - exists m', w'. split_and!; try done. intros j. rewrite Hl. cbn. destruct (decide (j ∈ l)) as [Hj | Hj].
    + by rewrite decide_True by (by right).
    + destruct (decide (i = j)) as [<- | Hne]; [rewrite lookup_insert_eq, decide_True by left; done |].
      rewrite lookup_insert_ne, decide_False by (done || (by intros [-> | ?]%elem_of_cons)). done.
Qed.

Lemma all_in_state_true s l m : (forall i, i ∈ l -> _drainState m !! i = Some s) -> all_in_state s l m = Ok true.
Proof.
  induction l as [| i l IH]; intros H; [done |]. cbn. unfold drainState. rewrite (H i) by left. cbn [obind]. rewrite bool_decide_eq_false_2 by naive_solver.
  apply IH. intros j Hj. apply H. by right.
Qed.
End operations.

Lemma new_Drainable_ok i m : drain_inv m -> i ∉ _allDrainable m -> _state m <> Draining -> Z.of_nat (length (_allDrainable m)) + 1 < 2 ^ 32 ->
  exists m', new_Drainable i m = Ok m' /\ drain_inv m'.
Proof.
  intros [D1 D2 D3 D4 D5 D6] Hi Hs Hb. unfold new_Drainable, registerDrainable. cbn [_allDrainable set_drainState].
  rewrite bool_decide_eq_false_2 by done. cbn [negb assert_ obind]. eexists. split; [reflexivity |].
  assert (Hne : forall j, j ∈ _allDrainable m -> i <> j) by (by intros j Hj ->).
  split; cbn [_allDrainable _drainState _count _state set_objects set_drainState].
  - apply NoDup_app. split; [done |]. split; [by intros j Hj ->%list_elem_of_singleton | apply NoDup_singleton].
  - intros j [Hj | ->%list_elem_of_singleton]%elem_of_app; [| rewrite lookup_insert_eq; by eexists]. rewrite lookup_insert_ne; [by apply D2 | by apply Hne].
  - rewrite draining_app, draining_cons, lookup_insert_eq, draining_other, decide_False by naive_solver. rewrite D3. cbn. lia.
  - rewrite length_app. cbn. lia.
  - intros j s [Hj | ->%list_elem_of_singleton]%elem_of_app.
    + rewrite lookup_insert_ne by (by apply Hne). by apply D5.
    + rewrite lookup_insert_eq. intros [= <-]. by destruct (_state m).
  - done.
Qed.

Lemma delete_Drainable_ok i m : drain_inv m -> i ∈ _allDrainable m -> _drainState m !! i <> Some Draining ->
  exists m', delete_Drainable i m = Ok m' /\ drain_inv m'.
Proof.
  intros [D1 D2 D3 D4 D5 D6] Hi Hd. unfold delete_Drainable, unregisterDrainable. rewrite bool_decide_eq_true_2 by done. cbn [assert_ obind].
  eexists. split; [reflexivity |]. pose proof (erase_perm i _ Hi) as Hp. set (l := erase_object i (_allDrainable m)) in *.
  pose proof D1 as N. rewrite Hp in N. apply NoDup_cons in N as [Ni N].
  assert (Hin : forall j, j ∈ l -> j ∈ _allDrainable m /\ i <> j) by (intros j Hj; split; [rewrite Hp; by right | by intros <-]).
  split; cbn [_allDrainable _drainState _count _state set_objects].
  - done.
  - intros j Hj. destruct (Hin j Hj). rewrite lookup_delete_ne by done. by apply D2.
  - rewrite D3, (draining_perm _ _ _ Hp), draining_cons, decide_False by done. f_equal. clear -Ni. induction l as [| j l IH]; [done |].
    apply not_elem_of_cons in Ni as [Hj Ni]. rewrite !draining_cons. cbn [Nat.add] in IH. rewrite (IH Ni), lookup_delete_ne by done. done.
  - apply Permutation_length in Hp. cbn in Hp. lia.
  - intros j s Hj. destruct (Hin j Hj). rewrite lookup_delete_ne by done. by apply D5.
  - done.
Qed.

Lemma restored_state l : forall m i, _drainState (foldl (fun m i => set_drainState i Drained m) m l) !! i =
  if decide (i ∈ l) then Some Drained else _drainState m !! i.
Proof.
  induction l as [| j l IH]; intros m i; cbn; [done |]. rewrite IH. cbn. destruct (decide (i ∈ l)) as [Hi | Hi].
  - by rewrite decide_True by (by right).
  - destruct (decide (j = i)) as [<- | Hne]; [rewrite lookup_insert_eq, decide_True by left; done |].
    rewrite lookup_insert_ne, decide_False by (done || (by intros [-> | ?]%elem_of_cons)). done.
Qed.

Lemma restored_rest l : forall m, let m' := foldl (fun m i => set_drainState i Drained m) m l in
  same_objects m m' /\ _count m' = _count m.
Proof. induction l as [| j l IH]; intros m; [done |]. cbn. by destruct (IH (set_drainState j Drained m)) as [[S1 S2] S3]. Qed.

(** All objects in a state that is not Draining. *)
Lemma all_same_inv m s : NoDup (_allDrainable m) -> Z.of_nat (length (_allDrainable m)) < 2 ^ 32 -> _count m = 0 -> _state m = s -> s = Running \/ s = Drained ->
  (forall i, i ∈ _allDrainable m -> _drainState m !! i = Some s) -> drain_inv m.
Proof.
  intros Hn Hb Hc Hs Hor Hall. split; try done.
  - intros i Hi. rewrite (Hall i Hi). by eexists.
  - rewrite not_draining; [done |]. intros i Hi. rewrite (Hall i Hi). destruct Hor as [-> | ->]; done.
  - intros i t Hi. rewrite (Hall i Hi), Hs. intros [= <-]. destruct Hor as [-> | ->]; done.
  - rewrite Hs. destruct Hor as [-> | ->]; done.
Qed.

Lemma drained_count m : drain_inv m -> _state m <> Draining -> _count m = 0.
Proof.
  intros [D1 D2 D3 D4 D5 D6] Hs. rewrite D3, not_draining; [done |]. intros i Hi E. specialize (D5 i _ Hi E). by destruct (_state m).
Qed.

Section steps.
Context {W : Type}.
Variable drain : nat -> W -> list nat * DrainState * W.
Variable drainResume : nat -> W -> list nat * W.

Lemma resume_ok m w : drain_inv m -> _state m <> Running -> _count m = 0 -> (forall i w, (drainResume i w).1 = []) -> exists m' w', resume drainResume 1 m w = Ok (m', w') /\
  drain_inv m' /\ _allDrainable m' = _allDrainable m /\ _state m' = Running /\ forall i, i ∈ _allDrainable m -> _drainState m' !! i = Some Running.
Proof.
  intros Hinv Hs Hc Hr. pose proof Hinv as [D1 D2 D3 D4 D5 D6]. unfold resume. rewrite Hc, (bool_decide_eq_false_2 _ Hs), (bool_decide_eq_false_2 _ D6). cbn [panic_if Z.eqb negb obind].
  assert (Hall : forall i, i ∈ _allDrainable m -> _drainState m !! i = Some Drained).
  { intros i Hi. destruct (D2 i Hi) as [s Es]. specialize (D5 i s Hi Es). rewrite Es. rewrite D3 in Hc. pose proof (draining_zero _ _ ltac:(apply Nat2Z.inj; exact Hc) i Hi) as Hnd.
    destruct (_state m); naive_solver. }
  destruct (resume_objects_ok drainResume (_allDrainable m) (set_state Resuming m) w Hr Hall D1) as (m' & w' & E & [S1 S2] & S3 & S4 & S5).
  cbn [resume_loop _allDrainable set_state]. rewrite E. cbn [obind]. cbn in S1, S2, S3, S5.
  assert (Hrun : forall i, i ∈ _allDrainable m -> _drainState m' !! i = Some Running) by (intros i Hi; by rewrite S5, decide_True).
  unfold allInState. rewrite S1, all_in_state_true by done. cbn [obind]. eexists _, w'. split; [reflexivity |].
  split; [| by split_and!]. apply (all_same_inv _ Running); cbn; rewrite ?S1, ?S3; try done. by left.
Qed.

Lemma restore_ok m : drain_inv m -> _state m = Running -> exists m', preCheckpointRestore m = Ok m' /\ drain_inv m' /\ _state m' = Drained.
Proof.
  intros Hinv Hs. pose proof (drained_count m Hinv ltac:(by rewrite Hs)) as Hc. pose proof Hinv as [D1 D2 D3 D4 D5 D6]. unfold preCheckpointRestore. rewrite Hs.
  change (bool_decide (Running = Running)) with true. cbn [negb panic_if obind]. eexists. split; [reflexivity |].
  destruct (restored_rest (_allDrainable m) (set_state Drained m)) as [[S1 S2] S3]. cbn in S1, S2, S3. split; [| done].
  apply (all_same_inv _ Drained); rewrite ?S1, ?S3; try done; [by right |]. intros i Hi. by rewrite restored_state, decide_True.
Qed.

Lemma signal_step_ok m i : drain_inv m -> i ∈ _allDrainable m -> exists m', signalDrainDone i m = Ok m' /\ drain_inv m'.
Proof.
  intros Hinv Hi. destruct (decide (_state m = Draining)) as [Hs | Hs].
  - destruct (signal_ok m _ [] i (asking_all m Hinv Hs)) as (m' & E & [S1 S2] & Ha & _); [by rewrite app_nil_r |]. exists m'. split; [done |].
    apply inv_asking; rewrite ?S1, ?S2; try done. apply Hinv.
  - exists m. split; [| done]. pose proof Hinv as [D1 D2 D3 D4 D5 D6]. destruct (D2 i Hi) as [s Es]. specialize (D5 i s Hi Es).
    unfold signalDrainDone, drainState. rewrite Es. cbn [obind]. destruct (_state m), s; naive_solver.
Qed.

Lemma idle_count m : drain_inv m -> still_draining m = false -> _count m = 0.
Proof. intros Hinv H. rewrite (dn_count _ Hinv). unfold still_draining in H. apply negb_false_iff, Nat.eqb_eq in H. by rewrite H. Qed.

Lemma busy_count m : drain_inv m -> still_draining m = true -> (_count m =? 0) = false.
Proof.
  intros Hinv H. rewrite (dn_count _ Hinv). unfold still_draining in H. apply negb_true_iff, Nat.eqb_neq in H. by apply Z.eqb_neq; lia.
Qed.

Lemma drain_step_ok x o : drain_inv x.1 -> drain_op_ok drain drainResume x.1 o -> refused x.1 o = false ->
  exists x', drain_step drain drainResume x o = Ok x' /\ drain_inv x'.1.
Proof.
  destruct x as [m w]. intros Hinv Hok Href. destruct o as [i | i | | i | |]; cbn [drain_step drain_op_ok refused fst] in *.
  - destruct Hok as (? & ? & ?). destruct (new_Drainable_ok i m) as (m' & -> & ?); try done. by exists (m', w).
  - destruct Hok as [? ?]. destruct (delete_Drainable_ok i m) as (m' & -> & ?); try done. by exists (m', w).
  - apply orb_false_elim in Href as [Hs Hd]. apply bool_decide_eq_false in Hs.
    destruct (tryDrain_ok drain m w Hinv Hs (idle_count m Hinv Hd) Hok) as (b & m' & w' & -> & ? & _). by exists (m', w').
  - destruct (signal_step_ok m i Hinv Hok) as (m' & -> & ?). by exists (m', w).
  - apply orb_false_elim in Href as [Hs Hd]. apply bool_decide_eq_false in Hs.
    destruct (resume_ok m w Hinv Hs (idle_count m Hinv Hd) Hok) as (m' & w' & -> & ? & _). by exists (m', w').
  - apply bool_decide_eq_false in Href. destruct (restore_ok m Hinv) as (m' & -> & ? & _); [by destruct (_state m); try done; destruct Href |]. by exists (m', w).
Qed.

Lemma drain_step_refused x o : drain_inv x.1 -> refused x.1 o = true -> drain_step drain drainResume x o = Err Panic.
Proof.
  destruct x as [m w]. intros Hinv Href. pose proof (dn_state _ Hinv) as Hst. cbn [fst] in *.
  destruct o; try done; cbn [drain_step refused] in *; unfold tryDrain, resume, preCheckpointRestore.
  - apply orb_true_iff in Href as [-> | Hd]; [done |]. case_bool_decide; [done |]. cbn [panic_if obind]. by rewrite (busy_count m Hinv Hd).
  - apply orb_true_iff in Href as [-> | Hd]; [done |]. case_bool_decide; [done |]. rewrite (bool_decide_eq_false_2 _ Hst). cbn [panic_if obind].
    by rewrite (busy_count m Hinv Hd).
  - apply bool_decide_eq_true in Href. by rewrite (bool_decide_eq_false_2 _ Href).
Qed.

Lemma drain_reachable_inv w0 x : drain_reachable drain drainResume w0 x -> drain_inv x.1.
Proof.
  induction 1 as [| x o x' _ IH Hok Hstep].
  - split; cbn; [constructor | intros i Hi | done | done | intros i s Hi | done]; by apply not_elem_of_nil in Hi.
  - destruct (refused x.1 o) eqn:Href; [by rewrite (drain_step_refused x o IH Href) in Hstep |].
    destruct (drain_step_ok x o IH Hok Href) as (x1 & E & H). rewrite E in Hstep. by simplify_eq.
Qed.
End steps.

(** All that drain signal, in any order: the loop is left once, at the last of them. *)
Lemma signals_finish l : forall m, asking m (_allDrainable m) [] -> NoDup l -> (forall i, i ∈ l <-> i ∈ _allDrainable m /\ _drainState m !! i = Some Draining) ->
  _count m = Z.of_nat (length l) ->
  exists m', signal_all l m = Ok m' /\ _count m' = 0 /\ exits m' = (if decide (l = []) then exits m else S (exits m)) /\
    forall i, i ∈ _allDrainable m -> _drainState m' !! i = Some Drained.
Proof.
  induction l as [| i l IH]; intros m Ha Hn Hl Hc.
  - exists m. split_and!; try done. intros i Hi. destruct (as_answered _ _ _ Ha i Hi) as [Hd |]; [| done].
    exfalso. apply (not_elem_of_nil i). by apply Hl.
  - cbn [signal_all]. apply NoDup_cons in Hn as [Hi Hn]. destruct (proj1 (Hl i) ltac:(left)) as [Hin Hdr].
    destruct (signal_ok m _ [] i Ha) as (m1 & -> & [S1 S2] & Ha1 & _ & Hd & _); [by rewrite app_nil_r |]. cbn [obind].
    destruct (Hd Hdr) as (_ & E1 & E2). rewrite <- S1 in Ha1.
    assert (Hl1 : forall j, j ∈ l <-> j ∈ _allDrainable m1 /\ _drainState m1 !! j = Some Draining).
    { intros j. rewrite S1, E1. destruct (decide (i = j)) as [<- | Hne]; [rewrite lookup_insert_eq; naive_solver |].
      rewrite lookup_insert_ne, <- Hl, elem_of_cons by done. naive_solver. }
    assert (Hp : l ≡ₚ filter (fun j => _drainState m1 !! j = Some Draining) (_allDrainable m1)).
    { apply NoDup_Permutation; [done | apply NoDup_filter; pose proof (as_once _ _ _ Ha1) as N; by rewrite app_nil_r in N |].
      intros j. rewrite list_elem_of_filter, Hl1. naive_solver. }
    assert (Hc1 : _count m1 = Z.of_nat (length l)) by (rewrite (as_count _ _ _ Ha1), (Permutation_length Hp); done).
    destruct (IH m1 Ha1 Hn Hl1 Hc1) as (m2 & -> & F1 & F2 & F3). exists m2. split; [done |]. split; [done |]. split; [| by rewrite <- S1].
    rewrite F2, E2, Hc. cbn [length]. destruct l as [| j l]; [done |]. rewrite !decide_False by done.
    destruct (Z.eqb_spec (Z.of_nat (S (length (j :: l)))) 1) as [E | E]; [cbn in E; lia | done].
Qed.

(** An object that signals for itself when it is the first one asked is not counted yet. *)
Lemma signal_when_asked {W} (drain : nat -> W -> list nat * DrainState * W) m w i rest l s w' :
  drain_inv m -> refused m TryDrain = false -> _allDrainable m = i :: rest -> drain i w = (i :: l, s, w') -> tryDrain drain m w = Err AssertFail.
Proof.
  intros Hinv [Hs Hd]%orb_false_elim El Ed. pose proof (idle_count m Hinv Hd) as Hc. unfold tryDrain. rewrite Hs, Hc, El. cbn [panic_if Z.eqb negb obind drain_loop].
  unfold dmDrain. rewrite Ed. cbn [signal_all]. unfold signalDrainDone at 1, drainState. cbn [_drainState set_drainState set_state]. rewrite lookup_insert_eq. cbn [obind].
  unfold manager_signalDrainDone. cbn [_count set_drainState set_state]. by rewrite Hc.
Qed.

(** C34: what every call of the drain manager does, over all histories of objects that are
    created and destroyed, of attempts to drain, signals in any order and any number,
    resuming and restoring, in any order.  A call panics exactly if it is an attempt to drain
    a drained system, to resume a running one, either of them while an object still drains,
    or restoring a system that does not run; otherwise it returns, and no assertion fails.
    The count is always the number of objects that drain, and in a running or drained
    system so are all objects.  Relied on of the objects: none is created while the system
    drains and none destroyed while it drains itself (both upset the count), none is created
    by another that resumes (it would grow the vector being walked), and an object that is
    asked to drain answers Draining or Drained and meanwhile signals only for other
    registered objects.  The last is needed, though the documentation of [signalDrainDone]
    calls it safe at any time: if the first object asked signals for itself meanwhile, the
    attempt fails an assertion. *)
Theorem drain_protocol {W} (drain : nat -> W -> list nat * DrainState * W) drainResume w0 m w o :
  drain_reachable drain drainResume w0 (m, w) -> drain_op_ok drain drainResume m o ->
  (if refused m o then drain_step drain drainResume (m, w) o = Err Panic else exists x', drain_step drain drainResume (m, w) o = Ok x') /\
  _count m = Z.of_nat (draining (_allDrainable m) (_drainState m)) /\
  (_state m = Running -> forall i, i ∈ _allDrainable m -> _drainState m !! i = Some Running) /\
  (_state m = Drained -> forall i, i ∈ _allDrainable m -> _drainState m !! i = Some Drained) /\
  (forall (drain' : nat -> W -> list nat * DrainState * W) i rest l s v w', refused m TryDrain = false -> _allDrainable m = i :: rest ->
     drain' i v = (i :: l, s, w') -> tryDrain drain' m v = Err AssertFail).
Proof.
  intros Hr Hok. pose proof (drain_reachable_inv _ _ _ _ Hr) as Hinv. cbn [fst] in Hinv. split.
  { destruct (refused m o) eqn:Href; [by apply (drain_step_refused drain drainResume (m, w)) |].
    destruct (drain_step_ok drain drainResume (m, w) o Hinv Hok Href) as (x' & E & _). by exists x'. }
  split; [by destruct Hinv |]. split_and!; [| | intros drain' i rest l s v w' H1 H2 H3; by eapply signal_when_asked];
    destruct Hinv as [D1 D2 D3 D4 D5 D6]; intros Hs i Hi; destruct (D2 i Hi) as [s Es]; specialize (D5 i s Hi Es); rewrite Hs in D5; by rewrite Es, D5.
Qed.

(** An attempt to drain answers yes exactly with every object drained; otherwise, once
    the objects that drain have signalled, in any order, all are drained and the simulation
    loop has been left exactly once. *)
Theorem drain_completes {W} (drain : nat -> W -> list nat * DrainState * W) drainResume w0 m w :
  drain_reachable drain drainResume w0 (m, w) -> polite drain m -> refused m TryDrain = false ->
  exists b m' w', tryDrain drain m w = Ok (b, m', w') /\ _allDrainable m' = _allDrainable m /\
    if b then _state m' = Drained /\ forall i, i ∈ _allDrainable m -> _drainState m' !! i = Some Drained
    else 0 < _count m' /\ forall l, l ≡ₚ filter (fun i => _drainState m' !! i = Some Draining) (_allDrainable m') ->
      exists m'', signal_all l m' = Ok m'' /\ exits m'' = S (exits m') /\ _count m'' = 0 /\
        forall i, i ∈ _allDrainable m -> _drainState m'' !! i = Some Drained.
Proof.
  intros Hr Hok [Hs Hd]%orb_false_elim. pose proof (drain_reachable_inv _ _ _ _ Hr) as Hinv0. apply bool_decide_eq_false in Hs.
  destruct (tryDrain_ok drain m w Hinv0 Hs (idle_count m Hinv0 Hd) Hok) as (b & m' & w' & E & Hinv & El & Es & Hb).
  exists b, m', w'. split; [done |]. split; [done |]. destruct b; [done |]. split; [done |]. intros l Hl.
  assert (Hlen : _count m' = Z.of_nat (length l)) by (rewrite (dn_count _ Hinv), (Permutation_length Hl); done).
  destruct (signals_finish l m' (asking_all m' Hinv Es)) as (m2 & E2 & F1 & F2 & F3); [| | done |].
  - rewrite Hl. apply NoDup_filter, Hinv.
  - intros i. rewrite Hl, list_elem_of_filter. naive_solver.
  - exists m2. rewrite <- El. split_and!; try done. rewrite F2, decide_False; [done |]. intros ->. cbn in Hlen. lia.
Qed.

(** * Examples *)

(** Object 0 drains when its turn comes a second time; object 1 at once. *)
Definition ex_drain (i : nat) (w : nat) : list nat * DrainState * nat :=
  ([], if decide (i = 0%nat /\ w = 0%nat) then Draining else Drained, S w).
Definition ex_resume (i : nat) (w : nat) : list nat * nat := ([], w).
Definition ex_state (ops : list drain_op) : outcome (DrainManager * nat) :=
  foldl (fun x o => let! x := x in drain_step ex_drain ex_resume x o) (Ok (new_DrainManager, 0%nat)) ops.
Definition ex_two_objects : DrainManager := mkDrainManager [0%nat; 1%nat] {[0%nat := Running; 1%nat := Running]} 0 Running 0.

Lemma ex_two_drained : drain_reachable ex_drain ex_resume 0%nat (ex_two_objects, 0%nat).
Proof.
  apply (dn_step _ _ _ (mkDrainManager [0%nat] {[0%nat := Running]} 0 Running 0, 0%nat) (Create 1));
    [apply (dn_step _ _ _ (new_DrainManager, 0%nat) (Create 0)); [constructor | | vm_compute; reflexivity] | | vm_compute; reflexivity].
  - cbn. split; [apply not_elem_of_nil | done].
  - cbn. split; [by intros H%list_elem_of_singleton | done].
Qed.

Lemma ex_polite m : polite ex_drain m.
Proof.
  intros i w. cbn. split; [apply not_elem_of_nil |]. split; [intros j Hj; by apply not_elem_of_nil in Hj |]. destruct (decide _); auto.
Qed.

Lemma drain_protocol_witness : (exists x', drain_step ex_drain ex_resume (ex_two_objects, 0%nat) TryDrain = Ok x') /\ draining [0%nat; 1%nat] (_drainState ex_two_objects) = 0%nat.
Proof.
  destruct (drain_protocol ex_drain ex_resume 0%nat ex_two_objects 0%nat TryDrain ex_two_drained (ex_polite _)) as (H & Hc & _).
  split; [exact H |]. apply Nat2Z.inj. symmetry. exact Hc.
Defined.

Lemma drain_completes_witness : exists m' w', tryDrain ex_drain ex_two_objects 0%nat = Ok (false, m', w') /\
  exists m'', signalDrainDone 0 m' = Ok m'' /\ exits m'' = 1%nat /\ _drainState m'' !! 0%nat = Some Drained.
Proof.
  destruct (drain_completes ex_drain ex_resume 0%nat ex_two_objects 0%nat ex_two_drained (ex_polite _) eq_refl) as (b & m' & w' & E & El & H).
  vm_compute in E. injection E as <- <- <-. eexists _, _. split; [vm_compute; reflexivity |].
  destruct H as [_ H]. destruct (H [0%nat]) as (m'' & E1 & E2 & _ & E3); [vm_compute; reflexivity |]. exists m''.
  split; [vm_compute in E1 |- *; exact E1 |]. split; [exact E2 | apply E3; vm_compute; left].
Defined.

(** An object that is created while another drains starts in the Draining state without
    being counted: its first signal leaves the loop although the other still drains, and
    the signal of the other then fails an assertion. *)
Example created_while_draining :
  match ex_state [Create 0; TryDrain; Create 1; Signal 1] with
  | Ok (m, _) => exits m = 1%nat /\ _drainState m !! 0%nat = Some Draining /\ signalDrainDone 0 m = Err AssertFail
  | Err _ => False
  end.
Proof. vm_compute. auto. Qed.

(** An object that is destroyed while it drains stays counted: the loop is never left, and
    the next attempt panics. *)
Example destroyed_while_draining :
  match ex_state [Create 0; Create 1; TryDrain; Destroy 0; Signal 1] with
  | Ok (m, w) => exits m = 0%nat /\ _count m = 1 /\ tryDrain ex_drain m w = Err Panic
  | Err _ => False
  end.
Proof. vm_compute. auto. Qed.

(** An object that signals while it is asked to drain is not counted yet. *)
Example signal_while_asked :
  tryDrain (fun i (w : nat) => ([i], Drained, w)) ex_two_objects 0%nat = Err AssertFail.
Proof. vm_compute. reflexivity. Qed.

(** An object that is created when another resumes joins the vector under iteration. *)
Example created_while_resuming :
  match ex_state [Create 1; TryDrain] with
  | Ok (m, w) => resume (fun i w => ([7%nat], w)) 5 m w = Err Undefined
  | Err _ => False
  end.
Proof. vm_compute. reflexivity. Qed.
