(* ===== verification/Indexing.v ===== *)
(** Where the blocks of a cache live: the indexing policies of
    [src/gem5/src/mem/cache/tags/indexing_policies], [base.cc], [set_associative.cc] and
    [skewed_associative.cc].

    An address is cut into tag, set and offset.  A set-associative table has one set for an
    address; a skewed one has another set for every way, which it computes by hashing the
    set bits with tag bits, and undoes the hash to get the address of an entry back.
    Entries are objects, named by numbers; their positions are kept next to the table. *)
From Stdlib Require Import ZArith Lia.
From stdpp Require Import base numbers list gmap.
From S2P Require Import Prelude BitField IntMath.

Open Scope Z_scope.

(** * The table *)

Record BaseIndexingPolicy : Type := mkBaseIndexingPolicy {
  assoc : Z;
  numSets : Z;
  setShift : Z;
  setMask : Z;
  tagShift : Z;
  sets : list (list (option nat));
  positions : gmap nat (Z * Z);
}.

(** [BaseIndexingPolicy(const Params &p)]: the set count and the product below it are
    unsigned 32-bit numbers. *)
Definition new_BaseIndexingPolicy (size entry_size assoc : Z) : outcome BaseIndexingPolicy :=
  let bytes := u32 (entry_size * assoc) in
  if bytes =? 0 then Err Undefined else
  let numSets := u32 (size / bytes) in
  let! setShift := floorLog2 entry_size in
  let! n := floorLog2 numSets in
  do! fatal_if (negb (isPowerOf2 numSets)) then
  do! fatal_if (assoc <=? 0) then
  Ok (mkBaseIndexingPolicy assoc numSets setShift (u32 (numSets - 1)) (setShift + n)
        (replicate (Z.to_nat numSets) (replicate (Z.to_nat assoc) None)) ∅).

(** [ReplaceableEntry* getEntry(const uint32_t set, const uint32_t way) const]. *)
Definition getEntry (set way : Z) (p : BaseIndexingPolicy) : outcome (option nat) :=
  match sets p !! Z.to_nat set with
  | Some ways => match ways !! Z.to_nat way with Some e => Ok e | None => Err Undefined end
  | None => Err Undefined
  end.

(** [void setEntry(ReplaceableEntry* entry, const uint64_t index)]. *)
Definition setEntry (entry : nat) (index : Z) (p : BaseIndexingPolicy) : outcome BaseIndexingPolicy :=
  let set := u32 (index / assoc p) in
  let way := u32 (index mod assoc p) in
  do! assert_ (set <? numSets p) then
  match sets p !! Z.to_nat set with
  | Some ways =>
      Ok (mkBaseIndexingPolicy (assoc p) (numSets p) (setShift p) (setMask p) (tagShift p)
            (<[Z.to_nat set := <[Z.to_nat way := Some entry]> ways]> (sets p)) (<[entry := (set, way)]> (positions p)))
  | None => Err Undefined
  end.

(** [Addr extractTag(const Addr addr) const]. *)
Definition extractTag (a : Z) (p : BaseIndexingPolicy) : Z := Z.shiftr a (tagShift p).

(** * Set-associative tables *)

(** [uint32_t SetAssociative::extractSet(const Addr addr) const]. *)
Definition extractSet (a : Z) (p : BaseIndexingPolicy) : Z := u32 (Z.land (Z.shiftr a (setShift p)) (setMask p)).

(** [Addr SetAssociative::regenerateAddr(const Addr tag, const ReplaceableEntry* entry)
    const], for an entry in [set]: the set number is shifted as a 32-bit number. *)
Definition regenerateAddr (tag set : Z) (p : BaseIndexingPolicy) : Z :=
  Z.lor (u64 (Z.shiftl tag (tagShift p))) (u32 (Z.shiftl set (setShift p))).

(** [std::vector<ReplaceableEntry*> SetAssociative::getPossibleEntries(const Addr addr)]. *)
Definition getPossibleEntries (a : Z) (p : BaseIndexingPolicy) : outcome (list (option nat)) :=
  match sets p !! Z.to_nat (extractSet a p) with Some ways => Ok ways | None => Err Undefined end.

(** * Skewed tables *)

Record SkewedAssociative : Type := mkSkewedAssociative {
  base : BaseIndexingPolicy;
  msbShift : Z;
}.

Definition NUM_SKEWING_FUNCTIONS : Z := 8.

(** [SkewedAssociative(const Params &p)]. *)
Definition new_SkewedAssociative (size entry_size assoc : Z) : outcome SkewedAssociative :=
  let! b := new_BaseIndexingPolicy size entry_size assoc in
  let! n := floorLog2 (numSets b) in
  let msbShift := n - 1 in
  do! panic_if (64 <? setShift b + 2 * (msbShift + 1)) then
  do! fatal_if (numSets b <=? 2) then
  Ok (mkSkewedAssociative b msbShift).

(** [Addr hash(const Addr addr) const]. *)
Definition hash (msb_shift a : Z) : outcome Z :=
  let! lsb := bits1 a 0 in
  let! msb := bits1 a msb_shift in
  let xor_bit := Z.lxor (u8 msb) (u8 lsb) in
  insertBits (Z.shiftr a 1) msb_shift msb_shift xor_bit.

(** [Addr dehash(const Addr addr) const]. *)
Definition dehash (msb_shift a : Z) : outcome Z :=
  let! msb := bits1 a (msb_shift - 1) in
  let! xor_bit := bits1 a msb_shift in
  let lsb := Z.lxor (u8 msb) (u8 xor_bit) in
  let addr_no_msb := mbits a (msb_shift - 1) 0 in
  insertBits (u64 (Z.shiftl addr_no_msb 1)) 0 0 lsb.

(** A loop that hashes [n] times. *)
Fixpoint repeat_o (n : nat) (f : Z -> outcome Z) (a : Z) : outcome Z :=
  match n with O => Ok a | S n => let! a := f a in repeat_o n f a end.

(** [Addr skew(const Addr addr, const uint32_t way) const]. *)
Definition skew (s : SkewedAssociative) (a way : Z) : outcome Z :=
  let m := msbShift s in
  let! addr1 := bits a m 0 in
  let! addr2 := bits a (2 * (m + 1) - 1) (m + 1) in
  let mix (f g : outcome Z) (c : Z) := let! x := f in let! y := g in Ok (Z.lxor (Z.lxor x y) c) in
  let! addr1 :=
    match way mod NUM_SKEWING_FUNCTIONS with
    | 0 => mix (hash m addr1) (hash m addr2) addr2
    | 1 => mix (hash m addr1) (hash m addr2) addr1
    | 2 => mix (hash m addr1) (dehash m addr2) addr2
    | 3 => mix (hash m addr1) (dehash m addr2) addr1
    | 4 => mix (dehash m addr1) (hash m addr2) addr2
    | 5 => mix (dehash m addr1) (hash m addr2) addr1
    | 6 => mix (dehash m addr1) (dehash m addr2) addr2
    | 7 => mix (dehash m addr1) (dehash m addr2) addr1
    | _ => Err Panic
    end in
  repeat_o (Z.to_nat (way / NUM_SKEWING_FUNCTIONS)) (hash m) addr1.

(** [Addr deskew(const Addr addr, const uint32_t way) const]. *)
Definition deskew (s : SkewedAssociative) (a way : Z) : outcome Z :=
  let m := msbShift s in
  let! addr1 := bits a m 0 in
  let! addr2 := bits a (2 * (m + 1) - 1) (m + 1) in
  let! addr1 :=
    (if NUM_SKEWING_FUNCTIONS <=? way then repeat_o (Z.to_nat (way / NUM_SKEWING_FUNCTIONS)) (dehash m) addr1 else Ok addr1) in
  match way mod 8 with
  | 0 => let! h := hash m addr2 in dehash m (Z.lxor (Z.lxor addr1 h) addr2)
  | 1 => let! h := hash m addr2 in repeat_o (Z.to_nat m) (hash m) (Z.lxor addr1 h)
  | 2 => let! h := dehash m addr2 in dehash m (Z.lxor (Z.lxor addr1 h) addr2)
  | 3 => let! h := dehash m addr2 in repeat_o (Z.to_nat m) (hash m) (Z.lxor addr1 h)
  | 4 => let! h := hash m addr2 in hash m (Z.lxor (Z.lxor addr1 h) addr2)
  | 5 => let! h := hash m addr2 in repeat_o (Z.to_nat (m + 1)) (hash m) (Z.lxor addr1 h)
  | 6 => let! h := dehash m addr2 in hash m (Z.lxor (Z.lxor addr1 h) addr2)
  | 7 => let! h := dehash m addr2 in repeat_o (Z.to_nat (m + 1)) (hash m) (Z.lxor addr1 h)
  | _ => Err Panic
  end.

(** [uint32_t SkewedAssociative::extractSet(const Addr addr, const uint32_t way) const]. *)
Definition skewed_extractSet (s : SkewedAssociative) (a way : Z) : outcome Z :=
  let! x := skew s (Z.shiftr a (setShift (base s))) way in Ok (u32 (Z.land x (setMask (base s)))).

(** [Addr SkewedAssociative::regenerateAddr(...) const], for an entry at [set] and [way]. *)
Definition skewed_regenerateAddr (s : SkewedAssociative) (tag set way : Z) : outcome Z :=
  let addr_set := Z.lor (u64 (Z.shiftl tag (msbShift s + 1))) set in
  let! x := deskew s addr_set way in
  Ok (Z.lor (u64 (Z.shiftl tag (tagShift (base s)))) (u64 (Z.shiftl (Z.land x (setMask (base s))) (setShift (base s))))).

(** The loop of [SkewedAssociative::getPossibleEntries]. *)
Fixpoint possible_loop (s : SkewedAssociative) (a : Z) (n : nat) (way : Z) : outcome (list (option nat)) :=
  match n with
  | O => Ok []
  | S n =>
      let! set := skewed_extractSet s a way in
      let! e := getEntry set way (base s) in
      let! es := possible_loop s a n (way + 1) in Ok (e :: es)
  end.
Definition skewed_getPossibleEntries (a : Z) (s : SkewedAssociative) : outcome (list (option nat)) :=
  possible_loop s a (Z.to_nat (assoc (base s))) 0.

(** * The hash as a shift register *)

Lemma bits1_testbit v i : 0 <= i < 64 -> bits1 v i = Ok (Z.b2z (Z.testbit v i)).
Proof. intros Hi. unfold bits1. rewrite bits_divmod by lia. rewrite Z.sub_diag, Z.testbit_spec' by lia. done. Qed.

Lemma lxor_b2z a b : Z.lxor (u8 (Z.b2z a)) (u8 (Z.b2z b)) = Z.b2z (xorb a b).
Proof. by destruct a, b. Qed.

Lemma b2z_testbit b i : 0 <= i -> Z.testbit (Z.b2z b) i = b && (i =? 0).
Proof. intros Hi. destruct b; cbn [Z.b2z andb]; [| apply Z.bits_0]. change 1 with (2 ^ 0). rewrite Z.pow2_bits_eqb by lia. apply Z.eqb_sym. Qed.

Lemma lxor_in_width w x y : 0 <= w -> in_width w x -> in_width w y -> in_width w (Z.lxor x y).
Proof.
  intros Hw Hx Hy. apply in_width_of_bits; [done | apply Z.lxor_nonneg; unfold in_width in *; lia |].
  intros i Hi. by rewrite Z.lxor_spec, (in_width_testbit w x), (in_width_testbit w y).
Qed.

Lemma lxor_cancel a b : Z.lxor (Z.lxor a b) b = a.
Proof. by rewrite Z.lxor_assoc, Z.lxor_nilpotent, Z.lxor_0_r. Qed.

Section hashing.
Variable n : Z.
Hypothesis Hn : 2 <= n <= 32.

(** A step of the register, and back. *)
Definition advance (x : Z) : Z := Z.lor (Z.shiftr x 1) (Z.shiftl (Z.b2z (xorb (Z.testbit x (n - 1)) (Z.testbit x 0))) (n - 1)).
Definition recede (x : Z) : Z := Z.lor (wrap n (Z.shiftl x 1)) (Z.b2z (xorb (Z.testbit x (n - 2)) (Z.testbit x (n - 1)))).

Lemma advance_testbit x i : in_width n x -> 0 <= i ->
  Z.testbit (advance x) i = if i =? n - 1 then xorb (Z.testbit x (n - 1)) (Z.testbit x 0) else Z.testbit x (i + 1).
Proof.
  intros Hx Hi. unfold advance. rewrite Z.lor_spec, Z.shiftr_spec, Z.shiftl_spec by done. destruct (Z.eqb_spec i (n - 1)) as [-> | Hne].
  - rewrite (in_width_testbit n x (n - 1 + 1)) by (done || lia). rewrite Z.sub_diag, b2z_testbit by done. by rewrite andb_true_r.
  - destruct (Z.ltb_spec i (n - 1)); [rewrite (Z.testbit_neg_r _ (i - (n - 1))) by lia | rewrite b2z_testbit by lia].
    + by rewrite orb_false_r.
    + destruct (Z.eqb_spec (i - (n - 1)) 0); [lia |]. by rewrite andb_false_r, orb_false_r.
Qed.

Lemma recede_testbit x i : in_width n x -> 0 <= i < n ->
  Z.testbit (recede x) i = if i =? 0 then xorb (Z.testbit x (n - 2)) (Z.testbit x (n - 1)) else Z.testbit x (i - 1).
Proof.
  intros Hx Hi. unfold recede. rewrite Z.lor_spec, wrap_testbit, Z.shiftl_spec, b2z_testbit by lia.
  destruct (Z.ltb_spec i n); [| lia]. destruct (Z.eqb_spec i 0) as [-> | Hne]; cbn [andb].
  - by rewrite andb_true_r.
  - by rewrite andb_false_r, orb_false_r.
Qed.

Lemma advance_width x : in_width n x -> in_width n (advance x).
Proof.
  intros Hx. apply in_width_of_bits; [lia | |].
  - unfold advance. apply Z.lor_nonneg. split; [apply Z.shiftr_nonneg; unfold in_width in Hx; lia | apply Z.shiftl_nonneg; by destruct (xorb _ _)].
  - intros i Hi. rewrite advance_testbit by (done || lia). destruct (Z.eqb_spec i (n - 1)); [lia |]. apply (in_width_testbit n); done || lia.
Qed.

Lemma recede_width x : in_width n (recede x).
Proof.
  unfold recede. apply lor_in_width; [lia | apply wrap_range; lia |]. unfold in_width. assert (2 ^ 1 <= 2 ^ n) by (apply Z.pow_le_mono_r; lia).
  destruct (xorb _ _); cbn; lia.
Qed.

Lemma hash_advance x : in_width n x -> hash (n - 1) x = Ok (advance x).
Proof.
  intros Hx. unfold hash. rewrite !bits1_testbit by lia. cbn [obind]. rewrite lxor_b2z. set (b := xorb _ _).
  destruct (insertBits_testbit (Z.shiftr x 1) (n - 1) (n - 1) (Z.b2z b)) as (y & -> & Hy & Ht); [| lia | lia |].
  { apply (in_width_mono n); [lia |]. apply shiftr_in_width; done || lia. }
  f_equal. apply Z.bits_inj'. intros i Hi. destruct (Z.ltb_spec i 64).
  - rewrite Ht, advance_testbit by (done || lia). destruct (Z.eqb_spec i (n - 1)) as [-> | Hne].
    + rewrite !Z.leb_refl, Z.sub_diag, b2z_testbit by lia. cbn. by rewrite andb_true_r.
    + assert (E : (n - 1 <=? i) && (i <=? n - 1) = false) by (destruct (Z.leb_spec (n - 1) i), (Z.leb_spec i (n - 1)); done || lia).
      rewrite E, Z.shiftr_spec by lia. done.
  - rewrite (in_width_testbit 64 y), (in_width_testbit n (advance x)) by (done || lia || by apply advance_width). done.
Qed.

Lemma dehash_recede x : in_width n x -> dehash (n - 1) x = Ok (recede x).
Proof.
  intros Hx. unfold dehash. replace (n - 1 - 1) with (n - 2) by lia. rewrite !bits1_testbit by lia. cbn [obind]. rewrite lxor_b2z. set (b := xorb _ _).
  destruct (insertBits_testbit (u64 (Z.shiftl (mbits x (n - 2) 0) 1)) 0 0 (Z.b2z b)) as (y & -> & Hy & Ht); [apply wrap_range; lia | lia | lia |].
  f_equal. apply Z.bits_inj'. intros i Hi. destruct (Z.ltb_spec i 64).
  - rewrite Ht by lia. destruct (Z.ltb_spec i n) as [Hin | Hin].
    + rewrite recede_testbit by (done || lia). destruct (Z.eqb_spec i 0) as [-> | Hne].
      * rewrite Z.leb_refl, Z.sub_diag, b2z_testbit by lia. cbn. by rewrite andb_true_r.
      * assert (E : (0 <=? i) && (i <=? 0) = false) by (destruct (Z.leb_spec 0 i), (Z.leb_spec i 0); done || lia). rewrite E.
        rewrite wrap_testbit, Z.shiftl_spec by lia. destruct (Z.ltb_spec i 64); [| lia]. unfold mbits. autorewrite with zbit.
        rewrite wrap_small by (unfold in_width; lia). autorewrite with zbit.
        destruct (Z.ltb_spec (i - 1) (n - 2 + 1)), (Z.ltb_spec (i - 1) 64), (Z.ltb_spec (i - 1) 0); try lia. cbn. by rewrite andb_true_r.
    + rewrite (in_width_testbit n (recede x)) by (done || lia || apply recede_width).
      assert (E : (0 <=? i) && (i <=? 0) = false) by (destruct (Z.leb_spec 0 i), (Z.leb_spec i 0); done || lia). rewrite E.
      rewrite wrap_testbit, Z.shiftl_spec by lia. unfold mbits. autorewrite with zbit. rewrite wrap_small by (unfold in_width; lia). autorewrite with zbit.
      destruct (Z.ltb_spec (i - 1) (n - 2 + 1)); [lia |]. by rewrite ?andb_false_r.
  - rewrite (in_width_testbit 64 y), (in_width_testbit n (recede x)) by (done || lia || apply recede_width). done.
Qed.

(** The step is linear and invertible. *)
Lemma advance_lxor x y : in_width n x -> in_width n y -> advance (Z.lxor x y) = Z.lxor (advance x) (advance y).
Proof.
  intros Hx Hy. assert (Hxy : in_width n (Z.lxor x y)) by (apply lxor_in_width; done || lia).
  apply Z.bits_inj'. intros i Hi. rewrite Z.lxor_spec, !advance_testbit, !Z.lxor_spec by done.
  destruct (i =? n - 1); [| done]. by destruct (Z.testbit x (n - 1)), (Z.testbit y (n - 1)), (Z.testbit x 0), (Z.testbit y 0).
Qed.

Lemma recede_advance x : in_width n x -> recede (advance x) = x.
Proof.
  intros Hx. apply Z.bits_inj'. intros i Hi. destruct (Z.ltb_spec i n).
  - rewrite recede_testbit by (done || by apply advance_width). rewrite !advance_testbit by (done || lia). rewrite Z.eqb_refl.
    destruct (Z.eqb_spec (n - 2) (n - 1)); [lia |]. replace (n - 2 + 1) with (n - 1) by lia. destruct (Z.eqb_spec i 0) as [-> | Hne].
    + by destruct (Z.testbit x (n - 1)), (Z.testbit x 0).
    + rewrite advance_testbit by (done || lia). destruct (Z.eqb_spec (i - 1) (n - 1)); [lia |]. f_equal. lia.
  - rewrite (in_width_testbit n (recede _)), (in_width_testbit n x) by (done || lia || apply recede_width). done.
Qed.

Lemma advance_recede x : in_width n x -> advance (recede x) = x.
Proof.
  intros Hx. pose proof (recede_width x) as Hd. apply Z.bits_inj'. intros i Hi. rewrite advance_testbit by done. destruct (Z.eqb_spec i (n - 1)) as [-> | Hne].
  - rewrite !recede_testbit by (done || lia). destruct (Z.eqb_spec (n - 1) 0); [lia |]. cbn. replace (n - 1 - 1) with (n - 2) by lia.
    by destruct (Z.testbit x (n - 2)), (Z.testbit x (n - 1)).
  - destruct (Z.ltb_spec i n).
    + rewrite recede_testbit by (done || lia). destruct (Z.eqb_spec (i + 1) 0); [lia |]. f_equal. lia.
    + rewrite (in_width_testbit n (recede x)), (in_width_testbit n x) by (done || lia). done.
Qed.

Lemma iter_width k x : in_width n x -> in_width n (Nat.iter k advance x).
Proof. intros Hx. induction k; cbn; [done |]. by apply advance_width. Qed.

(** Bits come out at the low end one after the other. *)
Lemma iter_testbit k i x : in_width n x -> (Z.of_nat i < n) -> Z.testbit (Nat.iter k advance x) (Z.of_nat i) = Z.testbit (Nat.iter (i + k) advance x) 0.
Proof.
  intros Hx. revert k. induction i as [| i IH]; intros k Hi; [done |].
  replace (S i + k)%nat with (i + S k)%nat by lia. rewrite <- IH by lia. cbn [Nat.iter].
  change (Nat.iter (S k) advance x) with (advance (Nat.iter k advance x)). rewrite advance_testbit by (lia || by apply iter_width).
  destruct (Z.eqb_spec (Z.of_nat i) (n - 1)); [lia |]. f_equal. lia.
Qed.

(** The characteristic equation of the register: [n] steps are [n - 1] steps and the
    start. *)
Lemma register_cycle x : in_width n x -> Nat.iter (Z.to_nat n) advance x = Z.lxor (Nat.iter (Z.to_nat (n - 1)) advance x) x.
Proof.
  intros Hx. apply Z.bits_inj'. intros j Hj. rewrite Z.lxor_spec. destruct (Z.ltb_spec j n) as [Hjn | Hjn].
  - destruct (Z_of_nat_complete j Hj) as [i ->]. rewrite !iter_testbit by done.
    assert (E0 : Z.testbit x (Z.of_nat i) = Z.testbit (Nat.iter i advance x) 0) by (pose proof (iter_testbit 0 i x Hx Hjn) as E; by rewrite Nat.add_0_r in E).
    rewrite E0. set (y := Nat.iter i advance x). assert (Hy : in_width n y) by (by apply iter_width).
    assert (E : forall k, Nat.iter (i + k) advance x = Nat.iter k advance y) by (intros k; unfold y; rewrite Nat.add_comm; apply Nat.iter_add).
    rewrite !E. pose proof (iter_testbit 1 (Z.to_nat (n - 1)) y Hy ltac:(lia)) as E1. pose proof (iter_testbit 0 (Z.to_nat (n - 1)) y Hy ltac:(lia)) as E2.
    replace (Z.to_nat (n - 1) + 1)%nat with (Z.to_nat n) in E1 by lia. rewrite Nat.add_0_r in E2. rewrite <- E1, <- E2, Z2Nat.id by lia. cbn [Nat.iter].
    rewrite advance_testbit by (done || lia). by rewrite Z.eqb_refl.
  - rewrite !(in_width_testbit n) by (done || lia || by apply iter_width). done.
Qed.
End hashing.

(** * Skewing and its inverse *)

Section skewing.
Variable s : SkewedAssociative.
Let n := msbShift s + 1.
Hypothesis Hn : 2 <= n <= 32.

Local Abbreviation up := (advance n).
Local Abbreviation down := (recede n).

Lemma repeat_hash k x : in_width n x -> repeat_o k (hash (msbShift s)) x = Ok (Nat.iter k up x).
Proof.
  revert x. induction k as [| k IH]; intros x Hx; [done |]. cbn [repeat_o]. replace (msbShift s) with (n - 1) by (unfold n; lia).
  rewrite hash_advance by done. cbn [obind]. replace (n - 1) with (msbShift s) by (unfold n; lia). rewrite IH by (by apply advance_width). by rewrite Nat.iter_succ_r.
Qed.

Lemma repeat_dehash k x : in_width n x -> repeat_o k (dehash (msbShift s)) (Nat.iter k up x) = Ok x.
Proof.
  revert x. induction k as [| k IH]; intros x Hx; [done |]. cbn [repeat_o]. change (Nat.iter (S k) up x) with (up (Nat.iter k up x)). replace (msbShift s) with (n - 1) by (unfold n; lia).
  rewrite dehash_recede by (done || (apply advance_width; [done | by apply iter_width])). cbn [obind]. rewrite recede_advance by (done || by apply iter_width).
  replace (n - 1) with (msbShift s) by (unfold n; lia). by apply IH.
Qed.

(** What a register that is mixed with its own successor or predecessor was. *)
Lemma unmix_up x : in_width n x -> Nat.iter (Z.to_nat (n - 1)) up (Z.lxor (up x) x) = x.
Proof.
  intros Hx. assert (Hl : forall k a b, in_width n a -> in_width n b -> Nat.iter k up (Z.lxor a b) = Z.lxor (Nat.iter k up a) (Nat.iter k up b)).
  { induction k as [| k IH]; intros a b Ha Hb; [done |]. change (up (Nat.iter k up (Z.lxor a b)) = Z.lxor (up (Nat.iter k up a)) (up (Nat.iter k up b))). rewrite IH by done. apply advance_lxor; [done | by apply iter_width..]. }
  rewrite Hl by (done || by apply advance_width). rewrite <- Nat.iter_succ_r. replace (S (Z.to_nat (n - 1))) with (Z.to_nat n) by lia.
  rewrite register_cycle by done. rewrite (Z.lxor_comm _ x). apply lxor_cancel.
Qed.

Lemma unmix_down x : in_width n x -> Nat.iter (Z.to_nat n) up (Z.lxor (down x) x) = x.
Proof.
  intros Hx. pose proof (unmix_up (down x) (recede_width n Hn x)) as E. rewrite advance_recede in E by done.
  replace (Z.to_nat n) with (S (Z.to_nat (n - 1))) by lia. change (up (Nat.iter (Z.to_nat (n - 1)) up (Z.lxor (down x) x)) = x). rewrite (Z.lxor_comm (down x)), E. by apply advance_recede.
Qed.

Definition low (a : Z) : Z := a mod 2 ^ n.
Definition high (a : Z) : Z := a / 2 ^ n mod 2 ^ n.

Lemma parts a : bits a (msbShift s) 0 = Ok (low a) /\ bits a (2 * (msbShift s + 1) - 1) (msbShift s + 1) = Ok (high a) /\
  in_width n (low a) /\ in_width n (high a).
Proof.
  unfold n in *. rewrite !bits_divmod by lia. unfold low, high. rewrite Z.pow_0_r, Z.div_1_r. split_and!.
  - do 2 f_equal. f_equal. lia.
  - do 2 f_equal. f_equal. lia.
  - apply Z.mod_pos_bound. lia.
  - apply Z.mod_pos_bound. lia.
Qed.

(** What [skew] computes. *)
Lemma skew_deskew a b way : 0 <= way -> exists x, skew s a way = Ok x /\ in_width n x /\
  (low b = x -> high b = high a -> deskew s b way = Ok (low a)).
Proof.
  intros Hw. destruct (parts a) as (E1 & E2 & W1 & W2). destruct (parts b) as (F1 & F2 & _ & _).
  set (k := Z.to_nat (way / NUM_SKEWING_FUNCTIONS)).
  assert (Hm : msbShift s = n - 1) by (unfold n; lia). assert (Hm1 : Z.to_nat (msbShift s + 1) = Z.to_nat n) by done.
  assert (Hmix : exists y, in_width n y /\ (match way mod NUM_SKEWING_FUNCTIONS with
    | 0 => Z.lxor (Z.lxor (up (low a)) (up (high a))) (high a) = y
    | 1 => Z.lxor (Z.lxor (up (low a)) (up (high a))) (low a) = y
    | 2 => Z.lxor (Z.lxor (up (low a)) (down (high a))) (high a) = y
    | 3 => Z.lxor (Z.lxor (up (low a)) (down (high a))) (low a) = y
    | 4 => Z.lxor (Z.lxor (down (low a)) (up (high a))) (high a) = y
    | 5 => Z.lxor (Z.lxor (down (low a)) (up (high a))) (low a) = y
    | 6 => Z.lxor (Z.lxor (down (low a)) (down (high a))) (high a) = y
    | 7 => Z.lxor (Z.lxor (down (low a)) (down (high a))) (low a) = y
    | _ => False end)).
  { assert (Hr : 0 <= way mod NUM_SKEWING_FUNCTIONS < 8) by (apply Z.mod_pos_bound; unfold NUM_SKEWING_FUNCTIONS; lia).
    pose proof (advance_width n Hn _ W1). pose proof (advance_width n Hn _ W2). pose proof (recede_width n Hn (low a)). pose proof (recede_width n Hn (high a)).
    assert (0 <= n) by lia.
    assert (Hc : way mod NUM_SKEWING_FUNCTIONS = 0 \/ way mod NUM_SKEWING_FUNCTIONS = 1 \/ way mod NUM_SKEWING_FUNCTIONS = 2 \/ way mod NUM_SKEWING_FUNCTIONS = 3 \/
      way mod NUM_SKEWING_FUNCTIONS = 4 \/ way mod NUM_SKEWING_FUNCTIONS = 5 \/ way mod NUM_SKEWING_FUNCTIONS = 6 \/ way mod NUM_SKEWING_FUNCTIONS = 7) by lia.
    destruct Hc as [-> | [-> | [-> | [-> | [-> | [-> | [-> | ->]]]]]]]; (eexists; split; [| reflexivity]); by repeat apply lxor_in_width. }
  destruct Hmix as (y & Hy & Hmix).
  exists (Nat.iter k up y). split; [| split; [by apply iter_width |]].
  - unfold skew. rewrite E1, E2. cbn [obind]. rewrite Hm, !hash_advance, !dehash_recede by done. cbn [obind]. rewrite <- Hm.
    destruct (way mod NUM_SKEWING_FUNCTIONS) as [| [[[] | [] |] | [[] | [] |] |] |]; try done; cbn [obind]; rewrite ?Hmix; by apply repeat_hash.
  - intros Hlow Hhigh. unfold deskew. rewrite F1, F2, Hlow, Hhigh. cbn [obind].
    assert (Eun : (if NUM_SKEWING_FUNCTIONS <=? way then repeat_o (Z.to_nat (way / NUM_SKEWING_FUNCTIONS)) (dehash (msbShift s)) (Nat.iter k up y) else Ok (Nat.iter k up y)) = Ok y).
    { destruct (Z.leb_spec NUM_SKEWING_FUNCTIONS way); [by apply repeat_dehash |]. unfold k. by rewrite Z.div_small by lia. }
    rewrite Eun. cbn [obind]. rewrite Hm, hash_advance, dehash_recede by done. cbn [obind]. rewrite <- Hm.
    change (way mod 8) with (way mod NUM_SKEWING_FUNCTIONS).
    assert (Hx1 : forall u v w, Z.lxor (Z.lxor (Z.lxor (Z.lxor u v) w) v) w = u) by (intros u v w; apply Z.bits_inj'; intros i Hi; rewrite !Z.lxor_spec; by destruct (Z.testbit u i), (Z.testbit v i), (Z.testbit w i)).
    assert (Hx2 : forall u v w, Z.lxor (Z.lxor (Z.lxor u v) w) v = Z.lxor u w) by (intros u v w; apply Z.bits_inj'; intros i Hi; rewrite !Z.lxor_spec; by destruct (Z.testbit u i), (Z.testbit v i), (Z.testbit w i)).
    pose proof (advance_width n Hn _ W1). pose proof (recede_width n Hn (low a)). assert (0 <= n) by lia.
    destruct (way mod NUM_SKEWING_FUNCTIONS) as [| [[[] | [] |] | [[] | [] |] |] |]; try done; rewrite <- Hmix, ?Hx1, ?Hx2.
    all: try (rewrite Hm; first [rewrite dehash_recede by done; by rewrite recede_advance | rewrite hash_advance by done; by rewrite advance_recede]).
    all: rewrite repeat_hash by (by apply lxor_in_width); rewrite ?Hm1, ?Hm; first [by rewrite unmix_up | by rewrite unmix_down].
Qed.
End skewing.

(** * Addresses of entries *)

Lemma lor_shifted x y k : 0 <= k -> 0 <= y < 2 ^ k -> Z.lor (Z.shiftl x k) y = x * 2 ^ k + y.
Proof.
  intros Hk Hy. rewrite <- Z.shiftl_mul_pow2 by done. rewrite <- Z.lxor_lor, Z.add_nocarry_lxor; [done | |];
    apply Z.bits_inj'; intros i Hi; rewrite Z.land_spec, Z.shiftl_spec, Z.bits_0 by done;
    (destruct (Z.ltb_spec i k); [by rewrite Z.testbit_neg_r by lia | by rewrite (in_width_testbit k y), andb_false_r by done]).
Qed.

(** A table as its constructor makes it. *)
Record policy_ok (p : BaseIndexingPolicy) (n : Z) : Prop := {
  po_sets : numSets p = 2 ^ n /\ 0 <= n < 32;
  po_shift : 0 <= setShift p < 31;
  po_tag : tagShift p = setShift p + n;
  po_mask : setMask p = Z.ones n;
  po_table : length (sets p) = Z.to_nat (numSets p) /\ Forall (fun ways => length ways = Z.to_nat (assoc p)) (sets p);
  po_assoc : 0 < assoc p;
}.

Lemma new_policy size entry_size a p : 0 < entry_size < 2 ^ 31 -> new_BaseIndexingPolicy size entry_size a = Ok p -> exists n, policy_ok p n /\ setShift p = Z.log2 entry_size.
Proof.
  intros He. unfold new_BaseIndexingPolicy. destruct (_ =? 0); [done |]. set (k := u32 (size / _)).
  assert (Hk : in_width 32 k) by (apply wrap_range; lia). rewrite floorLog2_log2 by (unfold in_width in *; lia). cbn [obind].
  destruct (Z.ltb_spec 0 k) as [Hk0 | Hk0]; [| unfold floorLog2; destruct (Z.ltb_spec 0 k); [lia | done]].
  rewrite floorLog2_log2 by (unfold in_width in *; lia). cbn [obind]. destruct (isPowerOf2 k) eqn:Ep; [| done]. cbn [negb fatal_if obind].
  destruct (Z.leb_spec a 0); [done |]. cbn [fatal_if obind]. intros [= <-].
  apply isPowerOf2_spec in Ep as (n & Hn & En); [| unfold in_width in *; lia]. exists n. split; [| done].
  assert (Hlog : Z.log2 k = n) by (rewrite En; apply Z.log2_pow2; lia).
  assert (Hn32 : n < 32) by (unfold in_width in Hk; rewrite En in Hk; apply (Z.pow_lt_mono_r_iff 2); lia).
  assert (Hle : Z.log2 entry_size < 31) by (apply Z.log2_lt_pow2; lia). pose proof (Z.log2_nonneg entry_size).
  split; cbn; rewrite ?Hlog; try done; try lia.
  - rewrite wrap_small, Z.ones_equiv, En by (unfold in_width in *; lia). lia.
  - rewrite length_replicate. split; [done |]. apply Forall_replicate. by rewrite length_replicate.
Qed.

(** The set bits of an address. *)
Lemma set_bits p n a : policy_ok p n -> extractSet a p = a / 2 ^ setShift p mod 2 ^ n.
Proof.
  intros [[E1 E2] E3 E4 E5 _ _]. unfold extractSet. rewrite E5, Z.land_ones, Z.shiftr_div_pow2 by lia. apply wrap_small.
  unfold in_width. pose proof (Z.mod_pos_bound (a / 2 ^ setShift p) (2 ^ n)). assert (2 ^ n <= 2 ^ 32) by (apply Z.pow_le_mono_r; lia). lia.
Qed.

Lemma block_of a s n : 0 <= s -> 0 <= n -> a / 2 ^ (s + n) * 2 ^ (s + n) + a / 2 ^ s mod 2 ^ n * 2 ^ s = a - a mod 2 ^ s.
Proof.
  intros Hs Hn. rewrite Z.pow_add_r, <- Z.div_div by lia. pose proof (Z.div_mod a (2 ^ s) ltac:(lia)). pose proof (Z.div_mod (a / 2 ^ s) (2 ^ n) ltac:(lia)). nia.
Qed.

Lemma block_width a s : in_width 64 a -> 0 <= s -> in_width 64 (a - a mod 2 ^ s).
Proof. intros [H1 H2] Hs. pose proof (Z.mod_pos_bound a (2 ^ s) ltac:(lia)). pose proof (Z.mod_le a (2 ^ s)). unfold in_width. lia. Qed.

(** The parameters that the constructor of a skewed table accepts. *)
Definition skewed_ok (s : SkewedAssociative) (n : Z) : Prop := policy_ok (base s) n /\ msbShift s + 1 = n /\ 2 <= n /\ setShift (base s) + 2 * n <= 64.

(** What the constructor of a skewed table checks. *)
Lemma new_skewed size entry_size ways s : 0 < entry_size < 2 ^ 31 -> new_SkewedAssociative size entry_size ways = Ok s ->
  exists n, skewed_ok s n.
Proof.
  intros He. unfold skewed_ok, new_SkewedAssociative. destruct (new_BaseIndexingPolicy size entry_size ways) as [b |] eqn:Eb; [| done]. cbn [obind].
  destruct (new_policy _ _ _ _ He Eb) as (n & Hp & _). pose proof Hp as [[E1 E2] _ _ _ _ _].
  rewrite floorLog2_log2 by (rewrite E1; unfold in_width; lia || (split; [lia | apply Z.pow_lt_mono_r; lia])).
  cbn [obind]. rewrite E1, Z.log2_pow2 by lia. destruct (Z.ltb_spec 64 (setShift b + 2 * (n - 1 + 1))); [done |]. cbn [panic_if obind].
  destruct (Z.leb_spec (2 ^ n) 2) as [| Hgt]; [done |]. cbn [fatal_if obind]. intros [= <-]. exists n. cbn [base msbShift].
  split; [done |]. split; [lia |]. split; [| lia]. destruct (Z.leb_spec 2 n); [done | assert (2 ^ n <= 2 ^ 1) by (apply Z.pow_le_mono_r; lia); lia].
Qed.

(** Tag and set bits together. *)
Lemma join_bits p n a tag set : policy_ok p n -> in_width 64 a -> tag = a / 2 ^ tagShift p -> set = a / 2 ^ setShift p mod 2 ^ n ->
  Z.lor (u64 (Z.shiftl tag (tagShift p))) (u64 (Z.shiftl set (setShift p))) = a - a mod 2 ^ setShift p.
Proof.
  intros [[E1 E2] E3 E4 E5 _ _] Ha -> ->. pose proof (block_of a (setShift p) n ltac:(lia) ltac:(lia)) as Hblk. rewrite <- E4 in Hblk.
  pose proof (block_width a (setShift p) Ha ltac:(lia)) as Hbw. unfold in_width in Ha, Hbw. assert (0 <= a / 2 ^ tagShift p) by (apply Z.div_pos; lia).
  pose proof (Z.mod_pos_bound (a / 2 ^ setShift p) (2 ^ n) ltac:(lia)) as Hqm. pose proof (Z.pow_add_r 2 (setShift p) n ltac:(lia) ltac:(lia)) as Hpow. rewrite <- E4 in Hpow.
  rewrite !wrap_small by (unfold in_width; rewrite Z.shiftl_mul_pow2 by lia; nia). rewrite (Z.shiftl_mul_pow2 _ (setShift p)) by lia.
  rewrite lor_shifted; [done | lia | nia].
Qed.

Lemma skewed_back s n a way : skewed_ok s n -> in_width 64 a -> 0 <= way ->
  exists set, skewed_extractSet s a way = Ok set /\ 0 <= set < numSets (base s) /\
    skewed_regenerateAddr s (extractTag a (base s)) set way = Ok (a - a mod 2 ^ setShift (base s)).
Proof.
  intros (Hp & Hm & Hn2 & Hsh) Ha Hw. pose proof Hp as [[E1 E2] E3 E4 E5 _ _]. set (b := base s) in *.
  set (q := Z.shiftr a (setShift b)). assert (Eq : q = a / 2 ^ setShift b) by (apply Z.shiftr_div_pow2; lia).
  set (tag := extractTag a b). assert (Et : tag = a / 2 ^ tagShift b) by (apply Z.shiftr_div_pow2; lia).
  assert (Et' : tag = q / 2 ^ n) by (rewrite Et, Eq, E4, Z.pow_add_r, Z.div_div by lia; done).
  assert (Hq : 0 <= q < 2 ^ 64) by (apply (shiftr_in_width 64 a (setShift b)); done || lia).
  assert (Ht : 0 <= tag * 2 ^ n <= q) by (rewrite Et'; pose proof (Z.div_mod q (2 ^ n) ltac:(lia)); pose proof (Z.mod_pos_bound q (2 ^ n)); pose proof (Z.div_pos q (2 ^ n)); lia).
  destruct (skew_deskew s ltac:(lia) q 0 way Hw) as (x & Ex & Hx & _). rewrite Hm in Hx.
  assert (Exl : u32 (Z.land x (setMask b)) = x).
  { rewrite E5, Z.land_ones, Z.mod_small by (unfold in_width in Hx; lia). apply wrap_small. apply (in_width_mono n); [lia | done]. }
  exists x. unfold skewed_extractSet. fold b q. rewrite Ex. cbn [obind]. rewrite Exl. split; [done |]. split; [rewrite E1; exact Hx |].
  assert (Elor : Z.lor (u64 (Z.shiftl tag (msbShift s + 1))) x = tag * 2 ^ n + x).
  { rewrite Hm, wrap_small by (unfold in_width; rewrite Z.shiftl_mul_pow2; lia). apply lor_shifted; [lia | exact Hx]. }
  unfold skewed_regenerateAddr. fold b. rewrite Elor. destruct (skew_deskew s ltac:(lia) q (tag * 2 ^ n + x) way Hw) as (x' & Ex' & _ & Hde).
  rewrite Ex in Ex'. injection Ex' as <-. rewrite Hde; unfold low, high; rewrite ?Hm.
  - cbn [obind]. rewrite E5, Z.land_ones, Z.mod_mod by lia. f_equal. apply (join_bits b n a); [done | done | done | by rewrite Eq].
  - rewrite Z.add_comm, Z.mod_add by lia. by apply Z.mod_small.
  - f_equal. rewrite Z.add_comm, Z.div_add, Z.div_small by (done || lia). by rewrite Et'.
Qed.

Lemma set_associative_back p n a : policy_ok p n -> tagShift p <= 32 -> in_width 64 a ->
  0 <= extractSet a p < numSets p /\ regenerateAddr (extractTag a p) (extractSet a p) p = a - a mod 2 ^ setShift p.
Proof.
  intros Hp Ht Ha. pose proof Hp as [[E1 E2] E3 E4 E5 _ _].
  rewrite (set_bits p n) by done. pose proof (Z.mod_pos_bound (a / 2 ^ setShift p) (2 ^ n) ltac:(lia)) as Hb. split; [by rewrite E1 |].
  rewrite <- (join_bits p n a _ _ Hp Ha eq_refl eq_refl). unfold regenerateAddr, extractTag. rewrite Z.shiftr_div_pow2 by lia. f_equal.
  pose proof (Z.pow_add_r 2 (setShift p) n ltac:(lia) ltac:(lia)) as Hpow. rewrite <- E4 in Hpow. assert (2 ^ tagShift p <= 2 ^ 32) by (apply Z.pow_le_mono_r; lia).
  rewrite !wrap_small; [done | |]; unfold in_width; rewrite Z.shiftl_mul_pow2 by lia; nia.
Qed.

(** In a skewed table the address of every block is found again from its tag and the
    place of its entry, for every way: what the hashes of all eight skewing functions and
    the ways beyond them mix into the set number is undone, by the characteristic equation
    of the shift register behind the hash. *)
Theorem skewed_roundtrip size entry_size ways s a way : 0 < entry_size < 2 ^ 31 -> new_SkewedAssociative size entry_size ways = Ok s ->
  in_width 64 a -> 0 <= way ->
  exists set, skewed_extractSet s a way = Ok set /\ 0 <= set < numSets (base s) /\
    skewed_regenerateAddr s (extractTag a (base s)) set way = Ok (a - a mod 2 ^ setShift (base s)).
Proof.
  intros He Hnew Ha Hw. destruct (new_skewed _ _ _ _ He Hnew) as (n & Hs). by apply (skewed_back s n).
Qed.

(** In a set-associative table the address of every block is found again from its tag
    and set, when the set and offset bits fit into 32 bits: the set number is shifted at
    that width. *)
Theorem set_associative_roundtrip size entry_size ways p a : 0 < entry_size < 2 ^ 31 -> new_BaseIndexingPolicy size entry_size ways = Ok p ->
  tagShift p <= 32 -> in_width 64 a ->
  0 <= extractSet a p < numSets p /\ regenerateAddr (extractTag a p) (extractSet a p) p = a - a mod 2 ^ setShift p.
Proof.
  intros He Hnew Ht Ha. destruct (new_policy _ _ _ _ He Hnew) as (n & Hp & _). by apply (set_associative_back p n).
Qed.

(** * Examples *)

Definition ex_skewed : SkewedAssociative := match new_SkewedAssociative 0x10000 64 4 with Ok s => s | Err _ => mkSkewedAssociative (mkBaseIndexingPolicy 0 0 0 0 0 [] ∅) 0 end.

Lemma skewed_roundtrip_witness : exists set, skewed_extractSet ex_skewed 0xdeadbeef 3 = Ok set /\
  skewed_regenerateAddr ex_skewed (extractTag 0xdeadbeef (base ex_skewed)) set 3 = Ok 0xdeadbec0.
Proof.
  destruct (skewed_roundtrip 0x10000 64 4 ex_skewed 0xdeadbeef 3) as (set & E1 & _ & E2); [lia | vm_compute; reflexivity | unfold in_width; lia | lia |].
  exists set. split; [exact E1 | exact E2].
Defined.

Definition ex_table (size : Z) : BaseIndexingPolicy := match new_BaseIndexingPolicy size 64 1 with Ok p => p | Err _ => base ex_skewed end.

Lemma set_associative_roundtrip_witness : regenerateAddr (extractTag 0xdeadbeef (ex_table 0x10000)) (extractSet 0xdeadbeef (ex_table 0x10000)) (ex_table 0x10000) = 0xdeadbec0.
Proof.
  destruct (set_associative_roundtrip 0x10000 64 1 (ex_table 0x10000) 0xdeadbeef) as [_ E]; [lia | vm_compute; reflexivity | vm_compute; discriminate | unfold in_width; lia |].
  exact E.
Defined.

(** The fields of a direct-mapped table of 8 GB: the top bit of the set number is lost when
    it is shifted. *)
Definition ex_wide : BaseIndexingPolicy := mkBaseIndexingPolicy 1 (2 ^ 27) 6 (2 ^ 27 - 1) 33 [] ∅.
Example wide_set_lost : regenerateAddr (extractTag 0x100000040 ex_wide) (extractSet 0x100000040 ex_wide) ex_wide = 0x40.
Proof. vm_compute. reflexivity. Qed.

(** A cache smaller than one set: the logarithm fails its assertion before the message about
    the number of sets. *)
Example no_set : new_BaseIndexingPolicy 64 64 2 = Err AssertFail.
Proof. vm_compute. reflexivity. Qed.

(** * The interface to the tags *)

(** A policy with [ix_blocks] entries, linked to blocks one after the other: once all are
    linked every address has entries, from which its block is found again. *)
Class IndexingPolicy (I : Type) : Type := {
  ix_tag : Z -> I -> Z;
  ix_possible : Z -> I -> outcome (list (option nat));
  ix_setEntry : nat -> Z -> I -> outcome I;
  ix_regenerate : Z -> nat -> I -> outcome Z;
  ix_shift : I -> Z;
  ix_blocks : I -> nat;
  ix_linked : nat -> I -> Prop;
  ix_shift_ok k i : ix_linked k i -> 0 <= ix_shift i;
  ix_link_ok k i : ix_linked k i -> (k < ix_blocks i)%nat -> exists i', ix_setEntry k (Z.of_nat k) i = Ok i' /\ ix_linked (S k) i' /\ ix_blocks i' = ix_blocks i /\ ix_shift i' = ix_shift i;
  ix_lookup_ok i a : ix_linked (ix_blocks i) i -> in_width 64 a -> exists es, ix_possible a i = Ok (map Some es) /\ es <> [] /\
    forall e, e ∈ es -> (e < ix_blocks i)%nat /\ ix_regenerate (ix_tag a i) e i = Ok (a - a mod 2 ^ ix_shift i);
  ix_same_block i a b : ix_linked (ix_blocks i) i -> a / 2 ^ ix_shift i = b / 2 ^ ix_shift i -> ix_tag a i = ix_tag b i /\ ix_possible a i = ix_possible b i;
}.

(** The address of an entry, which knows its own position. *)
Definition at_position {A} (f : Z -> Z -> outcome A) (e : nat) (p : BaseIndexingPolicy) : outcome A :=
  match positions p !! e with Some (set, way) => f set way | None => Err Undefined end.

(** The first [k] entries of a table are blocks, in their order. *)
Definition ways (p : BaseIndexingPolicy) : nat := Z.to_nat (assoc p).
Definition place (p : BaseIndexingPolicy) (e : nat) : Z * Z := (Z.of_nat (e / ways p), Z.of_nat (e mod ways p)).
Definition table_linked (k : nat) (p : BaseIndexingPolicy) : Prop := forall e, (e < k)%nat ->
  positions p !! e = Some (place p e) /\ exists ws, sets p !! (e / ways p)%nat = Some ws /\ ws !! (e mod ways p)%nat = Some (Some e).
Definition table_blocks (p : BaseIndexingPolicy) : nat := Z.to_nat (numSets p) * ways p.

Section tables.
Variables (p : BaseIndexingPolicy) (n : Z).
Hypothesis Hp : policy_ok p n.
Hypothesis Hassoc : assoc p < 2 ^ 32.

Lemma ways_pos : (0 < ways p)%nat.
Proof. unfold ways. pose proof (po_assoc p n Hp). lia. Qed.

Lemma place_range e : (e < table_blocks p)%nat -> (e / ways p < Z.to_nat (numSets p))%nat /\ (e mod ways p < ways p)%nat.
Proof.
  intros He. pose proof ways_pos. split; [| apply Nat.mod_upper_bound; lia]. apply Nat.Div0.div_lt_upper_bound. unfold table_blocks in He. lia.
Qed.

Lemma div_eq_dec e k : (e / ways p = k / ways p)%nat -> (e mod ways p = k mod ways p)%nat -> e = k.
Proof. intros H1 H2. rewrite (Nat.div_mod_eq e (ways p)), (Nat.div_mod_eq k (ways p)), H1, H2. done. Qed.

Lemma link_next k : table_linked k p -> (k < table_blocks p)%nat -> exists p', setEntry k (Z.of_nat k) p = Ok p' /\ table_linked (S k) p' /\ policy_ok p' n /\
  assoc p' = assoc p /\ numSets p' = numSets p /\ setShift p' = setShift p /\ tagShift p' = tagShift p.
Proof.
  intros Hl Hk. pose proof Hp as [[E1 E2] E3 E4 E5 [E6 E6'] E7]. destruct (place_range k Hk) as [Hset Hway]. pose proof ways_pos as Hw.
  assert (2 ^ n <= 2 ^ 31) by (apply Z.pow_le_mono_r; lia).
  assert (u32 (Z.of_nat k / assoc p) = Z.of_nat (k / ways p)) as Es.
  { rewrite Nat2Z.inj_div. unfold ways. rewrite Z2Nat.id by lia. apply wrap_small. unfold in_width. split; [apply Z.div_pos; lia |].
    rewrite <- (Z2Nat.id (assoc p)) by lia. fold (ways p). rewrite <- Nat2Z.inj_div. lia. }
  assert (u32 (Z.of_nat k mod assoc p) = Z.of_nat (k mod ways p)) as Ew.
  { rewrite Nat2Z.inj_mod. unfold ways. rewrite Z2Nat.id by lia. apply wrap_small. pose proof (Z.mod_pos_bound (Z.of_nat k) (assoc p)). unfold in_width. lia. }
  unfold setEntry. rewrite Es, Ew, !Nat2Z.id. destruct (Z.ltb_spec (Z.of_nat (k / ways p)) (numSets p)); [| lia]. cbn [assert_ obind].
  destruct (lookup_lt_is_Some_2 (sets p) (k / ways p)) as [ws Hws]; [lia |]. rewrite Hws. pose proof (Forall_lookup_1 _ _ _ _ E6' Hws) as Hlen. cbn beta in Hlen.
  eexists. split; [reflexivity |]. split; [| split; [| done]].
  - intros e He. unfold place. cbn [positions sets ways assoc]. change (ways _) with (ways p). destruct (decide (e = k)) as [-> | Hne].
    + rewrite lookup_insert_eq, list_lookup_insert_eq by lia. split; [done |]. eexists. split; [done |]. apply list_lookup_insert_eq. unfold ways in *. lia.
    + destruct (Hl e ltac:(lia)) as (Hpos & ws' & Hws' & Hww). rewrite lookup_insert_ne by done. split; [done |].
      destruct (decide (e / ways p = k / ways p)%nat) as [Hd |]; [| rewrite list_lookup_insert_ne by done; eauto].
      rewrite Hd in Hws' |- *. rewrite Hws in Hws'. injection Hws' as <-. rewrite list_lookup_insert_eq by lia. eexists. split; [done |].
      rewrite list_lookup_insert_ne; [done |]. intros Hm. by apply Hne, div_eq_dec.
  - split; cbn; try done. rewrite length_insert. split; [done |]. apply Forall_insert; [done | by rewrite length_insert].
Qed.

(** The entries of a full table. *)
Hypothesis Hfull : table_linked (table_blocks p) p.

Lemma entry_at set way : (set < Z.to_nat (numSets p))%nat -> (way < ways p)%nat ->
  let e := (set * ways p + way)%nat in (e < table_blocks p)%nat /\ positions p !! e = Some (Z.of_nat set, Z.of_nat way) /\
  exists ws, sets p !! set = Some ws /\ ws !! way = Some (Some e).
Proof.
  intros Hs Hw e. assert (e < table_blocks p)%nat as He by (unfold e, table_blocks; nia). destruct (Hfull e He) as (Hpos & ws & H1 & H2).
  assert (e / ways p = set /\ e mod ways p = way)%nat as [Ed Em].
  { unfold e. rewrite Nat.add_comm. rewrite Nat.div_add, Nat.div_small, Nat.Div0.mod_add, Nat.mod_small by lia. done. }
  unfold place in Hpos. rewrite Ed, Em in *. split; [done |]. split; [done |]. by exists ws.
Qed.

Lemma set_entries set : (set < Z.to_nat (numSets p))%nat -> sets p !! set = Some (map Some (seq (set * ways p) (ways p))).
Proof.
  intros Hs. pose proof Hp as [_ _ _ _ [E6 E6'] _]. destruct (lookup_lt_is_Some_2 (sets p) set) as [ws Hws]; [lia |]. rewrite Hws. f_equal.
  pose proof (Forall_lookup_1 _ _ _ _ E6' Hws) as Hlen. cbn beta in Hlen. fold (ways p) in Hlen.
  apply list_eq. intros i. destruct (decide (i < ways p)%nat) as [Hi |].
  - destruct (entry_at set i Hs Hi) as (_ & _ & ws' & Hws' & Hi'). rewrite Hws in Hws'. injection Hws' as <-. rewrite Hi'.
    symmetry. rewrite list_lookup_fmap, lookup_seq_lt by done. done.
  - rewrite !lookup_ge_None_2; [done | rewrite length_map, length_seq; lia | lia].
Qed.
End tables.

Lemma tag_of_block p n a b : policy_ok p n -> a / 2 ^ setShift p = b / 2 ^ setShift p -> extractTag a p = extractTag b p.
Proof.
  intros [[E1 E2] E3 E4 _ _ _] H. unfold extractTag. rewrite !Z.shiftr_div_pow2, E4, Z.pow_add_r, <- !Z.div_div by lia. by rewrite H.
Qed.

Definition sa_linked (k : nat) (p : BaseIndexingPolicy) : Prop := (exists n, policy_ok p n) /\ assoc p < 2 ^ 32 /\ tagShift p <= 32 /\ table_linked k p.

#[refine] Definition SetAssociative : IndexingPolicy BaseIndexingPolicy := {|
  ix_tag := extractTag; ix_possible := getPossibleEntries; ix_setEntry := setEntry;
  ix_regenerate tag e p := at_position (fun set _ => Ok (regenerateAddr tag set p)) e p;
  ix_shift := setShift; ix_blocks := table_blocks; ix_linked := sa_linked |}.
Proof.
  - intros k p ((n & Hp) & _). pose proof (po_shift p n Hp). lia.
  - intros k p ((n & Hp) & Ha & Ht & Hl) Hk. destruct (link_next p n Hp Ha k Hl Hk) as (p' & E & Hl' & Hp' & E1 & E2 & E3 & E4).
    exists p'. split; [done |]. split; [| split; [unfold table_blocks, ways; by rewrite E1, E2 | done]]. split; [by exists n |]. rewrite E1, E4. done.
  - intros p a ((n & Hp) & Has & Ht & Hl) Ha. destruct (set_associative_back p n a Hp Ht Ha) as [Hset Hback].
    assert (Z.to_nat (extractSet a p) < Z.to_nat (numSets p))%nat as Hs by lia.
    exists (seq (Z.to_nat (extractSet a p) * ways p) (ways p)). unfold getPossibleEntries. rewrite (set_entries p n Hp Hl _ Hs). pose proof (ways_pos p n Hp) as Hw.
    split; [done |]. split; [destruct (ways p); [lia | done] |]. intros e He. apply elem_of_seq in He.
    destruct (entry_at p Hl (Z.to_nat (extractSet a p)) (e - Z.to_nat (extractSet a p) * ways p) Hs ltac:(lia)) as (Hlt & Hpos & _).
    replace (Z.to_nat (extractSet a p) * ways p + (e - Z.to_nat (extractSet a p) * ways p))%nat with e in Hlt, Hpos by lia.
    split; [done |]. unfold at_position. rewrite Hpos, Z2Nat.id by lia. by rewrite Hback.
  - intros p a b ((n & Hp) & _ & _ & _) Hab. split; [by apply (tag_of_block p n) |]. unfold getPossibleEntries, extractSet.
    pose proof Hp as [_ E3 _ _ _ _]. by rewrite !Z.shiftr_div_pow2, Hab by lia.
Defined.

Definition skewed_setEntry (e : nat) (index : Z) (s : SkewedAssociative) : outcome SkewedAssociative :=
  let! b := setEntry e index (base s) in Ok (mkSkewedAssociative b (msbShift s)).
Definition skewed_linked (k : nat) (s : SkewedAssociative) : Prop := (exists n, skewed_ok s n) /\ assoc (base s) < 2 ^ 32 /\ table_linked k (base s).

Lemma possible_ok s n a : skewed_ok s n -> table_linked (table_blocks (base s)) (base s) -> in_width 64 a -> forall m way, (way + m <= ways (base s))%nat ->
  exists es, possible_loop s a m (Z.of_nat way) = Ok (map Some es) /\ length es = m /\ forall e, e ∈ es -> (e < table_blocks (base s))%nat /\
    at_position (fun set way => skewed_regenerateAddr s (extractTag a (base s)) set way) e (base s) = Ok (a - a mod 2 ^ setShift (base s)).
Proof.
  intros Hs Hl Ha. induction m as [| m IH]; intros way Hm; [exists []; split; [done |]; split; [done |]; intros e He; by apply not_elem_of_nil in He |].
  destruct (skewed_back s n a (Z.of_nat way) Hs Ha ltac:(lia)) as (set & E & Hset & Hback). pose proof Hs as (Hp & _).
  destruct (entry_at (base s) Hl (Z.to_nat set) way ltac:(lia) ltac:(lia)) as (Hlt & Hpos & ws & Hws & Hw).
  cbn [possible_loop]. rewrite E. cbn [obind]. unfold getEntry. rewrite Hws, Nat2Z.id, Hw. cbn [obind].
  destruct (IH (S way) ltac:(lia)) as (es & Ees & Hlen & Hes). replace (Z.of_nat way + 1) with (Z.of_nat (S way)) by lia. rewrite Ees. cbn [obind].
  exists ((Z.to_nat set * ways (base s) + way)%nat :: es). split; [done |]. split; [cbn; lia |]. intros e [-> | He]%elem_of_cons; [| by apply Hes].
  split; [done |]. unfold at_position. rewrite Hpos, Z2Nat.id by lia. done.
Qed.

Lemma possible_same s a b : Z.shiftr a (setShift (base s)) = Z.shiftr b (setShift (base s)) -> forall m way, possible_loop s a m way = possible_loop s b m way.
Proof. intros H. induction m as [| m IH]; intros way; [done |]. cbn [possible_loop]. unfold skewed_extractSet. rewrite H. destruct (obind (skew _ _ _) _) as [set |]; [cbn [obind] | done]. destruct (getEntry set way (base s)); [cbn [obind] | done]. by rewrite IH. Qed.

#[refine] Definition Skewed : IndexingPolicy SkewedAssociative := {|
  ix_tag a s := extractTag a (base s); ix_possible := skewed_getPossibleEntries; ix_setEntry := skewed_setEntry;
  ix_regenerate tag e s := at_position (fun set way => skewed_regenerateAddr s tag set way) e (base s);
  ix_shift s := setShift (base s); ix_blocks s := table_blocks (base s); ix_linked := skewed_linked |}.
Proof.
  - intros k s ((n & Hp & _) & _). pose proof (po_shift (base s) n Hp). lia.
  - intros k s ((n & Hs) & Ha & Hl) Hk. pose proof Hs as (Hp & Hm & H2 & H64). destruct (link_next (base s) n Hp Ha k Hl Hk) as (p' & E & Hl' & Hp' & E1 & E2 & E3 & E4).
    unfold skewed_setEntry. rewrite E. cbn [obind]. eexists. split; [done |]. cbn [base]. split; [| split; [unfold table_blocks, ways; by rewrite E1, E2 | done]].
    split; [exists n; unfold skewed_ok; cbn [base msbShift]; rewrite E3; done |]. cbn [base]. by rewrite E1.
  - intros s a ((n & Hs) & Has & Hl) Ha. destruct (possible_ok s n a Hs Hl Ha (ways (base s)) 0) as (es & E & Hlen & Hes); [lia |].
    exists es. split; [exact E |]. split; [| done]. pose proof Hs as (Hp & _). pose proof (ways_pos (base s) n Hp). destruct es; [cbn in Hlen; lia | done].
  - intros s a b ((n & Hs) & _ & _) Hab. pose proof Hs as (Hp & _). split; [by apply (tag_of_block (base s) n) |]. apply possible_same.
    pose proof Hp as [_ E3 _ _ _ _]. by rewrite !Z.shiftr_div_pow2, Hab by lia.
Defined.

(** A new table is linked to no block. *)
Lemma new_linked size entry_size a p : 0 < entry_size < 2 ^ 31 -> a < 2 ^ 32 -> new_BaseIndexingPolicy size entry_size a = Ok p -> tagShift p <= 32 -> sa_linked 0 p.
Proof.
  intros He Ha Hnew Ht. destruct (new_policy _ _ _ _ He Hnew) as (n & Hp & _). split; [by exists n |]. split; [| split; [done | intros e; lia]].
  unfold new_BaseIndexingPolicy in Hnew. destruct (_ =? 0); [done |]. repeat obind_inv. done.
Qed.
