(* ===== verification/SatCounter.v ===== *)
(** Saturating counters: class [GenericSatCounter] of [src/gem5/src/base/sat_counter.hh], for
    a counter type of [w] bits. *)
From Stdlib Require Import ZArith Lia.
From stdpp Require Import base numbers list.
From S2P Require Import Prelude.

Open Scope Z_scope.

Record SatCounter : Type := mkSatCounter {
  initialVal : Z;
  maxVal : Z;
  counter : Z;
}.

Definition set_counter (v : Z) (c : SatCounter) : SatCounter := mkSatCounter (initialVal c) (maxVal c) v.

Section counters.
Variable w : Z.

(** [GenericSatCounter(unsigned bits, T initial_val = 0)]. *)
Definition new_SatCounter (bits initial_val : Z) : outcome SatCounter :=
  if 64 <=? bits then Err Undefined else
  let max := wrap w (u64 (Z.shiftl 1 bits) - 1) in
  do! fatal_if (w <? bits) then
  do! fatal_if (max <? initial_val) then
  Ok (mkSatCounter initial_val max initial_val).

(** [operator++()] and [operator--()]. *)
Definition sat_incr (c : SatCounter) : SatCounter := if counter c <? maxVal c then set_counter (counter c + 1) c else c.
Definition sat_decr (c : SatCounter) : SatCounter := if 0 <? counter c then set_counter (counter c - 1) c else c.

(** [operator>>=(const int& shift)] and [operator<<=(const int& shift)]: narrow counters are
    shifted as 32-bit numbers and cut back to their width. *)
Definition shift_limit : Z := Z.max 32 w.
Definition sat_shr (shift : Z) (c : SatCounter) : outcome SatCounter :=
  do! assert_ (0 <=? shift) then
  if shift_limit <=? shift then Err Undefined else Ok (set_counter (Z.shiftr (counter c) shift) c).
Definition sat_shl (shift : Z) (c : SatCounter) : outcome SatCounter :=
  do! assert_ (0 <=? shift) then
  if shift_limit <=? shift then Err Undefined else
  if (w <? 32) && (2 ^ 32 <=? Z.shiftl (counter c) shift) then Err Undefined else
  let v := wrap w (Z.shiftl (counter c) shift) in
  Ok (set_counter (if maxVal c <? v then maxVal c else v) c).

(** [operator+=(const long long& value)] and [operator-=(const long long& value)]. *)
Definition add_pos (value : Z) (c : SatCounter) : SatCounter :=
  set_counter (if value <=? maxVal c - counter c then counter c + value else maxVal c) c.
Definition sub_pos (value : Z) (c : SatCounter) : SatCounter :=
  set_counter (if value <? counter c then counter c - value else 0) c.
Definition sat_add (value : Z) (c : SatCounter) : outcome SatCounter :=
  if 0 <=? value then Ok (add_pos value c)
  else if value =? - 2 ^ 63 then Err Undefined else Ok (sub_pos (- value) c).
Definition sat_sub (value : Z) (c : SatCounter) : outcome SatCounter :=
  if 0 <=? value then Ok (sub_pos value c)
  else if value =? - 2 ^ 63 then Err Undefined else Ok (add_pos (- value) c).

(** [void reset()], [bool isSaturated() const] and [T saturate()]. *)
Definition sat_reset (c : SatCounter) : SatCounter := set_counter (initialVal c) c.
Definition isSaturated (c : SatCounter) : bool := counter c =? maxVal c.
Definition saturate (c : SatCounter) : Z * SatCounter := (maxVal c - counter c, set_counter (maxVal c) c).

(** * Histories *)

Inductive sat_op : Type :=
  | Incr | Decr | Shr (shift : Z) | Shl (shift : Z) | Add (value : Z) | Sub (value : Z) | ResetCounter | Saturate.

Definition sat_step (o : sat_op) (c : SatCounter) : outcome SatCounter :=
  match o with
  | Incr => Ok (sat_incr c)
  | Decr => Ok (sat_decr c)
  | Shr n => sat_shr n c
  | Shl n => sat_shl n c
  | Add v => sat_add v c
  | Sub v => sat_sub v c
  | ResetCounter => Ok (sat_reset c)
  | Saturate => Ok (saturate c).2
  end.

Fixpoint sat_run (ops : list sat_op) (c : SatCounter) : outcome SatCounter :=
  match ops with [] => Ok c | o :: ops => let! c := sat_step o c in sat_run ops c end.

(** The intended meaning: an integer, cut off at the ends of the range. *)
Definition clamp (max v : Z) : Z := Z.max 0 (Z.min max v).
Definition sat_spec (init max : Z) (o : sat_op) (v : Z) : Z :=
  clamp max (match o with
             | Incr => v + 1 | Decr => v - 1
             | Shr n => v / 2 ^ n | Shl n => v * 2 ^ n
             | Add x => v + x | Sub x => v - x
             | ResetCounter => init | Saturate => max
             end).

(** A left shift must not push bits out of the counter type. *)
Definition sat_op_ok (c : SatCounter) (o : sat_op) : Prop :=
  match o with
  | Shr n => 0 <= n < shift_limit
  | Shl n => 0 <= n < shift_limit /\ counter c * 2 ^ n < 2 ^ w
  | Add v | Sub v => - 2 ^ 63 < v < 2 ^ 63
  | _ => True
  end.

Definition sat_ok (c : SatCounter) : Prop := 0 <= counter c <= maxVal c /\ 0 <= initialVal c <= maxVal c /\ maxVal c < 2 ^ w.

Hypothesis Hw : 0 < w <= 64.

Lemma new_SatCounter_ok bits v : 0 < bits <= w -> bits < 64 -> 0 <= v < 2 ^ bits ->
  new_SatCounter bits v = Ok (mkSatCounter v (2 ^ bits - 1) v) /\ sat_ok (mkSatCounter v (2 ^ bits - 1) v).
Proof.
  intros Hb Hb' Hv. unfold new_SatCounter. destruct (Z.leb_spec 64 bits); [lia |]. assert (2 ^ bits <= 2 ^ w) by (apply Z.pow_le_mono_r; lia).
  assert (2 ^ bits < 2 ^ 64) by (apply Z.pow_lt_mono_r; lia). rewrite Z.shiftl_1_l, (wrap_small 64), (wrap_small w) by (unfold in_width; lia).
  destruct (Z.ltb_spec w bits); [lia |]. destruct (Z.ltb_spec (2 ^ bits - 1) v); [lia |]. split; [done |]. unfold sat_ok. cbn. lia.
Qed.

Lemma sat_step_spec o c : sat_ok c -> sat_op_ok c o ->
  sat_step o c = Ok (set_counter (sat_spec (initialVal c) (maxVal c) o (counter c)) c).
Proof.
  destruct c as [i m v]. unfold sat_ok, sat_spec, clamp. cbn [initialVal maxVal counter]. intros (Hv & Hi & Hm) Hok.
  destruct o as [| | n | n | x | x | |]; cbn [sat_step sat_op_ok counter] in *; unfold sat_incr, sat_decr, sat_shr, sat_shl, sat_add, sat_sub, add_pos, sub_pos, sat_reset, saturate, set_counter;
    cbn [initialVal maxVal counter snd].
  - destruct (Z.ltb_spec v m); do 2 f_equal; lia.
  - destruct (Z.ltb_spec 0 v); do 2 f_equal; lia.
  - destruct (Z.leb_spec 0 n); [| lia]. cbn [assert_ obind]. destruct (Z.leb_spec shift_limit n); [lia |]. rewrite Z.shiftr_div_pow2 by lia.
    assert (0 <= v / 2 ^ n <= v) by (split; [apply Z.div_pos; lia | apply Z.div_le_upper_bound; nia]). do 2 f_equal. lia.
  - destruct Hok as [Hn Hs]. destruct (Z.leb_spec 0 n); [| lia]. cbn [assert_ obind]. destruct (Z.leb_spec shift_limit n); [lia |].
    rewrite Z.shiftl_mul_pow2 by lia. assert (E : (w <? 32) && (2 ^ 32 <=? v * 2 ^ n) = false).
    { destruct (Z.ltb_spec w 32); [| done]. cbn. assert (2 ^ w <= 2 ^ 32) by (apply Z.pow_le_mono_r; lia). destruct (Z.leb_spec (2 ^ 32) (v * 2 ^ n)); [lia | done]. }
    rewrite E, wrap_small by (unfold in_width; nia). assert (0 <= v * 2 ^ n) by nia. destruct (Z.ltb_spec m (v * 2 ^ n)); do 2 f_equal; lia.
  - destruct (Z.leb_spec 0 x); [destruct (Z.leb_spec x (m - v)); do 2 f_equal; lia |]. destruct (Z.eqb_spec x (- 2 ^ 63)); [lia |].
    destruct (Z.ltb_spec (- x) v); do 2 f_equal; lia.
  - destruct (Z.leb_spec 0 x); [destruct (Z.ltb_spec x v); do 2 f_equal; lia |]. destruct (Z.eqb_spec x (- 2 ^ 63)); [lia |].
    destruct (Z.leb_spec (- x) (m - v)); do 2 f_equal; lia.
  - do 2 f_equal. lia.
  - do 2 f_equal. lia.
Qed.

Lemma sat_step_ok o c : sat_ok c -> sat_ok (set_counter (sat_spec (initialVal c) (maxVal c) o (counter c)) c).
Proof. unfold sat_ok, sat_spec, clamp. cbn. lia. Qed.

(** The operations of a history, each allowed where it is done. *)
Fixpoint sat_ops_ok (init max v : Z) (ops : list sat_op) : Prop :=
  match ops with
  | [] => True
  | o :: ops => sat_op_ok (mkSatCounter init max v) o /\ sat_ops_ok init max (sat_spec init max o v) ops
  end.

(** C39: a saturating counter of fewer than 64 bits, that fit its type, with an initial value
    that fits them, is an integer cut off at 0 and its maximum after every operation, over
    all histories of operations in which the amounts of shifts are not negative and less
    than the width a shift works in, no left shift pushes a bit out of the counter type,
    and no added or subtracted number is the least 64-bit integer. *)
Theorem counter_saturates bits v ops : 0 < bits <= w -> bits < 64 -> 0 <= v < 2 ^ bits -> sat_ops_ok v (2 ^ bits - 1) v ops ->
  exists c c', new_SatCounter bits v = Ok c /\ sat_run ops c = Ok c' /\
    counter c' = foldl (fun x o => sat_spec v (2 ^ bits - 1) o x) v ops /\ 0 <= counter c' <= 2 ^ bits - 1.
Proof.
  intros Hb Hb' Hv Hops. destruct (new_SatCounter_ok bits v Hb Hb' Hv) as [E Hok]. exists (mkSatCounter v (2 ^ bits - 1) v).
  set (max := 2 ^ bits - 1) in *.
  assert (Hrun : forall ops x, sat_ok (mkSatCounter v max x) -> sat_ops_ok v max x ops ->
    exists c', sat_run ops (mkSatCounter v max x) = Ok c' /\ counter c' = foldl (fun x o => sat_spec v max o x) x ops /\ 0 <= counter c' <= max).
  { clear Hok Hops ops. intros ops. induction ops as [| o ops IH]; intros x Hx Hall; [exists (mkSatCounter v max x); split_and!; try done; apply Hx |].
    destruct Hall as [Ho Hall]. cbn [sat_run]. rewrite sat_step_spec by done. cbn [obind set_counter initialVal maxVal counter foldl].
    apply IH; [| done]. exact (sat_step_ok o _ Hx). }
  destruct (Hrun ops v Hok Hops) as (c' & H1 & H2 & H3). exists c'. split; [done |]. split; [done |]. by split.
Qed.
End counters.

(** * Examples *)

Lemma counter_saturates_witness : exists c c', new_SatCounter 8 3 2 = Ok c /\ sat_run 8 [Add 9; Decr; Shl 1; Sub 100; Incr] c = Ok c' /\ counter c' = 1.
Proof.
  destruct (counter_saturates 8 ltac:(lia) 3 2 [Add 9; Decr; Shl 1; Sub 100; Incr]) as (c & c' & E1 & E2 & E3 & _);
    [lia | lia | lia | vm_compute; intuition congruence |].
  exists c, c'. split; [exact E1 |]. split; [exact E2 |]. rewrite E3. vm_compute. reflexivity.
Defined.

(** A left shift that pushes the top bit out of the type does not saturate. *)
Example shift_wraps : sat_shl 8 1 (mkSatCounter 0 255 128) = Ok (mkSatCounter 0 255 0).
Proof. vm_compute. reflexivity. Qed.
