(* ===== verification/Replacement.v ===== *)
(** Replacement policies of caches: [src/gem5/src/mem/cache/replacement_policies], the
    policies [LRU], [BIP], [WeightedLRU], [MRU], [LFU], [FIFO], [SecondChance], [BRRIP] and
    [Random].

    A policy keeps data for every entry, named by a number, in a store.  Time is an
    argument, and so are the random numbers that some policies draw.  What a cache relies
    on is the class [ReplacementPolicy]. *)
From Stdlib Require Import ZArith Lia Sorted.
From stdpp Require Import base numbers list gmap.
From S2P Require Import Prelude SatCounter.

Open Scope Z_scope.

(** * The interface *)

(** A policy with the entries it has data for: its operations return and keep them, and a
    victim is one of the candidates. *)
Class ReplacementPolicy (S : Type) : Type := {
  rp_touch : Z -> nat -> S -> outcome S;
  rp_reset : Z -> Z -> nat -> S -> outcome S;
  rp_invalidate : nat -> S -> outcome S;
  rp_getVictim : Z -> list nat -> S -> outcome (nat * S);
  rp_instantiateEntry : nat -> S -> outcome S;
  rp_known : S -> nat -> Prop;
  rp_instantiate_ok i s : exists s', rp_instantiateEntry i s = Ok s' /\ forall j, rp_known s' j <-> j = i \/ rp_known s j;
  rp_touch_ok cur i s : rp_known s i -> exists s', rp_touch cur i s = Ok s' /\ forall j, rp_known s' j <-> rp_known s j;
  rp_reset_ok cur draw i s : rp_known s i -> exists s', rp_reset cur draw i s = Ok s' /\ forall j, rp_known s' j <-> rp_known s j;
  rp_invalidate_ok i s : rp_known s i -> exists s', rp_invalidate i s = Ok s' /\ forall j, rp_known s' j <-> rp_known s j;
  rp_victim_ok draw cs s : cs <> [] -> 0 <= draw < Z.of_nat (length cs) -> (forall c, c ∈ cs -> rp_known s c) ->
    exists v s', rp_getVictim draw cs s = Ok (v, s') /\ v ∈ cs /\ forall j, rp_known s' j <-> rp_known s j;
}.

(** * Stores of replacement data *)

Definition data_of {D} (i : nat) (s : gmap nat D) : outcome D := match s !! i with Some d => Ok d | None => Err Undefined end.
Definition update_data {D} (f : D -> D) (i : nat) (s : gmap nat D) : outcome (gmap nat D) := let! d := data_of i s in Ok (<[i := f d]> s).

(** The search loop: a candidate that beats the victim so far takes its place. *)
Fixpoint scan {D} (beats : D -> D -> bool) (victim : nat) (cs : list nat) (s : gmap nat D) : outcome nat :=
  match cs with
  | [] => Ok victim
  | c :: cs => let! d := data_of c s in let! v := data_of victim s in scan beats (if beats d v then c else victim) cs s
  end.
Definition search {D} (beats : D -> D -> bool) (cs : list nat) (s : gmap nat D) : outcome nat :=
  match cs with [] => Err AssertFail | c :: _ => scan beats c cs s end.

(** The first candidate whose data satisfy [p]. *)
Fixpoint find_data {D} (p : D -> bool) (cs : list nat) (s : gmap nat D) : outcome (option nat) :=
  match cs with
  | [] => Ok None
  | c :: cs => let! d := data_of c s in if p d then Ok (Some c) else find_data p cs s
  end.

Definition known {D} (s : gmap nat D) (i : nat) : Prop := is_Some (s !! i).

Lemma update_data_ok {D} (f : D -> D) i s : known s i -> exists s', update_data f i s = Ok s' /\ forall j, known s' j <-> known s j.
Proof.
  intros [d Hd]. unfold update_data, data_of. rewrite Hd. eexists. split; [reflexivity |]. intros j. unfold known. rewrite lookup_insert_is_Some'. split; [| by right].
  intros [<- |]; [by eexists | done].
Qed.

Lemma scan_ok {D} (beats : D -> D -> bool) cs s : forall v, known s v -> (forall c, c ∈ cs -> known s c) -> exists w, scan beats v cs s = Ok w /\ (w = v \/ w ∈ cs) /\ known s w.
Proof.
  induction cs as [| c cs IH]; intros v Hv Hcs; [exists v; auto |]. cbn. unfold data_of. destruct (Hcs c ltac:(left)) as [d Hd]. pose proof Hv as [dv Hdv]. rewrite Hd, Hdv. cbn [obind].
  destruct (IH (if beats d dv then c else v)) as (w & -> & Hw & Hk).
  - destruct (beats d dv); [by eexists | done].
  - intros c' Hc'. apply Hcs. by right.
  - exists w. split; [done |]. split; [| done]. destruct Hw as [-> | Hw]; [| right; by right]. destruct (beats d dv); [right; by left | by left].
Qed.

Lemma search_ok {D} (beats : D -> D -> bool) cs s : cs <> [] -> (forall c, c ∈ cs -> known s c) -> exists w, search beats cs s = Ok w /\ w ∈ cs /\ known s w.
Proof.
  destruct cs as [| c cs]; intros Hne Hcs; [done |]. destruct (scan_ok beats (c :: cs) s c) as (w & E & Hw & Hk); [apply Hcs; left | done |].
  exists w. split; [done |]. split; [| done]. destruct Hw as [-> | Hw]; [left | done].
Qed.

Lemma find_data_ok {D} (p : D -> bool) cs s : (forall c, c ∈ cs -> known s c) -> exists o, find_data p cs s = Ok o /\
  match o with
  | Some c => c ∈ cs /\ exists d, s !! c = Some d /\ p d = true
  | None => forall c d, c ∈ cs -> s !! c = Some d -> p d = false
  end.
Proof.
  induction cs as [| c cs IH]; intros Hcs; [exists None; split; [done | intros c d Hc; by apply not_elem_of_nil in Hc] |]. cbn. unfold data_of.
  destruct (Hcs c ltac:(left)) as [d Hd]. rewrite Hd. cbn [obind]. destruct (p d) eqn:Ep; [exists (Some c); split; [done |]; split; [left | by exists d] |].
  destruct IH as (o & -> & Ho); [intros c' Hc'; apply Hcs; by right |]. exists o. split; [done |]. destruct o as [x |].
  - destruct Ho as [Hx Hd']. split; [by right | done].
  - intros c' d' [-> | Hc']%elem_of_cons Hd'; [congruence | by apply (Ho c')].
Qed.

(** What a search finds: nothing beats it, when beating is a strict weak order. *)
Section best.
Context {D : Type}.
Variable key : D -> Z.
Variable s : gmap nat D.

Lemma scan_least cs : forall v w dv, s !! v = Some dv -> scan (fun a b => key a <? key b) v cs s = Ok w -> exists dw, s !! w = Some dw /\ key dw <= key dv /\
  forall c d, c ∈ cs -> s !! c = Some d -> key dw <= key d.
Proof.
  induction cs as [| c cs IH]; intros v w dv Hv; cbn; [intros [= ->]; exists dv; split_and!; try done; intros c d Hc; by apply not_elem_of_nil in Hc |].
  unfold data_of. destruct (s !! c) as [d |] eqn:Ec; [| done]. cbn [obind]. rewrite Hv. cbn [obind]. intros Hs. destruct (Z.ltb_spec (key d) (key dv)).
  - destruct (IH c w d Ec Hs) as (dw & H1 & H2 & H3). exists dw. split; [done |]. split; [lia |].
    intros c' d' [-> | Hc']%elem_of_cons Hd'; [rewrite Ec in Hd'; injection Hd' as <-; lia | by apply (H3 c')].
  - destruct (IH v w dv Hv Hs) as (dw & H1 & H2 & H3). exists dw. split; [done |]. split; [lia |].
    intros c' d' [-> | Hc']%elem_of_cons Hd'; [rewrite Ec in Hd'; injection Hd' as <-; lia | by apply (H3 c')].
Qed.

Lemma search_least cs w : search (fun a b => key a <? key b) cs s = Ok w -> exists dw, s !! w = Some dw /\ forall c d, c ∈ cs -> s !! c = Some d -> key dw <= key d.
Proof.
  destruct cs as [| c cs]; [done |]. intros E. cbn [search] in E. pose proof E as E'. cbn [scan] in E'. unfold data_of in E'.
  destruct (s !! c) as [d |] eqn:Ec; [| done]. destruct (scan_least (c :: cs) c w d Ec E) as (dw & H1 & _ & H3). by exists dw.
Qed.
End best.

(** [instantiateEntry]: the data of a new entry. *)
Definition new_data {D} (d : D) (i : nat) (s : gmap nat D) : outcome (gmap nat D) := Ok (<[i := d]> s).

(** * LRU and its variants: the tick of the last touch *)

Definition lru_invalidate (i : nat) (s : gmap nat Z) : outcome (gmap nat Z) := update_data (fun _ => 0) i s.
Definition lru_touch (cur : Z) (i : nat) (s : gmap nat Z) : outcome (gmap nat Z) := update_data (fun _ => cur) i s.
Definition lru_reset (cur : Z) (i : nat) (s : gmap nat Z) : outcome (gmap nat Z) := update_data (fun _ => cur) i s.
Definition lru_getVictim (cs : list nat) (s : gmap nat Z) : outcome nat := search Z.ltb cs s.
Definition lru_instantiateEntry : Z := 0.

(** [BIP::reset], with the number drawn from 1 to 100. *)
Definition bip_reset (btp cur draw : Z) (i : nat) (s : gmap nat Z) : outcome (gmap nat Z) :=
  update_data (fun _ => if draw <=? btp then cur else 1) i s.

(** [WeightedLRU]: the tick and the occupancy. *)
Definition wlru_touch (cur occupancy : Z) (i : nat) (s : gmap nat (Z * Z)) : outcome (gmap nat (Z * Z)) := update_data (fun _ => (cur, occupancy)) i s.
Definition wlru_beats (c v : Z * Z) : bool := if c.2 <? v.2 then true else if c.2 =? v.2 then c.1 <? v.1 else false.
Definition wlru_getVictim (cs : list nat) (s : gmap nat (Z * Z)) : outcome nat := search wlru_beats cs s.

(** [MRU]: an entry that was never touched, or the one touched last. *)
Fixpoint mru_scan (victim : nat) (cs : list nat) (s : gmap nat Z) : outcome nat :=
  match cs with
  | [] => Ok victim
  | c :: cs =>
      let! d := data_of c s in
      if d =? 0 then Ok c else let! v := data_of victim s in mru_scan (if v <? d then c else victim) cs s
  end.
Definition mru_getVictim (cs : list nat) (s : gmap nat Z) : outcome nat := match cs with [] => Err AssertFail | c :: _ => mru_scan c cs s end.

(** [LFU]: an unsigned count of references. *)
Definition lfu_invalidate (i : nat) (s : gmap nat Z) : outcome (gmap nat Z) := update_data (fun _ => 0) i s.
Definition lfu_touch (i : nat) (s : gmap nat Z) : outcome (gmap nat Z) := update_data (fun n => u32 (n + 1)) i s.
Definition lfu_reset (i : nat) (s : gmap nat Z) : outcome (gmap nat Z) := update_data (fun _ => 1) i s.
Definition lfu_getVictim (cs : list nat) (s : gmap nat Z) : outcome nat := search Z.ltb cs s.

(** * FIFO and second chance *)

(** A counter gives every insertion a number; the constructor leaves it unset. *)
Record FIFO (D : Type) : Type := mkFIFO {
  timeTicks : Z;
  fifo_data : gmap nat D;
}.
Arguments mkFIFO {D}.
Arguments timeTicks {D}.
Arguments fifo_data {D}.

Definition stamp {D} (f : Z -> D -> D) (i : nat) (p : FIFO D) : outcome (FIFO D) :=
  let t := u64 (timeTicks p + 1) in let! s := update_data (f t) i (fifo_data p) in Ok (mkFIFO t s).

Definition fifo_new {D} (d : D) (i : nat) (p : FIFO D) : outcome (FIFO D) := let! s := new_data d i (fifo_data p) in Ok (mkFIFO (timeTicks p) s).
Definition fifo_invalidate (i : nat) (p : FIFO Z) : outcome (FIFO Z) := stamp (fun t _ => t) i p.
Definition fifo_touch (i : nat) (p : FIFO Z) : outcome (FIFO Z) := Ok p.
Definition fifo_reset (i : nat) (p : FIFO Z) : outcome (FIFO Z) := stamp (fun t _ => t) i p.
Definition fifo_getVictim (cs : list nat) (p : FIFO Z) : outcome nat := search Z.ltb cs (fifo_data p).

(** [SecondChance]: the number of the insertion and the second chance. *)
Definition sc_useSecondChance (i : nat) (p : FIFO (Z * bool)) : outcome (FIFO (Z * bool)) := stamp (fun t _ => (t, false)) i p.
Definition sc_invalidate (i : nat) (p : FIFO (Z * bool)) : outcome (FIFO (Z * bool)) := stamp (fun t _ => (t, false)) i p.
Definition sc_touch (i : nat) (p : FIFO (Z * bool)) : outcome (FIFO (Z * bool)) :=
  let! s := update_data (fun d => (d.1, true)) i (fifo_data p) in Ok (mkFIFO (timeTicks p) s).
Definition sc_reset (i : nat) (p : FIFO (Z * bool)) : outcome (FIFO (Z * bool)) := stamp (fun t _ => (t, false)) i p.

(** The loop of [SecondChance::getVictim]; the fuel bounds the second chances used. *)
Fixpoint sc_loop (fuel : nat) (cs : list nat) (p : FIFO (Z * bool)) : outcome (nat * FIFO (Z * bool)) :=
  match fuel with
  | O => Err Undefined
  | S fuel =>
      let! v := search (fun a b => a.1 <? b.1) cs (fifo_data p) in
      let! d := data_of v (fifo_data p) in
      if (d.2 : bool) then let! p := sc_useSecondChance v p in sc_loop fuel cs p else Ok (v, p)
  end.
Definition sc_getVictim (cs : list nat) (p : FIFO (Z * bool)) : outcome (nat * FIFO (Z * bool)) :=
  do! assert_ (bool_decide (cs <> [])) then
  let! o := find_data (fun d => (d.1 =? 0) && negb d.2) cs (fifo_data p) in
  match o with Some c => Ok (c, p) | None => sc_loop (S (length cs)) cs p end.

(** * BRRIP *)

Record BRRIPReplData : Type := mkBRRIPReplData {
  rrpv : SatCounter;
  valid : bool;
}.

Definition brrip_instantiateEntry (num_bits : Z) : outcome BRRIPReplData := let! c := new_SatCounter 8 num_bits 0 in Ok (mkBRRIPReplData c false).
Definition brrip_new (num_bits : Z) (i : nat) (s : gmap nat BRRIPReplData) : outcome (gmap nat BRRIPReplData) :=
  let! d := brrip_instantiateEntry num_bits in new_data d i s.
Definition brrip_invalidate (i : nat) (s : gmap nat BRRIPReplData) : outcome (gmap nat BRRIPReplData) :=
  update_data (fun d => mkBRRIPReplData (rrpv d) false) i s.
Definition brrip_touch (hitPriority : bool) (i : nat) (s : gmap nat BRRIPReplData) : outcome (gmap nat BRRIPReplData) :=
  update_data (fun d => mkBRRIPReplData (if hitPriority then sat_reset (rrpv d) else sat_decr (rrpv d)) (valid d)) i s.
Definition brrip_reset (btp draw : Z) (i : nat) (s : gmap nat BRRIPReplData) : outcome (gmap nat BRRIPReplData) :=
  update_data (fun d => let c := (saturate (rrpv d)).2 in mkBRRIPReplData (if draw <=? btp then sat_decr c else c) true) i s.

(** The first loop of [getVictim]: the first invalid candidate, or else the first with the
    highest value. *)
Fixpoint brrip_scan (victim : nat) (victim_RRPV : Z) (cs : list nat) (s : gmap nat BRRIPReplData) : outcome (bool * nat) :=
  match cs with
  | [] => Ok (false, victim)
  | c :: cs =>
      let! d := data_of c s in
      if negb (valid d) then Ok (true, c)
      else if victim_RRPV <? counter (rrpv d) then brrip_scan c (counter (rrpv d)) cs s else brrip_scan victim victim_RRPV cs s
  end.

(** The second loop: all candidates age by the same amount. *)
Fixpoint brrip_age (diff : Z) (cs : list nat) (s : gmap nat BRRIPReplData) : outcome (gmap nat BRRIPReplData) :=
  match cs with
  | [] => Ok s
  | c :: cs => let! s := update_data (fun d => mkBRRIPReplData (add_pos diff (rrpv d)) (valid d)) c s in brrip_age diff cs s
  end.

(** The victim is saturated, and what it lacked is added to all candidates. *)
Definition brrip_saturate (v : nat) (cs : list nat) (s : gmap nat BRRIPReplData) : outcome (nat * gmap nat BRRIPReplData) :=
  let! d := data_of v s in
  let (diff, c) := saturate (rrpv d) in
  let s := <[v := mkBRRIPReplData c (valid d)]> s in
  if 0 <? diff then let! s := brrip_age diff cs s in Ok (v, s) else Ok (v, s).

Definition brrip_getVictim (cs : list nat) (s : gmap nat BRRIPReplData) : outcome (nat * gmap nat BRRIPReplData) :=
  match cs with
  | [] => Err AssertFail
  | c :: _ =>
      let! d := data_of c s in
      let! (invalid, v) := brrip_scan c (counter (rrpv d)) cs s in
      if (invalid : bool) then Ok (v, s) else brrip_saturate v cs s
  end.

(** * Random *)

Definition random_invalidate (i : nat) (s : gmap nat bool) : outcome (gmap nat bool) := update_data (fun _ => false) i s.
Definition random_touch (i : nat) (s : gmap nat bool) : outcome (gmap nat bool) := Ok s.
Definition random_reset (i : nat) (s : gmap nat bool) : outcome (gmap nat bool) := update_data (fun _ => true) i s.
Definition random_getVictim (draw : Z) (cs : list nat) (s : gmap nat bool) : outcome nat :=
  match cs with
  | [] => Err AssertFail
  | _ :: _ =>
      match cs !! Z.to_nat draw with
      | None => Err Undefined
      | Some v => let! o := find_data negb cs s in Ok (default v o)
      end
  end.

(** * The order in which candidates are found *)

(** A search finds the first of the candidates with the least key. *)
Lemma scan_first {D} (key : D -> Z) s cs : forall v w dv, s !! v = Some dv -> scan (fun a b => key a <? key b) v cs s = Ok w ->
  (w = v /\ forall c d, c ∈ cs -> s !! c = Some d -> key dv <= key d) \/
  exists pre post dw, cs = pre ++ w :: post /\ s !! w = Some dw /\ key dw < key dv /\ forall c d, c ∈ pre -> s !! c = Some d -> key dw < key d.
Proof.
  induction cs as [| c cs IH]; intros v w dv Hv; cbn; [intros [= ->]; left; split; [done |]; intros c d Hc; by apply not_elem_of_nil in Hc |].
  unfold data_of. destruct (s !! c) as [d |] eqn:Ec; [| done]. cbn [obind]. rewrite Hv. cbn [obind]. intros Hs. destruct (Z.ltb_spec (key d) (key dv)).
  - right. destruct (IH c w d Ec Hs) as [[-> Hall] | (pre & post & dw & -> & Hw & Hlt & Hpre)].
    + exists [], cs, d. split_and!; try done. intros x ? Hx. by apply not_elem_of_nil in Hx.
    + exists (c :: pre), post, dw. split_and!; try done; [lia |]. intros x dx [-> | Hx]%elem_of_cons Hdx; [congruence | by apply (Hpre x)].
  - destruct (IH v w dv Hv Hs) as [[-> Hall] | (pre & post & dw & -> & Hw & Hlt & Hpre)].
    + left. split; [done |]. intros x dx [-> | Hx]%elem_of_cons Hdx; [rewrite Ec in Hdx; injection Hdx as <-; lia | by apply (Hall x)].
    + right. exists (c :: pre), post, dw. split_and!; try done. intros x dx [-> | Hx]%elem_of_cons Hdx; [rewrite Ec in Hdx; injection Hdx as <-; lia | by apply (Hpre x)].
Qed.

Lemma search_first {D} (key : D -> Z) s cs w : search (fun a b => key a <? key b) cs s = Ok w ->
  exists pre post dw, cs = pre ++ w :: post /\ s !! w = Some dw /\ forall c d, c ∈ pre -> s !! c = Some d -> key dw < key d.
Proof.
  destruct cs as [| c cs]; [done |]. intros E. cbn [search] in E. pose proof E as E'. cbn [scan] in E'. unfold data_of in E'.
  destruct (s !! c) as [d |] eqn:Ec; [| done]. destruct (scan_first key s (c :: cs) c w d Ec E) as [[-> _] | (pre & post & dw & -> & Hw & _ & Hpre)].
  - exists [], cs, d. split_and!; try done. intros x ? Hx. by apply not_elem_of_nil in Hx.
  - by exists pre, post, dw.
Qed.

(** * LRU against the order of use *)

(** What happens to the entries of a cache, each touch or reset at its own tick. *)
Inductive use : Type := Touch (cur : Z) (i : nat) | Reset (cur : Z) (i : nat) | Invalidate (i : nat).

Definition use_entry (u : use) : nat := match u with Touch _ i | Reset _ i | Invalidate i => i end.
Definition lru_use (u : use) (s : gmap nat Z) : outcome (gmap nat Z) :=
  match u with Touch cur i => lru_touch cur i s | Reset cur i => lru_reset cur i s | Invalidate i => lru_invalidate i s end.
Fixpoint lru_run (us : list use) (s : gmap nat Z) : outcome (gmap nat Z) :=
  match us with [] => Ok s | u :: us => let! s := lru_use u s in lru_run us s end.

(** The ticks of a history are after [now] and increase. *)
Fixpoint increasing (now : Z) (us : list use) : bool :=
  match us with
  | [] => true
  | (Touch cur _ | Reset cur _) :: us => (now <? cur) && increasing cur us
  | Invalidate _ :: us => increasing now us
  end.

(** The specification: the entries in use, the last used first. *)
Definition forget (i : nat) (R : list nat) : list nat := filter (fun j => j <> i) R.
Definition recency_use (R : list nat) (u : use) : list nat :=
  match u with Touch _ i | Reset _ i => i :: forget i R | Invalidate i => forget i R end.
Definition recency (us : list use) : list nat := foldl recency_use [] us.
Definition oldest (R cs : list nat) : option nat :=
  match filter (fun c => c ∉ R) cs with c :: _ => Some c | [] => last (filter (fun i => i ∈ cs) R) end.

Definition newer (s : gmap nat Z) (i j : nat) : Prop := default 0 (s !! j) < default 0 (s !! i).
Definition lru_rel (now : Z) (R : list nat) (s : gmap nat Z) : Prop :=
  0 <= now /\ (forall i t, s !! i = Some t -> 0 <= t <= now /\ (t = 0 <-> i ∉ R)) /\ (forall i, i ∈ R -> known s i) /\ StronglySorted (newer s) R.

Lemma elem_of_forget i j R : j ∈ forget i R <-> j <> i /\ j ∈ R.
Proof. unfold forget. by rewrite list_elem_of_filter. Qed.

Lemma forget_sorted i t s R : StronglySorted (newer s) R -> StronglySorted (newer (<[i := t]> s)) (forget i R).
Proof.
  induction 1 as [| j R HR IH Hj]; [constructor |]. unfold forget. rewrite filter_cons. destruct (decide (j <> i)) as [Hne |]; [| done].
  constructor; [done |]. rewrite Forall_forall in Hj |- *. intros k [Hk Hin]%elem_of_forget. unfold newer. rewrite !lookup_insert_ne by done. by apply Hj.
Qed.

Lemma rel_used now R s cur i : lru_rel now R s -> known s i -> now < cur -> lru_rel cur (i :: forget i R) (<[i := cur]> s).
Proof.
  intros (H0 & Hs & HR & Hsort) Hi Hcur. split_and!; [lia | | |].
  - intros j t. destruct (decide (i = j)) as [<- |].
    + rewrite lookup_insert_eq. intros [= <-]. split; [lia |]. split; [lia |]. intros Hn. destruct Hn. left.
    + rewrite lookup_insert_ne by done. intros Hj. destruct (Hs j t Hj) as [Hb He]. split; [lia |]. rewrite He, elem_of_cons, elem_of_forget. intuition congruence.
  - intros j [-> | [_ Hj]%elem_of_forget]%elem_of_cons; unfold known; rewrite lookup_insert_is_Some'; [by left | right; by apply HR].
  - constructor; [by apply forget_sorted |]. apply Forall_forall. intros k [Hk Hin]%elem_of_forget. unfold newer. rewrite lookup_insert_eq, lookup_insert_ne by done. cbn.
    destruct (HR k Hin) as [t Ht]. rewrite Ht. cbn. destruct (Hs k t Ht). lia.
Qed.

Lemma rel_invalidated now R s i : lru_rel now R s -> known s i -> lru_rel now (forget i R) (<[i := 0]> s).
Proof.
  intros (H0 & Hs & HR & Hsort) Hi. split_and!; [done | | | by apply forget_sorted].
  - intros j t. destruct (decide (i = j)) as [<- |].
    + rewrite lookup_insert_eq. intros [= <-]. split; [lia |]. rewrite elem_of_forget. intuition congruence.
    + rewrite lookup_insert_ne by done. intros Hj. destruct (Hs j t Hj) as [Hb He]. split; [lia |]. rewrite He, elem_of_forget. intuition congruence.
  - intros j [_ Hj]%elem_of_forget. unfold known. rewrite lookup_insert_is_Some'. right. by apply HR.
Qed.

Lemma update_data_eq {D} (f : D -> D) i s d : s !! i = Some d -> update_data f i s = Ok (<[i := f d]> s).
Proof. unfold update_data, data_of. by intros ->. Qed.

Lemma known_insert {D} (d : D) i s j : known s i -> known (<[i := d]> s) j <-> known s j.
Proof. intros Hi. unfold known. rewrite lookup_insert_is_Some'. split; [intros [<- |]; done | by right]. Qed.

Lemma lru_use_rel u us now R s : lru_rel now R s -> increasing now (u :: us) = true -> known s (use_entry u) ->
  exists now' s', lru_use u s = Ok s' /\ lru_rel now' (recency_use R u) s' /\ increasing now' us = true /\ forall j, known s' j <-> known s j.
Proof.
  intros Hrel Hinc Hi. pose proof Hi as [d Hd]. destruct u as [cur i | cur i | i]; cbn in *; unfold lru_touch, lru_reset, lru_invalidate; rewrite (update_data_eq _ _ _ _ Hd).
  1, 2: apply andb_true_iff in Hinc as [Hlt Hinc]; apply Z.ltb_lt in Hlt; exists cur; eexists; split_and!; [done | by apply (rel_used now) | done | intros j; by apply known_insert].
  exists now. eexists. split_and!; [done | by apply rel_invalidated | done | intros j; by apply known_insert].
Qed.

Lemma lru_run_rel us : forall now R s, lru_rel now R s -> increasing now us = true -> (forall u, u ∈ us -> known s (use_entry u)) ->
  exists now' s', lru_run us s = Ok s' /\ lru_rel now' (foldl recency_use R us) s' /\ forall j, known s' j <-> known s j.
Proof.
  induction us as [| u us IH]; intros now R s Hrel Hinc Hk; [by exists now, s |].
  destruct (lru_use_rel u us now R s Hrel Hinc (Hk u ltac:(left))) as (now1 & s1 & E1 & H1 & Hinc1 & Hk1).
  destruct (IH now1 (recency_use R u) s1 H1 Hinc1) as (now2 & s2 & E2 & H2 & Hk2).
  { intros u' Hu'. apply Hk1, Hk. by right. }
  exists now2, s2. cbn. rewrite E1. cbn [obind]. split_and!; [done | done |]. intros j. by rewrite Hk2.
Qed.

(** The last of the candidates in a sorted list has the least tick. *)
Lemma sorted_last s (R cs : list nat) v : StronglySorted (newer s) R -> v ∈ R -> v ∈ cs -> (forall c, c ∈ cs -> c ∈ R -> ~ newer s v c) -> last (filter (fun i => i ∈ cs) R) = Some v.
Proof.
  induction 1 as [| j R HR IH Hj]; intros Hin Hv Hleast; [by apply not_elem_of_nil in Hin |]. rewrite Forall_forall in Hj.
  apply elem_of_cons in Hin as [-> | Hin].
  - rewrite filter_cons_True by done. assert (filter (fun i => i ∈ cs) R = []) as ->; [| done].
    apply filter_none. intros k Hk Hc. apply (Hleast k Hc); [by right | by apply Hj].
  - assert (last (filter (fun i => i ∈ cs) R) = Some v) as E by (apply IH; try done; intros c Hc Hr; apply Hleast; [done | by right]).
    rewrite filter_cons. destruct (decide (j ∈ cs)); [| done]. by rewrite last_cons, E.
Qed.

Lemma lru_victim_rel now R s cs : lru_rel now R s -> cs <> [] -> (forall c, c ∈ cs -> known s c) -> exists v, lru_getVictim cs s = Ok v /\ oldest R cs = Some v.
Proof.
  intros (H0 & Hs & HR & Hsort) Hne Hk. destruct (search_ok Z.ltb cs s Hne Hk) as (v & E & Hv & [dv Hdv]). exists v. split; [done |].
  destruct (search_least (fun d => d) s cs v E) as (d & Hd & Hleast). destruct (search_first (fun d => d) s cs v E) as (pre & post & d' & -> & Hd' & Hpre).
  rewrite Hdv in Hd, Hd'. injection Hd as <-. injection Hd' as <-. destruct (Hs v dv Hdv) as [Hb He]. unfold oldest. destruct (decide (v ∈ R)) as [HvR | HvR].
  - assert (filter (fun c => c ∉ R) (pre ++ v :: post) = []) as ->.
    { apply filter_none. intros c Hc HcR. destruct (Hk c Hc) as [t Ht]. destruct (Hs c t Ht) as [_ Hct].
      apply Hct in HcR. pose proof (Hleast c t Hc Ht). apply He; [lia | done]. }
    apply (sorted_last s); try done. intros c Hc HcR. unfold newer. destruct (Hk c Hc) as [t Ht]. rewrite Hdv, Ht. cbn. pose proof (Hleast c t Hc Ht). lia.
  - rewrite filter_app, filter_cons_True by done. assert (filter (fun c => c ∉ R) pre = []) as ->; [| done].
    apply filter_none. intros c Hc HcR. destruct (Hk c) as [t Ht]; [apply elem_of_app; by left |].
    destruct (Hs c t Ht) as [_ Hct]. apply Hct in HcR. apply He in HvR. pose proof (Hpre c t Hc Ht). lia.
Qed.

(** The entries of a cache, as [instantiateEntry] makes them. *)
Definition new_entries {D} (d : D) (n : nat) : gmap nat D := gset_to_gmap d (set_seq 0 n).

Lemma known_new {D} (d : D) n i : known (new_entries d n) i <-> (i < n)%nat.
Proof.
  unfold known, new_entries. rewrite lookup_gset_to_gmap. split.
  - intros [x Hx]. destruct (decide (i ∈ set_seq (C := gset nat) 0 n)) as [Hin | Hn]; [apply elem_of_set_seq in Hin; lia |]. by rewrite option_guard_False in Hx.
  - intros Hi. rewrite option_guard_True by (apply elem_of_set_seq; lia). by eexists.
Qed.

Lemma rel_new n : lru_rel 0 [] (new_entries lru_instantiateEntry n).
Proof.
  split_and!; [lia | | |constructor].
  - unfold new_entries. intros i t. intros Ht. rewrite lookup_gset_to_gmap in Ht. assert (t = 0) as -> by (destruct (decide (i ∈ set_seq (C := gset nat) 0 n)); [rewrite option_guard_True in Ht by done; by injection Ht as <- | by rewrite option_guard_False in Ht]). split; [done |]. split; [intros _; apply not_elem_of_nil | done].
  - intros i Hi. by apply not_elem_of_nil in Hi.
Qed.

(** C36: least recently used is what the ticks of [LRU] implement.  After any history of
    touches, resets and invalidations, at ticks that increase, the victim is the first
    candidate that is not in use, and when all are in use the one whose last use is the
    furthest back in the order of uses. *)
Theorem lru_refines n us cs :
  increasing 0 us = true -> (forall u, u ∈ us -> (use_entry u < n)%nat) -> cs <> [] -> (forall c, c ∈ cs -> (c < n)%nat) ->
  exists s v, lru_run us (new_entries lru_instantiateEntry n) = Ok s /\ lru_getVictim cs s = Ok v /\ oldest (recency us) cs = Some v.
Proof.
  intros Hinc Hus Hne Hcs. destruct (lru_run_rel us 0 [] _ (rel_new n) Hinc) as (now & s & E & Hrel & Hk); [intros u Hu; by apply known_new, Hus |].
  destruct (lru_victim_rel now _ s cs Hrel Hne) as (v & Ev & Ho); [intros c Hc; by apply Hk, known_new, Hcs |]. by exists s, v.
Qed.

(** Four ways: 2 is used again after 0 and 1, and 1 is dropped and filled again. *)
Lemma lru_refines_witness :
  let us := [Reset 10 2; Reset 20 0; Reset 30 1; Touch 40 2; Invalidate 1; Reset 50 1; Reset 60 3] in
  (exists s v, lru_run us (new_entries lru_instantiateEntry 4) = Ok s /\ lru_getVictim [3; 2; 1; 0]%nat s = Ok v /\ oldest (recency us) [3; 2; 1; 0]%nat = Some v) /\
  oldest (recency us) [3; 2; 1; 0]%nat = Some 0%nat.
Proof.
  intros us. split; [| reflexivity]. apply lru_refines; [reflexivity | | done |].
  - intros u Hu. unfold us in Hu. repeat (apply elem_of_cons in Hu as [-> | Hu]; [cbn; lia |]). by apply not_elem_of_nil in Hu.
  - intros c Hc. repeat (apply elem_of_cons in Hc as [-> | Hc]; [lia |]). by apply not_elem_of_nil in Hc.
Defined.

(** * Second chances run out *)

Definition has_chance (p : FIFO (Z * bool)) (i : nat) : bool := match fifo_data p !! i with Some d => d.2 | None => false end.
Definition chances (cs : list nat) (p : FIFO (Z * bool)) : nat := length (filter (fun c => has_chance p c = true) cs).

Lemma chances_used cs p q v : v ∈ cs -> has_chance p v = true -> has_chance q v = false -> (forall j, j <> v -> has_chance q j = has_chance p j) ->
  (chances cs q < chances cs p)%nat.
Proof.
  unfold chances. intros Hv Hp Hq Hj. assert (forall cs, (length (filter (fun c => has_chance q c = true) cs) <= length (filter (fun c => has_chance p c = true) cs))%nat) as Hle.
  { clear Hv cs. intros cs. induction cs as [| c cs IH]; [done |]. destruct (decide (c = v)) as [-> | Hne].
    - rewrite filter_cons_False, filter_cons_True by congruence. cbn. lia.
    - rewrite !filter_cons, (Hj c Hne). destruct (decide _); cbn; lia. }
  induction cs as [| c cs IH]; [by apply not_elem_of_nil in Hv |]. destruct (decide (c = v)) as [-> | Hne].
  - rewrite filter_cons_False, filter_cons_True by congruence. cbn. pose proof (Hle cs). lia.
  - apply elem_of_cons in Hv as [-> | Hv]; [done |]. specialize (IH Hv). rewrite !filter_cons, (Hj c Hne). destruct (decide _); cbn; lia.
Qed.

(** What a search does to the entries: some lose their second chance and get a new number,
    the others stay. *)
Definition aged (p q : FIFO (Z * bool)) : Prop :=
  forall j, fifo_data q !! j = fifo_data p !! j \/ exists t t', fifo_data p !! j = Some (t, true) /\ fifo_data q !! j = Some (t', false).

Lemma aged_known p q j : aged p q -> known (fifo_data q) j <-> known (fifo_data p) j.
Proof. intros H. unfold known. destruct (H j) as [-> | (t & t' & -> & ->)]; [done |]. split; by eexists. Qed.

Lemma aged_trans p q r : aged p q -> aged q r -> aged p r.
Proof.
  intros H1 H2 j. destruct (H2 j) as [-> | (t & t' & Hq & Hr)]; [apply H1 |]. destruct (H1 j) as [E | (u & u' & Hp & Hq')]; [| congruence].
  right. exists t, t'. by rewrite <- E.
Qed.

Lemma use_chance v p t : fifo_data p !! v = Some (t, true) -> exists q, sc_useSecondChance v p = Ok q /\ timeTicks q = u64 (timeTicks p + 1) /\
  fifo_data q = <[v := (u64 (timeTicks p + 1), false)]> (fifo_data p).
Proof. intros H. unfold sc_useSecondChance, stamp. rewrite (update_data_eq _ _ _ _ H). by eexists. Qed.

Lemma use_chance_aged v p q t : fifo_data p !! v = Some (t, true) -> fifo_data q = <[v := (u64 (timeTicks p + 1), false)]> (fifo_data p) -> aged p q.
Proof.
  intros H Eq j. rewrite Eq. destruct (decide (v = j)) as [<- |]; [right | left; by rewrite lookup_insert_ne].
  rewrite lookup_insert_eq. eauto.
Qed.

(** [n] bounds the second chances left; the numbers given out are above [now] while they do
    not wrap. *)
Lemma sc_loop_ok n : forall fuel cs p, (chances cs p <= n)%nat -> (n < fuel)%nat -> cs <> [] -> (forall c, c ∈ cs -> known (fifo_data p) c) ->
  exists v q t, sc_loop fuel cs p = Ok (v, q) /\ v ∈ cs /\ fifo_data q !! v = Some (t, false) /\ aged p q /\
    (forall c d, c ∈ cs -> fifo_data q !! c = Some d -> t <= d.1) /\
    (0 <= timeTicks p -> timeTicks p + Z.of_nat n < 2 ^ 64 -> forall j, fifo_data q !! j = fifo_data p !! j \/ exists d, fifo_data q !! j = Some d /\ timeTicks p < d.1).
Proof.
  induction n as [n IH] using lt_wf_ind. intros fuel cs p Hn Hfuel Hne Hk. destruct fuel as [| fuel]; [lia |]. cbn [sc_loop].
  destruct (search_ok (fun a b => a.1 <? b.1) cs (fifo_data p) Hne Hk) as (v & E & Hv & [[t b] Hd]). rewrite E. cbn [obind]. unfold data_of. rewrite Hd. cbn [obind]. destruct b; cbn [snd].
  - destruct (use_chance v p t Hd) as (p1 & -> & Ht1 & Hp1). cbn [obind].
    assert (chances cs p1 < chances cs p)%nat as Hlt.
    { apply (chances_used cs p p1 v Hv); unfold has_chance; rewrite ?Hd, ?Hp1, ?lookup_insert_eq; [done | done |]. intros j Hj. by rewrite lookup_insert_ne. }
    pose proof (use_chance_aged v p p1 t Hd Hp1) as Ha.
    destruct (IH (pred n) ltac:(lia) fuel cs p1 ltac:(lia) ltac:(lia) Hne) as (w & q & u & Eq & Hw & Hu & Ha' & Hl & Hnow); [intros c Hc; by apply (aged_known p), Hk |].
    exists w, q, u. split_and!; try done; [by apply (aged_trans p p1) |]. intros H0 Hsm j. assert (u64 (timeTicks p + 1) = timeTicks p + 1) as Hw1 by (apply wrap_small; unfold in_width; lia).
    rewrite Ht1, Hw1 in Hnow. destruct (Hnow ltac:(lia) ltac:(lia) j) as [-> | (d & Hd' & Hlt')]; [| right; exists d; split; [done | lia]].
    rewrite Hp1. destruct (decide (v = j)) as [<- |]; [right | left; by rewrite lookup_insert_ne]. rewrite lookup_insert_eq. eexists. split; [done |]. cbn. lia.
  - exists v, p, t. split_and!; try done; [intros j; by left | | intros _ _ j; by left].
    destruct (search_least fst (fifo_data p) cs v E) as (d & Hd' & Hl). rewrite Hd in Hd'. injection Hd' as <-. done.
Qed.

(** C37: the search for a victim ends.  Every second chance is used at most once, so that
    [getVictim] returns, with a candidate that has no second chance; entries change only by
    losing their second chance.  If a candidate has the number 0 and no second chance, as
    before its first insertion, such a one is the victim and nothing changes.  Otherwise, if
    some candidate has no second chance, the victim is the one of them with the least
    number, untouched by the search, provided that the numbers of the candidates without a
    second chance are not beyond the counter of the policy and that the counter does not
    wrap during the search.  The number of an entry is that of its last reset or
    invalidation: the code numbers an invalidated entry anew, so it counts as the last one
    inserted and is not evicted first, although the comments say that invalid entries
    are. *)
Theorem second_chance_terminates cs p :
  cs <> [] -> (forall c, c ∈ cs -> known (fifo_data p) c) ->
  exists v q t, sc_getVictim cs p = Ok (v, q) /\ v ∈ cs /\ fifo_data q !! v = Some (t, false) /\ aged p q /\
    ((exists c, c ∈ cs /\ fifo_data p !! c = Some (0, false)) -> t = 0 /\ q = p) /\
    (0 <= timeTicks p -> timeTicks p + Z.of_nat (length cs) < 2 ^ 64 ->
     (forall c t', c ∈ cs -> fifo_data p !! c = Some (t', false) -> 0 <= t' <= timeTicks p) ->
     (exists c t', c ∈ cs /\ fifo_data p !! c = Some (t', false)) ->
     fifo_data p !! v = Some (t, false) /\ forall c t', c ∈ cs -> fifo_data p !! c = Some (t', false) -> t <= t').
Proof.
  intros Hne Hk. unfold sc_getVictim. rewrite bool_decide_eq_true_2 by done. cbn [assert_ obind].
  destruct (find_data_ok (fun d : Z * bool => (d.1 =? 0) && negb d.2) cs (fifo_data p) Hk) as (o & -> & Ho). cbn [obind]. destruct o as [x |].
  - destruct Ho as (Hx & [t b] & Hd & (Ht & Hb)%andb_true_iff). cbn in Ht, Hb. apply Z.eqb_eq in Ht. destruct b; [done |]. exists x, p, t.
    split_and!; try done; [intros j; by left |]. intros _ _ Hpos _. split; [done |]. intros c t' Hc Hct. specialize (Hpos c t' Hc Hct). lia.
  - assert (chances cs p <= length cs)%nat as Hle by apply length_filter.
    destruct (sc_loop_ok (length cs) (S (length cs)) cs p Hle ltac:(lia) Hne Hk) as (v & q & t & E & Hv & Hd & Ha & Hl & Hnow).
    exists v, q, t. split_and!; try done; [intros (c & Hc & Hct); by specialize (Ho c _ Hc Hct) |]. intros H0 Hsm Hpos (c & t' & Hc & Hct).
    assert (forall i u, fifo_data p !! i = Some (u, false) -> fifo_data q !! i = Some (u, false)) as Hstay.
    { intros i u Hi. destruct (Ha i) as [-> | (? & ? & Hp & _)]; [done | congruence]. }
    split; [| intros c1 t1 Hc1 Hp1; by apply (Hl c1 (t1, false) Hc1), Hstay].
    destruct (Hnow H0 Hsm v) as [<- | (d & Hd' & Hlt)]; [done |]. rewrite Hd in Hd'. injection Hd' as <-. cbn in Hlt.
    pose proof (Hl c (t', false) Hc (Hstay c t' Hct)). specialize (Hpos c t' Hc Hct). cbn in *. lia.
Qed.

(** Three entries, numbered 1 to 3; 0 and 1 were touched since.  Both lose their second
    chance and 2 is the victim, the only one without. *)
Lemma second_chance_terminates_witness :
  let p := mkFIFO 3 (<[0%nat := (1, true)]> (<[1%nat := (2, true)]> (<[2%nat := (3, false)]> ∅))) in
  exists v q t, sc_getVictim [0; 1; 2]%nat p = Ok (v, q) /\ fifo_data p !! v = Some (t, false) /\
    q = mkFIFO 5 (<[0%nat := (4, false)]> (<[1%nat := (5, false)]> (<[2%nat := (3, false)]> ∅))).
Proof.
  intros p. destruct (second_chance_terminates [0; 1; 2]%nat p) as (v & q & t & E & _ & _ & _ & _ & H); [done | |].
  - intros c Hc. repeat (apply elem_of_cons in Hc as [-> | Hc]; [by eexists |]). by apply not_elem_of_nil in Hc.
  - exists v, q, t. split; [exact E |]. split; [| vm_compute in E; injection E as <- <-; reflexivity].
    apply H; [done | done | | exists 2%nat, 3; split; [by apply (bool_decide_unpack _) | reflexivity]].
    intros c t' Hc Hct. repeat (apply elem_of_cons in Hc as [-> | Hc]; [vm_compute in Hct; first [discriminate Hct | injection Hct as <-; done] |]).
    by apply not_elem_of_nil in Hc.
Defined.

(** An invalidated entry is numbered as if it had just been inserted: it is the last one
    that [FIFO] evicts, and [SecondChance], which looks for the number 0, passes it over. *)
Example fifo_invalidated_last :
  let p := mkFIFO 2 (<[0%nat := 1]> (<[1%nat := 2]> ∅)) in
  exists q, fifo_invalidate 0 p = Ok q /\ fifo_getVictim [0; 1]%nat p = Ok 0%nat /\ fifo_getVictim [0; 1]%nat q = Ok 1%nat.
Proof. eexists. repeat split. Qed.

Example second_chance_passes_over_invalid :
  let p := mkFIFO 2 (<[0%nat := (1, false)]> (<[1%nat := (2, false)]> ∅)) in
  exists q, sc_invalidate 0 p = Ok q /\ sc_getVictim [0; 1]%nat q = Ok (1%nat, q).
Proof. eexists. repeat split. Qed.

(** * BRRIP *)

Section brrip.
Variable max : Z.
Variable s : gmap nat BRRIPReplData.

(** Data whose counter is in its range. *)
Definition counted (d : BRRIPReplData) : Prop := maxVal (rrpv d) = max /\ 0 <= counter (rrpv d) <= max.

Lemma brrip_scan_ok cs : forall v n, (forall c, c ∈ cs -> known s c) ->
  (exists pre w post d, brrip_scan v n cs s = Ok (true, w) /\ cs = pre ++ w :: post /\ s !! w = Some d /\ valid d = false /\
     forall c d, c ∈ pre -> s !! c = Some d -> valid d = true) \/
  (exists w, brrip_scan v n cs s = Ok (false, w) /\ (forall c d, c ∈ cs -> s !! c = Some d -> valid d = true) /\
     ((w = v /\ forall c d, c ∈ cs -> s !! c = Some d -> counter (rrpv d) <= n) \/
      (w ∈ cs /\ exists dw, s !! w = Some dw /\ n < counter (rrpv dw) /\ forall c d, c ∈ cs -> s !! c = Some d -> counter (rrpv d) <= counter (rrpv dw)))).
Proof.
  induction cs as [| c cs IH]; intros v n Hk.
  { right. exists v. split; [done |]. split; [| left; split; [done |]]; intros c d Hc; by apply not_elem_of_nil in Hc. }
  cbn [brrip_scan]. unfold data_of. destruct (Hk c ltac:(left)) as [d Hd]. rewrite Hd. cbn [obind]. destruct (valid d) eqn:Ev; cbn [negb].
  2: { left. exists [], c, cs, d. split_and!; try done. intros x ? Hx. by apply not_elem_of_nil in Hx. }
  assert (forall x, x ∈ cs -> known s x) as Hk' by (intros x Hx; apply Hk; by right).
  assert (forall P : BRRIPReplData -> Prop, P d -> (forall x dx, x ∈ cs -> s !! x = Some dx -> P dx) -> forall x dx, x ∈ c :: cs -> s !! x = Some dx -> P dx) as Hcons.
  { intros P Hp Hps x dx [-> | Hx]%elem_of_cons Hdx; [congruence | by apply (Hps x)]. }
  set (w0 := if n <? counter (rrpv d) then c else v). set (n0 := if n <? counter (rrpv d) then counter (rrpv d) else n).
  replace (if n <? counter (rrpv d) then _ else _) with (brrip_scan w0 n0 cs s) by (unfold w0, n0; by destruct (n <? counter (rrpv d))).
  destruct (IH w0 n0 Hk') as [(pre & w & post & dw & E & -> & Hw & Hi & Hpre) | (w & E & Hval & Hw)].
  - left. exists (c :: pre), w, post, dw. split_and!; try done. intros x dx [-> | Hx]%elem_of_cons Hdx; [congruence | by apply (Hpre x)].
  - right. exists w. split; [done |]. split; [by apply Hcons |]. unfold w0, n0 in Hw. destruct (Z.ltb_spec n (counter (rrpv d))) as [Hlt | Hge].
    + right. destruct Hw as [[-> Hle] | (Hin & dw & Hdw & Hlt' & Hle)].
      * split; [left |]. exists d. split_and!; [done | done |]. apply (Hcons (fun dx => counter (rrpv dx) <= _)); [lia | done].
      * split; [by right |]. exists dw. split_and!; [done | lia |]. apply (Hcons (fun dx => counter (rrpv dx) <= _)); [lia | done].
    + destruct Hw as [[-> Hle] | (Hin & dw & Hdw & Hlt' & Hle)]; [left | right].
      * split; [done |]. apply (Hcons (fun dx => counter (rrpv dx) <= _)); [lia | done].
      * split; [by right |]. exists dw. split_and!; [done | lia |]. apply (Hcons (fun dx => counter (rrpv dx) <= _)); [lia | done].
Qed.
End brrip.

Definition older (diff : Z) (d : BRRIPReplData) : BRRIPReplData := mkBRRIPReplData (set_counter (counter (rrpv d) + diff) (rrpv d)) (valid d).

Lemma brrip_age_ok diff cs : forall s, NoDup cs -> (forall c, c ∈ cs -> known s c) ->
  exists s', brrip_age diff cs s = Ok s' /\ forall j, s' !! j = if decide (j ∈ cs) then (fun d => mkBRRIPReplData (add_pos diff (rrpv d)) (valid d)) <$> s !! j else s !! j.
Proof.
  induction cs as [| c cs IH]; intros s Hnd Hk; [exists s; split; [done |]; intros j; rewrite decide_False; [done | apply not_elem_of_nil] |].
  apply NoDup_cons in Hnd as [Hc Hnd]. destruct (Hk c ltac:(left)) as [d Hd]. cbn [brrip_age]. rewrite (update_data_eq _ _ _ _ Hd). cbn [obind].
  destruct (IH (<[c := mkBRRIPReplData (add_pos diff (rrpv d)) (valid d)]> s) Hnd) as (s' & E & Hs').
  { intros x Hx. apply known_insert; [by eexists |]. apply Hk. by right. }
  exists s'. split; [done |]. intros j. rewrite Hs'. destruct (decide (c = j)) as [<- | Hne].
  - rewrite (decide_False (P := c ∈ cs)) by done. rewrite (decide_True (P := c ∈ c :: cs)) by left. by rewrite lookup_insert_eq, Hd.
  - rewrite lookup_insert_ne by done. destruct (decide (j ∈ cs)) as [Hin | Hn].
    + rewrite decide_True by (by right). done.
    + rewrite decide_False; [done |]. intros [<- | ?]%elem_of_cons; done.
Qed.

Lemma add_pos_in diff c : diff <= maxVal c - counter c -> add_pos diff c = set_counter (counter c + diff) c.
Proof. intros H. unfold add_pos. destruct (Z.leb_spec diff (maxVal c - counter c)); [done | lia]. Qed.

(** The two ways the search of [getVictim] ends. *)
Lemma brrip_search cs s : cs <> [] -> (forall c, c ∈ cs -> known s c) -> exists v dv, v ∈ cs /\ s !! v = Some dv /\
  if valid dv then
    brrip_getVictim cs s = brrip_saturate v cs s /\ forall c d, c ∈ cs -> s !! c = Some d -> valid d = true /\ counter (rrpv d) <= counter (rrpv dv)
  else
    brrip_getVictim cs s = Ok (v, s) /\ exists pre post, cs = pre ++ v :: post /\ forall c d, c ∈ pre -> s !! c = Some d -> valid d = true.
Proof.
  destruct cs as [| c0 cs]; intros Hne Hk; [done |]. destruct (Hk c0 ltac:(left)) as [d0 Hd0]. unfold brrip_getVictim, data_of. rewrite Hd0. cbn [obind].
  destruct (brrip_scan_ok s (c0 :: cs) c0 (counter (rrpv d0)) Hk) as [(pre & w & post & d & E & Hsplit & Hd & Hi & Hpre) | (w & E & Hval & Hw)]; rewrite E; cbn [obind].
  - exists w, d. rewrite Hi. split; [rewrite Hsplit; apply elem_of_app; right; left |]. split; [done |]. split; [done |]. by exists pre, post.
  - assert (exists dw, w ∈ c0 :: cs /\ s !! w = Some dw /\ forall c d, c ∈ c0 :: cs -> s !! c = Some d -> counter (rrpv d) <= counter (rrpv dw)) as (dw & Hin & Hdw & Hle).
    { destruct Hw as [[-> Hle] | (Hin & dw & Hdw & _ & Hle)]; [exists d0; split_and!; [left | done | done] | by exists dw]. }
    exists w, dw. rewrite (Hval w dw Hin Hdw). do 3 (split; [done |]). intros c d Hc Hd. split; [by apply (Hval c) | by apply (Hle c)].
Qed.

(** What is left when the victim is found: it is saturated, and the others age. *)
Lemma brrip_aged max cs s v dv :
  NoDup cs -> (forall c, c ∈ cs -> exists d, s !! c = Some d /\ counted max d) -> v ∈ cs -> s !! v = Some dv ->
  (forall c d, c ∈ cs -> s !! c = Some d -> counter (rrpv d) <= counter (rrpv dv)) ->
  exists s', brrip_saturate v cs s = Ok (v, s') /\
    forall j, s' !! j = if decide (j ∈ cs) then older (max - counter (rrpv dv)) <$> s !! j else s !! j.
Proof.
  intros Hnd Hcs Hv Hdv Hle. unfold brrip_saturate, data_of. rewrite Hdv. cbn [obind saturate].
  set (diff := maxVal (rrpv dv) - counter (rrpv dv)). set (s1 := <[v := _]> s). destruct (Hcs v Hv) as (dv' & Hdv' & Hmax & Hb). rewrite Hdv in Hdv'. injection Hdv' as <-.
  assert (s1 !! v = older diff <$> s !! v) as Hs1v.
  { unfold s1, older, diff, set_counter. rewrite lookup_insert_eq, Hdv. cbn. do 3 f_equal. lia. }
  assert (forall j, j <> v -> s1 !! j = s !! j) as Hs1 by (intros j Hj; unfold s1; by rewrite lookup_insert_ne).
  assert (diff = max - counter (rrpv dv)) as Hdiff by (unfold diff; lia). rewrite <- Hdiff. destruct (Z.ltb_spec 0 diff) as [Hpos | Hz].
  - destruct (brrip_age_ok diff cs s1 Hnd) as (s' & E & Hs'); [intros c Hc; apply known_insert; [by eexists |]; destruct (Hcs c Hc) as (d & ? & _); by exists d |].
    exists s'. rewrite E. split; [done |]. intros j. rewrite Hs'. destruct (decide (j ∈ cs)) as [Hj | Hj]; [| apply Hs1; congruence].
    destruct (decide (j = v)) as [-> | Hne].
    + rewrite Hs1v, Hdv. cbn. unfold older, add_pos, set_counter. cbn. do 3 f_equal. destruct (Z.leb_spec diff (maxVal (rrpv dv) - (counter (rrpv dv) + diff))); lia.
    + rewrite (Hs1 j Hne). destruct (Hcs j Hj) as (d & Hd & Hm & _). rewrite Hd. cbn. unfold older. rewrite add_pos_in; [done |]. specialize (Hle j d Hj Hd). lia.
  - exists s1. split; [done |]. intros j. destruct (decide (j = v)) as [-> | Hne]; [by rewrite decide_True, Hs1v |]. rewrite (Hs1 j Hne).
    destruct (decide (j ∈ cs)) as [Hj |]; [| done]. destruct (Hcs j Hj) as (d & Hd & _). rewrite Hd. cbn. unfold older.
    assert (diff = 0) as -> by lia. rewrite Z.add_0_r. by destruct d as [[] ].
Qed.

(** The victim of [BRRIP] and the aging.  An invalid candidate goes first.  Otherwise the
    victim has the highest re-reference value of all the candidates, and every candidate ages
    by the same amount, what the victim lacked to the maximum: no value saturates on the way,
    so that their differences are kept, and entries that are no candidates stay. *)
Theorem brrip_victim max cs s :
  cs <> [] -> NoDup cs -> (forall c, c ∈ cs -> exists d, s !! c = Some d /\ counted max d) ->
  exists v s' dv, brrip_getVictim cs s = Ok (v, s') /\ v ∈ cs /\ s !! v = Some dv /\
    if valid dv then
      (forall c d, c ∈ cs -> s !! c = Some d -> valid d = true /\ counter (rrpv d) <= counter (rrpv dv)) /\
      forall j, s' !! j = if decide (j ∈ cs) then older (max - counter (rrpv dv)) <$> s !! j else s !! j
    else
      s' = s /\ exists pre post, cs = pre ++ v :: post /\ forall c d, c ∈ pre -> s !! c = Some d -> valid d = true.
Proof.
  intros Hne Hnd Hcs. assert (forall c, c ∈ cs -> known s c) as Hk by (intros c Hc; destruct (Hcs c Hc) as (d & ? & _); by exists d).
  destruct (brrip_search cs s Hne Hk) as (v & dv & Hv & Hdv & Hend). destruct (valid dv) eqn:Ev.
  - destruct Hend as [E Hall]. destruct (brrip_aged max cs s v dv Hnd Hcs Hv Hdv) as (s' & E' & Hs'); [intros c d Hc Hd; by apply (Hall c) |].
    exists v, s', dv. rewrite Ev, E. by split_and!.
  - destruct Hend as [E Hfirst]. exists v, s, dv. rewrite Ev, E. by split_and!.
Qed.

(** Two-bit values 0, 2 and 1: the second is the victim and all gain one. *)
Lemma brrip_victim_witness :
  let d n := mkBRRIPReplData (mkSatCounter 0 3 n) true in
  let s := <[0%nat := d 0]> (<[1%nat := d 2]> (<[2%nat := d 1]> ∅)) in
  (exists v s' dv, brrip_getVictim [0; 1; 2]%nat s = Ok (v, s') /\ v ∈ [0; 1; 2]%nat /\ s !! v = Some dv /\
    if valid dv then
      (forall c d, c ∈ [0; 1; 2]%nat -> s !! c = Some d -> valid d = true /\ counter (rrpv d) <= counter (rrpv dv)) /\
      forall j, s' !! j = if decide (j ∈ [0; 1; 2]%nat) then older (3 - counter (rrpv dv)) <$> s !! j else s !! j
    else
      s' = s /\ exists pre post, [0; 1; 2]%nat = pre ++ v :: post /\ forall c d, c ∈ pre -> s !! c = Some d -> valid d = true) /\
  brrip_getVictim [0; 1; 2]%nat s = Ok (1%nat, <[0%nat := d 1]> (<[1%nat := d 3]> (<[2%nat := d 2]> ∅))).
Proof.
  intros d s. split; [| reflexivity]. apply (brrip_victim 3); [done | apply (bool_decide_unpack (NoDup [0; 1; 2]%nat)); vm_compute; exact I |].
  intros c Hc. repeat (apply elem_of_cons in Hc as [-> | Hc]; [eexists; split; [reflexivity |]; split; [reflexivity | cbn; lia] |]). by apply not_elem_of_nil in Hc.
Defined.

(** * What the policies promise *)

Lemma stamp_ok {D} (f : Z -> D -> D) i p : known (fifo_data p) i -> exists q, stamp f i p = Ok q /\ forall j, known (fifo_data q) j <-> known (fifo_data p) j.
Proof.
  intros Hi. unfold stamp. destruct (update_data_ok (f (u64 (timeTicks p + 1))) i (fifo_data p) Hi) as (s' & -> & Hk). cbn [obind]. by eexists.
Qed.

Lemma new_data_ok {D} (d : D) i s : exists s', new_data d i s = Ok s' /\ forall j, known s' j <-> j = i \/ known s j.
Proof. eexists. split; [done |]. intros j. unfold known. rewrite lookup_insert_is_Some'. intuition congruence. Qed.

Lemma fifo_new_ok {D} (d : D) i p : exists q, fifo_new d i p = Ok q /\ forall j, known (fifo_data q) j <-> j = i \/ known (fifo_data p) j.
Proof. destruct (new_data_ok d i (fifo_data p)) as (s' & E & Hk). unfold fifo_new. rewrite E. by eexists. Qed.

Lemma brrip_new_ok num_bits i s : 0 < num_bits <= 8 -> exists s', brrip_new num_bits i s = Ok s' /\ forall j, known s' j <-> j = i \/ known s j.
Proof.
  intros Hb. unfold brrip_new. assert (exists d, brrip_instantiateEntry num_bits = Ok d) as [d ->]; [| apply new_data_ok].
  assert (num_bits = 1 \/ num_bits = 2 \/ num_bits = 3 \/ num_bits = 4 \/ num_bits = 5 \/ num_bits = 6 \/ num_bits = 7 \/ num_bits = 8) as Hn by lia.
  repeat destruct Hn as [-> | Hn]; try subst num_bits; by eexists.
Qed.

Lemma sc_touch_ok i p : known (fifo_data p) i -> exists q, sc_touch i p = Ok q /\ forall j, known (fifo_data q) j <-> known (fifo_data p) j.
Proof.
  intros Hi. unfold sc_touch. destruct (update_data_ok (fun d : Z * bool => (d.1, true)) i (fifo_data p) Hi) as (s' & -> & Hk). cbn [obind]. by eexists.
Qed.

(** A search that leaves the data alone, as a victim with the store. *)
Definition with_state {S} (o : outcome nat) (s : S) : outcome (nat * S) := let! v := o in Ok (v, s).

Lemma with_state_ok {S} (o : outcome nat) (s : S) (cs : list nat) (K : S -> nat -> Prop) : (exists v, o = Ok v /\ v ∈ cs) ->
  exists v s', with_state o s = Ok (v, s') /\ v ∈ cs /\ forall j, K s' j <-> K s j.
Proof. intros (v & -> & Hv). by exists v, s. Qed.

Lemma mru_victim_ok cs s : cs <> [] -> (forall c, c ∈ cs -> known s c) -> exists v, mru_getVictim cs s = Ok v /\ v ∈ cs.
Proof.
  assert (forall cs v, known s v -> (forall c, c ∈ cs -> known s c) -> exists w, mru_scan v cs s = Ok w /\ (w = v \/ w ∈ cs)) as Hscan.
  { clear cs. induction cs as [| c cs IH]; intros v Hv Hcs; [exists v; auto |]. cbn [mru_scan]. unfold data_of. destruct (Hcs c ltac:(left)) as [d Hd]. pose proof Hv as [dv Hdv].
    rewrite Hd, Hdv. cbn [obind]. destruct (d =? 0); [exists c; split; [done | right; left] |].
    destruct (IH (if dv <? d then c else v)) as (w & -> & Hw); [destruct (dv <? d); by eexists | intros x Hx; apply Hcs; by right |].
    exists w. split; [done |]. destruct Hw as [-> | Hw]; [| right; by right]. destruct (dv <? d); [right; left | by left]. }
  destruct cs as [| c cs]; intros Hne Hcs; [done |]. destruct (Hscan (c :: cs) c (Hcs c ltac:(left)) Hcs) as (w & E & Hw). exists w. split; [done |].
  destruct Hw as [-> | Hw]; [left | done].
Qed.

Lemma random_victim_ok draw cs s : cs <> [] -> 0 <= draw < Z.of_nat (length cs) -> (forall c, c ∈ cs -> known s c) -> exists v, random_getVictim draw cs s = Ok v /\ v ∈ cs.
Proof.
  intros Hne Hdraw Hcs. destruct (lookup_lt_is_Some_2 cs (Z.to_nat draw)) as [v Hv]; [lia |]. unfold random_getVictim. rewrite Hv.
  destruct (find_data_ok negb cs s Hcs) as (o & -> & Ho). destruct cs as [| c cs]; [done |]. cbn [obind]. exists (default v o). split; [done |].
  destruct o as [x |]; [apply Ho | by eapply list_elem_of_lookup_2].
Qed.

Lemma brrip_age_known diff cs : forall s, (forall c, c ∈ cs -> known s c) -> exists s', brrip_age diff cs s = Ok s' /\ forall j, known s' j <-> known s j.
Proof.
  induction cs as [| c cs IH]; intros s Hk; [by exists s |]. cbn [brrip_age].
  destruct (update_data_ok (fun d => mkBRRIPReplData (add_pos diff (rrpv d)) (valid d)) c s (Hk c ltac:(left))) as (s1 & -> & Hk1). cbn [obind].
  destruct (IH s1) as (s' & -> & Hk'); [intros x Hx; apply Hk1, Hk; by right |]. exists s'. split; [done |]. intros j. by rewrite Hk'.
Qed.

Lemma brrip_victim_ok cs s : cs <> [] -> (forall c, c ∈ cs -> known s c) -> exists v s', brrip_getVictim cs s = Ok (v, s') /\ v ∈ cs /\ forall j, known s' j <-> known s j.
Proof.
  intros Hne Hk. destruct (brrip_search cs s Hne Hk) as (w & d & Hw & Hd & Hend). destruct (valid d); destruct Hend as [-> _]; [| by exists w, s].
  unfold brrip_saturate, data_of. rewrite Hd. cbn [obind saturate]. set (s1 := <[w := _]> s).
  assert (forall j, known s1 j <-> known s j) as Hi by (intros j; apply known_insert; by eexists). destruct (0 <? _); [| by exists w, s1].
  destruct (brrip_age_known (maxVal (rrpv d) - counter (rrpv d)) cs s1) as (s' & -> & Hs'); [intros c Hc; by apply Hi, Hk |].
  exists w, s'. split_and!; try done. intros j. by rewrite Hs'.
Qed.

(** Victims of the policies that search with a comparison. *)
Lemma search_victim_ok {D} (beats : D -> D -> bool) cs s : cs <> [] -> (forall c, c ∈ cs -> known s c) -> exists v, search beats cs s = Ok v /\ v ∈ cs.
Proof. intros Hne Hk. destruct (search_ok beats cs s Hne Hk) as (v & E & Hv & _). by exists v. Qed.

Lemma sc_victim_ok cs p : cs <> [] -> (forall c, c ∈ cs -> known (fifo_data p) c) ->
  exists v q, sc_getVictim cs p = Ok (v, q) /\ v ∈ cs /\ forall j, known (fifo_data q) j <-> known (fifo_data p) j.
Proof.
  intros Hne Hk. unfold sc_getVictim. rewrite bool_decide_eq_true_2 by done. cbn [assert_ obind].
  destruct (find_data_ok (fun d : Z * bool => (d.1 =? 0) && negb d.2) cs (fifo_data p) Hk) as (o & -> & Ho). cbn [obind]. destruct o as [x |]; [exists x, p; by destruct Ho |].
  destruct (sc_loop_ok (length cs) (S (length cs)) cs p ltac:(apply length_filter) ltac:(lia) Hne Hk) as (v & q & t & E & Hv & _ & Ha & _).
  exists v, q. split_and!; [done | done |]. intros j. by apply aged_known.
Qed.

Create HintDb policies.
#[export] Hint Resolve update_data_ok new_data_ok fifo_new_ok brrip_new_ok stamp_ok sc_touch_ok with_state_ok search_victim_ok mru_victim_ok random_victim_ok brrip_victim_ok sc_victim_ok : policies.

Local Ltac policy := intros; eauto with policies; try (eexists; split; [reflexivity | done]).

#[refine] Definition LRU : ReplacementPolicy (gmap nat Z) := {|
  rp_touch := lru_touch; rp_reset cur _ := lru_reset cur; rp_invalidate := lru_invalidate;
  rp_getVictim _ cs s := with_state (lru_getVictim cs s) s; rp_instantiateEntry := new_data lru_instantiateEntry; rp_known := known |}.
Proof. all: unfold lru_touch, lru_reset, lru_invalidate, lru_getVictim; policy. Defined.

#[refine] Definition BIP (btp : Z) : ReplacementPolicy (gmap nat Z) := {|
  rp_touch := lru_touch; rp_reset cur draw := bip_reset btp cur draw; rp_invalidate := lru_invalidate;
  rp_getVictim _ cs s := with_state (lru_getVictim cs s) s; rp_instantiateEntry := new_data lru_instantiateEntry; rp_known := known |}.
Proof. all: unfold lru_touch, bip_reset, lru_invalidate, lru_getVictim; policy. Defined.

#[refine] Definition MRU : ReplacementPolicy (gmap nat Z) := {|
  rp_touch := lru_touch; rp_reset cur _ := lru_reset cur; rp_invalidate := lru_invalidate;
  rp_getVictim _ cs s := with_state (mru_getVictim cs s) s; rp_instantiateEntry := new_data lru_instantiateEntry; rp_known := known |}.
Proof. all: unfold lru_touch, lru_reset, lru_invalidate; policy. Defined.

#[refine] Definition LFU : ReplacementPolicy (gmap nat Z) := {|
  rp_touch _ := lfu_touch; rp_reset _ _ := lfu_reset; rp_invalidate := lfu_invalidate;
  rp_getVictim _ cs s := with_state (lfu_getVictim cs s) s; rp_instantiateEntry := new_data 0; rp_known := known |}.
Proof. all: unfold lfu_touch, lfu_reset, lfu_invalidate, lfu_getVictim; policy. Defined.

#[refine] Definition FIFO_policy : ReplacementPolicy (FIFO Z) := {|
  rp_touch _ := fifo_touch; rp_reset _ _ := fifo_reset; rp_invalidate := fifo_invalidate;
  rp_getVictim _ cs p := with_state (fifo_getVictim cs p) p; rp_instantiateEntry := fifo_new 0; rp_known p := known (fifo_data p) |}.
Proof. all: unfold fifo_touch, fifo_reset, fifo_invalidate, fifo_getVictim; policy. apply (with_state_ok _ s cs (fun p => known (fifo_data p))); eauto with policies. Defined.

#[refine] Definition SecondChance : ReplacementPolicy (FIFO (Z * bool)) := {|
  rp_touch _ := sc_touch; rp_reset _ _ := sc_reset; rp_invalidate := sc_invalidate;
  rp_getVictim _ := sc_getVictim; rp_instantiateEntry := fifo_new (0, false); rp_known p := known (fifo_data p) |}.
Proof. all: unfold sc_reset, sc_invalidate; policy. Defined.

#[refine] Definition BRRIP (num_bits : Z) (Hb : 0 < num_bits <= 8) (hitPriority : bool) (btp : Z) : ReplacementPolicy (gmap nat BRRIPReplData) := {|
  rp_touch _ := brrip_touch hitPriority; rp_reset _ draw := brrip_reset btp draw; rp_invalidate := brrip_invalidate;
  rp_getVictim _ := brrip_getVictim; rp_instantiateEntry := brrip_new num_bits; rp_known := known |}.
Proof. all: unfold brrip_touch, brrip_reset, brrip_invalidate; policy. Defined.

#[refine] Definition Random : ReplacementPolicy (gmap nat bool) := {|
  rp_touch _ := random_touch; rp_reset _ _ := random_reset; rp_invalidate := random_invalidate;
  rp_getVictim draw cs s := with_state (random_getVictim draw cs s) s; rp_instantiateEntry := new_data false; rp_known := known |}.
Proof. all: unfold random_touch, random_reset, random_invalidate; policy. Defined.
