(* ===== verification/TreePlru.v ===== *)
(** The tree pseudo-LRU replacement policy:
    [src/gem5/src/mem/cache/replacement_policies/tree_plru_rp.cc].

    The entries of a set are the leaves of a binary tree whose inner nodes, a bit each, lie
    in a vector in the order of a heap; a bit points to the side that was used less
    recently.  A tree is shared by the entries of its set, so trees live in a store. *)
From Stdlib Require Import ZArith Lia.
From stdpp Require Import base numbers list.
From S2P Require Import Prelude IntMath.

Open Scope Z_scope.

(** [parentIndex], [leftSubtreeIndex], [rightSubtreeIndex], [isRightSubtree]. *)
Definition parentIndex (index : Z) : Z := u64 (index - 1) / 2.
Definition leftSubtreeIndex (index : Z) : Z := u64 (2 * index + 1).
Definition rightSubtreeIndex (index : Z) : Z := u64 (2 * index + 2).
Definition isRightSubtree (index : Z) : bool := index mod 2 =? 0.

(** [TreePLRU]: its trees in the order of their creation; [treeInstance] is the last one. *)
Record TreePLRU : Type := mkTreePLRU {
  numLeaves : Z;
  count : Z;
  trees : list (list bool);
}.

Record TreePLRUReplData : Type := mkReplData {
  index : Z;
  tree : nat;
}.

(** [TreePLRU(const Params &p)]. *)
Definition new_TreePLRU (num_leaves : Z) : outcome TreePLRU :=
  do! fatal_if (negb (isPowerOf2 num_leaves)) then Ok (mkTreePLRU num_leaves 0 []).

(** [std::shared_ptr<ReplacementData> instantiateEntry()]. *)
Definition instantiateEntry (p : TreePLRU) : TreePLRUReplData * TreePLRU :=
  let ts := if count p mod numLeaves p =? 0 then trees p ++ [replicate (Z.to_nat (numLeaves p - 1)) false] else trees p in
  (mkReplData (count p mod numLeaves p + numLeaves p - 1) (pred (length ts)), mkTreePLRU (numLeaves p) (u64 (count p + 1)) ts).

(** [tree->at(i) = b] and [tree->at(i)]: out of range, an exception ends the simulation. *)
Definition tree_set (i : Z) (b : bool) (t : list bool) : outcome (list bool) :=
  if i <? Z.of_nat (length t) then Ok (<[Z.to_nat i := b]> t) else Err Panic.
Definition tree_at (i : Z) (t : list bool) : outcome bool :=
  match t !! Z.to_nat i with Some b => if i <? Z.of_nat (length t) then Ok b else Err Panic | None => Err Panic end.

(** The loop of [touch] and [invalidate]: every node on the way up is made to point away
    from where it is reached, or to it. *)
Fixpoint walk_up (fuel : nat) (away : bool) (tree_index : Z) (t : list bool) : outcome (list bool) :=
  match fuel with
  | O => Err Undefined
  | S fuel =>
      let right := isRightSubtree tree_index in
      let tree_index := parentIndex tree_index in
      let! t := tree_set tree_index (xorb away right) t in
      if negb (tree_index =? 0) then walk_up fuel away tree_index t else Ok t
  end.

Definition update_tree (away : bool) (d : TreePLRUReplData) (p : TreePLRU) : outcome TreePLRU :=
  match trees p !! tree d with
  | None => Err Undefined
  | Some t => let! t := walk_up (S (length t)) away (index d) t in Ok (mkTreePLRU (numLeaves p) (count p) (<[tree d := t]> (trees p)))
  end.

(** [void invalidate(...)], [void touch(...) const] and [void reset(...) const]. *)
Definition plru_invalidate (d : TreePLRUReplData) (p : TreePLRU) : outcome TreePLRU := update_tree false d p.
Definition plru_touch (d : TreePLRUReplData) (p : TreePLRU) : outcome TreePLRU := update_tree true d p.
Definition plru_reset (d : TreePLRUReplData) (p : TreePLRU) : outcome TreePLRU := plru_touch d p.

(** The loop of [getVictim]. *)
Fixpoint walk_down (fuel : nat) (tree_index : Z) (t : list bool) : outcome Z :=
  match fuel with
  | O => Err Undefined
  | S fuel =>
      if tree_index <? Z.of_nat (length t) then
        let! b := tree_at tree_index t in
        walk_down fuel (if (b : bool) then rightSubtreeIndex tree_index else leftSubtreeIndex tree_index) t
      else Ok tree_index
  end.

(** [ReplaceableEntry* getVictim(const ReplacementCandidates& candidates) const], with the
    data of the candidates: the place of the victim among them. *)
Definition plru_getVictim (candidates : list TreePLRUReplData) (p : TreePLRU) : outcome Z :=
  match candidates with
  | [] => Err AssertFail
  | d :: _ =>
      match trees p !! tree d with
      | None => Err Undefined
      | Some t =>
          let! i := walk_down (S (length t)) 0 t in
          let v := u64 (i - (numLeaves p - 1)) in
          if v <? Z.of_nat (length candidates) then Ok v else Err Undefined
      end
  end.

(** * Trees and paths *)

(** A path from a node up to the root: [true] at a right child.  The node it leads to. *)
Fixpoint node (path : list bool) : Z := match path with [] => 0 | b :: path => 2 * node path + (if b then 2 else 1) end.

(** The tree as it is meant: a bit and two subtrees. *)
Inductive ptree : Type := Leaf | Node (b : bool) (l r : ptree).

(** The leaf that the bits point to, and a leaf made recent, by paths from the root. *)
Fixpoint victim (t : ptree) : list bool := match t with Leaf => [] | Node b l r => b :: victim (if b then r else l) end.
Fixpoint point (away : bool) (path : list bool) (t : ptree) {struct t} : ptree :=
  match t, path with
  | Node _ l r, b :: path => if b then Node (xorb away b) l (point away path r) else Node (xorb away b) (point away path l) r
  | _, _ => t
  end.

Fixpoint full (d : nat) (t : ptree) : Prop :=
  match d, t with O, Leaf => True | S d, Node _ l r => full d l /\ full d r | _, _ => False end.

Fixpoint paths (d : nat) : list (list bool) := match d with O => [[]] | S d => map (cons false) (paths d) ++ map (cons true) (paths d) end.

(** The leaves that are filled one after the other, each made recent when it is filled. *)
Fixpoint fills (k : nat) (t : ptree) : list (list bool) := match k with O => [] | S k => victim t :: fills k (point true (victim t) t) end.

Lemma point_full away path t d : full d t -> full d (point away path t).
Proof.
  revert path t. induction d as [| d IH]; intros path [| b l r] Ht; cbn in Ht; try done. destruct Ht as [Hl Hr]. destruct path as [| [|] path]; [done | |]; cbn; split; auto.
Qed.

(** The two sides take turns. *)
Lemma fills_turns k b l r : fills (2 * k) (Node b l r) ≡ₚ map (cons false) (fills k l) ++ map (cons true) (fills k r).
Proof.
  revert b l r. induction k as [| k IH]; intros b l r; [done |]. replace (2 * S k)%nat with (S (S (2 * k))) by lia. destruct b; cbn [fills victim point xorb negb].
  - rewrite IH. cbn [map]. rewrite Permutation_swap. cbn [app]. f_equiv. by rewrite <- Permutation_middle.
  - rewrite IH. cbn [map app]. f_equiv. by rewrite <- Permutation_middle.
Qed.

Lemma fills_all d t : full d t -> fills (2 ^ d) t ≡ₚ paths d.
Proof.
  revert t. induction d as [| d IH]; intros [| b l r] Ht; cbn in Ht; try done. destruct Ht as [Hl Hr]. rewrite Nat.pow_succ_r', fills_turns, (IH l Hl), (IH r Hr). done.
Qed.

Lemma victim_moves path t d : full (S d) t -> length path = S d -> victim (point true path t) <> path.
Proof. destruct t as [| b l r], path as [| [|] path]; try done; cbn; intros _ _ [=]. Qed.

Lemma victim_pointed path t d : full d t -> length path = d -> victim (point false path t) = path.
Proof.
  revert path t. induction d as [| d IH]; intros [| b path] [| c l r] Ht Hp; cbn in Ht; try done. destruct Ht as [Hl Hr]. injection Hp as Hp. destruct b; cbn; f_equal; by apply IH.
Qed.

(** * The vector as a tree *)

Definition bit (q : list bool) (t : list bool) : bool := nth (Z.to_nat (node q)) t false.
Fixpoint view (d : nat) (q t : list bool) : ptree :=
  match d with O => Leaf | S d => Node (bit q t) (view d (false :: q) t) (view d (true :: q) t) end.

Lemma node_range q : 2 ^ Z.of_nat (length q) - 1 <= node q < 2 ^ (Z.of_nat (length q) + 1) - 1.
Proof.
  induction q as [| b q IH]; [done |]. cbn [node length]. rewrite Nat2Z.inj_succ. unfold Z.succ.
  rewrite !Z.pow_add_r in * by lia. change (2 ^ 1) with 2 in *. destruct b; lia.
Qed.

Lemma node_inj q r : node q = node r -> q = r.
Proof.
  revert r. induction q as [| b q IH]; intros [| c r]; cbn; try done.
  - pose proof (node_range r). destruct c; lia.
  - pose proof (node_range q). destruct b; lia.
  - intros E. destruct b, c; try lia; f_equal; apply IH; lia.
Qed.

Lemma bit_insert q r b t : bit q (<[Z.to_nat (node r) := b]> t) = if decide (q = r) then (if decide (Z.to_nat (node r) < length t)%nat then b else false) else bit q t.
Proof.
  unfold bit. pose proof (node_range q). pose proof (node_range r). rewrite !nth_lookup. destruct (decide (q = r)) as [-> | Hne].
  - destruct (decide (Z.to_nat (node r) < length t)%nat); [by rewrite list_lookup_insert_eq by done |].
    rewrite lookup_ge_None_2 by (rewrite length_insert; lia). done.
  - rewrite list_lookup_insert_ne; [done |]. intros E. apply Hne, node_inj. symmetry. apply Z2Nat.inj; [| | done]; pose proof (Z.pow_pos_nonneg 2 (Z.of_nat (length r))); pose proof (Z.pow_pos_nonneg 2 (Z.of_nat (length q))); lia.
Qed.

(** The writes of [walk_up], from the leaf to the root. *)
Fixpoint write_path (away : bool) (path t : list bool) : list bool :=
  match path with [] => t | b :: q => write_path away q (<[Z.to_nat (node q) := xorb away b]> t) end.

Lemma write_length away path t : length (write_path away path t) = length t.
Proof. revert t. induction path as [| b q IH]; intros t; [done |]. cbn. by rewrite IH, length_insert. Qed.

Lemma bit_above away path q t : (forall p, path <> p ++ q \/ p = []) -> bit q (write_path away path t) = bit q t.
Proof.
  revert t. induction path as [| b r IH]; intros t Hp; [done |]. cbn [write_path]. rewrite IH.
  - rewrite bit_insert, decide_False; [done |]. intros ->. by destruct (Hp [b]).
  - intros p. destruct (Hp (b :: p)) as [H |]; [| done]. left. intros ->. by apply H.
Qed.

Lemma bit_written away p b q t : (Z.to_nat (node q) < length t)%nat -> bit q (write_path away (p ++ b :: q) t) = xorb away b.
Proof.
  revert t. induction p as [| c p IH]; intros t Hq; cbn [app write_path].
  - rewrite bit_above; [by rewrite bit_insert, !decide_True |]. intros p. destruct p as [| c p]; [by right | left]. intros E.
    apply (f_equal length) in E. rewrite length_app in E. cbn in E. lia.
  - apply IH. by rewrite length_insert.
Qed.

Lemma view_other away d : forall path q t, (forall p, path <> p ++ q) -> view d q (write_path away path t) = view d q t.
Proof.
  induction d as [| d IH]; intros path q t Hp; [done |]. cbn [view]. rewrite bit_above by (intros p; left; apply Hp).
  rewrite !IH; [done | |]; intros p E; eapply (Hp (p ++ [_])); rewrite <- app_assoc; exact E.
Qed.

(** A walk up from a leaf is the tree made to point away from the leaf, or to it. *)
Lemma view_written away d : forall p q t, length p = d -> (forall r, (length r < length q + d)%nat -> (Z.to_nat (node r) < length t)%nat) ->
  view d q (write_path away (p ++ q) t) = point away (rev p) (view d q t).
Proof.
  induction d as [| d IH]; intros p q t Hp Hin; [by destruct p |]. destruct (exists_last (l := p)) as (p' & b & ->); [by destruct p |].
  rewrite length_app in Hp. cbn in Hp. rewrite rev_app_distr, <- app_assoc. cbn [rev app view point].
  rewrite bit_written by (apply Hin; lia). assert (Hone : forall c, c <> b -> forall x, p' ++ b :: q <> x ++ c :: q).
  { intros c Hc x E. apply app_inj_2 in E as [_ E]; [congruence | done]. }
  destruct b; rewrite (IH p' (_ :: q)) by (lia || (intros r Hr; apply Hin; cbn in Hr; lia)); rewrite view_other by (by apply Hone); done.
Qed.

Lemma walk_up_path k away path t : Z.of_nat (length t) = 2 ^ Z.of_nat k - 1 -> (k <= 62)%nat -> (0 < length path <= k)%nat ->
  forall fuel, (length path <= fuel)%nat -> walk_up fuel away (node path) t = Ok (write_path away path t).
Proof.
  intros Ht Hk. revert t Ht. induction path as [| b q IH]; intros t Ht Hl fuel Hf; cbn in Hl; [lia |]. destruct fuel as [| fuel]; [cbn in Hf; lia |].
  cbn [walk_up write_path]. pose proof (node_range q) as Hq. assert (2 ^ (Z.of_nat (length q) + 1) <= 2 ^ Z.of_nat k) by (apply Z.pow_le_mono_r; lia).
  assert (2 ^ Z.of_nat k <= 2 ^ 62) by (apply Z.pow_le_mono_r; lia). pose proof (Z.pow_pos_nonneg 2 (Z.of_nat (length q)) ltac:(lia) ltac:(lia)).
  assert (Er : isRightSubtree (node (b :: q)) = b).
  { unfold isRightSubtree. cbn [node]. destruct b; [rewrite Z.add_comm, (Z.mul_comm 2), Z.mod_add by lia; done | rewrite Z.add_comm, (Z.mul_comm 2), Z.mod_add by lia; done]. }
  assert (Ep : parentIndex (node (b :: q)) = node q).
  { unfold parentIndex. cbn [node]. rewrite wrap_small by (unfold in_width; destruct b; lia). symmetry. apply (Z.div_unique _ _ _ (if b then 1 else 0)); destruct b; lia. }
  rewrite Er, Ep. unfold tree_set. destruct (Z.ltb_spec (node q) (Z.of_nat (length t))); [| lia]. cbn [obind].
  destruct (Z.eqb_spec (node q) 0) as [E0 | E0]; cbn [negb].
  - change 0 with (node []) in E0. apply node_inj in E0 as ->. done.
  - apply IH; [by rewrite length_insert | | cbn in Hf; lia]. destruct q; [done |]. cbn in *. lia.
Qed.

Lemma walk_down_path k t : Z.of_nat (length t) = 2 ^ Z.of_nat k - 1 -> (k <= 62)%nat ->
  forall d q fuel, (length q + d = k)%nat -> (d < fuel)%nat -> walk_down fuel (node q) t = Ok (node (rev (victim (view d q t)) ++ q)).
Proof.
  intros Ht Hk. induction d as [| d IH]; intros q fuel Hq Hf; (destruct fuel as [| fuel]; [lia |]); cbn [walk_down]; pose proof (node_range q) as Hr.
  - replace (length q) with k in Hr by lia. destruct (Z.ltb_spec (node q) (Z.of_nat (length t))); [lia |]. done.
  - assert (2 ^ (Z.of_nat (length q) + 1) <= 2 ^ Z.of_nat k) by (apply Z.pow_le_mono_r; lia). assert (2 ^ Z.of_nat k <= 2 ^ 62) by (apply Z.pow_le_mono_r; lia).
    pose proof (Z.pow_pos_nonneg 2 (Z.of_nat (length q)) ltac:(lia) ltac:(lia)).
    destruct (Z.ltb_spec (node q) (Z.of_nat (length t))); [| lia]. unfold tree_at.
    destruct (lookup_lt_is_Some_2 t (Z.to_nat (node q)) ltac:(lia)) as [b Eb]. rewrite Eb. destruct (Z.ltb_spec (node q) (Z.of_nat (length t))); [| lia]. cbn [obind].
    assert (Ebit : bit q t = b) by (unfold bit; by rewrite nth_lookup, Eb).
    assert (En : (if b then rightSubtreeIndex (node q) else leftSubtreeIndex (node q)) = node (b :: q)).
    { cbn [node]. destruct b; unfold rightSubtreeIndex, leftSubtreeIndex; rewrite wrap_small by (unfold in_width; lia); lia. }
    rewrite En, (IH (b :: q) fuel) by (cbn; lia). cbn [view victim]. rewrite Ebit. cbn [rev]. rewrite <- app_assoc. by destruct b.
Qed.

(** The leaves from left to right. *)
Lemma leaves d : forall q, map (fun p => node (rev p ++ q)) (paths d) = seqZ (2 ^ Z.of_nat d * (node q + 1) - 1) (2 ^ Z.of_nat d).
Proof.
  induction d as [| d IH]; intros q; [cbn [paths map rev app]; change (2 ^ Z.of_nat 0) with 1; by replace (1 * (node q + 1) - 1) with (node q) by lia |].
  cbn [paths]. rewrite map_app, !map_map. cbn [rev].
  rewrite (map_ext _ (fun p => node (rev p ++ false :: q))) by (intros; by rewrite <- app_assoc).
  rewrite (map_ext (fun p => node ((rev p ++ [true]) ++ q)) (fun p => node (rev p ++ true :: q))) by (intros; by rewrite <- app_assoc).
  rewrite !IH. cbn [node]. rewrite Nat2Z.inj_succ. unfold Z.succ. rewrite Z.pow_add_r by lia. change (2 ^ 1) with 2.
  replace (2 ^ Z.of_nat d * 2) with (2 ^ Z.of_nat d + 2 ^ Z.of_nat d) by lia. rewrite seqZ_app by lia. f_equal; f_equal; lia.
Qed.

Lemma paths_length d p : p ∈ paths d -> length p = d.
Proof.
  revert p. induction d as [| d IH]; intros p; cbn; [by intros ->%list_elem_of_singleton |].
  intros [(x & -> & Hx)%list_elem_of_fmap | (x & -> & Hx)%list_elem_of_fmap]%elem_of_app; cbn; by rewrite (IH x).
Qed.

(** * A set of entries *)

(** The data of the entries that share the tree [tr]. *)
Definition leaf_data (tr : nat) (n : Z) : list TreePLRUReplData := map (fun i => mkReplData (i + n - 1) tr) (seqZ 0 n).

(** Victims one after the other, each filled as it is chosen. *)
Fixpoint fill_run (n : nat) (candidates : list TreePLRUReplData) (p : TreePLRU) : outcome (list Z * TreePLRU) :=
  match n with
  | O => Ok ([], p)
  | S n =>
      let! v := plru_getVictim candidates p in
      match candidates !! Z.to_nat v with
      | None => Err Undefined
      | Some d => let! p := plru_reset d p in let! (vs, p) := fill_run n candidates p in Ok (v :: vs, p)
      end
  end.

Section entries.
Variables (k : nat) (tr : nat).
Hypothesis Hk : (1 <= k <= 32)%nat.
Local Abbreviation N := (2 ^ Z.of_nat k).

Record plru_ok (p : TreePLRU) (t : list bool) : Prop := {
  pl_leaves : numLeaves p = N;
  pl_tree : trees p !! tr = Some t;
  pl_nodes : Z.of_nat (length t) = N - 1;
}.

Definition leaf_no (path : list bool) : Z := node (rev path) - (N - 1).

Lemma N_range : 2 <= N <= 2 ^ 32 /\ Z.of_nat k < N.
Proof. split; [split; [change 2 with (2 ^ 1) at 1 |]; apply Z.pow_le_mono_r; lia | apply Z.pow_gt_lin_r; lia]. Qed.

Lemma leaf_no_range path : length path = k -> 0 <= leaf_no path < N.
Proof.
  intros Hp. pose proof (node_range (rev path)) as H. rewrite length_rev, Hp, Z.pow_add_r in H by lia. unfold leaf_no. lia.
Qed.

Lemma leaf_lookup i : 0 <= i < N -> leaf_data tr N !! Z.to_nat i = Some (mkReplData (i + N - 1) tr).
Proof.
  intros Hi. unfold leaf_data. rewrite list_lookup_fmap. assert (E : seqZ 0 N !! Z.to_nat i = Some i) by (apply lookup_seqZ; lia). by rewrite E.
Qed.

Lemma full_view d q t : full d (view d q t).
Proof. revert q. induction d as [| d IH]; intros q; cbn; [done | split; apply IH]. Qed.

Lemma victim_length d t : full d t -> length (victim t) = d.
Proof. revert t. induction d as [| d IH]; intros [| b l r] Ht; cbn in Ht; try done. destruct Ht as [Hl Hr]. cbn. by destruct b; rewrite IH. Qed.

Lemma getVictim_view p t : plru_ok p t -> plru_getVictim (leaf_data tr N) p = Ok (leaf_no (victim (view k [] t))).
Proof.
  intros [P1 P2 P3]. pose proof N_range. pose proof (leaf_lookup 0 ltac:(lia)) as E0. unfold plru_getVictim.
  assert (El : length (leaf_data tr N) = Z.to_nat N) by (unfold leaf_data; by rewrite length_map, length_seqZ).
  destruct (leaf_data tr N) as [| d ds] eqn:Ed; [done |]. injection E0 as ->. cbn [tree]. rewrite P2.
  change 0 with (node []) at 1. rewrite (walk_down_path k t P3 ltac:(lia) k []) by (cbn; lia). cbn [obind]. rewrite app_nil_r, P1.
  pose proof (leaf_no_range _ (victim_length k _ (full_view k [] t))) as Hv. unfold leaf_no in *. rewrite wrap_small by (unfold in_width; lia).
  destruct (Z.ltb_spec (node (rev (victim (view k [] t))) - (N - 1)) (Z.of_nat (length ({| index := 0 + N - 1; tree := tr |} :: ds)))); [done | lia].
Qed.

Lemma update_view away path p t : plru_ok p t -> length path = k -> exists p' t',
  update_tree away (mkReplData (leaf_no path + N - 1) tr) p = Ok p' /\ plru_ok p' t' /\ view k [] t' = point away path (view k [] t).
Proof.
  intros [P1 P2 P3] Hp. pose proof N_range. unfold update_tree. cbn [tree index]. rewrite P2. unfold leaf_no. replace (node (rev path) - (N - 1) + N - 1) with (node (rev path)) by lia.
  rewrite (walk_up_path k) by (rewrite ?length_rev; (done || lia)). cbn [obind]. eexists _, _. split; [reflexivity |]. split.
  - split; cbn; [done | apply list_lookup_insert_eq; by eapply lookup_lt_Some | by rewrite write_length].
  - pose proof (view_written away k (rev path) [] t) as E. rewrite app_nil_r, rev_involutive in E. apply E; [by rewrite length_rev |].
    intros r Hr. pose proof (node_range r) as Hn. assert (2 ^ (Z.of_nat (length r) + 1) <= N) by (apply Z.pow_le_mono_r; cbn in Hr; lia).
    pose proof (Z.pow_pos_nonneg 2 (Z.of_nat (length r)) ltac:(lia) ltac:(lia)). lia.
Qed.

Lemma leaf_path i : 0 <= i < N -> exists path, length path = k /\ i = leaf_no path.
Proof.
  intros Hi. pose proof (leaves k []) as E. assert (Hin : i + N - 1 ∈ seqZ (N * (node [] + 1) - 1) N) by (apply elem_of_seqZ; cbn; lia).
  rewrite <- E in Hin. apply list_elem_of_fmap in Hin as (path & Ep & Hp). exists path. split; [by apply paths_length |]. unfold leaf_no. rewrite app_nil_r in Ep. lia.
Qed.

Lemma fill_view n : forall p t, plru_ok p t -> exists p', fill_run n (leaf_data tr N) p = Ok (map leaf_no (fills n (view k [] t)), p').
Proof.
  induction n as [| n IH]; intros p t Hp; [by exists p |]. cbn [fill_run]. rewrite (getVictim_view p t Hp). cbn [obind].
  pose proof (victim_length k _ (full_view k [] t)) as Hv. rewrite leaf_lookup by (by apply leaf_no_range). unfold plru_reset, plru_touch.
  destruct (update_view true (victim (view k [] t)) p t Hp Hv) as (p1 & t1 & -> & Hp1 & Hview). cbn [obind].
  destruct (IH p1 t1 Hp1) as (p2 & ->). cbn [obind fills map]. rewrite Hview. by exists p2.
Qed.

(** The tree pseudo-LRU policy never stops and never runs out of a set: from any state
    of the tree, as many fills as there are entries, each into the victim of the moment,
    fill every entry exactly once. *)
Theorem plru_fills p t : plru_ok p t -> exists vs p', fill_run (2 ^ k) (leaf_data tr N) p = Ok (vs, p') /\ vs ≡ₚ seqZ 0 N.
Proof.
  intros Hp. destruct (fill_view (2 ^ k) p t Hp) as (p' & E). exists (map leaf_no (fills (2 ^ k) (view k [] t))), p'. split; [done |].
  rewrite (fills_all k _ (full_view k [] t)). pose proof (leaves k []) as El. replace (map leaf_no (paths k)) with (map (Z.add (- (N - 1))) (map (fun p => node (rev p ++ [])) (paths k))).
  - rewrite El. cbn [node]. pose proof (fmap_add_seqZ (- (N - 1)) (N * (0 + 1) - 1) N : map _ _ = _) as F. rewrite F. by replace (- (N - 1) + (N * (0 + 1) - 1)) with 0 by lia.
  - rewrite map_map. apply map_ext. intros q. unfold leaf_no. rewrite app_nil_r. lia.
Qed.

(** The entry that was touched last is not the victim of the tree pseudo-LRU policy, and
    an entry that is invalidated is the next victim. *)
Theorem plru_points p t i : plru_ok p t -> 0 <= i < N ->
  (exists p' v, plru_touch (mkReplData (i + N - 1) tr) p = Ok p' /\ plru_getVictim (leaf_data tr N) p' = Ok v /\ v <> i) /\
  (exists p', plru_invalidate (mkReplData (i + N - 1) tr) p = Ok p' /\ plru_getVictim (leaf_data tr N) p' = Ok i).
Proof.
  intros Hp Hi. destruct (leaf_path i Hi) as (path & Hl & ->). unfold plru_touch, plru_invalidate. split.
  - destruct (update_view true path p t Hp Hl) as (p' & t' & -> & Hp' & Hv). exists p', (leaf_no (victim (view k [] t'))). split; [done |].
    split; [by apply getVictim_view |]. intros E. unfold leaf_no in E. assert (En : node (rev (victim (view k [] t'))) = node (rev path)) by lia.
    apply node_inj, (f_equal (@rev bool)) in En. rewrite !rev_involutive, Hv in En. destruct k as [| d]; [lia |]. revert En. by apply (victim_moves _ _ d); [apply full_view |].
  - destruct (update_view false path p t Hp Hl) as (p' & t' & -> & Hp' & Hv). exists p'. split; [done |].
    rewrite (getVictim_view p' t' Hp'), Hv. do 2 f_equal. apply (victim_pointed path _ k); [apply full_view | done].
Qed.
End entries.

(** * Examples *)

(** A policy for four ways, and the entries of its first set. *)
Fixpoint instantiate (n : nat) (p : TreePLRU) : list TreePLRUReplData * TreePLRU :=
  match n with O => ([], p) | S n => let (d, p) := instantiateEntry p in let (ds, p) := instantiate n p in (d :: ds, p) end.
Definition ex_plru : TreePLRU := (instantiate 4 (mkTreePLRU 4 0 [])).2.

Example first_set : (instantiate 4 (mkTreePLRU 4 0 [])).1 = leaf_data 0 4 /\ new_TreePLRU 4 = Ok (mkTreePLRU 4 0 []).
Proof. vm_compute. auto. Qed.

Lemma ex_plru_ok : plru_ok 2 0 ex_plru [false; false; false].
Proof. by split. Qed.

Lemma plru_fills_witness : exists vs p', fill_run 4 (leaf_data 0 4) ex_plru = Ok (vs, p') /\ vs ≡ₚ [0; 1; 2; 3] /\ vs = [0; 2; 1; 3].
Proof.
  destruct (plru_fills 2 0 ltac:(lia) ex_plru [false; false; false] ex_plru_ok) as (vs & p' & E & Hp). exists vs, p'. split; [exact E |]. split; [exact Hp |].
  vm_compute in E. injection E as <- _. reflexivity.
Defined.

Lemma plru_points_witness : exists p', plru_invalidate (mkReplData 5 0) ex_plru = Ok p' /\ plru_getVictim (leaf_data 0 4) p' = Ok 2.
Proof. destruct (plru_points 2 0 ltac:(lia) ex_plru [false; false; false] 2 ex_plru_ok) as [_ H]; [vm_compute; intuition congruence | exact H]. Defined.

(** A single leaf passes the check of the constructor; its tree has no node, and the first
    touch ends the simulation. *)
Example one_leaf :
  match new_TreePLRU 1 with
  | Ok p => let (d, p) := instantiateEntry p in plru_touch d p = Err Panic
  | Err _ => False
  end.
Proof. vm_compute. reflexivity. Qed.
