(* ===== verification/CacheBlk.v ===== *)
(** Cache blocks: [src/gem5/src/mem/cache/cache_blk.hh] and [cache_blk.cc], with the tagged
    entries of [src/gem5/src/mem/cache/tags/tagged_entry.hh].

    A block has a tag with its secure bit, coherence bits, and the locks that load-locked
    accesses left on it.  The current tick is an argument. *)
From Stdlib Require Import ZArith Lia.
From stdpp Require Import base numbers list.
From S2P Require Import Prelude AddrRange AbstractMem.

Open Scope Z_scope.

(** * Locks *)

(** What a lock needs of a request; asking for a field that is not set fails. *)
Record LockReq : Type := mkLockReq {
  rq_paddr : option Z;
  rq_size : option Z;
  rq_ctx : option Z;
}.

(** The first and the last address of a request. *)
Definition req_range (r : LockReq) : outcome (Z * Z) :=
  let! low := get (rq_paddr r) in let! n := get (rq_size r) in Ok (low, u64 (low + n - 1)).

Record Lock : Type := mkLock {
  lock_contextId : Z;
  lowAddr : Z;
  highAddr : Z;
}.

Definition new_Lock (r : LockReq) : outcome Lock :=
  let! c := get (rq_ctx r) in let! (low, high) := req_range r in Ok (mkLock c low high).
Definition lock_matches (r : LockReq) (l : Lock) : outcome bool :=
  let! (low, high) := req_range r in let! c := get (rq_ctx r) in
  Ok ((lock_contextId l =? c) && (lowAddr l <=? low) && (high <=? highAddr l)).
Definition lock_intersects (r : LockReq) (l : Lock) : outcome bool :=
  let! (low, high) := req_range r in Ok ((low <=? highAddr l) && (lowAddr l <=? high)).

(** The loop of [trackLoadLocked]. *)
Fixpoint drop_locks (r : LockReq) (ls : list Lock) : outcome (list Lock) :=
  match ls with
  | [] => Ok []
  | l :: ls => let! b := lock_intersects r l in let! rest := drop_locks r ls in Ok (if (b : bool) then rest else l :: rest)
  end.

(** The loop of [clearLoadLocks]. *)
Fixpoint clear_locks (r : LockReq) (ls : list Lock) : outcome (list Lock) :=
  match ls with
  | [] => Ok []
  | l :: ls =>
      let! b := lock_intersects r l in
      let! b := (if (b : bool) then let! c := get (rq_ctx r) in Ok (negb (lock_contextId l =? c)) else Ok false) in
      let! rest := clear_locks r ls in Ok (if (b : bool) then rest else l :: rest)
  end.

(** The search of [checkWrite]: the first lock that matches is taken out. *)
Fixpoint take_lock (r : LockReq) (ls : list Lock) : outcome (bool * list Lock) :=
  match ls with
  | [] => Ok (false, [])
  | l :: ls =>
      let! b := lock_matches r l in
      if (b : bool) then Ok (true, ls) else let! (found, ls) := take_lock r ls in Ok (found, l :: ls)
  end.

(** * Blocks *)

Definition AllBits : Z := 0x0E.
Definition UnknownTask : Z := 1024.
Definition invldRequestorId : Z := 0xffff.

Record CacheBlk : Type := mkBlk {
  _valid : bool;
  _secure : bool;
  _tag : Z;
  coherence : Z;
  whenReady : Z;
  lockList : list Lock;
  _taskId : Z;
  _srcRequestorId : Z;
  _refCount : Z;
  _tickInserted : Z;
  _prefetched : bool;
}.

Definition set_tagged (v s : bool) (t : Z) (b : CacheBlk) : CacheBlk :=
  mkBlk v s t (coherence b) (whenReady b) (lockList b) (_taskId b) (_srcRequestorId b) (_refCount b) (_tickInserted b) (_prefetched b).
Definition set_coherence (v : Z) (b : CacheBlk) : CacheBlk :=
  mkBlk (_valid b) (_secure b) (_tag b) v (whenReady b) (lockList b) (_taskId b) (_srcRequestorId b) (_refCount b) (_tickInserted b) (_prefetched b).
Definition set_lockList (v : list Lock) (b : CacheBlk) : CacheBlk :=
  mkBlk (_valid b) (_secure b) (_tag b) (coherence b) (whenReady b) v (_taskId b) (_srcRequestorId b) (_refCount b) (_tickInserted b) (_prefetched b).
Definition set_whenReady (v : Z) (b : CacheBlk) : CacheBlk :=
  mkBlk (_valid b) (_secure b) (_tag b) (coherence b) v (lockList b) (_taskId b) (_srcRequestorId b) (_refCount b) (_tickInserted b) (_prefetched b).
Definition set_prefetched (v : bool) (b : CacheBlk) : CacheBlk :=
  mkBlk (_valid b) (_secure b) (_tag b) (coherence b) (whenReady b) (lockList b) (_taskId b) (_srcRequestorId b) (_refCount b) (_tickInserted b) v.
Definition setTaskId (v : Z) (b : CacheBlk) : CacheBlk :=
  mkBlk (_valid b) (_secure b) (_tag b) (coherence b) (whenReady b) (lockList b) v (_srcRequestorId b) (_refCount b) (_tickInserted b) (_prefetched b).
Definition setSrcRequestorId (v : Z) (b : CacheBlk) : CacheBlk :=
  mkBlk (_valid b) (_secure b) (_tag b) (coherence b) (whenReady b) (lockList b) (_taskId b) v (_refCount b) (_tickInserted b) (_prefetched b).
Definition setRefCount (v : Z) (b : CacheBlk) : CacheBlk :=
  mkBlk (_valid b) (_secure b) (_tag b) (coherence b) (whenReady b) (lockList b) (_taskId b) (_srcRequestorId b) v (_tickInserted b) (_prefetched b).
Definition setTickInserted (v : Z) (b : CacheBlk) : CacheBlk :=
  mkBlk (_valid b) (_secure b) (_tag b) (coherence b) (whenReady b) (lockList b) (_taskId b) (_srcRequestorId b) (_refCount b) v (_prefetched b).

(** [bool matchTag(Addr tag, bool is_secure) const]. *)
Definition matchTag (tag : Z) (is_secure : bool) (b : CacheBlk) : bool := _valid b && (_tag b =? tag) && eqb (_secure b) is_secure.

(** [void TaggedEntry::insert(const Addr tag, const bool is_secure)] and
    [void TaggedEntry::invalidate()]. *)
Definition tagged_insert (tag : Z) (is_secure : bool) (b : CacheBlk) : outcome CacheBlk :=
  do! assert_ (negb (_valid b)) then Ok (set_tagged true (if is_secure then true else _secure b) tag b).
Definition tagged_invalidate (b : CacheBlk) : CacheBlk := set_tagged false false MaxAddr b.

Definition setCoherenceBits (bits : Z) (b : CacheBlk) : outcome CacheBlk := do! assert_ (_valid b) then Ok (set_coherence (Z.lor (coherence b) bits) b).
Definition clearCoherenceBits (bits : Z) (b : CacheBlk) : CacheBlk := set_coherence (Z.land (coherence b) (wnot 32 bits)) b.
Definition setWhenReady (tick : Z) (b : CacheBlk) : outcome CacheBlk := do! assert_ (_tickInserted b <=? tick) then Ok (set_whenReady tick b).
Definition getWhenReady (b : CacheBlk) : outcome Z := do! assert_ (negb (whenReady b =? 0xffffffffffffffff)) then Ok (whenReady b).
Definition increaseRefCount (b : CacheBlk) : CacheBlk := setRefCount (u32 (_refCount b + 1)) b.
Definition getAge (cur : Z) (b : CacheBlk) : outcome Z := do! assert_ (_tickInserted b <=? cur) then Ok (cur - _tickInserted b).

(** [void CacheBlk::invalidate()]. *)
Definition blk_invalidate (b : CacheBlk) : outcome CacheBlk :=
  let b := clearCoherenceBits AllBits (set_prefetched false (tagged_invalidate b)) in
  let! b := setWhenReady 0xffffffffffffffff (setTaskId UnknownTask b) in
  Ok (set_lockList [] (setSrcRequestorId invldRequestorId (setRefCount 0 b))).

(** [CacheBlk()]: [coherence] starts with whatever was in its place. *)
Definition new_CacheBlk (garbage : Z) : outcome CacheBlk := blk_invalidate (mkBlk false false MaxAddr garbage 0 [] 0 0 0 0 false).

(** [void CacheBlk::insert(const Addr tag, const bool is_secure, const int src_requestor_ID,
    const uint32_t task_ID)]. *)
Definition blk_insert (cur tag : Z) (is_secure : bool) (src_requestor_ID task_ID : Z) (b : CacheBlk) : outcome CacheBlk :=
  do! assert_ (negb (_valid b)) then
  let! b := tagged_insert tag is_secure b in
  Ok (increaseRefCount (setTickInserted cur (setTaskId task_ID (setSrcRequestorId src_requestor_ID b)))).

(** [CacheBlk& operator=(CacheBlk&& other)]: the new block and what is left of the other. *)
Definition blk_move (cur : Z) (other b : CacheBlk) : outcome (CacheBlk * CacheBlk) :=
  do! assert_ (negb (_valid b)) then
  do! assert_ (_valid other) then
  let! b := tagged_insert (_tag other) (_secure other) b in
  let b := if _prefetched other then set_prefetched true b else b in
  let! b := setCoherenceBits (coherence other) b in
  let b := setTaskId (_taskId other) b in
  let! b := setWhenReady cur b in
  let b := setSrcRequestorId (_srcRequestorId other) (setRefCount (_refCount other) b) in
  let locks := lockList b in
  let b := set_lockList (lockList other) b in
  let! other := blk_invalidate (set_lockList locks other) in
  Ok (b, other).

(** [void trackLoadLocked(PacketPtr pkt)], [void clearLoadLocks(const RequestPtr &req)] and
    [bool checkWrite(PacketPtr pkt)], for a packet that [isLLSC] or not; a conditional write
    leaves its result in the extra data of the request. *)
Definition blk_trackLoadLocked (llsc : bool) (r : LockReq) (b : CacheBlk) : outcome CacheBlk :=
  do! assert_ llsc then
  let! ls := drop_locks r (lockList b) in let! l := new_Lock r in Ok (set_lockList (l :: ls) b).
Definition clearLoadLocks (r : LockReq) (b : CacheBlk) : outcome CacheBlk := let! ls := clear_locks r (lockList b) in Ok (set_lockList ls b).
Definition checkWrite (is_write llsc : bool) (r : LockReq) (b : CacheBlk) : outcome (bool * option Z * CacheBlk) :=
  do! assert_ is_write then
  if negb llsc && bool_decide (length (lockList b) = 0%nat) then Ok (true, None, b)
  else if llsc then
    let! (success, ls) := take_lock r (lockList b) in
    let! b := clearLoadLocks r (set_lockList ls b) in
    Ok (success, Some (if (success : bool) then 1 else 0), b)
  else let! b := clearLoadLocks r b in Ok (true, None, b).

(** * Invalidating and moving *)

Lemma blk_invalidate_ok b : _tickInserted b < 2 ^ 64 -> exists b', blk_invalidate b = Ok b' /\ _valid b' = false /\ _secure b' = false /\ _tickInserted b' = _tickInserted b /\ lockList b' = [].
Proof.
  intros H. unfold blk_invalidate, setWhenReady. cbn [_tickInserted setTaskId clearCoherenceBits set_coherence set_prefetched tagged_invalidate set_tagged].
  destruct (Z.leb_spec (_tickInserted b) 0xffffffffffffffff); [| lia]. cbn [assert_ obind]. by eexists.
Qed.

(** A move carries the tag, the coherence bits and the locks to the new place, and leaves an
    invalid block behind. *)
Lemma blk_move_ok cur b d : _valid b = true -> _valid d = false -> _secure d = false -> _tickInserted d <= cur -> _tickInserted b < 2 ^ 64 ->
  exists d' b', blk_move cur b d = Ok (d', b') /\ (_valid d' = true /\ _secure d' = _secure b /\ _tag d' = _tag b /\ lockList d' = lockList b /\ _tickInserted d' = _tickInserted d) /\
    _valid b' = false /\ _secure b' = false /\ _tickInserted b' = _tickInserted b.
Proof.
  intros Hv Hvd Hsd Htd Htb. unfold blk_move, tagged_insert. rewrite Hv, Hvd. cbn [negb assert_ obind]. set (d1 := if _prefetched b then _ else _).
  assert (_valid d1 = true /\ _secure d1 = _secure b /\ _tag d1 = _tag b /\ _tickInserted d1 = _tickInserted d) as (E1 & E2 & E3 & E4)
    by (unfold d1; destruct (_prefetched b); cbn; rewrite Hsd; by destruct (_secure b)).
  unfold setCoherenceBits. rewrite E1. cbn [assert_ obind]. unfold setWhenReady. cbn [_tickInserted setTaskId set_coherence]. rewrite E4.
  destruct (Z.leb_spec (_tickInserted d) cur); [| lia]. cbn [assert_ obind]. match goal with |- context [blk_invalidate ?x] => destruct (blk_invalidate_ok x Htb) as (b' & -> & H1 & H2 & H3 & _) end.
  cbn [obind]. do 2 eexists. split; [done |]. split; [| by rewrite H3]. by split_and!.
Qed.

(** * Conditional writes *)

(** An access to a line: its context, first address and size. *)
Record access_to : Type := mkAccess {
  ac_ctx : Z;
  ac_low : Z;
  ac_size : Z;
}.
Definition ac_high (x : access_to) : Z := ac_low x + ac_size x - 1.
Definition access_ok (x : access_to) : Prop := 0 <= ac_low x /\ 1 <= ac_size x /\ ac_low x + ac_size x <= 2 ^ 64.
Definition req_of (x : access_to) : LockReq := mkLockReq (Some (ac_low x)) (Some (ac_size x)) (Some (ac_ctx x)).
Definition overlap (x y : access_to) : bool := (ac_low x <=? ac_high y) && (ac_low y <=? ac_high x).
Definition within (x y : access_to) : bool := (ac_low y <=? ac_low x) && (ac_high x <=? ac_high y).

Inductive line_op : Type := LoadLocked (x : access_to) | PlainWrite (x : access_to) | CondWrite (x : access_to).
Definition op_access (o : line_op) : access_to := match o with LoadLocked x | PlainWrite x | CondWrite x => x end.

Definition line_step (o : line_op) (b : CacheBlk) : outcome CacheBlk :=
  match o with
  | LoadLocked x => blk_trackLoadLocked true (req_of x) b
  | PlainWrite x => let! (_, _, b) := checkWrite true false (req_of x) b in Ok b
  | CondWrite x => let! (_, _, b) := checkWrite true true (req_of x) b in Ok b
  end.
Fixpoint line_run (os : list line_op) (b : CacheBlk) : outcome CacheBlk :=
  match os with [] => Ok b | o :: os => let! b := line_step o b in line_run os b end.

(** What ends the lock of a load-locked access [x]: an overlapping load-locked access of
    anybody, an overlapping write of another context, and a conditional write of its own
    that it covers. *)
Definition ends (o : line_op) (x : access_to) : bool :=
  match o with
  | LoadLocked y => overlap y x
  | PlainWrite y => overlap y x && negb (ac_ctx y =? ac_ctx x)
  | CondWrite y => if ac_ctx y =? ac_ctx x then within y x else overlap y x
  end.
Definition lock_held (os : list line_op) (x : access_to) : Prop :=
  exists pre post, os = pre ++ LoadLocked x :: post /\ forall o, o ∈ post -> ends o x = false.

Definition lock_of (x : access_to) : Lock := mkLock (ac_ctx x) (ac_low x) (ac_high x).

Lemma req_range_of x : access_ok x -> req_range (req_of x) = Ok (ac_low x, ac_high x).
Proof. intros (H1 & H2 & H3). unfold req_range, req_of. cbn. rewrite wrap_small; [done | unfold in_width; lia]. Qed.

Lemma intersects_of x y : access_ok x -> lock_intersects (req_of x) (lock_of y) = Ok (overlap x y).
Proof. intros H. unfold lock_intersects. by rewrite req_range_of. Qed.

Lemma matches_of x y : access_ok x -> lock_matches (req_of x) (lock_of y) = Ok ((ac_ctx y =? ac_ctx x) && within x y).
Proof. intros H. unfold lock_matches. rewrite req_range_of by done. cbn. unfold within. by rewrite andb_assoc. Qed.

Lemma drop_locks_of x xs : access_ok x -> drop_locks (req_of x) (map lock_of xs) = Ok (map lock_of (filter (fun y => overlap x y = false) xs)).
Proof.
  intros H. induction xs as [| y xs IH]; [done |]. cbn [map drop_locks]. rewrite intersects_of, IH by done. cbn [obind]. rewrite filter_cons.
  destruct (overlap x y); [rewrite decide_False by done | rewrite decide_True by done]; done.
Qed.

Lemma clear_locks_of x xs : access_ok x -> clear_locks (req_of x) (map lock_of xs) = Ok (map lock_of (filter (fun y => overlap x y && negb (ac_ctx x =? ac_ctx y) = false) xs)).
Proof.
  intros H. induction xs as [| y xs IH]; [done |]. cbn [map clear_locks]. rewrite intersects_of, IH by done. cbn [obind]. rewrite filter_cons, (Z.eqb_sym (ac_ctx x)).
  destruct (overlap x y); cbn [obind get rq_ctx req_of andb lock_contextId lock_of]; [destruct (ac_ctx y =? ac_ctx x); cbn [negb obind] |]; by repeat (rewrite decide_False by done || rewrite decide_True by done).
Qed.

(** Locks on a line do not overlap. *)
Fixpoint disjoint (xs : list access_to) : Prop :=
  match xs with [] => True | x :: xs => (forall y, y ∈ xs -> overlap x y = false) /\ disjoint xs end.

Lemma disjoint_filter (P : access_to -> Prop) `{forall x, Decision (P x)} xs : disjoint xs -> disjoint (filter P xs).
Proof.
  induction xs as [| x xs IH]; [done |]. intros [Hx Hxs]. rewrite filter_cons. destruct (decide (P x)); [| by apply IH].
  split; [| by apply IH]. intros y [_ Hy]%list_elem_of_filter. by apply Hx.
Qed.

(** Whether a conditional write finds the lock of [y]. *)
Definition covered (x y : access_to) : bool := (ac_ctx y =? ac_ctx x) && within x y.

Lemma within_overlap x y z : access_ok x -> within x y = true -> within x z = true -> overlap y z = true.
Proof. intros (_ & H & _). unfold within, overlap, ac_high in *. lia. Qed.

Lemma take_lock_of x xs : access_ok x -> disjoint xs ->
  take_lock (req_of x) (map lock_of xs) = Ok (existsb (covered x) xs, map lock_of (filter (fun y => covered x y = false) xs)).
Proof.
  intros H. induction xs as [| y xs IH]; [done |]. intros [Hy Hxs]. cbn [map take_lock existsb]. rewrite matches_of by done. fold (covered x y). cbn [obind].
  rewrite filter_cons. destruct (covered x y) eqn:Ec; [rewrite decide_False by done | by rewrite decide_True, (IH Hxs)]. cbn [orb]. do 3 f_equal.
  clear IH Hxs. assert (forall z, z ∈ xs -> covered x z = false) as Hz.
  { intros z Hz. destruct (covered x z) eqn:Ez; [| done]. unfold covered in *. apply andb_true_iff in Ec as [_ Ec], Ez as [_ Ez].
    rewrite <- (Hy z Hz). symmetry. by apply (within_overlap x). }
  clear Hy. induction xs as [| z xs IH]; [done |]. rewrite filter_cons_True by (apply Hz; left). f_equal. apply IH. intros w Hw. apply Hz. by right.
Qed.

(** The locks of a block are those of accesses, apart from each other. *)
Definition locks_of (xs : list access_to) (b : CacheBlk) : Prop := lockList b = map lock_of xs /\ disjoint xs.

Lemma checkWrite_cond x xs b : access_ok x -> locks_of xs b -> exists ys, disjoint ys /\ (forall y, y ∈ ys <-> y ∈ xs /\ ends (CondWrite x) y = false) /\
  checkWrite true true (req_of x) b = Ok (existsb (covered x) xs, Some (if existsb (covered x) xs then 1 else 0), set_lockList (map lock_of ys) b).
Proof.
  intros H [Eb Hd]. unfold checkWrite, clearLoadLocks. cbn [negb andb assert_ obind]. rewrite Eb, take_lock_of by done. cbn [obind lockList set_lockList].
  rewrite clear_locks_of by done. cbn [obind]. eexists. split; [| split; [| reflexivity]]; [by do 2 apply disjoint_filter |].
  intros y. rewrite !list_elem_of_filter. cbn [ends]. unfold covered. rewrite (Z.eqb_sym (ac_ctx y)). destruct (ac_ctx x =? ac_ctx y); cbn [negb andb]; rewrite ?andb_false_r, ?andb_true_r; intuition.
Qed.

Lemma checkWrite_plain x xs b : access_ok x -> locks_of xs b -> exists ys, disjoint ys /\ (forall y, y ∈ ys <-> y ∈ xs /\ ends (PlainWrite x) y = false) /\
  checkWrite true false (req_of x) b = Ok (true, None, set_lockList (map lock_of ys) b).
Proof.
  intros H [Eb Hd]. unfold checkWrite, clearLoadLocks. cbn [negb andb assert_ obind]. case_bool_decide as Hl.
  - exists []. rewrite Eb, length_map in Hl. destruct xs; [| done]. split; [done |]. split; [intros y; rewrite !elem_of_nil; tauto |]. rewrite <- Eb. by destruct b.
  - rewrite Eb, clear_locks_of by done. cbn [obind]. eexists. split; [| split; [| reflexivity]]; [by apply disjoint_filter |]. intros y. rewrite list_elem_of_filter. cbn [ends]. tauto.
Qed.

Lemma overlap_sym x y : overlap x y = overlap y x.
Proof. unfold overlap. apply andb_comm. Qed.

Lemma track_locks x xs b : access_ok x -> locks_of xs b -> exists ys, disjoint (x :: ys) /\ (forall y, y ∈ ys <-> y ∈ xs /\ ends (LoadLocked x) y = false) /\
  blk_trackLoadLocked true (req_of x) b = Ok (set_lockList (map lock_of (x :: ys)) b).
Proof.
  intros H [Eb Hd]. unfold blk_trackLoadLocked. cbn [assert_ obind]. rewrite Eb, drop_locks_of by done. cbn [obind].
  unfold new_Lock. rewrite req_range_of by done. cbn [obind get req_of rq_ctx]. eexists. split; [split |split; [| reflexivity]].
  - intros y [Hy _]%list_elem_of_filter. exact Hy.
  - by apply disjoint_filter.
  - intros y. rewrite list_elem_of_filter. cbn [ends]. tauto.
Qed.

(** One access and the locks after it. *)
Lemma line_step_ok o xs b : access_ok (op_access o) -> locks_of xs b -> exists ys b', line_step o b = Ok b' /\ locks_of ys b' /\
  forall y, y ∈ ys <-> o = LoadLocked y \/ (y ∈ xs /\ ends o y = false).
Proof.
  intros H Hb. destruct o as [x | x | x]; cbn [line_step op_access] in *.
  - destruct (track_locks x xs b H Hb) as (ys & Hd & Hys & ->). exists (x :: ys). eexists. split; [done |]. split; [by split |].
    intros y. rewrite elem_of_cons, Hys. intuition congruence.
  - destruct (checkWrite_plain x xs b H Hb) as (ys & Hd & Hys & ->). exists ys. eexists. split; [done |]. split; [by split |]. intros y. rewrite Hys. intuition congruence.
  - destruct (checkWrite_cond x xs b H Hb) as (ys & Hd & Hys & ->). exists ys. eexists. split; [done |]. split; [by split |]. intros y. rewrite Hys. intuition congruence.
Qed.

Lemma line_run_app os1 os2 b : line_run (os1 ++ os2) b = let! b := line_run os1 b in line_run os2 b.
Proof. revert b. induction os1 as [| o os IH]; intros b; cbn; [done |]. destruct (line_step o b); cbn; [apply IH | done]. Qed.

Lemma lock_held_snoc os o x : lock_held (os ++ [o]) x <-> o = LoadLocked x \/ (lock_held os x /\ ends o x = false).
Proof.
  split.
  - intros (pre & post & E & Hpost). destruct post as [| p post _] using rev_ind.
    + apply app_inj_tail in E as [_ ->]. by left.
    + right. rewrite app_comm_cons, app_assoc in E. apply app_inj_tail in E as [-> ->].
      split; [exists pre, post; split; [done |]; intros o Ho |]; apply Hpost, elem_of_app; [by left | right; by left].
  - intros [-> | [(pre & post & -> & Hpost) Ho]]; [exists os, []; split; [done |]; intros o Ho; by apply not_elem_of_nil in Ho |].
    exists pre, (post ++ [o]). split; [by rewrite <- app_assoc |]. intros o' [Ho' | ->%list_elem_of_singleton]%elem_of_app; [by apply Hpost | done].
Qed.

Lemma line_run_ok os b : (forall o, o ∈ os -> access_ok (op_access o)) -> lockList b = [] -> exists xs b', line_run os b = Ok b' /\ locks_of xs b' /\ forall y, y ∈ xs <-> lock_held os y.
Proof.
  intros Hok Hb. induction os as [| o os IH] using rev_ind.
  - exists [], b. split; [done |]. split; [by split |]. intros y. split; [intros Hy; by apply not_elem_of_nil in Hy | intros ([] & post & E & _); done].
  - destruct IH as (xs & b1 & E1 & Hb1 & Hxs); [intros o' Ho'; apply Hok, elem_of_app; by left |].
    destruct (line_step_ok o xs b1) as (ys & b2 & E2 & Hb2 & Hys); [apply Hok, elem_of_app; right; by left | done |].
    exists ys, b2. rewrite line_run_app, E1. cbn. rewrite E2. split; [done |]. split; [done |]. intros y. by rewrite Hys, Hxs, lock_held_snoc.
Qed.

(** Load-locked and conditional accesses to a cache line.  After any history of
    load-locked accesses, writes and conditional writes, a conditional write goes through
    exactly when its context has made a load-locked access that covers it and that nothing
    has ended since: no overlapping load-locked access, no overlapping write of another
    context, conditional or not, and no conditional write of its own that used it up.  The
    extra data of the request tell the outcome. *)
Theorem conditional_write_by_history os x b :
  (forall o, o ∈ os -> access_ok (op_access o)) -> access_ok x -> lockList b = [] ->
  exists b1 success b2, line_run os b = Ok b1 /\ checkWrite true true (req_of x) b1 = Ok (success, Some (if (success : bool) then 1 else 0), b2) /\
    (success = true <-> exists y, lock_held os y /\ ac_ctx y = ac_ctx x /\ within x y = true).
Proof.
  intros Hos Hx Hb. destruct (line_run_ok os b Hos Hb) as (xs & b1 & E1 & Hb1 & Hxs). destruct (checkWrite_cond x xs b1 Hx Hb1) as (ys & _ & _ & E2).
  exists b1, (existsb (covered x) xs). eexists. split; [done |]. split; [exact E2 |]. rewrite existsb_exists. split.
  - intros (y & Hy & [Hc Hw]%andb_true_iff). exists y. split; [apply Hxs; by apply list_elem_of_In |]. split; [lia | done].
  - intros (y & Hy & Hc & Hw). exists y. split; [apply list_elem_of_In; by apply Hxs |]. unfold covered. rewrite Hw, Hc, Z.eqb_refl. done.
Qed.

(** Context 1 locks a word, context 2 writes next to it: the conditional write goes through. *)
Definition ex_line : CacheBlk := match new_CacheBlk 0 with Ok b => b | Err _ => mkBlk false false 0 0 0 [] 0 0 0 0 false end.

Lemma conditional_write_by_history_witness :
  let os := [LoadLocked (mkAccess 1 0x40 4); PlainWrite (mkAccess 2 0x44 4)] in
  exists b1 success b2, line_run os ex_line = Ok b1 /\ checkWrite true true (req_of (mkAccess 1 0x40 4)) b1 = Ok (success, Some (if (success : bool) then 1 else 0), b2) /\
    (success = true <-> exists y, lock_held os y /\ ac_ctx y = ac_ctx (mkAccess 1 0x40 4) /\ within (mkAccess 1 0x40 4) y = true).
Proof.
  intros os. apply conditional_write_by_history; [| unfold access_ok; cbn; lia | reflexivity].
  intros o Ho. unfold os in Ho. repeat (apply elem_of_cons in Ho as [-> | Ho]; [unfold access_ok; cbn; lia |]). by apply not_elem_of_nil in Ho.
Defined.

(** A conditional write that fails still ends the locks of other contexts, and a load-locked
    access of another context takes the lock away before anything is written. *)
Example failed_write_ends_lock :
  let run os := let! b := line_run os ex_line in let! (s, _, _) := checkWrite true true (req_of (mkAccess 1 0x40 4)) b in Ok s in
  run [LoadLocked (mkAccess 1 0x40 4)] = Ok true /\
  run [LoadLocked (mkAccess 1 0x40 4); CondWrite (mkAccess 2 0x40 4)] = Ok false /\
  run [LoadLocked (mkAccess 1 0x40 4); LoadLocked (mkAccess 2 0x40 4)] = Ok false.
Proof. vm_compute. auto. Qed.

(** A moved block keeps the insertion tick of its new place: its age is that of the place. *)
Example moved_age :
  (let! b := blk_insert 100 7 false 0 0 ex_line in let! (d, _) := blk_move 500 b ex_line in getAge 500 d) = Ok 500.
Proof. vm_compute. reflexivity. Qed.
