(* ===== verification/Tags.v ===== *)
(** The tag store of a cache: classes [BaseTags] and [BaseSetAssoc],
    [src/gem5/src/mem/cache/tags/base.cc], [base.hh], [base_set_assoc.cc] and
    [base_set_assoc.hh].

    The store keeps blocks, named by their number, and asks an indexing policy where an
    address may be and a replacement policy which block to give up; it is written for every
    instance of the classes [IndexingPolicy] and [ReplacementPolicy].  The current tick and
    the numbers that policies draw are arguments. *)
From Stdlib Require Import ZArith Lia.
From stdpp Require Import base numbers list gmap.
From S2P Require Import Prelude IntMath Indexing Replacement CacheBlk.

Open Scope Z_scope.

(** * The store *)

Record TagStats : Type := mkTagStats {
  tagsInUse : Z;
  totalRefs : Z;
  sampledRefs : Z;
  warmupTick : Z;
  occupancies : gmap Z Z;
  tagAccesses : Z;
  dataAccesses : Z;
}.

Record Tags (I S : Type) : Type := mkTags {
  blkSize : Z;
  lookupLatency : Z;
  maxRequestors : Z;
  indexingPolicy : I;
  warmupBound : Z;
  warmedUp : bool;
  numBlocks : Z;
  stats : TagStats;
  allocAssoc : Z;
  blks : list CacheBlk;
  sequentialAccess : bool;
  replacementPolicy : S;
}.
Arguments mkTags {I S}.
Arguments blkSize {I S}.
Arguments lookupLatency {I S}.
Arguments maxRequestors {I S}.
Arguments indexingPolicy {I S}.
Arguments warmupBound {I S}.
Arguments warmedUp {I S}.
Arguments numBlocks {I S}.
Arguments stats {I S}.
Arguments allocAssoc {I S}.
Arguments blks {I S}.
Arguments sequentialAccess {I S}.
Arguments replacementPolicy {I S}.

(** What the tags see of a packet. *)
Record TagPkt : Type := mkTagPkt {
  tp_addr : Z;
  tp_secure : bool;
  tp_requestorId : Z;
  tp_taskId : Z;
}.

Section tags.
Context {I S : Type} `{IP : IndexingPolicy I} `{RP : ReplacementPolicy S}.

Definition set_indexing (v : I) (t : Tags I S) : Tags I S :=
  mkTags (blkSize t) (lookupLatency t) (maxRequestors t) v (warmupBound t) (warmedUp t) (numBlocks t) (stats t) (allocAssoc t) (blks t) (sequentialAccess t) (replacementPolicy t).
Definition set_warm (v : bool) (t : Tags I S) : Tags I S :=
  mkTags (blkSize t) (lookupLatency t) (maxRequestors t) (indexingPolicy t) (warmupBound t) v (numBlocks t) (stats t) (allocAssoc t) (blks t) (sequentialAccess t) (replacementPolicy t).
Definition set_stats (v : TagStats) (t : Tags I S) : Tags I S :=
  mkTags (blkSize t) (lookupLatency t) (maxRequestors t) (indexingPolicy t) (warmupBound t) (warmedUp t) (numBlocks t) v (allocAssoc t) (blks t) (sequentialAccess t) (replacementPolicy t).
Definition set_allocAssoc (v : Z) (t : Tags I S) : Tags I S :=
  mkTags (blkSize t) (lookupLatency t) (maxRequestors t) (indexingPolicy t) (warmupBound t) (warmedUp t) (numBlocks t) (stats t) v (blks t) (sequentialAccess t) (replacementPolicy t).
Definition set_blks (v : list CacheBlk) (t : Tags I S) : Tags I S :=
  mkTags (blkSize t) (lookupLatency t) (maxRequestors t) (indexingPolicy t) (warmupBound t) (warmedUp t) (numBlocks t) (stats t) (allocAssoc t) v (sequentialAccess t) (replacementPolicy t).
Definition set_policy (v : S) (t : Tags I S) : Tags I S :=
  mkTags (blkSize t) (lookupLatency t) (maxRequestors t) (indexingPolicy t) (warmupBound t) (warmedUp t) (numBlocks t) (stats t) (allocAssoc t) (blks t) (sequentialAccess t) v.

Definition blk_at (e : nat) (t : Tags I S) : outcome CacheBlk := match blks t !! e with Some b => Ok b | None => Err Undefined end.
Definition set_blk (e : nat) (b : CacheBlk) (t : Tags I S) : Tags I S := set_blks (<[e := b]> (blks t)) t.

(** [Addr blkAlign(Addr addr) const] and [int extractBlkOffset(Addr addr) const]. *)
Definition blkAlign (a : Z) (t : Tags I S) : Z := Z.land a (wnot 64 (blkSize t - 1)).
Definition extractBlkOffset (a : Z) (t : Tags I S) : Z := Z.land a (blkSize t - 1).

(** [CacheBlk *findBlock(Addr addr, bool is_secure) const], and its loop. *)
Fixpoint find_loop (tag : Z) (is_secure : bool) (es : list (option nat)) (t : Tags I S) : outcome (option nat) :=
  match es with
  | [] => Ok None
  | None :: _ => Err Undefined
  | Some e :: es => let! b := blk_at e t in if matchTag tag is_secure b then Ok (Some e) else find_loop tag is_secure es t
  end.
Definition findBlock (a : Z) (is_secure : bool) (t : Tags I S) : outcome (option nat) :=
  let! es := ix_possible a (indexingPolicy t) in find_loop (ix_tag a (indexingPolicy t)) is_secure es t.

(** Statistics. *)
Definition occupy (d id : Z) (s : TagStats) : TagStats :=
  mkTagStats (tagsInUse s) (totalRefs s) (sampledRefs s) (warmupTick s) (<[id := default 0 (occupancies s !! id) + d]> (occupancies s)) (tagAccesses s) (dataAccesses s).
Definition sample_refs (n : Z) (s : TagStats) : TagStats :=
  mkTagStats (tagsInUse s) (totalRefs s + n) (sampledRefs s + 1) (warmupTick s) (occupancies s) (tagAccesses s) (dataAccesses s).
Definition count_accesses (tags data : Z) (s : TagStats) : TagStats :=
  mkTagStats (tagsInUse s) (totalRefs s) (sampledRefs s) (warmupTick s) (occupancies s) (tagAccesses s + tags) (dataAccesses s + data).
Definition use_tags (d : Z) (s : TagStats) : TagStats :=
  mkTagStats (tagsInUse s + d) (totalRefs s) (sampledRefs s) (warmupTick s) (occupancies s) (tagAccesses s) (dataAccesses s).
Definition warm_at (cur : Z) (s : TagStats) : TagStats :=
  mkTagStats (tagsInUse s) (totalRefs s) (sampledRefs s) cur (occupancies s) (tagAccesses s) (dataAccesses s).

(** [void BaseTags::insertBlock(const PacketPtr pkt, CacheBlk *blk)]. *)
Definition base_insertBlock (cur : Z) (pkt : TagPkt) (e : nat) (t : Tags I S) : outcome (Tags I S) :=
  let! b := blk_at e t in
  do! assert_ (negb (_valid b)) then
  do! assert_ (tp_requestorId pkt <? maxRequestors t) then
  let t := set_stats (occupy 1 (tp_requestorId pkt) (stats t)) t in
  let! b := blk_insert cur (ix_tag (tp_addr pkt) (indexingPolicy t)) (tp_secure pkt) (tp_requestorId pkt) (tp_taskId pkt) b in
  let t := set_blk e b t in
  let t := if negb (warmedUp t) && (warmupBound t <=? tagsInUse (stats t)) then set_stats (warm_at cur (stats t)) (set_warm true t) else t in
  Ok (set_stats (count_accesses 1 1 (stats t)) t).

(** [void BaseTags::invalidate(CacheBlk *blk)]. *)
Definition base_invalidate (e : nat) (t : Tags I S) : outcome (Tags I S) :=
  let! b := blk_at e t in
  do! assert_ (_valid b) then
  let t := set_stats (sample_refs (_refCount b) (occupy (-1) (_srcRequestorId b) (stats t))) t in
  let! b := blk_invalidate b in Ok (set_blk e b t).

(** [void BaseTags::moveBlock(CacheBlk *src_blk, CacheBlk *dest_blk)]. *)
Definition base_moveBlock (cur : Z) (src dest : nat) (t : Tags I S) : outcome (Tags I S) :=
  let! d := blk_at dest t in
  let! s := blk_at src t in
  do! assert_ (negb (_valid d)) then
  do! assert_ (_valid s) then
  let! (d, s) := blk_move cur s d in
  do! assert_ (_valid d) then
  do! assert_ (negb (_valid s)) then
  Ok (set_blk src s (set_blk dest d t)).

(** The operations of [BaseSetAssoc]. *)
Definition insertBlock (cur draw : Z) (pkt : TagPkt) (e : nat) (t : Tags I S) : outcome (Tags I S) :=
  let! t := base_insertBlock cur pkt e t in
  let t := set_stats (use_tags 1 (stats t)) t in
  let! p := rp_reset cur draw e (replacementPolicy t) in Ok (set_policy p t).

Definition invalidate (e : nat) (t : Tags I S) : outcome (Tags I S) :=
  let! t := base_invalidate e t in
  let t := set_stats (use_tags (-1) (stats t)) t in
  let! p := rp_invalidate e (replacementPolicy t) in Ok (set_policy p t).

Definition moveBlock (cur draw : Z) (src dest : nat) (t : Tags I S) : outcome (Tags I S) :=
  let! t := base_moveBlock cur src dest t in
  let! p := rp_invalidate src (replacementPolicy t) in
  let! p := rp_reset cur draw dest p in Ok (set_policy p t).

Definition accessBlock (cur : Z) (pkt : TagPkt) (t : Tags I S) : outcome (option nat * Z * Tags I S) :=
  let! o := findBlock (tp_addr pkt) (tp_secure pkt) t in
  let data := if sequentialAccess t then (match o with Some _ => 1 | None => 0 end) else allocAssoc t in
  let t := set_stats (count_accesses (allocAssoc t) data (stats t)) t in
  let! t :=
    match o with
    | Some e =>
        let! b := blk_at e t in
        let t := set_blk e (increaseRefCount b) t in
        let! p := rp_touch cur e (replacementPolicy t) in Ok (set_policy p t)
    | None => Ok t
    end in
  Ok (o, lookupLatency t, t).

(** The candidates must be blocks. *)
Fixpoint candidates (es : list (option nat)) : outcome (list nat) :=
  match es with
  | [] => Ok []
  | None :: _ => Err Undefined
  | Some e :: es => let! cs := candidates es in Ok (e :: cs)
  end.
Definition findVictim (draw : Z) (a : Z) (t : Tags I S) : outcome (nat * list nat * Tags I S) :=
  let! es := ix_possible a (indexingPolicy t) in
  let! cs := candidates es in
  let! (v, p) := rp_getVictim draw cs (replacementPolicy t) in
  Ok (v, [v], set_policy p t).

Definition regenerateBlkAddr (e : nat) (t : Tags I S) : outcome Z := let! b := blk_at e t in ix_regenerate (_tag b) e (indexingPolicy t).
Definition setWayAllocationMax (ways : Z) (t : Tags I S) : outcome (Tags I S) := do! fatal_if (ways <? 1) then Ok (set_allocAssoc ways t).
Definition getWayAllocationMax (t : Tags I S) : Z := allocAssoc t.

(** [void BaseTags::cleanupRefs()]: the visitor goes over all blocks. *)
Definition cleanupRefs (t : Tags I S) : Tags I S :=
  set_stats (foldl (fun s b => if _valid b then sample_refs (_refCount b) s else s) (stats t) (blks t)) t.

(** [BaseSetAssoc(const Params &p)]; the warm-up bound is a floating-point product, and what
    the memory of the blocks held before is an argument. *)
Fixpoint new_blks (garbage : list Z) : outcome (list CacheBlk) :=
  match garbage with [] => Ok [] | g :: gs => let! b := new_CacheBlk g in let! bs := new_blks gs in Ok (b :: bs) end.
Definition new_Tags (size block_size tag_latency maxReq warm ways : Z) (seq_access : bool) (garbage : list Z) (i : I) (s : S) : outcome (Tags I S) :=
  if block_size =? 0 then Err Undefined else
  let! bs := new_blks (take (Z.to_nat (size / block_size)) garbage) in
  do! fatal_if ((block_size <? 4) || negb (isPowerOf2 block_size)) then
  Ok (mkTags block_size tag_latency maxReq i warm false (size / block_size) (mkTagStats 0 0 0 0 ∅ 0 0) ways bs seq_access s).

(** [void BaseSetAssoc::tagsInit()], and its loop. *)
Fixpoint init_loop (n : nat) (e : nat) (t : Tags I S) : outcome (Tags I S) :=
  match n with
  | O => Ok t
  | Datatypes.S n =>
      let! i := ix_setEntry e (Z.of_nat e) (indexingPolicy t) in
      let! p := rp_instantiateEntry e (replacementPolicy t) in
      init_loop n (Datatypes.S e) (set_policy p (set_indexing i t))
  end.
Definition tagsInit (t : Tags I S) : outcome (Tags I S) := init_loop (Z.to_nat (numBlocks t)) 0 t.

(** * What the tags hold *)

(** The block of an address. *)
Definition block (a : Z) (t : Tags I S) : Z := a - a mod 2 ^ ix_shift (indexingPolicy t).

(** Block [e] holds the block [k] of the secure or the other address space. *)
Definition holds (t : Tags I S) (e : nat) (k : Z) (sec : bool) : Prop :=
  exists b a es, blks t !! e = Some b /\ _valid b = true /\ _secure b = sec /\ in_width 64 a /\ k = block a t /\
    _tag b = ix_tag a (indexingPolicy t) /\ ix_possible a (indexingPolicy t) = Ok (map Some es) /\ e ∈ es.

(** A store in use at time [now]. *)
Record tags_ok (now : Z) (t : Tags I S) : Prop := {
  to_linked : ix_linked (ix_blocks (indexingPolicy t)) (indexingPolicy t);
  to_blocks : length (blks t) = ix_blocks (indexingPolicy t);
  to_known : forall e, (e < ix_blocks (indexingPolicy t))%nat -> rp_known (replacementPolicy t) e;
  to_shift : 0 <= ix_shift (indexingPolicy t);
  to_now : now < 2 ^ 64;
  to_ticks : forall e b, blks t !! e = Some b -> _tickInserted b <= now;
  to_invalid : forall e b, blks t !! e = Some b -> _valid b = false -> _secure b = false;
}.

(** The store represents a map from blocks to entries: what is in the map is where the map
    says, and every valid entry is in the map. *)
Definition rep (t : Tags I S) (M : gmap (Z * bool) nat) : Prop :=
  (forall k sec e, M !! (k, sec) = Some e <-> holds t e k sec) /\
  (forall e b, blks t !! e = Some b -> _valid b = true -> exists k sec, M !! (k, sec) = Some e).

Lemma holds_regenerate now t e k sec : tags_ok now t -> holds t e k sec -> regenerateBlkAddr e t = Ok k.
Proof.
  intros Ht (b & a & es & Hb & Hv & Hs & Ha & -> & Htag & Hes & Hin). unfold regenerateBlkAddr, blk_at. rewrite Hb. cbn [obind]. rewrite Htag.
  destruct (ix_lookup_ok (indexingPolicy t) a (to_linked _ _ Ht) Ha) as (es' & E & _ & He). rewrite Hes in E. injection E as E.
  apply (inj (map Some)) in E. subst es'. by apply He.
Qed.

Lemma holds_unique now t e k sec k' sec' : tags_ok now t -> holds t e k sec -> holds t e k' sec' -> k = k' /\ sec = sec'.
Proof.
  intros Ht H H'. pose proof (holds_regenerate _ _ _ _ _ Ht H) as E. rewrite (holds_regenerate _ _ _ _ _ Ht H') in E. injection E as ->.
  destruct H as (b & _ & _ & Hb & _ & <- & _), H' as (b' & _ & _ & Hb' & _ & <- & _). rewrite Hb in Hb'. injection Hb' as <-. done.
Qed.

Lemma block_div a b n : 0 <= n -> a - a mod 2 ^ n = b - b mod 2 ^ n -> a / 2 ^ n = b / 2 ^ n.
Proof.
  intros Hn H. pose proof (Z.div_mod a (2 ^ n) ltac:(lia)). pose proof (Z.div_mod b (2 ^ n) ltac:(lia)). assert (0 < 2 ^ n) by (apply Z.pow_pos_nonneg; lia). nia.
Qed.

(** The search finds the first block that matches. *)
Lemma find_loop_ok tag sec es t : (forall e, e ∈ es -> exists b, blks t !! e = Some b) -> exists o, find_loop tag sec (map Some es) t = Ok o /\
  match o with
  | Some e => e ∈ es /\ exists b, blks t !! e = Some b /\ matchTag tag sec b = true
  | None => forall e b, e ∈ es -> blks t !! e = Some b -> matchTag tag sec b = false
  end.
Proof.
  induction es as [| e es IH]; intros Hes; [exists None; split; [done |]; intros e b He; by apply not_elem_of_nil in He |].
  destruct (Hes e ltac:(left)) as [b Hb]. cbn [map find_loop]. unfold blk_at. rewrite Hb. cbn [obind]. destruct (matchTag tag sec b) eqn:Em.
  { exists (Some e). split; [done |]. split; [left | by exists b]. }
  destruct IH as (o & -> & Ho); [intros x Hx; apply Hes; by right |]. exists o. split; [done |]. destruct o as [x |].
  - destruct Ho as [Hx Hb']. split; [by right | done].
  - intros x bx [-> | Hx]%elem_of_cons Hbx; [congruence | by apply (Ho x)].
Qed.

Lemma entries_ok now t a : tags_ok now t -> in_width 64 a -> exists es, ix_possible a (indexingPolicy t) = Ok (map Some es) /\ es <> [] /\
  forall e, e ∈ es -> (e < ix_blocks (indexingPolicy t))%nat /\ exists b, blks t !! e = Some b.
Proof.
  intros Ht Ha. destruct (ix_lookup_ok (indexingPolicy t) a (to_linked _ _ Ht) Ha) as (es & E & Hne & He). exists es. split; [done |]. split; [done |].
  intros e Hin. destruct (He e Hin) as [Hlt _]. split; [done |]. apply lookup_lt_is_Some_2. by rewrite (to_blocks _ _ Ht).
Qed.

Lemma matchTag_true tag sec b : matchTag tag sec b = true <-> _valid b = true /\ _tag b = tag /\ _secure b = sec.
Proof. unfold matchTag. rewrite !andb_true_iff, Z.eqb_eq, eqb_true_iff. tauto. Qed.

Lemma findBlock_rep now t M a sec : tags_ok now t -> rep t M -> in_width 64 a -> findBlock a sec t = Ok (M !! (block a t, sec)).
Proof.
  intros Ht [HM _] Ha. destruct (entries_ok now t a Ht Ha) as (es & E & _ & Hes). unfold findBlock. rewrite E. cbn [obind].
  destruct (find_loop_ok (ix_tag a (indexingPolicy t)) sec es t) as (o & -> & Ho); [intros e He; by apply Hes |]. f_equal. destruct o as [e |].
  - destruct Ho as (Hin & b & Hb & (Hv & Htag & Hs)%matchTag_true). symmetry. apply HM. exists b, a, es. done.
  - destruct (M !! (block a t, sec)) as [e |] eqn:EM; [| done]. apply HM in EM as (b & a' & es' & Hb & Hv & Hs & Ha' & Hk & Htag & Hes' & Hin).
    destruct (ix_same_block (indexingPolicy t) a a' (to_linked _ _ Ht)) as [Et Ep]; [apply block_div; [by apply (to_shift now) | exact Hk] |].
    rewrite <- Ep, E in Hes'. injection Hes' as Hes'. apply (inj (map Some)) in Hes'. subst es'.
    assert (matchTag (ix_tag a (indexingPolicy t)) sec b = true) as Hm by (apply matchTag_true; rewrite Et; done). by rewrite (Ho e b Hin Hb) in Hm.
Qed.

(** * Changing one block *)

Section change.
Variables (t t' : Tags I S) (e : nat) (b' : CacheBlk).
Hypothesis Hix : indexingPolicy t' = indexingPolicy t.
Hypothesis Hblks : blks t' = <[e := b']> (blks t).

Lemma block_same a : block a t' = block a t.
Proof. unfold block. by rewrite Hix. Qed.

Lemma holds_other e' k sec : e' <> e -> holds t' e' k sec <-> holds t e' k sec.
Proof. intros Hne. unfold holds. setoid_rewrite block_same. rewrite Hix, Hblks. setoid_rewrite list_lookup_insert_ne; [| done..]. done. Qed.

Lemma holds_invalid b k sec : blks t !! e = Some b -> _valid b = false -> ~ holds t e k sec.
Proof. intros Hb Hv (b0 & a & es & Hb0 & Hv0 & _). congruence. Qed.

Lemma at_changed : (e < length (blks t))%nat -> blks t' !! e = Some b'.
Proof. intros He. rewrite Hblks. by apply list_lookup_insert_eq. Qed.

Lemma at_other e' : e' <> e -> blks t' !! e' = blks t !! e'.
Proof. intros Hne. rewrite Hblks. by apply list_lookup_insert_ne. Qed.

(** The block keeps its tag. *)
Lemma rep_kept M b : blks t !! e = Some b -> _valid b' = _valid b -> _secure b' = _secure b -> _tag b' = _tag b -> rep t M -> rep t' M.
Proof.
  intros Hb Hv Hs Htag [HM Hall]. pose proof (lookup_lt_Some _ _ _ Hb) as Hlt. split.
  - intros k sec x. rewrite HM. destruct (decide (x = e)) as [-> | Hne]; [| by rewrite holds_other]. unfold holds. setoid_rewrite block_same. rewrite Hix, (at_changed Hlt), Hb.
    split; intros (b0 & a & es & [= <-] & H); [exists b' | exists b]; exists a, es; rewrite ?Hv, ?Hs, ?Htag; rewrite ?Hv, ?Hs, ?Htag in H; done.
  - intros x bx Hx Hvx. destruct (decide (x = e)) as [-> | Hne]; [| apply (Hall x bx); [by rewrite <- at_other | done]].
    rewrite (at_changed Hlt) in Hx. injection Hx as <-. apply (Hall e b Hb). congruence.
Qed.

(** An invalid block is filled. *)
Lemma rep_added now M b a es : tags_ok now t' -> blks t !! e = Some b -> _valid b = false -> _valid b' = true -> in_width 64 a -> _tag b' = ix_tag a (indexingPolicy t) ->
  ix_possible a (indexingPolicy t) = Ok (map Some es) -> e ∈ es -> M !! (block a t, _secure b') = None -> rep t M -> rep t' (<[(block a t, _secure b') := e]> M).
Proof.
  intros Ht Hb Hv Hv' Ha Htag Hes Hin Hnew [HM Hall]. pose proof (lookup_lt_Some _ _ _ Hb) as Hlt.
  assert (holds t' e (block a t) (_secure b')) as Hh.
  { exists b', a, es. rewrite (at_changed Hlt), block_same, Hix. done. }
  split.
  - intros k sec x. destruct (decide ((block a t, _secure b') = (k, sec))) as [[= <- <-] | Hne].
    + rewrite lookup_insert_eq. split; [intros [= <-]; done |]. intros Hx. destruct (decide (x = e)) as [-> | Hxe]; [done |].
      apply holds_other in Hx; [| done]. apply HM in Hx. congruence.
    + rewrite lookup_insert_ne by done. destruct (decide (x = e)) as [-> | Hxe]; [| rewrite holds_other by done; apply HM].
      split; [intros Hx; apply HM in Hx; by apply (holds_invalid b) in Hx |]. intros Hx. destruct (holds_unique _ _ _ _ _ _ _ Ht Hh Hx). congruence.
  - intros x bx Hx Hvx. destruct (decide (x = e)) as [-> | Hxe]; [exists (block a t), (_secure b'); apply lookup_insert_eq |].
    rewrite at_other in Hx by done. destruct (Hall x bx Hx Hvx) as (k & sec & Hk). exists k, sec. rewrite lookup_insert_ne; [done |]. intros [= <- <-]. congruence.
Qed.

(** A valid block is given up. *)
Lemma rep_removed now M k sec : tags_ok now t -> _valid b' = false -> M !! (k, sec) = Some e -> rep t M -> rep t' (delete (k, sec) M).
Proof.
  intros Ht Hv Hk [HM Hall]. pose proof Hk as Hh. apply HM in Hh. assert (e < length (blks t))%nat as Hlt by (destruct Hh as (b & ? & ? & Hb & _); by apply lookup_lt_Some in Hb).
  split.
  - intros k' sec' x. destruct (decide ((k, sec) = (k', sec'))) as [[= <- <-] | Hne].
    + rewrite lookup_delete_eq. split; [done |]. intros Hx. destruct (decide (x = e)) as [-> | Hxe].
      * destruct Hx as (b0 & ? & ? & Hb0 & Hv0 & _). rewrite (at_changed Hlt) in Hb0. injection Hb0 as <-. congruence.
      * apply holds_other in Hx; [| done]. apply HM in Hx. congruence.
    + rewrite lookup_delete_ne by done. destruct (decide (x = e)) as [-> | Hxe]; [| rewrite holds_other by done; apply HM]. split.
      * intros Hx. apply HM in Hx. destruct (holds_unique _ _ _ _ _ _ _ Ht Hh Hx). congruence.
      * intros (b0 & ? & ? & Hb0 & Hv0 & _). rewrite (at_changed Hlt) in Hb0. injection Hb0 as <-. congruence.
  - intros x bx Hx Hvx. destruct (decide (x = e)) as [-> | Hxe]; [rewrite (at_changed Hlt) in Hx; injection Hx as <-; congruence |].
    rewrite at_other in Hx by done. destruct (Hall x bx Hx Hvx) as (k' & sec' & Hk'). exists k', sec'. rewrite lookup_delete_ne; [done |]. intros [= <- <-]. congruence.
Qed.

(** The rest of the invariant, for a new block of its time. *)
Lemma ok_changed now now' : tags_ok now t -> now <= now' < 2 ^ 64 -> (forall j, rp_known (replacementPolicy t') j <-> rp_known (replacementPolicy t) j) ->
  _tickInserted b' <= now' -> (_valid b' = false -> _secure b' = false) -> tags_ok now' t'.
Proof.
  intros Ht Hnow Hk Htick Hinv. split.
  - rewrite Hix. apply (to_linked _ _ Ht).
  - rewrite Hix, Hblks, length_insert. apply (to_blocks _ _ Ht).
  - intros x. rewrite Hix, Hk. apply (to_known _ _ Ht).
  - rewrite Hix. apply (to_shift _ _ Ht).
  - lia.
  - intros x bx. rewrite Hblks, list_lookup_insert_Some. intros [(<- & <- & _) | (_ & Hx)]; [done |]. pose proof (to_ticks _ _ Ht x bx Hx). lia.
  - intros x bx. rewrite Hblks, list_lookup_insert_Some. intros [(<- & <- & _) | (_ & Hx)]; [done |]. apply (to_invalid _ _ Ht x bx Hx).
Qed.
End change.

(** * The operations *)

Definition frame (t t' : Tags I S) : Prop := indexingPolicy t' = indexingPolicy t /\ maxRequestors t' = maxRequestors t.

Lemma insertBlock_rep now cur draw pkt e b es t M : tags_ok now t -> rep t M -> now <= cur < 2 ^ 64 -> in_width 64 (tp_addr pkt) -> tp_requestorId pkt < maxRequestors t ->
  blks t !! e = Some b -> _valid b = false -> ix_possible (tp_addr pkt) (indexingPolicy t) = Ok (map Some es) -> e ∈ es -> M !! (block (tp_addr pkt) t, tp_secure pkt) = None ->
  exists t', insertBlock cur draw pkt e t = Ok t' /\ frame t t' /\ tags_ok cur t' /\ rep t' (<[(block (tp_addr pkt) t, tp_secure pkt) := e]> M).
Proof.
  intros Ht HM Hcur Ha Hreq Hb Hv Hes Hin Hnew. assert (e < ix_blocks (indexingPolicy t))%nat as Hlt by (rewrite <- (to_blocks _ _ Ht); by apply lookup_lt_Some in Hb).
  pose proof (to_invalid _ _ Ht e b Hb Hv) as Hsec. destruct (rp_reset_ok cur draw e (replacementPolicy t) (to_known _ _ Ht e Hlt)) as (p' & Ep & Hp).
  unfold insertBlock, base_insertBlock, blk_at. rewrite Hb. cbn [obind]. rewrite Hv. cbn [negb assert_ obind].
  destruct (Z.ltb_spec (tp_requestorId pkt) (maxRequestors t)); [| lia]. cbn [assert_ obind]. unfold blk_insert, tagged_insert. rewrite Hv. cbn [negb assert_ obind].
  set (b' := increaseRefCount _). set (warm := negb _ && _).
  assert (_secure b' = tp_secure pkt) as Hs by (unfold b'; cbn; rewrite Hsec; by destruct (tp_secure pkt)).
  match goal with |- context [rp_reset cur draw e ?p] => replace p with (replacementPolicy t) by (by destruct warm) end. rewrite Ep. cbn [obind].
  eexists. split; [done |]. match goal with |- frame t ?u /\ _ => set (t' := u) end.
  assert (indexingPolicy t' = indexingPolicy t) as Hix by (unfold t'; by destruct warm). assert (blks t' = <[e := b']> (blks t)) as Hbl by (unfold t'; by destruct warm).
  assert (tags_ok cur t') as Ht'. { apply (ok_changed t t' e b' Hix Hbl now); [done | done | | unfold b'; cbn; lia | done]. unfold t'. intros j. apply Hp. }
  split; [split; [done | unfold t'; by destruct warm] |]. split; [done |]. rewrite <- Hs in Hnew |- *. by apply (rep_added t t' e b' Hix Hbl cur M b (tp_addr pkt) es).
Qed.

Lemma invalidate_rep now e k sec t M : tags_ok now t -> rep t M -> M !! (k, sec) = Some e ->
  exists t', invalidate e t = Ok t' /\ frame t t' /\ tags_ok now t' /\ rep t' (delete (k, sec) M) /\ exists b, blks t' !! e = Some b /\ _valid b = false.
Proof.
  intros Ht HM Hk. pose proof Hk as Hh. apply HM in Hh as (b & a & es & Hb & Hv & _). pose proof (lookup_lt_Some _ _ _ Hb) as Hl.
  assert (e < ix_blocks (indexingPolicy t))%nat as Hlt by (by rewrite <- (to_blocks _ _ Ht)). destruct (rp_invalidate_ok e (replacementPolicy t) (to_known _ _ Ht e Hlt)) as (p' & Ep & Hp).
  pose proof (to_ticks _ _ Ht e b Hb) as Htick. pose proof (to_now _ _ Ht) as Hnow.
  unfold invalidate, base_invalidate, blk_at. rewrite Hb. cbn [obind]. rewrite Hv. cbn [assert_ obind]. 
  destruct (blk_invalidate_ok b ltac:(lia)) as (b' & -> & Hv' & Hs' & Ht' & _). cbn [obind]. cbn [replacementPolicy set_stats set_blk set_blks]. rewrite Ep. cbn [obind].
  eexists. split; [done |]. match goal with |- frame t ?u /\ _ => set (t' := u) end.
  assert (indexingPolicy t' = indexingPolicy t) as Hix by done. assert (blks t' = <[e := b']> (blks t)) as Hbl by done.
  split; [done |]. split; [apply (ok_changed t t' e b' Hix Hbl now now); [done | lia | done | lia | done] |].
  split; [by apply (rep_removed t t' e b' Hix Hbl now) |]. exists b'. split; [by apply (at_changed t t' e b' Hbl) | done].
Qed.

Lemma accessBlock_rep now cur pkt t M : tags_ok now t -> rep t M -> in_width 64 (tp_addr pkt) ->
  exists t', accessBlock cur pkt t = Ok (M !! (block (tp_addr pkt) t, tp_secure pkt), lookupLatency t, t') /\ frame t t' /\ tags_ok now t' /\ rep t' M.
Proof.
  intros Ht HM Ha. unfold accessBlock. rewrite (findBlock_rep now t M _ _ Ht HM Ha). cbn [obind]. destruct (M !! (block (tp_addr pkt) t, tp_secure pkt)) as [e |] eqn:EM.
  - pose proof EM as Hh. apply HM in Hh as (b & a & es & Hb & Hv & _). assert (e < ix_blocks (indexingPolicy t))%nat as Hlt by (rewrite <- (to_blocks _ _ Ht); by apply lookup_lt_Some in Hb).
    destruct (rp_touch_ok cur e (replacementPolicy t) (to_known _ _ Ht e Hlt)) as (p' & Ep & Hp). unfold blk_at. cbn [blks set_stats]. rewrite Hb. cbn [obind replacementPolicy set_blk set_blks].
    cbn [replacementPolicy set_stats]. rewrite Ep. cbn [obind]. eexists. split; [done |]. match goal with |- frame t ?u /\ _ => set (t' := u) end.
    assert (indexingPolicy t' = indexingPolicy t) as Hix by done. assert (blks t' = <[e := increaseRefCount b]> (blks t)) as Hbl by done. split; [done |]. pose proof (to_now _ _ Ht). split.
    + apply (ok_changed t t' e (increaseRefCount b) Hix Hbl now now); [done | lia | done | exact (to_ticks _ _ Ht e b Hb) | exact (to_invalid _ _ Ht e b Hb)].
    + by apply (rep_kept t t' e (increaseRefCount b) Hix Hbl M b).
  - cbn [obind]. eexists. split; [done |]. split; [done |]. split; [destruct Ht; by split | exact HM].
Qed.

Lemma candidates_map es : candidates (map Some es) = Ok es.
Proof. induction es as [| e es IH]; [done |]. cbn. by rewrite IH. Qed.

Lemma findVictim_rep now draw a t M : tags_ok now t -> rep t M -> in_width 64 a -> (forall n, 0 < n -> 0 <= draw n < n) ->
  exists es v t', ix_possible a (indexingPolicy t) = Ok (map Some es) /\ findVictim (draw (Z.of_nat (length es))) a t = Ok (v, [v], t') /\ v ∈ es /\ frame t t' /\ blks t' = blks t /\
    tags_ok now t' /\ rep t' M.
Proof.
  intros Ht HM Ha Hdraw. destruct (entries_ok now t a Ht Ha) as (es & E & Hne & Hes). unfold findVictim. rewrite E. cbn [obind]. rewrite candidates_map. cbn [obind].
  destruct (rp_victim_ok (draw (Z.of_nat (length es))) es (replacementPolicy t)) as (v & p' & Ep & Hv & Hp); [done | apply Hdraw; destruct es; [done | cbn; lia] | intros c Hc; apply (to_known _ _ Ht), Hes, Hc |].
  exists es, v. rewrite Ep. cbn [obind]. eexists. split; [done |]. split; [done |]. split; [done |]. split; [done |]. split; [done |]. split; [| exact HM].
  destruct Ht as [H1 H2 H3 H4 H5 H6 H7]. split; try done. intros e He. cbn. apply Hp. by apply H3.
Qed.

Lemma moveBlock_rep now cur draw src dest k sec a es t M : tags_ok now t -> rep t M -> now <= cur < 2 ^ 64 -> M !! (k, sec) = Some src -> in_width 64 a -> k = block a t ->
  ix_possible a (indexingPolicy t) = Ok (map Some es) -> dest ∈ es -> (exists d, blks t !! dest = Some d /\ _valid d = false) ->
  exists t', moveBlock cur draw src dest t = Ok t' /\ frame t t' /\ tags_ok cur t' /\ rep t' (<[(k, sec) := dest]> M).
Proof.
  intros Ht HM Hcur Hk Ha -> Hes Hin (d & Hd & Hvd). pose proof Hk as Hh. apply HM in Hh as (b & a' & es' & Hb & Hv & Hsec & Ha' & Hblk & Htag & _).
  assert (dest <> src) as Hne by congruence. pose proof (to_ticks _ _ Ht src b Hb) as Hts. pose proof (to_ticks _ _ Ht dest d Hd) as Htd. pose proof (to_invalid _ _ Ht dest d Hd Hvd) as Hsd.
  assert (forall e x, blks t !! e = Some x -> (e < ix_blocks (indexingPolicy t))%nat) as Hlt by (intros e x Hx; rewrite <- (to_blocks _ _ Ht); by apply lookup_lt_Some in Hx).
  destruct (rp_invalidate_ok src (replacementPolicy t) (to_known _ _ Ht src (Hlt src b Hb))) as (p1 & Ep1 & Hp1).
  destruct (rp_reset_ok cur draw dest p1) as (p2 & Ep2 & Hp2); [apply Hp1, (to_known _ _ Ht dest (Hlt dest d Hd)) |].
  unfold moveBlock, base_moveBlock, blk_at. rewrite Hd, Hb. cbn [obind]. rewrite Hvd, Hv. cbn [negb assert_ obind]. 
  destruct (blk_move_ok cur b d Hv Hvd Hsd ltac:(lia) ltac:(lia)) as (d' & s' & -> & (E1 & E2 & E3 & _ & E4) & F1 & F2 & F3). cbn [obind].
  rewrite E1, F1. cbn [negb assert_ obind]. cbn [replacementPolicy set_blk set_blks]. rewrite Ep1. cbn [obind]. rewrite Ep2. cbn [obind].
  eexists. split; [done |]. match goal with |- frame t ?u /\ _ => set (t' := u) end. split; [done |].
  set (t1 := set_blk src s' t). assert (blks t' = <[dest := d']> (blks t1)) as Hbl by (cbn; by apply list_insert_insert_ne).
  assert (tags_ok now t1) as Ht1 by (apply (ok_changed t t1 src s' eq_refl eq_refl now now); [done | lia | done | lia | done]).
  assert (blks t1 !! dest = Some d) as Hd1 by (rewrite (at_other t t1 src s' eq_refl); done).
  assert (tags_ok cur t') as Ht' by (apply (ok_changed t1 t' dest d' eq_refl Hbl now); [done | done | intros j; cbn; by rewrite Hp2, Hp1 | lia | congruence]).
  split; [done |]. pose proof (rep_removed t t1 src s' eq_refl eq_refl now M _ _ Ht F1 Hk HM) as HM1.
  destruct (ix_same_block (indexingPolicy t) a a' (to_linked _ _ Ht)) as [Etag _]; [apply block_div; [by apply (to_shift now) | exact Hblk] |].
  assert (_secure d' = sec) as Hsd' by congruence.
  pose proof (rep_added t1 t' dest d' eq_refl Hbl cur (delete (block a t, sec) M) d a es Ht' Hd1 Hvd E1 Ha) as Hadd. rewrite Hsd' in Hadd. change (block a t1) with (block a t) in Hadd. rewrite insert_delete_eq in Hadd.
  apply Hadd; [cbn; congruence | done | done | apply lookup_delete_eq | done].
Qed.

(** * Histories *)

(** What a cache does with its tags: look up a block, bring a block in when it is not there,
    give a block up, and move a block to another of its entries that is free.  A generator of
    random numbers comes with the operations that may draw. *)
Inductive tag_op : Type :=
  | Access (pkt : TagPkt)
  | Fill (pkt : TagPkt) (draw : Z -> Z) (insertion : Z)
  | Evict (a : Z) (sec : bool)
  | Move (a : Z) (sec : bool) (dest : nat) (insertion : Z).

Fixpoint evict_all (es : list nat) (t : Tags I S) : outcome (Tags I S) :=
  match es with [] => Ok t | e :: es => let! b := blk_at e t in let! t := (if _valid b then invalidate e t else Ok t) in evict_all es t end.

Definition tag_step (cur : Z) (o : tag_op) (t : Tags I S) : outcome (option nat * Tags I S) :=
  match o with
  | Access pkt => let! (r, _, t) := accessBlock cur pkt t in Ok (r, t)
  | Fill pkt draw insertion =>
      let! r := findBlock (tp_addr pkt) (tp_secure pkt) t in
      match r with
      | Some e => Ok (Some e, t)
      | None =>
          let! es := ix_possible (tp_addr pkt) (indexingPolicy t) in
          let! (v, evicted, t) := findVictim (draw (Z.of_nat (length es))) (tp_addr pkt) t in
          let! t := evict_all evicted t in
          let! t := insertBlock cur insertion pkt v t in Ok (Some v, t)
      end
  | Evict a sec =>
      let! r := findBlock a sec t in
      match r with Some e => let! t := invalidate e t in Ok (Some e, t) | None => Ok (None, t) end
  | Move a sec dest insertion =>
      let! r := findBlock a sec t in
      match r with
      | None => Ok (None, t)
      | Some e =>
          let! es := ix_possible a (indexingPolicy t) in
          if bool_decide (Some dest ∈ es) then
            let! d := blk_at dest t in
            if _valid d then Ok (Some e, t) else let! t := moveBlock cur insertion e dest t in Ok (Some dest, t)
          else Ok (Some e, t)
      end
  end.

Fixpoint tag_run (os : list (Z * tag_op)) (t : Tags I S) : outcome (list (option nat) * Tags I S) :=
  match os with
  | [] => Ok ([], t)
  | (cur, o) :: os => let! (r, t) := tag_step cur o t in let! (rs, t) := tag_run os t in Ok (r :: rs, t)
  end.
End tags.

(** The specification: a map from blocks, of [2 ^ n] bytes, to entries. *)
Definition key_of (n a : Z) (sec : bool) : Z * bool := (a - a mod 2 ^ n, sec).

Inductive map_step (n : Z) (M : gmap (Z * bool) nat) : tag_op -> option nat -> gmap (Z * bool) nat -> Prop :=
  | map_access pkt : map_step n M (Access pkt) (M !! key_of n (tp_addr pkt) (tp_secure pkt)) M
  | map_hit pkt draw i e : M !! key_of n (tp_addr pkt) (tp_secure pkt) = Some e -> map_step n M (Fill pkt draw i) (Some e) M
  | map_fill pkt draw i e : M !! key_of n (tp_addr pkt) (tp_secure pkt) = None ->
      map_step n M (Fill pkt draw i) (Some e) (<[key_of n (tp_addr pkt) (tp_secure pkt) := e]> (filter (fun x => x.2 <> e) M))
  | map_evict a sec : map_step n M (Evict a sec) (M !! key_of n a sec) (delete (key_of n a sec) M)
  | map_stay a sec d i : map_step n M (Move a sec d i) (M !! key_of n a sec) M
  | map_move a sec d i : is_Some (M !! key_of n a sec) -> (forall k, M !! k <> Some d) -> map_step n M (Move a sec d i) (Some d) (<[key_of n a sec := d]> M).

Inductive map_run (n : Z) : gmap (Z * bool) nat -> list (Z * tag_op) -> list (option nat) -> gmap (Z * bool) nat -> Prop :=
  | map_done M : map_run n M [] [] M
  | map_next M cur o os r rs M1 M2 : map_step n M o r M1 -> map_run n M1 os rs M2 -> map_run n M ((cur, o) :: os) (r :: rs) M2.

(** Operations that a cache may ask for, at times that do not go back. *)
Definition op_ok (maxReq : Z) (o : tag_op) : Prop :=
  match o with
  | Access pkt => in_width 64 (tp_addr pkt)
  | Fill pkt draw _ => in_width 64 (tp_addr pkt) /\ tp_requestorId pkt < maxReq /\ forall n, 0 < n -> 0 <= draw n < n
  | Evict a _ | Move a _ _ _ => in_width 64 a
  end.
Fixpoint ops_ok (maxReq now : Z) (os : list (Z * tag_op)) : Prop :=
  match os with [] => True | (cur, o) :: os => now <= cur < 2 ^ 64 /\ op_ok maxReq o /\ ops_ok maxReq cur os end.

Section histories.
Context {I S : Type} `{IP : IndexingPolicy I} `{RP : ReplacementPolicy S}.
Implicit Types t : Tags I S.

Lemma tags_ok_later now now' t : tags_ok now t -> now <= now' < 2 ^ 64 -> tags_ok now' t.
Proof. intros [H1 H2 H3 H4 H5 H6 H7] Hn. split; try done; [lia |]. intros e b Hb. pose proof (H6 e b Hb). lia. Qed.

(** Removing the only key of an entry removes the entry. *)
Lemma forget_entry t now M k e : tags_ok now t -> rep t M -> M !! k = Some e -> delete k M = filter (fun x => x.2 <> e) M.
Proof.
  intros Ht [HM _] Hk. apply map_eq. intros [k' sec']. destruct k as [k sec]. apply option_eq. intros x. rewrite map_lookup_filter_Some. cbn [snd].
  destruct (decide ((k, sec) = (k', sec'))) as [E | Hne].
  - injection E as <- <-. rewrite lookup_delete_eq, Hk. split; [done | intros [[= ->] Hx]; done].
  - rewrite lookup_delete_ne by done. split; [| by intros [Hx _]]. intros Hx. split; [done |]. intros ->. apply HM in Hk, Hx.
    destruct (holds_unique _ _ _ _ _ _ _ Ht Hk Hx). congruence.
Qed.

Lemma forget_free t M e b : rep t M -> blks t !! e = Some b -> _valid b = false -> filter (fun x => x.2 <> e) M = M.
Proof.
  intros [HM _] Hb Hv. apply map_filter_id. intros [k sec] x Hx. cbn. intros ->. apply HM in Hx. by apply (holds_invalid t e b) in Hx.
Qed.

(** Clearing the entry of a victim. *)
Lemma evict_rep now v t M : tags_ok now t -> rep t M -> (exists b, blks t !! v = Some b) ->
  exists t' b, evict_all [v] t = Ok t' /\ frame t t' /\ tags_ok now t' /\ rep t' (filter (fun x => x.2 <> v) M) /\ blks t' !! v = Some b /\ _valid b = false.
Proof.
  intros Ht HM [b Hb]. cbn [evict_all]. unfold blk_at. rewrite Hb. cbn [obind]. destruct (_valid b) eqn:Ev.
  - destruct (proj2 HM v b Hb Ev) as (k & sec & Hk). destruct (invalidate_rep now v k sec t M Ht HM Hk) as (t' & -> & Hf & Ht' & HM' & b' & Hb' & Hv'). cbn [obind].
    exists t', b'. split; [done |]. rewrite (forget_entry t now M _ _ Ht HM Hk) in HM'. done.
  - exists t, b. split; [done |]. split; [done |]. split; [done |]. by rewrite (forget_free t M v b HM Hb Ev).
Qed.

Lemma fill_step now cur pkt draw i t M : tags_ok now t -> rep t M -> now <= cur < 2 ^ 64 -> op_ok (maxRequestors t) (Fill pkt draw i) ->
  exists r t' M', tag_step cur (Fill pkt draw i) t = Ok (r, t') /\ map_step (ix_shift (indexingPolicy t)) M (Fill pkt draw i) r M' /\ frame t t' /\ tags_ok cur t' /\ rep t' M'.
Proof.
  intros Ht HM Hcur (Ha & Hreq & Hdraw). cbn [tag_step]. rewrite (findBlock_rep now t M _ _ Ht HM Ha). cbn [obind]. destruct (M !! (block (tp_addr pkt) t, tp_secure pkt)) as [e |] eqn:EM.
  - exists (Some e), t, M. split; [done |]. split; [by apply map_hit |]. split; [done |]. split; [by apply (tags_ok_later now) | done].
  - destruct (findVictim_rep now draw (tp_addr pkt) t M Ht HM Ha Hdraw) as (es & v & t1 & Ees & Ev & Hv & [Hf1 Hf1'] & Hb1 & Ht1 & HM1). rewrite Ees. cbn [obind]. rewrite length_map, Ev. cbn [obind].
    destruct (entries_ok now t (tp_addr pkt) Ht Ha) as (es' & Ees' & _ & Hes'). rewrite Ees in Ees'. injection Ees' as Ees'. apply (inj (map Some)) in Ees'. subst es'.
    destruct (evict_rep now v t1 M Ht1 HM1) as (t2 & b & -> & [Hf2 Hf2'] & Ht2 & HM2 & Hb & Hvb); [rewrite Hb1; by apply Hes' |]. cbn [obind].
    assert (block (tp_addr pkt) t2 = block (tp_addr pkt) t) as Hblk by (unfold block; by rewrite Hf2, Hf1).
    destruct (insertBlock_rep now cur i pkt v b es t2 _ Ht2 HM2 Hcur Ha) as (t3 & -> & [Hf3 Hf3'] & Ht3 & HM3); try done; [congruence | congruence | |].
    { rewrite Hblk. apply map_lookup_filter_None. by left. }
    cbn [obind]. rewrite Hblk in HM3. do 3 eexists. split; [done |]. split; [by apply map_fill |]. split; [split; congruence | done].
Qed.

Lemma move_step now cur a sec d i t M : tags_ok now t -> rep t M -> now <= cur < 2 ^ 64 -> in_width 64 a ->
  exists r t' M', tag_step cur (Move a sec d i) t = Ok (r, t') /\ map_step (ix_shift (indexingPolicy t)) M (Move a sec d i) r M' /\ frame t t' /\ tags_ok cur t' /\ rep t' M'.
Proof.
  intros Ht HM Hcur Ha. cbn [tag_step]. rewrite (findBlock_rep now t M _ _ Ht HM Ha). cbn [obind]. pose proof (map_stay (ix_shift (indexingPolicy t)) M a sec d i) as Hstay.
  change (key_of (ix_shift (indexingPolicy t)) a sec) with (block a t, sec) in Hstay. destruct (M !! (block a t, sec)) as [e |] eqn:EM.
  2: { do 3 eexists. split; [done |]. split; [exact Hstay |]. split; [done |]. split; [by apply (tags_ok_later now) | done]. }
  destruct (entries_ok now t a Ht Ha) as (es & Ees & _ & Hes). rewrite Ees. cbn [obind]. case_bool_decide as Hd.
  2: { do 3 eexists. split; [done |]. split; [exact Hstay |]. split; [done |]. split; [by apply (tags_ok_later now) | done]. }
  assert (d ∈ es) as Hin by (apply list_elem_of_fmap in Hd as (x & [= ->] & Hx); done). destruct (Hes d Hin) as (_ & b & Hb). unfold blk_at. rewrite Hb. cbn [obind]. destruct (_valid b) eqn:Ev.
  { do 3 eexists. split; [done |]. split; [exact Hstay |]. split; [done |]. split; [by apply (tags_ok_later now) | done]. }
  destruct (moveBlock_rep now cur i e d (block a t) sec a es t M Ht HM Hcur EM Ha eq_refl Ees Hin) as (t' & -> & Hf & Ht' & HM'); [by exists b |]. cbn [obind].
  do 3 eexists. split; [done |]. split; [apply map_move |]; [by exists e | | done]. intros [k sec'] Hk. apply HM in Hk. by apply (holds_invalid t d b) in Hk.
Qed.

Lemma tag_step_rep now cur o t M : tags_ok now t -> rep t M -> now <= cur < 2 ^ 64 -> op_ok (maxRequestors t) o ->
  exists r t' M', tag_step cur o t = Ok (r, t') /\ map_step (ix_shift (indexingPolicy t)) M o r M' /\ frame t t' /\ tags_ok cur t' /\ rep t' M'.
Proof.
  intros Ht HM Hcur Ho. destruct o as [pkt | pkt draw i | a sec | a sec d i]; [| by apply (fill_step now) | | by apply (move_step now)].
  - destruct (accessBlock_rep now cur pkt t M Ht HM Ho) as (t' & E & Hf & Ht' & HM'). cbn [tag_step]. rewrite E. cbn [obind].
    do 3 eexists. split; [done |]. split; [apply map_access |]. split; [done |]. split; [by apply (tags_ok_later now) | done].
  - cbn [tag_step]. rewrite (findBlock_rep now t M _ _ Ht HM Ho). cbn [obind]. pose proof (map_evict (ix_shift (indexingPolicy t)) M a sec) as Hs.
    change (key_of (ix_shift (indexingPolicy t)) a sec) with (block a t, sec) in Hs. destruct (M !! (block a t, sec)) as [e |] eqn:EM.
    + destruct (invalidate_rep now e _ _ t M Ht HM EM) as (t' & -> & Hf & Ht' & HM' & _). cbn [obind]. do 3 eexists. split; [done |]. split; [exact Hs |]. split; [done |]. split; [by apply (tags_ok_later now) | done].
    + do 3 eexists. split; [done |]. split; [exact Hs |]. split; [done |]. split; [by apply (tags_ok_later now) | by rewrite delete_id].
Qed.

Lemma tag_run_rep os : forall now t M, tags_ok now t -> rep t M -> ops_ok (maxRequestors t) now os ->
  exists rs t' M' now', tag_run os t = Ok (rs, t') /\ map_run (ix_shift (indexingPolicy t)) M os rs M' /\ frame t t' /\ tags_ok now' t' /\ rep t' M'.
Proof.
  induction os as [| [cur o] os IH]; intros now t M Ht HM Hos; [exists [], t, M, now; split; [done |]; split; [constructor | done] |]. destruct Hos as (Hcur & Ho & Hos).
  destruct (tag_step_rep now cur o t M Ht HM Hcur Ho) as (r & t1 & M1 & E1 & Hs1 & [Hf1 Hf1'] & Ht1 & HM1).
  destruct (IH cur t1 M1 Ht1 HM1) as (rs & t2 & M2 & now2 & E2 & Hs2 & [Hf2 Hf2'] & Ht2 & HM2); [by rewrite Hf1' |].
  exists (r :: rs), t2, M2, now2. cbn [tag_run]. rewrite E1. cbn [obind]. rewrite E2. cbn [obind]. split; [done |].
  split; [apply (map_next _ _ _ _ _ _ _ M1); [done | by rewrite <- Hf1] |]. split; [split; congruence | done].
Qed.

(** * A new store *)

Lemma new_blks_ok gs : exists bs, new_blks gs = Ok bs /\ length bs = length gs /\ forall e b, bs !! e = Some b -> _valid b = false /\ _secure b = false /\ _tickInserted b = 0.
Proof.
  induction gs as [| g gs IH]; [exists []; split; [done |]; split; [done |]; intros e b Hb; by rewrite lookup_nil in Hb |].
  destruct IH as (bs & E & Hlen & Hbs). cbn [new_blks]. unfold new_CacheBlk. match goal with |- context [blk_invalidate ?x] => destruct (blk_invalidate_ok x) as (b & -> & H1 & H2 & H3 & _) end; [cbn; lia |].
  cbn [obind]. rewrite E. cbn [obind]. exists (b :: bs). split; [done |]. split; [cbn; lia |]. intros [| e] x; [intros [= <-]; done | apply Hbs].
Qed.

Lemma init_loop_ok n : forall e t, ix_linked e (indexingPolicy t) -> (e + n = ix_blocks (indexingPolicy t))%nat -> (forall j, (j < e)%nat -> rp_known (replacementPolicy t) j) ->
  exists t', init_loop n e t = Ok t' /\ ix_linked (e + n) (indexingPolicy t') /\ ix_blocks (indexingPolicy t') = ix_blocks (indexingPolicy t) /\ ix_shift (indexingPolicy t') = ix_shift (indexingPolicy t) /\
    (forall j, (j < e + n)%nat -> rp_known (replacementPolicy t') j) /\ blks t' = blks t /\ maxRequestors t' = maxRequestors t.
Proof.
  induction n as [| n IH]; intros e t Hl Hn Hk; [exists t; rewrite Nat.add_0_r; done |]. cbn [init_loop].
  destruct (ix_link_ok e (indexingPolicy t) Hl ltac:(lia)) as (i & Ei & Hi & Hbi & Hsi). rewrite Ei. cbn [obind].
  destruct (rp_instantiate_ok e (replacementPolicy t)) as (p & Ep & Hp). rewrite Ep. cbn [obind].
  destruct (IH (Datatypes.S e) (set_policy p (set_indexing i t)) Hi) as (t' & -> & H1 & H2 & H3 & H4 & H5 & H6); [cbn; lia | |].
  { cbn. intros j Hj. apply Hp. destruct (decide (j = e)); [by left | right; apply Hk; lia]. }
  exists t'. replace (e + Datatypes.S n)%nat with (Datatypes.S e + n)%nat by lia. cbn in H2, H3, H5, H6. rewrite H2, H3. done.
Qed.

Lemma new_store size block_size lat maxReq warm ways seq_access garbage i s t0 :
  new_Tags size block_size lat maxReq warm ways seq_access garbage i s = Ok t0 -> ix_linked 0 i -> Z.to_nat (size / block_size) = ix_blocks i -> (ix_blocks i <= length garbage)%nat ->
  exists t, tagsInit t0 = Ok t /\ tags_ok 0 t /\ rep t ∅ /\ maxRequestors t = maxReq /\ ix_shift (indexingPolicy t) = ix_shift i.
Proof.
  intros Hnew Hl Hn Hg. unfold new_Tags in Hnew. destruct (block_size =? 0); [done |]. destruct (new_blks_ok (take (Z.to_nat (size / block_size)) garbage)) as (bs & E & Hlen & Hbs).
  rewrite E in Hnew. cbn [obind] in Hnew. destruct (_ || _); [done |]. cbn [fatal_if obind] in Hnew. injection Hnew as <-. rewrite length_take in Hlen.
  unfold tagsInit. cbn [numBlocks]. match goal with |- context [init_loop _ _ ?x] => destruct (init_loop_ok (Z.to_nat (size / block_size)) 0 x Hl) as (t & -> & H1 & H2 & H3 & H4 & H5 & H6) end; [cbn; lia | intros j; lia |].
  cbn in H2, H3, H5, H6. exists t. split; [done |]. rewrite Hn in H1, H4. cbn in H1, H4.
  assert (forall e b, blks t !! e = Some b -> _valid b = false /\ _secure b = false /\ _tickInserted b = 0) as Hinv by (rewrite H5; exact Hbs).
  split; [| split; [| done]].
  - split; rewrite ?H2, ?H5; try done; [lia | rewrite H3; by apply (ix_shift_ok 0) | |]; intros e b Hb; apply Hbs in Hb; [lia | tauto].
  - split; [| intros e b Hb Hv; apply Hinv in Hb as [Hb _]; congruence]. intros k sec e. rewrite lookup_empty. split; [done |].
    intros (b & a & es & Hb & Hv & _). apply Hinv in Hb as [Hb _]. congruence.
Qed.

(** C35: the tags of a cache implement a map from blocks to entries, for every indexing
    and every replacement policy that keeps the promises of [IndexingPolicy] and of
    [ReplacementPolicy]; the policies with an instance of these classes are meant, not SHiP, which panics when a block is moved, nor a tree of one leaf.  From a new
    store with as many entries as the indexing policy has, every history of lookups,
    fills, evictions and moves, with 64-bit addresses, known requestors and random draws
    in their range, at times that do not go back, runs without a failed assertion, and
    its answers are those of the map: a block is found in the entry where it was put and
    until it is evicted, a fill of a block that is not there puts it into one entry and
    drops what that entry held, nothing else changes, and no block is in two entries.  The
    address of a block that is held is regenerated from its entry. *)
Theorem tags_are_a_map size block_size lat maxReq warm ways seq_access garbage i s t0 os :
  new_Tags size block_size lat maxReq warm ways seq_access garbage i s = Ok t0 ->
  ix_linked 0 i -> Z.to_nat (size / block_size) = ix_blocks i -> (ix_blocks i <= length garbage)%nat -> ops_ok maxReq 0 os ->
  exists t rs t' M, tagsInit t0 = Ok t /\ tag_run os t = Ok (rs, t') /\ map_run (ix_shift i) ∅ os rs M /\
    (forall a sec, in_width 64 a -> findBlock a sec t' = Ok (M !! key_of (ix_shift i) a sec)) /\
    (forall k sec e, M !! (k, sec) = Some e -> regenerateBlkAddr e t' = Ok k) /\
    (forall k k' e, M !! k = Some e -> M !! k' = Some e -> k = k').
Proof.
  intros Hnew Hl Hn Hg Hos. destruct (new_store _ _ _ _ _ _ _ _ _ _ _ Hnew Hl Hn Hg) as (t & E & Ht & HM & Hreq & Hsh). rewrite <- Hreq in Hos.
  destruct (tag_run_rep os 0 t ∅ Ht HM Hos) as (rs & t' & M & now & Er & Hr & [Hf _] & Ht' & HM'). rewrite Hsh in Hr. exists t, rs, t', M. split; [done |]. split; [done |]. split; [done |].
  assert (ix_shift (indexingPolicy t') = ix_shift i) as Hs by (by rewrite Hf). split; [| split].
  - intros a sec Ha. rewrite (findBlock_rep now t' M a sec Ht' HM' Ha). unfold block. by rewrite Hs.
  - intros k sec e Hk. apply (holds_regenerate now t' e k sec Ht'). by apply HM'.
  - intros [k sec] [k' sec'] e Hk Hk'. apply HM' in Hk, Hk'. destruct (holds_unique _ _ _ _ _ _ _ Ht' Hk Hk'). congruence.
Qed.
End histories.

(** * Examples *)

(** A cache of 512 bytes in two sets of four ways, with least recently used replacement. *)
Definition ex_index : BaseIndexingPolicy := match new_BaseIndexingPolicy 512 64 4 with Ok p => p | Err _ => mkBaseIndexingPolicy 0 0 0 0 0 [] ∅ end.
Definition ex_garbage : list Z := replicate 8 0.
Definition ex_tags : outcome (Tags BaseIndexingPolicy (gmap nat Z)) := new_Tags 512 64 2 1 4 4 false ex_garbage ex_index ∅.
Definition ex_pkt (a : Z) : TagPkt := mkTagPkt a false 0 0.
Definition ex_fill (a : Z) : tag_op := Fill (ex_pkt a) (fun _ => 0) 0.

#[local] Existing Instance LRU.
#[local] Existing Instance SetAssociative.

(** Five blocks of one set: the last one takes the entry of the second, which is the least
    recently used after the access to the first. *)
Definition ex_history : list (Z * tag_op) :=
  [(1, ex_fill 0); (2, ex_fill 0x80); (3, ex_fill 0x100); (4, ex_fill 0x180); (5, Access (ex_pkt 0x3f)); (6, ex_fill 0x200); (7, Access (ex_pkt 0x80))].

Example ex_answers : (let! t := ex_tags in let! t := tagsInit t in let! (rs, _) := tag_run ex_history t in Ok rs) = Ok [Some 0; Some 1; Some 2; Some 3; Some 0; Some 1; None]%nat.
Proof. vm_compute. reflexivity. Qed.

Lemma tags_are_a_map_witness : exists t0, ex_tags = Ok t0 /\ exists t rs t' M, tagsInit t0 = Ok t /\ tag_run ex_history t = Ok (rs, t') /\ map_run 6 ∅ ex_history rs M /\
  findBlock 0x234 false t' = Ok (M !! (0x200, false)).
Proof.
  destruct ex_tags as [t0 |] eqn:E; [| discriminate E]. exists t0. split; [reflexivity |]. destruct (tags_are_a_map 512 64 2 1 4 4 false ex_garbage ex_index ∅ t0 ex_history E) as (t & rs & t' & M & H1 & H2 & H3 & H4 & _).
  - apply (new_linked 512 64 4); [lia | lia | vm_compute; reflexivity | vm_compute; discriminate].
  - vm_compute. reflexivity.
  - vm_compute. lia.
  - cbn. unfold in_width. repeat split; lia.
  - exists t, rs, t', M. split; [exact H1 |]. split; [exact H2 |]. split; [exact H3 |]. apply (H4 0x234 false). unfold in_width. lia.
Defined.

(** The limit on the ways changes only what is counted: the victim may be in any way. *)
Example limit_ignored :
  (let! t := ex_tags in let! t := tagsInit t in let! t := setWayAllocationMax 1 t in
   let! (rs, _) := tag_run [(1, ex_fill 0); (2, ex_fill 0x80)] t in Ok rs) = Ok [Some 0; Some 1]%nat.
Proof. vm_compute. reflexivity. Qed.
