(* ===== verification/FaLru.v ===== *)
(** Fully associative tags: classes [FALRU] and [FALRU::CacheTracking],
    [src/gem5/src/mem/cache/tags/fa_lru.cc] and [fa_lru.hh].

    All blocks are linked in one list, the most recently used first; a hash table finds a
    block by its address.  The list also tracks smaller caches: a bit mask in every block says
    which of them would hold it, and a boundary points to the last block of each.  Pointers
    are numbers of blocks, or [None]. *)
From Stdlib Require Import ZArith Lia.
From stdpp Require Import base numbers list gmap.
From S2P Require Import Prelude BitField IntMath CacheBlk Tags.

Open Scope Z_scope.

(** * Blocks and their links *)

Record FALRUBlk : Type := mkFALRUBlk {
  fa_blk : CacheBlk;
  prev : option nat;
  next : option nat;
  inCachesMask : Z;
}.

Definition set_fa_blk (v : CacheBlk) (b : FALRUBlk) : FALRUBlk := mkFALRUBlk v (prev b) (next b) (inCachesMask b).
Definition set_prev (v : option nat) (b : FALRUBlk) : FALRUBlk := mkFALRUBlk (fa_blk b) v (next b) (inCachesMask b).
Definition set_next (v : option nat) (b : FALRUBlk) : FALRUBlk := mkFALRUBlk (fa_blk b) (prev b) v (inCachesMask b).
Definition set_mask (v : Z) (b : FALRUBlk) : FALRUBlk := mkFALRUBlk (fa_blk b) (prev b) (next b) v.

(** Reading and changing the block behind a pointer. *)
Definition node (p : option nat) (bs : list FALRUBlk) : outcome FALRUBlk :=
  match p with Some e => match bs !! e with Some b => Ok b | None => Err Undefined end | None => Err Undefined end.
Definition upd (p : option nat) (f : FALRUBlk -> FALRUBlk) (bs : list FALRUBlk) : outcome (list FALRUBlk) :=
  match p with Some e => match bs !! e with Some _ => Ok (alter f e bs) | None => Err Undefined end | None => Err Undefined end.

(** * Tracking of smaller caches *)

Record CacheTracking : Type := mkCacheTracking {
  minTrackedSize : Z;
  numTrackedCaches : nat;
  inAllCachesMask : Z;
  boundaries : list (option nat);
  hits : list Z;
  misses : list Z;
  accesses : Z;
}.

Definition set_boundaries (v : list (option nat)) (c : CacheTracking) : CacheTracking :=
  mkCacheTracking (minTrackedSize c) (numTrackedCaches c) (inAllCachesMask c) v (hits c) (misses c) (accesses c).

(** [CacheTracking(unsigned min_size, unsigned max_size, ...)]. *)
Definition new_CacheTracking (min_size max_size : Z) : outcome CacheTracking :=
  let! n := (if min_size <? max_size then let! a := floorLog2 max_size in let! b := floorLog2 min_size in Ok (a - b) else Ok 0) in
  do! fatal_if (32 <? n) then
  Ok (mkCacheTracking min_size (Z.to_nat n) (u32 (BitField.mask n)) (replicate (Z.to_nat n) None)
        (replicate (S (Z.to_nat n)) 0) (replicate (S (Z.to_nat n)) 0) 0).

Definition boundary (i : nat) (bds : list (option nat)) : outcome (option nat) := match bds !! i with Some p => Ok p | None => Err Undefined end.
Definition cache_bit (i : nat) : Z := u32 (Z.shiftl 1 (Z.of_nat i)).

(** [void init(FALRUBlk *head, FALRUBlk *tail)]: the loop along the list. *)
Fixpoint init_tracking (fuel : nat) (blk_size : Z) (tail p : option nat) (curr_size tracked in_caches : Z) (j : nat) (bs : list FALRUBlk) (bds : list (option nat))
  : outcome (list FALRUBlk * list (option nat)) :=
  match p with
  | None => Ok (bs, bds)
  | Some _ =>
      match fuel with
      | O => Err Undefined
      | S fuel =>
          let! bs := upd p (set_mask in_caches) bs in
          let curr_size := u32 (curr_size + blk_size) in
          let! b := node p bs in
          if (curr_size =? tracked) && bool_decide (p <> tail) then
            if bool_decide (length bds <= j)%nat then Err Undefined else
            init_tracking fuel blk_size tail (next b) curr_size (u32 (Z.shiftl tracked 1)) (Z.land in_caches (wnot 32 (cache_bit j))) (S j) bs (<[j := p]> bds)
          else init_tracking fuel blk_size tail (next b) curr_size tracked in_caches j bs bds
      end
  end.

(** [void check(const FALRUBlk *head, const FALRUBlk *tail) const], which a debugging build
    calls after every move. *)
Fixpoint check_tracking (fuel : nat) (blk_size : Z) (tail p : option nat) (curr_size tracked in_caches : Z) (j : nat) (bs : list FALRUBlk) (bds : list (option nat)) : outcome unit :=
  match p with
  | None => Ok tt
  | Some _ =>
      match fuel with
      | O => Err Undefined
      | S fuel =>
          let! b := node p bs in
          do! panic_if (negb (inCachesMask b =? in_caches)) then
          let curr_size := u32 (curr_size + blk_size) in
          if (curr_size =? tracked) && bool_decide (p <> tail) then
            let! q := boundary j bds in
            do! panic_if (negb (bool_decide (q = p))) then
            check_tracking fuel blk_size tail (next b) curr_size (u32 (Z.shiftl tracked 1)) (Z.land in_caches (wnot 32 (cache_bit j))) (S j) bs bds
          else check_tracking fuel blk_size tail (next b) curr_size tracked in_caches j bs bds
      end
  end.

(** [void moveBlockToHead(FALRUBlk *blk)] and [void moveBlockToTail(FALRUBlk *blk)], with their
    loops over the tracked caches [ks]. *)
Fixpoint head_loop (ks : list nat) (update : Z) (e : nat) (bs : list FALRUBlk) (bds : list (option nat)) : outcome (list FALRUBlk * list (option nat)) :=
  match ks with
  | [] => Ok (bs, bds)
  | i :: ks =>
      let! p := boundary i bds in
      if truthy (Z.land (cache_bit i) update) then
        let! bs := upd p (fun b => set_mask (Z.land (inCachesMask b) (wnot 32 (cache_bit i))) b) bs in
        let! b := node p bs in
        head_loop ks update e bs (<[i := prev b]> bds)
      else if bool_decide (p = Some e) then let! b := node (Some e) bs in head_loop ks update e bs (<[i := prev b]> bds)
      else head_loop ks update e bs bds
  end.
Definition moveBlockToHead (e : nat) (bs : list FALRUBlk) (c : CacheTracking) : outcome (list FALRUBlk * CacheTracking) :=
  let! b := node (Some e) bs in
  let! (bs, bds) := head_loop (seq 0 (numTrackedCaches c)) (Z.lxor (inAllCachesMask c) (inCachesMask b)) e bs (boundaries c) in
  let! bs := upd (Some e) (set_mask (inAllCachesMask c)) bs in Ok (bs, set_boundaries bds c).

Fixpoint tail_loop (ks : list nat) (update : Z) (e : nat) (bs : list FALRUBlk) (bds : list (option nat)) : outcome (list FALRUBlk * list (option nat)) :=
  match ks with
  | [] => Ok (bs, bds)
  | i :: ks =>
      if truthy (Z.land (cache_bit i) update) then
        let! p := boundary i bds in
        let! b := node p bs in
        let! p := (if bool_decide (next b = Some e) then let! b := node (Some e) bs in Ok (next b) else Ok (next b)) in
        let! bs := upd p (fun b => set_mask (Z.lor (inCachesMask b) (cache_bit i)) b) bs in
        tail_loop ks update e bs (<[i := p]> bds)
      else tail_loop ks update e bs bds
  end.
Definition moveBlockToTail (e : nat) (bs : list FALRUBlk) (c : CacheTracking) : outcome (list FALRUBlk * CacheTracking) :=
  let! b := node (Some e) bs in
  let! (bs, bds) := tail_loop (seq 0 (numTrackedCaches c)) (inCachesMask b) e bs (boundaries c) in
  let! bs := upd (Some e) (set_mask 0) bs in Ok (bs, set_boundaries bds c).

(** [void recordAccess(FALRUBlk *blk)]. *)
Definition bump (i : nat) (l : list Z) : list Z := alter (fun n => n + 1) i l.
Fixpoint record_loop (ks : list nat) (b : option FALRUBlk) (h m : list Z) : list Z * list Z :=
  match ks with
  | [] => (h, m)
  | i :: ks =>
      if match b with Some b => truthy (Z.land (cache_bit i) (inCachesMask b)) | None => false end
      then record_loop ks b (bump i h) m else record_loop ks b h (bump i m)
  end.
Definition recordAccess (b : option FALRUBlk) (c : CacheTracking) : CacheTracking :=
  let n := numTrackedCaches c in
  let (h, m) := record_loop (seq 0 n) b (hits c) (misses c) in
  let (h, m) := if match b with Some b => _valid (fa_blk b) | None => false end then (bump n h, m) else (h, bump n m) in
  mkCacheTracking (minTrackedSize c) n (inAllCachesMask c) (boundaries c) h m (accesses c + 1).

(** * The store *)

Record FALRU : Type := mkFALRU {
  fl_blkSize : Z;
  fl_lookupLatency : Z;
  fl_maxRequestors : Z;
  fl_warmupBound : Z;
  fl_warmedUp : bool;
  fl_stats : TagStats;
  fl_blks : list FALRUBlk;
  head : option nat;
  tail : option nat;
  tagHash : gmap (Z * bool) nat;
  cacheTracking : CacheTracking;
}.

Definition set_list (bs : list FALRUBlk) (h t : option nat) (c : CacheTracking) (f : FALRU) : FALRU :=
  mkFALRU (fl_blkSize f) (fl_lookupLatency f) (fl_maxRequestors f) (fl_warmupBound f) (fl_warmedUp f) (fl_stats f) bs h t (tagHash f) c.
Definition set_fl_blks (v : list FALRUBlk) (f : FALRU) : FALRU := set_list v (head f) (tail f) (cacheTracking f) f.
Definition set_tracking (v : CacheTracking) (f : FALRU) : FALRU := set_list (fl_blks f) (head f) (tail f) v f.
Definition set_fl_stats (warm : bool) (v : TagStats) (f : FALRU) : FALRU :=
  mkFALRU (fl_blkSize f) (fl_lookupLatency f) (fl_maxRequestors f) (fl_warmupBound f) warm v (fl_blks f) (head f) (tail f) (tagHash f) (cacheTracking f).
Definition set_tagHash (v : gmap (Z * bool) nat) (f : FALRU) : FALRU :=
  mkFALRU (fl_blkSize f) (fl_lookupLatency f) (fl_maxRequestors f) (fl_warmupBound f) (fl_warmedUp f) (fl_stats f) (fl_blks f) (head f) (tail f) v (cacheTracking f).

(** [FALRU(const Params &p)]; what the memory of the blocks held before is an argument. *)
Definition new_FALRU (size blk_size min_tracked lat maxReq bound : Z) (garbage : list Z) : outcome FALRU :=
  if blk_size =? 0 then Err Undefined else
  let! c := new_CacheTracking min_tracked size in
  do! fatal_if (negb (isPowerOf2 blk_size)) then
  do! fatal_if (negb (isPowerOf2 size)) then
  let! bs := new_blks (take (Z.to_nat (size / blk_size)) garbage) in
  Ok (mkFALRU blk_size lat maxReq bound false (mkTagStats 0 0 0 0 ∅ 0 0) (map (fun b => mkFALRUBlk b None None 0) bs) None None ∅ c).

(** [void tagsInit()]: the links of block [i] of [n], and the tracked caches. *)
Definition link_of (n i : nat) (b : FALRUBlk) : FALRUBlk :=
  set_prev (match i with O => None | S i => Some i end) (set_next (if bool_decide (S i = n) then None else Some (S i)) b).
Definition fa_tagsInit (f : FALRU) : outcome FALRU :=
  let n := length (fl_blks f) in
  if bool_decide (n < 2)%nat then Err Undefined else
  let bs := imap (link_of n) (fl_blks f) in
  let c := cacheTracking f in
  let hd := Some 0%nat in let tl := Some (pred n) in
  let! (bs, bds) := init_tracking (S n) (fl_blkSize f) tl (match numTrackedCaches c with O => None | _ => hd end) 0 (minTrackedSize c) (inAllCachesMask c) 0 bs (boundaries c) in
  Ok (set_list bs hd tl (set_boundaries bds c) f).

(** [void moveToHead(FALRUBlk *blk)] and [void moveToTail(FALRUBlk *blk)]. *)
Definition unlink (e : nat) (bs : list FALRUBlk) : outcome (list FALRUBlk) :=
  let! b := node (Some e) bs in
  let! bs := upd (prev b) (set_next (next b)) bs in
  let! b := node (Some e) bs in
  upd (next b) (set_prev (prev b)) bs.
Definition relink_head (e : nat) (hd tl : option nat) (bs : list FALRUBlk) : outcome (list FALRUBlk * option nat) :=
  let! (bs, tl) :=
    (if bool_decide (tl = Some e) then
       let! b := node (Some e) bs in
       do! assert_ (bool_decide (next b = None)) then
       let! bs := upd (prev b) (set_next None) bs in Ok (bs, prev b)
     else let! bs := unlink e bs in Ok (bs, tl)) in
  let! bs := upd (Some e) (set_next hd) bs in
  let! bs := upd (Some e) (set_prev None) bs in
  let! bs := upd hd (set_prev (Some e)) bs in Ok (bs, tl).
Definition moveToHead (e : nat) (f : FALRU) : outcome FALRU :=
  if bool_decide (head f = Some e) then Ok f else
  let! (bs, c) := moveBlockToHead e (fl_blks f) (cacheTracking f) in
  let! (bs, tl) := relink_head e (head f) (tail f) bs in
  Ok (set_list bs (Some e) tl c f).

Definition relink_tail (e : nat) (hd tl : option nat) (bs : list FALRUBlk) : outcome (list FALRUBlk * option nat) :=
  let! (bs, hd) :=
    (if bool_decide (hd = Some e) then
       let! b := node (Some e) bs in
       do! assert_ (bool_decide (prev b = None)) then
       let! bs := upd (next b) (set_prev None) bs in Ok (bs, next b)
     else let! bs := unlink e bs in Ok (bs, hd)) in
  let! bs := upd (Some e) (set_prev tl) bs in
  let! bs := upd (Some e) (set_next None) bs in
  let! bs := upd tl (set_next (Some e)) bs in Ok (bs, hd).
Definition moveToTail (e : nat) (f : FALRU) : outcome FALRU :=
  if bool_decide (tail f = Some e) then Ok f else
  let! (bs, c) := moveBlockToTail e (fl_blks f) (cacheTracking f) in
  let! (bs, hd) := relink_tail e (head f) (tail f) bs in
  Ok (set_list bs hd (Some e) c f).

(** [cacheTracking.check(head, tail)] of a store. *)
Definition fa_check (f : FALRU) : outcome unit :=
  let c := cacheTracking f in
  check_tracking (S (length (fl_blks f))) (fl_blkSize f) (tail f) (head f) 0 (minTrackedSize c) (inAllCachesMask c) 0 (fl_blks f) (boundaries c).

(** [Addr extractTag(Addr addr) const], which is [blkAlign]. *)
Definition fa_extractTag (a : Z) (f : FALRU) : Z := Z.land a (wnot 64 (fl_blkSize f - 1)).

(** [CacheBlk* findBlock(Addr addr, bool is_secure) const]. *)
Definition fa_findBlock (a : Z) (is_secure : bool) (f : FALRU) : outcome (option nat) :=
  let tag := fa_extractTag a f in
  match tagHash f !! (tag, is_secure) with
  | None => Ok None
  | Some e =>
      let! b := node (Some e) (fl_blks f) in
      do! (if _valid (fa_blk b) then do! assert_ (_tag (fa_blk b) =? tag) then assert_ (eqb (_secure (fa_blk b)) is_secure) else Ok tt) then
      Ok (Some e)
  end.

(** [ReplaceableEntry* findBlockBySetAndWay(int set, int way) const]. *)
Definition fa_findBlockBySetAndWay (set way : Z) (f : FALRU) : outcome nat :=
  do! assert_ (set =? 0) then
  if (0 <=? way) && (way <? Z.of_nat (length (fl_blks f))) then Ok (Z.to_nat way) else Err Undefined.

(** [CacheBlk* accessBlock(const PacketPtr pkt, Cycles &lat, CachesMask *in_caches_mask)]:
    the block, the latency and the mask. *)
Definition fa_accessBlock (pkt : TagPkt) (f : FALRU) : outcome (option nat * Z * Z * FALRU) :=
  let! r := fa_findBlock (tp_addr pkt) (tp_secure pkt) f in
  match r with
  | Some e =>
      let! b := node (Some e) (fl_blks f) in
      let! (mask, f) := (if _valid (fa_blk b) then let! f := moveToHead e f in Ok (inCachesMask b, f) else Ok (0, f)) in
      let! b := node (Some e) (fl_blks f) in
      Ok (r, fl_lookupLatency f, mask, set_tracking (recordAccess (Some b) (cacheTracking f)) f)
  | None => Ok (r, fl_lookupLatency f, 0, set_tracking (recordAccess None (cacheTracking f)) f)
  end.

(** [CacheBlk* findVictim(...)], the victim and what is evicted. *)
Definition fa_findVictim (f : FALRU) : option nat * list (option nat) := (tail f, [tail f]).

(** [void insertBlock(const PacketPtr pkt, CacheBlk *blk)], with what it does as [BaseTags]. *)
Definition fa_insertBlock (cur : Z) (pkt : TagPkt) (e : nat) (f : FALRU) : outcome FALRU :=
  let! b := node (Some e) (fl_blks f) in
  do! assert_ (inCachesMask b =? 0) then
  do! assert_ (negb (_valid (fa_blk b))) then
  do! assert_ (tp_requestorId pkt <? fl_maxRequestors f) then
  let st := occupy 1 (tp_requestorId pkt) (fl_stats f) in
  let! c := blk_insert cur (fa_extractTag (tp_addr pkt) f) (tp_secure pkt) (tp_requestorId pkt) (tp_taskId pkt) (fa_blk b) in
  let! bs := upd (Some e) (set_fa_blk c) (fl_blks f) in
  let warm := negb (fl_warmedUp f) && (fl_warmupBound f <=? tagsInUse st) in
  let st := count_accesses 1 1 (if warm then warm_at cur st else st) in
  let f := set_fl_stats (fl_warmedUp f || warm) (use_tags 1 st) (set_fl_blks bs f) in
  let! f := moveToHead e f in
  let! b := node (Some e) (fl_blks f) in
  Ok (set_tagHash (<[(_tag (fa_blk b), _secure (fa_blk b)) := e]> (tagHash f)) f).

(** [void invalidate(CacheBlk *blk)], with what it does as [BaseTags]. *)
Definition fa_invalidate (e : nat) (f : FALRU) : outcome FALRU :=
  let! b := node (Some e) (fl_blks f) in
  do! assert_ (bool_decide (is_Some (tagHash f !! (_tag (fa_blk b), _secure (fa_blk b))))) then
  let f := set_tagHash (delete (_tag (fa_blk b), _secure (fa_blk b)) (tagHash f)) f in
  do! assert_ (_valid (fa_blk b)) then
  let st := sample_refs (_refCount (fa_blk b)) (occupy (-1) (_srcRequestorId (fa_blk b)) (fl_stats f)) in
  let! c := blk_invalidate (fa_blk b) in
  let! bs := upd (Some e) (set_fa_blk c) (fl_blks f) in
  moveToTail e (set_fl_stats (fl_warmedUp f) (use_tags (-1) st) (set_fl_blks bs f)).

(** [void moveBlock(...)] and [Addr regenerateBlkAddr(const CacheBlk* blk) const]. *)
Definition fa_moveBlock (src dest : nat) (f : FALRU) : outcome FALRU := Err Panic.
Definition fa_regenerateBlkAddr (e : nat) (f : FALRU) : outcome Z := let! b := node (Some e) (fl_blks f) in Ok (_tag (fa_blk b)).

(** * The list *)

(** The first of a list, or what comes after it; the last of a list, or what comes before. *)
Definition first_or (q : option nat) (L : list nat) : option nat := match L with [] => q | e :: _ => Some e end.
Definition last_or (p : option nat) (L : list nat) : option nat := match last L with Some e => Some e | None => p end.

(** [L] is linked, with [p] before it and [q] after it. *)
Fixpoint linked (bs : list FALRUBlk) (p : option nat) (L : list nat) (q : option nat) : Prop :=
  match L with
  | [] => True
  | e :: L => (exists b, bs !! e = Some b /\ prev b = p /\ next b = first_or q L) /\ linked bs (Some e) L q
  end.

Lemma last_or_app p A B : last_or p (A ++ B) = last_or (last_or p A) B.
Proof. unfold last_or. rewrite last_app. destruct (last B); [done |]. by destruct (last A). Qed.

Lemma last_or_cons p e B : last_or p (e :: B) = last_or (Some e) B.
Proof. unfold last_or. rewrite last_cons. by destruct (last B). Qed.

Lemma last_or_snoc p A e : last_or p (A ++ [e]) = Some e.
Proof. unfold last_or. by rewrite last_snoc. Qed.

Lemma linked_app bs p A B q : linked bs p (A ++ B) q <-> linked bs p A (first_or q B) /\ linked bs (last_or p A) B q.
Proof.
  revert p. induction A as [| e A IH]; intros p; [by cbn; tauto |]. cbn [app linked]. rewrite IH, last_or_cons.
  assert (first_or q (A ++ B) = first_or (first_or q B) A) as -> by (by destruct A). tauto.
Qed.

(** Changes that leave the links alone. *)
Lemma linked_ext bs bs' p L q : (forall e, e ∈ L -> forall b, bs !! e = Some b -> exists b', bs' !! e = Some b' /\ prev b' = prev b /\ next b' = next b) -> linked bs p L q -> linked bs' p L q.
Proof.
  revert p. induction L as [| e L IH]; intros p H; [done |]. intros [(b & Hb & Hp & Hn) HL]. split.
  - destruct (H e ltac:(left) b Hb) as (b' & Hb' & Hp' & Hn'). exists b'. split; [done |]. by rewrite Hp', Hn'.
  - apply IH; [| done]. intros x Hx. apply H. by right.
Qed.

Lemma linked_other bs f e p L q : e ∉ L -> linked bs p L q -> linked (alter f e bs) p L q.
Proof.
  intros He. apply linked_ext. intros x Hx b Hb. exists b. split; [| done]. rewrite list_lookup_alter_ne; [done |]. by intros ->.
Qed.

Lemma alter_at (f : FALRUBlk -> FALRUBlk) (e : nat) (bs : list FALRUBlk) b : bs !! e = Some b -> alter f e bs !! e = Some (f b).
Proof. intros H. by rewrite list_lookup_alter_eq, H. Qed.

Lemma linked_mask bs f e p L q : (forall b, prev (f b) = prev b /\ next (f b) = next b) -> linked bs p L q -> linked (alter f e bs) p L q.
Proof.
  intros Hf. apply linked_ext. intros x _ b Hb. destruct (decide (x = e)) as [-> | Hne]; [exists (f b); split; [by apply alter_at | apply Hf] |].
  exists b. split; [by rewrite list_lookup_alter_ne | done].
Qed.

Lemma linked_set_next bs p A x q q' : x ∉ A -> linked bs p (A ++ [x]) q -> linked (alter (set_next q') x bs) p (A ++ [x]) q'.
Proof.
  intros Hx. rewrite !linked_app. cbn [first_or linked]. intros [HA [(b & Hb & Hp & Hn) _]]. split; [by apply linked_other |]. split; [| done].
  exists (set_next q' b). split; [by apply alter_at | done].
Qed.

Lemma linked_set_prev bs p p' x B q : x ∉ B -> linked bs p (x :: B) q -> linked (alter (set_prev p') x bs) p' (x :: B) q.
Proof.
  intros Hx [(b & Hb & Hp & Hn) HB]. split; [exists (set_prev p' b); split; [by apply alter_at | done] | by apply linked_other].
Qed.

Lemma upd_ok p f bs e b : p = Some e -> bs !! e = Some b -> upd p f bs = Ok (alter f e bs).
Proof. intros -> Hb. unfold upd. by rewrite Hb. Qed.
Lemma node_ok p bs e b : p = Some e -> bs !! e = Some b -> node p bs = Ok b.
Proof. intros -> Hb. unfold node. by rewrite Hb. Qed.

(** What surrounds a block in the list. *)
Lemma linked_mid bs p A e B q : linked bs p (A ++ e :: B) q -> exists b, bs !! e = Some b /\ prev b = last_or p A /\ next b = first_or q B.
Proof. rewrite linked_app. intros [_ [Hb _]]. exact Hb. Qed.

Lemma linked_at bs p L q e : linked bs p L q -> e ∈ L -> exists b, bs !! e = Some b.
Proof. intros H He. apply list_elem_of_split in He as (A & B & ->). destruct (linked_mid _ _ _ _ _ _ H) as (b & Hb & _). by exists b. Qed.

(** What the links do not touch. *)
Definition data (bs : list FALRUBlk) : list (CacheBlk * Z) := map (fun b => (fa_blk b, inCachesMask b)) bs.

Lemma data_alter f x bs : (forall b, fa_blk (f b) = fa_blk b /\ inCachesMask (f b) = inCachesMask b) -> data (alter f x bs) = data bs.
Proof.
  intros Hf. revert x. induction bs as [| b bs IH]; intros x; [done |]. destruct x as [| x]; cbn; [destruct (Hf b) as [-> ->]; done |]. f_equal. apply IH.
Qed.

Lemma elem_last A (x : nat) : last A = Some x -> exists A', A = A' ++ [x].
Proof. intros H. by apply last_Some in H. Qed.

(** Taking a block out of the list: its neighbours are told. *)
Lemma unlink_ok e A B bs : A <> [] -> B <> [] -> NoDup (A ++ e :: B) -> linked bs None (A ++ e :: B) None ->
  exists bs', unlink e bs = Ok bs' /\ linked bs' None (A ++ B) None /\ data bs' = data bs /\ exists b, bs' !! e = Some b.
Proof.
  intros HA HB Hnd Hl. destruct (exists_last HA) as (A' & x & ->). destruct B as [| y B]; [done |].
  destruct (linked_mid _ _ _ _ _ _ Hl) as (b & Hb & Hp & Hn). rewrite last_or_snoc in Hp. cbn [first_or] in Hn.
  apply linked_app in Hl as [HlA HlB]. rewrite last_or_snoc in HlB. cbn [first_or] in HlA. destruct HlB as [_ HlB].
  rewrite <- app_assoc in Hnd. apply NoDup_app in Hnd as (HndA & HAx & Hnd). cbn in Hnd. apply NoDup_cons in Hnd as [Hx Hnd]. apply NoDup_cons in Hnd as [He Hnd]. apply NoDup_cons in Hnd as [Hy HndB].
  apply not_elem_of_cons in Hx as [Hxe Hx]. apply not_elem_of_cons in Hx as [Hxy HxB]. apply not_elem_of_cons in He as [Hey HeB].
  destruct (linked_at _ _ _ _ x HlA) as [bx Hbx]; [apply elem_of_app; right; left |].
  assert (exists by_, bs !! y = Some by_) as [b_y Hby] by (apply (linked_at _ _ _ _ y HlB); left).
  unfold unlink. rewrite (node_ok (Some e) bs e b eq_refl Hb). cbn [obind]. rewrite (upd_ok (prev b) _ bs x bx Hp Hbx). cbn [obind].
  assert (alter (set_next (next b)) x bs !! e = Some b) as Hb1 by (by rewrite list_lookup_alter_ne).
  rewrite (node_ok (Some e) _ e b eq_refl Hb1). cbn [obind].
  rewrite (upd_ok (next b) _ _ y b_y Hn) by (by rewrite list_lookup_alter_ne). eexists. split; [done |]. rewrite Hp, Hn. split; [| split].
  - apply linked_app. rewrite last_or_snoc. cbn [first_or]. split.
    + apply linked_other; [intros [H | H%list_elem_of_singleton]%elem_of_app; [apply (HAx y H); right; right; left | done] |].
      apply (linked_set_next _ _ _ _ (Some e)); [intros H; apply (HAx x H); left | exact HlA].
    + apply (linked_set_prev _ (Some e)); [done |]. apply linked_other; [by apply not_elem_of_cons | exact HlB].
  - rewrite !data_alter; done.
  - exists b. rewrite list_lookup_alter_ne by done. by rewrite <- Hn.
Qed.

Lemma NoDup_mid (A B : list nat) e : NoDup (A ++ e :: B) -> (e ∉ A) /\ (e ∉ B) /\ (e ∉ A ++ B) /\ NoDup (A ++ B).
Proof.
  intros H. apply NoDup_app in H as (HA & HAB & H). apply NoDup_cons in H as [He HB].
  assert (e ∉ A) as HeA by (intros Hin; apply (HAB e Hin); left). split; [done |]. split; [done |]. split; [rewrite elem_of_app; tauto |].
  apply NoDup_app. split; [done |]. split; [| done]. intros x Hx HxB. apply (HAB x Hx). by right.
Qed.

Lemma last_or_in p L e : last_or p L = Some e -> L <> [] -> e ∈ L.
Proof. unfold last_or. intros H Hne. destruct (last L) as [x |] eqn:E; [| by apply last_None in E]. injection H as ->. by apply last_Some_elem_of. Qed.

(** Putting a block that is out of the list before it, and after it. *)
Lemma put_first e L bs b : L <> [] -> e ∉ L -> NoDup L -> linked bs None L None -> bs !! e = Some b -> exists bs',
  (let! bs := upd (Some e) (set_next (first_or None L)) bs in let! bs := upd (Some e) (set_prev None) bs in upd (first_or None L) (set_prev (Some e)) bs) = Ok bs' /\
  linked bs' None (e :: L) None /\ data bs' = data bs.
Proof.
  intros Hne He Hnd Hl Hb. destruct L as [| a L]; [done |]. apply not_elem_of_cons in He as [Hea HeL]. apply NoDup_cons in Hnd as [Ha Hnd]. cbn [first_or].
  rewrite (upd_ok (Some e) _ bs e b eq_refl Hb). cbn [obind]. pose proof (alter_at (set_next (Some a)) e bs b Hb) as H1. rewrite (upd_ok (Some e) _ _ e _ eq_refl H1). cbn [obind].
  pose proof (alter_at (set_prev None) e _ _ H1) as H2. destruct (linked_at _ _ _ _ a Hl) as [ba Hba]; [left |].
  rewrite (upd_ok (Some a) _ _ a ba eq_refl) by (by rewrite !list_lookup_alter_ne). eexists. split; [done |]. split; [| by rewrite !data_alter].
  split; [eexists; split; [rewrite list_lookup_alter_ne by done; exact H2 | done] |].
  apply (linked_set_prev _ None); [done |]. do 2 (apply linked_other; [by apply not_elem_of_cons |]). exact Hl.
Qed.

Lemma put_last e L bs b : L <> [] -> e ∉ L -> NoDup L -> linked bs None L None -> bs !! e = Some b -> exists bs',
  (let! bs := upd (Some e) (set_prev (last_or None L)) bs in let! bs := upd (Some e) (set_next None) bs in upd (last_or None L) (set_next (Some e)) bs) = Ok bs' /\
  linked bs' None (L ++ [e]) None /\ data bs' = data bs.
Proof.
  intros Hne He Hnd Hl Hb. destruct (exists_last Hne) as (L' & z & ->). rewrite last_or_snoc. apply not_elem_of_app in He as [HeL Hez]. apply NoDup_app in Hnd as (_ & Hz & _).
  assert (e <> z) as Hne' by (intros ->; apply Hez; left). assert (z ∉ L') as HzL by (intros Hin; apply (Hz z Hin); left).
  rewrite (upd_ok (Some e) _ bs e b eq_refl Hb). cbn [obind]. pose proof (alter_at (set_prev (Some z)) e bs b Hb) as H1. rewrite (upd_ok (Some e) _ _ e _ eq_refl H1). cbn [obind].
  pose proof (alter_at (set_next None) e _ _ H1) as H2. destruct (linked_at _ _ _ _ z Hl) as [bz Hbz]; [apply elem_of_app; right; left |].
  rewrite (upd_ok (Some z) _ _ z bz eq_refl) by (by rewrite !list_lookup_alter_ne). eexists. split; [done |]. split; [| by rewrite !data_alter].
  apply linked_app. rewrite last_or_snoc. cbn [first_or linked]. split.
  - apply (linked_set_next _ _ _ _ None); [done |]. do 2 (apply linked_other; [apply not_elem_of_app; split; [done | by intros ->%list_elem_of_singleton] |]). exact Hl.
  - split; [| done]. eexists. split; [rewrite list_lookup_alter_ne by done; exact H2 | done].
Qed.

Lemma relink_head_ok e A B bs : A <> [] -> NoDup (A ++ e :: B) -> linked bs None (A ++ e :: B) None ->
  exists bs', relink_head e (first_or None A) (last_or None (A ++ e :: B)) bs = Ok (bs', last_or None (A ++ B)) /\ linked bs' None (e :: A ++ B) None /\ data bs' = data bs.
Proof.
  intros HA Hnd Hl. destruct (NoDup_mid A B e Hnd) as (HeA & HeB & HeAB & HndAB).
  assert (exists bs1 b, (if bool_decide (last_or None (A ++ e :: B) = Some e) then
       let! b := node (Some e) bs in do! assert_ (bool_decide (next b = None)) then let! bs := upd (prev b) (set_next None) bs in Ok (bs, prev b)
     else let! bs := unlink e bs in Ok (bs, last_or None (A ++ e :: B))) = Ok (bs1, last_or None (A ++ B)) /\ linked bs1 None (A ++ B) None /\ data bs1 = data bs /\ bs1 !! e = Some b) as (bs1 & b & E1 & Hl1 & Hd1 & Hb1).
  { destruct B as [| y B].
    - rewrite last_or_snoc, bool_decide_eq_true_2, app_nil_r by done. destruct (linked_mid _ _ _ _ _ _ Hl) as (b & Hb & Hp & Hn). rewrite (node_ok (Some e) bs e b eq_refl Hb). cbn [obind].
      rewrite Hn. cbn [first_or]. rewrite bool_decide_eq_true_2 by done. cbn [assert_ obind]. apply linked_app in Hl as [HlA _]. destruct (exists_last HA) as (A' & x & ->). rewrite last_or_snoc in *.
      assert (x <> e) as Hxe by (intros ->; apply HeA, elem_of_app; right; left). destruct (linked_at _ _ _ _ x HlA) as [bx Hbx]; [apply elem_of_app; right; left |].
      rewrite (upd_ok (prev b) _ bs x bx Hp Hbx). cbn [obind]. rewrite Hp. eexists _, b. split; [done |]. split; [| split; [by rewrite data_alter | by rewrite list_lookup_alter_ne]].
      apply (linked_set_next _ _ _ _ (Some e)); [| exact HlA]. rewrite app_nil_r in HndAB. apply NoDup_app in HndAB as (_ & Hx & _). intros Hin. apply (Hx x Hin). left.
    - assert (last_or None (A ++ e :: y :: B) = last_or None (A ++ y :: B)) as El by (rewrite !last_or_app, !last_or_cons; done). rewrite El.
      rewrite bool_decide_eq_false_2; [| intros H; apply last_or_in in H; [done | by destruct A]].
      destruct (unlink_ok e A (y :: B) bs HA ltac:(done) Hnd Hl) as (bs1 & -> & Hl1 & Hd1 & b & Hb). cbn [obind]. by exists bs1, b. }
  unfold relink_head. rewrite E1. cbn [obind]. destruct (put_first e (A ++ B) bs1 b) as (bs' & E & Hl' & Hd'); try done; [by destruct A |].
  assert (first_or None (A ++ B) = first_or None A) as Ef by (by destruct A). rewrite Ef in E. exists bs'. split; [| split; [done | congruence]].
  destruct (upd (Some e) (set_next (first_or None A)) bs1) as [bs2 |]; [cbn [obind] in * | done]. destruct (upd (Some e) (set_prev None) bs2) as [bs3 |]; [cbn [obind] in * | done]. by rewrite E.
Qed.

Lemma relink_tail_ok e A B bs : B <> [] -> NoDup (A ++ e :: B) -> linked bs None (A ++ e :: B) None ->
  exists bs', relink_tail e (first_or None (A ++ e :: B)) (last_or None B) bs = Ok (bs', first_or None (A ++ B)) /\ linked bs' None (A ++ B ++ [e]) None /\ data bs' = data bs.
Proof.
  intros HB Hnd Hl. destruct (NoDup_mid A B e Hnd) as (HeA & HeB & HeAB & HndAB).
  assert (exists bs1 b, (if bool_decide (first_or None (A ++ e :: B) = Some e) then
       let! b := node (Some e) bs in do! assert_ (bool_decide (prev b = None)) then let! bs := upd (next b) (set_prev None) bs in Ok (bs, next b)
     else let! bs := unlink e bs in Ok (bs, first_or None (A ++ e :: B))) = Ok (bs1, first_or None (A ++ B)) /\ linked bs1 None (A ++ B) None /\ data bs1 = data bs /\ bs1 !! e = Some b) as (bs1 & b & E1 & Hl1 & Hd1 & Hb1).
  { destruct A as [| a A].
    - cbn [app first_or] in *. rewrite bool_decide_eq_true_2 by done. destruct Hl as [(b & Hb & Hp & Hn) HlB]. rewrite (node_ok (Some e) bs e b eq_refl Hb). cbn [obind].
      rewrite Hp. rewrite bool_decide_eq_true_2 by done. cbn [assert_ obind]. destruct B as [| y B]; [done |]. cbn [first_or] in Hn. apply not_elem_of_cons in HeB as [Hey HeB].
      destruct (linked_at _ _ _ _ y HlB) as [b_y Hby]; [left |]. rewrite (upd_ok (next b) _ bs y b_y Hn Hby). cbn [obind]. rewrite Hn. eexists _, b. split; [done |].
      split; [| split; [by rewrite data_alter | by rewrite list_lookup_alter_ne]]. apply NoDup_cons in HndAB as [Hy _]. by apply (linked_set_prev _ (Some e)).
    - cbn [app first_or]. apply not_elem_of_cons in HeA as [Hea HeA]. rewrite bool_decide_eq_false_2 by congruence.
      destruct (unlink_ok e (a :: A) B bs ltac:(done) HB Hnd Hl) as (bs1 & -> & Hl1 & Hd1 & b & Hb). cbn [obind]. by exists bs1, b. }
  unfold relink_tail. rewrite E1. cbn [obind]. destruct (put_last e (A ++ B) bs1 b) as (bs' & E & Hl' & Hd'); try done; [by destruct A, B |].
  assert (last_or None (A ++ B) = last_or None B) as Ef. { rewrite last_or_app. destruct (exists_last HB) as (B' & z & ->). by rewrite !last_or_snoc. }
  rewrite Ef in E. exists bs'. split; [| split; [by rewrite app_assoc | congruence]].
  destruct (upd (Some e) (set_prev (last_or None B)) bs1) as [bs2 |]; [cbn [obind] in * | done]. destruct (upd (Some e) (set_next None) bs2) as [bs3 |]; [cbn [obind] in * | done]. by rewrite E.
Qed.

(** * The tracked caches *)

(** The neighbours of the block at a position. *)
Lemma linked_pos bs L p x : linked bs None L None -> L !! p = Some x -> exists b, bs !! x = Some b /\ prev b = match p with O => None | S p => L !! p end /\ next b = L !! S p.
Proof.
  intros Hl Hx. apply list_elem_of_split_length in Hx as (A & B & -> & ->). destruct (linked_mid _ _ _ _ _ _ Hl) as (b & Hb & Hp & Hn). exists b. split; [done |]. split.
  - rewrite Hp. destruct A as [| a A _] using rev_ind; [done |]. rewrite last_or_snoc, length_app, Nat.add_comm. cbn. rewrite <- app_assoc. cbn [app]. by rewrite list_lookup_middle.
  - rewrite Hn, lookup_app_r, Nat.sub_succ_l, Nat.sub_diag by lia. cbn. by destruct B.
Qed.

Lemma bit_test i u : (i < 32)%nat -> truthy (Z.land (cache_bit i) u) = Z.testbit u (Z.of_nat i).
Proof.
  intros Hi. assert (cache_bit i = 2 ^ Z.of_nat i) as -> by (unfold cache_bit; rewrite Z.shiftl_1_l; apply wrap_small; split; [lia | apply Z.pow_lt_mono_r; lia]).
  unfold truthy. rewrite Z.land_comm. destruct (Z.testbit u (Z.of_nat i)) eqn:Eb.
  - apply negb_true_iff, Z.eqb_neq. intros H. apply (f_equal (fun z => Z.testbit z (Z.of_nat i))) in H. rewrite Z.land_spec, Eb, Z.pow2_bits_true, Z.bits_0 in H by lia. done.
  - apply negb_false_iff, Z.eqb_eq, Z.bits_inj'. intros j Hj. rewrite Z.land_spec, Z.bits_0, Z.pow2_bits_eqb by lia. destruct (Z.eqb_spec (Z.of_nat i) j) as [<- |]; [by rewrite Eb | apply andb_false_r].
Qed.

Lemma cache_bit_testbit i j : (i < 32)%nat -> Z.testbit (cache_bit i) (Z.of_nat j) = bool_decide (i = j).
Proof.
  intros Hi. assert (cache_bit i = 2 ^ Z.of_nat i) as -> by (unfold cache_bit; rewrite Z.shiftl_1_l; apply wrap_small; split; [lia | apply Z.pow_lt_mono_r; lia]).
  rewrite Z.pow2_bits_eqb by lia. case_bool_decide as H; [subst; by rewrite Z.eqb_refl | apply Z.eqb_neq; lia].
Qed.

Section tracking.
Variables (n : nat) (cap : nat -> nat).
Hypothesis Hn : (n <= 32)%nat.
Hypothesis Hcap : forall i, (i < n)%nat -> (2 <= cap i)%nat.

(** The bits of the tracked caches that hold the block at position [p]. *)
Definition mask_at (p : nat) (m : Z) : Prop := in_width 32 m /\ forall i, Z.testbit m (Z.of_nat i) = bool_decide (i < n /\ p < cap i)%nat.
Definition masks_ok (bs : list FALRUBlk) (L : list nat) : Prop := forall p x b, L !! p = Some x -> bs !! x = Some b -> mask_at p (inCachesMask b).
Definition bounds_ok (bds : list (option nat)) (L : list nat) : Prop := length bds = n /\ forall i, (i < n)%nat -> bds !! i = Some (L !! (cap i - 1)%nat).

(** Blocks [L] become [L'], and the first [k] caches have been brought up to date. *)
Variables (L L' : list nat) (e : nat) (me : Z).
Hypothesis HL : NoDup L.
Hypothesis HL' : NoDup L'.
Hypothesis Hfit : forall i, (i < n)%nat -> (cap i < length L)%nat.

Record updating (k : nat) (bs : list FALRUBlk) (bds : list (option nat)) : Prop := {
  up_linked : linked bs None L None;
  up_self : forall b, bs !! e = Some b -> inCachesMask b = me;
  up_masks : forall x b p p', x <> e -> bs !! x = Some b -> L !! p = Some x -> L' !! p' = Some x ->
    in_width 32 (inCachesMask b) /\ forall i, Z.testbit (inCachesMask b) (Z.of_nat i) = bool_decide (i < n /\ (if decide (i < k) then p' else p) < cap i)%nat;
  up_bounds : length bds = n /\ forall i, (i < n)%nat -> bds !! i = Some (if decide (i < k)%nat then L' !! (cap i - 1)%nat else L !! (cap i - 1)%nat);
}.

(** A cache whose blocks do not change. *)
Lemma updating_same k bs bds p : (k < n)%nat -> updating k bs bds -> p = L' !! (cap k - 1)%nat ->
  (forall x q q', x <> e -> L !! q = Some x -> L' !! q' = Some x -> (q < cap k <-> q' < cap k)%nat) -> updating (S k) bs (<[k := p]> bds).
Proof.
  intros Hk [H1 H2 H3 [H4 H5]] -> Hsame. split; [done | done | |].
  - intros x b q q' Hx Hb Hq Hq'. destruct (H3 x b q q' Hx Hb Hq Hq') as [Hw Hbits]. split; [done |]. intros i. rewrite Hbits. apply bool_decide_ext. specialize (Hsame x q q' Hx Hq Hq').
    repeat destruct (decide _); try tauto; try lia. assert (i = k) as -> by lia. tauto.
  - rewrite length_insert. split; [done |]. intros i Hi. destruct (decide (i = k)) as [-> |]; [rewrite list_lookup_insert_eq by lia; by rewrite decide_True by lia |].
    rewrite list_lookup_insert_ne by done. rewrite H5 by done. repeat destruct (decide _); try done; lia.
Qed.

(** A cache that loses or gains the block [y]. *)
Lemma updating_flip k bs bds p y b by_ q0 q0' f : (k < n)%nat -> updating k bs bds -> p = L' !! (cap k - 1)%nat -> y <> e -> bs !! y = Some by_ -> b = f by_ -> L !! q0 = Some y -> L' !! q0' = Some y ->
  (forall b, prev (f b) = prev b /\ next (f b) = next b) -> in_width 32 (inCachesMask b) ->
  (forall i, Z.testbit (inCachesMask b) (Z.of_nat i) = if decide (i = k) then bool_decide (q0' < cap k)%nat else Z.testbit (inCachesMask by_) (Z.of_nat i)) ->
  (forall x q q', x <> e -> x <> y -> L !! q = Some x -> L' !! q' = Some x -> (q < cap k <-> q' < cap k)%nat) -> updating (S k) (alter f y bs) (<[k := p]> bds).
Proof.
  intros Hk [H1 H2 H3 [H4 H5]] -> Hy Hby -> Hq0 Hq0' Hf Hw Hbits Hsame. split.
  - by apply linked_mask.
  - intros b. rewrite list_lookup_alter_ne by done. apply H2.
  - intros x b q q' Hx Hb Hq Hq'. destruct (decide (x = y)) as [-> | Hxy].
    + rewrite (alter_at f y bs by_ Hby) in Hb. injection Hb as <-. split; [done |]. intros i. rewrite Hbits. assert (q = q0) as -> by (by apply (NoDup_lookup L q q0 y)). assert (q' = q0') as -> by (by apply (NoDup_lookup L' q' q0' y)).
      destruct (decide (i = k)) as [-> | Hik]; [rewrite decide_True by lia; apply bool_decide_ext; tauto |].
      rewrite (proj2 (H3 y by_ q0 q0' Hy Hby Hq0 Hq0')). apply bool_decide_ext. repeat destruct (decide _); try tauto; lia.
    + rewrite list_lookup_alter_ne in Hb by done. destruct (H3 x b q q' Hx Hb Hq Hq') as [Hw' Hbits']. split; [done |]. intros i. rewrite Hbits'. apply bool_decide_ext. specialize (Hsame x q q' Hx Hxy Hq Hq').
      repeat destruct (decide _); try tauto; try lia. assert (i = k) as -> by lia. tauto.
  - rewrite length_insert. split; [done |]. intros i Hi. destruct (decide (i = k)) as [-> |]; [rewrite list_lookup_insert_eq by lia; by rewrite decide_True by lia |].
    rewrite list_lookup_insert_ne by done. rewrite H5 by done. repeat destruct (decide _); try done; lia.
Qed.
End tracking.

Definition blocks (bs : list FALRUBlk) : list CacheBlk := map fa_blk bs.

Lemma blocks_alter f x bs : (forall b, fa_blk (f b) = fa_blk b) -> blocks (alter f x bs) = blocks bs.
Proof. intros Hf. revert x. induction bs as [| b bs IH]; intros x; [done |]. destruct x as [| x]; cbn; [by rewrite Hf |]. f_equal. apply IH. Qed.

(** Positions before and after a move. *)
Lemma pos_to_head (A B : list nat) e p p' x : NoDup (A ++ e :: B) -> x <> e -> (A ++ e :: B) !! p = Some x -> (e :: A ++ B) !! p' = Some x -> p' = if decide (p < length A)%nat then S p else p.
Proof.
  intros Hnd Hx Hp Hp'. destruct (NoDup_mid A B e Hnd) as (HeA & HeB & HeAB & HndAB). assert (NoDup (e :: A ++ B)) as Hnd' by (by apply NoDup_cons).
  apply (NoDup_lookup (e :: A ++ B) p' _ x Hnd' Hp'). destruct (decide (p < length A)%nat) as [Hlt | Hge].
  - change ((A ++ B) !! p = Some x). rewrite lookup_app_l in Hp |- * by lia. done.
  - rewrite lookup_app_r in Hp by lia. destruct (p - length A)%nat as [| q] eqn:Eq; [cbn in Hp; congruence |]. cbn in Hp. destruct p as [| p]; [lia |]. change ((A ++ B) !! p = Some x). rewrite lookup_app_r by lia.
    by replace (p - length A)%nat with q by lia.
Qed.

Lemma pos_to_tail (A B : list nat) e p p' x : NoDup (A ++ e :: B) -> x <> e -> (A ++ e :: B) !! p = Some x -> (A ++ B ++ [e]) !! p' = Some x -> p' = if decide (p < length A)%nat then p else pred p.
Proof.
  intros Hnd Hx Hp Hp'. destruct (NoDup_mid A B e Hnd) as (HeA & HeB & HeAB & HndAB).
  assert (NoDup (A ++ B ++ [e])) as Hnd' by (rewrite app_assoc; apply NoDup_app; split; [done |]; split; [intros y Hy ->%list_elem_of_singleton; done | apply NoDup_singleton]).
  apply (NoDup_lookup (A ++ B ++ [e]) p' _ x Hnd' Hp'). destruct (decide (p < length A)%nat) as [Hlt | Hge].
  - rewrite lookup_app_l in Hp |- * by lia. done.
  - rewrite lookup_app_r in Hp by lia. destruct (p - length A)%nat as [| q] eqn:Eq; [cbn in Hp; congruence |]. cbn in Hp. rewrite lookup_app_r by lia.
    replace (pred p - length A)%nat with q by lia. by apply lookup_app_l_Some.
Qed.

Section moves.
Variables (n : nat) (cap : nat -> nat) (A B : list nat) (e : nat) (me : Z).
Hypothesis Hn : (n <= 32)%nat.
Hypothesis Hcap : forall i, (i < n)%nat -> (2 <= cap i)%nat.
Local Abbreviation L := (A ++ e :: B).
Hypothesis HL : NoDup L.
Hypothesis Hfit : forall i, (i < n)%nat -> (cap i < length L)%nat.

Lemma clear_bit k i m : (k < 32)%nat -> in_width 32 m -> Z.testbit (Z.land m (wnot 32 (cache_bit k))) (Z.of_nat i) = if decide (i = k) then false else Z.testbit m (Z.of_nat i).
Proof.
  intros Hk Hm. rewrite Z.land_spec. destruct (decide (i < 32)%nat) as [Hi |].
  - rewrite wnot_testbit, cache_bit_testbit by (done || lia). destruct (Z.ltb_spec (Z.of_nat i) 32); [cbn [andb] | lia]. destruct (decide (i = k)) as [-> |]; [rewrite bool_decide_eq_true_2 by done; apply andb_false_r | rewrite bool_decide_eq_false_2 by done; apply andb_true_r].
  - rewrite (in_width_testbit 32 m) by (done || lia). by destruct (decide (i = k)).
Qed.

Lemma set_bit k i m : (k < 32)%nat -> Z.testbit (Z.lor m (cache_bit k)) (Z.of_nat i) = if decide (i = k) then true else Z.testbit m (Z.of_nat i).
Proof.
  intros Hk. rewrite Z.lor_spec, cache_bit_testbit by done. destruct (decide (i = k)) as [-> |]; [rewrite bool_decide_eq_true_2 by done; apply orb_true_r |].
  rewrite bool_decide_eq_false_2 by done. apply orb_false_r.
Qed.

Lemma cache_bit_width k : in_width 32 (cache_bit k).
Proof. apply wrap_range. lia. Qed.

Lemma mask_widths k m : in_width 32 m -> in_width 32 (Z.land m (wnot 32 (cache_bit k))) /\ in_width 32 (Z.lor m (cache_bit k)).
Proof.
  intros Hm. split; [apply land_in_width_l; [lia | done] | apply lor_in_width; [lia | done | apply cache_bit_width]].
Qed.

(** The block of a boundary. *)
Lemma boundary_block k bs bds : (k < n)%nat -> updating n cap L (e :: A ++ B) e me k bs bds \/ updating n cap L (A ++ B ++ [e]) e me k bs bds ->
  exists x b, L !! (cap k - 1)%nat = Some x /\ bds !! k = Some (Some x) /\ bs !! x = Some b /\ prev b = L !! (cap k - 2)%nat /\ next b = L !! cap k.
Proof.
  intros Hk Hup. pose proof (Hcap k Hk). pose proof (Hfit k Hk). destruct (lookup_lt_is_Some_2 L (cap k - 1)) as [x Hx]; [lia |].
  assert (linked bs None L None /\ bds !! k = Some (L !! (cap k - 1)%nat)) as [Hl Hb].
  { destruct Hup as [[H1 _ _ [_ H2]] | [H1 _ _ [_ H2]]]; (split; [done |]); rewrite H2 by done; rewrite decide_False by lia; done. }
  destruct (linked_pos bs L (cap k - 1) x Hl Hx) as (b & Hbx & Hp & Hn'). exists x, b. rewrite Hb, Hx. split; [done |]. split; [done |]. split; [done |].
  replace (S (cap k - 1)) with (cap k) in Hn' by lia. split; [| done]. rewrite Hp. destruct (cap k - 1)%nat as [| c] eqn:Ec; [lia |]. by replace (cap k - 2)%nat with c by lia.
Qed.

Lemma head_loop_ok u : A <> [] -> (forall i, (i < n)%nat -> Z.testbit u (Z.of_nat i) = bool_decide (cap i <= length A)%nat) -> forall m k bs bds, (k + m = n)%nat ->
  updating n cap L (e :: A ++ B) e me k bs bds -> exists bs' bds', head_loop (seq k m) u e bs bds = Ok (bs', bds') /\ updating n cap L (e :: A ++ B) e me n bs' bds' /\ blocks bs' = blocks bs.
Proof.
  intros HA Hu. induction m as [| m IH]; intros k bs bds Hkm Hup; [exists bs, bds; replace k with n in Hup by lia; done |].
  assert (k < n)%nat as Hk by lia. pose proof (Hcap k Hk). pose proof (Hfit k Hk) as Hfk. destruct (boundary_block k bs bds Hk (or_introl Hup)) as (x & b & Hx & Hbk & Hbx & Hp & _).
  destruct (NoDup_mid A B e HL) as (HeA & HeB & HeAB & HndAB). assert (NoDup (e :: A ++ B)) as HL' by (by apply NoDup_cons).
  cbn [seq head_loop]. unfold boundary. rewrite Hbk. cbn [obind]. rewrite bit_test, Hu by lia. case_bool_decide as Hca.
  - rewrite (upd_ok (Some x) _ bs x b eq_refl Hbx). cbn [obind]. set (f := fun b0 => set_mask _ b0). rewrite (node_ok (Some x) _ x (f b) eq_refl (alter_at f x bs b Hbx)). cbn [obind]. change (prev (f b)) with (prev b). rewrite Hp.
    assert (A !! (cap k - 1)%nat = Some x) as HxA by (rewrite lookup_app_l in Hx by lia; done). assert (x <> e) as Hxe by (intros ->; apply HeA; by apply list_elem_of_lookup_2 in HxA).
    assert ((e :: A ++ B) !! cap k = Some x) as Hx'. { destruct (cap k) as [| c]; [lia |]. change ((A ++ B) !! c = Some x). rewrite lookup_app_l by lia. by replace (S c - 1)%nat with c in HxA by lia. }
    assert (L !! (cap k - 2)%nat = (e :: A ++ B) !! (cap k - 1)%nat) as Epb.
    { destruct (cap k) as [| [| c]]; [lia | lia |]. cbn [Nat.sub]. rewrite Nat.sub_0_r. change ((A ++ e :: B) !! c = (A ++ B) !! c). by rewrite !lookup_app_l by lia. }
    assert (updating n cap L (e :: A ++ B) e me (S k) (alter f x bs) (<[k := L !! (cap k - 2)%nat]> bds)) as Hup'.
    { destruct (up_masks _ _ _ _ _ _ _ _ _ Hup x b _ _ Hxe Hbx Hx Hx') as [Hw Hbits]. apply (updating_flip n cap Hn L (e :: A ++ B) e me HL HL' k bs bds _ x (f b) b (cap k - 1) (cap k)); try done; [cbn; by apply mask_widths | |].
      - intros i. cbn. rewrite clear_bit by (done || lia). destruct (decide (i = k)); [| done]. symmetry. apply bool_decide_eq_false_2. lia.
      - intros y q q' Hye Hyx Hq Hq'. pose proof (pos_to_head A B e q q' y HL Hye Hq Hq') as ->. destruct (decide (q < length A)%nat); [| lia].
        assert (q <> cap k - 1)%nat; [intros ->; congruence | lia]. }
    destruct (IH (S k) _ _ ltac:(lia) Hup') as (bs' & bds' & -> & Hfin & Hbl). exists bs', bds'. split; [done |]. split; [done |]. rewrite Hbl. by apply blocks_alter.
  - assert (forall x0 q q', x0 <> e -> L !! q = Some x0 -> (e :: A ++ B) !! q' = Some x0 -> (q < cap k <-> q' < cap k)%nat) as Hsame.
    { intros y q q' Hye Hq Hq'. pose proof (pos_to_head A B e q q' y HL Hye Hq Hq') as ->. destruct (decide (q < length A)%nat); lia. }
    case_bool_decide as Hxe.
    + injection Hxe as ->. rewrite (node_ok (Some e) bs e b eq_refl Hbx). cbn [obind]. rewrite Hp. assert (cap k - 1 = length A)%nat as Ea. { apply (NoDup_lookup L _ _ e HL Hx). by apply list_lookup_middle. }
      destruct (IH (S k) bs (<[k := L !! (cap k - 2)%nat]> bds)) as (bs' & bds' & -> & Hfin & Hbl); [lia | | by exists bs', bds'].
      apply (updating_same n cap Hn L (e :: A ++ B) e me k); try done. rewrite Ea. destruct A as [| a A']; [done |]. cbn [length] in *. change ((e :: (a :: A') ++ B) !! S (length A')) with (((a :: A') ++ B) !! length A').
      replace (cap k - 2)%nat with (length A') by lia. by rewrite !lookup_app_l by (cbn; lia).
    + assert (updating n cap L (e :: A ++ B) e me (S k) bs bds) as Hup'; [| destruct (IH (S k) bs bds ltac:(lia) Hup') as (bs' & bds' & -> & Hfin & Hbl); by exists bs', bds'].
      rewrite <- (list_insert_id bds k (Some x) Hbk). apply (updating_same n cap Hn L (e :: A ++ B) e me k); try done.
      assert (cap k - 1 <> length A)%nat as Hnea. { intros Heq. apply Hxe. rewrite Heq, list_lookup_middle in Hx by done. congruence. }
      rewrite <- Hx. destruct (cap k - 1)%nat as [| c] eqn:Ec; [lia |]. change ((e :: A ++ B) !! S c) with ((A ++ B) !! c). rewrite !lookup_app_r by lia.
      destruct (S c - length A)%nat as [| d] eqn:Ed; [lia |]. cbn. by replace (c - length A)%nat with d by lia.
Qed.

Lemma tail_loop_ok u : B <> [] -> (forall i, (i < n)%nat -> Z.testbit u (Z.of_nat i) = bool_decide (length A < cap i)%nat) -> forall m k bs bds, (k + m = n)%nat ->
  updating n cap L (A ++ B ++ [e]) e me k bs bds -> exists bs' bds', tail_loop (seq k m) u e bs bds = Ok (bs', bds') /\ updating n cap L (A ++ B ++ [e]) e me n bs' bds' /\ blocks bs' = blocks bs.
Proof.
  intros HB Hu. induction m as [| m IH]; intros k bs bds Hkm Hup; [exists bs, bds; replace k with n in Hup by lia; done |].
  assert (k < n)%nat as Hk by lia. pose proof (Hcap k Hk). pose proof (Hfit k Hk) as Hfk. destruct (boundary_block k bs bds Hk (or_intror Hup)) as (x & b & Hx & Hbk & Hbx & _ & Hnx).
  destruct (NoDup_mid A B e HL) as (HeA & HeB & HeAB & HndAB). rewrite length_app in Hfk. cbn [length] in Hfk.
  assert (NoDup (A ++ B ++ [e])) as HL' by (rewrite app_assoc; apply NoDup_app; split; [done |]; split; [intros y Hy ->%list_elem_of_singleton; done | apply NoDup_singleton]).
  cbn [seq tail_loop]. rewrite bit_test, Hu by lia. case_bool_decide as Hca.
  - unfold boundary. rewrite Hbk. cbn [obind]. rewrite (node_ok (Some x) bs x b eq_refl Hbx). cbn [obind]. destruct (lookup_lt_is_Some_2 L (cap k)) as [y Hy]; [rewrite length_app; cbn; lia |]. rewrite Hnx, Hy.
    assert (y <> e) as Hye. { intros ->. assert (cap k = length A); [| lia]. apply (NoDup_lookup L _ _ e HL Hy). by apply list_lookup_middle. }
    rewrite bool_decide_eq_false_2 by congruence. cbn [obind]. destruct (linked_pos bs L (cap k) y (up_linked _ _ _ _ _ _ _ _ _ Hup) Hy) as (b_y & Hby & _).
    rewrite (upd_ok (Some y) _ bs y b_y eq_refl Hby). cbn [obind]. set (f := fun b0 => set_mask _ b0).
    assert ((A ++ B ++ [e]) !! (cap k - 1)%nat = Some y) as Hy'.
    { rewrite lookup_app_r by lia. rewrite lookup_app_l by lia. rewrite lookup_app_r in Hy by lia. destruct (cap k - length A)%nat as [| d] eqn:Ed; [lia |]. cbn in Hy. by replace (cap k - 1 - length A)%nat with d by lia. }
    assert (updating n cap L (A ++ B ++ [e]) e me (S k) (alter f y bs) (<[k := Some y]> bds)) as Hup'.
    { destruct (up_masks _ _ _ _ _ _ _ _ _ Hup y b_y _ _ Hye Hby Hy Hy') as [Hw Hbits]. apply (updating_flip n cap Hn L (A ++ B ++ [e]) e me HL HL' k bs bds _ y (f b_y) b_y (cap k) (cap k - 1)); try done; [cbn; by apply mask_widths | |].
      - intros i. cbn. rewrite set_bit by lia. destruct (decide (i = k)); [| done]. symmetry. apply bool_decide_eq_true_2. lia.
      - intros z q q' Hze Hzy Hq Hq'. pose proof (pos_to_tail A B e q q' z HL Hze Hq Hq') as ->. destruct (decide (q < length A)%nat); [done |].
        assert (q <> cap k)%nat; [intros ->; congruence |]. assert (q <> length A)%nat; [| lia]. intros ->. rewrite list_lookup_middle in Hq by done. congruence. }
    destruct (IH (S k) _ _ ltac:(lia) Hup') as (bs' & bds' & -> & Hfin & Hbl). exists bs', bds'. split; [done |]. split; [done |]. rewrite Hbl. by apply blocks_alter.
  - assert (updating n cap L (A ++ B ++ [e]) e me (S k) bs bds) as Hup'; [| destruct (IH (S k) bs bds ltac:(lia) Hup') as (bs' & bds' & -> & Hfin & Hbl); by exists bs', bds'].
    rewrite <- (list_insert_id bds k (Some x) Hbk). apply (updating_same n cap Hn L (A ++ B ++ [e]) e me k); try done.
    + rewrite <- Hx. by rewrite !lookup_app_l by lia.
    + intros z q q' Hze Hq Hq'. pose proof (pos_to_tail A B e q q' z HL Hze Hq Hq') as ->. destruct (decide (q < length A)%nat); [done |].
      assert (q <> length A)%nat; [| lia]. intros ->. rewrite list_lookup_middle in Hq by done. congruence.
Qed.
End moves.

(** * The invariant of the list *)

(** All blocks are in the list [L]; the tracked caches are right about it. *)
Record list_ok (n : nat) (cap : nat -> nat) (L : list nat) (f : FALRU) : Prop := {
  lo_nodup : NoDup L;
  lo_long : (2 <= length L)%nat;
  lo_all : forall x, x ∈ L <-> (x < length (fl_blks f))%nat;
  lo_linked : linked (fl_blks f) None L None;
  lo_head : head f = first_or None L;
  lo_tail : tail f = last_or None L;
  lo_masks : masks_ok n cap (fl_blks f) L;
  lo_bounds : bounds_ok n cap (boundaries (cacheTracking f)) L;
  lo_n : numTrackedCaches (cacheTracking f) = n /\ (n <= 32)%nat;
  lo_in_all : mask_at n cap 0 (inAllCachesMask (cacheTracking f));
  lo_cap : forall i, (i < n)%nat -> (2 <= cap i < length L)%nat;
}.

(** What a move leaves alone. *)
Definition list_frame (f f' : FALRU) : Prop :=
  blocks (fl_blks f') = blocks (fl_blks f) /\ tagHash f' = tagHash f /\ fl_blkSize f' = fl_blkSize f /\ fl_maxRequestors f' = fl_maxRequestors f /\ fl_lookupLatency f' = fl_lookupLatency f /\
  exists v, cacheTracking f' = set_boundaries v (cacheTracking f).

Lemma data_at bs bs' x b' : data bs' = data bs -> bs' !! x = Some b' -> exists b, bs !! x = Some b /\ fa_blk b = fa_blk b' /\ inCachesMask b = inCachesMask b'.
Proof.
  intros H Hx. assert (data bs' !! x = Some (fa_blk b', inCachesMask b')) as Hd by (unfold data; rewrite list_lookup_fmap, Hx; done). rewrite H in Hd. unfold data in Hd.
  rewrite list_lookup_fmap in Hd. destruct (bs !! x) as [b |]; [| done]. injection Hd as E1 E2. by exists b.
Qed.

Lemma data_blocks bs bs' : data bs' = data bs -> blocks bs' = blocks bs.
Proof. intros H. apply (f_equal (map fst)) in H. unfold data in H. rewrite !map_map in H. exact H. Qed.

Lemma blocks_length bs bs' : blocks bs' = blocks bs -> length bs' = length bs.
Proof. intros H. apply (f_equal length) in H. unfold blocks in H. by rewrite !length_map in H. Qed.

Lemma masks_data n cap bs bs' L : data bs' = data bs -> masks_ok n cap bs L -> masks_ok n cap bs' L.
Proof. intros Hd H p x b' Hp Hx. destruct (data_at _ _ _ _ Hd Hx) as (b & Hb & _ & <-). by apply (H p x). Qed.

(** Before the first tracked cache is looked at. *)
Lemma updating_start n cap L L' e b f : list_ok n cap L f -> fl_blks f !! e = Some b -> updating n cap L L' e (inCachesMask b) 0 (fl_blks f) (boundaries (cacheTracking f)).
Proof.
  intros Hf Hb. split; [apply (lo_linked _ _ _ _ Hf) | intros b' Hb'; congruence | |].
  - intros x bx p p' Hx Hbx Hp Hp'. destruct (lo_masks _ _ _ _ Hf p x bx Hp Hbx) as [Hw Hbits]. split; [done |]. intros i. rewrite Hbits. apply bool_decide_ext. destruct (decide (i < 0)%nat); [lia | done].
  - destruct (lo_bounds _ _ _ _ Hf) as [Hl Hbd]. split; [done |]. intros i Hi. rewrite decide_False by lia. by apply Hbd.
Qed.

(** And after the last one, when the moved block has its new mask. *)
Lemma updating_end n cap L L' e p me m bs bds : NoDup L' -> (forall x, x ∈ L' <-> x ∈ L) -> L' !! p = Some e -> mask_at n cap p m -> updating n cap L L' e me n bs bds ->
  masks_ok n cap (alter (set_mask m) e bs) L' /\ bounds_ok n cap bds L'.
Proof.
  intros Hnd Hel Hp Hm [H1 H2 H3 [H4 H5]]. split.
  - intros q x b Hq Hx. destruct (decide (x = e)) as [-> | Hne].
    + assert (q = p) as -> by (by apply (NoDup_lookup L' q p e)). rewrite list_lookup_alter_eq in Hx. destruct (bs !! e) as [be |]; [| done]. cbn in Hx. injection Hx as <-. exact Hm.
    + rewrite list_lookup_alter_ne in Hx by done. assert (x ∈ L) as Hin by (apply Hel; by apply list_elem_of_lookup_2 in Hq). apply list_elem_of_lookup_1 in Hin as [q0 Hq0].
      destruct (H3 x b q0 q Hne Hx Hq0 Hq) as [Hw Hbits]. split; [done |]. intros i. rewrite Hbits. apply bool_decide_ext. destruct (decide (i < n)%nat); tauto.
  - split; [done |]. intros i Hi. rewrite H5 by done. by rewrite decide_True by done.
Qed.

Lemma moveToHead_ok n cap A B e f : list_ok n cap (A ++ e :: B) f -> exists f', moveToHead e f = Ok f' /\ list_ok n cap (e :: A ++ B) f' /\ list_frame f f'.
Proof.
  intros Hf. pose proof Hf as [Hnd Hlong Hall Hl Hh Ht Hm Hb [Hnt Hn] Hia Hcap]. unfold moveToHead. rewrite Hh. destruct A as [| a A].
  { cbn [app first_or]. rewrite bool_decide_eq_true_2 by done. exists f. split; [done |]. split; [done |]. repeat split; try done. exists (boundaries (cacheTracking f)). by destruct (cacheTracking f). }
  set (AA := a :: A) in *. assert (AA <> []) as HA by done. destruct (NoDup_mid AA B e Hnd) as (HeA & HeB & HeAB & HndAB). assert (NoDup (e :: AA ++ B)) as Hnd' by (by apply NoDup_cons).
  rewrite bool_decide_eq_false_2 by (unfold AA in *; cbn; intros [= ->]; apply HeA; left).
  destruct (linked_at _ _ _ _ e Hl) as [b Hbe]; [apply elem_of_app; right; left |]. unfold moveBlockToHead. rewrite (node_ok (Some e) _ e b eq_refl Hbe). cbn [obind]. rewrite Hnt.
  destruct (Hm (length AA) e b) as [Hw Hbits]; [by apply list_lookup_middle | done |].
  destruct (head_loop_ok n cap AA B e (inCachesMask b) Hn (fun i Hi => proj1 (Hcap i Hi)) Hnd (fun i Hi => proj2 (Hcap i Hi)) (Z.lxor (inAllCachesMask (cacheTracking f)) (inCachesMask b)) HA) with (m := n) (k := 0%nat) (bs := fl_blks f) (bds := boundaries (cacheTracking f)) as (bs1 & bds1 & E1 & Hup & Hbl1); [| done | by apply updating_start |].
  { intros i Hi. rewrite Z.lxor_spec, Hbits, (proj2 Hia i). pose proof (Hcap i Hi). repeat case_bool_decide; try done; lia. }
  rewrite E1. cbn [obind]. assert (exists b1, bs1 !! e = Some b1) as [b1 Hb1] by (apply (linked_at _ _ _ _ e (up_linked _ _ _ _ _ _ _ _ _ Hup)); apply elem_of_app; right; left).
  rewrite (upd_ok (Some e) _ bs1 e b1 eq_refl Hb1). cbn [obind].
  assert (forall x, x ∈ e :: AA ++ B <-> x ∈ AA ++ e :: B) as Hel by (intros x; rewrite !elem_of_cons, !elem_of_app, elem_of_cons; tauto).
  destruct (updating_end n cap (AA ++ e :: B) (e :: AA ++ B) e 0 _ (inAllCachesMask (cacheTracking f)) bs1 bds1 Hnd' Hel eq_refl Hia Hup) as [Hm' Hb'].
  destruct (relink_head_ok e AA B (alter (set_mask (inAllCachesMask (cacheTracking f))) e bs1) HA Hnd) as (bs2 & E2 & Hl2 & Hd2); [apply linked_mask; [done |]; apply (up_linked _ _ _ _ _ _ _ _ _ Hup) |].
  assert (first_or None (AA ++ e :: B) = first_or None AA) as -> by done. rewrite Ht, E2. cbn [obind]. eexists. split; [done |].
  assert (blocks bs2 = blocks (fl_blks f)) as Hbl by (rewrite (data_blocks _ _ Hd2), blocks_alter by done; done). split.
  - split; cbn [fl_blks set_list head tail cacheTracking set_boundaries boundaries numTrackedCaches inAllCachesMask]; try done.
    + cbn [length]. rewrite length_app in Hlong |- *. cbn in Hlong |- *. lia.
    + intros x. rewrite Hel, Hall. by rewrite (blocks_length _ _ Hbl).
    + by apply (masks_data n cap _ bs2 _ Hd2).
    + intros i Hi. specialize (Hcap i Hi). rewrite length_app in Hcap. cbn in Hcap |- *. rewrite length_app. cbn. lia.
  - repeat split; try done. by eexists.
Qed.

Lemma moveToTail_ok n cap A B e f : list_ok n cap (A ++ e :: B) f -> exists f', moveToTail e f = Ok f' /\ list_ok n cap (A ++ B ++ [e]) f' /\ list_frame f f'.
Proof.
  intros Hf. pose proof Hf as [Hnd Hlong Hall Hl Hh Ht Hm Hb [Hnt Hn] Hia Hcap]. unfold moveToTail. rewrite Ht. destruct (decide (B = [])) as [-> | HB].
  { rewrite last_or_snoc, bool_decide_eq_true_2 by done. exists f. split; [done |]. split; [done |]. repeat split; try done. exists (boundaries (cacheTracking f)). by destruct (cacheTracking f). }
  destruct (NoDup_mid A B e Hnd) as (HeA & HeB & HeAB & HndAB).
  assert (NoDup (A ++ B ++ [e])) as Hnd' by (rewrite app_assoc; apply NoDup_app; split; [done |]; split; [intros y Hy ->%list_elem_of_singleton; done | apply NoDup_singleton]).
  assert (last_or None (A ++ e :: B) = last_or None B) as El by (rewrite last_or_app, last_or_cons; destruct (exists_last HB) as (B' & z & ->); by rewrite !last_or_snoc). rewrite El.
  rewrite bool_decide_eq_false_2 by (intros H; apply last_or_in in H; done).
  destruct (linked_at _ _ _ _ e Hl) as [b Hbe]; [apply elem_of_app; right; left |]. unfold moveBlockToTail. rewrite (node_ok (Some e) _ e b eq_refl Hbe). cbn [obind]. rewrite Hnt.
  destruct (Hm (length A) e b) as [Hw Hbits]; [by apply list_lookup_middle | done |].
  destruct (tail_loop_ok n cap A B e (inCachesMask b) Hn (fun i Hi => proj1 (Hcap i Hi)) Hnd (fun i Hi => proj2 (Hcap i Hi)) (inCachesMask b) HB) with (m := n) (k := 0%nat) (bs := fl_blks f) (bds := boundaries (cacheTracking f)) as (bs1 & bds1 & E1 & Hup & Hbl1); [| done | by apply updating_start |].
  { intros i Hi. rewrite Hbits. apply bool_decide_ext. tauto. }
  rewrite E1. cbn [obind]. assert (exists b1, bs1 !! e = Some b1) as [b1 Hb1] by (apply (linked_at _ _ _ _ e (up_linked _ _ _ _ _ _ _ _ _ Hup)); apply elem_of_app; right; left).
  rewrite (upd_ok (Some e) _ bs1 e b1 eq_refl Hb1). cbn [obind].
  assert (forall x, x ∈ A ++ B ++ [e] <-> x ∈ A ++ e :: B) as Hel by (intros x; rewrite !elem_of_app, !elem_of_cons, elem_of_nil; tauto).
  assert (mask_at n cap (length (A ++ B)) 0) as H0. { split; [unfold in_width; lia |]. intros i. rewrite Z.bits_0. symmetry. apply bool_decide_eq_false_2. intros [Hi Hlt]. specialize (Hcap i Hi). rewrite !length_app in *. cbn in Hcap. lia. }
  destruct (updating_end n cap (A ++ e :: B) (A ++ B ++ [e]) e (length (A ++ B)) (inCachesMask b) 0 bs1 bds1 Hnd' Hel) as [Hm' Hb']; [rewrite app_assoc; by apply list_lookup_middle | done | done |].
  destruct (relink_tail_ok e A B (alter (set_mask 0) e bs1) HB Hnd) as (bs2 & E2 & Hl2 & Hd2); [apply linked_mask; [done |]; apply (up_linked _ _ _ _ _ _ _ _ _ Hup) |].
  rewrite Hh, E2. cbn [obind]. eexists. split; [done |].
  assert (blocks bs2 = blocks (fl_blks f)) as Hbl by (rewrite (data_blocks _ _ Hd2), blocks_alter by done; done). split.
  - split; cbn [fl_blks set_list head tail cacheTracking set_boundaries boundaries numTrackedCaches inAllCachesMask]; try done.
    + rewrite length_app in Hlong. rewrite !length_app. cbn in Hlong |- *. lia.
    + intros x. rewrite Hel, Hall. by rewrite (blocks_length _ _ Hbl).
    + destruct A; [| done]. by destruct B.
    + by rewrite app_assoc, last_or_snoc.
    + by apply (masks_data n cap _ bs2 _ Hd2).
    + intros i Hi. specialize (Hcap i Hi). rewrite length_app in Hcap. rewrite !length_app. cbn in Hcap |- *. lia.
  - repeat split; try done. by eexists.
Qed.

(** * Least recently used blocks *)

(** What the contents of blocks do not touch. *)
Definition links_of (bs : list FALRUBlk) : list (option nat * option nat * Z) := map (fun b => (prev b, next b, inCachesMask b)) bs.

Lemma links_at bs bs' x b' : links_of bs' = links_of bs -> bs' !! x = Some b' -> exists b, bs !! x = Some b /\ prev b = prev b' /\ next b = next b' /\ inCachesMask b = inCachesMask b'.
Proof.
  intros H Hx. assert (links_of bs' !! x = Some (prev b', next b', inCachesMask b')) as Hd by (unfold links_of; rewrite list_lookup_fmap, Hx; done). rewrite H in Hd. unfold links_of in Hd.
  rewrite list_lookup_fmap in Hd. destruct (bs !! x) as [b |]; [| done]. injection Hd as E1 E2 E3. by exists b.
Qed.

Lemma links_alter f x bs : (forall b, prev (f b) = prev b /\ next (f b) = next b /\ inCachesMask (f b) = inCachesMask b) -> links_of (alter f x bs) = links_of bs.
Proof.
  intros Hf. revert x. induction bs as [| b bs IH]; intros x; [done |]. destruct x as [| x]; cbn; [destruct (Hf b) as (-> & -> & ->); done |]. f_equal. apply IH.
Qed.

Lemma list_ok_ext n cap L f f' : list_ok n cap L f -> links_of (fl_blks f') = links_of (fl_blks f) -> head f' = head f -> tail f' = tail f -> boundaries (cacheTracking f') = boundaries (cacheTracking f) ->
  numTrackedCaches (cacheTracking f') = numTrackedCaches (cacheTracking f) -> inAllCachesMask (cacheTracking f') = inAllCachesMask (cacheTracking f) -> list_ok n cap L f'.
Proof.
  intros [H1 H2 H3 H4 H5 H6 H7 H8 H9 H10 H11] Hl Hh Ht Hb Hn Hi. assert (length (fl_blks f') = length (fl_blks f)) as Hlen by (apply (f_equal length) in Hl; unfold links_of in Hl; by rewrite !length_map in Hl).
  split; rewrite ?Hh, ?Ht, ?Hb, ?Hn, ?Hi, ?Hlen; try done.
  - revert H4. apply linked_ext. intros e _ b Hb'. destruct (links_at _ _ e b (eq_sym Hl) Hb') as (b' & E & E1 & E2 & _). by exists b'.
  - intros p x b' Hp Hx. destruct (links_at _ _ x b' Hl Hx) as (b & E & _ & _ & <-). by apply (H7 p x).
Qed.

(** Block [e] holds the block with key [k], or nothing. *)
Definition holds_key (cs : list CacheBlk) (e : nat) (k : Z * bool) : Prop := exists c, cs !! e = Some c /\ _valid c = true /\ (_tag c, _secure c) = k.
Definition free (cs : list CacheBlk) (e : nat) : Prop := exists c, cs !! e = Some c /\ _valid c = false.

(** The store at time [now] represents the keys [R], the last used first. *)
Record represents (n : nat) (cap : nat -> nat) (now : Z) (R : list (Z * bool)) (f : FALRU) : Prop := {
  rs_list : exists V F, list_ok n cap (V ++ F) f /\ Forall2 (holds_key (blocks (fl_blks f))) V R /\ Forall (free (blocks (fl_blks f))) F;
  rs_hash : forall k e, tagHash f !! k = Some e <-> holds_key (blocks (fl_blks f)) e k;
  rs_now : now < 2 ^ 64;
  rs_blocks : forall e c, blocks (fl_blks f) !! e = Some c -> _tickInserted c <= now /\ (_valid c = false -> _secure c = false);
}.

Lemma block_node bs e c : blocks bs !! e = Some c -> exists b, bs !! e = Some b /\ fa_blk b = c.
Proof. unfold blocks. rewrite list_lookup_fmap. destruct (bs !! e) as [b |]; [| done]. intros [= <-]. by exists b. Qed.

Lemma node_block bs e b : bs !! e = Some b -> blocks bs !! e = Some (fa_blk b).
Proof. intros H. unfold blocks. by rewrite list_lookup_fmap, H. Qed.

Lemma holds_one cs e k k' : holds_key cs e k -> holds_key cs e k' -> k = k'.
Proof. intros (c & Hc & _ & <-) (c' & Hc' & _ & <-). congruence. Qed.

Lemma findBlock_represents n cap now R f a sec : represents n cap now R f -> fa_findBlock a sec f = Ok (tagHash f !! (fa_extractTag a f, sec)).
Proof.
  intros Hf. unfold fa_findBlock. destruct (tagHash f !! (fa_extractTag a f, sec)) as [e |] eqn:E; [| done].
  apply (rs_hash _ _ _ _ _ Hf) in E as (c & Hc & Hv & Hk). destruct (block_node _ _ _ Hc) as (b & Hb & Eb). rewrite (node_ok (Some e) _ e b eq_refl Hb). cbn [obind].
  rewrite Eb, Hv. injection Hk as -> ->. by rewrite Z.eqb_refl, eqb_reflx.
Qed.

(** Where a key is in the list. *)
Lemma key_split n cap now R f V F k e : represents n cap now R f -> list_ok n cap (V ++ F) f -> Forall2 (holds_key (blocks (fl_blks f))) V R -> Forall (free (blocks (fl_blks f))) F -> tagHash f !! k = Some e ->
  exists A B RA RB, V = A ++ e :: B /\ R = RA ++ k :: RB /\ Forall2 (holds_key (blocks (fl_blks f))) A RA /\ Forall2 (holds_key (blocks (fl_blks f))) B RB /\ (k ∉ RA) /\ (k ∉ RB).
Proof.
  intros Hf Hl HV HF He. pose proof He as Hh. apply (rs_hash _ _ _ _ _ Hf) in Hh. pose proof Hh as (c & Hc & Hv & Hk).
  assert (e ∈ V ++ F) as Hin. { apply (lo_all _ _ _ _ Hl). apply lookup_lt_Some in Hc. unfold blocks in Hc. by rewrite length_map in Hc. }
  apply elem_of_app in Hin as [Hin | Hin]; [| rewrite Forall_forall in HF; destruct (HF e Hin) as (c' & Hc' & Hv'); congruence].
  apply list_elem_of_split in Hin as (A & B & ->). pose proof HV as HV'. apply Forall2_app_inv_l in HV' as (RA & RB' & HA & HB & ->). inversion HB as [| x k' B0 RB Hk' HB0 E1 E2]; subst.
  assert (k' = (_tag c, _secure c)) as -> by (by apply (holds_one _ _ _ _ Hk')). exists A, B, RA, RB. split; [done |]. split; [done |]. split; [done |]. split; [done |].
  pose proof (lo_nodup _ _ _ _ Hl) as Hnd. apply NoDup_app in Hnd as (Hnd & _ & _). destruct (NoDup_mid A B e Hnd) as (HeA & HeB & _ & _).
  assert (forall X RX, Forall2 (holds_key (blocks (fl_blks f))) X RX -> e ∉ X -> (_tag c, _secure c) ∉ RX) as Hout.
  { intros X RX HX HeX Hin. apply list_elem_of_lookup_1 in Hin as [i Hi]. destruct (Forall2_lookup_r _ _ _ _ _ HX Hi) as (x & Hx & Hhx).
    apply (rs_hash _ _ _ _ _ Hf) in Hhx. rewrite He in Hhx. injection Hhx as <-. apply HeX. by apply list_elem_of_lookup_2 in Hx. }
  split; [by apply (Hout A) | by apply (Hout B)].
Qed.

Lemma key_absent n cap now R f V k : represents n cap now R f -> Forall2 (holds_key (blocks (fl_blks f))) V R -> tagHash f !! k = None -> k ∉ R.
Proof.
  intros Hf HV Hk Hin. apply list_elem_of_lookup_1 in Hin as [i Hi]. destruct (Forall2_lookup_r _ _ _ _ _ HV Hi) as (x & _ & Hx). apply (rs_hash _ _ _ _ _ Hf) in Hx. congruence.
Qed.

(** * The specification: a stack of keys *)

Definition drop_key (k : Z * bool) (R : list (Z * bool)) : list (Z * bool) := filter (fun x => x <> k) R.
Fixpoint position (k : Z * bool) (R : list (Z * bool)) : option nat :=
  match R with [] => None | x :: R => if decide (x = k) then Some 0%nat else S <$> position k R end.

Lemma drop_key_absent k R : k ∉ R -> drop_key k R = R.
Proof.
  intros H. unfold drop_key. induction R as [| x R IH]; [done |]. apply not_elem_of_cons in H as [Hx HR]. rewrite filter_cons_True by done. f_equal. by apply IH.
Qed.

Lemma drop_key_split k RA RB : k ∉ RA -> k ∉ RB -> drop_key k (RA ++ k :: RB) = RA ++ RB.
Proof.
  intros HA HB. unfold drop_key. rewrite filter_app, filter_cons_False by tauto. f_equal; by apply drop_key_absent.
Qed.

Lemma position_split k RA RB : k ∉ RA -> position k (RA ++ k :: RB) = Some (length RA).
Proof. induction RA as [| x RA IH]; intros H; cbn; [by rewrite decide_True |]. apply not_elem_of_cons in H as [Hx HR]. rewrite decide_False by done. by rewrite (IH HR). Qed.

Lemma position_absent k R : k ∉ R -> position k R = None.
Proof. induction R as [| x R IH]; intros H; cbn; [done |]. apply not_elem_of_cons in H as [Hx HR]. rewrite decide_False by done. by rewrite (IH HR). Qed.

Definition fa_frame (f f' : FALRU) : Prop := fl_blkSize f' = fl_blkSize f /\ fl_maxRequestors f' = fl_maxRequestors f /\ length (fl_blks f') = length (fl_blks f) /\
  minTrackedSize (cacheTracking f') = minTrackedSize (cacheTracking f).

Lemma recordAccess_keeps b c : minTrackedSize (recordAccess b c) = minTrackedSize c.
Proof. unfold recordAccess. destruct (record_loop _ _ _ _). destruct b as [b |]; [by destruct (_valid (fa_blk b)) | done]. Qed.

Lemma list_to_frame f f' : list_frame f f' -> fa_frame f f'.
Proof. intros (Hb & _ & H1 & H2 & _ & v & Hv). split; [done |]. split; [done |]. split; [by apply blocks_length | by rewrite Hv]. Qed.

(** A use of a block that is held. *)
Lemma access_hit n cap now R f pkt e : represents n cap now R f -> tagHash f !! (fa_extractTag (tp_addr pkt) f, tp_secure pkt) = Some e ->
  exists m p f', fa_accessBlock pkt f = Ok (Some e, fl_lookupLatency f, m, f') /\ position (fa_extractTag (tp_addr pkt) f, tp_secure pkt) R = Some p /\ mask_at n cap p m /\
    represents n cap now ((fa_extractTag (tp_addr pkt) f, tp_secure pkt) :: drop_key (fa_extractTag (tp_addr pkt) f, tp_secure pkt) R) f' /\ fa_frame f f'.
Proof.
  intros Hf He. set (k := (fa_extractTag (tp_addr pkt) f, tp_secure pkt)) in *. pose proof Hf as [(V & F & Hl & HV & HF) Hh Hnow Hbl].
  destruct (key_split _ _ _ _ _ _ _ _ _ Hf Hl HV HF He) as (A & B & RA & RB & -> & -> & HA & HB & HkA & HkB). pose proof He as (c & Hc & Hv & Hk)%Hh. destruct (block_node _ _ _ Hc) as (b & Hb & Eb).
  unfold fa_accessBlock. rewrite (findBlock_represents _ _ _ _ _ _ _ Hf). fold k. rewrite He. cbn [obind]. rewrite (node_ok (Some e) _ e b eq_refl Hb). cbn [obind]. rewrite Eb, Hv.
  rewrite <- app_assoc in Hl. cbn [app] in Hl. destruct (moveToHead_ok n cap A (B ++ F) e f Hl) as (f1 & -> & Hl1 & Hfr). cbn [obind]. pose proof Hfr as (Hbl1 & Hh1 & _ & _ & Hlat & _).
  destruct (linked_at _ _ _ _ e (lo_linked _ _ _ _ Hl1)) as [b1 Hb1]; [left |]. rewrite (node_ok (Some e) _ e b1 eq_refl Hb1). cbn [obind]. rewrite Hlat.
  eexists _, (length RA), _. split; [reflexivity |]. split; [by apply position_split |]. rewrite drop_key_split by done. split; [| split].
  - rewrite <- (Forall2_length _ _ _ HA). apply (lo_masks _ _ _ _ Hl (length A) e b); [by apply list_lookup_middle | done].
  - assert (list_ok n cap (e :: A ++ B ++ F) (set_tracking (recordAccess (Some b1) (cacheTracking f1)) f1)) as Hl2.
    { apply (list_ok_ext n cap _ f1); try done; unfold recordAccess; cbn [cacheTracking set_tracking set_list]; destruct (record_loop _ _ _ _); destruct (_valid (fa_blk b1)); done. }
    split; cbn [fl_blks set_tracking set_list tagHash]; rewrite ?Hbl1, ?Hh1; try done. exists (e :: A ++ B), F. cbn [app]. rewrite <- app_assoc. split; [done |]. split; [| done].
    constructor; [by apply Hh | by apply Forall2_app].
  - apply list_to_frame in Hfr as (E1 & E2 & E3 & E4). repeat split; try done. cbn [cacheTracking set_tracking set_list]. by rewrite recordAccess_keeps.
Qed.

Lemma access_miss n cap now R f pkt : represents n cap now R f -> tagHash f !! (fa_extractTag (tp_addr pkt) f, tp_secure pkt) = None ->
  exists f', fa_accessBlock pkt f = Ok (None, fl_lookupLatency f, 0, f') /\ position (fa_extractTag (tp_addr pkt) f, tp_secure pkt) R = None /\ represents n cap now R f' /\ fa_frame f f'.
Proof.
  intros Hf He. pose proof Hf as [(V & F & Hl & HV & HF) Hh Hnow Hbl]. unfold fa_accessBlock. rewrite (findBlock_represents _ _ _ _ _ _ _ Hf), He. cbn [obind]. eexists. split; [done |].
  split; [by apply position_absent, (key_absent _ _ _ _ _ _ _ Hf HV) |]. split; [| repeat split; cbn [cacheTracking set_tracking set_list]; by rewrite ?recordAccess_keeps]. split; try done. exists V, F. split; [| done].
  apply (list_ok_ext n cap _ f); try done; unfold recordAccess; cbn [cacheTracking set_tracking set_list]; by destruct (record_loop _ _ _ _).
Qed.

(** The contents of one block. *)
Lemma blocks_set bs e b c : bs !! e = Some b -> blocks (alter (set_fa_blk c) e bs) = <[e := c]> (blocks bs).
Proof.
  revert e. induction bs as [| x bs IH]; intros e H; [done |]. destruct e as [| e]; cbn; [done |]. f_equal. by apply IH.
Qed.

Lemma holds_set_ne cs e c x k : x <> e -> holds_key (<[e := c]> cs) x k <-> holds_key cs x k.
Proof. intros H. unfold holds_key. by rewrite list_lookup_insert_ne. Qed.

Lemma Forall2_holds_set cs e c V R : e ∉ V -> Forall2 (holds_key cs) V R -> Forall2 (holds_key (<[e := c]> cs)) V R.
Proof.
  intros He H. induction H as [| x k V R Hx HV IH]; constructor; apply not_elem_of_cons in He as [Hne He]; [by apply holds_set_ne | by apply IH].
Qed.

Lemma Forall_free_set cs e c F : e ∉ F -> Forall (free cs) F -> Forall (free (<[e := c]> cs)) F.
Proof.
  intros He H. rewrite Forall_forall in H |- *. intros x Hx. destruct (H x Hx) as (c' & Hc' & Hv). exists c'. split; [| done]. rewrite list_lookup_insert_ne; [done |]. by intros ->.
Qed.

Lemma invalidate_represents n cap now R f k e : represents n cap now R f -> tagHash f !! k = Some e ->
  exists f', fa_invalidate e f = Ok f' /\ represents n cap now (drop_key k R) f' /\ fa_frame f f' /\ tail f' = Some e /\ free (blocks (fl_blks f')) e.
Proof.
  intros Hf He. pose proof Hf as [(V & F & Hl & HV & HF) Hh Hnow Hbl]. destruct (key_split _ _ _ _ _ _ _ _ _ Hf Hl HV HF He) as (A & B & RA & RB & -> & -> & HA & HB & HkA & HkB).
  pose proof He as (c & Hc & Hv & Hk)%Hh. destruct (block_node _ _ _ Hc) as (b & Hb & Eb). destruct (Hbl e c Hc) as [Htick _].
  unfold fa_invalidate. rewrite (node_ok (Some e) _ e b eq_refl Hb). cbn [obind]. rewrite Eb, Hk. rewrite bool_decide_eq_true_2 by (by exists e). cbn [assert_ obind]. rewrite Hv. cbn [assert_ obind].
  destruct (blk_invalidate_ok c ltac:(lia)) as (c' & -> & Hv' & Hs' & Ht' & _). cbn [obind fl_blks set_tagHash]. rewrite (upd_ok (Some e) _ _ e b eq_refl Hb). cbn [obind].
  set (f1 := set_fl_stats _ _ _). assert (fl_blks f1 = alter (set_fa_blk c') e (fl_blks f)) as Hf1 by done.
  assert (list_ok n cap (A ++ e :: B ++ F) f1) as Hl1. { rewrite <- app_assoc in Hl. apply (list_ok_ext n cap _ f); try done. by apply links_alter. }
  destruct (moveToTail_ok n cap A (B ++ F) e f1 Hl1) as (f2 & E2 & Hl2 & Hfr). exists f2. split; [exact E2 |]. pose proof Hfr as (Hbl2 & Hh2 & _).
  assert (blocks (fl_blks f2) = <[e := c']> (blocks (fl_blks f))) as Hbs by (rewrite Hbl2, Hf1; by apply (blocks_set _ _ b)). pose proof (lookup_lt_Some _ _ _ Hc) as Hlt.
  destruct (NoDup_mid A (B ++ F) e) as (HeA & HeBF & _ & _); [rewrite <- app_assoc in Hl; apply (lo_nodup _ _ _ _ Hl) |]. apply not_elem_of_app in HeBF as [HeB HeF].
  assert (free (<[e := c']> (blocks (fl_blks f))) e) as Hfree by (exists c'; by rewrite list_lookup_insert_eq).
  assert (tail f2 = Some e) as Ht2 by (rewrite (lo_tail _ _ _ _ Hl2), app_assoc, last_or_snoc; done).
  split; [| split; [apply list_to_frame in Hfr as (E1 & E3 & E4 & E5); repeat split; [done | done | rewrite E4, Hf1; apply length_alter | done] | by rewrite Hbs]]. split; rewrite ?Hbs; try done.
  - exists (A ++ B), (F ++ [e]). rewrite drop_key_split by done. split; [rewrite <- !app_assoc in Hl2 |- *; exact Hl2 |]. split.
    + apply Forall2_holds_set; [by apply not_elem_of_app | by apply Forall2_app].
    + apply Forall_app. split; [by apply Forall_free_set | by apply Forall_singleton].
  - intros k' x. rewrite Hh2. cbn [tagHash set_fl_stats set_fl_blks set_list set_tagHash f1]. destruct (decide (k = k')) as [<- | Hne].
    + rewrite lookup_delete_eq. split; [done |]. intros Hx. destruct (decide (x = e)) as [-> | Hxe]; [destruct Hx as (y & Hy & Hvy & _); rewrite list_lookup_insert_eq in Hy by done; congruence |].
      apply holds_set_ne in Hx; [| done]. apply Hh in Hx. congruence.
    + rewrite lookup_delete_ne by done. destruct (decide (x = e)) as [-> | Hxe]; [| rewrite holds_set_ne by done; apply Hh]. split.
      * intros Hx. apply Hh in Hx, He. by apply (holds_one _ _ _ _ He) in Hx.
      * intros (y & Hy & Hvy & _). rewrite list_lookup_insert_eq in Hy by done. congruence.
  - intros x y Hy. apply list_lookup_insert_Some in Hy as [(<- & <- & _) | (_ & Hy)]; [split; [lia | done] | by apply (Hbl x)].
Qed.

Lemma insert_represents n cap now cur R f pkt e : represents n cap now R f -> now <= cur < 2 ^ 64 -> tp_requestorId pkt < fl_maxRequestors f ->
  tail f = Some e -> free (blocks (fl_blks f)) e -> tagHash f !! (fa_extractTag (tp_addr pkt) f, tp_secure pkt) = None ->
  exists f', fa_insertBlock cur pkt e f = Ok f' /\ represents n cap cur ((fa_extractTag (tp_addr pkt) f, tp_secure pkt) :: R) f' /\ fa_frame f f'.
Proof.
  intros Hf Hcur Hreq Ht (c & Hc & Hv) Hnew. set (k := (fa_extractTag (tp_addr pkt) f, tp_secure pkt)) in *. pose proof Hf as [(V & F & Hl & HV & HF) Hh Hnow Hbl].
  destruct (block_node _ _ _ Hc) as (b & Hb & Eb). destruct (Hbl e c Hc) as [_ Hsec]. specialize (Hsec Hv).
  assert (exists F', F = F' ++ [e]) as [F' ->].
  { pose proof (lo_tail _ _ _ _ Hl) as Hlt. rewrite Ht in Hlt. destruct (decide (F = [])) as [-> | HF0].
    - rewrite app_nil_r in Hlt. symmetry in Hlt. assert (V <> []) as HV0 by (intros ->; done). apply last_or_in in Hlt; [| done]. apply list_elem_of_lookup_1 in Hlt as [i Hi].
      destruct (Forall2_lookup_l _ _ _ _ _ HV Hi) as (k' & _ & c' & Hc' & Hv' & _). congruence.
    - destruct (exists_last HF0) as (F' & z & ->). exists F'. rewrite app_assoc, last_or_snoc in Hlt. congruence. }
  assert (inCachesMask b = 0) as Hm0.
  { destruct (lo_masks _ _ _ _ Hl (length (V ++ F')) e b) as [Hw Hbits]; [rewrite app_assoc; by apply list_lookup_middle | done |]. apply Z.bits_inj'. intros i Hi. rewrite <- (Z2Nat.id i), Hbits, Z.bits_0 by done.
    apply bool_decide_eq_false_2. intros [Hin Hlt]. pose proof (lo_cap _ _ _ _ Hl (Z.to_nat i) Hin) as Hcap. rewrite !length_app in *. cbn in Hcap. lia. }
  unfold fa_insertBlock. rewrite (node_ok (Some e) _ e b eq_refl Hb). cbn [obind]. rewrite Hm0, Z.eqb_refl. cbn [assert_ obind]. rewrite Eb, Hv. cbn [negb assert_ obind].
  destruct (Z.ltb_spec (tp_requestorId pkt) (fl_maxRequestors f)); [| lia]. cbn [assert_ obind]. unfold blk_insert, tagged_insert. rewrite Hv. cbn [negb assert_ obind]. set (c' := increaseRefCount _).
  assert ((_tag c', _secure c') = k) as Hk' by (unfold k, c'; cbn; rewrite Hsec; by destruct (tp_secure pkt)). rewrite (upd_ok (Some e) _ _ e b eq_refl Hb). cbn [obind].
  set (f1 := set_fl_stats _ _ _). assert (fl_blks f1 = alter (set_fa_blk c') e (fl_blks f)) as Hf1 by done.
  assert (list_ok n cap ((V ++ F') ++ e :: []) f1) as Hl1. { rewrite app_assoc in Hl. apply (list_ok_ext n cap _ f); try done. by apply links_alter. }
  destruct (moveToHead_ok n cap (V ++ F') [] e f1 Hl1) as (f2 & -> & Hl2 & Hfr). cbn [obind]. rewrite app_nil_r in Hl2. pose proof Hfr as (Hbl2 & Hh2 & _).
  assert (blocks (fl_blks f2) = <[e := c']> (blocks (fl_blks f))) as Hbs by (rewrite Hbl2, Hf1; by apply (blocks_set _ _ b)). pose proof (lookup_lt_Some _ _ _ Hc) as Hlt.
  assert (blocks (fl_blks f2) !! e = Some c') as Hc2 by (rewrite Hbs; by apply list_lookup_insert_eq). destruct (block_node _ _ _ Hc2) as (b2 & Hb2 & Eb2). rewrite (node_ok (Some e) _ e b2 eq_refl Hb2). cbn [obind]. rewrite Eb2, Hk'.
  eexists. split; [done |]. destruct (NoDup_mid (V ++ F') [] e (lo_nodup _ _ _ _ Hl1)) as (HeVF & _). apply not_elem_of_app in HeVF as [HeV HeF]. apply Forall_app in HF as [HF _].
  split; [| apply list_to_frame in Hfr as (E1 & E3 & E4 & E5); repeat split; [done | done | cbn [fl_blks set_tagHash]; rewrite E4, Hf1; apply length_alter | done]].
  split; cbn [fl_blks set_tagHash tagHash]; rewrite ?Hbs; [| | lia |].
  - exists (e :: V), F'. cbn [app]. split; [by apply (list_ok_ext n cap _ f2) |]. split; [| by apply Forall_free_set]. constructor; [| by apply Forall2_holds_set].
    exists c'. by rewrite list_lookup_insert_eq.
  - intros k' x. rewrite Hh2. cbn [tagHash set_fl_stats set_fl_blks set_list f1]. destruct (decide (k = k')) as [<- | Hne].
    + rewrite lookup_insert_eq. split; [intros [= <-]; exists c'; by rewrite list_lookup_insert_eq |]. intros Hx. destruct (decide (x = e)) as [-> | Hxe]; [done |].
      apply holds_set_ne in Hx; [| done]. apply Hh in Hx. congruence.
    + rewrite lookup_insert_ne by done. destruct (decide (x = e)) as [-> | Hxe]; [| rewrite holds_set_ne by done; apply Hh]. split.
      * intros Hx. apply Hh in Hx as (y & Hy & Hvy & _). congruence.
      * intros (y & Hy & _ & Hky). rewrite list_lookup_insert_eq in Hy by done. injection Hy as <-. congruence.
  - intros x y Hy. apply list_lookup_insert_Some in Hy as [(<- & <- & _) | (_ & Hy)]; [split; [cbn; lia | done] |]. destruct (Hbl x y Hy). split; [lia | done].
Qed.

(** * A new store *)

Lemma linked_init bs : linked (imap (link_of (length bs)) bs) None (seq 0 (length bs)) None.
Proof.
  assert (forall m i, (i + m = length bs)%nat -> linked (imap (link_of (length bs)) bs) (match i with O => None | S i => Some i end) (seq i m) None) as H; [| exact (H (length bs) 0%nat eq_refl)].
  induction m as [| m IH]; intros i Him; [done |]. cbn [seq linked]. split; [| apply (IH (S i)); lia].
  destruct (lookup_lt_is_Some_2 bs i) as [b Hb]; [lia |]. exists (link_of (length bs) i b). split; [by rewrite list_lookup_imap, Hb |]. split; [done |].
  cbn. destruct m as [| m]; [rewrite bool_decide_eq_true_2 by lia; done | rewrite bool_decide_eq_false_2 by lia; done].
Qed.

(** The loop of [init]: after the first [p] blocks, [j] caches are full. *)
Section initial.
Variables (nt N : nat) (cap : nat -> nat) (blk_size : Z).
Hypothesis Hnt : (nt <= 32)%nat.
Hypothesis Hcap : forall i, (i < nt)%nat -> (2 <= cap i < N)%nat.
Hypothesis Hlast : (N <= cap nt)%nat.
Hypothesis Hdouble : forall i, cap (S i) = (2 * cap i)%nat.
Hypothesis Hblk : 0 < blk_size.
Hypothesis Hwide : blk_size * Z.of_nat (cap nt) < 2 ^ 32.

Definition suffix_mask (j : nat) (m : Z) : Prop := in_width 32 m /\ forall i, Z.testbit m (Z.of_nat i) = bool_decide (j <= i < nt)%nat.

Lemma suffix_next j m : (j < nt)%nat -> suffix_mask j m -> suffix_mask (S j) (Z.land m (wnot 32 (cache_bit j))).
Proof.
  intros Hj [Hmw Hbits]. refine (conj (land_in_width_l 32 m _ _ Hmw) _); [lia |]. intros i. rewrite (clear_bit nt Hnt) by (done || lia). rewrite Hbits.
  destruct (decide (i = j)) as [-> |]; [symmetry; apply bool_decide_eq_false_2; lia | apply bool_decide_ext; lia].
Qed.

Lemma cap_mono i j : (i <= j)%nat -> (cap i <= cap j)%nat.
Proof. induction 1 as [| j Hij IH]; [done |]. rewrite Hdouble. lia. Qed.

Lemma init_loop_tracks fuel : forall p j bs bds m, (p <= N)%nat -> (N - p < fuel)%nat -> (j <= nt)%nat -> (p < cap j)%nat -> (forall i, (i < j)%nat -> (cap i <= p)%nat) -> suffix_mask j m ->
  length bs = N -> linked bs None (seq 0 N) None -> length bds = nt -> (forall i, (i < j)%nat -> bds !! i = Some (Some (cap i - 1)%nat)) ->
  (forall q b, (q < p)%nat -> bs !! q = Some b -> mask_at nt cap q (inCachesMask b)) ->
  exists bs' bds', init_tracking fuel blk_size (Some (pred N)) (if decide (p < N)%nat then Some p else None) (blk_size * Z.of_nat p) (blk_size * Z.of_nat (cap j)) m j bs bds = Ok (bs', bds') /\
    linked bs' None (seq 0 N) None /\ masks_ok nt cap bs' (seq 0 N) /\ bounds_ok nt cap bds' (seq 0 N) /\ blocks bs' = blocks bs.
Proof.
  induction fuel as [| fuel IH]; intros p j bs bds m HpN Hfuel Hj Hpj Hdone Hm Hlen Hl Hbds Hset Hmasks; [lia |]. destruct (decide (p < N)%nat) as [Hp | Hp].
  - assert (in_width 32 (blk_size * Z.of_nat (S p))) as Hw by (pose proof (cap_mono j nt Hj); split; nia).
    cbn [init_tracking]. destruct (lookup_lt_is_Some_2 bs p) as [b Hb]; [lia |]. rewrite (upd_ok (Some p) _ bs p b eq_refl Hb). cbn [obind].
    replace (u32 (blk_size * Z.of_nat p + blk_size)) with (blk_size * Z.of_nat (S p)) by (rewrite wrap_small; [lia | replace (blk_size * Z.of_nat p + blk_size) with (blk_size * Z.of_nat (S p)) by lia; done]).
    rewrite (node_ok (Some p) _ p (set_mask m b) eq_refl (alter_at _ p bs b Hb)). cbn [obind]. change (next (set_mask m b)) with (next b).
    destruct (linked_pos bs (seq 0 N) p p Hl) as (b0 & Hb0 & _ & Hnext); [rewrite lookup_seq_lt by lia; done |]. rewrite Hb in Hb0. injection Hb0 as <-.
    assert (next b = if decide (S p < N)%nat then Some (S p) else None) as Hn. { rewrite Hnext. destruct (decide (S p < N)%nat); [by rewrite lookup_seq_lt by lia | by rewrite lookup_seq_ge by lia]. }
    rewrite Hn. assert (linked (alter (set_mask m) p bs) None (seq 0 N) None) as Hl' by (by apply linked_mask).
    assert (forall q b', (q < S p)%nat -> alter (set_mask m) p bs !! q = Some b' -> mask_at nt cap q (inCachesMask b')) as Hmasks'.
    { intros q b' Hq Hb'. destruct (decide (q = p)) as [-> |]; [| rewrite list_lookup_alter_ne in Hb' by done; apply (Hmasks q); [lia | done]].
      rewrite (alter_at _ p bs b Hb) in Hb'. injection Hb' as <-. destruct Hm as [Hmw Hbits]. split; [done |]. intros i. cbn. rewrite Hbits. apply bool_decide_ext. split.
      - intros [Hji Hi]. split; [done |]. pose proof (cap_mono j i Hji). lia.
      - intros [Hi Hpi]. split; [| done]. destruct (decide (j <= i)%nat); [done |]. pose proof (Hdone i). lia. }
    assert (length (alter (set_mask m) p bs) = N) as Hlen' by (by rewrite length_alter).
    assert (blocks (alter (set_mask m) p bs) = blocks bs) as Hbl by (by apply blocks_alter).
    destruct (Z.eqb_spec (blk_size * Z.of_nat (S p)) (blk_size * Z.of_nat (cap j))) as [Heq | Hneq].
    + assert (S p = cap j) as Hpc by nia. case_bool_decide as Htl; cbn [andb].
      * assert (S p < N)%nat as HSp by (destruct (decide (S p = N)); [destruct Htl; f_equal; lia | lia]). assert (j < nt)%nat as Hjn by (destruct (decide (j < nt)%nat); [done | assert (j = nt) as -> by lia; lia]).
        rewrite bool_decide_eq_false_2 by lia. replace (u32 (Z.shiftl (blk_size * Z.of_nat (cap j)) 1)) with (blk_size * Z.of_nat (cap (S j))).
        2: { rewrite Z.shiftl_mul_pow2 by lia. rewrite Hdouble. rewrite wrap_small; [lia |]. pose proof (cap_mono (S j) nt ltac:(lia)) as Hmo. rewrite Hdouble in Hmo. split; nia. }
        destruct (IH (S p) (S j) (alter (set_mask m) p bs) (<[j := Some p]> bds) (Z.land m (wnot 32 (cache_bit j)))) as (bs' & bds' & -> & H1 & H2 & H3 & H4); try done; try lia.
        -- rewrite Hdouble. pose proof (Hcap j Hjn). lia.
        -- intros i Hi. destruct (decide (i = j)) as [-> |]; [lia |]. pose proof (Hdone i). lia.
        -- by apply suffix_next.
        -- by rewrite length_insert.
        -- intros i Hi. destruct (decide (i = j)) as [-> |]; [rewrite list_lookup_insert_eq by lia; do 2 f_equal; lia | rewrite list_lookup_insert_ne by done; apply Hset; lia].
        -- exists bs', bds'. by rewrite H4.
      * assert (p = pred N) as -> by congruence. rewrite decide_False by lia.
        assert (j = nt) as -> by (destruct (decide (j < nt)%nat) as [Hjn |]; [pose proof (Hcap j Hjn); lia | lia]).
        exists (alter (set_mask m) (pred N) bs), bds. split; [by destruct fuel |]. split; [done |]. split; [| split; [| done]].
        -- intros q x b' Hq Hx. apply lookup_seq in Hq as [-> Hq]. apply (Hmasks' q); [lia | done].
        -- split; [done |]. intros i Hi. rewrite (Hset i Hi). pose proof (Hcap i Hi). by rewrite lookup_seq_lt by lia.
    + cbn [andb]. destruct (IH (S p) j (alter (set_mask m) p bs) bds m) as (bs' & bds' & -> & H1 & H2 & H3 & H4); try done; try lia.
      * assert (S p <> cap j) by nia. lia.
      * intros i Hi. pose proof (Hdone i). lia.
      * exists bs', bds'. by rewrite H4.
  - assert (p = N) as -> by lia. exists bs, bds. split; [done |]. split; [done |]. split; [| split; [| done]].
    + intros q x b' Hq Hx. apply lookup_seq in Hq as [-> Hq]. apply (Hmasks q); [lia | done].
    + assert (j = nt) as -> by (destruct (decide (j < nt)%nat) as [Hjn |]; [pose proof (Hcap j Hjn); lia | lia]). split; [done |]. intros i Hi. rewrite (Hset i Hi). pose proof (Hcap i Hi). by rewrite lookup_seq_lt by lia.
Qed.
(** The check of a debugging build passes on a list that is tracked right. *)
Lemma suffix_at p j m b : (forall i, (i < j)%nat -> (cap i <= p)%nat) -> (p < cap j)%nat -> suffix_mask j m -> mask_at nt cap p b -> b = m.
Proof.
  intros Hdone Hpj [Hmw Hmb] [Hbw Hbb]. apply Z.bits_inj'. intros i Hi. replace i with (Z.of_nat (Z.to_nat i)) by lia. rewrite Hmb, Hbb. apply bool_decide_ext. split.
  - intros [Hin Hp]. split; [| done]. destruct (decide (j <= Z.to_nat i)%nat); [done |]. pose proof (Hdone (Z.to_nat i)). lia.
  - intros [Hji Hin]. split; [done |]. pose proof (cap_mono j _ Hji). lia.
Qed.

Lemma check_loop_passes bs bds L fuel : NoDup L -> length L = N -> linked bs None L None -> masks_ok nt cap bs L -> bounds_ok nt cap bds L ->
  forall p j m, (p <= N)%nat -> (N - p < fuel)%nat -> (j <= nt)%nat -> (p < cap j)%nat -> (forall i, (i < j)%nat -> (cap i <= p)%nat) -> suffix_mask j m ->
  check_tracking fuel blk_size (last_or None L) (L !! p) (blk_size * Z.of_nat p) (blk_size * Z.of_nat (cap j)) m j bs bds = Ok tt.
Proof.
  intros Hnd Hlen Hl Hm [Hbl Hb]. induction fuel as [| fuel IH]; intros p j m HpN Hfuel Hj Hpj Hdone Hsm; [lia |]. destruct (L !! p) as [x |] eqn:Ex; [| done]. pose proof (lookup_lt_Some _ _ _ Ex) as Hp.
  destruct (linked_pos bs L p x Hl Ex) as (b & Hbx & _ & Hnext). cbn [check_tracking]. rewrite (node_ok (Some x) _ x b eq_refl Hbx). cbn [obind].
  rewrite (suffix_at p j m _ Hdone Hpj Hsm (Hm p x b Ex Hbx)), Z.eqb_refl. cbn [negb panic_if obind]. rewrite Hnext.
  assert (blk_size * Z.of_nat p + blk_size = blk_size * Z.of_nat (S p)) as -> by lia. rewrite (wrap_small 32) by (pose proof (cap_mono j nt Hj); split; nia).
  assert (last_or None L = L !! pred N) as Hlast' by (unfold last_or; rewrite <- Hlen, <- last_lookup; by destruct (last L)).
  destruct (Z.eqb_spec (blk_size * Z.of_nat (S p)) (blk_size * Z.of_nat (cap j))) as [Heq | Hneq]; cbn [andb].
  - assert (S p = cap j) as Hpc by nia. case_bool_decide as Htl.
    + assert (S p < N)%nat as HSp. { destruct (decide (S p = N)) as [E |]; [| lia]. destruct Htl. rewrite Hlast', <- E. cbn. by rewrite Ex. }
      assert (j < nt)%nat as Hjn by (destruct (decide (j < nt)%nat); [done | assert (j = nt) as -> by lia; lia]). unfold boundary. rewrite (Hb j Hjn). cbn [obind].
      replace (cap j - 1)%nat with p by lia. rewrite Ex, bool_decide_eq_true_2 by done. cbn [negb panic_if obind].
      replace (u32 (Z.shiftl (blk_size * Z.of_nat (cap j)) 1)) with (blk_size * Z.of_nat (cap (S j))).
      2: { rewrite Z.shiftl_mul_pow2 by lia. rewrite Hdouble. rewrite wrap_small; [lia |]. pose proof (cap_mono (S j) nt ltac:(lia)) as Hmo. rewrite Hdouble in Hmo. split; nia. }
      apply IH; try lia; [rewrite Hdouble; pose proof (Hcap j Hjn); lia | |].
      * intros i Hi. destruct (decide (i = j)) as [-> |]; [lia |]. pose proof (Hdone i). lia.
      * by apply suffix_next.
    + rewrite Hlast' in Htl. assert (p = pred N) as -> by (apply (NoDup_lookup L p (pred N) x Hnd Ex); by rewrite <- Htl). rewrite lookup_ge_None_2 by lia. by destruct fuel.
  - apply IH; try lia; [| intros i Hi; pose proof (Hdone i); lia | done]. assert (S p <> cap j) by nia. lia.
Qed.
End initial.

(** The caches that are tracked: how many, and how many blocks each of them holds. *)
Definition tracked_caches (min_size max_size : Z) : nat := if min_size <? max_size then Z.to_nat (Z.log2 max_size - Z.log2 min_size) else 0%nat.
Definition tracked_blocks (c0 i : nat) : nat := (c0 * 2 ^ i)%nat.

Lemma tracked_double c0 i : tracked_blocks c0 (S i) = (2 * tracked_blocks c0 i)%nat.
Proof. unfold tracked_blocks. cbn [Nat.pow]. lia. Qed.

Lemma tracked_Z c0 i : Z.of_nat (tracked_blocks c0 i) = Z.of_nat c0 * 2 ^ Z.of_nat i.
Proof. unfold tracked_blocks. by rewrite Nat2Z.inj_mul, Nat2Z.inj_pow. Qed.

(** The sizes double from the smallest cache on, up to the first that is not smaller than the store. *)
Lemma tracked_fit blk s k c0 : blk = 2 ^ k -> 0 <= k <= s -> s < 32 -> (2 <= c0)%nat ->
  (tracked_caches (blk * Z.of_nat c0) (2 ^ s) <= 32)%nat /\ (forall i, (i < tracked_caches (blk * Z.of_nat c0) (2 ^ s))%nat -> (2 <= tracked_blocks c0 i < Z.to_nat (2 ^ s / blk))%nat) /\
  (Z.to_nat (2 ^ s / blk) <= tracked_blocks c0 (tracked_caches (blk * Z.of_nat c0) (2 ^ s)))%nat /\
  ((0 < tracked_caches (blk * Z.of_nat c0) (2 ^ s))%nat -> blk * Z.of_nat (tracked_blocks c0 (tracked_caches (blk * Z.of_nat c0) (2 ^ s))) < 2 ^ 32).
Proof.
  intros -> Hk Hs Hc. assert (0 < 2 ^ k) as Hpk by (apply Z.pow_pos_nonneg; lia). replace (2 ^ s / 2 ^ k) with (2 ^ (s - k)) by (rewrite Z.pow_sub_r; lia).
  assert (2 ^ s = 2 ^ k * 2 ^ (s - k)) as Hsz by (rewrite <- Z.pow_add_r by lia; f_equal; lia). assert (0 < 2 ^ (s - k)) as Hpn by (apply Z.pow_pos_nonneg; lia).
  unfold tracked_caches. destruct (Z.ltb_spec (2 ^ k * Z.of_nat c0) (2 ^ s)) as [Hlt | Hge].
  2: { split; [lia |]. split; [lia |]. split; [| lia]. apply Nat2Z.inj_le. rewrite tracked_Z, Z2Nat.id by lia. cbn. nia. }
  rewrite Z.log2_pow2 by lia. set (m := 2 ^ k * Z.of_nat c0) in *. assert (0 < m) as Hm by (unfold m; nia). destruct (Z.log2_spec m Hm) as [Hlo Hhi]. pose proof (Z.log2_nonneg m) as Hnn.
  assert (Z.log2 m < s) as Hls by (apply Z.log2_lt_pow2; lia). set (nt := Z.to_nat (s - Z.log2 m)). assert (Z.of_nat nt = s - Z.log2 m) as Hnt by lia. split; [lia |].
  assert (forall i, 0 <= i -> 2 ^ (Z.log2 m + i) <= m * 2 ^ i < 2 ^ (Z.log2 m + 1 + i)) as Hb.
  { intros i Hi. rewrite !Z.pow_add_r in * by lia. assert (0 < 2 ^ i) by (apply Z.pow_pos_nonneg; lia). unfold Z.succ in Hhi. rewrite Z.pow_add_r in Hhi by lia. nia. }
  split; [| split].
  - intros i Hi. assert (0 < 2 ^ Z.of_nat i) by (apply Z.pow_pos_nonneg; lia). assert (Z.of_nat (tracked_blocks c0 i) = Z.of_nat c0 * 2 ^ Z.of_nat i) as Et by apply tracked_Z. split; [nia |].
    apply Nat2Z.inj_lt. rewrite Et, Z2Nat.id by lia. destruct (Hb (Z.of_nat i) ltac:(lia)) as [_ Hub]. assert (2 ^ (Z.log2 m + 1 + Z.of_nat i) <= 2 ^ s) by (apply Z.pow_le_mono_r; lia). unfold m in Hub at 1. nia.
  - apply Nat2Z.inj_le. rewrite tracked_Z, Z2Nat.id, Hnt by lia. destruct (Hb (s - Z.log2 m) ltac:(lia)) as [Hlb _]. replace (Z.log2 m + (s - Z.log2 m)) with s in Hlb by lia. unfold m in Hlb at 1. nia.
  - intros _. rewrite tracked_Z, Hnt. destruct (Hb (s - Z.log2 m) ltac:(lia)) as [_ Hub]. replace (Z.log2 m + 1 + (s - Z.log2 m)) with (s + 1) in Hub by lia. assert (2 ^ (s + 1) <= 2 ^ 32) by (apply Z.pow_le_mono_r; lia). unfold m in Hub at 1. nia.
Qed.

Lemma in_all_mask n : (n <= 32)%nat -> forall cap, (forall i, (i < n)%nat -> (2 <= cap i)%nat) -> mask_at n cap 0 (u32 (BitField.mask (Z.of_nat n))).
Proof.
  intros Hn cap Hcap. split; [apply wrap_range; lia |]. intros i. rewrite wrap_testbit, mask_testbit by lia.
  destruct (decide (i < n)%nat) as [Hi |]; [rewrite bool_decide_eq_true_2 by (pose proof (Hcap i Hi); lia) | rewrite bool_decide_eq_false_2 by lia]; destruct (Z.ltb_spec (Z.of_nat i) 32), (Z.ltb_spec (Z.of_nat i) (Z.of_nat n)), (Z.ltb_spec (Z.of_nat i) 64); cbn; done || lia.
Qed.

Lemma mask_all_suffix n cap m : mask_at n cap 0 m -> (forall i, (i < n)%nat -> (2 <= cap i)%nat) -> suffix_mask n 0 m.
Proof. intros [Hw Hb] Hcap. split; [done |]. intros i. rewrite Hb. apply bool_decide_ext. split; [lia |]. intros [_ Hi]. pose proof (Hcap i Hi). lia. Qed.

(** The links and the tracked caches after [tagsInit], for blocks that hold nothing. *)
Lemma tagsInit_list n cap f : (2 <= length (fl_blks f))%nat -> (n <= 32)%nat -> (forall i, (i < n)%nat -> (2 <= cap i < length (fl_blks f))%nat) -> (length (fl_blks f) <= cap n)%nat -> (forall i, cap (S i) = (2 * cap i)%nat) ->
  0 < fl_blkSize f -> ((0 < n)%nat -> fl_blkSize f * Z.of_nat (cap n) < 2 ^ 32) -> minTrackedSize (cacheTracking f) = fl_blkSize f * Z.of_nat (cap 0%nat) -> numTrackedCaches (cacheTracking f) = n ->
  mask_at n cap 0 (inAllCachesMask (cacheTracking f)) -> length (boundaries (cacheTracking f)) = n -> (forall x b, fl_blks f !! x = Some b -> inCachesMask b = 0) ->
  exists f', fa_tagsInit f = Ok f' /\ list_ok n cap (seq 0 (length (fl_blks f))) f' /\ list_frame f f'.
Proof.
  intros HN Hn Hcap Hlast Hdouble Hblk Hwide Hmin Hnt Hin Hbds Hzero. unfold fa_tagsInit. set (N := length (fl_blks f)) in *. rewrite bool_decide_eq_false_2 by lia. rewrite Hnt, Hmin.
  set (bs := imap (link_of N) (fl_blks f)). assert (length bs = N) as Hlen by apply length_imap. assert (linked bs None (seq 0 N) None) as Hl by apply linked_init.
  assert (blocks bs = blocks (fl_blks f)) as Hbl. { unfold blocks. apply list_eq. intros i. rewrite !list_lookup_fmap. unfold bs. rewrite list_lookup_imap. by destruct (fl_blks f !! i). }
  assert (exists bs' bds', init_tracking (S N) (fl_blkSize f) (Some (pred N)) (match n with O => None | _ => Some 0%nat end) 0 (fl_blkSize f * Z.of_nat (cap 0%nat)) (inAllCachesMask (cacheTracking f)) 0 bs (boundaries (cacheTracking f)) = Ok (bs', bds') /\
    linked bs' None (seq 0 N) None /\ masks_ok n cap bs' (seq 0 N) /\ bounds_ok n cap bds' (seq 0 N) /\ blocks bs' = blocks bs) as (bs' & bds' & -> & Hl' & Hm' & Hb' & Hbl').
  { destruct n as [| n].
    - exists bs, (boundaries (cacheTracking f)). split; [done |]. split; [done |]. split; [| split; [split; [done | lia] | done]]. intros p x b _ Hx. unfold bs in Hx. rewrite list_lookup_imap in Hx.
      destruct (fl_blks f !! x) as [b0 |] eqn:E; [| done]. injection Hx as <-. cbn. rewrite (Hzero x b0 E). split; [done |]. intros i. rewrite Z.bits_0. symmetry. apply bool_decide_eq_false_2. lia.
    - destruct (init_loop_tracks (S n) N cap (fl_blkSize f) Hn Hcap Hlast Hdouble Hblk (Hwide ltac:(lia)) (S N) 0 0 bs (boundaries (cacheTracking f)) (inAllCachesMask (cacheTracking f))) as (bs' & bds' & E & H); try done; try lia.
      + pose proof (Hcap 0%nat ltac:(lia)). lia.
      + apply (mask_all_suffix _ cap); [done |]. intros i Hi. by apply Hcap.
      + exists bs', bds'. rewrite Z.mul_0_r, decide_True in E by lia. by split. }
  cbn [obind]. eexists. split; [done |]. split; [| split; [exact (eq_trans Hbl' Hbl) |]; repeat split; try done; by eexists].
  assert (length bs' = N) as Hlen' by (apply (f_equal length) in Hbl'; unfold blocks in Hbl'; by rewrite !length_map, Hlen in Hbl').
  assert (length (seq 0 N) = N) as Hsn by apply length_seq. split; cbn; rewrite ?Hlen', ?Hsn; try done.
  - apply NoDup_seq.
  - intros x. rewrite elem_of_seq. lia.
  - destruct N; [lia | done].
  - destruct N as [| N']; [lia |]. rewrite seq_S, last_or_snoc. done.
Qed.

Lemma new_represents size blk c0 lat maxReq bound garbage f0 : new_FALRU size blk (blk * Z.of_nat c0) lat maxReq bound garbage = Ok f0 -> in_width 32 size -> 0 <= blk -> 2 * blk <= size -> (2 <= c0)%nat ->
  blk * Z.of_nat c0 < 2 ^ 32 -> (Z.to_nat (size / blk) <= length garbage)%nat ->
  exists k s f, fa_tagsInit f0 = Ok f /\ represents (tracked_caches (blk * Z.of_nat c0) size) (tracked_blocks c0) 0 [] f /\ minTrackedSize (cacheTracking f) = blk * Z.of_nat c0 /\ fl_blkSize f = blk /\ fl_maxRequestors f = maxReq /\ length (fl_blks f) = Z.to_nat (size / blk) /\ blk = 2 ^ k /\ size = 2 ^ s /\ 0 <= k < s /\ s < 32.
Proof.
  intros Hnew Hsize Hblk Htwo Hc Hmin Hg. unfold new_FALRU in Hnew. destruct (Z.eqb_spec blk 0) as [| Hb0]; [done |]. unfold in_width in Hsize.
  destruct (new_CacheTracking (blk * Z.of_nat c0) size) as [c | ] eqn:Ec; [| done]. cbn [obind] in Hnew.
  destruct (isPowerOf2 blk) eqn:Epb; [| done]. destruct (isPowerOf2 size) eqn:Eps; [| done]. cbn [negb fatal_if obind] in Hnew.
  apply isPowerOf2_spec in Epb as (k & Hk & Eblk); [| unfold in_width; lia]. apply isPowerOf2_spec in Eps as (s & Hs & Esz); [| unfold in_width; lia].
  assert (s < 32) as Hs32. { destruct (Z.lt_ge_cases s 32); [done |]. pose proof (Z.pow_le_mono_r 2 32 s). lia. }
  assert (k < s) as Hks. { destruct (Z.lt_ge_cases k s); [done |]. pose proof (Z.pow_le_mono_r 2 s k). lia. }
  destruct (tracked_fit blk s k c0 Eblk ltac:(lia) Hs32 Hc) as (Hn & Hcap & Hlast & Hwide). rewrite <- Esz in Hn, Hcap, Hlast, Hwide. set (n := tracked_caches (blk * Z.of_nat c0) size) in *.
  assert (2 <= size / blk) as HN by (apply Z.div_le_lower_bound; lia).
  assert (c = mkCacheTracking (blk * Z.of_nat c0) n (u32 (BitField.mask (Z.of_nat n))) (replicate n None) (replicate (S n) 0) (replicate (S n) 0) 0) as ->.
  { unfold new_CacheTracking in Ec. unfold n, tracked_caches in *. clear Hcap Hlast Hwide. destruct (Z.ltb_spec (blk * Z.of_nat c0) size) as [Hlt |]; [| injection Ec as <-; done].
    rewrite !floorLog2_log2 in Ec by (unfold in_width; nia). cbn [obind] in Ec. destruct (32 <? _); [done |]. cbn [fatal_if obind] in Ec. injection Ec as <-.
    pose proof (Z.log2_le_mono (blk * Z.of_nat c0) size ltac:(lia)). rewrite Z2Nat.id by lia. done. }
  destruct (new_blks_ok (take (Z.to_nat (size / blk)) garbage)) as (cs & Ecs & Hcs & Hfree). rewrite Ecs in Hnew. cbn [obind] in Hnew. injection Hnew as <-. rewrite length_take, Nat.min_l in Hcs by lia.
  set (f0 := mkFALRU _ _ _ _ _ _ _ _ _ _ _). assert (length (fl_blks f0) = Z.to_nat (size / blk)) as Hlen by (cbn; by rewrite length_map).
  assert (blocks (fl_blks f0) = cs) as Hbl by (cbn; unfold blocks; rewrite map_map; apply map_id).
  destruct (tagsInit_list n (tracked_blocks c0) f0) as (f & Ef & Hl & Hfr); rewrite ?Hlen; try done; try lia.
  - apply tracked_double.
  - cbn. lia.
  - cbn. rewrite tracked_Z. cbn. lia.
  - apply in_all_mask; [done |]. intros i Hi. by apply Hcap.
  - cbn. apply length_replicate.
  - intros x b Hb. cbn in Hb. rewrite list_lookup_fmap in Hb. destruct (cs !! x); [| done]. injection Hb as <-. done.
  - exists k, s, f. split; [done |]. pose proof Hfr as (Hbf & Hhf & Hsf & Hrf & _ & v & Hv). rewrite Hbl in Hbf. split; [| split; [by rewrite Hv |]; split; [done |]; split; [done |]; split; [| repeat split; (done || lia)]].
    + split; rewrite ?Hbf, ?Hhf; [| | done |].
      * exists [], (seq 0 (length (fl_blks f0))). split; [done |]. split; [constructor |]. rewrite Forall_forall. intros x Hx. apply elem_of_seq in Hx. rewrite Hlen, <- Hcs in Hx.
        destruct (lookup_lt_is_Some_2 cs x) as [b Hb]; [lia |]. exists b. split; [done |]. by apply (Hfree x).
      * intros k0 e. cbn. rewrite lookup_empty. split; [done |]. intros (b & Hb & Hvb & _). apply Hfree in Hb as [Hb _]. congruence.
      * intros e b Hb. apply Hfree in Hb as (_ & -> & ->). split; [lia | done].
    + apply (f_equal length) in Hbf. unfold blocks in Hbf. rewrite length_map in Hbf. lia.
Qed.

(** * Histories *)

(** What a cache does with its tags: look up a block, bring a block in when it is not there,
    and give a block up.  The answers are whether the block was there and, for a lookup, the
    mask of the tracked caches. *)
Inductive fa_op : Type :=
  | FaAccess (pkt : TagPkt)
  | FaFill (pkt : TagPkt)
  | FaEvict (a : Z) (sec : bool).

Definition fa_make_room (f : FALRU) : outcome (nat * FALRU) :=
  match fst (fa_findVictim f) with
  | None => Err Undefined
  | Some e => let! b := node (Some e) (fl_blks f) in let! f := (if _valid (fa_blk b) then fa_invalidate e f else Ok f) in Ok (e, f)
  end.

Definition fa_step (cur : Z) (o : fa_op) (f : FALRU) : outcome (bool * Z * FALRU) :=
  match o with
  | FaAccess pkt => let! (r, _, m, f) := fa_accessBlock pkt f in Ok (bool_decide (is_Some r), m, f)
  | FaFill pkt =>
      let! r := fa_findBlock (tp_addr pkt) (tp_secure pkt) f in
      match r with
      | Some _ => Ok (true, 0, f)
      | None => let! (e, f) := fa_make_room f in let! f := fa_insertBlock cur pkt e f in Ok (false, 0, f)
      end
  | FaEvict a sec =>
      let! r := fa_findBlock a sec f in
      match r with Some e => let! f := fa_invalidate e f in Ok (true, 0, f) | None => Ok (false, 0, f) end
  end.

Fixpoint fa_run (os : list (Z * fa_op)) (f : FALRU) : outcome (list (bool * Z) * FALRU) :=
  match os with
  | [] => Ok ([], f)
  | (cur, o) :: os => let! (r, m, f) := fa_step cur o f in let! (rs, f) := fa_run os f in Ok ((r, m) :: rs, f)
  end.

(** The specification: the keys that are held, the last used first, and never more than [N].
    A fill drops the key that was used least recently when there is no room. *)
Definition fa_op_key (n : Z) (o : fa_op) : Z * bool :=
  match o with FaAccess pkt | FaFill pkt => key_of n (tp_addr pkt) (tp_secure pkt) | FaEvict a sec => key_of n a sec end.
Definition stack_next (N : nat) (n : Z) (o : fa_op) (R : list (Z * bool)) : list (Z * bool) :=
  let k := fa_op_key n o in
  match o with
  | FaAccess _ => if bool_decide (k ∈ R) then k :: drop_key k R else R
  | FaFill _ => if bool_decide (k ∈ R) then R else k :: take (pred N) R
  | FaEvict _ _ => drop_key k R
  end.
(** The bits of the tracked caches whose size would have kept the key. *)
Definition stack_mask (nt : nat) (cap : nat -> nat) (k : Z * bool) (R : list (Z * bool)) (m : Z) : Prop :=
  in_width 32 m /\ forall i, Z.testbit m (Z.of_nat i) = bool_decide ((i < nt)%nat /\ k ∈ take (cap i) R).
Definition stack_answer (nt : nat) (cap : nat -> nat) (n : Z) (o : fa_op) (R : list (Z * bool)) (r : bool * Z) : Prop :=
  fst r = bool_decide (fa_op_key n o ∈ R) /\ match o with FaAccess _ => stack_mask nt cap (fa_op_key n o) R (snd r) | _ => snd r = 0 end.

Inductive stack_run (N nt : nat) (cap : nat -> nat) (n : Z) : list (Z * bool) -> list (Z * fa_op) -> list (bool * Z) -> list (Z * bool) -> Prop :=
  | stack_done R : stack_run N nt cap n R [] [] R
  | stack_more R cur o os r rs R' : stack_answer nt cap n o R r -> stack_run N nt cap n (stack_next N n o R) os rs R' -> stack_run N nt cap n R ((cur, o) :: os) (r :: rs) R'.

Definition fa_op_ok (maxReq : Z) (o : fa_op) : Prop :=
  match o with FaAccess pkt => in_width 64 (tp_addr pkt) | FaFill pkt => in_width 64 (tp_addr pkt) /\ tp_requestorId pkt < maxReq | FaEvict a _ => in_width 64 a end.
Fixpoint fa_ops_ok (maxReq now : Z) (os : list (Z * fa_op)) : Prop :=
  match os with [] => True | (cur, o) :: os => now <= cur < 2 ^ 64 /\ fa_op_ok maxReq o /\ fa_ops_ok maxReq cur os end.

Lemma extractTag_key n a sec f : fl_blkSize f = 2 ^ n -> 0 <= n < 64 -> in_width 64 a -> (fa_extractTag a f, sec) = key_of n a sec.
Proof. intros Hb Hn Ha. unfold fa_extractTag, key_of. rewrite Hb, land_align_mask by done. f_equal. pose proof (Z.div_mod a (2 ^ n)). lia. Qed.

Lemma represents_later nt cap now cur R f : represents nt cap now R f -> now <= cur < 2 ^ 64 -> represents nt cap cur R f.
Proof. intros [H1 H2 H3 H4] Hc. split; try done; [lia |]. intros e c Hec. destruct (H4 e c Hec). split; [lia | done]. Qed.

Lemma represents_in nt cap now R f k : represents nt cap now R f -> k ∈ R <-> is_Some (tagHash f !! k).
Proof.
  intros Hf. pose proof Hf as [(V & F & Hl & HV & HF) Hh _ _]. split.
  - intros Hin. destruct (tagHash f !! k) eqn:E; [by eexists |]. by apply (key_absent _ _ _ _ _ _ _ Hf HV) in E.
  - intros [e He]. destruct (key_split _ _ _ _ _ _ _ _ _ Hf Hl HV HF He) as (A & B & RA & RB & _ & -> & _). apply elem_of_app. right. left.
Qed.

Lemma list_ok_length nt cap L f : list_ok nt cap L f -> length L = length (fl_blks f).
Proof.
  intros Hl. rewrite <- (length_seq (length (fl_blks f)) 0). apply Permutation_length, NoDup_Permutation; [apply (lo_nodup _ _ _ _ Hl) | apply NoDup_seq |].
  intros x. rewrite (lo_all _ _ _ _ Hl x), elem_of_seq. lia.
Qed.

(** Which caches hold the key at position [p]. *)
Lemma position_take k R p c : position k R = Some p -> k ∈ take c R <-> (p < c)%nat.
Proof.
  revert p c. induction R as [| x R IH]; intros p c; [done |]. cbn. destruct (decide (x = k)) as [-> | Hne].
  - intros [= <-]. destruct c as [| c]; cbn; [split; [by intros ?%elem_of_nil | lia] | split; [lia | intros _; left]].
  - destruct (position k R) as [q |]; [| done]. intros [= <-]. destruct c as [| c]; cbn; [split; [by intros ?%elem_of_nil | lia] |]. rewrite elem_of_cons, (IH q c eq_refl). split; [intros [-> |]; [done | lia] | intros; right; lia].
Qed.

Lemma mask_stack nt cap k R p m : position k R = Some p -> mask_at nt cap p m -> stack_mask nt cap k R m.
Proof. intros Hp [Hw Hb]. split; [done |]. intros i. rewrite Hb. apply bool_decide_ext. by rewrite (position_take k R p (cap i) Hp). Qed.

Lemma mask_stack_none nt cap k R : k ∉ R -> stack_mask nt cap k R 0.
Proof. intros Hk. split; [done |]. intros i. rewrite Z.bits_0. symmetry. apply bool_decide_eq_false_2. intros [_ Hin]. apply Hk. apply list_elem_of_lookup_1 in Hin as [j Hj]. apply lookup_take_Some in Hj as [Hj _]. by apply list_elem_of_lookup_2 in Hj. Qed.

Lemma last_key_new cs V e R k : NoDup (V ++ [e]) -> Forall2 (holds_key cs) V R -> holds_key cs e k -> (forall k e e', holds_key cs e k -> holds_key cs e' k -> e = e') -> k ∉ R.
Proof.
  intros Hnd HV He Hone Hin. apply list_elem_of_lookup_1 in Hin as [i Hi]. destruct (Forall2_lookup_r _ _ _ _ _ HV Hi) as (x & Hx & Hhx). rewrite (Hone k x e Hhx He) in Hx.
  apply list_elem_of_lookup_2 in Hx. apply NoDup_app in Hnd as (_ & Hd & _). apply (Hd e Hx). left.
Qed.

Lemma make_room_ok nt cap now R f : represents nt cap now R f -> exists e f', fa_make_room f = Ok (e, f') /\ represents nt cap now (take (pred (length (fl_blks f))) R) f' /\ fa_frame f f' /\
  tail f' = Some e /\ free (blocks (fl_blks f')) e.
Proof.
  intros Hf. pose proof Hf as [(V & F & Hl & HV & HF) Hh Hnow Hbl]. pose proof (list_ok_length _ _ _ _ Hl) as Hlen. rewrite length_app, (Forall2_length _ _ _ HV) in Hlen. pose proof (lo_tail _ _ _ _ Hl) as Ht.
  unfold fa_make_room, fa_findVictim. cbn [fst]. destruct F as [| e F _] using rev_ind.
  - rewrite app_nil_r in *. assert (V <> []) as HV0 by (intros ->; pose proof (lo_long _ _ _ _ Hl); cbn in *; lia). destruct (exists_last HV0) as (V' & e & ->). rewrite last_or_snoc in Ht. rewrite Ht.
    pose proof HV as HV'. apply Forall2_app_inv_l in HV' as (R' & R2 & HV' & H2 & ->). inversion H2 as [| x k B0 RB Hk HB0 E1 E2]; subst. inversion HB0; subst. pose proof Hk as (c & Hc & Hv & Hck). destruct (block_node _ _ _ Hc) as (b & Hb & Eb).
    rewrite (node_ok (Some e) _ e b eq_refl Hb). cbn [obind]. rewrite Eb, Hv. destruct (invalidate_represents _ _ _ _ _ k e Hf (proj2 (Hh k e) Hk)) as (f' & -> & Hf' & Hfr & Htl & Hfree). cbn [obind].
    exists e, f'. split; [done |]. split; [| done]. assert (k ∉ R') as Hnew. { apply (last_key_new (blocks (fl_blks f)) V' e); try done; [apply (lo_nodup _ _ _ _ Hl) |]. intros k' x y Hx Hy. apply Hh in Hx, Hy. congruence. }
    rewrite drop_key_split in Hf' by (done || apply not_elem_of_nil). rewrite app_nil_r in Hf'. rewrite length_app in Hlen. cbn in Hlen. rewrite <- Hlen. replace (pred (length R' + 1 + 0)) with (length R') by lia. by rewrite take_app_length.
  - rewrite app_assoc, last_or_snoc in Ht. rewrite Ht. apply Forall_app in HF as [_ HF]. pose proof (proj1 (Forall_singleton _ _) HF) as HF'. pose proof HF' as (c & Hc & Hv). destruct (block_node _ _ _ Hc) as (b & Hb & Eb).
    rewrite (node_ok (Some e) _ e b eq_refl Hb). cbn [obind]. rewrite Eb, Hv. cbn [obind]. exists e, f. split; [done |]. rewrite length_app in Hlen. cbn in Hlen. rewrite take_ge by lia. done.
Qed.

Lemma represents_nodup nt cap now R f : represents nt cap now R f -> NoDup R /\ (length R <= length (fl_blks f))%nat.
Proof.
  intros Hf. pose proof Hf as [(V & F & Hl & HV & HF) Hh Hnow Hbl]. pose proof (list_ok_length _ _ _ _ Hl) as Hlen. rewrite length_app, (Forall2_length _ _ _ HV) in Hlen. split; [| lia].
  apply NoDup_alt. intros i j k Hi Hj. destruct (Forall2_lookup_r _ _ _ _ _ HV Hi) as (x & Hx & Hkx). destruct (Forall2_lookup_r _ _ _ _ _ HV Hj) as (y & Hy & Hky).
  apply Hh in Hkx, Hky. assert (x = y) as -> by congruence. pose proof (lo_nodup _ _ _ _ Hl) as Hnd. apply NoDup_app in Hnd as (Hnd & _). by apply (NoDup_lookup V i j y).
Qed.

Lemma fa_frame_trans f1 f2 f3 : fa_frame f1 f2 -> fa_frame f2 f3 -> fa_frame f1 f3.
Proof. intros (A1 & A2 & A3 & A4) (B1 & B2 & B3 & B4). repeat split; congruence. Qed.

Lemma fa_step_ok nt cap n now cur o R f : represents nt cap now R f -> now <= cur < 2 ^ 64 -> fl_blkSize f = 2 ^ n -> 0 <= n < 64 -> fa_op_ok (fl_maxRequestors f) o ->
  exists r m f', fa_step cur o f = Ok (r, m, f') /\ stack_answer nt cap n o R (r, m) /\ represents nt cap cur (stack_next (length (fl_blks f)) n o R) f' /\ fa_frame f f'.
Proof.
  intros Hf Hcur Hb Hn Ho. pose proof (represents_later _ _ _ _ _ _ Hf Hcur) as Hfc. pose proof (represents_in _ _ _ _ _ (fa_op_key n o) Hf) as Hin. unfold stack_answer, stack_next. cbn [fst snd].
  destruct o as [pkt | pkt | a sec]; cbn [fa_step fa_op_key] in *.
  - pose proof (extractTag_key n (tp_addr pkt) (tp_secure pkt) f Hb Hn Ho) as Ek. destruct (tagHash f !! key_of n (tp_addr pkt) (tp_secure pkt)) as [e |] eqn:E.
    + destruct (access_hit _ _ _ _ _ pkt e Hfc) as (m & p & f' & -> & Hp & Hm & Hf' & Hfr); [by rewrite Ek |]. cbn [obind]. rewrite Ek in *. exists true, m, f'. rewrite (bool_decide_eq_true_2 (_ ∈ _)) by (apply Hin; by eexists).
      split; [done |]. split; [split; [done | by apply (mask_stack _ _ _ _ p)] | done].
    + destruct (access_miss _ _ _ _ _ pkt Hfc) as (f' & -> & Hp & Hf' & Hfr); [by rewrite Ek |]. cbn [obind]. assert (key_of n (tp_addr pkt) (tp_secure pkt) ∉ R) as Hout by (rewrite Hin; by intros [? ?]).
      exists false, 0, f'. rewrite (bool_decide_eq_false_2 (_ ∈ _)) by done. split; [done |]. split; [split; [done | by apply mask_stack_none] | done].
  - destruct Ho as [Ha Hreq]. pose proof (extractTag_key n (tp_addr pkt) (tp_secure pkt) f Hb Hn Ha) as Ek. rewrite (findBlock_represents _ _ _ _ _ _ _ Hf), Ek. cbn [obind]. destruct (tagHash f !! key_of n (tp_addr pkt) (tp_secure pkt)) as [e |] eqn:E.
    + exists true, 0, f. rewrite (bool_decide_eq_true_2 (_ ∈ _)) by (apply Hin; by eexists). done.
    + assert (key_of n (tp_addr pkt) (tp_secure pkt) ∉ R) as Hout by (rewrite Hin; by intros [? ?]). rewrite (bool_decide_eq_false_2 (_ ∈ _)) by done.
      destruct (make_room_ok _ _ _ _ _ Hf) as (e & f1 & -> & Hf1 & Hfr1 & Ht & Hfree). cbn [obind]. pose proof Hfr1 as (A1 & A2 & A3 & A4). assert (fa_extractTag (tp_addr pkt) f1 = fa_extractTag (tp_addr pkt) f) as Et by (unfold fa_extractTag; by rewrite A1).
      destruct (insert_represents _ _ _ cur _ _ pkt e Hf1 Hcur) as (f2 & -> & Hf2 & Hfr2); try done; [by rewrite A2 | |].
      { rewrite Et, Ek. apply eq_None_not_Some. rewrite <- (represents_in _ _ _ _ _ _ Hf1). intros Hk. apply Hout. apply list_elem_of_lookup_1 in Hk as [j Hj]. apply lookup_take_Some in Hj as [Hj _]. by apply list_elem_of_lookup_2 in Hj. }
      cbn [obind]. exists false, 0, f2. split; [done |]. split; [done |]. rewrite Et, Ek in Hf2. split; [done | by apply (fa_frame_trans f f1)].
  - pose proof (extractTag_key n a sec f Hb Hn Ho) as Ek. rewrite (findBlock_represents _ _ _ _ _ _ _ Hf), Ek. cbn [obind]. destruct (tagHash f !! key_of n a sec) as [e |] eqn:E.
    + destruct (invalidate_represents _ _ _ _ _ _ e Hfc E) as (f' & -> & Hf' & Hfr & _). cbn [obind]. exists true, 0, f'. rewrite (bool_decide_eq_true_2 (_ ∈ _)) by (apply Hin; by eexists). done.
    + assert (key_of n a sec ∉ R) as Hout by (rewrite Hin; by intros [? ?]). exists false, 0, f. rewrite (bool_decide_eq_false_2 (_ ∈ _)) by done. rewrite drop_key_absent by done. done.
Qed.

Lemma fa_run_ok nt cap n os : 0 <= n < 64 -> forall now R f, represents nt cap now R f -> fl_blkSize f = 2 ^ n -> fa_ops_ok (fl_maxRequestors f) now os ->
  exists rs f' R' now', fa_run os f = Ok (rs, f') /\ stack_run (length (fl_blks f)) nt cap n R os rs R' /\ represents nt cap now' R' f' /\ fa_frame f f'.
Proof.
  intros Hn. induction os as [| [cur o] os IH]; intros now R f Hf Hb Hos; [exists [], f, R, now; split; [done |]; split; [constructor | done] |]. destruct Hos as (Hcur & Ho & Hos).
  destruct (fa_step_ok nt cap n now cur o R f Hf Hcur Hb Hn Ho) as (r & m & f1 & E1 & Ha & Hf1 & Hfr1). pose proof Hfr1 as (A1 & A2 & A3 & _).
  destruct (IH cur _ f1 Hf1) as (rs & f2 & R2 & now2 & E2 & Hs & Hf2 & Hfr2); [by rewrite A1 | by rewrite A2 |]. exists ((r, m) :: rs), f2, R2, now2. cbn [fa_run]. rewrite E1. cbn [obind]. rewrite E2. cbn [obind].
  split; [done |]. split; [apply stack_more; [done | by rewrite A3 in Hs] |]. split; [done | by apply (fa_frame_trans f f1)].
Qed.

(** The tracked caches of a store with blocks of [2 ^ k] bytes pass the check. *)
Lemma check_represents size s k c0 now R f : size = 2 ^ s -> 0 <= k <= s -> s < 32 -> (2 <= c0)%nat -> fl_blkSize f = 2 ^ k -> length (fl_blks f) = Z.to_nat (size / 2 ^ k) -> 2 ^ k * Z.of_nat c0 < 2 ^ 32 ->
  minTrackedSize (cacheTracking f) = 2 ^ k * Z.of_nat c0 -> represents (tracked_caches (2 ^ k * Z.of_nat c0) size) (tracked_blocks c0) now R f -> fa_check f = Ok tt.
Proof.
  intros -> Hk Hs Hc Hb Hlen Hsmall Hmin [(V & F & Hl & _) _ _ _]. destruct (tracked_fit (2 ^ k) s k c0 eq_refl Hk Hs Hc) as (Hn & Hcap & Hlast & Hwide). set (nt := tracked_caches _ _) in *.
  pose proof (list_ok_length _ _ _ _ Hl) as HL. rewrite Hlen in HL. assert (0 < 2 ^ k) as Hpk by (apply Z.pow_pos_nonneg; lia). unfold fa_check. rewrite (lo_tail _ _ _ _ Hl), (lo_head _ _ _ _ Hl), Hb, Hmin, Hlen.
  assert (2 ^ k * Z.of_nat (tracked_blocks c0 nt) < 2 ^ 32) as Hw. { destruct (decide (0 < nt)%nat) as [H | H]; [by apply Hwide |]. replace nt with 0%nat by lia. rewrite tracked_Z. cbn. lia. }
  pose proof (check_loop_passes nt (Z.to_nat (2 ^ s / 2 ^ k)) (tracked_blocks c0) (2 ^ k) Hn Hcap Hlast (tracked_double c0) Hpk Hw (fl_blks f) (boundaries (cacheTracking f)) (V ++ F) (S (Z.to_nat (2 ^ s / 2 ^ k)))
    (lo_nodup _ _ _ _ Hl) HL (lo_linked _ _ _ _ Hl) (lo_masks _ _ _ _ Hl) (lo_bounds _ _ _ _ Hl) 0%nat 0%nat (inAllCachesMask (cacheTracking f))) as H.
  rewrite Z.mul_0_r, tracked_Z in H. cbn [Z.of_nat Z.pow] in H. rewrite Z.mul_1_r in H. replace (first_or None (V ++ F)) with ((V ++ F) !! 0%nat) by (by destruct (V ++ F)). apply H; try lia.
  - unfold tracked_blocks. cbn. lia.
  - apply (mask_all_suffix _ (tracked_blocks c0)); [apply (lo_in_all _ _ _ _ Hl) |]. intros i Hi. by apply Hcap.
Qed.

(** C38: fully associative tags are a stack of the blocks they hold, the last used first.
    From a new store on whose smallest tracked cache is a multiple of the block and holds
    at least two blocks, with a cache of at least two blocks whose size fits 32 bits, every
    history of lookups, fills and evictions, with 64-bit addresses and known requestors, at
    times that do not go back runs without a failed assertion; a block is found exactly when
    it is in the stack, a lookup brings it to the front, a fill of a block that is not there
    puts it in front and drops the last one when there is no room.  The mask that a lookup
    returns has the bit of a tracked smaller cache exactly when the block is among as many
    blocks at the front as that cache has.  The check of a debugging build passes at the
    end, hence after every operation.  With a smallest tracked cache of one block the second
    fill of an empty store reads through a null pointer. *)
Theorem falru_is_a_stack size blk c0 lat maxReq bound garbage f0 os :
  new_FALRU size blk (blk * Z.of_nat c0) lat maxReq bound garbage = Ok f0 -> in_width 32 size -> 0 <= blk -> 2 * blk <= size -> (2 <= c0)%nat -> blk * Z.of_nat c0 < 2 ^ 32 ->
  (Z.to_nat (size / blk) <= length garbage)%nat -> fa_ops_ok maxReq 0 os ->
  exists f rs f' R, fa_tagsInit f0 = Ok f /\ fa_run os f = Ok (rs, f') /\
    stack_run (Z.to_nat (size / blk)) (tracked_caches (blk * Z.of_nat c0) size) (tracked_blocks c0) (Z.log2 blk) [] os rs R /\ NoDup R /\ (length R <= Z.to_nat (size / blk))%nat /\
    (forall a sec, in_width 64 a -> exists r, fa_findBlock a sec f' = Ok r /\ (is_Some r <-> key_of (Z.log2 blk) a sec ∈ R)) /\ fa_check f' = Ok tt.
Proof.
  intros Hnew Hsize Hblk Htwo Hc Hmin Hg Hos. destruct (new_represents _ _ _ _ _ _ _ _ Hnew Hsize Hblk Htwo Hc Hmin Hg) as (k & s & f & Ef & Hf & Hmt & Hbs & Hmr & Hlen & Ek & Esz & Hk & Hs).
  assert (Z.log2 blk = k) as Hlog by (rewrite Ek; apply Z.log2_pow2; lia). rewrite Hlog. rewrite <- Hmr in Hos.
  destruct (fa_run_ok _ _ k os ltac:(lia) 0 [] f Hf) as (rs & f' & R & now & Er & Hr & Hf' & A1 & A2 & A3 & A4); [congruence | done |]. exists f, rs, f', R. split; [done |]. split; [done |].
  rewrite Hlen in Hr. split; [done |]. destruct (represents_nodup _ _ _ _ _ Hf') as [Hnd Hle]. rewrite A3, Hlen in Hle. split; [done |]. split; [done |]. split.
  - intros a sec Ha. eexists. split; [apply (findBlock_represents _ _ _ _ _ _ _ Hf') |]. rewrite (extractTag_key k) by (done || lia || congruence). symmetry. apply (represents_in _ _ _ _ _ _ Hf').
  - subst blk. apply (check_represents size s k c0 now R); try done; try lia; congruence.
Qed.

(** * Examples *)

(** Eight blocks of 64 bytes, with tracked caches of two and four blocks. *)
Definition ex_falru : outcome FALRU := new_FALRU 512 64 (64 * Z.of_nat 2) 2 1 4 (replicate 8 0).
Definition ex_use (a : Z) : TagPkt := mkTagPkt a false 0 0.
Definition ex_stack_history : list (Z * fa_op) :=
  [(1, FaFill (ex_use 0)); (2, FaFill (ex_use 0x40)); (3, FaFill (ex_use 0x80)); (4, FaAccess (ex_use 0x40)); (5, FaAccess (ex_use 0)); (6, FaEvict 0x80 false); (7, FaAccess (ex_use 0x80))].

Example ex_stack_answers : (let! f := ex_falru in let! f := fa_tagsInit f in let! (rs, _) := fa_run ex_stack_history f in Ok rs) =
  Ok [(false, 0); (false, 0); (false, 0); (true, 3); (true, 2); (true, 0); (false, 0)].
Proof. vm_compute. reflexivity. Qed.

Lemma falru_is_a_stack_witness : exists f0, ex_falru = Ok f0 /\ exists f rs f' R, fa_tagsInit f0 = Ok f /\ fa_run ex_stack_history f = Ok (rs, f') /\
  stack_run 8 2 (tracked_blocks 2) 6 [] ex_stack_history rs R /\ NoDup R /\ (length R <= 8)%nat /\
  (forall a sec, in_width 64 a -> exists r, fa_findBlock a sec f' = Ok r /\ (is_Some r <-> key_of 6 a sec ∈ R)) /\ fa_check f' = Ok tt.
Proof.
  destruct ex_falru as [f0 |] eqn:E; [| vm_compute in E; done]. exists f0. split; [done |].
  apply (falru_is_a_stack 512 64 2 2 1 4 (replicate 8 0) f0 ex_stack_history E); try done; try (vm_compute; done); try lia.
Defined.

(** A lookup counts its hits after it has moved the block to the head, where it is in every
    tracked cache: the third block from the head is counted as a hit of the cache of two
    blocks, although the mask, taken before the move, says that this cache has not got it. *)
Example hits_are_counted_after_the_move :
  (let! f := ex_falru in let! f := fa_tagsInit f in
   let! (rs, f) := fa_run [(1, FaFill (ex_use 0)); (2, FaFill (ex_use 0x40)); (3, FaFill (ex_use 0x80)); (4, FaAccess (ex_use 0))] f in Ok (rs, hits (cacheTracking f), misses (cacheTracking f))) =
  Ok ([(false, 0); (false, 0); (false, 0); (true, 2)], [1; 1; 1], [0; 0; 0]).
Proof. vm_compute. reflexivity. Qed.

(** A smallest tracked cache of one block has its boundary at the head.  The first fill makes
    the boundary point to nothing, since the block before the head is not there yet; the
    second one follows it. *)
Example one_block_loses_its_boundary :
  let run os := (let! f := new_FALRU 512 64 64 2 1 4 (replicate 8 0) in let! f := fa_tagsInit f in let! (_, f) := fa_run os f in Ok (boundaries (cacheTracking f))) in
  run [(1, FaFill (ex_use 0))] = Ok [None; Some 0%nat; Some 2%nat] /\ run [(1, FaFill (ex_use 0)); (2, FaFill (ex_use 0x40))] = Err Undefined.
Proof. vm_compute. done. Qed.
